(* ===== verification/_CoqProject ===== *)
-Q . S2P
Prelude.v
NtStatus.v
Ndr.v
NdrCodec.v
NbtName.v
CLib.v
DomSid.v
Token.v
SecDesc.v
AccessCheck.v
Tdb.v
TdbIo.v
TdbHeap.v
TdbChain.v
TdbFreelist.v
TdbStore.v
TdbSpec.v
Brlock.v
OpenDb.v
Notify.v
NotifyArray.v
NotifySpec.v
LdbQsort.v
LdbTime.v
LdbFilter.v
LdbFilterSpec.v
LdbAttr.v
LdbDn.v
LdbDnSpec.v
LdbDnBounds.v
LdbDnRefine.v
LdbMatch.v
LdbMatchEval.v
LdbMatchSpec.v
UtilTime.v
IdTree.v
IdTreeSpec.v
Talloc.v
TallocRep.v
TallocOps.v
TallocFree.v
TallocTree.v
TallocApi.v
TallocSpec.v
TallocExact.v
Iconv.v
Unistr.v
Fnmatch.v
WinsName.v
WinsDb.v
WinsRepl.v
WinsScav.v
WinsServer.v
