(* ===== verification/Prelude.v ===== *)
(** * Samba 4: a verification library

    This library models parts of the C sources under [src/source4] in Rocq and
    proves what makes them correct.  The parts chosen are the ones where the
    server keeps state that clients compete for, decides who may do what, or
    reads what a stranger sent: access control, the two databases that
    arbitrate file access between server processes, the WINS name service with
    its replication, and the marshalling of packets.

    ** The parts and the files that model them

    - Access control.  [DomSid] models [libcli/security/dom_sid.c] (SIDs:
      comparison, text, RIDs); [Token] models [security_token.c] and
      [privilege.c]; [SecDesc] models [security_descriptor.c] and the sizes of
      [librpc/ndr/ndr_sec_helper.c]; [AccessCheck] models [access_check.c],
      which evaluates a descriptor of [SecDesc] for a token of [Token].
    - File access.  [Brlock] models [ntvfs/common/brlock.c] and
      [brlock_tdb.c]: the table of byte-range locks of a file, with pending
      locks and the messages that wake their owners.  [OpenDb] models
      [opendb.c] and [opendb_tdb.c]: the open files with their share modes,
      oplocks, delete-on-close and pending opens.  Both keep one record per
      file in a tdb; [Tdb] is what they use of it: a finite map with chain
      locks, the messages sent, and a script of faults, among them the store
      that fails and loses the old record.
    - Change notification.  [Notify] models [ntvfs/common/notify.c]: the watches
      of all server processes in one record of notify.tdb, the copies the
      processes keep, and the messages a change sends.  The generated encoder
      ([NotifyCodec]), [qsort] ([CQsort]) and the system backend
      ([sys_backend]) are parameters.  [NotifyArray] proves the search, and that
      arrays stay well formed; [NotifySpec] shows what the processes see.
    - The tdb file.  [TdbIo] models [lib/tdb/common/io.c] and [lock.c]: the
      bytes of a database, access to them in either byte order, and the chain,
      record and global locks.  [TdbFreelist] models [freelist.c], the
      allocation of space, and [TdbStore] models [tdb.c], the operations on
      records.  [TdbHeap] says which blocks and list heads the bytes stand for
      and [TdbChain] how the lists run through them and which map that makes;
      neither has code.  [TdbSpec] shows that processes which share a file see
      a finite map, which is what [Tdb] starts from.
    - WINS.  [WinsName] models the names in [nbt_server/wins/winsdb.c]: the DN
      of a name, a text put together without escapes, its key in the database
      ([ltdb_key] of [ldb_tdb.c]), and the name of a DN; the DNs are those of
      [LdbDn].  [WinsDb] models the rest of [winsdb.c], the database of
      registered names: address lists, records and the messages they become,
      versions, and updates in the nested transactions of
      [lib/tdb/common/transaction.c], whose calls may each fail.  [WinsServer] models [winsserver.c] and the challenge
      part of [winswack.c], the handlers of the requests of clients.
      [WinsRepl] models [wrepl_server/wrepl_apply_records.c] and the owner
      table of [wrepl_server.c], which apply the records of replication
      partners to the same database.  [WinsScav] models [wrepl_scavenging.c]
      and the scheduling of [wrepl_periodic.c]: the passes that release, bury
      and delete the records nobody renews.
    - Marshalling.  [Ndr] models [librpc/ndr/ndr.c], [ndr_basic.c] and the
      macros of [libndr.h]: the buffers a packet is pulled from and pushed
      into, alignment, scalars in both byte orders, blobs, subcontexts,
      relative pointers and the token lists.  [NdrCodec] has no code of its
      own: it states what a push function and a pull function of the same type
      owe each other (the class [NdrCodec]) and shows it for the operations of
      [Ndr] and for the ways messages combine them.  [NbtName] models
      [libcli/nbt/nbtname.c], the NetBIOS names on the wire, with label
      pointers, and their text form.
    - Library code the WINS database rests on.  [LdbQsort] models
      [lib/ldb/common/qsort.c], [LdbTime] the time strings of
      [lib/ldb/common/ldb_msg.c] and their order, [UtilTime]
      [lib/util/time.c]: NTTIME, DOS dates, [struct timeval].  Each file states,
      as a class, what its clients rely on ([LdbQsort], [TimeCodec],
      [TimeOrder]); the clients are proved against the class, and
      [ldb_qsort_impl], [ldb_time] and [ldb_time_order] show that the code
      satisfies it.  [OpenDb] has such a class for the generated NDR encoder
      ([OpendbCodec]), which is not among the sources.
    - LDAP filters and names.  [LdbFilter] models [lib/ldb/common/ldb_parse.c]:
      the text of a filter is the memory from a pointer on, so a read beyond it
      is a result of its own.  [LdbAttr] models [ldb_attributes.c],
      [attrib_handlers.c] and [ldb_utf8.c]: the table of attributes with their
      syntaxes, the comparison and the canonical form of values.  [LdbDn] models
      [ldb_dn.c]: the objects that keep a DN as text, as components and in
      canonical form, each made from another when it is needed, and the loop
      that explodes a text.  [LdbMatch] models [ldb_match.c], the evaluation of a
      filter on a message, which folds the DNs it looks at.  The theorems are in
      [LdbFilterSpec], [LdbMatchSpec], [LdbDnSpec], [LdbDnBounds], [LdbDnRefine]
      and [LdbMatchEval].  The table of attributes is an argument, and so is the
      case folding a program installs.
    - Text.  [Iconv] models the built-in converters of [lib/charset/iconv.c],
      [Unistr] the functions of [charcnv.c] and [util_unistr.c] that step
      through a string character by character, and [Fnmatch] the matcher of
      file name patterns, [lib/util/ms_fnmatch.c], which uses them.
    - Id trees.  [IdTree] models [lib/util/idtree.c], which hands out file
      numbers and search ids, and [IdTreeSpec] shows what it promises.
    - Memory.  [Talloc] models [lib/talloc/talloc.c], the hierarchical
      allocator under all of the above, with its headers, sibling lists,
      references, destructors and null context.  [TallocRep] says which forest
      of chunks the headers stand for; [TallocOps], [TallocFree], [TallocTree]
      and [TallocApi] show what the operations do to it; [TallocSpec] states the
      contract of a program and what each call promises, and [TallocExact] which
      chunks a free frees, with an allocator as an example and what goes wrong
      outside the contract.  The other models do not depend on it: for them an
      allocation succeeds.
    - [NtStatus] and [CLib] hold the status codes and the functions of the C
      library that the code calls.  This file holds what the others share.

    ** How the code is represented

    A function that reads and writes a store is a computation [ST S A], that is
    [S -> A * S], written with [do] notation; a handler is one such computation
    with its conditions and early returns in the order of the code.  Handlers
    run to completion one at a time, as they do in the event loop of a server
    process; what happens later (the answer to a challenge, the next operation
    of another process) is another step on the store.  Errors are values: an
    NTSTATUS, an rcode, [option] or a sum.  A database call that can fail takes
    the next entry of a script of faults, so a theorem for every store is a
    theorem for every pattern of failures.

    A parser or printer of packets is such a computation on the buffer, with
    three results: a value, an NTSTATUS, and [Fault] for a read or write
    outside a buffer, which the theorems exclude.

    Integers are [Z] with the wrap-around of their width written out ([u32],
    [u64], [s32], ...).  Strings are free of NUL.  Memory allocation succeeds,
    except where an out-of-memory path is the only error path of a function.

    A loop that is not structural has fuel and gives [None] without it. The sort
    has fuel for the length of the array in each loop, the address loop of a
    challenge for the 25 entries of a list, the choice of the first address for
    their number; the bisections of the watches and of the attributes have fuel
    for one more than the number of entries; the parser of filters for four
    calls per byte; the explosion of a DN for one more than its bytes; the
    search for the last chunk of a pattern for each byte of the value; the
    functions of talloc that go through the tree for four calls per chunk and
    four more ([enough]); a walk
    along a list of a tdb has the number of bytes of the file, and an allocation
    tries twice, the second time after the file was extended. The theorems about
    them say that the result is never [None]. A read or write outside the array
    of the sort, outside the mapping of a tdb or beyond the end of a path that
    changed gives [None] too.

    ** What the theorems show

    - Invariants of shared state: a byte that two holders have locked both
      have locked for reading, but for ranges up to the end of the 64-bit space,
      where the code wraps, and compatible opens stay compatible
      ([Brlock.table_exclusion], [OpenDb.open_files_consistent]), over any
      sequence of calls of any processes and any failures, and no chain stays
      locked.
    - Change notification: the shared array and the copies refine one list of
      watches ([NotifySpec.notify_refines_watches]); a change reaches the
      callback of every watch it matches ([NotifySpec.notify_delivered]); and
      whatever lock or store fails, the bisection of a trigger finds exactly the
      matching entries of the array it has ([NotifySpec.notify_trigger_exact]).
    - Functional correctness: the per-bit meaning of an access check, the exact
      outcome of lock, unlock, close and open, what the address lists, the
      merge of replicated groups, and the replacement decisions of replication
      come to.
    - Safety of names: a name that is held is not given away unasked, a static
      record is not replaced, records of other names are not touched, only a
      holder releases a name; whatever fails inside a transaction, a store is
      rolled back or done, but for a commit that fails after its writes
      ([WinsDb.winsdb_store_atomic], [WinsDb.commit_left_open]).  What is added
      is found ([WinsDb.winsdb_add_lookup]), for names that a DN can hold
      ([WinsName.nbt_name_roundtrip], [WinsName.refused_names]).
    - The life of a name: what each scavenging pass does to each record, and
      that a name nobody renews is released, made a tombstone and deleted
      ([WinsScav.scavenging_passes_correct], [WinsScav.name_expires]).
    - Round trips: SIDs and text, records and LDB messages, times and text,
      lock then unlock, add then delete, register then query then release.
    - Packets: whatever a parser does with the values it reads, it stays
      inside the packet ([Ndr.ndr_parser_in_bounds]) and the values are of
      their C types ([NdrCodec.ndr_fields_typed]); a message or a list of names
      that is pushed is pulled back ([NdrCodec.ndr_message_roundtrip],
      [NbtName.nbt_names_roundtrip]); a hostile name gives an error and nothing
      worse ([NbtName.ndr_pull_nbt_name_safe]).
    - Text: valid text survives conversion ([Iconv.utf8_conversion]), a
      converter can be resumed where it stopped ([Iconv.converters_ok]), and the
      pattern matcher is equivalent to the meaning of its wildcards
      ([Fnmatch.ms_fnmatch_correct]).
    - LDAP filters: a filter that is printed is parsed back
      ([LdbFilterSpec.ldb_filter_roundtrip]); the parser stays within one byte of
      any text ([LdbFilterSpec.ldb_parse_in_bounds]) but drops what it cannot
      decode ([LdbFilterSpec.ldb_parse_list_truncated]); substring matches,
      comparison of strings and the lookup of attributes mean what they should,
      with the exceptions the theorems name
      ([LdbMatchSpec.ldb_wildcard_compare_correct],
      [LdbMatchSpec.ldb_fold_consistent], [LdbMatchSpec.ldb_schema_lookup]); and
      a search selects what its filter means
      ([LdbMatchEval.ldb_match_msg_correct]).
    - Distinguished names: a DN object refines the list of its components, so
      nothing it keeps is out of date ([LdbDnRefine.ldb_dn_refines_list]); a DN
      is read back from its text ([LdbDnSpec.ldb_dn_roundtrip]); a text without
      blanks whose last escape is complete is exploded within its buffers
      ([LdbDnBounds.ldb_dn_explode_in_bounds]); and
      [LdbDnRefine.ldb_dn_compare_base_exact] says when a DN is below another,
      which depends on what is cached.
    - Memory: a program that keeps to the contract of talloc never reaches freed
      memory, and its calls do what they should to the forest of chunks
      ([TallocSpec.talloc_refines_forest]); a free frees what is below and does
      not refuse ([TallocExact.talloc_free_exact]).
    - Data structures: an id tree used within its contract is a finite map
      ([IdTreeSpec.idr_refines_map]).  A tdb file is one for any number of
      processes with contexts of different ages, whatever record locks the
      kernel refuses, as long as it fits in 32 bits ([TdbSpec.tdb_refines_map]);
      a store that finds no space loses the old record
      ([TdbSpec.tdb_store_correct]).
    - Termination and bounds: the sort stays in its array and its stack.
    - Where the code does something else than its comments say, a theorem says
      what it does (deleting the ACEs of a trustee, waking the owners of pending
      locks on a close, an access check for maximum access, a copied
      descriptor, the addresses after a challenge).

    ** What is not modelled

    Start-up and configuration, the network and RPC layers, the asynchronous
    client code, the marshalling code pidl generates (the theorems about packets
    are about any composition of the operations it calls), NDR strings and the
    printing of packets, the LDAP server, the modules and the backend of ldb
    (but for what the WINS database uses of it), LDIF and directory services, authentication protocols, Kerberos, the POSIX
    back end, and vendored libraries. Of tdb: the bytes of transactions and
    their recovery (the WINS database has only their outcomes; a failed read
    that marks a transaction as failed is there the failed commit it leads to),
    the opening of existing files, and an extension of the file that fails half
    way. Of change notification: the inotify backend and the buffers of the back
    ends. Debug output and the WINS hook script are left out of the handlers. *)

From stdpp Require Export base list gmap strings.
From Stdlib Require Export ZArith Lia.

#[global] Open Scope Z_scope.

(** ** Machine integers

    C integers are [Z] values; the conversions write the wrap-around out.
    [u8], [u16], [u32], [u64] are the unsigned conversions, [s32] is the
    conversion to [int] on the two's complement targets Samba runs on. *)

Definition u8 (x : Z) : Z := x mod 2 ^ 8.
Definition u16 (x : Z) : Z := x mod 2 ^ 16.
Definition u32 (x : Z) : Z := x mod 2 ^ 32.
Definition u64 (x : Z) : Z := x mod 2 ^ 64.
Definition s32 (x : Z) : Z := (x + 2 ^ 31) mod 2 ^ 32 - 2 ^ 31.
Definition s8 (x : Z) : Z := (x + 2 ^ 7) mod 2 ^ 8 - 2 ^ 7.

(** [m & f] used as a truth value. *)
Definition has_bits (m f : Z) : bool := negb (Z.land m f =? 0).

(** [m & ~f] on unsigned words. *)
Definition clear_bits (m f : Z) : Z := Z.ldiff m f.

Declare Scope c_scope.
Delimit Scope c_scope with c.
Notation "m &? f" := (has_bits m f) (at level 30, no associativity) : c_scope.
Notation "m &~ f" := (clear_bits m f) (at level 30, no associativity) : c_scope.
Infix "|||" := Z.lor (at level 50, left associativity) : c_scope.
#[global] Open Scope c_scope.

Create HintDb samba.

(** ** Automation *)

(** Split the conjunctions of the context and substitute equations. *)
Ltac invc H := inversion H; subst; clear H.

(** Case on the first [if] or [match] of the goal (or of a hypothesis),
    closing the branches that are impossible by congruence. *)
Ltac case_goal :=
  match goal with
  | |- context [if ?b then _ else _] => destruct b eqn:?
  | |- context [match ?x with _ => _ end] => destruct x eqn:?
  end; try congruence.

Ltac case_hyp H :=
  match type of H with
  | context [if ?b then _ else _] => destruct b eqn:?
  | context [match ?x with _ => _ end] => destruct x eqn:?
  end; try congruence.

(** Turn boolean tests of the context into propositions. *)
Ltac bool_hyps :=
  repeat match goal with
  | H : _ && _ = true |- _ => apply andb_prop in H as [? ?]
  | H : _ || _ = false |- _ => apply orb_false_elim in H as [? ?]
  | H : negb _ = true |- _ => apply negb_true_iff in H
  | H : negb _ = false |- _ => apply negb_false_iff in H
  | H : (_ =? _) = true |- _ => apply Z.eqb_eq in H
  | H : (_ =? _) = false |- _ => apply Z.eqb_neq in H
  | H : (_ <=? _) = true |- _ => apply Z.leb_le in H
  | H : (_ <=? _) = false |- _ => apply Z.leb_gt in H
  | H : (_ <? _) = true |- _ => apply Z.ltb_lt in H
  | H : (_ <? _) = false |- _ => apply Z.ltb_ge in H
  | H : bool_decide _ = true |- _ => apply bool_decide_eq_true in H
  | H : bool_decide _ = false |- _ => apply bool_decide_eq_false in H
  end.

(** ** Machine-integer lemmas *)

Lemma u8_range x : 0 <= u8 x < 256.
Proof. unfold u8. apply Z.mod_pos_bound; lia. Qed.
Lemma u32_range x : 0 <= u32 x < 2 ^ 32.
Proof. unfold u32. apply Z.mod_pos_bound; lia. Qed.
Lemma u64_range x : 0 <= u64 x < 2 ^ 64.
Proof. unfold u64. apply Z.mod_pos_bound; lia. Qed.
Lemma u32_small x : 0 <= x < 2 ^ 32 -> u32 x = x.
Proof. apply Z.mod_small. Qed.
Lemma u64_small x : 0 <= x < 2 ^ 64 -> u64 x = x.
Proof. apply Z.mod_small. Qed.
Lemma s32_small x : - 2 ^ 31 <= x < 2 ^ 31 -> s32 x = x.
Proof. intros H. unfold s32. rewrite Z.mod_small; lia. Qed.

(** A signed value survives the conversion to unsigned and back. *)
Lemma s32_u32 x : - 2 ^ 31 <= x < 2 ^ 31 -> s32 (u32 x) = x.
Proof. intros H. unfold s32, u32. rewrite Zplus_mod_idemp_l, Z.mod_small; lia. Qed.

(** The signed difference of two 32-bit words is zero only when they agree:
    what makes [a - b] a sound equality test even where it is no order. *)
Lemma s32_diff_zero a b :
  0 <= a < 2 ^ 32 -> 0 <= b < 2 ^ 32 -> s32 (a - b) = 0 -> a = b.
Proof.
  intros Ha Hb H. unfold s32 in H.
  pose proof (Z.div_mod (a - b + 2 ^ 31) (2 ^ 32)) as Hd. lia.
Qed.

Lemma land_255 x : Z.land x 255 = x mod 256.
Proof. apply (Z.land_ones x 8). lia. Qed.
Lemma land_65535 x : Z.land x 65535 = x mod 65536.
Proof. apply (Z.land_ones x 16). lia. Qed.
Lemma land_ffffffff x : Z.land x 4294967295 = x mod 2 ^ 32.
Proof. apply (Z.land_ones x 32). lia. Qed.

(** [a | b << k] of a [k]-bit [a] is a sum. *)
Lemma lor_shiftl_add a b k :
  0 <= k -> 0 <= a < 2 ^ k -> a ||| Z.shiftl b k = a + b * 2 ^ k.
Proof.
  intros Hk Ha. rewrite Z.shiftl_mul_pow2 by done.
  assert (Z.land a (b * 2 ^ k) = 0) as H0.
  { apply Z.bits_inj'. intros n Hn. rewrite Z.land_spec, Z.bits_0.
    destruct (Z.ltb_spec n k).
    - rewrite Z.mul_pow2_bits_low by lia. apply andb_false_r.
    - rewrite <- (Z.mod_small a (2 ^ k)) by done. rewrite Z.mod_pow2_bits_high by lia. done. }
  rewrite <- Z.lxor_lor by done. symmetry. by apply Z.add_nocarry_lxor.
Qed.

Lemma has_bits_testbit m f :
  has_bits m f = true <-> exists b, 0 <= b /\ Z.testbit m b = true /\ Z.testbit f b = true.
Proof.
  unfold has_bits. rewrite negb_true_iff, Z.eqb_neq. split.
  - intros Hne. destruct (Z.eq_dec (Z.land m f) 0) as [|Hx]; [done|].
    assert (exists b, Z.testbit (Z.land m f) b = true) as [b Hb].
    { destruct (Z.land m f) as [|p|p] eqn:E; [done| |].
      - exists (Z.log2 (Z.pos p)). apply Z.bit_log2. lia.
      - exists (Z.log2 (Z.pred (Z.pos p)) + 1).
        apply Z.bits_above_log2_neg; [lia|]. change (- Z.neg p) with (Z.pos p). lia. }
    rewrite Z.land_spec in Hb. apply andb_prop in Hb as [H1 H2].
    exists b. split; [|done].
    destruct (Z.ltb_spec b 0); [rewrite Z.testbit_neg_r in H1 by lia; done | lia].
  - intros (b & Hb & H1 & H2) Hz.
    assert (Z.testbit (Z.land m f) b = true) as Hc
      by (rewrite Z.land_spec, H1, H2; done).
    rewrite Hz, Z.bits_0 in Hc. done.
Qed.

Lemma has_bits_false_testbit m f b :
  has_bits m f = false -> Z.testbit m b = true -> Z.testbit f b = true -> False.
Proof.
  intros Hf H1 H2. enough (has_bits m f = true) by congruence.
  apply has_bits_testbit. exists b. split; [|done].
  destruct (Z.ltb_spec b 0); [rewrite Z.testbit_neg_r in H1 by lia; done | lia].
Qed.

Lemma clear_bits_spec m f b :
  Z.testbit (clear_bits m f) b = Z.testbit m b && negb (Z.testbit f b).
Proof. apply Z.ldiff_spec. Qed.

Create Rewrite HintDb bits.
#[export] Hint Rewrite clear_bits_spec Z.lor_spec Z.land_spec : bits.

Lemma eq_zero_testbit m :
  m = 0 <-> forall b, 0 <= b -> Z.testbit m b = false.
Proof.
  split; [intros -> b _; apply Z.bits_0|].
  intros H. apply Z.bits_inj'. intros n Hn. rewrite H, Z.bits_0; done.
Qed.

(** ** Lists

    [find_idx p l] is the C loop [for (i=0;i<n;i++) if (p(l[i])) break;]:
    [Some i] is the index at the break, [None] means the loop ran out. *)

Fixpoint find_idx {A} (p : A -> bool) (l : list A) : option nat :=
  match l with
  | [] => None
  | x :: l' => if p x then Some 0%nat else S <$> find_idx p l'
  end.

Section find_idx.
Context {A : Type} (p : A -> bool).
Implicit Types (l : list A).

Lemma find_idx_Some l i :
  find_idx p l = Some i ->
  exists x, l !! i = Some x /\ p x = true /\
            (forall j y, (j < i)%nat -> l !! j = Some y -> p y = false).
Proof.
  revert i. induction l as [|x l IH]; intros i; simpl; [done|].
  destruct (p x) eqn:Ex.
  - intros [= <-]. exists x. repeat split; [done|]. intros j y Hj; lia.
  - destruct (find_idx p l) as [k|]; [|done]. intros [= <-].
    destruct (IH k eq_refl) as (z & Hz & Hp & Hlt).
    exists z. repeat split; [done..|]. intros [|j] y Hj; simpl; [congruence|].
    apply Hlt. lia.
Qed.

Lemma find_idx_None l : find_idx p l = None <-> forall x, x ∈ l -> p x = false.
Proof.
  induction l as [|x l IH]; simpl; [split; [intros _ y Hy; inversion Hy | done]|].
  destruct (p x) eqn:Ex; split.
  - done.
  - intros H. rewrite (H x) in Ex by left. done.
  - intros H y. rewrite elem_of_cons. intros [->|Hy]; [done|].
    apply IH; [|done]. by destruct (find_idx p l).
  - intros H. rewrite (proj2 IH); [done|]. intros y Hy. apply H. by right.
Qed.

Lemma find_idx_lt l i : find_idx p l = Some i -> (i < length l)%nat.
Proof. intros (x & Hx & _)%find_idx_Some. by eapply lookup_lt_Some. Qed.

Lemma find_idx_snoc l x :
  find_idx p l = None -> p x = true -> find_idx p (l ++ [x]) = Some (length l).
Proof.
  induction l as [|y l IH]; simpl; [by intros _ ->|]. destruct (p y); [done|].
  destruct (find_idx p l) as [|] eqn:E; [done|]. intros _ Hx. by rewrite (IH eq_refl Hx).
Qed.
End find_idx.

Lemma existsb_elem_of {A} (p : A -> bool) l :
  existsb p l = true <-> exists x, x ∈ l /\ p x = true.
Proof.
  rewrite existsb_exists. split; intros (x & Hx & Hp); exists x; split; auto;
    by apply list_elem_of_In.
Qed.

Lemma existsb_false_elem_of {A} (p : A -> bool) l :
  existsb p l = false <-> forall x, x ∈ l -> p x = false.
Proof.
  rewrite <- not_true_iff_false, existsb_elem_of. split.
  - intros H x Hx. apply not_true_iff_false. naive_solver.
  - intros H (x & Hx & Hp). by rewrite H in Hp.
Qed.

Lemma forallb_elem_of {A} (p : A -> bool) l :
  forallb p l = true <-> forall x, x ∈ l -> p x = true.
Proof.
  rewrite forallb_forall. split; intros H x Hx; apply H; by apply list_elem_of_In.
Qed.

Lemma existsb_filter_length {A} (p : A -> bool) l :
  existsb p l = true -> length (List.filter p l) <> 0%nat.
Proof.
  induction l as [|x l IH]; simpl; [done|]. by destruct (p x); simpl; [|apply IH].
Qed.

Lemma existsb_false_filter {A} (p : A -> bool) l :
  existsb p l = false -> List.filter p l = [] /\ List.filter (fun x => negb (p x)) l = l.
Proof.
  induction l as [|x l IH]; simpl; [done|]. destruct (p x); simpl; [done|].
  intros H. destruct (IH H) as [H1 H2]. by rewrite H2.
Qed.

Lemma flat_map_none {A B} (l : list A) : List.flat_map (fun _ => @nil B) l = [].
Proof. by induction l. Qed.

(** [ordered R l]: [R] holds from every element to every later one. *)
Definition ordered {A} (R : A -> A -> Prop) (l : list A) : Prop :=
  forall i j x y, (i < j)%nat -> l !! i = Some x -> l !! j = Some y -> R x y.

Section ordered.
Context {A : Type} (R : A -> A -> Prop).

Lemma ordered_nil : ordered R [].
Proof. intros i j x y _ H. by rewrite lookup_nil in H. Qed.

Lemma ordered_snoc l x :
  ordered R l -> (forall y, y ∈ l -> R y x) -> ordered R (l ++ [x]).
Proof.
  intros Ho Hx i j y z Hij Hi Hj.
  pose proof (lookup_lt_Some _ _ _ Hj) as Hl. rewrite length_app in Hl; simpl in Hl.
  rewrite lookup_app_l in Hi by lia.
  destruct (decide (j < length l)%nat).
  - rewrite lookup_app_l in Hj by done. by eapply (Ho i j).
  - rewrite lookup_app_r in Hj by lia.
    replace (j - length l)%nat with 0%nat in Hj by lia. simplify_eq/=.
    apply Hx. by eapply list_elem_of_lookup_2.
Qed.

Lemma ordered_sublist l k : sublist k l -> ordered R l -> ordered R k.
Proof.
  intros Hs. induction Hs as [|x k l Hs IH|x k l Hs IH]; intros Ho; [done|..].
  - intros [|i] [|j] y z Hij Hi Hj; simplify_eq/=; [lia|..|lia|].
    + apply list_elem_of_lookup_2 in Hj. eapply elem_of_sublist in Hj; [|done].
      apply list_elem_of_lookup in Hj as [m Hm].
      apply (Ho 0%nat (S m)); [lia|done..].
    + eapply (IH ltac:(intros a b u v Hab Hu Hv; apply (Ho (S a) (S b)); [lia|done..]) i j);
        [lia|done..].
  - apply IH. intros a b u v Hab Hu Hv. apply (Ho (S a) (S b)); [lia|done..].
Qed.
End ordered.

(** ** The state monad

    A C function that reads and writes a shared store is a function
    [S -> A * S]: [S] is the store, [A] the value it returns. *)

Definition ST (S A : Type) : Type := S -> A * S.

Definition st_ret {S A} (a : A) : ST S A := fun s => (a, s).
Definition st_bind {S A B} (m : ST S A) (k : A -> ST S B) : ST S B :=
  fun s => let '(a, s') := m s in k a s'.
Definition st_get {S} : ST S S := fun s => (s, s).
Definition st_modify {S} (f : S -> S) : ST S unit := fun s => (tt, f s).

Declare Scope st_scope.
Delimit Scope st_scope with st.
Notation "'do' x <- m ; k" := (st_bind m (fun x => k))
  (at level 60, x pattern, m at next level, right associativity) : st_scope.
Notation "'do!' m ; k" := (st_bind m (fun _ => k))
  (at level 60, m at next level, right associativity) : st_scope.
#[global] Open Scope st_scope.

(** Hoare triples over [ST], for the invariants of the stateful components. *)
Definition triple {S A} (P : S -> Prop) (m : ST S A) (Q : A -> S -> Prop) : Prop :=
  forall s, P s -> let '(a, s') := m s in Q a s'.

(** [m] preserves [I]. *)
Definition preserves {S A} (I : S -> Prop) (m : ST S A) : Prop := triple I m (fun _ => I).

Section triple.
Context {S : Type}.

Lemma triple_ret {A} (P : S -> Prop) (a : A) (Q : A -> S -> Prop) :
  (forall s, P s -> Q a s) -> triple P (st_ret a) Q.
Proof. intros H s Hs. by apply H. Qed.

Lemma triple_bind {A B} P (m : ST S A) (k : A -> ST S B) R Q :
  triple P m R -> (forall a, triple (R a) (k a) Q) -> triple P (st_bind m k) Q.
Proof.
  intros Hm Hk s Hs. unfold st_bind. specialize (Hm s Hs).
  destruct (m s) as [a s']. by apply Hk.
Qed.

Lemma triple_modify P (f : S -> S) Q :
  (forall s, P s -> Q tt (f s)) -> triple P (st_modify f) Q.
Proof. intros H s Hs. by apply H. Qed.

Lemma triple_get P Q : (forall s, P s -> Q s s) -> triple P (@st_get S) Q.
Proof. intros H s Hs. by apply H. Qed.

Lemma triple_if {A} P (b : bool) (m1 m2 : ST S A) Q :
  (b = true -> triple P m1 Q) -> (b = false -> triple P m2 Q) ->
  triple P (if b then m1 else m2) Q.
Proof. destruct b; auto. Qed.

Lemma triple_conseq {A} (P P' : S -> Prop) (m : ST S A) (Q Q' : A -> S -> Prop) :
  triple P' m Q' -> (forall s, P s -> P' s) -> (forall a s, Q' a s -> Q a s) ->
  triple P m Q.
Proof.
  intros Hm HP HQ s Hs. specialize (Hm s (HP s Hs)).
  destruct (m s) as [a s']. by apply HQ.
Qed.
End triple.

Section preserves.
Context {S : Type} (I : S -> Prop).

Lemma preserves_ret {A} (a : A) : preserves I (st_ret a).
Proof. by apply triple_ret. Qed.

Lemma preserves_bind {A B} (m : ST S A) (k : A -> ST S B) :
  preserves I m -> (forall a, preserves I (k a)) -> preserves I (st_bind m k).
Proof. intros Hm Hk. by apply triple_bind with (fun _ => I). Qed.

(** A fact about the value of [m] that the rest may use. *)
Lemma preserves_bind_fact {A B} (m : ST S A) (k : A -> ST S B) (F : A -> Prop) :
  triple I m (fun a s => I s /\ F a) -> (forall a, F a -> preserves I (k a)) ->
  preserves I (st_bind m k).
Proof.
  intros Hm Hk s Hs. unfold st_bind. specialize (Hm s Hs).
  destruct (m s) as [a s']. destruct Hm as [Hs' Ha]. by apply Hk.
Qed.
End preserves.

#[export] Hint Resolve preserves_ret preserves_bind : samba.

(** [m] leaves a part [f] of the state as it is. *)
Definition keeps {S A B} (f : S -> B) (m : ST S A) : Prop := forall s, f (m s).2 = f s.

Section keeps.
Context {S B : Type} (f : S -> B).

Lemma keeps_ret {A} (a : A) : keeps f (st_ret a).
Proof. by intros s. Qed.

Lemma keeps_bind {A C} (m : ST S A) (k : A -> ST S C) :
  keeps f m -> (forall a, keeps f (k a)) -> keeps f (st_bind m k).
Proof.
  intros Hm Hk s. unfold st_bind. specialize (Hm s). destruct (m s) as [a s'].
  simpl in Hm. rewrite <- Hm. apply Hk.
Qed.
End keeps.

#[export] Hint Resolve keeps_ret : samba.

Ltac keeps_walk :=
  repeat match goal with
  | |- forall _, _ => intro
  | |- keeps _ (st_ret _) => apply keeps_ret
  | |- keeps _ (if ?b then _ else _) => destruct b
  | |- keeps _ (match ?x with _ => _ end) => destruct x
  | |- keeps _ (let '(_, _) := ?x in _) => destruct x
  | |- keeps _ (st_bind _ _) => apply keeps_bind
  end; auto with samba.

(** Walk through the binds, conditionals and matches of a computation,
    closing the leaves with the hints. *)
Ltac st_walk :=
  repeat match goal with
  | |- forall _, _ => intro
  | |- preserves _ (st_ret _) => apply preserves_ret
  | |- preserves _ (if negb ?b then _ else _) => destruct b; cbn [negb]
  | |- preserves _ (if ?b then _ else _) => destruct b eqn:?
  | |- preserves _ (match ?x with _ => _ end) => destruct x eqn:?
  | |- preserves _ (let '(_, _) := ?x in _) => destruct x eqn:?
  | |- preserves _ (st_bind _ _) => apply preserves_bind
  end; auto with samba.
