(* ===== verification/NtStatus.v ===== *)
(** * NTSTATUS codes

    The status codes the modelled functions return
    ([source4/libcli/util/nterr.c], [source4/include/nt_status.h]).  The
    numeric values do not matter to the functions modelled here: they only
    test [NT_STATUS_IS_OK] and [NT_STATUS_EQUAL]. *)

From S2P Require Import Prelude.

Inductive NTSTATUS : Set :=
  | NT_STATUS_OK
  | NT_STATUS_UNSUCCESSFUL
  | NT_STATUS_INVALID_PARAMETER
  | NT_STATUS_NO_MEMORY
  | NT_STATUS_ACCESS_DENIED
  | NT_STATUS_PRIVILEGE_NOT_HELD
  | NT_STATUS_OBJECT_NAME_NOT_FOUND
  | NT_STATUS_INTERNAL_DB_CORRUPTION
  | NT_STATUS_INTERNAL_DB_ERROR
  | NT_STATUS_INTERNAL_ERROR
  | NT_STATUS_IO_TIMEOUT
  | NT_STATUS_LOCK_NOT_GRANTED
  | NT_STATUS_FILE_LOCK_CONFLICT
  | NT_STATUS_RANGE_NOT_LOCKED
  | NT_STATUS_SHARING_VIOLATION
  | NT_STATUS_DELETE_PENDING
  | NT_STATUS_OPLOCK_NOT_GRANTED
  | NT_STATUS_BUFFER_TOO_SMALL
  | NT_STATUS_ARRAY_BOUNDS_EXCEEDED
  | NT_STATUS_PORT_MESSAGE_TOO_LONG
  | NT_STATUS_INVALID_PARAMETER_MIX
  | NT_STATUS_BAD_NETWORK_NAME
  | NT_STATUS_FOOBAR.

#[export] Instance NTSTATUS_eq_dec : EqDecision NTSTATUS.
Proof. solve_decision. Defined.

(** [NT_STATUS_IS_OK] *)
Definition NT_STATUS_IS_OK (s : NTSTATUS) : bool := bool_decide (s = NT_STATUS_OK).

(** [NT_STATUS_EQUAL] *)
Definition NT_STATUS_EQUAL (a b : NTSTATUS) : bool := bool_decide (a = b).
