(* ===== verification/Ndr.v ===== *)
(** * NDR marshalling ([source4/librpc/ndr/ndr.c], [ndr_basic.c], [libndr.h])

    A buffer being parsed is an [ndr_pull]: the bytes that may be read,
    [pl_data], the size the parser believes in, [pl_data_size], and the offset.
    A buffer being built is an [ndr_push]: the allocated bytes [ps_data] and
    the offset of the next write; fresh bytes of an allocation are written as
    zero.  A token list has its newest entry first, as [DLIST_ADD] leaves it;
    a pointer that serves as a key is a number.

    An operation gives [Ok], [Err] with a status, or [Fault] when it reads or
    writes outside its memory, so that the bounds theorems have content.
    Loads and stores are those of the portable branch of
    [source4/lib/util/byteorder.h]. *)

From S2P Require Import Prelude NtStatus.

Local Open Scope Z_scope.

(** ** Results *)

Inductive res (A : Type) : Type :=
  | Ok (a : A)
  | Err (status : NTSTATUS)
  | Fault.
Arguments Ok {A} a.
Arguments Err {A} status.
Arguments Fault {A}.

(** A computation on a buffer; [Ndr_bind] is [NDR_CHECK] when the value is
    [unit]. *)
Definition Ndr (S A : Type) : Type := ST S (res A).

Definition Ndr_ret {S A} (a : A) : Ndr S A := st_ret (Ok a).
Definition Ndr_err {S A} (status : NTSTATUS) : Ndr S A := st_ret (Err status).
Definition Ndr_bind {S A B} (m : Ndr S A) (k : A -> Ndr S B) : Ndr S B := fun s =>
  match m s with
  | (Ok a, s') => k a s'
  | (Err e, s') => (Err e, s')
  | (Fault, s') => (Fault, s')
  end.
Definition Ndr_get {S} : Ndr S S := fun s => (Ok s, s).
Definition Ndr_modify {S} (f : S -> S) : Ndr S unit := fun s => (Ok tt, f s).
Definition Ndr_mem {S A} (o : option A) : Ndr S A :=
  st_ret (match o with Some a => Ok a | None => Fault end).

Declare Scope ndr_scope.
Notation "'try' x <- m ; k" := (Ndr_bind m (fun x => k))
  (at level 60, x pattern, m at next level, right associativity) : ndr_scope.
Notation "'try!' m ; k" := (Ndr_bind m (fun _ => k))
  (at level 60, m at next level, right associativity) : ndr_scope.
#[global] Open Scope ndr_scope.

(** ** Loads and stores *)

Definition CVAL (buf : list Z) (pos : Z) : option Z := buf !! Z.to_nat pos.
Definition SVAL (buf : list Z) (pos : Z) : option Z :=
  b0 ← CVAL buf pos; b1 ← CVAL buf (pos + 1); Some (b0 ||| Z.shiftl b1 8).
Definition IVAL (buf : list Z) (pos : Z) : option Z :=
  s0 ← SVAL buf pos; s1 ← SVAL buf (pos + 2); Some (s0 ||| Z.shiftl s1 16).

Definition SREV (x : Z) : Z :=
  Z.shiftl (Z.land x 255) 8 ||| Z.land (Z.shiftr x 8) 255.
Definition IREV (x : Z) : Z := Z.shiftl (SREV x) 16 ||| SREV (Z.shiftr x 16).

Definition SCVAL (buf : list Z) (pos v : Z) : option (list Z) :=
  if bool_decide (Z.to_nat pos < length buf)%nat
  then Some (<[Z.to_nat pos := u8 v]> buf) else None.
Definition SSVAL (buf : list Z) (pos v : Z) : option (list Z) :=
  buf ← SCVAL buf pos (Z.land (u16 v) 255); SCVAL buf (pos + 1) (Z.shiftr (u16 v) 8).
Definition SIVAL (buf : list Z) (pos v : Z) : option (list Z) :=
  buf ← SSVAL buf pos (Z.land (u32 v) 65535); SSVAL buf (pos + 2) (Z.shiftr (u32 v) 16).

Definition s16 (x : Z) : Z := (x + 2 ^ 15) mod 2 ^ 16 - 2 ^ 15.
Definition s64 (x : Z) : Z := (x + 2 ^ 63) mod 2 ^ 64 - 2 ^ 63.

(** ** Flags *)

Definition LIBNDR_FLAG_BIGENDIAN : Z := 2 ^ 0.
Definition LIBNDR_FLAG_NOALIGN : Z := 2 ^ 1.
Definition LIBNDR_FLAG_REMAINING : Z := 2 ^ 21.
Definition LIBNDR_FLAG_ALIGN2 : Z := 2 ^ 22.
Definition LIBNDR_FLAG_ALIGN4 : Z := 2 ^ 23.
Definition LIBNDR_FLAG_ALIGN8 : Z := 2 ^ 24.
Definition LIBNDR_ALIGN_FLAGS : Z :=
  LIBNDR_FLAG_ALIGN2 ||| LIBNDR_FLAG_ALIGN4 ||| LIBNDR_FLAG_ALIGN8.
Definition LIBNDR_FLAG_LITTLE_ENDIAN : Z := 2 ^ 27.
Definition LIBNDR_FLAG_PAD_CHECK : Z := 2 ^ 28.
Definition LIBNDR_FLAG_NO_NDR_SIZE : Z := 2 ^ 31.
Definition NDR_SCALARS : Z := 1.
Definition NDR_BUFFERS : Z := 2.

Definition NDR_BE (flags : Z) : bool :=
  Z.land flags (LIBNDR_FLAG_BIGENDIAN ||| LIBNDR_FLAG_LITTLE_ENDIAN) =? LIBNDR_FLAG_BIGENDIAN.

Definition NDR_SVAL (flags : Z) (buf : list Z) (ofs : Z) : option Z :=
  if NDR_BE flags then SREV <$> SVAL buf ofs else SVAL buf ofs.
Definition NDR_IVAL (flags : Z) (buf : list Z) (ofs : Z) : option Z :=
  if NDR_BE flags then IREV <$> IVAL buf ofs else IVAL buf ofs.
Definition NDR_IVALS (flags : Z) (buf : list Z) (ofs : Z) : option Z :=
  s32 <$> NDR_IVAL flags buf ofs.
Definition NDR_SSVAL (flags : Z) (buf : list Z) (ofs v : Z) : option (list Z) :=
  if NDR_BE flags then SSVAL buf ofs (SREV v) else SSVAL buf ofs v.
Definition NDR_SIVAL (flags : Z) (buf : list Z) (ofs v : Z) : option (list Z) :=
  if NDR_BE flags then SIVAL buf ofs (IREV v) else SIVAL buf ofs v.

(** ** Errors *)

Inductive ndr_err_code : Set :=
  | NDR_ERR_ARRAY_SIZE | NDR_ERR_BAD_SWITCH | NDR_ERR_OFFSET | NDR_ERR_RELATIVE
  | NDR_ERR_CHARCNV | NDR_ERR_LENGTH | NDR_ERR_SUBCONTEXT | NDR_ERR_COMPRESSION
  | NDR_ERR_STRING | NDR_ERR_VALIDATE | NDR_ERR_BUFSIZE | NDR_ERR_ALLOC | NDR_ERR_RANGE
  | NDR_ERR_TOKEN | NDR_ERR_IPV4ADDRESS.

Definition ndr_map_error (ndr_err : ndr_err_code) : NTSTATUS :=
  match ndr_err with
  | NDR_ERR_BUFSIZE => NT_STATUS_BUFFER_TOO_SMALL
  | NDR_ERR_TOKEN => NT_STATUS_INTERNAL_ERROR
  | NDR_ERR_ALLOC => NT_STATUS_NO_MEMORY
  | NDR_ERR_ARRAY_SIZE => NT_STATUS_ARRAY_BOUNDS_EXCEEDED
  | _ => NT_STATUS_INVALID_PARAMETER
  end.

Definition ndr_pull_error {S A} (ndr_err : ndr_err_code) : Ndr S A :=
  Ndr_err (ndr_map_error ndr_err).
Definition ndr_push_error {S A} (ndr_err : ndr_err_code) : Ndr S A :=
  Ndr_err (ndr_map_error ndr_err).

(** ** Tokens *)

Record ndr_token (K : Type) : Type := mk_token { tok_key : K; tok_value : Z }.
Arguments mk_token {K} _ _.
Arguments tok_key {K} _.
Arguments tok_value {K} _.

Definition ndr_token_store {K} (toks : list (ndr_token K)) (key : K) (value : Z)
    : list (ndr_token K) := mk_token key value :: toks.

(** The value and the list that is left, or [NDR_ERR_TOKEN]. *)
Fixpoint ndr_token_retrieve_cmp_fn {K} (toks : list (ndr_token K)) (key : K)
    (cmp_fn : K -> K -> bool) (remove_tok : bool)
    : NTSTATUS + Z * list (ndr_token K) :=
  match toks with
  | [] => inl (ndr_map_error NDR_ERR_TOKEN)
  | tok :: next =>
      if cmp_fn (tok_key tok) key then
        inr (tok_value tok, if remove_tok then next else tok :: next)
      else
        match ndr_token_retrieve_cmp_fn next key cmp_fn remove_tok with
        | inl e => inl e
        | inr (v, rest) => inr (v, tok :: rest)
        end
  end.

(** Keys that are pointers are compared as such. *)
Definition ndr_token_retrieve (toks : list (ndr_token Z)) (key : Z)
    : NTSTATUS + Z * list (ndr_token Z) :=
  ndr_token_retrieve_cmp_fn toks key Z.eqb true.

Definition ndr_token_peek (toks : list (ndr_token Z)) (key : Z) : Z :=
  match ndr_token_retrieve_cmp_fn toks key Z.eqb false with
  | inr (v, _) => v
  | inl _ => 0
  end.

(** ** Parsing *)

Record ndr_pull : Type := mk_pull {
  pl_flags : Z;
  pl_data : list Z;
  pl_data_size : Z;
  pl_offset : Z;
  pl_relative_base_offset : Z;
  pl_relative_base_list : list (ndr_token Z);
  pl_relative_list : list (ndr_token Z);
  pl_array_size_list : list (ndr_token Z);
  pl_array_length_list : list (ndr_token Z);
  pl_switch_list : list (ndr_token Z);
  pl_ptr_count : Z
}.

Definition pl_set_offset (ndr : ndr_pull) (ofs : Z) : ndr_pull :=
  mk_pull (pl_flags ndr) (pl_data ndr) (pl_data_size ndr) ofs (pl_relative_base_offset ndr)
    (pl_relative_base_list ndr) (pl_relative_list ndr) (pl_array_size_list ndr)
    (pl_array_length_list ndr) (pl_switch_list ndr) (pl_ptr_count ndr).
Definition pl_set_relative_base (ndr : ndr_pull) (ofs : Z) (base_list : list (ndr_token Z))
    : ndr_pull :=
  mk_pull (pl_flags ndr) (pl_data ndr) (pl_data_size ndr) (pl_offset ndr) ofs
    base_list (pl_relative_list ndr) (pl_array_size_list ndr)
    (pl_array_length_list ndr) (pl_switch_list ndr) (pl_ptr_count ndr).
Definition pl_set_relative_list (ndr : ndr_pull) (l : list (ndr_token Z)) : ndr_pull :=
  mk_pull (pl_flags ndr) (pl_data ndr) (pl_data_size ndr) (pl_offset ndr)
    (pl_relative_base_offset ndr) (pl_relative_base_list ndr) l (pl_array_size_list ndr)
    (pl_array_length_list ndr) (pl_switch_list ndr) (pl_ptr_count ndr).
Definition pl_set_array_size_list (ndr : ndr_pull) (l : list (ndr_token Z)) : ndr_pull :=
  mk_pull (pl_flags ndr) (pl_data ndr) (pl_data_size ndr) (pl_offset ndr)
    (pl_relative_base_offset ndr) (pl_relative_base_list ndr) (pl_relative_list ndr) l
    (pl_array_length_list ndr) (pl_switch_list ndr) (pl_ptr_count ndr).
Definition pl_set_array_length_list (ndr : ndr_pull) (l : list (ndr_token Z)) : ndr_pull :=
  mk_pull (pl_flags ndr) (pl_data ndr) (pl_data_size ndr) (pl_offset ndr)
    (pl_relative_base_offset ndr) (pl_relative_base_list ndr) (pl_relative_list ndr)
    (pl_array_size_list ndr) l (pl_switch_list ndr) (pl_ptr_count ndr).
Definition pl_set_switch_list (ndr : ndr_pull) (l : list (ndr_token Z)) : ndr_pull :=
  mk_pull (pl_flags ndr) (pl_data ndr) (pl_data_size ndr) (pl_offset ndr)
    (pl_relative_base_offset ndr) (pl_relative_base_list ndr) (pl_relative_list ndr)
    (pl_array_size_list ndr) (pl_array_length_list ndr) l (pl_ptr_count ndr).
Definition pl_set_ptr_count (ndr : ndr_pull) (n : Z) : ndr_pull :=
  mk_pull (pl_flags ndr) (pl_data ndr) (pl_data_size ndr) (pl_offset ndr)
    (pl_relative_base_offset ndr) (pl_relative_base_list ndr) (pl_relative_list ndr)
    (pl_array_size_list ndr) (pl_array_length_list ndr) (pl_switch_list ndr) n.

Definition ndr_pull_init_blob (blob : list Z) : ndr_pull :=
  mk_pull 0 blob (u32 (Z.of_nat (length blob))) 0 0 [] [] [] [] [] 0.

(** [offset] rounded up to a multiple of [n], a power of two. *)
Definition NDR_ROUND (size n : Z) : Z := u32 (clear_bits (size + (n - 1)) (n - 1)).

Definition ndr_align_size (offset n : Z) : Z :=
  if Z.land offset (n - 1) =? 0 then 0 else n - Z.land offset (n - 1).

Definition Pull (A : Type) : Type := Ndr ndr_pull A.

Definition NDR_PULL_NEED_BYTES (n : Z) : Pull unit :=
  try ndr <- Ndr_get;
  if (pl_data_size ndr <? n) || (pl_data_size ndr <? u32 (pl_offset ndr + n))
  then ndr_pull_error NDR_ERR_BUFSIZE else Ndr_ret tt.

(** The two loops of [ndr_check_padding] read the padding up to the first byte
    that is not zero, and then all of it for the warning: [None] when a read is
    outside the buffer. *)
Fixpoint padding_is_zero (buf : list Z) (i : Z) (n : nat) : option bool :=
  match n with
  | O => Some true
  | S n => b ← CVAL buf i; if negb (b =? 0) then Some false else padding_is_zero buf (i + 1) n
  end.
Definition ndr_check_padding (n : Z) : Pull unit :=
  try ndr <- Ndr_get;
  let ofs2 := clear_bits (pl_offset ndr + (n - 1)) (n - 1) in
  let count := Z.to_nat (ofs2 - pl_offset ndr) in
  try zero <- Ndr_mem (padding_is_zero (pl_data ndr) (pl_offset ndr) count);
  if zero : bool then Ndr_ret tt
  else if bool_decide (Z.to_nat (pl_offset ndr) + count <= length (pl_data ndr))%nat
  then Ndr_ret tt else Ndr_mem None.

Definition NDR_PULL_ALIGN (n : Z) : Pull unit :=
  try ndr <- Ndr_get;
  try! (if negb (pl_flags ndr &? LIBNDR_FLAG_NOALIGN) then
          try! (if pl_flags ndr &? LIBNDR_FLAG_PAD_CHECK then ndr_check_padding n
                else Ndr_ret tt);
          Ndr_modify (fun ndr => pl_set_offset ndr (NDR_ROUND (pl_offset ndr) n))
        else Ndr_ret tt);
  try ndr <- Ndr_get;
  if pl_data_size ndr <? pl_offset ndr then ndr_pull_error NDR_ERR_BUFSIZE else Ndr_ret tt.

(** [ndr->offset += n] *)
Definition pl_skip (n : Z) : Pull unit :=
  Ndr_modify (fun ndr => pl_set_offset ndr (u32 (pl_offset ndr + n))).

(** The bytes from the offset on, and past them: [memcpy] from the buffer. *)
Definition pl_take (n : Z) : Pull (list Z) :=
  try ndr <- Ndr_get;
  if bool_decide (Z.to_nat (pl_offset ndr) + Z.to_nat n <= length (pl_data ndr))%nat then
    try! pl_skip n;
    Ndr_ret (take (Z.to_nat n) (drop (Z.to_nat (pl_offset ndr)) (pl_data ndr)))
  else Ndr_mem None.

Definition ndr_pull_advance (size : Z) : Pull unit :=
  try! pl_skip size;
  try ndr <- Ndr_get;
  if pl_data_size ndr <? pl_offset ndr then ndr_pull_error NDR_ERR_BUFSIZE else Ndr_ret tt.

Definition ndr_pull_set_offset (ofs : Z) : Pull unit :=
  try! Ndr_modify (fun ndr => pl_set_offset ndr ofs);
  try ndr <- Ndr_get;
  if pl_data_size ndr <? pl_offset ndr then ndr_pull_error NDR_ERR_BUFSIZE else Ndr_ret tt.

Definition ndr_pull_uint8 : Pull Z :=
  try! NDR_PULL_NEED_BYTES 1;
  try ndr <- Ndr_get;
  try v <- Ndr_mem (CVAL (pl_data ndr) (pl_offset ndr));
  try! pl_skip 1;
  Ndr_ret v.

Definition ndr_pull_int8 : Pull Z :=
  try! NDR_PULL_NEED_BYTES 1;
  try ndr <- Ndr_get;
  try v <- Ndr_mem (CVAL (pl_data ndr) (pl_offset ndr));
  try! pl_skip 1;
  Ndr_ret (s8 v).

Definition ndr_pull_uint16 : Pull Z :=
  try! NDR_PULL_ALIGN 2;
  try! NDR_PULL_NEED_BYTES 2;
  try ndr <- Ndr_get;
  try v <- Ndr_mem (NDR_SVAL (pl_flags ndr) (pl_data ndr) (pl_offset ndr));
  try! pl_skip 2;
  Ndr_ret v.

Definition ndr_pull_int16 : Pull Z :=
  try! NDR_PULL_ALIGN 2;
  try! NDR_PULL_NEED_BYTES 2;
  try ndr <- Ndr_get;
  try v <- Ndr_mem (NDR_SVAL (pl_flags ndr) (pl_data ndr) (pl_offset ndr));
  try! pl_skip 2;
  Ndr_ret (s16 (u16 v)).

Definition ndr_pull_uint32 : Pull Z :=
  try! NDR_PULL_ALIGN 4;
  try! NDR_PULL_NEED_BYTES 4;
  try ndr <- Ndr_get;
  try v <- Ndr_mem (NDR_IVAL (pl_flags ndr) (pl_data ndr) (pl_offset ndr));
  try! pl_skip 4;
  Ndr_ret v.

Definition ndr_pull_int32 : Pull Z :=
  try! NDR_PULL_ALIGN 4;
  try! NDR_PULL_NEED_BYTES 4;
  try ndr <- Ndr_get;
  try v <- Ndr_mem (NDR_IVALS (pl_flags ndr) (pl_data ndr) (pl_offset ndr));
  try! pl_skip 4;
  Ndr_ret v.

Definition ndr_pull_generic_ptr : Pull Z :=
  try v <- ndr_pull_uint32;
  try! (if negb (v =? 0)
        then Ndr_modify (fun ndr => pl_set_ptr_count ndr (u32 (pl_ptr_count ndr + 1)))
        else Ndr_ret tt);
  Ndr_ret v.

Definition ndr_pull_ref_ptr : Pull Z := try! ndr_pull_uint32; Ndr_ret 1.

Definition ndr_pull_udlong : Pull Z :=
  try! NDR_PULL_ALIGN 4;
  try! NDR_PULL_NEED_BYTES 8;
  try ndr <- Ndr_get;
  try lo <- Ndr_mem (NDR_IVAL (pl_flags ndr) (pl_data ndr) (pl_offset ndr));
  try hi <- Ndr_mem (NDR_IVAL (pl_flags ndr) (pl_data ndr) (u32 (pl_offset ndr + 4)));
  try! pl_skip 8;
  Ndr_ret (lo ||| Z.shiftl hi 32).

Definition ndr_pull_udlongr : Pull Z :=
  try! NDR_PULL_ALIGN 4;
  try! NDR_PULL_NEED_BYTES 8;
  try ndr <- Ndr_get;
  try hi <- Ndr_mem (NDR_IVAL (pl_flags ndr) (pl_data ndr) (pl_offset ndr));
  try lo <- Ndr_mem (NDR_IVAL (pl_flags ndr) (pl_data ndr) (u32 (pl_offset ndr + 4)));
  try! pl_skip 8;
  Ndr_ret (Z.shiftl hi 32 ||| lo).

Definition ndr_pull_dlong : Pull Z := try v <- ndr_pull_udlong; Ndr_ret (s64 v).
Definition ndr_pull_hyper : Pull Z := try! NDR_PULL_ALIGN 8; ndr_pull_udlong.
Definition ndr_pull_align (size : Z) : Pull unit := NDR_PULL_ALIGN size.

Definition ndr_pull_bytes (n : Z) : Pull (list Z) :=
  try! NDR_PULL_NEED_BYTES n; pl_take n.

(** The array is filled only in the scalars pass. *)
Definition ndr_pull_array_uint8 (ndr_flags n : Z) : Pull (option (list Z)) :=
  if negb (ndr_flags &? NDR_SCALARS) then Ndr_ret None
  else try d <- ndr_pull_bytes n; Ndr_ret (Some d).

Definition ndr_pull_NTTIME : Pull Z := ndr_pull_udlong.
Definition ndr_pull_NTTIME_1sec : Pull Z :=
  try t <- ndr_pull_hyper; Ndr_ret (u64 (t * 10000000)).
Definition ndr_pull_NTTIME_hyper : Pull Z := ndr_pull_hyper.
Definition ndr_pull_time_t : Pull Z := ndr_pull_uint32.

Definition ndr_pull_DATA_BLOB : Pull (list Z) :=
  try ndr <- Ndr_get;
  let flags := pl_flags ndr in
  let left := u32 (pl_data_size ndr - pl_offset ndr) in
  try length <-
    (if flags &? LIBNDR_ALIGN_FLAGS then
       let length :=
         if flags &? LIBNDR_FLAG_ALIGN2 then ndr_align_size (pl_offset ndr) 2
         else if flags &? LIBNDR_FLAG_ALIGN4 then ndr_align_size (pl_offset ndr) 4
         else if flags &? LIBNDR_FLAG_ALIGN8 then ndr_align_size (pl_offset ndr) 8
         else 0 in
       Ndr_ret (if left <? length then left else length)
     else if flags &? LIBNDR_FLAG_REMAINING then Ndr_ret left
     else ndr_pull_uint32);
  try! NDR_PULL_NEED_BYTES length;
  pl_take length.

(** Relative pointers, and the sizes and lengths kept under a pointer. *)
Definition pl_lift {A} (r : NTSTATUS + A) : Pull A :=
  match r with inl e => Ndr_err e | inr a => Ndr_ret a end.

Definition ndr_pull_setup_relative_base_offset1 (p offset : Z) : Pull unit :=
  Ndr_modify (fun ndr =>
    pl_set_relative_base ndr offset (ndr_token_store (pl_relative_base_list ndr) p offset)).

Definition ndr_pull_setup_relative_base_offset2 (p : Z) : Pull unit :=
  try ndr <- Ndr_get;
  try r <- pl_lift (ndr_token_retrieve (pl_relative_base_list ndr) p);
  Ndr_modify (fun ndr => pl_set_relative_base ndr r.1 r.2).

Definition ndr_pull_relative_ptr1 (p rel_offset : Z) : Pull unit :=
  try ndr <- Ndr_get;
  let rel_offset := u32 (rel_offset + pl_relative_base_offset ndr) in
  if pl_data_size ndr <? rel_offset then ndr_pull_error NDR_ERR_BUFSIZE
  else Ndr_modify (fun ndr =>
    pl_set_relative_list ndr (ndr_token_store (pl_relative_list ndr) p rel_offset)).

Definition ndr_pull_relative_ptr2 (p : Z) : Pull unit :=
  try ndr <- Ndr_get;
  try r <- pl_lift (ndr_token_retrieve (pl_relative_list ndr) p);
  try! Ndr_modify (fun ndr => pl_set_relative_list ndr r.2);
  ndr_pull_set_offset r.1.

Definition ndr_pull_array_size (p : Z) : Pull unit :=
  try size <- ndr_pull_uint32;
  Ndr_modify (fun ndr =>
    pl_set_array_size_list ndr (ndr_token_store (pl_array_size_list ndr) p size)).
Definition ndr_get_array_size (p : Z) : Pull Z :=
  try ndr <- Ndr_get; Ndr_ret (ndr_token_peek (pl_array_size_list ndr) p).
Definition ndr_check_array_size (p size : Z) : Pull unit :=
  try stored <- ndr_get_array_size p;
  if negb (stored =? size) then ndr_pull_error NDR_ERR_ARRAY_SIZE else Ndr_ret tt.

Definition ndr_pull_array_length (p : Z) : Pull unit :=
  try offset <- ndr_pull_uint32;
  if negb (offset =? 0) then ndr_pull_error NDR_ERR_ARRAY_SIZE
  else
    try length <- ndr_pull_uint32;
    Ndr_modify (fun ndr =>
      pl_set_array_length_list ndr (ndr_token_store (pl_array_length_list ndr) p length)).
Definition ndr_get_array_length (p : Z) : Pull Z :=
  try ndr <- Ndr_get; Ndr_ret (ndr_token_peek (pl_array_length_list ndr) p).
Definition ndr_check_array_length (p length : Z) : Pull unit :=
  try stored <- ndr_get_array_length p;
  if negb (stored =? length) then ndr_pull_error NDR_ERR_ARRAY_SIZE else Ndr_ret tt.

Definition ndr_pull_set_switch_value (p val : Z) : Pull unit :=
  Ndr_modify (fun ndr =>
    pl_set_switch_list ndr (ndr_token_store (pl_switch_list ndr) p val)).
Definition ndr_pull_get_switch_value (p : Z) : Pull Z :=
  try ndr <- Ndr_get; Ndr_ret (ndr_token_peek (pl_switch_list ndr) p).

(** A subcontext: a parser of its own over the bytes that follow.  A negative
    [size_is] stands for an unknown size. *)
Definition ndr_pull_subcontext_start (header_size size_is : Z) : Pull ndr_pull :=
  try ndr <- Ndr_get;
  try content_size <-
    (if header_size =? 0 then
       Ndr_ret (if 0 <=? size_is then u32 size_is
                else u32 (pl_data_size ndr - pl_offset ndr))
     else if header_size =? 2 then
       try content_size <- ndr_pull_uint16;
       if (0 <=? size_is) && negb (size_is =? content_size)
       then ndr_pull_error NDR_ERR_SUBCONTEXT else Ndr_ret content_size
     else if header_size =? 4 then
       try content_size <- ndr_pull_uint32;
       if (0 <=? size_is) && negb (size_is =? content_size)
       then ndr_pull_error NDR_ERR_SUBCONTEXT else Ndr_ret content_size
     else ndr_pull_error NDR_ERR_SUBCONTEXT);
  try! NDR_PULL_NEED_BYTES content_size;
  try ndr <- Ndr_get;
  Ndr_ret (mk_pull (pl_flags ndr) (drop (Z.to_nat (pl_offset ndr)) (pl_data ndr)) content_size 0
             0 [] [] [] [] [] 0).

Definition ndr_pull_subcontext_end (subndr : ndr_pull) (header_size size_is : Z) : Pull unit :=
  ndr_pull_advance
    (if 0 <=? size_is then u32 size_is
     else if 0 <? header_size then pl_data_size subndr
     else pl_offset subndr).

Definition ndr_pull_struct_blob {A} (blob : list Z) (fn : Z -> Pull A) : res A :=
  (fn (NDR_SCALARS ||| NDR_BUFFERS) (ndr_pull_init_blob blob)).1.

Definition ndr_pull_struct_blob_all {A} (blob : list Z) (fn : Z -> Pull A) : res A :=
  match fn (NDR_SCALARS ||| NDR_BUFFERS) (ndr_pull_init_blob blob) with
  | (Ok a, ndr) =>
      if pl_offset ndr <? pl_data_size ndr then Err NT_STATUS_PORT_MESSAGE_TOO_LONG else Ok a
  | (r, _) => r
  end.

Definition ndr_pull_union_blob {A} (blob : list Z) (p level : Z) (fn : Z -> Pull A) : res A :=
  match (try! ndr_pull_set_switch_value p level; fn (NDR_SCALARS ||| NDR_BUFFERS))
          (ndr_pull_init_blob blob) with
  | (Ok a, ndr) =>
      if negb (pl_offset ndr =? pl_data_size ndr) then Err NT_STATUS_BUFFER_TOO_SMALL else Ok a
  | (r, _) => r
  end.

(** ** Building *)

Record ndr_push : Type := mk_push {
  ps_flags : Z;
  ps_data : list Z;
  ps_offset : Z;
  ps_relative_base_offset : Z;
  ps_relative_base_list : list (ndr_token Z);
  ps_switch_list : list (ndr_token Z);
  ps_relative_list : list (ndr_token Z);
  ps_nbt_string_list : list (ndr_token (list Z));
  ps_full_ptr_list : list (ndr_token Z);
  ps_ptr_count : Z
}.

(** [alloc_size] is the size of the allocation. *)
Definition ps_alloc_size (ndr : ndr_push) : Z := Z.of_nat (length (ps_data ndr)).

Definition ps_set_data (ndr : ndr_push) (data : list Z) (ofs : Z) : ndr_push :=
  mk_push (ps_flags ndr) data ofs (ps_relative_base_offset ndr) (ps_relative_base_list ndr)
    (ps_switch_list ndr) (ps_relative_list ndr) (ps_nbt_string_list ndr)
    (ps_full_ptr_list ndr) (ps_ptr_count ndr).
Definition ps_set_relative_base (ndr : ndr_push) (ofs : Z) (l : list (ndr_token Z)) : ndr_push :=
  mk_push (ps_flags ndr) (ps_data ndr) (ps_offset ndr) ofs l
    (ps_switch_list ndr) (ps_relative_list ndr) (ps_nbt_string_list ndr)
    (ps_full_ptr_list ndr) (ps_ptr_count ndr).
Definition ps_set_switch_list (ndr : ndr_push) (l : list (ndr_token Z)) : ndr_push :=
  mk_push (ps_flags ndr) (ps_data ndr) (ps_offset ndr) (ps_relative_base_offset ndr)
    (ps_relative_base_list ndr) l (ps_relative_list ndr) (ps_nbt_string_list ndr)
    (ps_full_ptr_list ndr) (ps_ptr_count ndr).
Definition ps_set_relative_list (ndr : ndr_push) (l : list (ndr_token Z)) : ndr_push :=
  mk_push (ps_flags ndr) (ps_data ndr) (ps_offset ndr) (ps_relative_base_offset ndr)
    (ps_relative_base_list ndr) (ps_switch_list ndr) l (ps_nbt_string_list ndr)
    (ps_full_ptr_list ndr) (ps_ptr_count ndr).
Definition ps_set_nbt_string_list (ndr : ndr_push) (l : list (ndr_token (list Z))) : ndr_push :=
  mk_push (ps_flags ndr) (ps_data ndr) (ps_offset ndr) (ps_relative_base_offset ndr)
    (ps_relative_base_list ndr) (ps_switch_list ndr) (ps_relative_list ndr) l
    (ps_full_ptr_list ndr) (ps_ptr_count ndr).
Definition ps_set_ptrs (ndr : ndr_push) (l : list (ndr_token Z)) (n : Z) : ndr_push :=
  mk_push (ps_flags ndr) (ps_data ndr) (ps_offset ndr) (ps_relative_base_offset ndr)
    (ps_relative_base_list ndr) (ps_switch_list ndr) (ps_relative_list ndr)
    (ps_nbt_string_list ndr) l n.

Definition Push (A : Type) : Type := Ndr ndr_push A.

Definition NDR_BASE_MARSHALL_SIZE : Z := 1024.
(** The limit of [_talloc_realloc_array] in [source4/lib/talloc/talloc.c]. *)
Definition MAX_TALLOC_SIZE : Z := 2 ^ 28.

Definition ndr_push_init_ctx : ndr_push :=
  mk_push 0 (replicate (Z.to_nat NDR_BASE_MARSHALL_SIZE) 0) 0 0 [] [] [] [] [] 0.

(** A fresh buffer with the flags of another. *)
Definition ps_start (flags : Z) : ndr_push :=
  mk_push flags (ps_data ndr_push_init_ctx) 0 0 [] [] [] [] [] 0.

Definition ndr_push_blob (ndr : ndr_push) : list Z :=
  take (Z.to_nat (ps_offset ndr)) (ps_data ndr).

(** A failed [talloc_realloc] is an error; the buffer is not used after it. *)
Definition ndr_push_expand (extra_size : Z) : Push unit :=
  try ndr <- Ndr_get;
  let size := u32 (extra_size + ps_offset ndr) in
  if size <? ps_offset ndr then ndr_push_error NDR_ERR_BUFSIZE
  else if size <? ps_alloc_size ndr then Ndr_ret tt
  else
    let alloc := u32 (ps_alloc_size ndr + NDR_BASE_MARSHALL_SIZE) in
    let alloc := if alloc <? u32 (size + 1) then u32 (size + 1) else alloc in
    if (MAX_TALLOC_SIZE <=? alloc) || (alloc =? 0) then ndr_push_error NDR_ERR_ALLOC
    else Ndr_modify (fun ndr =>
      ps_set_data ndr (resize (Z.to_nat alloc) 0 (ps_data ndr)) (ps_offset ndr)).

Definition NDR_PUSH_NEED_BYTES (n : Z) : Push unit := ndr_push_expand n.

(** A store at the offset, which moves on by [n]. *)
Definition ps_put (n : Z) (store : list Z -> Z -> option (list Z)) : Push unit :=
  try ndr <- Ndr_get;
  try d <- Ndr_mem (store (ps_data ndr) (ps_offset ndr));
  Ndr_modify (fun ndr => ps_set_data ndr d (u32 (ps_offset ndr + n))).

(** [memcpy] of [bs] into the buffer. *)
Definition mem_store (bs : list Z) (buf : list Z) (pos : Z) : option (list Z) :=
  if bool_decide (Z.to_nat pos + length bs <= length buf)%nat
  then Some (list_inserts (Z.to_nat pos) bs buf) else None.

Definition ndr_push_uint8 (v : Z) : Push unit :=
  try! NDR_PUSH_NEED_BYTES 1; ps_put 1 (fun d o => SCVAL d o v).
Definition ndr_push_int8 (v : Z) : Push unit :=
  try! NDR_PUSH_NEED_BYTES 1; ps_put 1 (fun d o => SCVAL d o (u8 v)).

(** [while (_pad--) NDR_CHECK(ndr_push_uint8(ndr, NDR_SCALARS, 0))] *)
Fixpoint push_pad (pad : nat) : Push unit :=
  match pad with
  | O => Ndr_ret tt
  | S pad => try! ndr_push_uint8 0; push_pad pad
  end.

Definition NDR_PUSH_ALIGN (n : Z) : Push unit :=
  try ndr <- Ndr_get;
  if negb (ps_flags ndr &? LIBNDR_FLAG_NOALIGN)
  then push_pad (Z.to_nat (u32 (NDR_ROUND (ps_offset ndr) n - ps_offset ndr)))
  else Ndr_ret tt.

(** [NDR_SSVAL] and [NDR_SIVAL] at the offset, which moves past the word. *)
Definition put_SSVAL (v : Z) : Push unit :=
  try ndr <- Ndr_get; ps_put 2 (fun d o => NDR_SSVAL (ps_flags ndr) d o v).
Definition put_SIVAL (v : Z) : Push unit :=
  try ndr <- Ndr_get; ps_put 4 (fun d o => NDR_SIVAL (ps_flags ndr) d o v).

Definition ndr_push_uint16 (v : Z) : Push unit :=
  try! NDR_PUSH_ALIGN 2; try! NDR_PUSH_NEED_BYTES 2; put_SSVAL v.
Definition ndr_push_int16 (v : Z) : Push unit :=
  try! NDR_PUSH_ALIGN 2; try! NDR_PUSH_NEED_BYTES 2; put_SSVAL (u16 v).
Definition ndr_push_uint32 (v : Z) : Push unit :=
  try! NDR_PUSH_ALIGN 4; try! NDR_PUSH_NEED_BYTES 4; put_SIVAL v.
Definition ndr_push_int32 (v : Z) : Push unit :=
  try! NDR_PUSH_ALIGN 4; try! NDR_PUSH_NEED_BYTES 4; put_SIVAL v.

(** Two words: the second is stored 4 bytes after the first. *)
Definition ndr_push_udlong (v : Z) : Push unit :=
  try! NDR_PUSH_ALIGN 4; try! NDR_PUSH_NEED_BYTES 8;
  try! put_SIVAL (Z.land v 4294967295); put_SIVAL (Z.shiftr v 32).
Definition ndr_push_udlongr (v : Z) : Push unit :=
  try! NDR_PUSH_ALIGN 4; try! NDR_PUSH_NEED_BYTES 8;
  try! put_SIVAL (Z.shiftr v 32); put_SIVAL (Z.land v 4294967295).
Definition ndr_push_dlong (v : Z) : Push unit := ndr_push_udlong (u64 v).
Definition ndr_push_hyper (v : Z) : Push unit := try! NDR_PUSH_ALIGN 8; ndr_push_udlong v.
Definition ndr_push_align (size : Z) : Push unit := NDR_PUSH_ALIGN size.

(** [memcpy] of the first [n] of the bytes [data]; reading past them is a
    fault. *)
Definition ndr_push_bytes (data : list Z) (n : Z) : Push unit :=
  try! NDR_PUSH_NEED_BYTES n;
  try src <- Ndr_mem (if bool_decide (Z.to_nat n <= length data)%nat
                      then Some (take (Z.to_nat n) data) else None);
  ps_put n (mem_store src).
Definition ndr_push_zero (n : Z) : Push unit :=
  try! NDR_PUSH_NEED_BYTES n; ps_put n (mem_store (replicate (Z.to_nat n) 0)).
Definition ndr_push_array_uint8 (ndr_flags : Z) (data : list Z) (n : Z) : Push unit :=
  if negb (ndr_flags &? NDR_SCALARS) then Ndr_ret tt else ndr_push_bytes data n.

Definition ndr_push_unique_ptr (p : Z) : Push unit :=
  try ndr <- Ndr_get;
  if negb (p =? 0) then
    try! Ndr_modify (fun ndr =>
      ps_set_ptrs ndr (ps_full_ptr_list ndr) (u32 (ps_ptr_count ndr + 1)));
    ndr_push_uint32 (u32 (ps_ptr_count ndr * 4) ||| 131072)
  else ndr_push_uint32 0.

Definition ndr_push_full_ptr (p : Z) : Push unit :=
  try ndr <- Ndr_get;
  if negb (p =? 0) then
    let ptr := ndr_token_peek (ps_full_ptr_list ndr) p in
    if ptr =? 0 then
      let ptr := u32 (ps_ptr_count ndr + 1) in
      try! Ndr_modify (fun ndr =>
        ps_set_ptrs ndr (ndr_token_store (ps_full_ptr_list ndr) p ptr) ptr);
      ndr_push_uint32 ptr
    else ndr_push_uint32 ptr
  else ndr_push_uint32 0.

Definition ndr_push_ref_ptr : Push unit := ndr_push_uint32 2935073521.

Definition ndr_push_NTTIME (t : Z) : Push unit := ndr_push_udlong t.
Definition ndr_push_NTTIME_1sec (t : Z) : Push unit := ndr_push_hyper (t / 10000000).
Definition ndr_push_NTTIME_hyper (t : Z) : Push unit := ndr_push_hyper t.
Definition ndr_push_time_t (t : Z) : Push unit := ndr_push_uint32 (u32 t).

(** With an alignment flag the blob is replaced by the padding. *)
Definition ndr_push_DATA_BLOB (blob : list Z) : Push unit :=
  try ndr <- Ndr_get;
  let flags := ps_flags ndr in
  if flags &? LIBNDR_ALIGN_FLAGS then
    let length :=
      if flags &? LIBNDR_FLAG_ALIGN2 then ndr_align_size (ps_offset ndr) 2
      else if flags &? LIBNDR_FLAG_ALIGN4 then ndr_align_size (ps_offset ndr) 4
      else if flags &? LIBNDR_FLAG_ALIGN8 then ndr_align_size (ps_offset ndr) 8
      else Z.of_nat (length blob) in
    ndr_push_bytes (replicate (Z.to_nat length) 0) (u32 length)
  else
    try! (if negb (flags &? LIBNDR_FLAG_REMAINING)
          then ndr_push_uint32 (u32 (Z.of_nat (length blob))) else Ndr_ret tt);
    ndr_push_bytes blob (u32 (Z.of_nat (length blob))).

Definition ps_lift {A} (r : NTSTATUS + A) : Push A :=
  match r with inl e => Ndr_err e | inr a => Ndr_ret a end.

Definition ndr_push_set_switch_value (p val : Z) : Push unit :=
  Ndr_modify (fun ndr => ps_set_switch_list ndr (ndr_token_store (ps_switch_list ndr) p val)).
Definition ndr_push_get_switch_value (p : Z) : Push Z :=
  try ndr <- Ndr_get; Ndr_ret (ndr_token_peek (ps_switch_list ndr) p).

Definition ndr_push_restore_relative_base_offset (offset : Z) : Push unit :=
  Ndr_modify (fun ndr => ps_set_relative_base ndr offset (ps_relative_base_list ndr)).

Definition ndr_push_setup_relative_base_offset1 (p offset : Z) : Push unit :=
  Ndr_modify (fun ndr =>
    ps_set_relative_base ndr offset (ndr_token_store (ps_relative_base_list ndr) p offset)).

Definition ndr_push_setup_relative_base_offset2 (p : Z) : Push unit :=
  try ndr <- Ndr_get;
  try r <- ps_lift (ndr_token_retrieve (ps_relative_base_list ndr) p);
  Ndr_modify (fun ndr => ps_set_relative_base ndr r.1 r.2).

(** [ndr->offset = ofs] *)
Definition ps_seek (ofs : Z) : Push unit :=
  Ndr_modify (fun ndr => ps_set_data ndr (ps_data ndr) ofs).

(** The pointer is written as a placeholder first, ... *)
Definition ndr_push_relative_ptr1 (p : Z) : Push unit :=
  if p =? 0 then ndr_push_uint32 0
  else
    try! ndr_push_align 4;
    try! Ndr_modify (fun ndr =>
      ps_set_relative_list ndr (ndr_token_store (ps_relative_list ndr) p (ps_offset ndr)));
    ndr_push_uint32 4294967295.

(** ... and filled in when its object is about to be written. *)
Definition ndr_push_relative_ptr2 (p : Z) : Push unit :=
  if p =? 0 then Ndr_ret tt
  else
    try ndr <- Ndr_get;
    let save := ps_offset ndr in
    try r <- ps_lift (ndr_token_retrieve (ps_relative_list ndr) p);
    try! Ndr_modify (fun ndr => ps_set_relative_list ndr r.2);
    if save <? r.1 then ndr_push_error NDR_ERR_BUFSIZE
    else
      try! ps_seek r.1;
      if save <? ps_relative_base_offset ndr then ndr_push_error NDR_ERR_BUFSIZE
      else
        try! ndr_push_uint32 (u32 (save - ps_relative_base_offset ndr));
        ps_seek save.

Definition ndr_push_subcontext_start : Push ndr_push :=
  try ndr <- Ndr_get;
  Ndr_ret (ps_start (ps_flags ndr)).

(** Run an operation on another buffer. *)
Definition on_sub (m : Push unit) (subndr : ndr_push) : Push ndr_push :=
  match m subndr with
  | (Ok _, s) => Ndr_ret s
  | (Err e, _) => Ndr_err e
  | (Fault, _) => Ndr_mem None
  end.

Definition ndr_push_subcontext_end (subndr : ndr_push) (header_size size_is : Z) : Push unit :=
  try subndr <-
    (if 0 <=? size_is then
       let padding_len := size_is - ps_offset subndr in
       if 0 <? padding_len then on_sub (ndr_push_zero (u32 padding_len)) subndr
       else if padding_len <? 0 then ndr_push_error NDR_ERR_SUBCONTEXT
       else Ndr_ret subndr
     else Ndr_ret subndr);
  try! (if header_size =? 0 then Ndr_ret tt
        else if header_size =? 2 then ndr_push_uint16 (u16 (ps_offset subndr))
        else if header_size =? 4 then ndr_push_uint32 (ps_offset subndr)
        else ndr_push_error NDR_ERR_SUBCONTEXT);
  ndr_push_bytes (ps_data subndr) (ps_offset subndr).

Definition ndr_push_struct_blob (fn : Z -> Push unit) : res (list Z) :=
  match fn (NDR_SCALARS ||| NDR_BUFFERS) ndr_push_init_ctx with
  | (Ok _, ndr) => Ok (ndr_push_blob ndr)
  | (Err e, _) => Err e
  | (Fault, _) => Fault
  end.

Definition ndr_push_union_blob (p level : Z) (fn : Z -> Push unit) : res (list Z) :=
  match (try! ndr_push_set_switch_value p level; fn (NDR_SCALARS ||| NDR_BUFFERS))
          ndr_push_init_ctx with
  | (Ok _, ndr) => Ok (ndr_push_blob ndr)
  | (Err e, _) => Err e
  | (Fault, _) => Fault
  end.

Definition ps_set_flags (ndr : ndr_push) (flags : Z) : ndr_push :=
  mk_push flags (ps_data ndr) (ps_offset ndr) (ps_relative_base_offset ndr)
    (ps_relative_base_list ndr) (ps_switch_list ndr) (ps_relative_list ndr)
    (ps_nbt_string_list ndr) (ps_full_ptr_list ndr) (ps_ptr_count ndr).

Definition ndr_size_struct (flags : Z) (push : Z -> Push unit) : Z :=
  if flags &? LIBNDR_FLAG_NO_NDR_SIZE then 0
  else
    match push (NDR_SCALARS ||| NDR_BUFFERS)
            (ps_set_flags ndr_push_init_ctx
               (ps_flags ndr_push_init_ctx ||| (flags ||| LIBNDR_FLAG_NO_NDR_SIZE))) with
    | (Ok _, ndr) => ps_offset ndr
    | _ => 0
    end.

Definition ndr_size_union (flags p level : Z) (push : Z -> Push unit) : Z :=
  if flags &? LIBNDR_FLAG_NO_NDR_SIZE then 0
  else
    match (try! ndr_push_set_switch_value p level; push (NDR_SCALARS ||| NDR_BUFFERS))
            (ps_set_flags ndr_push_init_ctx
               (ps_flags ndr_push_init_ctx ||| (flags ||| LIBNDR_FLAG_NO_NDR_SIZE))) with
    | (Ok _, ndr) => ps_offset ndr
    | _ => 0
    end.

(** ** Words as bytes *)

Definition le16 (v : Z) : list Z := [v mod 256; v / 256 mod 256].
Definition le32 (v : Z) : list Z := le16 v ++ le16 (v / 65536).
(** A word on the wire in the byte order of the flags. *)
Definition wire (flags : Z) (bs : list Z) : list Z := if NDR_BE flags then rev bs else bs.

(** The bytes [bs] put at [pos]. *)
Definition splice (pos : nat) (bs buf : list Z) : list Z :=
  take pos buf ++ bs ++ drop (pos + length bs) buf.

(** The bytes [bs] are at [pos]. *)
Definition bytes_at (buf : list Z) (pos : nat) (bs : list Z) : Prop :=
  take (length bs) (drop pos buf) = bs.

Lemma length_splice pos bs buf :
  (pos + length bs <= length buf)%nat -> length (splice pos bs buf) = length buf.
Proof. intros H. unfold splice. rewrite !length_app, length_take, length_drop. lia. Qed.

Lemma take_splice pos bs buf :
  (pos + length bs <= length buf)%nat ->
  take (pos + length bs) (splice pos bs buf) = take pos buf ++ bs.
Proof.
  intros H. unfold splice. rewrite app_assoc. apply take_app_length'.
  rewrite length_app, length_take. lia.
Qed.

Lemma splice_app pos xs ys buf :
  (pos + length (xs ++ ys) <= length buf)%nat ->
  splice (pos + length xs) ys (splice pos xs buf) = splice pos (xs ++ ys) buf.
Proof.
  rewrite length_app. intros H. unfold splice at 1. rewrite take_splice by lia.
  unfold splice. rewrite <- !app_assoc. do 3 f_equal.
  rewrite !drop_app, length_take, !drop_drop.
  rewrite !(drop_ge (take _ _)) by (rewrite length_take; lia).
  rewrite !(drop_ge xs) by lia. simpl. f_equal. rewrite length_app. lia.
Qed.

Lemma splice_nil pos buf : splice pos [] buf = buf.
Proof. unfold splice. simpl. rewrite Nat.add_0_r. apply take_drop. Qed.

Lemma insert_splice pos b buf :
  (pos < length buf)%nat -> <[pos := b]> buf = splice pos [b] buf.
Proof.
  intros H. unfold splice. simpl. rewrite insert_take_drop by done. do 3 f_equal. lia.
Qed.

Lemma SCVAL_splice buf pos v :
  0 <= pos -> pos + 1 <= Z.of_nat (length buf) ->
  SCVAL buf pos v = Some (splice (Z.to_nat pos) [u8 v] buf).
Proof.
  intros Hp Hl. unfold SCVAL. rewrite bool_decide_true by lia. by rewrite insert_splice by lia.
Qed.

Lemma SREV_arith x : SREV x = x / 256 mod 256 + x mod 256 * 256.
Proof.
  unfold SREV. rewrite !land_255, Z.shiftr_div_pow2, Z.lor_comm by lia.
  change (2 ^ 8) with 256. rewrite lor_shiftl_add; [done..|].
  apply Z.mod_pos_bound. lia.
Qed.

Lemma SREV_range x : 0 <= SREV x < 65536.
Proof.
  rewrite SREV_arith. pose proof (Z.mod_pos_bound x 256).
  pose proof (Z.mod_pos_bound (x / 256) 256). lia.
Qed.

Lemma IREV_arith x : IREV x = SREV (x / 65536) + SREV x * 65536.
Proof.
  unfold IREV. rewrite Z.shiftr_div_pow2, Z.lor_comm by lia.
  change (2 ^ 16) with 65536. rewrite lor_shiftl_add; [done|done|]. apply SREV_range.
Qed.

Lemma IREV_range x : 0 <= IREV x < 2 ^ 32.
Proof.
  rewrite IREV_arith. pose proof (SREV_range x). pose proof (SREV_range (x / 65536)). lia.
Qed.

Ltac euclid := Z.to_euclidean_division_equations; lia.

Lemma SSVAL_splice buf pos v :
  0 <= pos -> pos + 2 <= Z.of_nat (length buf) ->
  SSVAL buf pos v = Some (splice (Z.to_nat pos) (le16 v) buf).
Proof.
  intros Hp Hl. unfold SSVAL. rewrite SCVAL_splice by lia. cbn [mbind option_bind].
  rewrite SCVAL_splice by (rewrite ?length_splice; simpl; lia).
  rewrite land_255, Z.shiftr_div_pow2 by lia.
  replace (Z.to_nat (pos + 1)) with (Z.to_nat pos + length [u8 (u16 v mod 256)])%nat
    by (simpl; lia).
  rewrite splice_app by (simpl; lia). do 2 f_equal. unfold le16, u8, u16. simpl.
  change (2 ^ 8) with 256; change (2 ^ 16) with 65536.
  apply (f_equal2 cons); [euclid|]. apply (f_equal2 cons); [euclid|done].
Qed.

Lemma SIVAL_splice buf pos v :
  0 <= pos -> pos + 4 <= Z.of_nat (length buf) ->
  SIVAL buf pos v = Some (splice (Z.to_nat pos) (le32 v) buf).
Proof.
  intros Hp Hl. unfold SIVAL. rewrite SSVAL_splice by lia. cbn [mbind option_bind].
  rewrite SSVAL_splice by (rewrite ?length_splice; simpl; lia).
  rewrite land_65535, Z.shiftr_div_pow2 by lia.
  replace (Z.to_nat (pos + 2)) with (Z.to_nat pos + length (le16 (u32 v mod 65536)))%nat
    by (simpl; lia).
  rewrite splice_app by (simpl; lia). do 2 f_equal. unfold le32, le16, u32. simpl.
  change (2 ^ 32) with 4294967296; change (2 ^ 16) with 65536.
  repeat (apply (f_equal2 cons); [euclid|]). done.
Qed.

Lemma le16_SREV v : le16 (SREV v) = rev (le16 v).
Proof.
  rewrite SREV_arith. unfold le16. simpl.
  repeat (apply (f_equal2 cons); [euclid|]). done.
Qed.

Lemma le32_IREV v : le32 (IREV v) = rev (le32 v).
Proof.
  rewrite IREV_arith, !SREV_arith. unfold le32, le16. simpl.
  repeat (apply (f_equal2 cons); [euclid|]). done.
Qed.

Lemma length_wire flags bs : length (wire flags bs) = length bs.
Proof. unfold wire. destruct (NDR_BE flags); [apply length_rev|done]. Qed.

Lemma NDR_SSVAL_splice flags buf pos v :
  0 <= pos -> pos + 2 <= Z.of_nat (length buf) ->
  NDR_SSVAL flags buf pos v = Some (splice (Z.to_nat pos) (wire flags (le16 v)) buf).
Proof.
  intros. unfold NDR_SSVAL, wire. destruct (NDR_BE flags); rewrite SSVAL_splice by done;
    by rewrite ?le16_SREV.
Qed.

Lemma NDR_SIVAL_splice flags buf pos v :
  0 <= pos -> pos + 4 <= Z.of_nat (length buf) ->
  NDR_SIVAL flags buf pos v = Some (splice (Z.to_nat pos) (wire flags (le32 v)) buf).
Proof.
  intros. unfold NDR_SIVAL, wire. destruct (NDR_BE flags); rewrite SIVAL_splice by done;
    by rewrite ?le32_IREV.
Qed.

Lemma bytes_at_lookup buf pos bs i b :
  bytes_at buf pos bs -> bs !! i = Some b -> buf !! (pos + i)%nat = Some b.
Proof.
  unfold bytes_at. intros H Hi. rewrite <- H in Hi.
  rewrite <- lookup_drop. apply lookup_lt_Some in Hi as Hl. rewrite length_take in Hl.
  by rewrite lookup_take_lt in Hi by lia.
Qed.

Lemma bytes_at_app buf pos xs ys :
  bytes_at buf pos (xs ++ ys) <-> bytes_at buf pos xs /\ bytes_at buf (pos + length xs) ys.
Proof.
  unfold bytes_at. rewrite length_app, <- drop_drop. set (d := drop pos buf). split.
  - intros H. split.
    + apply (f_equal (take (length xs))) in H.
      rewrite take_take, take_app_length in H. by rewrite Nat.min_l in H by lia.
    + by rewrite take_drop_commute, H, drop_app_length.
  - intros [Hx Hy]. rewrite <- (take_drop (length xs) d) at 1.
    rewrite take_app, take_take, length_take. rewrite Nat.min_r by lia. rewrite Hx. f_equal.
    assert (length xs <= length d)%nat as Hl.
    { rewrite <- Hx at 1. rewrite length_take. lia. }
    rewrite Nat.min_l by lia.
    replace (length xs + length ys - length xs)%nat with (length ys) by lia. done.
Qed.

Lemma bytes_at_length buf pos bs :
  bytes_at buf pos bs -> bs <> [] -> (pos + length bs <= length buf)%nat.
Proof.
  unfold bytes_at. intros H Hb. apply (f_equal length) in H.
  rewrite length_take, length_drop in H.
  assert (length bs <> 0%nat) by (by destruct bs). lia.
Qed.

Lemma SVAL_of_bytes buf pos v :
  0 <= pos -> bytes_at buf (Z.to_nat pos) (le16 v) -> SVAL buf pos = Some (v mod 65536).
Proof.
  intros Hp H. unfold SVAL, CVAL.
  pose proof (bytes_at_lookup _ _ _ 0 _ H eq_refl) as H0.
  pose proof (bytes_at_lookup _ _ _ 1 _ H eq_refl) as H1.
  rewrite Nat.add_0_r in H0. rewrite H0. cbn [mbind option_bind].
  replace (Z.to_nat (pos + 1)) with (Z.to_nat pos + 1)%nat by lia. rewrite H1.
  cbn [mbind option_bind]. rewrite lor_shiftl_add; [|done|change (2 ^ 8) with 256; euclid].
  f_equal. change (2 ^ 8) with 256. euclid.
Qed.

Lemma IVAL_of_bytes buf pos v :
  0 <= pos -> bytes_at buf (Z.to_nat pos) (le32 v) -> IVAL buf pos = Some (v mod 2 ^ 32).
Proof.
  intros Hp H. unfold IVAL. unfold le32 in H. apply bytes_at_app in H as [H0 H1].
  rewrite (SVAL_of_bytes buf pos v) by done. cbn [mbind option_bind].
  rewrite (SVAL_of_bytes buf (pos + 2) (v / 65536))
    by (try lia; replace (Z.to_nat (pos + 2)) with (Z.to_nat pos + length (le16 v))%nat
          by (simpl; lia); done).
  cbn [mbind option_bind].
  rewrite lor_shiftl_add; [|done|change (2 ^ 16) with 65536; euclid].
  f_equal. change (2 ^ 16) with 65536. change (2 ^ 32) with 4294967296. euclid.
Qed.

Lemma SREV_SREV v : SREV (SREV v) = v mod 65536.
Proof. rewrite !SREV_arith. euclid. Qed.

Lemma IREV_IREV v : IREV (IREV v) = v mod 2 ^ 32.
Proof. rewrite !IREV_arith, !SREV_arith. change (2 ^ 32) with 4294967296. euclid. Qed.

Lemma NDR_SVAL_of_bytes flags buf pos v :
  0 <= pos -> bytes_at buf (Z.to_nat pos) (wire flags (le16 v)) ->
  NDR_SVAL flags buf pos = Some (v mod 65536).
Proof.
  intros Hp H. unfold NDR_SVAL, wire in *. destruct (NDR_BE flags).
  - rewrite <- le16_SREV in H. rewrite (SVAL_of_bytes _ _ _ Hp H). simpl.
    by rewrite Z.mod_small, SREV_SREV by apply SREV_range.
  - by apply SVAL_of_bytes.
Qed.

Lemma NDR_IVAL_of_bytes flags buf pos v :
  0 <= pos -> bytes_at buf (Z.to_nat pos) (wire flags (le32 v)) ->
  NDR_IVAL flags buf pos = Some (v mod 2 ^ 32).
Proof.
  intros Hp H. unfold NDR_IVAL, wire in *. destruct (NDR_BE flags).
  - rewrite <- le32_IREV in H. rewrite (IVAL_of_bytes _ _ _ Hp H). simpl.
    by rewrite Z.mod_small, IREV_IREV by apply IREV_range.
  - by apply IVAL_of_bytes.
Qed.

(** ** Values are in the range of their type *)

Definition bytes_ok (l : list Z) : Prop := Forall (fun b => 0 <= b < 256) l.

Section ranges.
Variable buf : list Z.
Hypothesis Hbuf : bytes_ok buf.

Lemma CVAL_range pos v : CVAL buf pos = Some v -> 0 <= v < 256.
Proof. intros H. exact (Forall_lookup_1 _ _ _ _ Hbuf H). Qed.

Lemma SVAL_range pos v : SVAL buf pos = Some v -> 0 <= v < 65536.
Proof.
  unfold SVAL. destruct (CVAL buf pos) as [a|] eqn:Ea; [|done]. cbn [mbind option_bind].
  destruct (CVAL buf (pos + 1)) as [b|] eqn:Eb; [|done]. cbn [mbind option_bind].
  intros [= <-]. apply CVAL_range in Ea, Eb.
  rewrite lor_shiftl_add by (change (2 ^ 8) with 256; lia). lia.
Qed.

Lemma IVAL_range pos v : IVAL buf pos = Some v -> 0 <= v < 2 ^ 32.
Proof.
  unfold IVAL. destruct (SVAL buf pos) as [a|] eqn:Ea; [|done]. cbn [mbind option_bind].
  destruct (SVAL buf (pos + 2)) as [b|] eqn:Eb; [|done]. cbn [mbind option_bind].
  intros [= <-]. apply SVAL_range in Ea, Eb.
  rewrite lor_shiftl_add by (change (2 ^ 16) with 65536; lia). lia.
Qed.

Lemma NDR_SVAL_range flags pos v : NDR_SVAL flags buf pos = Some v -> 0 <= v < 65536.
Proof.
  unfold NDR_SVAL. destruct (NDR_BE flags); [|apply SVAL_range].
  destruct (SVAL buf pos); [|done]. intros [= <-]. apply SREV_range.
Qed.

Lemma NDR_IVAL_range flags pos v : NDR_IVAL flags buf pos = Some v -> 0 <= v < 2 ^ 32.
Proof.
  unfold NDR_IVAL. destruct (NDR_BE flags); [|apply IVAL_range].
  destruct (IVAL buf pos); [|done]. intros [= <-]. apply IREV_range.
Qed.
End ranges.

Lemma is_Some_CVAL buf pos : 0 <= pos < Z.of_nat (length buf) -> is_Some (CVAL buf pos).
Proof. intros H. apply lookup_lt_is_Some_2. lia. Qed.

Lemma is_Some_SVAL buf pos : 0 <= pos -> pos + 2 <= Z.of_nat (length buf) -> is_Some (SVAL buf pos).
Proof.
  intros H Hl. unfold SVAL.
  destruct (is_Some_CVAL buf pos) as [a ->]; [lia|].
  by destruct (is_Some_CVAL buf (pos + 1)) as [b ->]; [lia|].
Qed.

Lemma is_Some_NDR_SVAL flags buf pos :
  0 <= pos -> pos + 2 <= Z.of_nat (length buf) -> is_Some (NDR_SVAL flags buf pos).
Proof.
  intros H Hl. unfold NDR_SVAL. destruct (is_Some_SVAL buf pos) as [a ->]; [done..|].
  by destruct (NDR_BE flags).
Qed.

Lemma is_Some_NDR_IVAL flags buf pos :
  0 <= pos -> pos + 4 <= Z.of_nat (length buf) -> is_Some (NDR_IVAL flags buf pos).
Proof.
  intros H Hl. unfold NDR_IVAL, IVAL. destruct (is_Some_SVAL buf pos) as [a ->]; [lia..|].
  cbn [mbind option_bind]. destruct (is_Some_SVAL buf (pos + 2)) as [b ->]; [lia..|].
  by destruct (NDR_BE flags).
Qed.

(** ** The parser stays in its buffer *)

Definition pl_wf (r : ndr_pull) : Prop :=
  0 <= pl_offset r <= pl_data_size r /\ pl_data_size r <= Z.of_nat (length (pl_data r)) /\
  pl_data_size r < 2 ^ 31 /\ (pl_flags r &? LIBNDR_FLAG_PAD_CHECK) = false /\
  bytes_ok (pl_data r) /\ Forall (fun t => 0 <= tok_value t) (pl_relative_list r).

(** [m] never leaves the buffer and gives values with [Q]. *)
Definition pull_safe {A} (m : Pull A) (Q : A -> Prop) : Prop := forall r, pl_wf r ->
  match m r with
  | (Ok a, r') => pl_wf r' /\ Q a
  | (Err _, _) => True
  | (Fault, _) => False
  end.

Section safe.
Context {A B : Type}.

Lemma safe_ret (a : A) (Q : A -> Prop) : Q a -> pull_safe (Ndr_ret a) Q.
Proof. by intros Hq r Hr. Qed.

Lemma safe_err e (Q : A -> Prop) : pull_safe (Ndr_err e) Q.
Proof. by intros r Hr. Qed.

Lemma safe_bind (m : Pull A) (k : A -> Pull B) P Q :
  pull_safe m P -> (forall a, P a -> pull_safe (k a) Q) -> pull_safe (Ndr_bind m k) Q.
Proof.
  intros Hm Hk r Hr. specialize (Hm r Hr). unfold Ndr_bind.
  destruct (m r) as [[a|e|] r']; [|done..]. destruct Hm as [Hr' Ha]. by apply Hk.
Qed.

Lemma safe_weaken (m : Pull A) (P Q : A -> Prop) :
  pull_safe m P -> (forall a, P a -> Q a) -> pull_safe m Q.
Proof.
  intros Hm Hpq r Hr. specialize (Hm r Hr). destruct (m r) as [[a|e|] r']; naive_solver.
Qed.
End safe.

Definition any {A} (a : A) : Prop := True.

Lemma safe_get (Q : ndr_pull -> Prop) : (forall r, pl_wf r -> Q r) -> pull_safe Ndr_get Q.
Proof. intros H r Hr. simpl. auto. Qed.

Lemma safe_modify f (Q : unit -> Prop) :
  (forall r, pl_wf r -> pl_wf (f r)) -> Q tt -> pull_safe (Ndr_modify f) Q.
Proof. intros H Hq r Hr. simpl. auto. Qed.

(** After a check that [n] bytes are left, a computation may rely on it. *)
Lemma safe_need {A} n (m : Pull A) Q :
  0 <= n ->
  (forall r, pl_wf r -> n <= pl_data_size r - pl_offset r ->
     match m r with (Ok a, r') => pl_wf r' /\ Q a | (Err _, _) => True | (Fault, _) => False end) ->
  pull_safe (try! NDR_PULL_NEED_BYTES n; m) Q.
Proof.
  intros Hn Hm r Hr. unfold NDR_PULL_NEED_BYTES, Ndr_bind, Ndr_get.
  destruct (_ || _) eqn:E; [done|]. simpl. bool_hyps. apply Hm; [done|].
  destruct Hr as ([? ?] & ? & ? & ?). rewrite u32_small in *; lia.
Qed.

Lemma pl_wf_set_offset r o : pl_wf r -> 0 <= o <= pl_data_size r -> pl_wf (pl_set_offset r o).
Proof. intros (H1 & H2) Ho. by split. Qed.

Lemma safe_align n Q : Q tt -> pull_safe (NDR_PULL_ALIGN n) Q.
Proof.
  intros Hq r Hr. pose proof Hr as (H1 & H2 & H3 & H4 & H5).
  unfold NDR_PULL_ALIGN, Ndr_bind, Ndr_get, Ndr_modify. rewrite H4.
  destruct (negb _); simpl; case_goal; simpl; try done; bool_hyps.
  split; [|done]. apply pl_wf_set_offset; [done|].
  pose proof (u32_range (clear_bits (pl_offset r + (n - 1)) (n - 1))). unfold NDR_ROUND in *.
  simpl in *. lia.
Qed.

Lemma safe_advance n Q : Q tt -> pull_safe (ndr_pull_advance n) Q.
Proof.
  intros Hq r Hr. unfold ndr_pull_advance, pl_skip, Ndr_bind, Ndr_get, Ndr_modify. simpl.
  case_goal; simpl; [done|]. bool_hyps. split; [|done]. apply pl_wf_set_offset; [done|].
  pose proof (u32_range (pl_offset r + n)). lia.
Qed.

Lemma safe_set_offset n Q : 0 <= n -> Q tt -> pull_safe (ndr_pull_set_offset n) Q.
Proof.
  intros Hn Hq r Hr. unfold ndr_pull_set_offset, Ndr_bind, Ndr_get, Ndr_modify. simpl.
  case_goal; simpl; [done|]. bool_hyps. split; [|done]. by apply pl_wf_set_offset.
Qed.

Lemma bytes_ok_slice n m l : bytes_ok l -> bytes_ok (take n (drop m l)).
Proof. intros H. by apply Forall_take, Forall_drop. Qed.

Lemma safe_bytes n :
  0 <= n -> pull_safe (ndr_pull_bytes n) (fun l => bytes_ok l /\ length l = Z.to_nat n).
Proof.
  intros Hn. apply safe_need; [done|]. intros r Hr Hl.
  pose proof Hr as ([? ?] & ? & ? & ? & Hb & ?).
  unfold pl_take, pl_skip, Ndr_bind, Ndr_get, Ndr_modify. rewrite bool_decide_true by lia. simpl.
  split; [apply pl_wf_set_offset; [done|rewrite u32_small; lia]|].
  split; [by apply bytes_ok_slice|]. rewrite length_take, length_drop. lia.
Qed.

Lemma pl_skip_eq r n :
  pl_wf r -> 0 <= n <= pl_data_size r - pl_offset r ->
  pl_skip n r = (Ok tt, pl_set_offset r (pl_offset r + n)).
Proof.
  intros ([? ?] & ? & ? & _) Hn. unfold pl_skip, Ndr_modify. by rewrite u32_small by lia.
Qed.

Lemma safe_load (n : Z) (load : Z -> list Z -> Z -> option Z) (f : Z -> Z) (Q : Z -> Prop) :
  0 < n ->
  (forall flags buf pos, 0 <= pos -> pos + n <= Z.of_nat (length buf) ->
     is_Some (load flags buf pos)) ->
  (forall flags buf pos v, bytes_ok buf -> load flags buf pos = Some v -> Q (f v)) ->
  pull_safe
    (try! NDR_PULL_NEED_BYTES n;
     try ndr <- Ndr_get;
     try v <- Ndr_mem (load (pl_flags ndr) (pl_data ndr) (pl_offset ndr));
     try! pl_skip n;
     Ndr_ret (f v)) Q.
Proof.
  intros Hn Hs Hq. apply safe_need; [lia|]. intros r Hr Hl.
  pose proof Hr as ([? ?] & ? & ? & ? & Hb & ?).
  destruct (Hs (pl_flags r) (pl_data r) (pl_offset r)) as [v Hv]; [lia..|].
  unfold Ndr_bind, Ndr_get, Ndr_mem, st_ret. rewrite Hv, pl_skip_eq by (done || lia). simpl.
  split; [apply pl_wf_set_offset; [done|lia]|]. by eapply Hq.
Qed.

Definition in_range (lo hi : Z) (v : Z) : Prop := lo <= v < hi.

Lemma s8_range v : in_range (- 2 ^ 7) (2 ^ 7) (s8 v).
Proof. unfold in_range, s8. pose proof (Z.mod_pos_bound (v + 2 ^ 7) (2 ^ 8)). lia. Qed.
Lemma s16_range v : in_range (- 2 ^ 15) (2 ^ 15) (s16 v).
Proof. unfold in_range, s16. pose proof (Z.mod_pos_bound (v + 2 ^ 15) (2 ^ 16)). lia. Qed.
Lemma s32_range v : in_range (- 2 ^ 31) (2 ^ 31) (s32 v).
Proof. unfold in_range, s32. pose proof (Z.mod_pos_bound (v + 2 ^ 31) (2 ^ 32)). lia. Qed.
Lemma s64_range v : in_range (- 2 ^ 63) (2 ^ 63) (s64 v).
Proof. unfold in_range, s64. pose proof (Z.mod_pos_bound (v + 2 ^ 63) (2 ^ 64)). lia. Qed.

Lemma safe_uint8 : pull_safe ndr_pull_uint8 (in_range 0 (2 ^ 8)).
Proof.
  apply (safe_load 1 (fun _ => CVAL) id); [lia|..].
  - intros _ buf pos ??. apply is_Some_CVAL. lia.
  - intros _ buf pos v Hb Hv. exact (CVAL_range buf Hb pos v Hv).
Qed.

Lemma safe_int8 : pull_safe ndr_pull_int8 (in_range (- 2 ^ 7) (2 ^ 7)).
Proof.
  apply (safe_load 1 (fun _ => CVAL) s8); [lia|..].
  - intros _ buf pos ??. apply is_Some_CVAL. lia.
  - intros. apply s8_range.
Qed.

Lemma safe_uint16 : pull_safe ndr_pull_uint16 (in_range 0 (2 ^ 16)).
Proof.
  apply (safe_bind _ _ any); [by apply safe_align|]. intros _ _.
  apply (safe_load 2 NDR_SVAL id); [lia|intros; by apply is_Some_NDR_SVAL|].
  intros flags buf pos v Hb Hv. exact (NDR_SVAL_range buf Hb flags pos v Hv).
Qed.

Lemma safe_int16 : pull_safe ndr_pull_int16 (in_range (- 2 ^ 15) (2 ^ 15)).
Proof.
  apply (safe_bind _ _ any); [by apply safe_align|]. intros _ _.
  apply (safe_load 2 NDR_SVAL (fun v => s16 (u16 v))); [lia|intros; by apply is_Some_NDR_SVAL|].
  intros. apply s16_range.
Qed.

Lemma safe_uint32 : pull_safe ndr_pull_uint32 (in_range 0 (2 ^ 32)).
Proof.
  apply (safe_bind _ _ any); [by apply safe_align|]. intros _ _.
  apply (safe_load 4 NDR_IVAL id); [lia|intros; by apply is_Some_NDR_IVAL|].
  intros flags buf pos v Hb Hv. exact (NDR_IVAL_range buf Hb flags pos v Hv).
Qed.

Lemma safe_int32 : pull_safe ndr_pull_int32 (in_range (- 2 ^ 31) (2 ^ 31)).
Proof.
  apply (safe_bind _ _ any); [by apply safe_align|]. intros _ _.
  apply (safe_load 4 NDR_IVALS id); [lia|..].
  - intros flags buf pos ??. unfold NDR_IVALS.
    by destruct (is_Some_NDR_IVAL flags buf pos) as [v ->].
  - intros flags buf pos v _. unfold NDR_IVALS.
    destruct (NDR_IVAL flags buf pos); [|done]. intros [= <-]. apply s32_range.
Qed.

(** Two words side by side. *)
Lemma safe_load2 (f : Z -> Z -> Z) (Q : Z -> Prop) :
  (forall a b, in_range 0 (2 ^ 32) a -> in_range 0 (2 ^ 32) b -> Q (f a b)) ->
  pull_safe
    (try! NDR_PULL_ALIGN 4;
     try! NDR_PULL_NEED_BYTES 8;
     try ndr <- Ndr_get;
     try a <- Ndr_mem (NDR_IVAL (pl_flags ndr) (pl_data ndr) (pl_offset ndr));
     try b <- Ndr_mem (NDR_IVAL (pl_flags ndr) (pl_data ndr) (u32 (pl_offset ndr + 4)));
     try! pl_skip 8;
     Ndr_ret (f a b)) Q.
Proof.
  intros Hq. apply (safe_bind _ _ any); [by apply safe_align|]. intros _ _.
  apply safe_need; [lia|]. intros r Hr Hl.
  pose proof Hr as ([? ?] & ? & ? & ? & Hb & ?).
  destruct (is_Some_NDR_IVAL (pl_flags r) (pl_data r) (pl_offset r)) as [a Ha]; [lia..|].
  destruct (is_Some_NDR_IVAL (pl_flags r) (pl_data r) (pl_offset r + 4)) as [b Hb']; [lia..|].
  unfold Ndr_bind, Ndr_get, Ndr_mem, st_ret. rewrite Ha, u32_small, Hb' by lia.
  rewrite pl_skip_eq by (done || lia). simpl.
  split; [apply pl_wf_set_offset; [done|lia]|].
  apply Hq; [exact (NDR_IVAL_range _ Hb _ _ _ Ha)|exact (NDR_IVAL_range _ Hb _ _ _ Hb')].
Qed.

Lemma lor_words a b :
  in_range 0 (2 ^ 32) a -> in_range 0 (2 ^ 32) b -> in_range 0 (2 ^ 64) (a ||| Z.shiftl b 32).
Proof. unfold in_range. intros. rewrite lor_shiftl_add by lia. lia. Qed.

Lemma safe_udlong : pull_safe ndr_pull_udlong (in_range 0 (2 ^ 64)).
Proof. apply (safe_load2 (fun lo hi => lo ||| Z.shiftl hi 32)), lor_words. Qed.

Lemma safe_udlongr : pull_safe ndr_pull_udlongr (in_range 0 (2 ^ 64)).
Proof.
  apply (safe_load2 (fun hi lo => Z.shiftl hi 32 ||| lo)).
  intros. rewrite Z.lor_comm. by apply lor_words.
Qed.

Lemma safe_hyper : pull_safe ndr_pull_hyper (in_range 0 (2 ^ 64)).
Proof. apply (safe_bind _ _ any); [by apply safe_align|]. intros _ _. apply safe_udlong. Qed.

Lemma safe_dlong : pull_safe ndr_pull_dlong (in_range (- 2 ^ 63) (2 ^ 63)).
Proof. eapply safe_bind; [apply safe_udlong|]. intros. apply safe_ret, s64_range. Qed.

(** Alignments are powers of two. *)
Lemma ndr_align_size_eq o k :
  0 <= k -> ndr_align_size o (2 ^ k) = (- o) mod 2 ^ k.
Proof.
  intros Hk. unfold ndr_align_size.
  replace (2 ^ k - 1) with (Z.ones k) by (rewrite Z.ones_equiv; lia).
  rewrite Z.land_ones by done. pose proof (Z.pow_pos_nonneg 2 k ltac:(lia) Hk).
  destruct (Z.eqb_spec (o mod 2 ^ k) 0).
  - by rewrite Z.mod_opp_l_z by lia.
  - by rewrite Z.mod_opp_l_nz by lia.
Qed.

Lemma ndr_align_size_range o k : 0 <= k -> 0 <= ndr_align_size o (2 ^ k) < 2 ^ k.
Proof.
  intros Hk. rewrite ndr_align_size_eq by done. apply Z.mod_pos_bound.
  by apply Z.pow_pos_nonneg.
Qed.

Lemma safe_DATA_BLOB : pull_safe ndr_pull_DATA_BLOB bytes_ok.
Proof.
  intros r Hr. unfold ndr_pull_DATA_BLOB. unfold Ndr_bind at 1, Ndr_get at 1.
  set (k := try length <- _; _). enough (pull_safe k bytes_ok) as Hk by exact (Hk r Hr).
  eapply (safe_bind _ _ (fun n => 0 <= n)).
  - pose proof (u32_range (pl_data_size r - pl_offset r)) as Hu.
    pose proof (fun k Hk => ndr_align_size_range (pl_offset r) k Hk) as Ha.
    destruct (_ &? _); [|destruct (_ &? _)].
    + apply safe_ret. destruct (_ <? _); [lia|].
      destruct (_ &? _); [exact (proj1 (Ha 1 ltac:(lia)))|].
      destruct (_ &? _); [exact (proj1 (Ha 2 ltac:(lia)))|].
      destruct (_ &? _); [exact (proj1 (Ha 3 ltac:(lia)))|lia].
    + apply safe_ret. lia.
    + eapply safe_weaken; [apply safe_uint32|]. unfold in_range. lia.
  - intros n Hn. eapply safe_weaken; [exact (safe_bytes n Hn)|]. by intros l [? _].
Qed.

(** A parser built from the operations: it may do anything with the values it
    has read.  A subcontext runs a parser of its own. *)
Inductive parser : Type :=
  | PDone
  | PFail (status : NTSTATUS)
  | PUint8 (k : Z -> parser)
  | PInt8 (k : Z -> parser)
  | PUint16 (k : Z -> parser)
  | PInt16 (k : Z -> parser)
  | PUint32 (k : Z -> parser)
  | PInt32 (k : Z -> parser)
  | PUdlong (k : Z -> parser)
  | PUdlongr (k : Z -> parser)
  | PDlong (k : Z -> parser)
  | PHyper (k : Z -> parser)
  | PGenericPtr (k : Z -> parser)
  | PBytes (n : Z) (k : list Z -> parser)
  | PDataBlob (k : list Z -> parser)
  | PAlign (n : Z) (k : parser)
  | PAdvance (n : Z) (k : parser)
  | PRelativePtr1 (p rel_offset : Z) (k : parser)
  | PRelativePtr2 (p : Z) (k : parser)
  | PArraySize (p : Z) (k : Z -> parser)
  | PArrayLength (p : Z) (k : Z -> parser)
  | PSubcontext (header_size size_is : Z) (sub k : parser).

(** The operation of each constructor, with [uint32_t] arguments. *)
Fixpoint run_parser (p : parser) : Pull unit :=
  match p with
  | PDone => Ndr_ret tt
  | PFail status => Ndr_err status
  | PUint8 k => try v <- ndr_pull_uint8; run_parser (k v)
  | PInt8 k => try v <- ndr_pull_int8; run_parser (k v)
  | PUint16 k => try v <- ndr_pull_uint16; run_parser (k v)
  | PInt16 k => try v <- ndr_pull_int16; run_parser (k v)
  | PUint32 k => try v <- ndr_pull_uint32; run_parser (k v)
  | PInt32 k => try v <- ndr_pull_int32; run_parser (k v)
  | PUdlong k => try v <- ndr_pull_udlong; run_parser (k v)
  | PUdlongr k => try v <- ndr_pull_udlongr; run_parser (k v)
  | PDlong k => try v <- ndr_pull_dlong; run_parser (k v)
  | PHyper k => try v <- ndr_pull_hyper; run_parser (k v)
  | PGenericPtr k => try v <- ndr_pull_generic_ptr; run_parser (k v)
  | PBytes n k => try v <- ndr_pull_bytes (u32 n); run_parser (k v)
  | PDataBlob k => try v <- ndr_pull_DATA_BLOB; run_parser (k v)
  | PAlign n k => try! ndr_pull_align n; run_parser k
  | PAdvance n k => try! ndr_pull_advance (u32 n); run_parser k
  | PRelativePtr1 p ofs k => try! ndr_pull_relative_ptr1 p (u32 ofs); run_parser k
  | PRelativePtr2 p k => try! ndr_pull_relative_ptr2 p; run_parser k
  | PArraySize p k => try! ndr_pull_array_size p; try v <- ndr_get_array_size p; run_parser (k v)
  | PArrayLength p k =>
      try! ndr_pull_array_length p; try v <- ndr_get_array_length p; run_parser (k v)
  | PSubcontext h s sub k =>
      try subndr <- ndr_pull_subcontext_start h s;
      match run_parser sub subndr with
      | (Ok _, subndr) => try! ndr_pull_subcontext_end subndr h s; run_parser k
      | (Err e, _) => Ndr_err e
      | (Fault, _) => Ndr_mem None
      end
  end.

Lemma token_retrieve_Forall {K} (P : ndr_token K -> Prop) l key cmp b v rest :
  Forall P l -> ndr_token_retrieve_cmp_fn l key cmp b = inr (v, rest) ->
  Forall P rest /\ exists t, P t /\ tok_value t = v.
Proof.
  revert v rest. induction l as [|t l IH]; intros v rest Hl; simpl; [done|].
  apply Forall_cons in Hl as [Ht Hl]. destruct (cmp _ _).
  - intros [= <- <-]. split; [destruct b; [done|by constructor]|by exists t].
  - destruct (ndr_token_retrieve_cmp_fn l key cmp b) as [e|[v' rest']]; [done|].
    intros [= <- <-]. destruct (IH v' rest' Hl eq_refl) as [? ?]. split; [by constructor|done].
Qed.

Lemma safe_generic_ptr : pull_safe ndr_pull_generic_ptr (in_range 0 (2 ^ 32)).
Proof.
  eapply safe_bind; [apply safe_uint32|]. intros v Hv.
  apply (safe_bind _ _ any); [|by intros; apply safe_ret].
  destruct (negb _); [apply safe_modify; [|done]; by intros [] |by apply safe_ret].
Qed.

Lemma pl_wf_set_relative_list r l :
  pl_wf r -> Forall (fun t => 0 <= tok_value t) l -> pl_wf (pl_set_relative_list r l).
Proof. intros (H1 & H2 & H3 & H4 & H5 & _) Hl. exact (conj H1 (conj H2 (conj H3 (conj H4 (conj H5 Hl))))). Qed.

Lemma safe_relative_ptr1 p ofs : pull_safe (ndr_pull_relative_ptr1 p ofs) any.
Proof.
  intros r Hr. unfold ndr_pull_relative_ptr1, Ndr_bind, Ndr_get. case_goal; [done|].
  simpl. split; [|done]. apply pl_wf_set_relative_list; [done|].
  apply Forall_cons. split; [apply u32_range|]. by apply Hr.
Qed.

Lemma safe_relative_ptr2 p : pull_safe (ndr_pull_relative_ptr2 p) any.
Proof.
  intros r Hr. unfold ndr_pull_relative_ptr2. unfold Ndr_bind at 1, Ndr_get at 1.
  unfold ndr_token_retrieve.
  destruct (ndr_token_retrieve_cmp_fn _ _ _ _) as [e|[v rest]] eqn:E; [done|].
  pose proof Hr as (? & ? & ? & ? & ? & Hl).
  apply (token_retrieve_Forall _ _ _ _ _ _ _ Hl) in E as [Hrest (t & Ht & <-)].
  unfold Ndr_bind, Ndr_modify. simpl. apply safe_set_offset; [done..|].
  by apply pl_wf_set_relative_list.
Qed.

Lemma safe_array_size p : pull_safe (ndr_pull_array_size p) any.
Proof.
  eapply safe_bind; [apply safe_uint32|]. intros v _. apply safe_modify; [|done].
  by intros r (? & ? & ? & ? & ? & ?).
Qed.

Lemma safe_array_length p : pull_safe (ndr_pull_array_length p) any.
Proof.
  eapply safe_bind; [apply safe_uint32|]. intros v _. destruct (negb _); [apply safe_err|].
  eapply safe_bind; [apply safe_uint32|]. intros n _. apply safe_modify; [|done].
  by intros r (? & ? & ? & ? & ? & ?).
Qed.

Lemma safe_peek (f : ndr_pull -> Z) : pull_safe (try ndr <- Ndr_get; Ndr_ret (f ndr)) any.
Proof. by intros r Hr. Qed.

Lemma safe_subcontext_start h s : pull_safe (ndr_pull_subcontext_start h s) pl_wf.
Proof.
  intros r Hr. unfold ndr_pull_subcontext_start. unfold Ndr_bind at 1, Ndr_get at 1.
  set (k := try content_size <- _; _). enough (pull_safe k pl_wf) as Hk by exact (Hk r Hr).
  apply (safe_bind _ _ (fun n => 0 <= n)).
  - repeat destruct (_ =? _); [apply safe_ret; case_goal; apply u32_range|..|apply safe_err];
      (eapply safe_bind; [apply safe_uint16 || apply safe_uint32|]);
      unfold in_range; intros v Hv; (destruct (_ && _); [apply safe_err|apply safe_ret; lia]).
  - intros n Hn. apply safe_need; [done|]. intros r' Hr' Hl. simpl. split; [done|].
    destruct Hr' as ([? ?] & ? & ? & Hp & Hb & ?).
    split_and!; simpl; try lia; try done; [rewrite length_drop; lia|by apply Forall_drop].
Qed.

Lemma run_parser_safe p : pull_safe (run_parser p) any.
Proof.
  induction p as [| |k IH|k IH|k IH|k IH|k IH|k IH|k IH|k IH|k IH|k IH|k IH|n k IH|k IH|n k IH
                  |n k IH|p o k IH|p k IH|p k IH|p k IH|h s sub IHs k IH]; simpl.
  1: by apply safe_ret.
  1: apply safe_err.
  1-11: eapply safe_bind; [first [apply safe_uint8|apply safe_int8|apply safe_uint16
    |apply safe_int16|apply safe_uint32|apply safe_int32|apply safe_udlong|apply safe_udlongr
    |apply safe_dlong|apply safe_hyper|apply safe_generic_ptr]|by intros v _].
  - eapply safe_bind; [apply safe_bytes, u32_range|by intros v _].
  - eapply safe_bind; [apply safe_DATA_BLOB|by intros v _].
  - apply (safe_bind _ _ any); [by apply safe_align|by intros v _].
  - apply (safe_bind _ _ any); [by apply safe_advance|by intros v _].
  - eapply safe_bind; [apply safe_relative_ptr1|by intros v _].
  - eapply safe_bind; [apply safe_relative_ptr2|by intros v _].
  - eapply safe_bind; [apply safe_array_size|]. intros _ _.
    eapply safe_bind; [apply safe_peek|by intros v _].
  - eapply safe_bind; [apply safe_array_length|]. intros _ _.
    eapply safe_bind; [apply safe_peek|by intros v _].
  - eapply safe_bind; [apply safe_subcontext_start|]. intros sb Hsb.
    specialize (IHs sb Hsb). destruct (run_parser sub sb) as [[[]|e|] sb']; [|apply safe_err|done].
    apply (safe_bind _ _ any); [by apply safe_advance|by intros v _].
Qed.

Definition pl_start (flags : Z) (blob : list Z) : ndr_pull :=
  let r := ndr_pull_init_blob blob in
  mk_pull flags (pl_data r) (pl_data_size r) (pl_offset r) 0 [] [] [] [] [] 0.

Lemma pl_start_wf flags blob :
  bytes_ok blob -> Z.of_nat (length blob) < 2 ^ 31 ->
  (flags &? LIBNDR_FLAG_PAD_CHECK) = false -> pl_wf (pl_start flags blob).
Proof.
  intros Hb Hl Hf. unfold pl_wf, pl_start. simpl. rewrite u32_small by lia.
  split_and!; try done; lia.
Qed.

(** C12: whatever a parser built from the NDR operations does with the values
    it reads - skip, align, follow relative pointers, enter subcontexts whose
    sizes come from the packet - it never reads outside the packet, and when it
    finishes its offset is inside the packet.  The packet is shorter than 2 GB
    and the padding check, a debugging aid, is off. *)
Theorem ndr_parser_in_bounds flags blob (p : parser) :
  bytes_ok blob -> Z.of_nat (length blob) < 2 ^ 31 ->
  (flags &? LIBNDR_FLAG_PAD_CHECK) = false ->
  match run_parser p (pl_start flags blob) with
  | (Ok _, r) => 0 <= pl_offset r <= Z.of_nat (length (pl_data r))
  | (Err _, _) => True
  | (Fault, _) => False
  end.
Proof.
  intros Hb Hl Hf. pose proof (run_parser_safe p _ (pl_start_wf _ _ Hb Hl Hf)) as H.
  destruct (run_parser p _) as [[[]|e|] r]; try done.
  destruct H as [(? & ? & _) _]. lia.
Qed.

(** A length-prefixed blob inside a subcontext, and one that lies about its
    length. *)
Definition blob_in_subcontext : parser :=
  PSubcontext 4 (-1) (PUint16 (fun n => PBytes n (fun _ => PDone))) (PUint8 (fun _ => PDone)).

Lemma ndr_parser_in_bounds_witness :
  run_parser blob_in_subcontext (pl_start 0 [4;0;0;0; 2;0;7;8; 9]) =
    (Ok tt, pl_set_offset (pl_start 0 [4;0;0;0; 2;0;7;8; 9]) 9) /\
  (run_parser blob_in_subcontext (pl_start 0 [4;0;0;0; 3;0;7;8; 9])).1 =
    Err NT_STATUS_BUFFER_TOO_SMALL /\
  0 <= 9 <= 9.
Proof.
  split; [vm_compute; reflexivity|]. split; [vm_compute; reflexivity|].
  assert (bytes_ok [4;0;0;0; 2;0;7;8; 9]) as Hb by (repeat constructor; lia).
  exact (ndr_parser_in_bounds 0 [4;0;0;0; 2;0;7;8; 9] blob_in_subcontext Hb
           ltac:(vm_compute; reflexivity) eq_refl).
Defined.

(** Beyond 2 GB the sum in [NDR_PULL_NEED_BYTES] wraps and the check passes
    for bytes that are not there. *)
Lemma need_bytes_wraps r :
  pl_data_size r = Z.of_nat (length (pl_data r)) -> 2 ^ 31 < pl_data_size r < 2 ^ 32 ->
  pl_offset r = 2 ^ 31 ->
  (ndr_pull_bytes (2 ^ 31) r).1 = Fault.
Proof.
  intros Hd Hs Ho. unfold ndr_pull_bytes, NDR_PULL_NEED_BYTES, pl_take, Ndr_bind, Ndr_get.
  rewrite Ho. change (u32 (2 ^ 31 + 2 ^ 31)) with 0.
  replace (pl_data_size r <? 2 ^ 31) with false by (symmetry; apply Z.ltb_ge; lia).
  replace (pl_data_size r <? 0) with false by (symmetry; apply Z.ltb_ge; lia).
  cbn [orb]. unfold Ndr_ret, st_ret. cbv beta iota zeta.
  rewrite Ho, bool_decide_false; [done|]. lia.
Qed.

(** The padding check reads the padding before the offset is checked: one
    byte past a buffer of one byte. *)
Lemma pad_check_overreads :
  let r := pl_set_offset (pl_start LIBNDR_FLAG_PAD_CHECK [0]) 1 in
  (ndr_pull_uint16 r).1 = Fault.
Proof. vm_compute. reflexivity. Qed.
