(* ===== verification/NdrCodec.v ===== *)
(** * NDR: what is written is read back

    The wire format of a value is a list of bytes that depends on the flags
    and on the offset, because of the alignment padding.  [emits m enc] says
    that a push operation appends the format [enc] to the buffer, growing it
    when needed; [consumes m enc a] that a pull operation at bytes in this
    format gives [a] and steps over them.  Both compose over sequences, so a
    structure made of fields that agree on their formats round-trips.  The
    interface of a field is the class [NdrCodec]; its instances are the scalar
    types of [ndr_basic.c] and blobs. *)

From S2P Require Import Prelude NtStatus Ndr.

Local Open Scope Z_scope.

(** ** Growing the buffer *)

(** The buffer of a push: the offset is inside an allocation that [talloc]
    could make. *)
Definition ps_wf (w : ndr_push) : Prop :=
  0 <= ps_offset w <= ps_alloc_size w /\ ps_alloc_size w < MAX_TALLOC_SIZE.

(** Offsets below this never run into the limit of [talloc]. *)
Definition NDR_LIMIT : Z := MAX_TALLOC_SIZE - 2 * NDR_BASE_MARSHALL_SIZE.

Lemma ndr_push_expand_room n w :
  ps_wf w -> 0 <= n -> ps_offset w + n < NDR_LIMIT ->
  exists d, ndr_push_expand n w = (Ok tt, ps_set_data w d (ps_offset w)) /\
    ps_wf (ps_set_data w d (ps_offset w)) /\ ps_offset w + n <= Z.of_nat (length d) /\
    take (Z.to_nat (ps_offset w)) d = ndr_push_blob w.
Proof.
  intros [[Ho Ha] Hm] Hn Hl. unfold NDR_LIMIT, MAX_TALLOC_SIZE, NDR_BASE_MARSHALL_SIZE in *.
  unfold ndr_push_expand, Ndr_bind, Ndr_get, Ndr_modify.
  rewrite (u32_small (n + ps_offset w)) by lia.
  replace (n + ps_offset w <? ps_offset w) with false by (symmetry; apply Z.ltb_ge; lia).
  destruct (Z.ltb_spec (n + ps_offset w) (ps_alloc_size w)).
  - exists (ps_data w). unfold ps_wf, ps_alloc_size in *. destruct w; simpl in *.
    split_and!; try done; try lia.
  - rewrite !u32_small by (unfold NDR_BASE_MARSHALL_SIZE; lia).
    set (a := if _ <? _ then _ else _).
    assert (n + ps_offset w < a < 2 ^ 28 /\ ps_alloc_size w <= a) as [Haa Hge].
    { unfold a, NDR_BASE_MARSHALL_SIZE. case_goal; bool_hyps; lia. }
    replace (_ || _) with false
      by (symmetry; apply orb_false_intro; unfold MAX_TALLOC_SIZE;
          [apply Z.leb_gt|apply Z.eqb_neq]; lia).
    exists (resize (Z.to_nat a) 0 (ps_data w)). unfold ps_wf, ps_alloc_size in *. simpl.
    rewrite !length_resize. unfold MAX_TALLOC_SIZE.
    split; [done|]. split; [lia|]. split; [lia|].
    unfold ndr_push_blob. rewrite take_resize_le by lia. by rewrite resize_le by lia.
Qed.

(** ** Operations that append *)

Definition format : Type := Z -> Z -> list Z.
Definition flen (e : format) (flags o : Z) : Z := Z.of_nat (length (e flags o)).

(** Some formats need flags that are [F]. *)
Section format.
Variable F : Z -> Prop.

(** [m] appends the bytes of the format and changes nothing else. *)
Definition emits (m : Push unit) (e : format) : Prop := forall w, F (ps_flags w) ->
  let o := ps_offset w + flen e (ps_flags w) (ps_offset w) in
  ps_wf w -> o < NDR_LIMIT ->
  exists d, m w = (Ok tt, ps_set_data w d o) /\ ps_wf (ps_set_data w d o) /\
    take (Z.to_nat o) d = ndr_push_blob w ++ e (ps_flags w) (ps_offset w).

Definition e_nil : format := fun _ _ => [].
Definition e_app (e1 e2 : format) : format := fun flags o =>
  e1 flags o ++ e2 flags (o + flen e1 flags o).
Definition e_const (bs : list Z) : format := fun _ _ => bs.

Lemma emits_ret : emits (Ndr_ret tt) e_nil.
Proof.
  intros w Hf o Hw Ho. unfold o, flen, e_nil. simpl. rewrite Z.add_0_r.
  exists (ps_data w). by destruct w; rewrite app_nil_r.
Qed.

Lemma emits_bind m1 m2 e1 e2 :
  emits m1 e1 -> emits m2 e2 -> emits (try! m1; m2) (e_app e1 e2).
Proof.
  intros H1 H2 w Hf o Hw Ho. unfold o, flen, e_app in *. rewrite length_app, Nat2Z.inj_add in *.
  set (o1 := ps_offset w + flen e1 (ps_flags w) (ps_offset w)).
  fold (flen e1 (ps_flags w) (ps_offset w)) in *. fold o1 in Ho. fold o1.
  destruct (H1 w Hf Hw) as (d1 & E1 & Hw1 & T1); [fold o1; lia|]. fold o1 in E1, Hw1, T1.
  destruct (H2 (ps_set_data w d1 o1) Hf Hw1) as (d2 & E2 & Hw2 & T2); [unfold flen; simpl; lia|].
  simpl in *. exists d2. unfold Ndr_bind. rewrite E1. unfold flen in E2, Hw2, T2 at 1.
  rewrite Z.add_assoc. fold o1. split; [exact E2|]. split; [exact Hw2|].
  unfold flen in T2. rewrite T2. unfold ndr_push_blob at 1. simpl. by rewrite T1, app_assoc.
Qed.

(** The alignment padding of a format. *)
Definition aligned (flags : Z) : bool := negb (flags &? LIBNDR_FLAG_NOALIGN).
Definition pad_len (k : Z) (flags o : Z) : Z := if aligned flags then (- o) mod 2 ^ k else 0.
Definition e_pad (k : Z) : format := fun flags o => replicate (Z.to_nat (pad_len k flags o)) 0.

Lemma pad_len_range k flags o : 0 <= k -> 0 <= pad_len k flags o < 2 ^ k.
Proof.
  intros Hk. unfold pad_len. pose proof (Z.pow_pos_nonneg 2 k ltac:(lia) Hk).
  destruct (aligned flags); [by apply Z.mod_pos_bound|lia].
Qed.

Lemma flen_pad k flags o : 0 <= k -> flen (e_pad k) flags o = pad_len k flags o.
Proof.
  intros Hk. unfold flen, e_pad. rewrite length_replicate.
  pose proof (pad_len_range k flags o Hk). lia.
Qed.

(** Rounding up is adding the padding. *)
Lemma NDR_ROUND_pad o k :
  0 <= k -> 0 <= o -> o + 2 ^ k <= 2 ^ 32 -> NDR_ROUND o (2 ^ k) = o + (- o) mod 2 ^ k.
Proof.
  intros Hk Ho Hl. pose proof (Z.pow_pos_nonneg 2 k ltac:(lia) Hk) as Hp.
  unfold NDR_ROUND, clear_bits.
  replace (2 ^ k - 1) with (Z.ones k) by (rewrite Z.ones_equiv; lia).
  rewrite Z.ldiff_ones_r, Z.shiftr_div_pow2, Z.shiftl_mul_pow2 by done.
  replace (Z.ones k) with (2 ^ k - 1) by (rewrite Z.ones_equiv; lia).
  assert ((o + (2 ^ k - 1)) / 2 ^ k * 2 ^ k = o + (- o) mod 2 ^ k) as ->.
  { set (n := 2 ^ k) in *. clearbody n. pose proof (Z.div_mod (- o) n ltac:(lia)).
    pose proof (Z.mod_pos_bound (- o) n Hp).
    rewrite <- (Z.div_unique (o + (n - 1)) n (- (- o / n)) (n - 1 - (- o) mod n)) by lia.
    lia. }
  pose proof (Z.mod_pos_bound (- o) (2 ^ k) Hp). rewrite u32_small; [done|].
  split; [lia|]. assert (o + (- o) mod 2 ^ k < o + 2 ^ k) by lia. lia.
Qed.

(** [m] stores the bytes of the format into a buffer that has room for them. *)
Definition stores (m : Push unit) (e : format) : Prop := forall w,
  let o := ps_offset w + flen e (ps_flags w) (ps_offset w) in
  0 <= ps_offset w -> o <= ps_alloc_size w -> ps_alloc_size w < MAX_TALLOC_SIZE ->
  exists d, m w = (Ok tt, ps_set_data w d o) /\ length d = length (ps_data w) /\
    take (Z.to_nat o) d = ndr_push_blob w ++ e (ps_flags w) (ps_offset w).

Lemma stores_put n store (bs : Z -> list Z) :
  (forall fl, Z.of_nat (length (bs fl)) = n) ->
  (forall w buf pos, 0 <= pos -> pos + n <= Z.of_nat (length buf) ->
     store w buf pos = Some (splice (Z.to_nat pos) (bs (ps_flags w)) buf)) ->
  stores (try ndr <- Ndr_get; ps_put n (store ndr)) (fun flags _ => bs flags).
Proof.
  intros Hlen Hst w o Ho Hl Hm. unfold o, flen in *. rewrite Hlen in *.
  unfold ps_put, Ndr_bind, Ndr_mem, Ndr_get, Ndr_modify, st_ret, ps_alloc_size in *.
  rewrite Hst by done. unfold MAX_TALLOC_SIZE in *. specialize (Hlen (ps_flags w)).
  rewrite u32_small by lia.
  eexists. split; [reflexivity|]. rewrite length_splice by lia. split; [done|].
  rewrite Z2Nat.inj_add by lia. rewrite <- Hlen, Nat2Z.id.
  rewrite take_splice by lia. done.
Qed.

Lemma stores_bind m1 m2 e1 e2 :
  stores m1 e1 -> stores m2 e2 -> stores (try! m1; m2) (e_app e1 e2).
Proof.
  intros H1 H2 w o Ho Hl Hm. unfold o, flen, e_app in *. rewrite length_app, Nat2Z.inj_add in *.
  fold (flen e1 (ps_flags w) (ps_offset w)) in *.
  set (o1 := ps_offset w + flen e1 (ps_flags w) (ps_offset w)) in *.
  assert (ps_offset w <= o1) by (unfold o1, flen; lia).
  destruct (H1 w Ho) as (d1 & E1 & L1 & T1); [fold o1; lia|done|]. fold o1 in E1, T1.
  destruct (H2 (ps_set_data w d1 o1)) as (d2 & E2 & L2 & T2);
    [simpl; lia|unfold ps_alloc_size, flen in *; simpl; rewrite L1; lia
    |unfold ps_alloc_size in *; simpl; by rewrite L1|].
  unfold flen in E2, T2. simpl in *. exists d2. unfold Ndr_bind. rewrite E1.
  rewrite Z.add_assoc. fold o1. split; [exact E2|]. split; [congruence|].
  rewrite T2. unfold ndr_push_blob at 1. simpl. by rewrite T1, app_assoc.
Qed.

(** A store of [n] bytes after the check for room. *)
Lemma emits_need n m e :
  (forall fl o, flen e fl o = n) -> stores m e -> emits (try! NDR_PUSH_NEED_BYTES n; m) e.
Proof.
  intros Hlen Hst w Hf o Hw Ho. unfold o in *. rewrite Hlen in *.
  assert (0 <= n) as Hn by (rewrite <- (Hlen 0 0); unfold flen; lia).
  destruct (ndr_push_expand_room n w Hw Hn Ho) as (d & E & Hw' & Hl & T).
  unfold NDR_PUSH_NEED_BYTES, Ndr_bind. rewrite E.
  destruct (Hst (ps_set_data w d (ps_offset w))) as (d' & E' & L' & T').
  - apply Hw.
  - rewrite Hlen. unfold ps_alloc_size. simpl. lia.
  - apply Hw'.
  - rewrite Hlen in *. simpl in *. exists d'. split; [exact E'|]. split.
    + destruct Hw' as [_ Hd]. destruct Hw as [[? _] _]. unfold ps_wf, ps_alloc_size in *.
      simpl in *. lia.
    + rewrite T'. unfold ndr_push_blob at 1. simpl. by rewrite T.
Qed.

Lemma emits_put n store (bs : Z -> list Z) :
  (forall fl, Z.of_nat (length (bs fl)) = n) ->
  (forall w buf pos, 0 <= pos -> pos + n <= Z.of_nat (length buf) ->
     store w buf pos = Some (splice (Z.to_nat pos) (bs (ps_flags w)) buf)) ->
  emits (try! NDR_PUSH_NEED_BYTES n; try ndr <- Ndr_get; ps_put n (store ndr))
    (fun flags _ => bs flags).
Proof. intros Hlen Hst. apply emits_need; [intros; apply Hlen|]. by apply stores_put. Qed.

Lemma emits_ext m m' e e' :
  emits m e -> (forall w, m' w = m w) -> (forall fl o, e' fl o = e fl o) -> emits m' e'.
Proof.
  intros H Hm He w Hf o Hw Ho. unfold o, flen in *. rewrite Hm, He in *. by apply H.
Qed.

Lemma emits_uint8 v : emits (ndr_push_uint8 v) (e_const [u8 v]).
Proof.
  apply (emits_put 1 (fun _ d o => SCVAL d o v) (fun _ => [u8 v])); [done|].
  intros. by apply SCVAL_splice.
Qed.

Lemma emits_zeros n : emits (push_pad n) (e_const (replicate n 0)).
Proof.
  induction n as [|n IH]; [apply emits_ret|].
  exact (emits_bind _ _ _ _ (emits_uint8 0) IH).
Qed.

Lemma emits_align k : 0 <= k <= 8 -> emits (NDR_PUSH_ALIGN (2 ^ k)) (e_pad k).
Proof.
  intros Hk w Hf o Hw Ho. unfold o in *. rewrite flen_pad in * by lia.
  pose proof Hw as [[Hw1 Hw2] Hw3]. unfold MAX_TALLOC_SIZE in *.
  unfold NDR_PUSH_ALIGN, Ndr_bind, Ndr_get.
  unfold e_pad, pad_len, aligned in *. destruct (negb _).
  - pose proof (Z.pow_le_mono_r 2 k 8 ltac:(lia) ltac:(lia)).
    pose proof (Z.mod_pos_bound (- ps_offset w) (2 ^ k) ltac:(lia)).
    rewrite NDR_ROUND_pad by lia.
    rewrite u32_small by lia.
    replace (ps_offset w + - ps_offset w mod 2 ^ k - ps_offset w)
      with (- ps_offset w mod 2 ^ k) by lia.
    pose proof (emits_zeros (Z.to_nat (- ps_offset w mod 2 ^ k)) w Hf Hw) as H'. cbv zeta in H'.
    unfold flen, e_const in H'. rewrite length_replicate, Z2Nat.id in H' by lia. by apply H'.
  - exact (emits_ret w Hf Hw Ho).
Qed.

Lemma emits_word n store k (bs : Z -> list Z) :
  0 <= k <= 8 -> (forall fl, Z.of_nat (length (bs fl)) = n) ->
  (forall w buf pos, 0 <= pos -> pos + n <= Z.of_nat (length buf) ->
     store w buf pos = Some (splice (Z.to_nat pos) (bs (ps_flags w)) buf)) ->
  emits (try! NDR_PUSH_ALIGN (2 ^ k); try! NDR_PUSH_NEED_BYTES n;
         try ndr <- Ndr_get; ps_put n (store ndr))
    (e_app (e_pad k) (fun flags _ => bs flags)).
Proof.
  intros Hk Hlen Hst. apply emits_bind; [by apply emits_align|]. by apply emits_put.
Qed.

Definition e_word16 (v : Z) : format := e_app (e_pad 1) (fun flags _ => wire flags (le16 v)).
Definition e_word32 (v : Z) : format := e_app (e_pad 2) (fun flags _ => wire flags (le32 v)).

Lemma emits_uint16 v : emits (ndr_push_uint16 v) (e_word16 v).
Proof.
  apply (emits_word 2 (fun w d o => NDR_SSVAL (ps_flags w) d o v) 1 (fun fl => wire fl (le16 v)));
    [lia|intros; by rewrite length_wire|]. intros. by apply NDR_SSVAL_splice.
Qed.

Lemma emits_uint32 v : emits (ndr_push_uint32 v) (e_word32 v).
Proof.
  apply (emits_word 4 (fun w d o => NDR_SIVAL (ps_flags w) d o v) 2 (fun fl => wire fl (le32 v)));
    [lia|intros; by rewrite length_wire|]. intros. by apply NDR_SIVAL_splice.
Qed.

(** Two words after each other. *)
Definition e_word64 (v1 v2 : Z) : format :=
  e_app (e_pad 2) (e_app (fun flags _ => wire flags (le32 v1)) (fun flags _ => wire flags (le32 v2))).

Lemma stores_SIVAL v : stores (put_SIVAL v) (fun flags _ => wire flags (le32 v)).
Proof.
  apply (stores_put 4 (fun w d o => NDR_SIVAL (ps_flags w) d o v) (fun fl => wire fl (le32 v))).
  - intros. by rewrite length_wire.
  - intros. by apply NDR_SIVAL_splice.
Qed.

Lemma emits_two_words v1 v2 :
  emits (try! NDR_PUSH_ALIGN 4; try! NDR_PUSH_NEED_BYTES 8; try! put_SIVAL v1; put_SIVAL v2)
    (e_word64 v1 v2).
Proof.
  apply emits_bind; [apply (emits_align 2); lia|]. apply emits_need.
  - intros fl o. unfold flen, e_app. by rewrite length_app, !length_wire.
  - apply stores_bind; apply stores_SIVAL.
Qed.

Lemma mem_store_splice bs buf pos :
  0 <= pos -> pos + Z.of_nat (length bs) <= Z.of_nat (length buf) ->
  mem_store bs buf pos = Some (splice (Z.to_nat pos) bs buf).
Proof.
  intros Hp Hl. unfold mem_store. rewrite bool_decide_true by lia. f_equal.
  assert (Z.to_nat pos + length bs <= length buf)%nat as H by lia. clear Hp Hl.
  revert H. generalize (Z.to_nat pos) as i. induction bs as [|b bs IH]; intros i H.
  - by rewrite splice_nil.
  - simpl in *. rewrite IH by lia. rewrite insert_splice by (rewrite length_splice; lia).
    unfold splice. simpl. f_equal.
    + rewrite take_app_le by (rewrite length_take; lia). rewrite take_take. f_equal. lia.
    + f_equal. rewrite drop_app_ge by (rewrite length_take; lia).
      rewrite length_take. replace (i + 1 - S i `min` length buf)%nat with 0%nat by lia.
      rewrite drop_0. do 2 f_equal. lia.
Qed.

Lemma emits_bytes bs : emits (ndr_push_bytes bs (Z.of_nat (length bs))) (e_const bs).
Proof.
  eapply emits_ext.
  - apply (emits_put (Z.of_nat (length bs)) (fun _ => mem_store bs) (fun _ => bs)); [done|].
    intros. by apply mem_store_splice.
  - intros w. unfold ndr_push_bytes. rewrite Nat2Z.id, bool_decide_true, firstn_all by done. done.
  - done.
Qed.

(** ** Operations that read back *)

(** [m] at bytes of the format gives [a] and steps over them. *)
Definition consumes {A} (m : Pull A) (e : format) (a : A) : Prop := forall r, F (pl_flags r) ->
  let o := pl_offset r + flen e (pl_flags r) (pl_offset r) in
  pl_wf r -> bytes_at (pl_data r) (Z.to_nat (pl_offset r)) (e (pl_flags r) (pl_offset r)) ->
  o <= pl_data_size r -> m r = (Ok a, pl_set_offset r o).

Lemma consumes_ret {A} (a : A) : consumes (Ndr_ret a) e_nil a.
Proof. intros r Hf o Hr _ _. unfold o, flen, e_nil. simpl. rewrite Z.add_0_r. by destruct r. Qed.

Lemma consumes_bind {A B} (m : Pull A) (k : A -> Pull B) e1 e2 a b :
  consumes m e1 a -> consumes (k a) e2 b -> consumes (try x <- m; k x) (e_app e1 e2) b.
Proof.
  intros H1 H2 r Hf o Hr Hb Ho. unfold o, flen, e_app in *. rewrite length_app, Nat2Z.inj_add in *.
  fold (flen e1 (pl_flags r) (pl_offset r)) in *.
  set (o1 := pl_offset r + flen e1 (pl_flags r) (pl_offset r)) in *.
  assert (pl_offset r <= o1) by (unfold o1, flen; lia).
  apply bytes_at_app in Hb as [Hb1 Hb2].
  assert (0 <= pl_offset r) as H0 by apply Hr.
  unfold Ndr_bind. rewrite (H1 r Hf Hr Hb1) by (fold o1; lia). fold o1.
  rewrite (H2 (pl_set_offset r o1)).
  - by rewrite Z.add_assoc.
  - done.
  - apply pl_wf_set_offset; [done|lia].
  - simpl. replace (Z.to_nat o1) with (Z.to_nat (pl_offset r)
      + length (e1 (pl_flags r) (pl_offset r)))%nat by (unfold o1, flen; lia). done.
  - unfold flen. simpl. lia.
Qed.

Lemma consumes_ext {A} (m m' : Pull A) e e' a :
  consumes m e a -> (forall r, m' r = m r) -> (forall fl o, e' fl o = e fl o) ->
  consumes m' e' a.
Proof. intros H Hm He r Hf o Hr Hb Ho. unfold o, flen in *. rewrite Hm, He in *. by apply H. Qed.

(** A conversion of the value. *)
Lemma consumes_map {A B} (m : Pull A) (f : A -> B) e a :
  consumes m e a -> consumes (try x <- m; Ndr_ret (f x)) e (f a).
Proof.
  intros H r Hf o Hr Hb Ho. unfold Ndr_bind. by rewrite (H r Hf Hr Hb Ho).
Qed.

Lemma consumes_align k : 0 <= k <= 8 -> consumes (NDR_PULL_ALIGN (2 ^ k)) (e_pad k) tt.
Proof.
  intros Hk r Hf o Hr Hb Ho. unfold o in *. rewrite flen_pad in * by lia.
  pose proof Hr as ([Ho1 Ho2] & Hd & Hs & Hp & _).
  unfold NDR_PULL_ALIGN, Ndr_bind, Ndr_get, Ndr_modify. rewrite Hp.
  unfold pad_len, aligned in *. destruct (negb _); simpl.
  - pose proof (Z.pow_le_mono_r 2 k 8 ltac:(lia) ltac:(lia)).
    rewrite NDR_ROUND_pad by lia.
    replace (pl_data_size r <? _) with false by (symmetry; apply Z.ltb_ge; lia). done.
  - rewrite Z.add_0_r. replace (pl_data_size r <? _) with false by (symmetry; apply Z.ltb_ge; lia).
    by destruct r.
Qed.

Lemma need_bytes_ok r n :
  pl_wf r -> 0 <= n -> pl_offset r + n <= pl_data_size r ->
  NDR_PULL_NEED_BYTES n r = (Ok tt, r).
Proof.
  intros ([? ?] & ? & ? & _) Hn Ho. unfold NDR_PULL_NEED_BYTES, Ndr_bind, Ndr_get.
  rewrite u32_small by lia.
  replace (pl_data_size r <? n) with false by (symmetry; apply Z.ltb_ge; lia).
  by replace (pl_data_size r <? _) with false by (symmetry; apply Z.ltb_ge; lia).
Qed.

Lemma consumes_load n (load : Z -> list Z -> Z -> option Z) (f : Z -> Z) (bs : Z -> list Z) v :
  (forall fl, Z.of_nat (length (bs fl)) = n) ->
  (forall fl buf pos, 0 <= pos -> bytes_at buf (Z.to_nat pos) (bs fl) ->
     load fl buf pos = Some v) ->
  consumes
    (try! NDR_PULL_NEED_BYTES n;
     try ndr <- Ndr_get;
     try v <- Ndr_mem (load (pl_flags ndr) (pl_data ndr) (pl_offset ndr));
     try! pl_skip n;
     Ndr_ret (f v)) (fun flags _ => bs flags) (f v).
Proof.
  intros Hlen Hld r Hf o Hr Hb Ho. unfold o, flen in *. rewrite Hlen in *.
  assert (0 <= n) as Hn by (rewrite <- (Hlen 0); lia).
  unfold Ndr_bind. rewrite need_bytes_ok by done. unfold Ndr_get, Ndr_mem, st_ret.
  rewrite (Hld _ _ _ (proj1 (proj1 Hr)) Hb), pl_skip_eq by (done || lia). done.
Qed.

Lemma consumes_uint8 v : 0 <= v < 256 -> consumes ndr_pull_uint8 (e_const [v]) v.
Proof.
  intros Hv. apply (consumes_load 1 (fun _ => CVAL) id (fun _ => [v])); [done|].
  intros _ buf pos Hp Hb. apply (bytes_at_lookup _ _ _ 0 v) in Hb; [|done].
  by rewrite Nat.add_0_r in Hb.
Qed.

Lemma consumes_uint16 v : consumes ndr_pull_uint16 (e_word16 v) (v mod 65536).
Proof.
  eapply (consumes_bind _ _ _ _ tt); [apply (consumes_align 1); lia|].
  apply (consumes_load 2 NDR_SVAL id (fun fl => wire fl (le16 v))).
  - intros. by rewrite length_wire.
  - intros. by apply NDR_SVAL_of_bytes.
Qed.

Lemma consumes_int16 v : consumes ndr_pull_int16 (e_word16 v) (s16 (u16 (v mod 65536))).
Proof.
  eapply (consumes_bind _ _ _ _ tt); [apply (consumes_align 1); lia|].
  apply (consumes_load 2 NDR_SVAL (fun v => s16 (u16 v)) (fun fl => wire fl (le16 v))).
  - intros. by rewrite length_wire.
  - intros. by apply NDR_SVAL_of_bytes.
Qed.

Lemma consumes_uint32 v : consumes ndr_pull_uint32 (e_word32 v) (v mod 2 ^ 32).
Proof.
  eapply (consumes_bind _ _ _ _ tt); [apply (consumes_align 2); lia|].
  apply (consumes_load 4 NDR_IVAL id (fun fl => wire fl (le32 v))).
  - intros. by rewrite length_wire.
  - intros. by apply NDR_IVAL_of_bytes.
Qed.

Lemma consumes_int32 v : consumes ndr_pull_int32 (e_word32 v) (s32 (v mod 2 ^ 32)).
Proof.
  eapply (consumes_bind _ _ _ _ tt); [apply (consumes_align 2); lia|].
  apply (consumes_load 4 NDR_IVALS id (fun fl => wire fl (le32 v))).
  - intros. by rewrite length_wire.
  - intros fl buf pos Hp Hb. unfold NDR_IVALS. by rewrite (NDR_IVAL_of_bytes fl buf pos v Hp Hb).
Qed.

Lemma consumes_two_words (f : Z -> Z -> Z) a b :
  consumes
    (try! NDR_PULL_ALIGN 4;
     try! NDR_PULL_NEED_BYTES 8;
     try ndr <- Ndr_get;
     try a <- Ndr_mem (NDR_IVAL (pl_flags ndr) (pl_data ndr) (pl_offset ndr));
     try b <- Ndr_mem (NDR_IVAL (pl_flags ndr) (pl_data ndr) (u32 (pl_offset ndr + 4)));
     try! pl_skip 8;
     Ndr_ret (f a b)) (e_word64 a b) (f (a mod 2 ^ 32) (b mod 2 ^ 32)).
Proof.
  eapply (consumes_bind _ _ _ _ tt); [apply (consumes_align 2); lia|].
  intros r Hf o Hr Hb Ho. unfold o, flen, e_app in *.
  rewrite length_app, !length_wire in *. apply bytes_at_app in Hb as [Hb1 Hb2].
  rewrite length_wire in Hb2. simpl length in *.
  pose proof Hr as ([H0 H1] & H2 & H3 & _).
  unfold Ndr_bind. rewrite need_bytes_ok by (done || lia). unfold Ndr_get, Ndr_mem, st_ret.
  rewrite (NDR_IVAL_of_bytes _ _ _ a) by done. rewrite u32_small by lia.
  rewrite (NDR_IVAL_of_bytes _ _ _ b)
    by (try lia; by replace (Z.to_nat (pl_offset r + 4)) with (Z.to_nat (pl_offset r) + 4)%nat by lia).
  by rewrite pl_skip_eq by (done || lia).
Qed.

Lemma consumes_bytes bs :
  consumes (ndr_pull_bytes (Z.of_nat (length bs))) (e_const bs) bs.
Proof.
  intros r Hf o Hr Hb Ho. unfold o, flen, e_const in *.
  pose proof Hr as ([H0 H1] & H2 & H3 & _).
  unfold ndr_pull_bytes, Ndr_bind. rewrite need_bytes_ok by (done || lia).
  unfold pl_take, Ndr_bind, Ndr_get. rewrite bool_decide_true by lia.
  rewrite pl_skip_eq by (done || lia). rewrite Nat2Z.id. unfold bytes_at in Hb. by rewrite Hb.
Qed.
End format.

(** ** The interface of a field

    [push] and [pull] agree on a format.  The laws hold for flags with [F]. *)
Class NdrCodec (F : Z -> Prop) {A : Type} (push : A -> Push unit) (pull : Pull A) : Type := {
  codec_fmt : A -> format;
  codec_ok : A -> Prop;
  codec_bytes a flags o : codec_ok a -> bytes_ok (codec_fmt a flags o);
  codec_emits a : codec_ok a -> emits F (push a) (codec_fmt a);
  codec_consumes a : codec_ok a -> consumes F pull (codec_fmt a) a
}.
Arguments codec_fmt {F A push pull} _ a : rename.
Arguments codec_ok {F A push pull} _ a : rename.

Lemma le16_bytes v : bytes_ok (le16 v).
Proof. repeat constructor; apply Z.mod_pos_bound; lia. Qed.

Lemma wire_bytes flags bs : bytes_ok bs -> bytes_ok (wire flags bs).
Proof. unfold wire. destruct (NDR_BE flags); [apply Forall_rev|done]. Qed.

Lemma e_app_bytes e1 e2 fl o :
  bytes_ok (e1 fl o) -> (forall o', bytes_ok (e2 fl o')) -> bytes_ok (e_app e1 e2 fl o).
Proof. intros H1 H2. apply Forall_app. split; [done|apply H2]. Qed.

Lemma e_pad_bytes k fl o : bytes_ok (e_pad k fl o).
Proof. apply Forall_replicate. lia. Qed.

Lemma e_word16_bytes v fl o : bytes_ok (e_word16 v fl o).
Proof. apply e_app_bytes; [apply e_pad_bytes|]. intros ?. apply wire_bytes, le16_bytes. Qed.

Lemma le32_bytes v : bytes_ok (le32 v).
Proof. apply Forall_app. split; apply le16_bytes. Qed.

Lemma e_word32_bytes v fl o : bytes_ok (e_word32 v fl o).
Proof. apply e_app_bytes; [apply e_pad_bytes|]. intros ?. apply wire_bytes, le32_bytes. Qed.

Lemma e_word64_bytes v1 v2 fl o : bytes_ok (e_word64 v1 v2 fl o).
Proof.
  apply e_app_bytes; [apply e_pad_bytes|]. intros ?.
  apply e_app_bytes; intros; apply wire_bytes, le32_bytes.
Qed.

#[export] Hint Resolve e_app_bytes e_pad_bytes e_word16_bytes e_word32_bytes e_word64_bytes : samba.

Section instances.
Variable F : Z -> Prop.

#[export] Instance uint8_codec : NdrCodec F ndr_push_uint8 ndr_pull_uint8.
Proof.
  refine {| codec_fmt v := e_const [v]; codec_ok := in_range 0 (2 ^ 8) |}.
  - intros v fl o Hv. by repeat constructor; apply Hv.
  - intros v Hv. replace [v] with [u8 v]; [apply emits_uint8|]. f_equal. by apply Z.mod_small.
  - intros v Hv. by apply consumes_uint8.
Defined.

#[export] Instance uint16_codec : NdrCodec F ndr_push_uint16 ndr_pull_uint16.
Proof.
  refine {| codec_fmt v := e_word16 v; codec_ok := in_range 0 (2 ^ 16) |}; intros v *.
  - auto with samba.
  - intros _. apply emits_uint16.
  - intros Hv. rewrite <- (Z.mod_small v (2 ^ 16)) at 2 by done. apply consumes_uint16.
Defined.

#[export] Instance uint32_codec : NdrCodec F ndr_push_uint32 ndr_pull_uint32.
Proof.
  refine {| codec_fmt v := e_word32 v; codec_ok := in_range 0 (2 ^ 32) |}; intros v *.
  - auto with samba.
  - intros _. apply emits_uint32.
  - intros Hv. rewrite <- (Z.mod_small v (2 ^ 32)) at 2 by done. apply consumes_uint32.
Defined.

#[export] Instance int16_codec : NdrCodec F ndr_push_int16 ndr_pull_int16.
Proof.
  refine {| codec_fmt v := e_word16 (u16 v); codec_ok := in_range (- 2 ^ 15) (2 ^ 15) |}; intros v *.
  - auto with samba.
  - intros _. apply (emits_uint16 F (u16 v)).
  - intros Hv. pose proof (consumes_int16 F (u16 v)) as H.
    replace (s16 (u16 (u16 v mod 65536))) with v in H; [done|].
    unfold in_range, s16, u16 in *. change (2 ^ 15) with 32768 in *. change (2 ^ 16) with 65536 in *.
    euclid.
Defined.

#[export] Instance int32_codec : NdrCodec F ndr_push_int32 ndr_pull_int32.
Proof.
  refine {| codec_fmt v := e_word32 v; codec_ok := in_range (- 2 ^ 31) (2 ^ 31) |}; intros v *.
  - auto with samba.
  - intros _. apply (emits_uint32 F v).
  - intros Hv. pose proof (consumes_int32 F v) as H. fold (u32 v) in H.
    by rewrite s32_u32 in H by done.
Defined.

Lemma words_value v : 0 <= v < 2 ^ 64 ->
  Z.land v 4294967295 mod 2 ^ 32 ||| Z.shiftl (Z.shiftr v 32 mod 2 ^ 32) 32 = v.
Proof.
  intros Hv. rewrite land_ffffffff, Z.shiftr_div_pow2 by lia.
  rewrite lor_shiftl_add; [|done|change (2 ^ 32) with 4294967296; euclid].
  change (2 ^ 32) with 4294967296. change (2 ^ 64) with 18446744073709551616 in Hv. euclid.
Qed.

#[export] Instance udlong_codec : NdrCodec F ndr_push_udlong ndr_pull_udlong.
Proof.
  refine {| codec_fmt v := e_word64 (Z.land v 4294967295) (Z.shiftr v 32);
            codec_ok := in_range 0 (2 ^ 64) |}; intros v *.
  - auto with samba.
  - intros _. apply emits_two_words.
  - intros Hv. pose proof (consumes_two_words F (fun lo hi => lo ||| Z.shiftl hi 32)
      (Z.land v 4294967295) (Z.shiftr v 32)) as H.
    cbv beta in H. by rewrite words_value in H.
Defined.

#[export] Instance udlongr_codec : NdrCodec F ndr_push_udlongr ndr_pull_udlongr.
Proof.
  refine {| codec_fmt v := e_word64 (Z.shiftr v 32) (Z.land v 4294967295);
            codec_ok := in_range 0 (2 ^ 64) |}; intros v *.
  - auto with samba.
  - intros _. apply emits_two_words.
  - intros Hv. pose proof (consumes_two_words F (fun hi lo => Z.shiftl hi 32 ||| lo)
      (Z.shiftr v 32) (Z.land v 4294967295)) as H.
    cbv beta in H. by rewrite Z.lor_comm, words_value in H.
Defined.

#[export] Instance dlong_codec : NdrCodec F ndr_push_dlong ndr_pull_dlong.
Proof.
  refine {| codec_fmt v := codec_fmt udlong_codec (u64 v);
            codec_ok := in_range (- 2 ^ 63) (2 ^ 63) |}; intros v *.
  - intros _. apply (codec_bytes (NdrCodec := udlong_codec)). apply u64_range.
  - intros _. apply (codec_emits (NdrCodec := udlong_codec)). apply u64_range.
  - intros Hv. replace v with (s64 (u64 v)) at 2.
    + apply consumes_map, (codec_consumes (NdrCodec := udlong_codec)), u64_range.
    + unfold in_range, s64, u64 in *. rewrite Zplus_mod_idemp_l, Z.mod_small; lia.
Defined.

#[export] Instance hyper_codec : NdrCodec F ndr_push_hyper ndr_pull_hyper.
Proof.
  refine {| codec_fmt v := e_app (e_pad 3) (codec_fmt udlong_codec v);
            codec_ok := in_range 0 (2 ^ 64) |}; intros v *.
  - intros _. simpl. auto with samba.
  - intros Hv. apply emits_bind; [apply (emits_align F 3); lia|].
    by apply (codec_emits (NdrCodec := udlong_codec)).
  - intros Hv. eapply (consumes_bind _ _ _ _ _ tt); [apply (consumes_align F 3); lia|].
    by apply (codec_consumes (NdrCodec := udlong_codec)).
Defined.

(** NT times in units of a second keep whole seconds only. *)
#[export] Instance NTTIME_1sec_codec : NdrCodec F ndr_push_NTTIME_1sec ndr_pull_NTTIME_1sec.
Proof.
  refine {| codec_fmt v := codec_fmt hyper_codec (v / 10000000);
            codec_ok v := in_range 0 (2 ^ 64) v /\ v mod 10000000 = 0 |}; intros v *.
  - intros [Hv _]. apply (codec_bytes (NdrCodec := hyper_codec)).
    unfold codec_ok, hyper_codec, in_range in *. euclid.
  - intros [Hv _]. apply (codec_emits (NdrCodec := hyper_codec)).
    unfold codec_ok, hyper_codec, in_range in *. euclid.
  - intros [Hv Hm]. replace v with (u64 (v / 10000000 * 10000000)) at 2.
    + apply (consumes_map F _ (fun t => u64 (t * 10000000))).
      apply (codec_consumes (NdrCodec := hyper_codec)).
      unfold codec_ok, hyper_codec, in_range in *. euclid.
    + replace (v / 10000000 * 10000000) with v by euclid. by apply u64_small.
Defined.

(** Two fields after each other. *)
#[export] Instance pair_codec {A B} pushA pullA pushB pullB
    `(CA : NdrCodec F A pushA pullA) `(CB : NdrCodec F B pushB pullB) :
  NdrCodec F (fun p : A * B => try! pushA p.1; pushB p.2)
    (try a <- pullA; try b <- pullB; Ndr_ret (a, b)).
Proof.
  refine {| codec_fmt p := e_app (codec_fmt CA p.1) (codec_fmt CB p.2);
            codec_ok p := codec_ok CA p.1 /\ codec_ok CB p.2 |}.
  - intros [a b] fl o [Ha Hb]. apply e_app_bytes; [|intros o']; by apply codec_bytes.
  - intros [a b] [Ha Hb]. apply emits_bind; by apply codec_emits.
  - intros [a b] [Ha Hb]. eapply consumes_bind; [by apply codec_consumes|].
    by apply (consumes_map F pullB (fun b => (a, b))), codec_consumes.
Defined.
End instances.

(** ** Blobs and subcontexts *)

(** Flags that do not change what a blob means. *)
Definition blob_flags (flags : Z) : Prop :=
  (flags &? LIBNDR_ALIGN_FLAGS) = false /\ (flags &? LIBNDR_FLAG_REMAINING) = false.

Definition e_blob (bs : list Z) : format := e_app (e_word32 (Z.of_nat (length bs))) (e_const bs).

#[export] Instance DATA_BLOB_codec : NdrCodec blob_flags ndr_push_DATA_BLOB ndr_pull_DATA_BLOB.
Proof.
  refine {| codec_fmt bs := e_blob bs;
            codec_ok bs := bytes_ok bs /\ Z.of_nat (length bs) < 2 ^ 32 |}; intros bs *.
  - intros [Hb _]. unfold e_blob. auto with samba.
  - intros [_ Hl] w Hf. pose proof Hf as [Hf1 Hf2].
    pose proof (emits_bind blob_flags _ _ _ _ (emits_uint32 _ (Z.of_nat (length bs)))
                  (emits_bytes _ bs) w Hf) as H.
    unfold ndr_push_DATA_BLOB. unfold Ndr_bind at 1, Ndr_get at 1. rewrite Hf1, Hf2.
    cbn [negb]. by rewrite u32_small by lia.
  - intros [_ Hl] r Hf. pose proof Hf as [Hf1 Hf2].
    pose proof (consumes_bind blob_flags _ (fun _ => ndr_pull_bytes (Z.of_nat (length bs))) _ _ _ _
                  (consumes_uint32 _ (Z.of_nat (length bs))) (consumes_bytes _ bs) r Hf) as H.
    intros o Hr Hb Ho. specialize (H Hr Hb Ho). etransitivity; [|exact H].
    unfold ndr_pull_DATA_BLOB. unfold Ndr_bind at 1, Ndr_get at 1. rewrite Hf1, Hf2.
    apply bytes_at_app in Hb as [Hb _].
    unfold o, e_blob, e_app, flen in Ho. rewrite length_app, Nat2Z.inj_add in Ho.
    pose proof (consumes_uint32 blob_flags (Z.of_nat (length bs)) r Hf Hr Hb) as Hc.
    unfold Ndr_bind. rewrite Hc by (unfold flen; lia). rewrite Z.mod_small by lia. done.
Defined.

Lemma ps_start_wf flags : ps_wf (ps_start flags).
Proof. split; [split|]; vm_compute; congruence. Qed.

(** A format pushed into a fresh buffer. *)
Lemma emits_start F m e flags :
  emits F m e -> F flags -> flen e flags 0 < NDR_LIMIT ->
  exists d, m (ps_start flags) = (Ok tt, ps_set_data (ps_start flags) d (flen e flags 0)) /\
    ps_wf (ps_set_data (ps_start flags) d (flen e flags 0)) /\
    take (length (e flags 0)) d = e flags 0.
Proof.
  intros He Hf Hl. destruct (He (ps_start flags) Hf (ps_start_wf flags))
    as (d & E & Hw & T); [exact Hl|].
  change (ps_flags (ps_start flags)) with flags in *.
  change (ps_offset (ps_start flags)) with 0 in *. rewrite Z.add_0_l in *.
  exists d. split; [exact E|]. split; [exact Hw|]. unfold flen in T. by rewrite Nat2Z.id in T.
Qed.

(** The blob of a format is read back, to its last byte. *)
Lemma format_blob {F} {A : Type} m (p : Pull A) e a flags :
  emits F m e -> consumes F p e a -> F flags -> (flags &? LIBNDR_FLAG_PAD_CHECK) = false ->
  bytes_ok (e flags 0) -> flen e flags 0 < NDR_LIMIT ->
  exists w, m (ps_start flags) = (Ok tt, w) /\ ndr_push_blob w = e flags 0 /\
    p (pl_start flags (ndr_push_blob w)) =
      (Ok a, pl_set_offset (pl_start flags (ndr_push_blob w))
               (Z.of_nat (length (ndr_push_blob w)))).
Proof.
  intros He Hc Hf Hp Hb Hl. destruct (emits_start F m e flags He Hf Hl) as (d & E & _ & T).
  set (bs := e flags 0) in *. unfold flen in Hl, E. fold bs in Hl, E.
  set (w := ps_set_data (ps_start flags) d (Z.of_nat (length bs))) in *.
  assert (ndr_push_blob w = bs) as Hw
    by (unfold ndr_push_blob; cbn [w ps_offset ps_data ps_set_data]; by rewrite Nat2Z.id).
  exists w. split; [exact E|]. split; [exact Hw|]. rewrite Hw.
  unfold NDR_LIMIT, MAX_TALLOC_SIZE, NDR_BASE_MARSHALL_SIZE in Hl.
  assert (pl_data_size (pl_start flags bs) = Z.of_nat (length bs)) as Hd
    by (simpl; apply u32_small; lia).
  rewrite Hc; try done.
  - apply pl_start_wf; [done|lia|done].
  - change (bytes_at bs 0 bs). unfold bytes_at. rewrite drop_0. apply firstn_all.
  - rewrite Hd. change (0 + Z.of_nat (length bs) <= Z.of_nat (length bs)). lia.
Qed.

Section subcontext.
Context {F : Z -> Prop} {A : Type} {push : A -> Push unit} {pull : Pull A}.
Context (C : NdrCodec F push pull).

(** How the generated code uses a subcontext with a size header. *)
Definition push_subcontext (header_size : Z) (a : A) : Push unit :=
  try subndr <- ndr_push_subcontext_start;
  try subndr <- on_sub (push a) subndr;
  ndr_push_subcontext_end subndr header_size (-1).

Definition pull_subcontext (header_size : Z) : Pull A :=
  try subndr <- ndr_pull_subcontext_start header_size (-1);
  match pull subndr with
  | (Ok a, subndr) => try! ndr_pull_subcontext_end subndr header_size (-1); Ndr_ret a
  | (Err e, _) => Ndr_err e
  | (Fault, _) => Ndr_mem None
  end.

(** The header and the content, which starts at offset zero of its own. *)
Definition e_subcontext (header_size : Z) (a : A) : format :=
  e_app (fun fl o => (if header_size =? 2 then e_word16 else e_word32)
                       (flen (codec_fmt C a) fl 0) fl o)
    (fun fl _ => codec_fmt C a fl 0).

Definition header_ok (header_size : Z) (a : A) : Prop :=
  (header_size = 2 \/ header_size = 4) /\
  forall fl, flen (codec_fmt C a) fl 0 < 2 ^ (8 * header_size).

Lemma emits_bytes_prefix data bs :
  take (length bs) data = bs -> emits F (ndr_push_bytes data (Z.of_nat (length bs))) (e_const bs).
Proof.
  intros H. eapply emits_ext; [apply (emits_bytes F bs)| |done].
  intros w. unfold ndr_push_bytes. rewrite Nat2Z.id, H, firstn_all.
  assert (length bs <= length data)%nat as Hl by (rewrite <- H at 1; rewrite length_take; lia).
  by rewrite !bool_decide_true by lia.
Qed.

Lemma push_subcontext_end_2 sub w :
  ndr_push_subcontext_end sub 2 (-1) w =
  (try! ndr_push_uint16 (u16 (ps_offset sub)); ndr_push_bytes (ps_data sub) (ps_offset sub)) w.
Proof. reflexivity. Qed.

Lemma push_subcontext_end_4 sub w :
  ndr_push_subcontext_end sub 4 (-1) w =
  (try! ndr_push_uint32 (ps_offset sub); ndr_push_bytes (ps_data sub) (ps_offset sub)) w.
Proof. reflexivity. Qed.

Lemma emits_subcontext h a :
  header_ok h a -> codec_ok C a -> emits F (push_subcontext h a) (e_subcontext h a).
Proof.
  intros [Hh Hl] Ha w Hf o Hw Ho. set (bs := codec_fmt C a (ps_flags w) 0).
  assert (flen (e_subcontext h a) (ps_flags w) (ps_offset w) >= Z.of_nat (length bs)) as Hge
    by (unfold flen, e_subcontext, e_app; rewrite length_app; unfold bs; lia).
  assert (0 <= ps_offset w) as Hpos by apply Hw.
  destruct (emits_start F _ _ (ps_flags w) (codec_emits a Ha) Hf) as (d & E & _ & T);
    [unfold o, flen in *; fold bs; lia|]. fold bs in T.
  unfold push_subcontext, ndr_push_subcontext_start, on_sub. unfold Ndr_bind at 1 2, Ndr_get at 1.
  unfold Ndr_ret at 1, st_ret at 1. unfold Ndr_bind at 1. rewrite E.
  unfold Ndr_ret at 1, st_ret at 1.
  pose proof (emits_bytes_prefix d bs T) as Hb. specialize (Hl (ps_flags w)).
  unfold o, flen, e_subcontext, e_app, flen in *. fold bs in Hl, Ho |- *.
  destruct Hh as [-> | ->]; simpl (_ =? _) in *; cbv iota in *.
  - pose proof (emits_bind F _ _ _ _ (emits_uint16 F (Z.of_nat (length bs))) Hb w Hf Hw Ho) as H.
    rewrite push_subcontext_end_2. cbn [ps_set_data ps_offset ps_data].
    unfold u16. rewrite Z.mod_small by lia. exact H.
  - pose proof (emits_bind F _ _ _ _ (emits_uint32 F (Z.of_nat (length bs))) Hb w Hf Hw Ho) as H.
    rewrite push_subcontext_end_4. exact H.
Qed.

Lemma consumes_subcontext_start h r n :
  pl_wf r -> h = 2 \/ h = 4 -> 0 <= n < 2 ^ (8 * h) ->
  let e := (if h =? 2 then e_word16 else e_word32) n in
  let o := pl_offset r + flen e (pl_flags r) (pl_offset r) in
  bytes_at (pl_data r) (Z.to_nat (pl_offset r)) (e (pl_flags r) (pl_offset r)) ->
  o + n <= pl_data_size r ->
  ndr_pull_subcontext_start h (-1) r =
    (Ok (mk_pull (pl_flags r) (drop (Z.to_nat o) (pl_data r)) n 0 0 [] [] [] [] [] 0),
     pl_set_offset r o).
Proof.
  intros Hr Hh Hn e o Hb Ho. unfold ndr_pull_subcontext_start. unfold Ndr_bind at 1, Ndr_get at 1.
  pose proof Hr as ([H0 H1] & Hd & Hs & _).
  assert ((if h =? 2 then ndr_pull_uint16 else ndr_pull_uint32) r = (Ok n, pl_set_offset r o)) as E.
  { unfold o, e in *. destruct Hh as [-> | ->]; simpl (_ =? _) in *; cbv iota in *.
    - rewrite (consumes_uint16 any n r I Hr Hb) by (fold o; lia). by rewrite Z.mod_small by lia.
    - rewrite (consumes_uint32 any n r I Hr Hb) by (fold o; lia). by rewrite Z.mod_small by lia. }
  assert (0 <= o) by (unfold o, flen; lia).
  assert (pl_wf (pl_set_offset r o)) as Hr' by (apply pl_wf_set_offset; [done|lia]).
  destruct Hh as [-> | ->]; simpl (_ =? _) in *; cbv iota in *; unfold Ndr_bind; rewrite E;
    simpl (_ && _); cbv iota; unfold Ndr_ret, st_ret at 1;
    rewrite need_bytes_ok by (done || simpl; lia); done.
Qed.

Lemma consumes_subcontext h a :
  header_ok h a -> codec_ok C a -> consumes F (pull_subcontext h) (e_subcontext h a) a.
Proof.
  intros [Hh Hl] Ha r Hf o Hr Hb Ho. set (bs := codec_fmt C a (pl_flags r) 0).
  specialize (Hl (pl_flags r)).
  pose proof (codec_bytes a (pl_flags r) 0 Ha) as Hok. fold bs in Hok.
  unfold o, flen, e_subcontext, e_app, flen in *. rewrite length_app, Nat2Z.inj_add in *.
  fold bs in Hl, Hb, Ho |- *. apply bytes_at_app in Hb as [Hb1 Hb2].
  set (e := (if h =? 2 then e_word16 else e_word32) (Z.of_nat (length bs))) in *.
  assert (0 <= pl_offset r) as Hpos by apply Hr.
  unfold pull_subcontext, Ndr_bind.
  rewrite (consumes_subcontext_start h r (Z.of_nat (length bs))) by (done || lia || (unfold flen; fold e; lia)).
  fold e. set (sub := mk_pull _ _ _ _ _ _ _ _ _ _ _).
  assert (pl_wf sub) as Hsub.
  { destruct Hr as (? & ? & ? & ? & ? & _). unfold sub, pl_wf, flen. simpl.
    split_and!; try done; try lia; [rewrite length_drop; lia|by apply Forall_drop]. }
  rewrite (codec_consumes a Ha sub Hf Hsub).
  - unfold ndr_pull_subcontext_end, ndr_pull_advance, Ndr_bind. simpl (0 <=? _). cbv iota.
    replace (0 <? h) with true by (destruct Hh as [-> | ->]; done).
    cbn [pl_data_size pl_set_offset sub]. rewrite pl_skip_eq;
      [|apply pl_wf_set_offset; [done|unfold flen; lia]|simpl; unfold flen; lia].
    unfold Ndr_get. simpl.
    replace (pl_data_size r <? _) with false by (symmetry; apply Z.ltb_ge; unfold flen; lia).
    unfold Ndr_ret, st_ret. unfold flen. by rewrite Z.add_assoc.
  - unfold sub. simpl. unfold bytes_at. rewrite drop_0. fold bs.
    unfold bytes_at in Hb2. rewrite <- Hb2 at 2. f_equal. f_equal. unfold flen. lia.
  - unfold sub. simpl. fold bs. unfold flen. fold bs. lia.
Qed.

#[export] Instance subcontext_codec (h : Z) :
  NdrCodec F (push_subcontext h) (pull_subcontext h).
Proof.
  refine {| codec_fmt := e_subcontext h; codec_ok a := header_ok h a /\ codec_ok C a |}; intros a *.
  - intros [_ Ha]. apply e_app_bytes; [destruct (h =? 2); auto with samba|].
    intros _. by apply codec_bytes.
  - intros [Hh Ha]. by apply emits_subcontext.
  - intros [Hh Ha]. by apply consumes_subcontext.
Defined.
End subcontext.

(** ** Messages *)

(** A field of a message, with its value. *)
Inductive scalar : Type :=
  | Uint8 (v : Z) | Uint16 (v : Z) | Int16 (v : Z) | Uint32 (v : Z) | Int32 (v : Z)
  | Udlong (v : Z) | Udlongr (v : Z) | Dlong (v : Z) | Hyper (v : Z) | Nttime1sec (v : Z)
  | Blob (bs : list Z).

Definition push_scalar (s : scalar) : Push unit :=
  match s with
  | Uint8 v => ndr_push_uint8 v
  | Uint16 v => ndr_push_uint16 v
  | Int16 v => ndr_push_int16 v
  | Uint32 v => ndr_push_uint32 v
  | Int32 v => ndr_push_int32 v
  | Udlong v => ndr_push_udlong v
  | Udlongr v => ndr_push_udlongr v
  | Dlong v => ndr_push_dlong v
  | Hyper v => ndr_push_hyper v
  | Nttime1sec v => ndr_push_NTTIME_1sec v
  | Blob bs => ndr_push_DATA_BLOB bs
  end.

(** Only the type of the argument matters. *)
Definition pull_scalar (like : scalar) : Pull scalar :=
  match like with
  | Uint8 _ => try v <- ndr_pull_uint8; Ndr_ret (Uint8 v)
  | Uint16 _ => try v <- ndr_pull_uint16; Ndr_ret (Uint16 v)
  | Int16 _ => try v <- ndr_pull_int16; Ndr_ret (Int16 v)
  | Uint32 _ => try v <- ndr_pull_uint32; Ndr_ret (Uint32 v)
  | Int32 _ => try v <- ndr_pull_int32; Ndr_ret (Int32 v)
  | Udlong _ => try v <- ndr_pull_udlong; Ndr_ret (Udlong v)
  | Udlongr _ => try v <- ndr_pull_udlongr; Ndr_ret (Udlongr v)
  | Dlong _ => try v <- ndr_pull_dlong; Ndr_ret (Dlong v)
  | Hyper _ => try v <- ndr_pull_hyper; Ndr_ret (Hyper v)
  | Nttime1sec _ => try v <- ndr_pull_NTTIME_1sec; Ndr_ret (Nttime1sec v)
  | Blob _ => try bs <- ndr_pull_DATA_BLOB; Ndr_ret (Blob bs)
  end.

(** The value is one of its type. *)
Definition scalar_ok (s : scalar) : Prop :=
  match s with
  | Uint8 v => in_range 0 (2 ^ 8) v
  | Uint16 v => in_range 0 (2 ^ 16) v
  | Int16 v => in_range (- 2 ^ 15) (2 ^ 15) v
  | Uint32 v => in_range 0 (2 ^ 32) v
  | Int32 v => in_range (- 2 ^ 31) (2 ^ 31) v
  | Udlong v | Udlongr v | Hyper v => in_range 0 (2 ^ 64) v
  | Dlong v => in_range (- 2 ^ 63) (2 ^ 63) v
  | Nttime1sec v => in_range 0 (2 ^ 64) v /\ v mod 10000000 = 0
  | Blob bs => bytes_ok bs /\ Z.of_nat (length bs) < 2 ^ 32
  end.

Definition fmt_scalar (s : scalar) : format :=
  match s with
  | Uint8 v => e_const [v]
  | Uint16 v => e_word16 v
  | Int16 v => e_word16 (u16 v)
  | Uint32 v | Int32 v => e_word32 v
  | Udlong v => e_word64 (Z.land v 4294967295) (Z.shiftr v 32)
  | Udlongr v => e_word64 (Z.shiftr v 32) (Z.land v 4294967295)
  | Dlong v => e_word64 (Z.land (u64 v) 4294967295) (Z.shiftr (u64 v) 32)
  | Hyper v => e_app (e_pad 3) (e_word64 (Z.land v 4294967295) (Z.shiftr v 32))
  | Nttime1sec v => e_app (e_pad 3) (e_word64 (Z.land (v / 10000000) 4294967295)
                                       (Z.shiftr (v / 10000000) 32))
  | Blob bs => e_blob bs
  end.

(** The codecs of the types, as one. *)
Lemma scalar_codec s : scalar_ok s ->
  (forall fl o, bytes_ok (fmt_scalar s fl o)) /\
  emits blob_flags (push_scalar s) (fmt_scalar s) /\
  consumes blob_flags (pull_scalar s) (fmt_scalar s) s.
Proof.
  assert (forall A (push : A -> Push unit) pull (C : NdrCodec blob_flags push pull) (f : A -> scalar) a,
    codec_ok C a -> (forall fl o, bytes_ok (codec_fmt C a fl o)) /\
      emits blob_flags (push a) (codec_fmt C a) /\
      consumes blob_flags (try v <- pull; Ndr_ret (f v)) (codec_fmt C a) (f a)) as H.
  { intros A push pull C f a Ha. split; [intros; by apply codec_bytes|].
    split; [by apply codec_emits|]. by apply consumes_map, codec_consumes. }
  destruct s; intros Hs; simpl in Hs;
    [exact (H _ _ _ (uint8_codec _) Uint8 _ Hs)|exact (H _ _ _ (uint16_codec _) Uint16 _ Hs)
    |exact (H _ _ _ (int16_codec _) Int16 _ Hs)|exact (H _ _ _ (uint32_codec _) Uint32 _ Hs)
    |exact (H _ _ _ (int32_codec _) Int32 _ Hs)|exact (H _ _ _ (udlong_codec _) Udlong _ Hs)
    |exact (H _ _ _ (udlongr_codec _) Udlongr _ Hs)|exact (H _ _ _ (dlong_codec _) Dlong _ Hs)
    |exact (H _ _ _ (hyper_codec _) Hyper _ Hs)
    |exact (H _ _ _ (NTTIME_1sec_codec _) Nttime1sec _ Hs)
    |exact (H _ _ _ DATA_BLOB_codec Blob _ Hs)].
Qed.

(** Elements one after the other, each with its own shape. *)
Section seq.
Context {F : Z -> Prop} {A : Type} (push : A -> Push unit) (pull : A -> Pull A).
Context (fmt : A -> format) (ok : A -> Prop).
Hypothesis Hok : forall a, ok a -> (forall fl o, bytes_ok (fmt a fl o)) /\
  emits F (push a) (fmt a) /\ consumes F (pull a) (fmt a) a.

Fixpoint push_seq (l : list A) : Push unit :=
  match l with [] => Ndr_ret tt | a :: l => try! push a; push_seq l end.
Fixpoint pull_seq (like : list A) : Pull (list A) :=
  match like with
  | [] => Ndr_ret []
  | a :: like => try a <- pull a; try l <- pull_seq like; Ndr_ret (a :: l)
  end.
Fixpoint fmt_seq (l : list A) : format :=
  match l with [] => e_nil | a :: l => e_app (fmt a) (fmt_seq l) end.

Instance seq_codec (like : list A) : NdrCodec F push_seq (pull_seq like).
Proof.
  refine {| codec_fmt := fmt_seq; codec_ok l := l = like /\ Forall ok l |}.
  - intros l fl o [_ Hl]. revert o. induction Hl as [|a l Ha Hl IH]; intros o; [constructor|].
    apply e_app_bytes; [by apply Hok|done].
  - intros l [_ Hl]. induction Hl as [|a l Ha Hl IH]; [apply emits_ret|].
    apply emits_bind; [by apply Hok|done].
  - intros l [-> Hl]. induction Hl as [|a l Ha Hl IH]; [apply consumes_ret|].
    eapply consumes_bind; [by apply Hok|]. exact (consumes_map F _ (cons a) _ _ IH).
Defined.
End seq.

Inductive field : Type :=
  | Scalar (s : scalar)
  | Subcontext (wide : bool) (l : list scalar).

Definition header_size (wide : bool) : Z := if wide then 4 else 2.

Definition push_field (f : field) : Push unit :=
  match f with
  | Scalar s => push_scalar s
  | Subcontext wide l => push_subcontext (push := push_seq push_scalar) (header_size wide) l
  end.
Definition pull_field (like : field) : Pull field :=
  match like with
  | Scalar s => try s <- pull_scalar s; Ndr_ret (Scalar s)
  | Subcontext wide l =>
      try l <- pull_subcontext (pull := pull_seq pull_scalar l) (header_size wide);
      Ndr_ret (Subcontext wide l)
  end.

Definition fmt_field (f : field) : format :=
  match f with
  | Scalar s => fmt_scalar s
  | Subcontext wide l =>
      e_subcontext (seq_codec push_scalar pull_scalar fmt_scalar scalar_ok scalar_codec l)
        (header_size wide) l
  end.

Definition field_ok (f : field) : Prop :=
  match f with
  | Scalar s => scalar_ok s
  | Subcontext wide l =>
      Forall scalar_ok l /\
      forall fl, flen (fmt_seq fmt_scalar l) fl 0 < 2 ^ (8 * header_size wide)
  end.

Lemma field_codec f : field_ok f ->
  (forall fl o, bytes_ok (fmt_field f fl o)) /\
  emits blob_flags (push_field f) (fmt_field f) /\
  consumes blob_flags (pull_field f) (fmt_field f) f.
Proof.
  destruct f as [s|wide l]; simpl.
  - intros Hs. destruct (scalar_codec s Hs) as (Hb & He & Hc).
    split; [done|]. split; [done|]. exact (consumes_map _ _ Scalar _ _ Hc).
  - intros [Hl Hw]. set (C := seq_codec _ _ _ _ scalar_codec l).
    assert (codec_ok (subcontext_codec C (header_size wide)) l) as Hok.
    { split; [|by split]. split; [destruct wide; [by right|by left]|exact Hw]. }
    split; [intros; by apply (codec_bytes (NdrCodec := subcontext_codec C _))|].
    split; [by apply (codec_emits (NdrCodec := subcontext_codec C _))|].
    apply (consumes_map _ _ (Subcontext wide)).
    exact (codec_consumes (NdrCodec := subcontext_codec C (header_size wide)) l Hok).
Qed.

(** C13: a message of fields of any scalar types and blobs, with subcontexts
    that have a 2- or 4-byte size header, is pushed without an error in either
    byte order and with or without alignment, and pulling the blob with the
    same flags gives the fields back and stops at the end of the blob. *)
Theorem ndr_message_roundtrip flags (msg : list field) :
  blob_flags flags -> (flags &? LIBNDR_FLAG_PAD_CHECK) = false ->
  Forall field_ok msg -> flen (fmt_seq fmt_field msg) flags 0 < NDR_LIMIT ->
  exists w, push_seq push_field msg (ps_start flags) = (Ok tt, w) /\
    let blob := ndr_push_blob w in
    pull_seq pull_field msg (pl_start flags blob) =
      (Ok msg, pl_set_offset (pl_start flags blob) (Z.of_nat (length blob))).
Proof.
  intros Hf Hp Hm Hl.
  set (C := seq_codec push_field pull_field fmt_field field_ok field_codec msg).
  destruct (format_blob _ _ _ msg flags (codec_emits (NdrCodec := C) msg (conj eq_refl Hm))
              (codec_consumes (NdrCodec := C) msg (conj eq_refl Hm)) Hf Hp)
    as (w & E & _ & Hw); [by apply (codec_bytes (NdrCodec := C))|done|]. by exists w.
Qed.

(** A big-endian message with padding before the 8-byte field and in the
    subcontext, which starts at an odd offset. *)
Definition sample_message : list field :=
  [Scalar (Uint8 7); Scalar (Hyper 81985529216486895); Scalar (Int16 (-2)); Scalar (Uint8 1);
   Subcontext false [Uint8 5; Uint32 3735928559; Blob [1; 2; 3]]; Scalar (Int32 (-1))].

Lemma flen_app_le e1 e2 fl a b :
  (forall o, flen e1 fl o <= a) -> (forall o, flen e2 fl o <= b) ->
  forall o, flen (e_app e1 e2) fl o <= a + b.
Proof.
  intros H1 H2 o. specialize (H1 o). unfold flen at 1, e_app. rewrite length_app.
  specialize (H2 (o + flen e1 fl o)). unfold flen in *. lia.
Qed.

Lemma flen_word32_le v fl o : flen (e_word32 v) fl o <= 3 + 4.
Proof.
  apply flen_app_le; clear o; intros o.
  - rewrite flen_pad by lia. pose proof (pad_len_range 2 fl o ltac:(lia)). lia.
  - unfold flen. by rewrite length_wire.
Qed.

Lemma sample_subcontext_small fl :
  flen (fmt_seq fmt_scalar [Uint8 5; Uint32 3735928559; Blob [1; 2; 3]]) fl 0 < 2 ^ 16.
Proof.
  apply (Z.le_lt_trans _ (1 + (7 + (7 + 3 + 0)))); [|lia]. simpl fmt_seq.
  apply flen_app_le; [done|]. apply flen_app_le; [apply flen_word32_le|].
  apply flen_app_le; [|done]. apply flen_app_le; [apply flen_word32_le|done].
Qed.

Lemma ndr_message_roundtrip_witness :
  let flags := LIBNDR_FLAG_BIGENDIAN in
  let w := (push_seq push_field sample_message (ps_start flags)).2 in
  ndr_push_blob w =
    [7; 0;0;0;0;0;0;0; 137;171;205;239;1;35;69;103; 255;254; 1; 0; 0;15;
     5; 0;0;0; 222;173;190;239; 0;0;0;3; 1;2;3; 0;0;0; 255;255;255;255] /\
  pull_seq pull_field sample_message (pl_start flags (ndr_push_blob w)) =
    (Ok sample_message, pl_set_offset (pl_start flags (ndr_push_blob w)) 44).
Proof.
  split; [vm_compute; reflexivity|].
  destruct (ndr_message_roundtrip LIBNDR_FLAG_BIGENDIAN sample_message) as (w & E & H).
  - split; reflexivity.
  - reflexivity.
  - unfold sample_message. repeat apply List.Forall_cons; try apply List.Forall_nil;
      cbn [field_ok]; try (unfold scalar_ok, in_range; lia).
    split; [|apply sample_subcontext_small].
    repeat apply List.Forall_cons; try apply List.Forall_nil; unfold scalar_ok, in_range; try lia.
    split; [|done]. unfold bytes_ok. repeat apply List.Forall_cons; try apply List.Forall_nil; lia.
  - vm_compute. reflexivity.
  - rewrite E. cbn [snd]. cbv zeta in H.
    replace (Z.of_nat (length (ndr_push_blob w))) with 44 in H; [exact H|].
    apply (f_equal snd) in E. cbn [snd] in E. rewrite <- E. vm_compute. reflexivity.
Defined.

(** ** What a parser can get out of a packet *)

(** The type of a field, and that a value is one its C type can hold. *)
Definition scalar_tag (s : scalar) : nat :=
  match s with
  | Uint8 _ => 0 | Uint16 _ => 1 | Int16 _ => 2 | Uint32 _ => 3 | Int32 _ => 4 | Udlong _ => 5
  | Udlongr _ => 6 | Dlong _ => 7 | Hyper _ => 8 | Nttime1sec _ => 9 | Blob _ => 10
  end%nat.
Definition scalar_typed (s : scalar) : Prop :=
  match s with
  | Nttime1sec v => in_range 0 (2 ^ 64) v
  | Blob bs => bytes_ok bs
  | s => scalar_ok s
  end.

Lemma safe_NTTIME_1sec : pull_safe ndr_pull_NTTIME_1sec (in_range 0 (2 ^ 64)).
Proof. eapply safe_bind; [apply safe_hyper|]. intros t _. apply safe_ret, u64_range. Qed.

Lemma safe_scalar like :
  pull_safe (pull_scalar like) (fun s => scalar_tag s = scalar_tag like /\ scalar_typed s).
Proof.
  destruct like; simpl;
    (eapply safe_bind; [first [apply safe_uint8|apply safe_uint16|apply safe_int16|apply safe_uint32
      |apply safe_int32|apply safe_udlong|apply safe_udlongr|apply safe_dlong
      |apply safe_NTTIME_1sec|apply safe_hyper|apply safe_DATA_BLOB]|intros ? ?; by apply safe_ret]).
Qed.

(** C39: whatever bytes a packet has, in either byte order, a sequence of fields
    pulled from it is either refused or gives fields of the requested types with
    values those types can hold, from a buffer that stays well formed. *)
Theorem ndr_fields_typed like r :
  pl_wf r ->
  match pull_seq pull_scalar like r with
  | (Ok l, r') => Forall2 (fun s s' => scalar_tag s = scalar_tag s') l like /\
                  Forall scalar_typed l /\ pl_wf r'
  | (Err _, _) => True
  | (Fault, _) => False
  end.
Proof.
  intros Hr.
  enough (pull_safe (pull_seq pull_scalar like)
    (fun l => Forall2 (fun s s' => scalar_tag s = scalar_tag s') l like /\ Forall scalar_typed l))
    as H by (specialize (H r Hr); destruct (pull_seq _ _ r) as [[l|e|] r']; tauto).
  clear r Hr. induction like as [|s like IH]; simpl; [by apply safe_ret|].
  eapply safe_bind; [apply safe_scalar|]. intros s' [Ht Hs].
  eapply safe_bind; [exact IH|]. intros l [Hl Hf]. apply safe_ret.
  split; [by constructor|by apply List.Forall_cons].
Qed.

(** The bytes 255 as signed and unsigned fields. *)
Lemma ndr_fields_typed_witness :
  let r := pl_start 0 (replicate 8 255) in
  (pull_seq pull_scalar [Int16 0; Uint16 0; Int32 0] r).1 = Ok [Int16 (-1); Uint16 65535; Int32 (-1)] /\
  Forall scalar_typed [Int16 (-1); Uint16 65535; Int32 (-1)].
Proof.
  split; [vm_compute; reflexivity|].
  assert (pl_wf (pl_start 0 (replicate 8 255))) as Hr.
  { apply pl_start_wf; [apply Forall_replicate; lia|vm_compute; reflexivity|reflexivity]. }
  pose proof (ndr_fields_typed [Int16 0; Uint16 0; Int32 0] _ Hr) as H.
  assert (exists r', pull_seq pull_scalar [Int16 0; Uint16 0; Int32 0] (pl_start 0 (replicate 8 255))
    = (Ok [Int16 (-1); Uint16 65535; Int32 (-1)], r')) as [r' E]
    by (eexists; vm_compute; reflexivity).
  rewrite E in H. exact (proj1 (proj2 H)).
Defined.
