(* ===== verification/NbtName.v ===== *)
(** * NetBIOS names on the wire ([source4/libcli/nbt/nbtname.c])

    A name is parsed and built with the NDR buffers of [Ndr].  Its labels are
    the length-prefixed components of RFC 1002, with pointers to labels that
    were written before.  A C string is the list of its bytes without the
    terminator; a character buffer that is edited in place ([decompress_name],
    the buffer of a WINS replication name) is the list of its bytes with it,
    read and written at indexes that may be out of range.

    A loop that is not structural has fuel for the bytes it walks over. *)

From S2P Require Import Prelude NtStatus Ndr NdrCodec.

Local Open Scope Z_scope.

(** ** C strings *)

(** The bytes up to the first NUL. *)
Fixpoint cstr (bs : list Z) : list Z :=
  match bs with
  | [] => []
  | b :: bs => if b =? 0 then [] else b :: cstr bs
  end.

(** [strcspn(s, ".")] and what it steps over. *)
Fixpoint span_dot (s : list Z) : list Z * list Z :=
  match s with
  | [] => ([], [])
  | c :: s' => if c =? 46 then ([], s) else let '(a, b) := span_dot s' in (c :: a, b)
  end.

Definition byte_eqb (a b : list Z) : bool := bool_decide (a = b).

(** ** Strings of labels *)

Definition MAX_COMPONENTS : nat := 10.

(** The component ([None] at the end of the name), the offset and the largest
    offset seen.  [loops] counts the pointers that may still be followed. *)
Fixpoint ndr_pull_component (loops : nat) (offset max_offset : Z)
    : Pull (option (list Z) * Z * Z) :=
  match loops with
  | O => Ndr_err NT_STATUS_BAD_NETWORK_NAME
  | S loops =>
      try ndr <- Ndr_get;
      if pl_data_size ndr <=? offset then Ndr_err NT_STATUS_BAD_NETWORK_NAME
      else
        try len <- Ndr_mem (CVAL (pl_data ndr) offset);
        if len =? 0 then
          let offset := u32 (offset + 1) in
          Ndr_ret (None, offset, Z.max max_offset offset)
        else if Z.land len 192 =? 192 then
          if pl_data_size ndr <=? u32 (1 + offset) then Ndr_err NT_STATUS_BAD_NETWORK_NAME
          else
            let max_offset := Z.max max_offset (u32 (offset + 2)) in
            try lo <- Ndr_mem (CVAL (pl_data ndr) (u32 (1 + offset)));
            let offset := Z.shiftl (Z.land len 63) 8 ||| lo in
            ndr_pull_component loops offset (Z.max max_offset offset)
        else if negb (Z.land len 192 =? 0) then Ndr_err NT_STATUS_BAD_NETWORK_NAME
        else if pl_data_size ndr <? u32 (offset + len + 2) then
          Ndr_err NT_STATUS_BAD_NETWORK_NAME
        else
          try bs <- Ndr_mem
            (if bool_decide (Z.to_nat (1 + offset) + Z.to_nat len <= length (pl_data ndr))%nat
             then Some (take (Z.to_nat len) (drop (Z.to_nat (1 + offset)) (pl_data ndr)))
             else None);
          let offset := u32 (offset + (len + 1)) in
          Ndr_ret (Some (cstr bs), offset, Z.max max_offset offset)
  end.

(** The loop of [ndr_pull_nbt_string]; [n] counts the components still allowed. *)
Fixpoint pull_components (n : nat) (name : option (list Z)) (offset max_offset : Z)
    : Pull (option (list Z) * Z) :=
  match n with
  | O => Ndr_err NT_STATUS_BAD_NETWORK_NAME
  | S n =>
      try (component, offset, max_offset) <- ndr_pull_component 5 offset max_offset;
      match component with
      | None => Ndr_ret (name, max_offset)
      | Some component =>
          pull_components n
            (Some (match name with
                   | Some name => name ++ 46 :: component
                   | None => component
                   end)) offset max_offset
      end
  end.

Definition ndr_pull_nbt_string (ndr_flags : Z) : Pull (option (list Z)) :=
  if negb (ndr_flags &? NDR_SCALARS) then Ndr_ret None
  else
    try ndr <- Ndr_get;
    try (name, max_offset) <-
      pull_components MAX_COMPONENTS None (pl_offset ndr) (pl_offset ndr);
    try! Ndr_modify (fun ndr => pl_set_offset ndr max_offset);
    Ndr_ret (Some (default [] name)).

Definition store_nbt_string (s : list Z) : Push unit :=
  Ndr_modify (fun ndr =>
    ps_set_nbt_string_list ndr (ndr_token_store (ps_nbt_string_list ndr) s (ps_offset ndr))).

(** The loop over the components of [s]; a component takes at least one byte
    of [fuel]. *)
Fixpoint push_components (fuel : nat) (s : list Z) : Push unit :=
  match s with
  | [] => ndr_push_bytes [0] 1
  | _ =>
      match fuel with
      | O => Ndr_mem None
      | S fuel =>
          try ndr <- Ndr_get;
          match ndr_token_retrieve_cmp_fn (ps_nbt_string_list ndr) s byte_eqb false with
          | inr (offset, _) =>
              if 16383 <? offset then ndr_push_error NDR_ERR_STRING
              else ndr_push_bytes [u8 (192 ||| Z.shiftr offset 8); Z.land offset 255] 2
          | inl _ =>
              let '(compname, rest) := span_dot s in
              let complen := Z.of_nat (length compname) in
              if 63 <=? complen then ndr_push_error NDR_ERR_STRING
              else
                try! store_nbt_string s;
                try! ndr_push_bytes (complen :: compname) (complen + 1);
                push_components fuel (match rest with 46 :: s => s | s => s end)
          end
      end
  end.

Definition ndr_push_nbt_string (ndr_flags : Z) (s : list Z) : Push unit :=
  if negb (ndr_flags &? NDR_SCALARS) then Ndr_ret tt else push_components (length s) s.

(** ** Names *)

Record nbt_name : Type := mk_name {
  nm_name : list Z;
  nm_scope : option (list Z);
  nm_type : Z
}.

Definition NBT_NAME_CLIENT : Z := 0.

(** The loop of [decompress_name] on the buffer: the error, or the buffer and
    the number of characters. *)
Fixpoint decompress_loop (fuel : nat) (name : list Z) (i : nat)
    : option (NTSTATUS + list Z * nat) :=
  match fuel with
  | O => None
  | S fuel =>
      c1 ← name !! (2 * i)%nat;
      if c1 =? 0 then Some (inr (name, i))
      else
        c2 ← name !! (1 + 2 * i)%nat;
        if (c1 <? 65) || (80 <? c1) || (c2 <? 65) || (80 <? c2)
        then Some (inl NT_STATUS_BAD_NETWORK_NAME)
        else decompress_loop fuel (<[i := u8 (Z.shiftl (c1 - 65) 4 ||| (c2 - 65))]> name) (S i)
  end.

(** [for (;i>0 && name[i-1]==' ';i--) name[i-1] = 0;] *)
Fixpoint trim_spaces (name : list Z) (i : nat) : list Z :=
  match i with
  | O => name
  | S j => if bool_decide (name !! j = Some 32) then trim_spaces (<[j := 0]> name) j else name
  end.

(** The type is a [char] converted to an [enum]. *)
Definition decompress_name (name : list Z) : option (NTSTATUS + list Z * Z) :=
  r ← decompress_loop (length name) name 0;
  match r with
  | inl e => Some (inl e)
  | inr (name, i) =>
      let name := <[i := 0]> name in
      if (i =? 16)%nat then
        c ← name !! 15%nat;
        Some (inr (trim_spaces (<[15%nat := 0]> name) 15, u32 (s8 c)))
      else Some (inr (trim_spaces name i, NBT_NAME_CLIENT))
  end.

Definition compress_char (c : Z) : list Z := [65 + Z.shiftr c 4; 65 + Z.land c 15].

(** The bytes of [cname] before its terminator. *)
Definition compress_name (name : list Z) (type : Z) : option (list Z) :=
  if (15 <? length name)%nat then None
  else
    let pad_char := if byte_eqb name [42] then 0 else 32 in
    Some (List.flat_map compress_char
            (name ++ replicate (15 - length name) pad_char ++ [u8 type])).

Definition ndr_pull_nbt_name (ndr_flags : Z) : Pull (option nbt_name) :=
  if negb (ndr_flags &? NDR_SCALARS) then Ndr_ret None
  else
    try s <- ndr_pull_nbt_string ndr_flags;
    let '(cname, rest) := span_dot (default [] s) in
    let scope := match rest with _ :: scope => Some scope | [] => None end in
    if (32 <? length cname)%nat then Ndr_err NT_STATUS_BAD_NETWORK_NAME
    else
      try r <- Ndr_mem (decompress_name (cname ++ [0]));
      match r with
      | inl status => Ndr_err status
      | inr (buf, type) => Ndr_ret (Some (mk_name (cstr buf) scope type))
      end.

Definition ndr_push_nbt_name (ndr_flags : Z) (r : nbt_name) : Push unit :=
  if negb (ndr_flags &? NDR_SCALARS) then Ndr_ret tt
  else if (15 <? length (nm_name r))%nat then ndr_push_error NDR_ERR_STRING
  else
    match compress_name (nm_name r) (nm_type r) with
    | None => Ndr_err NT_STATUS_NO_MEMORY
    | Some cname =>
        let fullname := match nm_scope r with
                        | Some scope => cname ++ 46 :: scope
                        | None => cname
                        end in
        ndr_push_nbt_string ndr_flags fullname
    end.

Definition nbt_name_to_blob (name : nbt_name) : res (list Z) :=
  ndr_push_struct_blob (fun fl => ndr_push_nbt_name fl name).
Definition nbt_name_from_blob (blob : list Z) : res (option nbt_name) :=
  ndr_pull_struct_blob blob ndr_pull_nbt_name.

(** ** The text form *)

Definition isalnum (c : Z) : bool :=
  ((48 <=? c) && (c <=? 57)) || ((65 <=? c) && (c <=? 90)) || ((97 <=? c) && (c <=? 122)).

(** ["_-.$@ "] *)
Definition valid_chars : list Z := [95; 45; 46; 36; 64; 32].

Definition NBT_CHAR_ALLOW (c : Z) : bool := isalnum c || bool_decide (c ∈ valid_chars).

(** ["0123456789abcdef"[d]] *)
Definition hex_digit (d : Z) : Z := if d <? 10 then 48 + d else 87 + d.

(** [%02x] of an unsigned 32-bit value. *)
Fixpoint hex_digits (fuel : nat) (v : Z) (acc : list Z) : list Z :=
  match fuel with
  | O => acc
  | S fuel =>
      let acc := hex_digit (v mod 16) :: acc in
      if v <? 16 then acc else hex_digits fuel (v / 16) acc
  end.
Definition print_02x (v : Z) : list Z :=
  let h := hex_digits 8 v [] in if (length h <? 2)%nat then 48 :: h else h.

Fixpoint nbt_hex_encode (s : list Z) : list Z :=
  match s with
  | [] => []
  | c :: s =>
      if NBT_CHAR_ALLOW c then c :: nbt_hex_encode s
      else 37 :: print_02x c ++ nbt_hex_encode s
  end.

(** ["%s<%02x>-%s"] or ["%s<%02x>"] *)
Definition nbt_name_string (name : nbt_name) : list Z :=
  nbt_hex_encode (nm_name name) ++ 60 :: print_02x (nm_type name) ++ 62 ::
  match nm_scope name with
  | Some scope => 45 :: nbt_hex_encode scope
  | None => []
  end.

(** ** Names in WINS replication *)

(** [trim_string(s, NULL, " ")] on the bytes of a string. *)
Fixpoint trim_back (s : list Z) : list Z :=
  match s with
  | [] => []
  | c :: s => match trim_back s with
              | [] => if c =? 32 then [] else [c]
              | s => c :: s
              end
  end.

Definition ndr_pull_wrepl_nbt_name (ndr_flags : Z) : Pull (option nbt_name) :=
  if negb (ndr_flags &? NDR_SCALARS) then Ndr_ret None
  else
    try! ndr_pull_align 4;
    try namebuf_len <- ndr_pull_uint32;
    if (namebuf_len <? 1) || (255 <? namebuf_len) then ndr_pull_error NDR_ERR_ALLOC
    else
      try namebuf <- ndr_pull_array_uint8 NDR_SCALARS namebuf_len;
      let namebuf := default [] namebuf in
      try b0 <- Ndr_mem (namebuf !! 0%nat);
      try namebuf <-
        (if (b0 =? 27) && (16 <=? namebuf_len) then
           try b15 <- Ndr_mem (namebuf !! 15%nat);
           Ndr_ret (<[15%nat := 27]> (<[0%nat := b15]> namebuf))
         else Ndr_ret namebuf);
      if namebuf_len <? 17 then Ndr_ret (Some (mk_name (cstr namebuf) None 0))
      else
        try type <- Ndr_mem (namebuf !! 15%nat);
        let name := trim_back (cstr (<[15%nat := 0]> namebuf)) in
        let scope := if 18 <? namebuf_len then Some (cstr (drop 17 namebuf)) else None in
        Ndr_ret (Some (mk_name name scope type)).

(** ["%-15s%c%s"] with ['X'] in the place of the type. *)
Definition wrepl_namebuf (r : nbt_name) : list Z :=
  nm_name r ++ replicate (15 - length (nm_name r)) 32 ++ [88] ++ default [] (nm_scope r).

Definition ndr_push_wrepl_nbt_name (ndr_flags : Z) (r : nbt_name) : Push unit :=
  if negb (ndr_flags &? NDR_SCALARS) then Ndr_ret tt
  else if (15 <? length (nm_name r))%nat then Ndr_err NT_STATUS_INVALID_PARAMETER_MIX
  else if (238 <? length (default [] (nm_scope r)))%nat then
    Ndr_err NT_STATUS_INVALID_PARAMETER_MIX
  else
    let namebuf := wrepl_namebuf r ++ [0] in
    let namebuf_len := Z.of_nat (length namebuf) in
    let namebuf := <[15%nat := u8 (nm_type r)]> namebuf in
    let namebuf := if nm_type r =? 27
                   then <[0%nat := 27]> (<[15%nat := default 0 (namebuf !! 0%nat)]> namebuf)
                   else namebuf in
    try! ndr_push_align 4;
    try! ndr_push_uint32 namebuf_len;
    ndr_push_array_uint8 NDR_SCALARS namebuf namebuf_len.

(** ** Compressed names *)

Definition nonzero (s : list Z) : Prop := Forall (fun c => c <> 0) s.

(** What the loop of [decompress_name] decodes, not in place. *)
Fixpoint decode_pairs (s : list Z) : option (list Z) :=
  match s with
  | [] => Some []
  | c1 :: s =>
      match s with
      | [] => None
      | c2 :: s =>
          if (c1 <? 65) || (80 <? c1) || (c2 <? 65) || (80 <? c2) then None
          else cons (Z.shiftl (c1 - 65) 4 ||| (c2 - 65)) <$> decode_pairs s
      end
  end.

(** Two elements at a time. *)
Lemma pairs_ind {A} (P : list A -> Prop) :
  P [] -> (forall x, P [x]) -> (forall x y l, P l -> P (x :: y :: l)) -> forall l, P l.
Proof.
  intros H0 H1 H2 l. enough (P l /\ forall x, P (x :: l)) by tauto.
  induction l as [|y l [IH1 IH2]]; split; intros; auto.
Qed.

Lemma nibbles_range a b : 0 <= a < 16 -> 0 <= b < 16 -> 0 <= Z.shiftl a 4 ||| b < 256.
Proof. intros. rewrite Z.lor_comm, lor_shiftl_add by lia. lia. Qed.

Lemma decode_pairs_bytes s d : decode_pairs s = Some d -> bytes_ok d.
Proof.
  revert d. induction s as [|x|x y s IH] using pairs_ind; intros d; simpl;
    [intros [= <-]; constructor|done|].
  destruct (_ || _) eqn:E; [done|]. bool_hyps.
  destruct (decode_pairs s) as [d'|]; [|done]. intros [= <-].
  apply Forall_cons. split; [apply nibbles_range; lia|by apply IH].
Qed.

Lemma decode_pairs_length s d : decode_pairs s = Some d -> (length s = 2 * length d)%nat.
Proof.
  revert d. induction s as [|x|x y s IH] using pairs_ind; intros d; simpl;
    [by intros [= <-]|done|].
  destruct (_ || _); [done|]. destruct (decode_pairs s) as [d'|]; [|done].
  intros [= <-]. specialize (IH d' eq_refl). simpl. lia.
Qed.

(** The loop decodes in place: the [i] characters decoded so far are in front
    of the part of [s] that is not read any more. *)
Lemma decompress_loop_spec s :
  nonzero s -> forall rem pre buf fuel,
  s = pre ++ rem -> (length pre = 2 * (length pre / 2))%nat ->
  (length rem < fuel)%nat -> length buf = S (length s) ->
  (forall j, (length pre / 2 <= j)%nat -> buf !! j = (s ++ [0]) !! j) ->
  match decode_pairs rem with
  | None => decompress_loop fuel buf (length pre / 2) = Some (inl NT_STATUS_BAD_NETWORK_NAME)
  | Some d => exists buf', decompress_loop fuel buf (length pre / 2) =
      Some (inr (buf', length pre / 2 + length d)%nat) /\ length buf' = S (length s) /\
      take (length pre / 2 + length d) buf' = take (length pre / 2) buf ++ d
  end.
Proof.
  intros Hs rem. induction rem as [|x|x y rem IH] using pairs_ind;
    intros pre buf fuel Heq Hpre Hfuel Hlen Hbuf; set (i := (length pre / 2)%nat) in *;
    (destruct fuel as [|fuel]; [simpl in Hfuel; lia|]).
  - simpl. rewrite (Hbuf (i + (i + 0))%nat) by lia.
    rewrite app_nil_r in Heq. subst pre. rewrite lookup_app_r by lia.
    replace (i + (i + 0) - length s)%nat with 0%nat by lia. simpl.
    exists buf. rewrite Nat.add_0_r, app_nil_r. done.
  - simpl. rewrite (Hbuf (i + (i + 0))%nat) by lia. rewrite Heq, <- app_assoc.
    rewrite lookup_app_r by lia. replace (i + (i + 0) - length pre)%nat with 0%nat by lia. simpl.
    rewrite Heq in Hs. apply Forall_app in Hs as [_ Hx]. apply Forall_cons in Hx as [Hx _].
    destruct (Z.eqb_spec x 0); [done|].
    rewrite (Hbuf (S (i + (i + 0)))%nat) by lia. rewrite Heq, <- app_assoc.
    rewrite lookup_app_r by lia.
    replace (S (i + (i + 0)) - length pre)%nat with 1%nat by lia. simpl.
    by destruct (x <? 65), (80 <? x).
  - assert (forall k, (s ++ [0]) !! (2 * i + k)%nat = ((x :: y :: rem) ++ [0]) !! k) as Hl.
    { intros k. rewrite Heq, <- app_assoc, lookup_app_r by lia. f_equal. lia. }
    assert (buf !! (2 * i)%nat = Some x) as Hx.
    { rewrite Hbuf by lia. specialize (Hl 0%nat). by rewrite Nat.add_0_r in Hl. }
    assert (buf !! (1 + 2 * i)%nat = Some y) as Hy.
    { rewrite Hbuf by lia. specialize (Hl 1%nat). by rewrite Nat.add_comm in Hl. }
    assert (x <> 0) as Hx0.
    { rewrite Heq in Hs. apply Forall_app in Hs as [_ Hs]. by apply Forall_cons in Hs as [Hs _]. }
    cbn [decompress_loop]. rewrite Hx, Hy. cbn [mbind option_bind].
    destruct (Z.eqb_spec x 0); [done|].
    cbn [decode_pairs]. destruct (_ || _) eqn:E; [done|]. bool_hyps.
    set (v := Z.shiftl (x - 65) 4 ||| (y - 65)).
    assert (u8 v = v) as -> by (apply Z.mod_small, nibbles_range; lia).
    assert (length (pre ++ [x; y]) / 2 = S i)%nat as Hdiv.
    { rewrite length_app. symmetry. apply (Nat.div_unique _ _ _ 0); simpl; lia. }
    specialize (IH (pre ++ [x; y]) (<[i:=v]> buf) fuel). rewrite Hdiv in IH.
    rewrite length_insert in IH.
    assert (i < length buf)%nat as Hi by (rewrite Hlen, Heq, length_app; simpl; lia).
    destruct (decode_pairs rem) as [d|]; simpl fmap.
    + destruct IH as (buf' & E1 & E2 & E3);
        [by rewrite <- app_assoc|rewrite length_app; simpl; lia|simpl in Hfuel; lia|done| |].
      { intros j Hj. rewrite list_lookup_insert_ne by lia. apply Hbuf. lia. }
      exists buf'. rewrite E1. simpl length. rewrite <- plus_n_Sm. split; [done|].
      split; [done|]. change (S (i + length d)) with (S i + length d)%nat. rewrite E3.
      rewrite take_S_r with (x := v) by (by apply list_lookup_insert_eq).
      rewrite take_insert_ge by lia. by rewrite <- app_assoc.
    + apply IH; [by rewrite <- app_assoc|rewrite length_app; simpl; lia|simpl in Hfuel; lia|done|].
      intros j Hj. rewrite list_lookup_insert_ne by lia. apply Hbuf. lia.
Qed.

Lemma trim_back_snoc s c :
  trim_back (s ++ [c]) = if c =? 32 then trim_back s else s ++ [c].
Proof.
  induction s as [|x s IH]; simpl; [done|]. rewrite IH. destruct (c =? 32); [done|].
  by destruct s.
Qed.

Lemma cstr_app_nil s t : cstr (s ++ 0 :: t) = cstr s.
Proof. induction s as [|c s IH]; simpl; [done|]. by rewrite IH. Qed.

Lemma cstr_nonzero s : nonzero s -> cstr s = s.
Proof.
  induction 1 as [|c s Hc Hs IH]; simpl; [done|].
  destruct (Z.eqb_spec c 0); [done|]. by rewrite IH.
Qed.

Lemma nonzero_cstr s : nonzero (cstr s).
Proof.
  induction s as [|c s IH]; simpl; [constructor|].
  destruct (Z.eqb_spec c 0); [constructor|by constructor].
Qed.

Lemma length_cstr s : (length (cstr s) <= length s)%nat.
Proof. induction s as [|c s IH]; simpl; [done|]. destruct (c =? 0); simpl; lia. Qed.

Lemma cstr_bytes s : bytes_ok s -> bytes_ok (cstr s).
Proof.
  induction 1 as [|c s Hc Hs IH]; simpl; [constructor|]. destruct (c =? 0); by constructor.
Qed.

Lemma trim_spaces_spec d : forall t,
  cstr (trim_spaces (d ++ 0 :: t) (length d)) = cstr (trim_back d).
Proof.
  induction d as [|c d IH] using rev_ind; intros t; [done|].
  rewrite length_app, Nat.add_comm. cbn [length Nat.add trim_spaces].
  rewrite <- app_assoc, lookup_app_r by lia. rewrite Nat.sub_diag. cbn [app lookup list_lookup].
  rewrite trim_back_snoc. destruct (Z.eqb_spec c 32) as [->|Hc].
  - rewrite bool_decide_true by done. rewrite insert_app_r_alt by lia. rewrite Nat.sub_diag.
    apply IH.
  - rewrite bool_decide_false by congruence.
    change (d ++ c :: 0 :: t) with (d ++ [c] ++ 0 :: t). by rewrite app_assoc, cstr_app_nil.
Qed.

(** What [decompress_name] gives for a string of at most 32 characters. *)
Definition decompressed (d : list Z) : list Z * Z :=
  if (length d =? 16)%nat
  then (cstr (trim_back (take 15 d)), u32 (s8 (default 0 (d !! 15%nat))))
  else (cstr (trim_back d), NBT_NAME_CLIENT).

Lemma decompress_name_spec s :
  nonzero s ->
  match decode_pairs s with
  | None => decompress_name (s ++ [0]) = Some (inl NT_STATUS_BAD_NETWORK_NAME)
  | Some d => exists buf, decompress_name (s ++ [0]) = Some (inr (buf, (decompressed d).2)) /\
      cstr buf = (decompressed d).1
  end.
Proof.
  intros Hs. pose proof (decompress_loop_spec s Hs s [] (s ++ [0]) (length (s ++ [0]))) as H.
  cbn [length] in H. change (0 / 2)%nat with 0%nat in H. cbn [Nat.add] in H.
  rewrite length_app in H. cbn [length] in H. unfold decompress_name. rewrite length_app.
  cbn [length]. destruct (decode_pairs s) as [d|] eqn:Ed.
  - destruct H as (buf & E & El & Et); [done|done|lia|lia|done|].
    rewrite E. cbn [mbind option_bind]. apply decode_pairs_length in Ed as Hd.
    rewrite take_0 in Et. cbn [app] in Et.
    assert (<[length d:=0]> buf = d ++ 0 :: drop (S (length d)) buf) as ->.
    { rewrite insert_take_drop by lia. by rewrite Et. }
    unfold decompressed. destruct (Nat.eqb_spec (length d) 16) as [H16|].
    + destruct (d !! 15%nat) as [c|] eqn:Ec; [|apply lookup_ge_None in Ec; lia].
      rewrite lookup_app_l by lia. rewrite Ec. cbn [mbind option_bind default].
      eexists. split; [reflexivity|]. cbn [fst].
      rewrite insert_app_l by lia. rewrite insert_take_drop by lia. rewrite <- app_assoc.
      pose proof (trim_spaces_spec (take 15 d) (drop 16 d ++ 0 :: drop (S (length d)) buf)) as Ht.
      rewrite length_take in Ht. replace (15 `min` length d)%nat with 15%nat in Ht by lia. exact Ht.
    + eexists. split; [reflexivity|]. apply trim_spaces_spec.
  - by rewrite H by (done || lia).
Qed.

Lemma decode_compress l :
  bytes_ok l -> decode_pairs (List.flat_map compress_char l) = Some l.
Proof.
  induction 1 as [|c l Hc Hl IH]; [done|]. cbn [List.flat_map compress_char app decode_pairs].
  rewrite Z.shiftr_div_pow2 by lia. change 15 with (Z.ones 4). rewrite Z.land_ones by lia.
  change (2 ^ 4) with 16. pose proof (Z.mod_pos_bound c 16 ltac:(lia)).
  assert (0 <= c / 16 < 16) by (split; [apply Z.div_pos; lia|apply Z.div_lt_upper_bound; lia]).
  replace (_ || _ || _ || _) with false
    by (symmetry; repeat apply orb_false_intro; apply Z.ltb_ge; lia).
  rewrite IH. cbn. do 2 f_equal. rewrite Z.lor_comm.
  replace (65 + c / 16 - 65) with (c / 16) by lia.
  replace (65 + c mod 16 - 65) with (c mod 16) by lia.
  rewrite lor_shiftl_add by (change (2 ^ 4) with 16; lia). change (2 ^ 4) with 16.
  pose proof (Z.div_mod c 16). lia.
Qed.

(** ** Parsing is safe *)

(** A component leaves the buffer alone, and its offsets are in it. *)
Lemma ndr_pull_component_safe loops offset max_offset r :
  pl_wf r -> 0 <= offset -> 0 <= max_offset ->
  max_offset <= pl_data_size r \/ pl_data_size r <= offset ->
  match ndr_pull_component loops offset max_offset r with
  | (Ok (c, o, m), r') => r' = r /\ 0 <= o <= m /\ m <= pl_data_size r /\
      match c with Some c => (length c <= 63)%nat /\ nonzero c /\ bytes_ok c | None => True end /\
      max_offset <= m
  | (Err e, _) => e = NT_STATUS_BAD_NETWORK_NAME
  | (Fault, _) => False
  end.
Proof.
  intros Hr. pose proof Hr as ([H0 H1] & H2 & H3 & H4 & H5 & _).
  revert offset max_offset. induction loops as [|loops IH]; intros offset max Ho Hm Hor; [done|].
  cbn [ndr_pull_component]. unfold Ndr_bind at 1, Ndr_get at 1.
  destruct (Z.leb_spec (pl_data_size r) offset); [done|].
  destruct (is_Some_CVAL (pl_data r) offset) as [len Hlen]; [lia|].
  pose proof (CVAL_range _ H5 _ _ Hlen) as Hl.
  unfold Ndr_bind at 1, Ndr_mem at 1, st_ret at 1. rewrite Hlen.
  destruct (Z.eqb_spec len 0).
  { simpl. rewrite u32_small by lia. split_and!; try done; lia. }
  destruct (Z.eqb_spec (Z.land len 192) 192).
  { rewrite (u32_small (1 + offset)), (u32_small (offset + 2)) by lia.
    destruct (Z.leb_spec (pl_data_size r) (1 + offset)); [done|].
    destruct (is_Some_CVAL (pl_data r) (1 + offset)) as [lo Hlo]; [lia|].
    pose proof (CVAL_range _ H5 _ _ Hlo) as Hlo'.
    unfold Ndr_bind at 1, Ndr_mem at 1, st_ret at 1. rewrite Hlo.
    set (t := Z.shiftl (Z.land len 63) 8 ||| lo).
    assert (0 <= t) as Ht.
    { unfold t. apply Z.lor_nonneg. split; [|lia]. apply Z.shiftl_nonneg, Z.land_nonneg. lia. }
    specialize (IH t (Z.max (Z.max max (offset + 2)) t) Ht ltac:(lia) ltac:(lia)).
    destruct (ndr_pull_component _ _ _ _) as [[[[c o] m]|err|] r']; [|done..].
    destruct IH as (-> & ? & ? & ? & ?). split_and!; try done; lia. }
  destruct (Z.eqb_spec (Z.land len 192) 0) as [E0|]; [|done]. cbn [negb].
  assert (len <= 63) as Hl63.
  { destruct (Z.le_gt_cases len 63); [done|]. exfalso.
    rewrite Z.land_comm in E0. assert (len / 64 <> 0) as Hd.
    { pose proof (Z.div_le_lower_bound len 64 1). lia. }
    apply Hd. change 64 with (2 ^ 6). rewrite <- (Z.shiftr_div_pow2 len 6) by lia.
    apply Z.bits_inj'. intros k Hk. rewrite Z.shiftr_spec, Z.bits_0 by done.
    assert (Z.testbit (Z.land 192 len) (k + 6) = false) as Hb by (by rewrite E0, Z.bits_0).
    rewrite Z.land_spec in Hb. destruct (Z.ltb_spec k 2).
    - assert (k = 0 \/ k = 1) as [-> | ->] by lia; simpl in Hb; exact Hb.
    - rewrite <- (Z.mod_small len (2 ^ 8)) by lia. apply Z.mod_pow2_bits_high. lia. }
  rewrite (u32_small (offset + len + 2)) by lia.
  destruct (Z.ltb_spec (pl_data_size r) (offset + len + 2)); [done|].
  rewrite bool_decide_true by lia. unfold Ndr_bind, Ndr_mem, Ndr_ret, st_ret.
  rewrite u32_small by lia. split_and!; try done; try lia.
  - etransitivity; [apply length_cstr|]. rewrite length_take. lia.
  - apply nonzero_cstr.
  - by apply cstr_bytes, bytes_ok_slice.
Qed.

Definition name_safe (n : nat) (name : option (list Z)) : Prop :=
  match name with
  | Some s => (length s <= n)%nat /\ nonzero s /\ bytes_ok s
  | None => True
  end.

Lemma pull_components_safe n name offset max_offset r k :
  pl_wf r -> 0 <= offset <= max_offset -> max_offset <= pl_data_size r -> name_safe k name ->
  match pull_components n name offset max_offset r with
  | (Ok (name', m), r') => r' = r /\ max_offset <= m <= pl_data_size r /\
      name_safe (k + 64 * (n - 1)) name'
  | (Err e, _) => e = NT_STATUS_BAD_NETWORK_NAME
  | (Fault, _) => False
  end.
Proof.
  intros Hr. revert name offset max_offset k.
  induction n as [|n IH]; intros name offset max k Ho Hm Hn; [done|].
  cbn [pull_components]. unfold Ndr_bind at 1.
  pose proof (ndr_pull_component_safe 5 offset max r Hr ltac:(lia) ltac:(lia) (or_introl Hm)) as Hc.
  destruct (ndr_pull_component 5 offset max r) as [[[[c o] m]|err|] r']; [|done..].
  destruct Hc as (-> & Ho' & Hm' & Hc & Hmm). destruct c as [c|].
  - destruct n as [|n']; [done|]. set (k' := (k + 64)%nat).
    set (name' := Some _).
    assert (name_safe k' name') as Hn'.
    { destruct Hc as (Hc1 & Hc2 & Hc3). unfold name', k'. destruct name as [s|]; simpl.
      - destruct Hn as (Hn1 & Hn2 & Hn3). rewrite length_app. simpl. split; [lia|]. split.
        + apply Forall_app. split; [done|]. by apply Forall_cons.
        + apply Forall_app. split; [done|]. apply Forall_cons. split; [lia|done].
      - split_and!; [lia|done..]. }
    specialize (IH name' o m k' Ho' Hm' Hn').
    destruct (pull_components _ _ _ _ _) as [[[s m']|err|] r']; [|done..].
    destruct IH as (-> & ? & Hs). split; [done|]. split; [lia|].
    unfold k' in Hs. replace (k + 64 * (S (S n') - 1))%nat with (k + 64 + 64 * (S n' - 1))%nat by lia.
    done.
  - simpl. split; [done|]. split; [lia|]. destruct name as [s|]; [|done].
    destruct Hn as (? & ? & ?). split_and!; [lia|done..].
Qed.

(** The parser of names, for the packets of any sender. *)
Lemma ndr_pull_nbt_string_safe :
  pull_safe (ndr_pull_nbt_string NDR_SCALARS) (fun s =>
    exists s', s = Some s' /\ (length s' <= 576)%nat /\ nonzero s' /\ bytes_ok s').
Proof.
  intros r Hr. unfold ndr_pull_nbt_string. change (negb (NDR_SCALARS &? NDR_SCALARS)) with false.
  cbv iota. unfold Ndr_bind at 1, Ndr_get.
  pose proof (pull_components_safe MAX_COMPONENTS None (pl_offset r) (pl_offset r) r 0 Hr) as H.
  unfold Ndr_bind. destruct Hr as ([? ?] & Hr').
  destruct (pull_components _ _ _ _ _) as [[[s m]|err|] r'];
    [|done|by apply H].
  destruct H as (-> & Hm & Hs); [lia|lia|done|]. unfold Ndr_modify, Ndr_ret, st_ret.
  split.
  - apply pl_wf_set_offset; [by split|lia].
  - exists (default [] s). split; [done|]. destruct s as [s|]; simpl in *; [done|].
    split_and!; [lia|constructor..].
Qed.

Lemma span_dot_spec s a b : span_dot s = (a, b) -> s = a ++ b.
Proof.
  revert a b. induction s as [|c s IH]; intros a b; simpl; [by intros [= <- <-]|].
  destruct (c =? 46); [by intros [= <- <-]|]. destruct (span_dot s) as [a' b'].
  intros [= <- <-]. simpl. f_equal. by apply IH.
Qed.

Lemma decompressed_safe s d :
  (length s <= 32)%nat -> decode_pairs s = Some d ->
  (length (decompressed d).1 <= 15)%nat /\ nonzero (decompressed d).1 /\
  bytes_ok (decompressed d).1 /\ 0 <= (decompressed d).2 < 2 ^ 32.
Proof.
  intros Hl Hd. apply decode_pairs_bytes in Hd as Hb. apply decode_pairs_length in Hd as Hn.
  assert (forall l, (length (trim_back l) <= length l)%nat) as Htl.
  { induction l as [|c l IH]; simpl; [lia|]. destruct (trim_back l); [|simpl in *; lia].
    destruct (c =? 32); simpl; lia. }
  assert (forall l, bytes_ok l -> bytes_ok (trim_back l)) as Htb.
  { induction 1 as [|c l Hc Hbl IH]; simpl; [constructor|]. destruct (trim_back l).
    - destruct (c =? 32); repeat constructor; lia.
    - by constructor. }
  unfold decompressed. destruct (Nat.eqb_spec (length d) 16); simpl fst; simpl snd.
  - split_and!.
    + rewrite length_cstr, Htl, length_take. lia.
    + apply nonzero_cstr.
    + by apply cstr_bytes, Htb, Forall_take.
    + apply u32_range.
    + apply u32_range.
  - split_and!; [|apply nonzero_cstr|by apply cstr_bytes, Htb|done|done].
    rewrite length_cstr, Htl. lia.
Qed.

Lemma ndr_pull_nbt_string_eq r s m :
  pull_components MAX_COMPONENTS None (pl_offset r) (pl_offset r) r = (Ok (s, m), r) ->
  ndr_pull_nbt_string NDR_SCALARS r = (Ok (Some (default [] s)), pl_set_offset r m).
Proof.
  intros H. unfold ndr_pull_nbt_string. change (negb (NDR_SCALARS &? NDR_SCALARS)) with false.
  cbv iota. unfold Ndr_bind, Ndr_get. by rewrite H.
Qed.

(** [ndr_pull_nbt_name] after its string is parsed. *)
Definition name_of_string (s : list Z) : res nbt_name :=
  let '(cname, rest) := span_dot s in
  if (32 <? length cname)%nat then Err NT_STATUS_BAD_NETWORK_NAME
  else
    match decompress_name (cname ++ [0]) with
    | Some (inl e) => Err e
    | Some (inr (buf, type)) =>
        Ok (mk_name (cstr buf) (match rest with _ :: scope => Some scope | [] => None end) type)
    | None => Fault
    end.

Lemma ndr_pull_nbt_name_eq r r' s :
  ndr_pull_nbt_string NDR_SCALARS r = (Ok (Some s), r') ->
  ndr_pull_nbt_name NDR_SCALARS r =
    (match name_of_string s with Ok n => Ok (Some n) | Err e => Err e | Fault => Fault end, r').
Proof.
  intros H. unfold ndr_pull_nbt_name, name_of_string.
  change (negb (NDR_SCALARS &? NDR_SCALARS)) with false. cbv iota.
  unfold Ndr_bind at 1. rewrite H. cbv beta iota zeta.
  change (default [] (Some s)) with s. destruct (span_dot s) as [cname rest].
  destruct (32 <? length cname)%nat; [done|]. unfold Ndr_bind, Ndr_mem, st_ret.
  by destruct (decompress_name (cname ++ [0])) as [[e|[buf ty]]|].
Qed.

Lemma name_of_string_safe s :
  nonzero s ->
  match name_of_string s with
  | Ok n => (length (nm_name n) <= 15)%nat /\ nonzero (nm_name n) /\ bytes_ok (nm_name n) /\
            0 <= nm_type n < 2 ^ 32
  | Err e => e = NT_STATUS_BAD_NETWORK_NAME
  | Fault => False
  end.
Proof.
  intros Hnz. unfold name_of_string. destruct (span_dot s) as [cname rest] eqn:Es.
  apply span_dot_spec in Es. rewrite Es in Hnz. apply Forall_app in Hnz as [Hnz _].
  destruct (Nat.ltb_spec 32 (length cname)); [done|].
  pose proof (decompress_name_spec cname Hnz) as Hd.
  destruct (decode_pairs cname) as [d|] eqn:Ed; [|by rewrite Hd].
  destruct Hd as (buf & -> & Hbuf). cbn [nm_name nm_type]. rewrite Hbuf.
  by apply (decompressed_safe cname d).
Qed.

(** C14: parsing a NetBIOS name at any place of any packet terminates without
    a read outside the packet or a write outside the name buffer, whatever
    pointers, lengths and characters the sender chose.  The only error is
    [NT_STATUS_BAD_NETWORK_NAME]; a name that is accepted has at most 15
    characters, is free of NUL, and parsing goes on inside the packet. *)
Theorem ndr_pull_nbt_name_safe r :
  pl_wf r ->
  match ndr_pull_nbt_name NDR_SCALARS r with
  | (Ok (Some n), r') =>
      (length (nm_name n) <= 15)%nat /\ nonzero (nm_name n) /\ bytes_ok (nm_name n) /\
      0 <= nm_type n < 2 ^ 32 /\ pl_offset r <= pl_offset r' <= pl_data_size r
  | (Ok None, _) => False
  | (Err e, _) => e = NT_STATUS_BAD_NETWORK_NAME
  | (Fault, _) => False
  end.
Proof.
  intros Hr.
  pose proof (pull_components_safe MAX_COMPONENTS None (pl_offset r) (pl_offset r) r 0 Hr) as H.
  destruct (Hr) as ([H0 H1] & _).
  destruct (pull_components _ _ _ _ _) as [[[s m]|err|] r'] eqn:E.
  - destruct H as (-> & Hm & Hs); [lia|lia|done|].
    assert (nonzero (default [] s)) as Hnz by (destruct s; [apply Hs|constructor]).
    rewrite (ndr_pull_nbt_name_eq _ _ _ (ndr_pull_nbt_string_eq _ _ _ E)).
    pose proof (name_of_string_safe _ Hnz) as Hn.
    destruct (name_of_string _) as [n|e|]; [|done..].
    destruct Hn as (? & ? & ? & ?). split_and!; try done; simpl; lia.
  - unfold ndr_pull_nbt_name, ndr_pull_nbt_string.
    change (negb (NDR_SCALARS &? NDR_SCALARS)) with false. cbv iota.
    unfold Ndr_bind, Ndr_get. rewrite E. by apply H.
  - destruct H; [lia|lia|done].
Qed.

(** ** Names are read back *)

(** A component that can be written: 1 to 62 bytes, no NUL and no dot. *)
Definition label_ok (c : list Z) : Prop :=
  (1 <= length c <= 62)%nat /\ Forall (fun b => 0 < b < 256 /\ b <> 46) c.

Fixpoint join_dots (comps : list (list Z)) : list Z :=
  match comps with
  | [] => []
  | c :: rest => match rest with [] => c | _ => c ++ 46 :: join_dots rest end
  end.

(** The bytes of a label. *)
Definition label (c : list Z) : list Z := Z.of_nat (length c) :: c.

(** [reads buf o comps e m]: the name at [o] has the components [comps]; its
    own bytes end at [e], and [m] is the largest offset its parsing sees.  A
    pointer leads to a label. *)
Inductive reads (buf : list Z) : nat -> list (list Z) -> nat -> nat -> Prop :=
  | reads_end o : bytes_at buf o [0] -> reads buf o [] (o + 1) (o + 1)
  | reads_label o c rest e m :
      label_ok c -> bytes_at buf o (label c) -> reads buf (o + 1 + length c) rest e m ->
      reads buf o (c :: rest) e m
  | reads_pointer o t c rest e m :
      Z.of_nat t < 16384 ->
      bytes_at buf o [192 + Z.of_nat t / 256; Z.of_nat t mod 256] ->
      label_ok c -> bytes_at buf t (label c) -> reads buf (t + 1 + length c) rest e m ->
      reads buf o (c :: rest) (o + 2) ((o + 2) `max` m).

Lemma bytes_at_extend buf ext o bs : bytes_at buf o bs -> bytes_at (buf ++ ext) o bs.
Proof.
  intros H. destruct bs as [|b bs]; [done|].
  pose proof (bytes_at_length _ _ _ H ltac:(done)) as Hl. unfold bytes_at in *.
  rewrite drop_app_le by lia. rewrite take_app_le; [done|]. rewrite length_drop. lia.
Qed.

Lemma reads_extend buf ext o comps e m : reads buf o comps e m -> reads (buf ++ ext) o comps e m.
Proof.
  induction 1; [apply reads_end|eapply reads_label|eapply reads_pointer];
    eauto using bytes_at_extend.
Qed.

Lemma reads_progress buf o comps e m : reads buf o comps e m -> (o < e <= m /\ o < length buf)%nat.
Proof.
  induction 1 as [o H|o c rest e m Hc H Hr IH|o t c rest e m Ht H Hc H' Hr IH].
  - apply bytes_at_length in H; [|done]. simpl in H. lia.
  - apply bytes_at_length in H; [|done]. unfold label in H. simpl in H. lia.
  - apply bytes_at_length in H; [|done]. simpl in H. lia.
Qed.

Section pulling.
Variables (buf : list Z) (r : ndr_pull).
Hypothesis Hdata : pl_data r = buf.
Hypothesis Hsize : pl_data_size r = Z.of_nat (length buf).
Hypothesis Hsmall : Z.of_nat (length buf) < 2 ^ 31.

Lemma bytes_at_CVAL o bs i b :
  bytes_at buf o bs -> bs !! i = Some b -> CVAL buf (Z.of_nat (o + i)) = Some b.
Proof.
  intros H Hi. unfold CVAL. rewrite Nat2Z.id. by eapply bytes_at_lookup.
Qed.

Lemma small_land c : 0 <= c < 64 -> Z.land c 192 = 0.
Proof.
  intros Hc. apply Z.bits_inj'. intros k Hk. rewrite Z.land_spec, Z.bits_0.
  destruct (Z.ltb_spec k 6).
  - assert (k = 0 \/ k = 1 \/ k = 2 \/ k = 3 \/ k = 4 \/ k = 5) as Hs by lia.
    assert (Z.testbit 192 k = false) as ->
      by (destruct Hs as [-> | [-> | [-> | [-> | [-> | ->]]]]]; done).
    apply andb_false_r.
  - rewrite <- (Z.mod_small c (2 ^ 6)) by lia. by rewrite Z.mod_pow2_bits_high by lia.
Qed.

Lemma pull_label loops o max c :
  label_ok c -> bytes_at buf o (label c) -> (o + 1 + length c < length buf)%nat ->
  ndr_pull_component (S loops) (Z.of_nat o) max r =
    (Ok (Some c, Z.of_nat (o + 1 + length c), Z.max max (Z.of_nat (o + 1 + length c))), r).
Proof.
  intros [Hc1 Hc2] Hb Hl. cbn [ndr_pull_component]. unfold Ndr_bind at 1, Ndr_get at 1.
  rewrite Hsize, Hdata. destruct (Z.leb_spec (Z.of_nat (length buf)) (Z.of_nat o)); [lia|].
  pose proof (bytes_at_CVAL _ _ 0 _ Hb eq_refl) as H0. rewrite Nat.add_0_r in H0.
  unfold Ndr_bind at 1, Ndr_mem at 1, st_ret at 1. rewrite H0.
  destruct (Z.eqb_spec (Z.of_nat (length c)) 0); [lia|].
  rewrite small_land by lia. simpl (0 =? 192). cbv iota. simpl (negb (0 =? 0)). cbv iota.
  rewrite u32_small by lia.
  destruct (Z.ltb_spec (Z.of_nat (length buf)) (Z.of_nat o + Z.of_nat (length c) + 2)); [lia|].
  rewrite bool_decide_true by lia. unfold Ndr_bind, Ndr_mem, Ndr_ret, st_ret.
  rewrite u32_small by lia.
  replace (Z.of_nat o + (Z.of_nat (length c) + 1)) with (Z.of_nat (o + 1 + length c)) by lia.
  replace (Z.to_nat (1 + Z.of_nat o)) with (o + 1)%nat by lia. rewrite Nat2Z.id.
  change (label c) with ([Z.of_nat (length c)] ++ c) in Hb.
  apply bytes_at_app in Hb as [_ Hb]. unfold bytes_at in Hb. simpl length in Hb. rewrite Hb.
  rewrite cstr_nonzero; [done|]. eapply Forall_impl; [exact Hc2|]. simpl. lia.
Qed.

Lemma pull_pointer loops o t max :
  Z.of_nat t < 16384 -> bytes_at buf o [192 + Z.of_nat t / 256; Z.of_nat t mod 256] ->
  ndr_pull_component (S loops) (Z.of_nat o) max r =
  ndr_pull_component loops (Z.of_nat t)
    (Z.max (Z.max max (Z.of_nat (o + 2))) (Z.of_nat t)) r.
Proof.
  intros Ht Hb. cbn [ndr_pull_component]. unfold Ndr_bind at 1, Ndr_get at 1.
  pose proof (bytes_at_length _ _ _ Hb ltac:(done)) as Hl. simpl in Hl.
  rewrite Hsize, Hdata. destruct (Z.leb_spec (Z.of_nat (length buf)) (Z.of_nat o)); [lia|].
  pose proof (bytes_at_CVAL _ _ 0 _ Hb eq_refl) as H0. rewrite Nat.add_0_r in H0.
  pose proof (bytes_at_CVAL _ _ 1 _ Hb eq_refl) as H1.
  unfold Ndr_bind at 1, Ndr_mem at 1, st_ret at 1. rewrite H0.
  set (h := Z.of_nat t / 256) in *.
  assert (0 <= h < 64) as Hh by (unfold h; euclid).
  destruct (Z.eqb_spec (192 + h) 0); [lia|].
  assert (192 + h = h ||| Z.shiftl 3 6) as Hlor
    by (rewrite lor_shiftl_add by (change (2 ^ 6) with 64; lia); lia).
  assert (Z.land (192 + h) 192 = 192) as ->.
  { rewrite Hlor, Z.land_lor_distr_l, small_land by done. done. }
  rewrite Z.eqb_refl. rewrite (u32_small (1 + _)), (u32_small (_ + 2)) by lia.
  destruct (Z.leb_spec (Z.of_nat (length buf)) (1 + Z.of_nat o)); [lia|].
  unfold Ndr_bind at 1, Ndr_mem at 1, st_ret at 1.
  replace (1 + Z.of_nat o) with (Z.of_nat (o + 1)) by lia. rewrite H1.
  assert (Z.land (192 + h) 63 = h) as ->.
  { change 63 with (Z.ones 6). rewrite Z.land_ones by lia. change (2 ^ 6) with 64. euclid. }
  replace (Z.of_nat o + 2) with (Z.of_nat (o + 2)) by lia.
  replace (Z.shiftl h 8 ||| Z.of_nat t mod 256) with (Z.of_nat t); [done|].
  rewrite Z.lor_comm, lor_shiftl_add; [|done|change (2 ^ 8) with 256; euclid].
  change (2 ^ 8) with 256. unfold h. euclid.
Qed.

(** The string built by [pull_components] from [name] on. *)
Fixpoint join_from (name : option (list Z)) (comps : list (list Z)) : option (list Z) :=
  match comps with
  | [] => name
  | c :: rest =>
      join_from (Some (match name with Some s => s ++ 46 :: c | None => c end)) rest
  end.

Lemma pull_components_reads o comps e m :
  reads buf o comps e m -> forall n name max, (length comps < n)%nat ->
  pull_components n name (Z.of_nat o) max r =
    (Ok (join_from name comps, Z.max max (Z.of_nat m)), r).
Proof.
  induction 1 as [o Hb|o c rest e m Hc Hb Hr IH|o t c rest e m Ht Hb Hc Hb' Hr IH];
    intros [|n] name max Hn; try (simpl in Hn; lia); cbn [pull_components]; unfold Ndr_bind at 1.
  - cbn [ndr_pull_component]. unfold Ndr_bind at 1, Ndr_get at 1.
    pose proof (bytes_at_length _ _ _ Hb ltac:(done)) as Hl. simpl in Hl.
    rewrite Hsize, Hdata. destruct (Z.leb_spec (Z.of_nat (length buf)) (Z.of_nat o)); [lia|].
    pose proof (bytes_at_CVAL _ _ 0 _ Hb eq_refl) as H0. rewrite Nat.add_0_r in H0.
    unfold Ndr_bind at 1, Ndr_mem at 1, st_ret at 1. rewrite H0. simpl (0 =? 0). cbv iota.
    rewrite u32_small by lia. unfold Ndr_ret, st_ret. simpl. do 4 f_equal. lia.
  - apply reads_progress in Hr as Hp. rewrite (pull_label 4 _ _ c) by (done || lia).
    cbv iota beta. rewrite IH by (simpl in Hn; lia). simpl. do 3 f_equal. lia.
  - apply reads_progress in Hr as Hp. rewrite (pull_pointer 4 _ t) by done.
    rewrite (pull_label 3 _ _ c) by (done || lia).
    cbv iota beta. rewrite IH by (simpl in Hn; lia). cbn [join_from].
    match goal with |- (Ok (_, ?a), _) = (Ok (_, ?b), _) => replace b with a by lia end. done.
Qed.
End pulling.

Lemma join_from_Some s comps :
  join_from (Some s) comps = Some (match comps with [] => s | _ => s ++ 46 :: join_dots comps end).
Proof.
  revert s. induction comps as [|c rest IH]; intros s; simpl; [done|].
  rewrite IH. destruct rest; [done|]. by rewrite <- app_assoc.
Qed.

Lemma join_from_None comps : default [] (join_from None comps) = join_dots comps.
Proof. destruct comps as [|c rest]; [done|]. simpl. rewrite join_from_Some. by destruct rest. Qed.

Lemma span_dot_label c s : label_ok c -> span_dot (c ++ 46 :: s) = (c, 46 :: s).
Proof.
  intros [_ Hc]. induction Hc as [|b c Hb Hc IH]; [done|]. simpl.
  destruct (Z.eqb_spec b 46); [lia|]. by rewrite IH.
Qed.

Lemma span_dot_last c : label_ok c -> span_dot c = (c, []).
Proof.
  intros [_ Hc]. induction Hc as [|b c Hb Hc IH]; [done|]. simpl.
  destruct (Z.eqb_spec b 46); [lia|]. by rewrite IH.
Qed.

Lemma span_dot_join c rest :
  label_ok c -> span_dot (join_dots (c :: rest)) =
    (c, match rest with [] => [] | _ => 46 :: join_dots rest end).
Proof. intros Hc. destruct rest; [by apply span_dot_last|by apply span_dot_label]. Qed.

Lemma join_dots_inj l1 l2 :
  Forall label_ok l1 -> Forall label_ok l2 -> join_dots l1 = join_dots l2 -> l1 = l2.
Proof.
  intros H1. revert l2. induction H1 as [|c1 l1 Hc1 H1 IH]; intros l2 H2 Heq.
  - destruct H2 as [|c2 l2 Hc2 H2]; [done|].
    pose proof (span_dot_join c2 l2 Hc2) as Hs. rewrite <- Heq in Hs. simpl in Hs.
    injection Hs as <- _. destruct Hc2 as [[Hc2 _] _]. simpl in Hc2. lia.
  - destruct H2 as [|c2 l2 Hc2 H2].
    + pose proof (span_dot_join c1 l1 Hc1) as Hs. rewrite Heq in Hs. simpl in Hs.
      injection Hs as <- _. destruct Hc1 as [[Hc1 _] _]. simpl in Hc1. lia.
    + pose proof (span_dot_join c1 l1 Hc1) as Hs. rewrite Heq, span_dot_join in Hs by done.
      injection Hs as -> Hr. f_equal. destruct l1, l2; try done.
      injection Hr as Hr. by apply IH.
Qed.

(** A token is good when the bytes pushed so far have its string at its
    offset, as a label, within their bounds. *)
Definition tok_ok (buf : list Z) (t : ndr_token (list Z)) : Prop :=
  exists o c rest e m, tok_value t = Z.of_nat o /\ Z.of_nat o < 16384 /\
    Forall label_ok (c :: rest) /\ tok_key t = join_dots (c :: rest) /\
    bytes_at buf o (label c) /\ reads buf (o + 1 + length c) rest e m /\ (m <= length buf)%nat.

Lemma tok_ok_extend buf ext t : tok_ok buf t -> tok_ok (buf ++ ext) t.
Proof.
  intros (o & c & rest & e & m & ? & ? & ? & ? & ? & ? & ?). exists o, c, rest, e, m.
  rewrite length_app. split_and!; try done; [by apply bytes_at_extend|by apply reads_extend|lia].
Qed.

Lemma length_ndr_push_blob w : ps_wf w -> length (ndr_push_blob w) = Z.to_nat (ps_offset w).
Proof.
  intros [[? ?] _]. unfold ndr_push_blob, ps_alloc_size in *. rewrite length_take. lia.
Qed.

(** [ndr_push_bytes] in terms of the bytes pushed so far. *)
Lemma push_bytes_eq bs w :
  ps_wf w -> ps_offset w + Z.of_nat (length bs) <= 32768 ->
  exists w', ndr_push_bytes bs (Z.of_nat (length bs)) w = (Ok tt, w') /\ ps_wf w' /\
    ndr_push_blob w' = ndr_push_blob w ++ bs /\ ps_nbt_string_list w' = ps_nbt_string_list w /\
    ps_offset w' = ps_offset w + Z.of_nat (length bs).
Proof.
  intros Hw Ho. destruct (emits_bytes any bs w I Hw) as (d & E & Hw' & T).
  - unfold flen, e_const, NDR_LIMIT, MAX_TALLOC_SIZE, NDR_BASE_MARSHALL_SIZE. lia.
  - eexists. split; [exact E|]. by split_and!.
Qed.

Lemma retrieve_skip {K} (cur old : list (ndr_token K)) key cmp :
  Forall (fun t => cmp (tok_key t) key = false) cur ->
  match ndr_token_retrieve_cmp_fn (cur ++ old) key cmp false with
  | inr (v, _) => exists t, t ∈ old /\ cmp (tok_key t) key = true /\ tok_value t = v
  | inl _ => True
  end.
Proof.
  induction 1 as [|t cur Ht Hcur IH]; simpl.
  - induction old as [|t old IH]; simpl; [done|]. destruct (cmp (tok_key t) key) eqn:E.
    + exists t. split; [by left|done].
    + destruct (ndr_token_retrieve_cmp_fn old key cmp false) as [|[v l]]; [done|].
      destruct IH as (t' & ? & ?). exists t'. split; [by right|done].
  - rewrite Ht. by destruct (ndr_token_retrieve_cmp_fn (cur ++ old) key cmp false) as [|[v l]].
Qed.

Lemma pointer_bytes t : 0 <= t < 16384 ->
  [u8 (192 ||| Z.shiftr t 8); Z.land t 255] = [192 + t / 256; t mod 256].
Proof.
  intros Ht. rewrite land_255, Z.shiftr_div_pow2 by lia. change (2 ^ 8) with 256.
  set (h := t / 256). assert (0 <= h < 64) by (unfold h; euclid).
  assert (192 ||| h = 192 + h) as ->.
  { change 192 with (Z.shiftl 3 6) at 1. rewrite Z.lor_comm, lor_shiftl_add; [|done|].
    - change (2 ^ 6) with 64. lia.
    - change (2 ^ 6) with 64. lia. }
  f_equal. apply Z.mod_small. lia.
Qed.

Lemma ps_wf_set_list w l : ps_wf w -> ps_wf (ps_set_nbt_string_list w l).
Proof. done. Qed.

(** The room for a string of components. *)
Definition need (comps : list (list Z)) : nat :=
  match comps with [] => 1 | _ => length (join_dots comps) + 2 end.

(** Pushing the string of good components: it is read back from where it was
    pushed, and the tokens stay good. *)
Lemma push_components_ok comps : forall fuel w cur old,
  Forall label_ok comps -> (length (join_dots comps) <= fuel)%nat -> ps_wf w ->
  ps_nbt_string_list w = cur ++ old -> Forall (tok_ok (ndr_push_blob w)) old ->
  Forall (fun t => (length (join_dots comps) < length (tok_key t))%nat) cur ->
  ps_offset w + Z.of_nat (need comps) <= 16384 ->
  exists w' bs new, push_components fuel (join_dots comps) w = (Ok tt, w') /\ ps_wf w' /\
    ndr_push_blob w' = ndr_push_blob w ++ bs /\ (length bs <= need comps)%nat /\
    ps_nbt_string_list w' = new ++ cur ++ old /\ Forall (tok_ok (ndr_push_blob w')) new /\
    reads (ndr_push_blob w') (length (ndr_push_blob w)) comps
      (length (ndr_push_blob w')) (length (ndr_push_blob w')).
Proof.
  induction comps as [|c rest IH]; intros fuel w cur old Hc Hf Hw Hlist Hold Hcur Hl;
    pose proof (length_ndr_push_blob w Hw) as Hlen; pose proof (proj1 (proj1 Hw)) as Hpos.
  - destruct (push_bytes_eq [0] w Hw) as (w' & E & Hw' & Hb & Hl' & Ho'); [simpl in *; lia|].
    exists w', [0], []. simpl. split; [by destruct fuel|]. split_and!; try done.
    + by rewrite Hl'.
    + rewrite Hb, length_app. apply reads_end. unfold bytes_at. by rewrite drop_app_length.
  - apply Forall_cons in Hc as [Hc Hrest]. pose proof Hc as [[Hc1 Hc2] _].
    set (s := join_dots (c :: rest)) in *.
    assert (length s = length c + match rest with [] => 0 | _ => 1 + length (join_dots rest) end)%nat
      as Hs by (unfold s; destruct rest; [simpl; lia|cbn [join_dots]; rewrite length_app; done]).
    destruct fuel as [|fuel]; [lia|].
    assert (push_components (S fuel) s w = (try ndr <- Ndr_get;
          match ndr_token_retrieve_cmp_fn (ps_nbt_string_list ndr) s byte_eqb false with
          | inr (offset, _) =>
              if 16383 <? offset then ndr_push_error NDR_ERR_STRING
              else ndr_push_bytes [u8 (192 ||| Z.shiftr offset 8); Z.land offset 255] 2
          | inl _ =>
              let '(compname, rest) := span_dot s in
              let complen := Z.of_nat (length compname) in
              if 63 <=? complen then ndr_push_error NDR_ERR_STRING
              else
                try! store_nbt_string s;
                try! ndr_push_bytes (complen :: compname) (complen + 1);
                push_components fuel (match rest with 46 :: s => s | s => s end)
          end) w) as -> by (destruct s; [simpl in Hs; lia|done]).
    unfold Ndr_bind at 1, Ndr_get. rewrite Hlist.
    pose proof (retrieve_skip cur old s byte_eqb) as Hr.
    destruct (ndr_token_retrieve_cmp_fn (cur ++ old) s byte_eqb false) as [err|[v l]].
    + unfold s at 1. rewrite span_dot_join by done. cbv beta iota zeta.
      destruct (Z.leb_spec 63 (Z.of_nat (length c))); [lia|].
      unfold Ndr_bind at 1, store_nbt_string, Ndr_modify.
      set (tok := mk_token s (ps_offset w)).
      destruct (push_bytes_eq (label c) (ps_set_nbt_string_list w
                  (ndr_token_store (ps_nbt_string_list w) s (ps_offset w))))
        as (w1 & E1 & Hw1 & Hb1 & Hl1 & Ho1); [done|unfold label, need in *; fold s in Hl; simpl; lia|].
      unfold Ndr_bind at 1. replace (Z.of_nat (length c) + 1) with (Z.of_nat (length (label c)))
        by (unfold label; simpl; lia).
      fold (label c). rewrite E1.
      change (ndr_push_blob (ps_set_nbt_string_list w _)) with (ndr_push_blob w) in Hb1.
      change (ps_nbt_string_list (ps_set_nbt_string_list w _))
        with (tok :: ps_nbt_string_list w) in Hl1.
      change (ps_offset (ps_set_nbt_string_list w _)) with (ps_offset w) in Ho1.
      assert (length (join_dots rest) < length s)%nat as Hlt
        by (destruct rest; [simpl; lia|lia]).
      assert (length (label c) = S (length c)) as Hlab by done.
      destruct (IH fuel w1 (tok :: cur) old Hrest) as (w' & bs & new & E & Hw' & Hb & Hbl & Hlist' & Hnew & Hreads).
      * lia.
      * done.
      * by rewrite Hl1, Hlist.
      * rewrite Hb1. eapply Forall_impl; [exact Hold|]. intros t. apply tok_ok_extend.
      * apply Forall_cons. split; [done|]. eapply Forall_impl; [exact Hcur|]. simpl. lia.
      * rewrite Ho1. unfold need in *. fold s in Hl. destruct rest; cbn [length] in *; lia.
      * exists w', (label c ++ bs), (new ++ [tok]).
        rewrite Hb1, length_app in Hreads.
        replace (length (ndr_push_blob w) + length (label c))%nat
          with (length (ndr_push_blob w) + 1 + length c)%nat in Hreads by lia.
        assert (bytes_at (ndr_push_blob w') (length (ndr_push_blob w)) (label c)) as Hat.
        { rewrite Hb, Hb1, <- app_assoc. unfold bytes_at.
          by rewrite drop_app_length, take_app_length. }
        split; [destruct rest; exact E|]. split; [done|].
        split; [by rewrite Hb, Hb1, app_assoc|].
        split; [rewrite length_app; unfold need in *; fold s; destruct rest; cbn [length] in *; lia|].
        split; [by rewrite <- app_assoc|]. split.
        -- apply Forall_app. split; [done|]. apply Forall_cons. split; [|constructor].
           exists (length (ndr_push_blob w)), c, rest, (length (ndr_push_blob w')),
             (length (ndr_push_blob w')).
           assert (Z.of_nat (length (ndr_push_blob w)) = ps_offset w) as Hofs by lia.
           split_and!; [done|unfold need in Hl; lia|by apply List.Forall_cons|done..].
        -- by apply reads_label.
    + assert (Forall (fun t => byte_eqb (tok_key t) s = false) cur) as Hne.
      { eapply Forall_impl; [exact Hcur|]. intros t Ht. apply bool_decide_false.
        intros Heq. cbv beta in Ht. rewrite Heq in Ht. lia. }
      destruct (Hr Hne) as (t & Ht & Hkey & Hv). apply bool_decide_eq_true in Hkey.
      rewrite Forall_forall in Hold.
      destruct (Hold t Ht) as (o & c' & rest' & e & m & Hto & Hsm & Hlc & Htk & Hat & Hrd & Hm).
      rewrite Hkey in Htk. unfold s in Htk.
      apply join_dots_inj in Htk; [|by apply Forall_cons|done]. injection Htk as <- <-.
      rewrite Hto in Hv. subst v. destruct (Z.ltb_spec 16383 (Z.of_nat o)); [lia|].
      rewrite pointer_bytes by lia.
      destruct (push_bytes_eq [192 + Z.of_nat o / 256; Z.of_nat o mod 256] w Hw)
        as (w' & E & Hw' & Hb & Hl' & Ho'); [unfold need in Hl; simpl; lia|].
      exists w', [192 + Z.of_nat o / 256; Z.of_nat o mod 256], [].
      split; [exact E|]. split_and!; try done.
      * simpl. lia.
      * by rewrite Hl'.
      * rewrite Hb, length_app. simpl length.
        replace (length (ndr_push_blob w) + 2)%nat
          with ((length (ndr_push_blob w) + 2) `max` m)%nat at 2 by lia.
        eapply reads_pointer; [exact Hsm| |done| |].
        -- unfold bytes_at. by rewrite drop_app_length.
        -- by apply bytes_at_extend.
        -- by apply reads_extend.
Qed.

(** A name that can be written: at most 15 bytes without trailing space, a
    type below 128, a scope of at most 8 components. *)
Definition scope_comps_ok (scope : option (list Z)) (comps : list (list Z)) : Prop :=
  Forall label_ok comps /\ (length comps <= 8)%nat /\
  match scope with
  | None => comps = []
  | Some s => comps <> [] /\ s = join_dots comps
  end.

Definition name_ok (n : nbt_name) : Prop :=
  (length (nm_name n) <= 15)%nat /\ Forall (fun c => 0 < c < 256) (nm_name n) /\
  trim_back (nm_name n) = nm_name n /\ 0 <= nm_type n < 128 /\
  exists comps, scope_comps_ok (nm_scope n) comps.

(** The room a name takes at most. *)
Definition name_room (n : nbt_name) : nat := 35 + length (default [] (nm_scope n)).

Lemma trim_back_pad s k : trim_back (s ++ replicate k 32) = trim_back s.
Proof.
  induction k as [|k IH]; [by rewrite app_nil_r|].
  rewrite replicate_S_end, app_assoc, trim_back_snoc. exact IH.
Qed.

Definition pad_char (name : list Z) : Z := if byte_eqb name [42] then 0 else 32.

Lemma cstr_trim_padded name :
  nonzero name -> trim_back name = name ->
  cstr (trim_back (name ++ replicate (15 - length name) (pad_char name))) = name.
Proof.
  intros Hn Ht. unfold pad_char, byte_eqb. case_bool_decide as He.
  - by rewrite He.
  - by rewrite trim_back_pad, Ht, cstr_nonzero.
Qed.

Lemma compress_label cname name type :
  compress_name name type = Some cname -> bytes_ok name -> label_ok cname /\ length cname = 32%nat.
Proof.
  unfold compress_name. destruct (Nat.ltb_spec 15 (length name)) as [|Hl]; [done|].
  intros [= <-] Hb. fold (pad_char name).
  set (l := name ++ replicate (15 - length name) (pad_char name) ++ [u8 type]).
  assert (length l = 16%nat) as Hlen.
  { unfold l. rewrite !length_app, length_replicate. simpl. lia. }
  assert (bytes_ok l) as Hlb.
  { unfold l. apply Forall_app. split; [done|]. apply Forall_app. split.
    - apply Forall_replicate. unfold pad_char. destruct (byte_eqb _ _); lia.
    - repeat constructor; apply u8_range. }
  assert (length (List.flat_map compress_char l) = 32%nat) as H32.
  { replace 32%nat with (2 * length l)%nat by lia. clear. induction l as [|c l IH]; [done|].
    cbn [List.flat_map compress_char app length]. rewrite IH. lia. }
  split; [|done]. split; [lia|]. clear -Hlb. induction Hlb as [|c l Hc Hl IH]; [constructor|].
  cbn [List.flat_map compress_char app].
  rewrite Z.shiftr_div_pow2 by lia. change 15 with (Z.ones 4). rewrite Z.land_ones by lia.
  change (2 ^ 4) with 16. repeat apply List.Forall_cons; [euclid|euclid|done].
Qed.

(** Decompression undoes compression. *)
Lemma name_of_string_compressed n cname comps :
  name_ok n -> compress_name (nm_name n) (nm_type n) = Some cname ->
  scope_comps_ok (nm_scope n) comps ->
  name_of_string (join_dots (cname :: comps)) = Ok n.
Proof.
  intros (Hl & Hb & Ht & Hty & _) Hc (Hcs & _ & Hscope).
  assert (bytes_ok (nm_name n)) as Hbytes by (eapply Forall_impl; [exact Hb|simpl; lia]).
  assert (nonzero (nm_name n)) as Hnz by (eapply Forall_impl; [exact Hb|simpl; lia]).
  destruct (compress_label _ _ _ Hc Hbytes) as [Hlab H32].
  unfold name_of_string. rewrite span_dot_join by done. rewrite H32. simpl (32 <? 32)%nat.
  cbv iota. pose proof (decompress_name_spec cname) as Hd.
  unfold compress_name in Hc. destruct (Nat.ltb_spec 15 (length (nm_name n))); [lia|].
  injection Hc as Hc. fold (pad_char (nm_name n)) in Hc. rewrite <- Hc in Hd at 2.
  rewrite decode_compress in Hd.
  2:{ apply Forall_app. split; [done|]. apply Forall_app. split.
      - apply Forall_replicate. unfold pad_char. destruct (byte_eqb _ _); lia.
      - repeat constructor; apply u8_range. }
  destruct Hd as (buf & -> & ->).
  { eapply Forall_impl; [exact (proj2 Hlab)|simpl; lia]. }
  unfold decompressed. rewrite !length_app, length_replicate. simpl length.
  replace (length (nm_name n) + (15 - length (nm_name n) + 1))%nat with 16%nat by lia.
  simpl (16 =? 16)%nat. cbv iota. cbn [fst snd].
  rewrite app_assoc, take_app_le, firstn_all2 by (rewrite length_app, length_replicate; lia).
  rewrite cstr_trim_padded by done.
  rewrite lookup_app_r by (rewrite length_app, length_replicate; lia).
  rewrite length_app, length_replicate.
  replace (15 - (length (nm_name n) + (15 - length (nm_name n))))%nat with 0%nat by lia.
  simpl. assert (u32 (s8 (u8 (nm_type n))) = nm_type n) as ->.
  { unfold u32, s8, u8. rewrite (Z.mod_small (nm_type n)) by lia.
    rewrite (Z.mod_small (_ + _)) by lia. rewrite Z.mod_small; lia. }
  destruct n as [nm sc ty]. simpl in *. destruct sc as [s|].
  - destruct Hscope as [Hne ->]. by destruct comps.
  - by rewrite Hscope.
Qed.

(** Pushing names one after the other. *)
Definition push_names : list nbt_name -> Push unit := push_seq (ndr_push_nbt_name NDR_SCALARS).
Definition pull_names : list nbt_name -> Pull (list (option nbt_name)) :=
  fix pull_names like :=
    match like with
    | [] => Ndr_ret []
    | _ :: like =>
        try n <- ndr_pull_nbt_name NDR_SCALARS;
        try l <- pull_names like;
        Ndr_ret (n :: l)
    end.

(** The names are in [buf] from [o] on, up to its end. *)
Inductive names_at (buf : list Z) : nat -> list nbt_name -> Prop :=
  | names_at_end : names_at buf (length buf) []
  | names_at_cons o n cname comps e names :
      name_ok n -> compress_name (nm_name n) (nm_type n) = Some cname ->
      scope_comps_ok (nm_scope n) comps -> label_ok cname ->
      reads buf o (cname :: comps) e e -> names_at buf e names ->
      names_at buf o (n :: names).

Lemma push_name_ok n w :
  name_ok n -> ps_wf w -> Forall (tok_ok (ndr_push_blob w)) (ps_nbt_string_list w) ->
  ps_offset w + Z.of_nat (name_room n) <= 16384 ->
  exists w' bs cname comps, ndr_push_nbt_name NDR_SCALARS n w = (Ok tt, w') /\ ps_wf w' /\
    ndr_push_blob w' = ndr_push_blob w ++ bs /\ (length bs <= name_room n)%nat /\
    Forall (tok_ok (ndr_push_blob w')) (ps_nbt_string_list w') /\
    compress_name (nm_name n) (nm_type n) = Some cname /\ scope_comps_ok (nm_scope n) comps /\
    label_ok cname /\
    reads (ndr_push_blob w') (length (ndr_push_blob w)) (cname :: comps)
      (length (ndr_push_blob w')) (length (ndr_push_blob w')).
Proof.
  intros Hn Hw Htok Hl. pose proof Hn as (Hlen & Hb & _ & _ & comps & Hcomps).
  assert (bytes_ok (nm_name n)) as Hbytes by (eapply Forall_impl; [exact Hb|simpl; lia]).
  destruct (compress_name (nm_name n) (nm_type n)) as [cname|] eqn:Hc.
  2:{ unfold compress_name in Hc. destruct (Nat.ltb_spec 15 (length (nm_name n))); [lia|done]. }
  destruct (compress_label _ _ _ Hc Hbytes) as [Hlab H32].
  pose proof Hcomps as (Hcl & _ & Hscope).
  set (full := join_dots (cname :: comps)).
  assert (match nm_scope n with Some scope => cname ++ 46 :: scope | None => cname end = full) as Hfull.
  { unfold full. destruct (nm_scope n) as [s|].
    - destruct Hscope as [Hne ->]. by destruct comps.
    - by rewrite Hscope. }
  assert (length full + 2 <= name_room n)%nat as Hroom.
  { rewrite <- Hfull. unfold name_room. destruct (nm_scope n) as [s|]; simpl;
      rewrite ?length_app; simpl; lia. }
  destruct (push_components_ok (cname :: comps) (length full) w [] (ps_nbt_string_list w))
    as (w' & bs & new & E & Hw' & Hblob & Hbl & Hlist & Hnew & Hreads);
    [by apply List.Forall_cons|done|done|done|done|constructor|unfold need; fold full; lia|].
  exists w', bs, cname, comps. unfold ndr_push_nbt_name, ndr_push_nbt_string.
  change (negb (NDR_SCALARS &? NDR_SCALARS)) with false. cbv iota.
  destruct (Nat.ltb_spec 15 (length (nm_name n))); [lia|]. rewrite Hc, Hfull.
  split_and!; try done.
  - unfold need in Hbl. fold full in Hbl. lia.
  - rewrite Hlist. apply Forall_app. split; [done|]. rewrite Hblob.
    eapply Forall_impl; [exact Htok|]. intros t. apply tok_ok_extend.
Qed.

Lemma push_names_ok names : forall w,
  Forall name_ok names -> ps_wf w -> Forall (tok_ok (ndr_push_blob w)) (ps_nbt_string_list w) ->
  ps_offset w + Z.of_nat (list_sum (List.map name_room names)) <= 16384 ->
  exists w' bs, push_names names w = (Ok tt, w') /\ ps_wf w' /\
    ndr_push_blob w' = ndr_push_blob w ++ bs /\ Z.of_nat (length (ndr_push_blob w')) <= 16384 /\
    names_at (ndr_push_blob w') (length (ndr_push_blob w)) names.
Proof.
  induction names as [|n names IH]; intros w Hn Hw Htok Hl;
    pose proof (length_ndr_push_blob w Hw) as Hlen; pose proof (proj1 (proj1 Hw)) as Hpos.
  - exists w, []. rewrite app_nil_r. split; [done|]. split_and!; [done|done|simpl in Hl; lia|].
    apply names_at_end.
  - apply Forall_cons in Hn as [Hn Hns]. cbn [List.map list_sum foldr] in Hl.
    destruct (push_name_ok n w Hn Hw Htok) as
      (w1 & bs1 & cname & comps & E1 & Hw1 & Hb1 & Hbl & Htok1 & Hc & Hcomps & Hlab & Hreads);
      [lia|].
    pose proof (length_ndr_push_blob w1 Hw1) as Hlen1. pose proof (proj1 (proj1 Hw1)) as Hpos1.
    pose proof (f_equal length Hb1) as Hb1l. rewrite length_app in Hb1l.
    destruct (IH w1 Hns Hw1 Htok1) as (w' & bs & E & Hw' & Hb & Hle & Hnames);
      [unfold list_sum; lia|].
    exists w', (bs1 ++ bs). unfold push_names. cbn [push_seq]. unfold Ndr_bind. rewrite E1.
    split; [exact E|]. split; [done|]. split; [by rewrite Hb, Hb1, app_assoc|]. split; [done|].
    eapply names_at_cons; try done. rewrite Hb. by apply reads_extend.
Qed.

Lemma pull_names_ok buf names o : names_at buf o names -> forall r,
  pl_data r = buf -> pl_data_size r = Z.of_nat (length buf) -> Z.of_nat (length buf) < 2 ^ 31 ->
  pl_offset r = Z.of_nat o ->
  pull_names names r = (Ok (List.map Some names), pl_set_offset r (Z.of_nat (length buf))).
Proof.
  induction 1 as [|o n cname comps e names Hn Hc Hcomps Hlab Hreads Hnames IH];
    intros r Hd Hs Hl Ho.
  - simpl. unfold Ndr_ret, st_ret. rewrite <- Ho. by destruct r.
  - cbn [pull_names List.map]. pose proof Hcomps as (Hcl & Hc8 & _).
    pose proof (pull_components_reads buf r Hd Hs Hl _ _ _ _ Hreads MAX_COMPONENTS None
                  (Z.of_nat o)) as E.
    unfold MAX_COMPONENTS in E at 1. apply reads_progress in Hreads as Hp.
    rewrite Z.max_r in E by lia. rewrite <- Ho in E at 1 2.
    specialize (E ltac:(simpl; lia)). fold MAX_COMPONENTS in E.
    unfold Ndr_bind. rewrite (ndr_pull_nbt_name_eq _ _ _ (ndr_pull_nbt_string_eq _ _ _ E)).
    rewrite join_from_None, (name_of_string_compressed n) by done.
    rewrite IH by done. done.
Qed.

(** C15: names pushed one after the other into a packet, with label pointers
    wherever a name ends like an earlier one, are parsed back from the packet,
    each with its scope and type, and parsing ends at its end. *)
Theorem nbt_names_roundtrip names :
  Forall name_ok names -> Z.of_nat (list_sum (List.map name_room names)) <= 16384 ->
  exists w, push_names names (ps_start 0) = (Ok tt, w) /\
    let blob := ndr_push_blob w in
    pull_names names (pl_start 0 blob) =
      (Ok (List.map Some names), pl_set_offset (pl_start 0 blob) (Z.of_nat (length blob))).
Proof.
  intros Hn Hl.
  destruct (push_names_ok names (ps_start 0) Hn (ps_start_wf 0)) as (w & bs & E & Hw & _ & Hle & Hnames);
    [constructor|exact Hl|].
  exists w. split; [exact E|]. cbv zeta.
  assert (Z.of_nat (length (ndr_push_blob w)) < 2 ^ 31) as Hsm.
  { pose proof (length_ndr_push_blob w Hw). lia. }
  apply (pull_names_ok _ _ _ Hnames); try done.
  simpl. apply u32_small. lia.
Qed.

(** A packet with two names in one scope, and a pointer that goes forward. *)
Definition FRED : list Z := [70; 82; 69; 68].
Definition sample_names : list nbt_name :=
  [mk_name FRED (Some [65; 66; 46; 67]) 32; mk_name [42] None 0;
   mk_name [74] (Some [65; 66; 46; 67]) 27].

Lemma nbt_names_roundtrip_witness :
  let w := (push_names sample_names (ps_start 0)).2 in
  length (ndr_push_blob w) = 108%nat /\ drop 104 (ndr_push_blob w) = [66; 76; 192; 33] /\
  pull_names sample_names (pl_start 0 (ndr_push_blob w)) =
    (Ok (List.map Some sample_names), pl_set_offset (pl_start 0 (ndr_push_blob w)) 108).
Proof.
  split; [vm_compute; reflexivity|]. split; [vm_compute; reflexivity|].
  assert (scope_comps_ok (Some [65; 66; 46; 67]) [[65; 66]; [67]]) as Hs.
  { split_and!; simpl; try done; try lia.
    repeat apply List.Forall_cons; try apply List.Forall_nil; split; simpl; try lia;
      repeat apply List.Forall_cons; try apply List.Forall_nil; lia. }
  destruct (nbt_names_roundtrip sample_names) as (w & E & H).
  - repeat apply List.Forall_cons; try apply List.Forall_nil; split_and!; simpl; try done; try lia;
      try (repeat apply List.Forall_cons; try apply List.Forall_nil; lia);
      [by exists [[65; 66]; [67]]| |by exists [[65; 66]; [67]]].
    exists []. by split_and!; [constructor|simpl; lia|].
  - simpl. lia.
  - rewrite E. cbn [snd]. cbv zeta in H.
    replace (Z.of_nat (length (ndr_push_blob w))) with 108 in H; [exact H|].
    apply (f_equal snd) in E. cbn [snd] in E. rewrite <- E. vm_compute. reflexivity.
Defined.

(** A packet of a single pointer to itself is refused; a reply with a good
    name is parsed. *)
Lemma ndr_pull_nbt_name_safe_witness :
  (ndr_pull_nbt_name NDR_SCALARS (pl_start 0 [192; 0])).1 = Err NT_STATUS_BAD_NETWORK_NAME /\
  (NT_STATUS_BAD_NETWORK_NAME = NT_STATUS_BAD_NETWORK_NAME).
Proof.
  split; [vm_compute; reflexivity|].
  assert (pl_wf (pl_start 0 [192; 0])) as Hr.
  { apply pl_start_wf; [repeat constructor; lia|vm_compute; reflexivity|reflexivity]. }
  exact (ndr_pull_nbt_name_safe (pl_start 0 [192; 0]) Hr).
Defined.

(** ** The text form determines the name *)

(** The value of hexadecimal digits. *)
Definition unhex (c : Z) : Z := if c <? 58 then c - 48 else c - 87.
Definition from_hex (l : list Z) : Z := fold_left (fun a c => 16 * a + unhex c) l 0.

Lemma unhex_digit d : 0 <= d < 16 -> unhex (hex_digit d) = d.
Proof.
  intros Hd. unfold unhex, hex_digit. destruct (Z.ltb_spec d 10).
  - destruct (Z.ltb_spec (48 + d) 58); lia.
  - destruct (Z.ltb_spec (87 + d) 58); lia.
Qed.

Lemma hex_digits_value fuel : forall v acc,
  0 <= v < 16 ^ Z.of_nat fuel ->
  fold_left (fun a c => 16 * a + unhex c) (hex_digits fuel v acc) 0 =
  fold_left (fun a c => 16 * a + unhex c) acc v.
Proof.
  induction fuel as [|fuel IH]; intros v acc Hv.
  - simpl. replace v with 0 by (simpl in Hv; lia). done.
  - rewrite Nat2Z.inj_succ, Z.pow_succ_r in Hv by lia. cbn [hex_digits].
    pose proof (Z.mod_pos_bound v 16 ltac:(lia)).
    destruct (Z.ltb_spec v 16).
    + rewrite (Z.mod_small v 16) by lia. cbn [fold_left]. by rewrite unhex_digit by lia.
    + rewrite IH by (split; [apply Z.div_pos; lia|apply Z.div_lt_upper_bound; lia]).
      cbn [fold_left]. rewrite unhex_digit by lia. f_equal. pose proof (Z.div_mod v 16). lia.
Qed.

Lemma from_hex_print_02x v : 0 <= v < 2 ^ 32 -> from_hex (print_02x v) = v.
Proof.
  intros Hv. assert (from_hex (hex_digits 8 v []) = v) as H
    by (unfold from_hex; rewrite hex_digits_value by (simpl; lia); done).
  unfold print_02x. cbv zeta. destruct (_ <? _)%nat; [|done].
  unfold from_hex in *. cbn [fold_left]. exact H.
Qed.

(** Digits are not among the separators. *)
Lemma hex_digits_clean fuel : forall v acc,
  Forall (fun c => c <> 60 /\ c <> 62 /\ c <> 37) acc -> 0 <= v ->
  Forall (fun c => c <> 60 /\ c <> 62 /\ c <> 37) (hex_digits fuel v acc).
Proof.
  induction fuel as [|fuel IH]; intros v acc Ha Hv; [done|]. cbn [hex_digits].
  assert (Forall (fun c => c <> 60 /\ c <> 62 /\ c <> 37) (hex_digit (v mod 16) :: acc)) as H.
  { apply List.Forall_cons; [|done]. pose proof (Z.mod_pos_bound v 16 ltac:(lia)).
    unfold hex_digit. destruct (Z.ltb_spec (v mod 16) 10); lia. }
  destruct (v <? 16); [done|]. apply IH; [done|]. apply Z.div_pos; lia.
Qed.

Lemma print_02x_clean v :
  0 <= v -> Forall (fun c => c <> 60 /\ c <> 62 /\ c <> 37) (print_02x v).
Proof.
  intros Hv. unfold print_02x. cbv zeta. destruct (_ <? _)%nat; [apply List.Forall_cons; [lia|]|];
    apply hex_digits_clean; by try constructor.
Qed.

(** A byte takes two digits. *)
Lemma print_02x_byte c :
  0 <= c < 256 -> print_02x c = [hex_digit (c / 16); hex_digit (c mod 16)].
Proof.
  intros Hc. unfold print_02x. cbv zeta. cbn [hex_digits].
  destruct (Z.ltb_spec c 16).
  - simpl. by rewrite Z.div_small by lia.
  - assert (c / 16 < 16) by (apply Z.div_lt_upper_bound; lia).
    assert (0 <= c / 16) by (apply Z.div_pos; lia).
    replace (c / 16 <? 16) with true by (symmetry; apply Z.ltb_lt; lia). simpl.
    by rewrite (Z.mod_small (c / 16)) by lia.
Qed.

Lemma NBT_CHAR_ALLOW_clean c : NBT_CHAR_ALLOW c = true -> c <> 37 /\ c <> 60.
Proof.
  intros H. split; intros ->; vm_compute in H; discriminate.
Qed.

(** The reader of the escaped form. *)
Fixpoint nbt_hex_decode (l : list Z) : list Z :=
  match l with
  | 37 :: a :: b :: l => 16 * unhex a + unhex b :: nbt_hex_decode l
  | c :: l => c :: nbt_hex_decode l
  | [] => []
  end.

Lemma nbt_hex_decode_plain c l : c <> 37 -> nbt_hex_decode (c :: l) = c :: nbt_hex_decode l.
Proof.
  intros Hc. destruct c as [|p|p]; try done.
  do 6 (destruct p as [p|p|]; try done).
Qed.

Lemma nbt_hex_decode_encode s : bytes_ok s -> nbt_hex_decode (nbt_hex_encode s) = s.
Proof.
  induction 1 as [|c s Hc Hs IH]; [done|]. cbn [nbt_hex_encode].
  destruct (NBT_CHAR_ALLOW c) eqn:E.
  - apply NBT_CHAR_ALLOW_clean in E as [Hn _]. by rewrite nbt_hex_decode_plain, IH.
  - rewrite print_02x_byte by done. cbn [app nbt_hex_decode]. rewrite IH. f_equal.
    pose proof (Z.mod_pos_bound c 16 ltac:(lia)).
    rewrite (unhex_digit (c mod 16)) by done.
    rewrite unhex_digit by (split; [apply Z.div_pos; lia|apply Z.div_lt_upper_bound; lia]).
    pose proof (Z.div_mod c 16 ltac:(lia)) as Hd. symmetry. exact Hd.
Qed.

Lemma nbt_hex_encode_no_lt s : bytes_ok s -> Forall (fun c => c <> 60) (nbt_hex_encode s).
Proof.
  induction 1 as [|c s Hc Hs IH]; [constructor|]. cbn [nbt_hex_encode].
  destruct (NBT_CHAR_ALLOW c) eqn:E.
  - apply List.Forall_cons; [apply NBT_CHAR_ALLOW_clean in E; tauto|done].
  - cbv beta in Hc. apply List.Forall_cons; [lia|]. apply Forall_app. split; [|done].
    eapply Forall_impl; [apply print_02x_clean; lia|]. simpl. tauto.
Qed.

(** Lists split at the first occurrence of a separator. *)
Lemma split_unique {A} (x : A) a1 a2 b1 b2 :
  Forall (fun c => c <> x) a1 -> Forall (fun c => c <> x) a2 ->
  a1 ++ x :: b1 = a2 ++ x :: b2 -> a1 = a2 /\ b1 = b2.
Proof.
  intros H1. revert a2. induction H1 as [|c a1 Hc H1 IH]; intros a2 H2; destruct H2 as [|c2 a2 Hc2 H2];
    simpl; intros Heq; injection Heq; intros; subst; try done.
  destruct (IH a2 H2) as [-> ->]; done.
Qed.

(** The text form of a NetBIOS name, which the WINS database and the logs
    use, determines the name: names with the same text have the same bytes,
    the same type and the same scope. *)
Theorem nbt_name_string_inj n1 n2 :
  bytes_ok (nm_name n1) -> bytes_ok (nm_name n2) ->
  bytes_ok (default [] (nm_scope n1)) -> bytes_ok (default [] (nm_scope n2)) ->
  0 <= nm_type n1 < 2 ^ 32 -> 0 <= nm_type n2 < 2 ^ 32 ->
  nbt_name_string n1 = nbt_name_string n2 -> n1 = n2.
Proof.
  intros Hn1 Hn2 Hs1 Hs2 Ht1 Ht2 Heq. unfold nbt_name_string in Heq.
  apply split_unique in Heq as [Hname Heq]; [|by apply nbt_hex_encode_no_lt..].
  apply split_unique in Heq as [Htype Heq];
    [|eapply Forall_impl; [apply print_02x_clean; lia|simpl; tauto]..].
  apply (f_equal nbt_hex_decode) in Hname. rewrite !nbt_hex_decode_encode in Hname by done.
  apply (f_equal from_hex) in Htype. rewrite !from_hex_print_02x in Htype by done.
  destruct n1 as [nm1 [s1|] ty1], n2 as [nm2 [s2|] ty2]; simpl in *; subst; try done.
  injection Heq as Heq. apply (f_equal nbt_hex_decode) in Heq.
  by rewrite !nbt_hex_decode_encode in Heq by done; subst.
Qed.

Lemma nbt_name_string_inj_witness :
  let n := mk_name [70; 60; 37] (Some [65]) 29 in
  nbt_name_string n = [70; 37;51;99; 37;50;53; 60; 49;100; 62; 45; 65] /\ n = n.
Proof.
  split; [vm_compute; reflexivity|].
  assert (forall l, forallb (fun c => (0 <=? c) && (c <? 256)) l = true -> bytes_ok l) as Hb.
  { intros l H. apply Forall_forall. intros c Hc. rewrite forallb_elem_of in H.
    specialize (H c Hc). bool_hyps. lia. }
  apply nbt_name_string_inj; try (apply Hb; reflexivity); simpl; try lia. reflexivity.
Defined.

(** ** Names in WINS replication *)

(** Names that [ndr_push_wrepl_nbt_name] writes as they are: the byte 0x1b in
    front stands for the exchange of the first character with the type. *)
Definition wrepl_ok (n : nbt_name) : Prop :=
  (length (nm_name n) <= 15)%nat /\ Forall (fun c => 0 < c < 256) (nm_name n) /\
  trim_back (nm_name n) = nm_name n /\ 0 <= nm_type n < 256 /\
  (nm_name n !! 0%nat = Some 27 -> nm_type n = 27) /\
  (length (default [] (nm_scope n)) <= 238)%nat /\
  Forall (fun c => 0 < c < 256) (default [] (nm_scope n)).

(** The scope that is read back: the parser looks for it one byte too far. *)
Definition wrepl_scope_read (scope : option (list Z)) : option (list Z) :=
  match scope with
  | Some (_ :: (_ :: _) as tail) => Some tail
  | _ => None
  end.

(** The name padded to 15 bytes. *)
Definition padded (n : nbt_name) : list Z := nm_name n ++ replicate (15 - length (nm_name n)) 32.

(** The bytes on the wire. *)
Definition wrepl_wire (n : nbt_name) : list Z :=
  let tail := default [] (nm_scope n) ++ [0] in
  if nm_type n =? 27 then 27 :: drop 1 (padded n) ++ default 0 (padded n !! 0%nat) :: tail
  else padded n ++ nm_type n :: tail.

Lemma length_padded n : (length (nm_name n) <= 15)%nat -> length (padded n) = 15%nat.
Proof. intros H. unfold padded. rewrite length_app, length_replicate. lia. Qed.

Lemma length_wrepl_wire n :
  (length (nm_name n) <= 15)%nat ->
  length (wrepl_wire n) = (17 + length (default [] (nm_scope n)))%nat.
Proof.
  intros H. unfold wrepl_wire. pose proof (length_padded n H).
  destruct (_ =? _); simpl; rewrite ?length_app; simpl; rewrite ?length_drop, ?length_app; simpl; lia.
Qed.

Lemma insert_at_15 (body : list Z) x y l :
  length body = 15%nat -> <[15%nat := y]> (body ++ x :: l) = body ++ y :: l.
Proof. intros Hb. rewrite <- Hb. by rewrite insert_app_r_alt, Nat.sub_diag by lia. Qed.

(** The buffer that [ndr_push_wrepl_nbt_name] fills. *)
Lemma wrepl_namebuf_wire n :
  wrepl_ok n ->
  (let namebuf := <[15%nat := u8 (nm_type n)]> (wrepl_namebuf n ++ [0]) in
   if nm_type n =? 27
   then <[0%nat := 27]> (<[15%nat := default 0 (namebuf !! 0%nat)]> namebuf)
   else namebuf) = wrepl_wire n.
Proof.
  intros (Hl & _ & _ & Ht & _). pose proof (length_padded n Hl) as Hp.
  unfold wrepl_namebuf, wrepl_wire. rewrite <- !app_assoc, (app_assoc (nm_name n)).
  fold (padded n). cbn [app]. cbv zeta.
  assert (u8 (nm_type n) = nm_type n) as -> by (apply Z.mod_small; lia).
  rewrite insert_at_15 by done. destruct (Z.eqb_spec (nm_type n) 27) as [E|]; [|done].
  rewrite insert_at_15 by done. destruct (padded n) as [|b body]; [done|]. done.
Qed.

Definition e_wrepl (n : nbt_name) : format :=
  e_app (e_pad 2) (e_app (e_word32 (Z.of_nat (length (wrepl_wire n)))) (e_const (wrepl_wire n))).

Lemma emits_wrepl n :
  wrepl_ok n -> emits any (ndr_push_wrepl_nbt_name NDR_SCALARS n) (e_wrepl n).
Proof.
  intros Hn. pose proof Hn as (Hl & _ & _ & _ & _ & Hs & _).
  assert (forall w, ndr_push_wrepl_nbt_name NDR_SCALARS n w =
    (try! ndr_push_align 4;
     try! ndr_push_uint32 (Z.of_nat (length (wrepl_wire n)));
     ndr_push_bytes (wrepl_wire n) (Z.of_nat (length (wrepl_wire n)))) w) as E.
  { intros w. unfold ndr_push_wrepl_nbt_name.
    change (negb (NDR_SCALARS &? NDR_SCALARS)) with false. cbv iota.
    destruct (Nat.ltb_spec 15 (length (nm_name n))); [lia|].
    destruct (Nat.ltb_spec 238 (length (default [] (nm_scope n)))); [lia|].
    pose proof (wrepl_namebuf_wire n Hn) as Hw. cbv zeta in *. rewrite Hw.
    assert (length (wrepl_namebuf n ++ [0]) = length (wrepl_wire n)) as ->; [|done].
    rewrite length_wrepl_wire by done. unfold wrepl_namebuf.
    rewrite !length_app, length_replicate. simpl. lia. }
  eapply emits_ext; [|exact E|done].
  apply emits_bind; [apply (emits_align any 2); lia|].
  apply emits_bind; [apply emits_uint32|apply emits_bytes].
Qed.

(** What the parser makes of the bytes. *)
Lemma consumes_wrepl n :
  wrepl_ok n ->
  consumes any (ndr_pull_wrepl_nbt_name NDR_SCALARS) (e_wrepl n)
    (Some (mk_name (nm_name n) (wrepl_scope_read (nm_scope n)) (nm_type n))).
Proof.
  intros (Hl & Hb & Ht & Hty & Hhd & Hs & Hsb). pose proof (length_padded n Hl) as Hp.
  pose proof (length_wrepl_wire n Hl) as Hlen.
  set (len := length (wrepl_wire n)) in *.
  unfold ndr_pull_wrepl_nbt_name. change (negb (NDR_SCALARS &? NDR_SCALARS)) with false.
  cbv iota. eapply consumes_bind; [apply (consumes_align any 2); lia|].
  eapply consumes_bind; [apply consumes_uint32|]. fold len.
  assert (Z.of_nat len mod 2 ^ 32 = Z.of_nat len) as -> by (apply Z.mod_small; lia).
  destruct (Z.ltb_spec (Z.of_nat len) 1); [lia|].
  destruct (Z.ltb_spec 255 (Z.of_nat len)); [lia|]. cbv iota. simpl orb. cbv iota.
  intros r Hf o Hr Hbs Ho. unfold ndr_pull_array_uint8.
  change (negb (NDR_SCALARS &? NDR_SCALARS)) with false. cbv iota.
  assert (ndr_pull_bytes (Z.of_nat len) r = (Ok (wrepl_wire n), pl_set_offset r o)) as Hby
    by exact (consumes_bytes any (wrepl_wire n) r Hf Hr Hbs Ho).
  clearbody o. clear Hbs Ho.
  unfold Ndr_bind at 1 2. rewrite Hby.
  unfold Ndr_ret at 1, st_ret at 1. cbv beta iota.
  change (default [] (Some (wrepl_wire n))) with (wrepl_wire n). fold len.
  destruct (Z.leb_spec 16 (Z.of_nat len)); [|lia]. destruct (Z.ltb_spec (Z.of_nat len) 17); [lia|].
  set (tail := default [] (nm_scope n) ++ [0]).
  assert (nonzero (padded n)) as Hnz.
  { apply Forall_app. split; [eapply Forall_impl; [exact Hb|simpl; lia]|].
    apply Forall_replicate. lia. }
  assert (cstr (<[15%nat := 0]> (padded n ++ nm_type n :: tail)) = padded n) as Hname.
  { rewrite insert_at_15 by done. by rewrite cstr_app_nil, cstr_nonzero. }
  assert ((padded n ++ nm_type n :: tail) !! 15%nat = Some (nm_type n)) as H15
    by (rewrite <- Hp; by rewrite lookup_app_r, Nat.sub_diag by lia).
  assert (trim_back (padded n) = nm_name n) as Htr
    by (unfold padded; by rewrite trim_back_pad, Ht).
  assert (nonzero (default [] (nm_scope n))) as Hsn
    by (eapply Forall_impl; [exact Hsb|simpl; lia]).
  assert ((if 18 <? Z.of_nat len then Some (cstr (drop 17 (padded n ++ nm_type n :: tail))) else None)
          = wrepl_scope_read (nm_scope n)) as Hscope.
  { rewrite drop_app_ge by lia. rewrite Hp. cbn [drop Nat.sub]. rewrite Hlen. unfold tail.
    destruct (nm_scope n) as [[|c [|c2 s]]|]; simpl length; try done.
    destruct (Z.ltb_spec 18 (Z.of_nat (17 + S (S (length s))))); [|lia].
    transitivity (Some (cstr ((c2 :: s) ++ 0 :: []))); [done|].
    rewrite cstr_app_nil, cstr_nonzero; [done|]. by apply Forall_cons in Hsn as [_ Hsn]. }
  destruct (padded n) as [|b body] eqn:Ep; [done|].
  assert (forall st, (try type <- Ndr_mem (((b :: body) ++ nm_type n :: tail) !! 15%nat);
            Ndr_ret (Some (mk_name (trim_back (cstr (<[15%nat := 0]> ((b :: body) ++ nm_type n :: tail))))
              (if 18 <? Z.of_nat len then Some (cstr (drop 17 ((b :: body) ++ nm_type n :: tail)))
               else None) type))) st =
          (Ok (Some (mk_name (nm_name n) (wrepl_scope_read (nm_scope n)) (nm_type n))), st : ndr_pull)) as Hfin.
  { intros st. rewrite H15, Hscope, Hname, Htr. done. }
  unfold wrepl_wire. fold tail. rewrite Ep. destruct (Z.eqb_spec (nm_type n) 27) as [E|E].
  - change (drop 1 (b :: body)) with body. change (default 0 ((b :: body) !! 0%nat)) with b.
    simpl in Hp. set (W := 27 :: body ++ b :: tail).
    assert (W !! 0%nat = Some 27) as HW0 by done.
    assert (W !! 15%nat = Some b) as HW15.
    { change W with ((27 :: body) ++ b :: tail). rewrite lookup_app_r by (simpl; lia).
      simpl length. by replace (15 - S (length body))%nat with 0%nat by lia. }
    assert (<[15%nat:=27]> (<[0%nat:=b]> W) = (b :: body) ++ 27 :: tail) as HWi.
    { change (<[0%nat:=b]> W) with ((b :: body) ++ b :: tail).
      rewrite insert_at_15; [done|simpl; lia]. }
    clearbody W. unfold Ndr_bind at 1, Ndr_mem at 1, st_ret at 1. rewrite HW0.
    cbn [Z.eqb Pos.eqb andb]. unfold Ndr_bind at 1 2, Ndr_mem at 1, st_ret at 1. rewrite HW15.
    unfold Ndr_ret at 1, st_ret at 1. rewrite HWi, <- E. exact (Hfin _).
  - unfold Ndr_bind at 1, Ndr_mem at 1, st_ret at 1. cbn [app lookup list_lookup].
    assert ((b =? 27) = false) as ->.
    { apply Z.eqb_neq. intros ->. apply E, Hhd. destruct (nm_name n) as [|c nm] eqn:En.
      - unfold padded in Ep. rewrite En in Ep. done.
      - unfold padded in Ep. rewrite En in Ep. injection Ep as -> _. done. }
    cbn [andb]. exact (Hfin _).
Qed.

(** A name in a WINS replication packet is read back with its name and
    type, also when its type is 0x1b and the first character is exchanged with
    the type.  Its scope is not: the writer puts the scope after 16 bytes and
    the parser looks for it after 17, so the first character is lost and a
    scope of one character disappears. *)
Theorem wrepl_name_roundtrip flags n :
  wrepl_ok n -> (flags &? LIBNDR_FLAG_PAD_CHECK) = false ->
  exists w, ndr_push_wrepl_nbt_name NDR_SCALARS n (ps_start flags) = (Ok tt, w) /\
    let blob := ndr_push_blob w in
    ndr_pull_wrepl_nbt_name NDR_SCALARS (pl_start flags blob) =
      (Ok (Some (mk_name (nm_name n) (wrepl_scope_read (nm_scope n)) (nm_type n))),
       pl_set_offset (pl_start flags blob) (Z.of_nat (length blob))).
Proof.
  intros Hn Hp. pose proof Hn as (Hl & Hb & _ & Ht & _ & Hs & Hsb).
  pose proof (length_wrepl_wire n Hl) as Hlen.
  assert (bytes_ok (padded n)) as Hpb.
  { apply Forall_app. split; [eapply Forall_impl; [exact Hb|simpl; lia]|].
    apply Forall_replicate. lia. }
  assert (bytes_ok (default [] (nm_scope n) ++ [0])) as Htail.
  { apply Forall_app. split; [eapply Forall_impl; [exact Hsb|simpl; lia]|]. by repeat constructor. }
  destruct (format_blob _ _ _ _ flags (emits_wrepl n Hn) (consumes_wrepl n Hn) I Hp)
    as (w & E & _ & Hw); [| |by exists w].
  - unfold e_wrepl. apply e_app_bytes; [apply e_pad_bytes|]. intros o.
    apply e_app_bytes; [apply e_word32_bytes|]. intros o2. unfold e_const, wrepl_wire.
    destruct (nm_type n =? 27); [apply List.Forall_cons; [lia|]|]; apply Forall_app; split;
      try done; try (by apply Forall_drop); apply List.Forall_cons; try done.
    destruct (padded n) as [|b l]; [done|]. by apply Forall_cons in Hpb as [? _].
  - apply (Z.le_lt_trans _ (3 + ((3 + 4) + Z.of_nat (length (wrepl_wire n))))).
    + apply flen_app_le; [|apply flen_app_le; [apply flen_word32_le|done]].
      intros o. rewrite flen_pad by lia. pose proof (pad_len_range 2 flags o ltac:(lia)). lia.
    + unfold NDR_LIMIT, MAX_TALLOC_SIZE, NDR_BASE_MARSHALL_SIZE. lia.
Qed.

(** A domain master browser name with a scope that loses its first letter. *)
Lemma wrepl_name_roundtrip_witness :
  let n := mk_name FRED (Some [88; 89; 90]) 27 in
  let w := (ndr_push_wrepl_nbt_name NDR_SCALARS n (ps_start 0)).2 in
  take 5 (ndr_push_blob w) = [20; 0; 0; 0; 27] /\
  (ndr_pull_wrepl_nbt_name NDR_SCALARS (pl_start 0 (ndr_push_blob w))).1 =
    Ok (Some (mk_name FRED (Some [89; 90]) 27)).
Proof.
  split; [vm_compute; reflexivity|].
  destruct (wrepl_name_roundtrip 0 (mk_name FRED (Some [88; 89; 90]) 27)) as (w & E & H).
  - split_and!; simpl; try done; try lia;
      repeat apply List.Forall_cons; try apply List.Forall_nil; lia.
  - reflexivity.
  - cbv zeta. rewrite E. cbv zeta in H. cbn [snd]. by rewrite H.
Defined.

(** A type from 0x80 on is read through a [char]: the value that comes out of
    the parser is not the one that was sent. *)
Lemma nbt_type_sign_extended :
  let w := (ndr_push_nbt_name NDR_SCALARS (mk_name FRED None 128) (ps_start 0)).2 in
  (ndr_pull_nbt_name NDR_SCALARS (pl_start 0 (ndr_push_blob w))).1 =
    Ok (Some (mk_name FRED None 4294967168)).
Proof. vm_compute. reflexivity. Qed.
