(* ===== verification/CLib.v ===== *)
(** * The C library functions the modelled code calls

    [strtol], [strtoul], [strncasecmp], and the [%u]/[%lu] conversions of
    [snprintf], on NUL-free strings, for a 64-bit [long].  The lemmas are the
    facts the parsers of the other files need: what a printed number parses
    back to, and how long it is. *)

From S2P Require Import Prelude.
From Stdlib Require Import Ascii.

Local Open Scope string_scope.
Local Open Scope Z_scope.

Definition byte_of (c : ascii) : Z := Z.of_N (N_of_ascii c).

Definition is_digit (c : ascii) : bool := (48 <=? byte_of c) && (byte_of c <=? 57).
Definition is_space (c : ascii) : bool :=
  ((9 <=? byte_of c) && (byte_of c <=? 13)) || (byte_of c =? 32).
Definition digit_val (c : ascii) : Z := byte_of c - 48.

Definition to_lower (c : ascii) : ascii :=
  if (65 <=? byte_of c) && (byte_of c <=? 90)
  then ascii_of_N (Z.to_N (byte_of c + 32)) else c.

(** [strcasecmp(a, b) == 0] *)
Fixpoint strcaseeq (a b : string) : bool :=
  match a, b with
  | EmptyString, EmptyString => true
  | String x a', String y b' => bool_decide (to_lower x = to_lower y) && strcaseeq a' b'
  | _, _ => false
  end.

Fixpoint skip_space (s : string) : string :=
  match s with
  | String c s' => if is_space c then skip_space s' else s
  | EmptyString => EmptyString
  end.

(** An optional sign: [true] for a minus. *)
Definition take_sign (s : string) : bool * string :=
  match s with
  | String "-" s' => (true, s')
  | String "+" s' => (false, s')
  | _ => (false, s)
  end.

(** The value of a run of decimal digits, and what follows the run. *)
Fixpoint read_digits (acc : Z) (s : string) : Z * string :=
  match s with
  | String c s' => if is_digit c then read_digits (10 * acc + digit_val c) s' else (acc, s)
  | EmptyString => (acc, s)
  end.

Definition starts_digit (s : string) : bool :=
  match s with String c _ => is_digit c | EmptyString => false end.

Definition LONG_MAX : Z := 2 ^ 63 - 1.
Definition LONG_MIN : Z := - 2 ^ 63.
Definition ULONG_MAX : Z := 2 ^ 64 - 1.

(** [strtol(s, &p, 10)]: the value and [Some p], or [None] for [p == s]. *)
Definition strtol (s : string) : Z * option string :=
  let '(neg, s1) := take_sign (skip_space s) in
  if starts_digit s1 then
    let '(v, p) := read_digits 0 s1 in
    (if neg then Z.max LONG_MIN (- v) else Z.min LONG_MAX v, Some p)
  else (0, None).

(** [strtoul(s, &p, 10)] *)
Definition strtoul (s : string) : Z * option string :=
  let '(neg, s1) := take_sign (skip_space s) in
  if starts_digit s1 then
    let '(v, p) := read_digits 0 s1 in
    (if ULONG_MAX <? v then ULONG_MAX else if neg then u64 (- v) else v, Some p)
  else (0, None).

(** Where the caller continues: [p], which is [s] itself when nothing was
    converted. *)
Definition endptr (s : string) (p : option string) : string :=
  match p with Some p => p | None => s end.

(** [snprintf("%lu", n)] for [0 <= n]: [fuel] digits at most. *)
Fixpoint dec_digits (fuel : nat) (n : Z) (k : string) : string :=
  match fuel with
  | O => k
  | S f =>
      let k' := String (ascii_of_N (Z.to_N (48 + n mod 10))) k in
      if n <? 10 then k' else dec_digits f (n / 10) k'
  end.

(** Twenty digits hold any 64-bit number ([dec_digits_length]). *)
Definition print_dec (n : Z) : string := dec_digits 20 n EmptyString.

(** [n] digits are enough for [v]. *)
Definition fits (n : nat) (v : Z) : Prop := 0 <= v < 10 ^ Z.of_nat n.

(** ** Lemmas *)

Fixpoint lower (s : string) : string :=
  match s with
  | EmptyString => EmptyString
  | String c s' => String (to_lower c) (lower s')
  end.

Lemma strcaseeq_lower a b : strcaseeq a b = true <-> lower a = lower b.
Proof.
  revert b. induction a as [|x a IH]; intros [|y b]; simpl; try done.
  rewrite andb_true_iff, bool_decide_eq_true, IH.
  split; [by intros [-> ->] | by intros [= -> ->]].
Qed.

Lemma byte_of_digit d : 0 <= d < 10 -> byte_of (ascii_of_N (Z.to_N (48 + d))) = 48 + d.
Proof.
  intros H. unfold byte_of. rewrite N_ascii_embedding by lia. lia.
Qed.

Lemma is_digit_digit d : 0 <= d < 10 -> is_digit (ascii_of_N (Z.to_N (48 + d))) = true.
Proof. intros H. unfold is_digit. rewrite byte_of_digit by done. lia. Qed.

Lemma digit_val_digit d : 0 <= d < 10 -> digit_val (ascii_of_N (Z.to_N (48 + d))) = d.
Proof. intros H. unfold digit_val. rewrite byte_of_digit by done. lia. Qed.

Lemma string_app_assoc (a b c : string) : (a +:+ b) +:+ c = a +:+ (b +:+ c).
Proof. induction a as [|x a IH]; [done|]. exact (f_equal (String x) IH). Qed.

Lemma string_app_nil_r (a : string) : a +:+ EmptyString = a.
Proof. induction a as [|x a IH]; [done|]. exact (f_equal (String x) IH). Qed.

Lemma string_length_app (a b : string) :
  String.length (a +:+ b) = (String.length a + String.length b)%nat.
Proof. induction a as [|x a IH]; [done|]. exact (f_equal S IH). Qed.

Lemma dec_digits_app f n k : dec_digits f n k = dec_digits f n EmptyString +:+ k.
Proof.
  revert n k. induction f as [|f IH]; intros n k; [done|]. simpl.
  destruct (n <? 10); [done|].
  rewrite IH, (IH _ (String _ EmptyString)).
  by rewrite string_app_assoc.
Qed.

(** Reading back the digits of [n] from accumulator [acc] shifts [acc] left
    by their number and adds [n]. *)
Lemma read_digits_dec f n k acc :
  (0 < f)%nat -> fits f n ->
  exists m : nat, (1 <= m <= f)%nat /\ 
  read_digits acc (dec_digits f n k) = read_digits (acc * 10 ^ Z.of_nat m + n) k.
Proof.
  unfold fits. revert n k acc. induction f as [|f IH]; intros n k acc Hf Hn; [lia|].
  simpl dec_digits.
  pose proof (Z.mod_pos_bound n 10 ltac:(lia)) as Hm.
  pose proof (Z.div_mod n 10 ltac:(lia)) as Hd.
  destruct (Z.ltb_spec n 10) as [Hlt|Hge].
  - exists 1%nat. split; [lia|]. simpl read_digits.
    rewrite is_digit_digit, digit_val_digit by lia.
    rewrite Z.mod_small by lia. f_equal. lia.
  - replace (Z.of_nat (S f)) with (Z.of_nat f + 1) in Hn by lia.
    rewrite Z.pow_add_r in Hn by lia.
    destruct f as [|f]; [simpl in Hn; lia|].
    destruct (IH (n / 10) (String (ascii_of_N (Z.to_N (48 + n mod 10))) k) acc) as (m & Hmf & ->);
      [lia | split; [apply Z.div_pos; lia | apply Z.div_lt_upper_bound; lia] |].
    exists (S m). split; [lia|]. simpl read_digits.
    rewrite is_digit_digit, digit_val_digit by lia. f_equal.
    replace (Z.of_nat (S m)) with (Z.of_nat m + 1) by lia.
    rewrite Z.pow_add_r by lia. lia.
Qed.

Lemma dec_digits_starts f n k :
  (0 < f)%nat -> 0 <= n -> starts_digit (dec_digits f n k) = true.
Proof.
  revert n k. induction f as [|f IH]; intros n k Hf Hn; [lia|]. simpl.
  pose proof (Z.mod_pos_bound n 10 ltac:(lia)) as Hm.
  destruct (n <? 10); [simpl; by rewrite is_digit_digit|].
  destruct f as [|f]; [simpl; by rewrite is_digit_digit|].
  apply IH; [lia|]. apply Z.div_pos; lia.
Qed.

Lemma fits_20_u32 n : 0 <= n < 2 ^ 32 -> fits 20 n.
Proof. unfold fits. simpl. lia. Qed.

Lemma read_digits_stop v k : starts_digit k = false -> read_digits v k = (v, k).
Proof. destruct k as [|c k]; simpl; [done|]. by intros ->. Qed.

Lemma digit_not_space c : is_digit c = true -> is_space c = false.
Proof. unfold is_digit, is_space. lia. Qed.

Lemma digit_not_sign c s : is_digit c = true -> take_sign (String c s) = (false, String c s).
Proof.
  intros H. destruct c as [[] [] [] [] [] [] [] []]; try done; vm_compute in H; done.
Qed.

Lemma skip_sign_digits s :
  starts_digit s = true -> take_sign (skip_space s) = (false, s).
Proof.
  destruct s as [|c s]; simpl; [done|]. intros H.
  rewrite digit_not_space by done. by apply digit_not_sign.
Qed.

(** A printed number parses back, whatever non-digit follows it. *)
Lemma strtol_print n k :
  0 <= n < 2 ^ 32 -> starts_digit k = false ->
  strtol (print_dec n +:+ k) = (n, Some k).
Proof.
  intros Hn Hk. unfold strtol, print_dec. rewrite <- dec_digits_app.
  rewrite skip_sign_digits by (apply dec_digits_starts; lia).
  rewrite dec_digits_starts by lia.
  destruct (read_digits_dec 20 n k 0) as (m & _ & ->); [lia | by apply fits_20_u32 |].
  rewrite Z.mul_0_l, Z.add_0_l, read_digits_stop by done.
  f_equal. unfold LONG_MAX. lia.
Qed.

Lemma strtoul_print n k :
  0 <= n < 2 ^ 32 -> starts_digit k = false ->
  strtoul (print_dec n +:+ k) = (n, Some k).
Proof.
  intros Hn Hk. unfold strtoul, print_dec. rewrite <- dec_digits_app.
  rewrite skip_sign_digits by (apply dec_digits_starts; lia).
  rewrite dec_digits_starts by lia.
  destruct (read_digits_dec 20 n k 0) as (m & _ & ->); [lia | by apply fits_20_u32 |].
  rewrite Z.mul_0_l, Z.add_0_l, read_digits_stop by done.
  unfold ULONG_MAX. destruct (Z.ltb_spec (2 ^ 64 - 1) n); [lia|done].
Qed.

Lemma strtoul_no_digits s :
  starts_digit (take_sign (skip_space s)).2 = false -> strtoul s = (0, None).
Proof. unfold strtoul. destruct (take_sign (skip_space s)) as [g t]. simpl. by intros ->. Qed.

Lemma dec_digits_length f n k m :
  (0 < f)%nat -> (0 < m)%nat -> fits m n ->
  (String.length (dec_digits f n k) <= m + String.length k)%nat.
Proof.
  unfold fits. revert n k m. induction f as [|f IH]; intros n k m Hf Hm Hn; [lia|].
  simpl. destruct (Z.ltb_spec n 10) as [|Hge]; [simpl; lia|].
  destruct f as [|f]; [simpl; lia|].
  destruct m as [|m]; [lia|]. destruct m as [|m]; [simpl in Hn; lia|].
  etransitivity; [apply (IH (n / 10) _ (S m)); [lia|lia|]|simpl; lia].
  replace (Z.of_nat (S (S m))) with (Z.of_nat (S m) + 1) in Hn by lia.
  rewrite Z.pow_add_r in Hn by lia.
  split; [apply Z.div_pos; lia | apply Z.div_lt_upper_bound; lia].
Qed.

Lemma print_dec_length m n :
  (0 < m)%nat -> fits m n -> (String.length (print_dec n) <= m)%nat.
Proof.
  intros Hm Hn. unfold print_dec.
  etransitivity; [by apply (dec_digits_length 20 n _ m); [lia|..]|]. simpl; lia.
Qed.

Lemma print_dec_starts n : 0 <= n -> starts_digit (print_dec n) = true.
Proof. intros H. apply dec_digits_starts; lia. Qed.

Lemma substring_all (t : string) n :
  (String.length t <= n)%nat -> String.substring 0 n t = t.
Proof.
  revert n. induction t as [|c t IH]; intros [|n] H; simpl in *; try done; [lia|].
  by rewrite IH by lia.
Qed.

(** ** Strings as lists of bytes *)

(** The sign of [strncmp(a, b, n)]. *)
Fixpoint strncmp (n : nat) (a b : list Z) : Z :=
  match n, a, b with
  | O, _, _ => 0
  | _, [], [] => 0
  | _, [], _ :: _ => -1
  | _, _ :: _, [] => 1
  | S n, x :: a, y :: b => if x =? y then strncmp n a b else if x <? y then -1 else 1
  end.

Fixpoint strcmp (a b : list Z) : Z :=
  match a, b with
  | [], [] => 0
  | [], _ :: _ => -1
  | _ :: _, [] => 1
  | x :: a, y :: b => if x =? y then strcmp a b else if x <? y then -1 else 1
  end.

(** A list that is a string of C. *)
Definition no_nul (s : list Z) : Prop := Forall (fun c => c <> 0) s.

Lemma strcmp_refl a : strcmp a a = 0.
Proof. induction a as [|x a IH]; simpl; [done|]. by rewrite Z.eqb_refl. Qed.

Lemma strcmp_eq a b : strcmp a b = 0 <-> a = b.
Proof.
  split; [|intros ->; apply strcmp_refl]. revert b.
  induction a as [|x a IH]; intros [|y b]; simpl; try done.
  destruct (Z.eqb_spec x y) as [->|]; [|by destruct (x <? y)]. intros H. by rewrite (IH b H).
Qed.

Lemma strcmp_total a b : strcmp a b <= 0 \/ strcmp b a <= 0.
Proof.
  revert b. induction a as [|x a IH]; intros [|y b]; simpl; try lia.
  rewrite (Z.eqb_sym y x). destruct (Z.eqb_spec x y) as [->|]; [apply IH|].
  destruct (Z.ltb_spec x y), (Z.ltb_spec y x); lia.
Qed.

Lemma strcmp_trans a b c : strcmp a b <= 0 -> strcmp b c <= 0 -> strcmp a c <= 0.
Proof.
  revert b c. induction a as [|x a IH]; intros [|y b] [|z c]; simpl; try lia.
  destruct (Z.eqb_spec x y), (Z.eqb_spec y z), (Z.eqb_spec x z); subst; try done; try apply IH;
    repeat match goal with |- context [?u <? ?v] => destruct (Z.ltb_spec u v) end; lia.
Qed.
