(* ===== verification/DomSid.v ===== *)
(** * Security identifiers ([source4/libcli/security/dom_sid.c])

    [dom_sid] is the structure of [librpc/idl/security.idl]: [num_auths] is a
    signed 8-bit count kept apart from the array [sub_auths], as
    [dom_sid_split_rid] decrements the one without shortening the other.  A
    [struct dom_sid *] that may be NULL is an [option dom_sid].  The pointer
    comparison [sid1 == sid2] at the head of the comparison functions is
    represented by its NULL case; on equal non-NULL pointers the loops return 0
    as well ([dom_sid_compare_refl]).  Allocation does not fail. *)

From S2P Require Import Prelude NtStatus CLib.
From Stdlib Require Import Ascii.

Local Open Scope string_scope.
Local Open Scope Z_scope.

Record dom_sid : Set := mk_dom_sid {
  sid_rev_num : Z;        (* uint8_t *)
  num_auths : Z;          (* int8_t *)
  id_auth : list Z;       (* uint8_t[6] *)
  sub_auths : list Z      (* uint32_t * *)
}.

#[export] Instance dom_sid_eq_dec : EqDecision dom_sid.
Proof. solve_decision. Defined.

(** Array reads; the guards of the callers keep the index in range. *)
Definition id_auth_at (s : dom_sid) (i : nat) : Z := default 0 (id_auth s !! i).
Definition sub_auth_at (s : dom_sid) (i : nat) : Z := default 0 (sub_auths s !! i).

(** The number of iterations of the loops over [num_auths]. *)
Definition auth_count (s : dom_sid) : nat := Z.to_nat (num_auths s).

(** ** Comparison *)

(** The loop over [id_auth] of [dom_sid_compare_auth], from index [i]. *)
Fixpoint compare_id_auth (s1 s2 : dom_sid) (i : nat) (n : nat) : Z :=
  match n with
  | O => 0
  | S n' =>
      if negb (id_auth_at s1 i =? id_auth_at s2 i)
      then id_auth_at s1 i - id_auth_at s2 i
      else compare_id_auth s1 s2 (S i) n'
  end.

Definition dom_sid_compare_auth (sid1 sid2 : option dom_sid) : Z :=
  match sid1, sid2 with
  | None, None => 0
  | None, Some _ => -1
  | Some _, None => 1
  | Some s1, Some s2 =>
      if negb (sid_rev_num s1 =? sid_rev_num s2)
      then sid_rev_num s1 - sid_rev_num s2
      else compare_id_auth s1 s2 0 6
  end.

(** The loop [for (i = num_auths-1; i >= 0; --i)]; [i] counts down from
    [num_auths].  The difference of two [uint32_t] is converted to [int]. *)
Fixpoint compare_sub_auths (s1 s2 : dom_sid) (i : nat) : Z :=
  match i with
  | O => dom_sid_compare_auth (Some s1) (Some s2)
  | S i' =>
      if negb (sub_auth_at s1 i' =? sub_auth_at s2 i')
      then s32 (sub_auth_at s1 i' - sub_auth_at s2 i')
      else compare_sub_auths s1 s2 i'
  end.

Definition dom_sid_compare (sid1 sid2 : option dom_sid) : Z :=
  match sid1, sid2 with
  | None, None => 0
  | None, Some _ => -1
  | Some _, None => 1
  | Some s1, Some s2 =>
      if negb (num_auths s1 =? num_auths s2)
      then num_auths s1 - num_auths s2
      else compare_sub_auths s1 s2 (auth_count s1)
  end.

Definition dom_sid_equal (sid1 sid2 : option dom_sid) : bool :=
  dom_sid_compare sid1 sid2 =? 0.

(** ** String conversion *)

(** [strncasecmp(sidstr, "S-", 2) == 0], and what follows the prefix. *)
Definition after_S_dash (s : string) : option string :=
  match s with
  | String a (String b s') =>
      if bool_decide (to_lower a = "s"%char) && bool_decide (b = "-"%char)
      then Some s' else None
  | _ => None
  end.

(** The loop that counts the dashes. *)
Fixpoint count_dashes (s : string) : Z :=
  match s with
  | EmptyString => 0
  | String c s' => (if bool_decide (c = "-"%char) then 1 else 0) + count_dashes s'
  end.

(** The loop that reads [num_sub_auths] sub-authorities. *)
Fixpoint parse_sub_auths (n : nat) (s : string) : option (list Z) :=
  match n with
  | O => Some []
  | S n' =>
      match s with
      | String "-" s1 =>
          match strtoul s1 with
          | (_, None) => None
          | (v, Some p) => cons (u32 v) <$> parse_sub_auths n' p
          end
      | _ => None
      end
  end.

Definition dom_sid_parse_talloc (sidstr : string) : option dom_sid :=
  match after_S_dash sidstr with
  | None => None
  | Some s0 =>
      let '(rev, p) := strtol s0 in
      match endptr s0 p with
      | String "-" s1 =>
          match strtol s1 with
          | (_, None) => None
          | (ia', Some s2) =>
              let ia := u32 ia' in
              let num_sub_auths := u32 (count_dashes s2) in
              match parse_sub_auths (Z.to_nat num_sub_auths) s2 with
              | None => None
              | Some subs =>
                  Some (mk_dom_sid (u8 (u32 rev)) (s8 num_sub_auths)
                          [0; 0; u8 (Z.shiftr ia 24); u8 (Z.shiftr ia 16);
                           u8 (Z.shiftr ia 8); u8 ia]
                          subs)
              end
          end
      | _ => None
      end
  end.

(** [snprintf(ret + ofs, maxlen - ofs, ...)]: the buffer receives what fits
    before the terminating NUL, [ofs] advances by the full length. *)
Definition snprintf_at (maxlen : Z) (st : string * Z) (text : string) : string * Z :=
  let '(ret, ofs) := st in
  (ret +:+ String.substring 0 (Z.to_nat (maxlen - ofs - 1)) text,
   ofs + Z.of_nat (String.length text)).

Fixpoint print_sub_auths (maxlen : Z) (s : dom_sid) (i n : nat) (st : string * Z)
    : string * Z :=
  match n with
  | O => st
  | S n' =>
      print_sub_auths maxlen s (S i) n'
        (snprintf_at maxlen st (String "-" (print_dec (sub_auth_at s i))))
  end.

Definition sid_maxlen (s : dom_sid) : Z := num_auths s * 11 + 25.

Definition sid_ia (s : dom_sid) : Z :=
  u32 (id_auth_at s 5 + Z.shiftl (id_auth_at s 4) 8 +
       Z.shiftl (id_auth_at s 3) 16 + Z.shiftl (id_auth_at s 2) 24).

Definition dom_sid_string (sid : option dom_sid) : string :=
  match sid with
  | None => "(NULL SID)"
  | Some s =>
      (* talloc_size of a negative length fails *)
      if sid_maxlen s <? 0 then "(SID ERR)" else
      let st := snprintf_at (sid_maxlen s) (EmptyString, 0)
                  ("S-" +:+ print_dec (sid_rev_num s) +:+ "-" +:+ print_dec (sid_ia s)) in
      (print_sub_auths (sid_maxlen s) s 0 (auth_count s) st).1
  end.

(** ** Construction *)

Definition dom_sid_dup (sid : option dom_sid) : option dom_sid :=
  match sid with
  | None => None
  | Some s =>
      Some (mk_dom_sid (sid_rev_num s) (num_auths s)
              (map (id_auth_at s) (seq 0 6))
              (map (sub_auth_at s) (seq 0 (auth_count s))))
  end.

Definition dom_sid_add_rid (domain_sid : dom_sid) (rid : Z) : dom_sid :=
  mk_dom_sid (sid_rev_num domain_sid) (s8 (num_auths domain_sid + 1))
    (id_auth domain_sid)
    (take (auth_count domain_sid) (sub_auths domain_sid) ++ [rid]).

(** Both output pointers given; the outputs are [None] on the error. *)
Definition dom_sid_split_rid (sid : dom_sid) : NTSTATUS * option (dom_sid * Z) :=
  if num_auths sid =? 0 then (NT_STATUS_INVALID_PARAMETER, None)
  else
    match dom_sid_dup (Some sid) with
    | None => (NT_STATUS_NO_MEMORY, None)
    | Some d =>
        (NT_STATUS_OK,
         Some (mk_dom_sid (sid_rev_num d) (s8 (num_auths d - 1)) (id_auth d) (sub_auths d),
               sub_auth_at sid (Z.to_nat (num_auths sid - 1))))
    end.

Fixpoint same_sub_auths (s1 s2 : dom_sid) (i : nat) : bool :=
  match i with
  | O => true
  | S i' =>
      if negb (sub_auth_at s1 i' =? sub_auth_at s2 i') then false
      else same_sub_auths s1 s2 i'
  end.

Definition dom_sid_in_domain (domain_sid sid : option dom_sid) : bool :=
  match domain_sid, sid with
  | Some d, Some s =>
      if num_auths s <? num_auths d then false
      else if same_sub_auths d s (auth_count d)
           then dom_sid_compare_auth (Some d) (Some s) =? 0
           else false
  | _, _ => false
  end.

(** ** Specification

    A well-formed SID has its fields in range and at least [num_auths]
    entries; [sid_eq] is what the wire encoding of two SIDs agrees on. *)

Record sid_wf (s : dom_sid) : Prop := {
  wf_rev : 0 <= sid_rev_num s < 256;
  wf_num : 0 <= num_auths s < 128;
  wf_id_len : length (id_auth s) = 6%nat;
  wf_id : Forall (fun b => 0 <= b < 256) (id_auth s);
  wf_sub_len : (auth_count s <= length (sub_auths s))%nat;
  wf_sub : Forall (fun w => 0 <= w < 2 ^ 32) (sub_auths s)
}.

(** The entries past [num_auths] are not part of the SID. *)
Definition sid_canon (s : dom_sid) : dom_sid :=
  mk_dom_sid (sid_rev_num s) (num_auths s) (id_auth s)
    (take (auth_count s) (sub_auths s)).

Definition sid_eq (s1 s2 : dom_sid) : Prop := sid_canon s1 = sid_canon s2.

#[export] Instance sid_eq_equiv : Equivalence sid_eq.
Proof. unfold sid_eq. split; red; intros; congruence. Qed.

(** ** Comparison lemmas *)

Lemma compare_id_auth_zero s1 s2 i n :
  compare_id_auth s1 s2 i n = 0 <->
  (forall j, (i <= j < i + n)%nat -> id_auth_at s1 j = id_auth_at s2 j).
Proof.
  revert i. induction n as [|n IH]; intros i; simpl; [split; [lia|done]|].
  destruct (Z.eqb_spec (id_auth_at s1 i) (id_auth_at s2 i)) as [He|Hne]; simpl.
  - rewrite IH. split; intros H j Hj; [|apply H; lia].
    destruct (decide (j = i)) as [->|]; [done|]. apply H; lia.
  - split; [lia|]. intros H. destruct Hne. apply H; lia.
Qed.

Lemma compare_sub_auths_zero s1 s2 n :
  (forall j, 0 <= sub_auth_at s1 j < 2 ^ 32) -> (forall j, 0 <= sub_auth_at s2 j < 2 ^ 32) ->
  compare_sub_auths s1 s2 n = 0 <->
  (forall j, (j < n)%nat -> sub_auth_at s1 j = sub_auth_at s2 j) /\
  dom_sid_compare_auth (Some s1) (Some s2) = 0.
Proof.
  intros H1 H2. induction n as [|n IH]; simpl compare_sub_auths.
  - split; [intros H; split; [lia|done] | by intros [_ ?]].
  - destruct (Z.eqb_spec (sub_auth_at s1 n) (sub_auth_at s2 n)) as [He|Hne]; simpl.
    + rewrite IH. split; intros [H Ha]; (split; [|done]); intros j Hj.
      * destruct (decide (j = n)) as [->|]; [done|]. apply H; lia.
      * apply H; lia.
    + split.
      * intros H. by apply s32_diff_zero in H.
      * intros [H _]. destruct Hne. apply H; lia.
Qed.

Lemma dom_sid_compare_auth_zero s1 s2 :
  dom_sid_compare_auth (Some s1) (Some s2) = 0 <->
  sid_rev_num s1 = sid_rev_num s2 /\
  (forall j, (j < 6)%nat -> id_auth_at s1 j = id_auth_at s2 j).
Proof.
  unfold dom_sid_compare_auth. destruct (Z.eqb_spec (sid_rev_num s1) (sid_rev_num s2)); simpl negb; cbv iota.
  - rewrite compare_id_auth_zero. split; [intros H|intros [_ H]]; [split; [done|]|];
      intros j Hj; apply H; lia.
  - split; [lia|]. by intros [? _].
Qed.

Lemma sub_auth_at_range s j : sid_wf s -> 0 <= sub_auth_at s j < 2 ^ 32.
Proof.
  intros Hw. unfold sub_auth_at. destruct (sub_auths s !! j) as [w|] eqn:E; simpl; [|lia].
  eapply Forall_lookup_1 in E; [|apply (wf_sub s Hw)]. done.
Qed.

Lemma list_eq_default (n : nat) (l1 l2 : list Z) :
  (n <= length l1)%nat -> (n <= length l2)%nat ->
  (forall j, (j < n)%nat -> default 0 (l1 !! j) = default 0 (l2 !! j)) <-> take n l1 = take n l2.
Proof.
  intros Hl1 Hl2. split.
  - intros H. apply list_eq. intros j. destruct (decide (j < n)%nat) as [Hj|Hj].
    + rewrite !lookup_take_lt by done. specialize (H j Hj).
      destruct (lookup_lt_is_Some_2 l1 j ltac:(lia)) as [a Ha].
      destruct (lookup_lt_is_Some_2 l2 j ltac:(lia)) as [b Hb].
      rewrite Ha, Hb in *. simpl in H. congruence.
    + rewrite !lookup_take_ge by lia. done.
  - intros H j Hj. rewrite <- (lookup_take_lt l1 n), <- (lookup_take_lt l2 n), H by done. done.
Qed.

Lemma dom_sid_compare_zero s1 s2 :
  sid_wf s1 -> sid_wf s2 -> dom_sid_compare (Some s1) (Some s2) = 0 <-> sid_eq s1 s2.
Proof.
  intros W1 W2. unfold dom_sid_compare.
  destruct (Z.eqb_spec (num_auths s1) (num_auths s2)) as [Hn|Hn]; simpl negb; cbv iota.
  - rewrite compare_sub_auths_zero, dom_sid_compare_auth_zero
      by (intros; by apply sub_auth_at_range).
    unfold sub_auth_at, id_auth_at.
    assert (auth_count s1 = auth_count s2) as Hc by (unfold auth_count; congruence).
    pose proof (wf_sub_len s1 W1). pose proof (wf_sub_len s2 W2).
    pose proof (wf_id_len s1 W1) as L1. pose proof (wf_id_len s2 W2) as L2.
    rewrite !list_eq_default by lia.
    rewrite (take_ge (id_auth s1)), (take_ge (id_auth s2)) by lia.
    unfold sid_eq, sid_canon. rewrite <- Hc. split.
    + intros (Hs & Hr & Hi). by rewrite Hs, Hr, Hi, Hn.
    + intros [= -> _ -> ->]. done.
  - split; [lia|]. intros [= ? ? ? ?]. done.
Qed.

Lemma dom_sid_compare_refl s : dom_sid_compare (Some s) (Some s) = 0.
Proof.
  unfold dom_sid_compare. rewrite Z.eqb_refl. simpl. generalize (auth_count s).
  induction n as [|n IH]; simpl.
  - rewrite !Z.eqb_refl. done.
  - rewrite Z.eqb_refl. done.
Qed.

Lemma dom_sid_equal_spec s1 s2 :
  sid_wf s1 -> sid_wf s2 -> dom_sid_equal (Some s1) (Some s2) = true <-> sid_eq s1 s2.
Proof. intros W1 W2. unfold dom_sid_equal. rewrite Z.eqb_eq. by apply dom_sid_compare_zero. Qed.

(** ** String lemmas *)

(** The text the loop of [dom_sid_string] appends, when nothing is cut. *)
Fixpoint sub_auth_text (s : dom_sid) (i n : nat) : string :=
  match n with
  | O => EmptyString
  | S n' => String "-" (print_dec (sub_auth_at s i)) +:+ sub_auth_text s (S i) n'
  end.

Definition sid_text (s : dom_sid) : string :=
  ("S-" +:+ print_dec (sid_rev_num s) +:+ "-" +:+ print_dec (sid_ia s))
  +:+ sub_auth_text s 0 (auth_count s).

Lemma fits_10_u32 v : 0 <= v < 2 ^ 32 -> fits 10 v.
Proof. unfold fits. simpl. lia. Qed.

Lemma print_sub_auths_text maxlen s i n ret ofs :
  sid_wf s -> ofs + 11 * Z.of_nat n < maxlen ->
  (print_sub_auths maxlen s i n (ret, ofs)).1 = ret +:+ sub_auth_text s i n.
Proof.
  intros W. revert i ret ofs. induction n as [|n IH]; intros i ret ofs Hb.
  - symmetry. apply string_app_nil_r.
  - pose proof (print_dec_length 10 _ ltac:(lia)
      (fits_10_u32 _ (sub_auth_at_range s i W))) as Hl.
    cbn [print_sub_auths sub_auth_text]. unfold snprintf_at.
    rewrite substring_all by (cbn [String.length]; lia).
    rewrite IH by (cbn [String.length]; lia).
    apply string_app_assoc.
Qed.

Lemma sid_ia_range s : 0 <= sid_ia s < 2 ^ 32.
Proof. apply u32_range. Qed.

(** The buffer of [num_auths * 11 + 25] bytes is never overrun: the string is
    the full text. *)
Lemma dom_sid_string_text s : sid_wf s -> dom_sid_string (Some s) = sid_text s.
Proof.
  intros W. unfold dom_sid_string, sid_text, snprintf_at.
  pose proof (wf_rev s W) as Hr. pose proof (wf_num s W) as Hn.
  pose proof (print_dec_length 3 (sid_rev_num s) ltac:(lia)
                ltac:(unfold fits; simpl; lia)) as L1.
  pose proof (print_dec_length 10 _ ltac:(lia) (fits_10_u32 _ (sid_ia_range s))) as L2.
  destruct (Z.ltb_spec (sid_maxlen s) 0) as [Hlt|_]; [unfold sid_maxlen in Hlt; lia|].
  set (head := "S-" +:+ _).
  assert (String.length head <= 16)%nat as Lh.
  { unfold head. rewrite !string_length_app. cbn [String.length]. lia. }
  rewrite substring_all by (unfold sid_maxlen; lia).
  rewrite print_sub_auths_text; [done..|].
  unfold sid_maxlen, auth_count. lia.
Qed.

Lemma count_dashes_app a b : count_dashes (a +:+ b) = count_dashes a + count_dashes b.
Proof.
  induction a as [|c a IH]; [done|].
  change (count_dashes (String c a +:+ b))
    with ((if bool_decide (c = "-"%char) then 1 else 0) + count_dashes (a +:+ b)).
  rewrite IH. simpl. lia.
Qed.

Lemma digit_not_dash d :
  0 <= d < 10 -> ascii_of_N (Z.to_N (48 + d)) <> "-"%char.
Proof.
  intros Hd He. pose proof (byte_of_digit d Hd) as Hb. rewrite He in Hb.
  change (byte_of "-"%char) with 45 in Hb. lia.
Qed.

Lemma count_dashes_dec f n k : count_dashes (dec_digits f n k) = count_dashes k.
Proof.
  revert n k. induction f as [|f IH]; intros n k; [done|]. simpl dec_digits.
  pose proof (digit_not_dash (n mod 10) (Z.mod_pos_bound n 10 ltac:(lia))) as Hd.
  destruct (n <? 10); [|rewrite IH]; simpl; by rewrite bool_decide_eq_false_2.
Qed.

Lemma count_dashes_text s i n : count_dashes (sub_auth_text s i n) = Z.of_nat n.
Proof.
  revert i. induction n as [|n IH]; intros i; [done|].
  cbn [sub_auth_text]. rewrite count_dashes_app, IH. unfold print_dec.
  cbn [count_dashes]. rewrite count_dashes_dec, bool_decide_eq_true_2 by done.
  cbn [count_dashes]. lia.
Qed.

Lemma sub_auth_text_starts s i n : starts_digit (sub_auth_text s i n) = false.
Proof. by destruct n. Qed.

Lemma parse_sub_auths_text s i n :
  sid_wf s ->
  parse_sub_auths n (sub_auth_text s i n) = Some (map (sub_auth_at s) (seq i n)).
Proof.
  intros W. revert i. induction n as [|n IH]; intros i; [done|].
  pose proof (sub_auth_at_range s i W) as Hr.
  cbn [sub_auth_text parse_sub_auths seq map].
  change (String "-" (print_dec (sub_auth_at s i)) +:+ sub_auth_text s (S i) n)
    with (String "-" (print_dec (sub_auth_at s i) +:+ sub_auth_text s (S i) n)).
  cbv iota. rewrite strtoul_print by (done || apply sub_auth_text_starts).
  rewrite IH. simpl. by rewrite u32_small.
Qed.

Lemma map_sub_auth_at s n :
  (n <= length (sub_auths s))%nat -> map (sub_auth_at s) (seq 0 n) = take n (sub_auths s).
Proof.
  intros Hn. apply list_eq. intros j. destruct (decide (j < n)%nat) as [Hj|Hj].
  - rewrite list_lookup_fmap, lookup_seq_lt by done. simpl.
    rewrite lookup_take_lt by done. unfold sub_auth_at.
    destruct (lookup_lt_is_Some_2 (sub_auths s) j ltac:(lia)) as [a Ha].
    by rewrite Ha.
  - rewrite lookup_take_ge by lia. apply lookup_ge_None_2.
    rewrite length_map, length_seq. lia.
Qed.

Lemma shiftl_mul a n : 0 <= n -> Z.shiftl a n = a * 2 ^ n.
Proof. apply Z.shiftl_mul_pow2. Qed.

(** The four low authority bytes survive the trip through [ia]. *)
Lemma ia_bytes a b c d :
  0 <= a < 256 -> 0 <= b < 256 -> 0 <= c < 256 -> 0 <= d < 256 ->
  let ia := d + Z.shiftl c 8 + Z.shiftl b 16 + Z.shiftl a 24 in
  0 <= ia < 2 ^ 32 /\ u8 (Z.shiftr ia 24) = a /\ u8 (Z.shiftr ia 16) = b /\
  u8 (Z.shiftr ia 8) = c /\ u8 ia = d.
Proof.
  intros Ha Hb Hc Hd. cbv zeta. unfold u8.
  rewrite (Z.shiftl_mul_pow2 c 8), (Z.shiftl_mul_pow2 b 16), (Z.shiftl_mul_pow2 a 24) by easy.
  rewrite !Z.shiftr_div_pow2 by easy.
  change (2 ^ 24) with 16777216. change (2 ^ 16) with 65536.
  change (2 ^ 8) with 256. change (2 ^ 32) with 4294967296.
  split; [lia|].
  rewrite <- (Z.div_unique (d + c * 256 + b * 65536 + a * 16777216) 16777216 a
                (d + c * 256 + b * 65536)) by lia.
  rewrite <- (Z.div_unique (d + c * 256 + b * 65536 + a * 16777216) 65536 (a * 256 + b)
                (d + c * 256)) by lia.
  rewrite <- (Z.div_unique (d + c * 256 + b * 65536 + a * 16777216) 256
                ((a * 256 + b) * 256 + c) d) by lia.
  rewrite (Z.mod_small a) by lia.
  rewrite <- (Z.mod_unique (a * 256 + b) 256 a b) by lia.
  rewrite <- (Z.mod_unique ((a * 256 + b) * 256 + c) 256 (a * 256 + b) c) by lia.
  rewrite <- (Z.mod_unique (d + c * 256 + b * 65536 + a * 16777216) 256
                ((a * 256 + b) * 256 + c) d) by lia.
  done.
Qed.

Lemma map_id_auth_at s : length (id_auth s) = 6%nat -> map (id_auth_at s) (seq 0 6) = id_auth s.
Proof.
  intros H. unfold id_auth_at. by destruct (id_auth s) as [|? [|? [|? [|? [|? [|? [|]]]]]]].
Qed.

Lemma s8_small x : - 128 <= x < 128 -> s8 x = x.
Proof. intros H. unfold s8. rewrite Z.mod_small; lia. Qed.

Lemma same_sub_auths_true s1 s2 n :
  same_sub_auths s1 s2 n = true <-> forall j, (j < n)%nat -> sub_auth_at s1 j = sub_auth_at s2 j.
Proof.
  induction n as [|n IH]; simpl; [split; [lia|done]|].
  destruct (Z.eqb_spec (sub_auth_at s1 n) (sub_auth_at s2 n)) as [He|Hne]; simpl.
  - rewrite IH. split; intros H j Hj; [|apply H; lia].
    destruct (decide (j = n)) as [->|]; [done|]. apply H; lia.
  - split; [done|]. intros H. destruct Hne. apply (H n). lia.
Qed.

(** What [dom_sid_in_domain] tests: same revision and authority, and the
    domain's sub-authorities are a prefix. *)
Lemma dom_sid_in_domain_spec d s :
  dom_sid_in_domain (Some d) (Some s) = true <->
  num_auths d <= num_auths s /\ sid_rev_num d = sid_rev_num s /\
  (forall j, (j < 6)%nat -> id_auth_at d j = id_auth_at s j) /\
  (forall j, (j < auth_count d)%nat -> sub_auth_at d j = sub_auth_at s j).
Proof.
  unfold dom_sid_in_domain. destruct (Z.ltb_spec (num_auths s) (num_auths d)).
  { split; [done|]. intros [? _]. lia. }
  destruct (same_sub_auths d s (auth_count d)) eqn:E.
  - rewrite Z.eqb_eq, dom_sid_compare_auth_zero.
    pose proof (proj1 (same_sub_auths_true _ _ _) E).
    split; [intros [? ?]; auto | intros (_ & ? & ? & _); auto].
  - split; [done|]. intros (_ & _ & _ & Hs).
    by rewrite (proj2 (same_sub_auths_true _ _ _) Hs) in E.
Qed.

Lemma sub_auth_at_add_rid d rid j :
  sid_wf d -> num_auths d < 127 -> (j < auth_count d)%nat ->
  sub_auth_at (dom_sid_add_rid d rid) j = sub_auth_at d j.
Proof.
  intros W Hn Hj. pose proof (wf_sub_len d W). unfold sub_auth_at. simpl.
  rewrite lookup_app_l by (rewrite length_take; lia). by rewrite lookup_take_lt.
Qed.

(** ** Properties *)

(** [dom_sid_equal] decides equality of well-formed SIDs: it answers true
    exactly when the revision, the authority, the count and the counted
    sub-authorities agree, although [dom_sid_compare] compares the words by a
    difference that wraps around. *)
Theorem dom_sid_equal_correct (s1 s2 : dom_sid) (W1 : sid_wf s1) (W2 : sid_wf s2) :
  dom_sid_equal (Some s1) (Some s2) = true <-> sid_eq s1 s2.
Proof. by apply dom_sid_equal_spec. Qed.

(** Printing a SID and parsing the string gives the SID back, when its
    authority fits the 32 bits the string shows. *)
Theorem dom_sid_parse_string (s : dom_sid) (W : sid_wf s)
  (Hlen : length (sub_auths s) = auth_count s)
  (Hauth : id_auth_at s 0 = 0 /\ id_auth_at s 1 = 0) :
  dom_sid_parse_talloc (dom_sid_string (Some s)) = Some s.
Proof.
  rewrite dom_sid_string_text by done.
  pose proof (wf_rev s W) as Hr. pose proof (wf_num s W) as Hn.
  unfold sid_text. rewrite !string_app_assoc. unfold dom_sid_parse_talloc.
  change (after_S_dash ("S-" +:+ ?t)) with (Some t).
  cbv beta iota. rewrite strtol_print by (lia || done). cbn [endptr].
  change ("-" +:+ ?t) with (String "-" t). cbv iota.
  rewrite strtol_print by (apply sid_ia_range || apply sub_auth_text_starts).
  rewrite count_dashes_text.
  rewrite (u32_small (sid_ia s)) by apply sid_ia_range.
  rewrite (u32_small (Z.of_nat _)) by (unfold auth_count; lia).
  rewrite Nat2Z.id, parse_sub_auths_text, map_sub_auth_at by (done || lia).
  rewrite take_ge by lia. rewrite (u32_small (sid_rev_num s)) by lia.
  destruct s as [rev num ids subs]; simpl in *. f_equal. f_equal.
  - unfold u8. apply Z.mod_small; lia.
  - unfold auth_count, s8. simpl. rewrite Z.mod_small; lia.
  - pose proof (wf_id_len _ W) as Hi. pose proof (wf_id _ W) as Hb. simpl in Hi, Hb.
    destruct ids as [|i0 [|i1 [|a [|b [|c [|d [|]]]]]]]; try done.
    destruct Hauth as [H0 H1]. unfold id_auth_at in H0, H1. simpl in H0, H1. subst.
    repeat (apply Forall_cons in Hb as [? Hb]).
    destruct (ia_bytes a b c d) as (Hv & E1 & E2 & E3 & E4); [done..|].
    unfold sid_ia, id_auth_at. simpl lookup. simpl default.
    rewrite u32_small by done. by rewrite E1, E2, E3, E4.
Qed.

(** A rid added to a domain SID is split off again, leaving the domain. *)
Theorem dom_sid_add_split (d : dom_sid) (rid : Z) (W : sid_wf d) (Hn : num_auths d < 127) :
  exists d', dom_sid_split_rid (dom_sid_add_rid d rid) = (NT_STATUS_OK, Some (d', rid)) /\
             sid_eq d' d /\
             dom_sid_in_domain (Some d) (Some (dom_sid_add_rid d rid)) = true.
Proof.
  pose proof (wf_num d W) as Hw. pose proof (wf_sub_len d W) as Hl.
  assert (num_auths (dom_sid_add_rid d rid) = num_auths d + 1) as Hna
    by (simpl; apply s8_small; lia).
  assert (auth_count (dom_sid_add_rid d rid) = S (auth_count d)) as Hc
    by (unfold auth_count; rewrite Hna; lia).
  assert (sub_auth_at (dom_sid_add_rid d rid) (Z.to_nat (num_auths d)) = rid) as Hrid.
  { unfold sub_auth_at. cbn [dom_sid_add_rid sub_auths].
    rewrite lookup_app_r by (rewrite length_take; unfold auth_count; lia).
    rewrite length_take.
    replace (_ - _)%nat with 0%nat by (unfold auth_count in *; lia). done. }
  unfold dom_sid_split_rid. rewrite Hna. destruct (Z.eqb_spec (num_auths d + 1) 0); [lia|].
  cbn [dom_sid_dup]. eexists. split; [|split].
  - replace (num_auths d + 1 - 1) with (num_auths d) by lia. rewrite Hrid. reflexivity.
  - assert (length (take (auth_count d) (sub_auths d)) = auth_count d) as Ht
      by (rewrite length_take; lia).
    unfold sid_eq, sid_canon. cbn [sid_rev_num num_auths id_auth sub_auths].
    rewrite Hna, Hc, map_sub_auth_at by (simpl; rewrite length_app, Ht; simpl; lia).
    rewrite map_id_auth_at by (simpl; apply W).
    cbn [id_auth sub_auths dom_sid_add_rid]. rewrite !s8_small by lia.
    replace (num_auths d + 1 - 1) with (num_auths d) by lia.
    unfold auth_count at 1. cbn [num_auths]. fold (auth_count d).
    f_equal. rewrite take_take, Nat.min_l by lia. by rewrite take_app_le, take_take, Nat.min_id by lia.
  - apply dom_sid_in_domain_spec. rewrite Hna. repeat split; [lia|].
    intros j Hj. symmetry. apply sub_auth_at_add_rid; [done|lia..].
Qed.

(** ** Witnesses *)

Definition sid_S_1_5_21 : dom_sid := mk_dom_sid 1 4 [0; 0; 0; 0; 0; 5] [21; 1000; 4294967295; 7].
Definition sid_S_1_5_21' : dom_sid := mk_dom_sid 1 4 [0; 0; 0; 0; 0; 5] [21; 1000; 4294967295; 7; 99].

Ltac solve_sid_wf :=
  split; [simpl; lia | simpl; lia | reflexivity | repeat constructor; lia
         | vm_compute; lia | repeat constructor; lia].

Lemma dom_sid_equal_correct_witness :
  dom_sid_equal (Some sid_S_1_5_21) (Some sid_S_1_5_21') = true <->
  sid_eq sid_S_1_5_21 sid_S_1_5_21'.
Proof. apply dom_sid_equal_correct; solve_sid_wf. Defined.

Lemma dom_sid_parse_string_witness :
  dom_sid_parse_talloc (dom_sid_string (Some sid_S_1_5_21)) = Some sid_S_1_5_21 /\
  dom_sid_string (Some sid_S_1_5_21) = "S-1-5-21-1000-4294967295-7".
Proof.
  split; [|vm_compute; reflexivity].
  apply dom_sid_parse_string; [solve_sid_wf | reflexivity | split; reflexivity].
Defined.

Lemma dom_sid_add_split_witness :
  exists d', dom_sid_split_rid (dom_sid_add_rid sid_S_1_5_21 500) = (NT_STATUS_OK, Some (d', 500)) /\
             sid_eq d' sid_S_1_5_21 /\
             dom_sid_in_domain (Some sid_S_1_5_21) (Some (dom_sid_add_rid sid_S_1_5_21 500)) = true.
Proof. apply dom_sid_add_split; [solve_sid_wf | reflexivity]. Defined.
