(* ===== verification/Token.v ===== *)
(** * Security tokens and privileges
    ([source4/libcli/security/security_token.c], [privilege.c])

    The [sids] array of a token is the list of the SIDs its pointers point to
    (they are never NULL); a privilege is its enum value, and [privilege_mask]
    a 64-bit word.  The debug printers are not modelled. *)

From S2P Require Import Prelude NtStatus CLib DomSid.

Local Open Scope string_scope.
Local Open Scope Z_scope.

Record security_token : Set := mk_token {
  user_sid : option dom_sid;
  group_sid : option dom_sid;
  sids : list dom_sid;
  privilege_mask : Z            (* uint64_t *)
}.

Definition security_token_initialise : security_token := mk_token None None [] 0.

(** ** Membership *)

Definition security_token_is_sid (token : security_token) (sid : option dom_sid) : bool :=
  dom_sid_equal (user_sid token) sid.

Definition security_token_is_sid_string (token : security_token) (s : string) : bool :=
  match dom_sid_parse_talloc s with
  | None => false
  | Some sid => security_token_is_sid token (Some sid)
  end.

Definition SID_NT_SYSTEM : string := "S-1-5-18".
Definition SID_NT_ANONYMOUS : string := "S-1-5-7".
Definition SID_BUILTIN_ADMINISTRATORS : string := "S-1-5-32-544".
Definition SID_NT_AUTHENTICATED_USERS : string := "S-1-5-11".

Definition security_token_is_system (token : security_token) : bool :=
  security_token_is_sid_string token SID_NT_SYSTEM.

Definition security_token_is_anonymous (token : security_token) : bool :=
  security_token_is_sid_string token SID_NT_ANONYMOUS.

Definition security_token_has_sid (token : security_token) (sid : option dom_sid) : bool :=
  existsb (fun s => dom_sid_equal (Some s) sid) (sids token).

Definition security_token_has_sid_string (token : security_token) (s : string) : bool :=
  match dom_sid_parse_talloc s with
  | None => false
  | Some sid => security_token_has_sid token (Some sid)
  end.

Definition security_token_has_builtin_administrators (token : security_token) : bool :=
  security_token_has_sid_string token SID_BUILTIN_ADMINISTRATORS.

Definition security_token_has_nt_authenticated_users (token : security_token) : bool :=
  security_token_has_sid_string token SID_NT_AUTHENTICATED_USERS.

(** ** Privileges *)

Definition SEC_PRIV_SECURITY : Z := 1.
Definition SEC_PRIV_RESTORE : Z := 3.

(** [privilege_names]: id, wire name, display name. *)
Definition privilege_names : list (Z * string * string) :=
  [ (1, "SeSecurityPrivilege", "System security");
    (2, "SeBackupPrivilege", "Backup files and directories");
    (3, "SeRestorePrivilege", "Restore files and directories");
    (4, "SeSystemtimePrivilege", "Set the system clock");
    (5, "SeShutdownPrivilege", "Shutdown the system");
    (6, "SeRemoteShutdownPrivilege", "Shutdown the system remotely");
    (7, "SeTakeOwnershipPrivilege", "Take ownership of files and directories");
    (8, "SeDebugPrivilege", "Debug processes");
    (9, "SeSystemEnvironmentPrivilege", "Modify system environment");
    (10, "SeSystemProfilePrivilege", "Profile the system");
    (11, "SeProfileSingleProcessPrivilege", "Profile one process");
    (12, "SeIncreaseBasePriorityPrivilege", "Increase base priority");
    (13, "SeLoadDriverPrivilege", "Load drivers");
    (14, "SeCreatePagefilePrivilege", "Create page files");
    (15, "SeIncreaseQuotaPrivilege", "Increase quota");
    (16, "SeChangeNotifyPrivilege", "Register for change notify");
    (17, "SeUndockPrivilege", "Undock devices");
    (18, "SeManageVolumePrivilege", "Manage system volumes");
    (19, "SeImpersonatePrivilege", "Impersonate users");
    (20, "SeCreateGlobalPrivilege", "Create global");
    (21, "SeEnableDelegationPrivilege", "Enable Delegation");
    (22, "SeInteractiveLogonRight", "Interactive logon");
    (23, "SeNetworkLogonRight", "Network logon");
    (24, "SeRemoteInteractiveLogonRight", "Remote Interactive logon") ].

Definition sec_privilege_name (privilege : Z) : option string :=
  (fun e => e.1.2) <$> find (fun e => e.1.1 =? privilege) privilege_names.

Definition sec_privilege_display_name (privilege : Z) : option string :=
  if (privilege <? 1) || (64 <? privilege) then None
  else (fun e => e.2) <$> find (fun e => e.1.1 =? privilege) privilege_names.

(** -1 when no name matches. *)
Definition sec_privilege_id (name : string) : Z :=
  match find (fun e => strcaseeq e.1.2 name) privilege_names with
  | Some e => e.1.1
  | None => -1
  end.

Definition sec_privilege_mask (privilege : Z) : Z :=
  if (privilege <? 1) || (64 <? privilege) then 0
  else u64 (Z.shiftl 1 (privilege - 1)).

Definition security_token_has_privilege (token : security_token) (privilege : Z) : bool :=
  if (privilege <? 1) || (64 <? privilege) then false
  else has_bits (privilege_mask token) (sec_privilege_mask privilege).

Definition security_token_set_privilege (token : security_token) (privilege : Z)
    : security_token :=
  if (privilege <? 1) || (64 <? privilege) then token
  else mk_token (user_sid token) (group_sid token) (sids token)
         (Z.lor (privilege_mask token) (sec_privilege_mask privilege)).

(** ** Lemmas *)

Lemma sec_privilege_mask_pow p : 1 <= p <= 64 -> sec_privilege_mask p = 2 ^ (p - 1).
Proof.
  intros Hp. unfold sec_privilege_mask.
  replace ((p <? 1) || (64 <? p)) with false by lia.
  rewrite Z.shiftl_1_l. apply u64_small.
  split; [lia|]. apply Z.pow_lt_mono_r; lia.
Qed.

Lemma has_privilege_testbit t p :
  1 <= p <= 64 ->
  security_token_has_privilege t p = Z.testbit (privilege_mask t) (p - 1).
Proof.
  intros Hp. unfold security_token_has_privilege.
  replace ((p <? 1) || (64 <? p)) with false by lia.
  rewrite sec_privilege_mask_pow by done. apply eq_true_iff_eq.
  rewrite has_bits_testbit. split.
  - intros (b & Hb & H1 & H2). rewrite Z.pow2_bits_eqb in H2 by lia.
    apply Z.eqb_eq in H2. by subst b.
  - intros H. exists (p - 1). rewrite Z.pow2_bits_true by lia. repeat split; [lia|done].
Qed.

Lemma find_ext_lower (l : list (Z * string * string)) a b :
  lower a = lower b ->
  find (fun e => strcaseeq e.1.2 b) l = find (fun e => strcaseeq e.1.2 a) l.
Proof.
  intros Hl. induction l as [|e l IH]; simpl; [done|]. rewrite IH.
  replace (strcaseeq e.1.2 b) with (strcaseeq e.1.2 a); [done|].
  apply eq_true_iff_eq. by rewrite !strcaseeq_lower, Hl.
Qed.

(** ** Properties *)

(** Setting a privilege turns on that privilege and no other, and leaves
    the SIDs alone; an id outside 1..64 is neither set nor ever held. *)
Theorem set_privilege_correct (t : security_token) (p q : Z) :
  security_token_has_privilege (security_token_set_privilege t p) q =
    (security_token_has_privilege t q ||
     ((1 <=? p) && (p <=? 64) && (p =? q))) /\
  sids (security_token_set_privilege t p) = sids t.
Proof.
  unfold security_token_set_privilege.
  destruct (Z.ltb_spec p 1), (Z.ltb_spec 64 p); simpl; (split; [|done]).
  1-3: rewrite orb_comm; replace ((1 <=? p) && (p <=? 64)) with false by lia; done.
  destruct (decide (1 <= q <= 64)) as [Hq|Hq].
  - rewrite !has_privilege_testbit by done. simpl.
    rewrite Z.lor_spec, sec_privilege_mask_pow, Z.pow2_bits_eqb by lia.
    destruct (Z.testbit (privilege_mask t) (q - 1)); simpl; lia.
  - unfold security_token_has_privilege.
    replace ((q <? 1) || (64 <? q)) with true by lia. simpl. lia.
Qed.

(** The wire names of the privileges are unambiguous: any spelling of the
    name of an id, whatever the case of its letters, maps back to that id. *)
Theorem privilege_name_id (p : Z) (name spelled : string)
  (H : sec_privilege_name p = Some name) (Hcase : strcaseeq name spelled = true) :
  sec_privilege_id spelled = p.
Proof.
  unfold sec_privilege_name in H.
  destruct (find _ privilege_names) as [e|] eqn:Hf; [|done]. simpl in H. injection H as <-.
  pose proof (List.find_some _ _ Hf) as [Hin Hp]. apply Z.eqb_eq in Hp. subst p. clear Hf.
  apply strcaseeq_lower in Hcase.
  assert (sec_privilege_id spelled = sec_privilege_id (e.1.2)) as ->.
  { unfold sec_privilege_id. erewrite find_ext_lower; [done|done]. }
  unfold privilege_names in Hin.
  repeat (destruct Hin as [<-|Hin]; [vm_compute; reflexivity|]). destruct Hin.
Qed.

Lemma privilege_name_id_witness : sec_privilege_id "sErEsToRePrIvIlEgE" = 3.
Proof.
  apply (privilege_name_id 3 "SeRestorePrivilege"); vm_compute; reflexivity.
Defined.
