(* ===== verification/SecDesc.v ===== *)
(** * Security descriptors
    ([source4/libcli/security/security_descriptor.c],
     [source4/librpc/ndr/ndr_sec_helper.c], [librpc/idl/security.idl])

    The array [aces] of an ACL is the list of its first [num_aces] entries, so
    [num_aces] is the length of the list; an ACL or SID pointer that may be
    NULL is an option.  Allocation does not fail. *)

From S2P Require Import Prelude NtStatus CLib DomSid.

Local Open Scope Z_scope.

(** ** Constants of [security.idl] *)

Definition SEC_ACE_TYPE_ACCESS_ALLOWED : Z := 0.
Definition SEC_ACE_TYPE_ACCESS_DENIED : Z := 1.
Definition SEC_ACE_TYPE_ACCESS_ALLOWED_OBJECT : Z := 5.
Definition SEC_ACE_TYPE_ACCESS_DENIED_OBJECT : Z := 6.
Definition SEC_ACE_TYPE_SYSTEM_AUDIT_OBJECT : Z := 7.
Definition SEC_ACE_TYPE_SYSTEM_ALARM_OBJECT : Z := 8.
Definition SEC_ACE_FLAG_INHERIT_ONLY : Z := 8.
Definition SEC_ACE_OBJECT_TYPE_PRESENT : Z := 1.
Definition SEC_ACE_INHERITED_OBJECT_TYPE_PRESENT : Z := 2.
Definition SECURITY_ACL_REVISION_NT4 : Z := 2.
Definition SECURITY_ACL_REVISION_ADS : Z := 4.
Definition SD_REVISION : Z := 1.
Definition SEC_DESC_DACL_PRESENT : Z := 4.
Definition SEC_DESC_SACL_PRESENT : Z := 16.
Definition SEC_DESC_SELF_RELATIVE : Z := 32768.

Record security_ace_object : Set := mk_ace_object {
  object_flags : Z;
  object_type : list Z;              (* GUID *)
  object_inherited_type : list Z     (* GUID *)
}.

Record security_ace : Set := mk_ace {
  ace_type : Z;
  ace_flags : Z;
  ace_size : Z;
  access_mask : Z;
  ace_object : security_ace_object;
  trustee : dom_sid
}.

Record security_acl : Set := mk_acl {
  acl_revision : Z;
  acl_size : Z;
  aces : list security_ace
}.

Definition num_aces (a : security_acl) : Z := Z.of_nat (length (aces a)).

Record security_descriptor : Set := mk_sd {
  sd_revision : Z;
  sd_type : Z;
  owner_sid : option dom_sid;
  sd_group_sid : option dom_sid;
  sacl : option security_acl;
  dacl : option security_acl
}.

#[export] Instance security_ace_eq_dec : EqDecision security_ace.
Proof. repeat intro. unfold Decision. repeat decide equality. Defined.

(** The four object ACE types, as the [switch] statements test them. *)
Definition is_object_ace_type (t : Z) : bool :=
  (t =? SEC_ACE_TYPE_ACCESS_ALLOWED_OBJECT) || (t =? SEC_ACE_TYPE_ACCESS_DENIED_OBJECT) ||
  (t =? SEC_ACE_TYPE_SYSTEM_AUDIT_OBJECT) || (t =? SEC_ACE_TYPE_SYSTEM_ALARM_OBJECT).

(** ** Creation and copying *)

Definition security_descriptor_initialise : security_descriptor :=
  mk_sd SD_REVISION SEC_DESC_SELF_RELATIVE None None None None.

(** [talloc_memdup] of the [num_auths] words of a trustee. *)
Definition dup_sub_auths (s : dom_sid) : dom_sid :=
  mk_dom_sid (sid_rev_num s) (num_auths s) (id_auth s) (take (auth_count s) (sub_auths s)).

Definition dup_trustee (a : security_ace) : security_ace :=
  mk_ace (ace_type a) (ace_flags a) (ace_size a) (access_mask a) (ace_object a)
    (dup_sub_auths (trustee a)).

Definition security_acl_dup (oacl : security_acl) : security_acl :=
  mk_acl (acl_revision oacl) (acl_size oacl) (map dup_trustee (aces oacl)).

(** The new descriptor comes from [talloc_zero] and receives the four
    pointers; its [revision] and [type] stay zero. *)
Definition security_descriptor_copy (osd : security_descriptor) : security_descriptor :=
  mk_sd 0 0
    (dom_sid_dup (owner_sid osd))
    (dom_sid_dup (sd_group_sid osd))
    (security_acl_dup <$> sacl osd)
    (security_acl_dup <$> dacl osd).

(** ** Editing the DACL *)

Definition empty_dacl : security_acl := mk_acl SECURITY_ACL_REVISION_NT4 0 [].

Definition security_descriptor_dacl_add (sd : security_descriptor) (ace : security_ace)
    : NTSTATUS * security_descriptor :=
  let acl := default empty_dacl (dacl sd) in
  let revision := if is_object_ace_type (ace_type ace)
                  then SECURITY_ACL_REVISION_ADS else acl_revision acl in
  (NT_STATUS_OK,
   mk_sd (sd_revision sd) (Z.lor (sd_type sd) SEC_DESC_DACL_PRESENT)
     (owner_sid sd) (sd_group_sid sd) (sacl sd)
     (Some (mk_acl revision (acl_size acl) (aces acl ++ [dup_trustee ace])))).

(** The loop [for (i=0;i<num_aces;i++)] of [security_descriptor_dacl_del]: on a
    match the tail moves down over entry [i], and [i] is incremented all the
    same.  [fuel] bounds the iterations; the number of entries is enough
    ([dacl_del_loop_skip]). *)
Fixpoint dacl_del_loop (fuel : nat) (i : nat) (t : dom_sid) (l : list security_ace)
    (found : bool) : list security_ace * bool :=
  match fuel with
  | O => (l, found)
  | S fuel' =>
      match l !! i with
      | None => (l, found)
      | Some a =>
          if dom_sid_equal (Some t) (Some (trustee a))
          then dacl_del_loop fuel' (S i) t (delete i l) true
          else dacl_del_loop fuel' (S i) t l found
      end
  end.

Definition security_descriptor_dacl_del (sd : security_descriptor) (t : dom_sid)
    : NTSTATUS * security_descriptor :=
  match dacl sd with
  | None => (NT_STATUS_OBJECT_NAME_NOT_FOUND, sd)
  | Some acl =>
      let '(l, found) := dacl_del_loop (length (aces acl)) 0 t (aces acl) false in
      if negb found then (NT_STATUS_OBJECT_NAME_NOT_FOUND, sd)
      else
        let revision := if existsb (fun a => is_object_ace_type (ace_type a)) l
                        then SECURITY_ACL_REVISION_ADS else SECURITY_ACL_REVISION_NT4 in
        (NT_STATUS_OK,
         mk_sd (sd_revision sd) (sd_type sd) (owner_sid sd) (sd_group_sid sd) (sacl sd)
           (Some (mk_acl revision (acl_size acl) l)))
  end.

(** ** Comparison *)

Definition security_ace_equal (a1 a2 : security_ace) : bool :=
  (ace_type a1 =? ace_type a2) && (ace_flags a1 =? ace_flags a2) &&
  (access_mask a1 =? access_mask a2) &&
  dom_sid_equal (Some (trustee a1)) (Some (trustee a2)).

Fixpoint aces_equal (l1 l2 : list security_ace) : bool :=
  match l1, l2 with
  | a1 :: l1', a2 :: l2' => security_ace_equal a1 a2 && aces_equal l1' l2'
  | _, _ => true
  end.

Definition security_acl_equal (acl1 acl2 : option security_acl) : bool :=
  match acl1, acl2 with
  | None, None => true
  | Some c1, Some c2 =>
      (acl_revision c1 =? acl_revision c2) && (num_aces c1 =? num_aces c2) &&
      aces_equal (aces c1) (aces c2)
  | _, _ => false
  end.

Definition security_descriptor_equal (sd1 sd2 : security_descriptor) : bool :=
  (sd_revision sd1 =? sd_revision sd2) && (sd_type sd1 =? sd_type sd2) &&
  dom_sid_equal (owner_sid sd1) (owner_sid sd2) &&
  dom_sid_equal (sd_group_sid sd1) (sd_group_sid sd2) &&
  security_acl_equal (sacl sd1) (sacl sd2) &&
  security_acl_equal (dacl sd1) (dacl sd2).

Definition security_descriptor_mask_equal (sd1 sd2 : security_descriptor) (mask : Z) : bool :=
  (sd_revision sd1 =? sd_revision sd2) &&
  (Z.land (sd_type sd1) mask =? Z.land (sd_type sd2) mask) &&
  dom_sid_equal (owner_sid sd1) (owner_sid sd2) &&
  dom_sid_equal (sd_group_sid sd1) (sd_group_sid sd2) &&
  negb (has_bits mask SEC_DESC_DACL_PRESENT && negb (security_acl_equal (dacl sd1) (dacl sd2))) &&
  negb (has_bits mask SEC_DESC_SACL_PRESENT && negb (security_acl_equal (sacl sd1) (sacl sd2))).

(** ** Creation from string SIDs

    One (SID, type, mask, flags) group of the varargs list; [uninit] is the
    freshly allocated ACE, whose other fields keep what the allocation holds. *)
Fixpoint create_aces (uninit : security_ace) (sd : security_descriptor)
    (args : list (string * Z * Z * Z)) : option security_descriptor :=
  match args with
  | [] => Some sd
  | (sidstr, t, mask, flags) :: rest =>
      match dom_sid_parse_talloc sidstr with
      | None => None
      | Some sid =>
          let ace := mk_ace t (u8 flags) (ace_size uninit) (u32 mask) (ace_object uninit) sid in
          let '(status, sd') := security_descriptor_dacl_add sd ace in
          if NT_STATUS_IS_OK status then create_aces uninit sd' rest else None
      end
  end.

(** An optional string SID: [None] is the failure of the whole call. *)
Definition parse_opt_sid (s : option string) : option (option dom_sid) :=
  match s with
  | None => Some None
  | Some str => Some <$> dom_sid_parse_talloc str
  end.

Definition security_descriptor_create (uninit : security_ace) (owner group : option string)
    (args : list (string * Z * Z * Z)) : option security_descriptor :=
  let sd := security_descriptor_initialise in
  match parse_opt_sid owner with
  | None => None
  | Some o =>
      match parse_opt_sid group with
      | None => None
      | Some g =>
          create_aces uninit (mk_sd (sd_revision sd) (sd_type sd) o g (sacl sd) (dacl sd)) args
      end
  end.

(** ** Wire sizes ([ndr_sec_helper.c]) *)

Definition ndr_size_dom_sid (sid : option dom_sid) : Z :=
  match sid with None => 0 | Some s => 8 + 4 * num_auths s end.

Definition ndr_size_security_ace (ace : security_ace) : Z :=
  let ret := 8 + ndr_size_dom_sid (Some (trustee ace)) in
  if is_object_ace_type (ace_type ace) then
    let fl := object_flags (ace_object ace) in
    ret + 4 + (if has_bits fl SEC_ACE_OBJECT_TYPE_PRESENT then 16 else 0)
        + (if has_bits fl SEC_ACE_INHERITED_OBJECT_TYPE_PRESENT then 16 else 0)
  else ret.

Definition ndr_size_security_acl (acl : option security_acl) : Z :=
  match acl with
  | None => 0
  | Some a => fold_left (fun ret ace => ret + ndr_size_security_ace ace) (aces a) 8
  end.

Definition ndr_size_security_descriptor (sd : option security_descriptor) : Z :=
  match sd with
  | None => 0
  | Some s => 20 + ndr_size_dom_sid (owner_sid s) + ndr_size_dom_sid (sd_group_sid s)
              + ndr_size_security_acl (dacl s) + ndr_size_security_acl (sacl s)
  end.

(** ** Lemmas *)

Definition trustee_is (t : dom_sid) (a : security_ace) : bool :=
  dom_sid_equal (Some t) (Some (trustee a)).

(** What the deletion loop leaves: the entry after a deleted one is kept
    without being looked at. *)
Fixpoint skip_del (t : dom_sid) (l : list security_ace) : list security_ace :=
  match l with
  | [] => []
  | a :: r =>
      if trustee_is t a then match r with [] => [] | b :: r' => b :: skip_del t r' end
      else a :: skip_del t r
  end.

Lemma dacl_del_loop_skip t fuel suf : forall pre found,
  (length suf <= fuel)%nat ->
  dacl_del_loop fuel (length pre) t (pre ++ suf) found =
  (pre ++ skip_del t suf, found || existsb (trustee_is t) suf).
Proof.
  revert suf. induction fuel as [|fuel IH]; intros suf pre found Hl.
  { destruct suf; simpl in *; [|lia]. by rewrite orb_false_r. }
  simpl. rewrite lookup_app_r, Nat.sub_diag by lia.
  destruct suf as [|a r]; simpl; [by rewrite orb_false_r|].
  fold (trustee_is t a). simpl in Hl. destruct (trustee_is t a) eqn:Et.
  - replace (delete (length pre) (pre ++ a :: r)) with (pre ++ r)
      by (rewrite delete_middle; done).
    destruct r as [|b r']; simpl in *.
    + destruct fuel as [|fuel]; simpl; rewrite !orb_true_r; [done|].
      rewrite lookup_ge_None_2; [done|]. rewrite app_nil_r. lia.
    + replace (S (length pre)) with (length (pre ++ [b])) by (rewrite length_app; simpl; lia).
      rewrite (cons_middle b pre r'), (app_assoc pre), IH by lia.
      by rewrite <- !app_assoc, orb_true_r.
  - replace (S (length pre)) with (length (pre ++ [a])) by (rewrite length_app; simpl; lia).
    rewrite (cons_middle a pre r), (app_assoc pre), IH by lia. by rewrite <- !app_assoc.
Qed.

(** No two neighbours both have trustee [t]. *)
Fixpoint no_adjacent (t : dom_sid) (l : list security_ace) : bool :=
  match l with
  | a :: (b :: _) as r => negb (trustee_is t a && trustee_is t b) && no_adjacent t r
  | _ => true
  end.

Lemma skip_del_filter t l :
  no_adjacent t l = true -> skip_del t l = List.filter (fun a => negb (trustee_is t a)) l.
Proof.
  remember (length l) as n eqn:Hn. assert (length l <= n)%nat as Hle by lia. clear Hn.
  revert l Hle. induction n as [|n IH]; intros [|a [|b r]] Hle Hadj; simpl in *; try done; try lia.
  - by destruct (trustee_is t a).
  - bool_hyps. destruct (trustee_is t a) eqn:Ea; simpl in *; bool_hyps.
    + rewrite H. simpl. f_equal. apply IH; [lia|]. by destruct r; bool_hyps.
    + f_equal. apply (IH (b :: r)); [simpl; lia|done].
Qed.

Lemma security_descriptor_dacl_del_some sd t acl :
  dacl sd = Some acl ->
  security_descriptor_dacl_del sd t =
  if existsb (trustee_is t) (aces acl) then
    (NT_STATUS_OK,
     mk_sd (sd_revision sd) (sd_type sd) (owner_sid sd) (sd_group_sid sd) (sacl sd)
       (Some (mk_acl (if existsb (fun a => is_object_ace_type (ace_type a)) (skip_del t (aces acl))
                      then SECURITY_ACL_REVISION_ADS else SECURITY_ACL_REVISION_NT4)
                (acl_size acl) (skip_del t (aces acl)))))
  else (NT_STATUS_OBJECT_NAME_NOT_FOUND, sd).
Proof.
  intros Hd. unfold security_descriptor_dacl_del. rewrite Hd.
  pose proof (dacl_del_loop_skip t (length (aces acl)) (aces acl) [] false ltac:(lia)) as E.
  simpl in E. rewrite E. by destruct (existsb (trustee_is t) (aces acl)).
Qed.

Lemma trustee_is_dup t a : trustee_is t (dup_trustee a) = trustee_is t a.
Proof.
  unfold trustee_is, dup_trustee, dom_sid_equal, dom_sid_compare. simpl.
  destruct (Z.eqb_spec (num_auths t) (num_auths (trustee a))) as [He|]; [|done]. simpl.
  replace (auth_count t) with (auth_count (trustee a)) by (unfold auth_count; congruence).
  assert (forall n, (n <= auth_count (trustee a))%nat ->
    compare_sub_auths t (dup_sub_auths (trustee a)) n = compare_sub_auths t (trustee a) n) as H;
    [|by rewrite H by lia].
  induction n as [|n IH]; intros Hn; [done|]. cbn [compare_sub_auths].
  replace (sub_auth_at (dup_sub_auths (trustee a)) n) with (sub_auth_at (trustee a) n);
    [by rewrite IH by lia|].
  unfold sub_auth_at. simpl. by rewrite lookup_take_lt by lia.
Qed.

(** ** Properties *)

(** [security_descriptor_dacl_del] answers OBJECT_NAME_NOT_FOUND, leaving
    the descriptor as it was, exactly when the DACL has no ACE of the trustee;
    when no two neighbouring ACEs are the trustee's it removes the trustee's
    ACEs and no others. *)
Theorem dacl_del_correct (sd : security_descriptor) (t : dom_sid) (acl : security_acl)
  (Hd : dacl sd = Some acl) (Hadj : no_adjacent t (aces acl) = true) :
  let '(st, sd') := security_descriptor_dacl_del sd t in
  (st = NT_STATUS_OBJECT_NAME_NOT_FOUND /\ sd' = sd /\
   (forall a, a ∈ aces acl -> trustee_is t a = false)) \/
  (st = NT_STATUS_OK /\ sd_type sd' = sd_type sd /\ owner_sid sd' = owner_sid sd /\
   exists acl', dacl sd' = Some acl' /\
     aces acl' = List.filter (fun a => negb (trustee_is t a)) (aces acl) /\
     (length (aces acl') < length (aces acl))%nat).
Proof.
  rewrite (security_descriptor_dacl_del_some sd t acl Hd), skip_del_filter by done.
  destruct (existsb (trustee_is t) (aces acl)) eqn:E.
  - right. repeat split. eexists. split; [reflexivity|]. simpl. split; [done|].
    apply existsb_elem_of in E as (a & Ha & Ht).
    apply list_elem_of_split in Ha as (l1 & l2 & Hs). rewrite Hs.
    rewrite List.filter_app, !length_app. simpl. rewrite Ht. simpl.
    pose proof (List.filter_length_le (fun a => negb (trustee_is t a)) l1).
    pose proof (List.filter_length_le (fun a => negb (trustee_is t a)) l2). lia.
  - left. repeat split. by apply existsb_false_elem_of.
Qed.

(** Of two neighbouring ACEs of one trustee, [security_descriptor_dacl_del]
    leaves the second, although it reports success: the descriptor it returns
    still has an ACE of the trustee. *)
Theorem dacl_del_keeps_second (sd : security_descriptor) (t : dom_sid) (acl : security_acl)
  (a b : security_ace) (rest : list security_ace)
  (Hd : dacl sd = Some acl) (Hl : aces acl = a :: b :: rest)
  (Ha : trustee_is t a = true) (Hb : trustee_is t b = true) :
  exists sd' acl', security_descriptor_dacl_del sd t = (NT_STATUS_OK, sd') /\
    dacl sd' = Some acl' /\ b ∈ aces acl'.
Proof.
  rewrite (security_descriptor_dacl_del_some sd t acl Hd), Hl. simpl. rewrite Ha. simpl.
  do 2 eexists. split; [done|]. split; [done|]. simpl. by left.
Qed.

(** Adding an ACE and deleting its trustee gives back the ACEs of a DACL
    that had none of that trustee; in between the ACE is the last entry and the
    DACL is marked present. *)
Theorem dacl_add_del (sd : security_descriptor) (ace : security_ace)
  (Hnew : forall acl a, dacl sd = Some acl -> a ∈ aces acl -> trustee_is (trustee ace) a = false) :
  let old := aces (default empty_dacl (dacl sd)) in
  let '(st1, sd1) := security_descriptor_dacl_add sd ace in
  let '(st2, sd2) := security_descriptor_dacl_del sd1 (trustee ace) in
  st1 = NT_STATUS_OK /\ has_bits (sd_type sd1) SEC_DESC_DACL_PRESENT = true /\
  aces <$> dacl sd1 = Some (old ++ [dup_trustee ace]) /\
  st2 = NT_STATUS_OK /\ aces <$> dacl sd2 = Some old.
Proof.
  cbv zeta. unfold security_descriptor_dacl_add.
  set (old := aces (default empty_dacl (dacl sd))).
  assert (forall a, a ∈ old -> trustee_is (trustee ace) a = false) as Hold.
  { intros a Ha. unfold old in Ha. destruct (dacl sd) as [acl|] eqn:E; simpl in Ha.
    - by apply (Hnew acl). - inversion Ha. }
  assert (trustee_is (trustee ace) (dup_trustee ace) = true) as Hself.
  { rewrite trustee_is_dup. unfold trustee_is, dom_sid_equal. by rewrite dom_sid_compare_refl. }
  erewrite security_descriptor_dacl_del_some by done. cbn [aces].
  rewrite (proj2 (existsb_elem_of _ _)) by (exists (dup_trustee ace); split; [set_solver|done]).
  assert (forall l, (forall a, a ∈ l -> trustee_is (trustee ace) a = false) ->
    skip_del (trustee ace) (l ++ [dup_trustee ace]) = l) as Hskip.
  { induction l as [|x l IH]; intros Hl; simpl; [by rewrite Hself|].
    rewrite Hl by left. f_equal. apply IH. intros; apply Hl. by right. }
  repeat split.
  - simpl. apply has_bits_testbit. exists 2. rewrite Z.lor_spec. split; [lia|].
    split; [apply orb_true_r | done].
  - simpl. by rewrite Hskip.
Qed.

(** ** Witnesses *)

Definition ex_ace (mask : Z) (t : dom_sid) : security_ace :=
  mk_ace SEC_ACE_TYPE_ACCESS_ALLOWED 0 0 mask (mk_ace_object 0 [] []) t.

Definition ex_sid (rid : Z) : dom_sid := mk_dom_sid 1 2 [0; 0; 0; 0; 0; 5] [32; rid].

Definition ex_sd (l : list security_ace) : security_descriptor :=
  mk_sd SD_REVISION (Z.lor SEC_DESC_SELF_RELATIVE SEC_DESC_DACL_PRESENT)
    (Some (ex_sid 544)) (Some (ex_sid 545)) None (Some (mk_acl SECURITY_ACL_REVISION_NT4 0 l)).

Lemma dacl_del_correct_witness :
  let sd := ex_sd [ex_ace 1 (ex_sid 7); ex_ace 2 (ex_sid 8); ex_ace 4 (ex_sid 7)] in
  let acl := mk_acl SECURITY_ACL_REVISION_NT4 0
    [ex_ace 1 (ex_sid 7); ex_ace 2 (ex_sid 8); ex_ace 4 (ex_sid 7)] in
  let '(st, sd') := security_descriptor_dacl_del sd (ex_sid 7) in
  (st = NT_STATUS_OBJECT_NAME_NOT_FOUND /\ sd' = sd /\
   (forall a, a ∈ aces acl -> trustee_is (ex_sid 7) a = false)) \/
  (st = NT_STATUS_OK /\ sd_type sd' = sd_type sd /\ owner_sid sd' = owner_sid sd /\
   exists acl', dacl sd' = Some acl' /\
     aces acl' = List.filter (fun a => negb (trustee_is (ex_sid 7) a)) (aces acl) /\
     (length (aces acl') < length (aces acl))%nat).
Proof.
  apply (dacl_del_correct
    (ex_sd [ex_ace 1 (ex_sid 7); ex_ace 2 (ex_sid 8); ex_ace 4 (ex_sid 7)])); reflexivity.
Defined.

Lemma dacl_del_keeps_second_witness :
  exists sd' acl',
    security_descriptor_dacl_del (ex_sd [ex_ace 1 (ex_sid 7); ex_ace 2 (ex_sid 7)]) (ex_sid 7)
      = (NT_STATUS_OK, sd') /\
    dacl sd' = Some acl' /\ ex_ace 2 (ex_sid 7) ∈ aces acl'.
Proof.
  eapply (dacl_del_keeps_second _ _ _ (ex_ace 1 (ex_sid 7)) (ex_ace 2 (ex_sid 7)) []); reflexivity.
Defined.

Lemma dacl_add_del_witness :
  let sd := ex_sd [ex_ace 1 (ex_sid 7)] in
  let '(st1, sd1) := security_descriptor_dacl_add sd (ex_ace 2 (ex_sid 8)) in
  let '(st2, sd2) := security_descriptor_dacl_del sd1 (ex_sid 8) in
  st1 = NT_STATUS_OK /\ has_bits (sd_type sd1) SEC_DESC_DACL_PRESENT = true /\
  aces <$> dacl sd1 = Some ([ex_ace 1 (ex_sid 7)] ++ [dup_trustee (ex_ace 2 (ex_sid 8))]) /\
  st2 = NT_STATUS_OK /\ aces <$> dacl sd2 = Some [ex_ace 1 (ex_sid 7)].
Proof.
  apply (dacl_add_del (ex_sd [ex_ace 1 (ex_sid 7)]) (ex_ace 2 (ex_sid 8))).
  intros acl a [= <-] Ha. apply list_elem_of_singleton in Ha as ->. reflexivity.
Defined.
