(* ===== verification/AccessCheck.v ===== *)
(** * Access checks ([source4/libcli/security/access_check.c])

    [sec_access_check] decides an access mask against the DACL of a security
    descriptor; a NULL dereference of the C code is [None].  The specification
    is per bit: a right is granted by the implicit rights of the owner and of
    the restore privilege, or by the first ACE for the token that speaks of it. *)

From S2P Require Import Prelude NtStatus CLib DomSid Token SecDesc.

Definition SEC_STD_DELETE : Z := 2 ^ 16.
Definition SEC_STD_READ_CONTROL : Z := 2 ^ 17.
Definition SEC_STD_WRITE_DAC : Z := 2 ^ 18.
Definition SEC_FLAG_SYSTEM_SECURITY : Z := 2 ^ 24.
Definition SEC_FLAG_MAXIMUM_ALLOWED : Z := 2 ^ 25.

(** [SEC_STD_WRITE_DAC | SEC_STD_READ_CONTROL | SEC_STD_DELETE] *)
Definition owner_rights : Z :=
  Z.lor (Z.lor SEC_STD_WRITE_DAC SEC_STD_READ_CONTROL) SEC_STD_DELETE.

(** The two [continue] statements at the head of the ACE loops. *)
Definition ace_applies (token : security_token) (ace : security_ace) : bool :=
  negb (has_bits (ace_flags ace) SEC_ACE_FLAG_INHERIT_ONLY) &&
  security_token_has_sid token (Some (trustee ace)).

Definition is_deny (ace : security_ace) : bool :=
  (ace_type ace =? SEC_ACE_TYPE_ACCESS_DENIED) ||
  (ace_type ace =? SEC_ACE_TYPE_ACCESS_DENIED_OBJECT).

Definition is_allow (ace : security_ace) : bool :=
  ace_type ace =? SEC_ACE_TYPE_ACCESS_ALLOWED.

(** ** The code *)

Fixpoint max_allowed_loop (token : security_token) (l : list security_ace)
    (granted denied : Z) : Z * Z :=
  match l with
  | [] => (granted, denied)
  | ace :: l' =>
      if negb (ace_applies token ace) then max_allowed_loop token l' granted denied
      else if is_allow ace then
        max_allowed_loop token l' (Z.lor granted (access_mask ace)) denied
      else if is_deny ace then
        max_allowed_loop token l' granted (Z.lor denied (access_mask ace))
      else max_allowed_loop token l' granted denied
  end.

Definition implicit_rights (sd : security_descriptor) (token : security_token) : Z :=
  if security_token_has_sid token (owner_sid sd) then owner_rights
  else if security_token_has_privilege token SEC_PRIV_RESTORE then SEC_STD_DELETE
  else 0.

Definition access_check_max_allowed (sd : security_descriptor) (token : security_token)
    : option Z :=
  match dacl sd with
  | None => None
  | Some acl =>
      let '(granted, denied) := max_allowed_loop token (aces acl) (implicit_rights sd token) 0 in
      Some (clear_bits granted denied)
  end.

(** The loop [for (i=0; bits_remaining && i < num_aces; i++)]; [None] is the
    early return of ACCESS_DENIED. *)
Fixpoint check_aces (token : security_token) (l : list security_ace) (bits_remaining : Z)
    : option Z :=
  if bits_remaining =? 0 then Some 0 else
  match l with
  | [] => Some bits_remaining
  | ace :: l' =>
      if negb (ace_applies token ace) then check_aces token l' bits_remaining
      else if is_allow ace then
        check_aces token l' (clear_bits bits_remaining (access_mask ace))
      else if is_deny ace then
        if has_bits bits_remaining (access_mask ace) then None
        else check_aces token l' bits_remaining
      else check_aces token l' bits_remaining
  end.

(** The part of [sec_access_check] after the maximum-allowed block. *)
Definition check_dacl (sd : security_descriptor) (token : security_token)
    (access_granted access_desired bits_remaining : Z) : NTSTATUS * Z :=
  if has_bits access_desired SEC_FLAG_SYSTEM_SECURITY &&
     negb (security_token_has_privilege token SEC_PRIV_SECURITY)
  then (NT_STATUS_PRIVILEGE_NOT_HELD, access_granted)
  else
    let bits := if has_bits access_desired SEC_FLAG_SYSTEM_SECURITY
                then clear_bits bits_remaining SEC_FLAG_SYSTEM_SECURITY else bits_remaining in
    if negb (has_bits (sd_type sd) SEC_DESC_DACL_PRESENT) then (NT_STATUS_OK, access_desired)
    else
      match dacl sd with
      | None => (NT_STATUS_ACCESS_DENIED, access_granted)
      | Some acl =>
          if num_aces acl =? 0 then (NT_STATUS_ACCESS_DENIED, access_granted)
          else
            let bits := if has_bits bits owner_rights &&
                           security_token_has_sid token (owner_sid sd)
                        then clear_bits bits owner_rights else bits in
            let bits := if has_bits bits SEC_STD_DELETE &&
                           security_token_has_privilege token SEC_PRIV_RESTORE
                        then clear_bits bits SEC_STD_DELETE else bits in
            match check_aces token (aces acl) bits with
            | None => (NT_STATUS_ACCESS_DENIED, access_granted)
            | Some bits => if negb (bits =? 0) then (NT_STATUS_ACCESS_DENIED, access_granted)
                           else (NT_STATUS_OK, access_granted)
            end
      end.

(** The status, and the value left in [*access_granted]. *)
Definition sec_access_check (sd : security_descriptor) (token : security_token)
    (access_desired : Z) : option (NTSTATUS * Z) :=
  if has_bits access_desired SEC_FLAG_MAXIMUM_ALLOWED then
    match access_check_max_allowed sd token with
    | None => None
    | Some m =>
        let desired := clear_bits (Z.lor access_desired m) SEC_FLAG_MAXIMUM_ALLOWED in
        Some (check_dacl sd token desired desired (clear_bits desired SEC_STD_DELETE))
    end
  else Some (check_dacl sd token access_desired access_desired access_desired).

(** ** Specification *)

(** The verdict of the first applicable ACE that mentions bit [b]. *)
Fixpoint first_match (token : security_token) (l : list security_ace) (b : Z) : option bool :=
  match l with
  | [] => None
  | ace :: l' =>
      if ace_applies token ace && Z.testbit (access_mask ace) b && (is_allow ace || is_deny ace)
      then Some (is_allow ace) else first_match token l' b
  end.

Definition bit_granted (sd : security_descriptor) (acl : security_acl) (token : security_token)
    (b : Z) : Prop :=
  (security_token_has_sid token (owner_sid sd) = true /\ Z.testbit owner_rights b = true) \/
  (security_token_has_privilege token SEC_PRIV_RESTORE = true /\
   Z.testbit SEC_STD_DELETE b = true) \/
  first_match token (aces acl) b = Some true.

(** A descriptor whose DACL restricts access. *)
Definition restricting (sd : security_descriptor) (acl : security_acl) : Prop :=
  has_bits (sd_type sd) SEC_DESC_DACL_PRESENT = true /\ dacl sd = Some acl /\ aces acl <> [].

(** ** Lemmas *)

Lemma allow_not_deny ace : is_allow ace = true -> is_deny ace = false.
Proof. unfold is_allow, is_deny. cbv [SEC_ACE_TYPE_ACCESS_ALLOWED SEC_ACE_TYPE_ACCESS_DENIED SEC_ACE_TYPE_ACCESS_DENIED_OBJECT]. lia. Qed.

Lemma check_aces_zero token l : check_aces token l 0 = Some 0.
Proof. by destruct l. Qed.

Lemma check_aces_spec token l bits :
  check_aces token l bits = Some 0 <->
  forall b, Z.testbit bits b = true -> first_match token l b = Some true.
Proof.
  revert bits. induction l as [|ace l IH]; intros bits; simpl.
  - destruct (Z.eqb_spec bits 0) as [->|Hne].
    + split; [|done]. intros _ b. by rewrite Z.bits_0.
    + split; [by intros [= ->]|]. intros H. destruct Hne. apply eq_zero_testbit.
      intros b _. destruct (Z.testbit bits b) eqn:E; [|done]. by apply H in E.
  - destruct (Z.eqb_spec bits 0) as [->|Hne].
    { split; [|done]. intros _ b. by rewrite Z.bits_0. }
    destruct (ace_applies token ace); simpl; [|apply IH].
    destruct (is_allow ace) eqn:Ea; simpl.
    + rewrite IH. split; intros H b Hb.
      * rewrite andb_true_r. destruct (Z.testbit (access_mask ace) b) eqn:Em; [done|].
        apply H. by rewrite clear_bits_spec, Hb, Em.
      * rewrite clear_bits_spec in Hb. apply andb_prop in Hb as [Hb Hm].
        apply negb_true_iff in Hm. specialize (H b Hb). by rewrite Hm in H.
    + destruct (is_deny ace) eqn:Ed; simpl.
      * destruct (has_bits bits (access_mask ace)) eqn:Eh.
        -- split; [done|]. intros H. apply has_bits_testbit in Eh as (b & _ & H1 & H2).
           specialize (H b H1). by rewrite H2 in H.
        -- rewrite IH. split; intros H b Hb; specialize (H b Hb);
             destruct (Z.testbit (access_mask ace) b) eqn:Em; simpl in *; try done;
             by destruct (has_bits_false_testbit _ _ _ Eh Hb Em).
      * rewrite IH. split; intros H b Hb; specialize (H b Hb);
          destruct (Z.testbit (access_mask ace) b); done.
Qed.

(** Clearing rights the token has for free does not change whether all of the
    remaining bits are granted. *)
Lemma clear_free_rights (P : Z -> Prop) (cond : bool) (free bits : Z) :
  (forall b, Z.testbit (if has_bits bits free && cond then clear_bits bits free else bits) b = true ->
     P b) <->
  (forall b, Z.testbit bits b = true -> P b \/ (cond = true /\ Z.testbit free b = true)).
Proof.
  destruct cond; [rewrite andb_true_r|rewrite andb_false_r].
  - destruct (has_bits bits free) eqn:E.
    + split; intros H b Hb.
      * destruct (Z.testbit free b) eqn:F; [by right|left]. apply H. by rewrite clear_bits_spec, Hb, F.
      * rewrite clear_bits_spec in Hb. apply andb_prop in Hb as [Hb Hf].
        apply negb_true_iff in Hf. destruct (H b Hb) as [|[_ ?]]; [done|congruence].
    + split; intros H b Hb; [left; auto|]. destruct (H b Hb) as [|[_ Hf]]; [done|].
      by destruct (has_bits_false_testbit _ _ _ E Hb Hf).
  - split; intros H b Hb; [left; auto|]. by destruct (H b Hb) as [|[? _]].
Qed.

Lemma num_aces_zero acl : (num_aces acl =? 0) = true <-> aces acl = [].
Proof.
  unfold num_aces. rewrite Z.eqb_eq. destruct (aces acl); simpl; [done|]. split; [lia|done].
Qed.

(** [check_dacl] on a restricting descriptor, when the security privilege is
    not the obstacle: every bit but the one of that privilege is granted. *)
Lemma check_dacl_spec sd acl token granted desired bits :
  restricting sd acl ->
  has_bits desired SEC_FLAG_SYSTEM_SECURITY = false \/
    security_token_has_privilege token SEC_PRIV_SECURITY = true ->
  let rest := if has_bits desired SEC_FLAG_SYSTEM_SECURITY
              then clear_bits bits SEC_FLAG_SYSTEM_SECURITY else bits in
  (check_dacl sd token granted desired bits = (NT_STATUS_OK, granted) /\
   forall b, Z.testbit rest b = true -> bit_granted sd acl token b) \/
  (check_dacl sd token granted desired bits = (NT_STATUS_ACCESS_DENIED, granted) /\
   ~ forall b, Z.testbit rest b = true -> bit_granted sd acl token b).
Proof.
  intros (Hp & Hd & Hne) Hsec rest. unfold check_dacl. fold rest.
  replace (has_bits desired SEC_FLAG_SYSTEM_SECURITY &&
    negb (security_token_has_privilege token SEC_PRIV_SECURITY)) with false
    by (destruct Hsec as [-> | ->]; simpl; by rewrite ?andb_false_r).
  rewrite Hp, Hd. cbn [negb].
  destruct (num_aces acl =? 0) eqn:En; [by apply num_aces_zero in En|].
  set (b1 := if has_bits rest owner_rights && _ then _ else _).
  set (b2 := if has_bits b1 SEC_STD_DELETE && _ then _ else _).
  assert (check_aces token (aces acl) b2 = Some 0 <->
    forall b, Z.testbit rest b = true -> bit_granted sd acl token b) as Hiff.
  { rewrite check_aces_spec. unfold b2. rewrite clear_free_rights.
    unfold b1. rewrite clear_free_rights. unfold bit_granted.
    split; intros H b Hb; specialize (H b Hb); tauto. }
  destruct (check_aces token (aces acl) b2) as [r|]; [destruct (Z.eqb_spec r 0) as [->|Hr]|].
  - left. split; [done|]. by apply Hiff.
  - right. split; [done|]. rewrite <- Hiff. congruence.
  - right. split; [done|]. by rewrite <- Hiff.
Qed.

Lemma max_allowed_loop_spec token l g d b :
  Z.testbit (max_allowed_loop token l g d).1 b =
    Z.testbit g b || existsb (fun a => ace_applies token a && is_allow a &&
                                       Z.testbit (access_mask a) b) l /\
  Z.testbit (max_allowed_loop token l g d).2 b =
    Z.testbit d b || existsb (fun a => ace_applies token a && is_deny a &&
                                       Z.testbit (access_mask a) b) l.
Proof.
  revert g d. induction l as [|a l IH]; intros g d; simpl; [by rewrite !orb_false_r|].
  destruct (ace_applies token a); simpl; [|apply IH].
  destruct (is_allow a) eqn:Ea; simpl.
  - rewrite (allow_not_deny a Ea). simpl.
    destruct (IH (Z.lor g (access_mask a)) d) as [-> ->].
    rewrite Z.lor_spec. split; [|done]. by rewrite orb_assoc.
  - destruct (is_deny a); simpl; [|apply IH].
    destruct (IH g (Z.lor d (access_mask a))) as [-> ->].
    rewrite Z.lor_spec. split; [done|]. by rewrite orb_assoc.
Qed.

(** Allowed somewhere and denied nowhere: the first match allows. *)
Lemma first_match_no_deny token l b :
  existsb (fun a => ace_applies token a && is_allow a && Z.testbit (access_mask a) b) l = true ->
  existsb (fun a => ace_applies token a && is_deny a && Z.testbit (access_mask a) b) l = false ->
  first_match token l b = Some true.
Proof.
  induction l as [|a l IH]; simpl; [done|]. intros H1 H2.
  apply orb_false_elim in H2 as [H2 H3].
  destruct (ace_applies token a); simpl in *; [|by apply IH].
  destruct (Z.testbit (access_mask a) b); simpl in *.
  - rewrite andb_true_r in *. rewrite H2. rewrite orb_false_r.
    destruct (is_allow a); [done|]. by apply IH.
  - rewrite andb_false_r in H1. by apply IH.
Qed.

(** Every right the maximum-allowed mask reports is one the checker grants. *)
Lemma max_allowed_granted sd acl token m b :
  dacl sd = Some acl -> access_check_max_allowed sd token = Some m ->
  Z.testbit m b = true -> bit_granted sd acl token b.
Proof.
  intros Hd Hm Hb. unfold access_check_max_allowed in Hm. rewrite Hd in Hm.
  pose proof (max_allowed_loop_spec token (aces acl) (implicit_rights sd token) 0 b) as [H1 H2].
  destruct (max_allowed_loop _ _ _ _) as [g d]. injection Hm as <-. simpl in H1, H2.
  rewrite clear_bits_spec, H1, H2, Z.bits_0 in Hb. apply andb_prop in Hb as [Hg Hnd].
  apply negb_true_iff in Hnd. simpl in Hnd. apply orb_prop in Hg as [Hg|Hg].
  - unfold implicit_rights in Hg. unfold bit_granted.
    destruct (security_token_has_sid token (owner_sid sd)); [by left|].
    destruct (security_token_has_privilege token SEC_PRIV_RESTORE); [by right; left|].
    by rewrite Z.bits_0 in Hg.
  - right; right. by apply first_match_no_deny.
Qed.

Lemma testbit_max_allowed b :
  Z.testbit SEC_FLAG_MAXIMUM_ALLOWED b = true -> b = 25.
Proof.
  unfold SEC_FLAG_MAXIMUM_ALLOWED. destruct (Z.ltb_spec b 0); [by rewrite Z.testbit_neg_r|].
  rewrite Z.pow2_bits_eqb by lia. lia.
Qed.

Lemma has_bits_lor_l a f : has_bits f f = true -> has_bits (Z.lor f a) f = true.
Proof.
  rewrite !has_bits_testbit. intros (b & Hb & H1 & H2). exists b.
  by rewrite Z.lor_spec, H1.
Qed.

(** ** Properties *)

(** C4: on a descriptor whose DACL is present and non-empty, an explicit
    request (no MAXIMUM_ALLOWED, no SYSTEM_SECURITY bit) is granted exactly
    when every requested right is: by the owner's implicit rights, by the
    restore privilege, or because the first ACE that speaks of the right allows
    it.  Otherwise the answer is ACCESS_DENIED. *)
Theorem sec_access_check_explicit (sd : security_descriptor) (acl : security_acl)
  (token : security_token) (desired : Z) (Hr : restricting sd acl)
  (Hmax : has_bits desired SEC_FLAG_MAXIMUM_ALLOWED = false)
  (Hsec : has_bits desired SEC_FLAG_SYSTEM_SECURITY = false) :
  (sec_access_check sd token desired = Some (NT_STATUS_OK, desired) <->
   forall b, Z.testbit desired b = true -> bit_granted sd acl token b) /\
  (sec_access_check sd token desired = Some (NT_STATUS_OK, desired) \/
   sec_access_check sd token desired = Some (NT_STATUS_ACCESS_DENIED, desired)).
Proof.
  unfold sec_access_check. rewrite Hmax.
  pose proof (check_dacl_spec sd acl token desired desired desired Hr (or_introl Hsec)) as H.
  rewrite Hsec in H. cbv zeta in H.
  destruct H as [[-> H]|[-> H]]; (split; [|by auto]); split; intros Hx; first [exact H | reflexivity | congruence | contradiction].
Qed.

(** A request for MAXIMUM_ALLOWED succeeds and reports exactly the mask
    [access_check_max_allowed] computes, and every right of that mask would be
    granted to an explicit request as well: the maximum is never more than
    what the explicit check allows. *)
Theorem sec_access_check_maximum (sd : security_descriptor) (acl : security_acl)
  (token : security_token) (m : Z) (Hr : restricting sd acl)
  (Hm : access_check_max_allowed sd token = Some m)
  (Hsec : has_bits m SEC_FLAG_SYSTEM_SECURITY = false) :
  let granted := clear_bits m SEC_FLAG_MAXIMUM_ALLOWED in
  sec_access_check sd token SEC_FLAG_MAXIMUM_ALLOWED = Some (NT_STATUS_OK, granted) /\
  sec_access_check sd token granted = Some (NT_STATUS_OK, granted).
Proof.
  intros granted. pose proof Hr as (_ & Hd & _).
  assert (clear_bits (Z.lor SEC_FLAG_MAXIMUM_ALLOWED m) SEC_FLAG_MAXIMUM_ALLOWED = granted) as Hg.
  { unfold granted. apply Z.bits_inj'. intros b _.
    rewrite !clear_bits_spec, Z.lor_spec.
    by destruct (Z.testbit SEC_FLAG_MAXIMUM_ALLOWED b), (Z.testbit m b). }
  assert (has_bits granted SEC_FLAG_SYSTEM_SECURITY = false) as Hgs.
  { apply not_true_iff_false. intros (b & _ & H1 & H2)%has_bits_testbit.
    unfold granted in H1. rewrite clear_bits_spec in H1. apply andb_prop in H1 as [H1 _].
    by destruct (has_bits_false_testbit _ _ _ Hsec H1 H2). }
  assert (forall b, Z.testbit granted b = true -> bit_granted sd acl token b) as Hall.
  { intros b Hb. unfold granted in Hb. rewrite clear_bits_spec in Hb.
    apply andb_prop in Hb as [Hb _]. by eapply max_allowed_granted. }
  split.
  - unfold sec_access_check. rewrite Hm.
    change (has_bits SEC_FLAG_MAXIMUM_ALLOWED SEC_FLAG_MAXIMUM_ALLOWED) with true. cbv iota.
    rewrite Hg.
    destruct (check_dacl_spec sd acl token granted granted (clear_bits granted SEC_STD_DELETE) Hr
      (or_introl Hgs)) as [[-> _]|[_ Hn]]; [done|]. destruct Hn. rewrite Hgs.
    intros b Hb. rewrite clear_bits_spec in Hb. apply andb_prop in Hb as [Hb _]. by apply Hall.
  - unfold sec_access_check.
    replace (has_bits granted SEC_FLAG_MAXIMUM_ALLOWED) with false.
    + destruct (check_dacl_spec sd acl token granted granted granted Hr (or_introl Hgs))
        as [[-> _]|[_ Hn]]; [done|]. destruct Hn. by rewrite Hgs.
    + symmetry. apply not_true_iff_false. intros (b & _ & H1 & H2)%has_bits_testbit.
      unfold granted in H1. rewrite clear_bits_spec, H2, andb_false_r in H1. done.
Qed.

(** DELETE asked for together with MAXIMUM_ALLOWED is granted without
    being checked: the request succeeds and reports DELETE even where the DACL
    denies it to the token. *)
Theorem maximum_allowed_delete_unchecked (sd : security_descriptor) (acl : security_acl)
  (token : security_token) (m : Z) (Hr : restricting sd acl)
  (Hm : access_check_max_allowed sd token = Some m)
  (Hsec : has_bits m SEC_FLAG_SYSTEM_SECURITY = false) :
  exists granted,
    sec_access_check sd token (Z.lor SEC_FLAG_MAXIMUM_ALLOWED SEC_STD_DELETE)
      = Some (NT_STATUS_OK, granted) /\
    has_bits granted SEC_STD_DELETE = true.
Proof.
  pose proof Hr as (_ & Hd & _). unfold sec_access_check. rewrite Hm.
  change (has_bits (Z.lor SEC_FLAG_MAXIMUM_ALLOWED SEC_STD_DELETE) SEC_FLAG_MAXIMUM_ALLOWED)
    with true. cbv iota.
  set (g := clear_bits (Z.lor _ m) SEC_FLAG_MAXIMUM_ALLOWED). exists g.
  assert (has_bits g SEC_FLAG_SYSTEM_SECURITY = false) as Hgs.
  { apply not_true_iff_false. intros (b & _ & H1 & H2)%has_bits_testbit. unfold g in H1.
    rewrite clear_bits_spec, !Z.lor_spec in H1.
    assert (Z.testbit m b = false) as Hmb.
    { destruct (Z.testbit m b) eqn:E; [|done].
      by destruct (has_bits_false_testbit _ _ _ Hsec E H2). }
    rewrite Hmb, orb_false_r in H1. unfold SEC_FLAG_SYSTEM_SECURITY in H2.
    destruct (Z.ltb_spec b 0); [by rewrite Z.testbit_neg_r in H2 by done|].
    rewrite Z.pow2_bits_eqb in H2 by lia. apply Z.eqb_eq in H2. subst b.
    vm_compute in H1. done. }
  split.
  - destruct (check_dacl_spec sd acl token g g (clear_bits g SEC_STD_DELETE) Hr (or_introl Hgs))
      as [[-> _]|[_ Hn]]; [done|]. destruct Hn. rewrite Hgs.
    intros b Hb. unfold g in Hb. rewrite !clear_bits_spec, !Z.lor_spec in Hb.
    apply (max_allowed_granted sd acl token m); [done..|].
    destruct (Z.testbit m b), (Z.testbit SEC_STD_DELETE b),
      (Z.testbit SEC_FLAG_MAXIMUM_ALLOWED b); done.
  - apply has_bits_testbit. exists 16. split; [lia|]. split; [|done].
    unfold g. rewrite clear_bits_spec, !Z.lor_spec. done.
Qed.

(** A DACL that is marked present but is missing or empty denies every
    explicit request, the owner's own rights included. *)
Theorem empty_dacl_denies_owner (sd : security_descriptor) (token : security_token) (desired : Z)
  (Hp : has_bits (sd_type sd) SEC_DESC_DACL_PRESENT = true)
  (Hd : match dacl sd with None => True | Some acl => aces acl = [] end)
  (Hmax : has_bits desired SEC_FLAG_MAXIMUM_ALLOWED = false)
  (Hsec : has_bits desired SEC_FLAG_SYSTEM_SECURITY = false) :
  sec_access_check sd token desired = Some (NT_STATUS_ACCESS_DENIED, desired).
Proof.
  unfold sec_access_check, check_dacl. rewrite Hmax, Hsec, Hp. simpl.
  destruct (dacl sd) as [acl|]; [|done]. by rewrite (proj2 (num_aces_zero acl) Hd).
Qed.

(** [security_descriptor_copy] does not copy the [type] word, so the copy
    of any descriptor grants every explicit request that needs no privilege. *)
Theorem copied_descriptor_grants_all (sd : security_descriptor) (token : security_token)
  (desired : Z) (Hmax : has_bits desired SEC_FLAG_MAXIMUM_ALLOWED = false)
  (Hsec : has_bits desired SEC_FLAG_SYSTEM_SECURITY = false) :
  sec_access_check (security_descriptor_copy sd) token desired = Some (NT_STATUS_OK, desired).
Proof. unfold sec_access_check, check_dacl. by rewrite Hmax, Hsec. Qed.

(** ** Witnesses *)

Definition ex_token : security_token := mk_token (Some (ex_sid 7)) None [ex_sid 7; ex_sid 545] 0.

(** 7 may read and write but is denied DELETE; 545 may delete. *)
Definition ex_deny : security_ace :=
  mk_ace SEC_ACE_TYPE_ACCESS_DENIED 0 0 SEC_STD_DELETE (mk_ace_object 0 [] []) (ex_sid 7).
Definition ex_acl : security_acl :=
  mk_acl SECURITY_ACL_REVISION_NT4 0 [ex_deny; ex_ace 3 (ex_sid 7); ex_ace 65537 (ex_sid 545)].
Definition ex_locked : security_descriptor :=
  mk_sd SD_REVISION 32772 (Some (ex_sid 544)) None None (Some ex_acl).

Lemma ex_restricting : restricting ex_locked ex_acl.
Proof. by repeat split. Defined.

Lemma sec_access_check_explicit_witness :
  ((sec_access_check ex_locked ex_token 3 = Some (NT_STATUS_OK, 3) <->
    forall b, Z.testbit 3 b = true -> bit_granted ex_locked ex_acl ex_token b) /\
   (sec_access_check ex_locked ex_token 3 = Some (NT_STATUS_OK, 3) \/
    sec_access_check ex_locked ex_token 3 = Some (NT_STATUS_ACCESS_DENIED, 3))) /\
  sec_access_check ex_locked ex_token 3 = Some (NT_STATUS_OK, 3) /\
  sec_access_check ex_locked ex_token 65537 = Some (NT_STATUS_ACCESS_DENIED, 65537).
Proof.
  split; [|split; vm_compute; reflexivity].
  apply sec_access_check_explicit; [apply ex_restricting | reflexivity | reflexivity].
Defined.

Lemma sec_access_check_maximum_witness :
  sec_access_check ex_locked ex_token SEC_FLAG_MAXIMUM_ALLOWED = Some (NT_STATUS_OK, 3) /\
  sec_access_check ex_locked ex_token 3 = Some (NT_STATUS_OK, 3).
Proof.
  apply (sec_access_check_maximum ex_locked ex_acl ex_token 3);
    [apply ex_restricting | vm_compute; reflexivity | reflexivity].
Defined.

(** The descriptor that denies DELETE to the token. *)
Lemma maximum_allowed_delete_unchecked_witness :
  (exists granted,
    sec_access_check ex_locked ex_token (Z.lor SEC_FLAG_MAXIMUM_ALLOWED SEC_STD_DELETE)
      = Some (NT_STATUS_OK, granted) /\ has_bits granted SEC_STD_DELETE = true) /\
  sec_access_check ex_locked ex_token SEC_STD_DELETE
    = Some (NT_STATUS_ACCESS_DENIED, SEC_STD_DELETE).
Proof.
  split; [|vm_compute; reflexivity].
  apply (maximum_allowed_delete_unchecked ex_locked ex_acl ex_token 3);
    [apply ex_restricting | vm_compute; reflexivity | reflexivity].
Defined.

Lemma empty_dacl_denies_owner_witness :
  let owner := mk_token (Some (ex_sid 544)) None [ex_sid 544] 0 in
  sec_access_check (ex_sd []) owner SEC_STD_WRITE_DAC
    = Some (NT_STATUS_ACCESS_DENIED, SEC_STD_WRITE_DAC).
Proof. apply empty_dacl_denies_owner; reflexivity. Defined.

Lemma copied_descriptor_grants_all_witness :
  sec_access_check (security_descriptor_copy ex_locked) ex_token SEC_STD_DELETE
    = Some (NT_STATUS_OK, SEC_STD_DELETE).
Proof. apply copied_descriptor_grants_all; reflexivity. Defined.
