(* ===== verification/Tdb.v ===== *)
(** * The TDB a database client sees, and the messages it sends
    ([source4/lib/tdb/include/tdb.h], [source4/cluster/cluster.h],
     [source4/lib/messaging/messaging.c] as their callers use them)

    [brlock_tdb.c] and [opendb_tdb.c] use a TDB through five calls: the chain
    lock of a key, [tdb_fetch], [tdb_store] with [TDB_REPLACE], [tdb_delete].
    The state is the records by key, the depth of each chain lock (TDB chain
    locks nest within a process), and the outgoing messages.  Failure of a lock,
    store or delete is decided by a script of faults, [world_faults]: a call
    consumes the head of the script and fails when it is [true]; an empty
    script means no further failure.  A failed lock or delete leaves the records
    as they were.  A failed store takes a second entry of the script: it leaves
    them too, or it has already deleted the old record, which [tdb_store] does
    before it looks for room ([TdbSpec.tdb_store_correct]). *)

From S2P Require Import Prelude.

(** [DATA_BLOB] keys, as lists of byte values. *)
Abbreviation blob := (list Z).

(** [struct server_id]; [cluster_id_equal] compares both fields. *)
Record server_id : Set := mk_server_id { id : Z; node : Z }.

#[export] Instance server_id_eq_dec : EqDecision server_id.
Proof. solve_decision. Defined.

Definition cluster_id_equal (a b : server_id) : bool :=
  (id a =? id b) && (node a =? node b).

Inductive msg_type : Set :=
  | MSG_BRL_RETRY
  | MSG_NTVFS_OPLOCK_BREAK
  | MSG_PVFS_RETRY_OPEN.

(** [messaging_send_ptr(msg_ctx, server, msg_type, ptr)] *)
Record message : Set := mk_msg { msg_server : server_id; msg_kind : msg_type; msg_ptr : Z }.

Record world (R : Type) : Type := mk_world {
  world_recs : gmap blob R;
  world_chain : gmap blob nat;
  world_faults : list bool;
  world_msgs : list message
}.
Arguments mk_world {R}.
Arguments world_recs {R}.
Arguments world_chain {R}.
Arguments world_faults {R}.
Arguments world_msgs {R}.

Section tdb.
Context {R : Type}.
Implicit Types (w : world R) (k : blob) (r : R).

Definition chain_depth w k : nat := default 0%nat (world_chain w !! k).

Definition set_chain w k (n : nat) : world R :=
  mk_world (world_recs w) (<[k := n]> (world_chain w)) (world_faults w) (world_msgs w).
Definition set_recs w (m : gmap blob R) : world R :=
  mk_world m (world_chain w) (world_faults w) (world_msgs w).
Definition set_faults w (f : list bool) : world R :=
  mk_world (world_recs w) (world_chain w) f (world_msgs w).
Definition add_msgs w (l : list message) : world R :=
  mk_world (world_recs w) (world_chain w) (world_faults w) (world_msgs w ++ l).

(** Whether the next fallible call fails. *)
Definition next_fault : ST (world R) bool := fun w =>
  match world_faults w with
  | [] => (false, w)
  | f :: fs => (f, set_faults w fs)
  end.

(** [tdb_chainlock(...) == 0] *)
Definition tdb_chainlock k : ST (world R) bool :=
  do f <- next_fault;
  if f : bool then st_ret false
  else do! st_modify (fun w => set_chain w k (S (chain_depth w k))); st_ret true.

Definition tdb_chainunlock k : ST (world R) unit :=
  st_modify (fun w => set_chain w k (pred (chain_depth w k))).

Definition tdb_fetch k : ST (world R) (option R) :=
  do w <- st_get; st_ret (world_recs w !! k).

(** [tdb_store(..., TDB_REPLACE) == 0]: when it fails the old record may be lost. *)
Definition tdb_store k r : ST (world R) bool :=
  do f <- next_fault;
  if f : bool then
    do lost <- next_fault;
    if lost : bool then do! st_modify (fun w => set_recs w (delete k (world_recs w))); st_ret false
    else st_ret false
  else do! st_modify (fun w => set_recs w (<[k := r]> (world_recs w))); st_ret true.

(** [tdb_delete(...) == 0]: deleting an absent key is an error. *)
Definition tdb_delete k : ST (world R) bool :=
  do f <- next_fault;
  if f : bool then st_ret false
  else
    do w <- st_get;
    match world_recs w !! k with
    | None => st_ret false
    | Some _ => do! st_modify (fun w => set_recs w (delete k (world_recs w))); st_ret true
    end.

Definition send (l : list message) : ST (world R) unit := st_modify (fun w => add_msgs w l).

(** ** Invariants of the records

    [recs_ok P]: every record satisfies [P]. *)
Definition recs_ok (P : R -> Prop) w : Prop := map_Forall (fun _ r => P r) (world_recs w).

Lemma next_fault_keeps (I : world R -> Prop) :
  (forall w f, I w -> I (set_faults w f)) -> preserves I next_fault.
Proof. intros H w Hw. unfold next_fault. destruct (world_faults w); auto. Qed.

Lemma recs_ok_chainlock P k : preserves (recs_ok P) (tdb_chainlock k).
Proof.
  apply triple_bind with (fun _ => recs_ok P); [by apply next_fault_keeps|].
  intros [|]; [by apply triple_ret|].
  apply triple_bind with (fun _ => recs_ok P); [by apply triple_modify|].
  intros _. by apply triple_ret.
Qed.

Lemma recs_ok_chainunlock P k : preserves (recs_ok P) (tdb_chainunlock k).
Proof. by apply triple_modify. Qed.

Lemma recs_ok_send P l : preserves (recs_ok P) (send l).
Proof. by apply triple_modify. Qed.

(** What a fetch returns satisfies the invariant. *)
Lemma recs_ok_fetch P k :
  triple (recs_ok P) (tdb_fetch k)
    (fun o w => recs_ok P w /\ match o with Some r => P r | None => True end).
Proof.
  intros w Hw. simpl. split; [done|].
  destruct (world_recs w !! k) as [r|] eqn:E; [|done]. by apply (Hw k).
Qed.

Lemma recs_ok_store (P : R -> Prop) k r : P r -> preserves (recs_ok P) (tdb_store k r).
Proof.
  intros Hr. apply triple_bind with (fun _ => recs_ok P); [by apply next_fault_keeps|].
  intros [|].
  - apply triple_bind with (fun _ => recs_ok P); [by apply next_fault_keeps|].
    intros [|]; [|by apply triple_ret].
    apply triple_bind with (fun _ => recs_ok P); [|intros _; by apply triple_ret].
    apply triple_modify. intros w Hw. by apply map_Forall_delete.
  - apply triple_bind with (fun _ => recs_ok P); [|intros _; by apply triple_ret].
    apply triple_modify. intros w Hw. by apply map_Forall_insert_2.
Qed.

Lemma recs_ok_delete P k : preserves (recs_ok P) (tdb_delete k).
Proof.
  apply triple_bind with (fun _ => recs_ok P); [by apply next_fault_keeps|].
  intros [|]; [by apply triple_ret|].
  apply triple_bind with (fun _ => recs_ok P); [by apply triple_get|].
  intros w. destruct (world_recs w !! k); [|by apply triple_ret].
  apply triple_bind with (fun _ => recs_ok P); [|intros _; by apply triple_ret].
  apply triple_modify. intros w' Hw'. by apply map_Forall_delete.
Qed.

(** ** Chain-lock accounting

    [depths d]: the chain depths are given by [d]. *)
Definition depths (d : blob -> nat) w : Prop := forall k, chain_depth w k = d k.

Definition bump (d : blob -> nat) k : blob -> nat :=
  fun k' => if bool_decide (k' = k) then S (d k') else d k'.

Lemma depths_chainlock d k :
  triple (depths d) (tdb_chainlock k)
    (fun ok => depths (if ok then bump d k else d)).
Proof.
  apply triple_bind with (fun _ => depths d); [by apply next_fault_keeps|].
  intros [|]; [by apply triple_ret|].
  apply triple_bind with (fun _ => depths (bump d k)); [|intros _; by apply triple_ret].
  apply triple_modify. intros w Hw k'. unfold chain_depth, set_chain, bump. simpl.
  case_bool_decide as Hk; subst.
  - rewrite lookup_insert_eq. simpl. f_equal. apply Hw.
  - rewrite lookup_insert_ne by done. apply Hw.
Qed.

Lemma depths_chainunlock d k :
  triple (depths (bump d k)) (tdb_chainunlock k) (fun _ => depths d).
Proof.
  apply triple_modify. intros w Hw k'. pose proof (Hw k) as Hk. pose proof (Hw k') as Hk'.
  unfold chain_depth, set_chain, bump in *. simpl.
  destruct (decide (k' = k)) as [->|Hne].
  - rewrite lookup_insert_eq. simpl. rewrite bool_decide_eq_true_2 in Hk by done. lia.
  - rewrite lookup_insert_ne by done. by rewrite bool_decide_eq_false_2 in Hk'.
Qed.

Lemma depths_fetch d k : preserves (depths d) (tdb_fetch k).
Proof. intros w Hw. done. Qed.

Lemma depths_send d l : preserves (depths d) (send l).
Proof. by apply triple_modify. Qed.

Lemma depths_store d k r : preserves (depths d) (tdb_store k r).
Proof.
  apply triple_bind with (fun _ => depths d); [by apply next_fault_keeps|].
  intros [|].
  - apply triple_bind with (fun _ => depths d); [by apply next_fault_keeps|].
    intros [|]; [|by apply triple_ret].
    apply triple_bind with (fun _ => depths d); [by apply triple_modify|].
    intros _. by apply triple_ret.
  - apply triple_bind with (fun _ => depths d); [by apply triple_modify|].
    intros _. by apply triple_ret.
Qed.

Lemma depths_delete d k : preserves (depths d) (tdb_delete k).
Proof.
  apply triple_bind with (fun _ => depths d); [by apply next_fault_keeps|].
  intros [|]; [by apply triple_ret|].
  apply triple_bind with (fun _ => depths d); [by apply triple_get|].
  intros w. destruct (world_recs w !! k); [|by apply triple_ret].
  apply triple_bind with (fun _ => depths d); [by apply triple_modify|].
  intros _. by apply triple_ret.
Qed.
End tdb.

#[export] Hint Resolve recs_ok_chainlock recs_ok_chainunlock recs_ok_send recs_ok_store
  recs_ok_delete depths_fetch depths_send depths_store depths_delete depths_chainunlock : samba.
