(* ===== verification/TdbIo.v ===== *)
(** * tdb: the file, its locks and its access functions
    ([source4/lib/tdb/common/{tdb_private.h,io.c,lock.c}])

    A tdb is a file of bytes that several processes map.  A [tdb_context] is
    split in two: [tdb_config] is what stays as it was opened, together with the
    answers of the kernel (which locks are granted, how far the file may grow);
    [tdb_context] holds the file and what changes.  An operation is a
    computation [C A]: [None] is no result, an access outside the mapping or a
    walk along a list that runs out of fuel.  A function of the code that
    returns 0 or -1 returns [true] or [false]; a pointer argument that receives
    a result is an [option].  Functions that log and carry on only carry on.
    The host is little-endian; a file with [TDB_CONVERT] has its words
    byte-reversed.  The methods are those of [io.c] (no transaction is open).  An
    expansion that fails leaves the file unmapped and read with [pread]; reads
    within the file are the same, so [mapped] stays. *)

From S2P Require Import Prelude.

(** ** Data *)

Inductive TDB_ERROR : Set :=
  | TDB_SUCCESS | TDB_ERR_CORRUPT | TDB_ERR_IO | TDB_ERR_LOCK | TDB_ERR_OOM
  | TDB_ERR_EXISTS | TDB_ERR_NOLOCK | TDB_ERR_LOCK_TIMEOUT | TDB_ERR_NOEXIST
  | TDB_ERR_EINVAL | TDB_ERR_RDONLY.

Definition TDB_INTERNAL : Z := 2.
Definition TDB_NOLOCK : Z := 4.
Definition TDB_CONVERT : Z := 16.
Definition TDB_SEQNUM : Z := 128.

Definition TDB_VERSION : Z := u32 (0x26011967 + 6).
Definition TDB_MAGIC : Z := 0x26011999.
Definition TDB_FREE_MAGIC : Z := u32 (Z.lnot TDB_MAGIC).
Definition TDB_DEAD_MAGIC : Z := 0xFEE1DEAD.
Definition TDB_ALIGNMENT : Z := 4.
Definition TDB_PAD_BYTE : Z := 0x42.
Definition TDB_PAD_U32 : Z := 0x42424242.

(** [sizeof(struct list_struct)], [sizeof(struct tdb_header)] and the offsets
    of the members of the header the code uses. *)
Definition sizeof_rec : Z := 24.
Definition sizeof_header : Z := 168.
Definition TDB_SEQNUM_OFS : Z := 48.
Definition MIN_REC_SIZE : Z := 2 * sizeof_rec + TDB_ALIGNMENT.
Definition FREELIST_TOP : Z := sizeof_header.

Definition TDB_ALIGN (x a : Z) : Z := Z.ldiff (u32 (x + a - 1)) (a - 1).

Record list_struct : Set := mk_rec {
  next : Z;       (** offset of the next record in the list *)
  rec_len : Z;    (** total byte length of record *)
  key_len : Z;
  data_len : Z;
  full_hash : Z;
  magic : Z
}.

Definition TDB_DEAD (r : list_struct) : bool := magic r =? TDB_DEAD_MAGIC.
Definition TDB_BAD_MAGIC (r : list_struct) : bool :=
  negb (magic r =? TDB_MAGIC) && negb (TDB_DEAD r).

(** The assignments to members the code makes. *)
Definition with_rec_len (r : list_struct) (n : Z) : list_struct :=
  mk_rec (next r) n (key_len r) (data_len r) (full_hash r) (magic r).
Definition with_magic (r : list_struct) (m : Z) : list_struct :=
  mk_rec (next r) (rec_len r) (key_len r) (data_len r) (full_hash r) m.
Definition with_next (r : list_struct) (n : Z) : list_struct :=
  mk_rec n (rec_len r) (key_len r) (data_len r) (full_hash r) (magic r).

Inductive lock_rw : Set := F_RDLCK | F_WRLCK | F_UNLCK.

#[export] Instance lock_rw_eq_dec : EqDecision lock_rw.
Proof. solve_decision. Defined.

Record tdb_lock_type : Set := mk_lock { lck_list : Z; lck_count : Z; lck_ltype : lock_rw }.
Record tdb_traverse_lock : Set := mk_tlock { tl_off : Z; tl_hash : Z; tl_lock_rw : lock_rw }.

(** What a context is opened with.  [kernel_lock off len type wait] is whether
    [fcntl] grants a lock ([wait] is [F_SETLKW]); [can_extend n] is whether the
    file may have [n] bytes; [realloc_bytes n] are the [n] bytes [realloc] adds
    to an internal database. *)
Record tdb_config : Type := mk_config {
  flags : Z;
  hash_size : Z;
  page_size : Z;
  max_dead_records : Z;
  read_only : bool;
  mapped : bool;                   (** [map_ptr != NULL] *)
  hash_fn : list Z -> Z;
  kernel_lock : Z -> Z -> lock_rw -> bool -> bool;
  can_extend : Z -> bool;
  realloc_bytes : Z -> list Z
}.

Record tdb_context : Type := mk_tdb {
  file : list Z;
  map_size : Z;
  ecode : TDB_ERROR;
  global_lock : Z * lock_rw;       (** [count] and [ltype] *)
  lockrecs : list tdb_lock_type;
  num_locks : Z;
  travlocks : list tdb_traverse_lock;
  traverse_read : Z;
  have_transaction_lock : bool
}.

Definition set_file s f := mk_tdb f (map_size s) (ecode s) (global_lock s) (lockrecs s)
  (num_locks s) (travlocks s) (traverse_read s) (have_transaction_lock s).
Definition set_map_size s n := mk_tdb (file s) n (ecode s) (global_lock s) (lockrecs s)
  (num_locks s) (travlocks s) (traverse_read s) (have_transaction_lock s).
Definition set_ecode s e := mk_tdb (file s) (map_size s) e (global_lock s) (lockrecs s)
  (num_locks s) (travlocks s) (traverse_read s) (have_transaction_lock s).
Definition set_global s g := mk_tdb (file s) (map_size s) (ecode s) g (lockrecs s)
  (num_locks s) (travlocks s) (traverse_read s) (have_transaction_lock s).
Definition set_locks s l n := mk_tdb (file s) (map_size s) (ecode s) (global_lock s) l
  n (travlocks s) (traverse_read s) (have_transaction_lock s).
Definition set_travlocks s t := mk_tdb (file s) (map_size s) (ecode s) (global_lock s) (lockrecs s)
  (num_locks s) t (traverse_read s) (have_transaction_lock s).
Definition set_traverse_read s n := mk_tdb (file s) (map_size s) (ecode s) (global_lock s)
  (lockrecs s) (num_locks s) (travlocks s) n (have_transaction_lock s).
Definition set_transaction_lock s b := mk_tdb (file s) (map_size s) (ecode s) (global_lock s)
  (lockrecs s) (num_locks s) (travlocks s) (traverse_read s) b.

(** ** Computations on a context *)

Definition C (A : Type) : Type := tdb_context -> option (A * tdb_context).

Definition c_ret {A} (a : A) : C A := fun s => Some (a, s).
Definition c_bind {A B} (m : C A) (k : A -> C B) : C B :=
  fun s => match m s with Some (a, s') => k a s' | None => None end.
Definition c_get : C tdb_context := fun s => Some (s, s).
Definition c_set (f : tdb_context -> tdb_context) : C unit := fun s => Some (tt, f s).
Definition c_none {A} : C A := fun _ => None.

Declare Scope tdb_scope.
Delimit Scope tdb_scope with tdb.
Notation "'do' x <- m ; k" := (c_bind m (fun x => k))
  (at level 60, x pattern, m at next level, right associativity) : tdb_scope.
Notation "'do!' m ; k" := (c_bind m (fun _ => k))
  (at level 60, m at next level, right associativity) : tdb_scope.
#[global] Open Scope tdb_scope.

(** [if (f(...) == -1) return bad;] *)
Definition c_check {B} (m : C bool) (bad : B) (k : C B) : C B :=
  do ok <- m; if ok : bool then k else c_ret bad.
(** [if (f(..., &x) == -1) return bad;] *)
Definition c_some {A B} (m : C (option A)) (bad : B) (k : A -> C B) : C B :=
  do o <- m; match o with Some a => k a | None => c_ret bad end.

Notation "'do?!' m 'else' bad ; k" := (c_check m bad k)
  (at level 60, m at next level, bad at next level, right associativity) : tdb_scope.
Notation "'do?' x <- m 'else' bad ; k" := (c_some m bad (fun x => k))
  (at level 60, x pattern, m at next level, bad at next level, right associativity) : tdb_scope.

(** [TDB_ERRCODE(code, ret)] *)
Definition TDB_ERRCODE {A} (code : TDB_ERROR) (r : A) : C A :=
  do! c_set (fun s => set_ecode s code); c_ret r.

(** ** Bytes and words *)

Definition sub (f : list Z) (off len : Z) : list Z :=
  take (Z.to_nat len) (drop (Z.to_nat off) f).

(** [memcpy(off + map_ptr, buf, len)] or [pwrite]: past the end of the file the
    gap reads as zero. *)
Definition put (f : list Z) (off : Z) (buf : list Z) : list Z :=
  let f' := f ++ replicate (Z.to_nat off - length f) 0 in
  take (Z.to_nat off) f' ++ buf ++ drop (Z.to_nat off + length buf) f'.

Definition word_bytes (w : Z) : list Z :=
  [w mod 256; w / 2 ^ 8 mod 256; w / 2 ^ 16 mod 256; w / 2 ^ 24 mod 256].

Fixpoint bytes_words (l : list Z) : list Z :=
  match l with
  | a :: b :: c :: d :: l' => (a + b * 2 ^ 8 + c * 2 ^ 16 + d * 2 ^ 24) :: bytes_words l'
  | _ => []
  end.

Definition TDB_BYTEREV (x : Z) : Z :=
  u32 (Z.shiftl (Z.land x 0xff) 24 ||| Z.shiftl (Z.land x 0xFF00) 8
       ||| (Z.land (Z.shiftr x 8) 0xFF00 ||| Z.shiftr x 24)).

(** [tdb_convert] on a buffer of words. *)
Definition tdb_convert (p : list Z) : list Z := map TDB_BYTEREV p.

Definition rec_words (r : list_struct) : list Z :=
  [next r; rec_len r; key_len r; data_len r; full_hash r; magic r].

Definition words_rec (l : list Z) : option list_struct :=
  match l with
  | [a; b; c; d; e; f] => Some (mk_rec a b c d e f)
  | _ => None
  end.

Section io.
Context (T : tdb_config).

Definition flag (f : Z) : bool := has_bits (flags T) f.

Definition DOCONV : bool := flag TDB_CONVERT.
Definition CONVERT (p : list Z) : list Z := if DOCONV then tdb_convert p else p.

Definition BUCKET (hash : Z) : Z := hash mod hash_size T.
Definition TDB_HASH_TOP (hash : Z) : Z := FREELIST_TOP + (BUCKET hash + 1) * 4.
(** [TDB_HASH_TOP(hash_size-1)]: the last word of the hash table. *)
Definition TDB_DATA_START : Z := TDB_HASH_TOP (hash_size T - 1).

(** ** Locks ([lock.c]) *)

Definition no_writes (s : tdb_context) : bool :=
  read_only T || negb (traverse_read s =? 0).

(** [probe] only decides what is logged. *)
Definition tdb_brlock (offset : Z) (rw_type : lock_rw) (wait probe : bool) (len : Z) : C bool :=
  if flag TDB_NOLOCK then c_ret true
  else
    do s <- c_get;
    if bool_decide (rw_type = F_WRLCK) && no_writes s then TDB_ERRCODE TDB_ERR_RDONLY false
    else if kernel_lock T offset len rw_type wait then c_ret true
    else TDB_ERRCODE TDB_ERR_LOCK false.

(** [list -1] is the free list; [mark] is [TDB_MARK_LOCK] in the type of the
    lock: bookkeeping without asking the kernel. *)
Definition tdb_lock_op (list : Z) (ltype : lock_rw) (mark wait : bool) : C bool :=
  do s <- c_get;
  let '(gcount, gtype) := global_lock s in
  if negb (gcount =? 0) && (bool_decide (ltype = gtype) || bool_decide (ltype = F_RDLCK))
  then c_ret true
  else if negb (gcount =? 0) then TDB_ERRCODE TDB_ERR_LOCK false
  else if (list <? -1) || (s32 (hash_size T) <=? list) then c_ret false
  else if flag TDB_NOLOCK then c_ret true
  else match find_idx (fun l => lck_list l =? list) (lockrecs s) with
       | Some i =>
         do! c_set (fun s => set_locks s
               (alter (fun l => mk_lock (lck_list l) (lck_count l + 1) (lck_ltype l)) i (lockrecs s))
               (num_locks s));
         c_ret true
       | None =>
         do?! (if mark then c_ret true
              else tdb_brlock (u32 (FREELIST_TOP + 4 * list)) ltype wait false 1) else false;
         do! c_set (fun s => set_locks s (lockrecs s ++ [mk_lock list 1 ltype]) (num_locks s + 1));
         c_ret true
       end.

Definition tdb_lock (list : Z) (ltype : lock_rw) : C bool := tdb_lock_op list ltype false true.
Definition tdb_lock_nonblock (list : Z) (ltype : lock_rw) : C bool :=
  tdb_lock_op list ltype false false.

(** [*lck = lockrecs[num_lockrecs-1]; num_lockrecs -= 1] *)
Definition drop_lockrec (l : list tdb_lock_type) (i : nat) : list tdb_lock_type :=
  match last l with
  | Some x => removelast (<[i := x]> l)
  | None => l
  end.

Definition tdb_unlock_op (list : Z) (ltype : lock_rw) (mark : bool) : C bool :=
  do s <- c_get;
  let '(gcount, gtype) := global_lock s in
  if negb (gcount =? 0) && (bool_decide (ltype = gtype) || bool_decide (ltype = F_RDLCK))
  then c_ret true
  else if negb (gcount =? 0) then TDB_ERRCODE TDB_ERR_LOCK false
  else if flag TDB_NOLOCK then c_ret true
  else if (list <? -1) || (s32 (hash_size T) <=? list) then c_ret false
  else match find_idx (fun l => lck_list l =? list) (lockrecs s) with
       | None => c_ret false
       | Some i =>
         let count := default 0 (lck_count <$> lockrecs s !! i) in
         if count =? 0 then c_ret false
         else if 1 <? count then
           do! c_set (fun s => set_locks s
                 (alter (fun l => mk_lock (lck_list l) (lck_count l - 1) (lck_ltype l)) i (lockrecs s))
                 (num_locks s));
           c_ret true
         else
           do ret <- (if mark then c_ret true
                      else tdb_brlock (u32 (FREELIST_TOP + 4 * list)) F_UNLCK true false 1);
           do! c_set (fun s => set_locks s (drop_lockrec (lockrecs s) i) (num_locks s - 1));
           c_ret ret
       end.

Definition tdb_unlock (list : Z) (ltype : lock_rw) : C bool := tdb_unlock_op list ltype false.

Definition TRANSACTION_LOCK : Z := 8.

Definition tdb_transaction_lock (ltype : lock_rw) : C bool :=
  do s <- c_get;
  if have_transaction_lock s || negb (fst (global_lock s) =? 0) then c_ret true
  else
    do ok <- tdb_brlock TRANSACTION_LOCK ltype true false 1;
    if ok : bool then do! c_set (fun s => set_transaction_lock s true); c_ret true
    else TDB_ERRCODE TDB_ERR_LOCK false.

Definition tdb_transaction_unlock : C bool :=
  do s <- c_get;
  if negb (have_transaction_lock s) then c_ret true
  else
    do ret <- tdb_brlock TRANSACTION_LOCK F_UNLCK true false 1;
    if ret : bool then do! c_set (fun s => set_transaction_lock s false); c_ret true
    else c_ret false.

Definition tdb_lockall_op (ltype : lock_rw) (mark wait : bool) : C bool :=
  do s <- c_get;
  let '(gcount, gtype) := global_lock s in
  if no_writes s then TDB_ERRCODE TDB_ERR_LOCK false
  else if negb (gcount =? 0) && bool_decide (gtype = ltype) then
    do! c_set (fun s => set_global s (gcount + 1, gtype)); c_ret true
  else if negb (gcount =? 0) then TDB_ERRCODE TDB_ERR_LOCK false
  else if negb (num_locks s =? 0) then TDB_ERRCODE TDB_ERR_LOCK false
  else
    do?! (if mark then c_ret true
         else tdb_brlock FREELIST_TOP ltype wait false (4 * hash_size T)) else false;
    do! c_set (fun s => set_global s (1, ltype)); c_ret true.

(** [ltype = 0] of the code, when no global lock is held, is [F_RDLCK]. *)
Definition tdb_unlockall_op (ltype : lock_rw) (mark : bool) : C bool :=
  do s <- c_get;
  let '(gcount, gtype) := global_lock s in
  if no_writes s then TDB_ERRCODE TDB_ERR_LOCK false
  else if negb (bool_decide (gtype = ltype)) || (gcount =? 0) then TDB_ERRCODE TDB_ERR_LOCK false
  else if 1 <? gcount then
    do! c_set (fun s => set_global s (gcount - 1, gtype)); c_ret true
  else
    do?! (if mark then c_ret true
         else tdb_brlock FREELIST_TOP F_UNLCK true false (4 * hash_size T)) else false;
    do! c_set (fun s => set_global s (0, F_RDLCK)); c_ret true.

Definition tdb_lockall : C bool := tdb_lockall_op F_WRLCK false true.
Definition tdb_lockall_nonblock : C bool := tdb_lockall_op F_WRLCK false false.
Definition tdb_lockall_mark : C bool := tdb_lockall_op F_WRLCK true true.
Definition tdb_lockall_read : C bool := tdb_lockall_op F_RDLCK false true.
Definition tdb_lockall_read_nonblock : C bool := tdb_lockall_op F_RDLCK false false.
Definition tdb_unlockall : C bool := tdb_unlockall_op F_WRLCK false.
Definition tdb_lockall_unmark : C bool := tdb_unlockall_op F_WRLCK true.
Definition tdb_unlockall_read : C bool := tdb_unlockall_op F_RDLCK false.

Definition tdb_chainlock (key : list Z) : C bool := tdb_lock (BUCKET (hash_fn T key)) F_WRLCK.
Definition tdb_chainlock_nonblock (key : list Z) : C bool :=
  tdb_lock_nonblock (BUCKET (hash_fn T key)) F_WRLCK.
Definition tdb_chainlock_mark (key : list Z) : C bool :=
  tdb_lock_op (BUCKET (hash_fn T key)) F_WRLCK true true.
Definition tdb_chainlock_unmark (key : list Z) : C bool :=
  tdb_unlock_op (BUCKET (hash_fn T key)) F_WRLCK true.
Definition tdb_chainunlock (key : list Z) : C bool := tdb_unlock (BUCKET (hash_fn T key)) F_WRLCK.
Definition tdb_chainlock_read (key : list Z) : C bool :=
  tdb_lock (BUCKET (hash_fn T key)) F_RDLCK.
Definition tdb_chainunlock_read (key : list Z) : C bool :=
  tdb_unlock (BUCKET (hash_fn T key)) F_RDLCK.

(** Record locks stop a delete under a traversal. *)
Definition tdb_lock_record (off : Z) : C bool :=
  if off =? 0 then c_ret true else tdb_brlock off F_RDLCK true false 1.

Definition tdb_write_lock_record (off : Z) : C bool :=
  do s <- c_get;
  if existsb (fun i => tl_off i =? off) (travlocks s) then c_ret false
  else tdb_brlock off F_WRLCK false true 1.

Definition tdb_write_unlock_record (off : Z) : C bool :=
  tdb_brlock off F_UNLCK false false 1.

Definition tdb_unlock_record (off : Z) : C bool :=
  if off =? 0 then c_ret true
  else
    do s <- c_get;
    if (length (List.filter (fun i => (tl_off i =? off)%Z) (travlocks s)) =? 1)%nat
    then tdb_brlock off F_UNLCK true false 1
    else c_ret true.

(** ** Access to the file ([io.c]) *)

(** [len] is the length the database must have; another process may have
    extended the file since it was mapped. *)
Definition tdb_oob (len : Z) (probe : bool) : C bool :=
  do s <- c_get;
  if len <=? map_size s then c_ret true
  else if flag TDB_INTERNAL then TDB_ERRCODE TDB_ERR_IO false
  else if Z.of_nat (length (file s)) <? len then TDB_ERRCODE TDB_ERR_IO false
  else do! c_set (fun s => set_map_size s (Z.of_nat (length (file s)))); c_ret true.

Definition tdb_write (off : Z) (buf : list Z) : C bool :=
  let len := Z.of_nat (length buf) in
  if len =? 0 then c_ret true
  else
    do s <- c_get;
    if no_writes s then TDB_ERRCODE TDB_ERR_RDONLY false
    else
      do?! tdb_oob (u32 (off + len)) false else false;
      do s <- c_get;
      if mapped T && (map_size s <? off + len) then c_none
      else do! c_set (fun s => set_file s (put (file s) off buf)); c_ret true.

Definition tdb_read (off len : Z) : C (option (list Z)) :=
  do?! tdb_oob (u32 (off + len)) false else None;
  do s <- c_get;
  if mapped T then
    if map_size s <? off + len then c_none
    else c_ret (Some (sub (file s) off len))
  else if Z.of_nat (length (file s)) <? off + len then TDB_ERRCODE TDB_ERR_IO None
  else c_ret (Some (sub (file s) off len)).

(** The first hash chain from [h] on with a non-zero head. *)
Fixpoint next_hash_loop (fuel : nat) (h : Z) : C Z :=
  match fuel with
  | O => c_none
  | S fuel =>
    if h <? hash_size T then
      do? l <- tdb_read (TDB_HASH_TOP h) 4 else h;
      if bool_decide (bytes_words l = [0]) then next_hash_loop fuel (h + 1) else c_ret h
    else c_ret h
  end.
Definition tdb_next_hash_chain (chain : Z) : C Z :=
  next_hash_loop (S (Z.to_nat (hash_size T))) chain.

(** Extending the file: the kernel either gives the space, which is then filled
    with [TDB_PAD_BYTE], or refuses.  [ftruncate] makes a file shorter, too. *)
Definition tdb_expand_file (size addition : Z) : C bool :=
  do s <- c_get;
  if no_writes s then TDB_ERRCODE TDB_ERR_RDONLY false
  else
    let len := u32 (size + addition) in
    if negb (can_extend T len) then c_ret false
    else
      do! c_set (fun s => set_file s
        (put (take (Z.to_nat len) (file s)) size (replicate (Z.to_nat addition) TDB_PAD_BYTE)));
      c_ret true.

(** Words, converted to the byte order of the host. *)
Definition read_words (off n : Z) : C (option (list Z)) :=
  do? l <- tdb_read off (4 * n) else None;
  c_ret (Some (CONVERT (bytes_words l))).
Definition write_words (off : Z) (p : list Z) : C bool :=
  tdb_write off (flat_map word_bytes (CONVERT p)).

Definition tdb_ofs_read (offset : Z) : C (option Z) :=
  do? p <- read_words offset 1 else None; c_ret (head p).
Definition tdb_ofs_write (offset d : Z) : C bool := write_words offset [d].

(** A buffer of at least one byte. *)
Definition tdb_alloc_read (offset len : Z) : C (option (list Z)) :=
  tdb_read offset (if len =? 0 then 1 else len).

(** Give the [len] bytes at [offset] to a parser. *)
Definition tdb_parse_data (offset len : Z) (parser : list Z -> C Z) : C Z :=
  if mapped T then
    do?! tdb_oob (u32 (offset + len)) false else -1;
    do s <- c_get;
    if map_size s <? offset + len then c_none
    else parser (sub (file s) offset len)
  else
    do? data <- tdb_alloc_read offset len else -1;
    parser (take (Z.to_nat len) data).

(** A record header without the check of its magic. *)
Definition read_rec (offset : Z) : C (option list_struct) :=
  do? p <- read_words offset 6 else None; c_ret (words_rec p).

Definition tdb_rec_read (offset : Z) : C (option list_struct) :=
  do? rec <- read_rec offset else None;
  if TDB_BAD_MAGIC rec then TDB_ERRCODE TDB_ERR_CORRUPT None
  else do?! tdb_oob (u32 (next rec + sizeof_rec)) false else None; c_ret (Some rec).

Definition tdb_rec_write (offset : Z) (rec : list_struct) : C bool :=
  write_words offset (rec_words rec).

(** A walk along a list visits a record of the file at most once. *)
Definition walk_fuel (s : tdb_context) : nat := S (length (file s)).

End io.
