(* ===== verification/TdbHeap.v ===== *)
(** * tdb: what the bytes of a file mean

    No code of its own.  [heap] is the structure the bytes of a database stand
    for: the heads of its lists, and its blocks by offset, which tile the file
    from the end of the hash table on.  [rep] relates it to the bytes, and the
    lemmas give, for each access function of [TdbIo], what it does to the heap.
    Which blocks are in use, and the lists through them, is in [TdbChain]. *)

From stdpp Require Import functions.
From S2P Require Import Prelude TdbIo.

(** ** Total correctness: the computation has a result, and it satisfies [Q] *)

Definition wp {A} (m : C A) (Q : A -> tdb_context -> Prop) (s : tdb_context) : Prop :=
  match m s with Some (a, s') => Q a s' | None => False end.

Section wp.
Context {A B : Type}.
Implicit Types (Q : A -> tdb_context -> Prop).

Lemma wp_ret (a : A) Q s : Q a s -> wp (c_ret a) Q s.
Proof. done. Qed.

Lemma wp_bind (m : C B) (k : B -> C A) Q s :
  wp m (fun b => wp (k b) Q) s -> wp (c_bind m k) Q s.
Proof. unfold wp, c_bind. by destruct (m s) as [[b s']|]. Qed.

Lemma wp_get (Q : tdb_context -> tdb_context -> Prop) s : Q s s -> wp c_get Q s.
Proof. done. Qed.

Lemma wp_set f (Q : unit -> tdb_context -> Prop) s : Q tt (f s) -> wp (c_set f) Q s.
Proof. done. Qed.

Lemma wp_errcode e (a : A) Q s : Q a (set_ecode s e) -> wp (TDB_ERRCODE e a) Q s.
Proof. done. Qed.

Lemma wp_mono (m : C A) Q Q' s :
  wp m Q s -> (forall a s', Q a s' -> Q' a s') -> wp m Q' s.
Proof. unfold wp. destruct (m s) as [[a s']|]; auto. Qed.

End wp.

Section wp_checks.
Context {A B : Type}.
Implicit Types (Q : A -> tdb_context -> Prop).

(** [do?! m else bad; k] when [m] succeeds, and when it may fail. *)
Lemma wp_check (m : C bool) (bad : A) (k : C A) Q s :
  wp m (fun ok s' => if ok : bool then wp k Q s' else Q bad s') s ->
  wp (c_check m bad k) Q s.
Proof.
  intros H. unfold c_check. apply wp_bind. eapply wp_mono; [exact H|]. by intros [] s' Hs'.
Qed.

Lemma wp_some (m : C (option B)) (bad : A) (k : B -> C A) Q s :
  wp m (fun o s' => match o with Some b => wp (k b) Q s' | None => Q bad s' end) s ->
  wp (c_some m bad k) Q s.
Proof.
  intros H. unfold c_some. apply wp_bind. eapply wp_mono; [exact H|]. by intros [] s' Hs'.
Qed.
End wp_checks.

(** ** Bytes *)

Section bytes.
Implicit Types (f buf : list Z) (off len : Z).

Lemma sub_lookup f off len i :
  sub f off len !! i =
    if decide (i < Z.to_nat len)%nat then f !! (Z.to_nat off + i)%nat else None.
Proof.
  unfold sub. destruct (decide (i < Z.to_nat len)%nat).
  - rewrite lookup_take_lt by done. by rewrite lookup_drop.
  - by rewrite lookup_take_ge by lia.
Qed.

Lemma length_sub f off len :
  0 <= off -> 0 <= len -> off + len <= Z.of_nat (length f) ->
  Z.of_nat (length (sub f off len)) = len.
Proof. intros. unfold sub. rewrite length_take, length_drop. lia. Qed.

Lemma put_inside f off buf :
  0 <= off -> off + Z.of_nat (length buf) <= Z.of_nat (length f) ->
  put f off buf = take (Z.to_nat off) f ++ buf ++ drop (Z.to_nat off + length buf) f.
Proof.
  intros. unfold put. replace (Z.to_nat off - length f)%nat with 0%nat by lia. simpl.
  by rewrite app_nil_r.
Qed.

Lemma length_put f off buf :
  0 <= off -> off + Z.of_nat (length buf) <= Z.of_nat (length f) ->
  length (put f off buf) = length f.
Proof.
  intros. rewrite put_inside by done. rewrite !length_app, length_take, length_drop. lia.
Qed.

Lemma put_end f buf off : off = Z.of_nat (length f) -> put f off buf = f ++ buf.
Proof.
  intros ->. unfold put. rewrite Nat2Z.id, Nat.sub_diag. simpl. rewrite app_nil_r.
  rewrite firstn_all, drop_ge by lia. by rewrite app_nil_r.
Qed.

Lemma put_lookup f off buf i :
  0 <= off -> off + Z.of_nat (length buf) <= Z.of_nat (length f) ->
  put f off buf !! i =
    if decide (Z.to_nat off <= i < Z.to_nat off + length buf)%nat
    then buf !! (i - Z.to_nat off)%nat else f !! i.
Proof.
  intros. rewrite put_inside by done. rewrite lookup_app, lookup_take.
  destruct (decide (i < Z.to_nat off)%nat) as [Hlt|Hge].
  - rewrite decide_False by lia. destruct (f !! i) eqn:E; [done|].
    apply lookup_ge_None in E. lia.
  - rewrite length_take, Nat.min_l by lia. rewrite lookup_app.
    destruct (decide _) as [Hin|Hout].
    + destruct (buf !! _) eqn:E; [done|]. apply lookup_ge_None in E. lia.
    + destruct (buf !! _) eqn:E; [apply lookup_lt_Some in E; lia|].
      rewrite lookup_drop. f_equal. lia.
Qed.

Lemma sub_put_same f off buf :
  0 <= off -> off + Z.of_nat (length buf) <= Z.of_nat (length f) ->
  sub (put f off buf) off (Z.of_nat (length buf)) = buf.
Proof.
  intros. apply list_eq. intros i. rewrite sub_lookup, put_lookup by done.
  destruct (decide (i < _)%nat).
  - rewrite decide_True by lia. f_equal. lia.
  - symmetry. apply lookup_ge_None. lia.
Qed.

Lemma sub_put_disjoint f off buf a len :
  0 <= off -> off + Z.of_nat (length buf) <= Z.of_nat (length f) -> 0 <= a -> 0 <= len ->
  a + len <= off \/ off + Z.of_nat (length buf) <= a ->
  sub (put f off buf) a len = sub f a len.
Proof.
  intros. apply list_eq. intros i. rewrite !sub_lookup. destruct (decide _); [|done].
  rewrite put_lookup by done. by rewrite decide_False by lia.
Qed.

Lemma sub_app f g a len :
  0 <= a -> 0 <= len -> a + len <= Z.of_nat (length f) -> sub (f ++ g) a len = sub f a len.
Proof.
  intros. apply list_eq. intros i. rewrite !sub_lookup. destruct (decide _); [|done].
  by rewrite lookup_app_l by lia.
Qed.

Lemma sub_split f a n m :
  0 <= a -> 0 <= n -> 0 <= m -> sub f a (n + m) = sub f a n ++ sub f (a + n) m.
Proof.
  intros. unfold sub. rewrite Z2Nat.inj_add by lia.
  replace (Z.to_nat (a + n)) with (Z.to_nat a + Z.to_nat n)%nat by lia.
  rewrite <- drop_drop. by rewrite take_take_drop.
Qed.

(** A prefix of what is there. *)
Lemma sub_prefix f a n m : 0 <= n <= m -> take (Z.to_nat n) (sub f a m) = sub f a n.
Proof. intros. unfold sub. rewrite take_take. f_equal. lia. Qed.

Lemma sub_zero f a : sub f a 0 = [].
Proof. done. Qed.
End bytes.

Definition word (w : Z) : Prop := 0 <= w < 2 ^ 32.

Lemma word_bytes_value w :
  word w ->
  w mod 256 + w / 2 ^ 8 mod 256 * 2 ^ 8 + w / 2 ^ 16 mod 256 * 2 ^ 16
    + w / 2 ^ 24 mod 256 * 2 ^ 24 = w.
Proof.
  unfold word. intros H. change (2 ^ 8) with 256. change (2 ^ 16) with (256 * 256).
  change (2 ^ 24) with (256 * 256 * 256). change (2 ^ 32) with (256 * 256 * 256 * 256) in H.
  rewrite <- !Z.div_div by lia.
  pose proof (Z.div_mod w 256). pose proof (Z.div_mod (w / 256) 256).
  pose proof (Z.div_mod (w / 256 / 256) 256).
  assert (0 <= w / 256 / 256 / 256 < 256) as Hd.
  { rewrite !Z.div_div by lia. split; [apply Z.div_pos; lia | apply Z.div_lt_upper_bound; lia]. }
  rewrite (Z.mod_small (w / 256 / 256 / 256)) by done. lia.
Qed.

Lemma bytes_words_bytes ws :
  Forall word ws -> bytes_words (flat_map word_bytes ws) = ws.
Proof.
  induction 1 as [|w ws Hw _ IH]; [done|]. cbn -[Z.div Z.modulo Z.pow].
  rewrite IH. f_equal. by apply word_bytes_value.
Qed.

Lemma length_word_bytes ws : length (flat_map word_bytes ws) = (4 * length ws)%nat.
Proof. induction ws; [done|]. cbn [flat_map]. rewrite length_app, IHws. simpl. lia. Qed.

(** Reversing the bytes of a word, by digits. *)
Lemma TDB_BYTEREV_digits w :
  word w ->
  TDB_BYTEREV w = w / 2 ^ 24 mod 256 + w / 2 ^ 16 mod 256 * 2 ^ 8
                  + w / 2 ^ 8 mod 256 * 2 ^ 16 + w mod 256 * 2 ^ 24.
Proof.
  intros Hw. unfold TDB_BYTEREV.
  assert (forall x, Z.land x 0xFF00 = x / 2 ^ 8 mod 256 * 2 ^ 8) as Hff.
  { intros x. rewrite <- Z.shiftr_div_pow2, <- Z.shiftl_mul_pow2 by lia.
    rewrite <- land_255. apply Z.bits_inj'. intros n Hn.
    rewrite Z.land_spec, Z.shiftl_spec by done. destruct (Z.ltb_spec n 8).
    - rewrite (Z.testbit_neg_r _ (n - 8)) by lia.
      change 0xFF00 with (Z.shiftl 255 8). rewrite Z.shiftl_spec, (Z.testbit_neg_r _ (n - 8)) by lia.
      apply andb_false_r.
    - rewrite Z.land_spec, Z.shiftr_spec by lia. replace (n - 8 + 8) with n by lia.
      change 0xFF00 with (Z.shiftl 255 8). by rewrite Z.shiftl_spec by lia. }
  pose proof (word_bytes_value w Hw) as Hv. unfold word in Hw.
  rewrite !Hff, land_255, !Z.shiftr_div_pow2 by lia.
  rewrite Z.div_div by lia. change (2 ^ 8 * 2 ^ 8) with (2 ^ 16).
  assert (w / 2 ^ 24 < 256) by (apply Z.div_lt_upper_bound; lia).
  assert (0 <= w / 2 ^ 24) by (apply Z.div_pos; lia).
  rewrite (Z.mod_small (w / 2 ^ 24)) in * by lia.
  set (d := w / 2 ^ 24) in *.
  pose proof (Z.mod_pos_bound w 256 ltac:(lia)) as Ha. set (a := w mod 256) in *.
  pose proof (Z.mod_pos_bound (w / 2 ^ 8) 256 ltac:(lia)) as Hb. set (b := w / 2 ^ 8 mod 256) in *.
  pose proof (Z.mod_pos_bound (w / 2 ^ 16) 256 ltac:(lia)) as Hc. set (c := w / 2 ^ 16 mod 256) in *.
  rewrite (Z.lor_comm (c * 2 ^ 8)), <- (Z.shiftl_mul_pow2 c) by lia.
  rewrite (lor_shiftl_add d c) by lia.
  rewrite (Z.shiftl_mul_pow2 (b * 2 ^ 8)) by lia.
  replace (b * 2 ^ 8 * 2 ^ 8) with (b * 2 ^ 16) by lia.
  rewrite (Z.lor_comm (Z.shiftl a 24)), Z.lor_comm, Z.lor_assoc.
  rewrite <- (Z.shiftl_mul_pow2 b) by lia. rewrite (lor_shiftl_add _ b) by lia.
  rewrite (lor_shiftl_add _ a) by lia. rewrite u32_small by lia.
  rewrite !Z.shiftl_mul_pow2 by lia. lia.
Qed.

Lemma TDB_BYTEREV_word w : word w -> word (TDB_BYTEREV w).
Proof. intros H. unfold TDB_BYTEREV. apply u32_range. Qed.

Lemma TDB_BYTEREV_twice w : word w -> TDB_BYTEREV (TDB_BYTEREV w) = w.
Proof.
  intros Hw. rewrite TDB_BYTEREV_digits by (by apply TDB_BYTEREV_word).
  rewrite (TDB_BYTEREV_digits w Hw). pose proof (word_bytes_value w Hw) as Hv.
  pose proof (Z.mod_pos_bound w 256 ltac:(lia)) as Ha. set (a := w mod 256) in *.
  pose proof (Z.mod_pos_bound (w / 2 ^ 8) 256 ltac:(lia)) as Hb. set (b := w / 2 ^ 8 mod 256) in *.
  pose proof (Z.mod_pos_bound (w / 2 ^ 16) 256 ltac:(lia)) as Hc. set (c := w / 2 ^ 16 mod 256) in *.
  pose proof (Z.mod_pos_bound (w / 2 ^ 24) 256 ltac:(lia)) as Hd. set (d := w / 2 ^ 24 mod 256) in *.
  set (r := d + c * 2 ^ 8 + b * 2 ^ 16 + a * 2 ^ 24).
  assert (r / 2 ^ 8 = c + b * 2 ^ 8 + a * 2 ^ 16) as E8
    by (symmetry; apply Z.div_unique with d; unfold r; lia).
  assert (r / 2 ^ 16 = b + a * 2 ^ 8) as E16
    by (symmetry; apply Z.div_unique with (d + c * 2 ^ 8); unfold r; lia).
  assert (r / 2 ^ 24 = a) as E24
    by (symmetry; apply Z.div_unique with (d + c * 2 ^ 8 + b * 2 ^ 16); unfold r; lia).
  rewrite E8, E16, E24.
  assert (forall x y, 0 <= x < 256 -> (x + y * 256) mod 256 = x) as Hm
    by (intros x y Hx; rewrite Z.mod_add by lia; by apply Z.mod_small).
  rewrite (Z.mod_small a) by lia.
  replace (b + a * 2 ^ 8) with (b + a * 256) by lia. rewrite Hm by lia.
  replace (c + b * 2 ^ 8 + a * 2 ^ 16) with (c + (b + a * 2 ^ 8) * 256) by lia. rewrite Hm by lia.
  unfold r. replace (d + c * 2 ^ 8 + b * 2 ^ 16 + a * 2 ^ 24)
    with (d + (c + b * 2 ^ 8 + a * 2 ^ 16) * 256) by lia. rewrite Hm by lia.
  lia.
Qed.

(** ** The heap *)

(** A block: its size, its header if it is known, whether its last word is its
    size (the tailer), and the bytes known to follow the header. *)
Record blk : Type := mk_blk {
  b_size : Z; b_hdr : option list_struct; b_tail : bool; b_data : list Z
}.

Definition raw_blk (n : Z) : blk := mk_blk n None false [].
Definition set_hdr (b : blk) (h : list_struct) : blk := mk_blk (b_size b) (Some h) (b_tail b) (b_data b).
Definition set_tail (b : blk) : blk := mk_blk (b_size b) (b_hdr b) true (b_data b).
Definition set_data (b : blk) (d : list Z) : blk := mk_blk (b_size b) (b_hdr b) (b_tail b) d.

Record heap : Type := mk_heap {
  h_end : Z;                (** length of the file *)
  h_seq : Z;
  h_tops : Z -> Z;          (** heads of the lists; -1 is the free list *)
  h_blks : gmap Z blk
}.

Definition set_top (H : heap) (i v : Z) : heap :=
  mk_heap (h_end H) (h_seq H) (<[i := v]> (h_tops H)) (h_blks H).
Definition set_blks (H : heap) (B : gmap Z blk) : heap := mk_heap (h_end H) (h_seq H) (h_tops H) B.
Definition set_blk (H : heap) (o : Z) (b : blk) : heap := set_blks H (<[o := b]> (h_blks H)).
Definition set_seq (H : heap) (n : Z) : heap := mk_heap (h_end H) n (h_tops H) (h_blks H).

(** The blocks tile [a, z). *)
Record tiling (B : gmap Z blk) (a z : Z) : Prop := {
  til_in : forall o b, B !! o = Some b -> a <= o /\ 28 <= b_size b /\ o + b_size b <= z;
  til_right : forall o b, B !! o = Some b -> o + b_size b = z \/ is_Some (B !! (o + b_size b));
  til_left : forall o b, B !! o = Some b ->
    o = a \/ exists o' b', B !! o' = Some b' /\ o' + b_size b' = o;
  til_disj : forall o b o' b',
    B !! o = Some b -> B !! o' = Some b' -> o < o' -> o + b_size b <= o';
  til_end : a = z \/ exists o b, B !! o = Some b /\ o + b_size b = z
}.

(** Changes that keep the sizes keep the tiling. *)
Lemma tiling_insert B a z o b b' :
  tiling B a z -> B !! o = Some b -> b_size b' = b_size b -> tiling (<[o := b']> B) a z.
Proof.
  intros Ht Hb Hs.
  assert (forall p c, <[o:=b']> B !! p = Some c ->
    exists c', B !! p = Some c' /\ b_size c' = b_size c) as Hold.
  { intros p c. destruct (decide (p = o)) as [->|Hne].
    - rewrite lookup_insert_eq. intros [= <-]. eauto.
    - rewrite lookup_insert_ne by done. eauto. }
  assert (forall p c, B !! p = Some c ->
    exists c', <[o:=b']> B !! p = Some c' /\ b_size c' = b_size c) as Hnew.
  { intros p c Hp. destruct (decide (p = o)) as [->|Hne].
    - rewrite lookup_insert_eq. simplify_eq. eauto.
    - rewrite lookup_insert_ne by done. eauto. }
  split.
  - intros p c (c' & Hc & <-)%Hold. by apply (til_in _ _ _ Ht).
  - intros p c (c' & Hc & <-)%Hold. destruct (til_right _ _ _ Ht p c' Hc) as [|[d Hd]]; [by left|].
    right. destruct (Hnew _ _ Hd) as (d' & -> & _). eauto.
  - intros p c (c' & Hc & _)%Hold. destruct (til_left _ _ _ Ht p c' Hc) as [|(q & d & Hd & Hq)]; [by left|].
    right. destruct (Hnew _ _ Hd) as (d' & Hd' & Hs'). exists q, d'. split; [done|lia].
  - intros p c q d (c' & Hc & <-)%Hold (d' & Hd & _)%Hold. by apply (til_disj _ _ _ Ht p c' q d').
  - destruct (til_end _ _ _ Ht) as [|(p & c & Hc & Hz)]; [by left|].
    right. destruct (Hnew _ _ Hc) as (c' & Hc' & Hs'). exists p, c'. split; [done|lia].
Qed.

(** Two neighbours become one block. *)
Lemma tiling_merge B a z o b b2 b' :
  tiling B a z -> B !! o = Some b -> B !! (o + b_size b) = Some b2 ->
  b_size b' = b_size b + b_size b2 ->
  tiling (<[o := b']> (delete (o + b_size b) B)) a z.
Proof.
  intros Ht Hb Hb2 Hs. set (o2 := o + b_size b) in *.
  destruct (til_in _ _ _ Ht _ _ Hb) as (Ha & Hsz & _).
  destruct (til_in _ _ _ Ht _ _ Hb2) as (_ & Hsz2 & Hz).
  assert (o2 <> o) as Hne2 by (unfold o2; lia).
  assert (forall p c, <[o:=b']> (delete o2 B) !! p = Some c ->
    (p = o /\ c = b') \/ (p <> o /\ p <> o2 /\ B !! p = Some c)) as Hold.
  { intros p c. destruct (decide (p = o)) as [->|Hne].
    - rewrite lookup_insert_eq. intros [= <-]. by left.
    - rewrite lookup_insert_ne by done. intros [Hp Hc]%lookup_delete_Some. by right. }
  assert (forall p c, B !! p = Some c -> p <> o -> p <> o2 ->
    <[o:=b']> (delete o2 B) !! p = Some c) as Hnew.
  { intros p c Hp H1 H2. by rewrite lookup_insert_ne, lookup_delete_ne by done. }
  assert (<[o:=b']> (delete o2 B) !! o = Some b') as Ho by apply lookup_insert_eq.
  (* no block but [o2] starts between the start of [o] and the end of [o2] *)
  assert (forall p c, B !! p = Some c -> o < p -> p <> o2 -> o2 + b_size b2 <= p) as Hgap.
  { intros p c Hp Hlt Hne. pose proof (til_disj _ _ _ Ht _ _ _ _ Hb Hp Hlt).
    eapply (til_disj _ _ _ Ht o2 b2 p c); [done..|]. unfold o2 in *. lia. }
  split.
  - intros p c [[-> ->]|(H1 & H2 & Hp)]%Hold; [unfold o2 in *; lia | by apply (til_in _ _ _ Ht)].
  - intros p c [[-> ->]|(H1 & H2 & Hp)]%Hold.
    + replace (o + b_size b') with (o2 + b_size b2) by (unfold o2; lia).
      destruct (til_right _ _ _ Ht o2 b2 Hb2) as [|[d Hd]]; [by left|]. right.
      rewrite (Hnew _ _ Hd) by (unfold o2 in *; lia). eauto.
    + destruct (til_right _ _ _ Ht p c Hp) as [|[d Hd]]; [by left|]. right.
      destruct (decide (p + b_size c = o)) as [->|Hno]; [by rewrite Ho|].
      assert (p + b_size c <> o2) as Hno2.
      { intros E. destruct (til_in _ _ _ Ht _ _ Hp) as (_ & Hc & _).
        destruct (Z.lt_trichotomy p o) as [Hlt|[Heq|Hgt]]; [|done|].
        - pose proof (til_disj _ _ _ Ht _ _ _ _ Hp Hb Hlt). unfold o2 in *. lia.
        - pose proof (Hgap _ _ Hp Hgt H2). unfold o2 in *. lia. }
      rewrite (Hnew _ _ Hd) by done. eauto.
  - intros p c [[-> ->]|(H1 & H2 & Hp)]%Hold.
    + destruct (til_left _ _ _ Ht o b Hb) as [|(q & d & Hd & Hq)]; [by left|]. right.
      destruct (til_in _ _ _ Ht _ _ Hd) as (_ & ? & _).
      exists q, d. split; [|done]. apply Hnew; [done|unfold o2 in *; lia..].
    + destruct (til_left _ _ _ Ht p c Hp) as [|(q & d & Hd & Hq)]; [by left|]. right.
      destruct (decide (q = o2)) as [->|Hno2].
      { simplify_eq. exists o, b'. split; [done|]. unfold o2 in *. lia. }
      destruct (decide (q = o)) as [->|Hno]; [simplify_eq; by destruct H2|].
      exists q, d. split; [by apply Hnew|done].
  - intros p c q d [[-> ->]|(H1 & H2 & Hp)]%Hold [[-> ->]|(H3 & H4 & Hq)]%Hold Hlt; [lia|..].
    + pose proof (Hgap _ _ Hq Hlt H4). unfold o2 in *. lia.
    + by apply (til_disj _ _ _ Ht p c o b).
    + by apply (til_disj _ _ _ Ht p c q d).
  - right. destruct (til_end _ _ _ Ht) as [Haz|(p & c & Hp & Hpz)].
    { unfold o2 in *. lia. }
    destruct (decide (p = o2)) as [->|Hno2].
    { simplify_eq. exists o, b'. split; [done|]. unfold o2 in *. lia. }
    destruct (decide (p = o)) as [->|Hno]; [simplify_eq; unfold o2 in *; lia|].
    exists p, c. split; [by apply Hnew|done].
Qed.

(** One block becomes two. *)
Lemma tiling_split B a z o b b1 b2 :
  tiling B a z -> B !! o = Some b -> b_size b = b_size b1 + b_size b2 ->
  28 <= b_size b1 -> 28 <= b_size b2 ->
  tiling (<[o + b_size b1 := b2]> (<[o := b1]> B)) a z.
Proof.
  intros Ht Hb Hs H1 H2. set (o2 := o + b_size b1).
  destruct (til_in _ _ _ Ht _ _ Hb) as (Ha & Hsz & Hz).
  assert (o2 <> o) as Hne2 by (unfold o2; lia).
  assert (B !! o2 = None) as Hfree.
  { destruct (B !! o2) as [c|] eqn:E; [|done].
    pose proof (til_disj _ _ _ Ht _ _ _ _ Hb E). unfold o2 in *. lia. }
  set (B' := <[o2:=b2]> (<[o:=b1]> B)).
  assert (forall p c, B' !! p = Some c ->
    (p = o /\ c = b1) \/ (p = o2 /\ c = b2) \/ (p <> o /\ p <> o2 /\ B !! p = Some c)) as Hold.
  { intros p c. unfold B'. rewrite !lookup_insert_Some. naive_solver. }
  assert (forall p c, B !! p = Some c -> p <> o -> B' !! p = Some c) as Hnew.
  { intros p c Hp Hno. unfold B'. rewrite !lookup_insert_ne; [done|done|]. by intros <-; rewrite Hfree in Hp. }
  assert (B' !! o = Some b1) as Ho by (unfold B'; by rewrite lookup_insert_ne, lookup_insert_eq).
  assert (B' !! o2 = Some b2) as Ho2 by apply lookup_insert_eq.
  split.
  - intros p c [[-> ->]|[[-> ->]|(Hno & Hno2 & Hp)]]%Hold;
      [unfold o2 in *; lia.. | by apply (til_in _ _ _ Ht)].
  - intros p c [[-> ->]|[[-> ->]|(Hno & Hno2 & Hp)]]%Hold.
    + right. fold o2. rewrite Ho2. eauto.
    + replace (o2 + b_size b2) with (o + b_size b) by (unfold o2; lia).
      destruct (til_right _ _ _ Ht o b Hb) as [|[d Hd]]; [by left|]. right.
      rewrite (Hnew _ _ Hd) by lia. eauto.
    + destruct (til_right _ _ _ Ht p c Hp) as [|[d Hd]]; [by left|]. right.
      destruct (decide (p + b_size c = o)) as [->|Hq]; [by rewrite Ho|].
      rewrite (Hnew _ _ Hd) by done. eauto.
  - intros p c [[-> ->]|[[-> ->]|(Hno & Hno2 & Hp)]]%Hold.
    + destruct (til_left _ _ _ Ht o b Hb) as [|(q & d & Hd & Hq)]; [by left|]. right.
      destruct (til_in _ _ _ Ht _ _ Hd) as (_ & ? & _).
      exists q, d. split; [apply Hnew; [done|lia]|done].
    + right. exists o, b1. done.
    + destruct (til_left _ _ _ Ht p c Hp) as [|(q & d & Hd & Hq)]; [by left|]. right.
      destruct (decide (q = o)) as [->|Hqo].
      { simplify_eq. exists o2, b2. split; [done|]. unfold o2; lia. }
      exists q, d. split; [by apply Hnew|done].
  - intros p c q d [[-> ->]|[[-> ->]|(Hno & Hno2 & Hp)]]%Hold
      [[-> ->]|[[-> ->]|(Hno' & Hno2' & Hq)]]%Hold Hlt; try (unfold o2 in *; lia).
    + pose proof (til_disj _ _ _ Ht _ _ _ _ Hb Hq Hlt). lia.
    + assert (o < q) as Hoq by (unfold o2 in *; lia).
      pose proof (til_disj _ _ _ Ht _ _ _ _ Hb Hq Hoq). unfold o2. lia.
    + by apply (til_disj _ _ _ Ht p c o b).
    + destruct (Z.lt_trichotomy p o) as [Hpo|[Hpo|Hpo]]; [|done|].
      * pose proof (til_disj _ _ _ Ht _ _ _ _ Hp Hb Hpo). unfold o2. lia.
      * pose proof (til_disj _ _ _ Ht _ _ _ _ Hb Hp Hpo).
        destruct (til_in _ _ _ Ht _ _ Hp). unfold o2 in *. lia.
    + by apply (til_disj _ _ _ Ht p c q d).
  - right. destruct (til_end _ _ _ Ht) as [Haz|(p & c & Hp & Hpz)]; [lia|].
    destruct (decide (p = o)) as [->|Hno].
    { simplify_eq. exists o2, b2. split; [done|]. unfold o2. lia. }
    exists p, c. split; [by apply Hnew|done].
Qed.

(** A block at the end of the file. *)
Lemma tiling_extend B a z b :
  tiling B a z -> a <= z -> 28 <= b_size b -> tiling (<[z := b]> B) a (z + b_size b).
Proof.
  intros Ht Haz Hs.
  assert (forall p c, B !! p = Some c -> p < z /\ <[z:=b]> B !! p = Some c) as Hnew.
  { intros p c Hp. destruct (til_in _ _ _ Ht _ _ Hp) as (_ & ? & ?).
    split; [lia|]. by rewrite lookup_insert_ne by lia. }
  split.
  - intros p c [[<- <-]|[Hne Hp]]%lookup_insert_Some; [lia|].
    destruct (til_in _ _ _ Ht _ _ Hp) as (? & ? & ?). lia.
  - intros p c [[<- <-]|[Hne Hp]]%lookup_insert_Some; [by left|]. right.
    destruct (til_right _ _ _ Ht p c Hp) as [->|[d Hd]]; [by rewrite lookup_insert_eq|].
    destruct (Hnew _ _ Hd) as [_ ->]. eauto.
  - intros p c [[<- <-]|[Hne Hp]]%lookup_insert_Some.
    + destruct (til_end _ _ _ Ht) as [<-|(p & c & Hp & Hpz)]; [by left|]. right.
      exists p, c. split; [by apply Hnew|done].
    + destruct (til_left _ _ _ Ht p c Hp) as [|(q & d & Hd & Hq)]; [by left|]. right.
      exists q, d. split; [by apply Hnew|done].
  - intros p c q d [[<- <-]|[Hne Hp]]%lookup_insert_Some [[<- <-]|[Hne' Hq]]%lookup_insert_Some Hlt.
    + lia.
    + destruct (Hnew _ _ Hq). lia.
    + destruct (til_in _ _ _ Ht _ _ Hp) as (? & ? & ?). lia.
    + by apply (til_disj _ _ _ Ht p c q d).
  - right. exists z, b. by rewrite lookup_insert_eq.
Qed.

(** ** The heap of a file *)

Section rep.
Context (T : tdb_config).

(** What the theorems ask of a database that is open for writing: the kernel
    grants a lock that is waited for (other processes give theirs up), and
    always lets go of one.  Record locks, which are not waited for, may be
    refused, and so may space. *)
Class GoodConfig : Prop := {
  gc_hash_size : 0 < hash_size T;
  gc_page_size : exists k, 0 <= k < 32 /\ page_size T = 2 ^ k;
  gc_read_only : read_only T = false;
  gc_wait : forall off len ty, kernel_lock T off len ty true = true;
  gc_unlock : forall off len wait, kernel_lock T off len F_UNLCK wait = true;
  gc_realloc : forall n, length (realloc_bytes T n) = Z.to_nat n;
  gc_hash_fn : forall k, word (hash_fn T k)
}.

Definition enc (ws : list Z) : list Z := flat_map word_bytes (CONVERT T ws).

Lemma length_enc ws : Z.of_nat (length (enc ws)) = 4 * Z.of_nat (length ws).
Proof.
  unfold enc. rewrite length_word_bytes. unfold CONVERT, tdb_convert.
  destruct (DOCONV T); rewrite ?length_map; lia.
Qed.

Lemma decode_enc ws : Forall word ws -> CONVERT T (bytes_words (enc ws)) = ws.
Proof.
  intros Hw. unfold enc, CONVERT, tdb_convert. destruct (DOCONV T).
  - rewrite bytes_words_bytes.
    + induction Hw as [|w ws Hw _ IH]; [done|]. simpl. by rewrite IH, TDB_BYTEREV_twice.
    + rewrite Forall_map. eapply Forall_impl; [exact Hw|]. apply TDB_BYTEREV_word.
  - by apply bytes_words_bytes.
Qed.

Definition rec_typed (h : list_struct) : Prop := Forall word (rec_words h).

(** The bytes [F] at [o] are those of the block. *)
Record blk_ok (F : list Z) (o : Z) (b : blk) : Prop := {
  bo_hdr : forall h, b_hdr b = Some h ->
    rec_typed h /\ b_size b = 24 + rec_len h /\ sub F o 24 = enc (rec_words h);
  bo_tail : b_tail b = true -> sub F (o + b_size b - 4) 4 = enc [b_size b];
  bo_data : Z.of_nat (length (b_data b)) <= b_size b - 28
            /\ sub F (o + 24) (Z.of_nat (length (b_data b))) = b_data b
}.

Definition data_start : Z := FREELIST_TOP + 4 * (hash_size T + 1).
Definition top_addr (i : Z) : Z := FREELIST_TOP + 4 * (i + 1).
Definition list_index (i : Z) : Prop := -1 <= i < hash_size T.
Definition bucket_index (i : Z) : Prop := 0 <= i < hash_size T.

Record rep (H : heap) (F : list Z) : Prop := {
  rep_end : Z.of_nat (length F) = h_end H /\ data_start <= h_end H < 2 ^ 32;
  rep_tiling : tiling (h_blks H) data_start (h_end H);
  rep_tops : forall i, list_index i ->
    word (h_tops H i) /\ sub F (top_addr i) 4 = enc [h_tops H i];
  rep_seq : word (h_seq H) /\ sub F TDB_SEQNUM_OFS 4 = enc [h_seq H];
  rep_blks : forall o b, h_blks H !! o = Some b -> blk_ok F o b
}.

Definition locks_of (s : tdb_context) : Z * lock_rw * list tdb_lock_type * Z * list tdb_traverse_lock :=
  (global_lock s, lockrecs s, num_locks s, travlocks s).

(** A context whose file is [H] and whose locks are [L]. *)
Record holds (H : heap) (L : Z * lock_rw * list tdb_lock_type * Z * list tdb_traverse_lock)
    (s : tdb_context) : Prop := {
  ho_rep : rep H (file s);
  ho_map : data_start <= map_size s <= h_end H;
  ho_internal : flag T TDB_INTERNAL = true -> map_size s = h_end H;
  ho_locks : locks_of s = L;
  ho_traverse : traverse_read s = 0
}.

Lemma holds_set_ecode H L s e : holds H L s -> holds H L (set_ecode s e).
Proof. intros []. by split. Qed.

(** ** Locks *)

Definition push_lock (i : Z) (ty : lock_rw)
    (L : Z * lock_rw * list tdb_lock_type * Z * list tdb_traverse_lock) :=
  let '(g, recs, n, tr) := L in
  if negb (fst g =? 0) || flag T TDB_NOLOCK then L
  else match find_idx (fun l => lck_list l =? i) recs with
       | Some j => (g, alter (fun l => mk_lock (lck_list l) (lck_count l + 1) (lck_ltype l)) j recs, n, tr)
       | None => (g, recs ++ [mk_lock i 1 ty], n + 1, tr)
       end.

(** A global lock, if any, is a write lock, and no count is zero. *)
Definition locks_ok (L : Z * lock_rw * list tdb_lock_type * Z * list tdb_traverse_lock) : Prop :=
  let '(g, recs, n, tr) := L in
  (fst g = 0 \/ snd g = F_WRLCK) /\ Forall (fun l => 1 <= lck_count l) recs.

Lemma locks_ok_push i ty L : locks_ok L -> locks_ok (push_lock i ty L).
Proof.
  destruct L as [[[g recs] n] tr]. intros [Hg Hrecs]. unfold push_lock.
  destruct (_ || _); [done|]. destruct (find_idx _ recs) as [j|] eqn:E; (split; [done|]).
  - apply Forall_alter; [done|]. simpl. lia.
  - apply Forall_app. split; [done|]. by repeat constructor.
Qed.

Context {GC : GoodConfig}.

Lemma no_writes_holds H L s : holds H L s -> no_writes T s = false.
Proof. intros []. unfold no_writes. by rewrite gc_read_only, ho_traverse0. Qed.

(** A lock that is waited for, and an unlock. *)
Lemma wp_brlock H L off ty wait probe len s (Q : bool -> tdb_context -> Prop) :
  wait = true \/ ty = F_UNLCK -> holds H L s -> Q true s ->
  wp (tdb_brlock T off ty wait probe len) Q s.
Proof.
  intros Hw Hs HQ. unfold tdb_brlock. destruct (flag T TDB_NOLOCK); [done|].
  apply wp_bind, wp_get. rewrite (no_writes_holds _ _ _ Hs), andb_false_r.
  destruct Hw as [-> | ->]; [rewrite gc_wait | rewrite gc_unlock]; done.
Qed.

(** A lock that is not waited for. *)
Lemma wp_brlock_try H L off ty probe len s (Q : bool -> tdb_context -> Prop) :
  holds H L s -> (forall b s', holds H L s' -> Q b s') ->
  wp (tdb_brlock T off ty false probe len) Q s.
Proof.
  intros Hs HQ. unfold tdb_brlock. destruct (flag T TDB_NOLOCK); [by apply wp_ret, HQ|].
  apply wp_bind, wp_get. destruct (_ && _); [|destruct (kernel_lock _ _ _ _ _)].
  - by apply wp_errcode, HQ, holds_set_ecode.
  - by apply wp_ret, HQ.
  - by apply wp_errcode, HQ, holds_set_ecode.
Qed.

Lemma holds_set_locks H g recs n tr recs' n' s :
  holds H (g, recs, n, tr) s -> holds H (g, recs', n', tr) (set_locks s recs' n').
Proof. intros []. split; try done. unfold locks_of in *. simpl. by simplify_eq. Qed.

Lemma list_index_range i H L s :
  list_index i -> holds H L s -> (i <? -1) || (s32 (hash_size T) <=? i) = false.
Proof.
  intros Hi Hs. pose proof gc_hash_size.
  destruct (rep_end _ _ (ho_rep _ _ _ Hs)) as [_ Hend].
  unfold list_index, data_start, FREELIST_TOP, sizeof_header in *.
  rewrite s32_small by lia. apply orb_false_iff. split; [apply Z.ltb_ge | apply Z.leb_gt]; lia.
Qed.

Lemma wp_lock i ty H L s (Q : bool -> tdb_context -> Prop) :
  locks_ok L -> list_index i -> ty <> F_UNLCK -> holds H L s ->
  (forall s', holds H (push_lock i ty L) s' -> ecode s' = ecode s -> Q true s') ->
  wp (tdb_lock T i ty) Q s.
Proof.
  destruct L as [[[g recs] n] tr]. intros [Hg Hrecs] Hi Hty Hs HQ.
  pose proof (ho_locks _ _ _ Hs) as HL. unfold locks_of in HL. injection HL as Eg Er En Et.
  unfold tdb_lock, tdb_lock_op. apply wp_bind, wp_get. rewrite Eg.
  unfold push_lock in HQ. destruct g as [gc gt]. simpl in *.
  destruct (gc =? 0) eqn:E; simpl in *.
  - rewrite (list_index_range _ _ _ _ Hi Hs).
    destruct (flag T TDB_NOLOCK); [by apply HQ|]. rewrite Er.
    destruct (find_idx _ recs) as [j|].
    + apply wp_bind, wp_set, wp_ret, HQ; [|done]. rewrite Er, En.
      by eapply holds_set_locks.
    + apply wp_check. eapply wp_brlock; [by left|done|]. apply wp_bind, wp_set, wp_ret, HQ; [|done].
      rewrite Er, En. by eapply holds_set_locks.
  - assert (bool_decide (ty = gt) || bool_decide (ty = F_RDLCK) = true) as ->.
    { apply Z.eqb_neq in E. destruct Hg as [Hg|Hg]; [done|]. subst gt. by destruct ty. }
    by apply HQ.
Qed.

Lemma drop_lockrec_last recs x : drop_lockrec (recs ++ [x]) (length recs) = recs.
Proof.
  unfold drop_lockrec. rewrite last_snoc, insert_app_r_alt, Nat.sub_diag by lia. simpl.
  by rewrite removelast_last.
Qed.

Lemma find_idx_alter {A} (p : A -> bool) (f : A -> A) l i j :
  (forall x, p (f x) = p x) -> find_idx p l = Some i -> find_idx p (alter f j l) = Some i.
Proof.
  intros Hf. revert i j. induction l as [|y l IH]; intros i j; simpl; [done|].
  destruct (p y) eqn:Ey; intros Hi.
  - destruct j; simpl; [by rewrite Hf, Ey | by rewrite Ey].
  - destruct (find_idx p l) as [k|] eqn:E; [|done].
    destruct j; simpl; [by rewrite Hf, Ey, E|]. rewrite Ey.
    change (list_alter f j l) with (alter f j l). by rewrite (IH k j eq_refl).
Qed.

Lemma wp_unlock i ty H L s (Q : bool -> tdb_context -> Prop) :
  locks_ok L -> list_index i -> ty <> F_UNLCK -> holds H (push_lock i ty L) s ->
  (forall s', holds H L s' -> ecode s' = ecode s -> Q true s') ->
  wp (tdb_unlock T i ty) Q s.
Proof.
  destruct L as [[[g recs] n] tr]. intros [Hg Hrecs] Hi Hty Hs HQ. unfold push_lock in Hs.
  unfold tdb_unlock, tdb_unlock_op. apply wp_bind, wp_get.
  destruct g as [gc gt]. simpl in *. destruct (gc =? 0) eqn:E; simpl in *.
  - destruct (flag T TDB_NOLOCK) eqn:En.
    { pose proof (ho_locks _ _ _ Hs) as HL. unfold locks_of in HL. injection HL as Eg Er Enl Et.
      rewrite Eg, E. simpl. by apply HQ. }
    destruct (find_idx _ recs) as [j|] eqn:Ej;
      pose proof (ho_locks _ _ _ Hs) as HL; unfold locks_of in HL; injection HL as Eg Er Enl Et;
      rewrite Eg, E; simpl; rewrite (list_index_range _ _ _ _ Hi Hs), Er.
    + rewrite (find_idx_alter _ (fun l => mk_lock (lck_list l) (lck_count l + 1) (lck_ltype l)) _ j)
        by done.
      apply find_idx_Some in Ej as (l & Hl & _ & _).
      pose proof (Forall_lookup_1 _ _ _ _ Hrecs Hl) as Hc. simpl in Hc.
      rewrite list_lookup_alter_eq, Hl. simpl.
      rewrite (proj2 (Z.eqb_neq _ 0)), (proj2 (Z.ltb_lt 1 _)) by lia.
      apply wp_bind, wp_set, wp_ret, HQ; [|done].
      replace recs with (alter (fun l => mk_lock (lck_list l) (lck_count l - 1) (lck_ltype l)) j
        (lockrecs s)) at 1.
      { rewrite <- Enl. by eapply holds_set_locks. }
      rewrite Er. apply list_eq. intros k. destruct (decide (k = j)) as [->|Hk].
      * rewrite !list_lookup_alter_eq, Hl. simpl. f_equal. destruct l; simpl. f_equal. lia.
      * by rewrite !list_lookup_alter_ne by done.
    + rewrite (find_idx_snoc _ _ _ Ej) by apply Z.eqb_refl.
      rewrite lookup_app_r, Nat.sub_diag by lia. simpl.
      apply wp_bind. eapply wp_brlock; [by right|done|]. apply wp_bind, wp_set, wp_ret, HQ; [|done].
      rewrite Er, Enl, drop_lockrec_last. replace (n + 1 - 1) with n by lia.
      by eapply holds_set_locks.
  - pose proof (ho_locks _ _ _ Hs) as HL. unfold locks_of in HL. injection HL as Eg Er Enl Et.
    rewrite Eg, E. simpl.
    assert (bool_decide (ty = gt) || bool_decide (ty = F_RDLCK) = true) as ->.
    { apply Z.eqb_neq in E. destruct Hg as [Hg|Hg]; [done|]. subst gt. by destruct ty. }
    by apply HQ.
Qed.

End rep.

(** ** The access functions on the heap *)

Section access.
Context (T : tdb_config) {GC : GoodConfig T}.
Implicit Types (H : heap) (s : tdb_context).

Lemma wp_oob H L len probe s (Q : bool -> tdb_context -> Prop) :
  holds T H L s -> len <= h_end H ->
  (forall s', holds T H L s' -> file s' = file s -> len <= map_size s' -> Q true s') ->
  wp (tdb_oob T len probe) Q s.
Proof.
  intros Hs Hlen HQ. destruct Hs as [Hrep Hmap Hint HL Htr].
  destruct (rep_end _ _ _ Hrep) as [Hl _].
  unfold tdb_oob. apply wp_bind, wp_get. destruct (len <=? map_size s) eqn:E; bool_hyps.
  { by apply wp_ret, HQ. }
  destruct (flag T TDB_INTERNAL) eqn:Ei; [specialize (Hint eq_refl); lia|].
  rewrite (proj2 (Z.ltb_ge _ _)) by lia. apply wp_bind, wp_set, wp_ret.
  apply HQ; [|done|simpl; lia]. split; simpl; try done. lia.
Qed.

Lemma wp_read H L off len s (Q : option (list Z) -> tdb_context -> Prop) :
  holds T H L s -> 0 <= off -> 0 <= len -> off + len <= h_end H ->
  (forall s', holds T H L s' -> file s' = file s -> Q (Some (sub (file s) off len)) s') ->
  wp (tdb_read T off len) Q s.
Proof.
  intros Hs Ho Hn Hlen HQ. destruct (rep_end _ _ _ (ho_rep _ _ _ _ Hs)) as [Hl Hend].
  unfold tdb_read. rewrite u32_small by lia. apply wp_check.
  eapply wp_oob; [done..|]. intros s' Hs' Hf Hm. apply wp_bind, wp_get.
  destruct (mapped T).
  - rewrite (proj2 (Z.ltb_ge _ _)) by lia. rewrite Hf. by apply wp_ret, HQ.
  - rewrite Hf, (proj2 (Z.ltb_ge _ _)) by lia. by apply wp_ret, HQ.
Qed.

Lemma wp_read_words H L off n ws s (Q : option (list Z) -> tdb_context -> Prop) :
  holds T H L s -> 0 <= off -> off + 4 * n <= h_end H -> 0 <= n ->
  sub (file s) off (4 * n) = enc T ws -> Forall word ws ->
  (forall s', holds T H L s' -> Q (Some ws) s') ->
  wp (read_words T off n) Q s.
Proof.
  intros Hs Ho Hlen Hn Hsub Hw HQ. unfold read_words. apply wp_some.
  eapply wp_read; [done|lia..|]. intros s' Hs' _. rewrite Hsub, decode_enc by done.
  by apply wp_ret, HQ.
Qed.

(** A write that makes [H'] of [H]. *)
Lemma wp_write H H' L off buf s (Q : bool -> tdb_context -> Prop) :
  holds T H L s -> 0 <= off -> (0 < length buf)%nat ->
  off + Z.of_nat (length buf) <= h_end H -> h_end H' = h_end H ->
  rep T H' (put (file s) off buf) ->
  (forall s', holds T H' L s' -> Q true s') ->
  wp (tdb_write T off buf) Q s.
Proof.
  intros Hs Ho Hb Hlen Hend Hrep HQ.
  destruct (rep_end _ _ _ (ho_rep _ _ _ _ Hs)) as [Hl He].
  unfold tdb_write. rewrite (proj2 (Z.eqb_neq _ 0)) by lia. apply wp_bind, wp_get.
  rewrite (no_writes_holds _ _ _ _ Hs). rewrite u32_small by lia. apply wp_check.
  eapply wp_oob; [done..|]. intros s' Hs' Hf Hm. apply wp_bind, wp_get.
  rewrite (proj2 (Z.ltb_ge _ _)), andb_false_r by lia. apply wp_bind, wp_set, wp_ret, HQ.
  destruct Hs'. split; simpl; try done; rewrite ?Hf, ?Hend; done.
Qed.

(** ** Writes inside a block *)

(** Bytes away from the write stay. *)
Lemma blk_ok_disjoint F off buf o b :
  blk_ok T F o b -> 0 <= o -> 28 <= b_size b -> o + b_size b <= Z.of_nat (length F) ->
  0 <= off -> off + Z.of_nat (length buf) <= Z.of_nat (length F) ->
  o + b_size b <= off \/ off + Z.of_nat (length buf) <= o ->
  blk_ok T (put F off buf) o b.
Proof.
  intros [Hh Ht [Hd1 Hd2]] Ho Hsz Hin Hoff Hlen Hdis.
  split.
  - intros h E. destruct (Hh h E) as (? & ? & ?). split; [done|]. split; [done|].
    rewrite sub_put_disjoint by lia. done.
  - intros E. rewrite sub_put_disjoint by lia. auto.
  - split; [done|]. rewrite sub_put_disjoint by lia. done.
Qed.

Lemma rep_blk_in H F o b :
  rep T H F -> h_blks H !! o = Some b ->
  data_start T <= o /\ 28 <= b_size b /\ o + b_size b <= h_end H /\ h_end H < 2 ^ 32
  /\ 0 < data_start T.
Proof.
  intros Hr Hb. destruct (til_in _ _ _ (rep_tiling _ _ _ Hr) _ _ Hb) as (? & ? & ?).
  destruct (rep_end _ _ _ Hr). pose proof (gc_hash_size T).
  unfold data_start, FREELIST_TOP, sizeof_header in *. lia.
Qed.

Lemma top_addr_range i : list_index T i -> FREELIST_TOP <= top_addr i /\ top_addr i + 4 <= data_start T.
Proof.
  unfold list_index, top_addr, data_start, FREELIST_TOP, sizeof_header. lia.
Qed.

(** The header of the file and the heads stay under a write past them. *)
Lemma rep_put_block H F o b b' off buf :
  rep T H F -> h_blks H !! o = Some b -> b_size b' = b_size b ->
  o <= off -> off + Z.of_nat (length buf) <= o + b_size b ->
  blk_ok T (put F off buf) o b' ->
  rep T (set_blk H o b') (put F off buf).
Proof.
  intros Hr Hb Hs Ho Hlen Hok. destruct (rep_blk_in _ _ _ _ Hr Hb) as (Hst & Hsz & Hz & Hmax & Hpos).
  destruct (rep_end _ _ _ Hr) as [Hl He].
  assert (off + Z.of_nat (length buf) <= Z.of_nat (length F)) as Hin by lia.
  split; simpl.
  - rewrite length_put by lia. lia.
  - by eapply tiling_insert; [apply (rep_tiling _ _ _ Hr)|..].
  - intros i Hi. destruct (rep_tops _ _ _ Hr i Hi) as [Hw Hsub]. split; [done|].
    pose proof (top_addr_range i Hi). unfold FREELIST_TOP, sizeof_header in *.
    rewrite sub_put_disjoint by lia. done.
  - destruct (rep_seq _ _ _ Hr) as [Hw Hsub]. split; [done|].
    unfold TDB_SEQNUM_OFS, data_start, FREELIST_TOP, sizeof_header in *.
    pose proof (gc_hash_size T). rewrite sub_put_disjoint by lia. done.
  - intros p c [[<- <-]|[Hne Hp]]%lookup_insert_Some; [done|].
    destruct (rep_blk_in _ _ _ _ Hr Hp) as (? & ? & ? & _).
    apply blk_ok_disjoint; try lia; [by apply (rep_blks _ _ _ Hr)|].
    destruct (Z.lt_trichotomy o p) as [Hlt|[Heq|Hgt]]; [|done|].
    + pose proof (til_disj _ _ _ (rep_tiling _ _ _ Hr) _ _ _ _ Hb Hp Hlt). lia.
    + pose proof (til_disj _ _ _ (rep_tiling _ _ _ Hr) _ _ _ _ Hp Hb Hgt). lia.
Qed.

(** A head, and the sequence number. *)
Lemma rep_put_head H F off v H' :
  rep T H F -> word v -> 0 <= off -> off + 4 <= data_start T ->
  h_end H' = h_end H -> h_blks H' = h_blks H ->
  (forall i, list_index T i -> word (h_tops H' i) /\ sub (put F off (enc T [v])) (top_addr i) 4 = enc T [h_tops H' i]) ->
  word (h_seq H') /\ sub (put F off (enc T [v])) TDB_SEQNUM_OFS 4 = enc T [h_seq H'] ->
  rep T H' (put F off (enc T [v])).
Proof.
  intros Hr Hv Ho Hlen He Hb Htops Hseq. destruct (rep_end _ _ _ Hr) as [Hl Hend].
  pose proof (length_enc T [v]) as Henc. simpl in Henc.
  split; rewrite ?He, ?Hb; try done.
  - rewrite length_put by lia. done.
  - apply Hr.
  - intros o b E. destruct (rep_blk_in _ _ _ _ Hr E) as (? & ? & ? & _).
    apply blk_ok_disjoint; try lia. by apply (rep_blks _ _ _ Hr).
Qed.

Lemma rep_set_top H F i v :
  rep T H F -> list_index T i -> word v ->
  rep T (set_top H i v) (put F (top_addr i) (enc T [v])).
Proof.
  intros Hr Hi Hv. destruct (rep_end _ _ _ Hr) as [Hl Hend].
  pose proof (length_enc T [v]) as Henc. change (Z.of_nat (length [v])) with 1 in Henc.
  pose proof (top_addr_range i Hi) as Ha. unfold FREELIST_TOP, sizeof_header in *.
  apply (rep_put_head H); simpl; try done; try lia.
  - intros j Hj. destruct (rep_tops _ _ _ Hr j Hj) as [Hw Hsub].
    destruct (decide (i = j)) as [<-|Hne].
    + rewrite fn_lookup_insert. split; [done|].
      replace 4 with (Z.of_nat (length (enc T [v]))) at 1 by lia.
      apply sub_put_same; lia.
    + rewrite fn_lookup_insert_ne by done. split; [done|]. pose proof (top_addr_range j Hj).
      unfold top_addr, FREELIST_TOP, sizeof_header in *.
      rewrite sub_put_disjoint by lia. done.
  - destruct (rep_seq _ _ _ Hr) as [Hw Hsub]. split; [done|]. unfold TDB_SEQNUM_OFS in *.
    rewrite sub_put_disjoint by lia. done.
Qed.

Lemma rep_set_seq H F v :
  rep T H F -> word v -> rep T (set_seq H v) (put F TDB_SEQNUM_OFS (enc T [v])).
Proof.
  intros Hr Hv. destruct (rep_end _ _ _ Hr) as [Hl Hend]. pose proof (gc_hash_size T).
  pose proof (length_enc T [v]) as Henc. change (Z.of_nat (length [v])) with 1 in Henc.
  unfold TDB_SEQNUM_OFS in *.
  assert (48 + 4 <= FREELIST_TOP) as Ht by (unfold FREELIST_TOP, sizeof_header; lia).
  unfold data_start in *.
  apply (rep_put_head H); simpl; try done; try (unfold data_start; lia).
  - intros j Hj. destruct (rep_tops _ _ _ Hr j Hj) as [Hw Hsub]. split; [done|].
    pose proof (top_addr_range j Hj). unfold data_start in *. rewrite sub_put_disjoint by lia. done.
  - split; [done|]. unfold TDB_SEQNUM_OFS.
    replace 4 with (Z.of_nat (length (enc T [v]))) at 1 by lia. apply sub_put_same; lia.
Qed.

End access.

Section records.
Context (T : tdb_config) {GC : GoodConfig T}.
Implicit Types (H : heap) (s : tdb_context).

Lemma length_sub_rep H F a n :
  rep T H F -> 0 <= a -> 0 <= n -> a + n <= h_end H ->
  Z.of_nat (length (sub F a n)) = n.
Proof. intros Hr ???. destruct (rep_end _ _ _ Hr). apply length_sub; lia. Qed.

(** Reading a head. *)
Lemma wp_ofs_read_top H L i s (Q : option Z -> tdb_context -> Prop) :
  holds T H L s -> list_index T i ->
  (forall s', holds T H L s' -> Q (Some (h_tops H i)) s') ->
  wp (tdb_ofs_read T (top_addr i)) Q s.
Proof.
  intros Hs Hi HQ. pose proof (ho_rep _ _ _ _ Hs) as Hr.
  destruct (rep_tops _ _ _ Hr i Hi) as [Hw Hsub]. destruct (rep_end _ _ _ Hr) as [_ He].
  pose proof (top_addr_range T i Hi). unfold FREELIST_TOP, sizeof_header in *.
  unfold tdb_ofs_read. apply wp_some.
  eapply wp_read_words with (ws := [h_tops H i]); try done; try lia; by apply Forall_singleton.
Qed.

Lemma wp_ofs_write_top H L i v s (Q : bool -> tdb_context -> Prop) :
  holds T H L s -> list_index T i -> word v ->
  (forall s', holds T (set_top H i v) L s' -> Q true s') ->
  wp (tdb_ofs_write T (top_addr i) v) Q s.
Proof.
  intros Hs Hi Hv HQ. pose proof (ho_rep _ _ _ _ Hs) as Hr.
  destruct (rep_end _ _ _ Hr) as [_ He]. pose proof (top_addr_range T i Hi).
  pose proof (length_enc T [v]) as Henc. change (Z.of_nat (length [v])) with 1 in Henc.
  unfold FREELIST_TOP, sizeof_header in *.
  eapply wp_write with (H' := set_top H i v); try done; try (fold (enc T [v]); lia).
  by apply rep_set_top.
Qed.

Lemma wp_ofs_read_seq H L s (Q : option Z -> tdb_context -> Prop) :
  holds T H L s ->
  (forall s', holds T H L s' -> Q (Some (h_seq H)) s') ->
  wp (tdb_ofs_read T TDB_SEQNUM_OFS) Q s.
Proof.
  intros Hs HQ. pose proof (ho_rep _ _ _ _ Hs) as Hr. pose proof (gc_hash_size T).
  destruct (rep_seq _ _ _ Hr) as [Hw Hsub]. destruct (rep_end _ _ _ Hr) as [_ He].
  unfold data_start, FREELIST_TOP, sizeof_header in *.
  unfold tdb_ofs_read. apply wp_some.
  eapply wp_read_words with (ws := [h_seq H]); try done;
    try (unfold TDB_SEQNUM_OFS; lia); by apply Forall_singleton.
Qed.

Lemma wp_ofs_write_seq H L v s (Q : bool -> tdb_context -> Prop) :
  holds T H L s -> word v ->
  (forall s', holds T (set_seq H v) L s' -> Q true s') ->
  wp (tdb_ofs_write T TDB_SEQNUM_OFS v) Q s.
Proof.
  intros Hs Hv HQ. pose proof (ho_rep _ _ _ _ Hs) as Hr. pose proof (gc_hash_size T).
  destruct (rep_end _ _ _ Hr) as [_ He].
  pose proof (length_enc T [v]) as Henc. change (Z.of_nat (length [v])) with 1 in Henc.
  unfold data_start, FREELIST_TOP, sizeof_header in *.
  eapply wp_write with (H' := set_seq H v); try done;
    try (fold (enc T [v]); unfold TDB_SEQNUM_OFS; lia).
  by apply rep_set_seq.
Qed.

(** Reading a header. *)
Lemma wp_read_rec H L o b h s (Q : option list_struct -> tdb_context -> Prop) :
  holds T H L s -> h_blks H !! o = Some b -> b_hdr b = Some h ->
  (forall s', holds T H L s' -> Q (Some h) s') ->
  wp (read_rec T o) Q s.
Proof.
  intros Hs Hb Hh HQ. pose proof (ho_rep _ _ _ _ Hs) as Hr.
  destruct (rep_blk_in _ _ _ _ _ Hr Hb) as (? & ? & ? & ? & ?).
  destruct (bo_hdr _ _ _ _ (rep_blks _ _ _ Hr _ _ Hb) h Hh) as (Hw & _ & Hsub).
  unfold read_rec. apply wp_some.
  eapply wp_read_words with (ws := rec_words h); try done; try lia.
  intros s' Hs'. apply wp_ret. destruct h. by apply HQ.
Qed.

(** The header of a record in use: its magic is good, and what it points to is
    in the file. *)
Lemma wp_tdb_rec_read H L o b h s (Q : option list_struct -> tdb_context -> Prop) :
  holds T H L s -> h_blks H !! o = Some b -> b_hdr b = Some h ->
  TDB_BAD_MAGIC h = false -> next h = 0 \/ is_Some (h_blks H !! next h) ->
  (forall s', holds T H L s' -> Q (Some h) s') ->
  wp (tdb_rec_read T o) Q s.
Proof.
  intros Hs Hb Hh Hm Hn HQ. unfold tdb_rec_read. apply wp_some.
  eapply wp_read_rec; [done..|]. intros s' Hs'. rewrite Hm. apply wp_check.
  destruct (rep_blk_in _ _ _ _ _ (ho_rep _ _ _ _ Hs) Hb) as (? & ? & ? & ? & ?).
  assert (next h + 24 <= h_end H /\ 0 <= next h) as [Hle Hnn].
  { destruct Hn as [->|[c Hc]]; [lia|].
    destruct (rep_blk_in _ _ _ _ _ (ho_rep _ _ _ _ Hs) Hc) as (? & ? & ? & _). lia. }
  unfold sizeof_rec. rewrite u32_small by lia.
  eapply wp_oob; [done..|]. intros s'' Hs'' _ _. by apply wp_ret, HQ.
Qed.

(** Writing a header, of the same size. *)
Lemma wp_rec_write H L o b h s (Q : bool -> tdb_context -> Prop) :
  holds T H L s -> h_blks H !! o = Some b -> rec_typed h -> b_size b = 24 + rec_len h ->
  (forall s', holds T (set_blk H o (set_hdr b h)) L s' -> Q true s') ->
  wp (tdb_rec_write T o h) Q s.
Proof.
  intros Hs Hb Hw Hsz HQ. pose proof (ho_rep _ _ _ _ Hs) as Hr.
  destruct (rep_blk_in _ _ _ _ _ Hr Hb) as (? & ? & ? & ? & ?).
  destruct (rep_end _ _ _ Hr) as [Hl _].
  pose proof (length_enc T (rec_words h)) as Henc.
  change (Z.of_nat (length (rec_words h))) with 6 in Henc.
  eapply wp_write with (H' := set_blk H o (set_hdr b h)); try done;
    try (fold (enc T (rec_words h)); lia).
  fold (enc T (rec_words h)). destruct (rep_blks _ _ _ Hr _ _ Hb) as [Hh Ht [Hd1 Hd2]].
  eapply rep_put_block; try done; try lia. split; simpl.
  - intros h' [= <-]. split; [done|]. split; [done|].
    replace 24 with (Z.of_nat (length (enc T (rec_words h)))) by lia. apply sub_put_same; lia.
  - intros E. rewrite sub_put_disjoint by lia. auto.
  - split; [done|]. rewrite sub_put_disjoint by lia. done.
Qed.

Lemma enc_cons w ws : enc T (w :: ws) = enc T [w] ++ enc T ws.
Proof.
  unfold enc, CONVERT, tdb_convert. destruct (DOCONV T); cbn [map flat_map]; by rewrite app_nil_r.
Qed.

(** Writing [next], the first word of a header. *)
Lemma wp_ofs_write_next H L o b h v s (Q : bool -> tdb_context -> Prop) :
  holds T H L s -> h_blks H !! o = Some b -> b_hdr b = Some h -> word v ->
  (forall s', holds T (set_blk H o (set_hdr b (with_next h v))) L s' -> Q true s') ->
  wp (tdb_ofs_write T o v) Q s.
Proof.
  intros Hs Hb Eh Hv HQ. pose proof (ho_rep _ _ _ _ Hs) as Hr.
  destruct (rep_blk_in _ _ _ _ _ Hr Hb) as (? & ? & ? & ? & ?).
  destruct (rep_end _ _ _ Hr) as [Hl _].
  pose proof (length_enc T [v]) as Henc. change (Z.of_nat (length [v])) with 1 in Henc.
  eapply wp_write with (H' := set_blk H o (set_hdr b (with_next h v))); try done;
    try (fold (enc T [v]); lia).
  fold (enc T [v]). destruct (rep_blks _ _ _ Hr _ _ Hb) as [Hh Ht [Hd1 Hd2]].
  destruct (Hh h Eh) as (Hw & Hsz & Hsub).
  eapply rep_put_block; try done; try lia. split; simpl.
  - intros h' [= <-]. split.
    { unfold rec_typed in *. simpl in *. inversion Hw; subst. by constructor. }
    split; [done|]. change 24 with (4 + 20). rewrite sub_split by lia.
    unfold rec_words in *. rewrite enc_cons in Hsub. simpl in *.
    rewrite (enc_cons v [rec_len h; key_len h; data_len h; full_hash h; magic h]).
    change 24 with (4 + 20) in Hsub. rewrite sub_split in Hsub by lia. f_equal.
    + replace 4 with (Z.of_nat (length (enc T [v]))) at 1 by lia. apply sub_put_same; lia.
    + rewrite sub_put_disjoint by lia.
      pose proof (length_sub_rep H (file s) o 4 Hr) as Hl4.
      pose proof (length_enc T [next h]) as Hl4'. simpl in Hl4'.
      apply app_inj_1 in Hsub as [_ Hsub]; [done|]. lia.
  - intros E. rewrite sub_put_disjoint by lia. auto.
  - split; [done|]. rewrite sub_put_disjoint by lia. done.
Qed.

(** Reading [next]. *)
Lemma wp_ofs_read_next H L o b h s (Q : option Z -> tdb_context -> Prop) :
  holds T H L s -> h_blks H !! o = Some b -> b_hdr b = Some h ->
  (forall s', holds T H L s' -> Q (Some (next h)) s') ->
  wp (tdb_ofs_read T o) Q s.
Proof.
  intros Hs Hb Eh HQ. pose proof (ho_rep _ _ _ _ Hs) as Hr.
  destruct (rep_blk_in _ _ _ _ _ Hr Hb) as (? & ? & ? & ? & ?).
  destruct (bo_hdr _ _ _ _ (rep_blks _ _ _ Hr _ _ Hb) h Eh) as (Hw & _ & Hsub).
  unfold tdb_ofs_read. apply wp_some.
  eapply wp_read_words with (ws := [next h]); try done; try lia.
  - change 24 with (4 + 20) in Hsub. rewrite sub_split in Hsub by lia.
    unfold rec_words in Hsub. rewrite enc_cons in Hsub.
    pose proof (length_sub_rep H (file s) o 4 Hr).
    pose proof (length_enc T [next h]) as Hl4. simpl in Hl4.
    apply app_inj_1 in Hsub as [Hsub _]; [done|lia].
  - unfold rec_typed in Hw. inversion Hw; subst. by apply Forall_singleton.
Qed.

(** The tailer. *)
Lemma wp_write_tailer H L o b s (Q : bool -> tdb_context -> Prop) :
  holds T H L s -> h_blks H !! o = Some b ->
  (forall s', holds T (set_blk H o (set_tail b)) L s' -> Q true s') ->
  wp (tdb_ofs_write T (o + b_size b - 4) (b_size b)) Q s.
Proof.
  intros Hs Hb HQ. pose proof (ho_rep _ _ _ _ Hs) as Hr.
  destruct (rep_blk_in _ _ _ _ _ Hr Hb) as (? & ? & ? & ? & ?).
  destruct (rep_end _ _ _ Hr) as [Hl _]. set (v := b_size b) in *.
  pose proof (length_enc T [v]) as Henc. change (Z.of_nat (length [v])) with 1 in Henc.
  eapply wp_write with (H' := set_blk H o (set_tail b)); try done; try (fold (enc T [v]); lia).
  fold (enc T [v]). destruct (rep_blks _ _ _ Hr _ _ Hb) as [Hh Ht [Hd1 Hd2]].
  fold v in Hd1. eapply rep_put_block; try done; try (fold v; lia). split; simpl.
  - intros h E. destruct (Hh h E) as (? & ? & ?). split; [done|]. split; [done|].
    rewrite sub_put_disjoint by lia. done.
  - intros _. fold v. replace 4 with (Z.of_nat (length (enc T [v]))) at 3 by lia.
    apply sub_put_same; lia.
  - fold v. split; [done|]. rewrite sub_put_disjoint by lia. done.
Qed.

Lemma wp_read_tailer H L o b s (Q : option Z -> tdb_context -> Prop) :
  holds T H L s -> h_blks H !! o = Some b -> b_tail b = true ->
  (forall s', holds T H L s' -> Q (Some (b_size b)) s') ->
  wp (tdb_ofs_read T (o + b_size b - 4)) Q s.
Proof.
  intros Hs Hb Et HQ. pose proof (ho_rep _ _ _ _ Hs) as Hr.
  destruct (rep_blk_in _ _ _ _ _ Hr Hb) as (? & ? & ? & ? & ?).
  pose proof (bo_tail _ _ _ _ (rep_blks _ _ _ Hr _ _ Hb) Et) as Hsub.
  unfold tdb_ofs_read. apply wp_some.
  eapply wp_read_words with (ws := [b_size b]); try done; try lia.
  apply Forall_singleton. unfold word. lia.
Qed.

(** Bytes after the header: what was known before them stays known. *)
Lemma wp_write_data H L o b k buf s (Q : bool -> tdb_context -> Prop) :
  holds T H L s -> h_blks H !! o = Some b -> (k <= length (b_data b))%nat ->
  Z.of_nat (k + length buf) <= b_size b - 28 ->
  (forall s', holds T (set_blk H o (set_data b (take k (b_data b) ++ buf))) L s' -> Q true s') ->
  wp (tdb_write T (o + 24 + Z.of_nat k) buf) Q s.
Proof.
  intros Hs Hb Hk Hlen HQ. pose proof (ho_rep _ _ _ _ Hs) as Hr.
  destruct (rep_blk_in _ _ _ _ _ Hr Hb) as (? & ? & ? & ? & ?).
  destruct (rep_end _ _ _ Hr) as [Hl _].
  destruct (rep_blks _ _ _ Hr _ _ Hb) as [Hh Ht [Hd1 Hd2]].
  assert (sub (file s) (o + 24) (Z.of_nat k) = take k (b_data b)) as Hpre.
  { rewrite <- Hd2, <- (sub_prefix _ _ _ (Z.of_nat (length (b_data b)))) by lia.
    by rewrite Nat2Z.id. }
  assert (length (take k (b_data b)) = k) as Hlk by (rewrite length_take; lia).
  destruct (decide (buf = [])) as [->|Hne].
  { unfold tdb_write. simpl. apply wp_ret, HQ. destruct Hs. split; try done.
    split; try apply Hr.
    - by eapply tiling_insert; [apply (rep_tiling _ _ _ Hr)|..].
    - simpl. intros p c [[<- <-]|[Hnp Hp]]%lookup_insert_Some; [|by apply (rep_blks _ _ _ Hr)].
      split; simpl; [done..|]. rewrite app_nil_r, Hlk. split; [lia|done]. }
  eapply wp_write with (H' := set_blk H o (set_data b (take k (b_data b) ++ buf))); try done; try lia.
  { destruct buf; [done|simpl; lia]. }
  eapply rep_put_block; try done; try lia. split; simpl.
  - intros h E. destruct (Hh h E) as (? & ? & ?). split; [done|]. split; [done|].
    rewrite sub_put_disjoint by lia. done.
  - intros E. rewrite sub_put_disjoint by lia. auto.
  - rewrite length_app, Hlk. split; [lia|]. rewrite Nat2Z.inj_add, sub_split by lia.
    rewrite sub_put_disjoint, Hpre, sub_put_same by lia. done.
Qed.

(** Reading known bytes. *)
Lemma wp_read_data H L o b k n s (Q : option (list Z) -> tdb_context -> Prop) :
  holds T H L s -> h_blks H !! o = Some b -> (k + n <= length (b_data b))%nat ->
  (forall s', holds T H L s' -> Q (Some (take n (drop k (b_data b)))) s') ->
  wp (tdb_read T (o + 24 + Z.of_nat k) (Z.of_nat n)) Q s.
Proof.
  intros Hs Hb Hk HQ. pose proof (ho_rep _ _ _ _ Hs) as Hr.
  destruct (rep_blk_in _ _ _ _ _ Hr Hb) as (? & ? & ? & ? & ?).
  destruct (rep_end _ _ _ Hr) as [Hl _].
  destruct (rep_blks _ _ _ Hr _ _ Hb) as [Hh Ht [Hd1 Hd2]].
  eapply wp_read; [done|lia..|]. intros s' Hs' _.
  replace (sub (file s) (o + 24 + Z.of_nat k) (Z.of_nat n)) with (take n (drop k (b_data b)));
    [by apply HQ|].
  rewrite <- Hd2. unfold sub. rewrite !Nat2Z.id.
  rewrite skipn_firstn_comm, take_take, drop_drop. f_equal; [lia|].
  f_equal. lia.
Qed.

End records.
