(* ===== verification/TdbChain.v ===== *)
(** * tdb: the lists of a file, and the contents they make

    No code of its own.  [path] follows the [next] members of the records;
    [wf] says that the free list and the chains of the hash table run through
    disjoint sets of blocks and that each block is in one of them; [contents]
    relates the live records to a finite map.  The lemmas give what linking,
    unlinking, splitting and merging blocks does to all of these. *)

From stdpp Require Import functions.
From S2P Require Import Prelude TdbIo TdbHeap.

(** ** The lists *)

(** [l] is the list of records that starts at [v]. *)
Fixpoint path (B : gmap Z blk) (v : Z) (l : list Z) : Prop :=
  match l with
  | [] => v = 0
  | o :: l => v = o /\ o <> 0 /\
      exists b h, B !! o = Some b /\ b_hdr b = Some h /\ path B (next h) l
  end.

Section path.
Implicit Types (B : gmap Z blk).

Lemma path_det B v l l' : path B v l -> path B v l' -> l = l'.
Proof.
  revert v l'. induction l as [|o l IH]; intros v [|o' l']; simpl; [done|..].
  - intros -> (? & ? & _). congruence.
  - intros (-> & ? & _) ?. congruence.
  - intros (-> & ? & b & h & Hb & Hh & Hl) (<- & _ & b' & h' & Hb' & Hh' & Hl').
    simplify_eq. f_equal. by eapply IH.
Qed.

(** A record of the list. *)
Lemma path_at B v l1 o l2 :
  path B v (l1 ++ o :: l2) ->
  exists b h, B !! o = Some b /\ b_hdr b = Some h /\ path B (next h) l2 /\ path B o (o :: l2).
Proof.
  revert v. induction l1 as [|p l1 IH]; intros v; simpl.
  - intros (-> & ? & b & h & ? & ? & ?). exists b, h. eauto 10.
  - intros (-> & ? & b & h & ? & ? & Hp). by eapply IH.
Qed.

Lemma path_nodup B v l : path B v l -> NoDup l.
Proof.
  revert v. induction l as [|o l IH]; intros v Hp; [constructor|].
  constructor; [|simpl in Hp; destruct Hp as (_ & _ & ? & ? & _ & _ & ?); by eapply IH].
  intros [l1 [l2 ->]]%list_elem_of_split.
  destruct (path_at B v [] o (l1 ++ o :: l2) Hp) as (_ & _ & _ & _ & _ & P1).
  destruct (path_at B v (o :: l1) o l2 Hp) as (_ & _ & _ & _ & _ & P2).
  pose proof (path_det _ _ _ _ P1 P2) as E.
  apply (f_equal length) in E. simpl in E. rewrite length_app in E. simpl in E. lia.
Qed.

(** Only the [next] of its members matters. *)
Lemma path_mono B B' v l :
  (forall o b h, o ∈ l -> B !! o = Some b -> b_hdr b = Some h ->
     exists b' h', B' !! o = Some b' /\ b_hdr b' = Some h' /\ next h' = next h) ->
  path B v l -> path B' v l.
Proof.
  revert v. induction l as [|o l IH]; intros v Hsame; simpl; [done|].
  intros (-> & Ho & b & h & Hb & Hh & Hl). split; [done|]. split; [done|].
  destruct (Hsame o b h) as (b' & h' & Hb' & Hh' & Hn); [left|done..|].
  exists b', h'. split; [done|]. split; [done|]. rewrite Hn. apply IH; [|done].
  intros p c k Hp. apply Hsame. by right.
Qed.

Lemma path_insert B v l o b : o ∉ l -> path B v l -> path (<[o := b]> B) v l.
Proof.
  intros Ho. apply path_mono. intros p c h Hp Hc Hh. exists c, h.
  rewrite lookup_insert_ne by (by intros ->). done.
Qed.

Lemma path_delete B v l o : o ∉ l -> path B v l -> path (delete o B) v l.
Proof.
  intros Ho. apply path_mono. intros p c h Hp Hc Hh. exists c, h.
  rewrite lookup_delete_ne by (by intros ->). done.
Qed.

Lemma path_zero B v l : path B v l -> v = 0 <-> l = [].
Proof. destruct l; simpl; [done|]. intros (-> & ? & _). naive_solver. Qed.

Lemma path_next B v l : path B v l -> v = 0 \/ is_Some (B !! v).
Proof. destruct l; simpl; [by left|]. intros (-> & _ & b & h & -> & _). by right. Qed.

(** The record before the cut gets a new successor. *)
Lemma path_relink B v pre p rest rest' b h w :
  path B v (pre ++ p :: rest) -> p ∉ pre -> p ∉ rest' ->
  B !! p = Some b -> b_hdr b = Some h -> path B w rest' ->
  path (<[p := set_hdr b (with_next h w)]> B) v (pre ++ p :: rest').
Proof.
  intros Hp Hpre Hrest Hb Hh Hw. revert v Hp. induction pre as [|q pre IH]; intros v; simpl.
  - intros (-> & ? & _). split; [done|]. split; [done|].
    exists (set_hdr b (with_next h w)), (with_next h w). rewrite lookup_insert_eq.
    split; [done|]. split; [done|]. simpl. by apply path_insert.
  - intros (-> & ? & c & k & Hc & Hk & Hl). split; [done|]. split; [done|].
    exists c, k. rewrite not_elem_of_cons in Hpre. destruct Hpre as [Hne Hpre].
    rewrite lookup_insert_ne by done. split; [done|]. split; [done|]. by apply IH.
Qed.
End path.

(** ** The lists of a database *)

Section wf.
Context (T : tdb_config) {GC : GoodConfig T}.
Implicit Types (H : heap) (ls : Z -> list Z) (X Y : gset Z).

(** What a member of list [i] is: a free record, or in a hash chain a record of
    that bucket in use or dead. *)
Definition live_ok (b : blk) (h : list_struct) : Prop :=
  magic h = TDB_MAGIC /\ exists k v, b_data b = k ++ v /\
    Z.of_nat (length k) = key_len h /\ Z.of_nat (length v) = data_len h /\
    full_hash h = hash_fn T k.

Definition mem_ok (i : Z) (b : blk) (h : list_struct) : Prop :=
  (i = -1 /\ magic h = TDB_FREE_MAGIC) \/
  (bucket_index T i /\ (live_ok b h \/ magic h = TDB_DEAD_MAGIC) /\ BUCKET T (full_hash h) = i).

(** A complete block: header and tailer. *)
Definition solid (b : blk) (h : list_struct) : Prop := b_hdr b = Some h /\ b_tail b = true.

(** [ls i] is list [i]; [X] are complete blocks that are taken out of the
    lists, and [Y] blocks that are being formed.  There are no others. *)
Record wf H ls X Y : Prop := {
  wf_path : forall i, list_index T i -> path (h_blks H) (h_tops H i) (ls i);
  wf_mem : forall i o, list_index T i -> o ∈ ls i ->
    exists b h, h_blks H !! o = Some b /\ solid b h /\ mem_ok i b h;
  wf_held : forall o, o ∈ X ->
    (exists b h, h_blks H !! o = Some b /\ solid b h /\ magic h <> TDB_FREE_MAGIC)
    /\ forall i, list_index T i -> o ∉ ls i;
  wf_raw : forall o, o ∈ Y ->
    is_Some (h_blks H !! o) /\ o ∉ X /\ forall i, list_index T i -> o ∉ ls i;
  wf_all : forall o b, h_blks H !! o = Some b ->
    o ∈ X \/ o ∈ Y \/ exists i, list_index T i /\ o ∈ ls i
}.

Lemma free_index : list_index T (-1).
Proof. pose proof (gc_hash_size T). unfold list_index. lia. Qed.

Lemma bucket_list i : bucket_index T i -> list_index T i.
Proof. unfold bucket_index, list_index. lia. Qed.

Lemma BUCKET_index h : bucket_index T (BUCKET T h).
Proof. unfold BUCKET. apply Z.mod_pos_bound, gc_hash_size. done. Qed.

Lemma mem_ok_index i j b h :
  list_index T i -> list_index T j -> mem_ok i b h -> mem_ok j b h -> i = j.
Proof.
  intros Hi Hj [[-> Hm]|(Hbi & Hm & <-)] [[-> Hm']|(Hbj & Hm' & <-)]; [done|..|done].
  - destruct Hm' as [[Hm' _]|Hm']; rewrite Hm in Hm'; vm_compute in Hm'; discriminate.
  - destruct Hm as [[Hm _]|Hm]; rewrite Hm in Hm'; vm_compute in Hm'; discriminate.
Qed.

(** The lists are disjoint. *)
Lemma wf_disjoint H ls X Y i j o :
  wf H ls X Y -> list_index T i -> list_index T j -> o ∈ ls i -> o ∈ ls j -> i = j.
Proof.
  intros Hw Hi Hj Hoi Hoj.
  destruct (wf_mem _ _ _ _ Hw i o Hi Hoi) as (b & h & Hb & [Hh _] & Hm).
  destruct (wf_mem _ _ _ _ Hw j o Hj Hoj) as (b' & h' & Hb' & [Hh' _] & Hm').
  simplify_eq. by eapply mem_ok_index.
Qed.

(** A free record that is not being formed is in the free list. *)
Lemma wf_free_mem H ls X Y o b h :
  wf H ls X Y -> h_blks H !! o = Some b -> b_hdr b = Some h -> magic h = TDB_FREE_MAGIC ->
  o ∉ Y -> o ∈ ls (-1).
Proof.
  intros Hw Hb Hh Hm HY.
  destruct (wf_all _ _ _ _ Hw o b Hb) as [HX|[?|(i & Hi & Ho)]]; [|done|].
  - destruct (wf_held _ _ _ _ Hw o HX) as [(b' & h' & Hb' & [Hh' _] & Hm') _]. by simplify_eq.
  - destruct (wf_mem _ _ _ _ Hw i o Hi Ho) as (b' & h' & Hb' & [Hh' _] & Hm'). simplify_eq.
    destruct Hm' as [[-> _]|(_ & [[Hm' _]|Hm'] & _)]; [done|..];
      rewrite Hm in Hm'; vm_compute in Hm'; discriminate.
Qed.

(** Blocks that are not raw are complete. *)
Lemma wf_solid H ls X Y o b :
  wf H ls X Y -> h_blks H !! o = Some b -> o ∉ Y -> exists h, solid b h.
Proof.
  intros Hw Hb HY. destruct (wf_all _ _ _ _ Hw o b Hb) as [HX|[?|(i & Hi & Ho)]]; [|done|].
  - destruct (wf_held _ _ _ _ Hw o HX) as [(b' & h' & Hb' & Hs & _) _]. simplify_eq. eauto.
  - destruct (wf_mem _ _ _ _ Hw i o Hi Ho) as (b' & h' & Hb' & Hs & _). simplify_eq. eauto.
Qed.

(** ** Changes *)

(** A raw block may be anything. *)
Lemma wf_set_raw H ls X Y o b :
  wf H ls X Y -> o ∈ Y -> wf (set_blk H o b) ls X Y.
Proof.
  intros Hw HY. destruct (wf_raw _ _ _ _ Hw o HY) as (Hin & HX & Hls). split; simpl.
  - intros i Hi. apply path_insert; [by apply Hls|by apply Hw].
  - intros i p Hi Hp. rewrite lookup_insert_ne by (intros <-; by apply (Hls i)).
    by apply (wf_mem _ _ _ _ Hw).
  - intros p Hp. rewrite lookup_insert_ne by (by intros <-). by apply (wf_held _ _ _ _ Hw).
  - intros p Hp. split; [|by apply (wf_raw _ _ _ _ Hw)].
    rewrite lookup_insert_is_Some. destruct (decide (o = p)); [by left|right].
    split; [done|]. by apply (wf_raw _ _ _ _ Hw).
  - intros p c [[<- <-]|[_ Hp]]%lookup_insert_Some; [by right; left|].
    by apply (wf_all _ _ _ _ Hw p c).
Qed.

(** A member keeps its place. *)
Lemma wf_set_mem H ls X Y i o b h b' h' :
  wf H ls X Y -> list_index T i -> o ∈ ls i -> h_blks H !! o = Some b -> b_hdr b = Some h ->
  solid b' h' -> next h' = next h -> mem_ok i b' h' -> wf (set_blk H o b') ls X Y.
Proof.
  intros Hw Hi Ho Hb Hh Hs' Hn Hm. split; simpl.
  - intros j Hj. eapply path_mono, (wf_path _ _ _ _ Hw j Hj). intros p c k Hp Hc Hk.
    destruct (decide (p = o)) as [->|Hne].
    + rewrite lookup_insert_eq. exists b', h'. simplify_eq. split; [done|]. split; [apply Hs'|done].
    + rewrite lookup_insert_ne by done. eauto.
  - intros j p Hj Hp. destruct (decide (p = o)) as [->|Hne].
    + rewrite lookup_insert_eq. exists b', h'. split; [done|]. split; [done|].
      by rewrite (wf_disjoint _ _ _ _ j i o Hw).
    + rewrite lookup_insert_ne by done. by apply (wf_mem _ _ _ _ Hw).
  - intros p Hp. destruct (wf_held _ _ _ _ Hw p Hp) as [Hx Hnl].
    rewrite lookup_insert_ne by (intros <-; by eapply Hnl). done.
  - intros p Hp. destruct (wf_raw _ _ _ _ Hw p Hp) as (Hx & HX & Hnl).
    rewrite lookup_insert_ne by (intros <-; by eapply Hnl). done.
  - intros p c [[<- <-]|[_ Hp]]%lookup_insert_Some; [by right; right; exists i|].
    by apply (wf_all _ _ _ _ Hw p c).
Qed.

(** The word that points to the record after [pre] in list [i]. *)
Definition link_addr (i : Z) (pre : list Z) : Z :=
  match last pre with None => top_addr i | Some p => p end.
Definition link H (i : Z) (pre : list Z) (v : Z) : heap :=
  match last pre with
  | None => set_top H i v
  | Some p =>
    match h_blks H !! p with
    | Some b => match b_hdr b with
                | Some h => set_blk H p (set_hdr b (with_next h v))
                | None => H
                end
    | None => H
    end
  end.

Lemma mem_ok_next i b h v : mem_ok i b h -> mem_ok i (set_hdr b (with_next h v)) (with_next h v).
Proof. done. Qed.

(** Linking changes no block but the one before the cut, and of that only
    [next]. *)
Lemma link_lookup H i pre v o :
  o ∉ pre -> h_blks (link H i pre v) !! o = h_blks H !! o.
Proof.
  intros Ho. unfold link. destruct (last pre) as [p|] eqn:E; [|done].
  destruct (h_blks H !! p) as [b|] eqn:Eb; [|done]. destruct (b_hdr b); [|done]. simpl.
  apply lookup_insert_ne. intros ->. apply Ho. apply last_Some in E as [pre0 ->].
  apply elem_of_app. right. by left.
Qed.

Lemma link_lookup_Some H i pre v o b :
  h_blks H !! o = Some b ->
  exists b', h_blks (link H i pre v) !! o = Some b' /\ b_size b' = b_size b /\ b_tail b' = b_tail b
    /\ b_data b' = b_data b /\
    (b' = b \/ exists h, b_hdr b = Some h /\ b_hdr b' = Some (with_next h v)).
Proof.
  intros Hb. unfold link. destruct (last pre) as [p|]; [|simpl; eauto 10].
  destruct (h_blks H !! p) as [c|] eqn:Ec; [|eauto 10].
  destruct (b_hdr c) as [k|] eqn:Ek; [|eauto 10]. simpl.
  destruct (decide (p = o)) as [->|Hne].
  - rewrite lookup_insert_eq. simplify_eq. eexists. split; [done|]. simpl. eauto 10.
  - rewrite lookup_insert_ne by done. eauto 10.
Qed.

Lemma link_is_Some H i pre v o :
  is_Some (h_blks (link H i pre v) !! o) <-> is_Some (h_blks H !! o).
Proof.
  unfold link. destruct (last pre) as [p|]; [|done].
  destruct (h_blks H !! p) as [c|] eqn:Ec; [|done].
  destruct (b_hdr c) as [k|] eqn:Ek; [|done]. simpl.
  destruct (decide (p = o)) as [->|Hne]; [rewrite lookup_insert_eq, Ec; split; eauto|].
  by rewrite lookup_insert_ne by done.
Qed.

Lemma link_tops H i pre v j : j <> i -> h_tops (link H i pre v) j = h_tops H j.
Proof.
  intros Hne. unfold link. repeat case_match; try done. simpl. by rewrite fn_lookup_insert_ne.
Qed.

Lemma link_end H i pre v : h_end (link H i pre v) = h_end H /\ h_seq (link H i pre v) = h_seq H.
Proof. unfold link. repeat case_match; done. Qed.

(** Taking [o] out of its list. *)
Lemma wf_unlink H ls X Y i pre o post b h :
  wf H ls X Y -> list_index T i -> ls i = pre ++ o :: post ->
  h_blks H !! o = Some b -> b_hdr b = Some h ->
  wf (link H i pre (next h)) (<[i := pre ++ post]> ls) X ({[o]} ∪ Y).
Proof.
  intros Hw Hi El Hb Hh. pose proof (wf_path _ _ _ _ Hw i Hi) as Hp. rewrite El in Hp.
  pose proof (path_nodup _ _ _ Hp) as Hnd.
  apply NoDup_app in Hnd as (Hnd1 & Hdis & Hnd2). apply NoDup_cons in Hnd2 as [Hopost Hnd2].
  assert (o ∉ pre) as Hopre by (intros Ho; apply (Hdis o Ho); by left).
  assert (forall j p, list_index T j -> j <> i -> p ∈ ls j -> p ∉ pre) as Hother.
  { intros j p Hj Hne Hpj Hpp. apply Hne. eapply (wf_disjoint _ _ _ _ j i p Hw); try done.
    rewrite El. apply elem_of_app. by left. }
  assert (forall j p, list_index T j -> p ∈ (<[i:=pre++post]> ls) j -> p ∈ ls j /\ p <> o) as Hsub.
  { intros j p Hj. destruct (decide (i = j)) as [<-|Hne].
    - rewrite fn_lookup_insert, El, !elem_of_app, elem_of_cons.
      intros [?|?]; (split; [by auto|]); congruence.
    - rewrite fn_lookup_insert_ne by done. intros Hpj. split; [done|]. intros ->.
      apply Hne. eapply (wf_disjoint _ _ _ _ i j o Hw); try done. rewrite El.
      apply elem_of_app. right. by left. }
  destruct (path_at _ _ _ _ _ Hp) as (b0 & h0 & Hb0 & Hh0 & Hpost & _). simplify_eq.
  split.
  - intros j Hj. destruct (decide (i = j)) as [<-|Hne].
    + rewrite fn_lookup_insert. unfold link. destruct (last pre) as [p|] eqn:Elast.
      * apply last_Some in Elast as [pre' ->].
        assert (p ∉ pre' /\ p ∉ post) as [Hp1 Hp2].
        { apply NoDup_app in Hnd1 as (_ & Hd1 & _). split.
          - intros Hin. apply (Hd1 p Hin). by left.
          - intros Hin. apply (Hdis p); [apply elem_of_app; right; by left|by right]. }
        rewrite <- app_assoc in Hp. simpl in Hp.
        destruct (path_at _ _ _ _ _ Hp) as (c & k & Hc & Hk & _). rewrite Hc, Hk. simpl.
        rewrite <- app_assoc. simpl. by eapply path_relink.
      * apply last_None in Elast as ->. simpl. by rewrite fn_lookup_insert.
    + rewrite fn_lookup_insert_ne, link_tops by done.
      eapply path_mono, (wf_path _ _ _ _ Hw j Hj). intros p c k Hpj Hc Hk.
      rewrite link_lookup by (by eapply (Hother j)). eauto.
  - intros j p Hj [Hpj _]%Hsub; [|done].
    destruct (wf_mem _ _ _ _ Hw j p Hj Hpj) as (c & k & Hc & [Hk Ht] & Hm).
    destruct (link_lookup_Some H i pre (next h) p c Hc) as (c' & Hc' & Hsz & Htl & Hd & [-> | (k' & Hk' & Hk2)]).
    + exists c, k. done.
    + simplify_eq. exists c', (with_next k (next h)). split; [done|].
      split; [split; [done|congruence]|]. destruct Hm as [?|(? & Hm & ?)]; [by left|right].
      split; [done|]. split; [|done]. destruct Hm as [(Hm & kk & vv & E)|?]; [left|by right].
      split; [done|]. exists kk, vv. rewrite Hd. done.
  - intros p HX. destruct (wf_held _ _ _ _ Hw p HX) as [(c & k & Hc & Hs & Hm) Hnl]. split.
    + exists c, k. rewrite link_lookup; [done|]. intros Hpp. apply (Hnl i Hi). rewrite El.
      apply elem_of_app. by left.
    + intros j Hj [Hpj _]%Hsub; [|done]. by apply (Hnl j).
  - intros p [->%elem_of_singleton|HY]%elem_of_union.
    + rewrite link_is_Some, Hb. split; [eauto|]. split.
      * intros HX. destruct (wf_held _ _ _ _ Hw o HX) as [_ Hnl]. apply (Hnl i Hi). rewrite El.
        apply elem_of_app. right. by left.
      * intros j Hj [_ ?]%Hsub; done.
    + destruct (wf_raw _ _ _ _ Hw p HY) as (Hin & HX & Hnl). rewrite link_is_Some.
      split; [done|]. split; [done|]. intros j Hj [Hpj _]%Hsub; [|done]. by apply (Hnl j).
  - intros p c Hc. assert (is_Some (h_blks H !! p)) as [c0 Hc0] by (rewrite <- link_is_Some; eauto).
    rewrite elem_of_union, elem_of_singleton.
    destruct (decide (p = o)) as [->|Hpo]; [by auto|].
    destruct (wf_all _ _ _ _ Hw p c0 Hc0) as [?|[?|(j & Hj & Hpj)]]; [by auto..|].
    right; right. exists j. split; [done|]. destruct (decide (i = j)) as [<-|Hne].
    + rewrite fn_lookup_insert. rewrite El, elem_of_app, elem_of_cons in Hpj.
      rewrite elem_of_app. naive_solver.
    + by rewrite fn_lookup_insert_ne.
Qed.

(** Putting a complete raw block at the head of a list. *)
Lemma wf_push H ls X Y i o b h :
  wf H ls X Y -> list_index T i -> o ∈ Y -> o <> 0 -> h_blks H !! o = Some b -> solid b h ->
  next h = h_tops H i -> mem_ok i b h ->
  wf (set_top H i o) (<[i := o :: ls i]> ls) X (Y ∖ {[o]}).
Proof.
  intros Hw Hi HY H0 Hb Hs Hn Hm. destruct (wf_raw _ _ _ _ Hw o HY) as (_ & HX & Hnl).
  assert (forall j p, p ∈ (<[i:=o :: ls i]> ls) j -> (p = o /\ j = i) \/ p ∈ ls j) as Hsub.
  { intros j p. destruct (decide (i = j)) as [<-|Hne].
    - rewrite fn_lookup_insert, elem_of_cons. naive_solver.
    - rewrite fn_lookup_insert_ne by done. by right. }
  split; simpl.
  - intros j Hj. destruct (decide (i = j)) as [<-|Hne].
    + rewrite !fn_lookup_insert. simpl. split; [done|]. split; [done|]. exists b, h.
      split; [done|]. split; [apply Hs|]. rewrite Hn. by apply (wf_path _ _ _ _ Hw).
    + rewrite !fn_lookup_insert_ne by done. by apply (wf_path _ _ _ _ Hw).
  - intros j p Hj [[-> ->]|Hp]%Hsub; [by exists b, h|]. by apply (wf_mem _ _ _ _ Hw).
  - intros p Hp. destruct (wf_held _ _ _ _ Hw p Hp) as [Hx Hnl']. split; [done|].
    intros j Hj [[-> ->]|Hpj]%Hsub; [done|]. by apply (Hnl' j).
  - intros p [HpY Hpo]%elem_of_difference. rewrite elem_of_singleton in Hpo.
    destruct (wf_raw _ _ _ _ Hw p HpY) as (Hin & HpX & Hnl'). split; [done|]. split; [done|].
    intros j Hj [[-> ->]|Hpj]%Hsub; [done|]. by apply (Hnl' j).
  - intros p c Hc. destruct (decide (p = o)) as [->|Hpo].
    + right; right. exists i. split; [done|]. rewrite fn_lookup_insert. by left.
    + destruct (wf_all _ _ _ _ Hw p c Hc) as [?|[?|(j & Hj & Hp)]]; [by auto|right; left; set_solver|].
      right; right. exists j. split; [done|]. destruct (decide (i = j)) as [<-|Hne].
      * rewrite fn_lookup_insert. by right.
      * by rewrite fn_lookup_insert_ne.
Qed.

(** Blocks between lists. *)
Lemma wf_hold H ls X Y o b h :
  wf H ls X Y -> o ∈ Y -> h_blks H !! o = Some b -> solid b h -> magic h <> TDB_FREE_MAGIC ->
  wf H ls ({[o]} ∪ X) (Y ∖ {[o]}).
Proof.
  intros Hw HY Hb Hs Hm. destruct (wf_raw _ _ _ _ Hw o HY) as (_ & HX & Hnl). split.
  - apply Hw.
  - apply Hw.
  - intros p [->%elem_of_singleton|Hp]%elem_of_union; [|by apply (wf_held _ _ _ _ Hw)].
    split; [by exists b, h|done].
  - intros p [HpY Hpo]%elem_of_difference. destruct (wf_raw _ _ _ _ Hw p HpY) as (? & ? & ?).
    split; [done|]. split; [set_solver|done].
  - intros p c Hc. destruct (wf_all _ _ _ _ Hw p c Hc) as [?|[?|?]]; [set_solver| |by auto].
    destruct (decide (p = o)); set_solver.
Qed.

Lemma wf_unhold H ls X Y o :
  wf H ls ({[o]} ∪ X) Y -> o ∉ X -> wf H ls X ({[o]} ∪ Y).
Proof.
  intros Hw HX. split.
  - apply Hw.
  - apply Hw.
  - intros p Hp. apply (wf_held _ _ _ _ Hw). set_solver.
  - intros p [->%elem_of_singleton|Hp]%elem_of_union.
    + destruct (wf_held _ _ _ _ Hw o) as [(b & h & -> & _) Hnl]; [set_solver|]. split; [eauto|done].
    + destruct (wf_raw _ _ _ _ Hw p Hp) as (? & ? & ?). split; [done|]. split; [set_solver|done].
  - intros p c Hc. destruct (wf_all _ _ _ _ Hw p c Hc) as [?|[?|?]]; [|set_solver|by auto].
    set_solver.
Qed.

(** Merging two raw neighbours, splitting a raw block, adding one. *)
Lemma wf_set_blks H ls X Y Y' B :
  wf H ls X Y ->
  (forall p, p ∉ Y -> p ∉ Y' -> B !! p = h_blks H !! p) ->
  (forall p, p ∈ Y' -> is_Some (B !! p) /\ p ∉ X /\ forall i, list_index T i -> p ∉ ls i) ->
  (forall p, p ∈ Y -> p ∉ Y' -> B !! p = None) ->
  wf (set_blks H B) ls X Y'.
Proof.
  intros Hw Hsame Hnew Hgone.
  assert (forall i p, list_index T i -> p ∈ ls i -> B !! p = h_blks H !! p) as Hls.
  { intros i p Hi Hp. apply Hsame; intros HpY.
    - by apply (wf_raw _ _ _ _ Hw p HpY) in Hp.
    - destruct (Hnew p HpY) as (_ & _ & Hn). by eapply Hn. }
  assert (forall p, p ∈ X -> B !! p = h_blks H !! p) as HX.
  { intros p Hp. apply Hsame; intros HpY.
    - by apply (wf_raw _ _ _ _ Hw p HpY).
    - destruct (Hnew p HpY) as (_ & Hn & _). by apply Hn. }
  split; simpl.
  - intros i Hi. eapply path_mono, (wf_path _ _ _ _ Hw i Hi). intros p c k Hp Hc Hk.
    rewrite (Hls i p Hi Hp). eauto.
  - intros i p Hi Hp. rewrite (Hls i p Hi Hp). by apply (wf_mem _ _ _ _ Hw).
  - intros p Hp. rewrite (HX p Hp). by apply (wf_held _ _ _ _ Hw).
  - done.
  - intros p c Hc. destruct (decide (p ∈ Y')) as [?|Hn']; [by auto|].
    destruct (decide (p ∈ Y)) as [HpY|Hn]; [by rewrite (Hgone p HpY Hn') in Hc|].
    rewrite Hsame in Hc by done. destruct (wf_all _ _ _ _ Hw p c Hc) as [?|[?|?]]; by auto.
Qed.

End wf.

Section reshape.
Context (T : tdb_config) {GC : GoodConfig T}.
Implicit Types (H : heap) (ls : Z -> list Z) (X Y : gset Z).

(** ** Forgetting, merging, splitting and adding blocks leaves the bytes. *)

Lemma blk_ok_raw F o n : 28 <= n -> blk_ok T F o (raw_blk n).
Proof. intros Hn. split; simpl; [done..|]. split; [lia|done]. Qed.

Lemma rep_same_bytes H F B :
  rep T H F -> tiling B (data_start T) (h_end H) ->
  (forall o b, B !! o = Some b -> blk_ok T F o b) -> rep T (set_blks H B) F.
Proof. intros [] ??. by split. Qed.

Lemma rep_forget H F o b :
  rep T H F -> h_blks H !! o = Some b -> rep T (set_blk H o (raw_blk (b_size b))) F.
Proof.
  intros Hr Hb. destruct (rep_blk_in _ _ _ _ _ Hr Hb) as (_ & ? & _). apply rep_same_bytes; [done|..].
  - by eapply tiling_insert; [apply Hr|..].
  - intros p c [[<- <-]|[_ Hp]]%lookup_insert_Some; [by apply blk_ok_raw|].
    by apply (rep_blks _ _ _ Hr).
Qed.

Definition merge_blks (B : gmap Z blk) (o n n2 : Z) : gmap Z blk :=
  <[o := raw_blk (n + n2)]> (delete (o + n) B).
Definition split_blks (B : gmap Z blk) (o n n2 : Z) : gmap Z blk :=
  <[o + n := raw_blk n2]> (<[o := raw_blk n]> B).

Lemma rep_merge H F o b b2 :
  rep T H F -> h_blks H !! o = Some b -> h_blks H !! (o + b_size b) = Some b2 ->
  rep T (set_blks H (merge_blks (h_blks H) o (b_size b) (b_size b2))) F.
Proof.
  intros Hr Hb Hb2. destruct (rep_blk_in _ _ _ _ _ Hr Hb) as (_ & ? & _).
  destruct (rep_blk_in _ _ _ _ _ Hr Hb2) as (_ & ? & _). apply rep_same_bytes; [done|..].
  - by eapply tiling_merge; [apply Hr|..].
  - unfold merge_blks. intros p c [[<- <-]|[_ Hp]]%lookup_insert_Some; [apply blk_ok_raw; lia|].
    apply lookup_delete_Some in Hp as [_ Hp]. by apply (rep_blks _ _ _ Hr).
Qed.

Lemma rep_split H F o b n n2 :
  rep T H F -> h_blks H !! o = Some b -> b_size b = n + n2 -> 28 <= n -> 28 <= n2 ->
  rep T (set_blks H (split_blks (h_blks H) o n n2)) F.
Proof.
  intros Hr Hb Hs Hn Hn2. apply rep_same_bytes; [done|..].
  - apply (tiling_split _ _ _ _ b (raw_blk n) (raw_blk n2)); try done. apply Hr.
  - unfold split_blks. intros p c [[<- <-]|[_ Hp]]%lookup_insert_Some; [by apply blk_ok_raw|].
    apply lookup_insert_Some in Hp as [[<- <-]|[_ Hp]]; [by apply blk_ok_raw|].
    by apply (rep_blks _ _ _ Hr).
Qed.

Definition extend H (n : Z) : heap :=
  mk_heap (h_end H + n) (h_seq H) (h_tops H) (<[h_end H := raw_blk n]> (h_blks H)).

Lemma rep_extend H F l :
  rep T H F -> 28 <= Z.of_nat (length l) -> h_end H + Z.of_nat (length l) < 2 ^ 32 ->
  rep T (extend H (Z.of_nat (length l))) (F ++ l).
Proof.
  intros Hr Hl Hmax. destruct (rep_end _ _ _ Hr) as [He Hd]. pose proof (gc_hash_size T).
  split; simpl.
  - rewrite length_app. lia.
  - apply (tiling_extend _ _ _ (raw_blk (Z.of_nat (length l)))); [apply Hr|lia|done].
  - intros i Hi. destruct (rep_tops _ _ _ Hr i Hi) as [Hw Hsub]. split; [done|].
    pose proof (top_addr_range T i Hi). unfold FREELIST_TOP, sizeof_header in *.
    rewrite sub_app by lia. done.
  - destruct (rep_seq _ _ _ Hr) as [Hw Hsub]. split; [done|].
    unfold TDB_SEQNUM_OFS, data_start, FREELIST_TOP, sizeof_header in *.
    rewrite sub_app by lia. done.
  - intros p c [[<- <-]|[_ Hp]]%lookup_insert_Some; [by apply blk_ok_raw|].
    destruct (rep_blk_in _ _ _ _ _ Hr Hp) as (? & ? & ? & _ & ?).
    destruct (rep_blks _ _ _ Hr _ _ Hp) as [Hh Ht [Hd1 Hd2]].
    split.
    + intros h E. rewrite sub_app by lia. auto.
    + intros E. rewrite sub_app by lia. auto.
    + rewrite sub_app by lia. done.
Qed.

(** ** The pointers of the lists *)

Definition head_of (l : list Z) : Z := default 0 (head l).

Lemma path_head B v l : path B v l -> v = head_of l.
Proof. destruct l; simpl; [done|]. by intros (-> & _). Qed.

Lemma path_tail B v pre rest :
  path B v (pre ++ rest) ->
  match last pre with
  | None => head_of rest = v
  | Some p => exists b h, B !! p = Some b /\ b_hdr b = Some h /\ next h = head_of rest
  end.
Proof.
  intros Hp. destruct (last pre) as [p|] eqn:E.
  - apply last_Some in E as [pre' ->]. rewrite <- app_assoc in Hp. simpl in Hp.
    destruct (path_at _ _ _ _ _ Hp) as (b & h & Hb & Hh & Hr & _). exists b, h.
    split; [done|]. split; [done|]. by apply (path_head B).
  - apply last_None in E as ->. symmetry. by apply (path_head B).
Qed.

Lemma wp_ofs_read_link H ls X Y L i pre rest s (Q : option Z -> tdb_context -> Prop) :
  holds T H L s -> wf T H ls X Y -> list_index T i -> ls i = pre ++ rest ->
  (forall s', holds T H L s' -> Q (Some (head_of rest)) s') ->
  wp (tdb_ofs_read T (link_addr i pre)) Q s.
Proof.
  intros Hs Hw Hi El HQ. pose proof (wf_path _ _ _ _ _ Hw i Hi) as Hp. rewrite El in Hp.
  apply path_tail in Hp. unfold link_addr. destruct (last pre) as [p|].
  - destruct Hp as (b & h & Hb & Hh & En). rewrite <- En in HQ. by eapply wp_ofs_read_next.
  - rewrite Hp in HQ. by eapply wp_ofs_read_top.
Qed.

Lemma wp_ofs_write_link H ls X Y L i pre rest v s (Q : bool -> tdb_context -> Prop) :
  holds T H L s -> wf T H ls X Y -> list_index T i -> ls i = pre ++ rest -> word v ->
  (forall s', holds T (link H i pre v) L s' -> Q true s') ->
  wp (tdb_ofs_write T (link_addr i pre) v) Q s.
Proof.
  intros Hs Hw Hi El Hv HQ. pose proof (wf_path _ _ _ _ _ Hw i Hi) as Hp. rewrite El in Hp.
  apply path_tail in Hp. unfold link_addr, link in *. destruct (last pre) as [p|].
  - destruct Hp as (b & h & Hb & Hh & _). rewrite Hb, Hh in HQ. by eapply wp_ofs_write_next.
  - by apply wp_ofs_write_top with H L.
Qed.

(** There are fewer records than bytes. *)
Lemma path_fuel H F v l :
  rep T H F -> path (h_blks H) v l -> (length l <= length F)%nat.
Proof.
  intros Hr Hp. pose proof (path_nodup _ _ _ Hp) as Hnd.
  destruct (rep_end _ _ _ Hr) as [He _].
  replace (length F) with (length (seqZ 0 (h_end H))) by (rewrite length_seqZ; lia).
  apply NoDup_incl_length; [by apply NoDup_ListNoDup|].
  intros o Ho%list_elem_of_In. apply list_elem_of_In, elem_of_seqZ.
  apply list_elem_of_split in Ho as (l1 & l2 & ->).
  destruct (path_at _ _ _ _ _ Hp) as (b & h & Hb & _).
  destruct (rep_blk_in _ _ _ _ _ Hr Hb) as (? & ? & ? & _ & ?). lia.
Qed.

(** What a record of a chain needs to be read. *)
Lemma chain_rec H ls X Y i pre o post :
  wf T H ls X Y -> bucket_index T i -> ls i = pre ++ o :: post ->
  exists b h, h_blks H !! o = Some b /\ solid b h /\ mem_ok T i b h /\
    TDB_BAD_MAGIC h = false /\ (next h = 0 \/ is_Some (h_blks H !! next h)) /\ next h = head_of post.
Proof.
  intros Hw Hi El. pose proof (bucket_list T i Hi) as Hl.
  destruct (wf_mem _ _ _ _ _ Hw i o Hl) as (b & h & Hb & Hs & Hm).
  { rewrite El. apply elem_of_app. right. by left. }
  exists b, h. split; [done|]. split; [done|]. split; [done|].
  pose proof (wf_path _ _ _ _ _ Hw i Hl) as Hp. rewrite El in Hp.
  destruct (path_at _ _ _ _ _ Hp) as (b' & h' & Hb' & Hh' & Hpost & _).
  destruct Hs as [Hh _]. simplify_eq. split; [|split; [by eapply path_next|by eapply path_head]].
  unfold TDB_BAD_MAGIC, TDB_DEAD. destruct Hm as [[-> _]|(_ & [[-> _]| ->] & _)]; [|done..].
  unfold bucket_index in Hi. lia.
Qed.

(** ** What stays *)

(** From the first heap to the second, the chains, and the blocks in [K] and in
    the chains, are the same. *)
Record keeps H ls (K : gset Z) H' ls' : Prop := {
  ke_seq : h_seq H' = h_seq H;
  ke_tops : forall i, bucket_index T i -> h_tops H' i = h_tops H i;
  ke_ls : forall i, bucket_index T i -> ls' i = ls i;
  ke_held : forall o, o ∈ K -> h_blks H' !! o = h_blks H !! o;
  ke_chain : forall i o, bucket_index T i -> o ∈ ls i -> h_blks H' !! o = h_blks H !! o
}.

Lemma keeps_refl H ls K : keeps H ls K H ls.
Proof. done. Qed.

Lemma keeps_trans H ls K H1 ls1 H2 ls2 :
  keeps H ls K H1 ls1 -> keeps H1 ls1 K H2 ls2 -> keeps H ls K H2 ls2.
Proof.
  intros [] []. split.
  - congruence.
  - intros i Hi. rewrite ke_tops1 by done. by apply ke_tops0.
  - intros i Hi. rewrite ke_ls1 by done. by apply ke_ls0.
  - intros o Ho. rewrite ke_held1 by done. by apply ke_held0.
  - intros i o Hi Ho. rewrite (ke_chain1 i) by (done || by rewrite ke_ls0). by eapply ke_chain0.
Qed.

Lemma keeps_weaken H ls K K' H' ls' : K' ⊆ K -> keeps H ls K H' ls' -> keeps H ls K' H' ls'.
Proof. intros Hsub []. split; try done. intros o Ho. apply ke_held0. set_solver. Qed.

(** A change of raw blocks. *)
Lemma keeps_set_blks H ls K X Y B :
  wf T H ls X Y -> (forall o, o ∈ Y -> o ∉ K) ->
  (forall p, is_Some (h_blks H !! p) -> p ∉ Y -> B !! p = h_blks H !! p) ->
  (forall p, p ∈ K -> is_Some (h_blks H !! p)) ->
  keeps H ls K (set_blks H B) ls.
Proof.
  intros Hw HYK Hsame HK. split; simpl; try done.
  - intros o Ho. apply Hsame; [by apply HK|]. intros HY. by apply (HYK o).
  - intros i o Hi Ho. apply bucket_list in Hi. apply Hsame.
    + destruct (wf_mem _ _ _ _ _ Hw i o Hi Ho) as (b & h & -> & _). eauto.
    + intros HY. destruct (wf_raw _ _ _ _ _ Hw o HY) as (_ & _ & Hn). by apply (Hn i).
Qed.

(** A change of the free list. *)
Lemma keeps_unlink H ls K X Y pre o post v :
  wf T H ls X Y -> ls (-1) = pre ++ o :: post -> (forall p, p ∈ K -> p ∉ ls (-1)) ->
  keeps H ls K (link H (-1) pre v) (<[-1 := pre ++ post]> ls).
Proof.
  intros Hw El HK. pose proof (free_index T) as Hf.
  assert (forall i, bucket_index T i -> i <> -1) as Hb by (unfold bucket_index; lia).
  split.
  - apply link_end.
  - intros i Hi. apply link_tops. by apply Hb.
  - intros i Hi. rewrite fn_lookup_insert_ne; [done|]. intros <-. by apply (Hb (-1)).
  - intros p Hp. apply link_lookup. intros Hpre. apply (HK p Hp). rewrite El. apply elem_of_app. by left.
  - intros i p Hi Hp. apply link_lookup. intros Hpre. apply (Hb i Hi).
    eapply (wf_disjoint T); [done|by apply bucket_list|done|done|]. rewrite El. apply elem_of_app. by left.
Qed.

(** ** Contents *)

(** The record at [o] has this key and this data. *)
Definition live_at (B : gmap Z blk) (o : Z) (k v : list Z) : Prop :=
  exists b h, B !! o = Some b /\ b_hdr b = Some h /\ magic h = TDB_MAGIC /\
    b_data b = k ++ v /\ key_len h = Z.of_nat (length k).

Definition entry H ls (o : Z) (k v : list Z) : Prop :=
  o ∈ ls (BUCKET T (hash_fn T k)) /\ live_at (h_blks H) o k v.

(** [E] has the entries of the map, each key at one place. *)
Definition contents (E : Z -> list Z -> list Z -> Prop) (M : gmap (list Z) (list Z)) : Prop :=
  (forall k v, M !! k = Some v <-> exists o, E o k v) /\
  (forall o o' k v v', E o k v -> E o' k v' -> o = o').

Lemma contents_iff (E E' : Z -> list Z -> list Z -> Prop) M :
  (forall o k v, E o k v <-> E' o k v) -> contents E M -> contents E' M.
Proof.
  intros HE [Hm Hu]. split.
  - intros k v. rewrite Hm. by setoid_rewrite HE.
  - intros o o' k v v'. rewrite <- !HE. apply Hu.
Qed.

Lemma contents_delete E M o k v :
  contents E M -> E o k v -> (forall k' v', E o k' v' -> k' = k) ->
  contents (fun o' k' v' => o' <> o /\ E o' k' v') (delete k M).
Proof.
  intros [Hm Hu] Ho Hone. split.
  - intros k' v'. rewrite lookup_delete_Some, Hm. split.
    + intros [Hne [o' Ho']]. exists o'. split; [|done]. intros ->. by apply Hone in Ho'.
    + intros (o' & Hne & Ho'). split; [|by exists o'].
      intros <-. by apply Hne, (Hu o' o k v' v).
  - intros o1 o2 k' v1 v2 [_ H1] [_ H2]. by eapply Hu.
Qed.

Lemma contents_insert E M o k v :
  contents E M -> M !! k = None ->
  contents (fun o' k' v' => (o' = o /\ k' = k /\ v' = v) \/ E o' k' v') (<[k := v]> M).
Proof.
  intros [Hm Hu] Hk.
  assert (forall o' v', E o' k v' -> False) as Hno.
  { intros o' v' Ho'. assert (M !! k = Some v') as E' by (apply Hm; by exists o'). congruence. }
  split.
  - intros k' v'. rewrite lookup_insert_Some, Hm. split.
    + intros [[-> ->]|[Hne [o' Ho']]]; [exists o; auto|exists o'; auto].
    + intros [o' [(-> & -> & ->)|Ho']]; [by left|]. right. split; [|by exists o'].
      intros <-. by eapply Hno.
  - intros o1 o2 k' v1 v2 [(-> & -> & ->)|H1] [(-> & E2 & ->)|H2]; try done.
    + by apply Hno in H2.
    + subst. by apply Hno in H1.
    + by eapply Hu.
Qed.

Lemma entry_keeps H ls X Y K H' ls' o k v :
  wf T H ls X Y -> keeps H ls K H' ls' -> entry H ls o k v <-> entry H' ls' o k v.
Proof.
  intros Hw Hk. pose proof (BUCKET_index T (hash_fn T k)) as Hb. unfold entry, live_at.
  rewrite (ke_ls _ _ _ _ _ Hk _ Hb). split.
  - intros [Ho Hl]. split; [done|]. by rewrite (ke_chain _ _ _ _ _ Hk _ _ Hb Ho).
  - intros [Ho Hl]. split; [done|]. by rewrite <- (ke_chain _ _ _ _ _ Hk _ _ Hb Ho).
Qed.

Lemma contents_keeps H ls X Y K H' ls' M :
  wf T H ls X Y -> keeps H ls K H' ls' -> contents (entry H ls) M -> contents (entry H' ls') M.
Proof. intros Hw Hk. apply contents_iff. intros o k v. by eapply entry_keeps. Qed.

(** A record has one key and one data. *)
Lemma live_at_inj B o k v k' v' : live_at B o k v -> live_at B o k' v' -> k = k' /\ v = v'.
Proof.
  intros (b & h & Hb & Hh & _ & Hd & Hl) (b' & h' & Hb' & Hh' & _ & Hd' & Hl'). simplify_eq.
  rewrite Hd in Hd'. apply app_inj_1 in Hd'; [done|lia].
Qed.

(** A member that is in use is an entry. *)
Lemma mem_entry H ls X Y i o b h :
  wf T H ls X Y -> list_index T i -> o ∈ ls i -> h_blks H !! o = Some b -> b_hdr b = Some h ->
  magic h = TDB_MAGIC ->
  exists k v, entry H ls o k v /\ live_ok T b h /\ b_data b = k ++ v
    /\ key_len h = Z.of_nat (length k) /\ data_len h = Z.of_nat (length v)
    /\ full_hash h = hash_fn T k /\ BUCKET T (hash_fn T k) = i.
Proof.
  intros Hw Hi Ho Hb Hh Hm.
  destruct (wf_mem _ _ _ _ _ Hw i o Hi Ho) as (b' & h' & Hb' & [Hh' _] & Hok). simplify_eq.
  destruct Hok as [[-> Hf]|(_ & [Hlive|Hd] & Hbk)].
  - rewrite Hm in Hf. vm_compute in Hf. discriminate.
  - pose proof Hlive as (_ & k & v & Hd & Hk & Hv & Hf). exists k, v. rewrite Hf in Hbk.
    split; [split; [by rewrite Hbk|]; by exists b, h|].
    by rewrite Hk, Hv.
  - rewrite Hm in Hd. vm_compute in Hd. discriminate.
Qed.

End reshape.
