(* ===== verification/TdbFreelist.v ===== *)
(** * tdb: allocation of space ([source4/lib/tdb/common/freelist.c], and
    [tdb_expand] of [io.c])

    Free space is a list of records that starts at [FREELIST_TOP].  Every
    record, free or not, ends with a tailer, the length of the whole record, by
    which [tdb_free] finds the record to the left. *)

From stdpp Require Import functions.
From S2P Require Import Prelude TdbIo TdbHeap TdbChain.

Section freelist.
Context (T : tdb_config).

(** A free record whose magic says it is in use is repaired; the repaired
    header is written without conversion. *)
Definition tdb_rec_free_read (off : Z) : C (option list_struct) :=
  do? rec <- read_rec T off else None;
  do? rec <-
    (if magic rec =? TDB_MAGIC then
       let rec := mk_rec (next rec) (rec_len rec) (key_len rec) (data_len rec) (full_hash rec)
                    TDB_FREE_MAGIC in
       do?! tdb_write T off (flat_map word_bytes (rec_words rec)) else None;
       c_ret (Some rec)
     else c_ret (Some rec)) else None;
  if negb (magic rec =? TDB_FREE_MAGIC) then TDB_ERRCODE TDB_ERR_CORRUPT None
  else do?! tdb_oob T (u32 (next rec + sizeof_rec)) false else None; c_ret (Some rec).

Fixpoint remove_loop (fuel : nat) (off next last_ptr : Z) : C bool :=
  match fuel with
  | O => c_none
  | S fuel =>
    do o <- tdb_ofs_read T last_ptr;
    match o with
    | None => TDB_ERRCODE TDB_ERR_CORRUPT false
    | Some i =>
      if i =? 0 then TDB_ERRCODE TDB_ERR_CORRUPT false
      else if i =? off then tdb_ofs_write T last_ptr next
      else remove_loop fuel off next i
    end
  end.

Definition remove_from_freelist (off next : Z) : C bool :=
  do s <- c_get; remove_loop (walk_fuel s) off next FREELIST_TOP.

Definition update_tailer (offset : Z) (rec : list_struct) : C bool :=
  let totalsize := u32 (sizeof_rec + rec_len rec) in
  tdb_ofs_write T (u32 (offset + totalsize - 4)) totalsize.

(** The record to the right, if it is free, is taken in: the new [rec]. *)
Definition free_right (offset : Z) (rec : list_struct) : C list_struct :=
  let right := u32 (offset + sizeof_rec + rec_len rec) in
  do s <- c_get;
  if right + sizeof_rec <=? map_size s then
    do? r <- read_rec T right else rec;
    if magic r =? TDB_FREE_MAGIC then
      do?! remove_from_freelist right (next r) else rec;
      c_ret (with_rec_len rec (u32 (rec_len rec + sizeof_rec + rec_len r)))
    else c_ret rec
  else c_ret rec.

(** The record to the left, if it is free, takes this one in: the new
    [offset] and [rec]. *)
Definition free_left (offset : Z) (rec : list_struct) : C (Z * list_struct) :=
  let left := u32 (offset - 4) in
  if TDB_DATA_START T <? left then
    do? leftsize <- tdb_ofs_read T left else (offset, rec);
    if (leftsize =? 0) || (leftsize =? TDB_PAD_U32) then c_ret (offset, rec)
    else
      let left := u32 (offset - leftsize) in
      do? l <- read_rec T left else (offset, rec);
      if magic l =? TDB_FREE_MAGIC then
        do?! remove_from_freelist left (next l) else (offset, rec);
        c_ret (left, with_rec_len rec (u32 (rec_len rec + leftsize)))
      else c_ret (offset, rec)
  else c_ret (offset, rec).

(** The record is prepended to the free list. *)
Definition free_prepend (offset : Z) (rec : list_struct) : C bool :=
  do?! update_tailer offset rec else false;
  do? top <- tdb_ofs_read T FREELIST_TOP else false;
  do?! tdb_rec_write T offset (with_next (with_magic rec TDB_FREE_MAGIC) top) else false;
  tdb_ofs_write T FREELIST_TOP offset.

(** The callers of [tdb_free] do not use [rec] afterwards. *)
Definition tdb_free (offset : Z) (rec : list_struct) : C bool :=
  do?! tdb_lock T (-1) F_WRLCK else false;
  do ok <-
    (do?! update_tailer offset rec else false;
     do rec <- free_right offset rec;
     do (offset, rec) <- free_left offset rec;
     free_prepend offset rec);
  do! tdb_unlock T (-1) F_WRLCK;
  c_ret ok.

(** [tdb_expand]: room for at least ten records of [size] bytes, up to a page
    boundary. *)
Definition expand_size (map_size size : Z) : Z :=
  u32 (TDB_ALIGN (u32 (map_size + u32 (size * 10))) (page_size T) - map_size).

Definition tdb_expand (size : Z) : C bool :=
  do?! tdb_lock T (-1) F_WRLCK else false;
  do ok <-
    (do s <- c_get;
     do! tdb_oob T (u32 (map_size s + 1)) true;
     do s <- c_get;
     let size := expand_size (map_size s) size in
     do?! (if flag T TDB_INTERNAL then
             do! c_set (fun s => set_file s (put (file s) (map_size s) (realloc_bytes T size)));
             c_ret true
           else tdb_expand_file T (map_size s) size) else false;
     do! c_set (fun s => set_map_size s (u32 (map_size s + size)));
     tdb_free (map_size s) (mk_rec 0 (u32 (size - sizeof_rec)) 0 0 0 0));
  do! tdb_unlock T (-1) F_WRLCK;
  c_ret ok.

(** [tdb_allocate_ofs]: use the free record at [rec_ptr], whose header is
    [rec], splitting off what is not needed.  The header as it was written is
    returned with the offset. *)
Definition tdb_allocate_ofs (length rec_ptr : Z) (rec : list_struct) (last_ptr : Z)
  : C (option (Z * list_struct)) :=
  let split := length + MIN_REC_SIZE <? rec_len rec in
  let length' := TDB_ALIGN length TDB_ALIGNMENT in
  let newrec := mk_rec 0 (u32 (rec_len rec - (sizeof_rec + length'))) 0 0 0 0 in
  let newrec_ptr := if split then u32 (rec_ptr + sizeof_rec + length') else 0 in
  let rec := if split then with_rec_len rec length' else rec in
  do?! tdb_ofs_write T last_ptr (next rec) else None;
  let rec := with_magic rec TDB_MAGIC in
  do?! tdb_rec_write T rec_ptr rec else None;
  if negb (newrec_ptr =? 0) then
    do?! update_tailer rec_ptr rec else None;
    do?! tdb_free newrec_ptr newrec else None;
    c_ret (Some (rec_ptr, rec))
  else c_ret (Some (rec_ptr, rec)).

(** [bestfit] *)
Record bestfit_t : Set := mk_best { b_rec_ptr : Z; b_last_ptr : Z; b_rec_len : Z }.

(** The walk along the free list; a record of less than twice the length ends
    it.  [None] is [goto fail]. *)
Fixpoint bestfit_loop (fuel : nat) (length last_ptr rec_ptr : Z) (best : bestfit_t)
  : C (option bestfit_t) :=
  match fuel with
  | O => c_none
  | S fuel =>
    if rec_ptr =? 0 then c_ret (Some best)
    else
      do? rec <- tdb_rec_free_read rec_ptr else None;
      if (length <=? rec_len rec) && ((b_rec_ptr best =? 0) || (rec_len rec <? b_rec_len best))
      then
        let best := mk_best rec_ptr last_ptr (rec_len rec) in
        if rec_len rec <? u32 (2 * length) then c_ret (Some best)
        else bestfit_loop fuel length rec_ptr (next rec) best
      else bestfit_loop fuel length rec_ptr (next rec) best
  end.

(** From the label [again]; [length] includes the tailer. *)
Fixpoint allocate_again (tries : nat) (length : Z) : C (option (Z * list_struct)) :=
  match tries with
  | O => c_none
  | S tries =>
    do? rec_ptr <- tdb_ofs_read T FREELIST_TOP else None;
    do s <- c_get;
    do? best <- bestfit_loop (walk_fuel s) length FREELIST_TOP rec_ptr (mk_best 0 0 0) else None;
    if negb (b_rec_ptr best =? 0) then
      do? rec <- tdb_rec_free_read (b_rec_ptr best) else None;
      tdb_allocate_ofs length (b_rec_ptr best) rec (b_last_ptr best)
    else
      do?! tdb_expand (u32 (length + sizeof_rec)) else None;
      allocate_again tries length
  end.

(** 0, that is [None], when the space could not be allocated.  An expansion
    makes room for the record, so two passes are enough. *)
Definition tdb_allocate (length : Z) : C (option (Z * list_struct)) :=
  do?! tdb_lock T (-1) F_WRLCK else None;
  do r <- allocate_again 2 (u32 (length + 4));
  do! tdb_unlock T (-1) F_WRLCK;
  c_ret r.

End freelist.

(** ** Freeing *)

Section free.
Context (T : tdb_config) {GC : GoodConfig T}.
Implicit Types (H : heap) (ls : Z -> list Z) (X Y : gset Z).

Lemma holds_reshape H H' L s :
  holds T H L s -> rep T H' (file s) -> h_end H' = h_end H -> holds T H' L s.
Proof. intros [] Hr He. split; rewrite ?He; done. Qed.

(** What is used of a record that is being freed. *)
Definition free_rec (b : blk) (r : list_struct) : Prop :=
  rec_typed r /\ b_size b = 24 + rec_len r.

Lemma rec_typed_len r n : rec_typed r -> word n -> rec_typed (with_rec_len r n).
Proof.
  unfold rec_typed. simpl. intros Hr Hn. repeat (inversion Hr as [|? ? ? Hr']; subst; clear Hr; rename Hr' into Hr).
  by repeat (constructor; [assumption|]).
Qed.

Lemma rec_typed_parts r n m : rec_typed r -> word n -> word m ->
  rec_typed (with_next (with_magic r m) n).
Proof.
  unfold rec_typed. simpl. intros Hr Hn Hm. repeat (inversion Hr as [|? ? ? Hr']; subst; clear Hr; rename Hr' into Hr).
  by repeat (constructor; [assumption|]).
Qed.

Lemma blk_word H L s o b : holds T H L s -> h_blks H !! o = Some b ->
  word o /\ word (b_size b) /\ 28 <= b_size b /\ 0 < o /\ o + b_size b < 2 ^ 32.
Proof.
  intros Hs Hb. destruct (rep_blk_in _ _ _ _ _ (ho_rep _ _ _ _ Hs) Hb) as (? & ? & ? & ? & ?).
  unfold word. lia.
Qed.

Lemma wp_update_tailer H L o b r s (Q : bool -> tdb_context -> Prop) :
  holds T H L s -> h_blks H !! o = Some b -> b_size b = 24 + rec_len r ->
  (forall s', holds T (set_blk H o (set_tail b)) L s' -> Q true s') ->
  wp (update_tailer T o r) Q s.
Proof.
  intros Hs Hb Hsz HQ. destruct (blk_word _ _ _ _ _ Hs Hb) as (Ho & Hw & ? & ? & ?).
  unfold word in *. unfold update_tailer, sizeof_rec. cbv zeta. rewrite <- Hsz.
  rewrite (u32_small (b_size b)), u32_small by lia. by eapply wp_write_tailer.
Qed.

(** A member of the free list. *)
Lemma free_mem H ls X Y pre o post :
  wf T H ls X Y -> ls (-1) = pre ++ o :: post ->
  exists b h, h_blks H !! o = Some b /\ b_hdr b = Some h /\ b_tail b = true
    /\ magic h = TDB_FREE_MAGIC /\ next h = head_of post
    /\ (next h = 0 \/ is_Some (h_blks H !! next h)).
Proof.
  intros Hw El. pose proof (free_index T) as Hf.
  destruct (wf_mem _ _ _ _ _ Hw (-1) o Hf) as (b & h & Hb & [Hh Ht] & Hm).
  { rewrite El. apply elem_of_app. right. by left. }
  exists b, h. split; [done|]. split; [done|]. split; [done|].
  pose proof (wf_path _ _ _ _ _ Hw (-1) Hf) as Hp. rewrite El in Hp.
  destruct (path_at _ _ _ _ _ Hp) as (b' & h' & Hb' & Hh' & Hpost & _). simplify_eq.
  split; [|split; [by eapply path_head|by eapply path_next]].
  destruct Hm as [[_ Hm]|([Hbad _] & _)]; [done|lia].
Qed.

Lemma link_addr_snoc i pre x : link_addr i (pre ++ [x]) = x.
Proof. unfold link_addr. by rewrite last_snoc. Qed.

Lemma remove_loop_ok H ls X Y L o post v fuel pre1 pre2 s (Q : bool -> tdb_context -> Prop) :
  holds T H L s -> wf T H ls X Y -> word v ->
  ls (-1) = pre1 ++ pre2 ++ o :: post -> (length pre2 < fuel)%nat ->
  (forall s', holds T (link H (-1) (pre1 ++ pre2) v) L s' -> Q true s') ->
  wp (remove_loop T fuel o v (link_addr (-1) pre1)) Q s.
Proof.
  revert pre1 pre2 s. induction fuel as [|fuel IH]; intros pre1 pre2 s Hs Hw Hv El Hf HQ; [lia|].
  simpl. apply wp_bind. pose proof (free_index T) as Hi.
  pose proof (wf_path _ _ _ _ _ Hw (-1) Hi) as Hp. rewrite El in Hp.
  eapply wp_ofs_read_link; [done..|]. intros s' Hs'. unfold head_of. destruct pre2 as [|x pre2]; simpl.
  - destruct (free_mem _ _ _ _ _ _ _ Hw El) as (b & h & Hb & _).
    destruct (blk_word _ _ _ _ _ Hs Hb) as (_ & _ & _ & ? & _).
    rewrite (proj2 (Z.eqb_neq o 0)), Z.eqb_refl by lia. rewrite app_nil_r in HQ.
    by eapply wp_ofs_write_link.
  - simpl in El. destruct (free_mem _ _ _ _ _ _ _ Hw El) as (b & h & Hb & _).
    destruct (blk_word _ _ _ _ _ Hs Hb) as (_ & _ & _ & ? & _).
    apply path_nodup, NoDup_app in Hp as (_ & _ & Hp). apply NoDup_cons in Hp as [Hx _].
    rewrite (proj2 (Z.eqb_neq x 0)), (proj2 (Z.eqb_neq x o)) by
      (lia || (intros ->; apply Hx, elem_of_app; right; by left)).
    rewrite <- (link_addr_snoc (-1) pre1 x).
    apply (IH (pre1 ++ [x]) pre2); [done|done|done|..].
    + by rewrite <- app_assoc.
    + simpl in Hf. lia.
    + by rewrite <- app_assoc.
Qed.

Lemma wp_remove H ls X Y L pre o post v s (Q : bool -> tdb_context -> Prop) :
  holds T H L s -> wf T H ls X Y -> word v -> ls (-1) = pre ++ o :: post ->
  (forall s', holds T (link H (-1) pre v) L s' -> Q true s') ->
  wp (remove_from_freelist T o v) Q s.
Proof.
  intros Hs Hw Hv El HQ. unfold remove_from_freelist. apply wp_bind, wp_get.
  change FREELIST_TOP with (link_addr (-1) []).
  eapply (remove_loop_ok _ _ _ _ _ _ post _ _ [] pre); try done.
  pose proof (wf_path _ _ _ _ _ Hw (-1) (free_index T)) as Hp. rewrite El in Hp.
  pose proof (path_fuel _ _ _ _ _ (ho_rep _ _ _ _ Hs) Hp) as Hf.
  rewrite length_app in Hf. simpl in Hf. unfold walk_fuel. lia.
Qed.

(** Taking a free neighbour out of the free list and joining it to the raw
    block: [lo] and [hi] are the two in order. *)
Lemma absorb_neighbour H ls X L s pre f post bf hf o bo lo bl bh :
  holds T (link H (-1) pre (next hf)) L s -> wf T H ls X {[o]} -> ls (-1) = pre ++ f :: post ->
  h_blks H !! f = Some bf -> b_hdr bf = Some hf -> h_blks H !! o = Some bo ->
  (lo = o /\ bl = bo /\ bh = bf /\ f = o + b_size bo \/
   lo = f /\ bl = bf /\ bh = bo /\ o = f + b_size bf) ->
  exists H' ls',
    holds T H' L s /\ wf T H' ls' X {[lo]} /\ keeps T H ls X H' ls' /\ h_end H' = h_end H
    /\ h_blks H' !! lo = Some (raw_blk (b_size bl + b_size bh)).
Proof.
  intros Hs Hw El Hf Hhf Ho Hcase. pose proof (free_index T) as Hi.
  set (H1 := link H (-1) pre (next hf)) in *. set (ls1 := <[-1 := pre ++ post]> ls).
  assert (o <> f) as Hof.
  { intros <-. destruct (wf_raw _ _ _ _ _ Hw o) as (_ & _ & Hn); [set_solver|].
    apply (Hn (-1) Hi). rewrite El. apply elem_of_app. right. by left. }
  assert (f ∉ X) as HfX.
  { intros Hx. destruct (wf_held _ _ _ _ _ Hw f Hx) as [_ Hn]. apply (Hn (-1) Hi). rewrite El.
    apply elem_of_app. right. by left. }
  assert (o ∉ X) as HoX by (apply (wf_raw _ _ _ _ _ Hw); set_solver).
  assert (f ∉ pre) as Hfpre.
  { pose proof (path_nodup _ _ _ (wf_path _ _ _ _ _ Hw (-1) Hi)) as Hnd. rewrite El in Hnd.
    apply NoDup_app in Hnd as (_ & Hd & _). intros Hin. apply (Hd f Hin). by left. }
  assert (o ∉ pre) as Hopre.
  { intros Hin. destruct (wf_raw _ _ _ _ _ Hw o) as (_ & _ & Hn); [set_solver|].
    apply (Hn (-1) Hi). rewrite El. apply elem_of_app. by left. }
  assert (wf T H1 ls1 X ({[f]} ∪ {[o]})) as Hw1 by (by eapply wf_unlink).
  assert (h_blks H1 !! f = Some bf /\ h_blks H1 !! o = Some bo) as [Hf1 Ho1].
  { unfold H1. by rewrite !link_lookup. }
  set (B := merge_blks (h_blks H1) lo (b_size bl) (b_size bh)).
  exists (set_blks H1 B), ls1. destruct (link_end H (-1) pre (next hf)) as [Hend _].
  assert (h_blks H1 !! lo = Some bl /\ h_blks H1 !! (lo + b_size bl) = Some bh
    /\ lo + b_size bl <> lo /\ (lo + b_size bl = f \/ lo + b_size bl = o)) as (Hlo & Hhi & Hne & Hhi').
  { destruct (blk_word _ _ _ _ _ Hs Hf1) as (_ & _ & ? & _).
    destruct (blk_word _ _ _ _ _ Hs Ho1) as (_ & _ & ? & _).
    destruct Hcase as [(-> & -> & -> & E)|(-> & -> & -> & E)]; rewrite <- E; split; try done;
      split; try done; lia. }
  split; [eapply holds_reshape; [done| |done]; eapply (rep_merge T); [apply Hs|done..]|].
  split; [|split; [|split]].
  - eapply (wf_set_blks T); [done|..].
    + intros p Hp1 Hp2. unfold B, merge_blks.
      rewrite lookup_insert_ne by set_solver. rewrite lookup_delete_ne; [done|].
      intros <-. destruct Hhi' as [E|E]; rewrite E in Hp1; set_solver.
    + intros p ->%elem_of_singleton. unfold B, merge_blks. rewrite lookup_insert_eq.
      split; [eauto|]. destruct (wf_raw _ _ _ _ _ Hw1 lo) as (_ & ? & ?); [|done].
      destruct Hcase as [(-> & _)|(-> & _)]; set_solver.
    + intros p Hp1 Hp2. unfold B, merge_blks. rewrite lookup_insert_ne by set_solver.
      replace p with (lo + b_size bl); [apply lookup_delete_eq|].
      destruct Hcase as [(-> & -> & -> & E)|(-> & -> & -> & E)]; set_solver.
  - eapply keeps_trans; [eapply (keeps_unlink T); [done|done|]|].
    { intros p Hp Hpl. destruct (wf_held _ _ _ _ _ Hw p Hp) as [_ Hn]. by apply (Hn (-1)). }
    eapply (keeps_set_blks T); [done|set_solver|..].
    + intros p Hp HpY. unfold B, merge_blks.
      rewrite lookup_insert_ne, lookup_delete_ne; [done|..].
      * intros <-. destruct Hhi' as [E|E]; rewrite E in HpY; set_solver.
      * intros <-. destruct Hcase as [(-> & _)|(-> & _)]; set_solver.
    + intros p Hp. destruct (wf_held _ _ _ _ _ Hw1 p Hp) as [(b & h & -> & _) _]. eauto.
  - simpl. done.
  - simpl. unfold B, merge_blks. apply lookup_insert_eq.
Qed.

Lemma wp_free_right H ls X L o b r s (Q : list_struct -> tdb_context -> Prop) :
  holds T H L s -> wf T H ls X {[o]} -> h_blks H !! o = Some b -> free_rec b r ->
  (forall H' ls' b' r' s', holds T H' L s' -> wf T H' ls' X {[o]} -> keeps T H ls X H' ls' ->
     h_end H' = h_end H -> h_blks H' !! o = Some b' -> free_rec b' r' -> b_size b <= b_size b' ->
     Q r' s') ->
  wp (free_right T o r) Q s.
Proof.
  intros Hs Hw Hb [Hty Hsz] HQ.
  assert (forall s, holds T H L s -> Q r s) as Hstay by (intros; eapply HQ; try done; lia).
  destruct (blk_word _ _ _ _ _ Hs Hb) as (Ho & Hwd & Hmin & Hpos & Hmax). unfold word in Ho, Hwd.
  unfold free_right, sizeof_rec. cbv zeta. apply wp_bind, wp_get.
  replace (o + 24 + rec_len r) with (o + b_size b) by lia. rewrite (u32_small (o + _)) by lia.
  destruct (o + b_size b + 24 <=? map_size s) eqn:E; bool_hyps; [|by apply wp_ret, Hstay].
  destruct (til_right _ _ _ (rep_tiling _ _ _ (ho_rep _ _ _ _ Hs)) o b Hb) as [Hend|[b2 Hb2]].
  { destruct (ho_map _ _ _ _ Hs). lia. }
  destruct (wf_solid _ _ _ _ _ _ _ Hw Hb2) as (h2 & Hh2 & Ht2).
  { rewrite elem_of_singleton. lia. }
  apply wp_some. eapply (wp_read_rec T); [done..|]. intros s1 Hs1.
  destruct (magic h2 =? TDB_FREE_MAGIC) eqn:Em; bool_hyps.
  2: { by apply wp_ret, Hstay. }
  assert (o + b_size b ∈ ls (-1)) as (pre & post & El)%list_elem_of_split.
  { eapply wf_free_mem; try done. rewrite elem_of_singleton. lia. }
  destruct (blk_word _ _ _ _ _ Hs Hb2) as (_ & _ & Hmin2 & _ & Hmax2).
  destruct (bo_hdr _ _ _ _ (rep_blks _ _ _ (ho_rep _ _ _ _ Hs) _ _ Hb2) h2 Hh2) as (Hty2 & Hsz2 & _).
  apply wp_check. eapply wp_remove; [done..| |exact El|].
  { unfold rec_typed in Hty2. by inversion Hty2. }
  intros s2 Hs2.
  destruct (absorb_neighbour _ _ _ _ _ _ _ _ _ _ o b o b b2 Hs2 Hw El Hb2 Hh2 Hb)
    as (H' & ls' & Hs' & Hw' & Hk' & He' & Hb'); [by left|].
  apply wp_ret. unfold sizeof_rec. replace (rec_len r + 24 + rec_len h2) with (b_size b + b_size b2 - 24) by lia.
  rewrite u32_small by lia. eapply HQ; try done; [|simpl; lia].
  split; [|simpl; lia]. apply rec_typed_len; [done|]. unfold word. lia.
Qed.

Lemma TDB_DATA_START_eq : TDB_DATA_START T = data_start T - 4.
Proof.
  pose proof (gc_hash_size T). unfold TDB_DATA_START, TDB_HASH_TOP, BUCKET, data_start.
  rewrite Z.mod_small by lia. lia.
Qed.

Lemma wp_free_left H ls X L o b r s (Q : Z * list_struct -> tdb_context -> Prop) :
  holds T H L s -> wf T H ls X {[o]} -> h_blks H !! o = Some b -> free_rec b r ->
  (forall H' ls' o' b' r' s', holds T H' L s' -> wf T H' ls' X {[o']} -> keeps T H ls X H' ls' ->
     h_end H' = h_end H -> h_blks H' !! o' = Some b' -> free_rec b' r' -> b_size b <= b_size b' ->
     Q (o', r') s') ->
  wp (free_left T o r) Q s.
Proof.
  intros Hs Hw Hb [Hty Hsz] HQ.
  assert (forall s, holds T H L s -> Q (o, r) s) as Hstay by (intros; eapply HQ; try done; lia).
  destruct (blk_word _ _ _ _ _ Hs Hb) as (Ho & Hwd & Hmin & Hpos & Hmax). unfold word in Ho, Hwd.
  destruct (rep_blk_in _ _ _ _ _ (ho_rep _ _ _ _ Hs) Hb) as (Hst & _ & _ & _ & Hst0).
  assert (4 < data_start T) as Hst4
    by (pose proof (gc_hash_size T); unfold data_start, FREELIST_TOP, sizeof_header in *; lia).
  unfold free_left. cbv zeta. rewrite TDB_DATA_START_eq, (u32_small (o - 4)) by lia.
  destruct (data_start T - 4 <? o - 4) eqn:E; bool_hyps; [|by apply wp_ret, Hstay].
  destruct (til_left _ _ _ (rep_tiling _ _ _ (ho_rep _ _ _ _ Hs)) o b Hb) as [?|(f & bf & Hf & Hfo)]; [lia|].
  destruct (blk_word _ _ _ _ _ Hs Hf) as (Hwf & Hwsf & Hminf & Hposf & Hmaxf). unfold word in *.
  destruct (wf_solid _ _ _ _ _ _ _ Hw Hf) as (hf & Hhf & Htf).
  { rewrite elem_of_singleton. lia. }
  apply wp_some. replace (o - 4) with (f + b_size bf - 4) by lia.
  eapply wp_read_tailer; [done..|]. intros s1 Hs1.
  rewrite (proj2 (Z.eqb_neq (b_size bf) 0)) by lia. simpl.
  destruct (b_size bf =? TDB_PAD_U32); [by apply wp_ret, Hstay|].
  replace (o - b_size bf) with f by lia. rewrite u32_small by lia.
  apply wp_some. eapply (wp_read_rec T); [done..|]. intros s2 Hs2.
  destruct (magic hf =? TDB_FREE_MAGIC) eqn:Em; bool_hyps; [|by apply wp_ret, Hstay].
  assert (f ∈ ls (-1)) as (pre & post & El)%list_elem_of_split.
  { eapply wf_free_mem; try done. rewrite elem_of_singleton. lia. }
  destruct (bo_hdr _ _ _ _ (rep_blks _ _ _ (ho_rep _ _ _ _ Hs) _ _ Hf) hf Hhf) as (Htyf & Hszf & _).
  apply wp_check. eapply wp_remove; [done..| |exact El|].
  { unfold rec_typed in Htyf. by inversion Htyf. }
  intros s3 Hs3.
  destruct (absorb_neighbour _ _ _ _ _ _ _ _ _ _ o b f bf b Hs3 Hw El Hf Hhf Hb)
    as (H' & ls' & Hs' & Hw' & Hk' & He' & Hb'); [right; split; [done|]; split; [done|]; split; [done|lia]|].
  apply wp_ret. rewrite u32_small by lia. eapply HQ; try done; [|simpl; lia].
  split; [|simpl; lia]. apply rec_typed_len; [done|]. unfold word. lia.
Qed.

(** The free list has a record of at least [n] bytes. *)
Definition has_free H ls (n : Z) : Prop :=
  exists o b h, o ∈ ls (-1) /\ h_blks H !! o = Some b /\ b_hdr b = Some h
    /\ b_size b = 24 + rec_len h /\ n <= b_size b.

Lemma wp_free_prepend H ls X L o b r s (Q : bool -> tdb_context -> Prop) :
  holds T H L s -> wf T H ls X {[o]} -> h_blks H !! o = Some b -> free_rec b r ->
  (forall H' ls' s', holds T H' L s' -> wf T H' ls' X ∅ -> keeps T H ls X H' ls' ->
     h_end H' = h_end H -> has_free H' ls' (b_size b) -> Q true s') ->
  wp (free_prepend T o r) Q s.
Proof.
  intros Hs Hw Hb [Hty Hsz] HQ. pose proof (free_index T) as Hi.
  destruct (blk_word _ _ _ _ _ Hs Hb) as (Ho & Hwd & Hmin & Hpos & Hmax).
  unfold free_prepend. apply wp_check. eapply wp_update_tailer; [done..|]. intros s1 Hs1.
  set (H1 := set_blk H o (set_tail b)) in *.
  assert (h_blks H1 !! o = Some (set_tail b)) as Hb1 by apply lookup_insert_eq.
  apply wp_some. change FREELIST_TOP with (top_addr (-1)).
  eapply (wp_ofs_read_top T); [done..|]. intros s2 Hs2.
  assert (word (h_tops H1 (-1))) as Htop by (by apply (rep_tops _ _ _ (ho_rep _ _ _ _ Hs1))).
  set (h := with_next (with_magic r TDB_FREE_MAGIC) (h_tops H1 (-1))).
  apply wp_check. eapply (wp_rec_write T); [done|done|by apply rec_typed_parts|done|]. intros s3 Hs3.
  fold h in Hs3. set (H2 := set_blk H1 o (set_hdr (set_tail b) h)) in *.
  eapply wp_ofs_write_top; [done..|]. intros s4 Hs4.
  assert (wf T H2 ls X {[o]}) as Hw2.
  { apply wf_set_raw; [|set_solver]. apply wf_set_raw; [done|set_solver]. }
  assert (h_blks H2 !! o = Some (set_hdr (set_tail b) h)) as Hb2 by apply lookup_insert_eq.
  assert (o ∉ X) as HX by (apply (wf_raw _ _ _ _ _ Hw); set_solver).
  eapply HQ; [exact Hs4| |..].
  - replace ∅ with ({[o]} ∖ {[o]} : gset Z) by set_solver.
    eapply (wf_push T); try done; [set_solver|lia|]. by left.
  - split; simpl; try done.
    + intros i Hbi. rewrite fn_lookup_insert_ne; [done|]. unfold bucket_index in Hbi. lia.
    + intros i Hbi. rewrite fn_lookup_insert_ne; [done|]. unfold bucket_index in Hbi. lia.
    + intros p Hp. by rewrite !lookup_insert_ne by (intros <-; done).
    + intros i p Hbi Hp. apply bucket_list in Hbi.
      destruct (wf_raw _ _ _ _ _ Hw o) as (_ & _ & Hn); [set_solver|].
      by rewrite !lookup_insert_ne by (intros <-; by apply (Hn i)).
  - done.
  - exists o, (set_hdr (set_tail b) h), h. rewrite fn_lookup_insert. split; [by left|].
    split; [done|]. split; [done|]. simpl. lia.
Qed.

Lemma has_free_mono H ls n m : m <= n -> has_free H ls n -> has_free H ls m.
Proof. intros Hm (o & b & h & ? & ? & ? & ? & ?). exists o, b, h. split_and!; try done. lia. Qed.

Lemma wp_tdb_free H ls X L o b r s (Q : bool -> tdb_context -> Prop) :
  locks_ok L -> holds T H L s -> wf T H ls X {[o]} -> h_blks H !! o = Some b -> free_rec b r ->
  (forall H' ls' s', holds T H' L s' -> wf T H' ls' X ∅ -> keeps T H ls X H' ls' ->
     h_end H' = h_end H -> has_free H' ls' (b_size b) -> Q true s') ->
  wp (tdb_free T o r) Q s.
Proof.
  intros HL Hs Hw Hb Hr HQ. pose proof (free_index T) as Hi. unfold tdb_free.
  apply wp_check. eapply (wp_lock T); [done..|]. intros s1 Hs1 _. apply wp_bind.
  apply wp_check. eapply wp_update_tailer; [done|done|apply Hr|]. intros s2 Hs2.
  set (H1 := set_blk H o (set_tail b)) in *.
  assert (wf T H1 ls X {[o]}) as Hw1 by (apply wf_set_raw; [done|set_solver]).
  assert (keeps T H ls X H1 ls) as Hk1.
  { eapply (keeps_set_blks T); [done|..].
    - intros p Hp. by apply (wf_raw _ _ _ _ _ Hw).
    - intros p _ Hp. apply lookup_insert_ne. set_solver.
    - intros p Hp. destruct (wf_held _ _ _ _ _ Hw p Hp) as [(c & h & -> & _) _]. eauto. }
  apply wp_bind. eapply (wp_free_right H1 _ _ _ _ (set_tail b)); [done..|apply lookup_insert_eq|done|].
  intros H2 ls2 b2 r2 s3 Hs3 Hw2 Hk2 He2 Hb2 Hr2 Hsz2.
  apply wp_bind. eapply wp_free_left; [done..|].
  intros H3 ls3 o3 b3 r3 s4 Hs4 Hw3 Hk3 He3 Hb3 Hr3 Hsz3.
  eapply wp_free_prepend; [done..|].
  intros H4 ls4 s5 Hs5 Hw4 Hk4 He4 Hf. apply wp_bind.
  eapply (wp_unlock T); [done..|]. intros s6 Hs6 _. apply wp_ret.
  eapply HQ; [done|done|..].
  - eapply keeps_trans; [exact Hk1|]. eapply keeps_trans; [exact Hk2|]. by eapply keeps_trans.
  - simpl in *. congruence.
  - eapply has_free_mono; [|done]. simpl in *. lia.
Qed.

End free.

(** ** Extending the file *)

Section expand.
Context (T : tdb_config) {GC : GoodConfig T}.
Implicit Types (H : heap) (ls : Z -> list Z) (X Y : gset Z).

Lemma TDB_ALIGN_pow2 x k :
  0 <= k < 32 -> 0 <= x -> x + 2 ^ k < 2 ^ 32 ->
  x <= TDB_ALIGN x (2 ^ k) < x + 2 ^ k.
Proof.
  intros Hk Hx Hmax. unfold TDB_ALIGN.
  assert (0 < 2 ^ k) by (apply Z.pow_pos_nonneg; lia).
  rewrite u32_small by lia.
  replace (2 ^ k - 1) with (Z.ones k) by (rewrite Z.ones_equiv; lia).
  rewrite Z.ldiff_ones_r, Z.shiftr_div_pow2, Z.shiftl_mul_pow2 by lia.
  pose proof (Z.div_mod (x + 2 ^ k - 1) (2 ^ k)).
  pose proof (Z.mod_pos_bound (x + 2 ^ k - 1) (2 ^ k)). lia.
Qed.

Lemma expand_size_bounds m n :
  0 <= m -> 0 <= n -> m + n * 10 + page_size T < 2 ^ 32 ->
  n * 10 <= expand_size T m n <= n * 10 + page_size T.
Proof.
  intros Hm Hn Hmax. destruct (gc_page_size T) as (k & Hk & Ep).
  assert (0 < 2 ^ k) by (apply Z.pow_pos_nonneg; lia).
  unfold expand_size. rewrite Ep in *. rewrite (u32_small (n * 10)), (u32_small (m + n * 10)) by lia.
  pose proof (TDB_ALIGN_pow2 (m + n * 10) k Hk). rewrite u32_small by lia. lia.
Qed.

Lemma wf_extend H ls X n :
  wf T H ls X ∅ -> h_blks H !! h_end H = None -> wf T (extend H n) ls X {[h_end H]}.
Proof.
  intros Hw Hnone.
  assert (wf T (set_blks H (<[h_end H := raw_blk n]> (h_blks H))) ls X {[h_end H]}) as Hw'.
  { eapply (wf_set_blks T); [done|..].
    - intros p _ Hp. apply lookup_insert_ne. set_solver.
    - intros p ->%elem_of_singleton. rewrite lookup_insert_eq. split; [eauto|]. split.
      + intros HX. destruct (wf_held _ _ _ _ _ Hw _ HX) as [(b & h & Hb & _) _]. congruence.
      + intros i Hi Hin. destruct (wf_mem _ _ _ _ _ Hw i _ Hi Hin) as (b & h & Hb & _). congruence.
    - set_solver. }
  destruct Hw'. by split.
Qed.

(** The grown context. *)
Lemma holds_extend H L s l m :
  holds T H L s -> 28 <= Z.of_nat (length l) -> h_end H + Z.of_nat (length l) < 2 ^ 32 ->
  m = h_end H + Z.of_nat (length l) ->
  holds T (extend H (Z.of_nat (length l))) L (set_map_size (set_file s (file s ++ l)) m).
Proof.
  intros Hs Hl Hmax ->. pose proof (rep_end _ _ _ (ho_rep _ _ _ _ Hs)) as [_ He].
  destruct Hs. split; simpl; try done; [|lia]. by apply rep_extend.
Qed.

Definition zero_rec (n : Z) : list_struct := mk_rec 0 n 0 0 0 0.

Lemma zero_rec_typed n : word n -> rec_typed (zero_rec n).
Proof.
  intros Hn. unfold rec_typed, zero_rec. simpl.
  assert (word 0) by (unfold word; lia). by repeat (constructor; [done|]).
Qed.

(** The kernel refuses to extend the file to some size. *)
Definition refused : Prop := exists m, can_extend T m = false.

(** The probe for expansions by other processes: the context now knows the
    length of the file. *)
Lemma wp_probe_end H L s (Q : bool -> tdb_context -> Prop) :
  holds T H L s -> h_end H + 1 < 2 ^ 32 ->
  (forall ok s', holds T H L s' -> map_size s' = h_end H -> Q ok s') ->
  wp (tdb_oob T (u32 (map_size s + 1)) true) Q s.
Proof.
  intros Hs Hmax HQ. destruct (ho_map _ _ _ _ Hs) as [Hm1 Hm2].
  destruct (rep_end _ _ _ (ho_rep _ _ _ _ Hs)) as [Hlen [Hst _]].
  assert (0 < data_start T) by (pose proof (gc_hash_size T); unfold data_start, FREELIST_TOP, sizeof_header; lia).
  rewrite u32_small by lia. unfold tdb_oob. apply wp_bind, wp_get.
  rewrite (proj2 (Z.leb_gt _ _)) by lia. destruct (flag T TDB_INTERNAL) eqn:Ei.
  - apply wp_errcode, HQ; [by apply holds_set_ecode|]. by apply (ho_internal _ _ _ _ Hs).
  - destruct (Z.ltb_spec (Z.of_nat (length (file s))) (map_size s + 1)).
    + apply wp_errcode, HQ; [by apply holds_set_ecode|]. simpl. lia.
    + apply wp_bind, wp_set, wp_ret, HQ; [|done].
      destruct Hs. split; simpl; try done; try lia; congruence.
Qed.

(** [l], appended to the file, becomes a free record. *)
Lemma wp_grow H ls X L s l (Q : bool -> tdb_context -> Prop) :
  locks_ok L -> holds T H L s -> wf T H ls X ∅ -> map_size s = h_end H ->
  28 <= Z.of_nat (length l) -> h_end H + Z.of_nat (length l) < 2 ^ 32 ->
  (forall H' ls' s', holds T H' L s' -> wf T H' ls' X ∅ -> keeps T H ls X H' ls' ->
     h_end H' = h_end H + Z.of_nat (length l) -> has_free H' ls' (Z.of_nat (length l) - 24) -> Q true s') ->
  wp (do! c_set (fun s => set_map_size s (u32 (map_size s + Z.of_nat (length l))));
      tdb_free T (h_end H) (zero_rec (u32 (Z.of_nat (length l) - sizeof_rec)))) Q
    (set_file s (put (file s) (h_end H) l)).
Proof.
  intros HL Hs Hw Em Hl Hmax HQ. set (n := Z.of_nat (length l)) in *.
  destruct (rep_end _ _ _ (ho_rep _ _ _ _ Hs)) as [Hlen Hend].
  assert (h_blks H !! h_end H = None) as Hnone.
  { destruct (h_blks H !! h_end H) as [b|] eqn:E; [|done].
    destruct (rep_blk_in _ _ _ _ _ (ho_rep _ _ _ _ Hs) E) as (? & ? & ? & _). lia. }
  assert (0 < data_start T) by (pose proof (gc_hash_size T); unfold data_start, FREELIST_TOP, sizeof_header; lia).
  rewrite put_end by lia. apply wp_bind, wp_set. simpl. rewrite Em, (u32_small (h_end H + n)) by lia.
  pose proof (holds_extend H _ s l (h_end H + n) Hs ltac:(lia) ltac:(lia) ltac:(lia)) as Hs3. fold n in Hs3.
  unfold sizeof_rec. rewrite u32_small by lia.
  eapply (wp_tdb_free T); [done|exact Hs3|by apply wf_extend|..].
  - simpl. apply lookup_insert_eq.
  - split; [apply zero_rec_typed; unfold word; lia|simpl; lia].
  - intros H' ls' s4 Hs4 Hw' Hk He Hf. eapply HQ; [done|done|..].
    + eapply keeps_trans; [|exact Hk]. split; simpl; try done.
      * intros p Hp. apply lookup_insert_ne. intros <-.
        destruct (wf_held _ _ _ _ _ Hw _ Hp) as [(b & h & Hb & _) _]. congruence.
      * intros i p Hbi Hp. apply lookup_insert_ne. intros <-. apply bucket_list in Hbi.
        destruct (wf_mem _ _ _ _ _ Hw i _ Hbi Hp) as (b & h & Hb & _). congruence.
    + by rewrite He.
    + eapply has_free_mono; [|done]. simpl. lia.
Qed.

Lemma wp_expand H ls X L n s (Q : bool -> tdb_context -> Prop) :
  locks_ok L -> holds T H L s -> wf T H ls X ∅ -> 28 <= n ->
  h_end H + n * 10 + page_size T < 2 ^ 32 ->
  (forall s', refused -> holds T H L s' -> Q false s') ->
  (forall H' ls' s', holds T H' L s' -> wf T H' ls' X ∅ -> keeps T H ls X H' ls' ->
     h_end H <= h_end H' <= h_end H + n * 10 + page_size T -> has_free H' ls' (n * 10 - 24) -> Q true s') ->
  wp (tdb_expand T n) Q s.
Proof.
  intros HL Hs Hw Hn Hmax HQf HQ. pose proof (free_index T) as Hi.
  destruct (gc_page_size T) as (k & Hk & Ep).
  assert (0 < 2 ^ k) by (apply Z.pow_pos_nonneg; lia).
  unfold tdb_expand. apply wp_check. eapply (wp_lock T); [done..|]. intros s1 Hs1 _.
  apply wp_bind, wp_bind, wp_get, wp_bind. eapply wp_probe_end; [done|lia|].
  intros _ s2 Hs2 Em. apply wp_bind, wp_get. cbv zeta. rewrite Em.
  destruct (rep_end _ _ _ (ho_rep _ _ _ _ Hs2)) as [Hlen Hend].
  assert (0 < data_start T) as Hds by (pose proof (gc_hash_size T); unfold data_start, FREELIST_TOP, sizeof_header; lia).
  pose proof (expand_size_bounds (h_end H) n ltac:(lia) ltac:(lia) ltac:(lia)) as Hsz.
  set (sz := expand_size T (h_end H) n) in *.
  assert (forall l, length l = Z.to_nat sz ->
    wp (do! c_set (fun s => set_map_size s (u32 (map_size s + sz)));
        tdb_free T (h_end H) (zero_rec (u32 (sz - sizeof_rec))))
       (fun ok s' => wp (do! tdb_unlock T (-1) F_WRLCK; c_ret ok) Q s')
       (set_file s2 (put (file s2) (h_end H) l))) as Hgrow.
  { intros l Hl. replace sz with (Z.of_nat (length l)) in * by lia.
    eapply wp_grow; [by apply locks_ok_push|done..|lia|lia|].
    intros H' ls' s4 Hs4 Hw' Hk' He Hf. apply wp_bind. eapply (wp_unlock T); [done..|].
    intros s5 Hs5 _. apply wp_ret. eapply HQ; [done..|lia|].
    eapply has_free_mono; [|done]. lia. }
  destruct (flag T TDB_INTERNAL).
  - apply wp_check, wp_bind, wp_set, wp_ret. rewrite Em. apply Hgrow. by rewrite gc_realloc.
  - apply wp_check. unfold tdb_expand_file. apply wp_bind, wp_get. cbv zeta.
    rewrite (no_writes_holds _ _ _ _ Hs2), u32_small by lia.
    destruct (can_extend T (h_end H + sz)) eqn:Ex; simpl.
    + apply wp_bind, wp_set, wp_ret. rewrite take_ge by lia. apply Hgrow. by rewrite length_replicate.
    + apply wp_ret, wp_bind. eapply (wp_unlock T); [done..|]. intros s5 Hs5 _. apply wp_ret, HQf; [by eexists|done].
Qed.

End expand.

(** ** Allocating *)

Section allocate.
Context (T : tdb_config) {GC : GoodConfig T}.
Implicit Types (H : heap) (ls : Z -> list Z) (X Y : gset Z).

Lemma TDB_ALIGN_4 n : 0 <= n -> n + 4 < 2 ^ 32 -> n <= TDB_ALIGN n TDB_ALIGNMENT < n + 4.
Proof. intros. apply (TDB_ALIGN_pow2 n 2); lia. Qed.

(** The record given out: complete, in no list. *)
Definition given H ls X (o : Z) (r : list_struct) (n : Z) : Prop :=
  o ∉ X /\ (exists b, h_blks H !! o = Some b /\ solid b r) /\ magic r = TDB_MAGIC
  /\ rec_typed r /\ n <= rec_len r.

Lemma magic_word : word TDB_MAGIC /\ TDB_MAGIC <> TDB_FREE_MAGIC.
Proof. split; [split; vm_compute; congruence|vm_compute; congruence]. Qed.

Lemma rec_typed_magic r n m : rec_typed r -> word n -> word m ->
  rec_typed (with_magic (with_rec_len r n) m).
Proof.
  unfold rec_typed. simpl. intros Hr Hn Hm. repeat (inversion Hr as [|? ? ? Hr']; subst; clear Hr; rename Hr' into Hr).
  by repeat (constructor; [assumption|]).
Qed.

(** A raw block, written with a header and a tailer, is held. *)
Lemma wf_hold_raw H ls X Y o b h :
  wf T H ls X Y -> o ∈ Y -> b_tail b = true -> b_hdr b = Some h -> magic h = TDB_MAGIC ->
  wf T (set_blk H o b) ls ({[o]} ∪ X) (Y ∖ {[o]}).
Proof.
  intros Hw HY Ht Hh Hm. eapply (wf_hold T); [by apply wf_set_raw|done|apply lookup_insert_eq|done|].
  rewrite Hm. apply magic_word.
Qed.

Lemma keeps_raw H ls X Y o b :
  wf T H ls X Y -> o ∈ Y -> keeps T H ls X (set_blk H o b) ls.
Proof.
  intros Hw HY. destruct (wf_raw _ _ _ _ _ Hw o HY) as (_ & HX & Hn). split; simpl; try done.
  - intros p Hp. apply lookup_insert_ne. by intros <-.
  - intros i p Hi Hp. apply lookup_insert_ne. intros <-. apply bucket_list in Hi. by apply (Hn i).
Qed.

(** The whole record. *)
Lemma wp_take_whole H ls X L o b r s (Q : bool -> tdb_context -> Prop) :
  holds T H L s -> wf T H ls X {[o]} -> h_blks H !! o = Some b -> b_tail b = true -> free_rec b r ->
  magic r = TDB_MAGIC ->
  (forall H' s', holds T H' L s' -> wf T H' ls ({[o]} ∪ X) ∅ -> keeps T H ls X H' ls ->
     h_end H' = h_end H -> given H' ls X o r (rec_len r) -> Q true s') ->
  wp (tdb_rec_write T o r) Q s.
Proof.
  intros Hs Hw Hb Ht [Hty Hsz] Hm HQ.
  eapply (wp_rec_write T); [done..|]. intros s1 Hs1.
  eapply HQ; [exact Hs1| | |done|].
  - replace (∅ : gset Z) with ({[o]} ∖ {[o]} : gset Z) by set_solver.
    by eapply (wf_hold_raw); [done|set_solver|..].
  - eapply keeps_raw; [done|set_solver].
  - split; [apply (wf_raw _ _ _ _ _ Hw); set_solver|]. split; [|done].
    exists (set_hdr b r). simpl. rewrite lookup_insert_eq. split; [done|]. by split.
Qed.

(** The left part of the record; the right part is freed. *)
Lemma wp_take_left H ls X L o b r n s (Q : option (Z * list_struct) -> tdb_context -> Prop) :
  locks_ok L -> holds T H L s -> wf T H ls X {[o]} -> h_blks H !! o = Some b ->
  rec_typed r -> magic r = TDB_MAGIC -> b_size b = 24 + rec_len r + 24 + n -> 4 <= rec_len r -> 4 <= n ->
  (forall H' ls' s', holds T H' L s' -> wf T H' ls' ({[o]} ∪ X) ∅ -> keeps T H ls X H' ls' ->
     h_end H' = h_end H -> given H' ls' X o r (rec_len r) -> Q (Some (o, r)) s') ->
  wp (do?! tdb_rec_write T o r else None;
      do?! update_tailer T o r else None;
      do?! tdb_free T (o + 24 + rec_len r) (zero_rec n) else None;
      c_ret (Some (o, r))) Q s.
Proof.
  intros HL Hs Hw Hb Hty Hm Hsz Hr4 Hn4 HQ.
  destruct (blk_word _ _ _ _ _ _ Hs Hb) as (Ho & Hwd & Hmin & Hpos & Hmax).
  assert (o ∉ X) as HX by (apply (wf_raw _ _ _ _ _ Hw); set_solver).
  set (o2 := o + 24 + rec_len r). set (H1 := set_blks H (split_blks (h_blks H) o (24 + rec_len r) (24 + n))).
  assert (o2 <> o) as Hne by (unfold o2; lia).
  assert (h_blks H !! o2 = None) as Hnone.
  { destruct (h_blks H !! o2) as [c|] eqn:E; [|done].
    pose proof (til_disj _ _ _ (rep_tiling _ _ _ (ho_rep _ _ _ _ Hs)) _ _ _ _ Hb E).
    unfold o2 in *. lia. }
  assert (holds T H1 L s) as Hs1.
  { eapply holds_reshape; [done| |done]. eapply (rep_split T); [apply Hs|done|lia..]. }
  assert (h_blks H1 !! o2 = Some (raw_blk (24 + n)) /\ h_blks H1 !! o = Some (raw_blk (24 + rec_len r)))
    as [Hb2 Hb1].
  { unfold H1, split_blks. simpl. replace (o + (24 + rec_len r)) with o2 by (unfold o2; lia).
    rewrite lookup_insert_eq, lookup_insert_ne, lookup_insert_eq by done. done. }
  assert (forall p, p <> o -> p <> o2 -> h_blks H1 !! p = h_blks H !! p) as Hother.
  { intros p Hp1 Hp2. unfold H1, split_blks. simpl.
    replace (o + (24 + rec_len r)) with o2 by (unfold o2; lia). by rewrite !lookup_insert_ne. }
  assert (wf T H1 ls X {[o; o2]}) as Hw1.
  { eapply (wf_set_blks T); [done|..].
    - intros p Hp1 Hp2. apply Hother; set_solver.
    - intros p [->%elem_of_singleton | ->%elem_of_singleton]%elem_of_union; fold H1.
      + change (split_blks (h_blks H) o (24 + rec_len r) (24 + n)) with (h_blks H1). rewrite Hb1.
        split; [eauto|]. apply (wf_raw _ _ _ _ _ Hw). set_solver.
      + change (split_blks (h_blks H) o (24 + rec_len r) (24 + n)) with (h_blks H1). rewrite Hb2.
        split; [eauto|]. split.
        * intros Hx. destruct (wf_held _ _ _ _ _ Hw _ Hx) as [(c & k & Hc & _) _]. congruence.
        * intros i Hi Hin. destruct (wf_mem _ _ _ _ _ Hw i _ Hi Hin) as (c & k & Hc & _). congruence.
    - set_solver. }
  assert (keeps T H ls X H1 ls) as Hk1.
  { eapply (keeps_set_blks T); [done|..].
    - intros p Hp. by apply (wf_raw _ _ _ _ _ Hw).
    - intros p [c Hc] Hp. apply Hother; [set_solver|]. intros ->. congruence.
    - intros p Hp. destruct (wf_held _ _ _ _ _ Hw p Hp) as [(c & h & -> & _) _]. eauto. }
  apply wp_check. eapply (wp_rec_write T); [exact Hs1|exact Hb1|done|done|]. intros s2 Hs2.
  apply wp_check. eapply (wp_update_tailer T); [done|apply lookup_insert_eq|done|]. intros s3 Hs3.
  set (b3 := set_tail (set_hdr (raw_blk (24 + rec_len r)) r)) in *.
  set (H3 := set_blk (set_blk H1 o (set_hdr (raw_blk (24 + rec_len r)) r)) o b3) in *.
  assert (wf T H3 ls ({[o]} ∪ X) {[o2]}) as Hw3.
  { replace ({[o2]} : gset Z) with ({[o; o2]} ∖ {[o]} : gset Z) by set_solver.
    eapply (wf_hold_raw); [|set_solver|done|done|done]. apply wf_set_raw; [done|set_solver]. }
  assert (keeps T H1 ls X H3 ls) as Hk3.
  { eapply keeps_trans; eapply keeps_raw; [done|set_solver|apply wf_set_raw; [done|set_solver]|set_solver]. }
  assert (h_blks H3 !! o2 = Some (raw_blk (24 + n))) as Hb3.
  { unfold H3. simpl. by rewrite !lookup_insert_ne by done. }
  apply wp_check. eapply (wp_tdb_free T); [done|exact Hs3|exact Hw3|exact Hb3|..].
  { split; [apply zero_rec_typed; unfold word in *; lia|done]. }
  intros H4 ls4 s4 Hs4 Hw4 Hk4 He4 _. apply wp_ret. eapply HQ; [done|done|..].
  - eapply keeps_trans; [exact Hk1|]. eapply keeps_trans; [exact Hk3|].
    apply (keeps_weaken T _ _ ({[o]} ∪ X)); [set_solver|exact Hk4].
  - rewrite He4. done.
  - split; [done|]. split; [|done]. exists b3. rewrite (ke_held _ _ _ _ _ _ Hk4) by set_solver.
    unfold H3. simpl. rewrite lookup_insert_eq. by split.
Qed.

Lemma wp_allocate_ofs H ls X L n pre o post b h s
    (Q : option (Z * list_struct) -> tdb_context -> Prop) :
  locks_ok L -> holds T H L s -> wf T H ls X ∅ -> ls (-1) = pre ++ o :: post ->
  h_blks H !! o = Some b -> b_hdr b = Some h -> 4 <= n <= rec_len h ->
  (forall H' ls' r s', holds T H' L s' -> wf T H' ls' ({[o]} ∪ X) ∅ -> keeps T H ls X H' ls' ->
     h_end H' = h_end H -> given H' ls' X o r n -> Q (Some (o, r)) s') ->
  wp (tdb_allocate_ofs T n o h (link_addr (-1) pre)) Q s.
Proof.
  intros HL Hs Hw El Hb Hh Hn HQ. pose proof (free_index T) as Hi.
  destruct (blk_word _ _ _ _ _ _ Hs Hb) as (Ho & Hwd & Hmin & Hpos & Hmax). unfold word in Ho, Hwd.
  destruct (bo_hdr _ _ _ _ (rep_blks _ _ _ (ho_rep _ _ _ _ Hs) _ _ Hb) h Hh) as (Hty & Hsz & _).
  assert (word (next h)) as Hnext by (unfold rec_typed in Hty; by inversion Hty).
  pose proof magic_word as [Hmw _].
  assert (solid b h) as [_ Ht].
  { destruct (wf_solid _ _ _ _ _ _ _ Hw Hb) as (h' & Hh' & Ht); [set_solver|]. simplify_eq. by split. }
  unfold tdb_allocate_ofs. cbv zeta.
  assert (forall p, p ∈ X -> p ∉ ls (-1)) as HXl.
  { intros p Hp. destruct (wf_held _ _ _ _ _ Hw p Hp) as [_ Hnl]. by apply Hnl. }
  assert (keeps T H ls X (link H (-1) pre (next h)) (<[-1:=pre ++ post]> ls)) as Hk1
    by (by eapply (keeps_unlink T)).
  assert (wf T (link H (-1) pre (next h)) (<[-1:=pre ++ post]> ls) X {[o]}) as Hw1.
  { replace ({[o]} : gset Z) with ({[o]} ∪ ∅ : gset Z) by set_solver. by eapply wf_unlink. }
  assert (h_blks (link H (-1) pre (next h)) !! o = Some b) as Hb1.
  { rewrite link_lookup; [done|]. intros Hin.
    pose proof (path_nodup _ _ _ (wf_path _ _ _ _ _ Hw (-1) Hi)) as Hnd. rewrite El in Hnd.
    apply NoDup_app in Hnd as (_ & Hd & _). apply (Hd o Hin). by left. }
  destruct (link_end H (-1) pre (next h)) as [He1 _].
  unfold MIN_REC_SIZE, sizeof_rec, TDB_ALIGNMENT.
  destruct (n + (2 * 24 + 4) <? rec_len h) eqn:Esplit; bool_hyps.
  - pose proof (TDB_ALIGN_4 n ltac:(lia) ltac:(lia)) as Ha. unfold TDB_ALIGNMENT in Ha.
    set (n' := TDB_ALIGN n 4) in *.
    apply wp_check. eapply (wp_ofs_write_link T); [done|done|done|exact El|done|]. intros s1 Hs1.
    rewrite (u32_small (o + 24 + n')) by lia. rewrite (u32_small (rec_len h - _)) by lia.
    rewrite (proj2 (Z.eqb_neq (o + 24 + n') 0)) by lia. simpl negb. cbn iota.
    set (r := with_magic (with_rec_len h n') TDB_MAGIC).
    change (o + 24 + n') with (o + 24 + rec_len r).
    eapply (wp_take_left _ _ _ _ _ b r (rec_len h - (24 + n'))); [done|exact Hs1|exact Hw1|exact Hb1|..].
    + apply rec_typed_magic; [done|unfold word; lia|done].
    + done.
    + simpl. lia.
    + simpl. lia.
    + lia.
    + intros H' ls' s' Hs' Hw' Hk' He' Hg. eapply HQ; [done|done| |by rewrite He'|].
      * by eapply keeps_trans.
      * destruct Hg as (? & ? & ? & ? & _). split_and!; try done. simpl. lia.
  - apply wp_check. eapply (wp_ofs_write_link T); [done|done|done|exact El|done|]. intros s1 Hs1.
    simpl negb. cbn iota. apply wp_check.
    eapply wp_take_whole; [exact Hs1|exact Hw1|exact Hb1|done|..].
    + split; [|done].
      replace (with_magic h TDB_MAGIC) with (with_magic (with_rec_len h (rec_len h)) TDB_MAGIC)
        by (by destruct h).
      apply rec_typed_magic; [done|unfold word; lia|done].
    + done.
    + intros H' s' Hs' Hw' Hk' He' Hg. apply wp_ret. eapply HQ; [done|done| |by rewrite He'|].
      * by eapply keeps_trans.
      * destruct Hg as (? & ? & ? & ? & _). split_and!; try done. simpl. lia.
Qed.

Lemma wp_rec_free_read H ls X Y L pre o post s (Q : option list_struct -> tdb_context -> Prop) :
  holds T H L s -> wf T H ls X Y -> ls (-1) = pre ++ o :: post ->
  (forall s' b h, holds T H L s' -> h_blks H !! o = Some b -> b_hdr b = Some h ->
     next h = head_of post -> b_size b = 24 + rec_len h -> 4 <= rec_len h -> Q (Some h) s') ->
  wp (tdb_rec_free_read T o) Q s.
Proof.
  intros Hs Hw El HQ.
  destruct (free_mem T _ _ _ _ _ _ _ Hw El) as (b & h & Hb & Hh & _ & Hm & Hn & Hnx).
  destruct (blk_word _ _ _ _ _ _ Hs Hb) as (_ & _ & Hmin & _).
  destruct (bo_hdr _ _ _ _ (rep_blks _ _ _ (ho_rep _ _ _ _ Hs) _ _ Hb) h Hh) as (_ & Hsz & _).
  unfold tdb_rec_free_read. apply wp_some. eapply (wp_read_rec T); [done..|]. intros s1 Hs1.
  rewrite Hm. change (TDB_FREE_MAGIC =? TDB_MAGIC) with false. cbn iota.
  apply wp_some, wp_ret. rewrite Hm. rewrite Z.eqb_refl. simpl. apply wp_check.
  assert (0 <= next h /\ next h + 24 <= h_end H /\ h_end H < 2 ^ 32) as (? & ? & ?).
  { destruct (rep_blk_in _ _ _ _ _ (ho_rep _ _ _ _ Hs) Hb) as (? & ? & ? & ? & ?).
    destruct Hnx as [->|[c Hc]]; [lia|].
    destruct (rep_blk_in _ _ _ _ _ (ho_rep _ _ _ _ Hs) Hc) as (? & ? & ? & ? & ?). lia. }
  unfold sizeof_rec. rewrite u32_small by lia. eapply (wp_oob T); [done..|].
  intros s2 Hs2 _ _. apply wp_ret. eapply HQ; try done. lia.
Qed.

(** What the walk has found: nothing, and then all it passed is too small, or a
    record that is large enough. *)
Definition best_ok H ls (n : Z) (pre : list Z) (best : bestfit_t) : Prop :=
  (b_rec_ptr best = 0 /\ forall o b h, o ∈ pre -> h_blks H !! o = Some b -> b_hdr b = Some h ->
     rec_len h < n) \/
  (b_rec_ptr best <> 0 /\ exists p1 p2 b h, ls (-1) = p1 ++ b_rec_ptr best :: p2
     /\ b_last_ptr best = link_addr (-1) p1
     /\ h_blks H !! b_rec_ptr best = Some b /\ b_hdr b = Some h /\ n <= rec_len h).

Lemma wp_bestfit H ls X Y L n fuel pre rest best s
    (Q : option bestfit_t -> tdb_context -> Prop) :
  holds T H L s -> wf T H ls X Y -> ls (-1) = pre ++ rest -> (length rest < fuel)%nat ->
  best_ok H ls n pre best ->
  (forall best s', holds T H L s' -> best_ok H ls n (ls (-1)) best -> Q (Some best) s') ->
  wp (bestfit_loop T fuel n (link_addr (-1) pre) (head_of rest) best) Q s.
Proof.
  revert pre rest best s. induction fuel as [|fuel IH]; intros pre rest best s Hs Hw El Hf Hbest HQ; [lia|].
  simpl. destruct rest as [|o rest]; simpl.
  { apply HQ; [done|]. by rewrite El, app_nil_r. }
  destruct (free_mem T _ _ _ _ _ _ _ Hw El) as (b0 & h0 & Hb0 & _).
  destruct (blk_word _ _ _ _ _ _ Hs Hb0) as (_ & _ & _ & Hpos & _).
  unfold head_of. simpl. rewrite (proj2 (Z.eqb_neq o 0)) by lia. apply wp_some.
  eapply wp_rec_free_read; [done..|]. intros s1 b h Hs1 Hb Hh Hn Hsz H4. rewrite Hn.
  assert (forall best', best_ok H ls n (pre ++ [o]) best' ->
    wp (bestfit_loop T fuel n o (head_of rest) best') Q s1) as Hgo.
  { intros best' Hbest'. rewrite <- (link_addr_snoc (-1) pre o). apply IH; try done.
    - by rewrite <- app_assoc.
    - simpl in Hf. lia. }
  destruct ((n <=? rec_len h) && _) eqn:E.
  - apply andb_prop in E as [E1 _]. bool_hyps.
    assert (forall l, best_ok H ls n l (mk_best o (link_addr (-1) pre) (rec_len h))) as Hnew.
    { intros l. right. simpl. split; [lia|]. by exists pre, rest, b, h. }
    destruct (_ <? _); [apply wp_ret; by apply HQ|by apply Hgo].
  - apply Hgo. destruct Hbest as [[Hz Hall]|Hbest]; [left|by right].
    split; [done|]. rewrite Hz in E. simpl in E. rewrite andb_true_r in E. bool_hyps.
    intros p c k [Hp| ->%list_elem_of_singleton]%elem_of_app Hc Hk; [by eapply Hall|].
    simplify_eq. lia.
Qed.

(** What [tdb_allocate] comes to. *)
Definition alloc_post H ls X L (n : Z) (Q : option (Z * list_struct) -> tdb_context -> Prop) : Prop :=
  (forall s', refused T -> holds T H L s' -> Q None s') /\
  (forall H' ls' o r s', holds T H' L s' -> wf T H' ls' ({[o]} ∪ X) ∅ -> keeps T H ls X H' ls' ->
     h_end H <= h_end H' <= h_end H + (n + 24) * 10 + page_size T -> given H' ls' X o r n ->
     Q (Some (o, r)) s').

Lemma page_pos : 0 < page_size T.
Proof. destruct (gc_page_size T) as (k & Hk & ->). apply Z.pow_pos_nonneg; lia. Qed.

Lemma wp_allocate_try H ls X L n s tries (Q : option (Z * list_struct) -> tdb_context -> Prop) :
  locks_ok L -> holds T H L s -> wf T H ls X ∅ -> 4 <= n ->
  (forall H' ls' o r s', holds T H' L s' -> wf T H' ls' ({[o]} ∪ X) ∅ -> keeps T H ls X H' ls' ->
     h_end H' = h_end H -> given H' ls' X o r n -> Q (Some (o, r)) s') ->
  ((forall o b h, o ∈ ls (-1) -> h_blks H !! o = Some b -> b_hdr b = Some h -> rec_len h < n) ->
   forall s', holds T H L s' ->
   wp (do?! tdb_expand T (u32 (n + sizeof_rec)) else None; allocate_again T tries n) Q s') ->
  wp (allocate_again T (S tries) n) Q s.
Proof.
  intros HL Hs Hw Hn HQ Hexp. pose proof (free_index T) as Hi.
  simpl. apply wp_some.
  pose proof (path_head _ _ _ (wf_path _ _ _ _ _ Hw (-1) Hi)) as Etop.
  change FREELIST_TOP with (top_addr (-1)).
  eapply (wp_ofs_read_top T); [done..|]. intros s1 Hs1. rewrite Etop. apply wp_bind, wp_get.
  apply wp_some. change (top_addr (-1)) with (link_addr (-1) []).
  apply (wp_bestfit H ls X ∅ L n (walk_fuel s1) [] (ls (-1))); [done|exact Hw|done|..].
  { pose proof (path_fuel _ _ _ _ _ (ho_rep _ _ _ _ Hs1) (wf_path _ _ _ _ _ Hw (-1) Hi)).
    unfold walk_fuel. lia. }
  { left. split; [done|]. intros o b h Ho. by apply elem_of_nil in Ho. }
  intros best s2 Hs2 [[Hz Hall]|(Hnz & p1 & p2 & b & h & El & -> & Hb & Hh & Hlen)].
  - rewrite Hz. simpl. by apply Hexp.
  - rewrite (proj2 (Z.eqb_neq _ 0)) by done. simpl. apply wp_some.
    eapply wp_rec_free_read; [done..|]. intros s3 b' h' Hs3 Hb' Hh' _ _ _. simplify_eq.
    eapply wp_allocate_ofs; try done. intros H' ls' r s4 Hs4 Hw4 Hk4 He4 Hg. by eapply HQ.
Qed.

Lemma wp_allocate H ls X L n s (Q : option (Z * list_struct) -> tdb_context -> Prop) :
  locks_ok L -> holds T H L s -> wf T H ls X ∅ -> 0 <= n ->
  h_end H + (n + 28) * 10 + page_size T < 2 ^ 32 ->
  alloc_post H ls X L (n + 4) Q ->
  wp (tdb_allocate T n) Q s.
Proof.
  intros HL Hs Hw Hn Hmax HQ. pose proof (free_index T) as Hi. pose proof page_pos as Hp.
  assert (0 < h_end H) as Hpos.
  { destruct (rep_end _ _ _ (ho_rep _ _ _ _ Hs)) as [_ [? _]]. pose proof (gc_hash_size T).
    unfold data_start, FREELIST_TOP, sizeof_header in *. lia. }
  unfold tdb_allocate. apply wp_check. eapply (wp_lock T); [done..|]. intros s1 Hs1 _.
  apply wp_bind. rewrite u32_small by lia.
  assert (locks_ok (push_lock T (-1) F_WRLCK L)) as HL1 by (by apply locks_ok_push).
  assert (alloc_post H ls X (push_lock T (-1) F_WRLCK L) (n + 4)
    (fun r s' => wp (do! tdb_unlock T (-1) F_WRLCK; c_ret r) Q s')) as HQ1.
  { destruct HQ as [HQn HQs]. split.
    - intros s' Href Hs'. apply wp_bind. apply (wp_unlock T (-1) F_WRLCK H L); [done..|].
      intros s'' Hs'' _. apply wp_ret. by eapply HQn.
    - intros H' ls' o r s' Hs' Hw' Hk' He' Hg. apply wp_bind. apply (wp_unlock T (-1) F_WRLCK H' L); [done..|].
      intros s'' Hs'' _. apply wp_ret. by eapply HQs. }
  eapply wp_allocate_try; [done|exact Hs1|exact Hw|lia|..].
  { intros H' ls' o r s' Hs' Hw' Hk' He' Hg. eapply HQ1; try done. lia. }
  intros _ s2 Hs2.
  apply wp_check. unfold sizeof_rec. rewrite u32_small by lia.
  eapply (wp_expand T); [exact HL1|exact Hs2|exact Hw|lia|lia|..].
  { intros s3 Href Hs3. by apply HQ1. }
  intros H3 ls3 s3 Hs3 Hw3 Hk3 He3 (o & b & h & Ho & Hb & Hh & Hsz & Hlen).
  eapply wp_allocate_try; [exact HL1|exact Hs3|exact Hw3|lia|..].
  - intros H' ls' o' r s' Hs' Hw' Hk' He' Hg. eapply HQ1; [done|done| |lia|done].
    by eapply keeps_trans.
  - intros Hall. specialize (Hall o b h Ho Hb Hh). lia.
Qed.

End allocate.
