(* ===== verification/TdbStore.v ===== *)
(** * tdb: the operations ([source4/lib/tdb/common/tdb.c], and
    [tdb_new_database] of [open.c])

    A record is in the chain of its hash; a deleted record may stay in its chain
    as a dead one, under a traversal or to be used again. *)

From stdpp Require Import functions.
From S2P Require Import Prelude TdbIo TdbHeap TdbChain TdbFreelist.

(** The flags of [tdb_store]; 0 is treated like [TDB_REPLACE]. *)
Inductive store_flag : Set := TDB_REPLACE | TDB_INSERT | TDB_MODIFY.

#[export] Instance store_flag_eq_dec : EqDecision store_flag.
Proof. solve_decision. Defined.

(** [default_tdb_hash] *)
Fixpoint hash_bytes (value i : Z) (l : list Z) : Z :=
  match l with
  | [] => value
  | b :: l => hash_bytes (u32 (value + Z.shiftl b (i * 5 mod 24))) (i + 1) l
  end.
Definition default_tdb_hash (key : list Z) : Z :=
  u32 (1103515243 * hash_bytes (u32 (0x238F13AF * Z.of_nat (length key))) 0 key + 12345).

(** The sign of the first difference of the bytes of [data] with [key]. *)
Fixpoint memcmp (data key : list Z) : Z :=
  match data, key with
  | a :: data, b :: key => if a =? b then memcmp data key else if a <? b then -1 else 1
  | _, _ => 0
  end.

Section store.
Context (T : tdb_config).

Definition tdb_increment_seqnum_nonblock : C unit :=
  if negb (flag T TDB_SEQNUM) then c_ret tt
  else
    do o <- tdb_ofs_read T TDB_SEQNUM_OFS;
    do! tdb_ofs_write T TDB_SEQNUM_OFS (u32 (default 0 o + 1));
    c_ret tt.

Definition tdb_increment_seqnum : C unit :=
  if negb (flag T TDB_SEQNUM) then c_ret tt
  else
    do?! tdb_brlock T TDB_SEQNUM_OFS F_WRLCK true true 1 else tt;
    do! tdb_increment_seqnum_nonblock;
    do! tdb_brlock T TDB_SEQNUM_OFS F_UNLCK true true 1;
    c_ret tt.

Definition tdb_key_compare (key data : list Z) : C Z := c_ret (memcmp data key).

Fixpoint find_loop (fuel : nat) (key : list Z) (hash rec_ptr : Z)
  : C (option (Z * list_struct)) :=
  match fuel with
  | O => c_none
  | S fuel =>
    if rec_ptr =? 0 then TDB_ERRCODE TDB_ERR_NOEXIST None
    else
      do? r <- tdb_rec_read T rec_ptr else None;
      if negb (TDB_DEAD r) && (hash =? full_hash r) && (Z.of_nat (length key) =? key_len r) then
        do c <- tdb_parse_data T (u32 (rec_ptr + sizeof_rec)) (key_len r) (tdb_key_compare key);
        if c =? 0 then c_ret (Some (rec_ptr, r)) else find_loop fuel key hash (next r)
      else find_loop fuel key hash (next r)
  end.

(** The offset of the record and its header; [None] is 0. *)
Definition tdb_find (key : list Z) (hash : Z) : C (option (Z * list_struct)) :=
  do? rec_ptr <- tdb_ofs_read T (TDB_HASH_TOP T hash) else None;
  do s <- c_get;
  find_loop (walk_fuel s) key hash rec_ptr.

Definition tdb_find_lock_hash (key : list Z) (hash : Z) (locktype : lock_rw)
  : C (option (Z * list_struct)) :=
  do?! tdb_lock T (BUCKET T hash) locktype else None;
  do o <- tdb_find key hash;
  match o with
  | Some p => c_ret (Some p)
  | None => do! tdb_unlock T (BUCKET T hash) locktype; c_ret None
  end.

(** Only if the record exists and the new data fits. *)
Definition tdb_update_hash (key : list Z) (hash : Z) (dbuf : list Z) : C bool :=
  do? (rec_ptr, rec) <- tdb_find key hash else false;
  if rec_len rec <? Z.of_nat (length key) + Z.of_nat (length dbuf) + 4 then
    TDB_ERRCODE TDB_SUCCESS false
  else
    do?! tdb_write T (u32 (rec_ptr + sizeof_rec + key_len rec)) dbuf else false;
    if negb (Z.of_nat (length dbuf) =? data_len rec) then
      tdb_rec_write T rec_ptr
        (mk_rec (next rec) (rec_len rec) (key_len rec) (u32 (Z.of_nat (length dbuf)))
           (full_hash rec) (magic rec))
    else c_ret true.

(** [tdb_fetch]: [dptr], the bytes of the buffer, and [dsize] of its result.  A
    record that cannot be read has no buffer, but the size. *)
Definition tdb_fetch_data (key : list Z) : C (option (list Z) * Z) :=
  let hash := hash_fn T key in
  do? (rec_ptr, rec) <- tdb_find_lock_hash key hash F_RDLCK else (None, 0);
  do dptr <- tdb_alloc_read T (u32 (rec_ptr + sizeof_rec + key_len rec)) (data_len rec);
  do! tdb_unlock T (BUCKET T (full_hash rec)) F_RDLCK;
  c_ret (dptr, data_len rec).

(** The data a caller that looks at [dptr] first finds in the result. *)
Definition tdb_fetch (key : list Z) : C (option (list Z)) :=
  do (dptr, dsize) <- tdb_fetch_data key;
  c_ret (take (Z.to_nat dsize) <$> dptr).

(** Returns 0 for a key that is not found, too. *)
Definition tdb_parse_record (key : list Z) (parser : list Z -> list Z -> C Z) : C Z :=
  let hash := hash_fn T key in
  do o <- tdb_find_lock_hash key hash F_RDLCK;
  match o with
  | None => TDB_ERRCODE TDB_ERR_NOEXIST 0
  | Some (rec_ptr, rec) =>
    do ret <- tdb_parse_data T (u32 (rec_ptr + sizeof_rec + key_len rec)) (data_len rec) (parser key);
    do! tdb_unlock T (BUCKET T (full_hash rec)) F_RDLCK;
    c_ret ret
  end.

Definition tdb_exists_hash (key : list Z) (hash : Z) : C bool :=
  do? (_, rec) <- tdb_find_lock_hash key hash F_RDLCK else false;
  do! tdb_unlock T (BUCKET T (full_hash rec)) F_RDLCK;
  c_ret true.
Definition tdb_exists (key : list Z) : C bool := tdb_exists_hash key (hash_fn T key).

(** The record before [rec_ptr] in its chain, 0 if it is the first. *)
Fixpoint prev_loop (fuel : nat) (rec_ptr last_ptr i : Z) : C (option Z) :=
  match fuel with
  | O => c_none
  | S fuel =>
    if i =? rec_ptr then c_ret (Some last_ptr)
    else
      do? lastrec <- tdb_rec_read T i else None;
      prev_loop fuel rec_ptr i (next lastrec)
  end.

Definition tdb_do_delete (rec_ptr : Z) (rec : list_struct) : C bool :=
  do s <- c_get;
  if no_writes T s then c_ret false
  else
    do locked <- tdb_write_lock_record T rec_ptr;
    if negb locked then tdb_rec_write T rec_ptr (with_magic rec TDB_DEAD_MAGIC)
    else
      do?! tdb_write_unlock_record T rec_ptr else false;
      do? i <- tdb_ofs_read T (TDB_HASH_TOP T (full_hash rec)) else false;
      do s <- c_get;
      do? last_ptr <- prev_loop (walk_fuel s) rec_ptr 0 i else false;
      let last_ptr := if last_ptr =? 0 then TDB_HASH_TOP T (full_hash rec) else last_ptr in
      do?! tdb_ofs_write T last_ptr (next rec) else false;
      tdb_free T rec_ptr rec.

(** The loops along a chain that count, purge and look for dead records. *)
Fixpoint count_dead_loop (fuel : nat) (res rec_ptr : Z) : C Z :=
  match fuel with
  | O => c_none
  | S fuel =>
    if rec_ptr =? 0 then c_ret res
    else
      do? rec <- tdb_rec_read T rec_ptr else 0;
      count_dead_loop fuel (if magic rec =? TDB_DEAD_MAGIC then res + 1 else res) (next rec)
  end.
Definition tdb_count_dead (hash : Z) : C Z :=
  do? rec_ptr <- tdb_ofs_read T (TDB_HASH_TOP T hash) else 0;
  do s <- c_get; count_dead_loop (walk_fuel s) 0 rec_ptr.

Fixpoint purge_loop (fuel : nat) (rec_ptr : Z) : C bool :=
  match fuel with
  | O => c_none
  | S fuel =>
    if rec_ptr =? 0 then c_ret true
    else
      do? rec <- tdb_rec_read T rec_ptr else false;
      do?! (if magic rec =? TDB_DEAD_MAGIC then tdb_do_delete rec_ptr rec else c_ret true) else false;
      purge_loop fuel (next rec)
  end.
Definition tdb_purge_dead (hash : Z) : C bool :=
  do?! tdb_lock T (-1) F_WRLCK else false;
  do res <-
    (do? rec_ptr <- tdb_ofs_read T (TDB_HASH_TOP T hash) else false;
     do s <- c_get; purge_loop (walk_fuel s) rec_ptr);
  do! tdb_unlock T (-1) F_WRLCK;
  c_ret res.

Definition tdb_delete_hash (key : list Z) (hash : Z) : C bool :=
  do? (rec, ret) <-
    (if negb (max_dead_records T =? 0) then
       do?! tdb_lock T (BUCKET T hash) F_WRLCK else None;
       do dead <- tdb_count_dead hash;
       do! (if max_dead_records T <=? dead then tdb_purge_dead hash else c_ret true);
       do o <- tdb_find key hash;
       match o with
       | None => do! tdb_unlock T (BUCKET T hash) F_WRLCK; c_ret None
       | Some (rec_ptr, rec) =>
         do ret <- tdb_rec_write T rec_ptr (with_magic rec TDB_DEAD_MAGIC);
         c_ret (Some (rec, ret))
       end
     else
       do? (rec_ptr, rec) <- tdb_find_lock_hash key hash F_WRLCK else None;
       do ret <- tdb_do_delete rec_ptr rec;
       c_ret (Some (rec, ret))) else false;
  do! (if ret : bool then tdb_increment_seqnum else c_ret tt);
  do! tdb_unlock T (BUCKET T (full_hash rec)) F_WRLCK;
  c_ret ret.

Definition tdb_delete (key : list Z) : C bool := tdb_delete_hash key (hash_fn T key).

Fixpoint find_dead_loop (fuel : nat) (length rec_ptr : Z) : C (option (Z * list_struct)) :=
  match fuel with
  | O => c_none
  | S fuel =>
    if rec_ptr =? 0 then c_ret None
    else
      do? r <- tdb_rec_read T rec_ptr else None;
      if TDB_DEAD r && (length <=? rec_len r) then c_ret (Some (rec_ptr, r))
      else find_dead_loop fuel length (next r)
  end.
Definition tdb_find_dead (hash length : Z) : C (option (Z * list_struct)) :=
  do? rec_ptr <- tdb_ofs_read T (TDB_HASH_TOP T hash) else None;
  do s <- c_get; find_dead_loop (walk_fuel s) length rec_ptr.

(** The header [tdb_store] gives a record for [key] and [dbuf]. *)
Definition store_rec (r : list_struct) (nx : Z) (key dbuf : list Z) (hash : Z) : list_struct :=
  mk_rec nx (rec_len r) (u32 (Z.of_nat (length key))) (u32 (Z.of_nat (length dbuf))) hash TDB_MAGIC.

(** The header and [key ++ dbuf] at [rec_ptr]. *)
Definition store_at (rec_ptr : Z) (rec : list_struct) (p : list Z) : C bool :=
  do?! tdb_rec_write T rec_ptr rec else false;
  tdb_write T (u32 (rec_ptr + sizeof_rec)) p.

(** [tdb_store] from the allocation on: the free list is locked, and the new
    record becomes the first of its chain. *)
Definition store_alloc (key dbuf : list Z) (hash : Z) : C bool :=
  do o <- tdb_allocate T (u32 (Z.of_nat (length key) + Z.of_nat (length dbuf)));
  do! tdb_unlock T (-1) F_WRLCK;
  match o with
  | None => c_ret false
  | Some (rec_ptr, rec) =>
    do? top <- tdb_ofs_read T (TDB_HASH_TOP T hash) else false;
    do?! store_at rec_ptr (store_rec rec top key dbuf hash) (key ++ dbuf) else false;
    tdb_ofs_write T (TDB_HASH_TOP T hash) rec_ptr
  end.

(** [tdb_store] once the old record is gone: a dead record that is large
    enough, or space from the free list. *)
Definition store_new (key dbuf : list Z) (hash : Z) : C bool :=
  let n := Z.of_nat (length key) + Z.of_nat (length dbuf) in
  do dead <-
    (if negb (max_dead_records T =? 0) then tdb_find_dead hash (u32 (n + 4)) else c_ret None);
  match dead with
  | Some (rec_ptr, rec) => store_at rec_ptr (store_rec rec (next rec) key dbuf hash) (key ++ dbuf)
  | None =>
    do?! tdb_lock T (-1) F_WRLCK else false;
    do purged <- (if negb (max_dead_records T =? 0) then tdb_purge_dead hash else c_ret true);
    if negb purged then do! tdb_unlock T (-1) F_WRLCK; c_ret false
    else store_alloc key dbuf hash
  end.

(** The checks that depend on the flag: [None] goes on to store, [Some ret]
    is done with [ret]. *)
Definition store_check (key dbuf : list Z) (hash : Z) (flg : store_flag) : C (option bool) :=
  if bool_decide (flg = TDB_INSERT) then
    do found <- tdb_exists_hash key hash;
    if found : bool then TDB_ERRCODE TDB_ERR_EXISTS (Some false) else c_ret None
  else
    do updated <- tdb_update_hash key hash dbuf;
    if updated : bool then c_ret (Some true)
    else
      do s <- c_get;
      match ecode s, flg with
      | TDB_ERR_NOEXIST, TDB_MODIFY => c_ret (Some false)
      | _, _ => c_ret None
      end.

Definition tdb_store (key dbuf : list Z) (flg : store_flag) : C bool :=
  do s <- c_get;
  if no_writes T s then TDB_ERRCODE TDB_ERR_RDONLY false
  else
    let hash := hash_fn T key in
    do?! tdb_lock T (BUCKET T hash) F_WRLCK else false;
    do checked <- store_check key dbuf hash flg;
    do ret <-
      match checked with
      | Some ret => c_ret ret
      | None =>
        do! c_set (fun s => set_ecode s TDB_SUCCESS);
        do! (if bool_decide (flg = TDB_INSERT) then c_ret true else tdb_delete_hash key hash);
        store_new key dbuf hash
      end;
    do! (if ret : bool then tdb_increment_seqnum else c_ret tt);
    do! tdb_unlock T (BUCKET T hash) F_WRLCK;
    c_ret ret.

(** Without a buffer, a new one of the size of [new_dbuf] is written to at
    [dsize]: outside it, unless that is 0. *)
Definition tdb_append (key new_dbuf : list Z) : C bool :=
  let hash := hash_fn T key in
  do?! tdb_lock T (BUCKET T hash) F_WRLCK else false;
  do (dptr, dsize) <- tdb_fetch_data key;
  do dbuf <-
    match dptr with
    | Some d => c_ret (take (Z.to_nat dsize) d)
    | None => if dsize =? 0 then c_ret [] else c_none
    end;
  do ret <- tdb_store key (dbuf ++ new_dbuf) TDB_REPLACE;
  do! tdb_unlock T (BUCKET T hash) F_WRLCK;
  c_ret ret.

Definition tdb_get_seqnum : C Z :=
  do o <- tdb_ofs_read T TDB_SEQNUM_OFS; c_ret (default 0 o).

(** [tdb_new_database]: the bytes of an empty database.  The magic food is not
    converted, and an internal database has none. *)
Definition magic_food : list Z := [84; 68; 66; 32; 102; 105; 108; 101; 10; 0].
Definition tdb_new_database : list Z :=
  let food := if flag T TDB_INTERNAL then [] else magic_food in
  food ++ replicate (32 - length food) 0
  ++ flat_map word_bytes (CONVERT T [TDB_VERSION; hash_size T])
  ++ replicate (Z.to_nat (sizeof_header - 40 + (hash_size T + 1) * 4)) 0.

(** The context [tdb_open_ex] makes of a file nobody has written to. *)
Definition tdb_open_new : tdb_context :=
  mk_tdb tdb_new_database (Z.of_nat (length tdb_new_database)) TDB_SUCCESS (0, F_RDLCK) [] 0
    [mk_tlock 0 0 F_RDLCK] 0 false.

End store.

(** ** Walking a chain *)

Section chains.
Context (T : tdb_config) {GC : GoodConfig T}.
Implicit Types (H : heap) (ls : Z -> list Z) (X Y : gset Z).

Lemma memcmp_eq a b : length a = length b -> memcmp a b = 0 <-> a = b.
Proof.
  revert b. induction a as [|x a IH]; intros [|y b]; simpl; try done. intros [= Hl].
  destruct (Z.eqb_spec x y) as [->|Hne].
  - rewrite IH by done. naive_solver.
  - split; [|naive_solver]. by destruct (x <? y).
Qed.

Lemma HASH_TOP_addr hash : TDB_HASH_TOP T hash = top_addr (BUCKET T hash).
Proof. unfold TDB_HASH_TOP, top_addr. lia. Qed.

Lemma chain_index hash : list_index T (BUCKET T hash).
Proof. apply (bucket_list T), (BUCKET_index T). Qed.

(** Giving known bytes of a record to a parser. *)
Lemma wp_parse_data H L o b k n (parser : list Z -> C Z) s (Q : Z -> tdb_context -> Prop) :
  holds T H L s -> h_blks H !! o = Some b -> (k + n <= length (b_data b))%nat ->
  (forall s', holds T H L s' -> wp (parser (take n (drop k (b_data b)))) Q s') ->
  wp (tdb_parse_data T (o + 24 + Z.of_nat k) (Z.of_nat n) parser) Q s.
Proof.
  intros Hs Hb Hk HQ. pose proof (ho_rep _ _ _ _ Hs) as Hr.
  destruct (rep_blk_in _ _ _ _ _ Hr Hb) as (? & ? & ? & ? & ?).
  destruct (rep_end _ _ _ Hr) as [Hl _].
  destruct (rep_blks _ _ _ Hr _ _ Hb) as [_ _ [Hd1 Hd2]].
  assert (sub (file s) (o + 24 + Z.of_nat k) (Z.of_nat n) = take n (drop k (b_data b))) as Hsub.
  { rewrite <- Hd2. unfold sub. rewrite !Nat2Z.id, skipn_firstn_comm, take_take, drop_drop.
    f_equal; [lia|]. f_equal. lia. }
  unfold tdb_parse_data. destruct (mapped T).
  - rewrite u32_small by lia. apply wp_check. eapply (wp_oob T); [done|lia|].
    intros s1 Hs1 Ef Hm. apply wp_bind, wp_get. rewrite (proj2 (Z.ltb_ge _ _)) by lia.
    rewrite Ef, Hsub. by apply HQ.
  - apply wp_some. unfold tdb_alloc_read. destruct (Z.of_nat n =? 0) eqn:E; bool_hyps.
    + eapply (wp_read T); [done|lia..|]. intros s1 Hs1 _. rewrite E.
      assert (n = 0%nat) as -> by lia. by apply HQ.
    + eapply (wp_read T); [done|lia..|]. intros s1 Hs1 _. rewrite Hsub, Nat2Z.id, take_take, Nat.min_id.
      by apply HQ.
Qed.

(** The record of [key], with the data [v], in its chain. *)
Record found H ls (key v : list Z) (o : Z) (h : list_struct) (b : blk) (pre post : list Z) : Prop := {
  fo_ls : ls (BUCKET T (hash_fn T key)) = pre ++ o :: post;
  fo_blk : h_blks H !! o = Some b;
  fo_solid : solid b h;
  fo_magic : magic h = TDB_MAGIC;
  fo_data : b_data b = key ++ v;
  fo_key_len : key_len h = Z.of_nat (length key);
  fo_data_len : data_len h = Z.of_nat (length v);
  fo_hash : full_hash h = hash_fn T key
}.

Lemma found_entry H ls key v o h b pre post :
  found H ls key v o h b pre post -> entry T H ls o key v.
Proof.
  intros []. split; [rewrite fo_ls0; apply elem_of_app; right; by left|].
  exists b, h. destruct fo_solid0. done.
Qed.

Lemma found_mem_ok H ls key v o h b pre post :
  found H ls key v o h b pre post -> mem_ok T (BUCKET T (hash_fn T key)) b h.
Proof.
  intros []. right. split; [apply (BUCKET_index T)|]. rewrite fo_hash0. split; [|done].
  left. split; [done|]. by exists key, v.
Qed.

(** No record of the chain part [l] has the key. *)
Definition none_in H (l : list Z) (key : list Z) : Prop :=
  forall o v, o ∈ l -> ~ live_at (h_blks H) o key v.

Lemma none_in_snoc H l o key :
  none_in H l key -> (forall v, ~ live_at (h_blks H) o key v) -> none_in H (l ++ [o]) key.
Proof.
  intros Hl Ho p v [Hp| ->%list_elem_of_singleton]%elem_of_app; [by apply Hl|done].
Qed.

Lemma none_in_entry H ls key o v :
  none_in H (ls (BUCKET T (hash_fn T key))) key -> ~ entry T H ls o key v.
Proof. intros Hn [Ho Hl]. by eapply Hn. Qed.

Lemma find_key_loop_ok H ls X Y L key fuel pre rest s
    (Q : option (Z * list_struct) -> tdb_context -> Prop) :
  holds T H L s -> wf T H ls X Y -> ls (BUCKET T (hash_fn T key)) = pre ++ rest ->
  (length rest < fuel)%nat -> none_in H pre key ->
  (forall s' o h b v pre' post, holds T H L s' -> found H ls key v o h b pre' post ->
     Q (Some (o, h)) s') ->
  (forall s', holds T H L s' -> ecode s' = TDB_ERR_NOEXIST ->
     none_in H (ls (BUCKET T (hash_fn T key))) key -> Q None s') ->
  wp (find_loop T fuel key (hash_fn T key) (head_of rest)) Q s.
Proof.
  revert pre rest s. induction fuel as [|fuel IH]; intros pre rest s Hs Hw El Hf Hnone HQ HQn; [lia|].
  simpl. destruct rest as [|o rest]; simpl.
  { apply wp_errcode, HQn; [by apply holds_set_ecode|done|]. by rewrite El, app_nil_r. }
  destruct (chain_rec T _ _ _ _ _ _ _ _ Hw (BUCKET_index T _) El)
    as (b & h & Hb & [Hh Ht] & Hm & Hbad & Hnx & Hn).
  destruct (blk_word _ _ _ _ _ _ Hs Hb) as (Hwo & _ & Hmin & Hpos & Hmax). unfold word in Hwo.
  unfold head_of. simpl. rewrite (proj2 (Z.eqb_neq o 0)) by lia.
  apply wp_some. eapply (wp_tdb_rec_read T); [done..|]. intros s1 Hs1. rewrite Hn.
  assert (forall s, holds T H L s -> (forall v, ~ live_at (h_blks H) o key v) ->
    wp (find_loop T fuel key (hash_fn T key) (head_of rest)) Q s) as Hgo.
  { intros s2 Hs2 Ho. apply (IH (pre ++ [o])); try done.
    - by rewrite <- app_assoc.
    - simpl in Hf. lia.
    - by apply none_in_snoc. }
  destruct Hm as [[Hi _]|(_ & Hm & _)]; [pose proof (BUCKET_index T (hash_fn T key)); unfold bucket_index in *; lia|].
  destruct Hm as [(Hmag & k & v & Hd & Hkl & Hvl & Hfh)|Hdead].
  - unfold TDB_DEAD. rewrite Hmag. change (TDB_MAGIC =? TDB_DEAD_MAGIC) with false. simpl.
    destruct ((hash_fn T key =? full_hash h) && (Z.of_nat (length key) =? key_len h)) eqn:E.
    + bool_hyps. apply wp_bind. unfold sizeof_rec. rewrite u32_small by lia.
      rewrite <- Hkl. replace (o + 24) with (o + 24 + Z.of_nat 0) by lia.
      eapply wp_parse_data; [done|done|rewrite Hd, length_app; lia|]. intros s2 Hs2.
      rewrite drop_0, Hd, take_app_length. apply wp_ret.
      destruct (memcmp k key =? 0) eqn:Ec; bool_hyps.
      * apply memcmp_eq in Ec as ->; [|lia]. eapply HQ; [done|]. by split.
      * apply Hgo; [done|]. intros v' (b' & h' & Hb' & Hh' & _ & Hd' & Hl'). simplify_eq.
        apply Ec. apply memcmp_eq; [lia|]. rewrite Hd in Hd'. apply app_inj_1 in Hd' as [? _]; [done|lia].
    + apply Hgo; [done|]. intros v' (b' & h' & Hb' & Hh' & _ & Hd' & Hl'). simplify_eq.
      rewrite Hd in Hd'. assert (length k = length key) as Hlk by lia.
      apply app_inj_1 in Hd' as [-> _]; [|done]. rewrite Hfh, Z.eqb_refl in E. simpl in E. bool_hyps. lia.
  - unfold TDB_DEAD. rewrite Hdead, Z.eqb_refl. simpl. apply Hgo; [done|].
    intros v' (b' & h' & Hb' & Hh' & Hm' & _). simplify_eq. rewrite Hm' in Hdead. vm_compute in Hdead. discriminate.
Qed.

Lemma walk_fuel_ok H ls X Y L i s :
  holds T H L s -> wf T H ls X Y -> list_index T i -> (length (ls i) < walk_fuel s)%nat.
Proof.
  intros Hs Hw Hi.
  pose proof (path_fuel _ _ _ _ _ (ho_rep _ _ _ _ Hs) (wf_path _ _ _ _ _ Hw i Hi)).
  unfold walk_fuel. lia.
Qed.

(** Reading the head of a chain. *)
Lemma wp_chain_top H ls X Y L hash s (Q : option Z -> tdb_context -> Prop) :
  holds T H L s -> wf T H ls X Y ->
  (forall s', holds T H L s' -> Q (Some (head_of (ls (BUCKET T hash)))) s') ->
  wp (tdb_ofs_read T (TDB_HASH_TOP T hash)) Q s.
Proof.
  intros Hs Hw HQ. rewrite HASH_TOP_addr. pose proof (chain_index hash) as Hi.
  rewrite <- (path_head _ _ _ (wf_path _ _ _ _ _ Hw _ Hi)) in HQ.
  by eapply (wp_ofs_read_top T).
Qed.

Lemma wp_find H ls X Y L key s (Q : option (Z * list_struct) -> tdb_context -> Prop) :
  holds T H L s -> wf T H ls X Y ->
  (forall s' o h b v pre' post, holds T H L s' -> found H ls key v o h b pre' post ->
     Q (Some (o, h)) s') ->
  (forall s', holds T H L s' -> ecode s' = TDB_ERR_NOEXIST ->
     none_in H (ls (BUCKET T (hash_fn T key))) key -> Q None s') ->
  wp (tdb_find T key (hash_fn T key)) Q s.
Proof.
  intros Hs Hw HQ HQn. unfold tdb_find. apply wp_some. eapply wp_chain_top; [done..|].
  intros s1 Hs1. apply wp_bind, wp_get.
  apply (find_key_loop_ok H ls X Y L key (walk_fuel s1) [] (ls (BUCKET T (hash_fn T key)))); try done.
  - eapply walk_fuel_ok; [done..|]. apply chain_index.
  - intros o v Ho. by apply elem_of_nil in Ho.
Qed.

(** With the contents of the database. *)
Lemma found_contents H ls key v o h b pre post M :
  contents (entry T H ls) M -> found H ls key v o h b pre post -> M !! key = Some v.
Proof. intros [Hc _] Hf. apply Hc. exists o. by eapply found_entry. Qed.

Lemma none_contents H ls key M :
  contents (entry T H ls) M -> none_in H (ls (BUCKET T (hash_fn T key))) key -> M !! key = None.
Proof.
  intros [Hc _] Hn. destruct (M !! key) as [v|] eqn:E; [|done].
  apply Hc in E as [o Ho]. by apply none_in_entry in Ho.
Qed.

Lemma wp_find_lock H ls X Y L key ty s (Q : option (Z * list_struct) -> tdb_context -> Prop) :
  locks_ok L -> ty <> F_UNLCK -> holds T H L s -> wf T H ls X Y ->
  (forall s' o h b v pre' post,
     holds T H (push_lock T (BUCKET T (hash_fn T key)) ty L) s' ->
     found H ls key v o h b pre' post -> Q (Some (o, h)) s') ->
  (forall s', holds T H L s' -> ecode s' = TDB_ERR_NOEXIST ->
     none_in H (ls (BUCKET T (hash_fn T key))) key -> Q None s') ->
  wp (tdb_find_lock_hash T key (hash_fn T key) ty) Q s.
Proof.
  intros HL Hty Hs Hw HQ HQn. pose proof (chain_index (hash_fn T key)) as Hi.
  unfold tdb_find_lock_hash. apply wp_check. eapply (wp_lock T); [done..|]. intros s1 Hs1 _.
  apply wp_bind. eapply wp_find; [done..| |].
  - intros s2 o h b v pre post Hs2 Hf. by eapply HQ.
  - intros s2 Hs2 He Hn. apply wp_bind. apply (wp_unlock T _ ty H L); try done.
    intros s3 Hs3 He3. apply wp_ret, HQn; [done|congruence|done].
Qed.

(** ** Reading operations *)

Lemma found_sizes H ls L s key v o h b pre post :
  holds T H L s -> found H ls key v o h b pre post ->
  0 < o /\ b_size b = 24 + rec_len h /\ Z.of_nat (length key + length v) <= rec_len h - 4
  /\ o + b_size b < 2 ^ 32 /\ rec_typed h.
Proof.
  intros Hs []. destruct (blk_word _ _ _ _ _ _ Hs fo_blk0) as (_ & _ & _ & ? & ?).
  destruct (rep_blks _ _ _ (ho_rep _ _ _ _ Hs) _ _ fo_blk0) as [Hh _ [Hd _]].
  destruct fo_solid0 as [Eh _]. destruct (Hh h Eh) as (? & ? & _).
  rewrite fo_data0, length_app in Hd. split_and!; try done; lia.
Qed.

(** The result of [tdb_fetch] for a key with the data [o]. *)
Definition fetched (o : option (list Z)) (r : option (list Z) * Z) : Prop :=
  match o with
  | None => r = (None, 0)
  | Some v => exists d, r = (Some d, Z.of_nat (length v)) /\ take (length v) d = v
  end.

Lemma fetched_data o r : fetched o r -> take (Z.to_nat (snd r)) <$> fst r = o.
Proof.
  destruct o as [v|]; simpl; [|by intros ->]. intros (d & -> & Hd). simpl. by rewrite Nat2Z.id, Hd.
Qed.

Lemma wp_fetch_data H ls X Y L key M s (Q : option (list Z) * Z -> tdb_context -> Prop) :
  locks_ok L -> holds T H L s -> wf T H ls X Y -> contents (entry T H ls) M ->
  (forall r s', holds T H L s' -> (M !! key = None -> ecode s' = TDB_ERR_NOEXIST) ->
     fetched (M !! key) r -> Q r s') ->
  wp (tdb_fetch_data T key) Q s.
Proof.
  intros HL Hs Hw Hc HQ. unfold tdb_fetch_data. apply wp_some. eapply wp_find_lock; try done.
  - intros s1 o h b v pre post Hs1 Hf. rewrite (found_contents _ _ _ _ _ _ _ _ _ _ Hc Hf) in HQ.
    destruct (found_sizes _ _ _ _ _ _ _ _ _ _ _ Hs1 Hf) as (? & ? & ? & ? & _). destruct Hf.
    apply wp_bind. unfold sizeof_rec, tdb_alloc_read.
    rewrite fo_key_len0, fo_data_len0, u32_small by lia.
    assert (forall d s2, take (length v) d = v ->
      holds T H (push_lock T (BUCKET T (hash_fn T key)) F_RDLCK L) s2 ->
      wp (do! tdb_unlock T (BUCKET T (full_hash h)) F_RDLCK;
          c_ret (Some d, Z.of_nat (length v))) Q s2) as Hend.
    { intros d s2 Ed Hs2. apply wp_bind. rewrite fo_hash0.
      apply (wp_unlock T _ F_RDLCK H L); try done; [apply chain_index|].
      intros s3 Hs3 _. apply wp_ret, HQ; [done..|]. by exists d. }
    destruct (Z.of_nat (length v) =? 0) eqn:E; bool_hyps.
    + assert (v = []) as -> by (by destruct v).
      eapply (wp_read T); [done|lia|lia| |].
      { destruct (rep_blk_in _ _ _ _ _ (ho_rep _ _ _ _ Hs1) fo_blk0) as (? & ? & ? & _).
        simpl in *. lia. }
      intros s2 Hs2 _. by apply Hend.
    + eapply (wp_read_data T _ _ _ _ (length key)); [done|done| |].
      { rewrite fo_data0, length_app. lia. }
      intros s2 Hs2. apply Hend; [|done]. rewrite fo_data0, drop_app_length, take_take, Nat.min_id.
      by rewrite take_ge by lia.
  - intros s1 Hs1 He Hn. rewrite (none_contents _ _ _ _ Hc Hn) in HQ. by apply HQ.
Qed.

Lemma wp_exists H ls X Y L key M s (Q : bool -> tdb_context -> Prop) :
  locks_ok L -> holds T H L s -> wf T H ls X Y -> contents (entry T H ls) M ->
  (forall s', holds T H L s' -> Q (bool_decide (is_Some (M !! key))) s') ->
  wp (tdb_exists_hash T key (hash_fn T key)) Q s.
Proof.
  intros HL Hs Hw Hc HQ. unfold tdb_exists_hash. apply wp_some. eapply wp_find_lock; try done.
  - intros s1 o h b v pre post Hs1 Hf. rewrite (found_contents _ _ _ _ _ _ _ _ _ _ Hc Hf) in HQ.
    apply wp_bind. rewrite (fo_hash _ _ _ _ _ _ _ _ _ Hf).
    apply (wp_unlock T _ F_RDLCK H L); try done; [apply chain_index|].
    intros s2 Hs2 _. apply wp_ret. by apply HQ.
  - intros s1 Hs1 He Hn. rewrite (none_contents _ _ _ _ Hc Hn) in HQ. by apply HQ.
Qed.

End chains.

(** ** Changing a record in its place *)

Section update.
Context (T : tdb_config) {GC : GoodConfig T}.
Implicit Types (H : heap) (ls : Z -> list Z) (X Y : gset Z).

(** The entries when one block changes. *)
Lemma entry_set_blk H ls o b' p k v :
  entry T (set_blk H o b') ls p k v <->
  (p = o /\ o ∈ ls (BUCKET T (hash_fn T k)) /\ live_at {[o := b']} o k v) \/
  (p <> o /\ entry T H ls p k v).
Proof.
  unfold entry, live_at. simpl. destruct (decide (p = o)) as [->|Hne].
  - rewrite lookup_insert_eq, lookup_singleton_eq. naive_solver.
  - rewrite lookup_insert_ne by done. naive_solver.
Qed.

Lemma live_at_singleton o b' h k v k' v' :
  b_hdr b' = Some h -> magic h = TDB_MAGIC -> b_data b' = k ++ v ->
  key_len h = Z.of_nat (length k) -> live_at {[o := b']} o k' v' <-> k' = k /\ v' = v.
Proof.
  intros Hh Hm Hd Hl. assert (live_at {[o := b']} o k v) as Hlive.
  { exists b', h. by rewrite lookup_singleton_eq. }
  split; [|by intros [-> ->]]. intros Hl'. by destruct (live_at_inj _ _ _ _ _ _ Hl' Hlive).
Qed.

Lemma dead_not_live B o b h k v :
  B !! o = Some b -> b_hdr b = Some h -> magic h = TDB_DEAD_MAGIC -> ~ live_at B o k v.
Proof.
  intros Hb Hh Hm (b' & h' & Hb' & Hh' & Hm' & _). simplify_eq. rewrite Hm' in Hm.
  vm_compute in Hm. discriminate.
Qed.

(** An entry gets other data, or an entry is made of a dead record. *)
Lemma contents_set_live H ls M o b' h key v :
  contents (fun p k v => p <> o /\ entry T H ls p k v) M -> M !! key = None ->
  o ∈ ls (BUCKET T (hash_fn T key)) ->
  b_hdr b' = Some h -> magic h = TDB_MAGIC -> b_data b' = key ++ v ->
  key_len h = Z.of_nat (length key) ->
  contents (entry T (set_blk H o b') ls) (<[key := v]> M).
Proof.
  intros Hc Hk Ho Hh Hm Hd Hl. eapply contents_iff; [|by apply (contents_insert _ _ o key v Hc)].
  intros p k v'. rewrite entry_set_blk. simpl. rewrite (live_at_singleton o b' h key v) by done.
  naive_solver.
Qed.

Lemma contents_set_dead H ls M o b' h :
  contents (fun p k v => p <> o /\ entry T H ls p k v) M ->
  b_hdr b' = Some h -> magic h = TDB_DEAD_MAGIC ->
  contents (entry T (set_blk H o b') ls) M.
Proof.
  intros Hc Hh Hm. eapply contents_iff; [|exact Hc]. intros p k v. rewrite entry_set_blk. simpl.
  split; [by right|]. intros [(-> & _ & Hl)|?]; [|done].
  exfalso. eapply dead_not_live; [|done..|exact Hl]. apply lookup_singleton_eq.
Qed.

(** Without the entry of [key], the rest. *)
Lemma contents_without H ls M key v o h b pre post :
  contents (entry T H ls) M -> found T H ls key v o h b pre post ->
  contents (fun p k v => p <> o /\ entry T H ls p k v) (delete key M).
Proof.
  intros Hc Hf. pose proof (found_entry T _ _ _ _ _ _ _ _ _ Hf) as He.
  eapply contents_delete; [done|exact He|]. intros k' v' [_ Hl].
  destruct He as [_ Hl0]. by destruct (live_at_inj _ _ _ _ _ _ Hl Hl0).
Qed.

(** Without a dead record, the same. *)
Lemma contents_without_dead H ls M o b h :
  contents (entry T H ls) M -> h_blks H !! o = Some b -> b_hdr b = Some h ->
  magic h = TDB_DEAD_MAGIC ->
  contents (fun p k v => p <> o /\ entry T H ls p k v) M.
Proof.
  intros Hc Hb Hh Hm. eapply contents_iff; [|exact Hc]. intros p k v. split; [|by intros []].
  intros He. split; [|done]. intros ->. destruct He as [_ Hl]. by eapply dead_not_live.
Qed.

Lemma set_blk_twice H o b1 b2 : set_blk (set_blk H o b1) o b2 = set_blk H o b2.
Proof. unfold set_blk, set_blks. simpl. by rewrite insert_insert_eq. Qed.

Lemma rec_typed_data_len h n : rec_typed h -> word n ->
  rec_typed (mk_rec (next h) (rec_len h) (key_len h) n (full_hash h) (magic h)).
Proof.
  unfold rec_typed. simpl. intros Hr Hn.
  repeat (inversion Hr as [|? ? ? Hr']; subst; clear Hr; rename Hr' into Hr).
  by repeat (constructor; [assumption|]).
Qed.

Lemma wp_update H ls L key dbuf M s (Q : bool -> tdb_context -> Prop) :
  holds T H L s -> wf T H ls ∅ ∅ -> contents (entry T H ls) M ->
  (forall s', holds T H L s' -> ecode s' = TDB_ERR_NOEXIST -> M !! key = None -> Q false s') ->
  (forall s', holds T H L s' -> ecode s' = TDB_SUCCESS -> is_Some (M !! key) -> Q false s') ->
  (forall H' s', holds T H' L s' -> wf T H' ls ∅ ∅ -> contents (entry T H' ls) (<[key := dbuf]> M) ->
     h_end H' = h_end H -> h_seq H' = h_seq H -> is_Some (M !! key) -> Q true s') ->
  wp (tdb_update_hash T key (hash_fn T key) dbuf) Q s.
Proof.
  intros Hs Hw Hc HQn HQs HQ. unfold tdb_update_hash. apply wp_some. eapply (wp_find T); [done..| |].
  2: { intros s1 Hs1 He Hn. apply HQn; try done. by eapply none_contents. }
  intros s1 o h b v pre post Hs1 Hf. pose proof (found_contents T _ _ _ _ _ _ _ _ _ _ Hc Hf) as HM.
  destruct (found_sizes T _ _ _ _ _ _ _ _ _ _ _ Hs1 Hf) as (Hpos & Hsz & Hlen & Hmax & Hty).
  destruct (rec_len h <? _) eqn:E; bool_hyps.
  { apply wp_errcode, HQs; [by apply holds_set_ecode|done|eauto]. }
  pose proof (contents_without _ _ _ _ _ _ _ _ _ _ Hc Hf) as Hcw.
  pose proof (found_mem_ok T _ _ _ _ _ _ _ _ _ Hf) as Hmem. destruct Hf.
  destruct fo_solid0 as [Hh Ht].
  set (b1 := set_data b (take (length key) (b_data b) ++ dbuf)).
  assert (b_data b1 = key ++ dbuf) as Hd1.
  { unfold b1. simpl. by rewrite fo_data0, take_app_length. }
  set (h2 := mk_rec (next h) (rec_len h) (key_len h) (Z.of_nat (length dbuf)) (full_hash h) (magic h)).
  assert (forall b2 k2 s2, holds T (set_blk H o b2) L s2 -> solid b2 k2 -> next k2 = next h ->
    magic k2 = TDB_MAGIC -> b_data b2 = key ++ dbuf -> key_len k2 = Z.of_nat (length key) ->
    data_len k2 = Z.of_nat (length dbuf) -> full_hash k2 = hash_fn T key -> Q true s2) as Hend.
  { intros b2 k2 s2 Hs2 Hs2' Hn2 Hm2 Hd2 Hk2 Hv2 Hf2. eapply HQ; [exact Hs2|..|eauto]; try done.
    - eapply (wf_set_mem T); [done|apply (chain_index T)|by rewrite fo_ls0; apply elem_of_app; right; left|done|done|done|done|].
      right. split; [apply (BUCKET_index T)|]. rewrite Hf2. split; [|done]. left. split; [done|]. by exists key, dbuf.
    - rewrite <- (insert_delete_eq M key dbuf). eapply contents_set_live; try done.
      + apply lookup_delete_eq.
      + rewrite fo_ls0. apply elem_of_app. right. by left.
      + apply Hs2'. }
  apply wp_check. unfold sizeof_rec. rewrite fo_key_len0, u32_small by lia.
  eapply (wp_write_data T); [done|done|rewrite fo_data0, length_app; lia|lia|]. intros s2 Hs2.
  fold b1 in Hs2. destruct (Z.of_nat (length dbuf) =? data_len h) eqn:El; bool_hyps; simpl.
  - apply wp_ret. eapply (Hend b1 h); try done; lia.
  - rewrite u32_small by lia. rewrite <- fo_key_len0. fold h2.
    eapply (wp_rec_write T); [done|apply lookup_insert_eq| |done|].
    { apply rec_typed_data_len; [done|]. unfold word. lia. }
    intros s3 Hs3. rewrite set_blk_twice in Hs3. by eapply (Hend _ h2).
Qed.

(** ** Deleting *)

Lemma prev_loop_ok H ls X Y L i o post fuel pre1 pre2 s
    (Q : option Z -> tdb_context -> Prop) :
  holds T H L s -> wf T H ls X Y -> bucket_index T i ->
  ls i = pre1 ++ pre2 ++ o :: post -> (length pre2 < fuel)%nat ->
  (forall s', holds T H L s' -> Q (Some (default 0 (last (pre1 ++ pre2)))) s') ->
  wp (prev_loop T fuel o (default 0 (last pre1)) (head_of (pre2 ++ o :: post))) Q s.
Proof.
  revert pre1 pre2 s. induction fuel as [|fuel IH]; intros pre1 pre2 s Hs Hw Hi El Hf HQ; [lia|].
  simpl. destruct pre2 as [|x pre2]; unfold head_of; simpl.
  - rewrite Z.eqb_refl. apply wp_ret. rewrite app_nil_r in HQ. by apply HQ.
  - pose proof (path_nodup _ _ _ (wf_path _ _ _ _ _ Hw i (bucket_list T i Hi))) as Hnd.
    rewrite El in Hnd. apply NoDup_app in Hnd as (_ & _ & Hnd). simpl in Hnd.
    apply NoDup_cons in Hnd as [Hx _].
    rewrite (proj2 (Z.eqb_neq x o)) by (intros ->; apply Hx, elem_of_app; right; by left).
    destruct (chain_rec T _ _ _ _ _ _ _ _ Hw Hi El) as (b & h & Hb & [Hh Ht] & Hm & Hbad & Hnx & Hn).
    apply wp_some. eapply (wp_tdb_rec_read T); [done..|]. intros s1 Hs1. rewrite Hn.
    replace x with (default 0 (last (pre1 ++ [x]))) at 1 by (by rewrite last_snoc).
    apply (IH (pre1 ++ [x]) pre2); [done|done|done|..].
    + by rewrite <- app_assoc.
    + simpl in Hf. lia.
    + by rewrite <- app_assoc.
Qed.

Lemma entry_unlink H ls X Y i pre o post h p k v :
  wf T H ls X Y -> list_index T i -> ls i = pre ++ o :: post ->
  entry T (link H i pre (next h)) (<[i := pre ++ post]> ls) p k v <-> p <> o /\ entry T H ls p k v.
Proof.
  intros Hw Hi El. unfold entry.
  pose proof (path_nodup _ _ _ (wf_path _ _ _ _ _ Hw i Hi)) as Hnd. rewrite El in Hnd.
  assert (p ∈ (<[i := pre ++ post]> ls) (BUCKET T (hash_fn T k)) <->
          p <> o /\ p ∈ ls (BUCKET T (hash_fn T k))) as Hls.
  { destruct (decide (i = BUCKET T (hash_fn T k))) as [<-|Hne].
    - rewrite fn_lookup_insert, El, !elem_of_app, elem_of_cons.
      apply NoDup_app in Hnd as (_ & Hd & Hnd). apply NoDup_cons in Hnd as [Ho _].
      split; [|naive_solver]. intros [Hp|Hp].
      + split; [|by auto]. intros ->. apply (Hd o Hp). by left.
      + split; [|by auto]. intros ->. done.
    - rewrite fn_lookup_insert_ne by done. split; [|by intros []]. intros Hp. split; [|done].
      intros ->. apply Hne. eapply (wf_disjoint T); [done|done|apply (chain_index T)|..|done].
      rewrite El. apply elem_of_app. right. by left. }
  rewrite Hls. split.
  - intros [[Hne Hp] (b' & h' & Hb' & Hh' & Hm & Hd & Hl)]. split; [done|]. split; [done|].
    assert (is_Some (h_blks H !! p)) as [b Hb] by (rewrite <- (link_is_Some H i pre (next h)); eauto).
    destruct (link_lookup_Some H i pre (next h) p b Hb) as (b2 & Hb2 & _ & _ & Hd2 & Hcase).
    simplify_eq. destruct Hcase as [->|(k0 & Hk0 & Hk1)]; [by exists b, h'|].
    simplify_eq. exists b, k0. rewrite <- Hd2. done.
  - intros [Hne [Hp (b & h' & Hb & Hh & Hm & Hd & Hl)]]. split; [done|].
    destruct (link_lookup_Some H i pre (next h) p b Hb) as (b2 & Hb2 & _ & _ & Hd2 & Hcase).
    destruct Hcase as [->|(k0 & Hk0 & Hk1)]; [by exists b, h'|]. simplify_eq.
    exists b2, (with_next h' (next h)). rewrite Hd2. done.
Qed.

(** A record of a chain is deleted, or marked as dead when a traversal is at
    it. *)
Lemma wp_do_delete H ls X L i pre o post b h M s (Q : bool -> tdb_context -> Prop) :
  locks_ok L -> holds T H L s -> wf T H ls X ∅ -> bucket_index T i -> ls i = pre ++ o :: post ->
  h_blks H !! o = Some b -> b_hdr b = Some h ->
  contents (fun p k v => p <> o /\ entry T H ls p k v) M ->
  (forall H' ls' pre' s', holds T H' L s' -> wf T H' ls' X ∅ -> contents (entry T H' ls') M ->
     h_end H' = h_end H -> h_seq H' = h_seq H -> ls' i = pre' ++ post -> Q true s') ->
  wp (tdb_do_delete T o h) Q s.
Proof.
  intros HL Hs Hw Hi El Hb Hh Hc HQ. pose proof (bucket_list T i Hi) as Hli.
  destruct (chain_rec T _ _ _ _ _ _ _ _ Hw Hi El) as (b0 & h0 & Hb0 & [Hh0 Ht] & Hm & _ & Hnx & Hn).
  simplify_eq.
  destruct (blk_word _ _ _ _ _ _ Hs Hb) as (Hwo & _ & _ & Hpos & Hmax).
  destruct (bo_hdr _ _ _ _ (rep_blks _ _ _ (ho_rep _ _ _ _ Hs) _ _ Hb) h Hh) as (Hty & Hsz & _).
  assert (BUCKET T (full_hash h) = i) as Hbk.
  { destruct Hm as [[-> _]|(_ & _ & ?)]; [unfold bucket_index in Hi; lia|done]. }
  unfold tdb_do_delete. apply wp_bind, wp_get. rewrite (no_writes_holds _ _ _ _ Hs).
  apply wp_bind. unfold tdb_write_lock_record. apply wp_bind, wp_get.
  assert (forall ok s1, holds T H L s1 -> wp (if negb ok then tdb_rec_write T o (with_magic h TDB_DEAD_MAGIC)
    else do?! tdb_write_unlock_record T o else false;
         do? i <- tdb_ofs_read T (TDB_HASH_TOP T (full_hash h)) else false;
         do s <- c_get;
         do? last_ptr <- prev_loop T (walk_fuel s) o 0 i else false;
         let last_ptr := if last_ptr =? 0 then TDB_HASH_TOP T (full_hash h) else last_ptr in
         do?! tdb_ofs_write T last_ptr (next h) else false;
         tdb_free T o h) Q s1) as Hrest.
  2: { destruct (existsb _ _); [apply wp_ret; by apply Hrest|].
       eapply (wp_brlock_try T); [done|]. intros ok s1 Hs1. by apply Hrest. }
  intros [|] s1 Hs1; simpl.
  - apply wp_check. eapply (wp_brlock T); [by right|done|].
    apply wp_some. eapply wp_chain_top; [done..|]. intros s2 Hs2. rewrite Hbk, El.
    apply wp_bind, wp_get, wp_some.
    apply (prev_loop_ok H ls X ∅ L i o post (walk_fuel s2) [] pre); try done.
    { pose proof (walk_fuel_ok T _ _ _ _ _ i s2 Hs2 Hw Hli) as Hf. rewrite El, length_app in Hf.
      simpl in Hf. lia. }
    intros s3 Hs3. simpl app. cbv zeta. rewrite HASH_TOP_addr, Hbk.
    replace (if default 0 (last pre) =? 0 then top_addr i else default 0 (last pre)) with (link_addr i pre).
    2: { unfold link_addr. destruct (last pre) as [p|] eqn:Ep; simpl; [|done].
         rewrite (proj2 (Z.eqb_neq p 0)); [done|]. apply last_Some in Ep as [pre' ->].
         rewrite <- app_assoc in El. simpl in El.
         destruct (chain_rec T _ _ _ _ _ _ _ _ Hw Hi El) as (bp & hp & Hbp & _).
         destruct (blk_word _ _ _ _ _ _ Hs Hbp) as (_ & _ & _ & ? & _). lia. }
    apply wp_check. eapply (wp_ofs_write_link T); [done|done|done|exact El| |].
    { unfold rec_typed in Hty. by inversion Hty. }
    intros s4 Hs4.
    assert (o ∉ pre) as Hopre.
    { pose proof (path_nodup _ _ _ (wf_path _ _ _ _ _ Hw i Hli)) as Hnd. rewrite El in Hnd.
      apply NoDup_app in Hnd as (_ & Hd & _). intros Hin. apply (Hd o Hin). by left. }
    assert (wf T (link H i pre (next h)) (<[i:=pre ++ post]> ls) X {[o]}) as Hw4.
    { replace ({[o]} : gset Z) with ({[o]} ∪ ∅ : gset Z) by set_solver. by eapply wf_unlink. }
    eapply (wp_tdb_free T); [done|exact Hs4|exact Hw4|rewrite link_lookup by done; exact Hb|by split|].
    intros H5 ls5 s5 Hs5 Hw5 Hk5 He5 _. destruct (link_end H i pre (next h)) as [E1 E2].
    eapply (HQ _ ls5 pre); [exact Hs5|done|..].
    + eapply (contents_keeps T); [exact Hw4|exact Hk5|]. eapply contents_iff; [|exact Hc].
      intros p k v. symmetry. by eapply entry_unlink.
    + congruence.
    + rewrite (ke_seq _ _ _ _ _ _ Hk5). congruence.
    + rewrite (ke_ls _ _ _ _ _ _ Hk5) by done. by rewrite fn_lookup_insert.
  - assert (rec_typed (with_magic h TDB_DEAD_MAGIC)) as Hty'.
    { replace (with_magic h TDB_DEAD_MAGIC) with (with_magic (with_rec_len h (rec_len h)) TDB_DEAD_MAGIC)
        by (by destruct h).
      apply rec_typed_magic; [done|unfold word; destruct (blk_word _ _ _ _ _ _ Hs Hb) as (_ & ? & ? & _)|by vm_compute].
      unfold rec_typed in Hty. inversion Hty as [|? ? _ Hty2]; subst. by inversion Hty2. }
    eapply (wp_rec_write T); [done|done|done|done|]. intros s2 Hs2.
    eapply (HQ _ ls (pre ++ [o])); [exact Hs2|..]; try done.
    + eapply (wf_set_mem T _ _ _ _ i o b h _ (with_magic h TDB_DEAD_MAGIC)); try done.
      * rewrite El. apply elem_of_app. right. by left.
      * right. split; [done|]. split; [by right|done].
    + by eapply contents_set_dead.
    + by rewrite El, <- app_assoc.
Qed.

Lemma count_dead_loop_ok H ls X Y L i fuel pre rest n s (Q : Z -> tdb_context -> Prop) :
  holds T H L s -> wf T H ls X Y -> bucket_index T i -> ls i = pre ++ rest ->
  (length rest < fuel)%nat -> (forall n s', holds T H L s' -> Q n s') ->
  wp (count_dead_loop T fuel n (head_of rest)) Q s.
Proof.
  revert pre rest n s. induction fuel as [|fuel IH]; intros pre rest n s Hs Hw Hi El Hf HQ; [lia|].
  simpl. destruct rest as [|o rest]; simpl; [by apply HQ|].
  destruct (chain_rec T _ _ _ _ _ _ _ _ Hw Hi El) as (b & h & Hb & [Hh Ht] & Hm & Hbad & Hnx & Hn).
  destruct (blk_word _ _ _ _ _ _ Hs Hb) as (_ & _ & _ & Hpos & _).
  unfold head_of. simpl. rewrite (proj2 (Z.eqb_neq o 0)) by lia.
  apply wp_some. eapply (wp_tdb_rec_read T); [done..|]. intros s1 Hs1. rewrite Hn.
  apply (IH (pre ++ [o])); try done; [by rewrite <- app_assoc|simpl in Hf; lia].
Qed.

Lemma wp_count_dead H ls X Y L hash s (Q : Z -> tdb_context -> Prop) :
  holds T H L s -> wf T H ls X Y -> (forall n s', holds T H L s' -> Q n s') ->
  wp (tdb_count_dead T hash) Q s.
Proof.
  intros Hs Hw HQ. unfold tdb_count_dead. apply wp_some. eapply wp_chain_top; [done..|].
  intros s1 Hs1. apply wp_bind, wp_get.
  apply (count_dead_loop_ok H ls X Y L (BUCKET T hash) (walk_fuel s1) []); try done.
  - apply (BUCKET_index T).
  - eapply (walk_fuel_ok T); [done..|apply (chain_index T)].
Qed.

(** Purging leaves the contents. *)
Lemma purge_loop_ok L i M e n fuel : bucket_index T i -> locks_ok L -> forall H ls X pre rest s
    (Q : bool -> tdb_context -> Prop),
  holds T H L s -> wf T H ls X ∅ -> contents (entry T H ls) M -> h_end H = e -> h_seq H = n ->
  ls i = pre ++ rest -> (length rest < fuel)%nat ->
  (forall H' ls' s', holds T H' L s' -> wf T H' ls' X ∅ -> contents (entry T H' ls') M ->
     h_end H' = e -> h_seq H' = n -> Q true s') ->
  wp (purge_loop T fuel (head_of rest)) Q s.
Proof.
  intros Hi HL. induction fuel as [|fuel IH]; intros H ls X pre rest s Q Hs Hw Hc He Hn El Hf HQ; [lia|].
  simpl. destruct rest as [|o rest]; simpl; [by eapply HQ|].
  destruct (chain_rec T _ _ _ _ _ _ _ _ Hw Hi El) as (b & h & Hb & [Hh Ht] & Hm & Hbad & Hnx & Hnext).
  destruct (blk_word _ _ _ _ _ _ Hs Hb) as (_ & _ & _ & Hpos & _).
  unfold head_of. simpl. rewrite (proj2 (Z.eqb_neq o 0)) by lia.
  apply wp_some. eapply (wp_tdb_rec_read T); [done..|]. intros s1 Hs1. rewrite Hnext.
  apply wp_check. destruct (magic h =? TDB_DEAD_MAGIC) eqn:Em; bool_hyps.
  - eapply wp_do_delete; [done|exact Hs1|done|exact Hi|exact El|done|done|..].
    { by eapply contents_without_dead. }
    intros H' ls' pre' s' Hs' Hw' Hc' He' Hn' El'.
    eapply (IH H' ls' X pre'); try done; [congruence|congruence|simpl in Hf; lia].
  - apply wp_ret. eapply (IH H ls X (pre ++ [o])); try done; [by rewrite <- app_assoc|simpl in Hf; lia].
Qed.

Lemma wp_purge_dead H ls X L hash M s (Q : bool -> tdb_context -> Prop) :
  locks_ok L -> holds T H L s -> wf T H ls X ∅ -> contents (entry T H ls) M ->
  (forall H' ls' s', holds T H' L s' -> wf T H' ls' X ∅ -> contents (entry T H' ls') M ->
     h_end H' = h_end H -> h_seq H' = h_seq H -> Q true s') ->
  wp (tdb_purge_dead T hash) Q s.
Proof.
  intros HL Hs Hw Hc HQ. pose proof (free_index T) as Hfi. unfold tdb_purge_dead.
  apply wp_check. eapply (wp_lock T); [done..|]. intros s1 Hs1 _. apply wp_bind.
  apply wp_some. eapply wp_chain_top; [done..|]. intros s2 Hs2. apply wp_bind, wp_get.
  eapply (purge_loop_ok _ (BUCKET T hash) M (h_end H) (h_seq H) (walk_fuel s2)) with (pre := []);
    [apply (BUCKET_index T)|by apply locks_ok_push|exact Hs2|done|done|done|done|done|..].
  - eapply (walk_fuel_ok T); [done..|apply (chain_index T)].
  - intros H' ls' s3 Hs3 Hw3 Hc3 He3 Hn3. apply wp_bind.
    apply (wp_unlock T (-1) F_WRLCK H' L); try done. intros s4 Hs4 _. apply wp_ret. by eapply HQ.
Qed.

End update.

(** ** The operations *)

Section operations.
Context (T : tdb_config) {GC : GoodConfig T}.
Implicit Types (H : heap) (ls : Z -> list Z) (M : gmap (list Z) (list Z)).

(** [s] is a database with the contents [M], the sequence number [n] and a file
    of [e] bytes; its context has the locks [L]. *)
Definition db M (n e : Z) L (s : tdb_context) : Prop :=
  exists H ls, holds T H L s /\ wf T H ls ∅ ∅ /\ contents (entry T H ls) M
    /\ h_seq H = n /\ h_end H = e.

Lemma db_intro H ls M n e L s :
  holds T H L s -> wf T H ls ∅ ∅ -> contents (entry T H ls) M -> h_seq H = n -> h_end H = e ->
  db M n e L s.
Proof. intros. by exists H, ls. Qed.

Definition bump (n : Z) : Z := if flag T TDB_SEQNUM then u32 (n + 1) else n.

Lemma db_set_ecode M n e L s c : db M n e L s -> db M n e L (set_ecode s c).
Proof. intros (H & ls & Hs & ?). exists H, ls. split; [by apply holds_set_ecode|done]. Qed.

Lemma wf_set_seq H ls X Y n : wf T H ls X Y -> wf T (set_seq H n) ls X Y.
Proof. intros []. by split. Qed.

Lemma wp_increment M n e L s (Q : unit -> tdb_context -> Prop) :
  db M n e L s -> (forall s', db M (bump n) e L s' -> Q tt s') ->
  wp (tdb_increment_seqnum T) Q s.
Proof.
  intros (H & ls & Hs & Hw & Hc & <- & <-) HQ. unfold tdb_increment_seqnum, bump in *.
  destruct (flag T TDB_SEQNUM) eqn:Ef; simpl; [|apply wp_ret, HQ; by exists H, ls].
  apply wp_check. eapply (wp_brlock T); [by left|done|]. apply wp_bind.
  unfold tdb_increment_seqnum_nonblock. rewrite Ef. simpl. apply wp_bind.
  eapply (wp_ofs_read_seq T); [done|]. intros s1 Hs1. apply wp_bind. simpl.
  eapply (wp_ofs_write_seq T); [done|apply u32_range|]. intros s2 Hs2. apply wp_ret, wp_bind.
  eapply (wp_brlock T); [by left|done|]. apply wp_ret, HQ.
  exists (set_seq H (u32 (h_seq H + 1))), ls. split; [done|]. split; [by apply wf_set_seq|done].
Qed.

Lemma wp_delete_hash M n e L key s (Q : bool -> tdb_context -> Prop) :
  locks_ok L -> db M n e L s ->
  (forall s', db (delete key M) (bump n) e L s' -> is_Some (M !! key) -> Q true s') ->
  (forall s', db M n e L s' -> ecode s' = TDB_ERR_NOEXIST -> M !! key = None -> Q false s') ->
  wp (tdb_delete_hash T key (hash_fn T key)) Q s.
Proof.
  intros HL (H & ls & Hs & Hw & Hc & <- & <-) HQ HQn.
  pose proof (chain_index T (hash_fn T key)) as Hi. set (B := BUCKET T (hash_fn T key)) in *.
  assert (locks_ok (push_lock T B F_WRLCK L)) as HL1 by (by apply locks_ok_push).
  (* the end, once the record is gone *)
  assert (forall rec s1, full_hash rec = hash_fn T key -> is_Some (M !! key) ->
    db (delete key M) (h_seq H) (h_end H) (push_lock T B F_WRLCK L) s1 ->
    wp (do! tdb_increment_seqnum T; do! tdb_unlock T (BUCKET T (full_hash rec)) F_WRLCK; c_ret true) Q s1)
    as Hend.
  { intros rec s1 -> Hsome Hdb. apply wp_bind. eapply wp_increment; [done|].
    intros s2 (H2 & ls2 & Hs2 & Hw2 & Hc2 & En & Ee). apply wp_bind.
    apply (wp_unlock T _ F_WRLCK H2 L); try done. intros s3 Hs3 _. apply wp_ret, HQ; [|done].
    by exists H2, ls2. }
  unfold tdb_delete_hash. apply wp_some. destruct (max_dead_records T =? 0); simpl.
  - apply wp_some. eapply (wp_find_lock T _ _ _ _ L); [done|done|done|done|..].
    + intros s1 o h b v pre post Hs1 Hf. apply wp_bind.
      pose proof (found_contents T _ _ _ _ _ _ _ _ _ _ Hc Hf) as HM.
      apply (wp_do_delete T H ls ∅ (push_lock T B F_WRLCK L) B pre o post b h (delete key M)); try done.
      * apply (BUCKET_index T).
      * by destruct Hf.
      * by destruct Hf.
      * by destruct Hf as [_ _ []].
      * by eapply contents_without.
      * intros H' ls' pre' s2 Hs2 Hw2 Hc2 He2 Hn2 _. apply wp_ret. apply Hend; [by destruct Hf|eauto|].
        by exists H', ls'.
    + intros s1 Hs1 He Hn. apply HQn; [by exists H, ls|done|]. by eapply (none_contents T).
  - apply wp_check. eapply (wp_lock T _ _ H L); [done..|]. intros s1 Hs1 _. apply wp_bind.
    eapply (wp_count_dead T); [done..|]. intros dead s2 Hs2. apply wp_bind.
    assert (forall H2 ls2 s3, holds T H2 (push_lock T B F_WRLCK L) s3 -> wf T H2 ls2 ∅ ∅ ->
      contents (entry T H2 ls2) M -> h_end H2 = h_end H -> h_seq H2 = h_seq H ->
      wp (do o <- tdb_find T key (hash_fn T key);
          match o with
          | None => do! tdb_unlock T B F_WRLCK; c_ret None
          | Some (rec_ptr, rec) =>
            do ret <- tdb_rec_write T rec_ptr (with_magic rec TDB_DEAD_MAGIC);
            c_ret (Some (rec, ret))
          end)
        (fun o s' => match o with
          | Some p => wp (let '(rec, ret) := p in
              do! (if ret : bool then tdb_increment_seqnum T else c_ret tt);
              do! tdb_unlock T (BUCKET T (full_hash rec)) F_WRLCK; c_ret ret) Q s'
          | None => Q false s' end) s3) as Hrest.
    { intros H2 ls2 s3 Hs3 Hw2 Hc2 He2 Hn2. apply wp_bind. eapply (wp_find T); [done..| |].
      - intros s4 o h b v pre post Hs4 Hf. apply wp_bind.
        pose proof (found_contents T _ _ _ _ _ _ _ _ _ _ Hc2 Hf) as HM.
        pose proof (contents_without T _ _ _ _ _ _ _ _ _ _ Hc2 Hf) as Hcw.
        destruct (found_sizes T _ _ _ _ _ _ _ _ _ _ _ Hs4 Hf) as (Hpos & Hsz & Hlen & Hmax & Hty).
        destruct Hf. destruct fo_solid0 as [Hh Ht].
        eapply (wp_rec_write T); [done|done| |done|].
        { replace (with_magic h TDB_DEAD_MAGIC) with (with_magic (with_rec_len h (rec_len h)) TDB_DEAD_MAGIC)
            by (by destruct h).
          apply rec_typed_magic; [done|unfold word; lia|by vm_compute]. }
        intros s5 Hs5. apply wp_ret. apply Hend; [done|eauto|].
        eapply (db_intro _ ls2); [exact Hs5|..]; try done.
        + eapply (wf_set_mem T _ _ _ _ B o b h _ (with_magic h TDB_DEAD_MAGIC)); try done.
          * fold B in fo_ls0. rewrite fo_ls0. apply elem_of_app. right. by left.
          * right. split; [by apply (BUCKET_index T)|]. split; [by right|]. simpl. by rewrite fo_hash0.
        + by eapply contents_set_dead.
      - intros s4 Hs4 He4 Hn4. apply wp_bind. apply (wp_unlock T _ F_WRLCK H2 L); try done.
        intros s5 Hs5 He5. apply wp_ret, HQn; [|congruence|by eapply (none_contents T)].
        by exists H2, ls2. }
    destruct (max_dead_records T <=? dead).
    + eapply (wp_purge_dead T); [done..|]. intros H2 ls2 s3 Hs3 Hw3 Hc3 He3 Hn3. by eapply Hrest.
    + apply wp_ret. by eapply Hrest.
Qed.

(** ** Storing *)

Lemma find_dead_loop_ok H ls X Y L i n fuel pre rest s
    (Q : option (Z * list_struct) -> tdb_context -> Prop) :
  holds T H L s -> wf T H ls X Y -> bucket_index T i -> ls i = pre ++ rest ->
  (length rest < fuel)%nat ->
  (forall s', holds T H L s' -> Q None s') ->
  (forall o h b pre' post s', holds T H L s' -> ls i = pre' ++ o :: post -> h_blks H !! o = Some b ->
     solid b h -> magic h = TDB_DEAD_MAGIC -> n <= rec_len h -> Q (Some (o, h)) s') ->
  wp (find_dead_loop T fuel n (head_of rest)) Q s.
Proof.
  revert pre rest s. induction fuel as [|fuel IH]; intros pre rest s Hs Hw Hi El Hf HQn HQ; [lia|].
  simpl. destruct rest as [|o rest]; simpl; [by apply HQn|].
  destruct (chain_rec T _ _ _ _ _ _ _ _ Hw Hi El) as (b & h & Hb & [Hh Ht] & Hm & Hbad & Hnx & Hnext).
  destruct (blk_word _ _ _ _ _ _ Hs Hb) as (_ & _ & _ & Hpos & _).
  unfold head_of. simpl. rewrite (proj2 (Z.eqb_neq o 0)) by lia.
  apply wp_some. eapply (wp_tdb_rec_read T); [done..|]. intros s1 Hs1. rewrite Hnext.
  unfold TDB_DEAD. destruct ((magic h =? TDB_DEAD_MAGIC) && (n <=? rec_len h)) eqn:E; bool_hyps.
  - apply wp_ret. by eapply HQ.
  - apply (IH (pre ++ [o])); try done; [by rewrite <- app_assoc|simpl in Hf; lia].
Qed.

Lemma wp_find_dead H ls X Y L hash n s (Q : option (Z * list_struct) -> tdb_context -> Prop) :
  holds T H L s -> wf T H ls X Y ->
  (forall s', holds T H L s' -> Q None s') ->
  (forall o h b pre post s', holds T H L s' -> ls (BUCKET T hash) = pre ++ o :: post ->
     h_blks H !! o = Some b -> solid b h -> magic h = TDB_DEAD_MAGIC -> n <= rec_len h ->
     Q (Some (o, h)) s') ->
  wp (tdb_find_dead T hash n) Q s.
Proof.
  intros Hs Hw HQn HQ. unfold tdb_find_dead. apply wp_some. eapply (wp_chain_top T); [done..|].
  intros s1 Hs1. apply wp_bind, wp_get.
  apply (find_dead_loop_ok H ls X Y L (BUCKET T hash) n (walk_fuel s1) []); try done.
  - apply (BUCKET_index T).
  - eapply (walk_fuel_ok T); [done..|apply (chain_index T)].
Qed.

Lemma store_rec_typed r nx key dbuf hash :
  rec_typed r -> word nx -> word hash -> rec_typed (store_rec r nx key dbuf hash).
Proof.
  unfold rec_typed, store_rec. simpl. intros Hr Hn Hh.
  inversion Hr as [|? ? _ Hr2]; subst. inversion Hr2; subst.
  repeat (constructor; [first [assumption | apply u32_range | apply magic_word]|]). done.
Qed.

(** Header, key and data are written to a block. *)
Lemma wp_store_at H L o b h key dbuf s (Q : bool -> tdb_context -> Prop) :
  holds T H L s -> h_blks H !! o = Some b -> rec_typed h -> b_size b = 24 + rec_len h ->
  Z.of_nat (length key) + Z.of_nat (length dbuf) + 4 <= rec_len h ->
  (forall s', holds T (set_blk H o (set_data (set_hdr b h) (key ++ dbuf))) L s' -> Q true s') ->
  wp (store_at T o h (key ++ dbuf)) Q s.
Proof.
  intros Hs Hb Hty Hsz Hlen HQ. destruct (blk_word _ _ _ _ _ _ Hs Hb) as (_ & _ & _ & ? & ?).
  unfold store_at. apply wp_check. eapply (wp_rec_write T); [done|done|done|done|]. intros s1 Hs1.
  unfold sizeof_rec. rewrite u32_small by lia. replace (o + 24) with (o + 24 + Z.of_nat 0) by lia.
  eapply (wp_write_data T); [done|apply lookup_insert_eq|simpl; lia|rewrite length_app; simpl; lia|].
  intros s2 Hs2. rewrite set_blk_twice in Hs2. simpl in Hs2. by apply HQ.
Qed.

Definition room (key dbuf : list Z) : Z :=
  (Z.of_nat (length key) + Z.of_nat (length dbuf) + 28) * 10 + page_size T.

(** A record pushed on its chain adds its entry. *)
Lemma contents_push H ls X Y M o b h key dbuf :
  wf T H ls X Y -> o ∉ ls (BUCKET T (hash_fn T key)) ->
  contents (entry T H ls) M -> M !! key = None ->
  b_hdr b = Some h -> magic h = TDB_MAGIC -> key_len h = Z.of_nat (length key) ->
  b_data b = key ++ dbuf ->
  (forall j, list_index T j -> o ∉ ls j) ->
  contents (entry T (set_blk H o b)
    (<[BUCKET T (hash_fn T key) := o :: ls (BUCKET T (hash_fn T key))]> ls)) (<[key := dbuf]> M).
Proof.
  intros Hw Hno Hc HM Hh Hm Hk Hd Hnl. set (B := BUCKET T (hash_fn T key)) in *.
  eapply contents_iff; [|by apply (contents_insert _ _ o key dbuf Hc)].
  intros p k' v'. unfold entry, live_at. simpl.
  destruct (decide (p = o)) as [->|Hne].
  - rewrite lookup_insert_eq. split.
    + intros [(_ & -> & ->)|[Hin _]]; [|by apply Hnl in Hin; [|apply (chain_index T)]].
      split; [fold B; rewrite fn_lookup_insert; by left|]. by exists b, h.
    + intros [_ (b2 & h2 & Eb & Eh & _ & Ed & El)]. left. split; [done|].
      injection Eb as <-. rewrite Hh in Eh. injection Eh as <-. rewrite Hd in Ed.
      apply app_inj_1 in Ed as [-> ->]; [done|]. lia.
  - rewrite lookup_insert_ne by done. split.
    + intros [(? & _)|[Hin Hl]]; [done|]. split; [|done].
      destruct (decide (B = BUCKET T (hash_fn T k'))) as [Eb|Hnb].
      * rewrite <- Eb in *. rewrite fn_lookup_insert. apply elem_of_cons. by right.
      * by rewrite fn_lookup_insert_ne.
    + intros [Hin Hl]. right. split; [|done].
      destruct (decide (B = BUCKET T (hash_fn T k'))) as [Eb|Hnb].
      * rewrite <- Eb in *. rewrite fn_lookup_insert in Hin. by apply elem_of_cons in Hin as [?|?].
      * by rewrite fn_lookup_insert_ne in Hin.
Qed.

Section new_record.
Context (M : gmap (list Z) (list Z)) (e n : Z) (key dbuf : list Z).
Notation B := (BUCKET T (hash_fn T key)).
Notation fits := (e + room key dbuf < 2 ^ 32).

Lemma db_pos n' e' L s : db M n' e' L s -> 0 < e'.
Proof.
  intros (H & ls & Hs & _ & _ & _ & <-).
  destruct (rep_end _ _ _ (ho_rep _ _ _ _ Hs)) as [_ [? _]]. pose proof (gc_hash_size T).
  unfold data_start, FREELIST_TOP, sizeof_header in *. lia.
Qed.

Lemma store_rec_members r nx : 0 < e -> fits ->
  magic (store_rec r nx key dbuf (hash_fn T key)) = TDB_MAGIC
  /\ key_len (store_rec r nx key dbuf (hash_fn T key)) = Z.of_nat (length key)
  /\ data_len (store_rec r nx key dbuf (hash_fn T key)) = Z.of_nat (length dbuf).
Proof.
  intros He Hmax. pose proof (page_pos T). unfold room in *. split; [done|].
  simpl. split; apply u32_small; lia.
Qed.

(** A dead record that is large enough is used again where it is. *)
Lemma wp_store_dead H ls L pre o post b h s (Q : bool -> tdb_context -> Prop) :
  0 < e -> fits -> holds T H L s -> wf T H ls ∅ ∅ -> contents (entry T H ls) M -> M !! key = None ->
  h_seq H = n -> h_end H = e ->
  ls B = pre ++ o :: post -> h_blks H !! o = Some b -> solid b h -> magic h = TDB_DEAD_MAGIC ->
  Z.of_nat (length key) + Z.of_nat (length dbuf) + 4 <= rec_len h ->
  (forall s', db (<[key := dbuf]> M) n e L s' -> Q true s') ->
  wp (store_at T o (store_rec h (next h) key dbuf (hash_fn T key)) (key ++ dbuf)) Q s.
Proof.
  intros He Hmax Hs Hw Hc HM En Ee El Hb Hsol Hdead Hlen HQ.
  destruct (bo_hdr _ _ _ _ (rep_blks _ _ _ (ho_rep _ _ _ _ Hs) _ _ Hb) h) as (Hty & Hsz & _); [apply Hsol|].
  assert (word (next h)) as Hnw by (unfold rec_typed in Hty; by inversion Hty).
  pose proof (gc_hash_fn T key) as Hhw. pose proof (chain_index T (hash_fn T key)) as Hi.
  destruct (store_rec_members h (next h) He Hmax) as (Hm' & Hkl & Hdl).
  set (h' := store_rec h (next h) key dbuf (hash_fn T key)) in *.
  eapply (wp_store_at H _ o b h'); [done|done|by apply store_rec_typed|done|done|].
  intros s2 Hs2. apply HQ.
  assert (o ∈ ls B) as Hin by (rewrite El; apply elem_of_app; right; by left).
  eapply (db_intro _ ls); [exact Hs2|..|done|done].
  - eapply (wf_set_mem T _ _ _ _ B o b h _ h'); try done; [apply Hsol|split; [done|apply Hsol]|].
    right. split; [apply (BUCKET_index T)|]. split; [|done]. left. split; [done|]. by exists key, dbuf.
  - eapply contents_set_live; try done.
    eapply (contents_without_dead T); [done|done|apply Hsol|done].
Qed.

(** A new record becomes the first of its chain. *)
Lemma wp_store_alloc H ls L s (Q : bool -> tdb_context -> Prop) :
  0 < e -> fits -> locks_ok L -> holds T H (push_lock T (-1) F_WRLCK L) s -> wf T H ls ∅ ∅ ->
  contents (entry T H ls) M -> M !! key = None -> h_seq H = n -> h_end H = e ->
  (forall s', refused T -> db M n e L s' -> Q false s') ->
  (forall e' s', db (<[key := dbuf]> M) n e' L s' -> e <= e' <= e + room key dbuf -> Q true s') ->
  wp (store_alloc T key dbuf (hash_fn T key)) Q s.
Proof.
  intros He Hmax HL Hs Hw Hc HM En Ee HQn HQ.
  pose proof (chain_index T (hash_fn T key)) as Hi. pose proof (gc_hash_fn T key) as Hhw.
  pose proof (page_pos T) as Hp. pose proof (free_index T) as Hfi.
  assert (room key dbuf = (Z.of_nat (length key) + Z.of_nat (length dbuf) + 28) * 10 + page_size T)
    as Er by done.
  unfold store_alloc. apply wp_bind. rewrite u32_small by lia.
  eapply (wp_allocate T); [by apply locks_ok_push|exact Hs|exact Hw|lia|lia|]. split.
  { intros s4 Href Hs4. apply wp_bind. apply (wp_unlock T (-1) F_WRLCK H L); try done.
    intros s5 Hs5 _. apply wp_ret, HQn; [done|]. by exists H, ls. }
  intros H4 ls4 o r s4 Hs4 Hw4 Hk4 He4 (_ & (b & Hb & Hsol) & Hrm & Hty & Hlen). apply wp_bind.
  apply (wp_unlock T (-1) F_WRLCK H4 L); try done. intros s5 Hs5 _.
  assert (contents (entry T H4 ls4) M) as Hc4 by (by eapply (contents_keeps T H ls)).
  destruct (bo_hdr _ _ _ _ (rep_blks _ _ _ (ho_rep _ _ _ _ Hs4) _ _ Hb) r) as (_ & Hsz & _); [apply Hsol|].
  destruct (blk_word _ _ _ _ _ _ Hs4 Hb) as (Hwo & _ & _ & Hopos & _).
  apply wp_some. eapply (wp_chain_top T); [done..|]. intros s6 Hs6.
  assert (h_tops H4 B = head_of (ls4 B)) as Etop by (by apply (path_head (h_blks H4)), Hw4).
  assert (word (head_of (ls4 B))) as Htw.
  { rewrite <- Etop. by apply (rep_tops _ _ _ (ho_rep _ _ _ _ Hs4)). }
  destruct (store_rec_members r (head_of (ls4 B)) He Hmax) as (Hm' & Hkl & Hdl).
  set (h := store_rec r (head_of (ls4 B)) key dbuf (hash_fn T key)) in *.
  apply wp_check. eapply (wp_store_at H4 _ o b h); [done|done|by apply store_rec_typed|done|simpl; lia|].
  intros s7 Hs7. set (b' := set_data (set_hdr b h) (key ++ dbuf)) in *. rewrite HASH_TOP_addr.
  eapply (wp_ofs_write_top T); [done|done|done|]. intros s8 Hs8.
  assert (wf T H4 ls4 ∅ {[o]}) as Hw5.
  { replace ({[o]} : gset Z) with ({[o]} ∪ ∅ : gset Z) by set_solver.
    apply (wf_unhold T); [done|set_solver]. }
  assert (wf T (set_blk H4 o b') ls4 ∅ {[o]}) as Hw6 by (apply wf_set_raw; [done|set_solver]).
  destruct (wf_raw _ _ _ _ _ Hw5 o) as (_ & _ & Hnl); [set_solver|].
  eapply (HQ (h_end H4)); [|lia].
  eapply (db_intro _ (<[B := o :: ls4 B]> ls4)); [exact Hs8|..|done].
  - pose proof (wf_push T _ _ _ _ B o b' h Hw6) as Hpush. rewrite difference_diag_L in Hpush.
    apply Hpush; try done; [set_solver|lia|apply lookup_insert_eq|..].
    + split; [done|]. apply Hsol.
    + right. split; [apply (BUCKET_index T)|]. split; [|done]. left. split; [done|].
      by exists key, dbuf.
  - eapply (contents_push H4 ls4); try done. by apply Hnl.
  - simpl. by rewrite (ke_seq _ _ _ _ _ _ Hk4).
Qed.

Lemma wp_store_new L s (Q : bool -> tdb_context -> Prop) :
  locks_ok L -> db M n e L s -> M !! key = None -> fits ->
  (forall s', refused T -> db M n e L s' -> Q false s') ->
  (forall e' s', db (<[key := dbuf]> M) n e' L s' -> e <= e' <= e + room key dbuf -> Q true s') ->
  wp (store_new T key dbuf (hash_fn T key)) Q s.
Proof.
  intros HL Hdb HM Hmax HQn HQ. pose proof (db_pos _ _ _ _ Hdb) as Hpos.
  destruct Hdb as (H & ls & Hs & Hw & Hc & En & Ee).
  pose proof (chain_index T (hash_fn T key)) as Hi. pose proof (free_index T) as Hfi.
  assert (0 <= room key dbuf - Z.of_nat (length key) - Z.of_nat (length dbuf) - 28) as Hroom
    by (pose proof (page_pos T); unfold room; lia).
  unfold store_new. cbv zeta. apply wp_bind.
  assert (forall s1, holds T H L s1 ->
    wp (do?! tdb_lock T (-1) F_WRLCK else false;
        do purged <- (if negb (max_dead_records T =? 0) then tdb_purge_dead T (hash_fn T key) else c_ret true);
        if negb purged then do! tdb_unlock T (-1) F_WRLCK; c_ret false
        else store_alloc T key dbuf (hash_fn T key)) Q s1) as Hnew.
  { intros s1 Hs1. apply wp_check. eapply (wp_lock T _ _ H L); [done..|]. intros s2 Hs2 _. apply wp_bind.
    destruct (max_dead_records T =? 0); simpl.
    - apply wp_ret. simpl. by eapply wp_store_alloc.
    - eapply (wp_purge_dead T); [by apply locks_ok_push|done..|].
      intros H3 ls3 s3 Hs3 Hw3 Hc3 He3 Hn3. simpl. eapply wp_store_alloc; try done; congruence. }
  destruct (max_dead_records T =? 0); simpl; [by apply wp_ret, Hnew|].
  eapply (wp_find_dead H ls); [done|done|by apply Hnew|].
  intros o h b pre post s1 Hs1 El Hb Hsol Hdead Hlen. rewrite u32_small in Hlen by lia.
  eapply (wp_store_dead H ls L); try done. intros s2 Hdb2. apply (HQ e); [done|lia].
Qed.

End new_record.

End operations.

Section api.
Context (T : tdb_config) {GC : GoodConfig T}.
Implicit Types (M : gmap (list Z) (list Z)).

Lemma wp_fetch_db M n e L key s (Q : option (list Z) -> tdb_context -> Prop) :
  locks_ok L -> db T M n e L s ->
  (forall s', db T M n e L s' -> (M !! key = None -> ecode s' = TDB_ERR_NOEXIST) -> Q (M !! key) s') ->
  wp (tdb_fetch T key) Q s.
Proof.
  intros HL (H & ls & Hs & Hw & Hc & Hn & He) HQ. unfold tdb_fetch. apply wp_bind.
  eapply (wp_fetch_data T); [done..|]. intros [dptr dsize] s1 Hs1 Hecode Hr%fetched_data.
  simpl in Hr. apply wp_ret. rewrite Hr. apply HQ; [by exists H, ls|done].
Qed.

Lemma wp_exists_db M n e L key s (Q : bool -> tdb_context -> Prop) :
  locks_ok L -> db T M n e L s ->
  (forall s', db T M n e L s' -> Q (bool_decide (is_Some (M !! key))) s') ->
  wp (tdb_exists T key) Q s.
Proof.
  intros HL (H & ls & Hs & Hw & Hc & Hn & He) HQ. eapply (wp_exists T); [done..|].
  intros s1 Hs1. apply HQ. by exists H, ls.
Qed.

(** A pure parser is run on the data of the key. *)
Lemma wp_parse_record M n e L key (p : list Z -> list Z -> Z) s (Q : Z -> tdb_context -> Prop) :
  locks_ok L -> db T M n e L s ->
  (forall s', db T M n e L s' -> (M !! key = None -> ecode s' = TDB_ERR_NOEXIST) ->
     Q (match M !! key with Some v => p key v | None => 0 end) s') ->
  wp (tdb_parse_record T key (fun k d => c_ret (p k d))) Q s.
Proof.
  intros HL (H & ls & Hs & Hw & Hc & Hn & He) HQ. unfold tdb_parse_record. apply wp_bind.
  eapply (wp_find_lock T _ _ _ _ L); try done.
  - intros s1 o h b v pre post Hs1 Hf. rewrite (found_contents T _ _ _ _ _ _ _ _ _ _ Hc Hf) in HQ.
    destruct (found_sizes T _ _ _ _ _ _ _ _ _ _ _ Hs1 Hf) as (? & ? & ? & ? & _). destruct Hf.
    apply wp_bind. unfold sizeof_rec. rewrite fo_key_len0, fo_data_len0, u32_small by lia.
    eapply (wp_parse_data T); [done|done|rewrite fo_data0, length_app; lia|]. intros s2 Hs2.
    rewrite fo_data0, drop_app_length, take_ge by lia. apply wp_ret, wp_bind. rewrite fo_hash0.
    apply (wp_unlock T _ F_RDLCK H L); try done; [apply (chain_index T)|].
    intros s3 Hs3 _. apply wp_ret, HQ; [by exists H, ls|done].
  - intros s1 Hs1 He1 Hn1. rewrite (none_contents T _ _ _ _ Hc Hn1) in HQ.
    apply wp_errcode, HQ; [|done]. apply db_set_ecode. by exists H, ls.
Qed.

(** Whether [tdb_store] goes on to store, by its flag and the old record. *)
Definition storable (flg : store_flag) (old : option (list Z)) : bool :=
  match flg, old with
  | TDB_INSERT, Some _ => false
  | TDB_MODIFY, None => false
  | _, _ => true
  end.

(** What [tdb_store] makes of the contents and of the sequence number. *)
Inductive stored M (n : Z) (key dbuf : list Z) (flg : store_flag) :
    bool -> gmap (list Z) (list Z) -> Z -> Prop :=
  | stored_refused : storable flg (M !! key) = false -> stored M n key dbuf flg false M n
  | stored_done n' : storable flg (M !! key) = true -> n' = bump T n \/ n' = bump T (bump T n) ->
      stored M n key dbuf flg true (<[key := dbuf]> M) n'
  | stored_no_space : storable flg (M !! key) = true -> refused T ->
      stored M n key dbuf flg false (delete key M)
        (if bool_decide (is_Some (M !! key)) then bump T n else n).

Lemma wp_store_check M n e L key dbuf flg s (Q : option bool -> tdb_context -> Prop) :
  locks_ok L -> db T M n e L s ->
  (forall s', db T M n e L s' -> storable flg (M !! key) = false ->
     ecode s' = (match flg with TDB_INSERT => TDB_ERR_EXISTS | _ => TDB_ERR_NOEXIST end) ->
     Q (Some false) s') ->
  (forall s', db T M n e L s' -> storable flg (M !! key) = true ->
     (flg = TDB_INSERT -> M !! key = None) -> Q None s') ->
  (forall s', db T (<[key := dbuf]> M) n e L s' -> storable flg (M !! key) = true -> Q (Some true) s') ->
  wp (store_check T key dbuf (hash_fn T key) flg) Q s.
Proof.
  intros HL (H & ls & Hs & Hw & Hc & <- & <-) HQno HQgo HQdone. unfold store_check.
  case_bool_decide as Hflg.
  - subst flg. apply wp_bind. eapply (wp_exists T); [done..|]. intros s1 Hs1. simpl in *.
    destruct (M !! key) as [v|] eqn:HM; simpl.
    + apply wp_errcode, HQno; [|done..].
      apply db_set_ecode. by exists H, ls.
    + apply wp_ret, HQgo; [by exists H, ls|done..].
  - apply wp_bind. eapply (wp_update T); [done..| | |].
    + intros s1 Hs1 He HM. apply wp_bind, wp_get. rewrite He. rewrite HM in *.
      destruct flg; [|done|].
      * apply wp_ret, HQgo; [by exists H, ls|done..].
      * apply wp_ret, HQno; [by exists H, ls|done..].
    + intros s1 Hs1 He [v HM]. apply wp_bind, wp_get. rewrite He. rewrite HM in *.
      apply wp_ret, HQgo; [by exists H, ls|by destruct flg|done].
    + intros H' s1 Hs1 Hw1 Hc1 He1 Hn1 [v HM]. apply wp_ret, HQdone.
      * by exists H', ls.
      * rewrite HM. by destruct flg.
Qed.

Lemma wp_store_db M n e L key dbuf flg s (Q : bool -> tdb_context -> Prop) :
  locks_ok L -> db T M n e L s -> e + room T key dbuf < 2 ^ 32 ->
  (forall ok M' n' e' s', stored M n key dbuf flg ok M' n' -> db T M' n' e' L s' ->
     e <= e' <= e + room T key dbuf ->
     (storable flg (M !! key) = false ->
        ecode s' = match flg with TDB_INSERT => TDB_ERR_EXISTS | _ => TDB_ERR_NOEXIST end) ->
     Q ok s') ->
  wp (tdb_store T key dbuf flg) Q s.
Proof.
  intros HL (H & ls & Hs & Hw & Hc & En & Ee) Hmax HQ.
  pose proof (chain_index T (hash_fn T key)) as Hi. set (B := BUCKET T (hash_fn T key)) in *.
  assert (locks_ok (push_lock T B F_WRLCK L)) as HL1 by (by apply locks_ok_push).
  assert (0 <= room T key dbuf) as Hroom by (unfold room; pose proof (page_pos T); lia).
  unfold tdb_store. apply wp_bind, wp_get. rewrite (no_writes_holds _ _ _ _ Hs). cbv zeta. fold B.
  apply wp_check. apply (wp_lock T _ _ H L); [done..|]. intros s1 Hs1 _.
  (* the end *)
  assert (forall ok M' n' n2 e' s2, db T M' n' e' (push_lock T B F_WRLCK L) s2 ->
    n2 = (if ok : bool then bump T n' else n') -> stored M n key dbuf flg ok M' n2 ->
    e <= e' <= e + room T key dbuf ->
    (storable flg (M !! key) = false ->
        ecode s2 = match flg with TDB_INSERT => TDB_ERR_EXISTS | _ => TDB_ERR_NOEXIST end) ->
    wp (do! (if ok then tdb_increment_seqnum T else c_ret tt);
        do! tdb_unlock T B F_WRLCK; c_ret ok) Q s2) as Hend.
  { intros ok M' n' n2 e' s2 Hdb En2 Hst He' Hec.
    assert (forall s3, db T M' n2 e' (push_lock T B F_WRLCK L) s3 ->
      (storable flg (M !! key) = false -> ok = false -> ecode s3 = ecode s2) ->
      wp (do! tdb_unlock T B F_WRLCK; c_ret ok) Q s3) as Hun.
    { intros s3 (H3 & ls3 & Hs3 & Hw3 & Hc3 & En3 & Ee3) Hk. apply wp_bind.
      apply (wp_unlock T _ F_WRLCK H3 L); try done. intros s4 Hs4 He4. apply wp_ret.
      apply (HQ ok M' n2 e'); [done|by exists H3, ls3|done|].
      intros Hno. rewrite He4, Hk, Hec; [done..|]. inversion Hst; congruence. }
    apply wp_bind. destruct ok; [|by apply wp_ret, Hun; subst].
    eapply (wp_increment T); [done|]. intros s3 Hs3. apply Hun; [by subst|]. done. }
  apply wp_bind. eapply wp_store_check; [exact HL1|by exists H, ls|..].
  - intros s2 Hdb Hno He. apply wp_bind, wp_ret. eapply (Hend false M n n e); try done; [|lia].
    by apply stored_refused.
  - intros s2 Hdb Hyes Hins. apply wp_bind, wp_bind, wp_set, wp_bind.
    assert (forall M1 n1 s3, db T M1 n1 e (push_lock T B F_WRLCK L) s3 -> M1 = delete key M ->
      n1 = (if bool_decide (is_Some (M !! key)) then bump T n else n) ->
      wp (store_new T key dbuf (hash_fn T key))
        (fun b s' => wp (do! (if b then tdb_increment_seqnum T else c_ret tt);
           do! tdb_unlock T B F_WRLCK; c_ret b) Q s') s3) as Hnew.
    { intros M1 n1 s3 Hdb3 -> En1.
      eapply (wp_store_new T (delete key M)); [exact HL1|exact Hdb3|apply lookup_delete_eq|exact Hmax|..].
      - intros s4 Href Hdb4. eapply (Hend false _ n1 n1 e); try done; [|lia|by rewrite Hyes].
        rewrite En1. by apply stored_no_space.
      - intros e' s4 Hdb4 He4. rewrite insert_delete_eq in Hdb4.
        eapply (Hend true _ n1 (bump T n1) e'); try done; [|by rewrite Hyes].
        apply stored_done; [done|]. rewrite En1. case_bool_decide; auto. }
    pose proof (db_set_ecode T _ _ _ _ _ TDB_SUCCESS Hdb) as Hdb2.
    destruct (decide (flg = TDB_INSERT)) as [Hf|Hf].
    + rewrite bool_decide_eq_true_2 by done. apply wp_ret. eapply Hnew; [exact Hdb2|..].
      * by rewrite delete_id by auto.
      * by rewrite (Hins Hf).
    + rewrite bool_decide_eq_false_2 by done. eapply (wp_delete_hash T); [exact HL1|exact Hdb2|..].
      * intros s3 Hdb3 Hsome. eapply Hnew; [exact Hdb3|done|]. by rewrite bool_decide_eq_true_2.
      * intros s3 Hdb3 _ HM. eapply Hnew; [exact Hdb3|by rewrite delete_id|].
        by rewrite HM.
  - intros s2 Hdb Hyes. apply wp_bind, wp_ret.
    eapply (Hend true _ n (bump T n) e); try done; [|lia|by rewrite Hyes].
    apply stored_done; auto.
Qed.

Lemma wp_delete_db M n e L key s (Q : bool -> tdb_context -> Prop) :
  locks_ok L -> db T M n e L s ->
  (forall s', db T (delete key M) (if bool_decide (is_Some (M !! key)) then bump T n else n) e L s' ->
     (M !! key = None -> ecode s' = TDB_ERR_NOEXIST) ->
     Q (bool_decide (is_Some (M !! key))) s') ->
  wp (tdb_delete T key) Q s.
Proof.
  intros HL Hdb HQ. eapply (wp_delete_hash T); [done..| |].
  - intros s1 Hdb1 Hsome. rewrite bool_decide_eq_true_2 in HQ by done.
    apply HQ; [done|]. intros E. rewrite E in Hsome. by destruct Hsome.
  - intros s1 Hdb1 He HM. rewrite HM in HQ. apply HQ; [|done]. by rewrite delete_id.
Qed.

Lemma wp_append_db M n e L key new s (Q : bool -> tdb_context -> Prop) :
  locks_ok L -> db T M n e L s ->
  e + room T key (default [] (M !! key) ++ new) < 2 ^ 32 ->
  (forall ok M' n' e' s',
     stored M n key (default [] (M !! key) ++ new) TDB_REPLACE ok M' n' -> db T M' n' e' L s' ->
     e <= e' <= e + room T key (default [] (M !! key) ++ new) -> Q ok s') ->
  wp (tdb_append T key new) Q s.
Proof.
  intros HL (H & ls & Hs & Hw & Hc & En & Ee) Hmax HQ.
  pose proof (chain_index T (hash_fn T key)) as Hi. set (B := BUCKET T (hash_fn T key)) in *.
  assert (locks_ok (push_lock T B F_WRLCK L)) as HL1 by (by apply locks_ok_push).
  unfold tdb_append. cbv zeta. fold B. apply wp_check.
  apply (wp_lock T _ _ H L); [done..|]. intros s1 Hs1 _. apply wp_bind.
  eapply (wp_fetch_data T); [exact HL1|done..|]. intros [dptr dsize] s2 Hs2 _ Hr.
  assert (forall k, wp (k (default [] (M !! key))) Q s2 ->
    wp (c_bind (match dptr with Some d => c_ret (take (Z.to_nat dsize) d)
                | None => if dsize =? 0 then c_ret [] else c_none end) k) Q s2) as Hdbuf.
  { intros k Hk. apply wp_bind. destruct (M !! key) as [v|]; simpl in Hr.
    - destruct Hr as (d & [= -> ->] & Hd). apply wp_ret. by rewrite Nat2Z.id, Hd.
    - injection Hr as -> ->. by apply wp_ret. }
  apply Hdbuf, wp_bind.
  eapply wp_store_db; [exact HL1|by exists H, ls|exact Hmax|].
  intros ok M' n' e' s3 Hst (H3 & ls3 & Hs3 & Hw3 & Hc3 & En3 & Ee3) He _. apply wp_bind.
  apply (wp_unlock T _ F_WRLCK H3 L); try done. intros s4 Hs4 _. apply wp_ret.
  eapply HQ; [done|by exists H3, ls3|done].
Qed.

(** ** A new database *)

Lemma sub_replicate (pre : list Z) k off len :
  Z.of_nat (length pre) <= off -> 0 <= len ->
  off + len <= Z.of_nat (length pre + k) ->
  sub (pre ++ replicate k 0) off len = replicate (Z.to_nat len) 0.
Proof.
  intros H1 H2 H3. apply list_eq. intros i. rewrite sub_lookup. destruct (decide _).
  - rewrite lookup_app_r by lia. rewrite !lookup_replicate_2 by lia. done.
  - symmetry. apply lookup_ge_None. rewrite length_replicate. lia.
Qed.

Lemma enc_zero : enc T [0] = replicate 4 0.
Proof. unfold enc, CONVERT, tdb_convert. by destruct (DOCONV T). Qed.

Lemma tiling_empty a : tiling ∅ a a.
Proof.
  split.
  - intros o b E. by rewrite lookup_empty in E.
  - intros o b E. by rewrite lookup_empty in E.
  - intros o b E. by rewrite lookup_empty in E.
  - intros o b o' b' E. by rewrite lookup_empty in E.
  - by left.
Qed.

Lemma open_new_db :
  data_start T < 2 ^ 32 ->
  db T ∅ 0 (data_start T) ((0, F_RDLCK), [], 0, [mk_tlock 0 0 F_RDLCK]) (tdb_open_new T).
Proof.
  intros Hmax. pose proof (gc_hash_size T) as Hhs.
  set (food := if flag T TDB_INTERNAL then [] else magic_food).
  set (pre := food ++ replicate (32 - length food) 0
    ++ flat_map word_bytes (CONVERT T [TDB_VERSION; hash_size T])).
  set (k := Z.to_nat (sizeof_header - 40 + (hash_size T + 1) * 4)).
  assert (tdb_new_database T = pre ++ replicate k 0) as Efile.
  { unfold tdb_new_database, pre. fold food k. by rewrite <- !app_assoc. }
  assert (length pre = 40%nat) as Hpre.
  { unfold pre. rewrite !length_app, length_replicate.
    pose proof (length_enc T [TDB_VERSION; hash_size T]) as He. unfold enc in He. simpl length in He.
    assert (length food <= 32)%nat by (unfold food; destruct (flag T TDB_INTERNAL); simpl; lia). lia. }
  assert (Z.of_nat (length (tdb_new_database T)) = data_start T) as Hlen.
  { rewrite Efile, length_app, length_replicate, Hpre. unfold k, data_start, FREELIST_TOP, sizeof_header. lia. }
  assert (forall off, 40 <= off -> off + 4 <= data_start T ->
    sub (tdb_new_database T) off 4 = enc T [0]) as Hzero.
  { intros off H1 H2. rewrite Efile, enc_zero. rewrite Efile, length_app, length_replicate, Hpre in Hlen.
    apply (sub_replicate _ _ off 4); rewrite ?Hpre; lia. }
  assert (word 0) as Hw0 by (unfold word; lia).
  exists (mk_heap (data_start T) 0 (fun _ => 0) ∅), (fun _ => []). split; [|split; [|split; [|done]]].
  - split; simpl; try done; [|rewrite Hlen; lia].
    split; simpl; try done.
    + apply tiling_empty.
    + intros i Hi. split; [done|]. pose proof (top_addr_range T i Hi).
      unfold FREELIST_TOP, sizeof_header in *. apply Hzero; lia.
    + split; [done|]. apply Hzero; unfold TDB_SEQNUM_OFS, data_start, FREELIST_TOP, sizeof_header; lia.
  - split; simpl; try done.
    intros i o _ Ho. by apply elem_of_nil in Ho.
  - split.
    + intros key v. rewrite lookup_empty. split; [done|]. intros [o [Ho _]]. by apply elem_of_nil in Ho.
    + intros o o' key v v' [Ho _]. by apply elem_of_nil in Ho.
Qed.

End api.
