(* ===== verification/TdbSpec.v ===== *)
(** * tdb: what a database promises

    No code of its own.  A database file is shared by processes, each with a
    context that may not know how far the others have extended the file, and
    with traversals that stop records from being removed.  Whatever they do,
    one operation after another, the file is a finite map from keys to data. *)

From stdpp Require Import functions.
From S2P Require Import Prelude TdbIo TdbHeap TdbChain TdbFreelist TdbStore.

Inductive tdb_op : Set :=
  | Op_fetch (key : list Z)
  | Op_exists (key : list Z)
  | Op_store (key dbuf : list Z) (flg : store_flag)
  | Op_append (key new_dbuf : list Z)
  | Op_delete (key : list Z).

Inductive answer : Set :=
  | A_data (d : option (list Z))
  | A_bool (b : bool).

Definition run_op (T : tdb_config) (op : tdb_op) : C answer :=
  match op with
  | Op_fetch key => do r <- tdb_fetch T key; c_ret (A_data r)
  | Op_exists key => do r <- tdb_exists T key; c_ret (A_bool r)
  | Op_store key dbuf flg => do r <- tdb_store T key dbuf flg; c_ret (A_bool r)
  | Op_append key d => do r <- tdb_append T key d; c_ret (A_bool r)
  | Op_delete key => do r <- tdb_delete T key; c_ret (A_bool r)
  end.

(** The same on a map. *)
Definition spec_op (M : gmap (list Z) (list Z)) (op : tdb_op) : gmap (list Z) (list Z) * answer :=
  match op with
  | Op_fetch key => (M, A_data (M !! key))
  | Op_exists key => (M, A_bool (bool_decide (is_Some (M !! key))))
  | Op_store key dbuf flg =>
    if storable flg (M !! key) then (<[key := dbuf]> M, A_bool true) else (M, A_bool false)
  | Op_append key d => (<[key := default [] (M !! key) ++ d]> M, A_bool true)
  | Op_delete key => (delete key M, A_bool (bool_decide (is_Some (M !! key))))
  end.

(** How much the file may grow. *)
Definition op_room (T : tdb_config) (M : gmap (list Z) (list Z)) (op : tdb_op) : Z :=
  match op with
  | Op_store key dbuf _ => room T key dbuf
  | Op_append key d => room T key (default [] (M !! key) ++ d)
  | _ => 0
  end.

Section one_op.
Context (T : tdb_config) {GC : GoodConfig T}.

(** The answer of an operation, and the database it leaves. *)
Lemma run_op_ok M n e L op s (Q : answer -> tdb_context -> Prop) :
  (forall m, can_extend T m = true) ->
  locks_ok L -> db T M n e L s -> e + op_room T M op < 2 ^ 32 ->
  (forall n' e' s', db T (fst (spec_op M op)) n' e' L s' -> e <= e' <= e + op_room T M op ->
     Q (snd (spec_op M op)) s') ->
  wp (run_op T op) Q s.
Proof.
  intros Hspace HL Hdb Hmax HQ.
  assert (forall key dbuf flg ok M' n', stored T M n key dbuf flg ok M' n' ->
    (M', A_bool ok) = if storable flg (M !! key) then (<[key := dbuf]> M, A_bool true) else (M, A_bool false))
    as Hst.
  { intros key dbuf flg ok M' n' [E|? E _|E [m Hm]]; rewrite E; [done|done|].
    by rewrite Hspace in Hm. }
  destruct op as [key|key|key dbuf flg|key d|key]; simpl in *; apply wp_bind.
  - eapply (wp_fetch_db T); [done..|]. intros s1 Hdb1 _. apply wp_ret. eapply HQ; [done|lia].
  - eapply (wp_exists_db T); [done..|]. intros s1 Hdb1. apply wp_ret. eapply HQ; [done|lia].
  - eapply (wp_store_db T); [done..|]. intros ok M' n' e' s1 Hs1 Hdb1 He _. apply wp_ret.
    apply Hst in Hs1. rewrite <- Hs1 in HQ. by eapply HQ.
  - eapply (wp_append_db T); [done..|]. intros ok M' n' e' s1 Hs1 Hdb1 He. apply wp_ret.
    apply Hst in Hs1. simpl in Hs1. injection Hs1 as -> ->. by eapply HQ.
  - eapply (wp_delete_db T); [done..|]. intros s1 Hdb1 _. apply wp_ret. eapply HQ; [done|lia].
Qed.

End one_op.

Section processes.
Context (T : tdb_config).

(** What the kernel answers to one process during one operation. *)
Definition with_kernel (k : Z -> Z -> lock_rw -> bool -> bool) : tdb_config :=
  mk_config (flags T) (hash_size T) (page_size T) (max_dead_records T) (read_only T) (mapped T)
    (hash_fn T) k (can_extend T) (realloc_bytes T).

Record good_kernel (k : Z -> Z -> lock_rw -> bool -> bool) : Prop := {
  gk_wait : forall off len ty, k off len ty true = true;
  gk_unlock : forall off len wait, k off len F_UNLCK wait = true
}.

Record step : Type := mk_step {
  st_proc : nat;
  st_kernel : Z -> Z -> lock_rw -> bool -> bool;
  st_op : tdb_op
}.

(** The file, and the contexts of the processes; the [file] of a context is
    that of its last operation. *)
Record tdb_world : Type := mk_world { w_file : list Z; w_procs : list tdb_context }.

Definition run_step (w : tdb_world) (st : step) : option (answer * tdb_world) :=
  match w_procs w !! st_proc st with
  | None => None
  | Some c =>
    match run_op (with_kernel (st_kernel st)) (st_op st) (set_file c (w_file w)) with
    | Some (a, c') => Some (a, mk_world (file c') (<[st_proc st := c']> (w_procs w)))
    | None => None
    end
  end.

Fixpoint run_steps (w : tdb_world) (l : list step) : option (list answer * tdb_world) :=
  match l with
  | [] => Some ([], w)
  | st :: l =>
    match run_step w st with
    | Some (a, w') =>
      match run_steps w' l with
      | Some (r, w'') => Some (a :: r, w'')
      | None => None
      end
    | None => None
    end
  end.

Fixpoint spec_steps (M : gmap (list Z) (list Z)) (l : list step)
  : gmap (list Z) (list Z) * list answer :=
  match l with
  | [] => (M, [])
  | st :: l =>
    let '(M', a) := spec_op M (st_op st) in
    let '(M'', r) := spec_steps M' l in (M'', a :: r)
  end.

Fixpoint steps_room (M : gmap (list Z) (list Z)) (l : list step) : Z :=
  match l with
  | [] => 0
  | st :: l => op_room T M (st_op st) + steps_room (fst (spec_op M (st_op st))) l
  end.

(** The context of a process, for a file of [e] bytes. *)
Definition proc_ok (e : Z) (c : tdb_context) : Prop :=
  locks_ok (locks_of c) /\ data_start T <= map_size c <= e /\ traverse_read c = 0.

Definition world_ok (M : gmap (list Z) (list Z)) (e : Z) (w : tdb_world) : Prop :=
  (exists H ls, rep T H (w_file w) /\ wf T H ls ∅ ∅ /\ contents (entry T H ls) M /\ h_end H = e)
  /\ Forall (proc_ok e) (w_procs w).

Context {GC : GoodConfig T}.

#[export] Instance with_kernel_good k : good_kernel k -> GoodConfig (with_kernel k).
Proof.
  intros []. split; simpl; try done; apply GC.
Qed.

Lemma rep_kernel k H F : rep T H F <-> rep (with_kernel k) H F.
Proof. split; intros [? ? ? ? Hb]; (split; [done..|]); intros o b E; by destruct (Hb o b E); split. Qed.

Lemma wf_kernel k H ls X Y : wf T H ls X Y <-> wf (with_kernel k) H ls X Y.
Proof. split; intros []; by split. Qed.

Lemma proc_ok_mono e e' c : e <= e' -> proc_ok e c -> proc_ok e' c.
Proof. intros He (? & ? & ?). split; [done|]. split; [lia|done]. Qed.

Lemma run_step_ok M e w st :
  flag T TDB_INTERNAL = false -> (forall m, can_extend T m = true) ->
  good_kernel (st_kernel st) -> (st_proc st < length (w_procs w))%nat ->
  world_ok M e w -> e + op_room T M (st_op st) < 2 ^ 32 ->
  exists w' e', run_step w st = Some (snd (spec_op M (st_op st)), w')
    /\ world_ok (fst (spec_op M (st_op st))) e' w'
    /\ e <= e' <= e + op_room T M (st_op st) /\ length (w_procs w') = length (w_procs w).
Proof.
  intros Hint Hspace Hk Hp [(H & ls & Hr & Hw & Hc & He) Hprocs] Hmax. set (k := st_kernel st) in *.
  destruct (lookup_lt_is_Some_2 _ _ Hp) as [c Ec]. unfold run_step. rewrite Ec. fold k.
  destruct (Forall_lookup_1 _ _ _ _ Hprocs Ec) as (HL & Hm & Htr).
  assert (db (with_kernel k) M (h_seq H) e (locks_of c) (set_file c (w_file w))) as Hdb.
  { exists H, ls. split; [|split; [by apply wf_kernel|done]].
    split; simpl; [by apply rep_kernel|unfold data_start in *; simpl; lia| |done|done].
    unfold flag in *. simpl. by rewrite Hint. }
  pose proof (with_kernel_good k Hk) as GK.
  assert (wp (run_op (with_kernel k) (st_op st))
    (fun a s' => a = snd (spec_op M (st_op st)) /\ exists n' e',
       db (with_kernel k) (fst (spec_op M (st_op st))) n' e' (locks_of c) s'
       /\ e <= e' <= e + op_room T M (st_op st)) (set_file c (w_file w))) as Hrun.
  { eapply (run_op_ok (with_kernel k)); [done|exact HL|exact Hdb|exact Hmax|].
    intros n' e' s' Hdb' He'. split; [done|]. by exists n', e'. }
  unfold wp in Hrun. destruct (run_op _ _ _) as [[a c']|]; [|done].
  destruct Hrun as (-> & n' & e' & (H' & ls' & Hs' & Hw' & Hc' & _ & He') & Hle).
  eexists _, e'. split; [done|]. split; [|split; [done|simpl; by rewrite length_insert]].
  split; simpl.
  - exists H', ls'. split; [apply (rep_kernel k), Hs'|]. split; [by apply (wf_kernel k)|done].
  - apply Forall_insert.
    + eapply Forall_impl; [exact Hprocs|]. intros c0. apply proc_ok_mono. lia.
    + split; [by rewrite (ho_locks _ _ _ _ Hs')|]. rewrite <- He'.
      split; [apply (ho_map _ _ _ _ Hs')|apply (ho_traverse _ _ _ _ Hs')].
Qed.

(** C3: a tdb is a finite map.  Any number of processes work on the file, each
    with its own idea of the file's length, its own chain locks and traversals
    in progress; before each operation the kernel is asked again whether record
    locks are granted, so that any delete may find its record under a traversal.
    As long as the file fits in 32 bits, every fetch, exists, store, append and
    delete returns, and returns what the same operation returns on a map; the
    file ends up as a well-formed database with the contents of the map, in
    which every byte belongs to the header or to one record of one list. *)
Theorem tdb_refines_map M e w l :
  flag T TDB_INTERNAL = false -> (forall m, can_extend T m = true) ->
  Forall (fun st => good_kernel (st_kernel st) /\ (st_proc st < length (w_procs w))%nat) l ->
  world_ok M e w -> e + steps_room M l < 2 ^ 32 ->
  exists w' e',
    run_steps w l = Some (snd (spec_steps M l), w') /\ world_ok (fst (spec_steps M l)) e' w'.
Proof.
  intros Hint Hspace. revert M e w. induction l as [|st l IH]; intros M e w Hl Hw Hmax; simpl in *.
  { by exists w, e. }
  apply Forall_cons in Hl as [[Hk Hp] Hl]. pose proof (page_pos T) as Hpage.
  assert (forall l M, 0 <= steps_room M l) as Hpos.
  { intros l'. induction l' as [|[? ? op] l' IH']; intros M'; simpl; [lia|].
    specialize (IH' (fst (spec_op M' op))). destruct op; simpl in *; unfold room; lia. }
  specialize (Hpos l (fst (spec_op M (st_op st)))).
  destruct (run_step_ok M e w st) as (w1 & e1 & Er & Hw1 & He1 & Hlen); [done..|lia|].
  rewrite Er. destruct (spec_op M (st_op st)) as [M1 a1] eqn:Es. simpl in *.
  destruct (IH M1 e1 w1) as (w2 & e2 & -> & Hw2); [by rewrite Hlen|done|lia|].
  destruct (spec_steps M1 l) as [M2 r]. by exists w2, e2.
Qed.

End processes.

(** ** One store, with the error it leaves *)

(** C7: [tdb_store] always returns, and leaves a well-formed database, the locks
    as they were, and a file that grew by no more than [room].  It refuses an
    insert of a key that is there and a modify of one that is not, changing
    nothing, with the error that says so.  Otherwise either the data is stored
    under the key and nothing else changes (the sequence number goes up by one,
    or by two when an old record was deleted first), or the file could not be
    extended, and then the old record of the key is gone as well. *)
Theorem tdb_store_correct T (GC : GoodConfig T) M n e L key dbuf flg s :
  locks_ok L -> db T M n e L s -> e + room T key dbuf < 2 ^ 32 ->
  exists ok M' n' e' s',
    tdb_store T key dbuf flg s = Some (ok, s')
    /\ stored T M n key dbuf flg ok M' n' /\ db T M' n' e' L s'
    /\ e <= e' <= e + room T key dbuf
    /\ (storable flg (M !! key) = false ->
        ecode s' = match flg with TDB_INSERT => TDB_ERR_EXISTS | _ => TDB_ERR_NOEXIST end).
Proof.
  intros HL Hdb Hmax.
  assert (wp (tdb_store T key dbuf flg) (fun ok s' => exists M' n' e',
    stored T M n key dbuf flg ok M' n' /\ db T M' n' e' L s' /\ e <= e' <= e + room T key dbuf
    /\ (storable flg (M !! key) = false ->
        ecode s' = match flg with TDB_INSERT => TDB_ERR_EXISTS | _ => TDB_ERR_NOEXIST end)) s) as H.
  { eapply (wp_store_db T); [done..|]. intros ok M' n' e' s' ????. by exists M', n', e'. }
  unfold wp in H. destruct (tdb_store T key dbuf flg s) as [[ok s']|]; [|done].
  destruct H as (M' & n' & e' & ?). by exists ok, M', n', e', s'.
Qed.

(** ** A concrete database *)

(** Three chains, pages of 64 bytes, words byte-reversed; one dead record is
    kept per chain.  The kernel refuses record locks under [busy]. *)
Definition ex_config (space : Z -> bool) : tdb_config :=
  mk_config (TDB_SEQNUM + TDB_CONVERT) 3 64 1 false true default_tdb_hash
    (fun _ _ _ _ => true) space (fun n => replicate (Z.to_nat n) 0).

Definition busy (off len : Z) (ty : lock_rw) (wait : bool) : bool :=
  wait || bool_decide (ty = F_UNLCK).

Lemma default_tdb_hash_word key : word (default_tdb_hash key).
Proof. apply u32_range. Qed.

#[export] Instance ex_config_good space : GoodConfig (ex_config space).
Proof.
  split; simpl; try done.
  - exists 6. split; [lia|done].
  - intros n. by rewrite length_replicate.
  - apply default_tdb_hash_word.
Qed.

Lemma granting_kernel : good_kernel (fun _ _ _ _ => true).
Proof. by split. Qed.

Lemma busy_kernel : good_kernel busy.
Proof. split; unfold busy; [done|]. intros. apply orb_true_r. Qed.

(** Two processes have opened a new database. *)
Definition ex_world : tdb_world :=
  let c := tdb_open_new (ex_config (fun _ => true)) in mk_world (file c) [c; c].

Lemma open_world_ok T (GC : GoodConfig T) k :
  data_start T < 2 ^ 32 ->
  world_ok T ∅ (data_start T) (mk_world (file (tdb_open_new T)) (replicate k (tdb_open_new T))).
Proof.
  intros Hmax. destruct (open_new_db T Hmax) as (H & ls & Hs & Hw & Hc & En & Ee). split.
  - exists H, ls. split; [apply Hs|]. by split.
  - apply Forall_replicate. split; [rewrite (ho_locks _ _ _ _ Hs); split; [by left|done]|].
    split; [|done]. pose proof (ho_map _ _ _ _ Hs) as Hm. by rewrite Ee in Hm.
Qed.

Definition ex_steps : list step :=
  [mk_step 0 (fun _ _ _ _ => true) (Op_store [1] [10; 11] TDB_INSERT);
   mk_step 1 (fun _ _ _ _ => true) (Op_store [2] [20] TDB_REPLACE);
   mk_step 1 (fun _ _ _ _ => true) (Op_store [1] [12] TDB_INSERT);
   mk_step 0 busy (Op_append [2] [21; 22]);
   mk_step 1 busy (Op_delete [1]);
   mk_step 0 (fun _ _ _ _ => true) (Op_exists [1]);
   mk_step 0 (fun _ _ _ _ => true) (Op_store [1] [13; 14; 15] TDB_MODIFY);
   mk_step 0 (fun _ _ _ _ => true) (Op_fetch [2])].

Definition ex_answers : list answer :=
  [A_bool true; A_bool true; A_bool false; A_bool true; A_bool true; A_bool false;
   A_bool false; A_data (Some [20; 21; 22])].

(** The code, run. *)
Example ex_steps_run : fst <$> run_steps (ex_config (fun _ => true)) ex_world ex_steps = Some ex_answers.
Proof. by vm_compute. Qed.

Lemma tdb_refines_map_witness :
  exists w' e',
    run_steps (ex_config (fun _ => true)) ex_world ex_steps = Some (ex_answers, w')
    /\ world_ok (ex_config (fun _ => true)) (fst (spec_steps ∅ ex_steps)) e' w'.
Proof.
  replace ex_answers with (snd (spec_steps ∅ ex_steps)) by (by vm_compute).
  apply (tdb_refines_map (ex_config (fun _ => true)) ∅ 184 ex_world ex_steps);
    [reflexivity|reflexivity| | |by vm_compute].
  - repeat (apply Forall_cons; split; [split; [apply granting_kernel || apply busy_kernel|simpl; lia]|]).
    by apply Forall_nil.
  - exact (open_world_ok (ex_config (fun _ => true)) _ 2 eq_refl).
Defined.

Lemma tdb_store_correct_witness :
  exists ok M' n' e' s',
    tdb_store (ex_config (fun n => n <=? 500)) [7] [8; 9] TDB_INSERT
      (tdb_open_new (ex_config (fun n => n <=? 500))) = Some (ok, s')
    /\ stored (ex_config (fun n => n <=? 500)) ∅ 0 [7] [8; 9] TDB_INSERT ok M' n'
    /\ db (ex_config (fun n => n <=? 500)) M' n' e' ((0, F_RDLCK), [], 0, [mk_tlock 0 0 F_RDLCK]) s'
    /\ 184 <= e' <= 184 + room (ex_config (fun n => n <=? 500)) [7] [8; 9]
    /\ (storable TDB_INSERT ((∅ : gmap (list Z) (list Z)) !! [7]) = false -> ecode s' = TDB_ERR_EXISTS).
Proof.
  apply (tdb_store_correct (ex_config (fun n => n <=? 500)) _ ∅ 0 184
    ((0, F_RDLCK), [], 0, [mk_tlock 0 0 F_RDLCK]) [7] [8; 9] TDB_INSERT);
    [split; [by left|done] | | by vm_compute].
  exact (open_new_db (ex_config (fun n => n <=? 500)) eq_refl).
Defined.

(** In a file that cannot grow any more, replacing a record by a longer one
    fails, and the record is lost. *)
Example failed_replace_deletes :
  let T := ex_config (fun n => n <=? 4096) in
  (do a <- tdb_store T [7] (replicate 100 1) TDB_REPLACE;
   do b <- tdb_store T [7] (replicate 2000 2) TDB_REPLACE;
   do c <- tdb_exists T [7];
   c_ret (a, b, c)) (tdb_open_new T) ≫= Some ∘ fst = Some (true, false, false).
Proof. by vm_compute. Qed.
