(* ===== verification/Brlock.v ===== *)
(** * Byte range locks ([source4/ntvfs/common/brlock_tdb.c], [brlock.c])

    The record of a file in [brlock.tdb] is the unsorted array of its
    [lock_struct]s.  A pointer is its address: [ctx] and [ntvfs] are compared
    as pointers, [notify_ptr] is 0 when NULL, and a [struct ntvfs_handle *] is
    the address together with whether its protocol is SMB2, the one thing
    [brl_tdb_lock_failed] reads through it.  A [brl_handle] is passed in and
    its successor returned where the code writes [last_lock]. *)

From S2P Require Import Prelude NtStatus Tdb.

(** ** Data *)

(** [enum brl_type], in the order of its values (the code compares with
    [>= PENDING_READ_LOCK]). *)
Inductive brl_type : Set := READ_LOCK | WRITE_LOCK | PENDING_READ_LOCK | PENDING_WRITE_LOCK.

#[export] Instance brl_type_eq_dec : EqDecision brl_type.
Proof. solve_decision. Defined.

Definition brl_type_eqb (a b : brl_type) : bool := bool_decide (a = b).

(** [lock_type >= PENDING_READ_LOCK] *)
Definition is_pending (t : brl_type) : bool :=
  match t with PENDING_READ_LOCK | PENDING_WRITE_LOCK => true | _ => false end.

Record ntvfs_handle : Set := mk_ntvfs { ntvfs_ptr : Z; ntvfs_smb2 : bool }.

Definition ntvfs_eqb (a b : ntvfs_handle) : bool := ntvfs_ptr a =? ntvfs_ptr b.

Record lock_context : Set := mk_ctx { server : server_id; smbpid : Z; ctx : Z }.

Record lock_struct : Set := mk_lock {
  context : lock_context;
  ntvfs : ntvfs_handle;
  start : Z;               (* uint64_t *)
  size : Z;                (* uint64_t *)
  lock_type : brl_type;
  notify_ptr : Z
}.

#[export] Instance lock_struct_eq_dec : EqDecision lock_struct.
Proof. repeat intro. unfold Decision. repeat decide equality. Defined.

(** A [brl_context]: its address and its server id. *)
Record brl_context : Set := mk_brl { brl_ptr : Z; brl_server : server_id }.

Record brl_handle : Set := mk_brlh {
  key : blob;
  h_ntvfs : ntvfs_handle;
  last_lock : lock_struct
}.

Definition set_last_lock (h : brl_handle) (l : lock_struct) : brl_handle :=
  mk_brlh (key h) (h_ntvfs h) l.

Definition zero_lock : lock_struct :=
  mk_lock (mk_ctx (mk_server_id 0 0) 0 0) (mk_ntvfs 0 false) 0 0 READ_LOCK 0.

Definition brl_tdb_create_handle (n : ntvfs_handle) (file_key : blob) : brl_handle :=
  mk_brlh file_key n zero_lock.

(** ** Predicates on locks *)

Definition brl_tdb_same_context (c1 c2 : lock_context) : bool :=
  cluster_id_equal (server c1) (server c2) && (smbpid c1 =? smbpid c2) && (ctx c1 =? ctx c2).

Definition brl_tdb_overlap (lck1 lck2 : lock_struct) : bool :=
  if negb (size lck1 =? 0) && (start lck1 =? start lck2) && (size lck1 =? size lck2)
  then true
  else if (u64 (start lck2 + size lck2) <=? start lck1) ||
          (u64 (start lck1 + size lck1) <=? start lck2)
  then false
  else true.

(** "See if lock2 can be added when lock1 is in place." *)
Definition brl_tdb_conflict (lck1 lck2 : lock_struct) : bool :=
  if is_pending (lock_type lck1) || is_pending (lock_type lck2) then false
  else if brl_type_eqb (lock_type lck1) READ_LOCK && brl_type_eqb (lock_type lck2) READ_LOCK
  then false
  else if brl_tdb_same_context (context lck1) (context lck2) &&
          brl_type_eqb (lock_type lck2) READ_LOCK && ntvfs_eqb (ntvfs lck1) (ntvfs lck2)
  then false
  else brl_tdb_overlap lck1 lck2.

Definition brl_tdb_conflict_other (lck1 lck2 : lock_struct) : bool :=
  if is_pending (lock_type lck1) || is_pending (lock_type lck2) then false
  else if brl_type_eqb (lock_type lck1) READ_LOCK && brl_type_eqb (lock_type lck2) READ_LOCK
  then false
  else if brl_tdb_same_context (context lck1) (context lck2) &&
          ntvfs_eqb (ntvfs lck1) (ntvfs lck2) &&
          (brl_type_eqb (lock_type lck2) READ_LOCK || brl_type_eqb (lock_type lck1) WRITE_LOCK)
  then false
  else brl_tdb_overlap lck1 lck2.

(** ** Operations *)

Definition brl_tdb_lock_failed (brlh : brl_handle) (lock : lock_struct)
    : NTSTATUS * brl_handle :=
  if ntvfs_smb2 (ntvfs lock) then (NT_STATUS_LOCK_NOT_GRANTED, brlh)
  else if negb (notify_ptr lock =? 0) then
    (NT_STATUS_FILE_LOCK_CONFLICT, set_last_lock brlh lock)
  else if (4009754624 <=? start lock) && (Z.shiftr (start lock) 63 =? 0) then
    (NT_STATUS_FILE_LOCK_CONFLICT, set_last_lock brlh lock)
  else if cluster_id_equal (server (context lock)) (server (context (last_lock brlh))) &&
          (ctx (context lock) =? ctx (context (last_lock brlh))) &&
          ntvfs_eqb (ntvfs lock) (ntvfs (last_lock brlh)) &&
          (start lock =? start (last_lock brlh))
  then (NT_STATUS_FILE_LOCK_CONFLICT, brlh)
  else (NT_STATUS_LOCK_NOT_GRANTED, set_last_lock brlh lock).

(** The lock a request describes. *)
Definition make_lock (brl : brl_context) (brlh : brl_handle) (pid start size : Z)
    (t : brl_type) (nptr : Z) : lock_struct :=
  mk_lock (mk_ctx (brl_server brl) pid (brl_ptr brl)) (h_ntvfs brlh) start size t nptr.

(** The part of [brl_tdb_lock] from the fetch on; the chain lock is held and
    is released on every path. *)
Definition brl_tdb_lock_body (brl : brl_context) (brlh : brl_handle) (pid start size : Z)
    (t : brl_type) (nptr : Z) : ST (world (list lock_struct)) (NTSTATUS * brl_handle) :=
  do dbuf <- tdb_fetch (key brlh);
  let lock := make_lock brl brlh pid start size t nptr in
  let locks := default [] dbuf in
  if existsb (fun l => brl_tdb_conflict l lock) locks then
    let r := brl_tdb_lock_failed brlh lock in
    do! tdb_chainunlock (key brlh); st_ret r
  else
    do stored <- tdb_store (key brlh) (locks ++ [lock]);
    do! tdb_chainunlock (key brlh);
    st_ret (if negb stored then NT_STATUS_INTERNAL_DB_CORRUPTION
            else if is_pending t then NT_STATUS_LOCK_NOT_GRANTED
            else NT_STATUS_OK, brlh).

(** The call for a lock that is not pending: also the recursive call, whose
    type is [READ_LOCK] or [WRITE_LOCK]. *)
Definition brl_tdb_lock_now (brl : brl_context) (brlh : brl_handle) (pid start size : Z)
    (t : brl_type) (nptr : Z) : ST (world (list lock_struct)) (NTSTATUS * brl_handle) :=
  do locked <- tdb_chainlock (key brlh);
  if negb locked then st_ret (NT_STATUS_INTERNAL_DB_CORRUPTION, brlh)
  else brl_tdb_lock_body brl brlh pid start size t nptr.

Definition brl_tdb_lock (brl : brl_context) (brlh : brl_handle) (pid start size : Z)
    (t : brl_type) (nptr : Z) : ST (world (list lock_struct)) (NTSTATUS * brl_handle) :=
  if negb (is_pending t) then brl_tdb_lock_now brl brlh pid start size t nptr
  else
    do locked <- tdb_chainlock (key brlh);
    if negb locked then st_ret (NT_STATUS_INTERNAL_DB_CORRUPTION, brlh)
    else
      let rw := if brl_type_eqb t PENDING_READ_LOCK then READ_LOCK else WRITE_LOCK in
      let lock := last_lock brlh in
      do res <- brl_tdb_lock_now brl brlh pid start size rw 0;
      let brlh := set_last_lock res.2 lock in
      if NT_STATUS_IS_OK res.1 then
        do! tdb_chainunlock (key brlh); st_ret (NT_STATUS_OK, brlh)
      else brl_tdb_lock_body brl brlh pid start size t nptr.

(** The loop of [brl_tdb_notify_unlock]; [last] is [locks[last_notice]]. *)
Fixpoint notify_unlock_loop (last : option lock_struct) (locks : list lock_struct)
    (removed_lock : lock_struct) : list message :=
  match locks with
  | [] => []
  | l :: locks' =>
      if is_pending (lock_type l) && brl_tdb_overlap l removed_lock then
        if match last with Some n => brl_tdb_overlap l n | None => false end
        then notify_unlock_loop last locks' removed_lock
        else
          mk_msg (server (context l)) MSG_BRL_RETRY (notify_ptr l) ::
          notify_unlock_loop
            (if brl_type_eqb (lock_type l) PENDING_WRITE_LOCK then Some l else last)
            locks' removed_lock
      else notify_unlock_loop last locks' removed_lock
  end.

Definition brl_tdb_notify_unlock (locks : list lock_struct) (removed_lock : lock_struct)
    : list message := notify_unlock_loop None locks removed_lock.

(** The test of the loop is on [locks->lock_type], the first record, and not
    on [locks[i]]. *)
Definition brl_tdb_notify_all (locks : list lock_struct) : list message :=
  List.flat_map
    (fun li => if match locks with l0 :: _ => is_pending (lock_type l0) | [] => false end
               then brl_tdb_notify_unlock locks li else [])
    locks.

(** The conditions of the two search loops of [brl_tdb_unlock]. *)
Definition unlock_match (brl : brl_context) (brlh : brl_handle) (pid st sz : Z)
    (l : lock_struct) : bool :=
  brl_tdb_same_context (context l) (mk_ctx (brl_server brl) pid (brl_ptr brl)) &&
  ntvfs_eqb (ntvfs l) (h_ntvfs brlh) && (start l =? st) && (size l =? sz).

Definition unlock_index (brl : brl_context) (brlh : brl_handle) (pid st sz : Z)
    (locks : list lock_struct) : option nat :=
  match find_idx (fun l => unlock_match brl brlh pid st sz l &&
                           brl_type_eqb (lock_type l) WRITE_LOCK) locks with
  | Some i => Some i
  | None => find_idx (fun l => unlock_match brl brlh pid st sz l &&
                               negb (is_pending (lock_type l))) locks
  end.

Definition brl_tdb_unlock (brl : brl_context) (brlh : brl_handle) (pid st sz : Z)
    : ST (world (list lock_struct)) NTSTATUS :=
  do locked <- tdb_chainlock (key brlh);
  if negb locked then st_ret NT_STATUS_INTERNAL_DB_CORRUPTION
  else
    do dbuf <- tdb_fetch (key brlh);
    match dbuf with
    | None => do! tdb_chainunlock (key brlh); st_ret NT_STATUS_RANGE_NOT_LOCKED
    | Some locks =>
        match unlock_index brl brlh pid st sz locks with
        | Some i =>
            do done <-
              (if (length locks =? 1)%nat then tdb_delete (key brlh)
               else
                 let removed_lock := default zero_lock (locks !! i) in
                 let locks' := delete i locks in
                 do! send (brl_tdb_notify_unlock locks' removed_lock);
                 tdb_store (key brlh) locks');
            do! tdb_chainunlock (key brlh);
            st_ret (if done : bool then NT_STATUS_OK else NT_STATUS_INTERNAL_DB_CORRUPTION)
        | None => do! tdb_chainunlock (key brlh); st_ret NT_STATUS_RANGE_NOT_LOCKED
        end
    end.

Definition pending_match (brl : brl_context) (nptr : Z) (l : lock_struct) : bool :=
  is_pending (lock_type l) && (notify_ptr l =? nptr) &&
  cluster_id_equal (server (context l)) (brl_server brl).

Definition brl_tdb_remove_pending (brl : brl_context) (brlh : brl_handle) (nptr : Z)
    : ST (world (list lock_struct)) NTSTATUS :=
  do locked <- tdb_chainlock (key brlh);
  if negb locked then st_ret NT_STATUS_INTERNAL_DB_CORRUPTION
  else
    do dbuf <- tdb_fetch (key brlh);
    match dbuf with
    | None => do! tdb_chainunlock (key brlh); st_ret NT_STATUS_RANGE_NOT_LOCKED
    | Some locks =>
        match find_idx (pending_match brl nptr) locks with
        | Some i =>
            do done <-
              (if (length locks =? 1)%nat then tdb_delete (key brlh)
               else tdb_store (key brlh) (delete i locks));
            do! tdb_chainunlock (key brlh);
            st_ret (if done : bool then NT_STATUS_OK else NT_STATUS_INTERNAL_DB_CORRUPTION)
        | None => do! tdb_chainunlock (key brlh); st_ret NT_STATUS_RANGE_NOT_LOCKED
        end
    end.

Definition brl_tdb_locktest (brl : brl_context) (brlh : brl_handle) (pid st sz : Z)
    (t : brl_type) : ST (world (list lock_struct)) NTSTATUS :=
  do dbuf <- tdb_fetch (key brlh);
  match dbuf with
  | None => st_ret NT_STATUS_OK
  | Some locks =>
      let lock := make_lock brl brlh pid st sz t 0 in
      st_ret (if existsb (fun l => brl_tdb_conflict_other l lock) locks
              then NT_STATUS_FILE_LOCK_CONFLICT else NT_STATUS_OK)
  end.

Definition close_match (brl : brl_context) (brlh : brl_handle) (l : lock_struct) : bool :=
  (ctx (context l) =? brl_ptr brl) &&
  cluster_id_equal (server (context l)) (brl_server brl) &&
  ntvfs_eqb (ntvfs l) (h_ntvfs brlh).

(** The removal loop of [brl_tdb_close]: after a removal [i] is decremented, so
    that the entry moved into place [i] is looked at next. *)
Fixpoint close_loop (brl : brl_context) (brlh : brl_handle) (fuel i : nat)
    (locks : list lock_struct) (dcount : Z) : list lock_struct * Z :=
  match fuel with
  | O => (locks, dcount)
  | S fuel' =>
      match locks !! i with
      | None => (locks, dcount)
      | Some l =>
          if close_match brl brlh l
          then close_loop brl brlh fuel' i (delete i locks) (dcount + 1)
          else close_loop brl brlh fuel' (S i) locks dcount
      end
  end.

Definition brl_tdb_close (brl : brl_context) (brlh : brl_handle)
    : ST (world (list lock_struct)) NTSTATUS :=
  do locked <- tdb_chainlock (key brlh);
  if negb locked then st_ret NT_STATUS_INTERNAL_DB_CORRUPTION
  else
    do dbuf <- tdb_fetch (key brlh);
    match dbuf with
    | None => do! tdb_chainunlock (key brlh); st_ret NT_STATUS_OK
    | Some locks =>
        let '(locks', dcount) := close_loop brl brlh (length locks) 0 locks 0 in
        do done <-
          (if (length locks' =? 0)%nat then tdb_delete (key brlh)
           else if negb (dcount =? 0) then
             do! send (brl_tdb_notify_all locks'); tdb_store (key brlh) locks'
           else st_ret true);
        do! tdb_chainunlock (key brlh);
        st_ret (if done : bool then NT_STATUS_OK else NT_STATUS_INTERNAL_DB_CORRUPTION)
    end.

(** ** The backend table ([struct brlock_ops]) and its dispatchers ([brlock.c]) *)

Record brlock_ops (W C H : Type) : Type := mk_brlock_ops {
  op_brl_lock : C -> H -> Z -> Z -> Z -> brl_type -> Z -> ST W (NTSTATUS * H);
  op_brl_unlock : C -> H -> Z -> Z -> Z -> ST W NTSTATUS;
  op_brl_remove_pending : C -> H -> Z -> ST W NTSTATUS;
  op_brl_locktest : C -> H -> Z -> Z -> Z -> brl_type -> ST W NTSTATUS;
  op_brl_close : C -> H -> ST W NTSTATUS
}.
Arguments mk_brlock_ops {W C H}.
Arguments op_brl_lock {W C H}.
Arguments op_brl_unlock {W C H}.
Arguments op_brl_remove_pending {W C H}.
Arguments op_brl_locktest {W C H}.
Arguments op_brl_close {W C H}.

Definition brlock_tdb_ops : brlock_ops (world (list lock_struct)) brl_context brl_handle :=
  mk_brlock_ops brl_tdb_lock brl_tdb_unlock brl_tdb_remove_pending brl_tdb_locktest
    brl_tdb_close.

Section dispatch.
Context {W C H : Type} (ops : brlock_ops W C H).

Definition brl_lock (c : C) (h : H) (pid st sz : Z) (t : brl_type) (nptr : Z) :=
  op_brl_lock ops c h pid st sz t nptr.
Definition brl_unlock (c : C) (h : H) (pid st sz : Z) := op_brl_unlock ops c h pid st sz.
Definition brl_remove_pending (c : C) (h : H) (nptr : Z) := op_brl_remove_pending ops c h nptr.
Definition brl_locktest (c : C) (h : H) (pid st sz : Z) (t : brl_type) :=
  op_brl_locktest ops c h pid st sz t.
Definition brl_close (c : C) (h : H) := op_brl_close ops c h.
End dispatch.

(** ** The table invariant

    Read in order, no lock of a record conflicts with an earlier one: each was
    admitted when its predecessors were in place.  No record is empty. *)

Definition compatible (a b : lock_struct) : Prop := brl_tdb_conflict a b = false.

Definition locks_ok (l : list lock_struct) : Prop := l <> [] /\ ordered compatible l.

(** ** Lemmas on overlap *)

Lemma brl_tdb_overlap_sym a b : brl_tdb_overlap a b = brl_tdb_overlap b a.
Proof.
  unfold brl_tdb_overlap. rewrite (Z.eqb_sym (start b)), (Z.eqb_sym (size b) (size a)).
  rewrite (orb_comm (u64 (start b + size b) <=? start a)).
  destruct (Z.eqb_spec (size a) (size b)) as [He|]; [|by rewrite !andb_false_r].
  by rewrite He.
Qed.

Lemma brl_type_eqb_true a b : brl_type_eqb a b = true <-> a = b.
Proof. apply bool_decide_eq_true. Qed.

Lemma conflict_overlap a b : brl_tdb_conflict a b = true -> brl_tdb_overlap a b = true.
Proof. unfold brl_tdb_conflict. by repeat case_goal. Qed.

Lemma conflict_pending_r a b : is_pending (lock_type b) = true -> brl_tdb_conflict a b = false.
Proof. unfold brl_tdb_conflict. intros ->. by rewrite orb_true_r. Qed.

(** ** Lemmas on the operations *)

Lemma locks_ok_snoc l x :
  (l = [] \/ locks_ok l) -> existsb (fun y => brl_tdb_conflict y x) l = false ->
  locks_ok (l ++ [x]).
Proof.
  intros Hl Hx. split; [by destruct l|]. apply ordered_snoc.
  - destruct Hl as [->|[_ Hl]]; [apply ordered_nil|done].
  - intros y Hy. by apply (proj1 (existsb_false_elem_of _ _) Hx).
Qed.

Lemma locks_ok_sublist k l : sublist k l -> k <> [] -> locks_ok l -> locks_ok k.
Proof. intros Hs Hne [_ Ho]. split; [done|]. by eapply ordered_sublist. Qed.

Lemma locks_ok_delete i l :
  (i < length l)%nat -> length l <> 1%nat -> locks_ok l -> locks_ok (delete i l).
Proof.
  intros Hi H1 Hok. apply (locks_ok_sublist _ l); [apply sublist_delete| |done].
  intros He. apply (f_equal length) in He. rewrite length_delete in He by (by apply lookup_lt_is_Some).
  simpl in He. lia.
Qed.

Lemma close_loop_filter brl brlh fuel suf : forall pre n,
  (length suf <= fuel)%nat ->
  close_loop brl brlh fuel (length pre) (pre ++ suf) n =
  (pre ++ List.filter (fun l => negb (close_match brl brlh l)) suf,
   n + Z.of_nat (length (List.filter (close_match brl brlh) suf))).
Proof.
  revert suf. induction fuel as [|fuel IH]; intros suf pre n Hl.
  { destruct suf; simpl in *; [|lia]. f_equal. lia. }
  simpl. rewrite lookup_app_r, Nat.sub_diag by lia.
  destruct suf as [|l suf]; simpl; [f_equal; lia|]. simpl in Hl.
  destruct (close_match brl brlh l); simpl.
  - rewrite delete_middle, IH by lia. f_equal. lia.
  - replace (S (length pre)) with (length (pre ++ [l])) by (rewrite length_app; simpl; lia).
    rewrite (cons_middle l pre suf), app_assoc, IH by lia. by rewrite <- app_assoc.
Qed.

Lemma close_loop_eq brl brlh l :
  close_loop brl brlh (length l) 0 l 0 =
  (List.filter (fun l => negb (close_match brl brlh l)) l,
   Z.of_nat (length (List.filter (close_match brl brlh) l))).
Proof. apply (close_loop_filter brl brlh (length l) l [] 0). lia. Qed.

Lemma sublist_filter_b {A} (p : A -> bool) l : sublist (List.filter p l) l.
Proof. induction l as [|x l IH]; simpl; [constructor|]. destruct (p x); by constructor. Qed.

Lemma unlock_index_lt brl brlh pid st sz l i :
  unlock_index brl brlh pid st sz l = Some i -> (i < length l)%nat.
Proof.
  unfold unlock_index. destruct (find_idx _ l) as [j|] eqn:E.
  - intros [= <-]. by eapply find_idx_lt.
  - apply find_idx_lt.
Qed.

Lemma fetch_locks_ok k :
  triple (recs_ok locks_ok) (tdb_fetch k)
    (fun o w => recs_ok locks_ok w /\ (forall l, o = Some l -> locks_ok l)).
Proof.
  intros w Hw. simpl. split; [done|]. intros l Hl. by apply (Hw k).
Qed.

Lemma lock_body_ok brl brlh pid st sz t nptr :
  preserves (recs_ok locks_ok) (brl_tdb_lock_body brl brlh pid st sz t nptr).
Proof.
  eapply preserves_bind_fact; [apply fetch_locks_ok|]. intros o Ho. cbv beta zeta.
  destruct (existsb _ _) eqn:E; [st_walk|].
  apply preserves_bind; [|st_walk]. apply recs_ok_store, locks_ok_snoc; [|done].
  destruct o as [l|]; [right; by apply Ho | by left].
Qed.

Lemma lock_now_ok brl brlh pid st sz t nptr :
  preserves (recs_ok locks_ok) (brl_tdb_lock_now brl brlh pid st sz t nptr).
Proof. unfold brl_tdb_lock_now. st_walk. apply lock_body_ok. Qed.

#[export] Hint Resolve lock_body_ok lock_now_ok : samba.

Lemma lock_ok brl brlh pid st sz t nptr :
  preserves (recs_ok locks_ok) (brl_tdb_lock brl brlh pid st sz t nptr).
Proof. unfold brl_tdb_lock. st_walk. Qed.

Lemma unlock_ok brl brlh pid st sz :
  preserves (recs_ok locks_ok) (brl_tdb_unlock brl brlh pid st sz).
Proof.
  unfold brl_tdb_unlock. apply preserves_bind; [auto with samba|]. intros [|]; cbn [negb]; [|st_walk].
  eapply preserves_bind_fact; [apply fetch_locks_ok|]. intros o Ho.
  destruct o as [l|]; [|st_walk]. specialize (Ho l eq_refl).
  destruct (unlock_index _ _ _ _ _ l) as [i|] eqn:Ei; [|st_walk].
  apply preserves_bind; [|st_walk].
  destruct (length l =? 1)%nat eqn:El; [auto with samba|].
  apply preserves_bind; [auto with samba|]. intros _.
  apply recs_ok_store, locks_ok_delete; [by eapply unlock_index_lt | | done].
  by apply Nat.eqb_neq in El.
Qed.

Lemma remove_pending_ok brl brlh nptr :
  preserves (recs_ok locks_ok) (brl_tdb_remove_pending brl brlh nptr).
Proof.
  unfold brl_tdb_remove_pending. apply preserves_bind; [auto with samba|]. intros [|]; cbn [negb]; [|st_walk].
  eapply preserves_bind_fact; [apply fetch_locks_ok|]. intros o Ho.
  destruct o as [l|]; [|st_walk]. specialize (Ho l eq_refl).
  destruct (find_idx _ l) as [i|] eqn:Ei; [|st_walk].
  apply preserves_bind; [|st_walk].
  destruct (length l =? 1)%nat eqn:El; [auto with samba|].
  apply recs_ok_store, locks_ok_delete; [by eapply find_idx_lt | | done].
  by apply Nat.eqb_neq in El.
Qed.

Lemma close_ok brl brlh : preserves (recs_ok locks_ok) (brl_tdb_close brl brlh).
Proof.
  unfold brl_tdb_close. apply preserves_bind; [auto with samba|]. intros [|]; cbn [negb]; [|st_walk].
  eapply preserves_bind_fact; [apply fetch_locks_ok|]. intros o Ho.
  destruct o as [l|]; [|st_walk]. specialize (Ho l eq_refl). rewrite close_loop_eq.
  apply preserves_bind; [|st_walk].
  destruct (length _ =? 0)%nat eqn:El; [auto with samba|].
  destruct (negb _); [|st_walk]. apply preserves_bind; [auto with samba|]. intros _.
  apply recs_ok_store, (locks_ok_sublist _ l); [apply sublist_filter_b| |done].
  intros He. by rewrite He in El.
Qed.

Lemma locktest_ok brl brlh pid st sz t :
  preserves (recs_ok locks_ok) (brl_tdb_locktest brl brlh pid st sz t).
Proof. unfold brl_tdb_locktest. st_walk. intros w Hw. done. Qed.

#[export] Hint Resolve lock_ok unlock_ok remove_pending_ok close_ok locktest_ok : samba.

(** ** Runs: the calls of any number of clients, in any order *)

Inductive brl_call : Set :=
  | Call_lock (brl : brl_context) (h : brl_handle) (pid st sz : Z) (t : brl_type) (nptr : Z)
  | Call_unlock (brl : brl_context) (h : brl_handle) (pid st sz : Z)
  | Call_remove_pending (brl : brl_context) (h : brl_handle) (nptr : Z)
  | Call_locktest (brl : brl_context) (h : brl_handle) (pid st sz : Z) (t : brl_type)
  | Call_close (brl : brl_context) (h : brl_handle).

Definition brl_dispatch (c : brl_call) : ST (world (list lock_struct)) NTSTATUS :=
  match c with
  | Call_lock brl h pid st sz t nptr =>
      do r <- brl_lock brlock_tdb_ops brl h pid st sz t nptr; st_ret r.1
  | Call_unlock brl h pid st sz => brl_unlock brlock_tdb_ops brl h pid st sz
  | Call_remove_pending brl h nptr => brl_remove_pending brlock_tdb_ops brl h nptr
  | Call_locktest brl h pid st sz t => brl_locktest brlock_tdb_ops brl h pid st sz t
  | Call_close brl h => brl_close brlock_tdb_ops brl h
  end.

Fixpoint brl_run (cs : list brl_call) : ST (world (list lock_struct)) (list NTSTATUS) :=
  match cs with
  | [] => st_ret []
  | c :: cs' =>
      do s <- brl_dispatch c;
      do ss <- brl_run cs';
      st_ret (s :: ss)
  end.

Lemma brl_run_preserves I :
  (forall c, preserves I (brl_dispatch c)) -> forall cs, preserves I (brl_run cs).
Proof. intros H cs. induction cs as [|c cs IH]; simpl; st_walk. Qed.

Lemma dispatch_ok c : preserves (recs_ok locks_ok) (brl_dispatch c).
Proof. destruct c; simpl; st_walk. Qed.

(** An empty database with the given faults to come. *)
Definition empty_world (R : Type) (faults : list bool) : world R := mk_world ∅ ∅ faults [].

Lemma brl_run_locks_ok cs faults :
  recs_ok locks_ok (brl_run cs (empty_world _ faults)).2.
Proof.
  pose proof (brl_run_preserves _ dispatch_ok cs (empty_world _ faults)) as H.
  destruct (brl_run cs _) as [a w]. apply H. apply map_Forall_empty.
Qed.

(** ** Chain locks *)

Section depths.
Context (d : blob -> nat).

Lemma depths_bind {A B} d' (m : ST (world (list lock_struct)) A)
    (k : A -> ST (world (list lock_struct)) B) :
  preserves (depths d') m -> (forall a, triple (depths d') (k a) (fun _ => depths d)) ->
  triple (depths d') (st_bind m k) (fun _ => depths d).
Proof. intros Hm Hk. by apply triple_bind with (fun _ => depths d'). Qed.

(** Release the lock and return. *)
Lemma depths_unlock_ret {A} k (a : A) :
  triple (depths (R:=list lock_struct) (bump d k))
    (do! tdb_chainunlock k; st_ret a) (fun _ => depths d).
Proof.
  eapply triple_bind; [apply depths_chainunlock|]. intros ?. by apply triple_ret.
Qed.

(** A guarded section: take the lock, or fail; then a body that releases it. *)
Lemma depths_guard {A} k (bad : A) (body : ST (world (list lock_struct)) A) :
  triple (depths (bump d k)) body (fun _ => depths d) ->
  preserves (depths d)
    (do locked <- tdb_chainlock k; if negb locked then st_ret bad else body).
Proof.
  intros Hb. eapply triple_bind; [apply depths_chainlock|].
  intros [|]; cbn [negb]; [done|]. by apply triple_ret.
Qed.
End depths.

#[export] Hint Resolve depths_unlock_ret : samba.

(** Walk through a guarded section. *)
Ltac depth_walk :=
  repeat match goal with
  | |- forall _, _ => intro
  | |- triple _ (if negb ?b then _ else _) _ => destruct b; cbn [negb]
  | |- triple _ (if ?b then _ else _) _ => destruct b eqn:?
  | |- triple _ (match ?x with _ => _ end) _ => destruct x eqn:?
  | |- triple _ (st_bind (tdb_chainunlock _) _) _ => apply depths_unlock_ret
  | |- triple _ (st_bind _ _) _ => apply depths_bind; [st_walk|]
  end.

Lemma lock_body_depths d brl brlh pid st sz t nptr :
  triple (depths (bump d (key brlh))) (brl_tdb_lock_body brl brlh pid st sz t nptr)
    (fun _ => depths d).
Proof. unfold brl_tdb_lock_body. depth_walk. Qed.

Lemma lock_now_depths d brl brlh pid st sz t nptr :
  preserves (depths d) (brl_tdb_lock_now brl brlh pid st sz t nptr).
Proof. apply depths_guard, lock_body_depths. Qed.

#[export] Hint Resolve lock_now_depths : samba.

(** The call returns the handle it was given, up to [last_lock]. *)
Lemma lock_failed_handle h lock l :
  set_last_lock (brl_tdb_lock_failed h lock).2 l = set_last_lock h l.
Proof. unfold brl_tdb_lock_failed. by repeat case_goal. Qed.

Lemma lock_body_handle brl h pid st sz t nptr w l :
  set_last_lock (brl_tdb_lock_body brl h pid st sz t nptr w).1.2 l = set_last_lock h l.
Proof.
  unfold brl_tdb_lock_body, st_bind, tdb_fetch, st_get, st_ret. simpl.
  destruct (existsb _ _); simpl; [apply lock_failed_handle|].
  by destruct (tdb_store _ _ _).
Qed.

Lemma lock_now_handle brl h pid st sz t nptr w l :
  set_last_lock (brl_tdb_lock_now brl h pid st sz t nptr w).1.2 l = set_last_lock h l.
Proof.
  unfold brl_tdb_lock_now, st_bind. destruct (tdb_chainlock _ _) as [[] w']; simpl; [|done].
  apply lock_body_handle.
Qed.

(** [brl_tdb_lock] on a pending lock, with the handle of the recursive call
    resolved: the code's [brlh] is the caller's, [last_lock] included. *)
Lemma pending_lock_eq brl h pid st sz t nptr w :
  is_pending t = true ->
  brl_tdb_lock brl h pid st sz t nptr w =
  (do locked <- tdb_chainlock (key h);
   if negb locked then st_ret (NT_STATUS_INTERNAL_DB_CORRUPTION, h)
   else
     do res <- brl_tdb_lock_now brl h pid st sz
                 (if brl_type_eqb t PENDING_READ_LOCK then READ_LOCK else WRITE_LOCK) 0;
     if NT_STATUS_IS_OK res.1 then do! tdb_chainunlock (key h); st_ret (NT_STATUS_OK, h)
     else brl_tdb_lock_body brl h pid st sz t nptr) w.
Proof.
  intros Ht. unfold brl_tdb_lock. rewrite Ht. cbn [negb]. unfold st_bind.
  destruct (tdb_chainlock _ _) as [[] w']; cbn [negb]; [|done]. cbv zeta.
  set (rw := if brl_type_eqb t _ then _ else _).
  pose proof (lock_now_handle brl h pid st sz rw 0 w' (last_lock h)) as Hh.
  destruct (brl_tdb_lock_now _ _ _ _ _ _ _ _) as [[s h'] w'']. cbn [fst snd] in *.
  rewrite Hh. by replace (set_last_lock h (last_lock h)) with h by (by destruct h).
Qed.

Lemma lock_depths d brl brlh pid st sz t nptr :
  preserves (depths d) (brl_tdb_lock brl brlh pid st sz t nptr).
Proof.
  destruct (is_pending t) eqn:Ht.
  - intros w Hw. rewrite pending_lock_eq by done. revert w Hw. apply depths_guard.
    depth_walk. apply lock_body_depths.
  - unfold brl_tdb_lock. rewrite Ht. cbn [negb]. auto with samba.
Qed.

Lemma unlock_depths d brl brlh pid st sz :
  preserves (depths d) (brl_tdb_unlock brl brlh pid st sz).
Proof. apply depths_guard. depth_walk. Qed.

Lemma remove_pending_depths d brl brlh nptr :
  preserves (depths d) (brl_tdb_remove_pending brl brlh nptr).
Proof. apply depths_guard. depth_walk. Qed.

Lemma close_depths d brl brlh : preserves (depths d) (brl_tdb_close brl brlh).
Proof. apply depths_guard. depth_walk. Qed.

Lemma locktest_depths d brl brlh pid st sz t :
  preserves (depths d) (brl_tdb_locktest brl brlh pid st sz t).
Proof. unfold brl_tdb_locktest. st_walk. Qed.

Lemma dispatch_depths d c : preserves (depths d) (brl_dispatch c).
Proof.
  destruct c; simpl; st_walk.
  - apply lock_depths.
  - apply unlock_depths.
  - apply remove_pending_depths.
  - apply locktest_depths.
  - apply close_depths.
Qed.

(** ** Properties of the table *)

(** The byte offsets a lock covers. *)
Definition covers (l : lock_struct) (o : Z) : Prop := start l <= o < start l + size l.

(** A range inside the 64-bit file space, not reaching its last byte. *)
Definition plain_range (l : lock_struct) : Prop :=
  0 <= start l /\ 0 < size l /\ start l + size l < 2 ^ 64.

(** On non-empty ranges that end before the last byte of the 64-bit file
    space, [brl_tdb_overlap] says exactly whether the two ranges have a byte in
    common. *)
Theorem overlap_common_byte a b :
  plain_range a -> plain_range b ->
  (brl_tdb_overlap a b = true <-> exists o, covers a o /\ covers b o).
Proof.
  intros Ha Hb. unfold plain_range, covers in *. unfold brl_tdb_overlap.
  rewrite !u64_small by lia.
  destruct (negb (size a =? 0) && (start a =? start b) && (size a =? size b)) eqn:E1.
  { bool_hyps. split; [intros _; exists (start a); lia|done]. }
  destruct ((start b + size b <=? start a) || (start a + size a <=? start b)) eqn:E2.
  - split; [done|]. intros (o & Ho). apply orb_prop in E2. bool_hyps.
    destruct E2; bool_hyps; lia.
  - bool_hyps. split; [intros _|done]. exists (Z.max (start a) (start b)). lia.
Qed.

Definition ex_server : server_id := mk_server_id 7 0.
Definition ex_brl (n : Z) : brl_context := mk_brl n ex_server.
Definition ex_key : blob := [1; 2; 3].
Definition ex_handle (n : Z) : brl_handle :=
  brl_tdb_create_handle (mk_ntvfs n false) ex_key.

Example overlap_common_byte_witness :
  brl_tdb_overlap (make_lock (ex_brl 1) (ex_handle 11) 5 10 10 WRITE_LOCK 0)
                  (make_lock (ex_brl 1) (ex_handle 12) 5 19 4 READ_LOCK 0) = true.
Proof.
  apply overlap_common_byte; [unfold plain_range; simpl; lia..|].
  exists 19. unfold covers. simpl. lia.
Defined.

(** A range that ends exactly at [2^64] wraps its end to 0 and then overlaps no
    range but itself: the extra check of [brl_tdb_overlap] copes with identical
    ranges only. *)
Theorem overlap_end_of_space a b :
  start a + size a = 2 ^ 64 -> 0 <= start b -> start a <> start b \/ size a <> size b ->
  brl_tdb_overlap a b = false.
Proof.
  intros Ha Hb Hne. unfold brl_tdb_overlap. rewrite Ha.
  change (u64 (2 ^ 64)) with 0.
  destruct (negb (size a =? 0) && (start a =? start b) && (size a =? size b)) eqn:E.
  { bool_hyps. destruct Hne; congruence. }
  rewrite (proj2 (Z.leb_le 0 (start b))) by done. by rewrite orb_true_r.
Qed.

Example overlap_end_of_space_witness :
  let a := make_lock (ex_brl 1) (ex_handle 11) 5 (2 ^ 64 - 10) 10 WRITE_LOCK 0 in
  let b := make_lock (ex_brl 1) (ex_handle 12) 5 (2 ^ 64 - 8) 2 WRITE_LOCK 0 in
  covers a (2 ^ 64 - 8) /\ covers b (2 ^ 64 - 8) /\ brl_tdb_conflict a b = false.
Proof.
  cbv zeta. unfold covers. split; [simpl; lia|]. split; [simpl; lia|].
  apply overlap_end_of_space; simpl; [lia..|]. left. lia.
Defined.

(** The holder of a lock: the context and the file handle. *)
Definition same_holder (a b : lock_struct) : bool :=
  brl_tdb_same_context (context a) (context b) && ntvfs_eqb (ntvfs a) (ntvfs b).

Lemma compatible_exclusion a b :
  compatible a b -> same_holder a b = false ->
  is_pending (lock_type a) = false -> is_pending (lock_type b) = false ->
  lock_type a = WRITE_LOCK \/ lock_type b = WRITE_LOCK -> brl_tdb_overlap a b = false.
Proof.
  unfold compatible, brl_tdb_conflict, same_holder. intros Hc Hh Ha Hb Hw.
  rewrite Ha, Hb in Hc. cbn [orb] in Hc.
  destruct (brl_type_eqb (lock_type a) READ_LOCK && brl_type_eqb (lock_type b) READ_LOCK) eqn:E1.
  { apply andb_prop in E1 as [E1 E2]. apply brl_type_eqb_true in E1, E2.
    rewrite E1, E2 in Hw. by destruct Hw. }
  destruct (_ && _ && ntvfs_eqb _ _) eqn:E2; [|done].
  apply andb_prop in E2 as [[E2 _]%andb_prop E3]. by rewrite E2, E3 in Hh.
Qed.

(** Two ranges whose sharing of bytes [brl_tdb_overlap] sees: neither reaches the
    last byte of the 64-bit file space, or they are the same range. *)
Definition comparable_ranges (a b : lock_struct) : Prop :=
  plain_range a /\ plain_range b \/ start a = start b /\ size a = size b.

Lemma overlap_covers a b o :
  comparable_ranges a b -> covers a o -> covers b o -> brl_tdb_overlap a b = true.
Proof.
  intros [[Ha Hb]|[Hs Hz]] Ca Cb; [by apply overlap_common_byte; [..|exists o]|].
  unfold brl_tdb_overlap, covers in *. rewrite Hs, Hz, !Z.eqb_refl.
  replace (size b =? 0) with false by lia. done.
Qed.

(** C1: mutual exclusion.  Whatever calls the clients make, in whatever order,
    and whichever chain locks, stores and deletes fail, losing a record or not:
    when two granted locks of one file that different holders hold cover the
    same byte, both are read locks.  The ranges end before the last byte of the
    64-bit file space, or are the same: the end of a range up to the last byte
    wraps to 0, and [overlap_end_of_space] shows that another range in it is
    then granted. *)
Theorem table_exclusion cs faults k l i j a b o :
  world_recs (brl_run cs (empty_world _ faults)).2 !! k = Some l ->
  i <> j -> l !! i = Some a -> l !! j = Some b ->
  same_holder a b = false -> same_holder b a = false ->
  is_pending (lock_type a) = false -> is_pending (lock_type b) = false ->
  comparable_ranges a b -> covers a o -> covers b o ->
  lock_type a = READ_LOCK /\ lock_type b = READ_LOCK.
Proof.
  intros Hk Hij Hi Hj Hh Hh' Ha Hb Hr Ca Cb.
  destruct (brl_run_locks_ok cs faults k l Hk) as [_ Ho].
  assert (brl_tdb_overlap a b = false -> False) as Hov by (by rewrite (overlap_covers a b o)).
  assert (lock_type a = WRITE_LOCK \/ lock_type b = WRITE_LOCK -> False) as Hw.
  { intros Hw. apply Hov. destruct (decide (i < j)%nat).
    - apply compatible_exclusion; [by apply (Ho i j)|done..].
    - rewrite brl_tdb_overlap_sym. apply compatible_exclusion;
        [apply (Ho j i); [lia|done..]|done..|tauto]. }
  destruct (lock_type a), (lock_type b); try done; tauto.
Qed.

(** Two clients; the second one asks for a conflicting lock, then for a free one. *)
Definition ex_calls : list brl_call :=
  [Call_lock (ex_brl 1) (ex_handle 11) 5 0 10 WRITE_LOCK 0;
   Call_lock (ex_brl 2) (ex_handle 12) 6 5 10 READ_LOCK 0;
   Call_lock (ex_brl 2) (ex_handle 12) 6 20 10 READ_LOCK 0;
   Call_lock (ex_brl 2) (ex_handle 12) 6 0 10 PENDING_WRITE_LOCK 99].

Example ex_calls_run :
  (brl_run ex_calls (empty_world _ [])).1 =
  [NT_STATUS_OK; NT_STATUS_LOCK_NOT_GRANTED; NT_STATUS_OK; NT_STATUS_LOCK_NOT_GRANTED].
Proof. vm_compute. reflexivity. Qed.

(** Two read locks that share the bytes from 25 on. *)
Definition ex_shared : list brl_call :=
  [Call_lock (ex_brl 1) (ex_handle 11) 5 20 10 READ_LOCK 0;
   Call_lock (ex_brl 2) (ex_handle 12) 6 25 10 READ_LOCK 0;
   Call_lock (ex_brl 2) (ex_handle 12) 6 25 10 WRITE_LOCK 0].

Example table_exclusion_witness :
  let a := make_lock (ex_brl 1) (ex_handle 11) 5 20 10 READ_LOCK 0 in
  let b := make_lock (ex_brl 2) (ex_handle 12) 6 25 10 READ_LOCK 0 in
  lock_type a = READ_LOCK /\ lock_type b = READ_LOCK.
Proof.
  apply (table_exclusion ex_shared [] ex_key
    [make_lock (ex_brl 1) (ex_handle 11) 5 20 10 READ_LOCK 0;
     make_lock (ex_brl 2) (ex_handle 12) 6 25 10 READ_LOCK 0] 0 1 _ _ 27);
    [vm_compute; reflexivity | lia | reflexivity.. | | |].
  - left. unfold plain_range. simpl. lia.
  - unfold covers. simpl. lia.
  - unfold covers. simpl. lia.
Defined.

(** Every chain lock is released.  After any calls, in any order and with
    any failures, no chain of the database is left locked: every return path of
    every operation, the recursive one included, unlocks as often as it locks. *)
Theorem chain_locks_released cs faults k :
  chain_depth (brl_run cs (empty_world _ faults)).2 k = 0%nat.
Proof.
  pose proof (brl_run_preserves _ (dispatch_depths (fun _ => 0%nat)) cs
                (empty_world _ faults)) as H.
  destruct (brl_run cs _) as [a w]. apply H. done.
Qed.

(** ** Functional behaviour when no database call fails *)

Definition locks_at (w : world (list lock_struct)) (k : blob) : list lock_struct :=
  default [] (world_recs w !! k).

Definition real_type (t : brl_type) : brl_type :=
  match t with PENDING_READ_LOCK => READ_LOCK | PENDING_WRITE_LOCK => WRITE_LOCK | _ => t end.

(** What a call without failures leaves: the records and the messages. *)
Definition outcome {A} (r : A * world (list lock_struct)) (a : A)
    (recs : gmap blob (list lock_struct)) (msgs : list message) : Prop :=
  r.1 = a /\ world_recs r.2 = recs /\ world_msgs r.2 = msgs /\ world_faults r.2 = [].

Lemma lock_body_correct brl h pid st sz t nptr w :
  world_faults w = [] ->
  let lock := make_lock brl h pid st sz t nptr in
  let locks := locks_at w (key h) in
  let r := brl_tdb_lock_body brl h pid st sz t nptr w in
  if existsb (fun l => brl_tdb_conflict l lock) locks
  then outcome r (brl_tdb_lock_failed h lock) (world_recs w) (world_msgs w)
  else outcome r (if is_pending t then NT_STATUS_LOCK_NOT_GRANTED else NT_STATUS_OK, h)
         (<[key h := locks ++ [lock]]> (world_recs w)) (world_msgs w).
Proof.
  intros Hf. cbv zeta. unfold locks_at, brl_tdb_lock_body, tdb_store, next_fault, tdb_fetch,
    st_bind, st_get, st_ret, st_modify, outcome.
  simpl.
  destruct (existsb _ _); [done|]. by rewrite Hf.
Qed.

Lemma chainlock_quiet (w : world (list lock_struct)) k :
  world_faults w = [] ->
  exists w', tdb_chainlock k w = (true, w') /\ world_recs w' = world_recs w /\
             world_msgs w' = world_msgs w /\ world_faults w' = [].
Proof.
  intros Hf. unfold tdb_chainlock, next_fault, st_bind, st_modify, st_ret. rewrite Hf.
  by eexists.
Qed.

Lemma fetch_bind {A} k (f : option (list lock_struct) -> ST (world (list lock_struct)) A) w :
  st_bind (tdb_fetch k) f w = f (world_recs w !! k) w.
Proof. done. Qed.

(** Enter a guarded section of a world without faults. *)
Lemma guard_quiet {A} k (bad : A) body (w : world (list lock_struct)) :
  world_faults w = [] ->
  exists w', (do locked <- tdb_chainlock k; if negb locked then st_ret bad else body) w = body w' /\
             world_recs w' = world_recs w /\ world_msgs w' = world_msgs w /\
             world_faults w' = [].
Proof.
  intros Hf. destruct (chainlock_quiet w k Hf) as (w' & Hw & H). exists w'.
  split; [|done]. unfold st_bind. by rewrite Hw.
Qed.

Ltac enter_chainlock Hf :=
  match goal with
  | |- context [st_bind (tdb_chainlock ?k)
                  (fun locked => if negb locked then st_ret ?bad else ?body) ?w] =>
      let w' := fresh "w1" in
      destruct (guard_quiet k bad body w Hf) as (w' & -> & ? & ? & ?)
  end.

Lemma lock_now_correct brl h pid st sz t nptr w :
  world_faults w = [] ->
  let lock := make_lock brl h pid st sz t nptr in
  let locks := locks_at w (key h) in
  let r := brl_tdb_lock_now brl h pid st sz t nptr w in
  if existsb (fun l => brl_tdb_conflict l lock) locks
  then outcome r (brl_tdb_lock_failed h lock) (world_recs w) (world_msgs w)
  else outcome r (if is_pending t then NT_STATUS_LOCK_NOT_GRANTED else NT_STATUS_OK, h)
         (<[key h := locks ++ [lock]]> (world_recs w)) (world_msgs w).
Proof.
  intros Hf. cbv zeta. unfold brl_tdb_lock_now. enter_chainlock Hf.
  pose proof (lock_body_correct brl h pid st sz t nptr w1 ltac:(done)) as Hb. cbv zeta in Hb.
  unfold locks_at in *. by rewrite H, H0 in Hb.
Qed.

Lemma lock_failed_not_ok h lock : NT_STATUS_IS_OK (brl_tdb_lock_failed h lock).1 = false.
Proof. unfold brl_tdb_lock_failed. by repeat case_goal. Qed.

Lemma existsb_pending_none l lock :
  is_pending (lock_type lock) = true -> existsb (fun y => brl_tdb_conflict y lock) l = false.
Proof.
  intros Hp. apply existsb_false_elem_of. intros y _. by apply conflict_pending_r.
Qed.

(** C5: what [brl_tdb_lock] does when no database call fails.  The request is
    tried as the read or write lock it stands for.  Without a conflicting lock
    in place it is granted and appended to the file's record.  With one, a
    plain request leaves the database alone and fails with the status and the
    remembered lock of [brl_tdb_lock_failed]; a pending request is appended as
    pending, answered [NT_STATUS_LOCK_NOT_GRANTED], and the remembered
    [last_lock] of the handle is what it was. *)
Theorem brl_tdb_lock_correct brl h pid st sz t nptr w :
  world_faults w = [] ->
  let np := if is_pending t then 0 else nptr in
  let real := make_lock brl h pid st sz (real_type t) np in
  let locks := locks_at w (key h) in
  let r := brl_tdb_lock brl h pid st sz t nptr w in
  if existsb (fun l => brl_tdb_conflict l real) locks then
    if is_pending t then
      outcome r (NT_STATUS_LOCK_NOT_GRANTED, h)
        (<[key h := locks ++ [make_lock brl h pid st sz t nptr]]> (world_recs w)) (world_msgs w)
    else
      NT_STATUS_IS_OK r.1.1 = false /\
      outcome r (brl_tdb_lock_failed h real) (world_recs w) (world_msgs w)
  else
    outcome r (NT_STATUS_OK, h) (<[key h := locks ++ [real]]> (world_recs w)) (world_msgs w).
Proof.
  intros Hf. cbv zeta. destruct (is_pending t) eqn:Ht.
  - rewrite pending_lock_eq by done. enter_chainlock Hf.
    replace (if brl_type_eqb t PENDING_READ_LOCK then READ_LOCK else WRITE_LOCK)
      with (real_type t) by (by destruct t).
    unfold st_bind. pose proof (lock_now_correct brl h pid st sz (real_type t) 0 w1 H1) as Hn.
    cbv zeta in Hn. unfold locks_at in *. rewrite H, H0 in Hn.
    destruct (brl_tdb_lock_now _ _ _ _ _ _ _ _) as [[s h'] w2].
    destruct (existsb _ _) eqn:Ec; destruct Hn as (Hs & Hr & Hm & Hf'); cbn [fst snd] in *.
    + pose proof (lock_failed_not_ok h (make_lock brl h pid st sz (real_type t) 0)) as Hno.
      rewrite <- Hs in Hno. cbn [fst] in Hno. rewrite Hno.
      pose proof (lock_body_correct brl h pid st sz t nptr w2 Hf') as Hb. cbv zeta in Hb.
      rewrite existsb_pending_none, Ht in Hb by done. unfold locks_at in Hb.
      by rewrite Hr, Hm in Hb.
    + replace (is_pending (real_type t)) with false in Hs by (by destruct t).
      by injection Hs as -> ->.
  - unfold brl_tdb_lock. rewrite Ht. cbn [negb].
    replace (real_type t) with t by (by destruct t).
    pose proof (lock_now_correct brl h pid st sz t nptr w Hf) as Hn. cbv zeta in Hn.
    rewrite Ht in Hn. destruct (existsb _ _); [|done]. split; [|done].
    destruct Hn as [-> _]. apply lock_failed_not_ok.
Qed.

Definition ex_world (l : list lock_struct) : world (list lock_struct) :=
  mk_world {[ ex_key := l ]} ∅ [] [].

Example brl_tdb_lock_correct_witness :
  let w := ex_world [make_lock (ex_brl 1) (ex_handle 11) 5 0 10 WRITE_LOCK 0] in
  outcome (brl_tdb_lock (ex_brl 2) (ex_handle 12) 6 5 10 PENDING_READ_LOCK 99 w)
    (NT_STATUS_LOCK_NOT_GRANTED, ex_handle 12)
    {[ ex_key := [make_lock (ex_brl 1) (ex_handle 11) 5 0 10 WRITE_LOCK 0;
                  make_lock (ex_brl 2) (ex_handle 12) 6 5 10 PENDING_READ_LOCK 99] ]} [].
Proof.
  exact (brl_tdb_lock_correct (ex_brl 2) (ex_handle 12) 6 5 10 PENDING_READ_LOCK 99
    (ex_world [make_lock (ex_brl 1) (ex_handle 11) 5 0 10 WRITE_LOCK 0]) eq_refl).
Defined.

(** A lock the caller holds on exactly this range. *)
Definition held (brl : brl_context) (h : brl_handle) (pid st sz : Z) (l : lock_struct) : Prop :=
  unlock_match brl h pid st sz l = true /\ is_pending (lock_type l) = false.

(** [i] is the lock an unlock is for: the first write lock held on the range,
    or the first read lock when no write lock is held. *)
Definition unlock_target brl h pid st sz (locks : list lock_struct) (i : nat) : Prop :=
  exists l, locks !! i = Some l /\ held brl h pid st sz l /\
    (lock_type l <> WRITE_LOCK ->
       forall l', l' ∈ locks -> held brl h pid st sz l' -> lock_type l' <> WRITE_LOCK) /\
    (forall j l', (j < i)%nat -> locks !! j = Some l' -> held brl h pid st sz l' ->
       lock_type l' <> lock_type l).

Lemma unlock_index_Some brl h pid st sz locks i :
  unlock_index brl h pid st sz locks = Some i -> unlock_target brl h pid st sz locks i.
Proof.
  unfold unlock_index, unlock_target, held. destruct (find_idx _ locks) as [k|] eqn:E1.
  - intros [= <-]. apply find_idx_Some in E1 as (l & Hl & Hp & Hlt).
    apply andb_prop in Hp as [Hm Ht]. apply brl_type_eqb_true in Ht.
    exists l. rewrite Ht. repeat split; try done.
    intros j l' Hj Hl' [Hm' _] Ht'. specialize (Hlt j l' Hj Hl').
    by rewrite Hm', (proj2 (brl_type_eqb_true _ _) Ht') in Hlt.
  - intros E2. apply find_idx_Some in E2 as (l & Hl & Hp & Hlt).
    apply andb_prop in Hp as [Hm Ht]. apply negb_true_iff in Ht.
    exists l. split; [done|]. split; [done|]. split.
    + intros _ l' Hin [Hm' _] Ht'. pose proof (proj1 (find_idx_None _ _) E1 l' Hin) as Hn.
      simpl in Hn. by rewrite Hm', (proj2 (brl_type_eqb_true _ _) Ht') in Hn.
    + intros j l' Hj Hl' [Hm' Hp']. specialize (Hlt j l' Hj Hl').
      by rewrite Hm', Hp' in Hlt.
Qed.

Lemma unlock_index_None brl h pid st sz locks :
  unlock_index brl h pid st sz locks = None ->
  forall l, l ∈ locks -> ~ held brl h pid st sz l.
Proof.
  unfold unlock_index. destruct (find_idx _ locks); [done|].
  intros E l Hl [Hm Hp]. pose proof (proj1 (find_idx_None _ _) E l Hl) as Hn. simpl in Hn.
  by rewrite Hm, Hp in Hn.
Qed.

(** A record put back after a removal: an empty one is deleted. *)
Definition put_locks (k : blob) (l : list lock_struct) (m : gmap blob (list lock_struct)) :=
  match l with [] => delete k m | _ => <[k := l]> m end.

Lemma length_1_delete {A} (l : list A) i x :
  l !! i = Some x -> (length l =? 1)%nat = true -> delete i l = [].
Proof.
  intros Hi Hl. apply Nat.eqb_eq in Hl. pose proof (lookup_lt_Some _ _ _ Hi).
  destruct l as [|y [|z l]]; simpl in *; [lia| |lia]. by destruct i; [|lia].
Qed.

Lemma length_not_1_delete {A} (l : list A) i x :
  l !! i = Some x -> (length l =? 1)%nat = false -> delete i l <> [].
Proof.
  intros Hi Hl He. apply Nat.eqb_neq in Hl. apply (f_equal length) in He.
  rewrite length_delete in He by (by eexists). simpl in He.
  pose proof (lookup_lt_Some _ _ _ Hi). lia.
Qed.

Lemma unlock_effect brl h pid st sz w :
  world_faults w = [] ->
  let locks := locks_at w (key h) in
  let r := brl_tdb_unlock brl h pid st sz w in
  match unlock_index brl h pid st sz locks with
  | None => outcome r NT_STATUS_RANGE_NOT_LOCKED (world_recs w) (world_msgs w)
  | Some i =>
      outcome r NT_STATUS_OK (put_locks (key h) (delete i locks) (world_recs w))
        (world_msgs w ++
         brl_tdb_notify_unlock (delete i locks) (default zero_lock (locks !! i)))
  end.
Proof.
  intros Hf. cbv zeta. unfold brl_tdb_unlock. enter_chainlock Hf.
  rewrite fetch_bind, H. unfold locks_at.
  destruct (world_recs w !! key h) as [locks|] eqn:Ek; cbn [default from_option Datatypes.id];
    [|done].
  destruct (unlock_index brl h pid st sz locks) as [i|] eqn:Ei; [|done].
  destruct (unlock_index_Some _ _ _ _ _ _ _ Ei) as (removed & Hi & _).
  rewrite Hi. cbn [default from_option Datatypes.id].
  destruct (length locks =? 1)%nat eqn:El.
  - rewrite (length_1_delete _ _ _ Hi El).
    unfold outcome, tdb_delete, next_fault, st_bind, st_get, st_modify, st_ret. rewrite H1.
    rewrite H, Ek. simpl. rewrite app_nil_r, H, H0. done.
  - unfold put_locks. destruct (delete i locks) eqn:Ed;
      [by destruct (length_not_1_delete _ _ _ Hi El)|].
    rewrite <- Ed. unfold outcome, tdb_store, send, next_fault, st_bind, st_modify, st_ret.
    simpl. rewrite H1. simpl. by rewrite H, H0.
Qed.

(** What [brl_tdb_unlock] does when no database call fails.  Either the
    caller holds no lock on exactly that range, and the status is
    [NT_STATUS_RANGE_NOT_LOCKED] and nothing changes; or one such lock, a write
    lock by preference, is removed, the other locks stay in their order, the
    record is deleted when it was the last, and the pending locks that remain
    are notified. *)
Theorem brl_tdb_unlock_correct brl h pid st sz w :
  world_faults w = [] ->
  let locks := locks_at w (key h) in
  let r := brl_tdb_unlock brl h pid st sz w in
  (outcome r NT_STATUS_RANGE_NOT_LOCKED (world_recs w) (world_msgs w) /\
   (forall l, l ∈ locks -> ~ held brl h pid st sz l)) \/
  (exists i removed,
     locks !! i = Some removed /\ unlock_target brl h pid st sz locks i /\
     outcome r NT_STATUS_OK (put_locks (key h) (delete i locks) (world_recs w))
       (world_msgs w ++ brl_tdb_notify_unlock (delete i locks) removed)).
Proof.
  intros Hf. cbv zeta. pose proof (unlock_effect brl h pid st sz w Hf) as He. cbv zeta in He.
  destruct (unlock_index _ _ _ _ _ _) as [i|] eqn:Ei.
  - right. pose proof (unlock_index_Some _ _ _ _ _ _ _ Ei) as Ht.
    destruct Ht as (removed & Hi & Ht). rewrite Hi in He. exists i, removed.
    split; [done|]. split; [by exists removed|done].
  - left. split; [done|]. by apply unlock_index_None.
Qed.

Example brl_tdb_unlock_correct_witness :
  let r := brl_tdb_unlock (ex_brl 1) (ex_handle 11) 5 0 10
             (ex_world [make_lock (ex_brl 1) (ex_handle 11) 5 0 10 WRITE_LOCK 0]) in
  outcome r NT_STATUS_OK ∅ [].
Proof.
  destruct (brl_tdb_unlock_correct (ex_brl 1) (ex_handle 11) 5 0 10
    (ex_world [make_lock (ex_brl 1) (ex_handle 11) 5 0 10 WRITE_LOCK 0]) eq_refl)
    as [[_ H]|(i & removed & Hi & _ & H)].
  - exfalso. apply (H (make_lock (ex_brl 1) (ex_handle 11) 5 0 10 WRITE_LOCK 0));
      [left | split; reflexivity].
  - destruct i; [exact H|done].
Defined.

Lemma find_idx_snoc_false {A} (p : A -> bool) l x :
  (forall y, y ∈ l -> p y = false) -> p x = false -> find_idx p (l ++ [x]) = None.
Proof.
  intros Hl Hx. apply find_idx_None. intros y. rewrite elem_of_app.
  intros [Hy|Hy%list_elem_of_singleton]; [by apply Hl | by subst].
Qed.

(** A lock just appended is the one its owner's unlock finds. *)
Lemma unlock_index_snoc brl h pid st sz t nptr locks :
  is_pending t = false -> (forall l, l ∈ locks -> ~ held brl h pid st sz l) ->
  unlock_index brl h pid st sz (locks ++ [make_lock brl h pid st sz t nptr]) =
  Some (length locks).
Proof.
  intros Ht Hn.
  assert (Hm : unlock_match brl h pid st sz (make_lock brl h pid st sz t nptr) = true).
  { unfold unlock_match, brl_tdb_same_context, cluster_id_equal, ntvfs_eqb. simpl.
    by rewrite !Z.eqb_refl. }
  unfold unlock_index. destruct (brl_type_eqb t WRITE_LOCK) eqn:E.
  - rewrite find_idx_snoc; [done| |by rewrite Hm].
    apply find_idx_None. intros y Hy. destruct (unlock_match _ _ _ _ _ y) eqn:Ey; [|done]. simpl.
    destruct (brl_type_eqb (lock_type y) _) eqn:Et; [|done]. apply brl_type_eqb_true in Et.
    destruct (Hn y Hy). split; [done|]. by rewrite Et.
  - rewrite find_idx_snoc_false; [|intros y Hy|by rewrite Hm].
    + apply find_idx_snoc; [|rewrite Hm; unfold make_lock; cbn [andb lock_type]; by rewrite Ht].
      apply find_idx_None. intros y Hy. destruct (unlock_match _ _ _ _ _ y) eqn:Ey; [|done]. simpl.
      destruct (is_pending (lock_type y)) eqn:Ep; [done|]. by destruct (Hn y Hy).
    + destruct (unlock_match _ _ _ _ _ y) eqn:Ey; [|done]. simpl.
      destruct (brl_type_eqb (lock_type y) _) eqn:Et; [|done]. apply brl_type_eqb_true in Et.
      destruct (Hn y Hy). split; [done|]. by rewrite Et.
Qed.

Lemma put_locks_back (k : blob) (l : list lock_struct) (x : lock_struct) (m : gmap blob (list lock_struct)) :
  default [] (m !! k) = l -> m !! k <> Some [] -> put_locks k l (<[k := l ++ [x]]> m) = m.
Proof.
  intros Hl Hne. unfold put_locks. destruct (m !! k) as [l0|] eqn:E; simpl in Hl; subst.
  - destruct l; [done|]. rewrite insert_insert_eq. by apply insert_id.
  - by apply delete_insert_id.
Qed.

(** A lock that was granted is undone by the unlock of the same range: on
    a well-formed database, when the caller held no lock on that very range
    before, the unlock succeeds and every record is what it was. *)
Theorem lock_then_unlock brl h pid st sz t nptr w :
  world_faults w = [] -> recs_ok locks_ok w -> is_pending t = false ->
  (forall l, l ∈ locks_at w (key h) -> ~ held brl h pid st sz l) ->
  NT_STATUS_IS_OK (brl_tdb_lock brl h pid st sz t nptr w).1.1 = true ->
  let r := brl_tdb_unlock brl h pid st sz (brl_tdb_lock brl h pid st sz t nptr w).2 in
  r.1 = NT_STATUS_OK /\ world_recs r.2 = world_recs w.
Proof.
  intros Hf Hok Ht Hn Hs. cbv zeta. unfold brl_tdb_lock in *. rewrite Ht in *. cbn [negb] in *.
  pose proof (lock_now_correct brl h pid st sz t nptr w Hf) as Hl. cbv zeta in Hl.
  destruct (existsb _ _).
  { destruct Hl as [Hl _]. rewrite Hl, lock_failed_not_ok in Hs. done. }
  destruct Hl as (_ & Hr & _ & Hf'). set (w1 := (brl_tdb_lock_now _ _ _ _ _ _ _ _).2) in *.
  pose proof (unlock_effect brl h pid st sz w1 Hf') as Hu. cbv zeta in Hu.
  unfold locks_at at 1 2 in Hu. rewrite Hr, lookup_insert_eq in Hu.
  cbn [default from_option Datatypes.id] in Hu. rewrite unlock_index_snoc in Hu by done.
  destruct Hu as (Hu1 & Hu2 & _). split; [done|]. rewrite Hu2, delete_middle, app_nil_r.
  apply put_locks_back; [done|]. intros He. by destruct (Hok _ _ He).
Qed.

Example lock_then_unlock_witness :
  let w := ex_world [make_lock (ex_brl 1) (ex_handle 11) 5 0 10 READ_LOCK 0] in
  let r := brl_tdb_unlock (ex_brl 2) (ex_handle 12) 6 0 10
             (brl_tdb_lock (ex_brl 2) (ex_handle 12) 6 0 10 READ_LOCK 0 w).2 in
  r.1 = NT_STATUS_OK /\ world_recs r.2 = world_recs w.
Proof.
  apply (lock_then_unlock (ex_brl 2) (ex_handle 12) 6 0 10 READ_LOCK 0
    (ex_world [make_lock (ex_brl 1) (ex_handle 11) 5 0 10 READ_LOCK 0])); try reflexivity.
  - unfold recs_ok, ex_world. simpl. apply map_Forall_singleton. split; [done|].
    intros i j x y Hij Hi Hj. destruct j as [|[|j]]; [lia|done|done].
  - intros l Hl%list_elem_of_singleton [Hm _]. by rewrite Hl in Hm.
Defined.

(** ** Notification *)

Definition retry_msg (l : lock_struct) : message :=
  mk_msg (server (context l)) MSG_BRL_RETRY (notify_ptr l).

Definition waits_for (p removed : lock_struct) : Prop :=
  is_pending (lock_type p) = true /\ brl_tdb_overlap p removed = true.

Lemma notify_loop_sound last locks removed m :
  m ∈ notify_unlock_loop last locks removed ->
  exists p, p ∈ locks /\ waits_for p removed /\ m = retry_msg p.
Proof.
  revert last. induction locks as [|l locks IH]; intros last; simpl; [by intros []%elem_of_nil|].
  assert (Hrec : forall last', m ∈ notify_unlock_loop last' locks removed ->
                 exists p, p ∈ l :: locks /\ waits_for p removed /\ m = retry_msg p).
  { intros last' Hm. destruct (IH last' Hm) as (p & Hp & H). exists p. split; [by right|done]. }
  destruct (is_pending (lock_type l) && brl_tdb_overlap l removed) eqn:E; [|apply Hrec].
  destruct (match last with Some n => brl_tdb_overlap l n | None => false end); [apply Hrec|].
  rewrite elem_of_cons. intros [->|Hm]; [|by eapply Hrec].
  exists l. split; [left|]. split; [by apply andb_prop in E|done].
Qed.

(** A waiter is notified, or overlaps a notified pending write lock (one of
    [locks], or the [last] the scan starts with). *)
Lemma notify_loop_complete last locks removed p :
  p ∈ locks -> waits_for p removed ->
  retry_msg p ∈ notify_unlock_loop last locks removed \/
  (exists q, q ∈ locks /\ lock_type q = PENDING_WRITE_LOCK /\ brl_tdb_overlap p q = true /\
             retry_msg q ∈ notify_unlock_loop last locks removed) \/
  (exists q, last = Some q /\ brl_tdb_overlap p q = true).
Proof.
  revert last. induction locks as [|l locks IH]; intros last Hp Hw; [by apply elem_of_nil in Hp|].
  apply elem_of_cons in Hp as [->|Hp]; simpl.
  - destruct Hw as [-> ->]. simpl. destruct last as [n|]; [|left; left].
    destruct (brl_tdb_overlap l n) eqn:E; [|left; left]. right. right. by exists n.
  - destruct (is_pending (lock_type l) && brl_tdb_overlap l removed) eqn:E.
    2: { destruct (IH last Hp Hw) as [H|[(q & Hq & H)|H]]; [by left| |by right; right].
         right. left. exists q. split; [by right|done]. }
    destruct (match last with Some n => brl_tdb_overlap l n | None => false end).
    { destruct (IH last Hp Hw) as [H|[(q & Hq & H)|H]]; [by left| |by right; right].
      right. left. exists q. split; [by right|done]. }
    destruct (brl_type_eqb (lock_type l) PENDING_WRITE_LOCK) eqn:Et.
    + apply brl_type_eqb_true in Et.
      destruct (IH (Some l) Hp Hw) as [H|[(q & Hq & Ht & Ho & H)|(q & [= <-] & Ho)]].
      * left. by right.
      * right. left. exists q. repeat split; [by right|done..|by right].
      * right. left. exists l. repeat split; [left|done..|left].
    + destruct (IH last Hp Hw) as [H|[(q & Hq & Ht & Ho & H)|H]].
      * left. by right.
      * right. left. exists q. repeat split; [by right|done..|by right].
      * by right; right.
Qed.

(** C40: no waiter is forgotten by an unlock, and nobody else is woken.  Every
    retry message goes to a pending lock that overlaps the removed one; and
    every such pending lock is sent one, unless it overlaps a pending write
    lock that is (the stampede protection). *)
Theorem unlock_wakes_waiters locks removed :
  (forall m, m ∈ brl_tdb_notify_unlock locks removed ->
     exists p, p ∈ locks /\ waits_for p removed /\ m = retry_msg p) /\
  (forall p, p ∈ locks -> waits_for p removed ->
     retry_msg p ∈ brl_tdb_notify_unlock locks removed \/
     exists q, q ∈ locks /\ lock_type q = PENDING_WRITE_LOCK /\ brl_tdb_overlap p q = true /\
               retry_msg q ∈ brl_tdb_notify_unlock locks removed).
Proof.
  split; [apply notify_loop_sound|]. intros p Hp Hw.
  destruct (notify_loop_complete None locks removed p Hp Hw) as [H|[H|(q & ? & _)]];
    [by left|by right|done].
Qed.

(** ** Close *)

(** What [brl_tdb_close] does when no database call fails.  Exactly the
    locks of the handle, granted and pending, are removed; the others stay, in
    their order; an emptied record is deleted.  Retry messages are sent only
    when something was removed and the first lock that stays is a pending one:
    the loop of [brl_tdb_notify_all] tests [locks->lock_type], so the waiters
    behind a granted lock are not told that the file was closed. *)
Theorem brl_tdb_close_correct brl h locks w :
  world_faults w = [] -> locks <> [] -> world_recs w !! key h = Some locks ->
  let kept := List.filter (fun l => negb (close_match brl h l)) locks in
  outcome (brl_tdb_close brl h w) NT_STATUS_OK (put_locks (key h) kept (world_recs w))
    (world_msgs w ++
     (if existsb (close_match brl h) locks &&
         match kept with l0 :: _ => is_pending (lock_type l0) | [] => false end
      then List.flat_map (brl_tdb_notify_unlock kept) kept else [])).
Proof.
  intros Hf Hne Hk kept. unfold brl_tdb_close. enter_chainlock Hf.
  rewrite fetch_bind, H, Hk, close_loop_eq. fold kept.
  destruct (length kept =? 0)%nat eqn:El.
  - apply Nat.eqb_eq, length_zero_iff_nil in El. rewrite El, andb_false_r, app_nil_r.
    unfold outcome, tdb_delete, next_fault, st_bind, st_get, st_modify, st_ret.
    rewrite H1, H, Hk. simpl. by rewrite H.
  - assert (Hput : put_locks (key h) kept (world_recs w) = <[key h := kept]> (world_recs w))
      by (by destruct kept).
    rewrite Hput. destruct (existsb (close_match brl h) locks) eqn:Ee.
    + pose proof (existsb_filter_length _ _ Ee) as Hd.
      assert (Z.of_nat (length (List.filter (close_match brl h) locks)) <> 0) as Hz by lia.
      rewrite (proj2 (Z.eqb_neq _ _) Hz). cbn [negb andb].
      unfold outcome, tdb_store, send, next_fault, st_bind, st_modify, st_ret.
      simpl. rewrite H1. simpl. rewrite H, H0. split_and!; [done..| |done]. f_equal.
      unfold brl_tdb_notify_all. destruct kept as [|l0 kept']; [done|].
      destruct (is_pending (lock_type l0)); [done|]. by apply flat_map_none.
    + destruct (existsb_false_filter _ _ Ee) as [Hf0 Hkl]. fold kept in Hkl. rewrite Hf0.
      rewrite Hkl, insert_id by done. cbn [andb]. rewrite app_nil_r.
      unfold outcome, st_bind, st_ret. simpl. by rewrite H, H0.
Qed.

(** A waiter behind a granted lock: the close frees its range but tells nobody. *)
Example brl_tdb_close_correct_witness :
  let granted := make_lock (ex_brl 2) (ex_handle 12) 6 20 10 READ_LOCK 0 in
  let waiter := make_lock (ex_brl 3) (ex_handle 13) 7 0 10 PENDING_WRITE_LOCK 99 in
  let closing := make_lock (ex_brl 1) (ex_handle 11) 5 0 10 WRITE_LOCK 0 in
  waits_for waiter closing /\
  outcome (brl_tdb_close (ex_brl 1) (ex_handle 11) (ex_world [granted; closing; waiter]))
    NT_STATUS_OK {[ ex_key := [granted; waiter] ]} [].
Proof.
  split; [split; reflexivity|].
  set (locks := [make_lock (ex_brl 2) (ex_handle 12) 6 20 10 READ_LOCK 0;
     make_lock (ex_brl 1) (ex_handle 11) 5 0 10 WRITE_LOCK 0;
     make_lock (ex_brl 3) (ex_handle 13) 7 0 10 PENDING_WRITE_LOCK 99]).
  exact (brl_tdb_close_correct (ex_brl 1) (ex_handle 11) locks (ex_world locks)
    eq_refl ltac:(done) eq_refl).
Defined.
