(* ===== verification/OpenDb.v ===== *)
(** * The open files database ([source4/ntvfs/common/opendb_tdb.c], [opendb.c])

    The record of a file in [openfiles.tdb] is the NDR encoding of an
    [opendb_file] ([source4/librpc/idl/opendb.idl]): the opens of the file, and
    the opens waiting for one of them to close.  The encoder and decoder are
    generated from the IDL; here they are the class [OpendbCodec].  A
    [struct odb_lock] is the context and key it was made from; freeing it runs
    the destructor, which unlocks the chain.  Memory allocation succeeds. *)

From S2P Require Import Prelude NtStatus Tdb.

(** ** Data *)

Record opendb_entry : Set := mk_entry {
  e_server : server_id;
  stream_id : Z;
  share_access : Z;
  access_mask : Z;
  file_handle : Z;
  e_delete_on_close : bool;
  oplock_level : Z
}.

Record opendb_pending : Set := mk_pending { p_server : server_id; notify_ptr : Z }.

Record opendb_file : Set := mk_file {
  delete_on_close : bool;
  path : string;
  entries : list opendb_entry;
  pending : list opendb_pending
}.

Definition SEC_FILE_READ_DATA : Z := 0x1.
Definition SEC_FILE_WRITE_DATA : Z := 0x2.
Definition SEC_FILE_APPEND_DATA : Z := 0x4.
Definition SEC_FILE_EXECUTE : Z := 0x20.
Definition SEC_STD_DELETE : Z := 0x10000.

Definition NTCREATEX_SHARE_ACCESS_READ : Z := 1.
Definition NTCREATEX_SHARE_ACCESS_WRITE : Z := 2.
Definition NTCREATEX_SHARE_ACCESS_DELETE : Z := 4.
Definition NTCREATEX_OPTIONS_DELETE_ON_CLOSE : Z := 0x1000.

Definition OPLOCK_NONE : Z := 0.
Definition OPLOCK_EXCLUSIVE : Z := 1.
Definition OPLOCK_BATCH : Z := 2.

(** The generated [ndr_push_opendb_file] and [ndr_pull_opendb_file]: what is
    pushed is pulled back. *)
Class OpendbCodec : Type := {
  ndr_push : opendb_file -> NTSTATUS + blob;
  ndr_pull : blob -> NTSTATUS + opendb_file;
  ndr_pull_push : forall f b, ndr_push f = inr b -> ndr_pull b = inr f
}.

Record odb_context : Set := mk_odb { odb_server : server_id; oplocks : bool }.

Record odb_lock : Set := mk_lck { lck_odb : odb_context; lck_key : blob }.

(** ** Share modes *)

Definition DATA_ACCESS : Z :=
  SEC_FILE_WRITE_DATA ||| SEC_FILE_APPEND_DATA ||| SEC_FILE_READ_DATA |||
  SEC_FILE_EXECUTE ||| SEC_STD_DELETE.

(** [CHECK_MASK(am, right, sa, share)]: [true] when it returns the violation. *)
Definition CHECK_MASK (am right sa share : Z) : bool := (am &? right) && negb (sa &? share).

Definition share_conflict (e1 e2 : opendb_entry) : NTSTATUS :=
  if negb (access_mask e1 &? DATA_ACCESS) then NT_STATUS_OK
  else if negb (access_mask e2 &? DATA_ACCESS) then NT_STATUS_OK
  else if negb (stream_id e1 =? stream_id e2) then NT_STATUS_OK
  else if CHECK_MASK (access_mask e1) (SEC_FILE_WRITE_DATA ||| SEC_FILE_APPEND_DATA)
            (share_access e2) NTCREATEX_SHARE_ACCESS_WRITE then NT_STATUS_SHARING_VIOLATION
  else if CHECK_MASK (access_mask e2) (SEC_FILE_WRITE_DATA ||| SEC_FILE_APPEND_DATA)
            (share_access e1) NTCREATEX_SHARE_ACCESS_WRITE then NT_STATUS_SHARING_VIOLATION
  else if CHECK_MASK (access_mask e1) (SEC_FILE_READ_DATA ||| SEC_FILE_EXECUTE)
            (share_access e2) NTCREATEX_SHARE_ACCESS_READ then NT_STATUS_SHARING_VIOLATION
  else if CHECK_MASK (access_mask e2) (SEC_FILE_READ_DATA ||| SEC_FILE_EXECUTE)
            (share_access e1) NTCREATEX_SHARE_ACCESS_READ then NT_STATUS_SHARING_VIOLATION
  else if CHECK_MASK (access_mask e1) SEC_STD_DELETE
            (share_access e2) NTCREATEX_SHARE_ACCESS_DELETE then NT_STATUS_SHARING_VIOLATION
  else if CHECK_MASK (access_mask e2) SEC_STD_DELETE
            (share_access e1) NTCREATEX_SHARE_ACCESS_DELETE then NT_STATUS_SHARING_VIOLATION
  else NT_STATUS_OK.

(** The loop over [file.entries] that returns the first conflict. *)
Fixpoint share_conflicts (es : list opendb_entry) (e : opendb_entry) : NTSTATUS :=
  match es with
  | [] => NT_STATUS_OK
  | e1 :: es' =>
      let status := share_conflict e1 e in
      if NT_STATUS_IS_OK status then share_conflicts es' e else status
  end.

(** ** Operations *)

Section ops.
Context `{OpendbCodec}.

Definition odb_tdb_lock (odb : odb_context) (k : blob) : ST (world blob) (option odb_lock) :=
  do locked <- tdb_chainlock k;
  st_ret (if locked : bool then Some (mk_lck odb k) else None).

(** [talloc_free(lck)] *)
Definition odb_lock_destructor (lck : odb_lock) : ST (world blob) unit :=
  tdb_chainunlock (lck_key lck).

Definition odb_pull_record (lck : odb_lock) : ST (world blob) (NTSTATUS + opendb_file) :=
  do dbuf <- tdb_fetch (lck_key lck);
  st_ret match dbuf with
         | None => inl NT_STATUS_OBJECT_NAME_NOT_FOUND
         | Some b => ndr_pull b
         end.

Definition odb_push_record (lck : odb_lock) (file : opendb_file) : ST (world blob) NTSTATUS :=
  if (length (entries file) =? 0)%nat then
    do done <- tdb_delete (lck_key lck);
    st_ret (if done : bool then NT_STATUS_OK else NT_STATUS_INTERNAL_DB_CORRUPTION)
  else
    match ndr_push file with
    | inl status => st_ret status
    | inr b =>
        do done <- tdb_store (lck_key lck) b;
        st_ret (if done : bool then NT_STATUS_OK else NT_STATUS_INTERNAL_DB_CORRUPTION)
    end.

Definition odb_oplock_break_send (e : opendb_entry) : ST (world blob) unit :=
  send [mk_msg (e_server e) MSG_NTVFS_OPLOCK_BREAK (file_handle e)].

Definition holder_of (level : Z) (es : list opendb_entry) : option opendb_entry :=
  List.find (fun e => oplock_level e =? level) es.

(** [want_oplock] is [oplock_granted != NULL]; the second result is what is
    written there, if anything. *)
Definition odb_tdb_open_file (lck : odb_lock) (fh stream share access : Z) (del : bool)
    (p : string) (level : Z) (want_oplock : bool) : ST (world blob) (NTSTATUS * option Z) :=
  let level := if negb (oplocks (lck_odb lck)) then OPLOCK_NONE else level in
  do pulled <- odb_pull_record lck;
  let blank := mk_file false p [] [] in
  match (match pulled with
         | inr file => inr file
         | inl status =>
             if NT_STATUS_EQUAL status NT_STATUS_OBJECT_NAME_NOT_FOUND then inr blank
             else inl status
         end) with
  | inl status => st_ret (status, None)
  | inr file =>
      let e := mk_entry (odb_server (lck_odb lck)) stream share access fh del OPLOCK_NONE in
      match holder_of OPLOCK_BATCH (entries file) with
      | Some e1 =>
          do! odb_oplock_break_send e1; st_ret (NT_STATUS_OPLOCK_NOT_GRANTED, None)
      | None =>
          if delete_on_close file || (negb (length (entries file) =? 0)%nat && del) then
            st_ret (NT_STATUS_DELETE_PENDING, None)
          else
            let status := share_conflicts (entries file) e in
            if negb (NT_STATUS_IS_OK status) then st_ret (status, None)
            else
              match holder_of OPLOCK_EXCLUSIVE (entries file) with
              | Some e1 =>
                  do! odb_oplock_break_send e1; st_ret (NT_STATUS_OPLOCK_NOT_GRANTED, None)
              | None =>
                  let granted :=
                    if ((level =? OPLOCK_BATCH) || (level =? OPLOCK_EXCLUSIVE)) &&
                       (length (entries file) =? 0)%nat then level else OPLOCK_NONE in
                  let e := if want_oplock
                           then mk_entry (e_server e) stream share access fh del granted
                           else e in
                  do status <- odb_push_record lck
                    (mk_file (delete_on_close file) (path file) (entries file ++ [e])
                       (pending file));
                  st_ret (status, if want_oplock then Some granted else None)
              end
      end
  end.

Definition odb_tdb_open_file_pending (lck : odb_lock) (private : Z)
    : ST (world blob) NTSTATUS :=
  do pulled <- odb_pull_record lck;
  match pulled with
  | inl status => st_ret status
  | inr file =>
      odb_push_record lck
        (mk_file (delete_on_close file) (path file) (entries file)
           (pending file ++ [mk_pending (odb_server (lck_odb lck)) private]))
  end.

Definition entry_match (lck : odb_lock) (fh : Z) (e : opendb_entry) : bool :=
  (fh =? file_handle e) && cluster_id_equal (odb_server (lck_odb lck)) (e_server e).

Definition retry_open_msg (p : opendb_pending) : message :=
  mk_msg (p_server p) MSG_PVFS_RETRY_OPEN (notify_ptr p).

Definition odb_tdb_close_file (lck : odb_lock) (fh : Z) : ST (world blob) NTSTATUS :=
  do pulled <- odb_pull_record lck;
  match pulled with
  | inl status => st_ret status
  | inr file =>
      match find_idx (entry_match lck fh) (entries file) with
      | None => st_ret NT_STATUS_UNSUCCESSFUL
      | Some i =>
          let doc := match entries file !! i with
                     | Some e => if e_delete_on_close e then true else delete_on_close file
                     | None => delete_on_close file
                     end in
          do! send (List.map retry_open_msg (pending file));
          odb_push_record lck (mk_file doc (path file) (delete i (entries file)) [])
      end
  end.

Definition odb_pending_match (lck : odb_lock) (private : Z) (p : opendb_pending) : bool :=
  (private =? notify_ptr p) && cluster_id_equal (odb_server (lck_odb lck)) (p_server p).

Definition odb_tdb_remove_pending (lck : odb_lock) (private : Z) : ST (world blob) NTSTATUS :=
  do pulled <- odb_pull_record lck;
  match pulled with
  | inl status => st_ret status
  | inr file =>
      match find_idx (odb_pending_match lck private) (pending file) with
      | None => st_ret NT_STATUS_UNSUCCESSFUL
      | Some i =>
          odb_push_record lck
            (mk_file (delete_on_close file) (path file) (entries file) (delete i (pending file)))
      end
  end.

Definition odb_tdb_rename (lck : odb_lock) (p : string) : ST (world blob) NTSTATUS :=
  do pulled <- odb_pull_record lck;
  match pulled with
  | inl status =>
      st_ret (if NT_STATUS_EQUAL NT_STATUS_OBJECT_NAME_NOT_FOUND status
              then NT_STATUS_OK else status)
  | inr file =>
      odb_push_record lck (mk_file (delete_on_close file) p (entries file) (pending file))
  end.

Definition odb_tdb_set_delete_on_close (lck : odb_lock) (del : bool) : ST (world blob) NTSTATUS :=
  do pulled <- odb_pull_record lck;
  match pulled with
  | inl status => st_ret status
  | inr file =>
      odb_push_record lck (mk_file del (path file) (entries file) (pending file))
  end.

(** What is written through the out parameters; [None] where nothing is. *)
Record doc_result : Set := mk_doc {
  del_on_close : option bool;
  open_count : option Z;
  doc_path : option string
}.

Definition no_doc : doc_result := mk_doc None None None.

Definition odb_tdb_get_delete_on_close (odb : odb_context) (k : blob)
    (want_count want_path : bool) : ST (world blob) (NTSTATUS * doc_result) :=
  do olck <- odb_tdb_lock odb k;
  match olck with
  | None => st_ret (NT_STATUS_NO_MEMORY, no_doc)
  | Some lck =>
      do pulled <- odb_pull_record lck;
      match pulled with
      | inl status =>
          do! odb_lock_destructor lck;
          st_ret (if NT_STATUS_EQUAL status NT_STATUS_OBJECT_NAME_NOT_FOUND
                  then (NT_STATUS_OK, mk_doc (Some false) None None)
                  else (status, no_doc))
      | inr file =>
          let only_del := match entries file with
                          | [e] => e_delete_on_close e
                          | _ => false
                          end in
          do! odb_lock_destructor lck;
          st_ret (NT_STATUS_OK,
                  mk_doc (Some (if want_path && only_del then true else delete_on_close file))
                    (if want_count then Some (Z.of_nat (length (entries file))) else None)
                    (if want_path then Some (path file) else None))
      end
  end.

Definition odb_tdb_can_open (lck : odb_lock) (share options access : Z)
    : ST (world blob) NTSTATUS :=
  do pulled <- odb_pull_record lck;
  st_ret
    match pulled with
    | inl status =>
        if NT_STATUS_EQUAL status NT_STATUS_OBJECT_NAME_NOT_FOUND then NT_STATUS_OK else status
    | inr file =>
        if (options &? NTCREATEX_OPTIONS_DELETE_ON_CLOSE) &&
           negb (length (entries file) =? 0)%nat then NT_STATUS_SHARING_VIOLATION
        else if delete_on_close file then NT_STATUS_DELETE_PENDING
        else
          let e := mk_entry (odb_server (lck_odb lck)) 0 share access 0 false 0 in
          if NT_STATUS_IS_OK (share_conflicts (entries file) e) then NT_STATUS_OK
          else NT_STATUS_SHARING_VIOLATION
    end.

(** The operations a caller may do between [odb_lock] and [talloc_free]. *)
Inductive odb_op : Set :=
  | Op_open_file (fh stream share access : Z) (del : bool) (p : string) (level : Z)
      (want_oplock : bool)
  | Op_open_file_pending (private : Z)
  | Op_close_file (fh : Z)
  | Op_remove_pending (private : Z)
  | Op_rename (p : string)
  | Op_set_delete_on_close (del : bool)
  | Op_can_open (share options access : Z).

(** The dispatch of [opendb.c] through [opendb_tdb_ops]. *)
Definition odb_do (lck : odb_lock) (op : odb_op) : ST (world blob) NTSTATUS :=
  match op with
  | Op_open_file fh stream share access del p level want =>
      do r <- odb_tdb_open_file lck fh stream share access del p level want; st_ret r.1
  | Op_open_file_pending private => odb_tdb_open_file_pending lck private
  | Op_close_file fh => odb_tdb_close_file lck fh
  | Op_remove_pending private => odb_tdb_remove_pending lck private
  | Op_rename p => odb_tdb_rename lck p
  | Op_set_delete_on_close del => odb_tdb_set_delete_on_close lck del
  | Op_can_open share options access => odb_tdb_can_open lck share options access
  end.

(** Clients: a lock handle taken, some operations, the handle freed; or the
    self-locking [odb_get_delete_on_close]. *)
Inductive odb_session : Set :=
  | Locked (odb : odb_context) (k : blob) (ops : list odb_op)
  | Get_delete_on_close (odb : odb_context) (k : blob) (want_count want_path : bool).

Fixpoint odb_do_all (lck : odb_lock) (ops : list odb_op) : ST (world blob) (list NTSTATUS) :=
  match ops with
  | [] => st_ret []
  | op :: ops' => do s <- odb_do lck op; do ss <- odb_do_all lck ops'; st_ret (s :: ss)
  end.

Definition odb_run_session (c : odb_session) : ST (world blob) (list NTSTATUS) :=
  match c with
  | Locked odb k ops =>
      do olck <- odb_tdb_lock odb k;
      match olck with
      | None => st_ret []
      | Some lck =>
          do ss <- odb_do_all lck ops;
          do! odb_lock_destructor lck; st_ret ss
      end
  | Get_delete_on_close odb k wc wp =>
      do r <- odb_tdb_get_delete_on_close odb k wc wp; st_ret [r.1]
  end.

Fixpoint odb_run (cs : list odb_session) : ST (world blob) (list (list NTSTATUS)) :=
  match cs with
  | [] => st_ret []
  | c :: cs' => do s <- odb_run_session c; do ss <- odb_run cs'; st_ret (s :: ss)
  end.
End ops.

(** ** Share modes: what two compatible opens allow each other *)

(** [e1] may do what its access asks for under the sharing [e2] allows. *)
Definition shared_by (e1 e2 : opendb_entry) : Prop :=
  (access_mask e1 &? (SEC_FILE_WRITE_DATA ||| SEC_FILE_APPEND_DATA) = true ->
     share_access e2 &? NTCREATEX_SHARE_ACCESS_WRITE = true) /\
  (access_mask e1 &? (SEC_FILE_READ_DATA ||| SEC_FILE_EXECUTE) = true ->
     share_access e2 &? NTCREATEX_SHARE_ACCESS_READ = true) /\
  (access_mask e1 &? SEC_STD_DELETE = true ->
     share_access e2 &? NTCREATEX_SHARE_ACCESS_DELETE = true).

Definition compatible (e1 e2 : opendb_entry) : Prop := share_conflict e1 e2 = NT_STATUS_OK.

Lemma CHECK_MASK_false am right sa share :
  CHECK_MASK am right sa share = false <-> (am &? right = true -> sa &? share = true).
Proof. unfold CHECK_MASK. destruct (am &? right), (sa &? share); simpl; naive_solver. Qed.

Lemma share_conflict_cases e1 e2 :
  share_conflict e1 e2 = NT_STATUS_OK \/ share_conflict e1 e2 = NT_STATUS_SHARING_VIOLATION.
Proof. unfold share_conflict. repeat case_goal; auto. Qed.

Lemma has_bits_lor_false m f g :
  m &? (f ||| g) = false -> m &? f = false /\ m &? g = false.
Proof.
  intros H. split; apply not_true_iff_false; intros (b & Hb & H1 & H2)%has_bits_testbit;
    apply (has_bits_false_testbit _ _ b H H1); rewrite Z.lor_spec, H2; by rewrite ?orb_true_r.
Qed.

(** An open without data access asks for nothing the sharing could deny. *)
Lemma no_data_shared e1 e2 : access_mask e1 &? DATA_ACCESS = false -> shared_by e1 e2.
Proof.
  unfold DATA_ACCESS. intros H.
  apply has_bits_lor_false in H as [H Hd]. apply has_bits_lor_false in H as [H He].
  apply has_bits_lor_false in H as [Hw Hr].
  assert (access_mask e1 &? (SEC_FILE_READ_DATA ||| SEC_FILE_EXECUTE) = false) as Hre.
  { apply not_true_iff_false. intros (b & Hb & H1 & H2)%has_bits_testbit.
    rewrite Z.lor_spec in H2. apply orb_prop in H2 as [H2|H2];
      [apply (has_bits_false_testbit _ _ b Hr H1 H2) | apply (has_bits_false_testbit _ _ b He H1 H2)]. }
  unfold shared_by. rewrite Hw, Hd, Hre. done.
Qed.

Lemma compatible_shared_by e1 e2 :
  compatible e1 e2 -> stream_id e1 = stream_id e2 ->
  access_mask e2 &? DATA_ACCESS = true -> shared_by e1 e2.
Proof.
  unfold compatible, share_conflict. intros Hc Hs H2. rewrite H2, Hs, Z.eqb_refl in Hc.
  destruct (access_mask e1 &? DATA_ACCESS) eqn:H1; [|by apply no_data_shared].
  cbn [negb] in Hc.
  repeat match type of Hc with (if ?c then _ else _) = _ =>
    destruct c eqn:?; [done|] end.
  unfold shared_by. rewrite <- !CHECK_MASK_false. done.
Qed.

Lemma share_conflict_iff a b :
  share_conflict a b = NT_STATUS_OK <->
     access_mask a &? DATA_ACCESS = false \/ access_mask b &? DATA_ACCESS = false \/
     stream_id a <> stream_id b \/ (shared_by a b /\ shared_by b a).
Proof.
  unfold share_conflict.
  destruct (access_mask a &? DATA_ACCESS); [|naive_solver]. cbn [negb].
  destruct (access_mask b &? DATA_ACCESS); [|naive_solver]. cbn [negb].
  destruct (Z.eqb_spec (stream_id a) (stream_id b)); [|naive_solver]. cbn [negb].
  unfold shared_by. rewrite <- !CHECK_MASK_false.
  repeat match goal with |- context [if ?c then _ else _] => destruct c end; naive_solver.
Qed.

Lemma share_conflict_sym e1 e2 : share_conflict e1 e2 = share_conflict e2 e1.
Proof.
  assert (share_conflict e1 e2 = NT_STATUS_OK <-> share_conflict e2 e1 = NT_STATUS_OK) as Hs.
  { rewrite !share_conflict_iff. naive_solver. }
  destruct (share_conflict_cases e1 e2) as [H1|H1].
  - rewrite H1. symmetry. by apply Hs.
  - destruct (share_conflict_cases e2 e1) as [H2|H2]; [apply Hs in H2|]; congruence.
Qed.

(** [share_conflict] decides the share-mode rule.  Two opens are compatible
    exactly when one of them asks for no data access, or they are on different
    streams, or each may, under the other's sharing, do what it asks for; and
    the answer does not depend on their order. *)
Theorem share_conflict_correct e1 e2 :
  (share_conflict e1 e2 = NT_STATUS_OK <->
     access_mask e1 &? DATA_ACCESS = false \/ access_mask e2 &? DATA_ACCESS = false \/
     stream_id e1 <> stream_id e2 \/ (shared_by e1 e2 /\ shared_by e2 e1)) /\
  share_conflict e1 e2 = share_conflict e2 e1.
Proof. split; [apply share_conflict_iff | apply share_conflict_sym]. Qed.

Lemma share_conflicts_ok es e :
  share_conflicts es e = NT_STATUS_OK <-> forall e1, e1 ∈ es -> compatible e1 e.
Proof.
  induction es as [|a es IH]; simpl; [split; [intros _ x Hx; inversion Hx|done]|].
  unfold NT_STATUS_IS_OK. case_bool_decide as Ha.
  - rewrite IH. split; [intros Hes e1 [->|Hx]%elem_of_cons; [done|by apply Hes]|].
    intros Hes e1 Hx. apply Hes. by right.
  - split; [done|]. intros Hes. destruct Ha. apply Hes. left.
Qed.

Lemma share_conflicts_cases es e :
  share_conflicts es e = NT_STATUS_OK \/ share_conflicts es e = NT_STATUS_SHARING_VIOLATION.
Proof.
  induction es as [|a es IH]; simpl; [by left|].
  destruct (share_conflict_cases a e) as [-> | ->]; simpl; auto.
Qed.

(** ** The invariant of a file's record

    The opens are pairwise compatible, an open with an oplock is the only open
    (and its level is one that is granted), only the first open can carry the
    per-open delete flag, and a record has an open. *)

Record file_ok (f : opendb_file) : Prop := {
  fo_nonempty : entries f <> [];
  fo_compatible : ordered compatible (entries f);
  fo_oplock : forall e, e ∈ entries f -> oplock_level e <> OPLOCK_NONE ->
    (oplock_level e = OPLOCK_BATCH \/ oplock_level e = OPLOCK_EXCLUSIVE) /\ entries f = [e];
  fo_delete : forall i e, entries f !! S i = Some e -> e_delete_on_close e = false
}.

(** What the invariant says of the other fields: nothing. *)
Lemma file_ok_fields f d p q :
  file_ok f -> file_ok (mk_file d p (entries f) q).
Proof. intros []. by constructor. Qed.

Lemma lookup_delete_S {A} (l : list A) i j x :
  delete i l !! S j = Some x -> exists k, l !! S k = Some x.
Proof.
  destruct (decide (S j < i)%nat).
  - rewrite list_lookup_delete_lt by lia. eauto.
  - rewrite list_lookup_delete_ge by lia. eauto.
Qed.

Lemma file_ok_close f i d p q e :
  entries f !! i = Some e -> delete i (entries f) <> [] -> file_ok f ->
  file_ok (mk_file d p (delete i (entries f)) q).
Proof.
  intros Hi Hne []. constructor; simpl; [done|..].
  - eapply ordered_sublist; [apply sublist_delete|done].
  - intros x Hx Hl. eapply elem_of_sublist in Hx as Hin; [|apply sublist_delete].
    destruct (fo_oplock0 x Hin Hl) as [_ Hs]. rewrite Hs in Hi, Hne.
    destruct i; [done|]. simpl in Hi. by rewrite lookup_nil in Hi.
  - intros j x Hj. apply lookup_delete_S in Hj as [k Hk]. by eapply fo_delete0.
Qed.

Lemma holder_of_None level es :
  holder_of level es = None -> forall e, e ∈ es -> oplock_level e <> level.
Proof.
  intros Hn e He Hl. apply list_elem_of_In in He.
  pose proof (List.find_none _ _ Hn e He) as Hf. simpl in Hf. by apply Z.eqb_neq in Hf.
Qed.

Lemma file_ok_open f e d p q :
  entries f = [] \/ file_ok f ->
  holder_of OPLOCK_BATCH (entries f) = None ->
  holder_of OPLOCK_EXCLUSIVE (entries f) = None ->
  (entries f <> [] -> e_delete_on_close e = false) ->
  (forall e1, e1 ∈ entries f -> compatible e1 e) ->
  (oplock_level e = OPLOCK_NONE \/
   ((oplock_level e = OPLOCK_BATCH \/ oplock_level e = OPLOCK_EXCLUSIVE) /\ entries f = [])) ->
  file_ok (mk_file d p (entries f ++ [e]) q).
Proof.
  intros Hf Hb Hx Hd Hc Hl.
  assert (Hok : ordered compatible (entries f)).
  { destruct Hf as [-> | []]; [apply ordered_nil|done]. }
  constructor; simpl.
  - by destruct (entries f).
  - by apply ordered_snoc.
  - intros x [Hin|Hin%list_elem_of_singleton]%elem_of_app Hlx.
    + destruct Hf as [Hf|[_ _ Hf _]]; [rewrite Hf in Hin; inversion Hin|].
      destruct (Hf x Hin Hlx) as [[H|H] _];
        [by destruct (holder_of_None _ _ Hb x Hin)|by destruct (holder_of_None _ _ Hx x Hin)].
    + subst x. destruct Hl as [Hl|[Hl ->]]; [done|]. done.
  - intros i x Hi. destruct (decide (S i < length (entries f))%nat).
    + rewrite lookup_app_l in Hi by done. destruct Hf as [Hf|[_ _ _ Hf]]; [by rewrite Hf in Hi|].
      by eapply Hf.
    + rewrite lookup_app_r in Hi by lia.
      destruct (S i - length (entries f))%nat eqn:E; simpl in Hi; [|done]. injection Hi as <-.
      apply Hd. intros Hn. rewrite Hn in E. done.
Qed.

Section invariant.
Context `{OpendbCodec}.

Definition blob_ok (b : blob) : Prop := forall f, ndr_pull b = inr f -> file_ok f.

Abbreviation db_ok := (recs_ok blob_ok).

Lemma pull_ok lck :
  triple db_ok (odb_pull_record lck) (fun r w => db_ok w /\ forall f, r = inr f -> file_ok f).
Proof.
  intros w Hw. simpl. split; [done|]. intros f.
  destruct (world_recs w !! lck_key lck) as [b|] eqn:E; [|done]. by apply (Hw _ _ E).
Qed.

Lemma push_ok lck f :
  (entries f <> [] -> file_ok f) -> preserves db_ok (odb_push_record lck f).
Proof.
  intros Hf. unfold odb_push_record. destruct (length (entries f) =? 0)%nat eqn:El; [st_walk|].
  destruct (ndr_push f) as [|b] eqn:Ep; [st_walk|].
  apply preserves_bind; [|st_walk]. apply recs_ok_store. intros g Hg.
  rewrite (ndr_pull_push _ _ Ep) in Hg. injection Hg as <-. apply Hf. intros He.
  by rewrite He in El.
Qed.

Lemma odb_open_file_ok lck fh stream share access del p level want :
  preserves db_ok (odb_tdb_open_file lck fh stream share access del p level want).
Proof.
  unfold odb_tdb_open_file. eapply preserves_bind_fact; [apply pull_ok|]. intros pulled Hp.
  cbv beta zeta. set (blank := mk_file false p [] []).
  destruct (match pulled with inr file => inr file | inl status => _ end) as [status|f] eqn:Ef;
    [st_walk|].
  assert (Hf : entries f = [] \/ file_ok f).
  { destruct pulled as [s|f']; [|injection Ef as <-; right; by apply Hp].
    destruct (NT_STATUS_EQUAL _ _); [injection Ef as <-; by left|done]. }
  destruct (holder_of OPLOCK_BATCH (entries f)) eqn:Eb; [unfold odb_oplock_break_send; st_walk|].
  destruct (delete_on_close f || _) eqn:Ed; [st_walk|].
  destruct (share_conflicts_cases (entries f)
    (mk_entry (odb_server (lck_odb lck)) stream share access fh del OPLOCK_NONE)) as [Hc|Hc];
    rewrite Hc;
    [change (NT_STATUS_IS_OK NT_STATUS_OK) with true
    |change (NT_STATUS_IS_OK NT_STATUS_SHARING_VIOLATION) with false];
    cbn [negb]; [|st_walk].
  destruct (holder_of OPLOCK_EXCLUSIVE (entries f)) eqn:Ex; [unfold odb_oplock_break_send; st_walk|].
  apply preserves_bind; [|st_walk]. apply push_ok. intros _.
  assert (Hc' := proj1 (share_conflicts_ok _ _) Hc).
  apply file_ok_open; [done|done|done|..].
  - intros Hne. apply orb_false_elim in Ed as [_ Ed].
    destruct (entries f); [done|]. simpl in Ed. subst del. by destruct want.
  - intros e1 He1. specialize (Hc' e1 He1). by destruct want.
  - destruct want; [|by left]. simpl.
    destruct ((_ || _) && (length (entries f) =? 0)%nat) eqn:El; [|by left]. right.
    apply andb_prop in El as [El E0]. apply orb_prop in El.
    rewrite !Z.eqb_eq in El. split; [done|]. by destruct (entries f).
Qed.

Lemma odb_do_ok lck op : preserves db_ok (odb_do lck op).
Proof.
  destruct op; simpl.
  - apply preserves_bind; [apply odb_open_file_ok|st_walk].
  - eapply preserves_bind_fact; [apply pull_ok|]. intros [s|f] Hf; [st_walk|].
    apply push_ok. intros _. apply file_ok_fields. by apply Hf.
  - eapply preserves_bind_fact; [apply pull_ok|]. intros [s|f] Hf; [st_walk|].
    destruct (find_idx _ _) as [i|] eqn:Ei; [|st_walk].
    apply preserves_bind; [st_walk|]. intros _. apply push_ok. simpl. intros Hne.
    apply find_idx_Some in Ei as (e & He & _). eapply file_ok_close; [done..|by apply Hf].
  - eapply preserves_bind_fact; [apply pull_ok|]. intros [s|f] Hf; [st_walk|].
    destruct (find_idx _ _) as [i|] eqn:Ei; [|st_walk].
    apply push_ok. intros _. apply file_ok_fields. by apply Hf.
  - eapply preserves_bind_fact; [apply pull_ok|]. intros [s|f] Hf; [st_walk|].
    apply push_ok. intros _. apply file_ok_fields. by apply Hf.
  - eapply preserves_bind_fact; [apply pull_ok|]. intros [s|f] Hf; [st_walk|].
    apply push_ok. intros _. apply file_ok_fields. by apply Hf.
  - unfold odb_tdb_can_open. apply preserves_bind; [|st_walk].
    eapply triple_conseq; [apply pull_ok|done|]. by intros a w [].
Qed.

Lemma odb_do_all_ok lck ops : preserves db_ok (odb_do_all lck ops).
Proof. induction ops as [|op ops IH]; simpl; st_walk. apply odb_do_ok. Qed.

Lemma odb_session_ok c : preserves db_ok (odb_run_session c).
Proof.
  destruct c as [odb k ops|odb k wc wp]; simpl;
    unfold odb_tdb_get_delete_on_close, odb_tdb_lock, odb_lock_destructor; st_walk.
  - apply odb_do_all_ok.
  - intros w Hw. by apply pull_ok.
Qed.

Lemma odb_run_ok cs : preserves db_ok (odb_run cs).
Proof. induction cs as [|c cs IH]; simpl; st_walk. apply odb_session_ok. Qed.

(** ** Chain locks *)

Lemma depths_pull d lck : preserves (depths d) (odb_pull_record lck).
Proof. unfold odb_pull_record. st_walk. Qed.

Lemma depths_push d lck f : preserves (depths d) (odb_push_record lck f).
Proof. unfold odb_push_record. st_walk. Qed.

#[local] Hint Resolve depths_pull depths_push : samba.

Lemma odb_do_depths d lck op : preserves (depths d) (odb_do lck op).
Proof.
  destruct op; simpl; unfold odb_tdb_open_file, odb_tdb_open_file_pending, odb_tdb_close_file,
    odb_tdb_remove_pending, odb_tdb_rename, odb_tdb_set_delete_on_close, odb_tdb_can_open,
    odb_oplock_break_send; st_walk.
Qed.

Lemma odb_do_all_depths d lck ops : preserves (depths d) (odb_do_all lck ops).
Proof. induction ops as [|op ops IH]; simpl; st_walk. apply odb_do_depths. Qed.

(** A handle taken, a body that keeps the depths, the handle freed. *)
Lemma depths_locked {A} d odb k (none : A) (body : odb_lock -> ST (world blob) A) :
  (forall lck, lck_key lck = k -> triple (depths (bump d k)) (body lck) (fun _ => depths d)) ->
  preserves (depths d)
    (do olck <- odb_tdb_lock odb k;
     match olck with None => st_ret none | Some lck => body lck end).
Proof.
  intros Hb. apply triple_bind with
    (fun o => match o with None => depths d | Some lck => fun w => depths (bump d k) w /\
                lck_key lck = k end).
  - unfold odb_tdb_lock. eapply triple_bind; [apply depths_chainlock|].
    intros [|]; by apply triple_ret.
  - intros [lck|]; [|by apply triple_ret]. intros w [Hw Hk]. by apply (Hb lck Hk).
Qed.

Lemma odb_session_depths d c : preserves (depths d) (odb_run_session c).
Proof.
  destruct c as [odb k ops|odb k wc wp]; simpl.
  - apply depths_locked. intros lck Hk. rewrite <- Hk.
    eapply triple_bind; [apply odb_do_all_depths|]. intros ss.
    eapply triple_bind; [apply depths_chainunlock|]. intros ?. by apply triple_ret.
  - apply preserves_bind; [|st_walk]. apply depths_locked. intros lck Hk. rewrite <- Hk.
    eapply triple_bind; [apply depths_pull|].
    intros [s|f]; (eapply triple_bind; [apply depths_chainunlock|]); intros ?;
      by apply triple_ret.
Qed.

Lemma odb_run_depths d cs : preserves (depths d) (odb_run cs).
Proof. induction cs as [|c cs IH]; simpl; st_walk. apply odb_session_depths. Qed.
End invariant.

(** ** A codec, for the examples *)

Definition entry_tuple (e : opendb_entry) :=
  (id (e_server e), node (e_server e), stream_id e, share_access e, access_mask e,
   file_handle e, e_delete_on_close e, oplock_level e).
Definition pending_tuple (p : opendb_pending) := (id (p_server p), node (p_server p), notify_ptr p).
Definition file_tuple (f : opendb_file) :=
  (delete_on_close f, path f, List.map entry_tuple (entries f),
   List.map pending_tuple (pending f)).

Definition tuple_entry (t : Z * Z * Z * Z * Z * Z * bool * Z) : opendb_entry :=
  let '(i, n, st, sh, am, fh, del, l) := t in mk_entry (mk_server_id i n) st sh am fh del l.
Definition tuple_pending (t : Z * Z * Z) : opendb_pending :=
  let '(i, n, p) := t in mk_pending (mk_server_id i n) p.
Definition tuple_file (t : bool * string * list (Z * Z * Z * Z * Z * Z * bool * Z) *
    list (Z * Z * Z)) : opendb_file :=
  let '(d, p, es, ps) := t in
  mk_file d p (List.map tuple_entry es) (List.map tuple_pending ps).

Lemma tuple_file_tuple f : tuple_file (file_tuple f) = f.
Proof.
  destruct f as [d p es ps]. unfold tuple_file, file_tuple. cbn [delete_on_close path entries pending].
  rewrite !List.map_map. f_equal.
  - rewrite <- (List.map_id es) at 2. apply List.map_ext. by intros [[]].
  - rewrite <- (List.map_id ps) at 2. apply List.map_ext. by intros [[]].
Qed.

Definition ex_codec : OpendbCodec.
Proof.
  refine {| ndr_push := fun f => inr [Z.pos (encode (file_tuple f))];
            ndr_pull := fun b => match b with
              | [Z.pos n] => match decode n with
                             | Some t => inr (tuple_file t)
                             | None => inl NT_STATUS_INVALID_PARAMETER
                             end
              | _ => inl NT_STATUS_INVALID_PARAMETER
              end |}.
  intros f b [= <-]. by rewrite decode_encode, tuple_file_tuple.
Defined.

Definition ex_odb (n : Z) : odb_context := mk_odb (mk_server_id n 0) true.
Definition ex_fkey : blob := [4; 2].

(** A reader that shares reading, another one, then a writer. *)
Definition ex_sessions : list odb_session :=
  [Locked (ex_odb 1) ex_fkey [Op_open_file 10 0 1 1 false "/a" OPLOCK_NONE true];
   Locked (ex_odb 2) ex_fkey
     [Op_open_file 20 0 1 1 false "/a" OPLOCK_BATCH true;
      Op_open_file 21 0 7 2 false "/a" OPLOCK_NONE true; Op_open_file_pending 99];
   Locked (ex_odb 1) ex_fkey [Op_close_file 10]].

Example ex_sessions_run :
  (odb_run (H:=ex_codec) ex_sessions (mk_world ∅ ∅ [] [])).1 =
  [[NT_STATUS_OK]; [NT_STATUS_OK; NT_STATUS_SHARING_VIOLATION; NT_STATUS_OK]; [NT_STATUS_OK]].
Proof. vm_compute. reflexivity. Qed.

(** ** Properties of the database *)

Lemma odb_run_reachable `{OpendbCodec} cs faults :
  recs_ok blob_ok (odb_run cs (mk_world ∅ ∅ faults [])).2 /\
  forall k, chain_depth (odb_run cs (mk_world ∅ ∅ faults [])).2 k = 0%nat.
Proof.
  pose proof (odb_run_ok cs (mk_world ∅ ∅ faults []) (map_Forall_empty _)) as H1.
  pose proof (odb_run_depths (fun _ => 0%nat) cs (mk_world ∅ ∅ faults []) (fun k => eq_refl)) as H2.
  destruct (odb_run cs _) as [a w]. done.
Qed.

(** C2: the open-file table is consistent.  Whatever sessions the clients run,
    in whatever order, and whichever database calls fail: a record names at
    least one open; any two of its opens are compatible under the share-mode
    rule; an open that holds an oplock is the only open of the file; at most
    the first open carries the delete flag; and no chain is left locked. *)
Theorem open_files_consistent `{OpendbCodec} cs faults k b f :
  let w := (odb_run cs (mk_world ∅ ∅ faults [])).2 in
  world_recs w !! k = Some b -> ndr_pull b = inr f ->
  entries f <> [] /\
  (forall i j e1 e2, i <> j -> entries f !! i = Some e1 -> entries f !! j = Some e2 ->
     share_conflict e1 e2 = NT_STATUS_OK) /\
  (forall e, e ∈ entries f -> oplock_level e <> OPLOCK_NONE -> entries f = [e]) /\
  (forall i e, entries f !! i = Some e -> e_delete_on_close e = true -> i = 0%nat) /\
  chain_depth w k = 0%nat.
Proof.
  intros w Hb Hf. destruct (odb_run_reachable cs faults) as [Hok Hd].
  destruct (Hok k b Hb f Hf) as [Hne Hc Ho Hdel].
  split; [done|]. split; [|split; [|split; [|apply Hd]]].
  - intros i j e1 e2 Hij Hi Hj. destruct (decide (i < j)%nat); [by apply (Hc i j)|].
    rewrite (share_conflict_sym e1 e2). apply (Hc j i); [lia|done..].
  - intros e He Hl. by apply Ho.
  - intros [|i] e Hi He; [done|]. by rewrite (Hdel i e Hi) in He.
Qed.

Definition ex_db : world blob :=
  Eval vm_compute in (odb_run (H:=ex_codec) (take 2 ex_sessions) (mk_world ∅ ∅ [] [])).2.
Definition ex_reader (s fh : Z) : opendb_entry := mk_entry (mk_server_id s 0) 0 1 1 fh false 0.

Example open_files_consistent_witness :
  share_conflict (ex_reader 2 20) (ex_reader 1 10) = NT_STATUS_OK.
Proof.
  destruct (open_files_consistent (H:=ex_codec) (take 2 ex_sessions) [] ex_fkey
    (default [] (world_recs ex_db !! ex_fkey))
    (mk_file false "/a" [ex_reader 1 10; ex_reader 2 20] [mk_pending (mk_server_id 2 0) 99]))
    as (_ & Hc & _); [vm_compute; reflexivity..|].
  exact (Hc 1%nat 0%nat _ _ ltac:(lia) eq_refl eq_refl).
Defined.

Section functional.
Context `{OpendbCodec}.

(** What the database says of a file: its record, or the blank one. *)
Definition file_at (w : world blob) (k : blob) (p : string) (f : opendb_file) : Prop :=
  match world_recs w !! k with
  | Some b => ndr_pull b = inr f
  | None => f = mk_file false p [] []
  end.

Definition requested (lck : odb_lock) (fh stream share access : Z) (del : bool) (l : Z) :=
  mk_entry (odb_server (lck_odb lck)) stream share access fh del l.

Definition break_msg (e : opendb_entry) : message :=
  mk_msg (e_server e) MSG_NTVFS_OPLOCK_BREAK (file_handle e).

(** The oplock a successful open is granted. *)
Definition granted (lck : odb_lock) (f : opendb_file) (level : Z) (want : bool) : Z :=
  if want && oplocks (lck_odb lck) && ((level =? OPLOCK_BATCH) || (level =? OPLOCK_EXCLUSIVE)) &&
     (length (entries f) =? 0)%nat
  then level else OPLOCK_NONE.

Lemma pull_eval lck w :
  odb_pull_record lck w =
  (match world_recs w !! lck_key lck with
   | None => inl NT_STATUS_OBJECT_NAME_NOT_FOUND
   | Some b => ndr_pull b
   end, w).
Proof. done. Qed.

Lemma push_store lck g b w :
  world_faults w = [] -> entries g <> [] -> ndr_push g = inr b ->
  odb_push_record lck g w =
  (NT_STATUS_OK, set_recs w (<[lck_key lck := b]> (world_recs w))).
Proof.
  intros Hf Hg Hb. unfold odb_push_record. destruct (entries g); [done|]. simpl.
  rewrite Hb. unfold tdb_store, next_fault, st_bind, st_modify, st_ret. by rewrite Hf.
Qed.

Lemma push_delete lck g w :
  world_faults w = [] -> entries g = [] -> is_Some (world_recs w !! lck_key lck) ->
  odb_push_record lck g w =
  (NT_STATUS_OK, set_recs w (delete (lck_key lck) (world_recs w))).
Proof.
  intros Hf Hg [b Hb]. unfold odb_push_record. rewrite Hg. simpl.
  unfold tdb_delete, next_fault, st_bind, st_modify, st_get, st_ret. by rewrite Hf, Hb.
Qed.

(** The outcome of an open, once the record is known: blocked by the holder
    of an oplock, refused, or entered at the end. *)
Lemma open_file_outcome lck fh stream share access del p level want w f :
  world_faults w = [] -> file_at w (lck_key lck) p f ->
  let e := requested lck fh stream share access del in
  let r := odb_tdb_open_file lck fh stream share access del p level want w in
  (exists e1, holder_of OPLOCK_BATCH (entries f) = Some e1 /\
     r = ((NT_STATUS_OPLOCK_NOT_GRANTED, None), add_msgs w [break_msg e1])) \/
  (holder_of OPLOCK_BATCH (entries f) = None /\
   (delete_on_close f = true \/ (entries f <> [] /\ del = true)) /\
     r = ((NT_STATUS_DELETE_PENDING, None), w)) \/
  (holder_of OPLOCK_BATCH (entries f) = None /\
   delete_on_close f = false /\ (entries f = [] \/ del = false) /\
   ((share_conflicts (entries f) (e OPLOCK_NONE) = NT_STATUS_SHARING_VIOLATION /\
     r = ((NT_STATUS_SHARING_VIOLATION, None), w)) \/
    (share_conflicts (entries f) (e OPLOCK_NONE) = NT_STATUS_OK /\
     ((exists e1, holder_of OPLOCK_EXCLUSIVE (entries f) = Some e1 /\
       r = ((NT_STATUS_OPLOCK_NOT_GRANTED, None), add_msgs w [break_msg e1])) \/
      (holder_of OPLOCK_EXCLUSIVE (entries f) = None /\
       r = (do status <- odb_push_record lck
              (mk_file false (path f) (entries f ++ [e (granted lck f level want)])
                 (pending f));
            st_ret (status, if want then Some (granted lck f level want) else None)) w))))).
Proof.
  intros Hfl Hat e r.
  assert (Hr : r = odb_tdb_open_file lck fh stream share access del p level want w) by done.
  clearbody r. revert Hr. unfold odb_tdb_open_file.
  assert (exists pulled, odb_pull_record lck w = (pulled, w) /\
    match pulled with
    | inr file => inr file
    | inl status => if NT_STATUS_EQUAL status NT_STATUS_OBJECT_NAME_NOT_FOUND
                    then inr (mk_file false p [] []) else inl status
    end = inr f) as (pulled & Hp & Hpf).
  { rewrite pull_eval. unfold file_at in Hat.
    destruct (world_recs w !! lck_key lck) as [b|].
    - exists (ndr_pull b). split; [done|]. by rewrite Hat.
    - exists (inl NT_STATUS_OBJECT_NAME_NOT_FOUND). split; [done|]. by subst. }
  unfold st_bind at 1. rewrite Hp. cbv beta iota zeta. rewrite Hpf.
  destruct (holder_of OPLOCK_BATCH (entries f)) as [e1|]; intros Hr;
    [left; by exists e1|]. right. revert Hr.
  destruct (delete_on_close f) eqn:Ed; cbn [orb]; [left; auto|].
  assert (negb (length (entries f) =? 0)%nat && del = true <-> entries f <> [] /\ del = true) as Hdel.
  { destruct (entries f), del; simpl; naive_solver. }
  destruct (negb (length (entries f) =? 0)%nat && del) eqn:Edel; intros Hr.
  { left. split; [done|]. split; [right; by apply Hdel|done]. }
  right. split; [done|]. split; [done|]. split.
  { destruct (entries f), del; naive_solver. }
  revert Hr.
  fold (requested lck fh stream share access del OPLOCK_NONE). fold (e OPLOCK_NONE).
  destruct (share_conflicts_cases (entries f) (e OPLOCK_NONE)) as [Hc|Hc]; rewrite Hc;
    intros Hr; [right|by left]. split; [done|]. revert Hr.
  change (NT_STATUS_IS_OK NT_STATUS_OK) with true. cbn [negb].
  destruct (holder_of OPLOCK_EXCLUSIVE (entries f)) as [e1|]; intros Hr; [left; by exists e1|].
  right. split; [done|]. rewrite Hr. unfold e, requested, granted.
  destruct want, (oplocks (lck_odb lck)); cbn [negb andb]; done.
Qed.
End functional.

(** No open of the file holds an oplock of this level. *)
Definition no_holder (level : Z) (es : list opendb_entry) : Prop :=
  forall e, e ∈ es -> oplock_level e <> level.

Lemma holder_of_Some level es e :
  holder_of level es = Some e -> e ∈ es /\ oplock_level e = level.
Proof.
  intros Hf. apply List.find_some in Hf as [Hin Hl]. apply Z.eqb_eq in Hl.
  split; [by apply list_elem_of_In|done].
Qed.

(** C6: when [odb_open_file] succeeds and what it leaves (no database call
    fails, records can be encoded).  It succeeds exactly when no open holds a
    batch or exclusive oplock, no delete is pending, a delete-on-close open is
    the first open, and every open is share compatible with the new one; then
    the new open is entered last, with an oplock only when it is the only one.
    Otherwise no record changes, and a break request is sent exactly when an
    oplock is in the way, to a holder of one. *)
Theorem open_file_correct `{OpendbCodec} lck fh stream share access del p level want w f :
  world_faults w = [] -> file_at w (lck_key lck) p f -> (forall g, exists b, ndr_push g = inr b) ->
  let e := requested lck fh stream share access del in
  let r := odb_tdb_open_file lck fh stream share access del p level want w in
  (r.1.1 = NT_STATUS_OK <->
     no_holder OPLOCK_BATCH (entries f) /\ no_holder OPLOCK_EXCLUSIVE (entries f) /\
     delete_on_close f = false /\ (entries f = [] \/ del = false) /\
     (forall e1, e1 ∈ entries f -> share_conflict e1 (e OPLOCK_NONE) = NT_STATUS_OK)) /\
  (r.1.1 = NT_STATUS_OK ->
     file_at r.2 (lck_key lck) p
       (mk_file false (path f) (entries f ++ [e (granted lck f level want)]) (pending f)) /\
     world_msgs r.2 = world_msgs w) /\
  (r.1.1 <> NT_STATUS_OK ->
     world_recs r.2 = world_recs w /\
     (if NT_STATUS_EQUAL r.1.1 NT_STATUS_OPLOCK_NOT_GRANTED
      then exists e1, e1 ∈ entries f /\ oplock_level e1 <> OPLOCK_NONE /\
             world_msgs r.2 = world_msgs w ++ [break_msg e1]
      else world_msgs r.2 = world_msgs w)).
Proof.
  intros Hfl Hat Hpush e r.
  destruct (open_file_outcome lck fh stream share access del p level want w f Hfl Hat)
    as [(e1 & He1 & Hr)|[(Hb & Hd & Hr)|(Hb & Hd & Hdel & [[Hc Hr]|[Hc [(e1 & He1 & Hr)|[Hx Hr]]]])]];
    fold e r in Hr.
  - rewrite Hr. simpl. apply holder_of_Some in He1 as [Hin Hl].
    split; [split; [done|intros [Hn _]; by destruct (Hn e1 Hin)]|]. split; [done|].
    intros _. split; [done|]. exists e1. by rewrite Hl.
  - rewrite Hr. simpl. split; [split; [done|]|done].
    intros (_ & _ & Hd' & Hdel & _). destruct Hd as [Hd|[Hd1 Hd2]]; [congruence|].
    destruct Hdel; congruence.
  - rewrite Hr. simpl. split; [split; [done|]|done]. intros (_ & _ & _ & _ & Hall).
    fold e in Hc. by rewrite (proj2 (share_conflicts_ok (entries f) (e OPLOCK_NONE)) Hall) in Hc.
  - rewrite Hr. simpl. apply holder_of_Some in He1 as [Hin Hl].
    split; [split; [done|intros (_ & Hn & _); by destruct (Hn e1 Hin)]|]. split; [done|].
    intros _. split; [done|]. exists e1. by rewrite Hl.
  - set (g := mk_file false (path f) (entries f ++ [e (granted lck f level want)]) (pending f)) in *.
    destruct (Hpush g) as [b Hb']. unfold st_bind in Hr.
    rewrite (push_store lck g b w Hfl) in Hr; [|by simpl; destruct (entries f)|done].
    rewrite Hr. simpl. split; [|split; [intros _|done]].
    + split; [intros _|done].
      split; [exact (holder_of_None _ _ Hb)|]. split; [exact (holder_of_None _ _ Hx)|].
      split; [done|]. split; [done|]. exact (proj1 (share_conflicts_ok _ _) Hc).
    + split; [|done]. unfold file_at. simpl. rewrite lookup_insert_eq. by apply ndr_pull_push.
Qed.

Definition ex_empty : world blob := mk_world ∅ ∅ [] [].

Example open_file_correct_witness :
  file_at (H:=ex_codec)
    (odb_tdb_open_file (H:=ex_codec) (mk_lck (ex_odb 1) ex_fkey) 10 0 1 1 true "/a"
       OPLOCK_BATCH true ex_empty).2 ex_fkey "/a"
    (mk_file false "/a" [mk_entry (mk_server_id 1 0) 0 1 1 10 true OPLOCK_BATCH] []).
Proof.
  destruct (open_file_correct (H:=ex_codec) (mk_lck (ex_odb 1) ex_fkey) 10 0 1 1 true "/a"
    OPLOCK_BATCH true ex_empty (mk_file false "/a" [] [])) as (_ & Hok & _);
    [reflexivity|reflexivity|by eexists|].
  apply Hok. reflexivity.
Defined.

(** What [odb_close_file] does when no database call fails and records can
    be encoded.  For a handle of this server that is open, exactly that open is
    removed, every pending open is sent one retry message and forgotten, the
    file is marked for deletion when the open asked for it, and the record of
    the last open is deleted; for any other handle nothing changes. *)
Theorem close_file_correct `{OpendbCodec} lck fh w b f :
  world_faults w = [] -> world_recs w !! lck_key lck = Some b -> ndr_pull b = inr f ->
  (forall g, exists b, ndr_push g = inr b) ->
  let r := odb_tdb_close_file lck fh w in
  (r = (NT_STATUS_UNSUCCESSFUL, w) /\ forall e, e ∈ entries f -> entry_match lck fh e = false) \/
  (exists i e, entries f !! i = Some e /\ entry_match lck fh e = true /\
     (forall j e', (j < i)%nat -> entries f !! j = Some e' -> entry_match lck fh e' = false) /\
     r.1 = NT_STATUS_OK /\
     world_msgs r.2 = world_msgs w ++ List.map retry_open_msg (pending f) /\
     match delete i (entries f) with
     | [] => world_recs r.2 = delete (lck_key lck) (world_recs w)
     | es => exists b', world_recs r.2 = <[lck_key lck := b']> (world_recs w) /\
               ndr_pull b' = inr (mk_file (e_delete_on_close e || delete_on_close f) (path f) es [])
     end).
Proof.
  intros Hfl Hb Hf Hpush r. assert (Hr : r = odb_tdb_close_file lck fh w) by done.
  clearbody r. unfold odb_tdb_close_file, st_bind at 1 in Hr.
  rewrite pull_eval, Hb, Hf in Hr. cbv beta iota in Hr.
  destruct (find_idx (entry_match lck fh) (entries f)) as [i|] eqn:Ei.
  2: { left. split; [done|]. by apply find_idx_None. }
  right. apply find_idx_Some in Ei as (e & He & Hm & Hlt). exists i, e.
  split; [done|]. split; [done|]. split; [done|]. rewrite He in Hr.
  replace (if e_delete_on_close e then true else delete_on_close f)
    with (e_delete_on_close e || delete_on_close f) in Hr by (by destruct (e_delete_on_close e)).
  unfold st_bind, send, st_modify in Hr. cbv beta iota zeta in Hr.
  destruct (delete i (entries f)) as [|e0 es] eqn:Ed.
  - rewrite push_delete in Hr; [by subst r|done|done|]. simpl. rewrite Hb. by eexists.
  - match type of Hr with _ = odb_push_record _ ?g _ => destruct (Hpush g) as [b' Hb'] end.
    rewrite (push_store _ _ b') in Hr; [|done..]. subst r.
    split; [done|]. split; [done|]. exists b'. split; [done|]. by apply ndr_pull_push in Hb'.
Qed.

Example close_file_correct_witness :
  let r := odb_tdb_close_file (H:=ex_codec) (mk_lck (ex_odb 1) ex_fkey) 10 ex_db in
  world_msgs r.2 = [mk_msg (mk_server_id 2 0) MSG_PVFS_RETRY_OPEN 99].
Proof.
  destruct (close_file_correct (H:=ex_codec) (mk_lck (ex_odb 1) ex_fkey) 10 ex_db
    (default [] (world_recs ex_db !! ex_fkey))
    (mk_file false "/a" [ex_reader 1 10; ex_reader 2 20] [mk_pending (mk_server_id 2 0) 99]))
    as [[_ Hno]|(i & e & _ & _ & _ & _ & Hm & _)];
    [reflexivity|vm_compute; reflexivity|vm_compute; reflexivity|by eexists|..].
  - exfalso. specialize (Hno (ex_reader 1 10)). assert (ex_reader 1 10 ∈ [ex_reader 1 10; ex_reader 2 20])
      as Hin by left. by specialize (Hno Hin).
  - exact Hm.
Defined.

Lemma share_conflict_fields e1 e2 e2' :
  stream_id e2 = stream_id e2' -> share_access e2 = share_access e2' ->
  access_mask e2 = access_mask e2' -> share_conflict e1 e2 = share_conflict e1 e2'.
Proof. intros H1 H2 H3. unfold share_conflict. by rewrite H1, H2, H3. Qed.

Lemma share_conflicts_fields es e2 e2' :
  stream_id e2 = stream_id e2' -> share_access e2 = share_access e2' ->
  access_mask e2 = access_mask e2' -> share_conflicts es e2 = share_conflicts es e2'.
Proof.
  intros H1 H2 H3. induction es as [|e es IH]; simpl; [done|].
  by rewrite (share_conflict_fields e e2 e2'), IH.
Qed.

(** [odb_can_open] predicts [odb_open_file].  For an open of the default
    stream of a file on which nobody holds an oplock, with the delete-on-close
    option of the one call matching the flag of the other, the question is
    answered [NT_STATUS_OK] exactly when the open would succeed. *)
Theorem can_open_predicts_open `{OpendbCodec} lck fh share options access p level want w f :
  world_faults w = [] -> file_at w (lck_key lck) p f -> (forall g, exists b, ndr_push g = inr b) ->
  no_holder OPLOCK_BATCH (entries f) -> no_holder OPLOCK_EXCLUSIVE (entries f) ->
  let del := options &? NTCREATEX_OPTIONS_DELETE_ON_CLOSE in
  (odb_tdb_can_open lck share options access w).1 = NT_STATUS_OK <->
  (odb_tdb_open_file lck fh 0 share access del p level want w).1.1 = NT_STATUS_OK.
Proof.
  intros Hfl Hat Hpush Hnb Hnx del.
  assert (Hcan : (odb_tdb_can_open lck share options access w).1 = NT_STATUS_OK <->
    delete_on_close f = false /\ (entries f = [] \/ del = false) /\
    share_conflicts (entries f) (requested lck fh 0 share access del OPLOCK_NONE) = NT_STATUS_OK).
  { unfold odb_tdb_can_open, st_bind. rewrite pull_eval. unfold file_at in Hat. simpl.
    rewrite (share_conflicts_fields (entries f) _
      (mk_entry (odb_server (lck_odb lck)) 0 share access 0 false 0)) by done.
    destruct (world_recs w !! lck_key lck) as [b|]; [|subst f; simpl; naive_solver].
    rewrite Hat. fold del.
    destruct (share_conflicts_cases (entries f)
      (mk_entry (odb_server (lck_odb lck)) 0 share access 0 false 0)) as [-> | ->];
      destruct del, (entries f), (delete_on_close f); simpl; naive_solver. }
  rewrite Hcan. destruct (open_file_outcome lck fh 0 share access del p level want w f Hfl Hat)
    as [(e1 & He1 & Hr)|[(Hb & Hd & Hr)|(Hb & Hd & Hdel & [[Hc Hr]|[Hc [(e1 & He1 & Hr)|[Hx Hr]]]])]].
  - apply holder_of_Some in He1 as [Hin Hl]. by destruct (Hnb e1 Hin).
  - rewrite Hr. simpl. split; [|done]. intros (Hd' & Hdel & _).
    destruct Hd as [Hd|[Hd1 Hd2]]; [congruence|]. destruct Hdel; congruence.
  - rewrite Hr, Hc. simpl. split; [by intros (_ & _ & ?)|done].
  - apply holder_of_Some in He1 as [Hin Hl]. by destruct (Hnx e1 Hin).
  - rewrite Hr, Hc. unfold st_bind.
    match goal with |- context [odb_push_record _ ?g _] => destruct (Hpush g) as [b Hb'] end.
    rewrite (push_store _ _ b w Hfl); [done| |done]. simpl. by destruct (entries f).
Qed.

Example can_open_predicts_open_witness :
  let lck := mk_lck (ex_odb 3) ex_fkey in
  (odb_tdb_can_open (H:=ex_codec) lck 1 0 1 ex_db).1 = NT_STATUS_OK <->
  (odb_tdb_open_file (H:=ex_codec) lck 30 0 1 1 false "/a" OPLOCK_BATCH true ex_db).1.1 =
    NT_STATUS_OK.
Proof.
  apply (can_open_predicts_open (H:=ex_codec) (mk_lck (ex_odb 3) ex_fkey) 30 1 0 1 "/a"
    OPLOCK_BATCH true ex_db
    (mk_file false "/a" [ex_reader 1 10; ex_reader 2 20] [mk_pending (mk_server_id 2 0) 99]));
    [reflexivity|vm_compute; reflexivity|by eexists|..];
    intros e He; simpl in He; rewrite !elem_of_cons, elem_of_nil in He;
    destruct He as [-> |[-> |[]]]; discriminate.
Defined.
