(* ===== verification/Notify.v ===== *)
(** * Change notification ([source4/ntvfs/common/notify.c])

    The watches of all server processes are one record of notify.tdb, an array
    by directory depth of arrays sorted by path; a process keeps a copy of it,
    which it reads again when the sequence number of the tdb has changed.  Paths
    are lists of bytes, pointers are their addresses.  What pidl generates from
    [notify.idl] is the class [NotifyCodec], [qsort] of the C library is the
    class [CQsort], and a backend of [sys_notify.c] is a record of operations,
    [sys_backend].  Memory allocation succeeds, and notification is enabled: the
    operations are modelled after their test for that. *)

From stdpp Require Import sorting.
From S2P Require Import Prelude CLib NtStatus Tdb.

Definition SLASH : Z := 47.
Definition DOT : Z := 46.

(** ** Strings *)

Fixpoint count_chars (s : list Z) (c : Z) : Z :=
  match s with
  | [] => 0
  | x :: s => (if x =? c then 1 else 0) + count_chars s c
  end.

(** [strchr(s + i, '/')], as an index. *)
Definition next_slash (s : list Z) (i : nat) : option nat :=
  (fun k => i + k)%nat <$> find_idx (fun x => x =? SLASH) (drop i s).

(** ** Data ([notify.idl]) *)

Record notify_entry : Set := mk_notify_entry {
  e_server : server_id;
  filter : Z;              (* uint32 *)
  subdir_filter : Z;       (* uint32 *)
  path : list Z;
  path_len : Z;
  private_data : Z
}.

(** [num_entries] is the length of [entries]. *)
Record notify_depth : Set := mk_notify_depth {
  max_mask : Z;
  max_mask_subdir : Z;
  entries : list notify_entry
}.

(** [num_depths] is the length. *)
Abbreviation notify_array := (list notify_depth).

Record notify_event : Set := mk_notify_event {
  ev_action : Z;
  ev_path : list Z;
  ev_private : Z
}.

Class NotifyCodec : Type := {
  ndr_push_notify_array : notify_array -> NTSTATUS + blob;
  ndr_pull_notify_array : blob -> NTSTATUS * notify_array;
  ndr_push_notify_event : notify_event -> NTSTATUS + blob;
  ndr_pull_notify_event : blob -> NTSTATUS + notify_event;
  array_codec : forall a b, ndr_push_notify_array a = inr b -> ndr_pull_notify_array b = (NT_STATUS_OK, a);
  event_codec : forall e b, ndr_push_notify_event e = inr b -> ndr_pull_notify_event b = inr e
}.

(** [qsort] with a comparison that is total and transitive. *)
Class CQsort : Type := {
  qsort : forall {A}, (A -> A -> Z) -> list A -> list A;
  qsort_perm : forall A (cmp : A -> A -> Z) l, Permutation (qsort cmp l) l;
  qsort_sorted : forall A (cmp : A -> A -> Z) l,
    (forall x y, cmp x y <= 0 \/ cmp y x <= 0) ->
    (forall x y z, cmp x y <= 0 -> cmp y z <= 0 -> cmp x z <= 0) ->
    StronglySorted (fun x y => cmp x y <= 0) (qsort cmp l)
}.

(** [struct notify_list] *)
Record notify_list : Set := mk_notify_list {
  l_private : Z;
  l_callback : Z;
  sys_notify_handle : option Z;
  l_depth : Z
}.

(** A backend: [notify_watch] may take over a watch, for which it clears the
    bits it handles; [free_handle] ends it. *)
Record sys_backend (Y : Type) : Type := mk_sys_backend {
  notify_watch : Y -> notify_entry -> notify_list -> NTSTATUS * notify_entry * option Z * Y;
  free_handle : Y -> Z -> Y
}.
Arguments notify_watch {Y}.
Arguments free_handle {Y}.

Record notify_context (Y : Type) : Type := mk_notify_context {
  n_server : server_id;
  n_list : list notify_list;
  n_array : option notify_array;
  n_seqnum : Z;
  sys_notify_ctx : option Y
}.
Arguments mk_notify_context {Y}.
Arguments n_server {Y}.
Arguments n_list {Y}.
Arguments n_array {Y}.
Arguments n_seqnum {Y}.
Arguments sys_notify_ctx {Y}.

(** notify.tdb, opened with [TDB_SEQNUM]: its one record, the sequence number,
    the depth of the lock, and the messages sent.  A store may find the old
    record too small and move it, which counts twice ([Moved]), it may be
    refused, or fail for want of space with the old record gone ([Lost]); these
    are the outcomes [TdbStore.stored] has.  Each change of the record takes the
    next entry of the script [db_faults], each lock whether it fails from
    [lock_faults]; an empty script means no further failure. *)
Inductive db_fault : Set := No_fault | Moved | Refused | Lost.

Record notify_db : Type := mk_db {
  db_rec : option blob;
  db_seqnum : Z;
  db_lock : nat;
  db_faults : list db_fault;
  lock_faults : list bool;
  db_msgs : list (server_id * blob)
}.

Record notify_state (Y : Type) : Type := mk_state { db : notify_db; ctx : notify_context Y }.
Arguments mk_state {Y}.
Arguments db {Y}.
Arguments ctx {Y}.

Section notify.
Context {Y : Type} (sys : sys_backend Y) {codec : NotifyCodec} {cqsort : CQsort}.
Abbreviation N := (ST (notify_state Y)).

Definition on_db (f : notify_db -> notify_db) : N unit :=
  st_modify (fun s => mk_state (f (db s)) (ctx s)).
Definition on_ctx (f : notify_context Y -> notify_context Y) : N unit :=
  st_modify (fun s => mk_state (db s) (f (ctx s))).
Definition get_ctx : N (notify_context Y) := do s <- st_get; st_ret (ctx s).
Definition get_db : N notify_db := do s <- st_get; st_ret (db s).

Definition set_array (c : notify_context Y) (a : option notify_array) : notify_context Y :=
  mk_notify_context (n_server c) (n_list c) a (n_seqnum c) (sys_notify_ctx c).
Definition set_seqnum (c : notify_context Y) (n : Z) : notify_context Y :=
  mk_notify_context (n_server c) (n_list c) (n_array c) n (sys_notify_ctx c).
Definition set_list (c : notify_context Y) (l : list notify_list) : notify_context Y :=
  mk_notify_context (n_server c) l (n_array c) (n_seqnum c) (sys_notify_ctx c).
Definition set_sys (c : notify_context Y) (y : Y) : notify_context Y :=
  mk_notify_context (n_server c) (n_list c) (n_array c) (n_seqnum c) (Some y).

(** ** The tdb *)

Definition set_rec (d : notify_db) (r : option blob) (n : Z) : notify_db :=
  mk_db r (u32 (db_seqnum d + n)) (db_lock d) (db_faults d) (lock_faults d) (db_msgs d).

Definition next_fault : N db_fault :=
  do d <- get_db;
  match db_faults d with
  | [] => st_ret No_fault
  | f :: fs =>
    do! on_db (fun d => mk_db (db_rec d) (db_seqnum d) (db_lock d) fs (lock_faults d) (db_msgs d));
    st_ret f
  end.

(** [tdb_store_bystring(..., TDB_REPLACE) == 0] *)
Definition db_store (b : blob) : N bool :=
  do f <- next_fault;
  match f with
  | No_fault => do! on_db (fun d => set_rec d (Some b) 1); st_ret true
  | Moved => do! on_db (fun d => set_rec d (Some b) 2); st_ret true
  | Refused => st_ret false
  | Lost =>
    do! on_db (fun d => match db_rec d with Some _ => set_rec d None 1 | None => d end);
    st_ret false
  end.

(** [tdb_delete_bystring(...) == 0] *)
Definition db_delete : N bool :=
  do f <- next_fault;
  do d <- get_db;
  match f, db_rec d with
  | Refused, _ | Lost, _ | _, None => st_ret false
  | _, Some _ => do! on_db (fun d => set_rec d None 1); st_ret true
  end.

Definition set_lock (d : notify_db) (n : nat) (fs : list bool) : notify_db :=
  mk_db (db_rec d) (db_seqnum d) n (db_faults d) fs (db_msgs d).

Definition notify_lock : N NTSTATUS :=
  do d <- get_db;
  match lock_faults d with
  | true :: fs => do! on_db (fun d => set_lock d (db_lock d) fs); st_ret NT_STATUS_INTERNAL_DB_CORRUPTION
  | fs => do! on_db (fun d => set_lock d (S (db_lock d)) (tail fs)); st_ret NT_STATUS_OK
  end.

Definition notify_unlock : N unit := on_db (fun d => set_lock d (pred (db_lock d)) (lock_faults d)).

(** ** Loading and saving *)

Definition notify_load : N NTSTATUS :=
  do d <- get_db;
  do c <- get_ctx;
  if (db_seqnum d =? n_seqnum c) && bool_decide (is_Some (n_array c)) then st_ret NT_STATUS_OK
  else
    do! on_ctx (fun c => set_array (set_seqnum c (db_seqnum d)) (Some []));
    match db_rec d with
    | None => st_ret NT_STATUS_OK
    | Some blob =>
      let '(status, a) := ndr_pull_notify_array blob in
      do! on_ctx (fun c => set_array c (Some a));
      st_ret status
    end.

(** After [notify_load] there is an array. *)
Definition get_array : N notify_array :=
  do c <- get_ctx; st_ret (default [] (n_array c)).

Definition notify_compare (e1 e2 : notify_entry) : Z := strcmp (path e1) (path e2).

(** Depths without entries are dropped from the end. *)
Fixpoint drop_depths (a : notify_array) : notify_array :=
  match a with
  | [] => []
  | d :: a =>
    match drop_depths a, entries d with
    | [], [] => []
    | a', _ => d :: a'
    end
  end.

Definition notify_save : N NTSTATUS :=
  do a <- get_array;
  let a := drop_depths a in
  do! on_ctx (fun c => set_array c (Some a));
  if (length a =? 0)%nat then
    do ok <- db_delete;
    st_ret (if ok : bool then NT_STATUS_OK else NT_STATUS_INTERNAL_DB_CORRUPTION)
  else
    match ndr_push_notify_array a with
    | inl status => st_ret status
    | inr blob =>
      do ok <- db_store blob;
      st_ret (if ok : bool then NT_STATUS_OK else NT_STATUS_INTERNAL_DB_CORRUPTION)
    end.

(** ** Events that arrive *)

(** The call [notify_handler] makes: callback, its argument and the event. *)
Definition notify_handler (data : blob) : N (option (Z * Z * notify_event)) :=
  do c <- get_ctx;
  match ndr_pull_notify_event data with
  | inl _ => st_ret None
  | inr ev =>
    match List.find (fun l => l_private l =? ev_private ev) (n_list c) with
    | None => st_ret None
    | Some l => st_ret (Some (l_callback l, l_private l, ev))
    end
  end.

(** [sys_notify_callback]; [ptr] is the address of [listel]. *)
Definition sys_notify_callback (ptr : Z) (listel : notify_list) (ev : notify_event)
  : Z * Z * notify_event :=
  (l_callback listel, l_private listel, mk_notify_event (ev_action ev) (ev_path ev) ptr).

(** ** Adding a watch *)

Definition zero_depth : notify_depth := mk_notify_depth 0 0 [].

(** The masks over all entries. *)
Definition or_masks (f : notify_entry -> Z) (l : list notify_entry) : Z :=
  fold_left (fun m e => m ||| f e) l 0.

(** A depth with a new entry. *)
Definition add_to_depth (d : notify_depth) (e : notify_entry) : notify_depth :=
  let l := entries d ++ [e] in
  let l := if (1 <? length l)%nat then qsort notify_compare l else l in
  mk_notify_depth (or_masks filter l) (or_masks subdir_filter l) l.

(** The array expanded to the depth. *)
Definition expand_depths (a : notify_array) (depth : nat) : notify_array :=
  a ++ replicate (S depth - length a) zero_depth.

Definition notify_add_array (e : notify_entry) (private : Z) (depth : Z) : N NTSTATUS :=
  do a <- get_array;
  do c <- get_ctx;
  let e := mk_notify_entry (n_server c) (filter e) (subdir_filter e) (path e)
             (Z.of_nat (length (path e))) private in
  do! on_ctx (fun c => set_array c
    (Some (alter (fun d => add_to_depth d e) (Z.to_nat depth) (expand_depths a (Z.to_nat depth)))));
  notify_save.

(** A path that ends in "/." loses the end. *)
Definition strip_dot (p : list Z) : list Z :=
  let len := length p in
  if (1 <? len)%nat && bool_decide (p !! (len - 1)%nat = Some DOT)
     && bool_decide (p !! (len - 2)%nat = Some SLASH)
  then take (len - 2) p else p.

(** The backend, if there is one: its status, what it leaves of the watch, and
    its handle. *)
Definition sys_notify_watch (e : notify_entry) (listel : notify_list)
  : N (NTSTATUS * notify_entry * option Z) :=
  do c <- get_ctx;
  match sys_notify_ctx c with
  | None => st_ret (NT_STATUS_OK, e, None)
  | Some y =>
    let '(status, e', handle, y') := notify_watch sys y e listel in
    do! on_ctx (fun c => set_sys c y');
    st_ret (status, e', if NT_STATUS_IS_OK status then handle else None)
  end.

(** A failure of the backend only matters when nothing is left to add. *)
Definition notify_add (e0 : notify_entry) (callback private : Z) : N NTSTATUS :=
  do status <- notify_lock;
  if negb (NT_STATUS_IS_OK status) then st_ret status
  else
    do status <- notify_load;
    if negb (NT_STATUS_IS_OK status) then do! notify_unlock; st_ret status
    else
      let e := mk_notify_entry (e_server e0) (filter e0) (subdir_filter e0) (strip_dot (path e0))
                 (path_len e0) (private_data e0) in
      let depth := count_chars (path e) SLASH in
      let listel := mk_notify_list private callback None depth in
      do (status, e, handle) <- sys_notify_watch e listel;
      do! on_ctx (fun c => set_list c (mk_notify_list private callback handle depth :: n_list c));
      do status <-
        (if negb (filter e =? 0) || negb (subdir_filter e =? 0)
         then notify_add_array e private depth else st_ret status);
      do! notify_unlock;
      st_ret status.

(** ** Removing watches *)

(** [talloc_free(listel)], with the backend's handle. *)
Definition free_listel (c : notify_context Y) (k : nat) (listel : notify_list) : notify_context Y :=
  let c := set_list c (delete k (n_list c)) in
  match sys_notify_handle listel, sys_notify_ctx c with
  | Some h, Some y => set_sys c (free_handle sys y h)
  | _, _ => c
  end.

Definition notify_remove (private : Z) : N NTSTATUS :=
  do c <- get_ctx;
  match find_idx (fun l => l_private l =? private) (n_list c) with
  | None => st_ret NT_STATUS_OBJECT_NAME_NOT_FOUND
  | Some k =>
    let listel := default (mk_notify_list 0 0 None 0) (n_list c !! k) in
    do! on_ctx (fun c => free_listel c k listel);
    do status <- notify_lock;
    if negb (NT_STATUS_IS_OK status) then st_ret status
    else
      do status <- notify_load;
      if negb (NT_STATUS_IS_OK status) then do! notify_unlock; st_ret status
      else
        do a <- get_array;
        match a !! Z.to_nat (l_depth listel) with
        | None => do! notify_unlock; st_ret NT_STATUS_OBJECT_NAME_NOT_FOUND
        | Some d =>
          match find_idx (fun e => (private =? private_data e)
                                   && cluster_id_equal (n_server c) (e_server e)) (entries d) with
          | None => do! notify_unlock; st_ret NT_STATUS_OBJECT_NAME_NOT_FOUND
          | Some i =>
            let d := mk_notify_depth (max_mask d) (max_mask_subdir d) (delete i (entries d)) in
            do! on_ctx (fun c => set_array c (Some (<[Z.to_nat (l_depth listel) := d]> a)));
            do status <- notify_save;
            do! notify_unlock;
            st_ret status
          end
        end
  end.

(** The inner loop of [notify_remove_all]: after a removal [i] stays. *)
Fixpoint remove_server_loop (server : server_id) (fuel i : nat) (l : list notify_entry) (del_count : Z)
  : list notify_entry * Z :=
  match fuel with
  | O => (l, del_count)
  | S fuel =>
    match l !! i with
    | None => (l, del_count)
    | Some e =>
      if cluster_id_equal server (e_server e)
      then remove_server_loop server fuel i (delete i l) (del_count + 1)
      else remove_server_loop server fuel (S i) l del_count
    end
  end.

(** The outer loop. *)
Fixpoint remove_all_loop (server : server_id) (a : notify_array) (del_count : Z) : notify_array * Z :=
  match a with
  | [] => ([], del_count)
  | d :: a =>
    let '(l, n) := remove_server_loop server (length (entries d)) 0 (entries d) del_count in
    let '(a', n) := remove_all_loop server a n in
    (mk_notify_depth (max_mask d) (max_mask_subdir d) l :: a', n)
  end.

Definition notify_remove_all : N NTSTATUS :=
  do c <- get_ctx;
  match n_list c with
  | [] => st_ret NT_STATUS_OK
  | _ =>
    do status <- notify_lock;
    if negb (NT_STATUS_IS_OK status) then st_ret status
    else
      do status <- notify_load;
      if negb (NT_STATUS_IS_OK status) then do! notify_unlock; st_ret status
      else
        do a <- get_array;
        let '(a, del_count) := remove_all_loop (n_server c) a 0 in
        do! on_ctx (fun c => set_array c (Some a));
        do status <- (if 0 <? del_count then notify_save else st_ret status);
        do! notify_unlock;
        st_ret status
  end.

(** ** Triggering *)

(** The bisection for the first entry with the path [take p_len s]. *)
Fixpoint bisect (fuel : nat) (s : list Z) (p_len : nat) (l : list notify_entry) (min_i max_i : Z)
  : option (Z * Z) :=
  match fuel with
  | O => None
  | S fuel =>
    if min_i <? max_i then
      let i := (min_i + max_i) / 2 in
      e ← l !! Z.to_nat i;
      let cmp := strncmp p_len s (path e) in
      if cmp =? 0 then
        if Z.of_nat p_len =? path_len e then bisect fuel s p_len l min_i i
        else bisect fuel s p_len l min_i (i - 1)
      else if cmp <? 0 then bisect fuel s p_len l min_i (i - 1)
      else bisect fuel s p_len l (i + 1) max_i
    else Some (min_i, max_i)
  end.

(** The entries from the first match on, with the path they are told; [None]
    is a pointer beyond the end of the path. *)
Fixpoint send_loop (flt : Z) (s : list Z) (p_len : nat) (subdir : bool) (l : list notify_entry)
  : option (list (notify_entry * list Z)) :=
  match l with
  | [] => Some []
  | e :: l =>
    if negb (Z.of_nat p_len =? path_len e) || negb (strncmp p_len s (path e) =? 0) then Some []
    else if negb (flt &? (if subdir then subdir_filter e else filter e))
    then send_loop flt s p_len subdir l
    else if Z.of_nat (length s) <? path_len e + 1 then None
    else
      rest ← send_loop flt s p_len subdir l;
      Some ((e, drop (Z.to_nat (path_len e + 1)) s) :: rest)
  end.

(** One depth of the array. *)
Definition depth_sends (flt : Z) (s : list Z) (p_len : nat) (subdir : bool) (d : notify_depth)
  : option (list (notify_entry * list Z)) :=
  let n := Z.of_nat (length (entries d)) in
  if n =? 0 then Some []
  else if negb (flt &? (if subdir then max_mask_subdir d else max_mask d)) then Some []
  else
    '(min_i, max_i) ← bisect (S (length (entries d))) s p_len (entries d) 0 (n - 1);
    if negb (min_i =? max_i) then Some []
    else send_loop flt s p_len subdir (drop (Z.to_nat min_i) (entries d)).

(** The loop along the path: [p] is the index of a slash, or [NULL]. *)
Fixpoint trigger_loop (flt : Z) (s : list Z) (p : option nat) (a : notify_array)
  : option (list (notify_entry * list Z)) :=
  match p, a with
  | Some p, d :: a =>
    if (length s <? p + 1)%nat then None
    else
      let next_p := next_slash s (p + 1) in
      here ← depth_sends flt s p (bool_decide (is_Some next_p)) d;
      rest ← trigger_loop flt s next_p a;
      Some (here ++ rest)
  | _, _ => Some []
  end.

Definition notify_send (e : notify_entry) (p : list Z) (action : Z) : N unit :=
  match ndr_push_notify_event (mk_notify_event action p (private_data e)) with
  | inl _ => st_ret tt
  | inr data => on_db (fun d =>
      mk_db (db_rec d) (db_seqnum d) (db_lock d) (db_faults d) (lock_faults d)
        (db_msgs d ++ [(e_server e, data)]))
  end.

Fixpoint send_all (l : list (notify_entry * list Z)) (action : Z) : N unit :=
  match l with
  | [] => st_ret tt
  | (e, p) :: l => do! notify_send e p action; send_all l action
  end.

(** [None]: an access beyond the end of the path. *)
Definition notify_trigger (action flt : Z) (s : list Z) : N (option unit) :=
  do status <- notify_load;
  if negb (NT_STATUS_IS_OK status) then st_ret (Some tt)
  else
    do a <- get_array;
    match trigger_loop flt s (Some 0%nat) a with
    | None => st_ret None
    | Some l => do! send_all l action; st_ret (Some tt)
    end.

(** ** Opening *)

(** [notify_init] once the tdb is open. *)
Definition notify_init (server : server_id) (d : notify_db) (y : option Y) : notify_context Y :=
  mk_notify_context server [] None (db_seqnum d) y.

End notify.
