(* ===== verification/NotifyArray.v ===== *)
(** * Change notification: the array and the reference

    What a watch is told, as one function of the watch and the path that does
    not know of depths, order or masks; the bisection and the walk along the path
    find exactly the entries it gives an answer for.  Every change of the array
    keeps it well formed, and every operation keeps the record and the copy of
    the process so, whatever fails. *)

From stdpp Require Import sorting.
From S2P Require Import Prelude CLib NtStatus Tdb Notify.

(** ** The strings *)

(** [strncmp] compares the first [n] bytes of [s] with the whole of a string. *)
Lemma strncmp_zero s n b : (n <= length s)%nat ->
  strncmp n s b = 0 <-> take n b = take n s /\ (n <= length b)%nat.
Proof.
  revert s b. induction n as [|n IH]; intros [|x s] [|y b]; simpl; try (intros; exfalso; lia);
    try (intros _; split; [intros _; split; [done|lia]|done]).
  - intros _. split; [lia|]. by intros [? ?].
  - intros Hn. destruct (Z.eqb_spec x y) as [->|Hne].
    + rewrite IH by lia. split; [intros [-> ?]; split; [done|lia]|intros [[= ->] ?]; split; [done|lia]].
    + split; [destruct (x <? y); lia|]. by intros [[= ->] _].
Qed.

Lemma strncmp_strcmp s n b : (n <= length s)%nat -> strncmp n s b <> 0 ->
  strcmp (take n s) b = strncmp n s b.
Proof.
  revert s b. induction n as [|n IH]; intros [|x s] [|y b]; simpl; try done; try lia.
  intros Hn. destruct (Z.eqb_spec x y) as [->|]; [|done]. apply IH. lia.
Qed.

Lemma strncmp_range n s b : strncmp n s b = 0 \/ strncmp n s b = -1 \/ strncmp n s b = 1.
Proof.
  revert s b. induction n as [|n IH]; intros [|x s] [|y b]; simpl; try lia.
  destruct (x =? y); [apply IH|]. destruct (x <? y); lia.
Qed.

(** A proper prefix comes first. *)
Lemma strcmp_prefix a b n : take n b = a -> (n < length b)%nat -> strcmp a b = -1.
Proof.
  revert a b. induction n as [|n IH]; intros a [|y b] <-; simpl; try lia; try done.
  intros Hn. rewrite Z.eqb_refl. apply (IH _ b); [done|lia].
Qed.

(** The comparison of the bisection, as one with the path it looks for. *)
Lemma strncmp_cases s n b : (n <= length s)%nat ->
  (strncmp n s b = 0 /\ length b = n /\ b = take n s)
  \/ (strncmp n s b = 0 /\ length b <> n /\ strcmp (take n s) b = -1)
  \/ (strncmp n s b = -1 /\ strcmp (take n s) b = -1)
  \/ (strncmp n s b = 1 /\ strcmp (take n s) b = 1).
Proof.
  intros Hn. pose proof (strncmp_strcmp s n b Hn) as Hs.
  destruct (strncmp_range n s b) as [E|[E|E]]; rewrite E in *.
  - apply strncmp_zero in E as [Ht Hl]; [|done]. destruct (decide (length b = n)) as [Hlb|Hlb].
    + left. split; [done|]. split; [done|]. by rewrite <- Ht, take_ge by lia.
    + right. left. split; [done|]. split; [done|]. eapply strcmp_prefix; [exact Ht|lia].
  - right. right. left. split; [done|]. by apply Hs.
  - right. right. right. split; [done|]. by apply Hs.
Qed.

Lemma strcmp_gt a b : strcmp a b = 1 -> strcmp b a <= 0.
Proof. intros H. destruct (strcmp_total a b); lia. Qed.

Lemma strcmp_antisym a b : strcmp a b <= 0 -> strcmp b a <= 0 -> a = b.
Proof.
  revert b. induction a as [|x a IH]; intros [|y b]; simpl; try lia; try done.
  rewrite (Z.eqb_sym y x). destruct (Z.eqb_spec x y) as [->|]; [intros; f_equal; by apply IH|].
  destruct (Z.ltb_spec x y), (Z.ltb_spec y x); lia.
Qed.

Lemma strcmp_lt_le a b c : strcmp a b = -1 -> strcmp b c <= 0 -> a <> c.
Proof.
  intros Hab Hbc <-. assert (a = b) as -> by (apply strcmp_antisym; lia).
  by rewrite strcmp_refl in Hab.
Qed.

(** ** The array *)

Definition covers (m f : Z) : Prop := Z.land f m = f.

Definition path_le (e1 e2 : notify_entry) : Prop := strcmp (path e1) (path e2) <= 0.

Record entry_ok (depth : Z) (e : notify_entry) : Prop := {
  eo_len : path_len e = Z.of_nat (length (path e));
  eo_depth : count_chars (path e) SLASH = depth
}.

Record depth_ok (depth : Z) (d : notify_depth) : Prop := {
  do_entries : Forall (entry_ok depth) (entries d);
  do_mask : Forall (fun e => covers (max_mask d) (filter e)) (entries d);
  do_mask_subdir : Forall (fun e => covers (max_mask_subdir d) (subdir_filter e)) (entries d);
  do_sorted : StronglySorted path_le (entries d)
}.

(** Every depth of an array that starts at [k]. *)
Fixpoint depths_ok (k : Z) (a : notify_array) : Prop :=
  match a with
  | [] => True
  | d :: a => depth_ok k d /\ depths_ok (k + 1) a
  end.

Abbreviation arr_ok := (depths_ok 0).

Definition all_entries (a : notify_array) : list notify_entry := concat (map entries a).

(** ** What a watch is told: the reference

    An event in the directory of a watch matches its filter, one further below
    its filter for subdirectories; the watch is told the path below it. *)
Definition below (dir s : list Z) : option (list Z) :=
  if bool_decide (take (S (length dir)) s = dir ++ [SLASH]) then Some (drop (S (length dir)) s)
  else None.

Definition watch_match (flt : Z) (s : list Z) (e : notify_entry) : option (notify_entry * list Z) :=
  rest ← below (path e) s;
  if flt &? (if existsb (fun c => c =? SLASH) rest then subdir_filter e else filter e)
  then Some (e, rest) else None.

(** ** Bisection *)

Lemma sorted_lookup l i j e1 e2 :
  StronglySorted path_le l -> l !! i = Some e1 -> l !! j = Some e2 -> (i <= j)%nat -> path_le e1 e2.
Proof.
  intros Hs. revert i j. induction Hs as [|e l Hs IH Hall]; intros [|i] [|j] H1 H2 Hij; simpl in *;
    try done; simplify_eq; try lia.
  - unfold path_le. rewrite strcmp_refl. lia.
  - rewrite Forall_lookup in Hall. by eapply Hall.
  - eapply IH; [done..|lia].
Qed.

Section bisection.
Context (s : list Z) (n : nat) (l : list notify_entry).
Hypothesis Hn : (n <= length s)%nat.
Hypothesis Hsorted : StronglySorted path_le l.
Hypothesis Hlens : Forall (fun e => path_len e = Z.of_nat (length (path e))) l.
Abbreviation t := (take n s).

(** The matches lie in the range, and one of them before its end. *)
Definition in_range (min_i max_i : Z) : Prop :=
  forall j e, l !! j = Some e -> path e = t ->
    min_i <= Z.of_nat j /\ exists j' e', l !! j' = Some e' /\ path e' = t /\ min_i <= Z.of_nat j' <= max_i.

Lemma after_smaller i ei j e : l !! i = Some ei -> strcmp t (path ei) = 1 ->
  l !! j = Some e -> path e = t -> (i < j)%nat.
Proof.
  intros Hi Hc Hj He. rewrite <- He in Hc. destruct (decide (j <= i)%nat) as [Hji|]; [|lia].
  pose proof (sorted_lookup _ _ _ _ _ Hsorted Hj Hi Hji) as Hle. unfold path_le in Hle. lia.
Qed.

Lemma before_larger i ei j e : l !! i = Some ei -> strcmp t (path ei) = -1 ->
  l !! j = Some e -> path e = t -> (j < i)%nat.
Proof.
  intros Hi Hc Hj He. destruct (decide (i <= j)%nat) as [Hij|]; [|lia].
  pose proof (sorted_lookup _ _ _ _ _ Hsorted Hi Hj Hij) as Hle.
  by destruct (strcmp_lt_le _ _ _ Hc Hle).
Qed.

Lemma shrink_below i ei min_i max_i : l !! i = Some ei -> strcmp t (path ei) = -1 ->
  in_range min_i max_i -> in_range min_i (Z.of_nat i - 1).
Proof.
  intros Hi Hc Hr j e Hj He. destruct (Hr j e Hj He) as [Hmin (j' & e' & Hj' & He' & Hb)].
  split; [done|]. exists j', e'. split; [done|]. split; [done|].
  pose proof (before_larger i ei j' e' Hi Hc Hj' He'). lia.
Qed.

Lemma bisect_ok fuel min_i max_i :
  0 <= min_i -> max_i < Z.of_nat (length l) -> max_i - min_i < Z.of_nat fuel -> (0 < fuel)%nat ->
  in_range min_i max_i ->
  exists min' max', bisect fuel s n l min_i max_i = Some (min', max')
    /\ in_range min' max' /\ max' <= min' /\ 0 <= min'.
Proof.
  revert min_i max_i. induction fuel as [|fuel IH]; intros min_i max_i Hmin Hmax Hf Hf0 Hr; [lia|].
  simpl. destruct (Z.ltb_spec min_i max_i) as [Hlt|]; [|by exists min_i, max_i].
  pose proof (Z.div_le_lower_bound (min_i + max_i) 2 min_i ltac:(lia) ltac:(lia)).
  pose proof (Z.div_lt_upper_bound (min_i + max_i) 2 max_i ltac:(lia) ltac:(lia)).
  set (i := (min_i + max_i) / 2) in *.
  destruct (lookup_lt_is_Some_2 l (Z.to_nat i)) as [e He]; [lia|]. rewrite He. simpl.
  assert (path_len e = Z.of_nat (length (path e))) as El by (by apply (Forall_lookup_1 _ _ _ _ Hlens He)).
  destruct (strncmp_cases s n (path e) Hn) as [(-> & Hl & Ht)|[(-> & Hl & Hc)|[(-> & Hc)|(-> & Hc)]]]; simpl.
  - rewrite El, Hl, Z.eqb_refl. apply IH; [done|lia|lia|lia|].
    intros j e' Hj He'. destruct (Hr j e' Hj He') as [Hm _]. split; [done|].
    exists (Z.to_nat i), e. split; [done|]. split; [done|lia].
  - rewrite (proj2 (Z.eqb_neq _ _)) by lia. apply IH; [lia|lia|lia|lia|].
    replace (i - 1) with (Z.of_nat (Z.to_nat i) - 1) by lia. by eapply shrink_below.
  - apply IH; [lia|lia|lia|lia|].
    replace (i - 1) with (Z.of_nat (Z.to_nat i) - 1) by lia. by eapply shrink_below.
  - apply IH; [lia|lia|lia|lia|]. intros j e' Hj He'.
    destruct (Hr j e' Hj He') as [Hm (j' & e'' & Hj' & He'' & Hb)].
    pose proof (after_smaller _ _ _ _ He Hc Hj He'). pose proof (after_smaller _ _ _ _ He Hc Hj' He'').
    split; [lia|]. exists j', e''. split; [done|]. split; [done|]. lia.
Qed.

(** ** The entries at one depth *)

(** An entry with the path [t] whose filter matches. *)
Definition sel (flt : Z) (subdir : bool) (e : notify_entry) : option (notify_entry * list Z) :=
  if bool_decide (path e = t) && (flt &? (if subdir then subdir_filter e else filter e))
  then Some (e, drop (S n) s) else None.

Lemma sel_none flt subdir l' : (forall e, e ∈ l' -> path e <> t) -> omap (sel flt subdir) l' = [].
Proof.
  induction l' as [|e l' IH]; intros Hl; simpl; [done|].
  assert (sel flt subdir e = None) as ->.
  { unfold sel. by rewrite bool_decide_eq_false_2 by (apply Hl; left). }
  apply IH. intros e' He'. apply Hl. by right.
Qed.

Lemma match_test e : path_len e = Z.of_nat (length (path e)) ->
  negb (Z.of_nat n =? path_len e) || negb (strncmp n s (path e) =? 0) = negb (bool_decide (path e = t)).
Proof.
  intros El. destruct (bool_decide (path e = t)) eqn:E; bool_hyps.
  - rewrite El, E, length_take_le, Z.eqb_refl by done. simpl.
    rewrite (proj2 (strncmp_zero s n t Hn)); [done|]. rewrite take_take, Nat.min_id, length_take. split; [done|lia].
  - rewrite <- negb_andb. f_equal. apply andb_false_iff. rewrite El.
    destruct (Z.eqb_spec (Z.of_nat n) (Z.of_nat (length (path e)))) as [Hlen|]; [right|by left].
    apply Z.eqb_neq. intros [Ht _]%strncmp_zero; [|done]. rewrite take_ge in Ht by lia. done.
Qed.

Lemma send_loop_ok flt subdir l' :
  (S n <= length s)%nat -> StronglySorted path_le l' ->
  Forall (fun e => path_len e = Z.of_nat (length (path e))) l' ->
  (forall e, e ∈ l' -> strcmp t (path e) <= 0) \/ (forall e, e ∈ l' -> path e <> t) ->
  send_loop flt s n subdir l' = Some (omap (sel flt subdir) l').
Proof.
  intros Hn1. induction l' as [|e l' IH]; intros Hs Hl Hor; simpl; [done|].
  apply StronglySorted_inv in Hs as [Hs Hall]. apply Forall_cons in Hl as [El Hl].
  rewrite match_test by done. destruct (bool_decide (path e = t)) eqn:E; bool_hyps; simpl.
  - assert (send_loop flt s n subdir l' = Some (omap (sel flt subdir) l')) as ->.
    { apply IH; [done..|]. left. intros e' He'. destruct Hor as [Hle|Hne]; [apply Hle; by right|].
      destruct (Hne e); [by left|done]. }
    assert (sel flt subdir e = if flt &? (if subdir then subdir_filter e else filter e)
      then Some (e, drop (S n) s) else None) as -> by (unfold sel; by rewrite bool_decide_eq_true_2 by done).
    destruct (flt &? _); simpl; [|done]. rewrite El, E, length_take_le by done.
    rewrite (proj2 (Z.ltb_ge _ _)) by lia. replace (Z.to_nat (Z.of_nat n + 1)) with (S n) by lia. done.
  - assert (sel flt subdir e = None) as -> by (unfold sel; by rewrite bool_decide_eq_false_2 by done).
    rewrite sel_none; [done|].
    intros e' He' Ht. destruct Hor as [Hle|Hne]; [|by destruct (Hne e'); [right|]].
    rewrite Forall_forall in Hall. specialize (Hall e' He'). unfold path_le in Hall. rewrite Ht in Hall.
    apply E. symmetry. apply strcmp_antisym; [|done]. apply Hle. by left.
Qed.


Lemma depth_sends_ok flt subdir d depth :
  entries d = l -> depth_ok depth d -> (S n <= length s)%nat ->
  depth_sends flt s n subdir d = Some (omap (sel flt subdir) l).
Proof.
  intros El Hd Hn1. unfold depth_sends. rewrite El. destruct (Z.eqb_spec (Z.of_nat (length l)) 0) as [E|E].
  { by destruct l. }
  destruct (flt &? (if subdir then max_mask_subdir d else max_mask d)) eqn:Em; cbn [negb].
  - destruct (bisect_ok (S (length l)) 0 (Z.of_nat (length l) - 1))
      as (mi & ma & -> & Hr & Hle & Hmi); [lia..| |].
    { intros j e Hj He. apply lookup_lt_Some in Hj as Hjl. split; [lia|]. exists j, e. split; [done|].
      split; [done|lia]. }
    simpl. destruct (Z.eqb_spec mi ma) as [<-|Hne]; simpl.
    + rewrite <- (take_drop (Z.to_nat mi) l) at 2. rewrite omap_app.
      rewrite (sel_none flt subdir (take _ _)); simpl.
      2: { intros e He Ht. apply list_elem_of_lookup in He as [j Hj].
           apply lookup_take_Some in Hj as [Hj Hjm]. destruct (Hr j e Hj Ht). lia. }
      apply send_loop_ok; [done|..].
      * rewrite <- (take_drop (Z.to_nat mi) l) in Hsorted. by apply StronglySorted_app_1_r in Hsorted.
      * by apply Forall_drop.
      * destruct (l !! Z.to_nat mi) as [em|] eqn:Em'.
        -- destruct (decide (path em = t)) as [Ht|Ht].
           ++ left. intros e He. apply list_elem_of_lookup in He as [j Hj]. rewrite lookup_drop in Hj.
              rewrite <- Ht. by eapply sorted_lookup; [exact Hsorted|exact Em'|exact Hj|lia].
           ++ right. intros e He Hte. apply list_elem_of_lookup in He as [j Hj]. rewrite lookup_drop in Hj.
              destruct (Hr _ _ Hj Hte) as [_ (j' & e' & Hj' & He' & Hb)].
              replace j' with (Z.to_nat mi) in Hj' by lia. congruence.
        -- right. apply lookup_ge_None in Em'. rewrite drop_ge by done. intros e He. by apply elem_of_nil in He.
    + rewrite sel_none; [done|]. intros e He Ht. apply list_elem_of_lookup in He as [j Hj].
      destruct (Hr j e Hj Ht) as [_ (j' & _ & _ & _ & Hb)]. lia.
  - symmetry. f_equal. destruct Hd as [_ Hm Hms _]. rewrite El in Hm, Hms.
    clear -Em Hm Hms. induction l as [|e l' IH]; [done|].
    apply Forall_cons in Hm as [He Hm]. apply Forall_cons in Hms as [Hes Hms].
    assert (sel flt subdir e = None) as Hsel; [|simpl; rewrite Hsel; by apply IH].
    unfold sel. destruct (bool_decide _); [simpl|done].
    assert (forall m f, covers m f -> flt &? m = false -> flt &? f = false) as Hcov.
    { unfold covers, has_bits. intros m f Hc Hf. apply negb_false_iff, Z.eqb_eq in Hf. apply negb_false_iff, Z.eqb_eq.
      rewrite <- Hc, (Z.land_comm f m), Z.land_assoc, Hf. apply Z.land_0_l. }
    destruct subdir; by erewrite Hcov.
Qed.

End bisection.

(** ** Along the path *)

Lemma count_chars_app a b c : count_chars (a ++ b) c = count_chars a c + count_chars b c.
Proof. induction a as [|x a IH]; simpl; lia. Qed.

Lemma count_chars_nonneg a c : 0 <= count_chars a c.
Proof. induction a as [|x a IH]; simpl; [lia|]. destruct (x =? c); lia. Qed.

Lemma count_chars_none a c : (forall x, x ∈ a -> (x =? c) = false) -> count_chars a c = 0.
Proof.
  induction a as [|x a IH]; intros H; simpl; [done|]. rewrite (H x) by left. rewrite IH; [done|].
  intros y Hy. apply H. by right.
Qed.

Lemma next_slash_Some s i p : next_slash s i = Some p ->
  (i <= p)%nat /\ s !! p = Some SLASH /\ count_chars (take p s) SLASH = count_chars (take i s) SLASH.
Proof.
  unfold next_slash. intros (k & Hk & ->)%fmap_Some. apply find_idx_Some in Hk as (x & Hx & Ex & Hl).
  apply Z.eqb_eq in Ex as ->. rewrite lookup_drop in Hx. split; [lia|]. split; [done|].
  rewrite <- (take_drop i (take (i + k) s)), count_chars_app, take_take.
  replace (i `min` (i + k))%nat with i by lia.
  rewrite (count_chars_none (drop i (take (i + k) s))); [lia|].
  intros y Hy. apply list_elem_of_lookup in Hy as [j Hj]. rewrite lookup_drop in Hj.
  apply lookup_take_Some in Hj as [Hj Hlt]. apply (Hl j); [lia|]. by rewrite lookup_drop.
Qed.

Lemma next_slash_None s i : next_slash s i = None ->
  count_chars s SLASH = count_chars (take i s) SLASH.
Proof.
  unfold next_slash. rewrite fmap_None. intros H. pose proof (proj1 (find_idx_None _ _) H) as Hn.
  rewrite <- (take_drop i s) at 1. rewrite count_chars_app, (count_chars_none (drop i s)); [lia|done].
Qed.

Lemma next_slash_exists s i :
  existsb (fun c => c =? SLASH) (drop i s) = bool_decide (is_Some (next_slash s i)).
Proof.
  unfold next_slash. apply eq_true_iff_eq. rewrite bool_decide_eq_true, existsb_elem_of, fmap_is_Some.
  split.
  - intros (x & Hx & Ex). apply not_eq_None_Some. intros Hn.
    by rewrite (proj1 (find_idx_None _ _) Hn x Hx) in Ex.
  - intros [k (x & Hx & Ex & _)%find_idx_Some]. exists x. split; [|done]. by eapply list_elem_of_lookup_2.
Qed.

Lemma take_slash s p : s !! p = Some SLASH -> take (S p) s = take p s ++ [SLASH].
Proof. intros H. by apply take_S_r. Qed.

(** Two prefixes that end before a slash and have the same number of slashes. *)
Lemma same_depth s p q : s !! p = Some SLASH -> s !! q = Some SLASH ->
  count_chars (take p s) SLASH = count_chars (take q s) SLASH -> p = q.
Proof.
  assert (forall p q, (p < q)%nat -> s !! p = Some SLASH ->
    count_chars (take p s) SLASH < count_chars (take q s) SLASH) as Hlt.
  { intros u v Huv Hu. rewrite <- (take_drop (S u) (take v s)), take_take.
    replace (S u `min` v)%nat with (S u) by lia. rewrite (take_slash _ _ Hu), !count_chars_app. simpl.
    pose proof (count_chars_nonneg (drop (S u) (take v s)) SLASH). lia. }
  intros Hp Hq Hc. destruct (lt_eq_lt_dec p q) as [[H|H]|H]; [|done|];
    [specialize (Hlt p q H Hp)|specialize (Hlt q p H Hq)]; lia.
Qed.

Lemma below_Some dir s rest : below dir s = Some rest <-> s = dir ++ SLASH :: rest.
Proof.
  unfold below. case_bool_decide as H.
  - split.
    + intros [= <-]. rewrite <- (take_drop (S (length dir)) s) at 1. by rewrite H, <- app_assoc.
    + intros ->. f_equal. by rewrite (cons_middle SLASH), app_assoc, drop_app_length' by
        (rewrite length_app; simpl; lia).
  - split; [done|]. intros ->. destruct H.
    by rewrite (cons_middle SLASH), app_assoc, take_app_length' by (rewrite length_app; simpl; lia).
Qed.

Lemma watch_match_sel flt s p k e :
  entry_ok k e -> s !! p = Some SLASH -> count_chars (take p s) SLASH = k ->
  watch_match flt s e = sel s p flt (bool_decide (is_Some (next_slash s (p + 1)))) e.
Proof.
  intros [_ Hd] Hp Hk. unfold watch_match, sel. pose proof (lookup_lt_Some _ _ _ Hp).
  replace (p + 1)%nat with (S p) by lia.
  case_bool_decide as Ht; simpl.
  - assert (below (path e) s = Some (drop (S p) s)) as ->.
    { apply below_Some. rewrite Ht. rewrite <- (take_drop (S p) s) at 1.
      by rewrite (take_slash _ _ Hp), <- app_assoc. }
    simpl. by rewrite next_slash_exists.
  - destruct (below (path e) s) as [rest|] eqn:E; [|done]. apply below_Some in E as Es.
    destruct Ht. assert (length (path e) = p) as <-; [|by rewrite Es, take_app_length].
    apply (same_depth s); [|done|].
    + by rewrite Es, lookup_app_r, Nat.sub_diag.
    + rewrite Es at 1. by rewrite take_app_length, Hd, Hk.
Qed.

Lemma watch_match_none flt s k e : entry_ok k e -> count_chars s SLASH <= k -> watch_match flt s e = None.
Proof.
  intros [_ Hd] Hk. unfold watch_match. destruct (below (path e) s) as [rest|] eqn:E; [|done].
  apply below_Some in E as ->. rewrite count_chars_app in Hk. simpl in Hk.
  pose proof (count_chars_nonneg rest SLASH). lia.
Qed.

Lemma omap_none {A B} (f : A -> option B) (l : list A) : (forall x, x ∈ l -> f x = None) -> omap f l = [].
Proof.
  induction l as [|x l IH]; intros H; [done|]. simpl. rewrite (H x) by left. apply IH.
  intros y Hy. apply H. by right.
Qed.

Lemma omap_ext_in {A B} (f g : A -> option B) (l : list A) : (forall x, x ∈ l -> f x = g x) -> omap f l = omap g l.
Proof.
  induction l as [|x l IH]; intros H; [done|]. simpl. rewrite (H x) by left.
  destruct (g x); [f_equal|]; apply IH; intros y Hy; apply H; by right.
Qed.

Lemma depths_ok_entry k a e : depths_ok k a -> e ∈ all_entries a -> exists j, k <= j /\ entry_ok j e.
Proof.
  revert k. induction a as [|d a IH]; intros k Ha He; [by apply elem_of_nil in He|].
  destruct Ha as [[Hd _ _ _] Ha]. unfold all_entries in He. simpl in He. apply elem_of_app in He as [He|He].
  - exists k. split; [lia|]. rewrite Forall_forall in Hd. by apply Hd.
  - destruct (IH (k + 1) Ha He) as (j & Hj & Hok). exists j. split; [lia|done].
Qed.

(** The loop sends to the watches of the reference, in the order of the array. *)
Lemma trigger_loop_ok flt s p k a :
  depths_ok k a ->
  match p with
  | Some p => s !! p = Some SLASH /\ count_chars (take p s) SLASH = k
  | None => count_chars s SLASH <= k
  end ->
  trigger_loop flt s p a = Some (omap (watch_match flt s) (all_entries a)).
Proof.
  revert k p. induction a as [|d a IH]; intros k p Ha Hp; [by destruct p|].
  destruct p as [p|].
  - destruct Hp as [Hp Hk]. destruct Ha as [Hd Ha]. pose proof (lookup_lt_Some _ _ _ Hp). simpl.
    rewrite (proj2 (Nat.ltb_ge _ _)) by lia.
    assert (Forall (fun e => path_len e = Z.of_nat (length (path e))) (entries d)) as Hlens.
    { eapply Forall_impl; [apply Hd|]. by intros e []. }
    rewrite (depth_sends_ok s p (entries d)) with (depth := k); [|lia|apply Hd|done|done|done|lia].
    simpl. rewrite (IH (k + 1) (next_slash s (p + 1))); [|done|].
    + simpl. unfold all_entries. simpl. rewrite omap_app. f_equal. f_equal. apply omap_ext_in.
      intros e He. symmetry. apply (watch_match_sel _ _ _ k); [|done|done].
      pose proof (do_entries _ _ Hd) as Hall. rewrite Forall_forall in Hall. by apply Hall.
    + assert (count_chars (take (p + 1) s) SLASH = k + 1) as Hk1.
      { replace (p + 1)%nat with (S p) by lia. rewrite (take_slash _ _ Hp), count_chars_app. simpl. lia. }
      destruct (next_slash s (p + 1)) as [p'|] eqn:E.
      * apply next_slash_Some in E as (_ & Hp' & Hc). split; [done|lia].
      * apply next_slash_None in E. lia.
  - simpl. rewrite omap_none; [done|]. intros e He.
    destruct (depths_ok_entry k (d :: a) e Ha He) as (j & Hj & Hok).
    apply (watch_match_none _ _ j); [done|lia].
Qed.

(** ** Changes of the array *)

Section array.
Context {cqsort : CQsort}.

Lemma covers_or_masks f l : Forall (fun e => covers (or_masks f l) (f e)) l.
Proof.
  unfold or_masks. assert (forall m, covers (fold_left (fun m e => m ||| f e) l m) m
    /\ Forall (fun e => covers (fold_left (fun m e => m ||| f e) l m) (f e)) l) as H; [|apply H].
  unfold covers. induction l as [|e l IH]; intros m; simpl; [split; [apply Z.land_diag|done]|].
  destruct (IH (m ||| f e)) as [Hm Hl].
  assert (forall u v w, Z.land (u ||| v) w = u ||| v -> Z.land u w = u /\ Z.land v w = v) as Hsub.
  { intros u v w Huv. split; apply Z.bits_inj'; intros i Hi; pose proof (f_equal (fun x => Z.testbit x i) Huv) as Hb;
      cbn beta in Hb; rewrite Z.land_spec, Z.lor_spec in Hb; rewrite Z.land_spec;
      destruct (Z.testbit u i), (Z.testbit v i), (Z.testbit w i); simpl in *; congruence. }
  apply Hsub in Hm as [Hm He]. split; [done|]. by constructor.
Qed.

Lemma qsort_paths l : StronglySorted path_le (qsort notify_compare l).
Proof.
  apply (qsort_sorted _ notify_compare).
  - intros x y. apply strcmp_total.
  - intros x y z. apply strcmp_trans.
Qed.

Lemma add_to_depth_ok k d e : depth_ok k d -> entry_ok k e ->
  depth_ok k (add_to_depth d e) /\ entries (add_to_depth d e) ≡ₚ e :: entries d.
Proof.
  intros [He _ _ Hs] Hok. unfold add_to_depth.
  set (l := if (1 <? length (entries d ++ [e]))%nat then qsort notify_compare (entries d ++ [e])
            else entries d ++ [e]).
  assert (l ≡ₚ e :: entries d) as Hp.
  { etransitivity; [|symmetry; apply Permutation_cons_append]. unfold l.
    destruct (1 <? _)%nat; [apply qsort_perm|done]. }
  split; [|done]. split; simpl.
  - rewrite Hp. by constructor.
  - apply covers_or_masks.
  - apply covers_or_masks.
  - unfold l. destruct (1 <? length (entries d ++ [e]))%nat eqn:E; [apply qsort_paths|].
    rewrite length_app in E. simpl in E. apply Nat.ltb_ge in E.
    destruct (entries d); [|simpl in E; lia]. simpl. repeat constructor.
Qed.

Lemma zero_depth_ok k : depth_ok k zero_depth.
Proof. by split; constructor. Qed.

Lemma depths_ok_app k a b : depths_ok k (a ++ b) <-> depths_ok k a /\ depths_ok (k + Z.of_nat (length a)) b.
Proof.
  revert k. induction a as [|d a IH]; intros k; simpl.
  - rewrite Z.add_0_r. tauto.
  - rewrite IH. replace (k + 1 + Z.of_nat (length a)) with (k + Z.of_nat (S (length a))) by lia. tauto.
Qed.

Lemma depths_ok_replicate k n : depths_ok k (replicate n zero_depth).
Proof.
  revert k. induction n as [|n IH]; intros k; simpl; [done|]. split; [apply zero_depth_ok|apply IH].
Qed.

Lemma expand_ok k a n : depths_ok k a -> depths_ok k (expand_depths a n).
Proof. intros Ha. apply depths_ok_app. split; [done|apply depths_ok_replicate]. Qed.

Lemma all_entries_app a b : all_entries (a ++ b) = all_entries a ++ all_entries b.
Proof. unfold all_entries. by rewrite map_app, concat_app. Qed.

Lemma all_entries_zero n : all_entries (replicate n zero_depth) = [].
Proof. by induction n. Qed.

Lemma depths_ok_lookup k a i d : depths_ok k a -> a !! i = Some d -> depth_ok (k + Z.of_nat i) d.
Proof.
  revert k i. induction a as [|d' a IH]; intros k [|i] Hka Hi; try done; destruct Hka as [Hd Ha]; simpl in *; simplify_eq.
  - by rewrite Z.add_0_r.
  - replace (k + Z.of_nat (S i)) with (k + 1 + Z.of_nat i) by lia. by apply IH.
Qed.

(** One depth is replaced. *)
Lemma depths_ok_insert k a i d d' : depths_ok k a -> a !! i = Some d -> depth_ok (k + Z.of_nat i) d' ->
  depths_ok k (<[i := d']> a)
  /\ forall l1 l2, entries d ≡ₚ l1 -> entries d' ≡ₚ l2 ->
     exists r, all_entries a ≡ₚ l1 ++ r /\ all_entries (<[i := d']> a) ≡ₚ l2 ++ r.
Proof.
  revert k i. induction a as [|d0 a IH]; intros k [|i] Hka Hi Hd'; try done; destruct Hka as [Hd Ha]; simpl in *; simplify_eq.
  - rewrite Z.add_0_r in Hd'. split; [done|]. intros l1 l2 H1 H2. exists (all_entries a).
    unfold all_entries. simpl. by rewrite H1, H2.
  - replace (k + Z.of_nat (S i)) with (k + 1 + Z.of_nat i) in Hd' by lia.
    destruct (IH (k + 1) i Ha Hi Hd') as [Hok Hp]. split; [done|].
    intros l1 l2 H1 H2. destruct (Hp l1 l2 H1 H2) as (r & Hr1 & Hr2). exists (entries d0 ++ r).
    unfold all_entries in *. simpl. rewrite Hr1, Hr2.
    split; apply Permutation_app_swap_app.
Qed.

Lemma add_entry_ok a e : arr_ok a -> entry_ok (count_chars (path e) SLASH) e ->
  let n := Z.to_nat (count_chars (path e) SLASH) in
  let a' := alter (fun d => add_to_depth d e) n (expand_depths a n) in
  arr_ok a' /\ all_entries a' ≡ₚ e :: all_entries a.
Proof.
  intros Ha He n a'. pose proof (count_chars_nonneg (path e) SLASH) as Hn0.
  assert (Z.of_nat n = count_chars (path e) SLASH) as Hn by (unfold n; lia).
  pose proof (expand_ok 0 a n Ha) as Hx.
  destruct (lookup_lt_is_Some_2 (expand_depths a n) n) as [d Hd].
  { unfold expand_depths. rewrite length_app, length_replicate. lia. }
  pose proof (depths_ok_lookup _ _ _ _ Hx Hd) as Hdok. rewrite Z.add_0_l, Hn in Hdok.
  destruct (add_to_depth_ok _ _ _ Hdok He) as [Hok Hp].
  assert (a' = <[n := add_to_depth d e]> (expand_depths a n)) as ->.
  { unfold a'. clear -Hd. revert Hd. generalize (expand_depths a n) as b. clearbody n.
    revert n. intros i b. revert i. induction b as [|x b IH]; intros [|i] H; simpl in *; simplify_eq; [done|]. f_equal. by apply IH. }
  destruct (depths_ok_insert 0 _ _ _ (add_to_depth d e) Hx Hd) as [Hok' Hp']; [by rewrite Z.add_0_l, Hn|].
  split; [done|]. destruct (Hp' _ _ (reflexivity _) Hp) as (r & Hr1 & Hr2). rewrite Hr2. simpl.
  rewrite <- Hr1. unfold expand_depths. by rewrite all_entries_app, all_entries_zero, app_nil_r.
Qed.

End array.

Lemma drop_depths_ok k a : depths_ok k a -> depths_ok k (drop_depths a) /\ all_entries (drop_depths a) = all_entries a.
Proof.
  revert k. induction a as [|d a IH]; intros k Ha; [done|]. destruct Ha as [Hd Ha].
  destruct (IH (k + 1) Ha) as [Hok He]. simpl. unfold all_entries in *. simpl. rewrite <- He.
  destruct (drop_depths a) as [|d' a'] eqn:E; [|done]. destruct (entries d) eqn:Ed; simpl; [done|].
  split; [done|]. by rewrite Ed.
Qed.

Lemma drop_depths_nil a : drop_depths a = [] <-> all_entries a = [].
Proof.
  unfold all_entries. induction a as [|d a IH]; [done|]. simpl. destruct (drop_depths a) as [|d' a'].
  - rewrite (proj1 IH) by done. rewrite app_nil_r. by destruct (entries d).
  - split; [done|]. intros [_ H]%app_nil. by apply IH in H.
Qed.

Lemma depth_ok_sublist k d l : depth_ok k d -> l `sublist_of` entries d ->
  depth_ok k (mk_notify_depth (max_mask d) (max_mask_subdir d) l).
Proof.
  intros [He Hm Hms Hs] Hl.
  assert (forall P, Forall P (entries d) -> Forall P l) as HF.
  { intros P HP. rewrite Forall_forall in *. intros x Hx. apply HP. by eapply elem_of_sublist. }
  split; simpl; [by apply HF..|]. clear -Hs Hl. revert Hs. induction Hl as [|x l l' Hl IH|x l l' Hl IH]; intros Hs; [done|..].
  - apply StronglySorted_inv in Hs as [Hs Hx]. constructor; [by apply IH|].
    rewrite Forall_forall in *. intros y Hy. apply Hx. by eapply elem_of_sublist.
  - apply StronglySorted_inv in Hs as [Hs Hx]. by apply IH.
Qed.

Lemma delete_entry_ok a i d j e : arr_ok a -> a !! i = Some d -> entries d !! j = Some e ->
  let a' := <[i := mk_notify_depth (max_mask d) (max_mask_subdir d) (delete j (entries d))]> a in
  arr_ok a' /\ all_entries a ≡ₚ e :: all_entries a' /\ count_chars (path e) SLASH = Z.of_nat i.
Proof.
  intros Ha Hd He a'. pose proof (depths_ok_lookup _ _ _ _ Ha Hd) as Hdok.
  destruct (depths_ok_insert 0 a i d (mk_notify_depth (max_mask d) (max_mask_subdir d) (delete j (entries d))))
    as [Hok Hp]; [done|done|by apply depth_ok_sublist, sublist_delete|].
  split; [done|]. split.
  - destruct (Hp (e :: delete j (entries d)) (delete j (entries d))) as (r & Hr1 & Hr2);
      [by apply delete_Permutation|done|]. rewrite Hr1. simpl. by rewrite <- Hr2.
  - destruct Hdok as [Hall _ _ _]. rewrite Forall_forall in Hall.
    destruct (Hall e) as [_ Hc]; [by eapply list_elem_of_lookup_2|]. lia.
Qed.

(** ** All watches of a server *)

Lemma remove_server_loop_ok server fuel i l n : (length l - i <= fuel)%nat ->
  remove_server_loop server fuel i l n
  = (take i l ++ List.filter (fun e => negb (cluster_id_equal server (e_server e))) (drop i l),
     n + Z.of_nat (length (List.filter (fun e => cluster_id_equal server (e_server e)) (drop i l)))).
Proof.
  revert i l n. induction fuel as [|fuel IH]; intros i l n Hf; simpl.
  - rewrite drop_ge, take_ge, app_nil_r by lia. simpl. by rewrite Z.add_0_r.
  - destruct (l !! i) as [e|] eqn:Ei.
    + rewrite (drop_S l e i) by done. simpl. pose proof (lookup_lt_Some _ _ _ Ei).
      destruct (cluster_id_equal server (e_server e)); simpl.
      * rewrite IH by (rewrite length_delete by eauto; lia). rewrite delete_take_drop.
        rewrite take_app_length', drop_app_length' by (rewrite length_take; lia). f_equal. lia.
      * rewrite IH by lia. rewrite (take_S_r l i e) by done. by rewrite <- app_assoc.
    + apply lookup_ge_None in Ei. rewrite drop_ge, take_ge, app_nil_r by lia. simpl. by rewrite Z.add_0_r.
Qed.

Lemma remove_all_loop_ok server k a n : depths_ok k a ->
  let '(a', n') := remove_all_loop server a n in
  depths_ok k a'
  /\ all_entries a' = List.filter (fun e => negb (cluster_id_equal server (e_server e))) (all_entries a)
  /\ n' = n + Z.of_nat (length (List.filter (fun e => cluster_id_equal server (e_server e)) (all_entries a))).
Proof.
  revert k n. induction a as [|d a IH]; intros k n Ha; simpl; [split; [done|]; split; [done|simpl; lia]|].
  destruct Ha as [Hd Ha]. rewrite remove_server_loop_ok by lia. simpl.
  specialize (IH (k + 1)
    (n + Z.of_nat (length (List.filter (fun e => cluster_id_equal server (e_server e)) (entries d)))) Ha).
  destruct (remove_all_loop server a _) as [a' n']. destruct IH as (Hok & He & ->).
  unfold all_entries in *. simpl. rewrite !List.filter_app, length_app, He. split; [|split; [done|lia]].
  split; [|done]. apply depth_ok_sublist; [done|].
  clear. induction (entries d) as [|e l IH]; simpl; [done|].
  destruct (negb _); [by apply sublist_skip|by apply sublist_cons].
Qed.

(** ** The state *)

Section state.
Context {Y : Type} (sys : sys_backend Y) {codec : NotifyCodec} {cqsort : CQsort}.

(** What the record of the tdb stands for. *)
Definition rec_is (r : option blob) (a : notify_array) : Prop :=
  match r with
  | None => a = []
  | Some b => ndr_pull_notify_array b = (NT_STATUS_OK, a)
  end.

Definition db_ok (d : notify_db) : Prop := exists a, rec_is (db_rec d) a /\ arr_ok a.

Definition cache_ok (c : notify_context Y) : Prop := arr_ok (default [] (n_array c)).

Definition state_ok (s : notify_state Y) : Prop := db_ok (db s) /\ cache_ok (ctx s).

(** A backend leaves the path of a watch alone. *)
Definition backend_ok : Prop :=
  forall y e l, path (notify_watch sys y e l).1.1.2 = path e.

Lemma state_ok_db f : (forall d, db_ok d -> db_ok (f d)) -> preserves state_ok (on_db f).
Proof. intros Hf. apply triple_modify. intros s [Hd Hc]. split; [by apply Hf|done]. Qed.

Lemma state_ok_ctx f : (forall c, cache_ok c -> cache_ok (f c)) -> preserves state_ok (on_ctx f).
Proof. intros Hf. apply triple_modify. intros s [Hd Hc]. split; [done|by apply Hf]. Qed.

Lemma state_ok_get_db : preserves state_ok get_db.
Proof. by intros s Hs. Qed.

Lemma state_ok_get_ctx : preserves state_ok get_ctx.
Proof. by intros s Hs. Qed.

Lemma state_ok_get_array : triple state_ok get_array (fun a s => state_ok s /\ arr_ok a).
Proof. by intros s [Hd Hc]. Qed.

Lemma state_ok_fault : preserves state_ok next_fault.
Proof.
  apply preserves_bind; [apply state_ok_get_db|]. intros d. destruct (db_faults d); [apply preserves_ret|].
  apply preserves_bind; [|intros; apply preserves_ret]. by apply state_ok_db.
Qed.

Lemma state_ok_store b a : ndr_pull_notify_array b = (NT_STATUS_OK, a) -> arr_ok a ->
  preserves state_ok (db_store b).
Proof.
  intros Hb Ha. apply preserves_bind; [apply state_ok_fault|].
  assert (forall n, preserves state_ok (on_db (fun d => set_rec d (Some b) n))) as Hset.
  { intros n. apply state_ok_db. intros d _. by exists a. }
  intros []; st_walk. apply state_ok_db. intros d Hd. destruct (db_rec d) eqn:E; [|done]. by exists [].
Qed.

Lemma state_ok_delete : preserves state_ok db_delete.
Proof.
  apply preserves_bind; [apply state_ok_fault|]. intros f.
  apply preserves_bind; [apply state_ok_get_db|]. intros d.
  destruct f, (db_rec d); st_walk; apply state_ok_db; intros d' _; by exists [].
Qed.

Lemma state_ok_lock : preserves state_ok notify_lock.
Proof.
  apply preserves_bind; [apply state_ok_get_db|]. intros d.
  destruct (lock_faults d) as [|[|] ?]; st_walk; by apply state_ok_db.
Qed.

Lemma state_ok_unlock : preserves state_ok notify_unlock.
Proof. by apply state_ok_db. Qed.

Lemma state_ok_load : preserves state_ok notify_load.
Proof.
  intros s [Hd Hc]. unfold notify_load, st_bind, get_db, get_ctx, st_get, st_ret, on_ctx, st_modify. simpl.
  destruct (_ && _); [by split|]. simpl. destruct Hd as (a & Hr & Ha). destruct (db_rec (db s)) as [b|] eqn:E.
  - simpl in Hr. rewrite Hr. split; simpl; [|done]. exists a. by rewrite E.
  - split; simpl; [|done]. exists a. by rewrite E.
Qed.

Lemma state_ok_save : preserves state_ok notify_save.
Proof.
  apply preserves_bind_fact with (fun a => arr_ok a); [apply state_ok_get_array|]. intros a Ha.
  destruct (drop_depths_ok 0 a Ha) as [Hok _].
  apply preserves_bind; [by apply state_ok_ctx|]. intros _.
  destruct (length (drop_depths a) =? 0)%nat.
  - apply preserves_bind; [apply state_ok_delete|]. intros ok. apply preserves_ret.
  - destruct (ndr_push_notify_array (drop_depths a)) as [st|b] eqn:E; [apply preserves_ret|].
    apply preserves_bind; [|intros; apply preserves_ret].
    eapply state_ok_store; [by apply array_codec|done].
Qed.

#[local] Hint Resolve state_ok_get_ctx state_ok_load state_ok_lock state_ok_unlock state_ok_save : samba.

Lemma state_ok_add e0 cb ptr : backend_ok -> preserves state_ok (notify_add sys e0 cb ptr).
Proof.
  intros Hsys. unfold notify_add. apply preserves_bind; [apply state_ok_lock|]. intros st.
  destruct (negb _); [apply preserves_ret|].
  apply preserves_bind; [apply state_ok_load|]. intros st'. destruct (negb _); [st_walk|]. cbv zeta. simpl.
  apply preserves_bind_fact with (fun r => path r.1.2 = strip_dot (path e0)).
  { unfold sys_notify_watch. intros s Hs. unfold st_bind, get_ctx, st_get, st_ret. simpl.
    destruct (sys_notify_ctx (ctx s)) as [y|]; simpl; [|done].
    match goal with |- context [notify_watch sys y ?e ?l] => pose proof (Hsys y e l) as Hp end.
    destruct (notify_watch sys y _ _) as [[[st1 e1] h1] y1]. simpl in *. split; [by destruct Hs|done]. }
  intros [[st1 e] h] He. simpl in He. apply preserves_bind; [by apply state_ok_ctx|]. intros _.
  apply preserves_bind; [|intros; st_walk]. destruct (_ || _); [|apply preserves_ret].
  unfold notify_add_array. apply preserves_bind_fact with (fun a => arr_ok a); [apply state_ok_get_array|].
  intros a Ha. apply preserves_bind; [apply state_ok_get_ctx|]. intros c.
  apply preserves_bind; [|intros; apply state_ok_save]. apply state_ok_ctx. intros c' _.
  destruct (add_entry_ok a (mk_notify_entry (n_server c) (filter e) (subdir_filter e) (path e)
    (Z.of_nat (length (path e))) ptr) Ha) as [Hok _]; [by split|]. unfold cache_ok. simpl in *.
  by rewrite He in *.
Qed.

Lemma state_ok_remove ptr : preserves state_ok (notify_remove sys ptr).
Proof.
  unfold notify_remove. apply preserves_bind; [apply state_ok_get_ctx|]. intros c.
  destruct (find_idx _ _) as [k|]; [|apply preserves_ret].
  apply preserves_bind.
  { apply state_ok_ctx. intros c' Hc. unfold free_listel. cbv zeta.
    match goal with |- context [sys_notify_handle ?l] => destruct (sys_notify_handle l); [|done] end.
    by destruct (sys_notify_ctx _). }
  intros _. apply preserves_bind; [apply state_ok_lock|]. intros st. destruct (negb _); [apply preserves_ret|].
  apply preserves_bind; [apply state_ok_load|]. intros st'. destruct (negb _); [st_walk|].
  apply preserves_bind_fact with (fun a => arr_ok a); [apply state_ok_get_array|]. intros a Ha.
  destruct (a !! _) as [d|] eqn:Ed; [|st_walk]. destruct (find_idx _ (entries d)) as [i|] eqn:Ei; [|st_walk].
  apply find_idx_Some in Ei as (e & He & _ & _).
  apply preserves_bind; [|intros; st_walk]. apply state_ok_ctx. intros c' _.
  by apply (delete_entry_ok a _ d i e).
Qed.

Lemma state_ok_remove_all : preserves state_ok notify_remove_all.
Proof.
  unfold notify_remove_all. apply preserves_bind; [apply state_ok_get_ctx|]. intros c.
  destruct (n_list c); [apply preserves_ret|].
  apply preserves_bind; [apply state_ok_lock|]. intros st. destruct (negb _); [apply preserves_ret|].
  apply preserves_bind; [apply state_ok_load|]. intros st'. destruct (negb _); [st_walk|].
  apply preserves_bind_fact with (fun a => arr_ok a); [apply state_ok_get_array|]. intros a Ha.
  pose proof (remove_all_loop_ok (n_server c) 0 a 0 Ha) as Hr.
  destruct (remove_all_loop _ _ _) as [a' cnt]. destruct Hr as [Hok _].
  apply preserves_bind; [by apply state_ok_ctx|]. intros _. st_walk.
Qed.

(** ** A trigger *)

(** The message for a watch. *)
Definition told (action : Z) (x : notify_entry * list Z) : option (server_id * blob) :=
  match ndr_push_notify_event (mk_notify_event action x.2 (private_data x.1)) with
  | inl _ => None
  | inr data => Some (e_server x.1, data)
  end.

Definition told_all (action flt : Z) (s : list Z) (l : list notify_entry) : list (server_id * blob) :=
  omap (told action) (omap (watch_match flt s) l).

Definition add_msgs (d : notify_db) (l : list (server_id * blob)) : notify_db :=
  mk_db (db_rec d) (db_seqnum d) (db_lock d) (db_faults d) (lock_faults d) (db_msgs d ++ l).

Lemma send_all_run l action (s : notify_state Y) :
  send_all l action s = (tt, mk_state (add_msgs (db s) (omap (told action) l)) (ctx s)).
Proof.
  revert s. induction l as [|[e p] l IH]; intros s; simpl.
  - unfold st_ret, add_msgs. rewrite app_nil_r. by destruct s as [[] ?].
  - unfold st_bind, notify_send, told. simpl. destruct (ndr_push_notify_event _) as [|b]; simpl.
    + apply IH.
    + rewrite IH. simpl. unfold add_msgs. simpl. by rewrite <- app_assoc.
Qed.

(** What a trigger does, given what the process has after loading. *)
Lemma trigger_run (action flt : Z) (p : list Z) (s : notify_state Y) :
  state_ok s ->
  exists c, (notify_load s).2 = mk_state (db s) c /\ cache_ok c /\
    notify_trigger action flt (SLASH :: p) s
    = (Some tt, mk_state (if NT_STATUS_IS_OK (notify_load s).1
        then add_msgs (db s) (told_all action flt (SLASH :: p) (all_entries (default [] (n_array c))))
        else db s) c).
Proof.
  intros Hs. pose proof (state_ok_load s Hs) as Hl.
  assert ((notify_load s).2.(db) = db s) as Hdb.
  { unfold notify_load, st_bind, get_db, get_ctx, st_get, st_ret, on_ctx, st_modify. simpl.
    destruct (_ && _); [done|]. destruct (db_rec (db s)) as [b|]; [|done].
    by destruct (ndr_pull_notify_array b). }
  unfold notify_trigger, st_bind. destruct (notify_load s) as [st [d c]]. simpl in *. subst d.
  exists c. split; [done|]. destruct Hl as [_ Hc]. split; [done|].
  destruct (NT_STATUS_IS_OK st); simpl; [|done].
  rewrite (trigger_loop_ok flt (SLASH :: p) (Some 0%nat) 0); [|done|done].
  by rewrite send_all_run.
Qed.

End state.
