(* ===== verification/NotifySpec.v ===== *)
(** * Change notification: what it promises

    No code of its own.  The server processes that share notify.tdb see one
    list of watches; the copies they keep and the order of the arrays only make
    it fast. *)

From stdpp Require Import sorting.
From S2P Require Import Prelude NtStatus Tdb Notify NotifyArray.

Section spec.
Context {Y : Type} (sys : sys_backend Y) {codec : NotifyCodec} {cqsort : CQsort}.

Inductive notify_op : Type :=
  | Op_add (e : notify_entry) (callback private : Z)
  | Op_remove (private : Z)
  | Op_remove_all
  | Op_trigger (action flt : Z) (s : list Z).

Inductive op_result : Set := R_status (status : NTSTATUS) | R_done | R_fault.

Definition run_op (op : notify_op) : ST (notify_state Y) op_result :=
  match op with
  | Op_add e cb private => do st <- notify_add sys e cb private; st_ret (R_status st)
  | Op_remove private => do st <- notify_remove sys private; st_ret (R_status st)
  | Op_remove_all => do st <- notify_remove_all; st_ret (R_status st)
  | Op_trigger action flt s =>
    do r <- notify_trigger action flt s;
    st_ret (match r with Some _ => R_done | None => R_fault end)
  end.

(** The processes and the database they share. *)
Record notify_world : Type := mk_nworld { nw_db : notify_db; nw_procs : list (notify_context Y) }.

Definition run_step (w : notify_world) (step : nat * notify_op) : option (op_result * notify_world) :=
  match nw_procs w !! step.1 with
  | None => None
  | Some c =>
    let '(r, s) := run_op step.2 (mk_state (nw_db w) c) in
    Some (r, mk_nworld (db s) (<[step.1 := ctx s]> (nw_procs w)))
  end.

Fixpoint run_steps (w : notify_world) (l : list (nat * notify_op)) : option (list op_result * notify_world) :=
  match l with
  | [] => Some ([], w)
  | step :: l =>
    match run_step w step with
    | None => None
    | Some (r, w) =>
      match run_steps w l with
      | None => None
      | Some (rs, w) => Some (r :: rs, w)
      end
    end
  end.

(** ** The list of watches *)

(** A process without its copy of the array. *)
Record proc : Type := mk_proc {
  p_server : server_id;
  p_list : list notify_list;
  p_sys : option Y
}.

Definition proc_of (c : notify_context Y) : proc := mk_proc (n_server c) (n_list c) (sys_notify_ctx c).

(** What the backend makes of a new watch. *)
Definition watch_by (p : proc) (e : notify_entry) (l : notify_list)
  : NTSTATUS * notify_entry * option Z * option Y :=
  match p_sys p with
  | None => (NT_STATUS_OK, e, None, None)
  | Some y =>
    let '(status, e', h, y') := notify_watch sys y e l in
    (status, e', if NT_STATUS_IS_OK status then h else None, Some y')
  end.

Definition watched_dir (e : notify_entry) : notify_entry :=
  mk_notify_entry (e_server e) (filter e) (subdir_filter e) (strip_dot (path e)) (path_len e) (private_data e).

Definition has_filter (e : notify_entry) : bool := negb (filter e =? 0) || negb (subdir_filter e =? 0).

(** The watch as it is in the list. *)
Definition new_watch (p : proc) (e : notify_entry) (private : Z) : notify_entry :=
  mk_notify_entry (p_server p) (filter e) (subdir_filter e) (path e) (Z.of_nat (length (path e))) private.

Definition add_spec (p : proc) (e0 : notify_entry) (cb private : Z)
  : NTSTATUS * list notify_entry * proc :=
  let e := watched_dir e0 in
  let depth := count_chars (path e) SLASH in
  let '(status, e, h, y) := watch_by p e (mk_notify_list private cb None depth) in
  (if has_filter e then NT_STATUS_OK else status,
   if has_filter e then [new_watch p e private] else [],
   mk_proc (p_server p) (mk_notify_list private cb h depth :: p_list p) y).

(** The process when the registration [k] is gone. *)
Definition unregister (p : proc) (k : nat) : proc :=
  let l := default (mk_notify_list 0 0 None 0) (p_list p !! k) in
  mk_proc (p_server p) (delete k (p_list p))
    (match sys_notify_handle l, p_sys p with
     | Some h, Some y => Some (free_handle sys y h)
     | _, y => y
     end).

Definition watch_of (p : proc) (l : notify_list) (private : Z) (e : notify_entry) : Prop :=
  private_data e = private /\ e_server e = p_server p /\ count_chars (path e) SLASH = l_depth l.

(** Whether the next lock is had: a script as [lock_faults] of the database. *)
Definition lock_ok (fs fs' : list bool) : Prop := head fs <> Some true /\ fs' = tail fs.
Definition lock_fails (fs fs' : list bool) : Prop := fs = true :: fs'.

(** One operation on the list of watches [W] of all processes: the result, the
    new list, the new process, what is left of the script of the lock, and the
    messages.  A lock that fails stops an operation; a watch that is being
    removed then stays in the list. *)
Inductive spec_op (W : list notify_entry) (p : proc) (fs : list bool) :
    notify_op -> op_result -> list notify_entry -> proc -> list bool -> list (server_id * blob) -> Prop :=
  | spec_add e cb private fs' :
      lock_ok fs fs' ->
      let r := add_spec p e cb private in
      spec_op W p fs (Op_add e cb private) (R_status r.1.1) (r.1.2 ++ W) r.2 fs' []
  | spec_add_no_lock e cb private fs' :
      lock_fails fs fs' ->
      spec_op W p fs (Op_add e cb private) (R_status NT_STATUS_INTERNAL_DB_CORRUPTION) W p fs' []
  | spec_remove private k l e W' fs' :
      find_idx (fun l => l_private l =? private) (p_list p) = Some k -> p_list p !! k = Some l ->
      lock_ok fs fs' -> watch_of p l private e -> W ≡ₚ e :: W' ->
      spec_op W p fs (Op_remove private) (R_status NT_STATUS_OK) W' (unregister p k) fs' []
  | spec_remove_none private k l fs' :
      find_idx (fun l => l_private l =? private) (p_list p) = Some k -> p_list p !! k = Some l ->
      lock_ok fs fs' -> (forall e, e ∈ W -> ~ watch_of p l private e) ->
      spec_op W p fs (Op_remove private) (R_status NT_STATUS_OBJECT_NAME_NOT_FOUND) W (unregister p k) fs' []
  | spec_remove_unknown private :
      find_idx (fun l => l_private l =? private) (p_list p) = None ->
      spec_op W p fs (Op_remove private) (R_status NT_STATUS_OBJECT_NAME_NOT_FOUND) W p fs []
  | spec_remove_no_lock private k fs' :
      find_idx (fun l => l_private l =? private) (p_list p) = Some k ->
      lock_fails fs fs' ->
      spec_op W p fs (Op_remove private) (R_status NT_STATUS_INTERNAL_DB_CORRUPTION) W (unregister p k) fs' []
  | spec_remove_all fs' :
      p_list p <> [] -> lock_ok fs fs' ->
      spec_op W p fs Op_remove_all (R_status NT_STATUS_OK)
        (List.filter (fun e => negb (cluster_id_equal (p_server p) (e_server e))) W) p fs' []
  | spec_remove_all_empty :
      p_list p = [] -> spec_op W p fs Op_remove_all (R_status NT_STATUS_OK) W p fs []
  | spec_remove_all_no_lock fs' :
      p_list p <> [] -> lock_fails fs fs' ->
      spec_op W p fs Op_remove_all (R_status NT_STATUS_INTERNAL_DB_CORRUPTION) W p fs' []
  | spec_trigger action flt s ms :
      ms ≡ₚ told_all action flt s W ->
      spec_op W p fs (Op_trigger action flt s) R_done W p fs ms.

Inductive spec_steps : list notify_entry -> list proc -> list bool -> list (nat * notify_op) ->
    list op_result -> list notify_entry -> list proc -> list bool -> list (server_id * blob) -> Prop :=
  | spec_nil W ps fs : spec_steps W ps fs [] [] W ps fs []
  | spec_cons W ps fs i p op l r W1 p1 fs1 ms rs W2 ps2 fs2 ms2 :
      ps !! i = Some p -> spec_op W p fs op r W1 p1 fs1 ms ->
      spec_steps W1 (<[i := p1]> ps) fs1 l rs W2 ps2 fs2 ms2 ->
      spec_steps W ps fs ((i, op) :: l) (r :: rs) W2 ps2 fs2 (ms ++ ms2).

(** ** The relation *)

(** The record of the tdb, with the number of its last change, is the list. *)
Definition db_is (W : list notify_entry) (a : notify_array) (d : notify_db) : Prop :=
  rec_is (db_rec d) a /\ arr_ok a /\ all_entries a ≡ₚ W
  /\ Forall (fun f => f = No_fault \/ f = Moved) (db_faults d).

(** A copy is that of the record, or older. *)
Definition cache_is (a : notify_array) (n : Z) (c : notify_context Y) : Prop :=
  n_seqnum c <= n /\ arr_ok (default [] (n_array c))
  /\ (n_seqnum c = n -> is_Some (n_array c) -> n_array c = Some a).

Definition depths_pos (c : notify_context Y) : Prop := Forall (fun l => 0 <= l_depth l) (n_list c).

Definition world_is (W : list notify_entry) (ps : list proc) (w : notify_world) : Prop :=
  0 <= db_seqnum (nw_db w) /\
  exists a, db_is W a (nw_db w)
    /\ Forall (fun c => cache_is a (db_seqnum (nw_db w)) c /\ depths_pos c) (nw_procs w)
    /\ ps = proc_of <$> nw_procs w.

(** What pidl generates does not fail to push an array. *)
Definition pushes : Prop := forall a, exists b, ndr_push_notify_array a = inr b.

(** *** The steps of an operation *)

(** After loading, the process has the array of the record. *)
Lemma load_is W a (s : notify_state Y) :
  db_is W a (db s) -> cache_is a (db_seqnum (db s)) (ctx s) ->
  notify_load s = (NT_STATUS_OK, mk_state (db s)
    (mk_notify_context (n_server (ctx s)) (n_list (ctx s)) (Some a) (db_seqnum (db s))
       (sys_notify_ctx (ctx s)))).
Proof.
  intros (Hr & Ha & _) (_ & _ & Hc). destruct s as [d c]. simpl in *.
  unfold notify_load, st_bind, get_db, get_ctx, st_get, st_ret, on_ctx, st_modify. simpl.
  destruct (Z.eqb_spec (db_seqnum d) (n_seqnum c)) as [Heq|]; simpl.
  - case_bool_decide as Hs.
    + rewrite <- (Hc (eq_sym Heq) Hs), Heq. by destruct c.
    + destruct (db_rec d) as [b|]; simpl in Hr; [by rewrite Hr|by subst].
  - destruct (db_rec d) as [b|]; simpl in Hr; [by rewrite Hr|by subst].
Qed.

(** The database after a change, or as it was. *)
Definition changed (W : list notify_entry) (a : notify_array) (d d' : notify_db) : Prop :=
  db_is W a d' /\ db_lock d' = db_lock d /\ lock_faults d' = lock_faults d /\ db_msgs d' = db_msgs d
  /\ db_seqnum d < db_seqnum d' <= db_seqnum d + 2.

Lemma store_changes W a b d (c : notify_context Y) :
  Forall (fun f => f = No_fault \/ f = Moved) (db_faults d) ->
  0 <= db_seqnum d -> db_seqnum d + 2 < 2 ^ 32 ->
  ndr_pull_notify_array b = (NT_STATUS_OK, a) -> arr_ok a -> all_entries a ≡ₚ W ->
  exists d', db_store b (mk_state d c) = (true, mk_state d' c) /\ changed W a d d'.
Proof.
  intros Hf Hn Hmax Hb Ha HW. unfold db_store, next_fault, st_bind, get_db, st_get, st_ret, on_db, st_modify.
  simpl. destruct d as [r n L fs lf ms]; simpl in *.
  assert (forall fs' k, Forall (fun f => f = No_fault \/ f = Moved) fs' -> 0 < k <= 2 ->
    changed W a (mk_db r n L fs lf ms) (mk_db (Some b) (u32 (n + k)) L fs' lf ms)) as Hch.
  { intros fs' k Hfs' Hk. rewrite u32_small by lia. split; simpl; [|split; [done|split; [done|split; [done|lia]]]].
    by split. }
  destruct fs as [|f fs]; simpl.
  - eexists. split; [done|]. apply Hch; [done|lia].
  - apply Forall_cons in Hf as [[->| ->] Hf]; simpl; eexists; (split; [done|]); apply Hch; (done || lia).
Qed.

Lemma delete_changes d (c : notify_context Y) :
  Forall (fun f => f = No_fault \/ f = Moved) (db_faults d) ->
  0 <= db_seqnum d -> db_seqnum d + 2 < 2 ^ 32 -> is_Some (db_rec d) ->
  exists d', db_delete (mk_state d c) = (true, mk_state d' c) /\ changed [] [] d d'.
Proof.
  intros Hf Hn Hmax [b Hr]. unfold db_delete, next_fault, st_bind, get_db, st_get, st_ret, on_db, st_modify.
  simpl. destruct d as [r n L fs lf ms]; simpl in *. subst r.
  assert (forall fs', Forall (fun f => f = No_fault \/ f = Moved) fs' ->
    changed [] [] (mk_db (Some b) n L fs lf ms) (mk_db None (u32 (n + 1)) L fs' lf ms)) as Hch.
  { intros fs' Hfs'. rewrite u32_small by lia. split; simpl; [|split; [done|split; [done|split; [done|lia]]]]. by split. }
  destruct fs as [|f fs]; simpl.
  - eexists. split; [done|]. by apply Hch.
  - apply Forall_cons in Hf as [[->| ->] Hf]; simpl; eexists; (split; [done|]); by apply Hch.
Qed.

(** Saving a new array [a'] over [a]. *)
Lemma save_changes W a W' a' (s : notify_state Y) :
  pushes -> db_is W a (db s) -> 0 <= db_seqnum (db s) -> db_seqnum (db s) + 2 < 2 ^ 32 ->
  n_array (ctx s) = Some a' -> arr_ok a' -> all_entries a' ≡ₚ W' -> (W' = [] -> W <> []) ->
  exists d' a'', notify_save s = (NT_STATUS_OK, mk_state d' (set_array (ctx s) (Some a'')))
    /\ changed W' a'' (db s) d' /\ arr_ok a''.
Proof.
  intros Hpush (Hr & Ha & HW & Hf) Hn Hmax Ea Ha' HW' Hne. destruct s as [d c]. simpl in *.
  destruct (drop_depths_ok 0 a' Ha') as [Hok He].
  unfold notify_save, st_bind at 1, get_array, get_ctx, st_bind, st_get, st_ret, on_ctx, st_modify.
  simpl. rewrite Ea. simpl.
  destruct (drop_depths a') as [|d0 ds] eqn:Ed.
  - assert (W' = []) as ->.
    { apply Permutation_nil_r. by rewrite <- HW', <- He. }
    cbn [length Nat.eqb].
    destruct (delete_changes d (set_array c (Some []))) as (d' & -> & Hch); [done..| |].
    { destruct (db_rec d); [by eexists|]. simpl in Hr. subst a.
      destruct (Hne eq_refl). symmetry. by apply Permutation_nil_l. }
    by exists d', [].
  - assert ((length (drop_depths a') =? 0)%nat = false) as El by (by rewrite Ed). rewrite <- Ed in *. rewrite El.
    destruct (Hpush (drop_depths a')) as [b Eb]. rewrite Eb.
    destruct (store_changes W' (drop_depths a') b d (set_array c (Some (drop_depths a')))) as (d' & -> & Hch);
      [done..|by apply array_codec|done|by rewrite He|].
    by exists d', (drop_depths a').
Qed.

(** *** The operations *)

Lemma list_filter_perm {A} (f : A -> bool) l l' : l ≡ₚ l' -> List.filter f l ≡ₚ List.filter f l'.
Proof.
  induction 1; simpl; repeat case_match; eauto using Permutation; etrans; eauto.
Qed.

(** A process without watches changes nothing when it removes all of them. *)
Lemma remove_all_loop_none server a n :
  (forall x, x ∈ all_entries a -> cluster_id_equal server (e_server x) = false) ->
  (remove_all_loop server a n).1 = a.
Proof.
  revert n. induction a as [|d a IH]; intros n Hall; simpl; [done|].
  rewrite remove_server_loop_ok by lia.
  assert (forall x, x ∈ entries d -> cluster_id_equal server (e_server x) = false) as Hd.
  { intros x Hx. apply Hall. unfold all_entries. simpl. apply elem_of_app. by left. }
  match goal with |- context [remove_all_loop server a ?m] => specialize (IH m) end.
  destruct (remove_all_loop server a _) as [a' n']. simpl in *. rewrite IH.
  - destruct d as [m ms l]. simpl in *. do 2 f_equal. apply forallb_filter_id, forallb_forall.
    intros x Hx. apply list_elem_of_In in Hx. by rewrite (Hd x Hx).
  - intros x Hx. apply Hall. unfold all_entries. simpl. apply elem_of_app. by right.
Qed.

(** What an operation on [W] leaves: a step of the specification, with the
    database unchanged or changed at most twice, and the lock given back. *)
Definition op_done W (a : notify_array) (op : notify_op) (s : notify_state Y)
    (out : op_result * notify_state Y) : Prop :=
  exists W' a' ms,
    spec_op W (proc_of (ctx s)) (lock_faults (db s)) op out.1 W' (proc_of (ctx out.2)) (lock_faults (db out.2)) ms
    /\ db_is W' a' (db out.2) /\ cache_is a' (db_seqnum (db out.2)) (ctx out.2) /\ depths_pos (ctx out.2)
    /\ db_msgs (db out.2) = db_msgs (db s) ++ ms /\ db_lock (db out.2) = db_lock (db s)
    /\ ((a' = a /\ db_seqnum (db out.2) = db_seqnum (db s))
        \/ db_seqnum (db s) < db_seqnum (db out.2) <= db_seqnum (db s) + 2).

Lemma lock_cases (s : notify_state Y) : exists fs,
  notify_lock s = (NT_STATUS_INTERNAL_DB_CORRUPTION, mk_state (set_lock (db s) (db_lock (db s)) fs) (ctx s))
    /\ lock_fails (lock_faults (db s)) fs
  \/ notify_lock s = (NT_STATUS_OK, mk_state (set_lock (db s) (S (db_lock (db s))) fs) (ctx s))
    /\ lock_ok (lock_faults (db s)) fs.
Proof.
  unfold notify_lock, st_bind, get_db, st_get, st_ret, on_db, st_modify, lock_ok, lock_fails. simpl.
  destruct (lock_faults (db s)) as [|[|] fs]; simpl; eexists; [by right|by left|by right].
Qed.

Lemma db_is_lock W a d n fs : db_is W a (set_lock d n fs) <-> db_is W a d.
Proof. done. Qed.

Lemma state_eta (s : notify_state Y) :
  mk_state (set_lock (db s) (db_lock (db s)) (lock_faults (db s))) (ctx s) = s.
Proof. by destruct s as [[] ?]. Qed.

Lemma bind_run {S A B} (m : ST S A) (f : A -> ST S B) x s s' :
  m s = (x, s') -> st_bind m f s = f x s'.
Proof. intros E. unfold st_bind. by rewrite E. Qed.

Lemma bind_on_ctx {B} f (k : unit -> ST (notify_state Y) B) s :
  st_bind (on_ctx f) k s = k tt (mk_state (db s) (f (ctx s))).
Proof. done. Qed.

(** The tests of a status that is known. *)
Ltac known_status :=
  try change (NT_STATUS_IS_OK NT_STATUS_OK) with true;
  try change (NT_STATUS_IS_OK NT_STATUS_INTERNAL_DB_CORRUPTION) with false;
  cbn [negb]; cbv beta iota zeta.

Section op.
Context (W : list notify_entry) (a : notify_array) (s : notify_state Y).
Hypothesis Hpush : pushes.
Hypothesis Hdb : db_is W a (db s).
Hypothesis Hcache : cache_is a (db_seqnum (db s)) (ctx s).
Hypothesis Hpos : depths_pos (ctx s).
Hypothesis Hn : 0 <= db_seqnum (db s).
Hypothesis Hmax : db_seqnum (db s) + 2 < 2 ^ 32.

(** The state in which the lock is held and the array is loaded. *)
Definition locked_state (c : notify_context Y) fs : notify_state Y :=
  mk_state (set_lock (db s) (S (db_lock (db s))) fs)
    (mk_notify_context (n_server c) (n_list c) (Some a) (db_seqnum (db s)) (sys_notify_ctx c)).

Lemma lock_load (c : notify_context Y) fs :
  n_array c = n_array (ctx s) -> n_seqnum c = n_seqnum (ctx s) ->
  notify_load (mk_state (set_lock (db s) (S (db_lock (db s))) fs) c) = (NT_STATUS_OK, locked_state c fs).
Proof.
  intros Ea Es. rewrite (load_is W a); [done|done|]. simpl. unfold cache_is. by rewrite Ea, Es.
Qed.

(** Nothing was done but to the process. *)
Lemma unchanged_done op r c fs n :
  n = db_lock (db s) -> cache_is a (db_seqnum (db s)) c -> depths_pos c ->
  spec_op W (proc_of (ctx s)) (lock_faults (db s)) op r W (proc_of c) fs [] ->
  op_done W a op s (r, mk_state (set_lock (db s) n fs) c).
Proof.
  intros -> Hc Hp Hs. exists W, a, []. simpl. split; [done|]. split; [done|]. split; [done|].
  split; [done|]. split; [by rewrite app_nil_r|]. split; [done|]. by left.
Qed.

(** The array was saved, and the lock given back. *)
Lemma saved_done op r W' a' d' fs c :
  changed W' a' (set_lock (db s) (S (db_lock (db s))) fs) d' -> arr_ok (default [] (n_array c)) ->
  n_seqnum c = db_seqnum (db s) -> depths_pos c ->
  spec_op W (proc_of (ctx s)) (lock_faults (db s)) op r W' (proc_of c) fs [] ->
  op_done W a op s (r, mk_state (set_lock d' (pred (db_lock d')) (lock_faults d')) c).
Proof.
  intros (Hd & Hl & Hlf & Hm & Hs) Ha Hq Hp Hspec. simpl in *. exists W', a', []. simpl. rewrite Hl, Hlf, Hm, app_nil_r.
  split; [done|]. split; [done|]. split; [|split; [done|split; [done|split; [done|by right]]]].
  split; [lia|]. split; [done|]. intros Heq. lia.
Qed.

Lemma cache_loaded (c : notify_context Y) : n_array c = Some a -> n_seqnum c = db_seqnum (db s) ->
  cache_is a (db_seqnum (db s)) c.
Proof. intros Ea Eq. destruct Hdb as (_ & Ha & _). split; [lia|]. by rewrite Ea. Qed.

Lemma cache_same (c : notify_context Y) : n_array c = n_array (ctx s) -> n_seqnum c = n_seqnum (ctx s) ->
  cache_is a (db_seqnum (db s)) c.
Proof. intros Ea Eq. unfold cache_is. by rewrite Ea, Eq. Qed.

(** The backend's part of an addition. *)
Lemma watch_by_run {B} e l st1 e1 h1 y1 fs (k : NTSTATUS * notify_entry * option Z -> ST (notify_state Y) B) :
  watch_by (proc_of (ctx s)) e l = (st1, e1, h1, y1) ->
  st_bind (sys_notify_watch sys e l) k (locked_state (ctx s) fs)
  = k (st1, e1, h1) (mk_state (set_lock (db s) (S (db_lock (db s))) fs)
      (mk_notify_context (n_server (ctx s)) (n_list (ctx s)) (Some a) (db_seqnum (db s)) y1)).
Proof.
  unfold watch_by, st_bind, sys_notify_watch, get_ctx, st_bind, st_get, st_ret, locked_state. simpl. intros Ew.
  destruct (sys_notify_ctx (ctx s)) as [y|].
  - destruct (notify_watch sys y e _) as [[[st2 e2] h2] y2]. by injection Ew as <- <- <- <-.
  - by injection Ew as <- <- <- <-.
Qed.

Lemma watch_by_path p e l st1 e1 h1 y1 :
  backend_ok sys -> watch_by p e l = (st1, e1, h1, y1) -> path e1 = path e.
Proof.
  intros Hsys. unfold watch_by. destruct (p_sys p) as [y|]; [|by intros [= _ <- _ _]].
  pose proof (Hsys y e l) as Hp. destruct (notify_watch sys y e _) as [[[st2 e2] h2] y2]. by intros [= _ <- _ _].
Qed.

Lemma add_done e0 cb private : backend_ok sys ->
  op_done W a (Op_add e0 cb private) s (run_op (Op_add e0 cb private) s).
Proof.
  intros Hsys. simpl. unfold st_bind at 1, notify_add. unfold st_bind at 1.
  destruct (lock_cases s) as [fs [[-> Hfs]|[-> Hfs]]]; known_status.
  { apply unchanged_done; [done|done|done|]. by constructor. }
  unfold st_bind at 1. rewrite lock_load by done. known_status.
  set (e := mk_notify_entry (e_server e0) (filter e0) (subdir_filter e0) (strip_dot (path e0))
    (path_len e0) (private_data e0)).
  set (depth := count_chars (strip_dot (path e0)) SLASH).
  pose proof (count_chars_nonneg (strip_dot (path e0)) SLASH) as Hdepth. fold depth in Hdepth.
  destruct (watch_by (proc_of (ctx s)) e (mk_notify_list private cb None depth)) as [[[st1 e1] h1] y1] eqn:Ew.
  pose proof (watch_by_path _ _ _ _ _ _ _ Hsys Ew) as Hpath. change (path e) with (strip_dot (path e0)) in Hpath.
  change (path e) with (strip_dot (path e0)). fold depth. rewrite (watch_by_run _ _ _ _ _ _ _ _ Ew). known_status.
  assert (forall c, proc_of c = mk_proc (n_server (ctx s)) (mk_notify_list private cb h1 depth :: n_list (ctx s)) y1 ->
    depths_pos c) as Hpos'.
  { intros c [= _ El _]. unfold depths_pos. rewrite El. by econstructor. }
  assert (forall r W' c, proc_of c = mk_proc (n_server (ctx s)) (mk_notify_list private cb h1 depth :: n_list (ctx s)) y1 ->
    r = (if has_filter e1 then NT_STATUS_OK else st1) ->
    W' = (if has_filter e1 then [new_watch (proc_of (ctx s)) e1 private] else []) ++ W ->
    spec_op W (proc_of (ctx s)) (lock_faults (db s)) (Op_add e0 cb private) (R_status r) W' (proc_of c) fs []) as Hspec.
  { intros r W' c Ec -> ->. rewrite Ec. pose proof (spec_add W (proc_of (ctx s)) _ e0 cb private fs Hfs) as H.
    unfold add_spec, watched_dir in H. cbv zeta in H. fold e in H. change (path e) with (strip_dot (path e0)) in H.
    fold depth in H. rewrite Ew in H. exact H. }
  unfold st_bind at 1, on_ctx at 1, st_modify at 1. known_status.
  fold (has_filter e1). destruct (has_filter e1) eqn:Ef.
  - unfold st_bind, notify_add_array, get_array, get_ctx, st_bind, st_get, st_ret, on_ctx, st_modify.
    cbn -[notify_save set_lock].
    set (e2 := mk_notify_entry (n_server (ctx s)) (filter e1) (subdir_filter e1) (path e1)
      (Z.of_nat (length (path e1))) private).
    destruct (add_entry_ok a e2) as [Ha' HW']; [by destruct Hdb as (_ & ? & _)|by split|].
    assert (depth = count_chars (path e2) SLASH) as Edepth by (unfold depth; simpl; by rewrite Hpath).
    rewrite Edepth.
    match goal with |- context [notify_save ?st] => set (s1 := st) end.
    destruct (save_changes W a (e2 :: W) (alter (fun d => add_to_depth d e2)
      (Z.to_nat (count_chars (path e2) SLASH)) (expand_depths a (Z.to_nat (count_chars (path e2) SLASH)))) s1)
      as (d' & a'' & -> & Hch & Hok); [done|done|done|done|done|done| |done|].
    { rewrite HW'. by destruct Hdb as (_ & _ & -> & _). }
    cbn. eapply saved_done; [exact Hch|done|done| |].
    + apply Hpos'. unfold proc_of. simpl. by rewrite Edepth.
    + apply Hspec; [unfold proc_of; simpl; by rewrite Edepth|done|done].
  - unfold st_ret. cbn. apply unchanged_done; [done|by apply cache_loaded|by apply Hpos'|].
    by apply Hspec.
Qed.

(** The registration is gone. *)
Lemma free_listel_is k l : n_list (ctx s) !! k = Some l ->
  let c := free_listel sys (ctx s) k l in
  proc_of c = unregister (proc_of (ctx s)) k /\ n_array c = n_array (ctx s)
  /\ n_seqnum c = n_seqnum (ctx s) /\ depths_pos c.
Proof.
  intros El c. assert (proc_of c = unregister (proc_of (ctx s)) k) as Ec.
  { unfold c, free_listel, unregister, proc_of. simpl. rewrite El. simpl.
    destruct (sys_notify_handle l); [|done]. by destruct (sys_notify_ctx (ctx s)) eqn:E; simpl; rewrite ?E. }
  split; [done|]. split; [|split].
  - unfold c, free_listel. simpl. destruct (sys_notify_handle l); [|done]. by destruct (sys_notify_ctx (ctx s)).
  - unfold c, free_listel. simpl. destruct (sys_notify_handle l); [|done]. by destruct (sys_notify_ctx (ctx s)).
  - pose proof (f_equal p_list Ec) as E. simpl in E. unfold depths_pos. rewrite E. by apply Forall_delete.
Qed.

(** A watch of a registration is in the depth of it. *)
Lemma watch_entry l private x : 0 <= l_depth l -> x ∈ W -> watch_of (proc_of (ctx s)) l private x ->
  exists d, a !! Z.to_nat (l_depth l) = Some d /\ x ∈ entries d.
Proof.
  destruct Hdb as (_ & Ha & HW & _). intros Hl Hx (_ & _ & Hd). rewrite <- HW in Hx. unfold all_entries in Hx.
  apply list_elem_of_In, in_concat in Hx as (es & Hes & Hx). apply in_map_iff in Hes as (d & <- & Hd').
  apply list_elem_of_In, list_elem_of_lookup in Hd' as [i Hi]. apply list_elem_of_In in Hx.
  exists d. split; [|done]. rewrite <- Hi. f_equal.
  pose proof (do_entries _ _ (depths_ok_lookup _ _ _ _ Ha Hi)) as Hall. rewrite Forall_forall in Hall.
  destruct (Hall x Hx) as [_ Hc]. lia.
Qed.

Lemma watch_test l private x : watch_of (proc_of (ctx s)) l private x <->
  ((private =? private_data x) && cluster_id_equal (n_server (ctx s)) (e_server x) = true
   /\ count_chars (path x) SLASH = l_depth l).
Proof.
  unfold watch_of, cluster_id_equal. simpl. rewrite !andb_true_iff, !Z.eqb_eq.
  destruct (n_server (ctx s)) as [i1 i2], (e_server x) as [j1 j2]. simpl. intuition congruence.
Qed.

(** Only the registration was found. *)
Lemma unregistered_done private k l r c fs n :
  n_list (ctx s) !! k = Some l -> proc_of c = unregister (proc_of (ctx s)) k ->
  n_array c = Some a /\ n_seqnum c = db_seqnum (db s)
    \/ n_array c = n_array (ctx s) /\ n_seqnum c = n_seqnum (ctx s) ->
  spec_op W (proc_of (ctx s)) (lock_faults (db s)) (Op_remove private) r W (unregister (proc_of (ctx s)) k) fs [] ->
  n = db_lock (db s) -> op_done W a (Op_remove private) s (r, mk_state (set_lock (db s) n fs) c).
Proof.
  intros El Ec Hc Hs ->. destruct (free_listel_is k l El) as (Ec1 & _ & _ & Hp1).
  apply unchanged_done; [done|..].
  - destruct Hc as [[? ?]|[? ?]]; [by apply cache_loaded|by apply cache_same].
  - pose proof (f_equal p_list (eq_trans Ec (eq_sym Ec1))) as E. unfold depths_pos in *. simpl in E. by rewrite E.
  - by rewrite Ec.
Qed.

Lemma remove_done private :
  op_done W a (Op_remove private) s (run_op (Op_remove private) s).
Proof.
  simpl. unfold st_bind at 1, notify_remove.
  rewrite (bind_run get_ctx _ (ctx s) s s) by done.
  destruct (find_idx (fun l => l_private l =? private) (n_list (ctx s))) as [k|] eqn:Ek.
  2: { rewrite <- (state_eta s) at 2. apply unchanged_done; [done|done|done|]. by econstructor. }
  destruct (n_list (ctx s) !! k) as [l|] eqn:El.
  2: { apply find_idx_lt in Ek. apply lookup_lt_is_Some in Ek as [? Ek]. congruence. }
  cbn [default from_option]. change (Datatypes.id l) with l. rewrite bind_on_ctx.
  destruct (free_listel_is k l El) as (Ec1 & Ea & Eq & Hp1).
  set (c1 := free_listel sys (ctx s) k l) in *. set (s1 := mk_state (db s) c1).
  unfold st_bind at 1. destruct (lock_cases s1) as [fs [[-> Hfs]|[-> Hfs]]]; known_status.
  { eapply unregistered_done; [done|done|by right|by econstructor|done]. }
  unfold st_bind at 1. cbn [db ctx s1]. rewrite lock_load by done. known_status.
  rewrite (bind_run get_array _ a (locked_state c1 fs) (locked_state c1 fs)) by done.
  assert (0 <= l_depth l) as Hld by (by eapply (Forall_lookup_1 _ _ _ _ Hpos El)).
  pose proof (watch_entry l private) as Hfind.
  destruct (a !! Z.to_nat (l_depth l)) as [d|] eqn:Ed.
  2: { eapply unregistered_done; [done|done|by left| |done]. apply (spec_remove_none _ _ _ _ _ l); [done|done|done|].
       intros x Hx Hwx. destruct (Hfind x Hld Hx Hwx) as (? & ? & _). congruence. }
  destruct (find_idx _ (entries d)) as [i|] eqn:Ei.
  2: { eapply unregistered_done; [done|done|by left| |done]. apply (spec_remove_none _ _ _ _ _ l); [done|done|done|].
       intros x Hx Hwx. destruct (Hfind x Hld Hx Hwx) as (d' & [= <-] & Hxd).
       apply watch_test in Hwx as [Hwx _]. by rewrite (proj1 (find_idx_None _ _) Ei x Hxd) in Hwx. }
  apply find_idx_Some in Ei as (e & He & Hm & _). destruct Hdb as (Hr & Ha & HW & Hf).
  destruct (delete_entry_ok a _ d i e Ha Ed He) as (Ha' & HW' & Hc).
  set (a' := <[_ := _]> a) in *. rewrite bind_on_ctx.
  unfold st_bind at 1. match goal with |- context [notify_save ?st] => set (s2 := st) end.
  destruct (save_changes W a (all_entries a') a' s2) as (d' & a'' & -> & Hch & Hok); [done|done|done|done|done|done|done| |].
  { intros _ E. rewrite E in HW. apply Permutation_nil_r in HW. rewrite HW in HW'.
    by apply Permutation_nil_cons in HW'. }
  eapply saved_done; [exact Hch|done|done|done|].
  match goal with |- spec_op _ _ _ _ _ _ ?p _ _ => change p with (proc_of c1) end. rewrite Ec1.
  apply (spec_remove _ _ _ _ _ l e); [done|done|done| |by rewrite <- HW, HW'].
  apply watch_test. split; [done|]. rewrite Hc. lia.
Qed.

Lemma remove_all_done :
  op_done W a Op_remove_all s (run_op Op_remove_all s).
Proof.
  simpl. unfold st_bind at 1, notify_remove_all. rewrite (bind_run get_ctx _ (ctx s) s s) by done.
  destruct (n_list (ctx s)) as [|l0 ls] eqn:El.
  { rewrite <- (state_eta s) at 2. apply unchanged_done; [done|done|done|]. by apply spec_remove_all_empty. }
  unfold st_bind at 1. destruct (lock_cases s) as [fs [[-> Hfs]|[-> Hfs]]]; known_status.
  { apply unchanged_done; [done|done|done|]. apply spec_remove_all_no_lock; [simpl; by rewrite El|done]. }
  unfold st_bind at 1. rewrite lock_load by done. known_status.
  rewrite (bind_run get_array _ a (locked_state (ctx s) fs) (locked_state (ctx s) fs)) by done.
  destruct Hdb as (Hr & Ha & HW & Hf). pose proof (remove_all_loop_ok (n_server (ctx s)) 0 a 0 Ha) as Hloop.
  destruct (remove_all_loop _ a 0) as [a' n] eqn:Eloop0. destruct Hloop as (Ha' & HW' & ->).
  assert (spec_op W (proc_of (ctx s)) (lock_faults (db s)) Op_remove_all (R_status NT_STATUS_OK)
    (List.filter (fun e => negb (cluster_id_equal (n_server (ctx s)) (e_server e))) W) (proc_of (ctx s)) fs []) as Hspec.
  { apply (spec_remove_all W (proc_of (ctx s)) _ fs); [|done]. simpl. by rewrite El. }
  rewrite bind_on_ctx. set (gone := List.filter (fun e => cluster_id_equal _ _) _) in *.
  set (stay := List.filter _ W) in *.
  assert (all_entries a' ≡ₚ stay) as Hstay by (rewrite HW'; by apply list_filter_perm).
  destruct (Z.ltb_spec 0 (0 + Z.of_nat (length gone))) as [Hpos0|Hz].
  - unfold st_bind at 1. match goal with |- context [notify_save ?st] => set (s2 := st) end.
    destruct (save_changes W a stay a' s2) as (d' & a'' & -> & Hch & Hok); [done..| |].
    { intros _ E. rewrite E in HW. apply Permutation_nil_r in HW. unfold gone in Hpos0.
      rewrite HW in Hpos0. simpl in Hpos0. lia. }
    eapply saved_done; [exact Hch|done|done|done|exact Hspec].
  - destruct gone as [|] eqn:Egone; [|simpl in Hz; lia].
    assert (forall x, x ∈ all_entries a -> cluster_id_equal (n_server (ctx s)) (e_server x) = false) as Hnone.
    { intros x Hx. apply not_true_iff_false. intros E. apply list_elem_of_In in Hx.
      pose proof (proj2 (List.filter_In
        (fun e => cluster_id_equal (n_server (ctx s)) (e_server e)) x _) (conj Hx E)) as Hin. fold gone in Hin. by rewrite Egone in Hin. }
    pose proof (remove_all_loop_none (n_server (ctx s)) a 0 Hnone) as Eloop. rewrite Eloop0 in Eloop.
    simpl in Eloop. subst a'.
    assert (stay = W) as Estay.
    { apply forallb_filter_id, forallb_forall. intros x Hx. apply list_elem_of_In in Hx. rewrite <- HW in Hx.
      by rewrite (Hnone x Hx). }
    rewrite Estay in Hspec. apply unchanged_done; [done|by apply cache_loaded|done|exact Hspec].
Qed.

Lemma trigger_done action flt p :
  op_done W a (Op_trigger action flt (SLASH :: p)) s (run_op (Op_trigger action flt (SLASH :: p)) s).
Proof.
  simpl. unfold st_bind at 1, notify_trigger. destruct Hdb as (Hr & Ha & HW & Hf).
  unfold st_bind at 1. rewrite (load_is W a) by done. known_status.
  rewrite (bind_run get_array _ a _ _) by done.
  rewrite (trigger_loop_ok flt (SLASH :: p) (Some 0%nat) 0) by done.
  unfold st_bind. rewrite send_all_run. exists W, a. eexists. cbn. split.
  - constructor. unfold told_all. apply omap_Permutation. apply omap_Permutation. exact HW.
  - split; [done|]. split; [by apply cache_loaded|]. split; [done|]. split; [done|]. split; [done|]. by left.
Qed.

End op.

(** The record and the copies are arrays whose depths, order and masks are right. *)
Definition world_ok (w : notify_world) : Prop := db_ok (nw_db w) /\ Forall cache_ok (nw_procs w).

(** Processes that open an empty tdb see no watches. *)
Definition opened_world (servers : list (server_id * option Y)) (d : notify_db) : notify_world :=
  mk_nworld d ((fun x => notify_init x.1 d x.2) <$> servers).

Lemma opened_world_is servers d :
  db_rec d = None -> 0 <= db_seqnum d -> Forall (fun f => f = No_fault \/ f = Moved) (db_faults d) ->
  world_is [] ((fun x => mk_proc x.1 [] x.2) <$> servers) (opened_world servers d).
Proof.
  intros Hr Hn Hf. split; [done|]. exists []. split.
  - split; [unfold rec_is; simpl; by rewrite Hr|]. by split.
  - split; [|simpl; by rewrite <- list_fmap_compose]. simpl. apply Forall_fmap, Forall_true. intros x. split; [|constructor].
    split; [done|]. split; [done|]. intros _ [? [=]].
Qed.

Lemma opened_world_ok servers d : db_rec d = None -> world_ok (opened_world servers d).
Proof.
  intros Hr. split; [exists []; unfold rec_is; simpl; by rewrite Hr|]. simpl. by apply Forall_fmap, Forall_true.
Qed.

(** ** All processes together *)

(** The paths that are triggered are absolute. *)
Definition op_abs (op : notify_op) : Prop :=
  match op with Op_trigger _ _ s => head s = Some SLASH | _ => True end.

Lemma op_done_any W a op (s : notify_state Y) :
  backend_ok sys -> pushes -> op_abs op -> db_is W a (db s) -> cache_is a (db_seqnum (db s)) (ctx s) ->
  depths_pos (ctx s) -> 0 <= db_seqnum (db s) -> db_seqnum (db s) + 2 < 2 ^ 32 ->
  op_done W a op s (run_op op s).
Proof.
  intros Hsys Hpush Habs Hd Hc Hp Hn Hm. destruct op as [e cb k|k| |action flt q].
  - by apply add_done.
  - by apply remove_done.
  - by apply remove_all_done.
  - destruct q as [|x q]; [done|]. injection Habs as ->. by apply trigger_done.
Qed.

(** A copy stays one of the record, or becomes older. *)
Lemma cache_is_later a n a' n' c :
  cache_is a n c -> (a' = a /\ n' = n) \/ n < n' -> cache_is a' n' c.
Proof.
  intros (Hq & Ha & He) [[-> ->]|Hlt]; [done|]. split; [lia|]. split; [done|]. intros E. lia.
Qed.

Lemma step_done W ps w i op p :
  backend_ok sys -> pushes -> world_is W ps w -> ps !! i = Some p -> op_abs op ->
  db_seqnum (nw_db w) + 2 < 2 ^ 32 ->
  exists r w' W' p' ms, run_step w (i, op) = Some (r, w') /\ spec_op W p (lock_faults (nw_db w)) op r W' p' (lock_faults (nw_db w')) ms
    /\ world_is W' (<[i := p']> ps) w' /\ db_msgs (nw_db w') = db_msgs (nw_db w) ++ ms
    /\ db_lock (nw_db w') = db_lock (nw_db w) /\ db_seqnum (nw_db w') <= db_seqnum (nw_db w) + 2.
Proof.
  intros Hsys Hpush (Hn & a & Hd & Hcs & ->) Hi Habs Hm.
  rewrite list_lookup_fmap in Hi. destruct (nw_procs w !! i) as [c|] eqn:Ec; [|done]. injection Hi as <-.
  pose proof (Forall_lookup_1 _ _ _ _ Hcs Ec) as [Hc Hp]. simpl in Hc, Hp.
  pose proof (op_done_any W a op (mk_state (nw_db w) c) Hsys Hpush Habs Hd Hc Hp Hn Hm) as H.
  unfold run_step. simpl. rewrite Ec. destruct (run_op op _) as [r s'].
  destruct H as (W' & a' & ms & Hs & Hd' & Hc' & Hp' & Hms & Hl & Hq). simpl in *.
  eexists r, _, W', (proc_of (ctx s')), ms. split; [done|]. split; [done|]. simpl.
  split; [|split; [done|split; [done|lia]]]. split; [simpl; lia|]. exists a'. simpl. split; [done|].
  split; [|by rewrite list_fmap_insert]. apply Forall_insert; [|done].
  eapply Forall_impl; [exact Hcs|]. simpl. intros c' [Hc0 Hp0]. split; [|done].
  eapply cache_is_later; [done|]. destruct Hq; [by left|right; lia].
Qed.

(** A watch of the list that matches is told, whoever triggers: the message its
    server receives makes the call that was registered. *)
Lemma told_handled (c : notify_context Y) (d : notify_db) action e rest data l :
  told action (e, rest) = Some (e_server e, data) ->
  private_data e = l_private l -> List.find (fun l' => l_private l' =? l_private l) (n_list c) = Some l ->
  (notify_handler data (mk_state d c)).1
  = Some (l_callback l, l_private l, mk_notify_event action rest (l_private l)).
Proof.
  unfold told. simpl. destruct (ndr_push_notify_event _) as [|b] eqn:E; [done|]. intros [= ->] Hp Hf.
  apply event_codec in E. unfold notify_handler, st_bind, get_ctx, st_get, st_ret. simpl.
  rewrite E, Hp. simpl. by rewrite Hf.
Qed.

(** C10: A change is told to every watch it matches.  When the list of watches
    has an entry of the process [c], registered with callback and argument, and
    any process triggers a change of a path below the watched directory that the
    filter of the watch asks for, a message to the server of [c] is sent, and
    [notify_handler] of that process answers it with the registered callback,
    the action and the path relative to the directory. *)
Theorem notify_delivered W ps w i j c l e action flt q rest :
  backend_ok sys -> pushes -> (forall ev, exists b, ndr_push_notify_event ev = inr b) ->
  world_is W ps w -> db_seqnum (nw_db w) + 2 < 2 ^ 32 ->
  nw_procs w !! i = Some c -> (j < length ps)%nat ->
  List.find (fun l' => l_private l' =? l_private l) (n_list c) = Some l ->
  e ∈ W -> e_server e = n_server c -> private_data e = l_private l ->
  head q = Some SLASH -> watch_match flt q e = Some (e, rest) ->
  exists w' data, run_step w (j, Op_trigger action flt q) = Some (R_done, w')
    /\ (n_server c, data) ∈ db_msgs (nw_db w')
    /\ (notify_handler data (mk_state (nw_db w') c)).1
       = Some (l_callback l, l_private l, mk_notify_event action rest (l_private l)).
Proof.
  intros Hsys Hpush Hev Hw Hm Hc Hj Hf He Hs Hp Hq Hmatch. apply lookup_lt_is_Some in Hj as [p Hj].
  destruct (step_done W ps w j (Op_trigger action flt q) p) as (r & w' & W' & p' & ms & Hrun & Hspec & _ & Hms & _);
    [done..|].
  inversion Hspec; subst. destruct (Hev (mk_notify_event action rest (private_data e))) as [data Hd].
  assert (told action (e, rest) = Some (e_server e, data)) as Ht by (unfold told; simpl; by rewrite Hd).
  exists w', data. split; [done|]. split.
  - rewrite Hms, elem_of_app. right. match goal with H : _ ≡ₚ told_all _ _ _ _ |- _ => rewrite H end.
    unfold told_all. rewrite <- Hs. apply list_elem_of_omap. exists (e, rest). split; [|done].
    apply list_elem_of_omap. by exists e.
  - by eapply told_handled.
Qed.

(** ** Whatever fails *)

Lemma notify_op_ok op : backend_ok sys -> op_abs op -> preserves state_ok (run_op op).
Proof.
  intros Hsys Habs. destruct op as [e cb k|k| |action flt q]; simpl.
  - apply preserves_bind; [by apply state_ok_add|]. intros. apply preserves_ret.
  - apply preserves_bind; [by apply state_ok_remove|]. intros. apply preserves_ret.
  - apply preserves_bind; [by apply state_ok_remove_all|]. intros. apply preserves_ret.
  - apply preserves_bind; [|intros; apply preserves_ret]. destruct q as [|x q]; [done|].
    injection Habs as ->. intros s Hs. destruct (trigger_run action flt q s Hs) as (c & _ & Hc & ->). simpl.
    destruct Hs as [Hd _]. split; [|done]. by destruct (NT_STATUS_IS_OK _).
Qed.

Lemma notify_step_ok w step r w' : backend_ok sys -> op_abs step.2 -> world_ok w ->
  run_step w step = Some (r, w') -> world_ok w'.
Proof.
  intros Hsys Habs [Hd Hcs] Hrun. unfold run_step in Hrun. destruct (nw_procs w !! step.1) as [c|] eqn:Ec; [|done].
  assert (state_ok (mk_state (nw_db w) c)) as Hs by (split; [done|by eapply (Forall_lookup_1 _ _ _ _ Hcs Ec)]).
  pose proof (notify_op_ok step.2 Hsys Habs _ Hs) as H. destruct (run_op step.2 _) as [r' s'].
  injection Hrun as <- <-. destruct H as [Hd' Hc']. split; [done|]. by apply Forall_insert.
Qed.

(** C9: Whatever fails, triggers are right about the array.  After any
    operations of the processes, with locks and stores that fail in any way,
    every array - the record of the tdb and the copy of each process - is well
    formed, so that the bisections of a trigger and its masks lose nothing and
    find nothing else: it reads no byte beyond the path and sends the messages
    of exactly the entries of the loaded array that match, in their order. *)
Theorem notify_trigger_exact w l rs w' i c action flt q :
  backend_ok sys -> world_ok w -> Forall (fun step => op_abs step.2) l ->
  run_steps w l = Some (rs, w') -> nw_procs w' !! i = Some c -> head q = Some SLASH ->
  world_ok w' /\
  exists a w2, run_step w' (i, Op_trigger action flt q) = Some (R_done, w2)
    /\ arr_ok a /\ (n_array <$> nw_procs w2 !! i) = Some (Some a)
    /\ nw_db w2 = add_msgs (nw_db w') (told_all action flt q (all_entries a)).
Proof.
  intros Hsys Hw Hl Hrun Hi Hq. assert (world_ok w') as Hw'.
  { clear Hi. revert w rs Hw Hrun. induction Hl as [|step l Habs _ IH]; intros w rs Hw Hrun; simpl in Hrun.
    - by injection Hrun as _ <-.
    - destruct (run_step w step) as [[r w1]|] eqn:E; [|done].
      destruct (run_steps w1 l) as [[rs1 w2]|] eqn:E2; [|done]. injection Hrun as _ <-.
      eapply IH; [by eapply notify_step_ok|done]. }
  split; [done|]. destruct Hw' as [Hd Hcs]. destruct q as [|x q]; [done|]. injection Hq as ->.
  pose proof (Forall_lookup_1 _ _ _ _ Hcs Hi) as Hc.
  destruct (trigger_run action flt q (mk_state (nw_db w') c)) as (c2 & Hl2 & Hc2 & Ht); [by split|].
  assert (NT_STATUS_IS_OK (notify_load (mk_state (nw_db w') c)).1 = true /\ is_Some (n_array c2)) as [Eok [a Ea]].
  { revert Hl2. destruct Hd as (a & Hr & _).
    unfold notify_load, st_bind, get_db, get_ctx, st_get, st_ret, on_ctx, st_modify. simpl.
    case_bool_decide as Hsome; [rewrite andb_true_r|rewrite andb_false_r].
    - destruct (_ =? _); simpl; [by intros [= <-]|].
      destruct (db_rec (nw_db w')) as [b|]; [simpl in Hr; rewrite Hr|]; simpl; intros [= <-]; by eauto.
    - destruct (db_rec (nw_db w')) as [b|]; [simpl in Hr; rewrite Hr|]; simpl; intros [= <-]; by eauto. }
  rewrite Eok in Ht. simpl in Ht. exists a. eexists. unfold run_step. simpl. rewrite Hi. unfold st_bind. rewrite Ht.
  unfold st_ret. split; [done|]. simpl. unfold cache_ok in Hc2. rewrite Ea in *. split; [done|].
  split; [|done]. rewrite list_lookup_insert_eq by (by eapply lookup_lt_Some). simpl. by rewrite Ea.
Qed.

(** C8: The notification database refines a list of watches.  When the backend
    leaves the paths of watches alone, arrays can be pushed, and no store is
    refused, any sequence of additions, removals and triggers by any processes,
    with locks that fail as the script says, has the results and sends the
    messages of the specification: additions and removals are seen at once by
    every process, whatever copies they keep, each trigger tells exactly the
    watches that match, the lock is released, and the relation holds again. *)
Theorem notify_refines_watches W ps w l :
  backend_ok sys -> pushes -> world_is W ps w ->
  Forall (fun step => (step.1 < length ps)%nat /\ op_abs step.2) l ->
  db_seqnum (nw_db w) + 2 * Z.of_nat (length l) < 2 ^ 32 ->
  exists rs w' W' ps' ms, run_steps w l = Some (rs, w')
    /\ spec_steps W ps (lock_faults (nw_db w)) l rs W' ps' (lock_faults (nw_db w')) ms /\ world_is W' ps' w'
    /\ db_msgs (nw_db w') = db_msgs (nw_db w) ++ ms /\ db_lock (nw_db w') = db_lock (nw_db w).
Proof.
  intros Hsys Hpush. revert W ps w. induction l as [|[i op] l IH]; intros W ps w Hw Hl Hm.
  { exists [], w, W, ps, []. rewrite app_nil_r. simpl. split; [done|]. split; [constructor|done]. }
  apply Forall_cons in Hl as [[Hi Habs] Hl]. simpl in *. apply lookup_lt_is_Some in Hi as [p Hi].
  destruct (step_done W ps w i op p) as (r & w1 & W1 & p1 & ms1 & -> & Hs & Hw1 & Hms & Hlk & Hq); [done..|lia|].
  destruct (IH W1 (<[i := p1]> ps) w1 Hw1) as (rs & w2 & W2 & ps2 & ms2 & -> & Hs2 & Hw2 & Hms2 & Hlk2).
  - eapply Forall_impl; [exact Hl|]. intros. by rewrite length_insert.
  - lia.
  - exists (r :: rs), w2, W2, ps2, (ms1 ++ ms2). split; [done|]. split; [by econstructor|]. split; [done|].
    split; [by rewrite Hms2, Hms, app_assoc|congruence].
Qed.

End spec.

Arguments notify_op : clear implicits.
Arguments op_abs : simpl never.

(** ** An instance: a codec, a sort and a backend *)

#[export] Instance server_id_countable : Countable server_id :=
  inj_countable' (fun s => (id s, node s)) (fun x => mk_server_id x.1 x.2) ltac:(by intros []).
#[export] Instance notify_entry_eq_dec : EqDecision notify_entry.
Proof. solve_decision. Defined.
#[export] Instance notify_entry_countable : Countable notify_entry :=
  inj_countable' (fun e => (e_server e, filter e, subdir_filter e, path e, path_len e, private_data e))
    (fun '(a, b, c, d, e, f) => mk_notify_entry a b c d e f) ltac:(by intros []).
#[export] Instance notify_depth_eq_dec : EqDecision notify_depth.
Proof. solve_decision. Defined.
#[export] Instance notify_depth_countable : Countable notify_depth :=
  inj_countable' (fun d => (max_mask d, max_mask_subdir d, entries d))
    (fun '(a, b, c) => mk_notify_depth a b c) ltac:(by intros []).
#[export] Instance notify_event_eq_dec : EqDecision notify_event.
Proof. solve_decision. Defined.
#[export] Instance notify_event_countable : Countable notify_event :=
  inj_countable' (fun e => (ev_action e, ev_path e, ev_private e))
    (fun '(a, b, c) => mk_notify_event a b c) ltac:(by intros []).

Definition ex_decode {A} `{Countable A} (b : blob) : option A :=
  match b with [Zpos p] => decode p | _ => None end.

#[refine] Definition ex_codec : NotifyCodec := {|
  ndr_push_notify_array a := inr [Zpos (encode a)];
  ndr_pull_notify_array b :=
    match ex_decode b with Some a => (NT_STATUS_OK, a) | None => (NT_STATUS_INTERNAL_DB_CORRUPTION, []) end;
  ndr_push_notify_event e := inr [Zpos (encode e)];
  ndr_pull_notify_event b :=
    match ex_decode b with Some e => inr e | None => inl NT_STATUS_INTERNAL_DB_CORRUPTION end
|}.
Proof.
  - intros a b [= <-]. unfold ex_decode. by rewrite decode_encode.
  - intros e b [= <-]. unfold ex_decode. by rewrite decode_encode.
Defined.

Definition le_by {A} (cmp : A -> A -> Z) (x y : A) : Prop := cmp x y <= 0.
#[export] Instance le_by_dec {A} (cmp : A -> A -> Z) : RelDecision (le_by cmp).
Proof. intros x y. unfold le_by. apply _. Defined.

#[refine] Definition ex_cqsort : CQsort := {|
  qsort := fun A cmp l => merge_sort (le_by cmp) l
|}.
Proof.
  - intros A cmp l. apply merge_sort_Permutation.
  - intros A cmp l Htot Htr.
    assert (Total (le_by cmp)) by (intros x y; apply Htot).
    assert (Transitive (le_by cmp)) by (intros x y z; apply Htr).
    apply (StronglySorted_merge_sort (le_by cmp)).
Defined.

(** It takes over the direct changes of a directory, and counts its watches. *)
Definition ex_sys : sys_backend Z := {|
  notify_watch y e l :=
    (NT_STATUS_OK, mk_notify_entry (e_server e) 0 (subdir_filter e) (path e) (path_len e) (private_data e),
     Some y, y + 1);
  free_handle y _ := y - 1
|}.

Definition ex_ndb : notify_db := mk_db None 7 0 [Moved] [false; true] [].
Definition ex_servers : list (server_id * option Z) := [(mk_server_id 1 0, None); (mk_server_id 2 0, Some 0)].

(** "/a" with filters, and a change of "/a/b/c". *)
Definition ex_watch : notify_entry := mk_notify_entry (mk_server_id 0 0) 1 2 [47; 97] 0 0.
Definition ex_change : list Z := [47; 97; 47; 98; 47; 99].
Definition ex_steps : list (nat * notify_op) :=
  [(0%nat, Op_add ex_watch 50 60); (1%nat, Op_add ex_watch 51 61); (0%nat, Op_add ex_watch 50 62);
   (1%nat, Op_trigger 1 2 ex_change); (0%nat, Op_remove 60); (0%nat, Op_trigger 1 2 ex_change)].

Example ex_run :
  (fun x => (x.1, length (db_msgs (nw_db x.2)), db_seqnum (nw_db x.2)))
    <$> run_steps ex_sys (codec := ex_codec) (cqsort := ex_cqsort) (opened_world ex_servers ex_ndb) ex_steps
  = Some ([R_status NT_STATUS_OK; R_status NT_STATUS_INTERNAL_DB_CORRUPTION; R_status NT_STATUS_OK;
           R_done; R_status NT_STATUS_OK; R_done], 3%nat, 11).
Proof. vm_compute. reflexivity. Qed.

#[local] Existing Instance ex_codec.
#[local] Existing Instance ex_cqsort.

Lemma ex_sys_ok : backend_ok ex_sys.
Proof. by intros y e l. Qed.

Lemma ex_pushes : pushes.
Proof. intros a. by eexists. Qed.

Lemma notify_refines_watches_witness :
  exists rs w' W' ps' ms, run_steps ex_sys (opened_world ex_servers ex_ndb) ex_steps = Some (rs, w')
    /\ spec_steps ex_sys [] ((fun x => mk_proc x.1 [] x.2) <$> ex_servers) [false; true] ex_steps rs W' ps'
         (lock_faults (nw_db w')) ms
    /\ world_is W' ps' w' /\ db_msgs (nw_db w') = [] ++ ms /\ db_lock (nw_db w') = 0%nat.
Proof.
  apply (notify_refines_watches ex_sys [] _ (opened_world ex_servers ex_ndb) ex_steps).
  - apply ex_sys_ok.
  - apply ex_pushes.
  - apply opened_world_is; [done|done|]. by repeat constructor.
  - repeat constructor; simpl; lia.
  - vm_compute. reflexivity.
Defined.

(** Server 1 watches "/a". *)
Definition ex_entry : notify_entry := mk_notify_entry (mk_server_id 1 0) 1 2 [47; 97] 2 60.
Definition ex_array : notify_array := alter (fun d => add_to_depth d ex_entry) 1%nat (expand_depths [] 1%nat).
Definition ex_ctx : notify_context Z :=
  mk_notify_context (mk_server_id 1 0) [mk_notify_list 60 50 None 1] None 8 None.
Definition ex_world : notify_world :=
  mk_nworld (mk_db (Some [Zpos (encode ex_array)]) 8 0 [] [] [])
    [ex_ctx; notify_init (mk_server_id 2 0) (mk_db None 8 0 [] [] []) (Some 0)].

Lemma ex_world_is : world_is [ex_entry] (proc_of <$> nw_procs ex_world) ex_world.
Proof.
  split; [done|]. exists ex_array. destruct (add_entry_ok [] ex_entry) as [Ha HW]; [done|done|].
  split; [split; [|split; [exact Ha|split; [exact HW|constructor]]]|split; [|done]].
  - cbn -[encode ex_array]. unfold ex_decode. by rewrite decode_encode.
  - repeat constructor; simpl; try done; lia.
Qed.

Lemma notify_delivered_witness :
  exists w' data, run_step ex_sys ex_world (1%nat, Op_trigger 1 2 ex_change) = Some (R_done, w')
    /\ (mk_server_id 1 0, data) ∈ db_msgs (nw_db w')
    /\ (notify_handler data (mk_state (nw_db w') ex_ctx)).1
       = Some (50, 60, mk_notify_event 1 [98; 47; 99] 60).
Proof.
  apply (notify_delivered ex_sys [ex_entry] (proc_of <$> nw_procs ex_world) ex_world 0 1 ex_ctx
    (mk_notify_list 60 50 None 1) ex_entry).
  - apply ex_sys_ok.
  - apply ex_pushes.
  - intros ev. by eexists.
  - apply ex_world_is.
  - done.
  - done.
  - simpl. lia.
  - done.
  - by apply list_elem_of_singleton.
  - done.
  - done.
  - done.
  - vm_compute. reflexivity.
Defined.

(** The first store is lost, the second refused. *)
Definition ex_faulty : notify_world :=
  opened_world ex_servers (mk_db None 7 0 [No_fault; Lost; Refused] [] []).
Definition ex_end : list op_result * notify_world :=
  default ([], ex_faulty) (run_steps ex_sys ex_faulty ex_steps).

Lemma notify_trigger_exact_witness :
  world_ok ex_end.2 /\
  exists a w2, run_step ex_sys ex_end.2 (1%nat, Op_trigger 3 2 ex_change) = Some (R_done, w2)
    /\ arr_ok a /\ (n_array <$> nw_procs w2 !! 1%nat) = Some (Some a)
    /\ nw_db w2 = add_msgs (nw_db ex_end.2) (told_all 3 2 ex_change (all_entries a)).
Proof.
  eapply (notify_trigger_exact ex_sys ex_faulty ex_steps ex_end.1 ex_end.2 1).
  - apply ex_sys_ok.
  - by apply opened_world_ok.
  - repeat constructor.
  - vm_compute. reflexivity.
  - vm_compute. reflexivity.
  - reflexivity.
Defined.
