(* ===== verification/LdbQsort.v ===== *)
(** * The sort of the LDB library ([source4/lib/ldb/common/qsort.c])

    [ldb_qsort] sorts an array in place with a comparison function that returns
    an [int].  The class [LdbQsort] is what its callers rely on: for a
    comparison that is a total preorder on the elements, the result is a
    permutation of the array, in order.  It does not promise stability.

    The rest of the file models the implementation and proves that it keeps
    the promise ([ldb_qsort_impl]).  The array is a list; pointers into it are
    element indices (every pointer of the code is the base plus a multiple of
    [size]).  A read or a write outside the array, and a push on a full stack,
    give [None], and so does a loop that runs out of fuel: a result [Some l]
    means that none of them happened.  The loops that walk the array have fuel
    for its length. *)

From S2P Require Import Prelude.

(** [cmp] is a total preorder on the elements of [l], whose number is a
    [size_t]. *)
Record cmp_consistent {A} (cmp : A -> A -> Z) (l : list A) : Prop := {
  cmp_anti : forall a b, a ∈ l -> b ∈ l -> cmp a b < 0 <-> 0 < cmp b a;
  cmp_trans : forall a b c, a ∈ l -> b ∈ l -> c ∈ l ->
    cmp a b <= 0 -> cmp b c <= 0 -> cmp a c <= 0;
  cmp_size : Z.of_nat (length l) < 2 ^ 64
}.

Class LdbQsort : Type := {
  ldb_qsort : forall {A : Type}, (A -> A -> Z) -> list A -> list A;
  ldb_qsort_perm : forall {A : Type} (cmp : A -> A -> Z) l,
    cmp_consistent cmp l -> Permutation (ldb_qsort cmp l) l;
  ldb_qsort_sorted : forall {A : Type} (cmp : A -> A -> Z) l,
    cmp_consistent cmp l -> ordered (fun a b => cmp a b <= 0) (ldb_qsort cmp l)
}.

Definition MAX_THRESH : Z := 4.

(** [CHAR_BIT * sizeof(size_t)] *)
Definition STACK_SIZE : Z := 64.

Section qsort.
Context {A : Type} (cmp : A -> A -> Z).

Definition rd (l : list A) (i : Z) : option A := if i <? 0 then None else l !! Z.to_nat i.

Definition wr (l : list A) (i : Z) (x : A) : option (list A) :=
  _ ← rd l i; Some (<[Z.to_nat i := x]> l).

(** [cmp(i, j) < 0] *)
Definition lt_at (l : list A) (i j : Z) : option bool :=
  a ← rd l i; b ← rd l j; Some (cmp a b <? 0).

Definition SWAP (l : list A) (i j : Z) : option (list A) :=
  a ← rd l i; b ← rd l j; l ← wr l i b; wr l j a.

(** The median of three, up to [jump_over]. *)
Definition median3 (l : list A) (lo mid hi : Z) : option (list A) :=
  c ← lt_at l mid lo;
  l ← (if c : bool then SWAP l mid lo else Some l);
  c ← lt_at l hi mid;
  if c : bool then
    l ← SWAP l mid hi;
    c ← lt_at l mid lo;
    if c : bool then SWAP l mid lo else Some l
  else Some l.

Fixpoint scan_left (fuel : nat) (l : list A) (mid left_ptr : Z) : option Z :=
  match fuel with
  | O => None
  | S fuel => c ← lt_at l left_ptr mid;
              if c : bool then scan_left fuel l mid (left_ptr + 1) else Some left_ptr
  end.

Fixpoint scan_right (fuel : nat) (l : list A) (mid right_ptr : Z) : option Z :=
  match fuel with
  | O => None
  | S fuel => c ← lt_at l mid right_ptr;
              if c : bool then scan_right fuel l mid (right_ptr - 1) else Some right_ptr
  end.

(** The loop that collapses the walls. *)
Fixpoint collapse (fuel : nat) (l : list A) (mid left_ptr right_ptr : Z)
    : option (list A * Z * Z) :=
  match fuel with
  | O => None
  | S fuel =>
      left_ptr ← scan_left (S (length l)) l mid left_ptr;
      right_ptr ← scan_right (S (length l)) l mid right_ptr;
      if left_ptr <? right_ptr then
        l ← SWAP l left_ptr right_ptr;
        let mid := if mid =? left_ptr then right_ptr
                   else if mid =? right_ptr then left_ptr else mid in
        let left_ptr := left_ptr + 1 in
        let right_ptr := right_ptr - 1 in
        if left_ptr <=? right_ptr then collapse fuel l mid left_ptr right_ptr
        else Some (l, left_ptr, right_ptr)
      else if left_ptr =? right_ptr then Some (l, left_ptr + 1, right_ptr - 1)
      else Some (l, left_ptr, right_ptr)
  end.

Definition PUSH (stack : list (Z * Z)) (lo hi : Z) : option (list (Z * Z)) :=
  if Z.of_nat (length stack) <? STACK_SIZE then Some ((lo, hi) :: stack) else None.

(** The outer loop; the top of the stack is the head of the list.  A difference
    of pointers is compared with the threshold as a [size_t]. *)
Fixpoint quick (fuel : nat) (l : list A) (stack : list (Z * Z)) (lo hi : Z) : option (list A) :=
  match fuel, stack with
  | _, [] => Some l
  | O, _ => None
  | S fuel, (lo', hi') :: stack' =>
      let mid := lo + Z.shiftr (hi - lo) 1 in
      l ← median3 l lo mid hi;
      r ← collapse (length l) l mid (lo + 1) (hi - 1);
      let '(l, left_ptr, right_ptr) := r in
      if u64 (right_ptr - lo) <=? MAX_THRESH then
        if u64 (hi - left_ptr) <=? MAX_THRESH then quick fuel l stack' lo' hi'
        else quick fuel l stack left_ptr hi
      else if u64 (hi - left_ptr) <=? MAX_THRESH then quick fuel l stack lo right_ptr
      else if hi - left_ptr <? right_ptr - lo then
        stack ← PUSH stack lo right_ptr; quick fuel l stack left_ptr hi
      else
        stack ← PUSH stack left_ptr hi; quick fuel l stack lo right_ptr
  end.

(** The smallest of the first elements. *)
Fixpoint find_min (fuel : nat) (l : list A) (run_ptr thresh tmp_ptr : Z) : option Z :=
  match fuel with
  | O => None
  | S fuel =>
      if run_ptr <=? thresh then
        c ← lt_at l run_ptr tmp_ptr;
        find_min fuel l (run_ptr + 1) thresh (if c : bool then run_ptr else tmp_ptr)
      else Some tmp_ptr
  end.

Fixpoint scan_back (fuel : nat) (l : list A) (run_ptr tmp_ptr : Z) : option Z :=
  match fuel with
  | O => None
  | S fuel => c ← lt_at l run_ptr tmp_ptr;
              if c : bool then scan_back fuel l run_ptr (tmp_ptr - 1) else Some tmp_ptr
  end.

(** Move the elements from [tmp_ptr] up by one and put [c] there; the code does
    it byte by byte. *)
Fixpoint shift_up (fuel : nat) (l : list A) (hi tmp_ptr : Z) (c : A) : option (list A) :=
  match fuel with
  | O => None
  | S fuel =>
      let lo := hi - 1 in
      if tmp_ptr <=? lo then
        x ← rd l lo; l ← wr l hi x; shift_up fuel l lo tmp_ptr c
      else wr l hi c
  end.

Fixpoint insertion (fuel : nat) (l : list A) (run_ptr end_ptr : Z) : option (list A) :=
  match fuel with
  | O => None
  | S fuel =>
      let run_ptr := run_ptr + 1 in
      if run_ptr <=? end_ptr then
        tmp_ptr ← scan_back (S (length l)) l run_ptr (run_ptr - 1);
        let tmp_ptr := tmp_ptr + 1 in
        l ← (if negb (tmp_ptr =? run_ptr)
             then c ← rd l run_ptr; shift_up (S (length l)) l run_ptr tmp_ptr c
             else Some l);
        insertion fuel l run_ptr end_ptr
      else Some l
  end.

Definition ldb_qsort_run (l : list A) : option (list A) :=
  let total_elems := Z.of_nat (length l) in
  if total_elems =? 0 then Some l
  else
    l ← (if MAX_THRESH <? total_elems
         then quick (S (length l)) l [(0, 0)] 0 (total_elems - 1) else Some l);
    let end_ptr := total_elems - 1 in
    let thresh := Z.min end_ptr MAX_THRESH in
    tmp_ptr ← find_min (S (length l)) l 1 thresh 0;
    l ← (if negb (tmp_ptr =? 0) then SWAP l tmp_ptr 0 else Some l);
    insertion (S (length l)) l 1 end_ptr.
End qsort.

Lemma cmp_consistent_perm {A} (cmp : A -> A -> Z) l k :
  Permutation l k -> cmp_consistent cmp k -> cmp_consistent cmp l.
Proof.
  intros Hp [Ha Ht Hl]. constructor; intros *; rewrite !Hp; [apply Ha|apply Ht|done].
Qed.

Section lemmas.
Context `{LdbQsort} {A : Type} (cmp : A -> A -> Z) (l : list A).
Hypothesis Hc : cmp_consistent cmp l.

Lemma ldb_qsort_elem x : x ∈ ldb_qsort cmp l <-> x ∈ l.
Proof. by rewrite (ldb_qsort_perm cmp l Hc). Qed.

Lemma ldb_qsort_length : length (ldb_qsort cmp l) = length l.
Proof. by apply Permutation_length, ldb_qsort_perm. Qed.
End lemmas.

(** ** Ranks

    A consistent comparison is the comparison of integer ranks: the rank of an
    element is the number of elements before it. *)

Lemma length_filter_le {A} (P Q : A -> bool) (l : list A) :
  (forall x, x ∈ l -> P x = true -> Q x = true) ->
  (length (List.filter P l) <= length (List.filter Q l))%nat.
Proof.
  induction l as [|x l IH]; intros HPQ; simpl; [done|].
  assert (IH' := IH (fun y Hy => HPQ y (list_elem_of_further _ _ _ Hy))).
  pose proof (HPQ x (list_elem_of_here _ _)). destruct (P x), (Q x); simpl; first [lia|intuition congruence].
Qed.

Lemma length_filter_lt {A} (P Q : A -> bool) (l : list A) x :
  (forall y, y ∈ l -> P y = true -> Q y = true) -> x ∈ l -> P x = false -> Q x = true ->
  (length (List.filter P l) < length (List.filter Q l))%nat.
Proof.
  intros HPQ Hx HP HQ. induction l as [|y l IH]; [by apply not_elem_of_nil in Hx|].
  apply elem_of_cons in Hx as [<-|Hx]; simpl.
  - rewrite HP, HQ. simpl. apply Nat.lt_succ_r, length_filter_le. intros z Hz. apply HPQ. by right.
  - assert (IH' := IH (fun z Hz => HPQ z (list_elem_of_further _ _ _ Hz)) Hx).
    pose proof (HPQ y (list_elem_of_here _ _)).
    destruct (P y), (Q y); simpl; first [lia|intuition congruence].
Qed.

Lemma cmp_rank {A} (cmp : A -> A -> Z) (l : list A) :
  cmp_consistent cmp l ->
  exists key : A -> Z, forall x y, x ∈ l -> y ∈ l -> cmp x y < 0 <-> key x < key y.
Proof.
  intros [Ha Ht _]. exists (fun x => Z.of_nat (length (List.filter (fun z => cmp z x <? 0) l))).
  assert (Htr : forall x y z, x ∈ l -> y ∈ l -> z ∈ l -> cmp x y < 0 -> cmp y z <= 0 -> cmp x z < 0).
  { intros x y z Hx Hy Hz Hxy Hyz. pose proof (Ht x y z Hx Hy Hz ltac:(lia) Hyz).
    destruct (decide (cmp x z < 0)) as [|Hn]; [done|].
    pose proof (Ha x y Hx Hy). pose proof (Ha z x Hz Hx). pose proof (Ha x z Hx Hz).
    pose proof (Ht y z x Hy Hz Hx Hyz ltac:(lia)). lia. }
  intros x y Hx Hy. split.
  - intros Hxy. apply inj_lt. apply (length_filter_lt _ _ l x); [|done|..].
    + intros z Hz Hzx. apply Z.ltb_lt in Hzx. apply Z.ltb_lt. apply (Htr z x y); [done..|lia].
    + apply Z.ltb_ge. pose proof (Ha x x Hx Hx). lia.
    + by apply Z.ltb_lt.
  - intros Hk. destruct (decide (cmp x y < 0)) as [|Hn]; [done|]. exfalso.
    assert (Hyx : cmp y x <= 0) by (pose proof (Ha x y Hx Hy); lia).
    apply Nat2Z.inj_lt, Nat.lt_nge in Hk. destruct Hk. apply length_filter_le.
    intros z Hz Hzy. apply Z.ltb_lt in Hzy. apply Z.ltb_lt. by apply (Htr z y x).
Qed.

(** ** The operations on the array *)

Section verify.
Context {A : Type} (cmp : A -> A -> Z) (key : A -> Z) (l0 : list A).
Hypothesis Hkey : forall x y, x ∈ l0 -> y ∈ l0 -> cmp x y < 0 <-> key x < key y.

Abbreviation n := (Z.of_nat (length l0)).

(** The rank at an index. *)
Definition K (l : list A) (i : Z) : Z := match rd l i with Some x => key x | None => 0 end.

Definition good (l : list A) : Prop := Permutation l l0.

Lemma rd_Some l i : good l -> 0 <= i < n -> exists x, rd l i = Some x /\ x ∈ l0 /\ K l i = key x.
Proof.
  intros Hg Hi. unfold K, rd. destruct (Z.ltb_spec i 0) as [|_]; [lia|].
  apply Permutation_length in Hg as Hlen.
  destruct (lookup_lt_is_Some_2 l (Z.to_nat i)) as [x Hx]; [lia|]. exists x. rewrite Hx.
  split; [done|]. split; [|done]. apply (elem_of_Permutation_proper _ _ _ Hg). by eapply list_elem_of_lookup_2.
Qed.

Lemma lt_at_eq l i j : good l -> 0 <= i < n -> 0 <= j < n -> lt_at cmp l i j = Some (K l i <? K l j).
Proof.
  intros Hg Hi Hj. destruct (rd_Some l i Hg Hi) as (x & Ex & Hx & ->).
  destruct (rd_Some l j Hg Hj) as (y & Ey & Hy & ->). unfold lt_at. rewrite Ex. simpl. rewrite Ey. simpl.
  f_equal. pose proof (Hkey x y Hx Hy). destruct (Z.ltb_spec (cmp x y) 0), (Z.ltb_spec (key x) (key y)); first [done|lia].
Qed.

Lemma wr_Some l i x : 0 <= i < Z.of_nat (length l) ->
  exists l', wr l i x = Some l' /\ l' = <[Z.to_nat i := x]> l /\
  forall k, K l' k = if k =? i then key x else K l k.
Proof.
  intros Hi. unfold wr, rd. destruct (Z.ltb_spec i 0) as [|_]; [lia|].
  destruct (lookup_lt_is_Some_2 l (Z.to_nat i)) as [y Hy]; [lia|]. rewrite Hy. simpl.
  eexists. split; [done|]. split; [done|]. intros k. unfold K, rd.
  destruct (Z.eqb_spec k i) as [->|Hk].
  - destruct (Z.ltb_spec i 0) as [|_]; [lia|]. rewrite list_lookup_insert_eq by lia. done.
  - destruct (Z.ltb_spec k 0) as [|Hk0]; [done|]. by rewrite list_lookup_insert_ne by lia.
Qed.

(** [l'] is [l] rearranged between [lo] and [hi]. *)
Definition within (lo hi : Z) (l l' : list A) : Prop :=
  good l' /\ (forall k, ~ lo <= k <= hi -> K l' k = K l k) /\
  (forall k, lo <= k <= hi -> exists k', lo <= k' <= hi /\ K l' k = K l k').

Lemma within_refl lo hi l : good l -> within lo hi l l.
Proof. intros Hg. split; [done|]. split; [done|]. intros k Hk. by exists k. Qed.

Lemma within_trans lo hi l1 l2 l3 : within lo hi l1 l2 -> within lo hi l2 l3 -> within lo hi l1 l3.
Proof.
  intros (_ & Ho & Hi) (Hg & Ho' & Hi'). split; [done|]. split.
  - intros k Hk. rewrite Ho', Ho by done. done.
  - intros k Hk. destruct (Hi' k Hk) as (k' & Hk' & ->). by apply Hi.
Qed.

Lemma SWAP_spec lo hi l i j :
  good l -> 0 <= lo -> hi < n -> lo <= i <= hi -> lo <= j <= hi ->
  exists l', SWAP l i j = Some l' /\ within lo hi l l' /\
    K l' i = K l j /\ K l' j = K l i /\ (forall k, k <> i -> k <> j -> K l' k = K l k).
Proof.
  intros Hg Hlo Hhi Hi Hj. destruct (rd_Some l i Hg) as (x & Ex & _ & Kx); [lia|].
  destruct (rd_Some l j Hg) as (y & Ey & _ & Ky); [lia|].
  apply Permutation_length in Hg as Hlen.
  destruct (wr_Some l i y) as (l1 & E1 & -> & K1); [lia|].
  destruct (wr_Some (<[Z.to_nat i:=y]> l) j x) as (l2 & E2 & -> & K2); [rewrite length_insert; lia|].
  unfold SWAP. rewrite Ex. simpl. rewrite Ey. simpl. rewrite E1. simpl. rewrite E2.
  eexists. split; [done|].
  assert (HK : forall k, K (<[Z.to_nat j:=x]> (<[Z.to_nat i:=y]> l)) k =
                         if k =? j then K l i else if k =? i then K l j else K l k).
  { intros k. by rewrite K2, K1, Kx, Ky. }
  split; [split; [|split]|split; [|split]].
  - unfold good in *. rewrite <- Hg. unfold rd in Ex, Ey.
    destruct (Z.ltb_spec i 0), (Z.ltb_spec j 0); try lia.
    by apply Permutation_insert_swap.
  - intros k Hk. rewrite HK. destruct (Z.eqb_spec k j), (Z.eqb_spec k i); first [done|lia].
  - intros k Hk. rewrite HK. destruct (Z.eqb_spec k j); [by exists i|].
    destruct (Z.eqb_spec k i); [by exists j|by exists k].
  - rewrite HK. destruct (Z.eqb_spec i j) as [->|]; [done|]. by rewrite Z.eqb_refl.
  - rewrite HK. by rewrite Z.eqb_refl.
  - intros k ??. rewrite HK. destruct (Z.eqb_spec k j), (Z.eqb_spec k i); first [done|lia].
Qed.

(** ** Partitioning *)

Lemma median3_spec l lo mid hi :
  good l -> 0 <= lo -> lo < mid < hi -> hi < n ->
  exists l', median3 cmp l lo mid hi = Some l' /\ within lo hi l l' /\
    K l' lo <= K l' mid <= K l' hi.
Proof.
  intros Hg Hlo Hm Hhi. unfold median3. rewrite lt_at_eq by (done || lia). simpl.
  assert (H1 : exists l1, (if K l mid <? K l lo then SWAP l mid lo else Some l) = Some l1 /\
    within lo hi l l1 /\ K l1 lo <= K l1 mid).
  { destruct (Z.ltb_spec (K l mid) (K l lo)).
    - destruct (SWAP_spec lo hi l mid lo) as (l1 & -> & Hw & E1 & E2 & _); [done|lia..|].
      exists l1. split; [done|]. split; [done|]. lia.
    - exists l. split; [done|]. split; [by apply within_refl|lia]. }
  destruct H1 as (l1 & -> & Hw1 & Hk1). simpl. pose proof (proj1 Hw1) as Hg1.
  rewrite lt_at_eq by (done || lia). simpl.
  destruct (Z.ltb_spec (K l1 hi) (K l1 mid)); [|by exists l1].
  destruct (SWAP_spec lo hi l1 mid hi) as (l2 & -> & Hw2 & E1 & E2 & E3); [done|lia..|]. simpl.
  pose proof (proj1 Hw2) as Hg2. rewrite lt_at_eq by (done || lia). simpl.
  pose proof (E3 lo ltac:(lia) ltac:(lia)).
  destruct (Z.ltb_spec (K l2 mid) (K l2 lo)).
  - destruct (SWAP_spec lo hi l2 mid lo) as (l3 & -> & Hw3 & F1 & F2 & F3); [done|lia..|].
    pose proof (F3 hi ltac:(lia) ltac:(lia)).
    exists l3. split; [done|]. split; [|lia]. eapply within_trans; [|done]. by eapply within_trans.
  - exists l2. split; [done|]. split; [by eapply within_trans|lia].
Qed.

Lemma scan_left_spec l mid p : good l -> 0 <= mid < n -> p < n -> K l mid <= K l p ->
  forall fuel left, 0 <= left <= p -> (Z.to_nat (p - left) < fuel)%nat ->
  exists left', scan_left cmp fuel l mid left = Some left' /\ left <= left' <= p /\
    K l mid <= K l left' /\ forall k, left <= k < left' -> K l k < K l mid.
Proof.
  intros Hg Hm Hp Hk. induction fuel as [|fuel IH]; intros left Hl Hf; [lia|]. simpl.
  rewrite lt_at_eq by (done || lia). simpl. destruct (Z.ltb_spec (K l left) (K l mid)) as [Hlt|Hge].
  - assert (left <> p) by (intros ->; lia).
    destruct (IH (left + 1)) as (left' & -> & Hr & Hge & Hall); [lia..|].
    exists left'. split; [done|]. split; [lia|]. split; [done|]. intros k Hk'.
    destruct (decide (k = left)) as [->|]; [done|]. apply Hall. lia.
  - exists left. split; [done|]. split; [lia|]. split; [done|lia].
Qed.

Lemma scan_right_spec l mid p : good l -> 0 <= mid < n -> 0 <= p -> K l p <= K l mid ->
  forall fuel right, p <= right < n -> (Z.to_nat (right - p) < fuel)%nat ->
  exists right', scan_right cmp fuel l mid right = Some right' /\ p <= right' <= right /\
    K l right' <= K l mid /\ forall k, right' < k <= right -> K l mid < K l k.
Proof.
  intros Hg Hm Hp Hk. induction fuel as [|fuel IH]; intros right Hl Hf; [lia|]. simpl.
  rewrite lt_at_eq by (done || lia). simpl. destruct (Z.ltb_spec (K l mid) (K l right)) as [Hlt|Hge].
  - assert (right <> p) by (intros ->; lia).
    destruct (IH (right - 1)) as (right' & -> & Hr & Hge & Hall); [lia..|].
    exists right'. split; [done|]. split; [lia|]. split; [done|]. intros k Hk'.
    destruct (decide (k = right)) as [->|]; [done|]. apply Hall. lia.
  - exists right. split; [done|]. split; [lia|]. split; [done|lia].
Qed.

(** The walls: what is left of [left] is at most [v], what is right of [right]
    at least [v]. *)
Definition walls (l : list A) (lo hi v left right : Z) : Prop :=
  (forall k, lo <= k < left -> K l k <= v) /\ (forall k, right < k <= hi -> v <= K l k).

Lemma collapse_spec lo hi : 0 <= lo -> hi < n -> forall fuel l mid left right,
  good l -> lo <= mid <= hi -> lo < left -> left <= right -> right < hi ->
  walls l lo hi (K l mid) left right -> (Z.to_nat (right - left) < fuel)%nat ->
  exists l' left' right', collapse cmp fuel l mid left right = Some (l', left', right') /\
    within lo hi l l' /\ lo <= right' < left' /\ left' <= hi /\
    walls l' lo hi (K l mid) left' right'.
Proof.
  intros Hlo Hhi. induction fuel as [|fuel IH]; intros l mid left right Hg Hm H1 H2 H3 [HL HR] Hf; [lia|].
  simpl. apply Permutation_length in Hg as Hlen.
  destruct (scan_left_spec l mid (right + 1) Hg ltac:(lia) ltac:(lia) ltac:(apply HR; lia)
              (S (length l)) left) as (left' & E1 & Hl' & Hge & HL'); [lia..|].
  simpl in E1. rewrite E1. simpl.
  destruct (scan_right_spec l mid (left - 1) Hg ltac:(lia) ltac:(lia) ltac:(apply HL; lia)
              (S (length l)) right) as (right' & E2 & Hr' & Hle & HR'); [lia..|].
  simpl in E2. rewrite E2. simpl.
  assert (HwL : forall k, lo <= k < left' -> K l k <= K l mid).
  { intros k Hk. destruct (decide (k < left)); [apply HL; lia|]. pose proof (HL' k ltac:(lia)). lia. }
  assert (HwR : forall k, right' < k <= hi -> K l mid <= K l k).
  { intros k Hk. destruct (decide (right < k)); [apply HR; lia|]. pose proof (HR' k ltac:(lia)). lia. }
  destruct (Z.ltb_spec left' right') as [Hlt|Hnl].
  - destruct (SWAP_spec lo hi l left' right') as (l2 & -> & Hw & S1 & S2 & S3); [done|lia..|]. simpl.
    set (mid' := if mid =? left' then right' else if mid =? right' then left' else mid).
    assert (Hmid : lo <= mid' <= hi /\ K l2 mid' = K l mid).
    { unfold mid'. destruct (Z.eqb_spec mid left') as [->|]; [split; [lia|done]|].
      destruct (Z.eqb_spec mid right') as [->|]; [split; [lia|done]|].
      split; [lia|]. by apply S3. }
    destruct Hmid as [Hmid Kmid].
    assert (Hwalls : walls l2 lo hi (K l mid) (left' + 1) (right' - 1)).
    { split; intros k Hk.
      - destruct (decide (k = left')) as [->|]; [lia|]. rewrite S3 by lia. apply HwL. lia.
      - destruct (decide (k = right')) as [->|]; [lia|]. rewrite S3 by lia. apply HwR. lia. }
    destruct (Z.leb_spec (left' + 1) (right' - 1)).
    + destruct (IH l2 mid' (left' + 1) (right' - 1)) as (l3 & a & b & -> & Hw3 & Hb & Ha & Hab);
        [apply Hw|lia..|by rewrite Kmid|lia|].
      exists l3, a, b. split; [done|]. split; [by eapply within_trans|].
      split; [done|]. split; [done|]. by rewrite <- Kmid.
    + exists l2, (left' + 1), (right' - 1). split; [done|]. split; [done|]. split; [lia|]. split; [lia|done].
  - destruct (Z.eqb_spec left' right') as [->|Hne].
    + exists l, (right' + 1), (right' - 1). split; [done|]. split; [by apply within_refl|].
      split; [lia|]. split; [lia|]. split; intros k Hk.
      * destruct (decide (k = right')) as [->|]; [done|]. apply HwL. lia.
      * destruct (decide (k = right')) as [->|]; [done|]. apply HwR. lia.
    + exists l, left', right'. split; [done|]. split; [by apply within_refl|].
      split; [lia|]. split; [lia|]. by split.
Qed.

(** ** The outer loop *)

Definition disj (p q : Z * Z) : Prop := p.2 < q.1 \/ q.2 < p.1.

(** The partitions still to be sorted, the current one first: disjoint ranges
    that shrink by half from each entry of the stack to the next. *)
Fixpoint parts_ok (parts : list (Z * Z)) : Prop :=
  match parts with
  | [] => True
  | p :: ps => 0 <= p.1 /\ p.1 + 4 <= p.2 /\ p.2 < n /\ (forall q, q ∈ ps -> disj p q) /\
               (p.2 - p.1 + 1) * 2 ^ Z.of_nat (length ps) <= n /\ parts_ok ps
  end.

Fixpoint work (parts : list (Z * Z)) : Z :=
  match parts with [] => 0 | p :: ps => (p.2 - p.1) + work ps end.

(** The first [c] elements are at most the rest; they are few or one of the
    partitions, and no other partition touches them. *)
Definition cut (l : list A) (parts : list (Z * Z)) (c : Z) : Prop :=
  1 <= c <= n /\ (forall i j, 0 <= i < c -> c <= j < n -> K l i <= K l j) /\
  (c <= 5 \/ (0, c - 1) ∈ parts) /\ (forall p, p ∈ parts -> p = (0, c - 1) \/ c <= p.1).

Lemma cut_step l l' lo hi rs v left right c parts :
  0 <= lo -> hi < n -> (forall q, q ∈ rs -> 0 <= q.1 /\ q.1 <= q.2 /\ disj (lo, hi) q) ->
  within lo hi l l' -> lo <= right < left -> left <= hi -> walls l' lo hi v left right ->
  (forall p, p ∈ parts -> p ∈ rs \/ p = (lo, right) \/ p = (left, hi)) ->
  (forall p, p ∈ rs -> p ∈ parts) -> (right - lo <= 4 \/ (lo, right) ∈ parts) ->
  cut l ((lo, hi) :: rs) c -> exists c', cut l' parts c'.
Proof.
  intros Hlo Hhi Hrs (Hg & Ho & Hi) Hr Hl [HwL HwR] Hp1 Hp2 Hsm (Hc & Hsep & Hin & Hall).
  destruct (Hall (lo, hi) (list_elem_of_here _ _)) as [[= -> ->]|Hclo]; simpl in *.
  - exists (right + 1). split; [lia|]. split; [|split].
    + intros i j Hi' Hj'. destruct (decide (j < c)).
      * pose proof (HwL i ltac:(lia)). pose proof (HwR j ltac:(lia)). lia.
      * destruct (Hi i ltac:(lia)) as (k & Hk & ->). rewrite (Ho j) by lia. apply Hsep; lia.
    + replace (right + 1 - 1) with right by lia. destruct Hsm; [left; lia|by right].
    + intros p Hp. replace (right + 1 - 1) with right by lia.
      destruct (Hp1 p Hp) as [Hq|[->| ->]]; [|by left|right; simpl; lia].
      right. destruct (Hrs p Hq) as (? & ? & [Hd|Hd]); simpl in Hd; lia.
  - exists c. split; [done|]. split; [|split].
    + intros i j Hi' Hj'. rewrite (Ho i) by lia. destruct (decide (lo <= j <= hi)) as [Hj|Hj].
      * destruct (Hi j Hj) as (k & Hk & ->). apply Hsep; lia.
      * rewrite (Ho j) by lia. by apply Hsep.
    + destruct Hin as [?|[E|Hin]%elem_of_cons]; [by left|simplify_eq; lia|right; by apply Hp2].
    + intros p Hp. destruct (Hp1 p Hp) as [Hq|[->| ->]]; [apply Hall; by right|right; simpl; lia..].
Qed.

(** One iteration. *)
Lemma partition_spec l lo hi : good l -> 0 <= lo -> lo + 2 <= hi -> hi < n ->
  let mid := lo + Z.shiftr (hi - lo) 1 in
  exists l1 l' left right v, median3 cmp l lo mid hi = Some l1 /\
    collapse cmp (length l1) l1 mid (lo + 1) (hi - 1) = Some (l', left, right) /\
    within lo hi l l' /\ lo <= right < left /\ left <= hi /\ walls l' lo hi v left right.
Proof.
  intros Hg Hlo Hlh Hhi mid.
  assert (Hm : lo < mid < hi).
  { unfold mid. rewrite Z.shiftr_div_pow2 by lia. change (2 ^ 1) with 2.
    pose proof (Z.mul_div_le (hi - lo) 2). pose proof (Z.mul_succ_div_gt (hi - lo) 2). lia. }
  destruct (median3_spec l lo mid hi) as (l1 & E1 & Hw1 & Hk); [done..|].
  pose proof (proj1 Hw1) as Hg1. apply Permutation_length in Hg1 as Hlen.
  destruct (collapse_spec lo hi Hlo Hhi (length l1) l1 mid (lo + 1) (hi - 1))
    as (l' & left & right & E2 & Hw2 & Hr & Hl & Hw); [done|lia..| |lia|].
  { split; intros k Hk'; [assert (k = lo) as -> by lia|assert (k = hi) as -> by lia]; lia. }
  exists l1, l', left, right, (K l1 mid). split; [done|]. split; [done|].
  split; [by eapply within_trans|done].
Qed.

Lemma parts_ok_nonneg q parts : parts_ok parts -> q ∈ parts -> 0 <= q.1 /\ q.1 <= q.2.
Proof.
  induction parts as [|p ps IH]; intros Hp Hq; [by apply not_elem_of_nil in Hq|].
  destruct Hp as (? & ? & ? & ? & ? & ?). apply elem_of_cons in Hq as [->|Hq]; [lia|by apply IH].
Qed.

(** Replacing the current partition by a part of it, and by two parts of it of
    which the smaller one is sorted first. *)
Lemma parts_ok_sub lo hi a b rs : parts_ok ((lo, hi) :: rs) -> lo <= a -> a + 4 <= b -> b <= hi ->
  parts_ok ((a, b) :: rs).
Proof.
  intros (? & ? & ? & Hd & Hn & Hps) ???. simpl in *. split_and!; [lia..| |nia|done].
  intros q Hq. destruct (Hd q Hq) as [?|?]; [left|right]; simpl in *; lia.
Qed.

Lemma parts_ok_push lo hi a b a' b' rs : parts_ok ((lo, hi) :: rs) ->
  lo <= a -> a + 4 <= b -> b <= hi -> lo <= a' -> a' + 4 <= b' -> b' <= hi ->
  disj (a, b) (a', b') -> b - a <= b' - a' -> parts_ok ((a, b) :: (a', b') :: rs).
Proof.
  intros Hp ?????? Hdd Hle. pose proof (fun x y => parts_ok_sub lo hi x y rs Hp) as Hsub.
  pose proof (Hsub a' b' ltac:(lia) ltac:(lia) ltac:(lia)) as Hp'.
  destruct (Hsub a b ltac:(lia) ltac:(lia) ltac:(lia)) as (? & ? & ? & Hd & _ & _).
  split_and!; [done..| | |done].
  - intros q [->|Hq]%elem_of_cons; [done|by apply Hd].
  - destruct Hp as (_ & _ & _ & _ & Hn & _). simpl in *. rewrite Nat2Z.inj_succ, Z.pow_succ_r by lia.
    destruct Hdd as [Hdd|Hdd]; simpl in Hdd; nia.
Qed.

Lemma push_room p q rs : n < 2 ^ 64 -> parts_ok (p :: q :: rs) ->
  (Z.of_nat (length (rs ++ [(0, 0)])) <? STACK_SIZE) = true.
Proof.
  intros Hn (_ & _ & _ & _ & _ & _ & ? & _ & _ & Hw & _). apply Z.ltb_lt. unfold STACK_SIZE.
  rewrite length_app. simpl. destruct (decide (Z.of_nat (length rs) < 62)); [lia|].
  assert (2 ^ 62 <= 2 ^ Z.of_nat (length rs)) by (apply Z.pow_le_mono_r; lia).
  change (2 ^ 64) with (2 ^ 62 * 4) in Hn. nia.
Qed.

Lemma quick_spec : n < 2 ^ 64 -> forall fuel l lo hi rs c,
  good l -> parts_ok ((lo, hi) :: rs) -> work ((lo, hi) :: rs) <= Z.of_nat fuel ->
  cut l ((lo, hi) :: rs) c ->
  exists l' c', quick cmp fuel l (rs ++ [(0, 0)]) lo hi = Some l' /\ good l' /\ cut l' [] c'.
Proof.
  intros Hn. induction fuel as [|fuel IH]; intros l lo hi rs c Hg Hp Hf Hc.
  { exfalso. destruct Hp as (_ & ? & _ & _ & _ & Hp). simpl in *.
    assert (0 <= work rs); [|lia]. clear -Hp. induction rs as [|p ps IH]; simpl in *; [lia|].
    destruct Hp as (_ & ? & _ & _ & _ & Hp). specialize (IH Hp). lia. }
  pose proof Hp as (Hlo & Hlh & Hhi & Hd & _ & Hrs). simpl in Hlo, Hlh, Hhi, Hf.
  destruct (partition_spec l lo hi Hg Hlo ltac:(lia) Hhi)
    as (l1 & l' & left & right & v & E1 & E2 & Hw & Hr & Hl & Hwalls).
  pose proof (proj1 Hw) as Hg'.
  assert (Hcut : forall parts, (forall p, p ∈ parts -> p ∈ rs \/ p = (lo, right) \/ p = (left, hi)) ->
    (forall p, p ∈ rs -> p ∈ parts) -> (right - lo <= 4 \/ (lo, right) ∈ parts) ->
    exists c', cut l' parts c').
  { intros parts H1 H2 H3. eapply (cut_step l l' lo hi rs); [done|done| |done..].
    intros q Hq. destruct (parts_ok_nonneg q rs Hrs Hq). auto. }
  simpl. destruct (rs ++ [(0, 0)]) as [|[lo' hi'] stack'] eqn:Es; [by destruct rs|].
  rewrite E1. simpl. rewrite E2. simpl. unfold MAX_THRESH. rewrite !u64_small by lia.
  destruct (Z.leb_spec (right - lo) 4) as [Hs1|Hs1], (Z.leb_spec (hi - left) 4) as [Hs2|Hs2].
  - destruct (Hcut rs) as [c' Hc']; [by auto|done|by left|].
    destruct rs as [|[lo2 hi2] rs']; simplify_eq/=.
    + exists l', c'. split; [by destruct fuel|done].
    + eapply IH; [done|done|simpl; lia|done].
  - destruct (Hcut ((left, hi) :: rs)) as [c' Hc']; [set_solver|set_solver|by left|].
    rewrite <- Es. eapply (IH l' left hi rs c'); [done| |simpl; lia|done].
    apply (parts_ok_sub lo hi); [done|lia..].
  - destruct (Hcut ((lo, right) :: rs)) as [c' Hc']; [set_solver|set_solver|right; left|].
    rewrite <- Es. eapply (IH l' lo right rs c'); [done| |simpl; lia|done].
    apply (parts_ok_sub lo hi); [done|lia..].
  - unfold PUSH. rewrite <- Es. destruct (Z.ltb_spec (hi - left) (right - lo)).
    + assert (Hp' : parts_ok ((left, hi) :: (lo, right) :: rs))
        by (apply (parts_ok_push lo hi); [done|lia..|right; simpl; lia|lia]).
      destruct (Hcut ((left, hi) :: (lo, right) :: rs)) as [c' Hc'];
        [set_solver|set_solver|right; right; left|].
      rewrite (push_room _ _ _ Hn Hp'). eapply (IH l' left hi ((lo, right) :: rs)); [done..|simpl; lia|done].
    + assert (Hp' : parts_ok ((lo, right) :: (left, hi) :: rs))
        by (apply (parts_ok_push lo hi); [done|lia..|left; simpl; lia|lia]).
      destruct (Hcut ((lo, right) :: (left, hi) :: rs)) as [c' Hc'];
        [set_solver|set_solver|right; left|].
      rewrite (push_room _ _ _ Hn Hp'). eapply (IH l' lo right ((left, hi) :: rs)); [done..|simpl; lia|done].
Qed.

(** ** Insertion sort *)

Lemma find_min_spec l thresh : good l -> thresh < n -> forall fuel run tmp,
  0 <= tmp < run -> run <= thresh + 1 -> (Z.to_nat (thresh + 1 - run) < fuel)%nat ->
  (forall k, 0 <= k < run -> K l tmp <= K l k) ->
  exists tmp', find_min cmp fuel l run thresh tmp = Some tmp' /\ 0 <= tmp' <= thresh /\
    forall k, 0 <= k <= thresh -> K l tmp' <= K l k.
Proof.
  intros Hg Ht. induction fuel as [|fuel IH]; intros run tmp H1 H2 Hf Hmin; [lia|]. simpl.
  destruct (Z.leb_spec run thresh).
  - rewrite lt_at_eq by (done || lia). simpl. apply IH; [destruct (_ <? _); lia|lia..|].
    intros k Hk. destruct (Z.ltb_spec (K l run) (K l tmp)).
    + destruct (decide (k = run)) as [->|]; [done|]. pose proof (Hmin k ltac:(lia)). lia.
    + destruct (decide (k = run)) as [->|]; [done|]. apply Hmin. lia.
  - exists tmp. split; [done|]. split; [lia|]. intros k Hk. apply Hmin. lia.
Qed.

Lemma scan_back_spec l run : good l -> 0 <= run < n -> K l 0 <= K l run ->
  forall fuel tmp, 0 <= tmp < n -> (Z.to_nat tmp < fuel)%nat ->
  exists tmp', scan_back cmp fuel l run tmp = Some tmp' /\ 0 <= tmp' <= tmp /\
    K l tmp' <= K l run /\ forall k, tmp' < k <= tmp -> K l run < K l k.
Proof.
  intros Hg Hr H0. induction fuel as [|fuel IH]; intros tmp Ht Hf; [lia|]. simpl.
  rewrite lt_at_eq by (done || lia). simpl. destruct (Z.ltb_spec (K l run) (K l tmp)) as [Hlt|Hge].
  - assert (tmp <> 0) by (intros ->; lia).
    destruct (IH (tmp - 1)) as (tmp' & -> & Hr' & Hle & Hall); [lia..|].
    exists tmp'. split; [done|]. split; [lia|]. split; [done|]. intros k Hk'.
    destruct (decide (k = tmp)) as [->|]; [done|]. apply Hall. lia.
  - exists tmp. split; [done|]. split; [lia|]. split; [done|lia].
Qed.

(** The hole at [hi] moves down to [tmp]. *)
Lemma shift_up_spec c tmp : 0 <= tmp -> forall fuel l hi,
  tmp <= hi < n -> (Z.to_nat (hi - tmp) < fuel)%nat -> good (<[Z.to_nat hi := c]> l) ->
  exists l', shift_up fuel l hi tmp c = Some l' /\ good l' /\ K l' tmp = key c /\
    (forall k, tmp < k <= hi -> K l' k = K l (k - 1)) /\
    (forall k, ~ tmp <= k <= hi -> K l' k = K l k).
Proof.
  intros Ht. induction fuel as [|fuel IH]; intros l hi Hhi Hf Hg; [lia|]. simpl.
  pose proof (Permutation_length Hg) as Hlen. rewrite length_insert in Hlen.
  destruct (Z.leb_spec tmp (hi - 1)) as [Hle|Hgt].
  - unfold rd at 1. destruct (Z.ltb_spec (hi - 1) 0); [lia|].
    destruct (lookup_lt_is_Some_2 l (Z.to_nat (hi - 1))) as [x Hx]; [lia|]. rewrite Hx. simpl.
    destruct (wr_Some l hi x) as (l1 & -> & -> & K1); [lia|]. simpl.
    assert (Hlo : (<[Z.to_nat (hi - 1):=c]> (<[Z.to_nat hi:=x]> l)) ≡ₚ <[Z.to_nat hi:=c]> l).
    { pose proof (Permutation_insert_swap (<[Z.to_nat hi:=c]> l) (Z.to_nat (hi - 1)) (Z.to_nat hi) x c) as Hs.
      rewrite list_insert_insert_ne, list_insert_insert_eq in Hs by lia.
      apply Hs.
      - by rewrite list_lookup_insert_ne by lia.
      - by rewrite list_lookup_insert_eq by lia. }
    destruct (IH (<[Z.to_nat hi:=x]> l) (hi - 1)) as (l' & -> & Hg' & Ktmp & Kin & Kout); [lia..| |].
    { unfold good in *. by rewrite Hlo. }
    assert (Kx : K l (hi - 1) = key x).
    { unfold K, rd. destruct (Z.ltb_spec (hi - 1) 0); [lia|]. by rewrite Hx. }
    exists l'. split; [done|]. split; [done|]. split; [done|]. split.
    + intros k Hk. destruct (decide (k = hi)) as [->|].
      * rewrite Kout by lia. rewrite K1, Z.eqb_refl. done.
      * rewrite Kin by lia. rewrite K1. destruct (Z.eqb_spec (k - 1) hi); [lia|done].
    + intros k Hk. rewrite Kout by lia. rewrite K1. destruct (Z.eqb_spec k hi); [lia|done].
  - assert (hi = tmp) as -> by lia. destruct (wr_Some l tmp c) as (l1 & -> & -> & K1); [lia|].
    eexists. split; [done|]. split; [done|]. rewrite K1, Z.eqb_refl. split; [done|]. split; [lia|].
    intros k Hk. rewrite K1. destruct (Z.eqb_spec k tmp); [lia|done].
Qed.

(** [sorted_to l m]: the first [m] elements are in order. *)
Definition sorted_to (l : list A) (m : Z) : Prop := forall i j, 0 <= i <= j -> j < m -> K l i <= K l j.

Lemma insertion_spec : forall fuel l run, good l -> 1 <= run -> run < n \/ n <= 1 ->
  (Z.to_nat (n - run) <= fuel)%nat -> (0 < fuel)%nat ->
  (forall k, 0 <= k < n -> K l 0 <= K l k) -> sorted_to l (run + 1) \/ n <= 1 ->
  exists l', insertion cmp fuel l run (n - 1) = Some l' /\ good l' /\ sorted_to l' n.
Proof.
  induction fuel as [|fuel IH]; intros l run Hg Hr Hrn Hf Hf0 Hmin Hs; [lia|]. simpl.
  apply Permutation_length in Hg as Hlen.
  destruct (Z.leb_spec (run + 1) (n - 1)) as [Hle|Hgt].
  2: { exists l. split; [done|]. split; [done|]. intros i j Hij Hj.
       destruct Hs as [Hs|Hs]; [apply Hs; lia|]. assert (i = j) as -> by lia. lia. }
  destruct Hs as [Hs|]; [|lia].
  destruct (scan_back_spec l (run + 1) Hg ltac:(lia) ltac:(apply Hmin; lia)
              (S (length l)) (run + 1 - 1)) as (tmp & E & Ht & Htk & Hgt); [lia..|].
  simpl in E. rewrite E. simpl.
  destruct (Z.eqb_spec (tmp + 1) (run + 1)) as [Heq|Hne]; simpl.
  - apply IH; [done|lia..|done|]. left. intros i j Hij Hj.
    destruct (decide (j < run + 1)); [by apply Hs|]. assert (j = run + 1) as -> by lia.
    destruct (decide (i = run + 1)) as [->|]; [lia|]. pose proof (Hs i tmp ltac:(lia) ltac:(lia)). lia.
  - destruct (rd_Some l (run + 1) Hg) as (c & Ec & _ & Kc); [lia|]. rewrite Ec. simpl.
    destruct (shift_up_spec c (tmp + 1) ltac:(lia) (S (length l)) l (run + 1))
      as (l' & E' & Hg' & Ktmp & Kin & Kout); [lia..| |].
    { rewrite list_insert_id; [done|]. unfold rd in Ec. destruct (Z.ltb_spec (run + 1) 0); [lia|done]. }
    simpl in E'. rewrite E'. simpl. rewrite <- Kc in Ktmp.
    assert (K0 : K l' 0 = K l 0) by (apply Kout; lia).
    apply IH; [done|lia..| |].
    + intros k Hk. rewrite K0. destruct (decide (tmp + 1 <= k <= run + 1)) as [Hin|Hout].
      * destruct (decide (k = tmp + 1)) as [->|]; [rewrite Ktmp|rewrite Kin by lia]; apply Hmin; lia.
      * rewrite Kout by done. by apply Hmin.
    + left. intros i j Hij Hj.
      assert (Hlow : forall k, 0 <= k <= tmp -> K l' k = K l k) by (intros k Hk; apply Kout; lia).
      destruct (decide (j <= tmp)).
      { rewrite !Hlow by lia. apply Hs; lia. }
      destruct (decide (i <= tmp)).
      * rewrite (Hlow i) by lia. pose proof (Hs i tmp ltac:(lia) ltac:(lia)).
        destruct (decide (j = tmp + 1)) as [->|]; [lia|]. rewrite Kin by lia.
        pose proof (Hgt (j - 1) ltac:(lia)). lia.
      * destruct (decide (i = tmp + 1)) as [->|].
        -- destruct (decide (j = tmp + 1)) as [->|]; [lia|]. rewrite Ktmp, Kin by lia.
           pose proof (Hgt (j - 1) ltac:(lia)). lia.
        -- rewrite !Kin by lia. apply Hs; lia.
Qed.

(** ** The whole sort *)

Lemma quick_phase l : good l -> n < 2 ^ 64 -> 0 < n ->
  exists l', (if MAX_THRESH <? n then quick cmp (S (length l)) l [(0, 0)] 0 (n - 1) else Some l) = Some l' /\
    good l' /\ forall k, Z.min (n - 1) 4 < k < n -> K l' 0 <= K l' k.
Proof.
  intros Hg Hn Hpos. apply Permutation_length in Hg as Hlen. unfold MAX_THRESH.
  destruct (Z.ltb_spec 4 n) as [Hlt|Hge]; [|exists l; split; [done|]; split; [done|lia]].
  destruct (quick_spec Hn (S (length l)) l 0 (n - 1) [] n) as (l' & c & E & Hg' & Hc); [done|..].
  - simpl. split_and!; [lia..| |lia|done]. intros q Hq. by apply not_elem_of_nil in Hq.
  - simpl. lia.
  - split; [lia|]. split; [lia|]. split; [right; left|]. intros p ->%list_elem_of_singleton. by left.
  - exists l'. split; [exact E|]. split; [done|]. destruct Hc as (Hc & Hsep & [Hc5|Hin] & _).
    + intros k Hk. apply Hsep; lia.
    + by apply not_elem_of_nil in Hin.
Qed.

Lemma ldb_qsort_run_sorted l : good l -> n < 2 ^ 64 ->
  exists l', ldb_qsort_run cmp l = Some l' /\ good l' /\ sorted_to l' n.
Proof.
  intros Hg Hn. apply Permutation_length in Hg as Hlen. unfold ldb_qsort_run. rewrite Hlen.
  destruct (Z.eqb_spec n 0) as [E|E].
  { exists l. split; [done|]. split; [done|]. intros i j ??. lia. }
  destruct (quick_phase l Hg Hn ltac:(lia)) as (l1 & E1 & Hg1 & Hmin1).
  rewrite Hlen in E1. rewrite E1. simpl. apply Permutation_length in Hg1 as Hlen1.
  destruct (find_min_spec l1 (Z.min (n - 1) MAX_THRESH) Hg1 ltac:(lia) (S (length l1)) 1 0)
    as (tmp & E2 & Ht & Hmin); unfold MAX_THRESH in *; [lia..| |].
  { intros k Hk. assert (k = 0) as -> by lia. lia. }
  simpl in E2. rewrite E2. simpl.
  assert (Hswap : exists l2, (if negb (tmp =? 0) then SWAP l1 tmp 0 else Some l1) = Some l2 /\
    good l2 /\ forall k, 0 <= k < n -> K l2 0 <= K l2 k).
  { assert (Hall : forall k, 0 <= k < n -> K l1 tmp <= K l1 k).
    { intros k Hk. destruct (decide (k <= Z.min (n - 1) 4)); [apply Hmin; lia|].
      pose proof (Hmin 0 ltac:(lia)). pose proof (Hmin1 k ltac:(lia)). lia. }
    destruct (Z.eqb_spec tmp 0) as [->|Ht0]; simpl; [by exists l1|].
    destruct (SWAP_spec 0 (n - 1) l1 tmp 0) as (l2 & -> & Hw & S1 & S2 & S3); [done|lia..|].
    exists l2. split; [done|]. split; [apply Hw|]. intros k Hk. rewrite S2.
    destruct (decide (k = 0)) as [->|]; [lia|].
    destruct (decide (k = tmp)) as [->|]; [rewrite S1; apply Hall; lia|].
    rewrite S3 by done. by apply Hall. }
  destruct Hswap as (l2 & -> & Hg2 & Hmin2). simpl. apply Permutation_length in Hg2 as Hlen2.
  destruct (insertion_spec (S (length l2)) l2 1) as (l3 & E3 & Hg3 & Hs); [done|lia..|done| |by exists l3].
  destruct (decide (n <= 1)); [by right|left]. intros i j Hij Hj.
  destruct (decide (i = 0)) as [->|]; [apply Hmin2; lia|]. assert (i = j) as -> by lia. lia.
Qed.

Lemma sorted_to_ordered l : good l -> sorted_to l n ->
  (forall x y, x ∈ l0 -> y ∈ l0 -> key x <= key y -> cmp x y <= 0) ->
  ordered (fun x y => cmp x y <= 0) l.
Proof.
  intros Hg Hs Hle i j x y Hij Hi Hj. apply Permutation_length in Hg as Hlen.
  pose proof (lookup_lt_Some _ _ _ Hj) as Hjl.
  assert (HK : forall k z, l !! k = Some z -> K l (Z.of_nat k) = key z).
  { intros k z Hz. unfold K, rd. destruct (Z.ltb_spec (Z.of_nat k) 0); [lia|]. by rewrite Nat2Z.id, Hz. }
  unfold good in Hg. apply Hle.
  - rewrite <- Hg. by eapply list_elem_of_lookup_2.
  - rewrite <- Hg. by eapply list_elem_of_lookup_2.
  - rewrite <- (HK i x Hi), <- (HK j y Hj). apply Hs; lia.
Qed.
End verify.

Lemma ldb_qsort_run_spec {A} (cmp : A -> A -> Z) (l : list A) : cmp_consistent cmp l ->
  exists key l', (forall x y, x ∈ l -> y ∈ l -> key x <= key y -> cmp x y <= 0) /\
    ldb_qsort_run cmp l = Some l' /\ Permutation l' l /\
    sorted_to key l' (Z.of_nat (length l)).
Proof.
  intros Hc. destruct (cmp_rank cmp l Hc) as [key Hk].
  destruct (ldb_qsort_run_sorted cmp key l Hk l) as (l' & E & Hg & Hs);
    [apply Permutation_refl|by apply cmp_size in Hc|].
  exists key, l'. split_and!; [|done..]. intros x y Hx Hy Hle.
  pose proof (Hk y x Hy Hx). pose proof (cmp_anti _ _ Hc y x Hy Hx). lia.
Qed.

(** The implementation keeps the promise of the interface. *)
Definition ldb_qsort_impl : LdbQsort.
Proof.
  refine {| ldb_qsort A cmp l := default l (ldb_qsort_run cmp l) |}.
  - intros A cmp l Hc. by destruct (ldb_qsort_run_spec cmp l Hc) as (key & l' & _ & -> & Hp & _).
  - intros A cmp l Hc. destruct (ldb_qsort_run_spec cmp l Hc) as (key & l' & Hk & -> & Hp & Hs).
    by apply (sorted_to_ordered cmp key l l').
Defined.

(** C11: [ldb_qsort] sorts.  For a comparison that is a total preorder on the
    elements of an array (whose length is a [size_t]), the sort terminates
    without a read or write outside the array and without overflowing its
    64-entry stack, and leaves a permutation of the array in order. *)
Theorem ldb_qsort_correct {A} (cmp : A -> A -> Z) (l : list A) :
  cmp_consistent cmp l ->
  exists l', ldb_qsort_run cmp l = Some l' /\ Permutation l' l /\
    ordered (fun a b => cmp a b <= 0) l'.
Proof.
  intros Hc. destruct (ldb_qsort_run_spec cmp l Hc) as (key & l' & Hk & E & Hp & Hs).
  exists l'. split_and!; [done..|]. by apply (sorted_to_ordered cmp key l l').
Qed.

Definition ex_array : list Z := [5; 3; 9; 1; 1; 7; 3; 22; 0; 4; 4; 12; 13; -1; 8].

Example ldb_qsort_correct_witness : exists l',
  ldb_qsort_run Z.sub ex_array = Some l' /\ Permutation l' ex_array /\
  ordered (fun a b => a - b <= 0) l'.
Proof.
  apply (ldb_qsort_correct Z.sub ex_array). constructor; [intros; lia|intros; lia|vm_compute; reflexivity].
Defined.
