(* ===== verification/LdbTime.v ===== *)
(** * Times in the LDB library ([source4/lib/ldb/common/ldb_msg.c])

    The GeneralizedTime and UTCTime strings of LDAP.  The conversions go
    through [gmtime], [timegm], [snprintf] and [sscanf] of the C library: a
    broken-down time is the proleptic Gregorian calendar in UTC, [timegm]
    normalises a month that is out of range and adds the other fields up.

    The class [TimeCodec] is what the WINS database relies on, [ldb_time] the
    proof that the code keeps it. *)

From S2P Require Import Prelude CLib.
From Stdlib Require Import Ascii.

Local Open Scope string_scope.
Local Open Scope Z_scope.

(** [strchr(s, ';')]: the text before and after the first semicolon. *)
Fixpoint split_semi (s : string) : option (string * string) :=
  match s with
  | EmptyString => None
  | String c s' =>
      if bool_decide (c = ";"%char) then Some (EmptyString, s')
      else match split_semi s' with
           | Some (a, b) => Some (String c a, b)
           | None => None
           end
  end.

(** A time as text that reads back and holds no semicolon. *)
Class TimeCodec : Type := {
  time_string : Z -> string;
  string_time : string -> Z;
  time_roundtrip : forall t, 0 <= t < 2 ^ 31 -> string_time (time_string t) = t;
  time_no_semi : forall t, 0 <= t < 2 ^ 31 -> split_semi (time_string t) = None
}.

(** ** The calendar *)

(** [struct tm]: [tm_mon] counts from 0, [tm_year] from 1900. *)
Record tm : Set := mk_tm {
  tm_year : Z; tm_mon : Z; tm_mday : Z; tm_hour : Z; tm_min : Z; tm_sec : Z
}.

(** Days from 1970-01-01 to the first of a month, counting years from March so
    that the leap day is the last of a year; [m] counts from 0 for January. *)
Definition days_from_civil (y m : Z) : Z :=
  let y := y + m / 12 in
  let m := m mod 12 in
  let y' := if m <? 2 then y - 1 else y in
  let m' := if m <? 2 then m + 10 else m - 2 in
  365 * y' + y' / 4 - y' / 100 + y' / 400 + (153 * m' + 2) / 5 - 719468.

Definition timegm (t : tm) : Z :=
  (days_from_civil (tm_year t + 1900) (tm_mon t) + tm_mday t - 1) * 86400 +
  tm_hour t * 3600 + tm_min t * 60 + tm_sec t.

(** Year, month (from 0) and day of a day number. *)
Definition civil_from_days (d : Z) : Z * Z * Z :=
  let z := d + 719468 in
  let era := z / 146097 in
  let doe := z mod 146097 in
  let yoe := (doe - doe / 1460 + doe / 36524 - doe / 146096) / 365 in
  let doy := doe - (365 * yoe + yoe / 4 - yoe / 100) in
  let m' := (5 * doy + 2) / 153 in
  let day := doy - (153 * m' + 2) / 5 + 1 in
  let m := if m' <? 10 then m' + 2 else m' - 10 in
  let y := yoe + era * 400 + (if m <? 2 then 1 else 0) in
  (y, m, day).

Definition gmtime (t : Z) : tm :=
  let d := t / 86400 in
  let s := t mod 86400 in
  let '(y, m, day) := civil_from_days d in
  mk_tm (y - 1900) m day (s / 3600) (s mod 3600 / 60) (s mod 60).

(** ** Formatting *)

Fixpoint zeros (n : nat) : string :=
  match n with O => EmptyString | S n => String "0" (zeros n) end.

(** [%0wu] of [snprintf], the argument converted to [unsigned] *)
Definition pad (w : nat) (n : Z) : string :=
  let s := print_dec (u32 n) in zeros (w - String.length s) +:+ s.

(** [%wu] of [sscanf] into an [int]: blanks are skipped, then at most [w]
    characters read, a sign among them. *)
Definition scan_u (w : nat) (s : string) : option (Z * string) :=
  let s := skip_space s in
  let field := String.substring 0 w s in
  let after := String.substring w (String.length s - w) s in
  let '(neg, f) := take_sign field in
  if starts_digit f then
    let '(v, p) := read_digits 0 f in
    Some (s32 (if neg then - v else v), p +:+ after)
  else None.

(** [sscanf] of six numbers, the first [w] digits wide, into a [struct tm]. *)
Definition scan_tm (w : nat) (s : string) : option tm :=
  r ← scan_u w s; let '(y, s) := r in
  r ← scan_u 2 s; let '(mo, s) := r in
  r ← scan_u 2 s; let '(d, s) := r in
  r ← scan_u 2 s; let '(h, s) := r in
  r ← scan_u 2 s; let '(mi, s) := r in
  r ← scan_u 2 s; let '(sec, s) := r in
  Some (mk_tm y mo d h mi sec).

(** The month to the second, and what follows. *)
Definition print_tm (t : tm) (k : string) : string :=
  pad 2 (tm_mon t + 1) +:+ (pad 2 (tm_mday t) +:+ (pad 2 (tm_hour t) +:+
  (pad 2 (tm_min t) +:+ (pad 2 (tm_sec t) +:+ k)))).

(** ** The conversions of the library *)

Definition ldb_timestring (t : Z) : option string :=
  let tm := gmtime t in
  let ts := pad 4 (tm_year tm + 1900) +:+ print_tm tm ".0Z" in
  if negb (String.length ts =? 17)%nat then None else Some ts.

Definition ldb_string_to_time (s : option string) : Z :=
  match s with
  | None => 0
  | Some s =>
      match scan_tm 4 s with
      | None => 0
      | Some t => timegm (mk_tm (tm_year t - 1900) (tm_mon t - 1) (tm_mday t) (tm_hour t)
                            (tm_min t) (tm_sec t))
      end
  end.

Definition ldb_timestring_utc (t : Z) : option string :=
  let tm := gmtime t in
  let ts := pad 2 (Z.rem (tm_year tm + 1900) 100) +:+ print_tm tm "Z" in
  if negb (String.length ts =? 13)%nat then None else Some ts.

Definition ldb_string_utc_to_time (s : option string) : Z :=
  match s with
  | None => 0
  | Some s =>
      match scan_tm 2 s with
      | None => 0
      | Some t =>
          let y := if tm_year t <? 50 then tm_year t + 100 else tm_year t in
          timegm (mk_tm y (tm_mon t - 1) (tm_mday t) (tm_hour t) (tm_min t) (tm_sec t))
      end
  end.

(** ** The calendar is consistent *)

(** Every day of the range: the day number of the date is the day, and the
    fields of the date have their number of digits. *)
Definition date_ok (d : Z) (date : Z * Z * Z) : bool :=
  let '(y, m, day) := date in
  (days_from_civil y m + day - 1 =? d) && (1970 <=? y) && (y <? 2039) &&
  (0 <=? m) && (m <? 12) && (1 <=? day) && (day <? 32).

Fixpoint all_from (f : Z -> bool) (n : nat) (d : Z) : bool :=
  match n with O => true | S n => f d && all_from f n (d + 1) end.

Lemma all_from_spec f n : forall d x,
  all_from f n d = true -> d <= x < d + Z.of_nat n -> f x = true.
Proof.
  induction n as [|n IH]; intros d x Hd Hx; simpl in *; [lia|].
  apply andb_true_iff in Hd as [Hd Hr]. destruct (decide (x = d)) as [->|]; [done|].
  apply (IH (d + 1)); [done|lia].
Qed.

Lemma all_below f m x : all_from f (Z.to_nat m) 0 = true -> 0 <= x < m -> f x = true.
Proof. intros Hf Hx. apply (all_from_spec f _ 0 x Hf). lia. Qed.

(** 24856 days reach past 2038-01-19. *)
Lemma days_checked : all_from (fun d => date_ok d (civil_from_days d)) (Z.to_nat 24856) 0 = true.
Proof. vm_compute. reflexivity. Qed.

Lemma days_ok d : 0 <= d < 24856 -> exists y m day, civil_from_days d = (y, m, day) /\
  days_from_civil y m + day - 1 = d /\ 1970 <= y < 2039 /\ 0 <= m < 12 /\ 1 <= day < 32.
Proof.
  intros Hd. pose proof (all_below _ 24856 d days_checked Hd) as Hok. cbv beta in Hok. destruct (civil_from_days d) as [[y m] day]. exists y, m, day.
  unfold date_ok in Hok. split; [done|]. lia.
Qed.

Record tm_ok (t : tm) : Prop := {
  ok_year : 70 <= tm_year t < 139;
  ok_mon : 0 <= tm_mon t < 12;
  ok_mday : 1 <= tm_mday t < 32;
  ok_hour : 0 <= tm_hour t < 24;
  ok_min : 0 <= tm_min t < 60;
  ok_sec : 0 <= tm_sec t < 60
}.

Lemma time_of_day s : 0 <= s < 86400 ->
  0 <= s / 3600 < 24 /\ 0 <= s mod 3600 / 60 < 60 /\ 0 <= s mod 60 < 60 /\
  s / 3600 * 3600 + s mod 3600 / 60 * 60 + s mod 60 = s.
Proof.
  intros Hs. assert (Hm : s mod 60 = (s mod 3600) mod 60).
  { symmetry. apply Z.mod_mod_divide. exists 60. lia. }
  rewrite Hm. pose proof (Z.div_mod s 3600 ltac:(lia)). pose proof (Z.mod_pos_bound s 3600 ltac:(lia)).
  pose proof (Z.div_mod (s mod 3600) 60 ltac:(lia)).
  pose proof (Z.mod_pos_bound (s mod 3600) 60 ltac:(lia)). lia.
Qed.

Lemma gmtime_ok t : 0 <= t < 2 ^ 31 -> tm_ok (gmtime t) /\ timegm (gmtime t) = t.
Proof.
  intros Ht. pose proof (Z.div_mod t 86400 ltac:(lia)) as Hdm.
  pose proof (Z.mod_pos_bound t 86400 ltac:(lia)) as Hm.
  destruct (days_ok (t / 86400) ltac:(lia)) as (y & m & day & E & Hd & Hy & Hmo & Hday).
  destruct (time_of_day _ Hm) as (Hh & Hmi & Hsec & Hsum). unfold gmtime, timegm. rewrite E.
  split; [constructor; simpl; lia|]. cbn [tm_year tm_mon tm_mday tm_hour tm_min tm_sec].
  replace (y - 1900 + 1900) with y by lia. rewrite Hd. lia.
Qed.

(** ** The text is read back *)

(** Two and four decimal digits. *)
Definition digit (n : Z) : ascii := ascii_of_N (Z.to_N (48 + n)).
Definition two (n : Z) (k : string) : string := String (digit (n / 10)) (String (digit (n mod 10)) k).

Lemma pad_2_checked : all_from (fun n => String.eqb (pad 2 n) (two n "")) (Z.to_nat 100) 0 = true.
Proof. vm_compute. reflexivity. Qed.

Lemma pad_4_checked :
  all_from (fun n => String.eqb (pad 4 n) (two (n / 100) (two (n mod 100) ""))) (Z.to_nat 10000) 0 = true.
Proof. vm_compute. reflexivity. Qed.

Lemma pad_2 n k : 0 <= n < 100 -> pad 2 n +:+ k = two n k.
Proof.
  intros Hn. pose proof (all_below _ 100 n pad_2_checked Hn) as He. cbv beta in He.
  apply String.eqb_eq in He. by rewrite He.
Qed.

Lemma pad_4 n k : 0 <= n < 10000 -> pad 4 n +:+ k = two (n / 100) (two (n mod 100) k).
Proof.
  intros Hn. pose proof (all_below _ 10000 n pad_4_checked Hn) as He. cbv beta in He.
  apply String.eqb_eq in He. by rewrite He.
Qed.

Lemma is_digit_dec n : 0 <= n < 10 -> is_digit (digit n) = true /\ digit_val (digit n) = n.
Proof. intros Hn. split; [by apply is_digit_digit|by apply digit_val_digit]. Qed.

Lemma two_digits n : 0 <= n < 100 -> 0 <= n / 10 < 10 /\ 0 <= n mod 10 < 10 /\ 10 * (n / 10) + n mod 10 = n.
Proof.
  intros Hn. pose proof (Z.div_mod n 10 ltac:(lia)). pose proof (Z.mod_pos_bound n 10 ltac:(lia)). lia.
Qed.

Lemma substring_none k : String.substring 0 0 k = "".
Proof. by destruct k. Qed.

Lemma scan_two n k : 0 <= n < 100 -> scan_u 2 (two n k) = Some (n, k).
Proof.
  intros Hn. destruct (two_digits n Hn) as (H1 & H0 & Hs).
  destruct (is_digit_dec _ H1) as [D1 V1], (is_digit_dec _ H0) as [D0 V0].
  unfold scan_u, two. cbn [skip_space]. rewrite (digit_not_space _ D1).
  cbn [String.substring]. rewrite (digit_not_sign _ _ D1). cbn [starts_digit]. rewrite D1.
  cbn [read_digits String.length Nat.sub]. rewrite D1, D0, V1, V0.
  rewrite substring_none, Nat.sub_0_r, substring_all by lia. cbn [read_digits String.append].
  rewrite s32_small by lia. do 2 f_equal. lia.
Qed.

Lemma scan_four n k : 0 <= n < 10000 -> scan_u 4 (two (n / 100) (two (n mod 100) k)) = Some (n, k).
Proof.
  intros Hn. pose proof (Z.div_mod n 100 ltac:(lia)) as Hq. pose proof (Z.mod_pos_bound n 100 ltac:(lia)) as Hr.
  destruct (two_digits (n / 100) ltac:(lia)) as (H3 & H2 & Hs).
  destruct (two_digits (n mod 100) ltac:(lia)) as (H1 & H0 & Hs').
  destruct (is_digit_dec _ H3) as [D3 V3], (is_digit_dec _ H2) as [D2 V2].
  destruct (is_digit_dec _ H1) as [D1 V1], (is_digit_dec _ H0) as [D0 V0].
  unfold scan_u, two. cbn [skip_space]. rewrite (digit_not_space _ D3).
  cbn [String.substring]. rewrite (digit_not_sign _ _ D3). cbn [starts_digit]. rewrite D3.
  cbn [read_digits String.length Nat.sub]. rewrite D3, D2, D1, D0, V3, V2, V1, V0.
  rewrite substring_none, Nat.sub_0_r, substring_all by lia. cbn [read_digits String.append].
  rewrite s32_small by lia. do 2 f_equal. lia.
Qed.

Lemma split_semi_two n k : 0 <= n < 100 -> split_semi k = None -> split_semi (two n k) = None.
Proof.
  intros Hn Hk. destruct (two_digits n Hn) as (H1 & H0 & _).
  assert (Hd : forall m, 0 <= m < 10 -> digit m <> ";"%char).
  { intros m Hm He. apply (f_equal byte_of) in He. unfold digit in He.
    rewrite byte_of_digit in He by lia. change (byte_of ";") with 59 in He. lia. }
  unfold two. cbn [split_semi]. rewrite !bool_decide_eq_false_2 by (by apply Hd). by rewrite Hk.
Qed.

(** The five two-digit fields. *)
Lemma print_tm_two t k : tm_ok t -> print_tm t k =
  two (tm_mon t + 1) (two (tm_mday t) (two (tm_hour t) (two (tm_min t) (two (tm_sec t) k)))).
Proof. intros [_ Hmo Hd Hh Hmi Hs]. unfold print_tm. by rewrite !pad_2 by lia. Qed.

Lemma gmtime_text t : 0 <= t < 2 ^ 31 ->
  let y := tm_year (gmtime t) + 1900 in
  ldb_timestring t = Some (two (y / 100) (two (y mod 100) (print_tm (gmtime t) ".0Z"))) /\
  ldb_timestring_utc t = Some (two (y mod 100) (print_tm (gmtime t) "Z")).
Proof.
  intros Ht y. destruct (gmtime_ok t Ht) as [Hok _]. pose proof (ok_year _ Hok).
  pose proof (Z.mod_pos_bound y 100 ltac:(lia)).
  unfold ldb_timestring, ldb_timestring_utc. fold y. rewrite Z.rem_mod_nonneg by lia.
  rewrite pad_4, pad_2, !print_tm_two by (done || lia). done.
Qed.

Lemma scan_tm_text t k : tm_ok t ->
  scan_tm 4 (two ((tm_year t + 1900) / 100) (two ((tm_year t + 1900) mod 100) (print_tm t k))) =
    Some (mk_tm (tm_year t + 1900) (tm_mon t + 1) (tm_mday t) (tm_hour t) (tm_min t) (tm_sec t)) /\
  scan_tm 2 (two ((tm_year t + 1900) mod 100) (print_tm t k)) =
    Some (mk_tm ((tm_year t + 1900) mod 100) (tm_mon t + 1) (tm_mday t) (tm_hour t) (tm_min t) (tm_sec t)).
Proof.
  intros Hok. pose proof Hok as [Hy Hmo Hd Hh Hmi Hs]. rewrite print_tm_two by done.
  pose proof (Z.mod_pos_bound (tm_year t + 1900) 100 ltac:(lia)).
  unfold scan_tm. split.
  - rewrite scan_four by lia. cbn [mbind option_bind]. repeat (rewrite scan_two by lia; cbn [mbind option_bind]). done.
  - repeat (rewrite scan_two by lia; cbn [mbind option_bind]). done.
Qed.

(** Both notations read back, in the range of a 32-bit [time_t]. *)
Lemma timestrings_back t : 0 <= t < 2 ^ 31 ->
  ldb_string_to_time (ldb_timestring t) = t /\ ldb_string_utc_to_time (ldb_timestring_utc t) = t.
Proof.
  intros Ht. destruct (gmtime_ok t Ht) as [Hok Hg]. destruct (gmtime_text t Ht) as [-> ->].
  destruct (scan_tm_text (gmtime t) ".0Z" Hok) as [E1 _].
  destruct (scan_tm_text (gmtime t) "Z" Hok) as [_ E2].
  unfold ldb_string_to_time, ldb_string_utc_to_time. rewrite E1, E2.
  cbn [tm_year tm_mon tm_mday tm_hour tm_min tm_sec]. pose proof (ok_year _ Hok) as Hy.
  assert (Hyr : (if (tm_year (gmtime t) + 1900) mod 100 <? 50 then (tm_year (gmtime t) + 1900) mod 100 + 100
                 else (tm_year (gmtime t) + 1900) mod 100) = tm_year (gmtime t)).
  { destruct (Z.ltb_spec (tm_year (gmtime t)) 100).
    - rewrite <- (Z.mod_unique_pos _ 100 19 (tm_year (gmtime t))) by lia.
      destruct (Z.ltb_spec (tm_year (gmtime t)) 50); lia.
    - rewrite <- (Z.mod_unique_pos _ 100 20 (tm_year (gmtime t) - 100)) by lia.
      destruct (Z.ltb_spec (tm_year (gmtime t) - 100) 50); lia. }
  rewrite Hyr. replace (tm_year (gmtime t) + 1900 - 1900) with (tm_year (gmtime t)) by lia.
  replace (tm_mon (gmtime t) + 1 - 1) with (tm_mon (gmtime t)) by lia.
  assert (Heta : forall x, mk_tm (tm_year x) (tm_mon x) (tm_mday x) (tm_hour x) (tm_min x) (tm_sec x) = x)
    by (by intros []). by rewrite Heta.
Qed.

Lemma timestring_no_semi t : 0 <= t < 2 ^ 31 -> split_semi (default "" (ldb_timestring t)) = None.
Proof.
  intros Ht. destruct (gmtime_ok t Ht) as [Hok _]. destruct (gmtime_text t Ht) as [-> _]. cbn [default from_option].
  pose proof (ok_year _ Hok). set (y := tm_year (gmtime t) + 1900).
  pose proof (Z.div_mod y 100 ltac:(lia)). pose proof (Z.mod_pos_bound y 100 ltac:(lia)).
  rewrite print_tm_two by done. destruct Hok. repeat (apply split_semi_two; [lia|]). done.
Qed.

(** The conversions of the library as the WINS database uses them: no
    [ldb_timestring] in the range is [NULL]. *)
Definition ldb_time : TimeCodec.
Proof.
  refine {| time_string t := default "" (ldb_timestring t);
            string_time s := ldb_string_to_time (Some s) |}.
  - intros t Ht. destruct (timestrings_back t Ht) as [Hb _].
    by destruct (gmtime_text t Ht) as [E _]; rewrite E in Hb |- *.
  - apply timestring_no_semi.
Defined.

(** The time strings of LDB read back.  For every time of a 32-bit
    [time_t], the GeneralizedTime string and the UTCTime string both convert
    back to the time they were made from; a [NULL] string converts to 0. *)
Theorem timestrings_roundtrip t : 0 <= t < 2 ^ 31 ->
  ldb_string_to_time (ldb_timestring t) = t /\
  ldb_string_utc_to_time (ldb_timestring_utc t) = t /\
  ldb_string_to_time None = 0.
Proof. intros Ht. destruct (timestrings_back t Ht). done. Qed.

Example timestrings_roundtrip_witness :
  ldb_timestring 1081408812 = Some "20040408072012.0Z" /\
  ldb_string_to_time (ldb_timestring 1081408812) = 1081408812 /\
  ldb_string_utc_to_time (ldb_timestring_utc 1081408812) = 1081408812 /\
  ldb_string_to_time None = 0.
Proof. split; [vm_compute; reflexivity|]. apply (timestrings_roundtrip 1081408812). lia. Defined.

(** ** Comparison of time strings

    Values of attributes without a syntax of their own, as those of the WINS
    database, compare by length and then by bytes
    ([ldb_comparison_binary] of [lib/ldb/common/attrib_handlers.c]). *)

(** The sign of [memcmp] on strings of one length. *)
Fixpoint memcmp (s t : string) : Z :=
  match s, t with
  | String a s, String b t =>
      if byte_of a =? byte_of b then memcmp s t else Z.sgn (byte_of a - byte_of b)
  | _, _ => 0
  end.

Definition ldb_comparison_binary (v1 v2 : string) : Z :=
  if negb (String.length v1 =? String.length v2)%nat
  then s32 (Z.of_nat (String.length v1) - Z.of_nat (String.length v2))
  else memcmp v1 v2.

(** What a search by expiry time relies on: the strings order as the times. *)
Class TimeOrder `{TimeCodec} : Prop :=
  time_order : forall a b, 0 <= a < 2 ^ 31 -> 0 <= b < 2 ^ 31 ->
    (ldb_comparison_binary (time_string a) (time_string b) <= 0 <-> a <= b).

Lemma memcmp_two n m k l : 0 <= n < 100 -> 0 <= m < 100 ->
  memcmp (two n k) (two m l) = if n =? m then memcmp k l else Z.sgn (n - m).
Proof.
  intros Hn Hm. destruct (two_digits n Hn) as (? & ? & En), (two_digits m Hm) as (? & ? & Em).
  unfold two, digit. cbn [memcmp]. rewrite !byte_of_digit by lia.
  repeat match goal with |- context [?a =? ?b] => destruct (Z.eqb_spec a b) end; lia || done.
Qed.

(** The fields of a time as one number, two decimal digits each. *)
Definition tm_key (t : tm) : Z :=
  ((((tm_year t + 1900) * 100 + (tm_mon t + 1)) * 100 + tm_mday t) * 100 + tm_hour t) * 10000 +
  tm_min t * 100 + tm_sec t.

Lemma memcmp_tm t1 t2 : tm_ok t1 -> tm_ok t2 ->
  let text t := two ((tm_year t + 1900) / 100) (two ((tm_year t + 1900) mod 100) (print_tm t ".0Z")) in
  String.length (text t1) = String.length (text t2) /\
  memcmp (text t1) (text t2) = Z.sgn (tm_key t1 - tm_key t2).
Proof.
  intros H1 H2 text. subst text. cbv beta. rewrite !print_tm_two by done. split; [done|].
  destruct H1, H2. unfold tm_key.
  pose proof (Z.div_mod (tm_year t1 + 1900) 100 ltac:(lia)).
  pose proof (Z.div_mod (tm_year t2 + 1900) 100 ltac:(lia)).
  pose proof (Z.mod_pos_bound (tm_year t1 + 1900) 100 ltac:(lia)).
  pose proof (Z.mod_pos_bound (tm_year t2 + 1900) 100 ltac:(lia)).
  rewrite !memcmp_two by lia.
  set (q1 := (tm_year t1 + 1900) / 100) in *. set (q2 := (tm_year t2 + 1900) / 100) in *.
  set (r1 := (tm_year t1 + 1900) mod 100) in *. set (r2 := (tm_year t2 + 1900) mod 100) in *.
  clearbody q1 q2 r1 r2.
  repeat match goal with |- context [?a =? ?b] => destruct (Z.eqb_spec a b) end; try lia.
  simpl. lia.
Qed.

(** Days in order have dates in order. *)
Definition date_key (d : Z) : Z :=
  let '(y, m, day) := civil_from_days d in (y * 100 + (m + 1)) * 100 + day.

Lemma dates_ordered :
  all_from (fun d => date_key d <? date_key (d + 1)) (Z.to_nat 24855) 0 = true.
Proof. vm_compute. reflexivity. Qed.

Lemma date_key_lt d e : 0 <= d -> d < e < 24856 -> date_key d < date_key e.
Proof.
  intros Hd He. replace e with (d + 1 + Z.of_nat (Z.to_nat (e - d - 1))) in * by lia.
  set (n := Z.to_nat (e - d - 1)) in *. clearbody n. induction n as [|n IH].
  - pose proof (all_below _ 24855 d dates_ordered) as H. cbv beta in H.
    replace (d + 1 + Z.of_nat 0) with (d + 1) by lia. specialize (H ltac:(lia)). lia.
  - pose proof (all_below _ 24855 (d + 1 + Z.of_nat n) dates_ordered) as H. cbv beta in H.
    specialize (H ltac:(lia)). specialize (IH ltac:(lia)).
    replace (d + 1 + Z.of_nat (S n)) with (d + 1 + Z.of_nat n + 1) by lia. lia.
Qed.

Lemma tm_key_gmtime t :
  tm_key (gmtime t) = date_key (t / 86400) * 1000000 +
    (t mod 86400 / 3600 * 10000 + t mod 86400 mod 3600 / 60 * 100 + t mod 86400 mod 60).
Proof.
  unfold gmtime, tm_key, date_key. destruct (civil_from_days _) as [[y m] day].
  cbn [tm_year tm_mon tm_mday tm_hour tm_min tm_sec]. lia.
Qed.

Lemma tm_key_lt a b : 0 <= a -> a < b < 2 ^ 31 -> tm_key (gmtime a) < tm_key (gmtime b).
Proof.
  intros Ha Hb. rewrite !tm_key_gmtime.
  pose proof (Z.div_mod a 86400 ltac:(lia)). pose proof (Z.mod_pos_bound a 86400 ltac:(lia)) as Hma.
  pose proof (Z.div_mod b 86400 ltac:(lia)). pose proof (Z.mod_pos_bound b 86400 ltac:(lia)) as Hmb.
  destruct (time_of_day _ Hma) as (? & ? & ? & ?), (time_of_day _ Hmb) as (? & ? & ? & ?).
  destruct (Z.eq_dec (a / 86400) (b / 86400)) as [E|E]; [rewrite E; lia|].
  pose proof (date_key_lt (a / 86400) (b / 86400) ltac:(lia) ltac:(lia)). lia.
Qed.

#[export] Instance ldb_time_order : @TimeOrder ldb_time.
Proof.
  intros a b Ha Hb. destruct (gmtime_text a Ha) as [Ea _], (gmtime_text b Hb) as [Eb _].
  unfold time_string, ldb_time. rewrite Ea, Eb. cbv [from_option id].
  destruct (gmtime_ok a Ha) as [Oa _], (gmtime_ok b Hb) as [Ob _].
  destruct (memcmp_tm _ _ Oa Ob) as [Hl Hm]. unfold ldb_comparison_binary.
  cbv zeta in Hl, Hm. rewrite Hl, Nat.eqb_refl. cbn [negb]. rewrite Hm.
  destruct (Z_lt_le_dec a b); [pose proof (tm_key_lt a b); lia|].
  destruct (Z.eq_dec a b) as [->|]; [lia|]. pose proof (tm_key_lt b a). lia.
Qed.
