(* ===== verification/LdbFilter.v ===== *)
(** * Search filters ([source4/lib/ldb/common/ldb_parse.c])

    The text form of LDAP filters.  A string is the list of its bytes without
    the NUL; a pointer into the text that is parsed is the list of the bytes of
    memory from there on, the terminator and what follows it included, so that a
    read beyond the memory is a result of its own, the outer [None].  The inner
    [None] of a parser is NULL.  Memory allocation succeeds; the classes of
    characters are those of the C locale. *)

From S2P Require Import Prelude.

(** ** The C library *)

Definition isspace (c : Z) : bool := ((9 <=? c) && (c <=? 13)) || (c =? 32).
Definition isdigit (c : Z) : bool := (48 <=? c) && (c <=? 57).
Definition isalpha (c : Z) : bool := ((65 <=? c) && (c <=? 90)) || ((97 <=? c) && (c <=? 122)).
Definition isalnum (c : Z) : bool := isdigit c || isalpha c.
Definition isprint (c : Z) : bool := (32 <=? c) && (c <=? 126).
Definition toupper (c : Z) : Z := if (97 <=? c) && (c <=? 122) then c - 32 else c.
Definition tolower (c : Z) : Z := if (65 <=? c) && (c <=? 90) then c + 32 else c.

Fixpoint strcasecmp (a b : list Z) : Z :=
  match a, b with
  | [], [] => 0
  | x :: _, [] => tolower x
  | [], y :: _ => - tolower y
  | x :: a, y :: b =>
    let d := tolower x - tolower y in
    if d =? 0 then strcasecmp a b else d
  end.

(** [strchr(set, c) != NULL]; the terminator of [set] counts. *)
Definition strchr (set : list Z) (c : Z) : bool := (c =? 0) || existsb (Z.eqb c) set.

(** A hexadecimal digit. *)
Definition xdigit (c : Z) : option Z :=
  if isdigit c then Some (c - 48)
  else if (65 <=? c) && (c <=? 70) then Some (c - 55)
  else if (97 <=? c) && (c <=? 102) then Some (c - 87)
  else None.

(** At most [n] digits, [acc] read before; [None] when there is none. *)
Fixpoint xdigits (n : nat) (acc : Z) (s : list Z) : option Z :=
  match n, s with
  | S n, c :: s =>
    match xdigit c with
    | Some d => Some (default (16 * acc + d) (xdigits n (16 * acc + d) s))
    | None => None
    end
  | _, _ => None
  end.

Fixpoint drop_while (f : Z -> bool) (s : list Z) : list Z :=
  match s with
  | c :: s' => if f c then drop_while f s' else s
  | [] => []
  end.

(** [sscanf(s, "%02X", &c) == 1]: white space, then a number of two characters
    at most, its sign or prefix included. *)
Definition sscanf_02X (s : list Z) : option Z :=
  let s := drop_while isspace s in
  match s with
  | [] => None
  | c :: r =>
    if c =? 43 then xdigits 1 0 r
    else if c =? 45 then (fun v => u32 (- v)) <$> xdigits 1 0 r
    else if (c =? 48) && (match r with x :: _ => (x =? 120) || (x =? 88) | [] => false end) then None
    else xdigits 2 0 s
  end.

(** [snprintf(p, 4, "\\%02X", c)] for a byte. *)
Definition print_xdigit (d : Z) : Z := if d <? 10 then 48 + d else 55 + d.
Definition print_02X (c : Z) : list Z := [92; print_xdigit (c / 16); print_xdigit (c mod 16)].

Definition BACKSLASH : Z := 92.
Definition STAR : Z := 42.
Definition LPAREN : Z := 40.
Definition RPAREN : Z := 41.
Definition COLON : Z := 58.
Definition EQUALS : Z := 61.

(** ** Data ([ldb.h]) *)

(** Values are bytes, [None] of a value its NULL data. *)
Inductive ldb_parse_op : Set :=
  | LDB_OP_EQUALITY | LDB_OP_GREATER | LDB_OP_LESS | LDB_OP_APPROX | LDB_OP_EXTENDED.

#[warnings="-register-all"]
Inductive parse_tree : Set :=
  | Op_and (elements : list parse_tree)
  | Op_or (elements : list parse_tree)
  | Op_not (child : parse_tree)
  | Op_equality (attr value : list Z)
  | Op_substring (attr : list Z) (start_with_wildcard end_with_wildcard : bool) (chunks : list (list Z))
  | Op_greater (attr value : list Z)
  | Op_less (attr value : list Z)
  | Op_present (attr : list Z)
  | Op_approx (attr value : list Z)
  | Op_extended (attr : option (list Z)) (dnAttributes : bool) (rule_id : option (list Z)) (value : list Z).

(** ** Values *)

Fixpoint ldb_binary_decode (str : list Z) : option (list Z) :=
  match str with
  | [] => Some []
  | c :: r =>
    if c =? BACKSLASH then
      match sscanf_02X r with
      | None => None
      | Some v =>
        rest ← (match r with _ :: _ :: r => ldb_binary_decode r | _ => Some [] end);
        Some (u8 v :: rest)
      end
    else rest ← ldb_binary_decode r; Some (c :: rest)
  end.

(** The bytes that are escaped: blank, and [*()\&|!] and the quote. *)
Definition must_escape (c : Z) : bool :=
  negb (isprint c) || strchr [32; 42; 40; 41; 92; 38; 124; 33; 34] c.

Definition encode_byte (c : Z) : list Z := if must_escape c then print_02X c else [c].

Definition ldb_binary_encode (val : list Z) : list Z := concat (map encode_byte val).

Definition ldb_binary_encode_string (s : list Z) : list Z := ldb_binary_encode s.

(** The index of the first star that is not escaped. *)
Fixpoint ldb_parse_find_wildcard (value : list Z) : option nat :=
  match value with
  | [] => None
  | c :: r =>
    if c =? BACKSLASH then
      match r with
      | [] => None
      | _ :: r => (fun k => S (S k)) <$> ldb_parse_find_wildcard r
      end
    else if c =? STAR then Some 0%nat
    else S <$> ldb_parse_find_wildcard r
  end.

(** The pieces between the stars; [None] when one of them does not decode. *)
Fixpoint wildcard_loop (fuel : nat) (wc : list Z) : option (list (list Z)) :=
  match fuel with
  | O => None
  | S fuel =>
    match wc with
    | [] => Some []
    | _ :: _ =>
      match ldb_parse_find_wildcard wc with
      | Some O => wildcard_loop fuel (tail wc)
      | Some k =>
        chunk ← ldb_binary_decode (take k wc);
        rest ← wildcard_loop fuel (drop (S k) wc);
        Some (chunk :: rest)
      | None => chunk ← ldb_binary_decode wc; Some [chunk]
      end
    end
  end.

(** [None] also when there is no piece. *)
Definition ldb_wildcard_decode (s : list Z) : option (list (list Z)) :=
  match wildcard_loop (S (length s)) s with
  | Some (c :: l) => Some (c :: l)
  | _ => None
  end.

(** ** Pointers *)

(** [while (f( *p)) p++]: what was passed, and the pointer. *)
Fixpoint scan (f : Z -> bool) (p : list Z) : option (list Z * list Z) :=
  match p with
  | [] => None
  | c :: q => if f c then '(v, r) ← scan f q; Some (c :: v, r) else Some ([], p)
  end.

(** [strstr(p, ":=")]: what lies before, and the pointer, or NULL. *)
Fixpoint strstr_assign (p : list Z) : option (option (list Z * list Z)) :=
  match p with
  | [] => None
  | c :: q =>
    if c =? 0 then Some None
    else
      match q with
      | [] => None
      | c' :: _ =>
        if (c =? COLON) && (c' =? EQUALS) then Some (Some ([], p))
        else
          r ← strstr_assign q;
          Some (match r with None => None | Some (v, q) => Some (c :: v, q) end)
      end
  end.

(** The end of a value; [prev] is [*(p - 1)]. *)
Fixpoint scan_value (prev : Z) (p : list Z) : option (list Z * list Z) :=
  match p with
  | [] => None
  | c :: q =>
    if negb (c =? 0) && (negb (c =? RPAREN) || ((c =? RPAREN) && (prev =? BACKSLASH)))
    then '(v, r) ← scan_value c q; Some (c :: v, r)
    else Some ([], p)
  end.

Definition strip_trailing (v : list Z) : list Z := reverse (drop_while isspace (reverse v)).

(** ** Simple filters *)

Definition attr_char (c : Z) : bool := isalnum c || (c =? 45).

(** The operation at a pointer, with the pointer to its last character. *)
Definition op_at (p : list Z) : option (option ldb_parse_op * list Z) :=
  c ← head p;
  if c =? EQUALS then Some (Some LDB_OP_EQUALITY, p)
  else
    c1 ← head (tail p);
    Some (if c1 =? EQUALS then
            if c =? 60 then (Some LDB_OP_LESS, tail p)
            else if c =? 62 then (Some LDB_OP_GREATER, tail p)
            else if c =? 126 then (Some LDB_OP_APPROX, tail p)
            else if c =? COLON then (Some LDB_OP_EXTENDED, tail p)
            else (None, p)
          else (None, p)).

(** The operation, the name, the value, and the pointer; NULL for 0. *)
Definition ldb_parse_filtertype (s : list Z)
  : option (option (ldb_parse_op * list Z * list Z * list Z)) :=
  c ← head s;
  let '(n0, p) := if c =? 64 then ([c], tail s) else ([], s) in
  '(n1, p) ← scan attr_char p;
  c ← head p;
  r ← (if c =? COLON then strstr_assign p else Some (Some ([], p)));
  match r with
  | None => Some None
  | Some (n2, p) =>
    '(_, p) ← scan isspace p;
    c ← head p;
    if negb (strchr [61; 60; 62; 126; 58] c) then Some None
    else
      '(filter, p) ← op_at p;
      match filter with
      | None => Some None
      | Some filter =>
        prev ← head p;
        '(spaces, p) ← scan isspace (tail p);
        '(v, p) ← scan_value (List.last spaces prev) p;
        Some (Some (filter, n0 ++ n1 ++ n2, strip_trailing v, p))
      end
  end.

(** The text before and after the first colon. *)
Fixpoint cut_colon (s : list Z) : option (list Z * list Z) :=
  match s with
  | [] => None
  | c :: s =>
    if c =? COLON then Some ([], s)
    else '(a, b) ← cut_colon s; Some (c :: a, b)
  end.

Definition ldb_parse_extended (attr value : list Z) : option parse_tree :=
  v ← ldb_binary_decode value;
  '(a, r) ← cut_colon attr;
  let '(flag, rule) := match cut_colon r with
                       | Some (flag, rule) => (flag, Some rule)
                       | None => (r, None)
                       end in
  if bool_decide (flag = [100; 110])
  then Some (Op_extended (Some a) true rule v)
  else Some (Op_extended (Some a) false (Some flag) v).

Definition simple_of (op : ldb_parse_op) (attr value : list Z) : option parse_tree :=
  match op with
  | LDB_OP_EQUALITY =>
    if bool_decide (value = [STAR]) then Some (Op_present attr)
    else if bool_decide (is_Some (ldb_parse_find_wildcard value)) then
      chunks ← ldb_wildcard_decode value;
      Some (Op_substring attr (bool_decide (head value = Some STAR)) (bool_decide (List.last value 0 = STAR)) chunks)
    else v ← ldb_binary_decode value; Some (Op_equality attr v)
  | LDB_OP_GREATER => v ← ldb_binary_decode value; Some (Op_greater attr v)
  | LDB_OP_LESS => v ← ldb_binary_decode value; Some (Op_less attr v)
  | LDB_OP_APPROX => v ← ldb_binary_decode value; Some (Op_approx attr v)
  | LDB_OP_EXTENDED => ldb_parse_extended attr value
  end.

(** The pointer moves also when a value does not decode. *)
Definition ldb_parse_simple (s : list Z) : option (option parse_tree * list Z) :=
  r ← ldb_parse_filtertype s;
  Some (match r with
        | None => (None, s)
        | Some (op, attr, value, p) => (simple_of op attr value, p)
        end).

(** ** Filters *)

(** [fuel] bounds the calls below this one. *)
Fixpoint ldb_parse_filter (fuel : nat) (s : list Z) : option (option parse_tree * list Z) :=
  match fuel with
  | O => None
  | S fuel =>
    c ← head s;
    if negb (c =? LPAREN) then Some (None, s)
    else
      '(ret, p) ← ldb_parse_filtercomp fuel (tail s);
      c ← head p;
      if negb (c =? RPAREN) then Some (None, s)
      else '(_, p) ← scan isspace (tail p); Some (ret, p)
  end
with ldb_parse_filtercomp (fuel : nat) (s : list Z) : option (option parse_tree * list Z) :=
  match fuel with
  | O => None
  | S fuel =>
    '(_, p) ← scan isspace s;
    c ← head p;
    if (c =? 38) || (c =? 124) then ldb_parse_filterlist fuel p
    else if c =? 33 then ldb_parse_not fuel p
    else if (c =? LPAREN) || (c =? RPAREN) then Some (None, s)
    else ldb_parse_simple p
  end
with ldb_parse_filterlist (fuel : nat) (s : list Z) : option (option parse_tree * list Z) :=
  match fuel with
  | O => None
  | S fuel =>
    c ← head s;
    if negb (c =? 38) && negb (c =? 124) then Some (None, s)
    else
      '(_, p) ← scan isspace (tail s);
      '(first, p) ← ldb_parse_filter fuel p;
      match first with
      | None => Some (None, s)
      | Some first =>
        '(_, p) ← scan isspace p;
        '(rest, p) ← filterlist_loop fuel p;
        Some (Some (if c =? 38 then Op_and (first :: rest) else Op_or (first :: rest)), p)
      end
  end
with filterlist_loop (fuel : nat) (p : list Z) : option (list parse_tree * list Z) :=
  match fuel with
  | O => None
  | S fuel =>
    c ← head p;
    if c =? 0 then Some ([], p)
    else
      '(next, p) ← ldb_parse_filter fuel p;
      match next with
      | None => Some ([], p)
      | Some next =>
        '(_, p) ← scan isspace p;
        '(rest, p) ← filterlist_loop fuel p;
        Some (next :: rest, p)
      end
  end
with ldb_parse_not (fuel : nat) (s : list Z) : option (option parse_tree * list Z) :=
  match fuel with
  | O => None
  | S fuel =>
    c ← head s;
    if negb (c =? 33) then Some (None, s)
    else
    '(child, p) ← ldb_parse_filter fuel (tail s);
    Some (match child with None => (None, s) | Some t => (Some (Op_not t), p) end)
  end.

(** The filter for no filter: objectClass or distinguishedName is present. *)
Definition str_objectClass : list Z := [111; 98; 106; 101; 99; 116; 67; 108; 97; 115; 115].
Definition str_distinguishedName : list Z :=
  [100; 105; 115; 116; 105; 110; 103; 117; 105; 115; 104; 101; 100; 78; 97; 109; 101].
Definition any_object : list Z :=
  [LPAREN; 124; LPAREN] ++ str_objectClass ++ [EQUALS; STAR; RPAREN; LPAREN] ++ str_distinguishedName
  ++ [EQUALS; STAR; RPAREN; RPAREN; 0].

Definition ldb_parse_tree_fuel (s : list Z) : nat := 4 * length s + 4.

(** [ldb_parse_tree] of a pointer that may be NULL. *)
Definition ldb_parse_tree (s : option (list Z)) : option (option parse_tree) :=
  let s := match s with
           | None => any_object
           | Some s => if bool_decide (head s = Some 0) then any_object else s
           end in
  '(_, s) ← scan isspace s;
  c ← head s;
  if c =? LPAREN then fst <$> ldb_parse_filter (ldb_parse_tree_fuel s) s
  else fst <$> ldb_parse_simple s.

(** ** Printing *)

Definition paren (s : list Z) : list Z := LPAREN :: s ++ [RPAREN].

(** The chunks with a star after each but the last, and after it too for
    [end_with_wildcard]. *)
Fixpoint print_chunks (end_with_wildcard : bool) (chunks : list (list Z)) : list Z :=
  match chunks with
  | [] => []
  | c :: l =>
    ldb_binary_encode c
    ++ (if negb (bool_decide (l = [])) || end_with_wildcard then [STAR] else [])
    ++ print_chunks end_with_wildcard l
  end.

Fixpoint ldb_filter_from_tree (t : parse_tree) : list Z :=
  match t with
  | Op_and l => paren (38 :: concat (map ldb_filter_from_tree l))
  | Op_or l => paren (124 :: concat (map ldb_filter_from_tree l))
  | Op_not t => paren (33 :: ldb_filter_from_tree t)
  | Op_equality a v => paren (a ++ [EQUALS] ++ ldb_binary_encode v)
  | Op_substring a start end_ chunks =>
    paren (a ++ [EQUALS] ++ (if start : bool then [STAR] else []) ++ print_chunks end_ chunks)
  | Op_greater a v => paren (a ++ [62; EQUALS] ++ ldb_binary_encode v)
  | Op_less a v => paren (a ++ [60; EQUALS] ++ ldb_binary_encode v)
  | Op_present a => paren (a ++ [EQUALS; STAR])
  | Op_approx a v => paren (a ++ [126; EQUALS] ++ ldb_binary_encode v)
  | Op_extended a dn rule v =>
    paren (default [] a ++ (if dn : bool then [COLON; 100; 110] else [])
           ++ (match rule with Some r => COLON :: r | None => [] end)
           ++ [COLON; EQUALS] ++ ldb_binary_encode v)
  end.

(** ** Renaming an attribute *)

Definition ldb_attr_cmp (a b : list Z) : Z := strcasecmp a b.

Definition rename (attr replace a : list Z) : list Z := if ldb_attr_cmp a attr =? 0 then replace else a.

Fixpoint ldb_parse_tree_attr_replace (t : parse_tree) (attr replace : list Z) : parse_tree :=
  match t with
  | Op_and l => Op_and (map (fun t => ldb_parse_tree_attr_replace t attr replace) l)
  | Op_or l => Op_or (map (fun t => ldb_parse_tree_attr_replace t attr replace) l)
  | Op_not t => Op_not (ldb_parse_tree_attr_replace t attr replace)
  | Op_equality a v => Op_equality (rename attr replace a) v
  | Op_greater a v => Op_greater (rename attr replace a) v
  | Op_less a v => Op_less (rename attr replace a) v
  | Op_approx a v => Op_approx (rename attr replace a) v
  | Op_substring a s e c => Op_substring (rename attr replace a) s e c
  | Op_present a => Op_present (rename attr replace a)
  | Op_extended a dn rule v => Op_extended (rename attr replace <$> a) dn rule v
  end.
