(* ===== verification/LdbFilterSpec.v ===== *)
(** * Search filters: round trip, bounds, and a list that is cut short

    A filter that is printed is read back; the parser stays in the text whatever
    the text is; and a list of filters with a value that does not decode. *)

From S2P Require Import Prelude CLib LdbFilter.

(** ** Values that are printed are read back *)

Lemma scan_app f v c r : forallb f v = true -> f c = false -> scan f (v ++ c :: r) = Some (v, c :: r).
Proof.
  intros Hv Hc. induction v as [|x v IH]; simpl in *; [by rewrite Hc|].
  apply andb_true_iff in Hv as [-> Hv]. by rewrite (IH Hv).
Qed.

Lemma scan_none f c r : f c = false -> scan f (c :: r) = Some ([], c :: r).
Proof. intros Hc. simpl. by rewrite Hc. Qed.

Definition is_byte (c : Z) : Prop := 0 <= c < 256.

Lemma print_xdigit_ok d : 0 <= d < 16 ->
  let h := print_xdigit d in
  xdigit h = Some d /\ isspace h = false /\ (h =? 43) = false /\ (h =? 45) = false
  /\ (h =? 120) = false /\ (h =? 88) = false /\ h <> 0 /\ h <> RPAREN /\ h <> STAR /\ h <> BACKSLASH.
Proof.
  intros Hd. unfold print_xdigit, xdigit, isdigit, isspace, RPAREN, STAR, BACKSLASH.
  destruct (Z.ltb_spec d 10); repeat split; try lia.
  - replace ((48 <=? 48 + d) && (48 + d <=? 57)) with true by lia. f_equal. lia.
  - replace ((48 <=? 55 + d) && (55 + d <=? 57)) with false by lia.
    replace ((65 <=? 55 + d) && (55 + d <=? 70)) with true by lia. f_equal. lia.
Qed.

Lemma sscanf_print c s : is_byte c ->
  sscanf_02X (print_xdigit (c / 16) :: print_xdigit (c mod 16) :: s) = Some c.
Proof.
  intros Hc. assert (0 <= c / 16 < 16 /\ 0 <= c mod 16 < 16) as [H1 H2].
  { unfold is_byte in Hc. split; [|apply Z.mod_pos_bound; lia].
    split; [apply Z.div_pos; lia|apply Z.div_lt_upper_bound; lia]. }
  destruct (print_xdigit_ok _ H1) as (E1 & S1 & P1 & M1 & _).
  destruct (print_xdigit_ok _ H2) as (E2 & _ & _ & _ & X2 & Y2 & _).
  unfold sscanf_02X. simpl. rewrite S1, P1, M1, X2, Y2, andb_false_r, E1, E2. simpl.
  f_equal. pose proof (Z.div_mod c 16). lia.
Qed.

Lemma plain_byte c : must_escape c = false ->
  c <> BACKSLASH /\ c <> STAR /\ c <> LPAREN /\ c <> RPAREN /\ c <> 0 /\ isspace c = false.
Proof.
  unfold must_escape, isprint, strchr, isspace, BACKSLASH, STAR, LPAREN, RPAREN. simpl. intros H. bool_hyps. lia.
Qed.

Lemma decode_byte c s : is_byte c ->
  ldb_binary_decode (encode_byte c ++ s) = (rest ← ldb_binary_decode s; Some (c :: rest)).
Proof.
  intros Hc. unfold encode_byte. destruct (must_escape c) eqn:E.
  - cbn [app print_02X]. cbn [ldb_binary_decode]. rewrite sscanf_print by done.
    replace (92 =? BACKSLASH) with true by done. unfold u8. by rewrite Z.mod_small by done.
  - apply plain_byte in E as (Hb & _). simpl. by rewrite (proj2 (Z.eqb_neq _ _) Hb).
Qed.

Lemma decode_encode v : Forall is_byte v -> ldb_binary_decode (ldb_binary_encode v) = Some v.
Proof.
  unfold ldb_binary_encode. induction 1 as [|c v Hc _ IH]; [done|]. cbn [map concat].
  by rewrite decode_byte, IH.
Qed.

(** The characters of an encoded value. *)
Definition enc_char (c : Z) : Prop := c <> 0 /\ c <> RPAREN /\ c <> STAR /\ isspace c = false.

Lemma encode_byte_chars c : is_byte c -> Forall enc_char (encode_byte c).
Proof.
  intros Hc. unfold encode_byte. destruct (must_escape c) eqn:E.
  - assert (0 <= c / 16 < 16 /\ 0 <= c mod 16 < 16) as [H1 H2].
    { unfold is_byte in Hc. split; [|apply Z.mod_pos_bound; lia].
      split; [apply Z.div_pos; lia|apply Z.div_lt_upper_bound; lia]. }
    destruct (print_xdigit_ok _ H1) as (_ & S1 & _ & _ & _ & _ & N1 & R1 & T1 & _).
    destruct (print_xdigit_ok _ H2) as (_ & S2 & _ & _ & _ & _ & N2 & R2 & T2 & _).
    by repeat constructor.
  - apply plain_byte in E as (? & ? & ? & ? & ? & ?). by repeat constructor.
Qed.

Lemma encode_chars v : Forall is_byte v -> Forall enc_char (ldb_binary_encode v).
Proof.
  unfold ldb_binary_encode. induction 1 as [|c v Hc _ IH]; simpl; [constructor|].
  apply Forall_app. split; [by apply encode_byte_chars|done].
Qed.

(** An encoded byte does not end in a backslash. *)
Lemma encode_byte_snoc c : is_byte c -> exists l x, encode_byte c = l ++ [x] /\ x <> BACKSLASH.
Proof.
  intros Hc. unfold encode_byte. destruct (must_escape c) eqn:E.
  - exists [92; print_xdigit (c / 16)], (print_xdigit (c mod 16)). split; [done|].
    apply print_xdigit_ok. apply Z.mod_pos_bound. lia.
  - exists [], c. split; [done|]. by apply plain_byte.
Qed.

Lemma encode_snoc v : Forall is_byte v -> v <> [] ->
  exists l x, ldb_binary_encode v = l ++ [x] /\ x <> BACKSLASH /\ enc_char x.
Proof.
  intros Hv Hne. destruct v as [|c v _] using rev_ind; [done|].
  pose proof (encode_chars _ Hv) as Hch. apply Forall_app in Hv as [Hv Hc]. apply Forall_cons in Hc as [Hc _].
  destruct (encode_byte_snoc c Hc) as (l & x & E & Hx). unfold ldb_binary_encode in *.
  rewrite map_app, concat_app in *. simpl in *. rewrite app_nil_r, E, app_assoc in *.
  eexists _, x. split; [done|]. split; [done|]. apply Forall_app in Hch as [_ Hch]. by apply Forall_cons in Hch as [Hch _].
Qed.

(** *** Stars *)

Lemma find_wildcard_byte c s : is_byte c ->
  ldb_parse_find_wildcard (encode_byte c ++ s)
  = (fun k => (length (encode_byte c) + k)%nat) <$> ldb_parse_find_wildcard s.
Proof.
  intros Hc. pose proof (encode_byte_chars c Hc) as Hch. unfold encode_byte in *.
  destruct (must_escape c) eqn:E.
  - cbn [print_02X app ldb_parse_find_wildcard]. replace (92 =? BACKSLASH) with true by done.
    apply Forall_cons in Hch as [_ Hch]. apply Forall_cons in Hch as [_ Hch]. apply Forall_cons in Hch as [Hch _].
    destruct Hch as (_ & _ & Hs & _).
    assert (print_xdigit (c mod 16) <> BACKSLASH) as Hb
      by (apply print_xdigit_ok; apply Z.mod_pos_bound; lia).
    rewrite (proj2 (Z.eqb_neq _ _) Hb), (proj2 (Z.eqb_neq _ _) Hs).
    by destruct (ldb_parse_find_wildcard s).
  - apply plain_byte in E as (Hb & Hs & _). simpl.
    by rewrite (proj2 (Z.eqb_neq _ _) Hb), (proj2 (Z.eqb_neq _ _) Hs).
Qed.

Lemma find_wildcard_encode v s : Forall is_byte v ->
  ldb_parse_find_wildcard (ldb_binary_encode v ++ s)
  = (fun k => (length (ldb_binary_encode v) + k)%nat) <$> ldb_parse_find_wildcard s.
Proof.
  unfold ldb_binary_encode. induction 1 as [|c v Hc _ IH]; simpl.
  - by destruct (ldb_parse_find_wildcard s).
  - rewrite <- app_assoc, find_wildcard_byte, IH, length_app by done.
    destruct (ldb_parse_find_wildcard s); simpl; [|done]. f_equal. lia.
Qed.

Lemma find_wildcard_star s : ldb_parse_find_wildcard (STAR :: s) = Some 0%nat.
Proof. done. Qed.

Definition chunk_ok (c : list Z) : Prop := Forall is_byte c /\ c <> [].

Lemma encode_nonempty c : chunk_ok c -> exists x l, ldb_binary_encode c = x :: l /\ enc_char x.
Proof.
  intros [Hc Hne]. pose proof (encode_chars c Hc) as Hch. destruct c as [|x c]; [done|].
  unfold ldb_binary_encode in *. simpl in *. unfold encode_byte in *.
  destruct (must_escape x); simpl in *; apply Forall_cons in Hch as [Hx _]; by eauto.
Qed.

Lemma wildcard_loop_chunks fuel end_ chunks :
  Forall chunk_ok chunks -> (length (print_chunks end_ chunks) < fuel)%nat ->
  wildcard_loop fuel (print_chunks end_ chunks) = Some chunks.
Proof.
  intros Hc. revert fuel. induction Hc as [|c l Hc Hl IH]; intros [|fuel] Hf; [lia|done|lia|].
  cbn [print_chunks] in *. destruct (encode_nonempty c Hc) as (x & e & Ee & Hx). destruct Hc as [Hb Hne].
  set (tl := print_chunks end_ l) in *.
  assert (length (ldb_binary_encode c) <> 0)%nat as Hlen by (rewrite Ee; simpl; lia).
  destruct (negb (bool_decide (l = [])) || end_) eqn:Estar.
  - assert (ldb_parse_find_wildcard (ldb_binary_encode c ++ [STAR] ++ tl)
      = Some (length (ldb_binary_encode c))) as Ef.
    { rewrite find_wildcard_encode by done. simpl. f_equal. lia. }
    cbn [wildcard_loop]. destruct (ldb_binary_encode c ++ [STAR] ++ tl) as [|y w] eqn:Ew; [by rewrite Ee in Ew|].
    rewrite Ef. destruct (length (ldb_binary_encode c)) as [|k] eqn:Ek; [lia|]. rewrite <- Ew.
    rewrite <- Ek, take_app_length, decode_encode by done. simpl.
    replace (drop (S (length (ldb_binary_encode c))) (ldb_binary_encode c ++ STAR :: tl)) with tl.
    + rewrite IH; [done|]. rewrite <- Ew, !length_app in Hf. simpl in Hf. lia.
    + replace (S (length (ldb_binary_encode c))) with (length (ldb_binary_encode c ++ [STAR]))
        by (rewrite length_app; simpl; lia).
      by rewrite (app_assoc _ [STAR] tl : _ ++ STAR :: tl = _), drop_app_length.
  - apply orb_false_iff in Estar as [El ->]. apply negb_false_iff, bool_decide_eq_true in El.
    unfold tl in *. subst l. simpl. rewrite app_nil_r. rewrite Ee. rewrite <- Ee.
    pose proof (find_wildcard_encode c [] Hb) as Ef. rewrite app_nil_r in Ef. rewrite Ef. simpl.
    by rewrite decode_encode.
Qed.

(** ** The text of a value, an attribute and an operation *)

(** The text of a value: it does not end early, and nothing is stripped. *)
Record value_text (v : list Z) : Prop := {
  vt_chars : Forall (fun c => c <> 0 /\ c <> RPAREN /\ isspace c = false) v;
  vt_last : List.last v 0 <> BACKSLASH
}.

Lemma last_cons_default (x d : Z) v : List.last (x :: v) d = List.last v x.
Proof. revert x. induction v as [|y v IH]; intros x; [done|]. simpl in *. destruct v; [done|]. apply IH. Qed.

Lemma scan_value_text prev v r : Forall (fun c => c <> 0 /\ c <> RPAREN /\ isspace c = false) v ->
  List.last v prev <> BACKSLASH -> scan_value prev (v ++ RPAREN :: r) = Some (v, RPAREN :: r).
Proof.
  intros Hv. revert prev. induction Hv as [|c v (H0 & Hr & _) _ IH]; intros prev Hl; simpl.
  - simpl in Hl. by rewrite (proj2 (Z.eqb_neq _ _) Hl).
  - rewrite (proj2 (Z.eqb_neq _ _) H0), (proj2 (Z.eqb_neq _ _) Hr). simpl.
    rewrite IH; [done|]. by rewrite last_cons_default in Hl.
Qed.

Lemma strip_text v : Forall (fun c => c <> 0 /\ c <> RPAREN /\ isspace c = false) v -> strip_trailing v = v.
Proof.
  intros Hv. unfold strip_trailing. destruct v as [|c v _] using rev_ind; [done|].
  apply Forall_app in Hv as [_ Hc]. apply Forall_cons in Hc as [(_ & _ & Hc) _].
  rewrite reverse_app, reverse_singleton. simpl. rewrite Hc. by rewrite reverse_cons, reverse_involutive.
Qed.

Definition attr_ok (a : list Z) : bool :=
  match a with
  | c :: r => ((c =? 64) || attr_char c) && forallb attr_char r
  | [] => true
  end.

Definition op_text (op : ldb_parse_op) : list Z :=
  match op with
  | LDB_OP_EQUALITY => [EQUALS]
  | LDB_OP_GREATER => [62; EQUALS]
  | LDB_OP_LESS => [60; EQUALS]
  | LDB_OP_APPROX => [126; EQUALS]
  | LDB_OP_EXTENDED => [COLON; EQUALS]
  end.

(** What may follow the attribute in the name of an extended match. *)
Definition ext_text (op : ldb_parse_op) (x : list Z) : Prop :=
  match op with
  | LDB_OP_EXTENDED => exists y, x = COLON :: y /\ forall r,
      strstr_assign (x ++ COLON :: EQUALS :: r) = Some (Some (x, COLON :: EQUALS :: r))
  | _ => x = []
  end.

Lemma scan_name a c r : attr_ok a = true -> attr_char c = false -> c <> 64 ->
  exists n0 n1 p, a = n0 ++ n1 /\ (exists h, head (a ++ c :: r) = Some h
    /\ (if h =? 64 then ([h], tail (a ++ c :: r)) else ([], a ++ c :: r)) = (n0, p))
  /\ scan attr_char p = Some (n1, c :: r).
Proof.
  intros Ha Hc H64. destruct a as [|x a]; simpl in *.
  - exists [], [], (c :: r). split; [done|]. split; [|by rewrite scan_none].
    exists c. by rewrite (proj2 (Z.eqb_neq _ _) H64).
  - apply andb_true_iff in Ha as [Hx Ha]. destruct (Z.eqb_spec x 64) as [->|Hn].
    + exists [64], a, (a ++ c :: r). split; [done|]. split; [by exists 64|]. by apply scan_app.
    + simpl in Hx. exists [], (x :: a), (x :: a ++ c :: r). split; [done|]. split.
      * exists x. by rewrite (proj2 (Z.eqb_neq _ _) Hn).
      * rewrite app_comm_cons. apply scan_app; [|done]. simpl. by rewrite Hx.
Qed.

Lemma filtertype_text op a x v r : attr_ok a = true -> ext_text op x -> value_text v ->
  ldb_parse_filtertype (a ++ x ++ op_text op ++ v ++ RPAREN :: r)
  = Some (Some (op, a ++ x, v, RPAREN :: r)).
Proof.
  intros Ha Hx [Hv Hl].
  assert (exists c q, x ++ op_text op ++ v ++ RPAREN :: r = c :: q /\ attr_char c = false /\ c <> 64) as (c & q & E & Hc & H64).
  { destruct op; simpl in Hx; [subst x; by eexists _, _..|]. destruct Hx as (y & -> & _). by eexists _, _. }
  rewrite E. destruct (scan_name a c q Ha Hc H64) as (n0 & n1 & p & Ea & (h & Hh & Hif) & Hs).
  unfold ldb_parse_filtertype. rewrite Hh. simpl. rewrite Hif. rewrite Hs. simpl. rewrite <- E. clear Hif Hs Hh.
  assert (forall c', isspace c' = false -> scan isspace (c' :: q) = Some ([], c' :: q)) as Hsp.
  { intros c' Hc'. by apply scan_none. }
  assert (forall prev, (prev = EQUALS) -> scan_value prev (v ++ RPAREN :: r) = Some (v, RPAREN :: r)) as Hval.
  { intros prev ->. apply scan_value_text; [done|]. destruct v as [|z v]; [done|].
    rewrite last_cons_default in *. done. }
  assert (scan isspace (v ++ RPAREN :: r) = Some ([], v ++ RPAREN :: r)) as Hspv.
  { destruct v as [|z v]; [by apply scan_none|]. apply Forall_cons in Hv as [(_ & _ & Hz) _]. by apply scan_none. }
  destruct op; simpl in Hx.
  1-4: subst x; simpl in *; injection E as <- <-; simpl; rewrite Hspv; simpl; rewrite Hval by done; simpl;
    rewrite strip_text by done; by rewrite !app_nil_r, Ea.
  destruct Hx as (y & -> & Hstr). simpl in E. injection E as <- <-. simpl. cbn [op_text app] in Hstr |- *.
  pose proof (Hstr (v ++ RPAREN :: r)) as Hs. simpl in Hs. rewrite Hs. simpl.
  rewrite Hspv. simpl. rewrite Hval by done. simpl. rewrite strip_text by done. by rewrite app_assoc, Ea.
Qed.

(** ** Filters that are printed are read back *)

Lemma last_app_cons (a : list Z) x b d : List.last (a ++ x :: b) d = List.last (x :: b) d.
Proof.
  induction a as [|y a IH]; [done|]. rewrite <- IH. simpl. by destruct a.
Qed.

Lemma last_nonempty (a : list Z) d d' : a <> [] -> List.last a d = List.last a d'.
Proof. destruct a as [|x a]; [done|]. intros _. by rewrite !last_cons_default. Qed.

Definition text_char (c : Z) : Prop := c <> 0 /\ c <> RPAREN /\ isspace c = false.

Lemma enc_char_text v : Forall enc_char v -> Forall text_char v.
Proof. intros H. eapply Forall_impl; [exact H|]. by intros c (? & ? & _ & ?). Qed.

Lemma encode_text v : Forall is_byte v -> value_text (ldb_binary_encode v).
Proof.
  intros Hv. split; [by apply enc_char_text, encode_chars|].
  destruct (decide (v = [])) as [->|Hne]; [done|]. destruct (encode_snoc v Hv Hne) as (l & x & -> & Hx & _).
  by rewrite List.last_last.
Qed.

(** *** The value of a substring match *)

Definition substring_text (start end_ : bool) (chunks : list (list Z)) : list Z :=
  (if start then [STAR] else []) ++ print_chunks end_ chunks.

Definition chunks_ok (start end_ : bool) (chunks : list (list Z)) : Prop :=
  Forall chunk_ok chunks /\ chunks <> [] /\ (start || end_ || (1 <? length chunks)%nat) = true.

Lemma print_chunks_head end_ chunks : Forall chunk_ok chunks -> chunks <> [] ->
  exists x l, print_chunks end_ chunks = x :: l /\ enc_char x.
Proof.
  intros [|c l Hc Hl] Hne; [done|]. simpl. destruct (encode_nonempty c Hc) as (x & e & -> & Hx). by eexists _, _.
Qed.

Lemma print_chunks_last (end_ : bool) chunks d : Forall chunk_ok chunks -> chunks <> [] ->
  if end_ then List.last (print_chunks end_ chunks) d = STAR
  else List.last (print_chunks end_ chunks) d <> STAR /\ List.last (print_chunks end_ chunks) d <> BACKSLASH.
Proof.
  induction 1 as [|c l Hc Hl IH]; [done|]. intros _. cbn [print_chunks]. destruct l as [|c' l].
  - simpl. destruct end_; simpl.
    + by rewrite last_app_cons.
    + rewrite app_nil_r. destruct Hc as [Hb Hne]. destruct (encode_snoc c Hb Hne) as (e & x & -> & Hx & (_ & _ & Hs & _)).
      by rewrite List.last_last.
  - assert (print_chunks end_ (c' :: l) <> []) as Hne.
    { destruct (print_chunks_head end_ (c' :: l) Hl) as (x & e & -> & _); done. }
    rewrite app_assoc. destruct (print_chunks end_ (c' :: l)) as [|x p] eqn:E; [done|].
    rewrite last_app_cons. by apply IH.
Qed.

Lemma print_chunks_chars end_ chunks : Forall chunk_ok chunks -> Forall text_char (print_chunks end_ chunks).
Proof.
  induction 1 as [|c l [Hb _] Hl IH]; simpl; [constructor|]. apply Forall_app. split.
  - by apply enc_char_text, encode_chars.
  - apply Forall_app. split; [|done]. destruct (_ || _); [by repeat constructor|constructor].
Qed.

Lemma substring_text_ok start end_ chunks : chunks_ok start end_ chunks ->
  value_text (substring_text start end_ chunks).
Proof.
  intros (Hc & Hne & _). unfold substring_text. split.
  - apply Forall_app. split; [destruct start; by repeat constructor|by apply print_chunks_chars].
  - destruct (print_chunks_head end_ chunks Hc Hne) as (x & l & E & _).
    pose proof (print_chunks_last end_ chunks 0 Hc Hne) as Hl. rewrite E in *. rewrite last_app_cons.
    destruct end_; [by rewrite Hl|by destruct Hl].
Qed.

Lemma simple_of_substring a start end_ chunks : chunks_ok start end_ chunks ->
  simple_of LDB_OP_EQUALITY a (substring_text start end_ chunks) = Some (Op_substring a start end_ chunks).
Proof.
  intros (Hc & Hne & Hstar). destruct (print_chunks_head end_ chunks Hc Hne) as (x & l & E & (_ & _ & Hx & _)).
  pose proof (print_chunks_last end_ chunks 0 Hc Hne) as Hl.
  pose proof (wildcard_loop_chunks (S (length (print_chunks end_ chunks))) end_ chunks Hc ltac:(lia)) as Hloop.
  assert (is_Some (ldb_parse_find_wildcard (substring_text start end_ chunks))) as Hf.
  { unfold substring_text. destruct start; [by eexists|]. destruct Hc as [|c m [Hb _] Hm]; [done|].
    simpl. rewrite find_wildcard_encode by done. apply fmap_is_Some.
    destruct end_; [by rewrite orb_true_r|]. destruct m; [done|]. done. }
  unfold simple_of. rewrite (bool_decide_eq_false_2 (_ = [STAR])).
  2: { unfold substring_text. rewrite E. destruct start; simpl; congruence. }
  rewrite bool_decide_eq_true_2 by done.
  assert (ldb_wildcard_decode (substring_text start end_ chunks) = Some chunks) as ->.
  { unfold ldb_wildcard_decode, substring_text. destruct start; simpl in *; rewrite Hloop; by destruct chunks. }
  simpl. f_equal. unfold substring_text. f_equal.
  - destruct start; [done|]. simpl. rewrite E. simpl. rewrite bool_decide_eq_false_2; congruence.
  - rewrite E in *. rewrite last_app_cons. destruct end_; [by rewrite bool_decide_eq_true_2|].
    rewrite bool_decide_eq_false_2; [done|]. by destruct Hl.
Qed.

Lemma simple_of_encode op a v : Forall is_byte v ->
  simple_of op a (ldb_binary_encode v)
  = match op with
    | LDB_OP_EQUALITY => Some (Op_equality a v)
    | LDB_OP_GREATER => Some (Op_greater a v)
    | LDB_OP_LESS => Some (Op_less a v)
    | LDB_OP_APPROX => Some (Op_approx a v)
    | LDB_OP_EXTENDED => ldb_parse_extended a (ldb_binary_encode v)
    end.
Proof.
  intros Hv. destruct op; simpl; rewrite ?decode_encode by done; try done.
  rewrite (bool_decide_eq_false_2 (_ = [STAR])).
  - pose proof (find_wildcard_encode v [] Hv) as Hf. rewrite app_nil_r in Hf. rewrite Hf. done.
  - intros E. pose proof (encode_chars v Hv) as Hc. rewrite E in Hc. apply Forall_cons in Hc as [(_ & _ & Hs & _) _].
    done.
Qed.

(** *** Extended matches *)

Definition word_ok (r : list Z) : Prop := Forall (fun c => c <> 0 /\ c <> COLON) r /\ head r <> Some EQUALS.

Definition rule_ok (dn : bool) (rule : option (list Z)) : Prop :=
  match dn, rule with
  | true, None => True
  | true, Some r => word_ok r
  | false, Some r => word_ok r /\ r <> [100; 110]
  | false, None => False
  end.

Definition rule_text (dn : bool) (rule : option (list Z)) : list Z :=
  (if dn then [COLON; 100; 110] else []) ++ (match rule with Some r => COLON :: r | None => [] end).

Lemma strstr_word w r : Forall (fun c => c <> 0 /\ c <> COLON) w ->
  strstr_assign (w ++ COLON :: EQUALS :: r) = Some (Some (w, COLON :: EQUALS :: r)).
Proof.
  induction 1 as [|c w [H0 Hc] _ IH]; [done|]. simpl. rewrite (proj2 (Z.eqb_neq _ _) H0), IH.
  rewrite (proj2 (Z.eqb_neq _ _) Hc). simpl. by destruct (w ++ _) eqn:E; [apply app_eq_nil in E as [_ E]|].
Qed.

Lemma strstr_colon c q : c <> EQUALS ->
  strstr_assign (COLON :: c :: q)
  = (r ← strstr_assign (c :: q); Some (match r with None => None | Some (v, q) => Some (COLON :: v, q) end)).
Proof. intros Hc. cbn [strstr_assign]. by rewrite (proj2 (Z.eqb_neq _ _) Hc). Qed.

Lemma strstr_colon_word w r : word_ok w ->
  strstr_assign (COLON :: w ++ COLON :: EQUALS :: r) = Some (Some (COLON :: w, COLON :: EQUALS :: r)).
Proof.
  intros [Hw Hh]. destruct (w ++ COLON :: EQUALS :: r) as [|c q] eqn:E; [by destruct w|].
  rewrite strstr_colon.
  - by rewrite <- E, strstr_word.
  - intros ->. destruct w as [|x w]; simpl in *; [done|]. injection E as -> _. done.
Qed.

Lemma rule_text_ok dn rule : rule_ok dn rule -> ext_text LDB_OP_EXTENDED (rule_text dn rule).
Proof.
  unfold rule_text. destruct dn, rule as [w|]; simpl; intros Hr; [..|done].
  - eexists. split; [done|]. intros r. pose proof (strstr_colon_word w r Hr) as H. simpl in H |- *. by rewrite H.
  - eexists. split; [done|]. intros r. done.
  - eexists. split; [done|]. intros r. destruct Hr as [Hr _]. by apply strstr_colon_word.
Qed.

Lemma cut_colon_app a y : Forall (fun c => c <> COLON) a -> cut_colon (a ++ COLON :: y) = Some (a, y).
Proof. induction 1 as [|c a Hc _ IH]; [done|]. simpl. by rewrite (proj2 (Z.eqb_neq _ _) Hc), IH. Qed.

Lemma cut_colon_none a : Forall (fun c => c <> COLON) a -> cut_colon a = None.
Proof. induction 1 as [|c a Hc _ IH]; [done|]. simpl. by rewrite (proj2 (Z.eqb_neq _ _) Hc), IH. Qed.

Lemma attr_no_colon a : attr_ok a = true -> Forall (fun c => c <> COLON) a.
Proof.
  assert (forall c, attr_char c = true -> c <> COLON) as Hc.
  { intros c. unfold attr_char, isalnum, isdigit, isalpha, COLON. lia. }
  destruct a as [|c a]; [constructor|]. simpl. intros [H1 H2]%andb_true_iff. constructor.
  - apply orb_true_iff in H1 as [->%Z.eqb_eq|H1]; [done|by apply Hc].
  - apply List.Forall_forall. intros x Hx. apply Hc. by eapply forallb_forall in H2.
Qed.

Lemma extended_text dn rule a v : attr_ok a = true -> rule_ok dn rule -> Forall is_byte v ->
  ldb_parse_extended (a ++ rule_text dn rule) (ldb_binary_encode v) = Some (Op_extended (Some a) dn rule v).
Proof.
  intros Ha Hr Hv. pose proof (attr_no_colon a Ha) as Hcol. unfold ldb_parse_extended, rule_text.
  rewrite decode_encode by done. simpl.
  assert (forall w, word_ok w -> cut_colon w = None) as Hw.
  { intros w [Hw _]. apply cut_colon_none. eapply Forall_impl; [exact Hw|]. by intros c [_ ?]. }
  destruct dn, rule as [w|]; simpl in *; [..|done].
  - by rewrite cut_colon_app.
  - by rewrite cut_colon_app.
  - destruct Hr as [Hr Hne]. rewrite cut_colon_app by done. simpl. rewrite Hw by done.
    by rewrite bool_decide_eq_false_2.
Qed.

(** *** The domain *)

Fixpoint tree_ok (t : parse_tree) : Prop :=
  match t with
  | Op_and l | Op_or l => l <> [] /\ fold_right and True (map tree_ok l)
  | Op_not t => tree_ok t
  | Op_equality a v | Op_greater a v | Op_less a v | Op_approx a v => attr_ok a = true /\ Forall is_byte v
  | Op_substring a s e c => attr_ok a = true /\ chunks_ok s e c
  | Op_present a => attr_ok a = true
  | Op_extended a dn rule v =>
    match a with Some a => attr_ok a = true | None => False end /\ rule_ok dn rule /\ Forall is_byte v
  end.

(** An induction that reaches the elements of lists. *)
Fixpoint parse_tree_induction (P : parse_tree -> Prop)
    (Hand : forall l, Forall P l -> P (Op_and l)) (Hor : forall l, Forall P l -> P (Op_or l))
    (Hnot : forall t, P t -> P (Op_not t)) (Heq : forall a v, P (Op_equality a v))
    (Hsub : forall a s e c, P (Op_substring a s e c)) (Hgt : forall a v, P (Op_greater a v))
    (Hlt : forall a v, P (Op_less a v)) (Hpres : forall a, P (Op_present a))
    (Happ : forall a v, P (Op_approx a v)) (Hext : forall a dn r v, P (Op_extended a dn r v))
    (t : parse_tree) : P t :=
  let rec := parse_tree_induction P Hand Hor Hnot Heq Hsub Hgt Hlt Hpres Happ Hext in
  let all := fix all l : Forall P l :=
    match l with [] => Forall_nil_2 P | t :: l => Forall_cons_2 P t l (rec t) (all l) end in
  match t with
  | Op_and l => Hand l (all l)
  | Op_or l => Hor l (all l)
  | Op_not t => Hnot t (rec t)
  | Op_equality a v => Heq a v
  | Op_substring a s e c => Hsub a s e c
  | Op_greater a v => Hgt a v
  | Op_less a v => Hlt a v
  | Op_present a => Hpres a
  | Op_approx a v => Happ a v
  | Op_extended a dn r v => Hext a dn r v
  end.

(** A filter of the form (attribute operation value). *)
Lemma parse_simple_result op a x v r fuel r' :
  (2 <= fuel)%nat -> attr_ok a = true -> ext_text op x -> value_text v -> scan isspace r = Some r' ->
  ldb_parse_filter fuel (paren (a ++ x ++ op_text op ++ v) ++ r) = Some (simple_of op (a ++ x) v, r'.2).
Proof.
  intros Hf Ha Hx Hv Hr. destruct fuel as [|[|fuel]]; [lia..|]. unfold paren. simpl.
  rewrite <- !app_assoc. simpl. pose proof (filtertype_text op a x v r Ha Hx Hv) as Hp.
  assert (exists c q, a ++ x ++ op_text op ++ v ++ RPAREN :: r = c :: q /\ isspace c = false
    /\ (c =? 38) = false /\ (c =? 124) = false /\ (c =? 33) = false /\ (c =? LPAREN) = false
    /\ (c =? RPAREN) = false) as (c & q & E & Hs & H1 & H2 & H3 & H4 & H5).
  { destruct a as [|c a].
    - destruct op; simpl in Hx; [subst x; by eexists _, _..|]. destruct Hx as (y & -> & _). by eexists _, _.
    - simpl in Ha. apply andb_true_iff in Ha as [Hc _]. eexists c, _. split; [done|].
      unfold attr_char, isalnum, isdigit, isalpha, isspace, LPAREN, RPAREN in *. lia. }
  rewrite E, (scan_none _ _ _ Hs). simpl. rewrite H1, H2, H3, H4, H5. simpl.
  unfold ldb_parse_simple. rewrite <- E, Hp. simpl. rewrite Hr. by destruct r'.
Qed.

Lemma parse_simple_text op a x v r t fuel r' :
  (2 <= fuel)%nat -> attr_ok a = true -> ext_text op x -> value_text v -> simple_of op (a ++ x) v = Some t ->
  scan isspace r = Some r' ->
  ldb_parse_filter fuel (paren (a ++ x ++ op_text op ++ v) ++ r) = Some (Some t, r'.2).
Proof. intros Hf Ha Hx Hv <- Hr. by apply parse_simple_result. Qed.

Lemma print_paren t : exists q, ldb_filter_from_tree t = LPAREN :: q /\ (2 <= length q)%nat.
Proof.
  destruct t; simpl; unfold paren; eexists; (split; [done|]); rewrite !length_app; simpl; try rewrite !length_app; simpl; lia.
Qed.

(** What a filter that is parsed from a printed one looks like. *)
Definition parses (t : parse_tree) : Prop := tree_ok t -> forall fuel r r',
  (4 * length (ldb_filter_from_tree t) <= fuel)%nat -> scan isspace r = Some r' ->
  ldb_parse_filter fuel (ldb_filter_from_tree t ++ r) = Some (Some t, r'.2).

Lemma scan_print t r : scan isspace (ldb_filter_from_tree t ++ r) = Some ([], ldb_filter_from_tree t ++ r).
Proof. destruct (print_paren t) as (q & -> & _). by apply scan_none. Qed.

(** The rest of a list of filters, when the list ends at [tl]. *)
Definition list_ends (need : nat) (tl e : list Z) : Prop :=
  scan isspace tl = Some ([], tl) /\
  forall fuel, (need <= fuel)%nat -> filterlist_loop fuel tl = Some ([], e).

Lemma list_ends_paren r : list_ends 2 (RPAREN :: r) (RPAREN :: r).
Proof. split; [by apply scan_none|]. intros fuel Hf. by destruct fuel as [|[|fuel]]; [lia..|]. Qed.

Lemma scan_printed l need tl e : list_ends need tl e ->
  scan isspace (concat (map ldb_filter_from_tree l) ++ tl) = Some ([], concat (map ldb_filter_from_tree l) ++ tl).
Proof. intros [H _]. destruct l as [|t l]; [done|]. simpl. rewrite <- app_assoc. apply scan_print. Qed.

Lemma filterlist_loop_print l need tl e fuel :
  list_ends need tl e -> Forall parses l -> fold_right and True (map tree_ok l) ->
  (4 * length (concat (map ldb_filter_from_tree l)) + need <= fuel)%nat ->
  filterlist_loop fuel (concat (map ldb_filter_from_tree l) ++ tl) = Some (l, e).
Proof.
  intros Hend Hl. assert (0 < need)%nat as Hneed.
  { destruct Hend as [_ Hend]. destruct need; [|lia]. specialize (Hend 0%nat (le_n _)). done. }
  revert fuel. induction Hl as [|t l Ht Hl IH]; intros fuel Hok Hf.
  - apply Hend. simpl in Hf. lia.
  - cbn [map concat fold_right] in *. destruct Hok as [Hokt Hokl]. rewrite length_app in Hf.
    destruct (print_paren t) as (q & Et & Hq). destruct fuel as [|fuel]; [rewrite Et in Hf; simpl in Hf; lia|].
    rewrite <- app_assoc. pose proof (scan_printed l need tl e Hend) as Htl.
    set (rest := concat (map ldb_filter_from_tree l) ++ tl) in *.
    assert (ldb_parse_filter fuel (ldb_filter_from_tree t ++ rest) = Some (Some t, rest)) as Hp.
    { rewrite (Ht Hokt _ _ ([], rest)); [done| |done]. rewrite Et in *. simpl in Hf |- *. lia. }
    cbn [filterlist_loop]. rewrite Et in *. cbn [app head] in *. simpl. cbn [app] in Hp.
    rewrite Hp. simpl. rewrite Htl. simpl. rewrite IH; [done|done|]. simpl in Hf. lia.
Qed.

Lemma parse_list_print (c : Z) (op : list parse_tree -> parse_tree) l need tl fuel r r' :
  (c = 38 /\ op = Op_and) \/ (c = 124 /\ op = Op_or) ->
  Forall parses l -> l <> [] -> fold_right and True (map tree_ok l) -> list_ends need tl (RPAREN :: r) ->
  (4 * length (concat (map ldb_filter_from_tree l)) + need + 3 <= fuel)%nat -> scan isspace r = Some r' ->
  ldb_parse_filter fuel (LPAREN :: c :: concat (map ldb_filter_from_tree l) ++ tl) = Some (Some (op l), r'.2).
Proof.
  intros Hc Hl Hne Hok Hend Hf Hr. destruct l as [|t l]; [done|]. clear Hne. apply Forall_cons in Hl as [Ht Hl].
  destruct Hok as [Hokt Hokl]. fold (map tree_ok l) in Hokl. cbn [map concat] in *. rewrite length_app in Hf.
  destruct fuel as [|[|[|fuel]]]; [lia..|]. rewrite <- app_assoc. simpl.
  assert (isspace c = false /\ ((c =? 38) || (c =? 124)) = true
    /\ (negb (c =? 38) && negb (c =? 124)) = false) as (Hs & H1 & H2) by (destruct Hc as [[-> _]|[-> _]]; done).
  rewrite Hs. simpl. rewrite H1, H2, scan_print. simpl. pose proof (scan_printed l need tl _ Hend) as Htl.
  erewrite (Ht Hokt _ _ ([], concat (map ldb_filter_from_tree l) ++ tl)); [|lia|done]. simpl. rewrite Htl. simpl.
  rewrite (filterlist_loop_print l need tl (RPAREN :: r)) by (done || lia). simpl. rewrite Hr. simpl.
  destruct r' as [? r']. by destruct Hc as [[-> ->]|[-> ->]].
Qed.

(** The filters without filters inside: the text of the value is [w]. *)
Ltac leaf op a w :=
  apply (parse_simple_text op a [] w);
  [unfold paren in *; simpl in *; lia|done|done
  |first [by apply encode_text|by apply substring_text_ok|done]
  |rewrite app_nil_r; first [by apply simple_of_encode|by apply simple_of_substring|done]|done].

Lemma parse_print t : parses t.
Proof.
  assert (value_text [STAR]) as Hstar by (split; [by repeat constructor|done]).
  induction t as [l IH|l IH|t IH|a v|a s e c|a v|a v|a|a v|a dn rule v] using parse_tree_induction;
    intros Hok fuel r r' Hf Hr; simpl in Hok, Hf |- *.
  - destruct Hok. unfold paren in *. simpl. rewrite <- app_assoc.
    eapply (parse_list_print 38 Op_and); [by left|done|done|done|apply list_ends_paren| |done].
    simpl in Hf. rewrite length_app in Hf. simpl in Hf. lia.
  - destruct Hok. unfold paren in *. simpl. rewrite <- app_assoc.
    eapply (parse_list_print 124 Op_or); [by right|done|done|done|apply list_ends_paren| |done].
    simpl in Hf. rewrite length_app in Hf. simpl in Hf. lia.
  - unfold paren in *. destruct fuel as [|[|[|fuel]]]; [simpl in Hf; lia..|]. simpl in Hf. rewrite length_app in Hf.
    simpl in Hf. simpl app. rewrite <- app_assoc. simpl. rewrite (IH Hok _ _ ([], RPAREN :: r)); [|lia|by apply scan_none].
    simpl. rewrite Hr. by destruct r'.
  - destruct Hok as [Ha Hv]. leaf LDB_OP_EQUALITY a (ldb_binary_encode v).
  - destruct Hok as [Ha Hc]. leaf LDB_OP_EQUALITY a (substring_text s e c).
  - destruct Hok as [Ha Hv]. leaf LDB_OP_GREATER a (ldb_binary_encode v).
  - destruct Hok as [Ha Hv]. leaf LDB_OP_LESS a (ldb_binary_encode v).
  - leaf LDB_OP_EQUALITY a [STAR].
  - destruct Hok as [Ha Hv]. leaf LDB_OP_APPROX a (ldb_binary_encode v).
  - destruct Hok as (Ha & Hrule & Hv). destruct a as [a|]; [|done]. simpl.
    assert (ldb_parse_filter fuel (paren (a ++ rule_text dn rule ++ op_text LDB_OP_EXTENDED ++ ldb_binary_encode v) ++ r)
      = Some (Some (Op_extended (Some a) dn rule v), r'.2)) as Hp.
    2: { unfold rule_text in Hp. rewrite <- app_assoc in Hp. exact Hp. }
    apply parse_simple_text; [unfold paren in Hf; simpl in Hf; lia|done|by apply rule_text_ok|by apply encode_text| |done].
    rewrite simple_of_encode by done. by apply extended_text.
Qed.

Lemma ldb_parse_tree_paren q :
  ldb_parse_tree (Some (LPAREN :: q)) = fst <$> ldb_parse_filter (ldb_parse_tree_fuel (LPAREN :: q)) (LPAREN :: q).
Proof. reflexivity. Qed.

(** C25: LDAP filters: printing and parsing.  A filter whose attributes are names
    and whose lists are not empty, with any bytes as values, is printed by
    [ldb_filter_from_tree] as a text that [ldb_parse_tree] reads back as the
    same filter, whatever lies in memory after the text. *)
Theorem ldb_filter_roundtrip t rest : tree_ok t ->
  ldb_parse_tree (Some (ldb_filter_from_tree t ++ 0 :: rest)) = Some (Some t).
Proof.
  intros Ht. destruct (print_paren t) as (q & E & _). rewrite E at 1. cbn [app].
  rewrite ldb_parse_tree_paren, app_comm_cons, <- E.
  rewrite (parse_print t Ht _ _ ([], 0 :: rest)); [done| |by apply scan_none].
  unfold ldb_parse_tree_fuel. rewrite length_app. lia.
Qed.

Lemma ldb_filter_roundtrip_witness :
  ldb_parse_tree (Some (ldb_filter_from_tree
    (Op_and [Op_equality [99; 110] [40; 42; 41]; Op_not (Op_substring [111; 117] true false [[0; 255]; [32]]);
             Op_or [Op_present [64; 97]; Op_extended (Some [117]) true (Some [49; 46; 50]) []]]) ++ 0 :: []))
  = Some (Some
    (Op_and [Op_equality [99; 110] [40; 42; 41]; Op_not (Op_substring [111; 117] true false [[0; 255]; [32]]);
             Op_or [Op_present [64; 97]; Op_extended (Some [117]) true (Some [49; 46; 50]) []]])).
Proof. apply ldb_filter_roundtrip. repeat first [split | constructor]; done || lia. Defined.

(** A list of filters ends at the first filter whose value does not decode.
    The filter (&...) with such a last element is not refused: it is parsed as
    the conjunction of the elements before it, and so it selects more. *)
Theorem ldb_parse_list_truncated l a v rest :
  l <> [] -> tree_ok (Op_and l) -> attr_ok a = true -> value_text v ->
  ldb_parse_find_wildcard v = None -> ldb_binary_decode v = None ->
  ldb_parse_tree (Some (paren (38 :: concat (map ldb_filter_from_tree l) ++ paren (a ++ EQUALS :: v)) ++ 0 :: rest))
  = Some (Some (Op_and l)).
Proof.
  intros Hne [_ Hok] Ha Hv Hw Hd.
  assert (list_ends 4 (paren (a ++ EQUALS :: v) ++ RPAREN :: 0 :: rest) (RPAREN :: 0 :: rest)) as Hend.
  { split; [by apply scan_none|]. intros [|fuel] Hf; [lia|]. cbn [filterlist_loop].
    assert (simple_of LDB_OP_EQUALITY a v = None) as Hs.
    { unfold simple_of. rewrite Hw, Hd. rewrite bool_decide_eq_false_2; [done|]. intros ->. done. }
    pose proof (parse_simple_result LDB_OP_EQUALITY a [] v (RPAREN :: 0 :: rest) fuel ([], RPAREN :: 0 :: rest)) as Hp.
    rewrite app_nil_r, Hs in Hp. simpl in Hp |- *. rewrite Hp; [done|lia|done|done|done|done]. }
  unfold paren at 1. cbn [app]. rewrite ldb_parse_tree_paren, <- !app_assoc. cbn [app].
  rewrite (parse_list_print 38 Op_and l 4 _ _ (0 :: rest) ([], 0 :: rest));
    [done|by left| |done|done|exact Hend| |by apply scan_none].
  - apply Forall_forall. intros t _. apply parse_print.
  - unfold ldb_parse_tree_fuel. simpl. rewrite !length_app. unfold paren. simpl. lia.
Qed.

(** "(&(a=b)(c=\zz))" *)
Lemma ldb_parse_list_truncated_witness :
  ldb_parse_tree (Some ([40; 38; 40; 97; 61; 98; 41; 40; 99; 61; 92; 122; 122; 41; 41] ++ 0 :: []))
  = Some (Some (Op_and [Op_equality [97] [98]])).
Proof.
  apply (ldb_parse_list_truncated [Op_equality [97] [98]] [99] [92; 122; 122] []);
    [done| |done|split; [by repeat constructor|done]|done|done].
  repeat first [split | constructor]; done || lia.
Defined.

(** ** The parser stays in the text *)

Lemma no_nul_suffix v s : no_nul (v ++ s) -> no_nul s.
Proof. by intros [_ H]%Forall_app. Qed.

Lemma scan_reads f s : f 0 = false -> exists v s', s = v ++ s' /\
  forall rest, scan f (s ++ 0 :: rest) = Some (v, s' ++ 0 :: rest).
Proof.
  intros Hf. induction s as [|c s IH]; simpl.
  - exists [], []. split; [done|]. intros rest. by rewrite Hf.
  - destruct (f c) eqn:E.
    + destruct IH as (v & s' & -> & H). exists (c :: v), s'. split; [done|]. intros rest. by rewrite H.
    + by exists [], (c :: s).
Qed.

Lemma head_text s rest : head (s ++ 0 :: rest) = Some (default 0 (head s)).
Proof. by destruct s. Qed.

Lemma strstr_reads s : no_nul s ->
  (forall rest, strstr_assign (s ++ 0 :: rest) = Some None) \/
  exists v s', s = v ++ COLON :: s' /\
    forall rest, strstr_assign (s ++ 0 :: rest) = Some (Some (v, COLON :: s' ++ 0 :: rest)).
Proof.
  induction 1 as [|c s Hc _ IH]; [by left|].
  destruct (decide (c = COLON /\ head s = Some EQUALS)) as [[-> Hh]|Hno].
  - right. destruct s as [|e s]; [done|]. injection Hh as ->. by exists [], (EQUALS :: s).
  - assert (forall rest, strstr_assign ((c :: s) ++ 0 :: rest)
      = r ← strstr_assign (s ++ 0 :: rest);
        Some (match r with None => None | Some (v, q) => Some (c :: v, q) end)) as Hstep.
    { intros rest. cbn [app]. cbn [strstr_assign]. rewrite (proj2 (Z.eqb_neq _ _) Hc).
      destruct (s ++ 0 :: rest) as [|e q] eqn:E; [by destruct s|].
      replace ((c =? COLON) && (e =? EQUALS)) with false; [done|]. symmetry. apply andb_false_iff.
      destruct (Z.eqb_spec c COLON) as [->|]; [right|by left]. apply Z.eqb_neq. intros ->. apply Hno.
      split; [done|]. destruct s as [|x s]; [done|]. by injection E as -> _. }
    destruct IH as [IH|(v & s' & -> & IH)]; [left|right]; [|exists (c :: v), s'; split; [done|]];
      intros rest; by rewrite Hstep, IH.
Qed.

Lemma scan_value_reads s : no_nul s -> forall prev, exists v s', s = v ++ s' /\
  forall rest, scan_value prev (s ++ 0 :: rest) = Some (v, s' ++ 0 :: rest).
Proof.
  induction 1 as [|c s Hc _ IH]; intros prev; [by exists [], []|]. simpl.
  destruct (negb (c =? 0) && (negb (c =? RPAREN) || ((c =? RPAREN) && (prev =? BACKSLASH)))) eqn:E.
  - destruct (IH c) as (v & s' & -> & H). exists (c :: v), s'. split; [done|]. intros rest. by rewrite H.
  - by exists [], (c :: s).
Qed.

Lemma op_at_reads s : no_nul s ->
  (exists op e v s', s = v ++ e :: s' /\ forall rest, op_at (s ++ 0 :: rest) = Some (Some op, e :: s' ++ 0 :: rest))
  \/ forall rest, rest <> [] -> exists p, op_at (s ++ 0 :: rest) = Some (None, p).
Proof.
  intros Hs. unfold op_at. destruct s as [|c s].
  - right. intros [|x rest] Hr; [done|]. simpl. destruct (x =? EQUALS); by eexists.
  - simpl. destruct (Z.eqb_spec c EQUALS) as [->|Hc].
    { left. by exists LDB_OP_EQUALITY, EQUALS, [], s. }
    destruct s as [|c1 s]; simpl; [right; intros; by eexists|].
    destruct (Z.eqb_spec c1 EQUALS) as [->|]; [|right; intros; by eexists].
    repeat (destruct (c =? _); [left; by eexists _, EQUALS, [c], s|]). right. intros. by eexists.
Qed.

Lemma at_sign_reads s : exists n0 s1, suffix s1 s /\
  forall rest, (if default 0 (head s) =? 64 then ([default 0 (head s)], tail (s ++ 0 :: rest)) else ([], s ++ 0 :: rest))
    = (n0, s1 ++ 0 :: rest).
Proof.
  destruct s as [|c s]; simpl; [by exists [], []|]. destruct (c =? 64).
  - exists [c], s. split; [by exists [c]|done].
  - by exists [], (c :: s).
Qed.

Lemma filtertype_reads s : no_nul s ->
  (forall rest, rest <> [] -> ldb_parse_filtertype (s ++ 0 :: rest) = Some None) \/
  exists op n v s', suffix s' s /\
    forall rest, rest <> [] -> ldb_parse_filtertype (s ++ 0 :: rest) = Some (Some (op, n, v, s' ++ 0 :: rest)).
Proof.
  intros Hs. unfold ldb_parse_filtertype. setoid_rewrite head_text. simpl.
  destruct (at_sign_reads s) as (n0 & s1 & [k1 ->] & H1). setoid_rewrite H1. apply no_nul_suffix in Hs.
  destruct (scan_reads attr_char s1 eq_refl) as (n1 & s2 & -> & H2). setoid_rewrite H2. simpl.
  apply no_nul_suffix in Hs. setoid_rewrite head_text. simpl.
  assert ((forall rest, (if default 0 (head s2) =? COLON then strstr_assign (s2 ++ 0 :: rest)
      else Some (Some ([], s2 ++ 0 :: rest))) = Some None) \/
    exists n2 s3, suffix s3 s2 /\ forall rest, (if default 0 (head s2) =? COLON then strstr_assign (s2 ++ 0 :: rest)
      else Some (Some ([], s2 ++ 0 :: rest))) = Some (Some (n2, s3 ++ 0 :: rest))) as [H3|(n2 & s3 & [k3 ->] & H3)].
  { destruct (default 0 (head s2) =? COLON); [|right; by exists [], s2].
    destruct (strstr_reads s2 Hs) as [H|(v & s3 & -> & H)]; [by left|right].
    exists v, (COLON :: s3). split; [by exists v|done]. }
  { left. intros rest _. by rewrite H3. }
  setoid_rewrite H3. simpl. apply no_nul_suffix in Hs.
  destruct (scan_reads isspace s3 eq_refl) as (sp & s4 & -> & H4). setoid_rewrite H4. simpl.
  apply no_nul_suffix in Hs. setoid_rewrite head_text. simpl.
  destruct (negb (strchr _ _)); [by left|].
  destruct (op_at_reads s4 Hs) as [(op & e & v5 & s5 & -> & H5)|H5].
  2: { left. intros rest Hr. destruct (H5 rest Hr) as [p E]. by rewrite E. }
  setoid_rewrite H5. simpl. apply no_nul_suffix, Forall_cons in Hs as [_ Hs].
  destruct (scan_reads isspace s5 eq_refl) as (sp6 & s6 & -> & H6). setoid_rewrite H6. simpl.
  apply no_nul_suffix in Hs. destruct (scan_value_reads s6 Hs (List.last sp6 e)) as (v7 & s7 & -> & H7).
  right. eexists op, _, _, s7. split; [|intros rest _; by rewrite H7]. simpl.
  exists (k1 ++ n1 ++ k3 ++ sp ++ v5 ++ e :: sp6 ++ v7). by rewrite <- !app_assoc; simpl; rewrite <- !app_assoc.
Qed.

Lemma simple_reads s : no_nul s -> exists x s', suffix s' s /\
  forall rest, rest <> [] -> ldb_parse_simple (s ++ 0 :: rest) = Some (x, s' ++ 0 :: rest).
Proof.
  intros Hs. unfold ldb_parse_simple. destruct (filtertype_reads s Hs) as [H|(op & n & v & s' & Hsuf & H)].
  - exists None, s. split; [done|]. intros rest Hr. by rewrite H.
  - exists (simple_of op n v), s'. split; [done|]. intros rest Hr. by rewrite H.
Qed.

(** With enough fuel, and whatever follows the terminator, the parser [f] has the
    result [x] and ends at [s']. *)
Definition reads {X} (f : nat -> list Z -> option (X * list Z)) (need : nat) (s : list Z) (x : X) (s' : list Z) : Prop :=
  suffix s' s /\ forall fuel rest, (need <= fuel)%nat -> rest <> [] ->
    f fuel (s ++ 0 :: rest) = Some (x, s' ++ 0 :: rest).

Lemma space_reads s : exists v s', suffix s' s /\ forall rest, scan isspace (s ++ 0 :: rest) = Some (v, s' ++ 0 :: rest).
Proof.
  destruct (scan_reads isspace s eq_refl) as (v & s' & -> & H). exists v, s'. split; [by exists v|done].
Qed.

Lemma suffix_length {A} (s' s : list A) : suffix s' s -> (length s' <= length s)%nat.
Proof. intros [k ->]. rewrite length_app. lia. Qed.

Lemma no_nul_suf s' s : suffix s' s -> no_nul s -> no_nul s'.
Proof. intros [k ->]. apply no_nul_suffix. Qed.

(** What the parsers of filters need, for texts shorter than [n]. *)
Definition filters_read (n : nat) : Prop := forall s, (length s < n)%nat -> no_nul s ->
  (exists x s', reads ldb_parse_filter (4 * length s + 4) s x s' /\ (x = None \/ length s' < length s)%nat)
  /\ (exists x s', reads ldb_parse_filtercomp (4 * length s + 7) s x s')
  /\ (exists x s', reads filterlist_loop (4 * length s + 9) s x s').

Lemma filter_reads n s : filters_read n -> length s = n -> no_nul s ->
  exists x s', reads ldb_parse_filter (4 * length s + 4) s x s' /\ (x = None \/ length s' < length s)%nat.
Proof.
  intros IH Hlen Hs.
  destruct (decide (head s = Some LPAREN)) as [Hh|Hh].
  2: { exists None, s. split; [|by left]. split; [done|]. intros [|fuel] rest Hf Hr; [lia|].
       cbn [ldb_parse_filter]. rewrite head_text. simpl. destruct (Z.eqb_spec (default 0 (head s)) LPAREN) as [E|]; [|done].
       destruct s; simpl in *; [done|congruence]. }
  destruct s as [|c s1] eqn:Es; [done|]. injection Hh as ->. apply Forall_cons in Hs as [_ Hs1].
  destruct (IH s1) as (_ & (x & s2 & [Hsuf Hc]) & _); [simpl in Hlen; lia|done|].
  assert (forall fuel rest, (4 * length (LPAREN :: s1) + 4 <= S fuel)%nat -> rest <> [] ->
    ldb_parse_filtercomp fuel (s1 ++ 0 :: rest) = Some (x, s2 ++ 0 :: rest)) as Hcomp.
  { intros fuel rest Hf Hr. apply Hc; [|done]. simpl in Hf. lia. }
  destruct (decide (head s2 = Some RPAREN)) as [Hh|Hh].
  - destruct s2 as [|c2 s2]; [done|]. injection Hh as ->. destruct (space_reads s2) as (sp & s3 & Hsuf3 & Hsp).
    assert (suffix s3 s1) as Hs3.
    { etrans; [exact Hsuf3|]. etrans; [|exact Hsuf]. by exists [RPAREN]. }
    exists x, s3. split; [|right; simpl; apply suffix_length in Hs3; lia]. split.
    { etrans; [exact Hs3|]. by exists [LPAREN]. }
    intros [|fuel] rest Hf Hr; [lia|]. cbn [ldb_parse_filter app head tail]. simpl. rewrite Hcomp by done. simpl.
    by rewrite Hsp.
  - exists None, (LPAREN :: s1). split; [|by left]. split; [done|]. intros [|fuel] rest Hf Hr; [lia|].
    cbn [ldb_parse_filter app head tail]. simpl. rewrite Hcomp by done. simpl. rewrite head_text. simpl.
    destruct (Z.eqb_spec (default 0 (head s2)) RPAREN) as [E|]; [|done].
    destruct s2; simpl in *; [done|congruence].
Qed.

Lemma loop_reads n s : filters_read n -> length s = n -> no_nul s ->
  exists x s', reads filterlist_loop (4 * length s + 9) s x s'.
Proof.
  intros IH Hlen Hs.
  destruct s as [|c s1] eqn:Es.
  { exists [], []. split; [done|]. intros [|fuel] rest Hf Hr; [simpl in Hf; lia|]. done. }
  rewrite <- Es in *. assert (head s = Some c) as Hh by (by rewrite Es).
  assert (c <> 0) as Hc by (rewrite Es in Hs; by apply Forall_cons in Hs as [? _]).
  destruct (filter_reads n s IH Hlen Hs) as (x & s2 & [Hsuf Hf] & Hx).
  assert (forall fuel rest, (4 * length s + 9 <= S fuel)%nat -> rest <> [] ->
    ldb_parse_filter fuel (s ++ 0 :: rest) = Some (x, s2 ++ 0 :: rest)) as Hfil.
  { intros fuel rest ? Hr. apply Hf; [lia|done]. }
  assert (forall rest, head (s ++ 0 :: rest) = Some c) as Hhead by (intros rest; by rewrite Es).
  destruct x as [t|].
  - destruct Hx as [|Hx]; [done|]. destruct (space_reads s2) as (sp & s3 & Hsuf3 & Hsp).
    pose proof (suffix_length _ _ Hsuf3) as Hl3.
    destruct (IH s3) as (_ & _ & (l & s4 & [Hsuf4 Hl])); [lia| |].
    { eapply no_nul_suf; [|exact Hs]. by etrans. }
    exists (t :: l), s4. split; [by repeat (etrans; [eassumption|])|].
    intros [|fuel] rest Hfu Hr; [lia|]. cbn [filterlist_loop]. rewrite Hhead. simpl.
    rewrite (proj2 (Z.eqb_neq _ _) Hc), Hfil by done. simpl. rewrite Hsp. simpl. rewrite Hl by (done || lia). done.
  - exists [], s2. split; [done|]. intros [|fuel] rest Hfu Hr; [lia|]. cbn [filterlist_loop]. rewrite Hhead. simpl.
    rewrite (proj2 (Z.eqb_neq _ _) Hc), Hfil by done. done.
Qed.

(** Lists and negations, at their first character. *)
Lemma list_reads n c s1 : filters_read n -> (length s1 < n)%nat -> no_nul s1 -> c <> 0 ->
  (c =? 38) || (c =? 124) = true ->
  exists x s', reads ldb_parse_filterlist (4 * length (c :: s1) + 6) (c :: s1) x s'.
Proof.
  intros IH Hlen Hs Hc0 Hc. assert (negb (c =? 38) && negb (c =? 124) = false) as Hc' by (bool_hyps; lia).
  destruct (space_reads s1) as (sp & s2 & Hsuf2 & Hsp). pose proof (suffix_length _ _ Hsuf2) as Hl2.
  assert (no_nul s2) as Hs2 by (by eapply no_nul_suf).
  destruct (IH s2) as ((x & s3 & [Hsuf3 Hfil] & Hx) & _); [lia|done|].
  destruct x as [t|].
  - destruct Hx as [|Hx]; [done|]. destruct (space_reads s3) as (sp4 & s4 & Hsuf4 & Hsp4).
    pose proof (suffix_length _ _ Hsuf4) as Hl4.
    destruct (IH s4) as (_ & _ & (l & s5 & [Hsuf5 Hl])).
    { lia. }
    { eapply no_nul_suf; [|exact Hs2]. by etrans. }
    eexists _, s5. split.
    { apply suffix_cons_r. by repeat (etrans; [eassumption|]). }
    intros [|fuel] rest Hfu Hr; [lia|]. simpl in Hfu. cbn [ldb_parse_filterlist app head tail]. simpl. rewrite Hc', Hsp.
    simpl. rewrite Hfil by (done || lia). simpl. rewrite Hsp4. simpl. rewrite Hl by (done || lia). done.
  - exists None, (c :: s1). split; [done|]. intros [|fuel] rest Hfu Hr; [lia|]. simpl in Hfu.
    cbn [ldb_parse_filterlist app head tail]. simpl. rewrite Hc', Hsp. simpl. by rewrite Hfil by (done || lia).
Qed.

Lemma not_reads n s1 : filters_read n -> (length s1 < n)%nat -> no_nul s1 ->
  exists x s', reads ldb_parse_not (4 * length (33 :: s1) + 6) (33 :: s1) x s'.
Proof.
  intros IH Hlen Hs. destruct (IH s1) as ((x & s3 & [Hsuf3 Hfil] & _) & _); [lia|done|].
  destruct x as [t|].
  - exists (Some (Op_not t)), s3. split; [by apply suffix_cons_r|]. intros [|fuel] rest Hfu Hr; [lia|]. simpl in Hfu.
    cbn [ldb_parse_not app head tail]. simpl. by rewrite Hfil by (done || lia).
  - exists None, (33 :: s1). split; [done|]. intros [|fuel] rest Hfu Hr; [lia|]. simpl in Hfu.
    cbn [ldb_parse_not app head tail]. simpl. by rewrite Hfil by (done || lia).
Qed.

Lemma comp_reads n s : filters_read n -> length s = n -> no_nul s ->
  exists x s', reads ldb_parse_filtercomp (4 * length s + 7) s x s'.
Proof.
  intros IH Hlen Hs. destruct (space_reads s) as (sp & s1 & Hsuf & Hsp).
  pose proof (suffix_length _ _ Hsuf) as Hl. pose proof (no_nul_suf _ _ Hsuf Hs) as Hs1.
  assert (forall X (x : X) s' f, reads f (4 * length s1 + 6) s1 x s' ->
    suffix s' s /\ forall fuel rest, (4 * length s + 7 <= S fuel)%nat -> rest <> [] ->
      f fuel (s1 ++ 0 :: rest) = Some (x, s' ++ 0 :: rest)) as Hlift.
  { intros X x s' f [Hsuf' Hf]. split; [by etrans|]. intros fuel rest Hfu Hr. apply Hf; [lia|done]. }
  assert (forall fuel rest, ldb_parse_filtercomp (S fuel) (s ++ 0 :: rest) =
    let c := default 0 (head s1) in
    if (c =? 38) || (c =? 124) then ldb_parse_filterlist fuel (s1 ++ 0 :: rest)
    else if c =? 33 then ldb_parse_not fuel (s1 ++ 0 :: rest)
    else if (c =? LPAREN) || (c =? RPAREN) then Some (None, s ++ 0 :: rest)
    else ldb_parse_simple (s1 ++ 0 :: rest)) as Hstep.
  { intros fuel rest. cbn [ldb_parse_filtercomp]. rewrite Hsp. simpl. by rewrite head_text. }
  destruct s1 as [|c s2].
  { destruct (simple_reads [] Hs1) as (x & s' & Hsuf' & Hsim). exists x, s'. split; [by etrans|].
    intros [|fuel] rest Hfu Hr; [lia|]. rewrite Hstep. by apply Hsim. }
  apply Forall_cons in Hs1 as [Hc0 Hs2]. simpl in Hl. cbv zeta in Hstep. change (default 0 (head (c :: s2))) with c in Hstep.
  destruct ((c =? 38) || (c =? 124)) eqn:Elist.
  { destruct (list_reads n c s2 IH ltac:(lia) Hs2 Hc0 Elist) as (x & s' & H). apply Hlift in H as [Hsuf' H].
    exists x, s'. split; [done|]. intros [|fuel] rest Hfu Hr; [lia|]. rewrite Hstep. by apply H. }
  destruct (Z.eqb_spec c 33) as [->|Hnot].
  { destruct (not_reads n s2 IH ltac:(lia) Hs2) as (x & s' & H). apply Hlift in H as [Hsuf' H].
    exists x, s'. split; [done|]. intros [|fuel] rest Hfu Hr; [lia|]. rewrite Hstep. by apply H. }
  destruct ((c =? LPAREN) || (c =? RPAREN)).
  { exists None, s. split; [done|]. intros [|fuel] rest Hfu Hr; [lia|]. by rewrite Hstep. }
  destruct (simple_reads (c :: s2)) as (x & s' & Hsuf' & Hsim); [by constructor|]. exists x, s'. split; [by etrans|].
  intros [|fuel] rest Hfu Hr; [lia|]. rewrite Hstep. by apply Hsim.
Qed.

Lemma filters_read_all n : filters_read n.
Proof.
  induction n as [|n IH]; intros s Hlen Hs; [lia|].
  destruct (decide (length s = n)) as [El|]; [|apply IH; [lia|done]].
  split; [by apply (filter_reads n)|]. split; [by apply (comp_reads n)|by apply (loop_reads n)].
Qed.

(** C26: The filter parser stays in the text.  For any string, valid filter or
    not, [ldb_parse_tree] ends with a filter or NULL, reads at most one byte
    beyond the terminator, and its answer does not depend on what lies there. *)
Theorem ldb_parse_in_bounds s : no_nul s ->
  exists r, forall rest, rest <> [] -> ldb_parse_tree (Some (s ++ 0 :: rest)) = Some r.
Proof.
  intros Hs. destruct s as [|c s0] eqn:Es.
  { eexists. intros rest _. vm_compute. reflexivity. }
  rewrite <- Es in *. destruct (space_reads s) as (sp & s1 & Hsuf & Hsp). pose proof (no_nul_suf _ _ Hsuf Hs) as Hs1.
  assert (forall rest, ldb_parse_tree (Some (s ++ 0 :: rest)) =
    if default 0 (head s1) =? LPAREN
    then fst <$> ldb_parse_filter (ldb_parse_tree_fuel (s1 ++ 0 :: rest)) (s1 ++ 0 :: rest)
    else fst <$> ldb_parse_simple (s1 ++ 0 :: rest)) as Hstep.
  { intros rest. unfold ldb_parse_tree. rewrite bool_decide_eq_false_2.
    - rewrite Hsp. simpl. by rewrite head_text.
    - rewrite Es in *. apply Forall_cons in Hs as [Hc _]. simpl. congruence. }
  destruct (default 0 (head s1) =? LPAREN).
  - destruct (filters_read_all (S (length s1)) s1 ltac:(lia) Hs1) as ((x & s2 & [_ H] & _) & _ & _).
    exists x. intros rest Hr. rewrite Hstep, H; [done| |done]. unfold ldb_parse_tree_fuel. rewrite length_app. simpl. lia.
  - destruct (simple_reads s1 Hs1) as (x & s2 & _ & H). exists x. intros rest Hr. by rewrite Hstep, H.
Qed.

(** "(&(a=b)(c" *)
Lemma ldb_parse_in_bounds_witness :
  exists r, forall rest, rest <> [] -> ldb_parse_tree (Some ([40; 38; 40; 97; 61; 98; 41; 40; 99] ++ 0 :: rest)) = Some r.
Proof. apply ldb_parse_in_bounds. by repeat constructor. Defined.

(** Without that byte: the text "(cn" at the end of the memory. *)
Example ldb_parse_overread : ldb_parse_tree (Some [40; 99; 110; 0]) = None.
Proof. reflexivity. Qed.

(** "(&(a=b)(c=\zz))" is parsed as "(&(a=b))". *)
Example ldb_parse_drops_element :
  ldb_parse_tree (Some [40; 38; 40; 97; 61; 98; 41; 40; 99; 61; 92; 122; 122; 41; 41; 0])
  = Some (Some (Op_and [Op_equality [97] [98]])).
Proof. reflexivity. Qed.
