(* ===== verification/LdbAttr.v ===== *)
(** * Attributes and syntaxes
      ([source4/lib/ldb/common/ldb_attributes.c], [attrib_handlers.c], [ldb_utf8.c])

    The table of attributes with their syntaxes, the comparison and the canonical
    form of values.  A value is the list of its bytes, which a NUL follows in
    memory; what the code does to it as a string of C stops at the first NUL.
    Names are free of NUL.  The case folding that [ldb_set_utf8_fns] installs is
    a parameter.  [None] is an access outside a buffer, or a loop that is out of
    fuel.  The handlers of DNs are in [LdbDn]. *)

From S2P Require Import Prelude CLib LdbTime LdbFilter.

(** ** Values as strings *)

(** The bytes up to the first NUL. *)
Fixpoint cstr (v : list Z) : list Z :=
  match v with
  | [] => []
  | c :: v => if c =? 0 then [] else c :: cstr v
  end.

Fixpoint is_prefix (a b : list Z) : bool :=
  match a, b with
  | [], _ => true
  | x :: a, y :: b => (x =? y) && is_prefix a b
  | _ :: _, [] => false
  end.

(** [strstr], as an index. *)
Fixpoint strstr (s pat : list Z) : option nat :=
  if is_prefix pat s then Some 0%nat
  else match s with
       | [] => None
       | _ :: s => S <$> strstr s pat
       end.

(** The strings of [CLib] and [LdbTime] as bytes. *)
Definition bytes_of (s : string) : list Z := map byte_of (String.list_ascii_of_string s).
Definition string_of (s : list Z) : string :=
  String.string_of_list_ascii (map (fun c => Ascii.ascii_of_N (Z.to_N c)) s).

(** A pointer advanced inside a buffer, to its terminator at most. *)
Definition advance (n : nat) (v : list Z) : option (list Z) :=
  if (n <=? length v)%nat then Some (drop n v) else None.

(** The digits of a number in a base, and what follows. *)
Definition digit_in (base c : Z) : option Z :=
  match (if isdigit c then Some (c - 48)
         else if isalpha c then Some (toupper c - 55) else None) with
  | Some d => if d <? base then Some d else None
  | None => None
  end.

Fixpoint number (base acc : Z) (s : list Z) : Z * list Z :=
  match s with
  | c :: r => match digit_in base c with Some d => number base (base * acc + d) r | None => (acc, s) end
  | [] => (acc, [])
  end.

(** [strtoll] and [strtoull] with base 0: sign, magnitude, rest; what has no
    digits is 0 and ends where it began. *)
Definition scan_number (s : list Z) : bool * Z * list Z :=
  let t := drop_while isspace s in
  let '(neg, t) := match t with
                   | c :: r => if c =? 45 then (true, r) else if c =? 43 then (false, r) else (false, t)
                   | [] => (false, t)
                   end in
  match t with
  | [] => (false, 0, s)
  | c :: r =>
    if c =? 48 then
      match r with
      | x :: h :: _ =>
        if ((x =? 120) || (x =? 88)) && bool_decide (is_Some (digit_in 16 h))
        then let '(n, e) := number 16 0 (tail r) in (neg, n, e)
        else let '(n, e) := number 8 0 t in (neg, n, e)
      | _ => let '(n, e) := number 8 0 t in (neg, n, e)
      end
    else if isdigit c then let '(n, e) := number 10 0 t in (neg, n, e)
    else (false, 0, s)
  end.

Definition strtoll (s : list Z) : Z * list Z :=
  let '(neg, n, e) := scan_number (cstr s) in
  (Z.max LONG_MIN (Z.min LONG_MAX (if neg : bool then - n else n)), e).

Definition strtoull (s : list Z) : Z :=
  let '(neg, n, _) := scan_number (cstr s) in
  if ULONG_MAX <? n then ULONG_MAX else if neg : bool then u64 (- n) else n.

(** ** Syntaxes *)

(** [canonicalise_fn] and [comparison_fn]; the outer [None] is an access outside
    a buffer, the inner one an error.  [canonicalise_fn] also gets a memory
    context: the flag says whether it is the [ldb_context] itself. *)
Record ldb_schema_syntax : Type := mk_syntax {
  syntax_name : string;
  canonicalise_fn : bool -> list Z -> option (option (list Z));
  comparison_fn : list Z -> list Z -> option Z
}.

Record ldb_schema_attribute : Type := mk_attribute {
  attr_name : list Z;
  attr_flags : Z;
  syntax : ldb_schema_syntax
}.

(** [struct ldb_subclass] *)
Record ldb_subclass : Set := mk_subclass { class_name : list Z; subclasses : list (list Z) }.

Section handlers.
Context (casefold : list Z -> option (list Z)).

(** ** Handlers *)

Definition ldb_handler_copy (_ : bool) (v : list Z) : option (option (list Z)) := Some (Some v).

(** [ldb_casefold_default] *)
Definition ldb_casefold_default (s : list Z) : option (list Z) := Some (map toupper s).

Definition is_blank (c : Z) : bool := c =? 32.

(** The index of the first blank of the string at [pos]. *)
Definition next_space (b : list Z) (pos : nat) : option nat :=
  (fun k => (pos + k)%nat) <$> find_idx is_blank (cstr (drop pos b)).

(** [for (s = t; *s == ' '; s++)] *)
Fixpoint run_length (l : list Z) : nat :=
  match l with
  | c :: l => if is_blank c then S (run_length l) else 0
  | [] => 0
  end.

(** [memmove(b + dst, b + src, n)] *)
Definition memmove (b : list Z) (dst src n : nat) : option (list Z) :=
  if (src + n <=? length b)%nat && (dst + n <=? length b)%nat
  then Some (take dst b ++ take n (drop src b) ++ drop (dst + n) b) else None.

(** The loop over the blanks in the middle: [pos] is [s]. *)
Fixpoint squeeze_loop (fuel : nat) (b : list Z) (pos : nat) : option (list Z) :=
  match fuel with
  | O => None
  | S fuel =>
    match next_space b pos with
    | None => Some b
    | Some t =>
      let s := (t + run_length (drop t b))%nat in
      b' ← (if (1 <? s - t)%nat then memmove b (t + 1) s (length (cstr (drop s b))) else Some b);
      squeeze_loop fuel b' s
    end
  end.

Definition ldb_handler_fold (_ : bool) (v : list Z) : option (option (list Z)) :=
  match casefold (cstr v) with
  | None => Some None
  | Some s =>
    let l := length (reverse (drop_while is_blank (reverse s))) in
    let b := take l s ++ 0 :: drop (S l) (s ++ [0]) in
    let k := run_length b in
    b ← (if (0 <? k)%nat then memmove b 0 k l else Some b);
    b ← squeeze_loop (length b) b 0;
    Some (Some (cstr b))
  end.

(** [asprintf("%lld")] *)
Definition print_lld (n : Z) : list Z :=
  (if n <? 0 then [45] else []) ++ bytes_of (print_dec (Z.abs n)).

Definition ldb_canonicalise_Integer (_ : bool) (v : list Z) : option (option (list Z)) :=
  let '(i, e) := strtoll v in
  Some (if bool_decide (e = []) then Some (print_lld i) else None).

(** The difference is returned as an [int]. *)
Definition ldb_comparison_Integer (v1 v2 : list Z) : option Z :=
  Some (s32 ((strtoll v1).1 - (strtoll v2).1)).

Fixpoint memcmp (a b : list Z) : Z :=
  match a, b with
  | x :: a, y :: b => if x =? y then memcmp a b else x - y
  | _, _ => 0
  end.

Definition ldb_comparison_binary (v1 v2 : list Z) : option Z :=
  Some (if negb (length v1 =? length v2)%nat
        then s32 (Z.of_nat (length v1) - Z.of_nat (length v2)) else memcmp v1 v2).

(** *** Times *)

Definition ldb_comparison_utctime (v1 v2 : list Z) : option Z :=
  let t1 := ldb_string_to_time (Some (string_of (cstr v1))) in
  let t2 := ldb_string_to_time (Some (string_of (cstr v2))) in
  Some (s32 (s32 t2 - s32 t1)).

Definition ldb_canonicalise_utctime (_ : bool) (v : list Z) : option (option (list Z)) :=
  Some (bytes_of <$> ldb_timestring (ldb_string_to_time (Some (string_of (cstr v))))).

(** *** Comparison of strings *)

(** A char as an [int], 0 at the end of the string. *)
Definition char_at (s : list Z) : Z := s8 (default 0 (head s)).

Inductive fold_end : Type := At_utf8 (s1 s2 : list Z) | At_end (s1 s2 : list Z).

(** The loop over ASCII. *)
Fixpoint fold_loop (fuel : nat) (s1 s2 : list Z) : option fold_end :=
  match fuel with
  | O => None
  | S fuel =>
    match s1, s2 with
    | c1 :: r1, c2 :: r2 =>
      if (c1 &? 0x80) || (c2 &? 0x80) then Some (At_utf8 s1 s2)
      else if negb (toupper c1 =? toupper c2) then Some (At_end s1 s2)
      else if is_blank c1 then fold_loop fuel (drop_while is_blank s1) (drop_while is_blank s2)
      else fold_loop fuel r1 r2
    | _, _ => Some (At_end s1 s2)
    end
  end.

(** The loop over strings that are folded, or are not UTF-8. *)
Fixpoint utf8_loop (fuel : nat) (u1 u2 : list Z) : option (list Z * list Z) :=
  match fuel with
  | O => None
  | S fuel =>
    if Z.land (char_at u1) (char_at u2) =? 0 then Some (u1, u2)
    else if negb (char_at u1 =? char_at u2) then Some (u1, u2)
    else if is_blank (default 0 (head u1))
    then utf8_loop fuel (drop_while is_blank u1) (drop_while is_blank u2)
    else utf8_loop fuel (tail u1) (tail u2)
  end.

(** Trailing blanks count only while both strings go on. *)
Definition skip_trailing (s1 s2 : list Z) : list Z * list Z :=
  match s1, s2 with
  | _ :: _, _ :: _ => (s1, s2)
  | _, _ => (drop_while is_blank s1, drop_while is_blank s2)
  end.

Definition ldb_comparison_fold (v1 v2 : list Z) : option Z :=
  let s1 := drop_while is_blank (cstr v1) in
  let s2 := drop_while is_blank (cstr v2) in
  r ← fold_loop (S (length s1)) s1 s2;
  match r with
  | At_end s1 s2 =>
    let '(s1, s2) := skip_trailing s1 s2 in
    Some (toupper (char_at s1) - toupper (char_at s2))
  | At_utf8 s1 s2 =>
    let '(u1, u2) := match casefold s1, casefold s2 with
                     | Some b1, Some b2 => (b1, b2)
                     | _, _ => (s1, s2)
                     end in
    '(u1, u2) ← utf8_loop (S (length u1)) u1 u2;
    let '(u1, u2) := skip_trailing u1 u2 in
    Some (char_at u1 - char_at u2)
  end.

(** ** Names *)

(** [ldb_attr_casefold] *)
Definition ldb_attr_casefold (s : list Z) : list Z := map toupper s.

Definition ldb_valid_attr_name (s : list Z) : bool :=
  match s with
  | [] => false
  | c :: r =>
    bool_decide (s = [STAR])
    || ((c <? 128) && (isalpha c || (c =? 64)) && forallb (fun c => (c <? 128) && (isalnum c || (c =? 45))) r)
  end.

(** *** Classes *)

Definition ldb_subclass_list (classes : list ldb_subclass) (classname : list Z) : option (list (list Z)) :=
  subclasses <$> List.find (fun c => ldb_attr_cmp classname (class_name c) =? 0) classes.

Definition ldb_subclass_add (classes : list ldb_subclass) (classname subclass : list Z) : list ldb_subclass :=
  match find_idx (fun c => ldb_attr_cmp classname (class_name c) =? 0) classes with
  | None => classes ++ [mk_subclass classname [subclass]]
  | Some i => alter (fun c => mk_subclass (class_name c) (subclasses c ++ [subclass])) i classes
  end.

Definition ldb_subclass_remove (classes : list ldb_subclass) (classname : list Z) : list ldb_subclass :=
  match find_idx (fun c => ldb_attr_cmp classname (class_name c) =? 0) classes with
  | None => classes
  | Some i => delete i classes
  end.

(** [fuel] bounds the depth of the classes. *)
Fixpoint ldb_comparison_objectclass (classes : list ldb_subclass) (fuel : nat) (v1 v2 : list Z) : option Z :=
  match fuel with
  | O => None
  | S fuel =>
    ret ← ldb_comparison_fold v1 v2;
    if ret =? 0 then Some 0
    else
      match ldb_subclass_list classes (cstr v1) with
      | None => Some ret
      | Some subs =>
        (fix loop (subs : list (list Z)) : option Z :=
           match subs with
           | [] => Some ret
           | vs :: subs =>
             r ← ldb_comparison_objectclass classes fuel vs v2;
             if r =? 0 then Some 0 else loop subs
           end) subs
      end
  end.

End handlers.

(** ** The table of attributes *)

(** The place of a new attribute: before the first that is greater. *)
Definition insert_at (l : list ldb_schema_attribute) (name : list Z) : nat :=
  default (length l) (find_idx (fun a => ldb_attr_cmp name (attr_name a) <? 0) l).

Definition ldb_schema_attribute_add_with_syntax (l : list ldb_schema_attribute) (name : list Z) (flags : Z)
    (s : ldb_schema_syntax) : list ldb_schema_attribute :=
  take (insert_at l name) l ++ mk_attribute name flags s :: drop (insert_at l name) l.

(** The binary search: an index, [None] when there is none. *)
Fixpoint attribute_search (fuel : nat) (l : list ldb_schema_attribute) (name : list Z) (b e : Z) : option (option nat) :=
  match fuel with
  | O => None
  | S fuel =>
    if b <=? e then
      let i := (b + e) / 2 in
      a ← l !! Z.to_nat i;
      let r := ldb_attr_cmp name (attr_name a) in
      if r =? 0 then Some (Some (Z.to_nat i))
      else if r <? 0 then attribute_search fuel l name b (i - 1)
      else attribute_search fuel l name (i + 1) e
    else Some None
  end.

(** An entry of the table, or the default; [None] when the table is empty. *)
Definition ldb_schema_attribute_by_name (l : list ldb_schema_attribute) (def : ldb_schema_attribute) (name : list Z)
  : option (ldb_schema_attribute) :=
  first ← head l;
  let '(def, b) := if bool_decide (attr_name first = [STAR]) then (first, 1) else (def, 0) in
  r ← attribute_search (S (length l)) l name b (Z.of_nat (length l) - 1);
  match r with
  | Some i => l !! i
  | None => Some def
  end.

Definition ldb_syntax_default : ldb_schema_syntax :=
  mk_syntax "1.3.6.1.4.1.1466.115.121.1.40" ldb_handler_copy ldb_comparison_binary.

(** Its name is NULL. *)
Definition ldb_attribute_default : ldb_schema_attribute := mk_attribute [] 0 ldb_syntax_default.

(** Removal; [None] when the attribute is not found in the table itself, and the
    index is computed from a pointer that does not point into it. *)
Definition ldb_schema_attribute_remove (l : list ldb_schema_attribute) (name : list Z) : option (list ldb_schema_attribute) :=
  first ← head l;
  let b := if bool_decide (attr_name first = [STAR]) then 1 else 0 in
  r ← attribute_search (S (length l)) l name b (Z.of_nat (length l) - 1);
  match r with
  | Some i => Some (delete i l)
  | None => if b =? 1 then Some (delete 0%nat l) else None
  end.
