(* ===== verification/LdbDn.v ===== *)
(** * Distinguished names ([source4/lib/ldb/common/ldb_dn.c])

    A DN object holds its text, its components and its canonical text, each
    computed from another when it is needed, so the operations return the objects
    they were given with what they filled in.  The components are [None] while
    there are none; their number is the length of the list.  The value of a
    component is [None] when its length is not that of its data: what reads such
    a value reads beyond it.  The outer [None] of a result is an access outside
    a buffer or through a NULL pointer.  Memory allocation succeeds; [junk] is
    what an allocation holds before it is written.

    The table of attributes gives the canonical form of the values.  The handlers
    of the DN syntax, which are here too, make DNs of their own and are built for
    a table of attributes. *)

From S2P Require Import Prelude CLib LdbFilter LdbAttr.

Definition COMMA : Z := 44.
Definition QUOTE : Z := 34.
Definition BLANK : Z := 32.
Definition isascii (c : Z) : bool := c <? 128.

Record ldb_dn_component : Type := mk_component {
  name : list Z;
  value : option (list Z);
  cf_name : option (list Z);
  cf_value : option (list Z)
}.

(** [ldb]: the pointer is the context, and not another object. *)
Record ldb_dn : Type := mk_dn {
  ldb : bool;
  special : bool;
  invalid : bool;
  valid_case : bool;
  linearized : option (list Z);
  casefold : option (list Z);
  components : option (list ldb_dn_component)
}.

Definition comps (dn : ldb_dn) : list ldb_dn_component := default [] (components dn).
Definition comp_num (dn : ldb_dn) : Z := Z.of_nat (length (comps dn)).

(** ** Assignments *)

Definition set_invalid (dn : ldb_dn) : ldb_dn :=
  mk_dn (ldb dn) (special dn) true (valid_case dn) (linearized dn) (casefold dn) (components dn).
Definition set_valid_case (b : bool) (dn : ldb_dn) : ldb_dn :=
  mk_dn (ldb dn) (special dn) (invalid dn) b (linearized dn) (casefold dn) (components dn).
Definition set_linearized (s : option (list Z)) (dn : ldb_dn) : ldb_dn :=
  mk_dn (ldb dn) (special dn) (invalid dn) (valid_case dn) s (casefold dn) (components dn).
Definition set_casefold (s : option (list Z)) (dn : ldb_dn) : ldb_dn :=
  mk_dn (ldb dn) (special dn) (invalid dn) (valid_case dn) (linearized dn) s (components dn).
Definition set_components (l : option (list ldb_dn_component)) (dn : ldb_dn) : ldb_dn :=
  mk_dn (ldb dn) (special dn) (invalid dn) (valid_case dn) (linearized dn) (casefold dn) l.

Definition set_cf (n v : option (list Z)) (c : ldb_dn_component) : ldb_dn_component :=
  mk_component (name c) (value c) n v.

(** ** Creation *)

(** [strncasecmp(s, prefix, n) == 0] *)
Definition starts_caseless (n : nat) (prefix s : list Z) : bool :=
  bool_decide (take n (map tolower s) = take n (map tolower prefix)).

Definition str_GUID : list Z := [60; 71; 85; 73; 68; 61].
Definition str_SID : list Z := [60; 83; 73; 68; 61].
Definition str_WKGUID : list Z := [60; 87; 75; 71; 85; 73; 68; 61].

Definition ldb_dn_new (own : bool) (strdn : option (list Z)) : ldb_dn :=
  match strdn with
  | None => mk_dn own false false false (Some []) None None
  | Some s =>
    let special := bool_decide (head s = Some 64) || starts_caseless 6 str_GUID s
      || starts_caseless 8 str_SID s || starts_caseless 8 str_WKGUID s in
    mk_dn own special false false (Some s) None None
  end.

(** ** Escaping *)

Definition must_quote (c : Z) : bool := existsb (Z.eqb c) [44; 61; 10; 43; 60; 62; 35; 59; 92; 34].

(** The zero is copied from the string "\00", which is empty and padded. *)
Definition escape_char (c : Z) : list Z :=
  if must_quote c then [BACKSLASH; c] else if c =? 0 then [0; 0; 0] else [c].

Definition ldb_dn_escape_internal (src : list Z) : list Z := concat (map escape_char src).

Definition ldb_dn_escape_value (value : list Z) : option (list Z) :=
  if bool_decide (value = []) then None else Some (cstr (ldb_dn_escape_internal value)).

(** ** Explosion

    [rest] is the memory from [p] on, which ends with the terminator, and [pos]
    the offset of [p]; [prev] is [p[-1]].  [data], [d] and [dt] are the buffer of
    the pieces and two offsets in it, [t] the offset where the blanks before [p]
    begin, [l] the length of the value.  [done_] are the complete components,
    [attr] the name of the current one. *)
Record explode_state : Type := mk_explode {
  rest : list Z;
  pos : Z;
  prev : Z;
  data : list Z;
  d : Z;
  dt : Z;
  t : option Z;
  l : Z;
  in_attr : bool;
  trim : bool;
  in_quote : bool;
  is_oid : bool;
  escape : bool;
  done_ : list ldb_dn_component;
  attr : list Z
}.

(** [p += n] *)
Definition skip (n : nat) (st : explode_state) : explode_state :=
  mk_explode (drop n (rest st)) (pos st + Z.of_nat n) (List.nth (n - 1) (rest st) 0) (data st) (d st) (dt st) (t st) (l st)
    (in_attr st) (trim st) (in_quote st) (is_oid st) (escape st) (done_ st) (attr st).

Definition set_trim (b : bool) (st : explode_state) : explode_state :=
  mk_explode (rest st) (pos st) (prev st) (data st) (d st) (dt st) (t st) (l st)
    (in_attr st) b (in_quote st) (is_oid st) (escape st) (done_ st) (attr st).
Definition set_quote (b : bool) (st : explode_state) : explode_state :=
  mk_explode (rest st) (pos st) (prev st) (data st) (d st) (dt st) (t st) (l st)
    (in_attr st) (trim st) b (is_oid st) (escape st) (done_ st) (attr st).
Definition set_oid (b : bool) (st : explode_state) : explode_state :=
  mk_explode (rest st) (pos st) (prev st) (data st) (d st) (dt st) (t st) (l st)
    (in_attr st) (trim st) (in_quote st) b (escape st) (done_ st) (attr st).
Definition set_escape (b : bool) (st : explode_state) : explode_state :=
  mk_explode (rest st) (pos st) (prev st) (data st) (d st) (dt st) (t st) (l st)
    (in_attr st) (trim st) (in_quote st) (is_oid st) b (done_ st) (attr st).
Definition set_t (x : option Z) (st : explode_state) : explode_state :=
  mk_explode (rest st) (pos st) (prev st) (data st) (d st) (dt st) x (l st)
    (in_attr st) (trim st) (in_quote st) (is_oid st) (escape st) (done_ st) (attr st).

(** [*d++ = c] *)
Definition put (c : Z) (st : explode_state) : option explode_state :=
  if (0 <=? d st) && (d st <? Z.of_nat (length (data st)))
  then Some (mk_explode (rest st) (pos st) (prev st) (<[Z.to_nat (d st) := c]> (data st)) (d st + 1) (dt st) (t st) (l st)
    (in_attr st) (trim st) (in_quote st) (is_oid st) (escape st) (done_ st) (attr st))
  else None.

(** [*d++ = c; l++] *)
Definition put_value (c : Z) (st : explode_state) : option explode_state :=
  st ← put c st;
  Some (mk_explode (rest st) (pos st) (prev st) (data st) (d st) (dt st) (t st) (l st + 1)
    (in_attr st) (trim st) (in_quote st) (is_oid st) (escape st) (done_ st) (attr st)).

(** [talloc_strdup(dn->components, dt)] *)
Definition piece (st : explode_state) : option (list Z) :=
  if dt st <? 0 then None
  else '(s, _) ← scan (fun c => negb (c =? 0)) (drop (Z.to_nat (dt st)) (data st)); Some s.

(** The results of a step: [inr None] is an invalid DN. *)
Definition outcome : Type := option (option explode_state).
Definition invalid_dn : outcome := Some None.
Definition continue (st : option explode_state) : outcome := Some <$> st.

(** The branch [in_attr]. *)
Definition attr_step (c : Z) (st : explode_state) : outcome :=
  if trim st then
    if c =? BLANK then continue (Some (skip 1 st))
    else
      let st := set_trim false st in
      if negb (isascii c) then invalid_dn
      else if isdigit c then continue (put c (skip 1 (set_oid true st)))
      else if negb (isalpha c) then invalid_dn
      else continue (put c (skip 1 st))
  else if c =? BLANK then continue (Some (set_trim true (skip 1 st)))
  else if trim st && negb (c =? EQUALS) then invalid_dn
  else if c =? EQUALS then
    st ← put 0 st;
    n ← piece st;
    continue (Some (skip 1 (mk_explode (rest st) (pos st) (prev st) (data st) (d st) (d st) (t st) 0
      false true (in_quote st) (is_oid st) (escape st) (done_ st) n)))
  else if negb (isascii c) then invalid_dn
  else if is_oid st && negb (isdigit c || (c =? 46)) then invalid_dn
  else if negb (isalpha c || isdigit c || (c =? 45)) then invalid_dn
  else continue (put c (skip 1 st)).

(** [if (t) { d -= (p - t); l -= (p - t); }] *)
Definition trim_back (st : explode_state) : explode_state :=
  match t st with
  | None => st
  | Some t0 =>
    mk_explode (rest st) (pos st) (prev st) (data st) (d st - (pos st - t0)) (dt st) (t st) (l st - (pos st - t0))
      (in_attr st) (trim st) (in_quote st) (is_oid st) (escape st) (done_ st) (attr st)
  end.

(** The value of the current component, terminated and copied. *)
Definition end_component (st : explode_state) : option explode_state :=
  st ← put 0 st;
  v ← piece st;
  let c := mk_component (attr st) (if Z.of_nat (length v) =? l st then Some v else None) None None in
  Some (mk_explode (rest st) (pos st) (prev st) (data st) (d st) (d st) (t st) (l st)
    (in_attr st) (trim st) (in_quote st) (is_oid st) (escape st) (done_ st ++ [c]) (attr st)).

(** The [switch] of the branch [in_value]. *)
Definition value_char (c : Z) (st : explode_state) : outcome :=
  if c =? COMMA then
    if escape st then st ← put_value c (skip 1 st); continue (Some (set_escape false st))
    else
      let st := skip 1 (trim_back st) in
      continue (end_component (mk_explode (rest st) (pos st) (prev st) (data st) (d st) (dt st) (t st) (l st)
        true true (in_quote st) (is_oid st) (escape st) (done_ st) (attr st)))
  else if existsb (Z.eqb c) [61; 10; 43; 60; 62; 35; 59; 34] then
    if negb (escape st) then invalid_dn
    else continue (put_value c (skip 1 (set_t None (set_escape false st))))
  else if c =? BACKSLASH then
    if negb (escape st) then continue (Some (skip 1 (set_escape true st)))
    else continue (put_value c (skip 1 (set_t None (set_escape false st))))
  else if escape st then
    match sscanf_02X (cstr (rest st)) with
    | None => invalid_dn
    | Some x => continue (put_value (u8 x) (skip 2 (set_t None (set_escape false st))))
    end
  else
    let st := set_t (if c =? BLANK then match t st with None => Some (pos st) | Some t0 => Some t0 end else None) st in
    continue (put_value c (skip 1 st)).

(** The branch [in_value]. *)
Definition value_step (c : Z) (st : explode_state) : outcome :=
  if in_quote st then
    if (c =? QUOTE) && negb (prev st =? BACKSLASH) then continue (Some (set_quote false (skip 1 st)))
    else continue (put_value c (skip 1 st))
  else if trim st then
    if c =? BLANK then continue (Some (skip 1 st))
    else
      let st := set_trim false st in
      if c =? QUOTE then continue (Some (skip 1 (set_quote true st))) else value_char c st
  else value_char c st.

(** The loop, with [fuel] for the bytes of the text, and what follows it. *)
Fixpoint explode_loop (fuel : nat) (st : explode_state) : option (option (list ldb_dn_component)) :=
  match fuel with
  | O => None
  | S fuel =>
    c ← head (rest st);
    if c =? 0 then
      if in_attr st || in_quote st then Some None
      else st ← end_component (trim_back st); Some (Some (done_ st))
    else
      r ← (if in_attr st then attr_step c st else value_step c st);
      match r with
      | None => Some None
      | Some st => explode_loop fuel st
      end
  end.

Section dn.
Context (attributes : list ldb_schema_attribute) (def : ldb_schema_attribute) (junk : list Z).

(** [talloc_array(dn->components, char, n)] *)
Definition fresh (n : nat) : list Z := take n junk ++ replicate (n - length junk) 0.

Definition explode_start (s : list Z) : explode_state :=
  mk_explode (s ++ [0]) 0 0 (fresh (S (length s))) 0 0 None 0 true true false false false [] [].

Definition explode_text (s : list Z) : option (option (list ldb_dn_component)) :=
  explode_loop (S (length s)) (explode_start s).

Definition ldb_dn_explode (dn : ldb_dn) : option (bool * ldb_dn) :=
  if invalid dn then Some (false, dn)
  else
    match components dn, linearized dn with
    | Some _, _ => Some (true, dn)
    | None, None => Some (false, dn)
    | None, Some s =>
      if bool_decide (s = []) || special dn then Some (true, dn)
      else
        r ← explode_text s;
        Some (match r with
              | Some l => (true, set_components (Some l) dn)
              | None => (false, set_components None (set_invalid dn))
              end)
    end.

Definition ldb_dn_validate (dn : ldb_dn) : option (bool * ldb_dn) := ldb_dn_explode dn.

(** ** Text *)

(** Name and value of a component, escaped, with the comma. *)
Definition print_component (nv : list Z * list Z) : list Z :=
  nv.1 ++ EQUALS :: ldb_dn_escape_internal nv.2 ++ [COMMA].

(** The loop over the components; the last comma becomes the terminator. *)
Definition print_components (nvs : list (list Z * list Z)) : list Z :=
  cstr (removelast (concat (map print_component nvs))).

Definition ldb_dn_get_linearized (dn : ldb_dn) : option (option (list Z) * ldb_dn) :=
  if invalid dn then Some (None, dn)
  else
    match linearized dn, components dn with
    | Some s, _ => Some (Some s, dn)
    | None, None => Some (None, set_invalid dn)
    | None, Some cs =>
      if (length cs =? 0)%nat then Some (Some [], set_linearized (Some []) dn)
      else
        nvs ← mapM (fun c => v ← value c; Some (name c, v)) cs;
        let s := print_components nvs in
        Some (Some s, set_linearized (Some s) dn)
    end.

Definition ldb_dn_alloc_linearized (dn : ldb_dn) : option (option (list Z) * ldb_dn) := ldb_dn_get_linearized dn.

(** ** Case folding *)

(** The loop over the components; the inner [None] is [failed]. *)
Fixpoint casefold_components (cs : list ldb_dn_component) : option (option (list ldb_dn_component)) :=
  match cs with
  | [] => Some (Some [])
  | c :: cs =>
    let n := ldb_attr_casefold (name c) in
    a ← ldb_schema_attribute_by_name attributes def n;
    v ← value c;
    r ← canonicalise_fn (syntax a) false v;
    match r with
    | None => Some None
    | Some cv =>
      r ← casefold_components cs;
      Some (option_map (cons (set_cf (Some n) (Some cv) c)) r)
    end
  end.

Definition ldb_dn_casefold_internal (dn : ldb_dn) : option (bool * ldb_dn) :=
  if invalid dn then Some (false, dn)
  else if valid_case dn then Some (true, dn)
  else
    '(ok, dn) ← (match components dn with Some _ => Some (true, dn) | None => ldb_dn_explode dn end);
    if negb ok then Some (false, dn)
    else
      match components dn with
      | None => Some (true, set_valid_case true dn)
      | Some cs =>
        if negb (ldb dn) && (0 <? length cs)%nat then None
        else
          r ← casefold_components cs;
          Some (match r with
                | Some cs => (true, set_valid_case true (set_components (Some cs) dn))
                | None => (false, set_components (Some (map (set_cf None None) cs)) dn)
                end)
      end.

Definition ldb_dn_get_casefold (dn : ldb_dn) : option (option (list Z) * ldb_dn) :=
  match casefold dn with
  | Some s => Some (Some s, dn)
  | None =>
    if special dn then
      match linearized dn with
      | Some s => Some (Some s, set_valid_case true (set_casefold (Some s) dn))
      | None => Some (None, dn)
      end
    else
      '(ok, dn) ← ldb_dn_casefold_internal dn;
      if negb ok then Some (None, dn)
      else if comp_num dn =? 0 then
        if bool_decide (linearized dn = Some []) then Some (Some [], set_casefold (Some []) dn)
        else Some (None, set_invalid dn)
      else
        nvs ← mapM (fun c => n ← cf_name c; v ← cf_value c; Some (n, v)) (comps dn);
        let s := print_components nvs in
        Some (Some s, set_casefold (Some s) dn)
  end.

Definition ldb_dn_alloc_casefold (dn : ldb_dn) : option (option (list Z) * ldb_dn) := ldb_dn_get_casefold dn.

(** ** Comparison *)

(** The comparison of two components by their folded names and values; a folded
    component that is not there is a NULL pointer. *)
Definition component_compare (a b : ldb_dn_component) : option Z :=
  na ← cf_name a;
  nb ← cf_name b;
  let ret := strcmp na nb in
  if negb (ret =? 0) then Some ret
  else
    va ← cf_value a;
    vb ← cf_value b;
    Some (if negb (length va =? length vb)%nat then s32 (Z.of_nat (length va) - Z.of_nat (length vb))
          else strcmp (cstr va) (cstr vb)).

(** The loop over the components of two lists: the first difference. *)
Fixpoint components_compare (a b : list ldb_dn_component) : option Z :=
  match a, b with
  | x :: a, y :: b => r ← component_compare x y; if r =? 0 then components_compare a b else Some r
  | _, _ => Some 0
  end.

(** What both comparisons do when a DN is not folded: a result, or the folded DNs. *)
Definition fold_both (base dn : ldb_dn) : option (option Z * ldb_dn * ldb_dn) :=
  '(ok, base) ← ldb_dn_casefold_internal base;
  if negb ok then Some (Some 1, base, dn)
  else
    '(ok, dn) ← ldb_dn_casefold_internal dn;
    Some (if negb ok then Some (-1) else None, base, dn).

(** DNs without components. *)
Definition compare_special (base dn : ldb_dn) : option Z :=
  if special dn && special base then
    a ← linearized base;
    b ← linearized dn;
    Some (strcmp a b)
  else if special dn then Some (-1)
  else if special base then Some 1
  else Some 0.

Definition ldb_dn_compare_base (base dn : ldb_dn) : option (Z * ldb_dn * ldb_dn) :=
  if invalid base then Some (1, base, dn)
  else if invalid dn then Some (-1, base, dn)
  else
    '(early, base, dn) ←
      (if negb (valid_case base) || negb (valid_case dn) then
         match linearized base, linearized dn with
         | Some b, Some s =>
           let dif := Z.of_nat (length s) - Z.of_nat (length b) in
           if dif <? 0 then Some (Some dif, base, dn)
           else if strcmp b (drop (Z.to_nat dif) s) =? 0 then Some (Some 0, base, dn)
           else fold_both base dn
         | _, _ => fold_both base dn
         end
       else Some (None, base, dn));
    match early with
    | Some r => Some (r, base, dn)
    | None =>
      r ← (if comp_num dn <? comp_num base then Some (comp_num dn - comp_num base)
           else if comp_num dn =? 0 then compare_special base dn
           else components_compare (reverse (comps base)) (reverse (comps dn)));
      Some (r, base, dn)
    end.

Definition ldb_dn_compare (dn0 dn1 : ldb_dn) : option (Z * ldb_dn * ldb_dn) :=
  if invalid dn0 || invalid dn1 then Some (-1, dn0, dn1)
  else
    '(early, dn0, dn1) ←
      (if negb (valid_case dn0) || negb (valid_case dn1) then
         match linearized dn0, linearized dn1 with
         | Some a, Some b => if strcmp a b =? 0 then Some (Some 0, dn0, dn1) else fold_both dn0 dn1
         | _, _ => fold_both dn0 dn1
         end
       else Some (None, dn0, dn1));
    match early with
    | Some r => Some (r, dn0, dn1)
    | None =>
      r ← (if negb (comp_num dn0 =? comp_num dn1) then Some (comp_num dn1 - comp_num dn0)
           else if comp_num dn0 =? 0 then compare_special dn0 dn1
           else components_compare (comps dn0) (comps dn1));
      Some (r, dn0, dn1)
    end.

(** ** Changes *)

(** A component as [ldb_dn_copy_component] copies it. *)
Definition ldb_dn_copy_component (src : ldb_dn_component) : option ldb_dn_component :=
  v ← value src;
  match cf_value src with
  | Some cv => n ← cf_name src; Some (mk_component (name src) (Some v) (Some n) (Some cv))
  | None => Some (mk_component (name src) (Some v) None None)
  end.

Definition ldb_dn_copy (dn : ldb_dn) : option (option ldb_dn) :=
  if invalid dn then Some None
  else
    match components dn with
    | None => Some (Some dn)
    | Some cs => cs ← mapM ldb_dn_copy_component cs; Some (Some (set_components (Some cs) dn))
    end.

(** [talloc_asprintf("%s,%s", a, b)] *)
Definition join (a b : list Z) : list Z := a ++ COMMA :: b.

(** The same, or [b] when [a] is empty. *)
Definition join_base (a b : list Z) : list Z := if bool_decide (a = []) then b else join a b.

(** What [ldb_dn_add_base] and [ldb_dn_add_child] do to the components and the
    canonical text: [combine] puts the components of [other] behind or before
    those of [dn], and [text] the texts.  The flag is false when they give up. *)
Definition add_components (combine : list ldb_dn_component -> list ldb_dn_component -> list ldb_dn_component)
    (text : list Z -> list Z -> list Z) (dn other : ldb_dn) : option (bool * ldb_dn * ldb_dn) :=
  match components dn with
  | None => Some (true, dn, other)
  | Some cs =>
    '(ok, other) ← ldb_dn_validate other;
    if negb ok then Some (false, dn, other)
    else
      '(s, other) ← (if valid_case dn then ldb_dn_get_casefold other else Some (None, other));
      if valid_case dn && bool_decide (s = None) then Some (false, dn, other)
      else
        copies ← mapM ldb_dn_copy_component (comps other);
        let dn := set_components (Some (combine cs copies)) dn in
        Some (true, (match casefold dn, s with
                     | Some cf, Some s => set_casefold (Some (text cf s)) dn
                     | _, _ => dn
                     end), other)
  end.

(** What they do to the text. *)
Definition add_text (text : list Z -> list Z -> list Z) (dn other : ldb_dn) : option (bool * ldb_dn * ldb_dn) :=
  match linearized dn with
  | None => Some (true, dn, other)
  | Some lin =>
    '(s, other) ← ldb_dn_get_linearized other;
    Some (match s with
          | None => (false, dn, other)
          | Some s => (true, set_linearized (Some (text lin s)) dn, other)
          end)
  end.

Definition ldb_dn_add_base (dn base : ldb_dn) : option (bool * ldb_dn * ldb_dn) :=
  if invalid base || invalid dn then Some (false, dn, base)
  else
    '(ok, dn, base) ← add_components (fun cs cb => cs ++ cb) join_base dn base;
    if negb ok then Some (false, dn, base) else add_text join_base dn base.

Definition ldb_dn_add_child (dn child : ldb_dn) : option (bool * ldb_dn * ldb_dn) :=
  if invalid child || invalid dn then Some (false, dn, child)
  else
    '(ok, dn, child) ← add_components (fun cs cc => cc ++ cs) (fun a b => join b a) dn child;
    if negb ok then Some (false, dn, child) else add_text (fun a b => join b a) dn child.

(** The text of the format is an argument. *)
Definition ldb_dn_add_base_fmt (dn : ldb_dn) (base_str : list Z) : option (bool * ldb_dn) :=
  if invalid dn then Some (false, dn)
  else '(ret, dn, _) ← ldb_dn_add_base dn (ldb_dn_new (ldb dn) (Some base_str)); Some (ret, dn).

Definition ldb_dn_add_child_fmt (dn : ldb_dn) (child_str : list Z) : option (bool * ldb_dn) :=
  if invalid dn then Some (false, dn)
  else '(ret, dn, _) ← ldb_dn_add_child dn (ldb_dn_new (ldb dn) (Some child_str)); Some (ret, dn).

(** The components changed: the folded ones and the texts are dropped. *)
Definition changed (f : list ldb_dn_component -> list ldb_dn_component) (dn : ldb_dn) : ldb_dn :=
  let cs := f <$> components dn in
  let cs := if valid_case dn then map (set_cf None None) <$> cs else cs in
  mk_dn (ldb dn) (special dn) (invalid dn) false None None cs.

Definition ldb_dn_remove_base_components (dn : ldb_dn) (num : Z) : option (bool * ldb_dn) :=
  '(ok, dn) ← ldb_dn_validate dn;
  if negb ok || (comp_num dn <? num) then Some (false, dn)
  else Some (true, changed (fun cs => take (length cs - Z.to_nat num) cs) dn).

Definition ldb_dn_remove_child_components (dn : ldb_dn) (num : Z) : option (bool * ldb_dn) :=
  '(ok, dn) ← ldb_dn_validate dn;
  if negb ok || (comp_num dn <? num) then Some (false, dn)
  else Some (true, changed (drop (Z.to_nat num)) dn).

Definition ldb_dn_get_parent (dn : ldb_dn) : option (option ldb_dn) :=
  new_dn ← ldb_dn_copy dn;
  match new_dn with
  | None => Some None
  | Some new_dn =>
    '(ok, new_dn) ← ldb_dn_remove_child_components new_dn 1;
    Some (if ok : bool then Some new_dn else None)
  end.

Definition LDB_SUCCESS : Z := 0.
Definition LDB_ERR_OTHER : Z := 80.

Definition ldb_dn_set_component (dn : ldb_dn) (num : Z) (n v : list Z) : option (Z * ldb_dn) :=
  '(ok, dn) ← ldb_dn_validate dn;
  if negb ok || (comp_num dn <=? u32 num) then Some (LDB_ERR_OTHER, dn)
  else
    Some (LDB_SUCCESS,
      changed (alter (fun c => mk_component n (Some v) (cf_name c) (cf_value c)) (Z.to_nat num)) dn).

(** ** Queries *)

Definition ldb_dn_get_comp_num (dn : ldb_dn) : option (Z * ldb_dn) :=
  '(ok, dn) ← ldb_dn_validate dn;
  let n := if ok : bool then comp_num dn else -1 in
  Some (n, dn).

Definition ldb_dn_get_component (dn : ldb_dn) (num : Z) : option (option ldb_dn_component * ldb_dn) :=
  '(ok, dn) ← ldb_dn_validate dn;
  let c := if ok && (num <? comp_num dn) then comps dn !! Z.to_nat num else None in
  Some (c, dn).

Definition ldb_dn_get_component_name (dn : ldb_dn) (num : Z) : option (option (list Z) * ldb_dn) :=
  '(c, dn) ← ldb_dn_get_component dn num; Some (option_map name c, dn).
Definition ldb_dn_get_component_val (dn : ldb_dn) (num : Z) : option (option (option (list Z)) * ldb_dn) :=
  '(c, dn) ← ldb_dn_get_component dn num; Some (option_map value c, dn).
Definition ldb_dn_get_rdn_name (dn : ldb_dn) : option (option (list Z) * ldb_dn) := ldb_dn_get_component_name dn 0.
Definition ldb_dn_get_rdn_val (dn : ldb_dn) : option (option (option (list Z)) * ldb_dn) := ldb_dn_get_component_val dn 0.

Definition ldb_dn_is_valid (dn : ldb_dn) : bool := negb (invalid dn).
Definition ldb_dn_is_special (dn : ldb_dn) : bool := negb (invalid dn) && special dn.
Definition ldb_dn_check_special (dn : ldb_dn) (check : list Z) : option bool :=
  if invalid dn then Some false else s ← linearized dn; Some (strcmp s check =? 0).
Definition ldb_dn_is_null (dn : ldb_dn) : bool := negb (invalid dn) && bool_decide (linearized dn = Some []).

(** *** Canonical names *)

Definition str_dc : list Z := [100; 99].
Definition SLASH : Z := 47.
Definition DOT : Z := 46.

(** The domain components from the end on: the name so far, and the components
    that are left, last one first; the inner [None] is [done]. *)
Fixpoint dc_walk (cs : list ldb_dn_component) (cracked : option (list Z))
  : option (option (option (list Z) * list ldb_dn_component)) :=
  match cs with
  | [] => Some (Some (cracked, []))
  | c :: cs' =>
    if negb (ldb_attr_cmp (name c) str_dc =? 0) then Some (Some (cracked, cs))
    else
      v ← value c;
      match cracked, ldb_dn_escape_value v with
      | Some k, Some e => dc_walk cs' (Some (e ++ DOT :: k))
      | Some _, None => None
      | None, Some e => dc_walk cs' (Some e)
      | None, None => Some None
      end
  end.

(** The other components, the last with its own separator. *)
Fixpoint path_walk (cs : list ldb_dn_component) (last : Z) (cracked : list Z) : option (list Z) :=
  match cs with
  | [] => Some cracked
  | c :: cs =>
    v ← value c;
    e ← ldb_dn_escape_value v;
    path_walk cs last (cracked ++ (if bool_decide (cs = []) then last else SLASH) :: e)
  end.

Definition ldb_dn_canonical (dn : ldb_dn) (ex_format : bool) : option (option (list Z) * ldb_dn) :=
  '(ok, dn) ← ldb_dn_validate dn;
  if negb ok then Some (None, dn)
  else
    let last := if ex_format then 10 else SLASH in
    r ← dc_walk (reverse (comps dn)) None;
    match r with
    | None => Some (None, dn)
    | Some (cracked, []) => k ← cracked; Some (Some (k ++ [last]), dn)
    | Some (cracked, cs) => k ← path_walk cs last (default [] cracked); Some (Some k, dn)
    end.

Definition ldb_dn_canonical_string (dn : ldb_dn) : option (option (list Z) * ldb_dn) := ldb_dn_canonical dn false.
Definition ldb_dn_canonical_ex_string (dn : ldb_dn) : option (option (list Z) * ldb_dn) := ldb_dn_canonical dn true.

(** ** The DN syntax

    The handlers pass the memory context for the [ldb_context]. *)

Definition ldb_canonicalise_dn (own : bool) (v : list Z) : option (option (list Z)) :=
  '(ok, dn) ← ldb_dn_validate (ldb_dn_new own (Some (cstr v)));
  if negb ok then Some None else fst <$> ldb_dn_alloc_casefold dn.

Definition ldb_comparison_dn (v1 v2 : list Z) : option Z :=
  '(ok, dn1) ← ldb_dn_validate (ldb_dn_new true (Some (cstr v1)));
  if negb ok then Some (-1)
  else
    '(ok, dn2) ← ldb_dn_validate (ldb_dn_new true (Some (cstr v2)));
    if negb ok then Some (-1) else '(ret, _, _) ← ldb_dn_compare dn1 dn2; Some ret.

End dn.

(** ** The standard syntaxes *)

Section syntaxes.
Context (fold_fn : list Z -> option (list Z)) (classes : list ldb_subclass) (depth : nat).
Context (attributes : list ldb_schema_attribute) (def : ldb_schema_attribute) (junk : list Z).

Definition ldb_standard_syntaxes : list ldb_schema_syntax := [
  mk_syntax "1.3.6.1.4.1.1466.115.121.1.27" ldb_canonicalise_Integer ldb_comparison_Integer;
  mk_syntax "1.3.6.1.4.1.1466.115.121.1.40" ldb_handler_copy ldb_comparison_binary;
  mk_syntax "1.3.6.1.4.1.1466.115.121.1.15" (ldb_handler_fold fold_fn) (ldb_comparison_fold fold_fn);
  mk_syntax "1.3.6.1.4.1.1466.115.121.1.12" (ldb_canonicalise_dn attributes def junk) (ldb_comparison_dn attributes def junk);
  mk_syntax "LDB_SYNTAX_OBJECTCLASS" (ldb_handler_fold fold_fn) (ldb_comparison_objectclass fold_fn classes depth);
  mk_syntax "1.3.6.1.4.1.1466.115.121.1.53" ldb_canonicalise_utctime ldb_comparison_utctime
].

Definition ldb_standard_syntax_by_name (name : string) : option ldb_schema_syntax :=
  List.find (fun s => bool_decide (syntax_name s = name)) ldb_standard_syntaxes.

(** [None]: the name of the syntax is not known, and its pointer is NULL. *)
Definition ldb_schema_attribute_add (l : list ldb_schema_attribute) (attribute : list Z) (flags : Z) (syntax : string)
  : option (list ldb_schema_attribute) :=
  s ← ldb_standard_syntax_by_name syntax;
  Some (ldb_schema_attribute_add_with_syntax l attribute flags s).

Definition wellknown : list (string * string) := [
  ("dn", "1.3.6.1.4.1.1466.115.121.1.12"); ("distinguishedName", "1.3.6.1.4.1.1466.115.121.1.12");
  ("cn", "1.3.6.1.4.1.1466.115.121.1.15"); ("dc", "1.3.6.1.4.1.1466.115.121.1.15");
  ("ou", "1.3.6.1.4.1.1466.115.121.1.15"); ("objectClass", "LDB_SYNTAX_OBJECTCLASS")]%string.

Definition ldb_setup_wellknown_attributes (l : list ldb_schema_attribute) : option (list ldb_schema_attribute) :=
  fold_left (fun l w => l ← l; ldb_schema_attribute_add l (bytes_of w.1) 0 w.2) wellknown (Some l).

End syntaxes.
