(* ===== verification/LdbDnSpec.v ===== *)
(** * Distinguished names: what they promise

    The text of a DN is exploded into the components it was printed from; a DN
    object that is used within its contract is a list of components, whatever it
    keeps cached. *)

From S2P Require Import Prelude CLib LdbFilter LdbAttr LdbDn.

#[local] Abbreviation len x := (Z.of_nat (length x)).
#[local] Arguments attr_step : simpl never.
#[local] Arguments value_step : simpl never.
#[local] Arguments put : simpl never.
#[local] Arguments piece : simpl never.

(** ** The buffer of the pieces *)

(** The piece [p] lies in the buffer from [dt] to [d], and what is left of the
    text fits behind it. *)
Record holds (st : explode_state) (p : list Z) : Prop := {
  holds_dt : 0 <= dt st;
  holds_d : d st = dt st + len p;
  holds_pos : d st <= pos st;
  holds_cap : len (data st) = pos st + len (rest st);
  holds_data : take (length p) (drop (Z.to_nat (dt st)) (data st)) = p
}.

(** The state after [put]. *)
Definition bump (c : Z) (st : explode_state) : explode_state :=
  mk_explode (rest st) (pos st) (prev st) (<[Z.to_nat (d st) := c]> (data st)) (d st + 1) (dt st) (t st) (l st)
    (in_attr st) (trim st) (in_quote st) (is_oid st) (escape st) (done_ st) (attr st).

Lemma holds_skip st p c tl : holds st p -> rest st = c :: tl -> holds (skip 1 st) p.
Proof.
  intros [H0 H1 H2 H3 H4] E. rewrite E in H3. simpl in H3. split; simpl; rewrite ?E; simpl; rewrite ?drop_0; try done; lia.
Qed.

(** It depends on the buffer and the pointers only. *)
Lemma holds_same st st' p : holds st p -> rest st' = rest st -> pos st' = pos st -> data st' = data st ->
  d st' = d st -> dt st' = dt st -> holds st' p.
Proof. intros [] E1 E2 E3 E4 E5. split; rewrite ?E1, ?E2, ?E3, ?E4, ?E5; done. Qed.

Lemma insert_piece (data : list Z) (dt d : Z) (p : list Z) (c : Z) :
  0 <= dt -> d = dt + len p -> d < len data ->
  take (length p) (drop (Z.to_nat dt) data) = p ->
  take (length (p ++ [c])) (drop (Z.to_nat dt) (<[Z.to_nat d := c]> data)) = p ++ [c].
Proof.
  intros H0 -> Hlt Hp. rewrite drop_insert_ge by lia. replace (_ - _)%nat with (length p) by lia.
  rewrite length_app, Nat.add_1_r. rewrite (take_S_r _ _ c).
  - by rewrite take_insert_ge, Hp by lia.
  - apply list_lookup_insert_eq. rewrite length_drop. lia.
Qed.

Lemma holds_room st p : holds st p -> rest st <> [] -> 0 <= d st < len (data st).
Proof.
  intros [H0 H1 H2 H3 H4] Hne. assert (0 < len (rest st)); [|lia]. destruct (rest st); [congruence|simpl; lia].
Qed.

Lemma put_room st c : 0 <= d st < len (data st) -> put c st = Some (bump c st).
Proof. intros H. unfold put. by replace ((0 <=? d st) && (d st <? len (data st))) with true by lia. Qed.

Lemma bump_holds st p c x tl : holds st p -> rest st = c :: tl -> holds (bump x (skip 1 st)) (p ++ [x]).
Proof.
  intros H E. destruct H as [H0 H1 H2 H3 H4]. rewrite E in H3. simpl in H3.
  split; [done|simpl; rewrite length_app; simpl; lia|simpl; lia|simpl; rewrite length_insert, E; simpl; rewrite drop_0; lia|].
  apply insert_piece; [done|done|simpl; lia|done].
Qed.

Lemma put_skip st p c x tl : holds st p -> rest st = c :: tl -> put x (skip 1 st) = Some (bump x (skip 1 st)).
Proof. intros H E. apply put_room, (holds_room st p H). by rewrite E. Qed.

(** The next piece, behind a terminator. *)
Lemma holds_next st st' p c tl : holds st p -> rest st = c :: tl -> rest st' = tl -> pos st' = pos st + 1 ->
  length (data st') = length (data st) -> d st' = d st + 1 -> dt st' = d st + 1 -> holds st' [].
Proof.
  intros [H0 H1 H2 H3 H4] E E1 E2 E3 E4 E5. rewrite E in H3. simpl in H3.
  split; rewrite ?E1, ?E2, ?E3, ?E4, ?E5; simpl; try done; lia.
Qed.

Lemma scan_no_nul p r : Forall (fun c => c <> 0) p -> scan (fun c => negb (c =? 0)) (p ++ 0 :: r) = Some (p, 0 :: r).
Proof.
  induction 1 as [|c p Hc Hp IH]; [done|]. simpl. apply Z.eqb_neq in Hc as ->. simpl. by rewrite IH.
Qed.

Lemma piece_holds st p : holds st p -> d st < len (data st) -> Forall (fun c => c <> 0) p -> piece (bump 0 st) = Some p.
Proof.
  intros H Hlt Hp. destruct H as [H0 H1 H2 H3 H4].
  unfold piece. simpl. replace (dt st <? 0) with false by lia.
  pose proof (insert_piece (data st) (dt st) (d st) p 0 H0 H1 Hlt H4) as E.
  rewrite <- (take_drop (length (p ++ [0])) (drop _ _)), E, <- app_assoc. simpl. by rewrite scan_no_nul.
Qed.

(** ** Running the loop *)

(** The loop gets from one state to the other, a step for a byte at most. *)
Definition runs (st st' : explode_state) : Prop :=
  exists n, (n + length (rest st') <= length (rest st))%nat
    /\ forall fuel, explode_loop (n + fuel) st = explode_loop fuel st'.

Lemma runs_refl st : runs st st.
Proof. exists 0%nat. split; [lia|done]. Qed.

Lemma runs_trans st1 st2 st3 : runs st1 st2 -> runs st2 st3 -> runs st1 st3.
Proof.
  intros (n & Hn & H) (m & Hm & H'). exists (n + m)%nat. split; [lia|]. intros fuel. by rewrite <- Nat.add_assoc, H, H'.
Qed.

Lemma loop_step fuel c tl st : rest st = c :: tl -> c <> 0 ->
  explode_loop (S fuel) st =
    (r ← (if in_attr st then attr_step c st else value_step c st);
     match r with None => Some None | Some st' => explode_loop fuel st' end).
Proof. intros E Hc. simpl. rewrite E. simpl. by apply Z.eqb_neq in Hc as ->. Qed.

Lemma runs_step c tl st st' : rest st = c :: tl -> c <> 0 -> (length (rest st') <= length tl)%nat ->
  (if in_attr st then attr_step c st else value_step c st) = Some (Some st') -> runs st st'.
Proof.
  intros E Hc Hl Hs. exists 1%nat. rewrite E. split; [simpl; lia|]. intros fuel.
  rewrite (loop_step _ c tl) by done. destruct (in_attr st); by rewrite Hs.
Qed.

(** ** Names *)

(** The loop is at the start of a component. *)
Record starts (st : explode_state) (cs : list ldb_dn_component) (tl : list Z) : Prop := {
  starts_attr : in_attr st = true;
  starts_trim : trim st = true;
  starts_quote : in_quote st = false;
  starts_oid : is_oid st = false;
  starts_escape : escape st = false;
  starts_t : t st = None;
  starts_done : done_ st = cs;
  starts_rest : rest st = tl;
  starts_holds : holds st []
}.

(** The loop has read [v] of the value of the attribute [a]. *)
Record valued (st : explode_state) (cs : list ldb_dn_component) (a v tl : list Z) : Prop := {
  valued_attr : in_attr st = false;
  valued_quote : in_quote st = false;
  valued_oid : is_oid st = false;
  valued_escape : escape st = false;
  valued_done : done_ st = cs;
  valued_name : attr st = a;
  valued_rest : rest st = tl;
  valued_l : l st = len v;
  valued_holds : holds st v
}.

Definition name_char (c : Z) : bool := isalpha c || isdigit c || (c =? 45).

Definition rdn_name_ok (n : list Z) : bool :=
  match n with c :: r => isalpha c && forallb name_char r | [] => false end.

Lemma name_char_ok c : name_char c = true ->
  c <> 0 /\ (c =? BLANK) = false /\ (c =? EQUALS) = false /\ isascii c = true.
Proof. unfold name_char, isalpha, isdigit, BLANK, EQUALS, isascii. intros H. bool_hyps; lia. Qed.

Lemma isalpha_name c : isalpha c = true -> name_char c = true /\ isdigit c = false.
Proof. unfold name_char, isalpha, isdigit. intros H. bool_hyps; lia. Qed.

(** The loop is in a name, and has read [p] of it. *)
Record named (st : explode_state) (cs : list ldb_dn_component) (p tl : list Z) : Prop := {
  named_attr : in_attr st = true;
  named_trim : trim st = false;
  named_quote : in_quote st = false;
  named_oid : is_oid st = false;
  named_escape : escape st = false;
  named_t : t st = None;
  named_done : done_ st = cs;
  named_rest : rest st = tl;
  named_holds : holds st p
}.

Lemma named_run st cs p r tl : named st cs p (r ++ tl) -> forallb name_char r = true ->
  exists st', runs st st' /\ named st' cs (p ++ r) tl.
Proof.
  revert st p. induction r as [|c r IH]; intros st p H Hr.
  { exists st. split; [apply runs_refl|]. by rewrite app_nil_r. }
  simpl in Hr. apply andb_true_iff in Hr as [Hc Hr]. destruct (name_char_ok c Hc) as (H0 & Hb & He & Ha).
  destruct H. assert (named (bump c (skip 1 st)) cs (p ++ [c]) (r ++ tl)) as H'.
  { split; simpl; try done; [by rewrite named_rest0|]. by eapply bump_holds. }
  destruct (IH _ _ H' Hr) as (st' & Hrun & Hst'). exists st'. rewrite <- app_assoc in Hst'. split; [|done].
  eapply runs_trans; [|exact Hrun]. eapply runs_step; [exact named_rest0|done|by simpl; rewrite named_rest0|].
  rewrite named_attr0. unfold attr_step. rewrite named_trim0, named_oid0, Hb, He, Ha. simpl.
  unfold name_char in Hc. rewrite Hc. simpl. by erewrite put_skip.
Qed.

Lemma name_run st cs n tl : starts st cs (n ++ EQUALS :: tl) -> rdn_name_ok n = true ->
  exists st', runs st st' /\ valued st' cs n [] tl /\ trim st' = true /\ t st' = None.
Proof.
  intros H Hn. destruct n as [|c r]; [done|]. simpl in Hn. apply andb_true_iff in Hn as [Hc Hr].
  destruct (isalpha_name c Hc) as [Hnc Hd]. destruct (name_char_ok c Hnc) as (H0 & Hb & He & Ha).
  destruct H. assert (named (bump c (skip 1 (set_trim false st))) cs [c] (r ++ EQUALS :: tl)) as H1.
  { split; simpl; try done; [by rewrite starts_rest0|].
    apply (bump_holds (set_trim false st) [] c c (r ++ EQUALS :: tl)); [by apply (holds_same st)|done]. }
  destruct (named_run _ _ _ _ _ H1 Hr) as (st2 & Hrun & []).
  assert (Forall (fun c => c <> 0) (c :: r)) as Hnn.
  { constructor; [done|]. apply Forall_forall. intros x Hx. eapply forallb_forall in Hr; [|by apply list_elem_of_In].
    by apply name_char_ok. }
  eexists. split; [|split].
  - eapply runs_trans; [eapply runs_step|eapply runs_trans; [exact Hrun|eapply runs_step]].
    + exact starts_rest0.
    + done.
    + by simpl; rewrite starts_rest0.
    + rewrite starts_attr0. unfold attr_step. rewrite starts_trim0, Hb. simpl. rewrite Ha, Hd, Hc. simpl.
      erewrite (put_skip (set_trim false st) []); [done|by apply (holds_same st)|done].
    + exact named_rest0.
    + done.
    + instantiate (1 := skip 1 (mk_explode (rest st2) (pos st2) (prev st2) (data (bump 0 st2)) (d st2 + 1) (d st2 + 1)
        (t st2) 0 false true (in_quote st2) (is_oid st2) (escape st2) (done_ st2) (c :: r))).
      simpl. by rewrite named_rest0.
    + rewrite named_attr0. unfold attr_step. rewrite named_trim0. cbn [BLANK EQUALS Z.eqb Pos.eqb andb].
      assert (rest st2 <> []) as Hne by (by rewrite named_rest0).
      destruct (holds_room st2 (c :: r) named_holds0 Hne) as [Hd0 Hd1].
      rewrite (put_room st2 0 (conj Hd0 Hd1)). cbn [mbind option_bind].
      rewrite (piece_holds st2 (c :: r) named_holds0 Hd1 Hnn). done.
  - split; simpl; try done; [by rewrite named_rest0|].
    eapply holds_next; [exact named_holds0|exact named_rest0|simpl; by rewrite named_rest0|done| |done|done].
    simpl. by rewrite length_insert.
  - done.
Qed.

(** ** Values *)

(** The state after [put_value]. *)
Definition bump_value (c : Z) (st : explode_state) : explode_state :=
  mk_explode (rest st) (pos st) (prev st) (<[Z.to_nat (d st) := c]> (data st)) (d st + 1) (dt st) (t st) (l st + 1)
    (in_attr st) (trim st) (in_quote st) (is_oid st) (escape st) (done_ st) (attr st).

Lemma put_value_skip st p c x tl : holds st p -> rest st = c :: tl ->
  put_value x (skip 1 st) = Some (bump_value x (skip 1 st)).
Proof. intros H E. unfold put_value. by rewrite (put_skip st p c x tl H E). Qed.

Lemma bump_value_holds st p c x tl : holds st p -> rest st = c :: tl -> holds (bump_value x (skip 1 st)) (p ++ [x]).
Proof. intros H E. eapply holds_same; [exact (bump_holds st p c x tl H E)|done..]. Qed.

(** Once the blanks are skipped, or for a byte that is neither blank nor quote. *)
Lemma value_step_char c st : in_quote st = false -> trim st = false \/ (c =? BLANK) = false /\ (c =? QUOTE) = false ->
  value_step c st = value_char c (set_trim false st).
Proof.
  intros Hq Ht. unfold value_step. rewrite Hq. destruct (trim st) eqn:E.
  - destruct Ht as [|[-> ->]]; [done|]. done.
  - f_equal. destruct st. simpl in *. by subst.
Qed.

(** Whether the blanks at the end of [v] are not protected by a later byte; the
    comma does not protect them. *)
Fixpoint pending (v : list Z) (b : bool) : bool :=
  match v with
  | [] => b
  | c :: v => pending v (if c =? COMMA then b else negb (must_quote c) && (c =? BLANK))
  end.

Lemma pending_app v w b : pending (v ++ w) b = pending w (pending v b).
Proof. revert b. induction v as [|c v IH]; intros b; [done|]. apply IH. Qed.

(** The state of [t] that goes with it. *)
Definition mark_ok (st : explode_state) (b : bool) : Prop := b = false -> t st = None.

Lemma valued_bump s1 cs a p c x tl :
  in_attr s1 = false -> in_quote s1 = false -> is_oid s1 = false -> escape s1 = false -> done_ s1 = cs -> attr s1 = a ->
  l s1 = len p -> holds s1 p -> rest s1 = c :: tl ->
  valued (bump_value x (skip 1 s1)) cs a (p ++ [x]) tl.
Proof.
  intros H1 H2 H3 H4 H5 H6 H7 H8 H9. split; simpl; try done.
  - by rewrite H9.
  - rewrite H7, length_app. simpl. lia.
  - by eapply bump_value_holds.
Qed.

(** A byte that stands for itself. *)
Lemma plain_char_run st cs a p c tl b : valued st cs a p (c :: tl) -> must_quote c = false -> c <> 0 ->
  trim st = false \/ c <> BLANK -> mark_ok st b ->
  exists st', runs st st' /\ valued st' cs a (p ++ [c]) tl /\ trim st' = false /\ mark_ok st' (c =? BLANK).
Proof.
  intros H Hq H0 Ht Hb. destruct H.
  set (tt := if c =? BLANK then match t st with None => Some (pos st) | Some t0 => Some t0 end else None).
  set (s1 := set_t tt (set_trim false st)).
  assert (holds s1 p) as Hh by (by apply (holds_same st)).
  exists (bump_value c (skip 1 s1)). split; [|split; [|split]].
  - eapply runs_step; [exact valued_rest0|done|by simpl; rewrite valued_rest0|]. rewrite valued_attr0.
    unfold must_quote in Hq. simpl in Hq. repeat (apply orb_false_iff in Hq as [? Hq]).
    rewrite value_step_char; [|done|].
    2:{ destruct Ht; [by left|right]. unfold BLANK, QUOTE in *. split; lia. }
    unfold value_char. simpl. rewrite valued_escape0. unfold COMMA, BACKSLASH.
    repeat match goal with E : (c =? _) = false |- _ => rewrite E; clear E end. simpl.
    unfold continue. erewrite (put_value_skip s1 p c); [done|exact Hh|exact valued_rest0].
  - by eapply valued_bump.
  - done.
  - intros E. simpl. unfold tt. by rewrite E.
Qed.

(** A byte behind a backslash. *)
Lemma escaped_step s1 p c tl : holds s1 p -> rest s1 = c :: tl -> must_quote c = true ->
  in_quote s1 = false -> trim s1 = false -> escape s1 = true ->
  value_step c s1
  = Some (Some (bump_value c (skip 1 (set_escape false (set_t (if c =? COMMA then t s1 else None) s1))))).
Proof.
  intros Hh Hr Hq Hiq Ht He. rewrite value_step_char by (done || by left). unfold value_char. simpl. rewrite He.
  destruct (c =? COMMA) eqn:Ec.
  - rewrite (put_value_skip (set_trim false s1) p c c tl); [|by apply (holds_same s1)|done]. simpl. unfold continue.
    simpl. destruct s1. simpl in *. by subst.
  - unfold must_quote in Hq. simpl in Hq. unfold COMMA in Ec. rewrite Ec in Hq. simpl in Hq.
    destruct (c =? BACKSLASH) eqn:Eb.
    + apply Z.eqb_eq in Eb. subst c. simpl. unfold continue.
      rewrite (put_value_skip (set_t None (set_escape false (set_trim false s1))) p BACKSLASH BACKSLASH tl);
        [|by apply (holds_same s1)|done]. destruct s1. simpl in *. by subst.
    + unfold BACKSLASH in Eb. rewrite Eb in Hq. simpl in Hq. rewrite Hq. unfold continue. simpl.
      rewrite (put_value_skip (set_t None (set_escape false (set_trim false s1))) p c c tl);
        [|by apply (holds_same s1)|done]. destruct s1. simpl in *. by subst.
Qed.

Lemma quoted_char_run st cs a p c tl b : valued st cs a p (BACKSLASH :: c :: tl) -> must_quote c = true ->
  mark_ok st b ->
  exists st', runs st st' /\ valued st' cs a (p ++ [c]) tl /\ trim st' = false
    /\ mark_ok st' (if c =? COMMA then b else false).
Proof.
  intros H Hq Hb. destruct H.
  set (s1 := skip 1 (set_escape true (set_trim false st))).
  assert (holds s1 p) as Hh.
  { eapply (holds_skip (set_escape true (set_trim false st))); [by apply (holds_same st)|exact valued_rest0]. }
  assert (rest s1 = c :: tl) as Hr by (simpl; by rewrite valued_rest0).
  assert (c <> 0) as Hc0 by (intros ->; done).
  set (s2 := set_escape false (set_t (if c =? COMMA then t s1 else None) s1)).
  exists (bump_value c (skip 1 s2)). split; [|split; [|split]].
  - eapply runs_trans; [eapply (runs_step _ _ st s1); [exact valued_rest0|done|by rewrite Hr|]
                       |eapply runs_step; [exact Hr|done|by simpl; rewrite valued_rest0|]].
    + rewrite valued_attr0, value_step_char; [|done|by right]. unfold value_char. simpl. by rewrite valued_escape0.
    + simpl. rewrite valued_attr0. by apply (escaped_step s1 p c tl).
  - eapply valued_bump; try done. by apply (holds_same s1).
  - done.
  - intros E. simpl. destruct (c =? COMMA); [by apply Hb|done].
Qed.

Lemma value_run v st cs a p tl b : valued st cs a p (ldb_dn_escape_internal v ++ tl) ->
  Forall (fun c => c <> 0) v -> trim st = false \/ head v <> Some BLANK -> mark_ok st b ->
  exists st', runs st st' /\ valued st' cs a (p ++ v) tl /\ mark_ok st' (pending v b).
Proof.
  intros H Hv. revert st p b H. induction Hv as [|c v Hc Hv IH]; intros st p b H Ht Hb.
  { exists st. rewrite app_nil_r. by split; [apply runs_refl|]. }
  unfold ldb_dn_escape_internal in H. simpl in H. fold (ldb_dn_escape_internal v) in H. unfold escape_char in H.
  assert (exists st1, runs st st1 /\ valued st1 cs a (p ++ [c]) (ldb_dn_escape_internal v ++ tl) /\ trim st1 = false
    /\ mark_ok st1 (if c =? COMMA then b else negb (must_quote c) && (c =? BLANK))) as (st1 & Hr1 & H1 & Ht1 & Hb1).
  { destruct (must_quote c) eqn:Eq.
    - by apply quoted_char_run.
    - replace (c =? COMMA) with false by (unfold must_quote in Eq; simpl in Eq; apply orb_false_iff in Eq as [Eq _]; done).
      apply Z.eqb_neq in Hc as E0. rewrite E0 in H. eapply plain_char_run; try done.
      destruct Ht as [|Ht]; [by left|right]. intros ->. done. }
  destruct (IH st1 (p ++ [c]) _ H1 (or_introl Ht1) Hb1) as (st2 & Hr2 & H2 & Hb2).
  exists st2. rewrite <- app_assoc in H2. split; [by eapply runs_trans|done].
Qed.

(** ** Components *)

Definition mkc (nv : list Z * list Z) : ldb_dn_component := mk_component nv.1 (Some nv.2) None None.

Lemma end_component_ok st v : holds st v -> d st < len (data st) -> l st = len v -> no_nul v ->
  end_component st = Some (mk_explode (rest st) (pos st) (prev st) (data (bump 0 st)) (d st + 1) (d st + 1) (t st) (l st)
    (in_attr st) (trim st) (in_quote st) (is_oid st) (escape st) (done_ st ++ [mkc (attr st, v)]) (attr st)).
Proof.
  intros Hh Hd Hl Hv. unfold end_component. pose proof (holds_dt _ _ Hh) as H0. pose proof (holds_d _ _ Hh) as H1.
  rewrite put_room by lia. cbn [mbind option_bind]. rewrite (piece_holds st v) by done. cbn [mbind option_bind].
  simpl. rewrite Hl, Z.eqb_refl. done.
Qed.

Lemma comma_run st cs a v tl : valued st cs a v (COMMA :: tl) -> t st = None -> no_nul v ->
  exists st', runs st st' /\ starts st' (cs ++ [mkc (a, v)]) tl.
Proof.
  intros [] Ht Hv.
  set (s1 := mk_explode tl (pos st + 1) COMMA (data st) (d st) (dt st) None (l st) true true false false false cs a).
  assert (rest st <> []) as Hne by (by rewrite valued_rest0).
  assert (holds s1 v) as Hh.
  { eapply (holds_same (skip 1 st)); [by eapply holds_skip|simpl..]; try done. by rewrite valued_rest0. }
  destruct (holds_room st v valued_holds0 Hne) as [_ Hd].
  eexists. split; [eapply runs_step; [exact valued_rest0|done| |]|].
  2:{ rewrite valued_attr0, value_step_char; [|done|by right]. unfold value_char. simpl. rewrite valued_escape0.
      unfold trim_back. simpl. rewrite Ht. simpl. unfold continue.
      match goal with |- context [end_component ?x] => replace x with s1 end.
      2:{ unfold s1, skip. simpl. by rewrite valued_rest0, valued_quote0, valued_oid0, valued_escape0, valued_done0, valued_name0, ?Ht. }
      rewrite (end_component_ok s1 v) by done. done. }
  - done.
  - split; try done. eapply holds_next; [exact valued_holds0|exact valued_rest0|done..| |done|done].
    simpl. by rewrite length_insert.
Qed.

Lemma end_run fuel st cs a v : valued st cs a v [0] -> t st = None -> no_nul v ->
  explode_loop (S fuel) st = Some (Some (cs ++ [mkc (a, v)])).
Proof.
  intros [] Ht Hv. simpl. rewrite valued_rest0. simpl. rewrite valued_attr0, valued_quote0. simpl.
  unfold trim_back. rewrite Ht. assert (rest st <> []) as Hne by (by rewrite valued_rest0).
  destruct (holds_room st v valued_holds0 Hne) as [_ Hd].
  rewrite (end_component_ok st v) by done. simpl. by rewrite valued_done0, valued_name0.
Qed.

(** ** Texts *)

(** Text that the loop reads as the components [nvs], wherever it stands. *)
Definition reads (s : list Z) (nvs : list (list Z * list Z)) : Prop :=
  no_nul s /\ forall st cs tl, starts st cs (s ++ tl) ->
  exists st' init n v, nvs = init ++ [(n, v)] /\ no_nul v /\ runs st st' /\ valued st' (cs ++ map mkc init) n v tl /\ t st' = None.

(** A component whose text is read back. *)
Record rdn_ok (nv : list Z * list Z) : Prop := {
  rdn_name : rdn_name_ok nv.1 = true;
  rdn_nul : no_nul nv.2;
  rdn_head : head nv.2 <> Some BLANK;
  rdn_pending : pending nv.2 false = false
}.

Definition rdn_text (nv : list Z * list Z) : list Z := nv.1 ++ EQUALS :: ldb_dn_escape_internal nv.2.

Lemma reads_join s1 s2 l1 l2 : reads s1 l1 -> reads s2 l2 -> reads (join s1 s2) (l1 ++ l2).
Proof.
  intros [N1 R1] [N2 R2]. split; [apply Forall_app_2; [done|by constructor]|].
  intros st cs tl H. unfold join in H. rewrite <- app_assoc in H. simpl in H.
  destruct (R1 st cs (COMMA :: s2 ++ tl) H) as (st1 & init1 & n1 & v1 & -> & Hv1 & Hr1 & H1 & Ht1).
  destruct (comma_run _ _ _ _ _ H1 Ht1 Hv1) as (st2 & Hr2 & H2).
  destruct (R2 _ _ _ H2) as (st3 & init2 & n2 & v2 & -> & Hv2 & Hr3 & H3 & Ht3).
  exists st3, (init1 ++ [(n1, v1)] ++ init2), n2, v2. split; [by rewrite <- !app_assoc|]. split; [done|].
  split; [eapply runs_trans; [exact Hr1|]; by eapply runs_trans|]. split; [|done].
  rewrite !map_app in *. simpl in *. by rewrite <- !app_assoc in *.
Qed.

(** Blanks before a component are skipped. *)
Lemma reads_blank s nvs : reads s nvs -> reads (BLANK :: s) nvs.
Proof.
  intros [N R]. split; [by constructor|]. intros st cs tl H. destruct H.
  assert (starts (skip 1 st) cs (s ++ tl)) as H'.
  { split; try done; [simpl; by rewrite starts_rest0|]. by eapply holds_skip. }
  destruct (R _ _ _ H') as (st' & init & n & v & E & Hv & Hr & Hst). exists st', init, n, v. split; [done|]. split; [done|].
  split; [|done]. eapply runs_trans; [|exact Hr]. eapply runs_step; [exact starts_rest0|done|simpl; by rewrite starts_rest0|].
  rewrite starts_attr0. unfold attr_step. by rewrite starts_trim0.
Qed.

Lemma escape_no_nul v : no_nul v -> no_nul (ldb_dn_escape_internal v).
Proof.
  induction 1 as [|c v Hc Hv IH]; [constructor|]. unfold ldb_dn_escape_internal. simpl. apply Forall_app. split; [|done].
  unfold escape_char. apply Z.eqb_neq in Hc as E. rewrite E. destruct (must_quote c); by repeat constructor.
Qed.

Lemma name_no_nul n : rdn_name_ok n = true -> no_nul n.
Proof.
  destruct n as [|c r]; [done|]. simpl. intros H. apply andb_true_iff in H as [Hc Hr].
  constructor; [by apply name_char_ok, isalpha_name|]. apply Forall_forall. intros x Hx.
  eapply forallb_forall in Hr; [by apply name_char_ok|by apply list_elem_of_In].
Qed.

Lemma reads_rdn nv : rdn_ok nv -> reads (rdn_text nv) [nv].
Proof.
  destruct nv as [n v]. intros []. simpl in *. split.
  { apply Forall_app. split; [by apply name_no_nul|]. constructor; [done|by apply escape_no_nul]. }
  intros st cs tl H. unfold rdn_text in H. rewrite <- app_assoc in H. simpl in H.
  destruct (name_run _ _ _ _ H) as (st1 & Hr1 & H1 & _ & Ht1); [done|].
  destruct (value_run v st1 cs n [] tl false H1) as (st2 & Hr2 & H2 & Hm2); [done|by right|by intros _|].
  exists st2, [], n, v. split; [done|]. split; [done|]. split; [by eapply runs_trans|]. split; [by rewrite app_nil_r|].
  by apply Hm2.
Qed.

Lemma fresh_length junk n : length (fresh junk n) = n.
Proof. unfold fresh. rewrite length_app, length_take, length_replicate. lia. Qed.

Lemma start_starts junk s : starts (explode_start junk s) [] (s ++ [0]).
Proof. split; try done. split; simpl; try done. rewrite fresh_length, length_app. simpl. lia. Qed.

Lemma explode_reads junk s nvs : reads s nvs -> explode_text junk s = Some (Some (map mkc nvs)).
Proof.
  intros [_ R]. destruct (R _ _ _ (start_starts junk s)) as (st & init & n & v & -> & Hv & (k & Hk & Hrun) & Hst & Ht).
  rewrite (valued_rest _ _ _ _ _ Hst) in Hk. simpl in Hk. rewrite length_app in Hk. simpl in Hk.
  unfold explode_text. replace (S (length s)) with (k + S (length s - k))%nat by lia.
  rewrite Hrun, (end_run _ _ _ _ _ Hst Ht Hv). by rewrite map_app.
Qed.

(** A text that is read begins with a blank or a letter or digit. *)
Lemma reads_head c s nvs : reads (c :: s) nvs -> c = BLANK \/ isalpha c = true \/ isdigit c = true.
Proof.
  intros H. pose proof (explode_reads [] _ _ H) as E. destruct H as [N _]. apply Forall_cons in N as [Hc _].
  unfold explode_text in E. erewrite loop_step in E; [|done|done]. simpl in E. unfold attr_step in E. simpl in E.
  destruct (c =? BLANK) eqn:Eb; [left; by apply Z.eqb_eq|]. destruct (negb (isascii c)); [done|].
  destruct (isdigit c); [by right; right|]. destruct (isalpha c); [by right; left|done].
Qed.

Lemma reads_ne s nvs : reads s nvs -> s <> [].
Proof. intros H ->. pose proof (explode_reads [] _ _ H) as E. discriminate E. Qed.

Lemma reads_special own s nvs : reads s nvs -> special (ldb_dn_new own (Some s)) = false.
Proof.
  intros H. destruct s as [|c s]; [by destruct (reads_ne _ _ H)|]. simpl.
  assert (c <> 64 /\ tolower c <> 60) as [H1 H2].
  { unfold tolower. destruct (reads_head _ _ _ H) as [->|[Hc|Hc]]; [done|..]; unfold isalpha, isdigit in Hc;
      destruct ((65 <=? c) && (c <=? 90)) eqn:E; bool_hyps; lia. }
  assert (forall n q, starts_caseless (S n) (60 :: q) (c :: s) = false) as H3.
  { intros n q. unfold starts_caseless. apply bool_decide_eq_false_2. simpl. intros [= E _]. by rewrite E in H2. }
  unfold str_GUID, str_SID, str_WKGUID. rewrite !H3, bool_decide_eq_false_2; [done|congruence].
Qed.

(** *** Printed texts *)

Fixpoint dn_text (nvs : list (list Z * list Z)) : list Z :=
  match nvs with
  | [] => []
  | [nv] => rdn_text nv
  | nv :: nvs => join (rdn_text nv) (dn_text nvs)
  end.

Lemma cstr_no_nul s : no_nul s -> cstr s = s.
Proof. induction 1 as [|c s Hc Hs IH]; [done|]. simpl. apply Z.eqb_neq in Hc as ->. by rewrite IH. Qed.

Lemma print_text nv : print_component nv = rdn_text nv ++ [COMMA].
Proof. unfold print_component, rdn_text. by rewrite <- app_assoc. Qed.

Lemma concat_print nvs : nvs <> [] -> concat (map print_component nvs) = dn_text nvs ++ [COMMA].
Proof.
  induction nvs as [|nv nvs IH]; [done|]. intros _. cbn [map concat]. rewrite print_text. destruct nvs as [|nv' nvs].
  - simpl. by rewrite app_nil_r.
  - rewrite IH by done. cbn [dn_text]. unfold join. by rewrite <- !app_assoc.
Qed.

Lemma reads_text nvs : Forall rdn_ok nvs -> nvs <> [] -> reads (dn_text nvs) nvs.
Proof.
  induction 1 as [|nv nvs Hnv Hnvs IH]; [done|]. intros _. destruct nvs as [|nv' nvs]; [by apply reads_rdn|].
  change (nv :: nv' :: nvs) with ([nv] ++ nv' :: nvs). apply reads_join; [by apply reads_rdn|by apply IH].
Qed.

Lemma print_components_text nvs : Forall rdn_ok nvs -> nvs <> [] -> print_components nvs = dn_text nvs.
Proof.
  intros H Hne. unfold print_components. rewrite concat_print by done. rewrite removelast_last.
  apply cstr_no_nul, (reads_text nvs); done.
Qed.

Lemma reads_print nvs : Forall rdn_ok nvs -> nvs <> [] -> reads (print_components nvs) nvs.
Proof. intros H Hne. rewrite print_components_text by done. by apply reads_text. Qed.

(** C21: A DN is read back from its text.  For components with names of letters,
    digits and hyphens and with values of any bytes but zero that do not begin
    with a blank and have no blank in their last run of blanks and commas, the
    text that [ldb_dn_get_linearized] prints, with its escapes, is a DN that
    [ldb_dn_validate] explodes into the same components. *)
Theorem ldb_dn_roundtrip junk own nvs dn :
  Forall rdn_ok nvs -> nvs <> [] ->
  invalid dn = false -> linearized dn = None -> components dn = Some (map mkc nvs) ->
  exists s dn', ldb_dn_get_linearized dn = Some (Some s, set_linearized (Some s) dn)
    /\ ldb_dn_validate junk (ldb_dn_new own (Some s)) = Some (true, dn')
    /\ components dn' = components dn.
Proof.
  intros Hok Hne Hi Hl Hc. pose proof (reads_print nvs Hok Hne) as Hr. exists (print_components nvs). eexists.
  unfold ldb_dn_get_linearized, ldb_dn_validate, ldb_dn_explode. rewrite Hi, Hl, Hc. split; [|split].
  - rewrite length_map. destruct nvs as [|nv nvs]; [done|]. simpl length. cbn [Nat.eqb].
    replace (mapM _ (map mkc (nv :: nvs))) with (Some (nv :: nvs)); [done|]. symmetry.
    apply mapM_Some. clear. induction (nv :: nvs) as [|[n v] l IH]; [constructor|]. by constructor.
  - pose proof (reads_special own _ _ Hr) as Hsp. pose proof (reads_ne _ _ Hr) as Hs.
    change (invalid (ldb_dn_new own (Some (print_components nvs)))) with false.
    change (components (ldb_dn_new own (Some (print_components nvs)))) with (@None (list ldb_dn_component)).
    change (linearized (ldb_dn_new own (Some (print_components nvs)))) with (Some (print_components nvs)).
    cbv iota. rewrite bool_decide_eq_false_2, Hsp by done. simpl orb. cbv iota.
    rewrite (explode_reads junk _ _ Hr). done.
  - done.
Qed.

(** A comma, a quote and a number sign in a value, and an empty value. *)
Lemma ldb_dn_roundtrip_witness :
  exists s dn', ldb_dn_get_linearized (mk_dn true false false false None None
      (Some (map mkc [([99; 110], [65; 44; 32; 66; 34; 35]); ([100; 99], [])])))
    = Some (Some s, set_linearized (Some s) (mk_dn true false false false None None
      (Some (map mkc [([99; 110], [65; 44; 32; 66; 34; 35]); ([100; 99], [])]))))
    /\ ldb_dn_validate [] (ldb_dn_new true (Some s)) = Some (true, dn')
    /\ components dn' = Some (map mkc [([99; 110], [65; 44; 32; 66; 34; 35]); ([100; 99], [])]).
Proof.
  apply (ldb_dn_roundtrip [] true [([99; 110], [65; 44; 32; 66; 34; 35]); ([100; 99], [])]
    (mk_dn true false false false None None (Some (map mkc [([99; 110], [65; 44; 32; 66; 34; 35]); ([100; 99], [])])))); try done.
  constructor; [|constructor; [|constructor]]; split; try done; repeat constructor; done.
Defined.

(** A blank at the end of a value is not escaped, and lost. *)
Example blank_lost :
  explode_text [] (print_components [([99; 110], [65; 32])]) = Some (Some [mk_component [99; 110] (Some [65]) None None]).
Proof. reflexivity. Qed.

(** A zero in a value is printed as three zeros, which end the text. *)
Example zero_lost : print_components [([99; 110], [65; 0; 66]); ([100; 99], [67])] = [99; 110; 61; 65].
Proof. reflexivity. Qed.
