(* ===== verification/LdbDnBounds.v ===== *)
(** * Distinguished names: the explosion stays in its buffers

    For a text without blanks whose last escape is complete the loop of
    [ldb_dn_explode] never leaves the text or the buffer of the pieces, and what
    the buffer held before does not matter.  Examples show what happens
    otherwise. *)

From S2P Require Import Prelude CLib LdbFilter LdbAttr LdbDn LdbDnSpec.

#[local] Abbreviation len x := (Z.of_nat (length x)).
#[local] Arguments put : simpl never.
#[local] Arguments piece : simpl never.
#[local] Arguments attr_step : simpl never.
#[local] Arguments value_step : simpl never.

(** ** The text that is left *)

(** The text does not end with a backslash and one byte. *)
Definition no_short (s : list Z) : Prop := forall p c, s <> p ++ [BACKSLASH; c].

Definition esc_prefix (esc : bool) : list Z := if esc then [BACKSLASH] else [].

(** The memory from [p] on; [esc] when a backslash was just read. *)
Definition text_ok (esc : bool) (r : list Z) : Prop :=
  exists tl, r = tl ++ [0] /\ no_nul tl /\ (BLANK ∉ tl) /\ no_short (esc_prefix esc ++ tl).

Lemma no_short_tail a s : no_short (a ++ s) -> no_short s.
Proof. intros H p c ->. apply (H (a ++ p) c). by rewrite app_assoc. Qed.

Lemma text_ok_cons esc c r : text_ok esc (c :: r) -> c <> 0 ->
  c <> BLANK /\ text_ok false r /\ (esc = false -> c = BACKSLASH -> text_ok true r)
  /\ (esc = true -> exists c2 r2, r = c2 :: r2 /\ text_ok false r2).
Proof.
  intros (tl & E & Hn & Hb & Hs) Hc. destruct tl as [|x tl]; [by injection E as ->|]. simpl in E. injection E as -> ->.
  apply Forall_cons in Hn as [_ Hn]. apply not_elem_of_cons in Hb as [Hb1 Hb2].
  split; [congruence|]. split; [|split].
  - exists tl. split; [done|]. split; [done|]. split; [done|]. simpl. destruct esc; [apply (no_short_tail [BACKSLASH; x])|apply (no_short_tail [x])]; exact Hs.
  - intros -> ->. exists tl. by split.
  - intros ->. destruct tl as [|c2 tl]; [by destruct (Hs [] x)|]. exists c2, (tl ++ [0]). split; [done|].
    apply Forall_cons in Hn as [_ Hn]. apply not_elem_of_cons in Hb2 as [_ Hb2]. exists tl. split; [done|]. split; [done|].
    split; [done|]. by apply (no_short_tail [BACKSLASH; x; c2]).
Qed.

(** ** The state *)

Record inv (st : explode_state) : Prop := {
  inv_dt : 0 <= dt st <= d st;
  inv_d : d st <= pos st;
  inv_cap : len (data st) = pos st + len (rest st);
  inv_t : t st = None;
  inv_text : text_ok (escape st) (rest st);
  inv_escape : escape st = true -> in_attr st = false /\ in_quote st = false /\ trim st = false
}.

(** The same state over another buffer, which agrees below [d]. *)
Definition with_data (D : list Z) (st : explode_state) : explode_state :=
  mk_explode (rest st) (pos st) (prev st) D (d st) (dt st) (t st) (l st)
    (in_attr st) (trim st) (in_quote st) (is_oid st) (escape st) (done_ st) (attr st).

Definition sim (st st' : explode_state) : Prop :=
  exists D, st' = with_data D st /\ length D = length (data st) /\ take (Z.to_nat (d st)) D = take (Z.to_nat (d st)) (data st).

(** Two runs give the same answer, or states that are alike. *)
Definition alike (n : nat) (o o' : outcome) : Prop :=
  match o, o' with
  | Some None, Some None => True
  | Some (Some a), Some (Some b) => sim a b /\ inv a /\ (length (rest a) <= n)%nat
  | _, _ => False
  end.

Lemma take_insert_S (D : list Z) n x : (n < length D)%nat -> take (S n) (<[n := x]> D) = take n D ++ [x].
Proof.
  intros H. rewrite (take_S_r _ _ x); [by rewrite take_insert_ge|]. by apply list_lookup_insert_eq.
Qed.

Lemma put_sim st st' x : sim st st' -> 0 <= d st < len (data st) -> put x st = Some (bump x st)
  /\ put x st' = Some (bump x st') /\ sim (bump x st) (bump x st').
Proof.
  intros (D & -> & Hl & Ht) Hd. split; [by apply put_room|]. split; [apply put_room; simpl; lia|].
  exists (<[Z.to_nat (d st) := x]> D). split; [done|]. simpl. rewrite !length_insert. split; [done|].
  replace (Z.to_nat (d st + 1)) with (S (Z.to_nat (d st))) by lia. rewrite !take_insert_S by lia. by rewrite Ht.
Qed.

(** The terminated piece is the same in both buffers. *)
Lemma scan_found l r r' : exists v, scan (fun c => negb (c =? 0)) (l ++ 0 :: r) = Some v
  /\ (fst <$> scan (fun c => negb (c =? 0)) (l ++ 0 :: r')) = Some v.1.
Proof.
  induction l as [|c l (v & E & E')]; simpl; [by eexists|]. destruct (c =? 0); simpl; [by eexists|].
  rewrite E. simpl. destruct v as [v w]. simpl in *. destruct (scan _ (l ++ 0 :: r')) as [[v' w']|]; [|done].
  simpl in E'. injection E' as ->. by eexists.
Qed.

Lemma piece_sim st st' : sim st st' -> 0 <= dt st <= d st -> d st < len (data st) ->
  exists v, piece (bump 0 st) = Some v /\ piece (bump 0 st') = Some v.
Proof.
  intros (D & -> & Hl & Ht) Hdt Hd. unfold piece. simpl. replace (dt st <? 0) with false by lia.
  assert (forall E, take (Z.to_nat (d st)) E = take (Z.to_nat (d st)) (data st) -> length E = length (data st) ->
    drop (Z.to_nat (dt st)) (<[Z.to_nat (d st) := 0]> E)
    = drop (Z.to_nat (dt st)) (take (Z.to_nat (d st)) (data st)) ++ 0 :: drop (S (Z.to_nat (d st))) E) as Hdrop.
  { intros E HE HL. rewrite insert_take_drop by lia. rewrite HE, drop_app_le; [done|]. rewrite length_take. lia. }
  rewrite (Hdrop (data st)), (Hdrop D) by done.
  destruct (scan_found (drop (Z.to_nat (dt st)) (take (Z.to_nat (d st)) (data st)))
    (drop (S (Z.to_nat (d st))) (data st)) (drop (S (Z.to_nat (d st))) D)) as ([v w] & -> & E). simpl.
  exists v. split; [done|]. destruct (scan _ _) as [[v' w']|]; [|done]. simpl in E. by injection E as ->.
Qed.

(** ** Steps *)

Lemma inv_next st st' w r : inv st -> rest st = w ++ r -> w <> [] -> rest st' = r -> pos st' = pos st + len w ->
  length (data st') = length (data st) -> 0 <= dt st' <= d st' -> d st' <= d st + 1 -> t st' = None ->
  text_ok (escape st') r -> (escape st' = true -> in_attr st' = false /\ in_quote st' = false /\ trim st' = false) ->
  inv st'.
Proof.
  intros [] E Hw E1 E2 E3 H1 H2 H3 H4 H5. rewrite E, length_app in inv_cap0.
  assert (1 <= len w) by (destruct w; [done|simpl; lia]). split; rewrite ?E1, ?E2, ?E3; try done; lia.
Qed.

(** The state after a byte [c], or after the bytes [w]. *)
#[local] Ltac next_inv Hi E w He :=
  eapply (inv_next _ _ w); [exact Hi|exact E|done|simpl; rewrite ?E, ?length_insert, ?He; simpl; try done..];
  try (destruct Hi; lia); try done; by apply Hi.

Lemma inv_room st c r : inv st -> rest st = c :: r -> 0 <= d st < len (data st).
Proof. intros [] E. rewrite E in inv_cap0. simpl in inv_cap0. lia. Qed.

Lemma put_alike n S S' x : sim S S' -> 0 <= d S < len (data S) -> inv (bump x S) -> (length (rest S) <= n)%nat ->
  alike n (continue (put x S)) (continue (put x S')).
Proof. intros Hs Hd Hi Hn. destruct (put_sim S S' x Hs Hd) as (-> & -> & H). by split. Qed.

Lemma put_value_sim S S' x : sim S S' -> 0 <= d S < len (data S) ->
  put_value x S = Some (bump_value x S) /\ put_value x S' = Some (bump_value x S') /\ sim (bump_value x S) (bump_value x S').
Proof.
  intros Hs Hd. unfold put_value. destruct (put_sim S S' x Hs Hd) as (-> & -> & (D & E & Hl & Ht)). simpl.
  split; [done|]. split; [done|]. exists D. split; [|done]. unfold with_data in *. simpl in *. injection E. intros.
  unfold bump_value. f_equal; congruence.
Qed.

Lemma put_value_alike n S S' x : sim S S' -> 0 <= d S < len (data S) -> inv (bump_value x S) -> (length (rest S) <= n)%nat ->
  alike n (continue (put_value x S)) (continue (put_value x S')).
Proof. intros Hs Hd Hi Hn. destruct (put_value_sim S S' x Hs Hd) as (-> & -> & H). by split. Qed.

(** A terminated piece, whatever follows. *)
Lemma terminated st st' : sim st st' -> inv st -> 0 <= d st < len (data st) -> exists v,
  put 0 st = Some (bump 0 st) /\ put 0 st' = Some (bump 0 st') /\ sim (bump 0 st) (bump 0 st')
  /\ piece (bump 0 st) = Some v /\ piece (bump 0 st') = Some v.
Proof.
  intros Hs Hi Hd. destruct (put_sim st st' 0 Hs Hd) as (E & E' & H).
  destruct (piece_sim st st' Hs (inv_dt _ Hi)) as (v & Hv & Hv'); [lia|]. by exists v.
Qed.

Lemma attr_step_alike c r st st' : sim st st' -> inv st -> rest st = [c] ++ r -> c <> 0 -> in_attr st = true ->
  alike (length r) (attr_step c st) (attr_step c st').
Proof.
  intros Hs Hi E Hc Ha. pose proof (inv_text _ Hi) as Ht. rewrite E in Ht. destruct (text_ok_cons _ _ _ Ht Hc) as (Hb & Hr & _).
  pose proof (inv_room _ _ _ Hi E) as Hroom.
  assert (escape st = false) as He.
  { destruct (escape st) eqn:He; [|done]. apply Hi in He. destruct He. congruence. }
  destruct (terminated st st' Hs Hi Hroom) as (v & Ep & Ep' & Hsim & Ev & Ev').
  pose proof Hs as (D & -> & Hl & HD). unfold attr_step. simpl. apply Z.eqb_neq in Hb as ->.
  destruct (trim st) eqn:Etrim.
  - destruct (negb (isascii c)); [done|].
    destruct (isdigit c); [|destruct (negb (isalpha c)); [done|]]; apply put_alike; try done; try (by exists D);
      try (simpl; by rewrite E); next_inv Hi E [c] He.
  - simpl. destruct (c =? EQUALS).
    + rewrite Ep, Ep'. simpl. rewrite Ev, Ev'. simpl. split; [|split; [next_inv Hi E [c] He|simpl; by rewrite E]].
      destruct Hsim as (D' & E' & Hl' & HD'). exists D'. split; [|done].
      unfold with_data, skip, bump in *. simpl in *. injection E' as ->. done.
    + destruct (negb (isascii c)); [done|]. destruct (is_oid st && _); [done|]. destruct (negb _); [done|].
      apply put_alike; try done; [by exists D|next_inv Hi E [c] He|simpl; by rewrite E].
Qed.

Lemma end_component_alike st st' : sim st st' -> inv st -> 0 <= d st < len (data st) -> exists a b,
  end_component st = Some a /\ end_component st' = Some b /\ sim a b /\ done_ a = done_ b /\ rest a = rest st
  /\ pos a = pos st /\ length (data a) = length (data st) /\ dt a = d st + 1 /\ d a = d st + 1 /\ t a = t st
  /\ escape a = escape st /\ in_attr a = in_attr st /\ in_quote a = in_quote st /\ trim a = trim st.
Proof.
  intros Hs Hi Hd. destruct (terminated st st' Hs Hi Hd) as (v & Ep & Ep' & Hsim & Ev & Ev').
  unfold end_component. rewrite Ep, Ep'. cbn [mbind option_bind]. rewrite Ev, Ev'. cbn [mbind option_bind].
  eexists _, _. split; [done|]. split; [done|]. simpl. rewrite length_insert.
  destruct Hsim as (D & E & Hl & HD). pose proof Hs as (D0 & -> & _). split; [|done].
  exists D. split; [|done]. unfold with_data, bump in *. simpl in *. injection E as ->. done.
Qed.

Lemma value_char_alike c r st st' : sim st st' -> inv st -> rest st = [c] ++ r -> c <> 0 ->
  in_attr st = false -> in_quote st = false -> trim st = false ->
  alike (length r) (value_char c st) (value_char c st').
Proof.
  intros Hs Hi E Hc Ha Hq Htr. pose proof (inv_text _ Hi) as Ht. rewrite E in Ht.
  destruct (text_ok_cons _ _ _ Ht Hc) as (Hb & Hr & Hbs & Hesc). pose proof (inv_room _ _ _ Hi E) as Hroom.
  pose proof (inv_t _ Hi) as Et.
  assert (exists D, st' = with_data D st /\ length D = length (data st)
    /\ take (Z.to_nat (d st)) D = take (Z.to_nat (d st)) (data st)) as (D & -> & Hl & HD) by done.
  unfold value_char. simpl. destruct (c =? COMMA); [|destruct (_ || _) eqn:Esp; [|destruct (c =? BACKSLASH) eqn:Ebs]].
  - destruct (escape st) eqn:He.
    + destruct (put_value_sim (skip 1 st) (skip 1 (with_data D st)) c) as (-> & -> & Hsim); [by exists D|done|]. simpl.
      split; [|split; [next_inv Hi E [c] He|simpl; by rewrite E]].
      destruct Hsim as (D' & E' & Hl' & HD'). exists D'. split; [|done].
      unfold with_data, bump_value, skip in *. simpl in *. injection E' as ->. done.
    + unfold trim_back. simpl. rewrite Et. simpl.
      set (s1 := mk_explode (drop 1 (rest st)) (pos st + 1) (nth 0 (rest st) 0) (data st) (d st) (dt st) (t st) (l st)
        true true (in_quote st) (is_oid st) (escape st) (done_ st) (attr st)).
      destruct (end_component_alike s1 (with_data D s1)) as (a & b & Ea & Eb & Hsim & Hdone & H); [by exists D|
        unfold s1; next_inv Hi E [c] He|done|].
      replace (mk_explode _ _ _ (data st) _ _ _ _ _ _ _ _ _ _ _) with s1 by (unfold s1; by rewrite ?Et, ?He).
      replace (mk_explode _ _ _ D _ _ _ _ _ _ _ _ _ _ _) with (with_data D s1) by (unfold s1, with_data; simpl; by rewrite ?Et, ?He).
      rewrite Ea, Eb. simpl. destruct H as (H1 & H2 & H3 & H4 & H5 & H6 & H7 & H8 & H9 & H10).
      split; [done|]. split; [|rewrite H1; simpl; by rewrite E].
      eapply (inv_next _ _ [c]); [exact Hi|exact E|done|rewrite ?H1, ?H2, ?H3, ?H4, ?H5, ?H6, ?H7, ?H8, ?H9, ?H10; simpl..];
        try done; try (destruct Hi; lia); [by rewrite E|by rewrite He|by rewrite He].
  - destruct (escape st) eqn:He; simpl; [|done].
    apply put_value_alike; [by exists D|done|next_inv Hi E [c] He|simpl; by rewrite E].
  - apply Z.eqb_eq in Ebs. destruct (escape st) eqn:He; simpl.
    + apply put_value_alike; [by exists D|done|next_inv Hi E [c] He|simpl; by rewrite E].
    + pose proof (Hbs eq_refl Ebs) as Hr'. split; [by exists D|]. split; [next_inv Hi E [c] He|simpl; by rewrite E].
  - destruct (escape st) eqn:He.
    + destruct (sscanf_02X (cstr (rest st))) as [x|]; [|done]. destruct (Hesc eq_refl) as (c2 & r2 & -> & Hr2).
      apply put_value_alike; [by exists D|done| |simpl; rewrite E; change (drop 2 ([c] ++ c2 :: r2)) with r2; simpl; lia].
      change ([c] ++ c2 :: r2) with ([c; c2] ++ r2) in E. next_inv Hi E [c; c2] He.
    + apply Z.eqb_neq in Hb. rewrite Hb. apply put_value_alike; [by exists D|done|next_inv Hi E [c] He|simpl; by rewrite E].
Qed.

Lemma value_step_alike c r st st' : sim st st' -> inv st -> rest st = [c] ++ r -> c <> 0 -> in_attr st = false ->
  alike (length r) (value_step c st) (value_step c st').
Proof.
  intros Hs Hi E Hc Ha. pose proof (inv_text _ Hi) as Ht. rewrite E in Ht. destruct (text_ok_cons _ _ _ Ht Hc) as (Hb & Hr & _).
  pose proof (inv_room _ _ _ Hi E) as Hroom. pose proof (inv_t _ Hi) as Et.
  assert (exists D, st' = with_data D st /\ length D = length (data st)
    /\ take (Z.to_nat (d st)) D = take (Z.to_nat (d st)) (data st)) as (D & -> & Hl & HD) by done.
  destruct (in_quote st) eqn:Hq.
  - assert (escape st = false) as He.
    { destruct (escape st) eqn:He; [|done]. apply Hi in He. destruct He as (_ & He & _). congruence. }
    unfold value_step. simpl. rewrite Hq. destruct ((c =? QUOTE) && _).
    + split; [by exists D|]. split; [next_inv Hi E [c] He|simpl; by rewrite E].
    + apply put_value_alike; [by exists D|done|next_inv Hi E [c] He|simpl; by rewrite E].
  - apply Z.eqb_neq in Hb. destruct (trim st) eqn:Htr; [destruct (c =? QUOTE) eqn:Equ|].
    + unfold value_step. simpl. rewrite Hq, Htr, Hb, Equ.
      assert (escape st = false) as He.
      { destruct (escape st) eqn:He; [|done]. apply Hi in He. destruct He as (_ & _ & He). congruence. }
      split; [by exists D|]. split; [next_inv Hi E [c] He|simpl; by rewrite E].
    + rewrite !value_step_char by (done || by right). apply value_char_alike; try done; [by exists D|].
      by destruct Hi; split.
    + rewrite !value_step_char by (done || by left). apply value_char_alike; try done; [by exists D|].
      by destruct Hi; split.
Qed.

Lemma loop_alike fuel st st' : sim st st' -> inv st -> (length (rest st) <= fuel)%nat ->
  exists r, explode_loop fuel st = Some r /\ explode_loop fuel st' = Some r.
Proof.
  revert st st'. induction fuel as [|fuel IH]; intros st st' Hs Hi Hf.
  { destruct (inv_text _ Hi) as (tl & E & _). rewrite E, length_app in Hf. simpl in Hf. lia. }
  assert (rest st' = rest st /\ in_attr st' = in_attr st /\ in_quote st' = in_quote st) as (Er & Ea & Eq)
    by (by destruct Hs as (D & -> & _)).
  destruct (rest st) as [|c r] eqn:E; [by destruct (inv_text _ Hi) as ([|] & E' & _); rewrite E in E'|].
  destruct (Z.eq_dec c 0) as [->|Hc].
  - simpl. rewrite E, Er. simpl. rewrite Ea, Eq. destruct (in_attr st || in_quote st); [by exists None|].
    assert (trim_back st = st /\ trim_back st' = st') as [-> ->].
    { unfold trim_back. rewrite (inv_t _ Hi). destruct Hs as (D & -> & _). simpl. by rewrite (inv_t _ Hi). }
    destruct (end_component_alike st st' Hs Hi (inv_room _ _ _ Hi E)) as (a & b & -> & -> & _ & Hd & _). simpl.
    exists (Some (done_ a)). by rewrite <- Hd.
  - assert (alike (length r) (if in_attr st then attr_step c st else value_step c st)
      (if in_attr st' then attr_step c st' else value_step c st')) as Hal.
    { rewrite Ea. destruct (in_attr st) eqn:Hat; [by apply attr_step_alike|by apply value_step_alike]. }
    rewrite (loop_step fuel c r st E Hc), (loop_step fuel c r st' Er Hc). simpl in Hf.
    assert (forall o o' : option (option explode_state), alike (length r) o o' -> exists x,
      (r0 ← o; match r0 with None => Some None | Some s => explode_loop fuel s end) = Some x
      /\ (r0 ← o'; match r0 with None => Some None | Some s => explode_loop fuel s end) = Some x) as Hgen.
    { intros [[a|]|] [[b|]|]; try done; intros H; [|by exists None]. destruct H as (Hsim & Hinv & Hlen).
      apply IH; [done|done|lia]. }
    destruct (in_attr st), (in_attr st'); by apply Hgen.
Qed.

Lemma start_inv junk s : no_nul s -> BLANK ∉ s -> no_short s -> inv (explode_start junk s).
Proof.
  intros Hn Hb Hs. split; simpl; try done; [rewrite fresh_length, length_app; simpl; lia|by exists s].
Qed.

Lemma start_sim junk junk' s : sim (explode_start junk s) (explode_start junk' s).
Proof. exists (fresh junk' (S (length s))). split; [done|]. simpl. by rewrite !fresh_length. Qed.

(** C22: The explosion of a DN stays in its buffers.  For any text without blanks
    that does not end with a backslash and one byte, valid or not, the loop of
    [ldb_dn_explode] ends, with components or with an invalid DN, reads and
    writes only the text and the buffer of the pieces, and its answer does not
    depend on what the buffer held before. *)
Theorem ldb_dn_explode_in_bounds s : no_nul s -> BLANK ∉ s -> (forall p c, s <> p ++ [BACKSLASH; c]) ->
  exists r, forall junk, explode_text junk s = Some r.
Proof.
  intros Hn Hb Hs. destruct (loop_alike (S (length s)) (explode_start [] s) (explode_start [] s)) as (r & E & _);
    [apply start_sim|by apply start_inv|simpl; rewrite length_app; simpl; lia|].
  exists r. intros junk. destruct (loop_alike (S (length s)) (explode_start [] s) (explode_start junk s)) as (r' & E1 & E2);
    [apply start_sim|by apply start_inv|simpl; rewrite length_app; simpl; lia|].
  unfold explode_text. congruence.
Qed.

(** "a=\,b,c=\41" and more *)
Lemma ldb_dn_explode_in_bounds_witness :
  exists r, forall junk, explode_text junk [97; 61; 92; 44; 98; 44; 99; 61; 92; 52; 49] = Some r.
Proof.
  apply ldb_dn_explode_in_bounds; [by repeat constructor|by apply (bool_decide_unpack _); vm_compute|].
  intros p c E. apply (f_equal reverse) in E. rewrite reverse_app in E. discriminate E.
Defined.

(** Blanks before an escaped comma at the end, "a=b \,\,\,\,\,": the trimming goes
    back beyond the start of the buffer. *)
Example explode_underflow :
  explode_text [] [97; 61; 98; 32; 92; 44; 92; 44; 92; 44; 92; 44; 92; 44] = None.
Proof. reflexivity. Qed.

(** Blanks before a comma are remembered in the next component: the second value
    of "a=b ,c=" has a length that is not that of its data, which are what the
    buffer held before, and run out of it when that has no zero. *)
Example explode_stale :
  explode_text [] [97; 61; 98; 32; 44; 99; 61]
  = Some (Some [mk_component [97] (Some [98]) None None; mk_component [99] None None None])
  /\ explode_text (replicate 8 7) [97; 61; 98; 32; 44; 99; 61] = None.
Proof. split; reflexivity. Qed.

(** An escape of one digit at the end, "a=\4": the loop goes on behind the text. *)
Example explode_overread : explode_text [] [97; 61; 92; 52] = None.
Proof. reflexivity. Qed.

(** "1.2=a", an attribute by its OID, and "a =b" are refused, "c n=a" is read as "cn=a". *)
Example explode_names :
  explode_text [] [49; 46; 50; 61; 97] = Some None /\ explode_text [] [97; 32; 61; 98] = Some None
  /\ explode_text [] [99; 32; 110; 61; 97] = Some (Some [mk_component [99; 110] (Some [97]) None None]).
Proof. repeat split; reflexivity. Qed.
