(* ===== verification/LdbDnRefine.v ===== *)
(** * Distinguished names: a DN object is a list of components

    The relation between a DN object and the list of its names and values, which
    says what each cached form has to do with it; every operation keeps it and
    does to the list what it should.  [ldb_dn_refines_list] puts the operations
    together, over any number of objects. *)

From S2P Require Import Prelude CLib LdbFilter LdbAttr LdbDn LdbDnSpec.

Abbreviation rdn := (list Z * list Z)%type.

Section refine.
Context (attributes : list ldb_schema_attribute) (def : ldb_schema_attribute) (junk : list Z).

(** ** Canonical forms *)

(** The canonical form of a component, when there is one. *)
Definition fold_option (nv : rdn) : option rdn :=
  a ← ldb_schema_attribute_by_name attributes def (ldb_attr_casefold nv.1);
  r ← canonicalise_fn (syntax a) false nv.2;
  cv ← r;
  Some (ldb_attr_casefold nv.1, cv).

Definition fold_rdn (nv : rdn) : rdn := default nv (fold_option nv).

(** A component that is read back from its text and has a canonical form. *)
Record good (nv : rdn) : Prop := {
  good_rdn : rdn_ok nv;
  good_fold : fold_option nv = Some (fold_rdn nv);
  good_nul : no_nul (fold_rdn nv).2;
  good_len : Z.of_nat (length (fold_rdn nv).2) < 2 ^ 31
}.

Definition mkf (nv : rdn) : ldb_dn_component :=
  mk_component nv.1 (Some nv.2) (Some (fold_rdn nv).1) (Some (fold_rdn nv).2).

(** A component without what is folded of it. *)
Definition plain (c : ldb_dn_component) : ldb_dn_component := set_cf None None c.

(** A folded value has a folded name. *)
Definition cf_ok (c : ldb_dn_component) : Prop := cf_value c = None \/ is_Some (cf_name c).

(** ** The relation *)

Record represents (dn : ldb_dn) (nvs : list rdn) : Prop := {
  rep_ldb : ldb dn = true;
  rep_special : special dn = false;
  rep_invalid : invalid dn = false;
  rep_ne : nvs <> [];
  rep_good : Forall good nvs;
  rep_some : linearized dn = None -> components dn <> None;
  rep_lin : forall s, linearized dn = Some s -> reads s nvs;
  rep_comp : forall cs, components dn = Some cs -> map plain cs = map mkc nvs;
  rep_cf : forall cs, components dn = Some cs -> Forall cf_ok cs;
  rep_fold : valid_case dn = true -> components dn = Some (map mkf nvs);
  rep_casefold : forall s, casefold dn = Some s -> valid_case dn = true /\ s = print_components (map fold_rdn nvs)
}.

Lemma good_rdns nvs : Forall good nvs -> Forall rdn_ok nvs.
Proof. intros H. eapply Forall_impl; [exact H|]. by intros nv []. Qed.

Lemma cf_ok_plain cs : Forall cf_ok (map plain cs).
Proof. induction cs as [|c cs IH]; constructor; [by left|done]. Qed.

Lemma cf_ok_mkc nvs : Forall cf_ok (map mkc nvs).
Proof. induction nvs as [|nv nvs IH]; constructor; [by left|done]. Qed.

Lemma cf_ok_mkf nvs : Forall cf_ok (map mkf nvs).
Proof. induction nvs as [|nv nvs IH]; constructor; [by right|done]. Qed.

Lemma plain_mkf nvs : map plain (map mkf nvs) = map mkc nvs.
Proof. rewrite map_map. by apply map_ext. Qed.

Lemma plain_mkc nvs : map plain (map mkc nvs) = map mkc nvs.
Proof. rewrite map_map. by apply map_ext. Qed.

(** What [plain] keeps. *)
Lemma plain_inv cs nvs : map plain cs = map mkc nvs ->
  Forall2 (fun c nv => name c = nv.1 /\ value c = Some nv.2) cs nvs.
Proof.
  revert nvs. induction cs as [|c cs IH]; intros [|nv nvs]; try done. simpl. intros E.
  injection E as E1 E2 E3. constructor; [done|by apply IH].
Qed.

Lemma rep_explode dn nvs : represents dn nvs -> exists dn',
  ldb_dn_explode junk dn = Some (true, dn') /\ represents dn' nvs
  /\ components dn' <> None /\ linearized dn' = linearized dn /\ casefold dn' = casefold dn /\ valid_case dn' = valid_case dn.
Proof.
  intros H. destruct dn as [ld sp inv vc lin cf comp]. pose proof H as []. simpl in *. subst.
  unfold ldb_dn_explode. simpl. destruct comp as [cs|]; [by eexists|]. destruct lin as [s|]; [|by destruct rep_some0].
  pose proof (rep_lin0 s eq_refl) as Hs. rewrite bool_decide_eq_false_2 by (by eapply reads_ne). simpl.
  rewrite (explode_reads junk s nvs Hs). simpl. eexists. split; [done|]. split; [|done].
  split; simpl; try done; [intros cs [= <-]; apply plain_mkc|intros cs [= <-]; apply cf_ok_mkc|intros ->; by specialize (rep_fold0 eq_refl)].
Qed.

(** The components, once they are there. *)
Lemma rep_comps dn nvs : represents dn nvs -> components dn <> None ->
  exists cs, components dn = Some cs /\ comps dn = cs /\ map plain cs = map mkc nvs /\ length cs = length nvs.
Proof.
  intros H Hne. destruct (components dn) as [cs|] eqn:E; [|done]. exists cs. unfold comps. rewrite E.
  pose proof (rep_comp _ _ H cs E) as Hp. split; [done|]. split; [done|]. split; [done|].
  by rewrite <- (length_map plain cs), Hp, length_map.
Qed.

Lemma mapM_values cs (nvs : list rdn) : Forall2 (fun c nv => name c = nv.1 /\ value c = Some nv.2) cs nvs ->
  mapM (fun c => v ← value c; Some (name c, v)) cs = Some nvs.
Proof.
  induction 1 as [|c [n v] cs nvs [E1 E2] _ IH]; [done|]. simpl in *. rewrite E2. simpl. rewrite IH. simpl. by subst.
Qed.

Lemma rep_linearized dn nvs : represents dn nvs -> exists s dn',
  ldb_dn_get_linearized dn = Some (Some s, dn') /\ reads s nvs /\ represents dn' nvs
  /\ linearized dn' = Some s /\ components dn' = components dn /\ casefold dn' = casefold dn /\ valid_case dn' = valid_case dn.
Proof.
  intros H. destruct dn as [ld sp inv vc lin cf comp]. pose proof H as []. simpl in *. subst.
  unfold ldb_dn_get_linearized. simpl. destruct lin as [s|]; [exists s; eexists; by eauto 10|].
  destruct comp as [cs|]; [|by destruct rep_some0]. pose proof (plain_inv _ _ (rep_comp0 cs eq_refl)) as Hp.
  assert (length cs = length nvs) as Hl by (by eapply Forall2_length).
  replace (length cs =? 0)%nat with false.
  2:{ symmetry. apply Nat.eqb_neq. rewrite Hl. by destruct nvs. }
  rewrite (mapM_values _ _ Hp). simpl. pose proof (reads_print nvs (good_rdns _ rep_good0) rep_ne0) as Hr.
  eexists _, _. split; [done|]. split; [exact Hr|]. split; [|done].
  split; simpl; try done. by intros s [= <-].
Qed.

Lemma casefold_components_ok cs nvs : Forall2 (fun c nv => name c = nv.1 /\ value c = Some nv.2) cs nvs ->
  Forall good nvs -> casefold_components attributes def cs = Some (Some (map mkf nvs)).
Proof.
  induction 1 as [|c [n v] cs nvs [E1 E2] _ IH]; [done|]. intros Hg. apply Forall_cons in Hg as [[_ Hf _ _] Hg].
  simpl in *. subst. rewrite E2. unfold fold_option in Hf. simpl in Hf.
  destruct (ldb_schema_attribute_by_name _ _ _) as [a|]; [|done]. simpl in *.
  destruct (canonicalise_fn _ _ _) as [[cv|]|]; try done. simpl in *. rewrite IH by done. simpl.
  unfold mkf. simpl. injection Hf as Hf. rewrite <- Hf. simpl. unfold set_cf. by rewrite E2.
Qed.

Lemma rep_casefold_internal dn nvs : represents dn nvs -> exists dn',
  ldb_dn_casefold_internal attributes def junk dn = Some (true, dn') /\ represents dn' nvs /\ valid_case dn' = true
  /\ linearized dn' = linearized dn /\ casefold dn' = casefold dn.
Proof.
  intros H. unfold ldb_dn_casefold_internal. rewrite (rep_invalid _ _ H).
  destruct (valid_case dn) eqn:Ev; [by exists dn|].
  assert (exists dn1, (match components dn with Some _ => Some (true, dn) | None => ldb_dn_explode junk dn end) = Some (true, dn1)
    /\ represents dn1 nvs /\ components dn1 <> None /\ linearized dn1 = linearized dn /\ casefold dn1 = casefold dn
    /\ valid_case dn1 = false) as (dn1 & -> & H1 & Hc & Hl & Hcf & Hv).
  { destruct (components dn) as [cs|] eqn:E; [exists dn; split; [done|]; split; [done|]; by rewrite E|].
    destruct (rep_explode dn nvs H) as (dn' & ? & ? & ? & ? & ? & ?). exists dn'. by rewrite <- Ev. }
  destruct (rep_comps dn1 nvs H1 Hc) as (cs & Ec & _ & Hp & _). simpl. rewrite Ec, (rep_ldb _ _ H1). simpl.
  rewrite (casefold_components_ok cs nvs); [|by apply plain_inv|by apply rep_good in H1]. simpl.
  eexists. split; [done|]. destruct H1. split; [|done].
  split; simpl; try done; [intros cs' [= <-]; apply plain_mkf|intros cs' [= <-]; apply cf_ok_mkf|].
  intros s Hs. split; [done|]. by apply rep_casefold0.
Qed.

Lemma mapM_folded nvs : mapM (fun c => n ← cf_name c; v ← cf_value c; Some (n, v)) (map mkf nvs) = Some (map fold_rdn nvs).
Proof.
  induction nvs as [|nv nvs IH]; [done|]. simpl. simpl in IH. rewrite IH. simpl. by destruct (fold_rdn nv).
Qed.

Lemma rep_get_casefold dn nvs : represents dn nvs -> exists dn',
  ldb_dn_get_casefold attributes def junk dn = Some (Some (print_components (map fold_rdn nvs)), dn')
  /\ represents dn' nvs /\ valid_case dn' = true /\ components dn' = Some (map mkf nvs) /\ linearized dn' = linearized dn.
Proof.
  intros H. unfold ldb_dn_get_casefold. destruct (casefold dn) as [s|] eqn:E.
  - destruct (rep_casefold _ _ H s E) as [Hv ->]. exists dn. split; [done|]. split; [done|]. split; [done|].
    split; [by apply rep_fold|done].
  - rewrite (rep_special _ _ H). destruct (rep_casefold_internal dn nvs H) as (dn1 & -> & H1 & Hv & Hl & Hcf). simpl.
    pose proof (rep_fold _ _ H1 Hv) as Hc. unfold comp_num, comps. rewrite Hc. simpl. rewrite length_map.
    replace (Z.of_nat (length nvs) =? 0) with false by (pose proof (rep_ne _ _ H1); destruct nvs; [done|simpl; lia]).
    rewrite mapM_folded. simpl. eexists. split; [done|]. destruct H1. split; [|done].
    split; simpl; try done. by intros s [= <-].
Qed.

(** ** Comparison *)

Lemma component_compare_ok x y : good x -> good y ->
  exists r, component_compare (mkf x) (mkf y) = Some r /\ (r = 0 <-> fold_rdn x = fold_rdn y).
Proof.
  intros [_ _ Nx Lx] [_ _ Ny Ly]. unfold component_compare. simpl. destruct (fold_rdn x) as [nx vx], (fold_rdn y) as [ny vy].
  simpl in *. destruct (strcmp nx ny =? 0) eqn:E; simpl.
  - apply Z.eqb_eq, strcmp_eq in E as ->. destruct (Nat.eqb_spec (length vx) (length vy)) as [El|El]; simpl.
    + eexists. split; [done|]. rewrite !cstr_no_nul by done. rewrite strcmp_eq. split; [by intros ->|congruence].
    + eexists. split; [done|]. split; [|intros [= ->]; done]. unfold s32. intros E. exfalso. apply El.
      assert (- 2 ^ 31 <= Z.of_nat (length vx) - Z.of_nat (length vy) < 2 ^ 31) by lia.
      rewrite Z.mod_small in E by lia. lia.
  - eexists. split; [done|]. apply Z.eqb_neq in E. split; [done|]. intros [= -> _]. by rewrite strcmp_refl in E.
Qed.

Lemma components_compare_ok xs ys : Forall good xs -> Forall good ys -> (length xs <= length ys)%nat ->
  exists r, components_compare (map mkf xs) (map mkf ys) = Some r
    /\ (r = 0 <-> map fold_rdn xs = take (length xs) (map fold_rdn ys)).
Proof.
  intros Hx. revert ys. induction Hx as [|x xs Gx Hx IH]; intros ys Hy Hl; [by exists 0|].
  destruct Hy as [|y ys Gy Hy]; [simpl in Hl; lia|]. simpl in *.
  destruct (component_compare_ok x y Gx Gy) as (r & -> & Hr). simpl. destruct (Z.eqb_spec r 0) as [E|E].
  - destruct (IH ys Hy ltac:(lia)) as (r' & -> & Hr'). exists r'. split; [done|]. rewrite Hr'.
    apply Hr in E as ->. split; [by intros ->|by intros [=]].
  - exists r. split; [done|]. split; [done|]. intros [= E' _]. by apply Hr.
Qed.

Lemma reads_functional s l1 l2 : reads s l1 -> reads s l2 -> l1 = l2.
Proof.
  intros H1 H2. pose proof (explode_reads [] s l1 H1) as E1. rewrite (explode_reads [] s l2 H2) in E1.
  injection E1 as E. revert l2 H1 H2 E. assert (forall l l' : list rdn, map mkc l' = map mkc l -> l = l') as Hinj; [|by eauto].
  induction l as [|[n v] l IH]; intros [|[n' v'] l']; try done. simpl. intros [= -> -> E]. by rewrite (IH l' E).
Qed.

Lemma fold_both_ok a b xs ys : represents a xs -> represents b ys -> exists a' b',
  fold_both attributes def junk a b = Some (None, a', b') /\ represents a' xs /\ represents b' ys
  /\ valid_case a' = true /\ valid_case b' = true.
Proof.
  intros Ha Hb. unfold fold_both. destruct (rep_casefold_internal a xs Ha) as (a' & -> & Ha' & Va & _). simpl.
  destruct (rep_casefold_internal b ys Hb) as (b' & -> & Hb' & Vb & _). simpl. by exists a', b'.
Qed.

Lemma rep_folded a xs : represents a xs -> valid_case a = true ->
  comps a = map mkf xs /\ comp_num a = Z.of_nat (length xs) /\ (comp_num a =? 0) = false.
Proof.
  intros Ha Va. unfold comp_num, comps. rewrite (rep_fold _ _ Ha Va). simpl. rewrite length_map. split; [done|]. split; [done|].
  pose proof (rep_ne _ _ Ha). destruct xs; [done|]. simpl. lia.
Qed.

Lemma rep_compare a b xs ys : represents a xs -> represents b ys -> exists r a' b',
  ldb_dn_compare attributes def junk a b = Some (r, a', b') /\ represents a' xs /\ represents b' ys
  /\ (r = 0 <-> map fold_rdn xs = map fold_rdn ys).
Proof.
  intros Ha Hb. unfold ldb_dn_compare. rewrite (rep_invalid _ _ Ha), (rep_invalid _ _ Hb). simpl.
  assert (forall a b, represents a xs -> represents b ys -> valid_case a = true -> valid_case b = true ->
    exists r, (if negb (comp_num a =? comp_num b) then Some (comp_num b - comp_num a)
      else if comp_num a =? 0 then compare_special a b else components_compare (comps a) (comps b)) = Some r
      /\ (r = 0 <-> map fold_rdn xs = map fold_rdn ys)) as Hfull.
  { clear a b Ha Hb. intros a b Ha Hb Va Vb. destruct (rep_folded a xs Ha Va) as (-> & Na & Za).
    destruct (rep_folded b ys Hb Vb) as (-> & Nb & _). rewrite Za, Na, Nb.
    destruct (Z.eqb_spec (Z.of_nat (length xs)) (Z.of_nat (length ys))) as [El|El]; simpl.
    - destruct (components_compare_ok xs ys (rep_good _ _ Ha) (rep_good _ _ Hb)) as (r & -> & Hr); [lia|].
      exists r. split; [done|]. rewrite Hr, take_ge; [done|]. rewrite length_map. lia.
    - eexists. split; [done|]. split; [lia|]. intros E. exfalso. apply El.
      by rewrite <- (length_map fold_rdn xs), E, length_map. }
  assert (exists early a' b', (if negb (valid_case a) || negb (valid_case b) then
         match linearized a, linearized b with
         | Some s, Some s' => if strcmp s s' =? 0 then Some (Some 0, a, b) else fold_both attributes def junk a b
         | _, _ => fold_both attributes def junk a b
         end
       else Some (None, a, b)) = Some (early, a', b') /\ represents a' xs /\ represents b' ys
    /\ ((early = Some 0 /\ xs = ys) \/ early = None /\ valid_case a' = true /\ valid_case b' = true))
    as (early & a' & b' & -> & Ha' & Hb' & He).
  { destruct (fold_both_ok a b xs ys Ha Hb) as (a' & b' & Hf & Ha' & Hb' & Va & Vb).
    destruct (negb (valid_case a) || negb (valid_case b)) eqn:Ev.
    2:{ exists None, a, b. split; [done|]. split; [done|]. split; [done|]. right. apply orb_false_iff in Ev as [E1 E2].
        by apply negb_false_iff in E1, E2. }
    rewrite Hf. destruct (linearized a) as [s|] eqn:La, (linearized b) as [s'|] eqn:Lb; try (by exists None, a', b'; eauto 10).
    destruct (strcmp s s' =? 0) eqn:E; [|by exists None, a', b'; eauto 10].
    exists (Some 0), a, b. split; [done|]. split; [done|]. split; [done|]. left. split; [done|].
    apply Z.eqb_eq, strcmp_eq in E as ->. by eapply reads_functional; [apply (rep_lin _ _ Ha)|apply (rep_lin _ _ Hb)]. }
  simpl. destruct He as [[-> ->]|(-> & Va & Vb)].
  - exists 0, a', b'. by split.
  - destruct (Hfull a' b' Ha' Hb' Va Vb) as (r & -> & Hr). simpl. by exists r, a', b'.
Qed.

(** What the texts alone decide when a DN is not folded: a longer text is not
    above, and a text that another ends with is. *)
Definition text_below (base dn : option (list Z)) : option bool :=
  match base, dn with
  | Some b, Some s => if (length s <? length b)%nat then Some false else if bool_decide (b `suffix_of` s) then Some true else None
  | _, _ => None
  end.

(** The components decide. *)
Definition below (base dn : list rdn) : Prop := map fold_rdn base `suffix_of` map fold_rdn dn.

Lemma suffix_drop {A} (a b : list A) : (length a <= length b)%nat -> a `suffix_of` b <-> drop (length b - length a) b = a.
Proof.
  intros Hl. split.
  - intros [k ->]. rewrite length_app. replace (_ - _)%nat with (length k) by lia. apply drop_app_length.
  - intros E. exists (take (length b - length a) b). by rewrite <- E at 2; rewrite take_drop.
Qed.

Lemma reverse_take {A} (a b : list A) : (length a <= length b)%nat ->
  reverse a = take (length a) (reverse b) <-> a `suffix_of` b.
Proof.
  intros Hl. rewrite suffix_drop by done. rewrite take_reverse.
  split; intros E; [|by rewrite E]. symmetry. by apply (inj reverse).
Qed.

Lemma base_folded a b xs ys : represents a xs -> represents b ys -> valid_case a = true -> valid_case b = true ->
  exists r, (if comp_num b <? comp_num a then Some (comp_num b - comp_num a)
      else if comp_num b =? 0 then compare_special a b else components_compare (reverse (comps a)) (reverse (comps b))) = Some r
      /\ (r = 0 <-> below xs ys).
Proof.
  intros Ha Hb Va Vb. destruct (rep_folded a xs Ha Va) as (-> & Na & _).
  destruct (rep_folded b ys Hb Vb) as (-> & Nb & Zb). rewrite Zb, Na, Nb.
  destruct (Z.ltb_spec (Z.of_nat (length ys)) (Z.of_nat (length xs))) as [El|El].
  - eexists. split; [done|]. split; [lia|]. intros Hs. apply suffix_length in Hs. rewrite !length_map in Hs. lia.
  - rewrite <- !fmap_reverse. change (@fmap list _ rdn ldb_dn_component mkf) with (map mkf).
    destruct (components_compare_ok (reverse xs) (reverse ys)) as (r & -> & Hr);
      [apply Forall_reverse, (rep_good _ _ Ha)|apply Forall_reverse, (rep_good _ _ Hb)|rewrite !length_reverse; lia|].
    exists r. split; [done|]. rewrite Hr. unfold below. rewrite <- reverse_take by (rewrite !length_map; lia).
    rewrite length_map, length_reverse. change (map fold_rdn) with (fmap (M:=list) fold_rdn). by rewrite !fmap_reverse.
Qed.

Lemma rep_compare_base a b xs ys : represents a xs -> represents b ys -> exists r a' b',
  ldb_dn_compare_base attributes def junk a b = Some (r, a', b') /\ represents a' xs /\ represents b' ys
  /\ (r = 0 <-> match (if valid_case a && valid_case b then None else text_below (linearized a) (linearized b)) with
               | Some t => t = true
               | None => below xs ys
               end).
Proof.
  intros Ha Hb. unfold ldb_dn_compare_base. rewrite (rep_invalid _ _ Ha), (rep_invalid _ _ Hb).
  rewrite <- negb_andb. destruct (valid_case a && valid_case b) eqn:Ev; simpl.
  { apply andb_true_iff in Ev as [Va Vb]. destruct (base_folded a b xs ys Ha Hb Va Vb) as (r & -> & Hr).
    simpl. by exists r, a, b. }
  assert (exists r a' b', ('(early, base, dn) ← fold_both attributes def junk a b;
      match early with
      | Some r => Some (r, base, dn)
      | None => r ← (if comp_num dn <? comp_num base then Some (comp_num dn - comp_num base)
           else if comp_num dn =? 0 then compare_special base dn else components_compare (reverse (comps base)) (reverse (comps dn)));
           Some (r, base, dn)
      end) = Some (r, a', b') /\ represents a' xs /\ represents b' ys /\ (r = 0 <-> below xs ys)) as Hfold.
  { destruct (fold_both_ok a b xs ys Ha Hb) as (a' & b' & -> & Ha' & Hb' & Va & Vb). simpl.
    destruct (base_folded a' b' xs ys Ha' Hb' Va Vb) as (r & -> & Hr). simpl. by exists r, a', b'. }
  destruct (linearized a) as [s|] eqn:La, (linearized b) as [s'|] eqn:Lb; try exact Hfold. simpl.
  destruct (Nat.ltb_spec (length s') (length s)) as [Hlt|Hge].
  - replace (Z.of_nat (length s') - Z.of_nat (length s) <? 0) with true by lia. simpl.
    eexists _, a, b. split; [done|]. split; [done|]. split; [done|]. split; [lia|done].
  - replace (Z.of_nat (length s') - Z.of_nat (length s) <? 0) with false by lia.
    replace (Z.to_nat _) with (length s' - length s)%nat by lia.
    destruct (strcmp s (drop (length s' - length s) s') =? 0) eqn:E.
    + apply Z.eqb_eq, strcmp_eq in E. rewrite bool_decide_eq_true_2 by (by apply suffix_drop). simpl. by exists 0, a, b.
    + rewrite bool_decide_eq_false_2; [exact Hfold|]. intros Hs. apply suffix_drop in Hs; [|done].
      rewrite Hs, strcmp_refl in E. done.
Qed.

(** ** New objects *)

Lemma reads_nonempty s nvs : reads s nvs -> nvs <> [].
Proof.
  intros [_ R] ->. destruct (R _ _ _ (start_starts [] s)) as (st & init & n & v & E & _). by destruct init.
Qed.

Lemma rep_new s nvs : reads s nvs -> Forall good nvs -> represents (ldb_dn_new true (Some s)) nvs.
Proof.
  intros Hs Hg. split; simpl; try done; [by apply (reads_special true s nvs)|by eapply reads_nonempty|by intros s' [= <-]].
Qed.

Lemma copy_component_ok c nv : plain c = mkc nv -> cf_ok c ->
  exists c', ldb_dn_copy_component c = Some c' /\ plain c' = mkc nv /\ cf_ok c' /\ (c = mkf nv -> c' = mkf nv).
Proof.
  destruct c as [n v cn cv]. intros [= -> ->] [Hc|[m Hc]]; simpl in *; subst; unfold ldb_dn_copy_component; simpl.
  - eexists. split; [done|]. split; [done|]. split; [by left|done].
  - destruct cv; (eexists; split; [done|]; split; [done|]; split; [first [by left|by right]|done]).
Qed.

Lemma mapM_copy cs nvs : map plain cs = map mkc nvs -> Forall cf_ok cs -> exists cs',
  mapM ldb_dn_copy_component cs = Some cs' /\ map plain cs' = map mkc nvs /\ Forall cf_ok cs'
  /\ (cs = map mkf nvs -> cs' = map mkf nvs).
Proof.
  revert nvs. induction cs as [|c cs IH]; intros [|nv nvs]; try done; intros E Hcf; [by exists []|].
  simpl in E. assert (plain c = mkc nv /\ map plain cs = map mkc nvs) as [E1 E2] by (split; congruence).
  apply Forall_cons in Hcf as [Hc Hcf]. destruct (copy_component_ok c nv E1 Hc) as (c' & Hm & Hp & Hc' & Hf).
  destruct (IH nvs E2 Hcf) as (cs' & Hm' & Hp' & Hcf' & Hf'). exists (c' :: cs'). simpl. rewrite Hm. simpl. rewrite Hm'.
  split; [done|]. split; [simpl; congruence|]. split; [by constructor|]. intros E0. simpl in E0.
  rewrite Hf, Hf' by congruence. done.
Qed.

Lemma rep_copy dn nvs : represents dn nvs -> exists dn', ldb_dn_copy dn = Some (Some dn') /\ represents dn' nvs.
Proof.
  intros H. unfold ldb_dn_copy. rewrite (rep_invalid _ _ H). destruct (components dn) as [cs|] eqn:E; [|by exists dn].
  destruct (mapM_copy cs nvs (rep_comp _ _ H cs E) (rep_cf _ _ H cs E)) as (cs' & -> & Hp & Hcf & Hf). simpl.
  eexists. split; [done|]. destruct H. split; simpl; try done; [by intros ? [= <-]|by intros ? [= <-]|].
  intros Hv. rewrite Hf; [done|]. specialize (rep_fold0 Hv). congruence.
Qed.

(** ** Joining *)

(** The two ways to join: behind, as [ldb_dn_add_base] does, and before. *)
Definition both {A} (behind : bool) (a b : list A) : list A := if behind then a ++ b else b ++ a.
Definition both_text (behind : bool) (a b : list Z) : list Z := if behind then join_base a b else join b a.

Lemma reads_both behind s1 s2 l1 l2 : reads s1 l1 -> reads s2 l2 -> reads (both_text behind s1 s2) (both behind l1 l2).
Proof.
  intros H1 H2. destruct behind; simpl; [|by apply reads_join]. unfold join_base.
  rewrite bool_decide_eq_false_2 by (by eapply reads_ne). by apply reads_join.
Qed.

Lemma dn_text_app l1 l2 : l1 <> [] -> l2 <> [] -> dn_text (l1 ++ l2) = join (dn_text l1) (dn_text l2).
Proof.
  intros H1 H2. induction l1 as [|nv l1 IH]; [done|]. destruct l1 as [|nv' l1].
  - simpl. by destruct l2.
  - change (dn_text ((nv :: nv' :: l1) ++ l2)) with (join (rdn_text nv) (dn_text ((nv' :: l1) ++ l2))).
    rewrite IH by done. change (dn_text (nv :: nv' :: l1)) with (join (rdn_text nv) (dn_text (nv' :: l1))).
    unfold join. by rewrite <- app_assoc.
Qed.

Lemma fold_no_nul nvs : Forall good nvs -> Forall (fun nv => no_nul nv.1 /\ no_nul nv.2) (map fold_rdn nvs).
Proof.
  induction 1 as [|nv nvs [[Hn _ _ _] Hf Hv _] _ IH]; constructor; [split; [|done]|done].
  unfold fold_rdn in *. unfold fold_option in Hf at 1. destruct (ldb_schema_attribute_by_name _ _ _) as [a|]; [|done].
  simpl in Hf. destruct (canonicalise_fn _ _ _) as [[cv|]|]; try done. simpl in Hf. injection Hf as Hf.
  rewrite <- Hf. simpl. apply name_no_nul in Hn. unfold ldb_attr_casefold. apply Forall_map.
  eapply Forall_impl; [exact Hn|]. intros c Hc. unfold toupper. destruct ((97 <=? c) && (c <=? 122)) eqn:E; [|done].
  bool_hyps. lia.
Qed.

Lemma dn_text_no_nul l : Forall (fun nv => no_nul nv.1 /\ no_nul nv.2) l -> no_nul (dn_text l).
Proof.
  induction 1 as [|[n v] l [Hn Hv] _ IH]; [constructor|].
  assert (no_nul (rdn_text (n, v))) as Ht.
  { apply Forall_app. split; [done|]. constructor; [done|by apply escape_no_nul]. }
  destruct l; [done|]. apply Forall_app. split; [done|]. by constructor.
Qed.

Lemma print_text_any l : Forall (fun nv => no_nul nv.1 /\ no_nul nv.2) l -> l <> [] -> print_components l = dn_text l.
Proof.
  intros H Hne. unfold print_components. rewrite concat_print, removelast_last by done. by apply cstr_no_nul, dn_text_no_nul.
Qed.

Lemma print_both behind xs ys : Forall good xs -> Forall good ys -> xs <> [] -> ys <> [] ->
  both_text behind (print_components (map fold_rdn xs)) (print_components (map fold_rdn ys))
  = print_components (map fold_rdn (both behind xs ys)).
Proof.
  intros Gx Gy Nx Ny. assert (forall l, Forall good l -> l <> [] -> print_components (map fold_rdn l) = dn_text (map fold_rdn l)) as Hp.
  { intros l Gl Nl. apply print_text_any; [by apply fold_no_nul|by destruct l]. }
  assert (map fold_rdn xs <> [] /\ map fold_rdn ys <> []) as [Mx My] by (by destruct xs, ys).
  rewrite (Hp xs), (Hp ys), (Hp (both behind xs ys)); try done.
  - destruct behind; simpl; rewrite map_app, dn_text_app by done; [|done]. unfold join_base. rewrite bool_decide_eq_false_2; [done|].
    destruct (map fold_rdn xs) as [|[n v] [|? ?]]; [done|..]; simpl; unfold join, rdn_text; simpl; by destruct n.
  - destruct behind; by apply Forall_app.
  - destruct behind; simpl; intros E; apply app_eq_nil in E as [? ?]; done.
Qed.

(** The object whose components are joined already, and not its text. *)
Lemma rep_add_components behind dn other xs ys : represents dn xs -> represents other ys -> exists dn' other',
  add_components attributes def junk (both behind) (both_text behind) dn other = Some (true, dn', other')
  /\ represents other' ys /\ linearized dn' = linearized dn
  /\ forall lin, (lin = None -> components dn' <> None) -> (forall s, lin = Some s -> reads s (both behind xs ys)) ->
     represents (set_linearized lin dn') (both behind xs ys).
Proof.
  intros Hx Hy. assert (both behind xs ys <> []) as Hne.
  { pose proof (rep_ne _ _ Hx). destruct behind; simpl; intros E; apply app_eq_nil in E as [? ?]; done. }
  assert (Forall good (both behind xs ys)) as Hgood.
  { destruct behind; apply Forall_app; split; by first [apply (rep_good _ _ Hx)|apply (rep_good _ _ Hy)]. }
  unfold add_components. destruct (components dn) as [cs|] eqn:E.
  2:{ assert (valid_case dn = false) as Ev.
      { destruct (valid_case dn) eqn:Ev; [|done]. pose proof (rep_fold _ _ Hx Ev). congruence. }
      exists dn, other. split; [done|]. split; [done|]. split; [done|]. intros lin H1 H2. pose proof Hx as [].
      split; simpl; try done; [congruence..|]. intros s Hs. destruct (rep_casefold0 s Hs). congruence. }
  destruct (rep_explode other ys Hy) as (o1 & He & H1 & Hc1 & _). unfold ldb_dn_validate. rewrite He. simpl.
  assert (exists s o2, (if valid_case dn then ldb_dn_get_casefold attributes def junk o1 else Some (None, o1)) = Some (s, o2)
    /\ represents o2 ys /\ components o2 <> None /\ (if valid_case dn then s = Some (print_components (map fold_rdn ys))
       /\ components o2 = Some (map mkf ys) else s = None)) as (s & o2 & -> & H2 & Hc2 & Hs).
  { destruct (valid_case dn); [|by exists None, o1]. destruct (rep_get_casefold o1 ys H1) as (o2 & -> & H2 & _ & Hc & _).
    eexists _, o2. split; [done|]. split; [done|]. rewrite Hc. done. }
  simpl. destruct (rep_comps o2 ys H2 Hc2) as (co & Eo & Ecs & Hp & _). rewrite Ecs.
  destruct (mapM_copy co ys Hp (rep_cf _ _ H2 co Eo)) as (cc & -> & Hpc & Hcf & Hf).
  assert (valid_case dn && bool_decide (s = None) = false) as ->.
  { destruct (valid_case dn); [|done]. destruct Hs as [-> _]. done. }
  simpl. eexists _, o2. split; [done|]. split; [done|]. split; [by destruct (casefold dn), s|].
  pose proof Hx as []. pose proof (rep_comp0 cs E) as Hpx. pose proof (rep_cf0 cs E) as Hcx.
  intros lin _ Hlin.
  assert (map plain (both behind cs cc) = map mkc (both behind xs ys)) as Hpb.
  { destruct behind; simpl; rewrite !map_app; congruence. }
  assert (Forall cf_ok (both behind cs cc)) as Hcb by (destruct behind; by apply Forall_app).
  assert (valid_case dn = true -> both behind cs cc = map mkf (both behind xs ys)) as Hfb.
  { intros Ev. rewrite Ev in Hs. destruct Hs as [_ Hs]. rewrite Hf by congruence. specialize (rep_fold0 Ev).
    assert (cs = map mkf xs) as -> by congruence. destruct behind; simpl; by rewrite map_app. }
  split; destruct (casefold dn) as [cf|] eqn:Ecf, s as [s|]; simpl; try done; try (by intros ? [= <-]);
    try (intros Ev; by rewrite Hfb).
  all: intros t Ht; try congruence; destruct (rep_casefold0 cf eq_refl) as [Ev ->]; rewrite Ev in Hs; destruct Hs as [Hs _];
    try done.
  injection Ht as <-. injection Hs as ->. split; [done|].
  apply print_both; [done|apply (rep_good _ _ Hy)|done|apply (rep_ne _ _ Hy)].
Qed.

Lemma rep_add_text behind dn1 other xs ys dn : represents dn xs -> represents other ys -> linearized dn1 = linearized dn ->
  (forall lin, (lin = None -> components dn1 <> None) -> (forall s, lin = Some s -> reads s (both behind xs ys)) ->
     represents (set_linearized lin dn1) (both behind xs ys)) ->
  (linearized dn = None -> components dn1 <> None) ->
  exists dn' other', add_text (both_text behind) dn1 other = Some (true, dn', other')
  /\ represents dn' (both behind xs ys) /\ represents other' ys.
Proof.
  intros Hx Hy El Hset Hc. unfold add_text. rewrite El. destruct (linearized dn) as [lin|] eqn:E.
  - destruct (rep_linearized other ys Hy) as (s & o & -> & Hs & Ho & _). simpl. eexists _, o. split; [done|]. split; [|done].
    apply Hset; [done|]. intros s' [= <-]. by apply reads_both; [apply (rep_lin _ _ Hx)|].
  - exists dn1, other. split; [done|]. split; [|done].
    replace dn1 with (set_linearized None dn1); [apply Hset; [by intros _; apply Hc|done]|].
    destruct dn1. simpl in *. by subst.
Qed.

Definition ldb_dn_join (behind : bool) : ldb_dn -> ldb_dn -> option (bool * ldb_dn * ldb_dn) :=
  if behind then ldb_dn_add_base attributes def junk else ldb_dn_add_child attributes def junk.

Lemma rep_join behind dn other xs ys : represents dn xs -> represents other ys -> exists dn' other',
  ldb_dn_join behind dn other = Some (true, dn', other') /\ represents dn' (both behind xs ys) /\ represents other' ys.
Proof.
  intros Hx Hy.
  assert (ldb_dn_join behind dn other
    = ('(ok, dn, other) ← add_components attributes def junk (both behind) (both_text behind) dn other;
       if negb ok then Some (false, dn, other) else add_text (both_text behind) dn other)) as ->.
  { destruct behind; simpl; unfold ldb_dn_add_base, ldb_dn_add_child;
      by rewrite (rep_invalid _ _ Hx), (rep_invalid _ _ Hy). }
  destruct (rep_add_components behind dn other xs ys Hx Hy) as (dn1 & o1 & E & Hy1 & El & Hset). rewrite E. simpl.
  apply (rep_add_text behind dn1 o1 xs ys dn Hx Hy1 El Hset).
  intros Hn. apply (rep_some _ _ Hx) in Hn. unfold add_components in E. destruct (components dn) as [cs|]; [|done].
  clear - E. destruct (ldb_dn_validate junk other) as [[[] o]|]; [|done..]. simpl in E.
  destruct (if valid_case dn then _ else _) as [[s o2]|]; [|done]. simpl in E. destruct (valid_case dn && _); [done|].
  destruct (mapM _ _) as [cc|]; [|done]. simpl in E. injection E as <- _. by destruct (casefold dn), s.
Qed.

(** ** Changes *)

Lemma rep_changed f g dn xs : represents dn xs -> components dn <> None ->
  (forall cs, map plain cs = map mkc xs -> map plain (f cs) = map mkc (g xs)) ->
  (forall cs, Forall cf_ok cs -> Forall cf_ok (f cs)) -> g xs <> [] -> Forall good (g xs) ->
  represents (changed f dn) (g xs).
Proof.
  intros H Hc Hf Hcf Hne Hg. destruct (rep_comps dn xs H Hc) as (cs & E & _ & Hp & _).
  unfold changed. rewrite E. simpl. destruct H. split; simpl; try done; destruct (valid_case dn); simpl; intros ? [= <-];
    [|by apply Hf| |by apply Hcf, rep_cf0].
  - change (map (set_cf None None) (f cs)) with (map plain (f cs)). rewrite (Hf cs Hp). apply plain_mkc.
  - apply cf_ok_plain.
Qed.

Lemma rep_num dn xs : represents dn xs -> components dn <> None -> comp_num dn = Z.of_nat (length xs).
Proof. intros H Hc. destruct (rep_comps dn xs H Hc) as (cs & _ & Ecs & _ & El). unfold comp_num. by rewrite Ecs, El. Qed.

Lemma rep_remove_base dn xs n : represents dn xs -> 0 <= n < Z.of_nat (length xs) -> exists dn',
  ldb_dn_remove_base_components junk dn n = Some (true, dn') /\ represents dn' (take (length xs - Z.to_nat n) xs).
Proof.
  intros H Hn. unfold ldb_dn_remove_base_components, ldb_dn_validate. destruct (rep_explode dn xs H) as (d1 & -> & H1 & Hc & _).
  simpl. rewrite (rep_num d1 xs H1 Hc). replace (_ <? n) with false by lia. eexists. split; [done|].
  apply (rep_changed (fun cs => take (length cs - Z.to_nat n) cs) (fun xs => take (length xs - Z.to_nat n) xs) d1 xs H1 Hc).
  - intros cs E. rewrite <- !firstn_map, E. by rewrite <- (length_map plain cs), E, length_map.
  - intros cs Hcs. by apply Forall_take.
  - intros E. apply (f_equal length) in E. rewrite length_take in E. simpl in E. lia.
  - apply Forall_take, (rep_good _ _ H1).
Qed.

Lemma rep_remove_child dn xs n : represents dn xs -> 0 <= n < Z.of_nat (length xs) -> exists dn',
  ldb_dn_remove_child_components junk dn n = Some (true, dn') /\ represents dn' (drop (Z.to_nat n) xs).
Proof.
  intros H Hn. unfold ldb_dn_remove_child_components, ldb_dn_validate. destruct (rep_explode dn xs H) as (d1 & -> & H1 & Hc & _).
  simpl. rewrite (rep_num d1 xs H1 Hc). replace (_ <? n) with false by lia. eexists. split; [done|].
  apply (rep_changed (drop (Z.to_nat n)) (drop (Z.to_nat n)) d1 xs H1 Hc).
  - intros cs E. by rewrite <- !skipn_map, E.
  - intros cs Hcs. by apply Forall_drop.
  - intros E. apply (f_equal length) in E. rewrite length_drop in E. simpl in E. lia.
  - apply Forall_drop, (rep_good _ _ H1).
Qed.

Lemma rep_get_parent dn xs : represents dn xs -> (1 < length xs)%nat -> exists dn',
  ldb_dn_get_parent junk dn = Some (Some dn') /\ represents dn' (drop 1 xs).
Proof.
  intros H Hn. unfold ldb_dn_get_parent. destruct (rep_copy dn xs H) as (d1 & -> & H1). simpl.
  destruct (rep_remove_child d1 xs 1 H1) as (d2 & -> & H2); [lia|]. simpl. by exists d2.
Qed.

Lemma map_alter_const {A B} (f : A -> B) (h : A -> A) i l y : (forall x, f (h x) = y) ->
  map f (alter h i l) = (if (i <? length l)%nat then <[i := y]> (map f l) else map f l).
Proof.
  intros Hy. revert i. induction l as [|x l IH]; intros [|i]; try done.
  - simpl. by rewrite Hy.
  - change (map f (alter h (S i) (x :: l))) with (f x :: map f (alter h i l)). rewrite IH. simpl.
    by destruct (Nat.ltb_spec i (length l)), (Nat.ltb_spec (S i) (S (length l))); try lia.
Qed.

Lemma rep_set_component dn xs k n v : represents dn xs -> 0 <= k < Z.of_nat (length xs) -> Z.of_nat (length xs) < 2 ^ 31 ->
  good (n, v) -> exists dn',
  ldb_dn_set_component junk dn k n v = Some (LDB_SUCCESS, dn') /\ represents dn' (<[Z.to_nat k := (n, v)]> xs).
Proof.
  intros H Hk Hl Hg. unfold ldb_dn_set_component, ldb_dn_validate. destruct (rep_explode dn xs H) as (d1 & -> & H1 & Hc & _).
  simpl. rewrite (rep_num d1 xs H1 Hc). unfold u32. rewrite Z.mod_small by lia. replace (_ <=? k) with false by lia. simpl.
  eexists. split; [done|].
  apply (rep_changed (alter (fun c => mk_component n (Some v) (cf_name c) (cf_value c)) (Z.to_nat k))
    (fun xs => <[Z.to_nat k := (n, v)]> xs) d1 xs H1 Hc).
  - intros cs E. rewrite (map_alter_const _ _ _ _ (mkc (n, v))) by done. rewrite E.
    rewrite <- (length_map plain cs), E, length_map. replace (_ <? _)%nat with true by (symmetry; apply Nat.ltb_lt; lia).
    change (map mkc) with (fmap (M:=list) mkc). by rewrite list_fmap_insert.
  - intros cs Hcs. apply Forall_alter; [done|]. intros c _ Hcc. exact Hcc.
  - intros E. apply (f_equal length) in E. rewrite length_insert in E. simpl in E. lia.
  - apply Forall_insert; [apply (rep_good _ _ H1)|done].
Qed.

(** ** Queries *)

Lemma rep_get_component dn xs k : represents dn xs -> 0 <= k -> exists c dn',
  ldb_dn_get_component junk dn k = Some (c, dn') /\ represents dn' xs
  /\ option_map name c = fst <$> xs !! Z.to_nat k /\ option_map value c = Some <$> (snd <$> xs !! Z.to_nat k).
Proof.
  intros H Hk. unfold ldb_dn_get_component, ldb_dn_validate. destruct (rep_explode dn xs H) as (d1 & -> & H1 & Hc & _). simpl.
  rewrite (rep_num d1 xs H1 Hc). destruct (rep_comps d1 xs H1 Hc) as (cs & _ & -> & Hp & Hl).
  eexists _, d1. split; [done|]. split; [done|]. pose proof (plain_inv _ _ Hp) as H2.
  destruct (Z.ltb_spec k (Z.of_nat (length xs))) as [Hlt|Hge]; simpl.
  - destruct (lookup_lt_is_Some_2 xs (Z.to_nat k)) as [nv Hnv]; [lia|].
    destruct (Forall2_lookup_r _ _ _ _ _ H2 Hnv) as (c & -> & E1 & E2). rewrite Hnv. simpl. by rewrite E1, E2.
  - rewrite lookup_ge_None_2 by lia. done.
Qed.

Lemma rep_comp_num dn xs : represents dn xs -> exists dn',
  ldb_dn_get_comp_num junk dn = Some (Z.of_nat (length xs), dn') /\ represents dn' xs
  /\ linearized dn' = linearized dn /\ valid_case dn' = valid_case dn.
Proof.
  intros H. unfold ldb_dn_get_comp_num, ldb_dn_validate. destruct (rep_explode dn xs H) as (d1 & -> & H1 & Hc & Hl & _ & Hv).
  simpl. rewrite (rep_num d1 xs H1 Hc). by exists d1.
Qed.

(** ** Programs over DN objects *)

Inductive dn_op : Set :=
  | New (s : list Z)
  | Copy (i : nat)
  | Parent (i : nat)
  | Join (behind : bool) (i j : nat)
  | RemoveBase (i : nat) (n : Z)
  | RemoveChild (i : nat) (n : Z)
  | SetComponent (i : nat) (k : Z) (n v : list Z)
  | GetLinearized (i : nat)
  | GetCasefold (i : nat)
  | Compare (i j : nat)
  | CompNum (i : nat)
  | ComponentName (i : nat) (k : Z)
  | ComponentVal (i : nat) (k : Z).

Inductive answer : Set :=
  | A_num (z : Z)
  | A_text (s : option (list Z)).

Definition A_bool (b : bool) : answer := A_num (if b then 1 else 0).

(** An operation on the objects of a process; [None] is a fault, or an object
    that is not there. *)
Definition run_op (op : dn_op) (dns : list ldb_dn) : option (answer * list ldb_dn) :=
  match op with
  | New s => Some (A_bool true, dns ++ [ldb_dn_new true (Some s)])
  | Copy i =>
    dn ← dns !! i; r ← ldb_dn_copy dn;
    Some (match r with Some dn' => (A_bool true, dns ++ [dn']) | None => (A_bool false, dns) end)
  | Parent i =>
    dn ← dns !! i; r ← ldb_dn_get_parent junk dn;
    Some (match r with Some dn' => (A_bool true, dns ++ [dn']) | None => (A_bool false, dns) end)
  | Join behind i j =>
    a ← dns !! i; b ← dns !! j; '(ok, a, b) ← ldb_dn_join behind a b; Some (A_bool ok, <[j := b]> (<[i := a]> dns))
  | RemoveBase i n =>
    dn ← dns !! i; '(ok, dn) ← ldb_dn_remove_base_components junk dn n; Some (A_bool ok, <[i := dn]> dns)
  | RemoveChild i n =>
    dn ← dns !! i; '(ok, dn) ← ldb_dn_remove_child_components junk dn n; Some (A_bool ok, <[i := dn]> dns)
  | SetComponent i k n v =>
    dn ← dns !! i; '(r, dn) ← ldb_dn_set_component junk dn k n v; Some (A_num r, <[i := dn]> dns)
  | GetLinearized i => dn ← dns !! i; '(s, dn) ← ldb_dn_get_linearized dn; Some (A_text s, <[i := dn]> dns)
  | GetCasefold i => dn ← dns !! i; '(s, dn) ← ldb_dn_get_casefold attributes def junk dn; Some (A_text s, <[i := dn]> dns)
  | Compare i j =>
    a ← dns !! i; b ← dns !! j; '(r, a, b) ← ldb_dn_compare attributes def junk a b; Some (A_num r, <[j := b]> (<[i := a]> dns))
  | CompNum i => dn ← dns !! i; '(n, dn) ← ldb_dn_get_comp_num junk dn; Some (A_num n, <[i := dn]> dns)
  | ComponentName i k => dn ← dns !! i; '(s, dn) ← ldb_dn_get_component_name junk dn k; Some (A_text s, <[i := dn]> dns)
  | ComponentVal i k =>
    dn ← dns !! i; '(s, dn) ← ldb_dn_get_component_val junk dn k; Some (A_text (s ← s; s), <[i := dn]> dns)
  end.

Fixpoint run_ops (ops : list dn_op) (dns : list ldb_dn) : option (list answer * list ldb_dn) :=
  match ops with
  | [] => Some ([], dns)
  | op :: ops => '(a, dns) ← run_op op dns; '(l, dns) ← run_ops ops dns; Some (a :: l, dns)
  end.

(** *** The reference

    An object is its list of components.  The contract: texts are read, DNs keep
    a component, objects that an operation combines are different ones. *)
Inductive spec_op (xss : list (list rdn)) : dn_op -> (answer -> Prop) -> list (list rdn) -> Prop :=
  | spec_new s xs : reads s xs -> Forall good xs -> spec_op xss (New s) (eq (A_bool true)) (xss ++ [xs])
  | spec_copy i xs : xss !! i = Some xs -> spec_op xss (Copy i) (eq (A_bool true)) (xss ++ [xs])
  | spec_parent i xs : xss !! i = Some xs -> (1 < length xs)%nat ->
      spec_op xss (Parent i) (eq (A_bool true)) (xss ++ [drop 1 xs])
  | spec_join behind i j xs ys : i <> j -> xss !! i = Some xs -> xss !! j = Some ys ->
      spec_op xss (Join behind i j) (eq (A_bool true)) (<[i := both behind xs ys]> xss)
  | spec_remove_base i n xs : xss !! i = Some xs -> 0 <= n < Z.of_nat (length xs) ->
      spec_op xss (RemoveBase i n) (eq (A_bool true)) (<[i := take (length xs - Z.to_nat n) xs]> xss)
  | spec_remove_child i n xs : xss !! i = Some xs -> 0 <= n < Z.of_nat (length xs) ->
      spec_op xss (RemoveChild i n) (eq (A_bool true)) (<[i := drop (Z.to_nat n) xs]> xss)
  | spec_set_component i k n v xs : xss !! i = Some xs -> 0 <= k < Z.of_nat (length xs) -> Z.of_nat (length xs) < 2 ^ 31 ->
      good (n, v) -> spec_op xss (SetComponent i k n v) (eq (A_num LDB_SUCCESS)) (<[i := <[Z.to_nat k := (n, v)]> xs]> xss)
  | spec_linearized i xs : xss !! i = Some xs ->
      spec_op xss (GetLinearized i) (fun a => exists s, a = A_text (Some s) /\ reads s xs) xss
  | spec_casefold i xs : xss !! i = Some xs ->
      spec_op xss (GetCasefold i) (eq (A_text (Some (print_components (map fold_rdn xs))))) xss
  | spec_compare i j xs ys : i <> j -> xss !! i = Some xs -> xss !! j = Some ys ->
      spec_op xss (Compare i j) (fun a => exists r, a = A_num r /\ (r = 0 <-> map fold_rdn xs = map fold_rdn ys)) xss
  | spec_comp_num i xs : xss !! i = Some xs -> spec_op xss (CompNum i) (eq (A_num (Z.of_nat (length xs)))) xss
  | spec_name i k xs : xss !! i = Some xs -> 0 <= k ->
      spec_op xss (ComponentName i k) (eq (A_text (fst <$> xs !! Z.to_nat k))) xss
  | spec_val i k xs : xss !! i = Some xs -> 0 <= k ->
      spec_op xss (ComponentVal i k) (eq (A_text (snd <$> xs !! Z.to_nat k))) xss.

Inductive spec_ops : list (list rdn) -> list dn_op -> list (answer -> Prop) -> list (list rdn) -> Prop :=
  | spec_nil xss : spec_ops xss [] [] xss
  | spec_cons xss op P xss1 ops Ps xss2 : spec_op xss op P xss1 -> spec_ops xss1 ops Ps xss2 ->
      spec_ops xss (op :: ops) (P :: Ps) xss2.

Definition store_ok (dns : list ldb_dn) (xss : list (list rdn)) : Prop := Forall2 represents dns xss.

Lemma store_lookup dns xss i xs : store_ok dns xss -> xss !! i = Some xs -> exists dn, dns !! i = Some dn /\ represents dn xs.
Proof. intros H E. destruct (Forall2_lookup_r _ _ _ _ _ H E) as (dn & ? & ?). by exists dn. Qed.

Lemma store_insert dns xss i dn xs : store_ok dns xss -> represents dn xs -> store_ok (<[i := dn]> dns) (<[i := xs]> xss).
Proof. intros H Hd. by apply Forall2_insert. Qed.

(** An object that has only filled in its caches. *)
Lemma store_same dns xss i dn xs : store_ok dns xss -> xss !! i = Some xs -> represents dn xs -> store_ok (<[i := dn]> dns) xss.
Proof. intros H E Hd. rewrite <- (list_insert_id xss i xs E). by apply store_insert. Qed.

Lemma store_new dns xss dn xs : store_ok dns xss -> represents dn xs -> store_ok (dns ++ [dn]) (xss ++ [xs]).
Proof. intros H Hd. apply Forall2_app; [done|]. by constructor. Qed.

(** The objects of an operation, looked up on both sides. *)
Ltac objects Hs :=
  repeat match goal with
  | E : _ !! _ = Some _ |- _ =>
    let H := fresh "Hrep" in let El := fresh "El" in
    destruct (store_lookup _ _ _ _ Hs E) as (? & El & H); simpl; rewrite El; clear El; simpl; revert E
  end; intros.

Lemma spec_op_ok xss op P xss' : spec_op xss op P xss' -> forall dns, store_ok dns xss ->
  exists a dns', run_op op dns = Some (a, dns') /\ P a /\ store_ok dns' xss'.
Proof.
  intros H dns Hs. destruct H; objects Hs; simpl.
  - eexists _, _. split; [done|]. split; [done|]. by apply store_new, rep_new.
  - destruct (rep_copy _ _ Hrep) as (d1 & -> & Hd1). simpl. eexists _, _. split; [done|]. split; [done|]. by apply store_new.
  - destruct (rep_get_parent _ _ Hrep) as (d1 & -> & Hd1); [done|]. simpl. eexists _, _. split; [done|]. split; [done|].
    by apply store_new.
  - destruct (rep_join behind _ _ _ _ Hrep0 Hrep) as (a & b & -> & Ha & Hb). simpl. eexists _, _. split; [done|]. split; [done|].
    eapply store_same; [by apply store_insert| |done]. by rewrite list_lookup_insert_ne.
  - destruct (rep_remove_base _ _ n Hrep) as (d1 & -> & Hd1); [done|]. simpl. eexists _, _. split; [done|]. split; [done|].
    by apply store_insert.
  - destruct (rep_remove_child _ _ n Hrep) as (d1 & -> & Hd1); [done|]. simpl. eexists _, _. split; [done|]. split; [done|].
    by apply store_insert.
  - destruct (rep_set_component _ _ k n v Hrep) as (d1 & -> & Hd1); [done..|]. simpl. eexists _, _. split; [done|]. split; [done|].
    by apply store_insert.
  - destruct (rep_linearized _ _ Hrep) as (s & d1 & -> & Hr & Hd1 & _). simpl. eexists _, _. split; [done|].
    split; [by exists s|]. by eapply store_same.
  - destruct (rep_get_casefold _ _ Hrep) as (d1 & -> & Hd1 & _). simpl. eexists _, _. split; [done|]. split; [done|].
    by eapply store_same.
  - destruct (rep_compare _ _ _ _ Hrep0 Hrep) as (r & a & b & -> & Ha & Hb & Hr). simpl. eexists _, _. split; [done|].
    split; [by exists r|]. eapply store_same; [by eapply store_same|done..].
  - destruct (rep_comp_num _ _ Hrep) as (d1 & -> & Hd1 & _). simpl. eexists _, _. split; [done|]. split; [done|].
    by eapply store_same.
  - destruct (rep_get_component _ _ k Hrep) as (c & d1 & E & Hd1 & Hn & _); [done|]. unfold ldb_dn_get_component_name. rewrite E.
    simpl. eexists _, _. split; [done|]. split; [by rewrite Hn|]. by eapply store_same.
  - destruct (rep_get_component _ _ k Hrep) as (c & d1 & E & Hd1 & _ & Hv); [done|]. unfold ldb_dn_get_component_val. rewrite E.
    simpl. eexists _, _. split; [done|]. split; [by rewrite Hv; destruct (xs !! Z.to_nat k)|]. by eapply store_same.
Qed.

Lemma spec_ops_ok xss ops Ps xss' : spec_ops xss ops Ps xss' -> forall dns, store_ok dns xss ->
  exists l dns', run_ops ops dns = Some (l, dns') /\ Forall2 (fun P a => P a) Ps l /\ store_ok dns' xss'.
Proof.
  induction 1 as [|xss op P xss1 ops Ps xss2 Hop _ IH]; intros dns Hs; [by exists [], dns|].
  destruct (spec_op_ok _ _ _ _ Hop dns Hs) as (a & dns1 & E & Ha & Hs1). destruct (IH dns1 Hs1) as (l & dns2 & E2 & Hl & Hs2).
  exists (a :: l), dns2. simpl. rewrite E. simpl. rewrite E2. split; [done|]. split; [by constructor|done].
Qed.

(** C20: DN objects are lists of components.  Any program that makes DNs from texts
    that are read, copies them, takes parents, joins them from either side,
    removes and sets components, and asks for texts, canonical texts, comparisons,
    numbers and components, in any order, runs without a fault and gets the
    answers of the lists of names and values: whatever an object has cached of its
    text, its components and its canonical form is never out of date. *)
Theorem ldb_dn_refines_list ops Ps xss :
  spec_ops [] ops Ps xss ->
  exists l dns, run_ops ops [] = Some (l, dns) /\ Forall2 (fun P a => P a) Ps l /\ Forall2 represents dns xss.
Proof. intros H. apply (spec_ops_ok _ _ _ _ H). constructor. Qed.

(** C23: Whether a DN is below a base.  When both are folded, [ldb_dn_compare_base]
    is 0 exactly when the canonical components of the base are the last ones of
    the DN.  Otherwise the texts may decide: it is 0 when the text of the DN ends
    with the text of the base, wherever that begins, and not 0 when the text of
    the base is the longer one. *)
Theorem ldb_dn_compare_base_exact base dn xs ys : represents base xs -> represents dn ys ->
  exists r base' dn', ldb_dn_compare_base attributes def junk base dn = Some (r, base', dn')
  /\ represents base' xs /\ represents dn' ys
  /\ (r = 0 <-> match (if valid_case base && valid_case dn then None else text_below (linearized base) (linearized dn)) with
               | Some t => t = true
               | None => below xs ys
               end).
Proof. apply rep_compare_base. Qed.
End refine.

(** *** Examples

    A table with the entry of the star, whose syntax copies. *)
Definition star_table : list ldb_schema_attribute := [mk_attribute [STAR] 0 ldb_syntax_default].

Definition dc_x : rdn := ([100; 99], [120]).
Definition cn_a : rdn := ([99; 110], [97; 44; 32; 98]).

Lemma good_dc_x : good star_table ldb_attribute_default dc_x.
Proof. split; [split|..]; try done; repeat constructor; done. Qed.

Lemma good_cn_a : good star_table ldb_attribute_default cn_a.
Proof. split; [split|..]; try done; repeat constructor; done. Qed.

Lemma ldb_dn_refines_list_witness :
  exists l dns, run_ops star_table ldb_attribute_default []
    [New (dn_text [cn_a]); New (dn_text [dc_x]); Join true 0 1; GetCasefold 0; Parent 0; Compare 1 2; SetComponent 0 1 [100; 99] [120];
     CompNum 0] [] = Some (l, dns)
  /\ Forall2 (fun P a => P a) [eq (A_bool true); eq (A_bool true); eq (A_bool true);
       eq (A_text (Some (print_components (map (fold_rdn star_table ldb_attribute_default) [cn_a; dc_x])))); eq (A_bool true);
       (fun a => exists r, a = A_num r /\ (r = 0 <-> map (fold_rdn star_table ldb_attribute_default) [dc_x]
                                                    = map (fold_rdn star_table ldb_attribute_default) [dc_x]));
       eq (A_num LDB_SUCCESS); eq (A_num 2)] l
  /\ Forall2 (represents star_table ldb_attribute_default) dns [[cn_a; dc_x]; [dc_x]; [dc_x]].
Proof.
  pose proof good_dc_x as Hx. pose proof good_cn_a as Ha. apply ldb_dn_refines_list.
  repeat eapply spec_cons; [..|apply spec_nil].
  - apply (spec_new _ _ [] (dn_text [cn_a]) [cn_a]); [apply reads_text; [by constructor; [apply Ha|]|done]|by constructor].
  - apply (spec_new _ _ _ (dn_text [dc_x]) [dc_x]); [apply reads_text; [by constructor; [apply Hx|]|done]|by constructor].
  - by eapply spec_join.
  - by eapply spec_casefold.
  - eapply spec_parent; [reflexivity|simpl; lia].
  - by eapply (spec_compare _ _ _ 1 2).
  - by eapply (spec_set_component _ _ _ 0 1 [100; 99] [120] [cn_a; dc_x]).
  - by eapply (spec_comp_num _ _ _ 0 [cn_a; dc_x]).
Defined.

(** "c=e" and "dc=e": the one is not below the other, but its text ends with the
    text of the other. *)
Definition c_e : rdn := ([99], [101]).
Definition dc_e : rdn := ([100; 99], [101]).

Lemma ldb_dn_compare_base_exact_witness :
  let base := ldb_dn_new true (Some (dn_text [c_e])) in
  let dn := ldb_dn_new true (Some (dn_text [dc_e])) in
  exists r base' dn', ldb_dn_compare_base star_table ldb_attribute_default [] base dn = Some (r, base', dn')
  /\ represents star_table ldb_attribute_default base' [c_e] /\ represents star_table ldb_attribute_default dn' [dc_e]
  /\ (r = 0 <-> match (if valid_case base && valid_case dn then None else text_below (linearized base) (linearized dn)) with
               | Some t => t = true
               | None => below star_table ldb_attribute_default [c_e] [dc_e]
               end).
Proof.
  assert (forall nv, nv = c_e \/ nv = dc_e -> good star_table ldb_attribute_default nv) as Hg.
  { intros nv [->| ->]; (split; [split|..]; try done; repeat constructor; done). }
  assert (forall nv, nv = c_e \/ nv = dc_e ->
    represents star_table ldb_attribute_default (ldb_dn_new true (Some (dn_text [nv]))) [nv]) as Hr.
  { intros nv Hnv. apply rep_new; [apply reads_text; [constructor; [apply (Hg nv Hnv)|constructor]|done]|].
    constructor; [by apply Hg|constructor]. }
  cbv zeta. apply ldb_dn_compare_base_exact; apply Hr; [by left|by right].
Defined.

Example compare_base_text :
  (fun r => r.1.1) <$> ldb_dn_compare_base star_table ldb_attribute_default []
    (ldb_dn_new true (Some [99; 61; 101])) (ldb_dn_new true (Some [100; 99; 61; 101])) = Some 0
  /\ ~ below star_table ldb_attribute_default [c_e] [dc_e].
Proof.
  split; [reflexivity|]. intros [k E]. destruct k as [|x k]; [discriminate E|]. injection E as _ E. by destruct k.
Qed.
