(* ===== verification/LdbMatch.v ===== *)
(** * Matching ([source4/lib/ldb/common/ldb_match.c])

    The evaluation of a filter on a message: 1, 0, or -1 for an error.  Comparing
    DNs explodes and folds them, so what has a DN is returned with it.  [None] is
    an access outside a buffer, or a loop that is out of fuel. *)

From S2P Require Import Prelude CLib LdbFilter LdbAttr LdbDn.

(** ** Messages *)

Record ldb_message_element : Set := mk_element { el_name : list Z; el_values : list (list Z) }.

Record ldb_message : Type := mk_message { msg_dn : ldb_dn; elements : list ldb_message_element }.

Definition set_msg_dn (dn : ldb_dn) (msg : ldb_message) : ldb_message := mk_message dn (elements msg).

Definition str_dn : list Z := [100; 110].
Definition oid_and : list Z := [49; 46; 50; 46; 56; 52; 48; 46; 49; 49; 51; 53; 53; 54; 46; 49; 46; 52; 46; 56; 48; 51].
Definition oid_or : list Z := [49; 46; 50; 46; 56; 52; 48; 46; 49; 49; 51; 53; 53; 54; 46; 49; 46; 52; 46; 56; 48; 52].

(** [ldb_attr_dn(attr) == 0] *)
Definition ldb_attr_dn (attr : list Z) : bool :=
  (ldb_attr_cmp attr str_dn =? 0) || (ldb_attr_cmp attr str_distinguishedName =? 0).

(** The loop over the values of an element: the first result that is not 0. *)
Fixpoint any_value (f : list Z -> option Z) (l : list (list Z)) : option Z :=
  match l with
  | [] => Some 0
  | v :: l => r ← f v; if r =? 0 then any_value f l else Some r
  end.

Definition int_of (b : bool) : Z := if b then 1 else 0.

Section match_.
Context (attributes : list ldb_schema_attribute) (def : ldb_schema_attribute) (junk : list Z).

Definition ldb_msg_find_element (msg : ldb_message) (name : list Z) : option ldb_message_element :=
  List.find (fun el => ldb_attr_cmp (el_name el) name =? 0) (elements msg).

Inductive ldb_scope : Set := LDB_SCOPE_DEFAULT | LDB_SCOPE_BASE | LDB_SCOPE_ONELEVEL | LDB_SCOPE_SUBTREE.

(** The DNs are exploded and folded as far as it takes. *)
Definition ldb_match_scope (base dn : option ldb_dn) (scope : ldb_scope) : option (bool * option ldb_dn * option ldb_dn) :=
  match base, dn with
  | Some base, Some dn =>
    match scope with
    | LDB_SCOPE_BASE =>
      '(ret, base, dn) ← ldb_dn_compare attributes def junk base dn;
      Some (ret =? 0, Some base, Some dn)
    | LDB_SCOPE_ONELEVEL =>
      '(n, dn) ← ldb_dn_get_comp_num junk dn;
      '(m, base) ← ldb_dn_get_comp_num junk base;
      if n =? m + 1 then
        '(ret, base, dn) ← ldb_dn_compare_base attributes def junk base dn;
        Some (ret =? 0, Some base, Some dn)
      else Some (false, Some base, Some dn)
    | LDB_SCOPE_SUBTREE | LDB_SCOPE_DEFAULT =>
      '(ret, base, dn) ← ldb_dn_compare_base attributes def junk base dn;
      Some (ret =? 0, Some base, Some dn)
    end
  | _, _ => Some (true, base, dn)
  end.

Definition ldb_match_present (msg : ldb_message) (attr : list Z) : Z :=
  int_of (ldb_attr_dn attr || bool_decide (is_Some (ldb_msg_find_element msg attr))).

(** [greater] and [less]: whether [comp_op] is that operation. *)
Definition ldb_match_comparison (msg : ldb_message) (attr value : list Z) (greater less : bool) : option Z :=
  match ldb_msg_find_element msg attr with
  | None => Some 0
  | Some el =>
    a ← ldb_schema_attribute_by_name attributes def (el_name el);
    any_value (fun v =>
      ret ← comparison_fn (syntax a) v value;
      Some (int_of ((ret =? 0) || ((0 <? ret) && greater) || ((ret <? 0) && less)))) (el_values el)
  end.

Definition ldb_match_equality (msg : ldb_message) (attr value : list Z) : option (Z * ldb_message) :=
  if ldb_attr_dn attr then
    '(ret, dn, _) ← ldb_dn_compare attributes def junk (msg_dn msg) (ldb_dn_new true (Some (cstr value)));
    Some (int_of (ret =? 0), set_msg_dn dn msg)
  else
    match ldb_msg_find_element msg attr with
    | None => Some (0, msg)
    | Some el =>
      a ← ldb_schema_attribute_by_name attributes def (el_name el);
      r ← any_value (fun v => ret ← comparison_fn (syntax a) value v; Some (int_of (ret =? 0))) (el_values el);
      Some (r, msg)
    end.

(** *** Patterns *)

(** The greedy loop: the last of the matches that do not overlap, from the match
    at the start of [p] on. *)
Fixpoint greedy_loop (fuel : nat) (p cnk : list Z) : option (list Z) :=
  match fuel with
  | O => None
  | S fuel =>
    q ← advance (length cnk) p;
    match strstr (cstr q) (cstr cnk) with
    | Some k => greedy_loop fuel (drop k q) cnk
    | None => Some p
    end
  end.

(** The loop over the chunks from [val] on: where the last one ends, the inner
    [None] is [failed]. *)
Fixpoint chunk_loop (canonicalise : list Z -> option (option (list Z))) (end_with_wildcard : bool)
    (chunks : list (list Z)) (val : list Z) : option (option (list Z)) :=
  match chunks with
  | [] => Some (Some val)
  | chunk :: chunks =>
    cnk ← canonicalise chunk;
    match cnk with
    | None => Some None
    | Some cnk =>
      match strstr (cstr val) (cstr cnk) with
      | None => Some None
      | Some k =>
        p ← (if bool_decide (chunks = []) && negb end_with_wildcard
             then greedy_loop (S (length val)) (drop k val) cnk else Some (drop k val));
        val ← advance (length cnk) p;
        chunk_loop canonicalise end_with_wildcard chunks val
      end
    end
  end.

Definition ldb_wildcard_compare (s : ldb_schema_syntax) (start_with_wildcard end_with_wildcard : bool)
    (chunks : list (list Z)) (value : list Z) : option Z :=
  val ← canonicalise_fn s true value;
  match val with
  | None => Some (-1)
  | Some val =>
    start ← (match start_with_wildcard, chunks with
             | true, _ => Some (Some (chunks, val))
             | false, [] => None
             | false, chunk :: rest =>
               cnk ← canonicalise_fn s true chunk;
               Some (match cnk with
                     | None => None
                     | Some cnk => if is_prefix cnk val then Some (rest, drop (length cnk) val) else None
                     end)
             end);
    match start with
    | None => Some 0
    | Some (rest, val) =>
      r ← chunk_loop (canonicalise_fn s true) end_with_wildcard rest val;
      Some (match r with
            | None => 0
            | Some val => int_of (end_with_wildcard || (default 0 (head val) =? 0))
            end)
    end
  end.

Definition ldb_match_substring (msg : ldb_message) (attr : list Z) (start end_ : bool) (chunks : list (list Z)) : option Z :=
  match ldb_msg_find_element msg attr with
  | None => Some 0
  | Some el =>
    any_value (fun v =>
      a ← ldb_schema_attribute_by_name attributes def attr;
      r ← ldb_wildcard_compare (syntax a) start end_ chunks v;
      Some (int_of (r =? 1))) (el_values el)
  end.

(** *** Bits *)

Definition ldb_comparator_and (v1 v2 : list Z) : bool := Z.land (strtoull v1) (strtoull v2) =? strtoull v2.
Definition ldb_comparator_or (v1 v2 : list Z) : bool := negb (Z.land (strtoull v1) (strtoull v2) =? 0).

Definition ldb_match_extended (msg : ldb_message) (attr : option (list Z)) (dnAttributes : bool)
    (rule_id : option (list Z)) (value : list Z) : option Z :=
  if dnAttributes then Some (-1)
  else
    match rule_id, attr with
    | None, _ => Some (-1)
    | _, None => Some (-1)
    | Some rule, Some attr =>
      let comp := if bool_decide (rule = oid_and) then Some ldb_comparator_and
                  else if bool_decide (rule = oid_or) then Some ldb_comparator_or else None in
      match comp with
      | None => Some (-1)
      | Some comp =>
        match ldb_msg_find_element msg attr with
        | None => Some 0
        | Some el => any_value (fun v => Some (int_of (comp v value))) (el_values el)
        end
      end
    end.

(** *** Filters

    The message is returned with its DN as the comparisons leave it. *)

Fixpoint ldb_match_message (msg : ldb_message) (t : parse_tree) : option (Z * ldb_message) :=
  match t with
  | Op_and l =>
    (fix all (msg : ldb_message) (l : list parse_tree) : option (Z * ldb_message) :=
       match l with
       | [] => Some (1, msg)
       | t :: l => '(v, msg) ← ldb_match_message msg t; if v =? 0 then Some (0, msg) else all msg l
       end) msg l
  | Op_or l =>
    (fix any (msg : ldb_message) (l : list parse_tree) : option (Z * ldb_message) :=
       match l with
       | [] => Some (0, msg)
       | t :: l => '(v, msg) ← ldb_match_message msg t; if v =? 0 then any msg l else Some (1, msg)
       end) msg l
  | Op_not t => '(v, msg) ← ldb_match_message msg t; Some (int_of (v =? 0), msg)
  | Op_equality a v => ldb_match_equality msg a v
  | Op_substring a s e c => r ← ldb_match_substring msg a s e c; Some (r, msg)
  | Op_greater a v => r ← ldb_match_comparison msg a v true false; Some (r, msg)
  | Op_less a v => r ← ldb_match_comparison msg a v false true; Some (r, msg)
  | Op_present a => Some (ldb_match_present msg a, msg)
  | Op_approx _ _ => Some (0, msg)
  | Op_extended a dn rule v => r ← ldb_match_extended msg a dn rule v; Some (r, msg)
  end.

Definition ldb_match_msg (msg : ldb_message) (t : parse_tree) (base : option ldb_dn) (scope : ldb_scope)
  : option (Z * ldb_message * option ldb_dn) :=
  '(ok, base, dn) ← ldb_match_scope base (Some (msg_dn msg)) scope;
  let msg := set_msg_dn (default (msg_dn msg) dn) msg in
  if negb ok then Some (0, msg, base)
  else '(r, msg) ← ldb_match_message msg t; Some (r, msg, base).

End match_.
