(* ===== verification/LdbMatchEval.v ===== *)
(** * Evaluation of filters

    What a filter selects, as a proposition about the components of the DN and
    the elements of a message, and that [ldb_match_msg] decides it whatever the
    DNs have cached. *)

From S2P Require Import Prelude CLib LdbFilter LdbFilterSpec LdbAttr LdbDn LdbDnSpec LdbDnRefine LdbMatch.

Section eval.
Context (attributes : list ldb_schema_attribute) (def : ldb_schema_attribute) (junk : list Z).

(** ** The meaning of a filter *)

(** The first element of a name, and one of its values. *)
Definition find_element (els : list ldb_message_element) (name : list Z) : option ldb_message_element :=
  List.find (fun el => ldb_attr_cmp (el_name el) name =? 0) els.

Definition some_value (els : list ldb_message_element) (a : list Z) (P : ldb_message_element -> list Z -> Prop) : Prop :=
  exists el v, find_element els a = Some el /\ v ∈ el_values el /\ P el v.

(** The result of the comparison of an element of that name. *)
Definition compares (name u w : list Z) (P : Z -> Prop) : Prop :=
  exists a r, ldb_schema_attribute_by_name attributes def name = Some a /\ comparison_fn (syntax a) u w = Some r /\ P r.

Definition bit_rule (rule : list Z) : option (list Z -> list Z -> bool) :=
  if bool_decide (rule = oid_and) then Some ldb_comparator_and
  else if bool_decide (rule = oid_or) then Some ldb_comparator_or else None.

(** [xs] are the components of the DN of the message.  A condition that cannot be
    evaluated holds. *)
Fixpoint matches (xs : list rdn) (els : list ldb_message_element) (t : parse_tree) : Prop :=
  match t with
  | Op_and l => (fix all (l : list parse_tree) : Prop := match l with [] => True | t :: l => matches xs els t /\ all l end) l
  | Op_or l => (fix any (l : list parse_tree) : Prop := match l with [] => False | t :: l => matches xs els t \/ any l end) l
  | Op_not t => ~ matches xs els t
  | Op_equality a v =>
    if ldb_attr_dn a then
      exists ys, reads (cstr v) ys /\ map (fold_rdn attributes def) xs = map (fold_rdn attributes def) ys
    else some_value els a (fun el x => compares (el_name el) v x (fun r => r = 0))
  | Op_greater a v => some_value els a (fun el x => compares (el_name el) x v (fun r => 0 <= r))
  | Op_less a v => some_value els a (fun el x => compares (el_name el) x v (fun r => r <= 0))
  | Op_substring a s e c =>
    some_value els a (fun _ x => exists b, ldb_schema_attribute_by_name attributes def a = Some b
      /\ ldb_wildcard_compare (syntax b) s e c x = Some 1)
  | Op_present a => ldb_attr_dn a = true \/ is_Some (find_element els a)
  | Op_approx _ _ => False
  | Op_extended (Some a) false (Some rule) v =>
    match bit_rule rule with
    | Some f => some_value els a (fun _ x => f x v = true)
    | None => True
    end
  | Op_extended _ _ _ _ => True
  end.

(** ** The values that can be compared *)

(** No comparison leaves a buffer, and the DNs of the filter are read. *)
Fixpoint comparable (els : list ldb_message_element) (t : parse_tree) : Prop :=
  match t with
  | Op_and l | Op_or l =>
    (fix all (l : list parse_tree) : Prop := match l with [] => True | t :: l => comparable els t /\ all l end) l
  | Op_not t => comparable els t
  | Op_equality a v =>
    if ldb_attr_dn a then exists ys, reads (cstr v) ys /\ Forall (good attributes def) ys
    else forall el, find_element els a = Some el ->
      exists b, ldb_schema_attribute_by_name attributes def (el_name el) = Some b
      /\ Forall (fun x => is_Some (comparison_fn (syntax b) v x)) (el_values el)
  | Op_greater a v | Op_less a v =>
    forall el, find_element els a = Some el ->
      exists b, ldb_schema_attribute_by_name attributes def (el_name el) = Some b
      /\ Forall (fun x => is_Some (comparison_fn (syntax b) x v)) (el_values el)
  | Op_substring a s e c =>
    forall el, find_element els a = Some el ->
      exists b, ldb_schema_attribute_by_name attributes def a = Some b
      /\ Forall (fun x => is_Some (ldb_wildcard_compare (syntax b) s e c x)) (el_values el)
  | _ => True
  end.

Lemma any_value_ok f l : Forall (fun v => is_Some (f v)) l ->
  exists r, any_value f l = Some r /\ (r <> 0 <-> exists v, v ∈ l /\ exists x, f v = Some x /\ x <> 0).
Proof.
  induction 1 as [|v l [x Hx] Hl (r & Hr & Hiff)]; simpl.
  - exists 0. split; [done|]. split; [done|]. by intros (v & Hv%not_elem_of_nil & _).
  - rewrite Hx. simpl. destruct (Z.eqb_spec x 0) as [->|Hne].
    + exists r. split; [done|]. rewrite Hiff. split.
      * intros (w & Hw & H). exists w. split; [by right|done].
      * intros (w & [->|Hw]%elem_of_cons & y & Hy & Hy0); [congruence|]. exists w. eauto.
    + exists x. split; [done|]. split; [|done]. intros _. exists v. split; [by left|]. by exists x.
Qed.

Lemma int_of_ne b : int_of b <> 0 <-> b = true.
Proof. destruct b; by split. Qed.

(** The loop over the values of an element, with the comparison [g]. *)
Lemma value_loop (g : list Z -> option Z) (h : Z -> bool) (P : Z -> Prop) l :
  Forall (fun v => is_Some (g v)) l -> (forall r, h r = true <-> P r) ->
  exists r, any_value (fun v => ret ← g v; Some (int_of (h ret))) l = Some r
    /\ (r <> 0 <-> exists v, v ∈ l /\ exists x, g v = Some x /\ P x).
Proof.
  intros Hg Hh. destruct (any_value_ok (fun v => ret ← g v; Some (int_of (h ret))) l) as (r & -> & Hr).
  { eapply Forall_impl; [exact Hg|]. intros v [x ->]. simpl. by eexists. }
  exists r. split; [done|]. rewrite Hr. split.
  - intros (v & Hv & y & Hy & Hne). destruct (g v) as [x|] eqn:E; [|done]. simpl in Hy. injection Hy as <-.
    exists v. split; [done|]. exists x. split; [done|]. by apply Hh, int_of_ne.
  - intros (v & Hv & x & Hx & HP). exists v. split; [done|]. rewrite Hx. simpl. eexists. split; [done|].
    by apply int_of_ne, Hh.
Qed.

Lemma compares_some els a el b (g : list Z -> list Z * list Z) (P : Z -> Prop) :
  find_element els a = Some el -> ldb_schema_attribute_by_name attributes def (el_name el) = Some b ->
  (exists v, v ∈ el_values el /\ exists x, comparison_fn (syntax b) (g v).1 (g v).2 = Some x /\ P x)
  <-> some_value els a (fun el x => compares (el_name el) (g x).1 (g x).2 P).
Proof.
  intros He Hb. split.
  - intros (v & Hv & x & Hx & HP). exists el, v. split; [done|]. split; [done|]. by exists b, x.
  - intros (el' & v & He' & Hv & b' & x & Hb' & Hx & HP). rewrite He in He'. injection He' as <-.
    rewrite Hb in Hb'. injection Hb' as <-. exists v. split; [done|]. by exists x.
Qed.

Lemma some_value_none els a P : find_element els a = None -> ~ some_value els a P.
Proof. by intros E (el & v & E' & _); rewrite E in E'. Qed.

(** ** The leaves *)

Lemma comparison_ok (msg : ldb_message) a v greater less (P : Z -> Prop) :
  (forall r, (r =? 0) || ((0 <? r) && greater) || ((r <? 0) && less) = true <-> P r) ->
  (forall el, find_element (elements msg) a = Some el ->
      exists b, ldb_schema_attribute_by_name attributes def (el_name el) = Some b
      /\ Forall (fun x => is_Some (comparison_fn (syntax b) x v)) (el_values el)) ->
  exists r, ldb_match_comparison attributes def msg a v greater less = Some r
  /\ (r <> 0 <-> some_value (elements msg) a (fun el x => compares (el_name el) x v P)).
Proof.
  intros HP Hc. unfold ldb_match_comparison, ldb_msg_find_element. fold (find_element (elements msg) a). destruct (find_element (elements msg) a) as [el|] eqn:E.
  2:{ exists 0. split; [done|]. split; [done|]. intros H. by apply some_value_none in H. }
  destruct (Hc el eq_refl) as (b & Eb & Hv). rewrite Eb. simpl.
  destruct (value_loop (fun x => comparison_fn (syntax b) x v) _ P _ Hv HP) as (r & -> & Hr). exists r. split; [done|].
  rewrite Hr. apply (compares_some (elements msg) a el b (fun x => (x, v)) P E Eb).
Qed.

Lemma substring_ok (msg : ldb_message) a s e c : comparable (elements msg) (Op_substring a s e c) ->
  exists r, ldb_match_substring attributes def msg a s e c = Some r /\ (r <> 0 <-> matches [] (elements msg) (Op_substring a s e c)).
Proof.
  simpl. intros Hc. unfold ldb_match_substring, ldb_msg_find_element. fold (find_element (elements msg) a). destruct (find_element (elements msg) a) as [el|] eqn:E.
  2:{ exists 0. split; [done|]. split; [done|]. intros H. by apply some_value_none in H. }
  destruct (Hc el eq_refl) as (b & -> & Hv). simpl.
  destruct (value_loop (fun x => ldb_wildcard_compare (syntax b) s e c x) (fun r => r =? 1) (fun r => r = 1) _ Hv)
    as (r & -> & Hr); [by intros r; rewrite Z.eqb_eq|].
  exists r. split; [done|]. rewrite Hr. split.
  - intros (x & Hx & y & Hy & ->). exists el, x. split; [done|]. split; [done|]. by exists b.
  - intros (el' & x & He & Hx & b' & [= <-] & Hy). rewrite E in He. injection He as <-. exists x. split; [done|]. by exists 1.
Qed.

(** The message with its DN as a comparison leaves it. *)
Definition answers (xs : list rdn) (msg : ldb_message) (P : Prop) (o : option (Z * ldb_message)) : Prop :=
  exists r msg', o = Some (r, msg') /\ (r <> 0 <-> P) /\ represents attributes def (msg_dn msg') xs /\ elements msg' = elements msg.

Lemma equality_ok xs msg a v : represents attributes def (msg_dn msg) xs -> comparable (elements msg) (Op_equality a v) ->
  answers xs msg (matches xs (elements msg) (Op_equality a v)) (ldb_match_equality attributes def junk msg a v).
Proof.
  simpl. intros Hrep Hc. unfold ldb_match_equality, ldb_msg_find_element. fold (find_element (elements msg) a).
  destruct (ldb_attr_dn a).
  - destruct Hc as (ys & Hs & Hg).
    destruct (rep_compare attributes def junk _ _ _ _ Hrep (rep_new _ _ _ _ Hs Hg)) as (r & d1 & d2 & -> & H1 & _ & Hr). simpl.
    eexists _, _. split; [done|]. split; [|by split]. rewrite int_of_ne, Z.eqb_eq, Hr. split.
    + intros E. by exists ys.
    + intros (ys' & Hs' & E). by rewrite (reads_functional _ _ _ Hs Hs').
  - destruct (find_element (elements msg) a) as [el|] eqn:E.
    2:{ exists 0, msg. split; [done|]. split; [|by split]. split; [done|]. intros H. by apply some_value_none in H. }
    destruct (Hc el eq_refl) as (b & Eb & Hv). rewrite Eb. simpl.
    destruct (value_loop (fun x => comparison_fn (syntax b) v x) (fun r => r =? 0) (fun r => r = 0) _ Hv) as (r & -> & Hr);
      [by intros r; rewrite Z.eqb_eq|]. simpl. exists r, msg. split; [done|]. split; [|by split].
    rewrite Hr. apply (compares_some (elements msg) a el b (fun x => (v, x)) _ E Eb).
Qed.

Lemma extended_ok xs msg a dn rule v : exists r, ldb_match_extended msg a dn rule v = Some r
  /\ (r <> 0 <-> matches xs (elements msg) (Op_extended a dn rule v)).
Proof.
  unfold ldb_match_extended. destruct dn; [by exists (-1); destruct a|].
  destruct rule as [rule|]; [|by exists (-1); destruct a]. destruct a as [a|]; [|by exists (-1)]. simpl.
  unfold bit_rule. destruct (if bool_decide (rule = oid_and) then _ else _) as [f|]; [|by exists (-1)].
  unfold ldb_msg_find_element. fold (find_element (elements msg) a).
  destruct (find_element (elements msg) a) as [el|] eqn:E.
  2:{ exists 0. split; [done|]. split; [done|]. intros H. by apply some_value_none in H. }
  destruct (any_value_ok (fun x => Some (int_of (f x v))) (el_values el)) as (r & -> & Hr).
  { apply Forall_forall. intros x _. by eexists. }
  exists r. split; [done|]. rewrite Hr. split.
  - intros (x & Hx & y & [= <-] & Hy). exists el, x. split; [done|]. split; [done|]. by apply int_of_ne.
  - intros (el' & x & He & Hx & Hf). rewrite E in He. injection He as <-. exists x. split; [done|]. eexists. split; [done|].
    by apply int_of_ne.
Qed.

(** ** Filters *)

Lemma answers_pure xs msg P r : represents attributes def (msg_dn msg) xs -> (r <> 0 <-> P) -> answers xs msg P (Some (r, msg)).
Proof. intros H HP. by exists r, msg. Qed.

Lemma match_message_ok xs t : forall msg, represents attributes def (msg_dn msg) xs -> comparable (elements msg) t ->
  answers xs msg (matches xs (elements msg) t) (ldb_match_message attributes def junk msg t).
Proof.
  induction t as [l IH|l IH|t IH|a v|a s e c|a v|a v|a|a v|a dn rule v] using parse_tree_induction; intros msg Hrep Hc.
  - revert msg Hrep Hc. simpl. induction IH as [|t l Ht _ IHl]; intros msg Hrep Hc; [by apply answers_pure|].
    destruct Hc as [Hc Hcs]. destruct (Ht msg Hrep Hc) as (r & msg1 & -> & Hr & Hrep1 & E1). simpl.
    destruct (Z.eqb_spec r 0) as [->|Hne].
    + exists 0, msg1. split; [done|]. split; [|by split]. split; [done|]. intros [H _]. by apply Hr in H.
    + rewrite <- E1 in Hcs. destruct (IHl msg1 Hrep1 Hcs) as (r2 & msg2 & -> & Hr2 & Hrep2 & E2).
      exists r2, msg2. split; [done|]. rewrite E2, Hr2, E1. split; [|by split]. apply Hr in Hne. tauto.
  - revert msg Hrep Hc. simpl. induction IH as [|t l Ht _ IHl]; intros msg Hrep Hc; [by apply answers_pure|].
    destruct Hc as [Hc Hcs]. destruct (Ht msg Hrep Hc) as (r & msg1 & -> & Hr & Hrep1 & E1). simpl.
    destruct (Z.eqb_spec r 0) as [->|Hne].
    + rewrite <- E1 in Hcs. destruct (IHl msg1 Hrep1 Hcs) as (r2 & msg2 & -> & Hr2 & Hrep2 & E2).
      exists r2, msg2. split; [done|]. rewrite E2, Hr2, E1. split; [|by split].
      assert (~ matches xs (elements msg) t) by (intros H; by apply Hr in H). tauto.
    + exists 1, msg1. split; [done|]. split; [|by split]. split; [|done]. intros _. left. by apply Hr.
  - simpl in *. destruct (IH msg Hrep Hc) as (r & msg1 & -> & Hr & Hrep1 & E1). simpl. eexists _, msg1. split; [done|].
    split; [|by split]. rewrite int_of_ne, Z.eqb_eq. destruct (Z.eq_dec r 0); tauto.
  - by apply equality_ok.
  - destruct (substring_ok msg a s e c Hc) as (r & E & Hr). cbn [ldb_match_message]. rewrite E. simpl mbind. by apply answers_pure.
  - cbn [ldb_match_message matches] in *. destruct (comparison_ok msg a v true false (fun r => 0 <= r)) as (r & -> & Hr);
      [intros r; destruct (Z.eqb_spec r 0), (Z.ltb_spec 0 r), (Z.ltb_spec r 0); simpl; split; (done || lia)|done|].
    by apply answers_pure.
  - cbn [ldb_match_message matches] in *. destruct (comparison_ok msg a v false true (fun r => r <= 0)) as (r & -> & Hr);
      [intros r; destruct (Z.eqb_spec r 0), (Z.ltb_spec 0 r), (Z.ltb_spec r 0); simpl; split; (done || lia)|done|].
    by apply answers_pure.
  - apply answers_pure; [done|]. unfold ldb_match_present. rewrite int_of_ne, orb_true_iff, bool_decide_eq_true. done.
  - by apply answers_pure.
  - destruct (extended_ok xs msg a dn rule v) as (r & E & Hr). cbn [ldb_match_message]. rewrite E. simpl mbind.
    by apply answers_pure.
Qed.

(** ** Scopes *)

(** The DN of the message is below the base, as far as [ldb_dn_compare_base] goes. *)
Definition base_above (base dn : ldb_dn) (xs ys : list rdn) : Prop :=
  match (if valid_case base && valid_case dn then None else text_below (linearized base) (linearized dn)) with
  | Some b => b = true
  | None => below attributes def xs ys
  end.

Definition in_scope (base dn : ldb_dn) (xs ys : list rdn) (scope : ldb_scope) : Prop :=
  match scope with
  | LDB_SCOPE_BASE => map (fold_rdn attributes def) xs = map (fold_rdn attributes def) ys
  | LDB_SCOPE_ONELEVEL => length ys = S (length xs) /\ base_above base dn xs ys
  | _ => base_above base dn xs ys
  end.

Lemma scope_ok base dn xs ys scope : represents attributes def base xs -> represents attributes def dn ys ->
  exists b base' dn', ldb_match_scope attributes def junk (Some base) (Some dn) scope = Some (b, Some base', Some dn')
  /\ represents attributes def base' xs /\ represents attributes def dn' ys /\ (b = true <-> in_scope base dn xs ys scope).
Proof.
  intros Hb Hd.
  assert (forall base dn, represents attributes def base xs -> represents attributes def dn ys ->
    exists b base' dn', ('(ret, base, dn) ← ldb_dn_compare_base attributes def junk base dn; Some (ret =? 0, Some base, Some dn))
      = Some (b, Some base', Some dn')
    /\ represents attributes def base' xs /\ represents attributes def dn' ys /\ (b = true <-> base_above base dn xs ys)) as Hbase.
  { clear base dn Hb Hd. intros base dn Hb Hd.
    destruct (rep_compare_base attributes def junk base dn xs ys Hb Hd) as (r & b' & d' & -> & Hb' & Hd' & Hr).
    simpl. exists (r =? 0), b', d'. split; [done|]. split; [done|]. split; [done|]. by rewrite Z.eqb_eq. }
  destruct scope; unfold ldb_match_scope; try by apply Hbase.
  - destruct (rep_compare attributes def junk base dn xs ys Hb Hd) as (r & b' & d' & -> & Hb' & Hd' & Hr).
    simpl. exists (r =? 0), b', d'. split; [done|]. split; [done|]. split; [done|]. by rewrite Z.eqb_eq.
  - destruct (rep_comp_num attributes def junk dn ys Hd) as (d1 & -> & Hd1 & Ld & Vd).
    destruct (rep_comp_num attributes def junk base xs Hb) as (b1 & E & Hb1 & Lb & Vb). simpl mbind. rewrite E. simpl mbind.
    destruct (Z.eqb_spec (Z.of_nat (length ys)) (Z.of_nat (length xs) + 1)) as [El|El].
    + destruct (Hbase b1 d1 Hb1 Hd1) as (b & b' & d' & E' & Hb' & Hd' & Hr). exists b, b', d'. split; [exact E'|].
      split; [done|]. split; [done|]. rewrite Hr. unfold in_scope, base_above. rewrite Lb, Vb, Ld, Vd.
      split; [|by intros []]. split; [lia|done].
    + exists false, b1, d1. split; [done|]. split; [done|]. split; [done|]. split; [done|]. intros [Hl _]. lia.
Qed.

(** C24: Searches select what their filter means.  For a message and a base whose
    DNs are used within their contract and a filter whose values can be
    compared, [ldb_match_msg] answers without a fault, and its answer is not 0
    exactly when the DN is in the scope and the filter holds of the elements of
    the message: a comparison looks at the values of the first element of its
    name, conditions on the DN compare canonical components, and a condition that
    cannot be evaluated, like one with an unknown matching rule, holds. *)
Theorem ldb_match_msg_correct xs ys msg t base scope :
  represents attributes def base xs -> represents attributes def (msg_dn msg) ys -> comparable (elements msg) t ->
  exists r msg' base', ldb_match_msg attributes def junk msg t (Some base) scope = Some (r, msg', Some base')
  /\ (r <> 0 <-> in_scope base (msg_dn msg) xs ys scope /\ matches ys (elements msg) t)
  /\ represents attributes def base' xs /\ represents attributes def (msg_dn msg') ys /\ elements msg' = elements msg.
Proof.
  intros Hb Hd Hc. unfold ldb_match_msg.
  destruct (scope_ok base (msg_dn msg) xs ys scope Hb Hd) as (b & base' & dn' & -> & Hb' & Hd' & Hiff). simpl.
  destruct b; simpl.
  - destruct (match_message_ok ys t (set_msg_dn dn' msg) Hd' Hc) as (r & msg' & -> & Hr & Hrep & He). simpl.
    exists r, msg', base'. split; [done|]. split; [|done]. rewrite Hr. simpl. tauto.
  - exists 0, (set_msg_dn dn' msg), base'. split; [done|]. split; [|done]. split; [done|]. intros [H _]. by apply Hiff in H.
Qed.
End eval.

(** The conjunction of "dc=x", the negation of a bit test of cn, and "dn=dc=x", over an entry with the DN "dc=x", which
    is the base of a search of base scope. *)
Lemma ldb_match_msg_correct_witness :
  let dn := ldb_dn_new true (Some (dn_text [dc_x])) in
  let msg := mk_message dn [mk_element [100; 99] [[121]; [120]]] in
  let t := Op_and [Op_equality [100; 99] [120]; Op_not (Op_extended (Some [99; 110]) false (Some oid_and) [53]);
                   Op_equality [100; 110] (dn_text [dc_x])] in
  exists r msg' base', ldb_match_msg star_table ldb_attribute_default [] msg t (Some dn) LDB_SCOPE_BASE = Some (r, msg', Some base')
  /\ (r <> 0 <-> in_scope star_table ldb_attribute_default dn (msg_dn msg) [dc_x] [dc_x] LDB_SCOPE_BASE
                /\ matches star_table ldb_attribute_default [dc_x] (elements msg) t)
  /\ represents star_table ldb_attribute_default base' [dc_x] /\ represents star_table ldb_attribute_default (msg_dn msg') [dc_x]
  /\ elements msg' = elements msg.
Proof.
  assert (reads (dn_text [dc_x]) [dc_x]) as Hs by (apply reads_text; [by constructor; [apply good_dc_x|]|done]).
  assert (Forall (good star_table ldb_attribute_default) [dc_x]) as Hg by (by constructor; [apply good_dc_x|]).
  pose proof (rep_new _ _ _ _ Hs Hg) as Hrep. cbv zeta. apply ldb_match_msg_correct; [exact Hrep|exact Hrep|].
  split; [|split; [|split; [|done]]].
  - intros el [= <-]. eexists. split; [reflexivity|]. repeat constructor; eexists; reflexivity.
  - done.
  - exists [dc_x]. split; [exact Hs|exact Hg].
Defined.

(** An unknown rule selects every message. *)
Example unknown_rule :
  fst <$> ldb_match_message star_table ldb_attribute_default [] (mk_message (ldb_dn_new true (Some (dn_text [dc_x]))) [])
    (Op_extended (Some [99; 110]) false (Some [49]) [53])
  = Some (-1).
Proof. reflexivity. Qed.
