(* ===== verification/LdbMatchSpec.v ===== *)
(** * Attributes and matching: what they promise

    The canonical form and the comparison of strings agree, where they do;
    patterns match what their chunks and stars say; the table of attributes finds
    what was added. *)

From stdpp Require Import sorting.
From S2P Require Import Prelude CLib LdbFilter LdbAttr LdbDn LdbDnSpec LdbMatch.

#[local] Arguments greedy_loop : simpl never.

(** ** Patterns *)

Lemma is_prefix_spec a b : is_prefix a b = true <-> exists r, b = a ++ r.
Proof.
  revert b. induction a as [|x a IH]; intros b; simpl; [split; [by exists b|done]|].
  destruct b as [|y b]; [split; [done|intros [r [=]]]|]. rewrite andb_true_iff, Z.eqb_eq, IH.
  split; [intros (-> & r & ->); by exists r|intros [r [= -> ->]]; split; [done|by exists r]].
Qed.

(** The first occurrence. *)
Lemma strstr_Some s pat k : strstr s pat = Some k ->
  exists pre r, s = pre ++ pat ++ r /\ length pre = k.
Proof.
  revert k. induction s as [|x s IH]; intros k; simpl; destruct (is_prefix pat _) eqn:E.
  - intros [= <-]. apply is_prefix_spec in E as [r ->]. by exists [], r.
  - done.
  - intros [= <-]. apply is_prefix_spec in E as [r ->]. by exists [], r.
  - destruct (strstr s pat) as [j|]; [|done]. intros [= <-]. destruct (IH j eq_refl) as (pre & r & -> & Hl).
    exists (x :: pre), r. split; [done|]. simpl. lia.
Qed.

(** Any occurrence is found, or one before it. *)
Lemma strstr_occurs pre pat r : exists k, strstr (pre ++ pat ++ r) pat = Some k /\ (k <= length pre)%nat.
Proof.
  induction pre as [|x pre IH]; simpl.
  - exists 0%nat. split; [|lia]. destruct (pat ++ r) as [|y l] eqn:E; simpl.
    + replace (is_prefix pat []) with true; [done|]. symmetry. apply is_prefix_spec. exists r. by rewrite <- E.
    + replace (is_prefix pat (y :: l)) with true; [done|]. symmetry. apply is_prefix_spec. by exists r.
  - destruct (is_prefix pat _); [exists 0%nat; split; [done|lia]|]. destruct IH as (k & -> & Hk).
    exists (S k). split; [done|lia].
Qed.

(** What a pattern means: the chunks in their order, with anything before each
    of them, and after the last if the end is open. *)
Fixpoint globs (end_ : bool) (chunks : list (list Z)) (v : list Z) : Prop :=
  match chunks with
  | [] => end_ = true \/ v = []
  | c :: l => exists pre rest, v = pre ++ c ++ rest /\ globs end_ l rest
  end.

Definition glob (start end_ : bool) (chunks : list (list Z)) (v : list Z) : Prop :=
  if start then globs end_ chunks v
  else match chunks with
       | c :: l => exists rest, v = c ++ rest /\ globs end_ l rest
       | [] => False
       end.

(** No proper beginning of [c] is also its end. *)
Definition border_free (c : list Z) : Prop := forall y z r, c = y ++ z -> c = z ++ r -> y = [] \/ z = [].

Lemma advance_app a b : advance (length a) (a ++ b) = Some b.
Proof.
  unfold advance. rewrite length_app. replace (length a <=? length a + length b)%nat with true by (symmetry; apply Nat.leb_le; lia).
  by rewrite drop_app_length.
Qed.

Lemma no_nul_app a b : no_nul (a ++ b) <-> no_nul a /\ no_nul b.
Proof. apply Forall_app. Qed.

(** The greedy loop ends at an occurrence after which there is none. *)
Lemma greedy_loop_ok fuel p c : c <> [] -> no_nul p -> (length p < fuel)%nat -> (exists r, p = c ++ r) ->
  exists y r, p = y ++ c ++ r /\ greedy_loop fuel p c = Some (c ++ r) /\ strstr r c = None.
Proof.
  intros Hc. revert p. induction fuel as [|fuel IH]; intros p Hp Hf [r ->]; [lia|]. unfold greedy_loop; fold greedy_loop.
  rewrite advance_app. simpl. apply no_nul_app in Hp as [Hnc Hnr]. rewrite !cstr_no_nul by done.
  destruct (strstr r c) as [k|] eqn:E; [|by exists [], r].
  apply strstr_Some in E as (pre & r2 & -> & <-). rewrite drop_app_length.
  destruct (IH (c ++ r2)) as (y & r3 & E2 & Hg & Hs).
  - apply no_nul_app in Hnr. tauto.
  - rewrite !length_app in *. destruct c; [done|]. simpl in *. lia.
  - by exists r2.
  - exists (c ++ pre ++ y), r3. split; [|done]. rewrite E2. by rewrite <- !app_assoc.
Qed.

(** Of two splittings of a list, the one with the shorter front has more left. *)
Lemma split_later {A} (p1 r1 p2 r2 : list A) :
  p1 ++ r1 = p2 ++ r2 -> (length p1 <= length p2)%nat -> exists m, p2 = p1 ++ m /\ r1 = m ++ r2.
Proof.
  revert p2. induction p1 as [|x p1 IH]; intros p2 E Hl; simpl in *; [by exists p2|].
  destruct p2 as [|y p2]; simpl in *; [lia|]. injection E as -> E. destruct (IH p2 E ltac:(lia)) as (m & -> & ->).
  by exists m.
Qed.

Lemma globs_later end_ c l m v : globs end_ (c :: l) v -> globs end_ (c :: l) (m ++ v).
Proof. intros (pre & rest & -> & H). exists (m ++ pre), rest. split; [by rewrite app_assoc|done]. Qed.

Lemma globs_open_later l m v : globs true l v -> globs true l (m ++ v).
Proof. destruct l as [|c l]; [by left|apply globs_later]. Qed.

(** When the value ends in a chunk without borders, the last occurrence found is at the end. *)
Lemma border_free_end c y r pre : border_free c -> c <> [] ->
  y ++ c ++ r = pre ++ c -> strstr r c = None -> r = [].
Proof.
  intros Hb Hc E Hs. destruct (decide (r = [])) as [|Hr]; [done|]. exfalso.
  assert (length y + length r = length pre)%nat as Hl by (apply (f_equal length) in E; rewrite !length_app in E; lia).
  destruct (split_later y (c ++ r) pre c E ltac:(lia)) as (m & -> & E2).
  destruct (decide (length c <= length m)%nat) as [Hm|Hm].
  - destruct (split_later c r m c E2 Hm) as (m2 & -> & ->).
    destruct (strstr_occurs m2 c []) as (k & Hk & _). rewrite app_nil_r in Hk. by rewrite Hk in Hs.
  - destruct (split_later m c c r (eq_sym E2) ltac:(lia)) as (z & Ez & Ec). destruct (Hb m z r Ez Ec) as [->| ->].
    + apply Hr. apply (f_equal length) in E2. rewrite length_app in E2. simpl in E2. destruct r; [done|simpl in E2; lia].
    + rewrite app_nil_r in Ez. subst m. lia.
Qed.

Section wildcard.
Context (canonicalise : list Z -> option (option (list Z))).

Definition canonical (chunk c : list Z) : Prop :=
  canonicalise chunk = Some (Some c) /\ no_nul c /\ c <> [].

Lemma chunk_loop_ok end_ chunks cs v :
  Forall2 canonical chunks cs -> no_nul v ->
  exists r, chunk_loop canonicalise end_ chunks v = Some r
    /\ (forall v', r = Some v' -> no_nul v' /\ (end_ = true \/ v' = [] -> globs end_ cs v))
    /\ (globs end_ cs v -> end_ = true \/ border_free (List.last cs []) ->
        exists v', r = Some v' /\ (end_ = true \/ v' = [])).
Proof.
  intros Hcs. revert v. induction Hcs as [|chunk c chunks cs (Hcan & Hnc & Hc) Hcs IH]; intros v Hv; simpl.
  { exists (Some v). split; [done|]. split; [by intros v' [= <-]|]. intros Hg _. by exists v. }
  rewrite Hcan. simpl. rewrite !cstr_no_nul by done. destruct (strstr v c) as [k|] eqn:Ek.
  2: { exists None. split; [done|]. split; [done|]. intros (pre & rest & -> & _) _.
       destruct (strstr_occurs pre c rest) as (k & Hk & _). by rewrite Hk in Ek. }
  pose proof Ek as Efirst. apply strstr_Some in Ek as (pre & r & -> & <-). rewrite drop_app_length.
  assert (forall pre' r', pre' ++ c ++ r' = pre ++ c ++ r -> exists m, r = m ++ r') as Hleft.
  { intros pre' r' E. destruct (strstr_occurs pre' c r') as (k & Hk & Hle). rewrite E, Efirst in Hk. injection Hk as <-.
    rewrite !app_assoc in E. destruct (split_later (pre ++ c) r (pre' ++ c) r' (eq_sym E)) as (m & _ & ->);
      [rewrite !length_app; lia|by exists m]. }
  destruct (bool_decide (chunks = []) && negb end_) eqn:Elast.
  - apply andb_true_iff in Elast as [->%bool_decide_eq_true_1 ->%negb_true_iff].
    inversion Hcs; subst. apply no_nul_app in Hv as [_ Hv].
    destruct (greedy_loop_ok (S (length (pre ++ c ++ r))) (c ++ r) c Hc Hv) as (y & r2 & E & -> & Hno);
      [rewrite !length_app; lia|by exists r|]. simpl. rewrite advance_app. simpl.
    rewrite E in Hv. apply no_nul_app in Hv as [_ [_ Hv]%no_nul_app].
    exists (Some r2). split; [done|]. split.
    + intros v' [= <-]. split; [done|]. intros [|Hr2]; [done|]. exists (pre ++ y), r2. rewrite E, <- app_assoc. by split; [|right].
    + intros (pre' & rest & E' & [|Hrest]) [|Hb]; [done..|]. simpl in Hb. exists r2. split; [done|]. right. subst rest.
      rewrite app_nil_r in E'. apply (border_free_end c (pre ++ y) r2 pre'); [done|done| |done].
      by rewrite <- E', E, <- !app_assoc.
  - simpl. rewrite advance_app. simpl. apply no_nul_app in Hv as [_ [_ Hv]%no_nul_app].
    destruct (IH r Hv) as (res & -> & Hsound & Hcomp). exists res. split; [done|]. split.
    + intros v' E. destruct (Hsound v' E) as [Hn Hg]. split; [done|]. intros He. exists pre, r. split; [done|by apply Hg].
    + intros (pre' & rest & E & Hg) Hb. destruct (Hleft pre' rest (eq_sym E)) as [m ->]. apply Hcomp.
      * destruct cs as [|c2 cs]; [|by apply globs_later].
        inversion Hcs; subst. simpl in Elast. destruct end_; [by left|done].
      * destruct Hb as [|Hb]; [by left|]. destruct cs as [|c2 cs]; [|by right].
        inversion Hcs; subst. simpl in Elast. left. by destruct end_.
Qed.

End wildcard.

(** C27: Substring matches.  When the canonical forms of the value and of the
    chunks have no NUL and no chunk is empty, [ldb_wildcard_compare] ends inside
    its buffers with 1 or 0; 1 means that the value has the chunks in their order
    with the stars between them; and it finds every such value when the pattern
    ends with a star or the last chunk has no beginning that is also its end. *)
Theorem ldb_wildcard_compare_correct s start end_ chunks cs value v :
  canonicalise_fn s true value = Some (Some v) -> no_nul v ->
  Forall2 (canonical (canonicalise_fn s true)) chunks cs -> chunks <> [] ->
  exists r, ldb_wildcard_compare s start end_ chunks value = Some r /\ (r = 0 \/ r = 1)
    /\ (r = 1 -> glob start end_ cs v)
    /\ (glob start end_ cs v -> end_ = true \/ border_free (List.last cs []) -> r = 1).
Proof.
  intros Hv Hn Hcs Hne. unfold ldb_wildcard_compare. rewrite Hv. simpl.
  assert (forall chunks' cs' v', Forall2 (canonical (canonicalise_fn s true)) chunks' cs' -> no_nul v' ->
    exists r, (r0 ← chunk_loop (canonicalise_fn s true) end_ chunks' v';
      Some (match r0 with None => 0 | Some val => int_of (end_ || (default 0 (head val) =? 0)) end)) = Some r
    /\ (r = 0 \/ r = 1) /\ (r = 1 -> globs end_ cs' v')
    /\ (globs end_ cs' v' -> end_ = true \/ border_free (List.last cs' []) -> r = 1)) as Hrest.
  { intros chunks' cs' v' Hcs' Hn'. destruct (chunk_loop_ok _ end_ chunks' cs' v' Hcs' Hn') as (r & -> & Hs & Hc). simpl.
    eexists. split; [done|]. split; [destruct r; [|by left]; destruct (_ || _); [by right|by left]|].
    assert (forall x : list Z, no_nul x -> end_ || (default 0 (head x) =? 0) = true <-> end_ = true \/ x = []) as Hend.
    { intros x Hx. rewrite orb_true_iff, Z.eqb_eq. destruct x as [|y x]; [tauto|]. apply Forall_cons in Hx as [Hy _].
      simpl. intuition congruence. }
    split.
    - destruct r as [v2|]; [|done]. destruct (Hs v2 eq_refl) as [Hn2 Hg]. intros E. apply Hg, Hend; [done|].
      by destruct (_ || _).
    - intros Hg Hb. destruct (Hc Hg Hb) as (v2 & -> & He). destruct (Hs v2 eq_refl) as [Hn2 _].
      apply Hend in He; [|done]. by rewrite He. }
  destruct start; [by apply Hrest|]. destruct Hcs as [|chunk c chunks cs (Hcan & Hnc & Hc) Hcs]; [done|].
  rewrite Hcan. simpl. destruct (is_prefix c v) eqn:E.
  - apply is_prefix_spec in E as [r ->]. rewrite drop_app_length. apply no_nul_app in Hn as [_ Hn].
    destruct (Hrest chunks cs r Hcs Hn) as (res & -> & H01 & Hs & Hcomp). exists res. split; [done|]. split; [done|]. split.
    + intros E. exists r. split; [done|by apply Hs].
    + intros (r' & Er & Hg) Hb. apply app_inv_head in Er as <-. apply Hcomp; [done|].
      destruct Hb as [|Hb]; [by left|]. destruct cs; [|by right]. right. intros y z q Ey Ez.
      symmetry in Ey. apply app_eq_nil in Ey as [-> _]. by left.
  - exists 0. split; [done|]. split; [by left|]. split; [done|]. intros (r & -> & _) _.
    rewrite (proj2 (is_prefix_spec c (c ++ r))) in E; [done|by exists r].
Qed.

(** A chunk whose canonical form is empty makes the greedy loop run for ever. *)
Lemma greedy_loop_empty fuel p : greedy_loop fuel p [] = None.
Proof.
  revert p. induction fuel as [|fuel IH]; intros p; [done|]. unfold greedy_loop; fold greedy_loop.
  unfold advance. simpl. rewrite drop_0. destruct (cstr p); simpl; rewrite drop_0; apply IH.
Qed.

(** ** Strings up to case and blanks *)

(** Capitals, one blank for several, none at the end. *)
Fixpoint squeezed (s : list Z) : list Z :=
  match s with
  | [] => []
  | c :: r =>
    if is_blank c then
      match squeezed r with
      | [] => []
      | d :: k => if is_blank d then d :: k else 32 :: d :: k
      end
    else toupper c :: squeezed r
  end.

(** None at the beginning either. *)
Definition folded (v : list Z) : list Z := squeezed (drop_while is_blank v).

Definition ascii (v : list Z) : Prop := Forall (fun c => 0 < c < 128) v.

Lemma toupper_blank c : is_blank (toupper c) = is_blank c.
Proof. unfold is_blank, toupper. destruct ((97 <=? c) && (c <=? 122)) eqn:E; [|done]. bool_hyps. lia. Qed.

Lemma toupper_ascii c : 0 < c < 128 -> 0 < toupper c < 128.
Proof. unfold toupper. destruct ((97 <=? c) && (c <=? 122)) eqn:E; bool_hyps; lia. Qed.

Lemma squeezed_blank c r : is_blank c = true ->
  squeezed (c :: r) = match squeezed (drop_while is_blank r) with [] => [] | k => 32 :: k end.
Proof.
  intros Hc. cbn [squeezed]. rewrite Hc. induction r as [|d r IH]; [done|]. simpl.
  destruct (is_blank d) eqn:Ed.
  - rewrite <- IH. destruct (squeezed r) as [|x k]; [done|]. destruct (is_blank x) eqn:Ex; [by rewrite Ex|done].
  - simpl. rewrite Ed. rewrite toupper_blank, Ed. done.
Qed.

Lemma squeezed_nil s : squeezed s = [] <-> drop_while is_blank s = [].
Proof.
  induction s as [|c s IH]; [done|]. simpl. destruct (is_blank c) eqn:Ec; [|done].
  rewrite <- IH. destruct (squeezed s) as [|x k]; [done|]. by destruct (is_blank x).
Qed.

Lemma drop_while_head s c r : drop_while is_blank s = c :: r -> is_blank c = false.
Proof. induction s as [|x s IH]; simpl; [done|]. destruct (is_blank x) eqn:E; [done|]. by intros [= <- _]. Qed.

Lemma drop_while_length f s : (length (drop_while f s) <= length s)%nat.
Proof. induction s as [|x s IH]; simpl; [done|]. destruct (f x); simpl; lia. Qed.

Lemma ascii_drop s : ascii s -> ascii (drop_while is_blank s).
Proof. induction 1 as [|c s Hc Hs IH]; simpl; [constructor|]. destruct (is_blank c); [done|by constructor]. Qed.

Lemma ascii_no_high c : 0 < c < 128 -> has_bits c 0x80 = false.
Proof.
  intros Hc. apply negb_false_iff, Z.eqb_eq. apply Z.bits_inj'. intros n Hn.
  rewrite Z.land_spec, Z.bits_0. change 128 with (2 ^ 7). rewrite Z.pow2_bits_eqb by lia.
  destruct (Z.eqb_spec 7 n) as [<-|]; [|apply andb_false_r]. rewrite andb_true_r.
  apply Z.bits_above_log2; [lia|]. apply Z.log2_lt_pow2; lia.
Qed.

Lemma char_at_ascii s : ascii s -> char_at s = default 0 (head s).
Proof.
  intros Hs. unfold char_at, s8. destruct Hs as [|c s Hc _]; [done|]. simpl. rewrite Z.mod_small; lia.
Qed.

(** Where the loop ends, the strings are equal from there on if they were. *)
Lemma fold_loop_ok fuel s1 s2 : ascii s1 -> ascii s2 -> (length s1 < fuel)%nat ->
  exists t1 t2, fold_loop fuel s1 s2 = Some (At_end t1 t2) /\ ascii t1 /\ ascii t2
    /\ (squeezed s1 = squeezed s2 <-> squeezed t1 = squeezed t2)
    /\ (forall c1 r1 c2 r2, t1 = c1 :: r1 -> t2 = c2 :: r2 -> toupper c1 <> toupper c2).
Proof.
  revert s1 s2. induction fuel as [|fuel IH]; intros s1 s2 H1 H2 Hf; [lia|]. cbn [fold_loop].
  destruct s1 as [|c1 r1]; [by exists [], s2|]. destruct s2 as [|c2 r2]; [by exists (c1 :: r1), []|].
  pose proof H1 as [Hc1 Hr1]%Forall_cons. pose proof H2 as [Hc2 Hr2]%Forall_cons.
  rewrite !ascii_no_high by done. cbn [orb].
  destruct (Z.eqb_spec (toupper c1) (toupper c2)) as [E|E]; cbn [negb].
  2: { exists (c1 :: r1), (c2 :: r2). split; [done|]. split; [done|]. split; [done|]. split; [done|].
       by intros ? ? ? ? [= <- _] [= <- _]. }
  pose proof (f_equal is_blank E) as Eb. rewrite !toupper_blank in Eb.
  destruct (is_blank c1) eqn:Ec1.
  - pose proof (drop_while_length is_blank r1) as Hl. simpl in Hf.
    destruct (IH (drop_while is_blank r1) (drop_while is_blank r2)) as (t1 & t2 & Ht & Ha1 & Ha2 & Hiff & Hne);
      [by apply ascii_drop..|lia|]. exists t1, t2. cbn [drop_while]. rewrite Ec1, <- Eb. split; [done|].
    split; [done|]. split; [done|]. split; [|done]. rewrite <- Hiff, !squeezed_blank by done.
    split; [|intros ->; done]. destruct (squeezed (drop_while is_blank r1)), (squeezed (drop_while is_blank r2));
      congruence.
  - simpl in Hf. destruct (IH r1 r2) as (t1 & t2 & Ht & Ha1 & Ha2 & Hiff & Hne); [done..|lia|]. exists t1, t2.
    split; [done|]. split; [done|]. split; [done|]. split; [|done]. rewrite <- Hiff. cbn [squeezed].
    rewrite Ec1, <- Eb, E. split; [by intros [=]|by intros ->].
Qed.

Lemma comparison_fold_ok casefold v1 v2 : ascii v1 -> ascii v2 ->
  exists z, ldb_comparison_fold casefold v1 v2 = Some z /\ (z = 0 <-> folded v1 = folded v2).
Proof.
  intros H1 H2. unfold ldb_comparison_fold, folded.
  assert (forall v, ascii v -> cstr v = v) as Hcstr.
  { intros v Hv. apply cstr_no_nul. eapply Forall_impl; [exact Hv|]. simpl. lia. }
  rewrite !Hcstr by done. set (s1 := drop_while is_blank v1). set (s2 := drop_while is_blank v2).
  destruct (fold_loop_ok (S (length s1)) s1 s2) as (t1 & t2 & -> & Ha1 & Ha2 & Hiff & Hne);
    [by apply ascii_drop..|lia|]. setoid_rewrite Hiff. clear Hiff.
  assert (forall t, ascii t -> toupper (char_at (drop_while is_blank t)) = 0 <-> squeezed t = []) as Hend.
  { intros t Ht. pose proof (ascii_drop _ Ht) as Had. rewrite char_at_ascii, squeezed_nil by done.
    destruct (drop_while is_blank t) as [|c r]; [done|]. apply Forall_cons in Had as [Hc _].
    pose proof (toupper_ascii c Hc). simpl. split; [lia|done]. }
  destruct t1 as [|c1 r1], t2 as [|c2 r2]; cbn -[squeezed drop_while char_at toupper]; eexists; (split; [done|]).
  - by vm_compute.
  - pose proof (Hend (c2 :: r2) Ha2) as He. replace (toupper (char_at (drop_while is_blank []))) with 0 by done.
    split; [intros E; symmetry; apply He; lia|intros E; apply eq_sym, He in E; lia].
  - pose proof (Hend (c1 :: r1) Ha1) as He. replace (toupper (char_at (drop_while is_blank []))) with 0 by done.
    split; [intros E; apply He; lia|intros E; apply He in E; lia].
  - specialize (Hne _ _ _ _ eq_refl eq_refl). rewrite !char_at_ascii by done. simpl head. cbn [default].
    split; [simpl; lia|]. destruct (is_blank c1) eqn:E1, (is_blank c2) eqn:E2.
    + unfold is_blank in *. apply Z.eqb_eq in E1 as ->. by apply Z.eqb_eq in E2 as ->.
    + intros E. exfalso. rewrite (squeezed_blank c1 r1 E1) in E. cbn [squeezed] in E. rewrite E2 in E.
      destruct (squeezed (drop_while is_blank r1)); [done|]. injection E as Et _.
      pose proof (toupper_blank c2) as Hb. by rewrite <- Et, E2 in Hb.
    + intros E. exfalso. rewrite (squeezed_blank c2 r2 E2) in E. cbn [squeezed] in E. rewrite E1 in E.
      destruct (squeezed (drop_while is_blank r2)); [done|]. injection E as Et _.
      pose proof (toupper_blank c1) as Hb. by rewrite Et, E1 in Hb.
    + cbn [squeezed]. rewrite E1, E2. intros [= E _]. done.
Qed.

(** *** The canonical form *)

(** No two blanks side by side. *)
Fixpoint single_blanks (s : list Z) : bool :=
  match s with
  | c :: ((d :: _) as r) => negb (is_blank c && is_blank d) && single_blanks r
  | _ => true
  end.

Lemma find_blank_run s t : single_blanks s = true -> find_idx is_blank s = Some t ->
  run_length (drop t s) = 1%nat.
Proof.
  revert t. induction s as [|c s IH]; intros t Hs; [done|]. simpl. destruct (is_blank c) eqn:Ec.
  - intros [= <-]. rewrite drop_0. simpl. rewrite Ec. destruct s as [|d s]; [done|]. simpl in Hs.
    rewrite Ec in Hs. simpl in Hs. apply andb_true_iff in Hs as [Hd _]. simpl.
    by apply negb_true_iff in Hd as ->.
  - destruct (find_idx is_blank s) as [k|] eqn:Ek; [|done]. intros [= <-]. simpl. apply IH; [|done].
    destruct s; [done|]. simpl in Hs. by apply andb_true_iff in Hs as [_ Hs].
Qed.

Lemma single_blanks_app a b : single_blanks (a ++ b) = true -> single_blanks a = true /\ single_blanks b = true.
Proof.
  induction a as [|c a IH]; intros H; [done|]. destruct a as [|d a].
  - split; [done|]. simpl in H. destruct b; [done|]. by apply andb_true_iff in H as [_ H].
  - simpl in H. apply andb_true_iff in H as [H1 H2]. destruct (IH H2) as [Ha Hb]. split; [|done].
    simpl. simpl in Ha. by rewrite H1, Ha.
Qed.

Definition trim_end (s : list Z) : list Z := reverse (drop_while is_blank (reverse s)).

Lemma drop_while_app f a b :
  drop_while f (a ++ b) = match drop_while f a with [] => drop_while f b | c :: r => c :: r ++ b end.
Proof. induction a as [|x a IH]; simpl; [done|]. by destruct (f x). Qed.

Lemma trim_end_cons c r :
  trim_end (c :: r) = match trim_end r with [] => if is_blank c then [] else [c] | t => c :: t end.
Proof.
  unfold trim_end. rewrite reverse_cons, drop_while_app.
  destruct (drop_while is_blank (reverse r)) as [|x l] eqn:E.
  - simpl. by destruct (is_blank c).
  - rewrite (app_comm_cons l [c] x), reverse_app. simpl. destruct (reverse (x :: l)) as [|y m] eqn:Er; [|done].
    apply (f_equal length) in Er. by rewrite length_reverse in Er.
Qed.

Lemma trim_end_prefix s : exists b, s = trim_end s ++ b.
Proof.
  induction s as [|c s [b IH]]; [by exists []|]. rewrite trim_end_cons. destruct (trim_end s) as [|x t].
  - destruct (is_blank c); [by exists (c :: s)|by exists s].
  - exists b. simpl in *. by rewrite <- IH.
Qed.

Lemma trim_end_map s : trim_end (map toupper s) = map toupper (trim_end s).
Proof.
  induction s as [|c s IH]; [done|]. simpl. rewrite !trim_end_cons, IH, toupper_blank.
  destruct (trim_end s); simpl; [by destruct (is_blank c)|done].
Qed.

Lemma single_blanks_map s : single_blanks (map toupper s) = single_blanks s.
Proof.
  induction s as [|c s IH]; [done|]. destruct s as [|d s]; [done|].
  change (negb (is_blank (toupper c) && is_blank (toupper d)) && single_blanks (map toupper (d :: s))
    = negb (is_blank c && is_blank d) && single_blanks (d :: s)). by rewrite IH, !toupper_blank.
Qed.

Lemma squeezed_single s : single_blanks s = true -> squeezed s = map toupper (trim_end s).
Proof.
  induction s as [|c s IH]; intros Hs; [done|].
  assert (single_blanks s = true) as Hs' by (by apply (single_blanks_app [c] s) in Hs as [_ Hs]).
  rewrite trim_end_cons. cbn [squeezed]. rewrite (IH Hs'). destruct (trim_end s) as [|d t] eqn:Et; simpl.
  - by destruct (is_blank c).
  - destruct (is_blank c) eqn:Ec; [|done]. rewrite toupper_blank. destruct (trim_end_prefix s) as [b Eb].
    rewrite Et in Eb. subst s. simpl in Hs. apply andb_true_iff in Hs as [Hd _]. rewrite Ec in Hd. simpl in Hd.
    apply negb_true_iff in Hd as ->. unfold is_blank in Ec. by apply Z.eqb_eq in Ec as ->.
Qed.

Lemma squeeze_loop_single fuel w junk pos :
  no_nul w -> single_blanks w = true -> (pos <= length w)%nat -> (length w < fuel + pos)%nat ->
  squeeze_loop fuel (w ++ 0 :: junk) pos = Some (w ++ 0 :: junk).
Proof.
  intros Hw Hs. revert pos. induction fuel as [|fuel IH]; intros pos Hp Hf; [lia|]. cbn [squeeze_loop].
  unfold next_space.
  assert (cstr (drop pos (w ++ 0 :: junk)) = drop pos w) as ->.
  { rewrite drop_app_le by done. assert (no_nul (drop pos w)) as Hn by (by apply Forall_drop).
    induction Hn as [|c r Hc _ IHr]; [done|]. simpl. by rewrite (proj2 (Z.eqb_neq _ _) Hc), IHr. }
  destruct (find_idx is_blank (drop pos w)) as [k|] eqn:Ek; [|done]. simpl.
  pose proof (find_idx_lt _ _ _ Ek) as Hk. rewrite length_drop in Hk.
  assert (single_blanks (drop pos w) = true) as Hsd.
  { rewrite <- (take_drop pos w) in Hs. by apply single_blanks_app in Hs as [_ Hs]. }
  assert (run_length (drop (pos + k) (w ++ 0 :: junk)) = 1%nat) as ->.
  { rewrite drop_app_le by lia. pose proof (find_blank_run _ _ Hsd Ek) as Hr. rewrite drop_drop in Hr.
    destruct (drop (pos + k) w) as [|c [|d r]]; [done| |].
    - simpl in *. by destruct (is_blank c).
    - simpl in *. destruct (is_blank c); [|done]. by destruct (is_blank d). }
  replace (1 <? pos + k + 1 - (pos + k))%nat with false by (symmetry; apply Nat.ltb_ge; lia). simpl.
  apply IH; lia.
Qed.

Lemma cstr_app w junk : no_nul w -> cstr (w ++ 0 :: junk) = w.
Proof. induction 1 as [|c w Hc _ IH]; [done|]. simpl. by rewrite (proj2 (Z.eqb_neq _ _) Hc), IH. Qed.

Lemma squeeze_end w junk : no_nul w -> single_blanks w = true ->
  (b ← squeeze_loop (length (w ++ 0 :: junk)) (w ++ 0 :: junk) 0; Some (Some (cstr b))) = Some (Some w).
Proof.
  intros Hn Hs. rewrite squeeze_loop_single; [|done|done|lia|rewrite length_app; simpl; lia].
  simpl. by rewrite cstr_app.
Qed.

(** A leading blank is moved away; the terminator is moved with the rest. *)
Lemma memmove_leading x w junk : exists junk', memmove (x :: w ++ 0 :: junk) 0 1 (S (length w)) = Some (w ++ 0 :: junk').
Proof.
  unfold memmove.
  assert (S (S (length w)) <= length (x :: w ++ 0%Z :: junk))%nat as Hl by (simpl; rewrite length_app; simpl; lia).
  rewrite (proj2 (Nat.leb_le _ _)) by lia. rewrite (proj2 (Nat.leb_le _ _)) by lia. cbn [andb].
  change (take 0 (x :: w ++ 0 :: junk)) with (@nil Z). change (drop 1 (x :: w ++ 0 :: junk)) with (w ++ 0 :: junk).
  assert (take (S (length w)) (w ++ 0 :: junk) = w ++ [0]) as ->.
  { replace (S (length w)) with (length (w ++ [0])) by (rewrite length_app; simpl; lia).
    change (0 :: junk) with ([0] ++ junk). by rewrite app_assoc, take_app_length. }
  eexists. by rewrite <- app_assoc.
Qed.

Lemma trim_end_head d r t : trim_end r = d :: t -> exists r', r = d :: r'.
Proof. destruct (trim_end_prefix r) as [b E]. intros Et. rewrite Et in E. by eexists. Qed.

Lemma folded_single v : single_blanks v = true ->
  folded v = match trim_end (map toupper v) with
             | c :: t => if is_blank c then t else c :: t
             | [] => []
             end.
Proof.
  intros Hs. rewrite trim_end_map. unfold folded. destruct v as [|c r]; [done|]. cbn [drop_while].
  destruct (is_blank c) eqn:Ec.
  - assert (drop_while is_blank r = r) as ->.
    { destruct r as [|d r]; [done|]. simpl in Hs |- *. apply andb_true_iff in Hs as [Hs _]. rewrite Ec in Hs.
      simpl in Hs. by apply negb_true_iff in Hs as ->. }
    apply (single_blanks_app [c] r) in Hs as [_ Hs]. rewrite (squeezed_single r Hs), trim_end_cons, Ec.
    destruct (trim_end r) as [|d t]; simpl; [done|]. by rewrite toupper_blank, Ec.
  - rewrite (squeezed_single (c :: r) Hs), trim_end_cons, Ec.
    destruct (trim_end r); simpl; by rewrite toupper_blank, Ec.
Qed.

Lemma handler_fold_ok v : ascii v -> single_blanks v = true ->
  ldb_handler_fold ldb_casefold_default true v = Some (Some (folded v)).
Proof.
  intros Hv Hs. assert (no_nul v) as Hn by (eapply Forall_impl; [exact Hv|]; simpl; lia).
  unfold ldb_handler_fold, ldb_casefold_default. rewrite cstr_no_nul by done. fold (trim_end (map toupper v)).
  rewrite (folded_single v Hs). destruct (trim_end_prefix (map toupper v)) as [tl Etl].
  assert (no_nul (map toupper v)) as Hnu.
  { apply Forall_fmap. eapply Forall_impl; [exact Hv|]. intros c Hc. pose proof (toupper_ascii c Hc). simpl. lia. }
  rewrite <- single_blanks_map in Hs. set (w := trim_end (map toupper v)) in *.
  assert (take (length w) (map toupper v) = w) as -> by (by rewrite Etl, take_app_length).
  rewrite Etl in Hnu, Hs. apply no_nul_app in Hnu as [Hnw _]. apply single_blanks_app in Hs as [Hsw _].
  set (junk := drop (S (length w)) (map toupper v ++ [0])). clearbody junk w. clear Etl Hv Hn v tl.
  destruct w as [|c w]; [by apply (squeeze_end [] junk)|].
  destruct (is_blank c) eqn:Ec.
  - assert (run_length ((c :: w) ++ 0 :: junk) = 1%nat) as ->.
    { simpl. rewrite Ec. destruct w as [|d w]; [done|]. simpl in Hsw. rewrite Ec in Hsw. simpl in Hsw |- *.
      apply andb_true_iff in Hsw as [Hd _]. by apply negb_true_iff in Hd as ->. }
    cbn [app length Nat.ltb Nat.leb]. destruct (memmove_leading c w junk) as [junk' ->]. simpl mbind at 1.
    apply Forall_cons in Hnw as [_ Hnw]. apply (single_blanks_app [c] w) in Hsw as [_ Hsw]. by apply squeeze_end.
  - assert (run_length ((c :: w) ++ 0 :: junk) = 0%nat) as -> by (simpl; by rewrite Ec).
    by apply squeeze_end.
Qed.

(** C28: Comparison and canonical form of strings.  For ASCII strings
    [ldb_comparison_fold] is 0 exactly when the strings are the same up to case,
    blanks at the ends and repeated blanks; the canonical form that
    [ldb_handler_fold] stores in the index agrees with it for strings without
    repeated blanks. *)
Theorem ldb_fold_consistent casefold v1 v2 : ascii v1 -> ascii v2 ->
  exists z, ldb_comparison_fold casefold v1 v2 = Some z /\ (z = 0 <-> folded v1 = folded v2)
    /\ (single_blanks v1 = true -> single_blanks v2 = true ->
        (z = 0 <-> ldb_handler_fold ldb_casefold_default true v1 = ldb_handler_fold ldb_casefold_default true v2)).
Proof.
  intros H1 H2. destruct (comparison_fold_ok casefold v1 v2 H1 H2) as (z & Hz & Hiff). exists z.
  split; [done|]. split; [done|]. intros S1 S2. rewrite !handler_fold_ok by done. rewrite Hiff.
  split; [by intros ->|by intros [=]].
Qed.

(** "a  B " and " A b" *)
Lemma ldb_fold_consistent_witness :
  exists z, ldb_comparison_fold ldb_casefold_default [97; 32; 32; 66; 32] [32; 65; 32; 98] = Some z
    /\ (z = 0 <-> folded [97; 32; 32; 66; 32] = folded [32; 65; 32; 98])
    /\ (single_blanks [97; 32; 32; 66; 32] = true -> single_blanks [32; 65; 32; 98] = true ->
        (z = 0 <-> ldb_handler_fold ldb_casefold_default true [97; 32; 32; 66; 32]
                 = ldb_handler_fold ldb_casefold_default true [32; 65; 32; 98])).
Proof. apply (ldb_fold_consistent ldb_casefold_default); repeat constructor; lia. Defined.

(** Repeated blanks: "a  b" compares equal to "a b", and its canonical form is "A BB". *)
Example fold_repeated_blanks :
  ldb_comparison_fold ldb_casefold_default [97; 32; 32; 98] [97; 32; 98] = Some 0
  /\ ldb_handler_fold ldb_casefold_default true [97; 32; 32; 98] = Some (Some [65; 32; 66; 66])
  /\ ldb_handler_fold ldb_casefold_default true [97; 32; 98] = Some (Some [65; 32; 66]).
Proof. vm_compute. done. Qed.

(** Two leading blanks: [memmove] reads one byte beyond the buffer. *)
Example fold_overread : ldb_handler_fold ldb_casefold_default true [32; 32; 97] = None.
Proof. reflexivity. Qed.

(** The last chunk overlaps itself: "aaa" does not match "*aa". *)
Example wildcard_overlap :
  ldb_wildcard_compare (mk_syntax "" ldb_handler_copy ldb_comparison_binary) true false [[97; 97]] [97; 97; 97] = Some 0
  /\ glob true false [[97; 97]] [97; 97; 97].
Proof. split; [done|]. exists [97], []. split; [done|by right]. Qed.

Lemma ldb_wildcard_compare_correct_witness :
  exists r, ldb_wildcard_compare (mk_syntax "" ldb_handler_copy ldb_comparison_binary) false false [[97]; [98; 99]]
      [97; 98; 99; 98; 99] = Some r /\ (r = 0 \/ r = 1)
    /\ (r = 1 -> glob false false [[97]; [98; 99]] [97; 98; 99; 98; 99])
    /\ (glob false false [[97]; [98; 99]] [97; 98; 99; 98; 99] -> false = true \/ border_free (List.last [[97]; [98; 99]] []) -> r = 1).
Proof.
  apply (ldb_wildcard_compare_correct (mk_syntax "" ldb_handler_copy ldb_comparison_binary) false false
    [[97]; [98; 99]] [[97]; [98; 99]]); [done|by repeat constructor| |done].
  repeat constructor; done.
Defined.

(** (cn=*\20) never ends: the canonical form of a blank is empty. *)
Example wildcard_empty_chunk :
  ldb_wildcard_compare (mk_syntax "" (ldb_handler_fold ldb_casefold_default) (ldb_comparison_fold ldb_casefold_default))
    true false [[32]] [97] = None.
Proof. reflexivity. Qed.

(** ** The table of attributes *)

Lemma strcasecmp_zero a b : Forall (fun c => 0 < c) a -> Forall (fun c => 0 < c) b ->
  strcasecmp a b = 0 <-> map tolower a = map tolower b.
Proof.
  assert (forall c, 0 < c -> 0 < tolower c) as Hlow by (intros c Hc; unfold tolower; case_match; lia).
  intros Ha. revert b. induction Ha as [|x a Hx _ IH]; intros [|y b] Hb; simpl; try done.
  - apply Forall_cons in Hb as [Hy _]. pose proof (Hlow y Hy). split; [lia|done].
  - pose proof (Hlow x Hx). split; [lia|done].
  - apply Forall_cons in Hb as [_ Hb]. destruct (Z.eqb_spec (tolower x - tolower y) 0) as [E|E].
    + rewrite (IH b Hb). replace (tolower y) with (tolower x) by lia. split; [by intros ->|by intros [=]].
    + split; [done|]. intros [= Et _]. lia.
Qed.

Lemma strcasecmp_opp a b : strcasecmp b a = - strcasecmp a b.
Proof.
  revert b. induction a as [|x a IH]; intros [|y b]; simpl; try lia.
  destruct (Z.eqb_spec (tolower x - tolower y) 0), (Z.eqb_spec (tolower y - tolower x) 0); lia || apply IH.
Qed.

Lemma strcasecmp_trans a b c : Forall (fun c => 0 < c) a -> Forall (fun c => 0 < c) b ->
  strcasecmp a b <= 0 -> strcasecmp b c <= 0 -> strcasecmp a c <= 0.
Proof.
  assert (forall c, 0 < c -> 0 < tolower c) as Hlow by (intros c0 Hc; unfold tolower; case_match; lia).
  intros Ha Hb. revert a c Ha. induction Hb as [|y b Hy _ IH]; intros a c Ha.
  - destruct Ha as [|x a Hx _]; simpl; [by destruct c|]. specialize (Hlow x Hx). lia.
  - specialize (Hlow y Hy). destruct Ha as [|x a _ Ha], c as [|z c]; simpl; try lia.
    + destruct (Z.eqb_spec (tolower y - tolower z) 0); lia.
    + destruct (Z.eqb_spec (tolower x - tolower y) 0), (Z.eqb_spec (tolower y - tolower z) 0),
        (Z.eqb_spec (tolower x - tolower z) 0); try lia. by apply IH.
Qed.

Definition before (a b : ldb_schema_attribute) : Prop := ldb_attr_cmp (attr_name a) (attr_name b) <= 0.

(** Names as the code has them: the star, or a name that comes after it. *)
Definition name_ok (n : list Z) : Prop :=
  Forall (fun c => 0 < c) n /\ (n = [STAR] \/ exists c r, n = c :: r /\ 42 < c).

Definition table_ok (l : list ldb_schema_attribute) : Prop :=
  StronglySorted before l /\ Forall (fun a => name_ok (attr_name a)) l.

Lemma before_trans a b c : name_ok (attr_name a) -> name_ok (attr_name b) -> before a b -> before b c -> before a c.
Proof. intros [Ha _] [Hb _]. by apply strcasecmp_trans. Qed.

Lemma table_sorted l i j a b : table_ok l -> (i <= j)%nat -> l !! i = Some a -> l !! j = Some b -> before a b.
Proof.
  intros [Hs _]. revert i j. induction Hs as [|x l Hs IH Hall]; intros [|i] [|j] Hij Ha Hb; simpl in *; try done; try lia.
  - simplify_eq. unfold before, ldb_attr_cmp.
    match goal with |- strcasecmp ?n _ <= _ => pose proof (strcasecmp_opp n n) end. lia.
  - injection Ha as ->. by eapply (Forall_lookup_1 _ _ _ _ Hall Hb).
  - eapply IH; [|done..]. lia.
Qed.

(** The bisection, between [b] and [e]. *)
Lemma attribute_search_ok l name fuel b e : table_ok l -> name_ok name ->
  0 <= b <= e + 1 -> e < Z.of_nat (length l) -> e - b + 1 < Z.of_nat fuel ->
  exists r, attribute_search fuel l name b e = Some r /\
    match r with
    | Some i => exists a, l !! i = Some a /\ ldb_attr_cmp name (attr_name a) = 0
    | None => forall i a, b <= Z.of_nat i <= e -> l !! i = Some a -> ldb_attr_cmp name (attr_name a) <> 0
    end.
Proof.
  intros Hl Hname. revert b e. induction fuel as [|fuel IH]; intros b e Hb He Hf; [lia|].
  cbn [attribute_search]. destruct (Z.leb_spec b e) as [Hle|Hgt]; [|exists None; split; [done|]; intros; lia].
  assert (b <= (b + e) / 2 <= e) as Hm by (split; [apply Z.div_le_lower_bound|apply Z.div_le_upper_bound]; lia).
  set (m := (b + e) / 2) in *. destruct (lookup_lt_is_Some_2 l (Z.to_nat m)) as [a Ha]; [lia|]. rewrite Ha. simpl.
  assert (name_ok (attr_name a)) as Hna by (destruct Hl as [_ Hl]; by eapply (Forall_lookup_1 _ _ _ _ Hl Ha)).
  destruct (Z.eqb_spec (ldb_attr_cmp name (attr_name a)) 0) as [E|E]; [exists (Some (Z.to_nat m)); split; [done|by exists a]|].
  destruct (Z.ltb_spec (ldb_attr_cmp name (attr_name a)) 0) as [Hlt|Hge].
  - destruct (IH b (m - 1)) as (r & -> & Hr); [lia..|]. exists r. split; [done|]. destruct r as [i|]; [done|].
    intros i x Hi Hx. destruct (decide (Z.of_nat i <= m - 1)) as [|Hgt]; [by apply (Hr i); [lia|]|].
    assert (before a x) as Hax by (eapply (table_sorted l (Z.to_nat m) i); [done|lia|done|done]).
    unfold before, ldb_attr_cmp in *. intros E0. pose proof (strcasecmp_opp name (attr_name x)) as Ho.
    pose proof (strcasecmp_opp name (attr_name a)). assert (name_ok (attr_name x)) as [Hx0 _] by
      (destruct Hl as [_ Hl]; by eapply (Forall_lookup_1 _ _ _ _ Hl Hx)).
    destruct Hna as [Hna _]. pose proof (strcasecmp_trans (attr_name a) (attr_name x) name Hna Hx0 Hax). lia.
  - destruct (IH (m + 1) e) as (r & -> & Hr); [lia..|]. exists r. split; [done|]. destruct r as [i|]; [done|].
    intros i x Hi Hx. destruct (decide (m + 1 <= Z.of_nat i)) as [|Hgt]; [by apply (Hr i); [lia|]|].
    assert (before x a) as Hax by (eapply (table_sorted l i (Z.to_nat m)); [done|lia|done|done]).
    unfold before, ldb_attr_cmp in *. intros E0.
    assert (name_ok (attr_name x)) as [Hx0 _] by (destruct Hl as [_ Hl]; by eapply (Forall_lookup_1 _ _ _ _ Hl Hx)).
    destruct Hname as [Hn0 _]. pose proof (strcasecmp_trans name (attr_name x) (attr_name a) Hn0 Hx0). lia.
Qed.

Lemma table_ok_add l name flags s : table_ok l -> name_ok name ->
  table_ok (ldb_schema_attribute_add_with_syntax l name flags s)
  /\ ldb_schema_attribute_add_with_syntax l name flags s ≡ₚ mk_attribute name flags s :: l.
Proof.
  intros [Hs Hn] Hname. unfold ldb_schema_attribute_add_with_syntax. set (k := insert_at l name).
  assert (take k l ++ mk_attribute name flags s :: drop k l ≡ₚ mk_attribute name flags s :: l) as Hp
    by (by rewrite <- Permutation_middle, take_drop).
  split; [|done]. split; [|rewrite Hp; by constructor].
  assert (forall a, a ∈ take k l -> before a (mk_attribute name flags s)) as Hbefore.
  { intros a [i Hi]%list_elem_of_lookup. apply lookup_take_Some in Hi as [Hi Hk]. unfold before, ldb_attr_cmp. simpl.
    rewrite strcasecmp_opp. unfold k, insert_at in Hk.
    destruct (find_idx (fun a => ldb_attr_cmp name (attr_name a) <? 0) l) as [j|] eqn:E.
    - apply find_idx_Some in E as (x & _ & _ & Hmin). specialize (Hmin i a Hk Hi). apply Z.ltb_ge in Hmin.
      unfold ldb_attr_cmp in Hmin. lia.
    - pose proof (proj1 (find_idx_None _ _) E a) as Hx. specialize (Hx ltac:(by eapply list_elem_of_lookup_2)).
      apply Z.ltb_ge in Hx. unfold ldb_attr_cmp in Hx. lia. }
  assert (StronglySorted before (take k l) /\ StronglySorted before (drop k l)) as [Hs1 Hs2].
  { rewrite <- (take_drop k l) in Hs. split; [by eapply StronglySorted_app_1_l|by eapply StronglySorted_app_1_r]. }
  assert (forall b, b ∈ drop k l -> before (mk_attribute name flags s) b) as Hafter.
  { intros b Hb. unfold k, insert_at in Hb, Hs2.
    destruct (find_idx (fun a => ldb_attr_cmp name (attr_name a) <? 0) l) as [j|] eqn:E; simpl in Hb, Hs2.
    2: { rewrite drop_ge in Hb by done. by apply not_elem_of_nil in Hb. }
    apply find_idx_Some in E as (x & Hx & Hlt & _). apply Z.ltb_lt in Hlt. rewrite (drop_S l x j Hx) in Hb, Hs2.
    assert (before (mk_attribute name flags s) x) as H1 by (unfold before; simpl; lia).
    apply elem_of_cons in Hb as [->|Hb]; [done|]. eapply before_trans; [done| |exact H1|].
    - by eapply (Forall_lookup_1 _ _ _ _ Hn Hx).
    - apply StronglySorted_inv in Hs2 as [_ Hall]. rewrite Forall_forall in Hall. by apply Hall. }
  apply StronglySorted_app_2; [|done|].
  - intros a b Ha [->|Hb]%elem_of_cons; [by apply Hbefore|]. apply (before_trans a (mk_attribute name flags s)); [|done|by apply Hbefore|by apply Hafter].
    rewrite Forall_forall in Hn. apply Hn. rewrite <- (take_drop k l). apply elem_of_app. by left.
  - constructor; [done|]. by apply Forall_forall.
Qed.

(** The table after additions. *)
Definition attribute_table (adds : list (list Z * Z * ldb_schema_syntax)) : list ldb_schema_attribute :=
  fold_left (fun l x => ldb_schema_attribute_add_with_syntax l x.1.1 x.1.2 x.2) adds [].

Definition attribute_of (x : list Z * Z * ldb_schema_syntax) : ldb_schema_attribute := mk_attribute x.1.1 x.1.2 x.2.

Lemma attribute_table_ok adds : Forall (fun x => name_ok x.1.1) adds ->
  table_ok (attribute_table adds) /\ attribute_table adds ≡ₚ map attribute_of adds.
Proof.
  unfold attribute_table. induction adds as [|x adds IH] using rev_ind; intros Ha.
  { split; [|done]. split; constructor. }
  apply Forall_app in Ha as [Ha Hx]. apply Forall_cons in Hx as [Hx _]. destruct (IH Ha) as [Hok Hp].
  rewrite fold_left_app. cbn [fold_left]. destruct (table_ok_add _ x.1.1 x.1.2 x.2 Hok Hx) as [Hok' Hp'].
  split; [done|]. rewrite Hp', Hp, map_app. simpl. by rewrite Permutation_app_comm.
Qed.

Lemma star_first l : table_ok l -> (exists a, a ∈ l /\ attr_name a = [STAR]) ->
  exists a r, l = a :: r /\ attr_name a = [STAR].
Proof.
  intros Hl (a & [i Hi]%list_elem_of_lookup & Ha). destruct l as [|x r]; [done|]. exists x, r. split; [done|].
  pose proof (table_sorted (x :: r) 0 i x a Hl ltac:(lia) eq_refl Hi) as Hb. destruct Hl as [_ Hn].
  apply Forall_cons in Hn as [[_ [Hx|(c & n & Hx & Hc)]] _]; [done|]. unfold before, ldb_attr_cmp in Hb.
  rewrite Hx, Ha in Hb. simpl in Hb. exfalso. revert Hb. unfold tolower, STAR.
  destruct ((65 <=? c) && (c <=? 90)) eqn:E; simpl; bool_hyps; case_match; lia.
Qed.

(** C29: The table of attributes.  After any additions of attributes with names as
    the code has them - the star or a name that sorts after it - the bisection of
    [ldb_schema_attribute_by_name] ends inside the table with an attribute that
    was added under that name, up to case, if there is one, and otherwise with
    the entry of the star, or the default when there is none. *)
Theorem ldb_schema_lookup adds def name :
  Forall (fun x => name_ok x.1.1) adds -> adds <> [] -> name_ok name -> name <> [STAR] ->
  exists a, ldb_schema_attribute_by_name (attribute_table adds) def name = Some a
    /\ ((a ∈ map attribute_of adds /\ map tolower name = map tolower (attr_name a))
       \/ ((forall x, x ∈ adds -> map tolower name <> map tolower x.1.1)
          /\ if bool_decide (Exists (fun x => x.1.1 = [STAR]) adds)
             then a ∈ map attribute_of adds /\ attr_name a = [STAR] else a = def)).
Proof.
  intros Hadds Hne Hname Hstar. destruct (attribute_table_ok adds Hadds) as [Hok Hp].
  set (l := attribute_table adds) in *.
  assert (forall a, a ∈ l <-> exists x, x ∈ adds /\ a = attribute_of x) as Hin.
  { intros a. rewrite Hp, list_elem_of_In, in_map_iff. setoid_rewrite list_elem_of_In.
    split; intros (x & H1 & H2); by exists x. }
  assert (forall a, a ∈ l -> ldb_attr_cmp name (attr_name a) = 0 <-> map tolower name = map tolower (attr_name a)) as Hcmp.
  { intros a Ha. destruct Hok as [_ Hn]. rewrite Forall_forall in Hn. destruct Hname as [Hnm _].
    apply strcasecmp_zero; [done|]. by apply Hn. }
  destruct l as [|first r] eqn:El.
  { apply Permutation_nil_l in Hp. destruct adds; [done|]. simpl in Hp. discriminate Hp. }
  rewrite <- El in *. unfold ldb_schema_attribute_by_name.
  assert (head l = Some first) as -> by (by rewrite El). unfold mbind, option_bind at 1. cbv beta iota.
  assert (bool_decide (attr_name first = [STAR]) = bool_decide (Exists (fun x => x.1.1 = [STAR]) adds)) as Hfirst.
  { apply bool_decide_ext. rewrite Exists_exists. split.
    - intros Hf. destruct (proj1 (Hin first)) as (x & Hx & E); [rewrite El; by left|]. exists x. subst first. done.
    - intros (x & Hx & E). destruct (star_first l Hok) as (a & r' & El' & Ha).
      + exists (attribute_of x). split; [|done]. apply Hin. by exists x.
      + rewrite El in El'. by injection El' as -> _. }
  rewrite <- Hfirst. assert (1 <= length l)%nat as Hlen by (rewrite El; simpl; lia).
  set (b := if bool_decide (attr_name first = [STAR]) then 1 else 0).
  assert ((if bool_decide (attr_name first = [STAR]) then (first, 1) else (def, 0))
    = (if bool_decide (attr_name first = [STAR]) then first else def, b)) as -> by (unfold b; by case_bool_decide).
  assert (0 <= b <= 1) as Hb by (unfold b; case_bool_decide; lia). cbv beta iota zeta.
  destruct (attribute_search_ok l name (S (length l)) b (Z.of_nat (length l) - 1) Hok Hname) as (res & -> & Hres); [lia..|].
  simpl mbind. destruct res as [i|].
  - destruct Hres as (a & Ha & Hc). exists a. split; [done|]. left. assert (a ∈ l) as Hal by (by eapply list_elem_of_lookup_2).
    split; [by rewrite <- Hp|]. by apply Hcmp.
  - eexists. split; [done|]. right. split.
    + intros x Hx E. assert (attribute_of x ∈ l) as Hal by (apply Hin; by exists x).
      pose proof (proj2 (Hcmp _ Hal) E) as Hz. apply list_elem_of_lookup in Hal as [i Hi].
      destruct (decide (b <= Z.of_nat i)) as [Hbi|Hbi].
      * apply (Hres i (attribute_of x)); [|done|done]. apply lookup_lt_Some in Hi. lia.
      * assert (i = 0%nat /\ b = 1) as [-> Hb1] by lia. rewrite El in Hi. injection Hi as Ef.
        unfold b in Hb1. case_bool_decide as Hs; [|lia]. rewrite Ef in Hs. simpl in Hs, E. rewrite Hs in E.
        destruct name as [|c [|d n]]; simpl in E; try done. destruct Hname as [_ [Hst|(c' & n & [= <- <-] & Hc')]]; [congruence|].
        injection E as E. unfold tolower, STAR in E. destruct ((65 <=? c) && (c <=? 90)) eqn:Ec; simpl in E; bool_hyps; lia.
    + case_bool_decide as Hs; [|done]. split; [|done]. rewrite <- Hp, El. by left.
Qed.

(** The standard attributes, and "*". *)
Lemma ldb_schema_lookup_witness :
  let s := mk_syntax "" ldb_handler_copy ldb_comparison_binary in
  let adds := [([99; 110], 0, s); ([STAR], 0, s); ([64; 65], 1, s)] in
  exists a, ldb_schema_attribute_by_name (attribute_table adds) (mk_attribute [] 0 s) [67; 78] = Some a
    /\ ((a ∈ map attribute_of adds /\ map tolower [67; 78] = map tolower (attr_name a))
       \/ ((forall x, x ∈ adds -> map tolower [67; 78] <> map tolower x.1.1)
          /\ if bool_decide (Exists (fun x => x.1.1 = [STAR]) adds)
             then a ∈ map attribute_of adds /\ attr_name a = [STAR] else a = mk_attribute [] 0 s)).
Proof.
  cbv zeta. apply ldb_schema_lookup; [|done| |done].
  - constructor; [|constructor; [|constructor; [|constructor]]]; (split; [by repeat constructor|]);
      first [by left|right; eexists _, _; split; [done|simpl; lia]].
  - split; [by repeat constructor|right; eexists _, _; split; [done|lia]].
Defined.

(** Removing an attribute that was not added removes the entry of the star. *)
Example remove_absent :
  let s := mk_syntax "" ldb_handler_copy ldb_comparison_binary in
  ldb_schema_attribute_remove (attribute_table [([STAR], 0, s); ([99; 110], 0, s)]) [111; 117]
  = Some (attribute_table [([99; 110], 0, s)]).
Proof. reflexivity. Qed.
