(* ===== verification/UtilTime.v ===== *)
(** * Time handling ([source4/lib/util/time.c])

    An [NTTIME] is a 64-bit unsigned count of 100 ns since 1601, a [time_t] a
    64-bit signed count of seconds since 1970, a DOS date a 32-bit word with the
    fields of a local time and a resolution of two seconds.  The broken-down
    time is that of [LdbTime]; [gmtime] gives [NULL] when the year does not fit
    an [int].  The text forms ([http_timestring], [timestring]) and the time
    zone of the host are not modelled: the callers pass the zone. *)

From S2P Require Import Prelude NtStatus Ndr LdbTime.

Local Open Scope Z_scope.

(** ** NTTIME *)

Definition TIME_T_MIN : Z := 0.
Definition TIME_T_MAX : Z := 2 ^ 31 - 1.
Definition TIME_FIXUP_CONSTANT : Z := 11644473600.

Definition nt_time_to_unix (nt : Z) : Z :=
  if nt =? 0 then 0
  else if nt =? u64 (-1) then -1
  else
    let nt := u64 (nt + 1000 * 1000 * 10 / 2) in
    let nt := nt / (1000 * 1000 * 10) in
    let nt := u64 (nt - TIME_FIXUP_CONSTANT) in
    if (nt <? TIME_T_MIN) || (TIME_T_MAX <? nt) then 0 else nt.

Definition unix_to_nt_time (t : Z) : Z :=
  if t =? -1 then u64 (-1)
  else if t =? 0 then 0
  else u64 (u64 (u64 t + TIME_FIXUP_CONSTANT) * (1000 * 1000 * 10)).

Definition null_time (t : Z) : bool := (t =? 0) || (t =? 4294967295) || (t =? -1).
Definition null_nttime (t : Z) : bool := (t =? 0) || (t =? u64 (-1)).

(** ** DOS dates *)

Definition make_dos_date1 (t : tm) : Z :=
  let ret := u16 (Z.shiftr (u32 (tm_mon t + 1)) 3 ||| Z.shiftl (tm_year t - 80) 1) in
  u16 (Z.shiftl (Z.land ret 255) 8 ||| (tm_mday t ||| Z.shiftl (Z.land (tm_mon t + 1) 7) 5)).

Definition make_dos_time1 (t : tm) : Z :=
  let ret := u16 (Z.land (Z.shiftr (u32 (tm_min t)) 3) 7 ||| Z.shiftl (u32 (tm_hour t)) 3) in
  u16 (Z.shiftl (Z.land ret 255) 8 ||| (Z.quot (tm_sec t) 2 ||| Z.shiftl (Z.land (tm_min t) 7) 5)).

(** [gmtime(&t)] *)
Definition gmtime_ptr (t : Z) : option tm :=
  let tm := gmtime t in if s32 (tm_year tm) =? tm_year tm then Some tm else None.

Definition make_dos_date (unixdate zone_offset : Z) : Z :=
  if unixdate =? 0 then 0
  else
    match gmtime_ptr (unixdate - zone_offset) with
    | None => 4294967295
    | Some t => u32 (Z.shiftl (Z.land (make_dos_date1 t) 65535) 16) ||| make_dos_time1 t
    end.

(** The two 16-bit halves exchanged. *)
Definition swap_halves (x : Z) : Z :=
  u32 (Z.shiftl (Z.land x 65535) 16) ||| Z.shiftr (Z.land x 4294901760) 16.

Definition push_dos_date (buf : list Z) (offset unixdate zone_offset : Z) : option (list Z) :=
  SIVAL buf offset (make_dos_date unixdate zone_offset).
Definition push_dos_date2 (buf : list Z) (offset unixdate zone_offset : Z) : option (list Z) :=
  SIVAL buf offset (swap_halves (make_dos_date unixdate zone_offset)).
Definition push_dos_date3 (buf : list Z) (offset unixdate zone_offset : Z) : option (list Z) :=
  SIVAL buf offset (if negb (null_time unixdate) then unixdate - zone_offset else unixdate).

Definition interpret_dos_date (date : Z) : tm :=
  let p0 := Z.land date 255 in
  let p1 := Z.land (Z.shiftr (Z.land date 65280) 8) 255 in
  let p2 := Z.land (Z.shiftr (Z.land date 16711680) 16) 255 in
  let p3 := Z.land (Z.shiftr (Z.land date 4278190080) 24) 255 in
  mk_tm (Z.land (Z.shiftr p3 1) 255 + 80)
        (Z.land (Z.shiftr p2 5) 255 + Z.shiftl (Z.land p3 1) 3 - 1)
        (Z.land p2 31)
        (Z.land (Z.shiftr p1 3) 255)
        (Z.land (Z.shiftr p0 5) 255 + Z.shiftl (Z.land p1 7) 3)
        (2 * Z.land p0 31).

Definition pull_dos_date (date_ptr : list Z) (zone_offset : Z) : option Z :=
  dos_date ← IVAL date_ptr 0;
  Some (if dos_date =? 0 then 0 else timegm (interpret_dos_date dos_date) + zone_offset).

(** [x] is a local word: what it held before [SIVAL] does not matter. *)
Definition pull_dos_date2 (date_ptr : list Z) (zone_offset : Z) : option Z :=
  x ← IVAL date_ptr 0;
  x ← SIVAL [0; 0; 0; 0] 0 (swap_halves x);
  pull_dos_date x zone_offset.

Definition pull_dos_date3 (date_ptr : list Z) (zone_offset : Z) : option Z :=
  t ← IVAL date_ptr 0;
  Some (if negb (null_time t) then t + zone_offset else t).

(** ** struct timeval *)

Record timeval : Set := mk_tv { tv_sec : Z; tv_usec : Z }.

#[export] Instance timeval_eq_dec : EqDecision timeval.
Proof. solve_decision. Defined.

Definition usec_time_diff (tv1 tv2 : timeval) : Z :=
  (tv_sec tv1 - tv_sec tv2) * 1000000 + (tv_usec tv1 - tv_usec tv2).

Definition timeval_zero : timeval := mk_tv 0 0.
Definition timeval_is_zero (tv : timeval) : bool := (tv_sec tv =? 0) && (tv_usec tv =? 0).
Definition timeval_set (secs usecs : Z) : timeval := mk_tv secs usecs.

Definition timeval_add (tv : timeval) (secs usecs : Z) : timeval :=
  let sec := tv_sec tv + secs in
  let usec := tv_usec tv + usecs in
  mk_tv (sec + Z.quot usec 1000000) (Z.rem usec 1000000).

(** The fields of the second are converted to [uint32_t]. *)
Definition timeval_sum (tv1 tv2 : timeval) : timeval :=
  timeval_add tv1 (u32 (tv_sec tv2)) (u32 (tv_usec tv2)).

(** [cur] is the current time. *)
Definition timeval_current_ofs (cur : timeval) (secs usecs : Z) : timeval :=
  timeval_add cur secs usecs.

Definition timeval_compare (tv1 tv2 : timeval) : Z :=
  if tv_sec tv2 <? tv_sec tv1 then 1
  else if tv_sec tv1 <? tv_sec tv2 then -1
  else if tv_usec tv2 <? tv_usec tv1 then 1
  else if tv_usec tv1 <? tv_usec tv2 then -1
  else 0.

Definition timeval_expired (cur tv : timeval) : bool :=
  if tv_sec tv <? tv_sec cur then true
  else if tv_sec cur <? tv_sec tv then false
  else tv_usec tv <=? tv_usec cur.

Definition timeval_min (tv1 tv2 : timeval) : timeval :=
  if tv_sec tv1 <? tv_sec tv2 then tv1
  else if tv_sec tv2 <? tv_sec tv1 then tv2
  else if tv_usec tv1 <? tv_usec tv2 then tv1
  else tv2.

Definition timeval_max (tv1 tv2 : timeval) : timeval :=
  if tv_sec tv2 <? tv_sec tv1 then tv1
  else if tv_sec tv1 <? tv_sec tv2 then tv2
  else if tv_usec tv2 <? tv_usec tv1 then tv1
  else tv2.

Definition timeval_until (tv1 tv2 : timeval) : timeval :=
  if 0 <=? timeval_compare tv1 tv2 then timeval_zero
  else
    let sec := tv_sec tv2 - tv_sec tv1 in
    if tv_usec tv2 <? tv_usec tv1
    then mk_tv (sec - 1) (1000000 - (tv_usec tv1 - tv_usec tv2))
    else mk_tv sec (tv_usec tv2 - tv_usec tv1).

Definition timeval_to_nttime (tv : timeval) : Z :=
  u64 (10 * u64 (u64 (tv_usec tv) + u64 (u64 (TIME_FIXUP_CONSTANT + u64 (tv_sec tv)) * 1000000))).

Definition nttime_to_timeval (t : Z) : timeval :=
  let t := u64 (t + 10 / 2) in
  let t := t / 10 in
  let t := u64 (t - TIME_FIXUP_CONSTANT * 1000 * 1000) in
  let sec := t / 1000000 in
  if (sec <? TIME_T_MIN) || (TIME_T_MAX <? sec) then mk_tv 0 0
  else mk_tv sec (t - sec * 1000000).

(** ** NTTIME and Unix time *)

(** Rounding to the nearest second. *)
Lemma nt_seconds nt : 0 < nt < 2 ^ 64 - 5000000 ->
  nt_time_to_unix nt =
    let t := (nt + 5000000) / 10000000 - TIME_FIXUP_CONSTANT in
    if (t <? 0) || (TIME_T_MAX <? t) then 0 else t.
Proof.
  intros Hn. unfold nt_time_to_unix. change (u64 (-1)) with 18446744073709551615.
  destruct (Z.eqb_spec nt 0); [lia|]. destruct (Z.eqb_spec nt 18446744073709551615); [lia|].
  change (1000 * 1000 * 10 / 2) with 5000000. change (1000 * 1000 * 10) with 10000000.
  rewrite (u64_small (nt + 5000000)) by lia. cbv zeta.
  set (q := (nt + 5000000) / 10000000).
  assert (0 <= q <= 2 ^ 64 / 10000000) as Hq.
  { subst q. split; [apply Z.div_pos; lia|]. apply Z.div_le_mono; lia. }
  unfold TIME_FIXUP_CONSTANT, TIME_T_MIN, TIME_T_MAX. clearbody q.
  change (2 ^ 64 / 10000000) with 1844674407370 in Hq.
  destruct (Z_lt_le_dec q 11644473600) as [H|H].
  - replace (u64 (q - 11644473600)) with (q - 11644473600 + 2 ^ 64)
      by (unfold u64; apply (Z.mod_unique_pos _ _ (-1)); lia).
    replace ((q - 11644473600 <? 0) || _) with true by (symmetry; apply orb_true_iff; lia).
    replace (_ || (_ <? q - 11644473600 + 2 ^ 64)) with true; [done|].
    symmetry. apply orb_true_iff. lia.
  - by rewrite u64_small by lia.
Qed.

(** Every second a [time_t] of 32 bits can hold survives. *)
Lemma unix_nt_unix t : 0 <= t <= TIME_T_MAX -> nt_time_to_unix (unix_to_nt_time t) = t.
Proof.
  unfold TIME_T_MAX. intros Ht. unfold unix_to_nt_time.
  destruct (Z.eqb_spec t (-1)); [lia|]. destruct (Z.eqb_spec t 0) as [->|]; [done|].
  rewrite (u64_small t) by lia. unfold TIME_FIXUP_CONSTANT.
  change (1000 * 1000 * 10) with 10000000. rewrite !u64_small by (rewrite ?u64_small; lia).
  rewrite nt_seconds by lia.
  replace (((t + 11644473600) * 10000000 + 5000000) / 10000000) with (t + 11644473600)
    by (apply (Z.div_unique_pos _ _ _ 5000000); lia).
  unfold TIME_FIXUP_CONSTANT, TIME_T_MAX. cbv zeta.
  replace (t + 11644473600 - 11644473600) with t by lia.
  replace (_ || _) with false; [done|]. symmetry. apply orb_false_iff. lia.
Qed.

Lemma nt_time_to_unix_spec nt : 0 <= nt < 2 ^ 64 ->
  nt_time_to_unix nt =
    if nt =? 2 ^ 64 - 1 then -1
    else let t := (nt + 5000000) / 10000000 - TIME_FIXUP_CONSTANT in
         if (t <? 0) || (TIME_T_MAX <? t) then 0 else t.
Proof.
  intros Hn. destruct (Z.eqb_spec nt 0) as [->|]; [done|].
  destruct (Z_lt_le_dec nt (2 ^ 64 - 5000000)).
  - rewrite nt_seconds by lia. by destruct (Z.eqb_spec nt (2 ^ 64 - 1)); [lia|].
  - unfold nt_time_to_unix. change (u64 (-1)) with (2 ^ 64 - 1).
    destruct (Z.eqb_spec nt 0); [lia|]. destruct (Z.eqb_spec nt (2 ^ 64 - 1)); [done|].
    change (1000 * 1000 * 10 / 2) with 5000000. change (1000 * 1000 * 10) with 10000000.
    replace (u64 (nt + 5000000)) with (nt + 5000000 - 2 ^ 64)
      by (unfold u64; apply (Z.mod_unique_pos _ _ 1); lia).
    replace ((nt + 5000000 - 2 ^ 64) / 10000000) with 0 by (symmetry; apply Z.div_small; lia).
    cbv zeta.
    assert (2 ^ 64 / 10000000 <= (nt + 5000000) / 10000000) as Hq by (apply Z.div_le_mono; lia).
    change (2 ^ 64 / 10000000) with 1844674407370 in Hq.
    set (q := (nt + 5000000) / 10000000) in *. clearbody q.
    unfold TIME_FIXUP_CONSTANT, TIME_T_MIN, TIME_T_MAX.
    change (u64 (0 - 11644473600)) with 18446744062065078016.
    replace (_ || (2 ^ 31 - 1 <? q - 11644473600)) with true; [done|].
    symmetry. apply orb_true_iff. lia.
Qed.

(** ** Times in microseconds *)

Definition usecs (tv : timeval) : Z := tv_sec tv * 1000000 + tv_usec tv.
Definition normal (tv : timeval) : Prop := 0 <= tv_usec tv < 1000000.

Lemma usecs_inj tv1 tv2 : normal tv1 -> normal tv2 -> usecs tv1 = usecs tv2 -> tv1 = tv2.
Proof.
  destruct tv1, tv2. unfold normal, usecs. simpl. intros. f_equal; lia.
Qed.

Lemma usecs_add tv secs usec : normal tv -> 0 <= secs -> 0 <= usec ->
  usecs (timeval_add tv secs usec) = usecs tv + secs * 1000000 + usec /\
  normal (timeval_add tv secs usec).
Proof.
  unfold normal, usecs, timeval_add. simpl. intros. 
  pose proof (Z.quot_rem' (tv_usec tv + usec) 1000000).
  pose proof (Z.rem_bound_pos (tv_usec tv + usec) 1000000). lia.
Qed.

Lemma usecs_expired cur tv : normal cur -> normal tv ->
  timeval_expired cur tv = (usecs tv <=? usecs cur).
Proof.
  unfold normal, usecs, timeval_expired. intros.
  destruct (Z.ltb_spec (tv_sec tv) (tv_sec cur)); [lia|].
  destruct (Z.ltb_spec (tv_sec cur) (tv_sec tv)); lia.
Qed.

Lemma usecs_compare tv1 tv2 : normal tv1 -> normal tv2 ->
  timeval_compare tv1 tv2 = Z.sgn (usecs tv1 - usecs tv2).
Proof. unfold normal, usecs, timeval_compare. intros. repeat case_match; lia. Qed.

Lemma usecs_nttime tv : normal tv -> 0 <= tv_sec tv <= TIME_T_MAX ->
  nttime_to_timeval (timeval_to_nttime tv) = tv.
Proof.
  destruct tv as [sec usec]. unfold normal, TIME_T_MAX. simpl. intros Hu Hs.
  unfold timeval_to_nttime, TIME_FIXUP_CONSTANT. simpl.
  rewrite (u64_small sec), (u64_small usec) by lia.
  rewrite (u64_small (_ + sec)) by lia. rewrite (u64_small (_ * 1000000)) by lia.
  rewrite (u64_small (usec + _)) by lia. rewrite (u64_small (10 * _)) by lia.
  unfold nttime_to_timeval, TIME_FIXUP_CONSTANT, TIME_T_MAX, TIME_T_MIN.
  change (10 / 2) with 5. rewrite (u64_small (_ + 5)) by lia.
  replace ((10 * (usec + (11644473600 + sec) * 1000000) + 5) / 10)
    with (usec + (11644473600 + sec) * 1000000) by (apply (Z.div_unique_pos _ _ _ 5); lia).
  rewrite u64_small by lia.
  replace ((usec + (11644473600 + sec) * 1000000 - 11644473600 * 1000 * 1000)) with
    (usec + sec * 1000000) by lia.
  rewrite Z.div_add, (Z.div_small usec) by lia. cbv zeta.
  replace (_ || _) with false by (symmetry; apply orb_false_iff; lia). f_equal; lia.
Qed.

Lemma usecs_until tv1 tv2 : normal tv1 -> normal tv2 ->
  usecs (timeval_until tv1 tv2) = Z.max 0 (usecs tv2 - usecs tv1) /\
  normal (timeval_until tv1 tv2).
Proof.
  intros H1 H2. unfold timeval_until. rewrite usecs_compare by done.
  destruct (Z.leb_spec 0 (Z.sgn (usecs tv1 - usecs tv2))) as [H|H].
  - apply Z.sgn_nonneg in H. unfold normal, usecs in *. simpl. lia.
  - apply Z.sgn_neg_iff in H. unfold normal, usecs in *.
    destruct (Z.ltb_spec (tv_usec tv2) (tv_usec tv1)); simpl; lia.
Qed.

(** A [struct timeval] is a number of microseconds.  On normalised values
    the operations are those of the numbers - a sum, the sign of a difference,
    minimum, maximum, the time left or zero - and their results are normalised;
    a time goes to NTTIME and back unchanged, from 1970 to 2038. *)
Theorem timeval_is_usecs tv1 tv2 secs usec :
  normal tv1 -> normal tv2 -> 0 <= secs < 2 ^ 32 -> 0 <= usec < 2 ^ 32 ->
  (usecs (timeval_add tv1 secs usec) = usecs tv1 + secs * 1000000 + usec /\
   normal (timeval_add tv1 secs usec)) /\
  timeval_compare tv1 tv2 = Z.sgn (usecs tv1 - usecs tv2) /\
  timeval_expired tv1 tv2 = (usecs tv2 <=? usecs tv1) /\
  timeval_min tv1 tv2 = (if usecs tv1 <=? usecs tv2 then tv1 else tv2) /\
  timeval_max tv1 tv2 = (if usecs tv2 <=? usecs tv1 then tv1 else tv2) /\
  (usecs (timeval_until tv1 tv2) = Z.max 0 (usecs tv2 - usecs tv1) /\
   normal (timeval_until tv1 tv2)) /\
  usec_time_diff tv1 tv2 = usecs tv1 - usecs tv2 /\
  (0 <= tv_sec tv1 <= TIME_T_MAX -> nttime_to_timeval (timeval_to_nttime tv1) = tv1).
Proof.
  intros H1 H2 Hs Hu. split_and!.
  1,2: apply usecs_add; done || lia.
  - by apply usecs_compare.
  - by apply usecs_expired.
  - unfold timeval_min. destruct (Z.leb_spec (usecs tv1) (usecs tv2)); unfold normal, usecs in *;
      repeat case_match; try done; try lia. destruct tv1, tv2; simpl in *. f_equal; lia.
  - unfold timeval_max. destruct (Z.leb_spec (usecs tv2) (usecs tv1)); unfold normal, usecs in *;
      repeat case_match; try done; try lia. destruct tv1, tv2; simpl in *. f_equal; lia.
  - by apply usecs_until.
  - by apply usecs_until.
  - unfold usec_time_diff, usecs. lia.
  - by apply usecs_nttime.
Qed.

Lemma timeval_is_usecs_witness :
  timeval_add (mk_tv 5 999999) 2 3000001 = mk_tv 11 0 /\
  usecs (timeval_add (mk_tv 5 999999) 2 3000001) = 5999999 + 2 * 1000000 + 3000001.
Proof.
  split; [reflexivity|].
  destruct (timeval_is_usecs (mk_tv 5 999999) (mk_tv 0 0) 2 3000001) as [[H _] _];
    unfold normal; simpl; try lia. exact H.
Defined.

(** ** DOS dates *)

(** The two words as sums. *)
Lemma make_dos_date1_sum t : 80 <= tm_year t < 208 -> 0 <= tm_mon t < 12 -> 1 <= tm_mday t < 32 ->
  make_dos_date1 t =
    tm_mday t + (tm_mon t + 1) mod 8 * 32 + ((tm_mon t + 1) / 8 + (tm_year t - 80) * 2) * 256.
Proof.
  intros Hy Hm Hd. unfold make_dos_date1. rewrite (u32_small (tm_mon t + 1)) by lia.
  rewrite (Z.land_ones _ 3), (land_255 (u16 _)), Z.shiftr_div_pow2 by lia.
  rewrite (lor_shiftl_add _ (tm_year t - 80)) by (change (2 ^ 3) with 8; change (2 ^ 1) with 2; euclid).
  rewrite (lor_shiftl_add (tm_mday t)) by lia. rewrite Z.lor_comm.
  rewrite lor_shiftl_add by (change (2 ^ 3) with 8; euclid). unfold u16.
  change (2 ^ 16) with 65536; change (2 ^ 8) with 256; change (2 ^ 5) with 32;
    change (2 ^ 3) with 8; change (2 ^ 1) with 2. euclid.
Qed.

Lemma make_dos_time1_sum t : 0 <= tm_hour t < 24 -> 0 <= tm_min t < 60 -> 0 <= tm_sec t < 60 ->
  make_dos_time1 t =
    tm_sec t / 2 + tm_min t mod 8 * 32 + (tm_min t / 8 + tm_hour t * 8) * 256.
Proof.
  intros Hh Hm Hs. unfold make_dos_time1. rewrite (u32_small (tm_min t)), (u32_small (tm_hour t)) by lia.
  rewrite !(Z.land_ones _ 3), (land_255 (u16 _)), Z.shiftr_div_pow2, Z.quot_div_nonneg by lia.
  rewrite (lor_shiftl_add _ (tm_hour t)) by (change (2 ^ 3) with 8; euclid).
  rewrite (lor_shiftl_add (tm_sec t / 2)) by (change (2 ^ 5) with 32; euclid). rewrite Z.lor_comm.
  rewrite lor_shiftl_add by (change (2 ^ 3) with 8; change (2 ^ 5) with 32; change (2 ^ 8) with 256; euclid).
  unfold u16. change (2 ^ 16) with 65536; change (2 ^ 8) with 256; change (2 ^ 5) with 32;
    change (2 ^ 3) with 8. euclid.
Qed.

(** The fields from the bytes of the two words. *)
Definition fields_of (d1 t1 : Z) : tm :=
  let p0 := t1 mod 256 in let p1 := t1 / 256 mod 256 in
  let p2 := d1 mod 256 in let p3 := d1 / 256 mod 256 in
  mk_tm (p3 / 2 mod 256 + 80) (p2 / 32 mod 256 + p3 mod 2 * 8 - 1) (p2 mod 32)
        (p1 / 8 mod 256) (p0 / 32 mod 256 + p1 mod 8 * 8) (2 * (p0 mod 32)).

(** The words, their halves and their bytes. *)
Lemma halves_sum a b : 0 <= a < 65536 -> 0 <= b < 65536 ->
  u32 (Z.shiftl (Z.land a 65535) 16) ||| b = a * 65536 + b.
Proof.
  intros Ha Hb. rewrite land_65535, Z.mod_small by done.
  rewrite Z.lor_comm, u32_small by (rewrite Z.shiftl_mul_pow2; lia).
  rewrite lor_shiftl_add; [lia|done|done].
Qed.

Lemma byte_of_word date k : 0 <= k ->
  Z.land (Z.shiftr (Z.land date (Z.shiftl 255 k)) k) 255 = date / 2 ^ k mod 256.
Proof.
  intros Hk. rewrite Z.shiftr_land, Z.shiftr_shiftl_l, Z.sub_diag, Z.shiftl_0_r by done.
  by rewrite <- Z.land_assoc, Z.land_diag, land_255, Z.shiftr_div_pow2.
Qed.

Lemma interpret_words d1 t1 : 0 <= d1 < 65536 -> 0 <= t1 < 65536 ->
  interpret_dos_date (d1 * 65536 + t1) = fields_of d1 t1.
Proof.
  intros Hd Ht. unfold interpret_dos_date.
  change 65280 with (Z.shiftl 255 8). change 16711680 with (Z.shiftl 255 16).
  change 4278190080 with (Z.shiftl 255 24). rewrite !byte_of_word, (land_255 (_ + _)) by lia.
  unfold fields_of. cbv zeta. rewrite !(Z.land_ones _ 1), !(Z.land_ones _ 3), !(Z.land_ones _ 5) by lia.
  rewrite !land_255, !Z.shiftr_div_pow2, !Z.shiftl_mul_pow2 by lia.
  change (2 ^ 8) with 256; change (2 ^ 16) with 65536; change (2 ^ 24) with 16777216;
    change (2 ^ 1) with 2; change (2 ^ 3) with 8; change (2 ^ 5) with 32.
  replace ((d1 * 65536 + t1) mod 256) with (t1 mod 256) by euclid.
  replace ((d1 * 65536 + t1) / 256 mod 256) with (t1 / 256 mod 256) by euclid.
  replace ((d1 * 65536 + t1) / 65536 mod 256) with (d1 mod 256) by euclid.
  replace ((d1 * 65536 + t1) / 16777216 mod 256) with (d1 / 256 mod 256) by euclid. done.
Qed.

Lemma fields_of_sums y m d h mi s :
  80 <= y < 208 -> 0 <= m < 12 -> 1 <= d < 32 -> 0 <= h < 24 -> 0 <= mi < 60 -> 0 <= s < 60 ->
  fields_of (d + (m + 1) mod 8 * 32 + ((m + 1) / 8 + (y - 80) * 2) * 256)
            (s / 2 + mi mod 8 * 32 + (mi / 8 + h * 8) * 256) =
  mk_tm y m d h mi (s - s mod 2).
Proof.
  intros. unfold fields_of. cbv zeta.
  replace ((d + (m + 1) mod 8 * 32 + ((m + 1) / 8 + (y - 80) * 2) * 256) mod 256)
    with (d + (m + 1) mod 8 * 32) by euclid.
  replace ((d + (m + 1) mod 8 * 32 + ((m + 1) / 8 + (y - 80) * 2) * 256) / 256 mod 256)
    with ((m + 1) / 8 + (y - 80) * 2) by euclid.
  replace ((s / 2 + mi mod 8 * 32 + (mi / 8 + h * 8) * 256) mod 256)
    with (s / 2 + mi mod 8 * 32) by euclid.
  replace ((s / 2 + mi mod 8 * 32 + (mi / 8 + h * 8) * 256) / 256 mod 256)
    with (mi / 8 + h * 8) by euclid.
  f_equal; euclid.
Qed.

Lemma swap_halves_eq x : 0 <= x < 2 ^ 32 -> swap_halves x = x mod 65536 * 65536 + x / 65536.
Proof.
  intros Hx. unfold swap_halves. change 4294901760 with (Z.shiftl 65535 16).
  rewrite Z.shiftr_land, Z.shiftr_shiftl_l, Z.sub_diag, Z.shiftl_0_r, Z.shiftr_div_pow2 by lia.
  change (2 ^ 16) with 65536. rewrite !land_65535.
  rewrite Z.lor_comm, u32_small by (rewrite Z.shiftl_mul_pow2 by lia; euclid).
  rewrite lor_shiftl_add; [|done|change (2 ^ 16) with 65536; euclid].
  change (2 ^ 16) with 65536. euclid.
Qed.

Lemma swap_halves_invol x : 0 <= x < 2 ^ 32 -> swap_halves (swap_halves x) = x.
Proof.
  intros Hx. rewrite (swap_halves_eq x) by done. rewrite swap_halves_eq by euclid. euclid.
Qed.

(** From day 3652 on it is 1980. *)
Lemma years_checked :
  all_from (fun d => 1980 <=? (civil_from_days d).1.1) (Z.to_nat 21204) 3652 = true.
Proof. vm_compute. reflexivity. Qed.

Lemma gmtime_year t : 315532800 <= t < 2 ^ 31 -> 80 <= tm_year (gmtime t).
Proof.
  intros Ht. assert (3652 <= t / 86400 < 24856) as Hd by euclid.
  pose proof (all_from_spec _ _ _ (t / 86400) years_checked) as H. cbv beta in H.
  specialize (H ltac:(lia)). unfold gmtime. destruct (civil_from_days _) as [[y m] day].
  simpl in *. lia.
Qed.

(** The word of a time from 1980 on, and what it is read as. *)
Lemma make_dos_date_word t zone : t <> 0 -> 315532800 <= t - zone < 2 ^ 31 ->
  let x := make_dos_date t zone in
  0 < x < 2 ^ 32 /\ timegm (interpret_dos_date x) + zone = t - (t - zone) mod 2.
Proof.
  intros H0 Ht. unfold make_dos_date, gmtime_ptr. destruct (Z.eqb_spec t 0); [done|].
  set (l := t - zone) in *.
  destruct (gmtime_ok l ltac:(lia)) as [[Hy Hm Hd Hh Hmi Hs] Hg].
  pose proof (gmtime_year l Ht) as Hy80.
  assert (tm_sec (gmtime l) mod 2 = l mod 2) as Hpar.
  { rewrite <- Hg at 2. unfold timegm. euclid. }
  destruct (gmtime l) as [y m d h mi s]. cbn [tm_year tm_mon tm_mday tm_hour tm_min tm_sec] in *.
  rewrite s32_small, Z.eqb_refl by lia.
  rewrite make_dos_date1_sum, make_dos_time1_sum by (simpl; lia).
  cbn [tm_year tm_mon tm_mday tm_hour tm_min tm_sec].
  rewrite halves_sum by euclid. split; [euclid|].
  rewrite interpret_words, fields_of_sums by (lia || euclid). unfold timegm in *.
  cbn [tm_year tm_mon tm_mday tm_hour tm_min tm_sec] in *. lia.
Qed.

(** A word stored in a buffer is loaded from it. *)
Lemma SIVAL_IVAL buf offset v : 0 <= offset -> offset + 4 <= Z.of_nat (length buf) ->
  exists buf', SIVAL buf offset v = Some buf' /\ length buf' = length buf /\
    IVAL (drop (Z.to_nat offset) buf') 0 = Some (v mod 2 ^ 32).
Proof.
  intros Ho Hl. exists (splice (Z.to_nat offset) (le32 v) buf).
  split; [by apply SIVAL_splice|]. split; [apply length_splice; simpl; lia|].
  apply IVAL_of_bytes; [lia|]. unfold bytes_at, splice.
  rewrite drop_app_length' by (rewrite length_take; lia). simpl. done.
Qed.

Lemma pull_dos_date_at date_ptr zone x : IVAL date_ptr 0 = Some x -> 0 < x ->
  pull_dos_date date_ptr zone = Some (timegm (interpret_dos_date x) + zone).
Proof.
  intros E Hx. unfold pull_dos_date. rewrite E. cbn [mbind option_bind].
  by destruct (Z.eqb_spec x 0); [lia|].
Qed.

(** The three DOS forms of a time read back.  A time whose local form lies
    between 1980 and 2038, pushed anywhere into a buffer and pulled with the
    same zone, comes back rounded down to an even local second in the two packed
    forms, and exactly in the Unix-like form. *)
Theorem dos_dates_roundtrip buf offset t zone :
  0 <= offset -> offset + 4 <= Z.of_nat (length buf) ->
  0 < t < 2 ^ 31 -> 315532800 <= t - zone < 2 ^ 31 ->
  let back push pull := exists buf', push buf offset t zone = Some buf' /\
                          pull (drop (Z.to_nat offset) buf') zone in
  back push_dos_date (fun p z => pull_dos_date p z = Some (t - (t - zone) mod 2)) /\
  back push_dos_date2 (fun p z => pull_dos_date2 p z = Some (t - (t - zone) mod 2)) /\
  back push_dos_date3 (fun p z => pull_dos_date3 p z = Some t).
Proof.
  intros Ho Hl Ht Hz back. subst back. cbv beta.
  destruct (make_dos_date_word t zone ltac:(lia) Hz) as [Hx Hback]. split_and!.
  - destruct (SIVAL_IVAL buf offset (make_dos_date t zone) Ho Hl) as (b & E & _ & Hi).
    exists b. split; [exact E|]. rewrite Z.mod_small in Hi by lia.
    rewrite (pull_dos_date_at _ _ _ Hi) by lia. by rewrite Hback.
  - destruct (SIVAL_IVAL buf offset (swap_halves (make_dos_date t zone)) Ho Hl) as (b & E & _ & Hi).
    exists b. split; [exact E|]. pose proof (swap_halves_eq (make_dos_date t zone) ltac:(lia)) as Hs.
    rewrite Z.mod_small in Hi by (rewrite Hs; euclid).
    unfold pull_dos_date2. rewrite Hi. cbn [mbind option_bind]. rewrite swap_halves_invol by lia.
    destruct (SIVAL_IVAL [0; 0; 0; 0] 0 (make_dos_date t zone)) as (b' & -> & _ & Hi'); [lia|simpl; lia|].
    cbn [mbind option_bind]. rewrite Z.mod_small in Hi' by lia.
    rewrite (pull_dos_date_at _ _ _ Hi') by lia. by rewrite Hback.
  - unfold push_dos_date3.
    assert (forall a, 0 < a < 2 ^ 31 -> null_time a = false) as Hn
      by (intros a Ha; unfold null_time; rewrite !orb_false_iff; lia).
    rewrite (Hn t) by lia. destruct (SIVAL_IVAL buf offset (t - zone) Ho Hl) as (b & E & _ & Hi).
    exists b. split; [exact E|]. rewrite Z.mod_small in Hi by lia.
    unfold pull_dos_date3. rewrite Hi. cbn [mbind option_bind]. rewrite (Hn (t - zone)) by lia.
    cbn [negb]. f_equal. lia.
Qed.

(** 2004-04-08 07:20:13 UTC, one hour east of Greenwich. *)
Lemma dos_dates_roundtrip_witness :
  push_dos_date [0; 0; 0; 0; 9] 0 1081408813 (-3600) = Some [134; 66; 136; 48; 9] /\
  exists buf', push_dos_date [0; 0; 0; 0; 9] 0 1081408813 (-3600) = Some buf' /\
    pull_dos_date (drop 0 buf') (-3600) = Some 1081408812.
Proof.
  split; [vm_compute; reflexivity|].
  destruct (dos_dates_roundtrip [0; 0; 0; 0; 9] 0 1081408813 (-3600)) as [H _];
    [lia|simpl; lia|lia|lia|]. exact H.
Defined.

(** Seconds and NTTIME.  For any 64-bit NTTIME the conversion gives the
    nearest second, 0 outside 1970 to 2038 and -1 for the time that never
    comes; a second of that range goes to NTTIME and back unchanged, and -1 and
    0 keep their meaning. *)
Theorem nt_time_correct nt t :
  0 <= nt < 2 ^ 64 -> -1 <= t <= TIME_T_MAX ->
  nt_time_to_unix nt =
    (if nt =? 2 ^ 64 - 1 then -1
     else let s := (nt + 5000000) / 10000000 - TIME_FIXUP_CONSTANT in
          if (s <? 0) || (TIME_T_MAX <? s) then 0 else s) /\
  nt_time_to_unix (unix_to_nt_time t) = t /\
  null_nttime (unix_to_nt_time t) = null_time t.
Proof.
  intros Hn Ht. split; [by apply nt_time_to_unix_spec|].
  destruct (Z.eq_dec t (-1)) as [->|]; [done|].
  split; [apply unix_nt_unix; lia|]. unfold null_nttime, null_time, unix_to_nt_time, TIME_T_MAX in *.
  destruct (Z.eqb_spec t (-1)); [done|]. destruct (Z.eqb_spec t 0) as [->|]; [done|].
  rewrite (u64_small t) by lia. unfold TIME_FIXUP_CONSTANT. change (1000 * 1000 * 10) with 10000000.
  rewrite !(u64_small (_ + _)), u64_small by lia. change (u64 (-1)) with 18446744073709551615.
  destruct (Z.eqb_spec t 4294967295); [lia|]. cbn [orb]. apply orb_false_iff. lia.
Qed.

Lemma nt_time_correct_witness :
  unix_to_nt_time 1081408812 = 127258824120000000 /\
  nt_time_to_unix (unix_to_nt_time 1081408812) = 1081408812.
Proof.
  split; [vm_compute; reflexivity|].
  destruct (nt_time_correct 0 1081408812) as (_ & H & _); [lia|unfold TIME_T_MAX; lia|exact H].
Defined.
