(* ===== verification/IdTree.v ===== *)
(** * Id trees ([source4/lib/util/idtree.c])

    A radix tree that hands out small integers and finds the pointer stored
    under one.  A layer has 32 slots, a bit per slot that is set when there is
    no room below it, and the number of slots in use.  The slots of the lowest
    layer hold the pointers of the user, the others hold layers; a pointer is a
    number, 0 is [NULL].

    Every layer is reached by one path, so a tree is a value, and the path [pa]
    that [sub_alloc] keeps is the list of layers above the current one, each
    with the slot that was taken.  [id_free] is the list of spare layers, which
    the code links through their first slot.  [MAX_LEVEL] is 7, but [pa] has
    room for 6 layers only; a write past its end, and a shift by 32 bits or more,
    are [None].  Allocation of the spare layers succeeds. *)

From S2P Require Import Prelude.

Local Open Scope Z_scope.

(** ** Data *)

Definition IDR_BITS : Z := 5.
Definition IDR_FULL : Z := 4294967295.
Definition IDR_SIZE : nat := 32.
Definition IDR_MASK : Z := Z.shiftl 1 IDR_BITS - 1.
Definition MAX_ID_SHIFT : Z := 31.
Definition MAX_ID_BIT : Z := Z.shiftl 1 MAX_ID_SHIFT.
Definition MAX_ID_MASK : Z := MAX_ID_BIT - 1.
Definition MAX_LEVEL : Z := (MAX_ID_SHIFT + IDR_BITS - 1) / IDR_BITS.
Definition IDR_FREE_MAX : Z := MAX_LEVEL + MAX_LEVEL.

Definition set_bit (bit v : Z) : Z := v ||| Z.shiftl 1 bit.
Definition clear_bit (bit v : Z) : Z := Z.ldiff v (Z.shiftl 1 bit).
Definition test_bit (bit v : Z) : bool := v &? Z.shiftl 1 bit.

Inductive idr_layer : Type :=
  | mk_layer (bitmap : Z) (ary : list slot) (count : Z)
with slot : Type :=
  | Null
  | Ptr (v : Z)
  | Layer (p : idr_layer).

Definition bitmap (p : idr_layer) : Z := let 'mk_layer b _ _ := p in b.
Definition ary (p : idr_layer) : list slot := let 'mk_layer _ a _ := p in a.
Definition count (p : idr_layer) : Z := let 'mk_layer _ _ c := p in c.

Record idr_context : Type := mk_idr {
  top : option idr_layer;
  id_free : list idr_layer;
  layers : Z;
  id_free_cnt : Z
}.

Definition set_slot (p : idr_layer) (m : Z) (s : slot) : idr_layer :=
  mk_layer (bitmap p) (<[Z.to_nat m := s]> (ary p)) (count p).
Definition set_bitmap (p : idr_layer) (v : Z) : idr_layer := mk_layer v (ary p) (count p).
Definition set_count (p : idr_layer) (v : Z) : idr_layer := mk_layer (bitmap p) (ary p) v.

Definition slot_at (p : idr_layer) (m : Z) : slot := default Null (ary p !! Z.to_nat m).

(** A layer fresh from [talloc_zero]. *)
Definition new_layer : idr_layer := mk_layer 0 (replicate IDR_SIZE Null) 0.

(** ** Spare layers *)

Definition alloc_layer (idp : idr_context) : option (idr_layer * idr_context) :=
  match id_free idp with
  | [] => None
  | p :: id_free =>
      Some (set_slot p 0 Null, mk_idr (top idp) id_free (layers idp) (id_free_cnt idp - 1))
  end.

Definition free_layer (idp : idr_context) (p : idr_layer) : idr_context :=
  mk_idr (top idp) (p :: id_free idp) (layers idp) (id_free_cnt idp + 1).

(** The loop takes at most [IDR_FREE_MAX] rounds. *)
Fixpoint pre_get_loop (fuel : nat) (idp : idr_context) : idr_context :=
  match fuel with
  | O => idp
  | S fuel => if id_free_cnt idp <? IDR_FREE_MAX then pre_get_loop fuel (free_layer idp new_layer)
              else idp
  end.
Definition idr_pre_get (idp : idr_context) : idr_context :=
  pre_get_loop (Z.to_nat IDR_FREE_MAX) idp.

(** The first [n] from here on whose bit is set in [bm], or [maxid]; [k] is
    [maxid - n]. *)
Fixpoint find_next_bit (bm : Z) (k : nat) (n : Z) : Z :=
  match k with
  | O => n
  | S k => if negb (test_bit n bm) then find_next_bit bm k (n + 1) else n
  end.

(** ** Allocation *)

(** The layers above a position, the nearest first. *)
Definition path : Type := list (idr_layer * Z).

Definition set_top (idp : idr_context) (p : option idr_layer) : idr_context :=
  mk_idr p (id_free idp) (layers idp) (id_free_cnt idp).

(** The tree with [p] in its place. *)
Fixpoint plug (p : idr_layer) (pa : path) : idr_layer :=
  match pa with
  | [] => p
  | (q, m) :: pa => plug (set_slot q m (Layer p)) pa
  end.

(** The loop that marks full layers in the layers above; [n] is the id shifted
    to the level of [p]. *)
Fixpoint mark_up (p : idr_layer) (n : Z) (pa : path) : idr_layer :=
  if bitmap p =? IDR_FULL then
    match pa with
    | [] => p
    | (q, m) :: pa =>
        let n := Z.shiftr n IDR_BITS in
        let q := set_slot q m (Layer p) in
        mark_up (set_bitmap q (set_bit (Z.land n IDR_MASK) (bitmap q))) n pa
    end
  else plug p pa.

Definition id_digit (id l : Z) : Z := Z.land (Z.shiftr id (IDR_BITS * l)) IDR_MASK.

(** The main loop of [sub_alloc]: the value returned, [*starting_id], and the
    context. *)
Fixpoint sub_alloc_loop (fuel : nat) (idp : idr_context) (ptr : Z) (p : idr_layer) (l id : Z)
    (starting_id : Z) (pa : path) : option (Z * Z * idr_context) :=
  match fuel with
  | O => None
  | S fuel =>
      let n := id_digit id l in
      let m := find_next_bit (u32 (Z.lnot (bitmap p))) (IDR_SIZE - Z.to_nat n) n in
      if m =? Z.of_nat IDR_SIZE then
        let l := l + 1 in
        if 32 <=? IDR_BITS * l then None
        else
          let id := s32 ((id ||| (Z.shiftl 1 (IDR_BITS * l) - 1)) + 1) in
          match pa with
          | [] => Some (-2, id, set_top idp (Some p))
          | (q, i) :: pa => sub_alloc_loop fuel idp ptr (set_slot q i (Layer p)) l id starting_id pa
          end
      else
        let sh := IDR_BITS * l in
        let id := if negb (m =? n) then s32 (Z.shiftl (Z.lxor (Z.lxor (Z.shiftr id sh) n) m) sh)
                  else id in
        if (MAX_ID_BIT <=? id) || (id <? 0) then Some (-1, starting_id, set_top idp (Some (plug p pa)))
        else if l =? 0 then
          let p := set_slot p m (Ptr ptr) in
          let p := set_bitmap p (set_bit m (bitmap p)) in
          let p := set_count p (count p + 1) in
          Some (id, starting_id, set_top idp (Some (mark_up p id pa)))
        else
          match slot_at p m with
          | Layer c => sub_alloc_loop fuel idp ptr c (l - 1) id starting_id ((p, m) :: pa)
          | Null =>
              match alloc_layer idp with
              | None => Some (-1, starting_id, set_top idp (Some (plug p pa)))
              | Some (c, idp) =>
                  let p := set_slot p m (Layer c) in
                  let p := set_count p (count p + 1) in
                  sub_alloc_loop fuel idp ptr c (l - 1) id starting_id ((p, m) :: pa)
              end
          | Ptr _ => None
          end
  end.

(** [pa[layers]] is written; the loop climbs and descends once per level. *)
Definition sub_alloc (idp : idr_context) (ptr : Z) (p : idr_layer) (starting_id : Z)
    : option (Z * Z * idr_context) :=
  if MAX_LEVEL <=? layers idp then None
  else sub_alloc_loop 100 idp ptr p (layers idp - 1) starting_id starting_id [].

(** The loop that adds layers; a failed allocation tears the new layers down
    again. *)
Fixpoint tear_down (fuel : nat) (idp : idr_context) (p : idr_layer) (built : Z) : idr_context :=
  match fuel with
  | O => idp
  | S fuel =>
      if built =? 0 then idp
      else
        match slot_at p 0 with
        | Layer q =>
            tear_down fuel (free_layer idp (mk_layer 0 (ary (set_slot p 0 Null)) 0)) q (built - 1)
        | _ => free_layer idp (mk_layer 0 (ary (set_slot p 0 Null)) 0)
        end
  end.

(** [built] counts the layers above [idp->top]. *)
Fixpoint add_layers (fuel : nat) (idp : idr_context) (p : idr_layer) (layers id built : Z)
    : (idr_layer * Z * idr_context) + idr_context :=
  match fuel with
  | O => inl (p, layers, idp)
  | S fuel =>
      if (layers <? MAX_LEVEL) && (Z.shiftl 1 (layers * IDR_BITS) <=? id) then
        let layers := layers + 1 in
        if count p =? 0 then add_layers fuel idp p layers id built
        else
          match alloc_layer idp with
          | None => inr (tear_down (S (Z.to_nat built)) idp p built)
          | Some (new, idp) =>
              let new := set_count (set_slot new 0 (Layer p)) 1 in
              let new := if bitmap p =? IDR_FULL then set_bitmap new (set_bit 0 (bitmap new)) else new in
              add_layers fuel idp new layers id (built + 1)
          end
      else inl (p, layers, idp)
  end.

(** From the label [build_up]; every round but the last adds a layer. *)
Fixpoint build_up (fuel : nat) (idp : idr_context) (ptr id : Z) : option (Z * idr_context) :=
  match fuel with
  | O => None
  | S fuel =>
      let start := match top idp with
                   | Some p => Some (p, layers idp, 0, idp)
                   | None => match alloc_layer idp with
                             | None => None
                             | Some (p, idp) => Some (p, 1, 1, idp)
                             end
                   end in
      match start with
      | None => Some (-1, idp)
      | Some (p, layers, built, idp) =>
          match add_layers (Z.to_nat MAX_LEVEL) idp p layers id built with
          | inr idp => Some (-1, idp)
          | inl (p, layers, idp) =>
              let idp := mk_idr (Some p) (id_free idp) layers (id_free_cnt idp) in
              match sub_alloc idp ptr p id with
              | None => None
              | Some (v, id, idp) => if v =? -2 then build_up fuel idp ptr id else Some (v, idp)
              end
          end
      end
  end.

Definition idr_get_new_above_int (idp : idr_context) (ptr starting_id : Z)
    : option (Z * idr_context) := build_up 9 (idr_pre_get idp) ptr starting_id.

(** ** Removal and search *)

(** Below the layer [p] at the level of [shift]: whether the id was there, the
    layer (its count already lowered when it was) and the layers freed. *)
Fixpoint remove_below (fuel : nat) (p : idr_layer) (shift id : Z) (freed : list idr_layer)
    : bool * idr_layer * list idr_layer :=
  match fuel with
  | O => (false, p, freed)
  | S fuel =>
      let n := Z.land (Z.shiftr id shift) IDR_MASK in
      if 0 <? shift then
        let p := set_bitmap p (clear_bit n (bitmap p)) in
        match slot_at p n with
        | Layer c =>
            let '(found, c, freed) := remove_below fuel c (shift - IDR_BITS) id freed in
            if found then
              if count c =? 0
              then (true, set_count (set_slot p n Null) (count p - 1), c :: freed)
              else (true, set_slot p n (Layer c), freed)
            else (false, set_slot p n (Layer c), freed)
        | _ => (false, p, freed)
        end
      else
        let n := Z.land id IDR_MASK in
        if test_bit n (bitmap p) then
          let p := set_bitmap p (clear_bit n (bitmap p)) in
          let p := set_slot p n Null in
          (true, set_count p (count p - 1), freed)
        else (false, p, freed)
  end.

Definition sub_remove (idp : idr_context) (shift id : Z) : option (Z * idr_context) :=
  if MAX_LEVEL <=? layers idp then None
  else
    match top idp with
    | None => Some (-1, idp)
    | Some p =>
        let '(found, p, freed) := remove_below 8 p shift id [] in
        let idp := mk_idr (Some p) (freed ++ id_free idp) (layers idp)
                     (id_free_cnt idp + Z.of_nat (length freed)) in
        if found then
          if count p =? 0
          then let idp := free_layer idp p in
               Some (0, mk_idr None (id_free idp) 0 (id_free_cnt idp))
          else Some (0, idp)
        else Some (-1, idp)
    end.

(** The loop of [_idr_find]; [k] is [n / IDR_BITS]. *)
Fixpoint find_loop (k : nat) (s : slot) (id : Z) : option Z :=
  match k, s with
  | _, Null => Some 0
  | O, Ptr v => Some v
  | S k, Layer p => find_loop k (slot_at p (id_digit id (Z.of_nat k))) id
  | _, _ => None
  end.

Definition _idr_find (idp : idr_context) (id : Z) : option Z :=
  let n := layers idp * IDR_BITS in
  if 32 <=? n + IDR_BITS then None
  else if negb (Z.shiftr (Z.land id MAX_ID_MASK) (n + IDR_BITS) =? 0) then Some 0
  else
    let id := Z.land id MAX_ID_MASK in
    find_loop (Z.to_nat (layers idp)) (match top idp with Some p => Layer p | None => Null end) id.

(** The loop that gives spare layers back. *)
Fixpoint trim_free (fuel : nat) (idp : idr_context) : idr_context :=
  match fuel with
  | O => idp
  | S fuel =>
      if IDR_FREE_MAX <=? id_free_cnt idp then
        match alloc_layer idp with
        | Some (_, idp) => trim_free fuel idp
        | None => idp
        end
      else idp
  end.

Definition _idr_remove (idp : idr_context) (id : Z) : option (Z * idr_context) :=
  let id := Z.land id MAX_ID_MASK in
  match sub_remove idp ((layers idp - 1) * IDR_BITS) id with
  | None => None
  | Some (ret, idp) =>
      if ret =? -1 then Some (-1, idp)
      else
        let idp :=
          match top idp with
          | Some p =>
              match slot_at p 0 with
              | Layer q =>
                  if (count p =? 1) && (1 <? layers idp)
                  then let idp := free_layer idp (mk_layer 0 (ary p) 0) in
                       mk_idr (Some q) (id_free idp) (layers idp - 1) (id_free_cnt idp)
                  else idp
              | _ => idp
              end
          | None => idp
          end in
        Some (0, trim_free (length (id_free idp)) idp)
  end.

(** ** The public interface *)

Definition idr_init : idr_context := mk_idr None [] 0 0.

Definition idr_remove (idp : idr_context) (id : Z) : option (Z * idr_context) := _idr_remove idp id.
Definition idr_find (idp : idr_context) (id : Z) : option Z := _idr_find idp id.

Definition idr_get_new_above (idp : idr_context) (ptr starting_id limit : Z)
    : option (Z * idr_context) :=
  match idr_get_new_above_int idp ptr starting_id with
  | None => None
  | Some (ret, idp) =>
      if limit <? ret then
        match idr_remove idp ret with
        | None => None
        | Some (_, idp) => Some (-1, idp)
        end
      else Some (ret, idp)
  end.

Definition idr_get_new (idp : idr_context) (ptr limit : Z) : option (Z * idr_context) :=
  idr_get_new_above idp ptr 0 limit.

(** [r1] and [r2] are what [generate_random] returns. *)
Definition idr_get_new_random (idp : idr_context) (ptr limit r1 r2 : Z) : option (Z * idr_context) :=
  match idr_get_new_above idp ptr (1 + r1 mod limit) limit with
  | None => None
  | Some (id, idp) =>
      if id =? -1 then idr_get_new_above idp ptr (1 + r2 mod Z.quot limit 2) limit
      else Some (id, idp)
  end.

(** ** Digits

    A layer at level [l] tells ids apart by their digit [l] in base 32. *)

Definition digit (l : nat) (id : Z) : Z := id / 32 ^ Z.of_nat l mod 32.

Lemma pow32 l : Z.shiftl 1 (IDR_BITS * Z.of_nat l) = 32 ^ Z.of_nat l.
Proof.
  rewrite Z.shiftl_mul_pow2 by (unfold IDR_BITS; lia). unfold IDR_BITS.
  rewrite Z.pow_mul_r by lia. change (2 ^ 5) with 32. lia.
Qed.

Lemma pow32_pos l : 0 < 32 ^ Z.of_nat l.
Proof. apply Z.pow_pos_nonneg; lia. Qed.

Lemma pow32_S l : 32 ^ Z.of_nat (S l) = 32 * 32 ^ Z.of_nat l.
Proof. rewrite Nat2Z.inj_succ, Z.pow_succ_r; lia. Qed.

Lemma pow32_le a b : (a <= b)%nat -> 32 ^ Z.of_nat a <= 32 ^ Z.of_nat b.
Proof. intros. apply Z.pow_le_mono_r; lia. Qed.

Lemma shiftr_div32 id l : Z.shiftr id (IDR_BITS * Z.of_nat l) = id / 32 ^ Z.of_nat l.
Proof.
  rewrite Z.shiftr_div_pow2 by (unfold IDR_BITS; lia).
  rewrite <- Z.shiftl_1_l, pow32. done.
Qed.

Lemma land_mask n : Z.land n IDR_MASK = n mod 32.
Proof. change IDR_MASK with (Z.ones 5). by rewrite Z.land_ones by lia. Qed.

Lemma id_digit_spec id l : id_digit id (Z.of_nat l) = digit l id.
Proof. unfold id_digit. by rewrite land_mask, shiftr_div32. Qed.

Lemma digit_range l id : 0 <= digit l id < 32.
Proof. apply Z.mod_pos_bound. lia. Qed.

(** An id within its block of level [S l]: the digit, and the rest. *)
Lemma block_split l id :
  id mod 32 ^ Z.of_nat (S l) = digit l id * 32 ^ Z.of_nat l + id mod 32 ^ Z.of_nat l.
Proof.
  rewrite pow32_S, (Z.mul_comm 32), Z.rem_mul_r; [unfold digit; lia | |lia].
  pose proof (pow32_pos l). lia.
Qed.

Lemma block_div l id : id / 32 ^ Z.of_nat l = 32 * (id / 32 ^ Z.of_nat (S l)) + digit l id.
Proof.
  rewrite pow32_S, (Z.mul_comm 32 (_ ^ _)).
  rewrite <- (Z.div_div id (32 ^ Z.of_nat l) 32) by (pose proof (pow32_pos l); lia).
  unfold digit. apply Z.div_mod. lia.
Qed.

Lemma same_block_S l i j :
  i / 32 ^ Z.of_nat l = j / 32 ^ Z.of_nat l <->
  i / 32 ^ Z.of_nat (S l) = j / 32 ^ Z.of_nat (S l) /\ digit l i = digit l j.
Proof.
  rewrite !(block_div l). pose proof (digit_range l i). pose proof (digit_range l j). lia.
Qed.

Lemma block_mono l i j : i <= j -> i / 32 ^ Z.of_nat l <= j / 32 ^ Z.of_nat l.
Proof. intros. apply Z.div_le_mono; [apply pow32_pos|done]. Qed.

Lemma block_between l i j k :
  i <= j -> j <= k -> i / 32 ^ Z.of_nat l = k / 32 ^ Z.of_nat l ->
  j / 32 ^ Z.of_nat l = k / 32 ^ Z.of_nat l.
Proof. intros H1 H2 H3. pose proof (block_mono l _ _ H1). pose proof (block_mono l _ _ H2). lia. Qed.

Lemma block_of_mult l q r : 0 <= r < 32 ^ Z.of_nat l -> (q * 32 ^ Z.of_nat l + r) / 32 ^ Z.of_nat l = q.
Proof.
  intros. rewrite Z.div_add_l by (pose proof (pow32_pos l); lia).
  rewrite Z.div_small; lia.
Qed.

Lemma low_S l i j :
  i mod 32 ^ Z.of_nat (S l) = j mod 32 ^ Z.of_nat (S l) <->
  digit l i = digit l j /\ i mod 32 ^ Z.of_nat l = j mod 32 ^ Z.of_nat l.
Proof.
  rewrite !block_split. split; [|intros [-> ->]; done].
  intros H. pose proof (pow32_pos l) as Hp.
  pose proof (Z.mod_pos_bound i _ Hp). pose proof (Z.mod_pos_bound j _ Hp).
  assert (digit l i = digit l j) as Hd by nia. rewrite Hd in H. split; [done|lia].
Qed.

Lemma digit_small l id : 0 <= id < 32 ^ Z.of_nat l -> digit l id = 0.
Proof. intros. unfold digit. rewrite Z.div_small; [done|lia]. Qed.

Lemma digit_mod l id : digit l (id mod 32 ^ Z.of_nat (S l)) = digit l id.
Proof.
  rewrite block_split. unfold digit.
  rewrite Z.div_add_l by (pose proof (pow32_pos l); lia).
  rewrite (Z.div_small (_ mod 32 ^ _)) by apply Z.mod_pos_bound, pow32_pos.
  rewrite Z.add_0_r, Z.mod_mod; lia.
Qed.

(** ** Bits *)

Lemma test_bit_spec m v : 0 <= m -> test_bit m v = Z.testbit v m.
Proof.
  intros Hm. unfold test_bit. rewrite Z.shiftl_1_l. unfold has_bits.
  destruct (Z.testbit v m) eqn:E.
  - apply negb_true_iff, Z.eqb_neq. intros Hz.
    assert (Z.testbit (Z.land v (2 ^ m)) m = true) as H
      by (rewrite Z.land_spec, E, Z.pow2_bits_true by done; done).
    by rewrite Hz, Z.bits_0 in H.
  - apply negb_false_iff, Z.eqb_eq, Z.bits_inj'. intros b Hb.
    rewrite Z.land_spec, Z.bits_0. destruct (Z.eq_dec b m) as [->|Hn]; [by rewrite E|].
    rewrite Z.pow2_bits_false by lia. apply andb_false_r.
Qed.

Lemma set_bit_spec m v b :
  0 <= m -> 0 <= b -> Z.testbit (set_bit m v) b = Z.testbit v b || (b =? m).
Proof.
  intros. unfold set_bit. rewrite Z.lor_spec, Z.shiftl_1_l. f_equal.
  destruct (Z.eqb_spec b m) as [->|]; [by apply Z.pow2_bits_true|].
  apply Z.pow2_bits_false. lia.
Qed.

Lemma clear_bit_spec m v b :
  0 <= m -> 0 <= b -> Z.testbit (clear_bit m v) b = Z.testbit v b && negb (b =? m).
Proof.
  intros. unfold clear_bit. rewrite Z.ldiff_spec, Z.shiftl_1_l. do 2 f_equal.
  destruct (Z.eqb_spec b m) as [->|]; [by apply Z.pow2_bits_true|].
  apply Z.pow2_bits_false. lia.
Qed.

(** A word of 32 bits: no bit from 32 on. *)
Definition word (v : Z) : Prop := 0 <= v < 2 ^ 32.

Lemma word_bits v : word v <-> 0 <= v /\ forall b, 32 <= b -> Z.testbit v b = false.
Proof.
  split.
  - intros [H1 H2]. split; [done|]. intros b Hb.
    destruct (Z.eq_dec v 0) as [->|]; [apply Z.bits_0|].
    apply Z.bits_above_log2; [done|]. assert (Z.log2 v < 32); [|lia].
    apply Z.log2_lt_pow2; lia.
  - intros [H1 H2]. split; [done|]. destruct (Z.eq_dec v 0) as [->|]; [done|].
    destruct (Z.lt_ge_cases (Z.log2 v) 32) as [Hl|Hl].
    + by apply Z.log2_lt_pow2; [lia|].
    + pose proof (Z.bit_log2 v ltac:(lia)) as Hb. by rewrite H2 in Hb.
Qed.

Lemma word_set_bit m v : 0 <= m < 32 -> word v -> word (set_bit m v).
Proof.
  intros Hm [H1 H2]%word_bits. apply word_bits. split.
  - apply Z.lor_nonneg. split; [done|]. rewrite Z.shiftl_nonneg. lia.
  - intros b Hb. rewrite set_bit_spec, H2 by lia. simpl. lia.
Qed.

Lemma word_clear_bit m v : 0 <= m < 32 -> word v -> word (clear_bit m v).
Proof.
  intros Hm [H1 H2]%word_bits. apply word_bits. split.
  - apply Z.ldiff_nonneg. by left.
  - intros b Hb. rewrite clear_bit_spec, H2 by lia. done.
Qed.

Lemma full_bits v :
  word v -> v = IDR_FULL <-> forall b, 0 <= b < 32 -> Z.testbit v b = true.
Proof.
  intros [H1 H2]%word_bits. change IDR_FULL with (Z.ones 32). split.
  - intros -> b Hb. rewrite Z.ones_spec_low; lia.
  - intros H. apply Z.bits_inj'. intros b Hb. destruct (Z.lt_ge_cases b 32).
    + rewrite H by lia. rewrite Z.ones_spec_low; lia.
    + rewrite H2 by lia. rewrite Z.ones_spec_high; lia.
Qed.

Lemma not_full_bit v : word v -> v <> IDR_FULL -> exists b, 0 <= b < 32 /\ Z.testbit v b = false.
Proof.
  intros Hw Hn. destruct (existsb (fun b => negb (Z.testbit v (Z.of_nat b))) (seq 0 32)) eqn:E.
  - apply existsb_exists in E as (b & Hb & Hx). apply in_seq in Hb.
    exists (Z.of_nat b). split; [lia|]. by apply negb_true_iff in Hx.
  - destruct Hn. apply full_bits; [done|]. intros b Hb.
    destruct (Z.testbit v b) eqn:Eb; [done|].
    enough (existsb (fun b => negb (Z.testbit v (Z.of_nat b))) (seq 0 32) = true) by congruence.
    apply existsb_exists. exists (Z.to_nat b). split; [apply in_seq; lia|].
    rewrite Z2Nat.id by lia. by rewrite Eb.
Qed.

Lemma lnot_bits v b : 0 <= b < 32 -> Z.testbit (u32 (Z.lnot v)) b = negb (Z.testbit v b).
Proof. intros. unfold u32. rewrite Z.mod_pow2_bits_low by lia. apply Z.lnot_spec. lia. Qed.

(** The search for a clear bit of the bitmap, from [n] on. *)
Lemma find_next_bit_spec v k n :
  0 <= n -> n + Z.of_nat k = 32 ->
  let m := find_next_bit (u32 (Z.lnot v)) k n in
  n <= m <= 32 /\ (forall b, n <= b < m -> Z.testbit v b = true) /\
  (m < 32 -> Z.testbit v m = false).
Proof.
  revert n. induction k as [|k IH]; intros n Hn Hk; cbn [find_next_bit].
  - repeat split; [lia..|]. intros; lia.
  - rewrite test_bit_spec, lnot_bits, negb_involutive by lia.
    destruct (Z.testbit v n) eqn:E.
    + destruct (IH (n + 1)) as (H1 & H2 & H3); [lia..|].
      repeat split; [lia..| |done]. intros b Hb.
      destruct (Z.eq_dec b n) as [->|]; [done|]. apply H2. lia.
    + repeat split; [lia..| |done]. intros; lia.
Qed.

(** ** Well-formed layers *)

Definition is_used (s : slot) : bool := match s with Null => false | _ => true end.
Definition used (l : list slot) : Z := Z.of_nat (length (List.filter is_used l)).

(** What the bit and the content of a slot say of each other. *)
Definition slot_ok (leaf : Prop) (child : idr_layer -> Prop) (bit : bool) (s : slot) : Prop :=
  match s with
  | Null => bit = false
  | Ptr v => leaf /\ v <> 0 /\ bit = true
  | Layer c => child c /\ 0 < count c /\ bit = (bitmap c =? IDR_FULL)
  end.

Fixpoint wf (l : nat) (p : idr_layer) : Prop :=
  length (ary p) = IDR_SIZE /\ word (bitmap p) /\ count p = used (ary p) /\
  forall m, 0 <= m < 32 ->
    slot_ok (l = O) (match l with O => fun _ => False | S l => wf l end)
      (Z.testbit (bitmap p) m) (slot_at p m).

Definition below (l : nat) : idr_layer -> Prop :=
  match l with O => fun _ => False | S l => wf l end.

(** The pointer stored below [p] for an id, 0 when there is none. *)
Fixpoint get (l : nat) (p : idr_layer) (id : Z) : Z :=
  match slot_at p (digit l id), l with
  | Ptr v, _ => v
  | Layer c, S l => get l c id
  | _, _ => 0
  end.

Lemma wf_eq l p :
  wf l p <-> length (ary p) = IDR_SIZE /\ word (bitmap p) /\ count p = used (ary p) /\
    forall m, 0 <= m < 32 -> slot_ok (l = O) (below l) (Z.testbit (bitmap p) m) (slot_at p m).
Proof. by destruct l. Qed.

Lemma wf_slot l p m :
  wf l p -> 0 <= m < 32 -> slot_ok (l = O) (below l) (Z.testbit (bitmap p) m) (slot_at p m).
Proof. intros (_ & _ & _ & H)%wf_eq. apply H. Qed.

Lemma wf_word l p : wf l p -> word (bitmap p).
Proof. intros (_ & H & _)%wf_eq. done. Qed.

Lemma used_insert l m s old :
  l !! m = Some old ->
  used (<[m := s]> l) = used l - Z.b2z (is_used old) + Z.b2z (is_used s).
Proof.
  unfold used. revert m. induction l as [|x l IH]; intros m H; [done|].
  destruct m as [|m]; simpl in *.
  - injection H as ->. destruct (is_used old), (is_used s); simpl; lia.
  - specialize (IH m H). destruct (is_used x); simpl; lia.
Qed.

Lemma used_zero l : used l = 0 -> forall m s, l !! m = Some s -> s = Null.
Proof.
  unfold used. induction l as [|x l IH]; intros H m s Hm; [done|].
  simpl in H. destruct (is_used x) eqn:E; [simpl in H; lia|].
  destruct m; simpl in Hm; [injection Hm as <-; by destruct x|by eapply IH].
Qed.

Lemma slot_lookup p m : length (ary p) = IDR_SIZE -> 0 <= m < 32 ->
  ary p !! Z.to_nat m = Some (slot_at p m).
Proof.
  intros Hl Hm. unfold slot_at.
  destruct (lookup_lt_is_Some_2 (ary p) (Z.to_nat m)) as [s Hs]; [rewrite Hl; unfold IDR_SIZE; lia|].
  by rewrite Hs.
Qed.

(** A layer that differs from a well-formed one in one slot. *)
Lemma slot_at_update b a c m s k p :
  ary p = a -> length a = IDR_SIZE -> 0 <= m < 32 -> 0 <= k ->
  slot_at (mk_layer b (<[Z.to_nat m := s]> a) c) k = if k =? m then s else slot_at p k.
Proof.
  intros <- Hl Hm Hk. unfold slot_at. simpl.
  destruct (Z.eqb_spec k m) as [->|Hn].
  - rewrite list_lookup_insert_eq; [done|]. rewrite Hl. unfold IDR_SIZE. lia.
  - by rewrite list_lookup_insert_ne by lia.
Qed.

Lemma wf_update l p b c m s :
  wf l p -> 0 <= m < 32 -> word b ->
  (forall k, 0 <= k < 32 -> k <> m -> Z.testbit b k = Z.testbit (bitmap p) k) ->
  c = count p - Z.b2z (is_used (slot_at p m)) + Z.b2z (is_used s) ->
  slot_ok (l = O) (below l) (Z.testbit b m) s ->
  wf l (mk_layer b (<[Z.to_nat m := s]> (ary p)) c).
Proof.
  intros (Hl & Hw & Hc & Hs)%wf_eq Hm Hb Hbits -> Hok. apply wf_eq.
  repeat split; simpl.
  - by rewrite length_insert.
  - apply Hb.
  - apply Hb.
  - rewrite (used_insert _ _ _ (slot_at p m)); [lia|]. by apply slot_lookup.
  - intros k Hk. rewrite (slot_at_update _ _ _ _ _ _ p) by (done || lia).
    destruct (Z.eqb_spec k m) as [->|Hn]; [done|]. rewrite Hbits by done. by apply Hs.
Qed.

Lemma new_layer_slot m : slot_at new_layer m = Null.
Proof.
  unfold slot_at, new_layer. cbn [ary]. destruct (_ !! _) as [s|] eqn:E; [|done].
  by apply lookup_replicate in E as [-> _].
Qed.

Lemma new_layer_wf l : wf l new_layer.
Proof.
  apply wf_eq. repeat split; try done. intros m Hm. rewrite new_layer_slot. cbn.
  apply Z.bits_0.
Qed.

Lemma new_layer_get l id : get l new_layer id = 0.
Proof. destruct l; cbn [get]; by rewrite new_layer_slot. Qed.

(** A layer without used slots is as good as new. *)
Lemma wf_empty l p : wf l p -> count p = 0 -> p = new_layer.
Proof.
  intros (Hl & [Hw1 Hw2]%word_bits & Hc & Hs)%wf_eq H0. rewrite H0 in Hc. symmetry in Hc.
  pose proof (used_zero _ Hc) as Hz. destruct p as [b a c]. simpl in *. subst c.
  assert (b = 0) as ->.
  { apply eq_zero_testbit. intros k Hk. destruct (Z.lt_ge_cases k 32); [|by apply Hw2].
    specialize (Hs k ltac:(lia)). unfold slot_at in Hs. simpl in Hs.
    destruct (a !! Z.to_nat k) as [s|] eqn:E; [|done].
    apply Hz in E as ->. done. }
  unfold new_layer. f_equal. apply list_eq_same_length with IDR_SIZE; [by rewrite length_replicate|done|].
  intros i x y Hi Hx Hy. apply lookup_replicate in Hy as [-> _]. by eapply Hz.
Qed.

(** ** Contents *)

Lemma get_low l p i j : i mod 32 ^ Z.of_nat (S l) = j mod 32 ^ Z.of_nat (S l) ->
  get l p i = get l p j.
Proof.
  revert p. induction l as [|l IH]; intros p H; apply low_S in H as [Hd Hl]; cbn [get];
    rewrite Hd; [done|]. destruct (slot_at p _); try done. by apply IH.
Qed.

Lemma get_mod l p id : get l p (id mod 32 ^ Z.of_nat (S l)) = get l p id.
Proof. apply get_low, Z.mod_mod. pose proof (pow32_pos (S l)). lia. Qed.

(** An id of slot [m] with given lower digits. *)
Lemma get_slot l p m c id : 0 <= m < 32 -> slot_at p m = Layer c ->
  get (S l) p (m * 32 ^ Z.of_nat (S l) + id mod 32 ^ Z.of_nat (S l)) = get l c id.
Proof.
  intros Hm Hs. pose proof (pow32_pos (S l)) as Hp.
  pose proof (Z.mod_pos_bound id _ Hp) as Hr.
  cbn [get]. unfold digit at 1. rewrite block_of_mult by lia.
  rewrite (Z.mod_small m 32), Hs by lia. apply get_low.
  rewrite Z.add_comm, Z.mod_add, Z.mod_mod by lia. done.
Qed.

(** A bit is set when every id below it is taken, a word is full when every id
    of the layer is. *)
Lemma wf_full l p : wf l p ->
  (forall m, 0 <= m < 32 ->
     Z.testbit (bitmap p) m = true <-> forall id, digit l id = m -> get l p id <> 0) /\
  (bitmap p = IDR_FULL <-> forall id, get l p id <> 0).
Proof.
  revert p. induction l as [|l IH]; intros p Hp.
  all: match goal with |- ?A /\ _ => assert A as Hbit end.
  1, 3: intros m Hm; pose proof (wf_slot _ _ _ Hp Hm) as Hs; cbn [get];
    destruct (slot_at p m) as [|v|c] eqn:E; simpl in Hs.
  - rewrite Hs. split; [done|]. intros H. exfalso. apply (H m).
    + unfold digit. rewrite Z.div_1_r. apply Z.mod_small. lia.
    + unfold digit. rewrite Z.div_1_r, Z.mod_small, E by lia. done.
  - destruct Hs as (_ & Hv & ->). split; [|done]. intros _ id Hd. by rewrite Hd, E.
  - destruct Hs as ([] & _).
  - rewrite Hs. split; [done|]. intros H. exfalso.
    apply (H (m * 32 ^ Z.of_nat (S l) + 0)); unfold digit; rewrite block_of_mult;
      rewrite ?(Z.mod_small m 32), ?E by lia; try done; pose proof (pow32_pos (S l)); lia.
  - destruct Hs as ([=] & _).
  - destruct Hs as (Hc & _ & ->). destruct (IH c Hc) as [_ Hf]. rewrite Z.eqb_eq, Hf.
    split.
    + intros H id Hd. rewrite Hd, E. apply H.
    + intros H id. pose proof (get_slot l p m c id Hm E) as Hg.
      pose proof (pow32_pos (S l)) as Hp32. pose proof (Z.mod_pos_bound id _ Hp32).
      rewrite <- Hg. cbn [get]. apply H. unfold digit.
      rewrite block_of_mult by lia. rewrite Z.mod_small; lia.
  - split; [exact Hbit|]. rewrite full_bits by apply (wf_word _ _ Hp). split.
    + intros H id. by eapply Hbit; [apply (digit_range 0 id) | apply H, digit_range |].
    + intros H b Hb. apply Hbit; [done|]. intros id _. apply H.
  - split; [exact Hbit|]. rewrite full_bits by apply (wf_word _ _ Hp). split.
    + intros H id. by eapply Hbit; [apply (digit_range (S l) id) | apply H, digit_range |].
    + intros H b Hb. apply Hbit; [done|]. intros id _. apply H.
Qed.

Lemma free_bit l p id : wf l p -> get l p id = 0 -> Z.testbit (bitmap p) (digit l id) = false.
Proof.
  intros Hp Hg. apply not_true_iff_false. intros Hb.
  by eapply (proj1 (proj1 (wf_full l p Hp) _ (digit_range l id))) in Hb.
Qed.

Lemma free_not_full l p id : wf l p -> get l p id = 0 -> (bitmap p =? IDR_FULL) = false.
Proof.
  intros Hp Hg. apply Z.eqb_neq. intros Hb. by apply (proj1 (proj2 (wf_full l p Hp)) Hb id).
Qed.

(** ** Planting a pointer

    [put] plants a pointer where it belongs: what the descent and the marking
    of full layers do together. *)

Definition attach (q : idr_layer) (m : Z) (c : idr_layer) : idr_layer :=
  let q := set_slot q m (Layer c) in
  if bitmap c =? IDR_FULL then set_bitmap q (set_bit m (bitmap q)) else q.

Definition plant (p : idr_layer) (m ptr : Z) : idr_layer :=
  let p := set_slot p m (Ptr ptr) in
  let p := set_bitmap p (set_bit m (bitmap p)) in
  set_count p (count p + 1).

Fixpoint put (l : nat) (p : idr_layer) (id ptr : Z) : idr_layer :=
  let m := digit l id in
  match l with
  | O => plant p m ptr
  | S l =>
      match slot_at p m with
      | Layer c => attach p m (put l c id ptr)
      | _ => attach (set_count p (count p + 1)) m (put l new_layer id ptr)
      end
  end.

Lemma attach_wf l p m c n :
  wf (S l) p -> 0 <= m < 32 -> Z.testbit (bitmap p) m = false -> wf l c -> 0 < count c ->
  n = count p - Z.b2z (is_used (slot_at p m)) + 1 ->
  wf (S l) (attach (set_count p n) m c).
Proof.
  intros Hp Hm Hb Hc Hn ->. pose proof (wf_word _ _ Hp). unfold attach. cbn [bitmap set_slot set_count].
  assert (forall k, 0 <= k < 32 -> k <> m ->
            Z.testbit (set_bit m (bitmap p)) k = Z.testbit (bitmap p) k) as Hk.
  { intros k Hk Hne. rewrite set_bit_spec by lia.
    replace (k =? m) with false by lia. apply orb_false_r. }
  destruct (bitmap c =? IDR_FULL) eqn:E; apply (wf_update (S l) p); try done; cbn [is_used Z.b2z].
  - by apply word_set_bit.
  - split; [done|]. split; [done|]. rewrite set_bit_spec, E, Z.eqb_refl by lia. apply orb_true_r.
  - split; [done|]. split; [done|]. by rewrite E.
Qed.

Lemma attach_slot q m c k : length (ary q) = IDR_SIZE -> 0 <= m < 32 -> 0 <= k ->
  slot_at (attach q m c) k = if k =? m then Layer c else slot_at q k.
Proof.
  intros. unfold attach. destruct (bitmap c =? IDR_FULL); unfold set_bitmap, set_slot;
    cbn [ary bitmap count]; rewrite (slot_at_update _ _ _ _ _ _ q); done.
Qed.

Lemma attach_count q m c : count (attach q m c) = count q.
Proof. unfold attach. by destruct (bitmap c =? IDR_FULL). Qed.

Lemma set_count_id p : set_count p (count p) = p.
Proof. by destruct p. Qed.

Lemma used_pos l m s : l !! m = Some s -> is_used s = true -> 0 < used l.
Proof.
  intros Hm Hs. assert (0 <= used l) by (unfold used; lia).
  destruct (Z.eq_dec (used l) 0) as [H0|]; [|lia].
  by rewrite (used_zero _ H0 m s Hm) in Hs.
Qed.

Lemma slot_count_pos l p m : wf l p -> 0 <= m < 32 -> is_used (slot_at p m) = true -> 0 < count p.
Proof.
  intros (Hl & _ & -> & _)%wf_eq Hm Hs. eapply used_pos; [|exact Hs]. by apply slot_lookup.
Qed.

(** Whether two ids share all their digits up to [l]. *)
Definition same_low (l : nat) (i j : Z) : bool :=
  i mod 32 ^ Z.of_nat (S l) =? j mod 32 ^ Z.of_nat (S l).

Lemma same_low_S l i j :
  same_low (S l) i j = (digit (S l) i =? digit (S l) j) && same_low l i j.
Proof.
  unfold same_low. apply eq_true_iff_eq.
  rewrite andb_true_iff, !Z.eqb_eq. apply low_S.
Qed.

Lemma same_low_O i j : same_low 0 i j = (digit 0 i =? digit 0 j).
Proof.
  unfold same_low. apply eq_true_iff_eq. rewrite !Z.eqb_eq, low_S.
  change (32 ^ Z.of_nat 0) with 1. rewrite !Z.mod_1_r. tauto.
Qed.

Lemma get_attach l p q m c j :
  length (ary p) = IDR_SIZE -> ary q = ary p -> 0 <= m < 32 ->
  get (S l) (attach q m c) j = if digit (S l) j =? m then get l c j else get (S l) p j.
Proof.
  intros Hl Hq Hm. cbn [get]. pose proof (digit_range (S l) j).
  rewrite attach_slot by (rewrite ?Hq; done || lia).
  destruct (Z.eqb_spec (digit (S l) j) m); [done|]. unfold slot_at. by rewrite Hq.
Qed.

Lemma put_spec l p id ptr :
  wf l p -> get l p id = 0 -> ptr <> 0 ->
  wf l (put l p id ptr) /\ 0 < count (put l p id ptr) /\
  forall j, get l (put l p id ptr) j = if same_low l j id then ptr else get l p j.
Proof.
  intros Hp Hg Hptr. revert p Hp Hg. induction l as [|l IH]; intros p Hp Hg.
  all: pose proof (free_bit _ _ _ Hp Hg) as Hb; pose proof (digit_range O id) as Hm.
  all: pose proof (proj1 (wf_eq _ p) Hp) as (Hl & Hw & Hc & _).
  - cbn [put]. set (m := digit 0 id) in *. pose proof (wf_slot _ _ _ Hp Hm) as Hs.
    assert (slot_at p m = Null) as E.
    { destruct (slot_at p m); cbn in Hs; [done|destruct Hs as (_ & _ & ?); congruence|by destruct Hs]. }
    split; [|split].
    + unfold plant, set_count, set_bitmap, set_slot. cbn [ary bitmap count]. apply (wf_update 0 p); try done.
      * by apply word_set_bit.
      * intros k Hk Hne. rewrite set_bit_spec by lia.
        replace (k =? m) with false by lia. apply orb_false_r.
      * rewrite E. cbn. lia.
      * split; [done|]. split; [done|]. rewrite set_bit_spec, Z.eqb_refl by lia. apply orb_true_r.
    + cbn. rewrite Hc. unfold used. lia.
    + intros j. unfold plant, set_count, set_bitmap, set_slot. cbn [get ary bitmap count]. pose proof (digit_range O j).
      rewrite (slot_at_update _ _ _ _ _ _ p) by (done || lia).
      rewrite same_low_O. fold m. by destruct (digit 0 j =? m).
  - clear Hm. pose proof (digit_range (S l) id) as Hm. cbn [put]. set (m := digit (S l) id) in *.
    pose proof (wf_slot _ _ _ Hp Hm) as Hs.
    destruct (slot_at p m) as [|v|c] eqn:E; cbn [slot_ok] in Hs.
    + destruct (IH new_layer (new_layer_wf l) (new_layer_get l id)) as (Hw' & Hn' & Hg').
      split; [|split].
      * apply attach_wf; try done. rewrite E. cbn. lia.
      * rewrite attach_count. cbn. rewrite Hc. unfold used. lia.
      * intros j. rewrite (get_attach _ p), Hg', same_low_S, new_layer_get by done. fold m.
        destruct (Z.eqb_spec (digit (S l) j) m) as [Hd|]; [|done].
        cbn [andb get]. by rewrite Hd, E.
    + destruct Hs as ([=] & _).
    + destruct Hs as (Hwc & Hnc & Hbc). cbn [get] in Hg. fold m in Hg. rewrite E in Hg.
      destruct (IH c Hwc Hg) as (Hw' & Hn' & Hg').
      split; [|split].
      * rewrite <- (set_count_id p). apply attach_wf; try done. rewrite E. cbn. lia.
      * rewrite attach_count. eapply slot_count_pos; [done|exact Hm|]. by rewrite E.
      * intros j. rewrite (get_attach _ p), Hg', same_low_S by done. fold m.
        destruct (Z.eqb_spec (digit (S l) j) m) as [Hd|]; [|done].
        cbn [andb get]. by rewrite Hd, E.
Qed.

(** Marking and plugging climb one layer at a time. *)
Lemma mark_up_cons p n q m pa :
  m = Z.land (Z.shiftr n IDR_BITS) IDR_MASK -> Z.testbit (bitmap q) m = false ->
  mark_up p n ((q, m) :: pa) = mark_up (attach q m p) (Z.shiftr n IDR_BITS) pa.
Proof.
  intros Hm Hb. cbn [mark_up]. unfold attach.
  destruct (bitmap p =? IDR_FULL); [by rewrite <- Hm|].
  assert ((bitmap q =? IDR_FULL) = false) as E.
  { apply Z.eqb_neq. intros E. rewrite E in Hb. rewrite land_mask in Hm.
    change IDR_FULL with (Z.ones 32) in Hb. rewrite Z.ones_spec_low in Hb; [done|].
    subst m. apply Z.mod_pos_bound. lia. }
  destruct pa as [|[r k] pa]; cbn [mark_up bitmap set_slot]; by rewrite E.
Qed.
