(* ===== verification/IdTreeSpec.v ===== *)
(** * What an id tree promises

    The descent of [sub_alloc] ends at the first free id, when that lies in the
    block of 1024 ids of the start or the start is 0; layers are added until
    there is room; removal frees the layers that become empty.  Within its
    contract the tree is a finite map ([idr_refines_map]).  Outside of it the
    allocation can return an id that it did not mark ([idr_same_id_twice]).
    The theorems hold up to five layers ([_idr_find] shifts by 35 bits with six)
    and so for 2^25 ids. *)

From S2P Require Import Prelude IdTree.


(** ** Where the descent lands *)

Lemma land_block q n : 0 <= n < 32 -> Z.land (32 * q) n = 0.
Proof.
  intros Hn. apply Z.bits_inj'. intros b Hb. rewrite Z.land_spec, Z.bits_0.
  replace (32 * q) with (Z.shiftl q 5) by (rewrite Z.shiftl_mul_pow2; lia).
  rewrite Z.shiftl_spec by done. destruct (Z.lt_ge_cases b 5).
  - by rewrite Z.testbit_neg_r by lia.
  - rewrite <- (Z.mod_small n (2 ^ 5)) by lia. rewrite Z.mod_pow2_bits_high by lia.
    apply andb_false_r.
Qed.

(** The exchange of the last digit of a number. *)
Lemma lxor_digit x m : 0 <= m < 32 -> Z.lxor (Z.lxor x (x mod 32)) m = 32 * (x / 32) + m.
Proof.
  intros Hm. rewrite (Z.div_mod x 32) at 1 by lia.
  rewrite (Z.add_nocarry_lxor (32 * _)) by (apply land_block, Z.mod_pos_bound; lia).
  rewrite (Z.lxor_assoc (32 * _)), Z.lxor_nilpotent, Z.lxor_0_r. symmetry.
  apply Z.add_nocarry_lxor, land_block. done.
Qed.

Lemma lor_block id l :
  (id ||| (32 ^ Z.of_nat l - 1)) + 1 = (id / 32 ^ Z.of_nat l + 1) * 32 ^ Z.of_nat l.
Proof.
  rewrite <- pow32, Z.shiftl_1_l. set (k := IDR_BITS * Z.of_nat l).
  assert (0 <= k) by (unfold k, IDR_BITS; lia).
  enough (id ||| (2 ^ k - 1) = id / 2 ^ k * 2 ^ k + (2 ^ k - 1)) by lia.
  replace (2 ^ k - 1) with (Z.ones k) by (rewrite Z.ones_equiv; lia).
  rewrite <- Z.shiftr_div_pow2, <- Z.shiftl_mul_pow2 by done.
  assert (Z.land (Z.shiftl (Z.shiftr id k) k) (Z.ones k) = 0) as Hd.
  { apply Z.bits_inj'. intros b Hb. rewrite Z.land_spec, Z.bits_0.
    destruct (Z.lt_ge_cases b k).
    - by rewrite Z.shiftl_spec_low.
    - rewrite Z.ones_spec_high by lia. apply andb_false_r. }
  rewrite Z.add_nocarry_lxor, Z.lxor_lor by done.
  apply Z.bits_inj'. intros b Hb. rewrite !Z.lor_spec. destruct (Z.lt_ge_cases b k).
  - rewrite Z.ones_spec_low, !orb_true_r by lia. done.
  - rewrite Z.ones_spec_high, !orb_false_r by lia.
    rewrite Z.shiftl_spec_high, Z.shiftr_spec by lia. f_equal. lia.
Qed.

(** [i] is the first free id from [id] on in the block of [p]. *)
Definition least (l : nat) (p : idr_layer) (id i : Z) : Prop :=
  id <= i /\ id / 32 ^ Z.of_nat (S l) = i / 32 ^ Z.of_nat (S l) /\ get l p i = 0 /\
  forall j, id <= j < i -> get l p j <> 0.

(** Slot [m] has no room when all the ids of the slot in some block are taken. *)
Lemma bit_set_of_block l p m q :
  wf l p -> 0 <= m < 32 ->
  (forall r, 0 <= r < 32 ^ Z.of_nat l ->
     get l p (q * 32 ^ Z.of_nat (S l) + (m * 32 ^ Z.of_nat l + r)) <> 0) ->
  Z.testbit (bitmap p) m = true.
Proof.
  intros Hp Hm H. apply (proj1 (wf_full l p Hp) m Hm). intros id Hd.
  pose proof (H (id mod 32 ^ Z.of_nat l) ltac:(apply Z.mod_pos_bound, pow32_pos)) as Hr.
  erewrite get_low in Hr; [exact Hr|]. rewrite Z.add_comm, Z.mod_add by (pose proof (pow32_pos (S l)); lia).
  rewrite <- Hd, <- block_split. apply Z.mod_mod. pose proof (pow32_pos (S l)). lia.
Qed.

Lemma digit_mono l id i : id <= i -> id / 32 ^ Z.of_nat (S l) = i / 32 ^ Z.of_nat (S l) ->
  digit l id <= digit l i.
Proof.
  intros H1 H2. pose proof (block_mono l _ _ H1) as H. rewrite !(block_div l), H2 in H. lia.
Qed.

(** An id is its block, its digit and the rest. *)
Lemma id_split l id :
  id = id / 32 ^ Z.of_nat (S l) * 32 ^ Z.of_nat (S l)
       + (digit l id * 32 ^ Z.of_nat l + id mod 32 ^ Z.of_nat l).
Proof.
  rewrite <- block_split. pose proof (pow32_pos (S l)).
  rewrite (Z.div_mod id (32 ^ Z.of_nat (S l))) at 1 by lia. lia.
Qed.

Lemma find_from l p id m :
  wf l p -> (forall b, digit l id <= b < m -> Z.testbit (bitmap p) b = true) ->
  digit l id <= m <= 32 -> (m < 32 -> Z.testbit (bitmap p) m = false) ->
  find_next_bit (u32 (Z.lnot (bitmap p))) (IDR_SIZE - Z.to_nat (digit l id)) (digit l id) = m.
Proof.
  intros Hp Hset Hm Hclear. pose proof (digit_range l id).
  pose proof (find_next_bit_spec (bitmap p) (IDR_SIZE - Z.to_nat (digit l id)) (digit l id)) as H'.
  cbv zeta in H'. destruct H' as (H1 & H2 & H3); [lia|unfold IDR_SIZE; lia|].
  set (x := find_next_bit _ _ _) in *. destruct (Z.lt_trichotomy x m) as [Hl|[->|Hl]]; [|done|].
  - rewrite Hset in H3 by lia. exfalso. assert (x < 32) by lia. by specialize (H3 H0).
  - rewrite H2 in Hclear by lia. exfalso. assert (m < 32) by lia. by specialize (Hclear H0).
Qed.

(** The bits between the digit of [id] and that of the first free id are set. *)
Lemma least_bits l p id i b :
  wf l p -> least l p id i -> digit l id < b < digit l i -> Z.testbit (bitmap p) b = true.
Proof.
  intros Hp (Hle & Hblk & _ & Hused) Hb.
  pose proof (digit_range l id). pose proof (digit_range l i).
  apply (bit_set_of_block l p b (i / 32 ^ Z.of_nat (S l))); [done|lia|].
  intros r Hr. apply Hused. pose proof (pow32_pos l) as Hp32.
  pose proof (id_split l id) as E1. pose proof (id_split l i) as E2.
  pose proof (Z.mod_pos_bound id _ Hp32). pose proof (Z.mod_pos_bound i _ Hp32).
  rewrite Hblk in E1. nia.
Qed.

(** The digit bit too, when the id begins its slot. *)
Lemma least_first_bit l p id i :
  wf l p -> least l p id i -> id mod 32 ^ Z.of_nat l = 0 -> digit l id < digit l i ->
  Z.testbit (bitmap p) (digit l id) = true.
Proof.
  intros Hp (Hle & Hblk & _ & Hused) Hz Hb.
  pose proof (digit_range l id). pose proof (digit_range l i).
  apply (bit_set_of_block l p _ (i / 32 ^ Z.of_nat (S l))); [done|lia|].
  intros r Hr. apply Hused. pose proof (pow32_pos l) as Hp32.
  pose proof (id_split l id) as E1. pose proof (id_split l i) as E2.
  pose proof (Z.mod_pos_bound i _ Hp32). rewrite Hblk, Hz in E1. nia.
Qed.

(** The id after the digit of level [l] was moved to that of [i]. *)
Definition next_id (l : nat) (id i : Z) : Z :=
  if digit l id =? digit l i then id else i / 32 ^ Z.of_nat l * 32 ^ Z.of_nat l.

Lemma next_id_spec l p id i :
  0 <= id -> least l p id i ->
  id <= next_id l id i <= i /\ next_id l id i / 32 ^ Z.of_nat l = i / 32 ^ Z.of_nat l.
Proof.
  intros H0 (Hle & Hblk & _). unfold next_id. pose proof (pow32_pos l) as Hp.
  destruct (Z.eqb_spec (digit l id) (digit l i)) as [E|Hn].
  - split; [lia|]. apply same_block_S. done.
  - rewrite Z.div_mul by lia. split; [|done].
    pose proof (digit_mono l id i Hle Hblk).
    pose proof (id_split l id) as E1. pose proof (id_split l i) as E2.
    pose proof (Z.mod_pos_bound id _ Hp). pose proof (Z.mod_pos_bound i _ Hp).
    rewrite (Z.mul_comm (i / _)). rewrite (Z.mod_eq i) in * by lia. rewrite Hblk in E1. nia.
Qed.

Lemma least_below l p id i c :
  0 <= id -> least (S l) p id i -> slot_at p (digit (S l) i) = Layer c ->
  least l c (next_id (S l) id i) i.
Proof.
  intros H0 Hl Hs. pose proof (next_id_spec _ _ _ _ H0 Hl) as [[H1 H2] H3].
  destruct Hl as (Hle & Hblk & Hg & Hu). cbn [get] in Hg. rewrite Hs in Hg.
  repeat split; [done..|]. intros j Hj Hgj. apply (Hu j); [lia|]. cbn [get].
  assert (digit (S l) j = digit (S l) i) as ->; [|by rewrite Hs].
  apply same_block_S. apply (block_between (S l) (next_id (S l) id i)); [lia..|done].
Qed.

Lemma least_new l id i : id <= i -> id / 32 ^ Z.of_nat (S l) = i / 32 ^ Z.of_nat (S l) -> id = i ->
  least l new_layer id i.
Proof. intros. subst. repeat split; [lia|apply new_layer_get|]. intros; lia. Qed.

Lemma next_id_code l p id i :
  0 <= id -> i < 2 ^ 30 -> least l p id i ->
  (if negb (digit l i =? digit l id)
   then s32 (Z.shiftl (Z.lxor (Z.lxor (Z.shiftr id (IDR_BITS * Z.of_nat l)) (digit l id)) (digit l i))
               (IDR_BITS * Z.of_nat l))
   else id) = next_id l id i.
Proof.
  intros H0 Hi Hl. pose proof (next_id_spec _ _ _ _ H0 Hl) as [Hn _].
  destruct Hl as (Hle & Hblk & _). pose proof (digit_range l i) as Hr.
  unfold next_id in *. rewrite (Z.eqb_sym (digit l i)).
  destruct (digit l id =? digit l i); [done|]. cbn [negb].
  rewrite shiftr_div32. unfold digit at 1. rewrite lxor_digit by done.
  assert (32 * (id / 32 ^ Z.of_nat l / 32) + digit l i = i / 32 ^ Z.of_nat l) as ->.
  { rewrite (block_div l i), <- Hblk, pow32_S, (Z.mul_comm 32 (_ ^ _)).
    pose proof (pow32_pos l). rewrite Z.div_div by lia. done. }
  rewrite Z.shiftl_mul_pow2, <- Z.shiftl_1_l, pow32 by (unfold IDR_BITS; lia).
  apply s32_small. lia.
Qed.

(** One round of the loop that finds its slot. *)
Lemma loop_here fuel idp ptr p l id st pa i :
  wf l p -> 0 <= id -> i < 2 ^ 30 -> least l p id i ->
  digit l id = digit l i \/ Z.testbit (bitmap p) (digit l id) = true ->
  sub_alloc_loop (S fuel) idp ptr p (Z.of_nat l) id st pa =
  let id := next_id l id i in
  let m := digit l i in
  if Z.of_nat l =? 0 then Some (id, st, set_top idp (Some (mark_up (plant p m ptr) id pa)))
  else
    match slot_at p m with
    | Layer c => sub_alloc_loop fuel idp ptr c (Z.of_nat l - 1) id st ((p, m) :: pa)
    | Null =>
        match alloc_layer idp with
        | None => Some (-1, st, set_top idp (Some (plug p pa)))
        | Some (c, idp) =>
            let p := set_slot p m (Layer c) in
            let p := set_count p (count p + 1) in
            sub_alloc_loop fuel idp ptr c (Z.of_nat l - 1) id st ((p, m) :: pa)
        end
    | Ptr _ => None
    end.
Proof.
  intros Hp H0 Hi Hl Hbit. pose proof (next_id_spec _ _ _ _ H0 Hl) as [Hn _].
  pose proof Hl as (Hle & Hblk & Hg & _). pose proof (digit_mono l _ _ Hle Hblk) as Hd.
  pose proof (digit_range l id) as Hr1. pose proof (digit_range l i) as Hr2.
  cbn [sub_alloc_loop]. rewrite id_digit_spec, (find_from l p id (digit l i));
    [|done| |lia|intros; by apply free_bit].
  - change (Z.of_nat IDR_SIZE) with 32. replace (digit l i =? 32) with false by lia.
    cbv zeta. rewrite (next_id_code l p id i H0 Hi Hl).
    replace ((MAX_ID_BIT <=? next_id l id i) || (next_id l id i <? 0)) with false; [done|].
    change MAX_ID_BIT with (2 ^ 31). lia.
  - intros b Hb. destruct (Z.eq_dec b (digit l id)) as [->|].
    + destruct Hbit; [lia|done].
    + apply (least_bits l p id i); [done|done|lia].
Qed.

(** One round that finds no slot. *)
Lemma loop_full fuel idp ptr p l id st pa :
  wf l p -> 0 <= id < 2 ^ 30 -> (l <= 5)%nat -> id mod 32 ^ Z.of_nat l = 0 ->
  (forall j, id <= j -> j / 32 ^ Z.of_nat (S l) = id / 32 ^ Z.of_nat (S l) -> get l p j <> 0) ->
  let nxt := (id / 32 ^ Z.of_nat (S l) + 1) * 32 ^ Z.of_nat (S l) in
  sub_alloc_loop (S fuel) idp ptr p (Z.of_nat l) id st pa =
  match pa with
  | [] => Some (-2, nxt, set_top idp (Some p))
  | (q, i) :: pa => sub_alloc_loop fuel idp ptr (set_slot q i (Layer p)) (Z.of_nat (S l)) nxt st pa
  end.
Proof.
  intros Hp H0 Hl Hz Hall nxt. pose proof (digit_range l id) as Hr. pose proof (pow32_pos l) as Hp32.
  cbn [sub_alloc_loop]. rewrite id_digit_spec, (find_from l p id 32); [|done| |lia..].
  - change (32 =? Z.of_nat IDR_SIZE) with true. cbv iota zeta.
    replace (Z.of_nat l + 1) with (Z.of_nat (S l)) by lia.
    replace (32 <=? IDR_BITS * Z.of_nat (S l)) with false
      by (symmetry; apply Z.leb_gt; unfold IDR_BITS; lia).
    rewrite pow32, lor_block. fold nxt. rewrite s32_small; [done|].
    pose proof (pow32_le (S l) 6 ltac:(lia)). change (32 ^ Z.of_nat 6) with (2 ^ 30) in *.
    pose proof (Z.mul_div_le id _ (pow32_pos (S l))).
    pose proof (Z.div_pos id _ ltac:(lia) (pow32_pos (S l))). unfold nxt. nia.
  - intros b Hb. apply (bit_set_of_block l p b (id / 32 ^ Z.of_nat (S l))); [done|lia|].
    intros r Hrr. apply Hall.
    + pose proof (id_split l id) as E. nia.
    + apply block_of_mult. rewrite pow32_S. nia.
Qed.

(** ** The free list *)

(** A spare layer is as good as new once its link is cleared. *)
Definition free_ok (q : idr_layer) : Prop := set_slot q 0 Null = new_layer.

Definition good_free (idp : idr_context) : Prop :=
  Forall free_ok (id_free idp) /\ id_free_cnt idp = Z.of_nat (length (id_free idp)).

Definition take_free (k : nat) (idp : idr_context) : idr_context :=
  mk_idr (top idp) (drop k (id_free idp)) (layers idp) (id_free_cnt idp - Z.of_nat k).

Lemma take_free_0 idp : take_free 0 idp = idp.
Proof. destruct idp. unfold take_free. simpl. f_equal. lia. Qed.

Lemma take_free_add a b idp : take_free a (take_free b idp) = take_free (a + b) idp.
Proof. unfold take_free. simpl. rewrite drop_drop. f_equal; [f_equal; lia|lia]. Qed.

Lemma take_free_good k idp :
  good_free idp -> (k <= length (id_free idp))%nat -> good_free (take_free k idp).
Proof.
  intros [H1 H2] Hk. split; cbn.
  - by apply Forall_drop.
  - rewrite length_drop. lia.
Qed.

Lemma alloc_layer_ok idp : good_free idp -> (0 < length (id_free idp))%nat ->
  alloc_layer idp = Some (new_layer, take_free 1 idp).
Proof.
  intros [H1 _] Hl. unfold alloc_layer, take_free. destruct (id_free idp) as [|q f]; [simpl in Hl; lia|].
  apply Forall_cons in H1 as [Hq _]. rewrite Hq. done.
Qed.

(** ** The descent *)

(** The loop plants the pointer at [i], with at most [l] new layers. *)
Definition lands (l fuel : nat) idp ptr p id st pa i : Prop :=
  exists k, (k <= l)%nat /\
    sub_alloc_loop fuel idp ptr p (Z.of_nat l) id st pa =
    Some (i, st, set_top (take_free k idp)
                   (Some (mark_up (put l p i ptr) (i / 32 ^ Z.of_nat l) pa))).

(** An id that begins its slot lands in it, or finds its bit set. *)
Lemma least_bit l p id i :
  wf l p -> least l p id i -> id mod 32 ^ Z.of_nat l = 0 ->
  digit l id = digit l i \/ Z.testbit (bitmap p) (digit l id) = true.
Proof.
  intros Hp Hl Hz. pose proof Hl as (Hle & Hblk & _). pose proof (digit_mono l _ _ Hle Hblk).
  destruct (Z.eq_dec (digit l id) (digit l i)); [by left|right].
  apply (least_first_bit l p id i); [done..|lia].
Qed.

Lemma lands_O fuel idp ptr p id st pa i :
  wf 0 p -> 0 <= id -> i < 2 ^ 30 -> least 0 p id i -> lands 0 (S fuel) idp ptr p id st pa i.
Proof.
  intros Hp H0 Hi Hl. exists O. split; [done|].
  rewrite (loop_here _ _ _ _ _ _ _ _ i); [|done..|by apply (least_bit 0); [..|apply Z.mod_1_r]].
  cbn [Z.of_nat Z.eqb put]. cbv zeta. rewrite take_free_0, Z.div_1_r.
  pose proof (next_id_spec _ _ _ _ H0 Hl) as [_ Hn].
  change (32 ^ Z.of_nat 0) with 1 in Hn. rewrite !Z.div_1_r in Hn. by rewrite Hn.
Qed.

Lemma shift_up l i : Z.shiftr (i / 32 ^ Z.of_nat l) IDR_BITS = i / 32 ^ Z.of_nat (S l).
Proof.
  rewrite Z.shiftr_div_pow2 by (unfold IDR_BITS; lia). change (2 ^ IDR_BITS) with 32.
  pose proof (pow32_pos l). rewrite Z.div_div, pow32_S by lia. f_equal. lia.
Qed.

Lemma attach_set_slot q m c c' n : attach (set_count (set_slot q m c') n) m c = attach (set_count q n) m c.
Proof.
  unfold attach, set_slot, set_count, set_bitmap. cbn [bitmap ary count].
  by rewrite list_insert_insert_eq.
Qed.

Lemma lands_step l fuel idp ptr p id st pa i :
  wf (S l) p -> 0 <= id -> i < 2 ^ 30 -> least (S l) p id i ->
  good_free idp -> (S l <= length (id_free idp))%nat ->
  digit (S l) id = digit (S l) i \/ Z.testbit (bitmap p) (digit (S l) id) = true ->
  (forall c idp' pa', wf l c -> least l c (next_id (S l) id i) i -> good_free idp' ->
     (l <= length (id_free idp'))%nat ->
     lands l fuel idp' ptr c (next_id (S l) id i) st pa' i) ->
  lands (S l) (S fuel) idp ptr p id st pa i.
Proof.
  intros Hp H0 Hi Hl Hf Hlen Hbit IH. pose proof (digit_range (S l) i) as Hm.
  pose proof (wf_slot _ _ _ Hp Hm) as Hs. pose proof Hl as (_ & _ & Hg & _).
  pose proof (free_bit _ _ _ Hp Hg) as Hb.
  assert (digit (S l) i = Z.land (Z.shiftr (i / 32 ^ Z.of_nat l) IDR_BITS) IDR_MASK) as Hdig
    by (rewrite land_mask, shift_up; done).
  unfold lands. rewrite (loop_here _ _ _ _ _ _ _ _ i) by done. cbv zeta.
  change (Z.of_nat (S l) =? 0) with false.
  replace (Z.of_nat (S l) - 1) with (Z.of_nat l) by lia. cbn [put].
  destruct (slot_at p (digit (S l) i)) as [|v|c] eqn:E; cbn [slot_ok] in Hs.
  - rewrite alloc_layer_ok by (done || lia). cbv iota beta.
    destruct (IH new_layer (take_free 1 idp) ((set_count (set_slot p (digit (S l) i) (Layer new_layer))
       (count (set_slot p (digit (S l) i) (Layer new_layer)) + 1), digit (S l) i) :: pa))
      as (k & Hk & ->).
    + apply new_layer_wf.
    + pose proof (next_id_spec _ _ _ _ H0 Hl) as [Hn Hn2]. apply least_new; [lia|done|].
      destruct Hl as (_ & _ & _ & Hu). destruct (Z.eq_dec (next_id (S l) id i) i) as [|Hne]; [done|].
      exfalso. apply (Hu (next_id (S l) id i)); [lia|]. cbn [get].
      apply same_block_S in Hn2 as [_ ->]. by rewrite E.
    + apply take_free_good; [done|lia].
    + cbn. rewrite length_drop. lia.
    + exists (S k). split; [lia|].
      rewrite take_free_add, mark_up_cons, attach_set_slot, shift_up by done.
      cbn [count set_slot]. by rewrite Nat.add_1_r.
  - by destruct Hs.
  - destruct Hs as (Hc & _ & _).
    destruct (IH c idp ((p, digit (S l) i) :: pa)) as (k & Hk & ->);
      [done|by apply (least_below _ p)|done|lia|].
    exists k. split; [lia|]. by rewrite mark_up_cons, shift_up.
Qed.

Lemma low_zero_S l x : x mod 32 ^ Z.of_nat (S l) = 0 -> x mod 32 ^ Z.of_nat l = 0.
Proof.
  rewrite block_split. pose proof (digit_range l x). pose proof (pow32_pos l).
  pose proof (Z.mod_pos_bound x (32 ^ Z.of_nat l) ltac:(done)). nia.
Qed.

Lemma next_id_low l id i : digit (S l) id <> digit (S l) i \/ id mod 32 ^ Z.of_nat (S l) = 0 ->
  next_id (S l) id i mod 32 ^ Z.of_nat l = 0.
Proof.
  intros H. apply low_zero_S. unfold next_id.
  destruct (Z.eqb_spec (digit (S l) id) (digit (S l) i)); [by destruct H|].
  apply Z.mod_mul. pose proof (pow32_pos (S l)). lia.
Qed.

Lemma same_block_up a b i j : (a <= b)%nat ->
  i / 32 ^ Z.of_nat a = j / 32 ^ Z.of_nat a -> i / 32 ^ Z.of_nat b = j / 32 ^ Z.of_nat b.
Proof.
  intros Hab H. induction Hab as [|b Hab IH]; [done|]. by apply same_block_S in IH as [? _].
Qed.

(** From the beginning of a slot the loop goes straight down. *)
Lemma descend_low l fuel idp ptr p id st pa i :
  wf l p -> 0 <= id -> i < 2 ^ 30 -> least l p id i -> good_free idp ->
  (l <= length (id_free idp))%nat -> id mod 32 ^ Z.of_nat l = 0 -> (l < fuel)%nat ->
  lands l fuel idp ptr p id st pa i.
Proof.
  revert fuel idp p id pa. induction l as [|l IH]; intros [|fuel] idp p id pa Hp H0 Hi Hl Hf Hlen Hz Hfu;
    [lia|by apply lands_O|lia|].
  pose proof (next_id_spec _ _ _ _ H0 Hl) as [Hn _].
  apply lands_step; [done..|by apply (least_bit (S l))|].
  intros c idp' pa' Hc Hlc Hf' Hlen'. apply IH; [done|lia|done..| |lia].
  apply next_id_low. by right.
Qed.

Lemma loop_enter l fuel idp ptr p id st pa c :
  wf (S l) p -> 0 <= id < 2 ^ 30 -> Z.testbit (bitmap p) (digit (S l) id) = false ->
  slot_at p (digit (S l) id) = Layer c ->
  sub_alloc_loop (S fuel) idp ptr p (Z.of_nat (S l)) id st pa =
  sub_alloc_loop fuel idp ptr c (Z.of_nat l) id st ((p, digit (S l) id) :: pa).
Proof.
  intros Hp H0 Hb Hs. pose proof (digit_range (S l) id) as Hr. cbn [sub_alloc_loop].
  rewrite id_digit_spec, (find_from (S l) p id (digit (S l) id)); [|done|intros; lia|lia|done].
  change (Z.of_nat IDR_SIZE) with 32. replace (digit (S l) id =? 32) with false by lia.
  cbv zeta. rewrite Z.eqb_refl. cbn [negb].
  replace ((MAX_ID_BIT <=? id) || (id <? 0)) with false by (change MAX_ID_BIT with (2 ^ 31); lia).
  change (Z.of_nat (S l) =? 0) with false. cbv iota. rewrite Hs.
  by replace (Z.of_nat (S l) - 1) with (Z.of_nat l) by lia.
Qed.

Lemma set_slot_same p m c : 0 <= m -> slot_at p m = Layer c -> set_slot p m (Layer c) = p.
Proof.
  intros Hm Hs. destruct p as [b a n]. unfold set_slot, slot_at in *. cbn [bitmap ary count] in *.
  f_equal. apply list_insert_id. by destruct (a !! Z.to_nat m); cbn in Hs; subst.
Qed.

(** A leaf without room from the id on: the loop climbs one layer and goes on
    with the next leaf. *)
Lemma climb_leaf fuel idp ptr p id st pa i :
  wf 1 p -> 0 <= id -> i < 2 ^ 30 -> least 1 p id i -> good_free idp ->
  (1 <= length (id_free idp))%nat -> digit 1 id <> digit 1 i ->
  Z.testbit (bitmap p) (digit 1 id) = false -> (4 <= fuel)%nat ->
  lands 1 fuel idp ptr p id st pa i.
Proof.
  intros Hp H0 Hi Hl Hf Hlen Hd Hb Hfu. pose proof Hl as (Hle & Hblk & Hg & Hu).
  pose proof (digit_range 1 id) as Hr. pose proof (digit_mono _ _ _ Hle Hblk).
  assert (id / 32 < i / 32) as Hlt.
  { pose proof (block_div 1 id) as E1. pose proof (block_div 1 i) as E2.
    change (32 ^ Z.of_nat 1) with 32 in *. lia. }
  pose proof (wf_slot _ _ _ Hp Hr) as Hs.
  destruct (slot_at p (digit 1 id)) as [|v|c] eqn:E; cbn [slot_ok] in Hs.
  - exfalso. apply (Hu id); [|cbn [get]; by rewrite E].
    split; [done|]. destruct (Z.eq_dec id i) as [->|]; lia.
  - by destruct Hs.
  - destruct Hs as (Hc & _). destruct fuel as [|[|fuel]]; [lia..|]. unfold lands.
    rewrite (loop_enter 0 _ _ _ _ _ _ _ c) by (done || lia).
    rewrite (loop_full _ _ _ _ 0); [|done|lia|lia|apply Z.mod_1_r|].
    + cbv zeta. rewrite set_slot_same by (done || lia). change (32 ^ Z.of_nat 1) with 32.
      set (nxt := (id / 32 + 1) * 32).
      assert (id <= nxt <= i) by (unfold nxt; Z.to_euclidean_division_equations; lia).
      apply descend_low; [done|lia|done| |done|done|by apply Z.mod_mul|lia].
      split; [lia|]. split; [apply (block_between 2 id); [lia..|done]|].
      split; [done|]. intros j Hj. apply Hu. lia.
    + intros j Hj Hblkj. change (32 ^ Z.of_nat 1) with 32 in Hblkj.
      enough (get 1 p j <> 0) as Hgj.
      { cbn [get] in Hgj. replace (digit 1 j) with (digit 1 id) in Hgj; [by rewrite E in Hgj|].
        unfold digit. change (32 ^ Z.of_nat 1) with 32. by rewrite Hblkj. }
      apply Hu. Z.to_euclidean_division_equations; lia.
Qed.

(** The loop lands on the first free id when that lies in the block of 1024 ids
    it starts in, or when it starts at the beginning of a slot. *)
Lemma descend l fuel idp ptr p id st pa i :
  wf l p -> 0 <= id -> i < 2 ^ 30 -> least l p id i -> good_free idp ->
  (l <= length (id_free idp))%nat ->
  id mod 32 ^ Z.of_nat l = 0 \/ id / 1024 = i / 1024 -> (l + 4 <= fuel)%nat ->
  lands l fuel idp ptr p id st pa i.
Proof.
  revert fuel idp p id pa. induction l as [|l IH]; intros [|fuel] idp p id pa Hp H0 Hi Hl Hf Hlen Hz Hfu;
    [lia|by apply lands_O|lia|].
  pose proof (next_id_spec _ _ _ _ H0 Hl) as [Hn _].
  destruct (decide (digit (S l) id = digit (S l) i)) as [Hd|Hd];
    [|destruct (Z.testbit (bitmap p) (digit (S l) id)) eqn:Hb].
  - apply lands_step; [done..|by left|]. intros c idp' pa' Hc Hlc Hf' Hlen'.
    apply IH; [done|lia|done..| |lia]. destruct Hz as [Hz|Hz].
    + left. apply next_id_low. by right.
    + right. unfold next_id. by rewrite Hd, Z.eqb_refl.
  - apply lands_step; [done..|by right|]. intros c idp' pa' Hc Hlc Hf' Hlen'.
    apply IH; [done|lia|done..| |lia]. left. apply next_id_low. by left.
  - destruct Hz as [Hz|Hz].
    + exfalso. apply (least_bit (S l) p id i) in Hz as [?|?]; [done|congruence|done..].
    + destruct l as [|l]; [by apply climb_leaf; [..|lia]|]. exfalso. apply Hd.
      change 1024 with (32 ^ Z.of_nat 2) in Hz.
      apply same_block_S, (same_block_up 2); [lia|done].
Qed.

(** ** Trees *)

(** The pointer the tree holds for an id, 0 when there is none. *)
Definition stored (idp : idr_context) (id : Z) : Z :=
  match top idp with
  | Some p => if (0 <=? id) && (id <? 32 ^ layers idp) then get (Z.to_nat (layers idp - 1)) p id else 0
  | None => 0
  end.

(** With at most six layers, the path of a descent stays in its array. *)
Definition wf_idr (idp : idr_context) : Prop :=
  good_free idp /\
  match top idp with
  | None => layers idp = 0
  | Some p => exists l, layers idp = Z.of_nat (S l) /\ (l <= 5)%nat /\ wf l p /\ 0 < count p
  end.

Lemma stored_eq idp l p j : top idp = Some p -> layers idp = Z.of_nat (S l) ->
  stored idp j = if (0 <=? j) && (j <? 32 ^ Z.of_nat (S l)) then get l p j else 0.
Proof.
  intros Ht Hl. unfold stored. rewrite Ht, Hl.
  by replace (Z.to_nat (Z.of_nat (S l) - 1)) with l by lia.
Qed.

Lemma stored_in idp l p j : top idp = Some p -> layers idp = Z.of_nat (S l) ->
  0 <= j < 32 ^ Z.of_nat (S l) -> stored idp j = get l p j.
Proof.
  intros Ht Hl Hj. rewrite (stored_eq _ l p) by done.
  destruct (Z.leb_spec 0 j), (Z.ltb_spec j (32 ^ Z.of_nat (S l))); try lia; done.
Qed.

Lemma stored_out idp l p j : top idp = Some p -> layers idp = Z.of_nat (S l) ->
  ~ 0 <= j < 32 ^ Z.of_nat (S l) -> stored idp j = 0.
Proof.
  intros Ht Hl Hj. rewrite (stored_eq _ l p) by done.
  destruct (Z.leb_spec 0 j), (Z.ltb_spec j (32 ^ Z.of_nat (S l))); try done. lia.
Qed.

Lemma free_layer_good idp p : good_free idp -> free_ok p -> good_free (free_layer idp p).
Proof. intros [H1 H2] Hp. split; cbn; [by constructor|lia]. Qed.

Lemma pre_get_loop_ok fuel idp : good_free idp -> IDR_FREE_MAX <= id_free_cnt idp + Z.of_nat fuel ->
  good_free (pre_get_loop fuel idp) /\ (14 <= length (id_free (pre_get_loop fuel idp)))%nat /\
  top (pre_get_loop fuel idp) = top idp /\ layers (pre_get_loop fuel idp) = layers idp.
Proof.
  revert idp. induction fuel as [|fuel IH]; intros idp Hf Hn; cbn [pre_get_loop].
  - change IDR_FREE_MAX with 14 in Hn. pose proof Hf as [_ Hc]. repeat split; try apply Hf. lia.
  - change IDR_FREE_MAX with 14 in *. destruct (Z.ltb_spec (id_free_cnt idp) 14).
    + destruct (IH (free_layer idp new_layer)) as (H1 & H2 & H3 & H4); [by apply free_layer_good|cbn; lia|].
      rewrite H3, H4. done.
    + pose proof Hf as [_ Hc]. repeat split; try apply Hf. lia.
Qed.

Lemma idr_pre_get_ok idp : good_free idp ->
  good_free (idr_pre_get idp) /\ (14 <= length (id_free (idr_pre_get idp)))%nat /\
  top (idr_pre_get idp) = top idp /\ layers (idr_pre_get idp) = layers idp.
Proof.
  intros Hf. apply pre_get_loop_ok; [done|]. pose proof Hf as [_ ->].
  change IDR_FREE_MAX with 14. lia.
Qed.

Lemma get_top l p j :
  0 <= j < 32 ^ Z.of_nat (S (S l)) ->
  get (S l) (attach (set_count new_layer 1) 0 p) j = if j <? 32 ^ Z.of_nat (S l) then get l p j else 0.
Proof.
  intros Hj. rewrite (get_attach l new_layer) by done. rewrite new_layer_get.
  pose proof (block_div (S l) j) as E. rewrite (Z.div_small j (32 ^ Z.of_nat (S (S l)))) in E by done.
  pose proof (pow32_pos (S l)). destruct (Z.ltb_spec j (32 ^ Z.of_nat (S l))).
  - by rewrite digit_small by lia.
  - replace (digit (S l) j =? 0) with false; [done|]. symmetry. apply Z.eqb_neq. intros E0.
    rewrite E0, Z.mul_0_r in E. apply Z.div_small_iff in E; lia.
Qed.

(** Layers are put on top until there is room for the id. *)
Lemma add_layers_ok fuel idp p l id built :
  good_free idp -> (5 <= length (id_free idp) + l)%nat -> (l <= 5)%nat -> 0 <= id < 2 ^ 30 ->
  wf l p -> 0 < count p \/ p = new_layer -> (6 <= fuel + l)%nat ->
  exists p' l' k,
    add_layers fuel idp p (Z.of_nat (S l)) id built = inl (p', Z.of_nat (S l'), take_free k idp) /\
    (l <= l' <= 5)%nat /\ (k <= l' - l)%nat /\ wf l' p' /\ id < 32 ^ Z.of_nat (S l') /\
    (0 < count p /\ 0 < count p' \/ p = new_layer /\ p' = new_layer) /\
    (forall j, 0 <= j < 32 ^ Z.of_nat (S l') ->
       get l' p' j = if j <? 32 ^ Z.of_nat (S l) then get l p j else 0) /\
    (l' = l \/ 32 ^ Z.of_nat l' <= id).
Proof.
  revert idp p l built. induction fuel as [|fuel IH]; intros idp p l built Hf Hlen Hl Hid Hp Hc Hfu; [lia|].
  cbn [add_layers]. change MAX_LEVEL with 7.
  rewrite (Z.mul_comm (Z.of_nat (S l))), pow32.
  replace (Z.of_nat (S l) <? 7) with true by (symmetry; apply Z.ltb_lt; lia). cbn [andb].
  destruct (Z.leb_spec (32 ^ Z.of_nat (S l)) id) as [Hge|Hlt].
  - assert (l <> 5%nat) by (intros ->; change (32 ^ Z.of_nat 6) with (2 ^ 30) in Hge; lia).
    replace (Z.of_nat (S l) + 1) with (Z.of_nat (S (S l))) by lia.
    assert (32 ^ Z.of_nat (S l) < 32 ^ Z.of_nat (S (S l))) as Hgrow
      by (rewrite (pow32_S (S l)); pose proof (pow32_pos (S l)); lia).
    destruct Hc as [Hc| ->].
    + replace (count p =? 0) with false by lia.
      rewrite alloc_layer_ok by (done || lia). cbv iota beta zeta.
      pose proof (attach_wf l new_layer 0 p 1 (new_layer_wf _) ltac:(lia)
        (Z.bits_0 0) Hp Hc ltac:(rewrite new_layer_slot; done)) as Hw.
      change (if bitmap p =? IDR_FULL then _ else _) with (attach (set_count new_layer 1) 0 p).
      destruct (IH (take_free 1 idp) (attach (set_count new_layer 1) 0 p) (S l) (built + 1))
        as (p' & l' & k & -> & Hl' & Hk & Hw' & Hid' & Hc' & Hg & Hmin).
      * apply take_free_good; [done|lia].
      * cbn. rewrite length_drop. lia.
      * lia.
      * done.
      * done.
      * left. by rewrite attach_count.
      * lia.
      * exists p', l', (k + 1)%nat. rewrite take_free_add.
        destruct Hc' as [[_ Hc']|[Hc' _]].
        2: { apply (f_equal count) in Hc'. rewrite attach_count in Hc'. done. }
        do 5 (split; [done || lia|]); split; [by left|]; split.
        -- intros j Hj. rewrite Hg by done.
           destruct (Z.ltb_spec j (32 ^ Z.of_nat (S (S l)))); [apply get_top; lia|].
           by rewrite (proj2 (Z.ltb_ge j _)) by lia.
        -- right. destruct Hmin as [->|]; [lia|done].
    + change (count new_layer =? 0) with true. cbv iota.
      destruct (IH idp new_layer (S l) built)
        as (p' & l' & k & -> & Hl' & Hk & Hw' & Hid' & Hc' & Hg & Hmin);
        [done|lia|lia|done|apply new_layer_wf|by right|lia|].
      exists p', l', k. destruct Hc' as [[Hc' _]|[_ ->]]; [done|].
      do 5 (split; [done || lia|]); split; [by right|]; split.
      -- intros j Hj. rewrite !new_layer_get. by destruct (j <? _).
      -- right. destruct Hmin as [->|]; [lia|done].
  - exists p, l, O. rewrite take_free_0. do 5 (split; [done || lia|]). split; [|split; [|by left]].
    + destruct Hc as [Hc| ->]; [by left|by right].
    + intros j Hj. by rewrite (proj2 (Z.ltb_lt j _)) by lia.
Qed.

(** ** Allocation *)

(** [i] is the first id from [id] on that holds nothing. *)
Definition first_free (idp : idr_context) (id i : Z) : Prop :=
  id <= i /\ stored idp i = 0 /\ forall j, id <= j < i -> stored idp j <> 0.

(** [idp'] is the tree [idp] with [i] bound to [v]. *)
Definition bound (idp : idr_context) (i v : Z) (idp' : idr_context) : Prop :=
  wf_idr idp' /\ forall j, stored idp' j = if j =? i then v else stored idp j.

(** The tree on which [sub_alloc] runs: the old one with room for the id. *)
Definition room (idp idp1 : idr_context) (id : Z) (l : nat) (p : idr_layer) : Prop :=
  top idp1 = Some p /\ layers idp1 = Z.of_nat (S l) /\ (l <= 5)%nat /\ wf l p /\ good_free idp1 /\
  (l <= length (id_free idp1))%nat /\ id < 32 ^ Z.of_nat (S l) /\
  (forall j, stored idp1 j = stored idp j) /\ (count p = 0 -> forall j, stored idp j = 0) /\
  (top idp <> None -> layers idp + Z.of_nat (length (id_free idp)) <=
     layers idp1 + Z.of_nat (length (id_free idp1))) /\
  (forall n, (1 <= n)%nat -> layers idp <= Z.of_nat n -> id < 32 ^ Z.of_nat n ->
     layers idp1 <= Z.of_nat n).

Lemma stored_nonneg idp j : stored idp j <> 0 -> 0 <= j.
Proof.
  unfold stored. destruct (top idp); [|done]. destruct (Z.leb_spec 0 j); [done|]. done.
Qed.

(** The start of a round: the top layer, a new one when there is none. *)
Definition start_of (idp : idr_context) : option (idr_layer * Z * Z * idr_context) :=
  match top idp with
  | Some p => Some (p, layers idp, 0, idp)
  | None => match alloc_layer idp with
            | None => None
            | Some (p, idp) => Some (p, 1, 1, idp)
            end
  end.

Lemma start_of_ok idp :
  wf_idr idp -> 12 <= layers idp + Z.of_nat (length (id_free idp)) ->
  exists p l built k, start_of idp = Some (p, Z.of_nat (S l), built, take_free k idp) /\
    (l <= 5)%nat /\ wf l p /\ (0 < count p \/ p = new_layer) /\ good_free (take_free k idp) /\
    (11 <= length (id_free (take_free k idp)) + l)%nat /\
    (forall j, 0 <= j < 32 ^ Z.of_nat (S l) -> stored idp j = get l p j) /\
    (forall j, ~ 0 <= j < 32 ^ Z.of_nat (S l) -> stored idp j = 0) /\
    (top idp <> None -> Z.of_nat (S l) = layers idp /\ k = 0%nat) /\
    (layers idp <= Z.of_nat (S l)) /\ (top idp = None -> l = 0%nat).
Proof.
  intros [Hf Ht] Hlen. unfold start_of. destruct (top idp) as [p|] eqn:E.
  - destruct Ht as (l & Hl & Hl5 & Hp & Hc). exists p, l, 0, O. rewrite take_free_0, Hl in *.
    do 3 (split; [done|]). split; [by left|]. split; [done|]. split; [lia|].
    split; [intros j Hj; by apply (stored_in idp l p)|].
    split; [intros j Hj; by apply (stored_out idp l p)|]. done.
  - rewrite alloc_layer_ok by (done || lia). exists new_layer, O, 1, 1%nat.
    split; [done|]. split; [lia|]. split; [apply new_layer_wf|]. split; [by right|].
    split; [apply take_free_good; [done|lia]|].
    split; [cbn; rewrite length_drop; lia|].
    unfold stored. rewrite E. split; [intros j Hj; by rewrite new_layer_get|].
    split; [done|]. split; [done|]. split; [rewrite Ht; lia|done].
Qed.

(** A round adds layers, then runs the loop. *)
Lemma round_room fuel idp ptr id :
  wf_idr idp -> 12 <= layers idp + Z.of_nat (length (id_free idp)) -> 0 <= id < 2 ^ 30 ->
  exists idp1 l p, room idp idp1 id l p /\
    build_up (S fuel) idp ptr id =
    match sub_alloc_loop 100 idp1 ptr p (Z.of_nat l) id id [] with
    | None => None
    | Some (v, id, idp) => if v =? -2 then build_up fuel idp ptr id else Some (v, idp)
    end.
Proof.
  intros Hw Hlen Hid.
  destruct (start_of_ok idp Hw Hlen)
    as (p & l & built & k & Hs & Hl & Hp & Hc & Hf & Hn & Hin & Hout & Htop & Hlay & Hnone).
  cbn [build_up]. change (match top idp with Some p => _ | None => _ end) with (start_of idp).
  rewrite Hs. cbv iota beta.
  destruct (add_layers_ok (Z.to_nat MAX_LEVEL) (take_free k idp) p l id built)
    as (p1 & l1 & k1 & -> & Hl1 & Hk1 & Hp1 & Hid1 & Hc1 & Hg1 & Hmin); try done; try lia.
  { change (Z.to_nat MAX_LEVEL) with 7%nat. lia. }
  cbv iota beta. set (idp1 := mk_idr _ _ _ _). exists idp1, l1, p1. split.
  - assert (good_free idp1) as Hf1.
    { apply (take_free_good k1) in Hf; [done|lia]. }
    assert (length (id_free idp1) = (length (id_free (take_free k idp)) - k1)%nat) as Hfl
      by (cbn; by rewrite length_drop).
    split; [done|]. split; [done|]. split; [lia|]. split; [done|]. split; [done|].
    split; [lia|]. split; [done|].
    pose proof (pow32_le (S l) (S l1) ltac:(lia)) as Hle.
    split; [|split; [|split]].
    + intros j. destruct (decide (0 <= j < 32 ^ Z.of_nat (S l1))) as [Hj|Hj].
      * rewrite (stored_in idp1 l1 p1), Hg1 by done.
        destruct (Z.ltb_spec j (32 ^ Z.of_nat (S l))); [by rewrite Hin by lia|].
        rewrite Hout by lia. done.
      * rewrite (stored_out idp1 l1 p1), Hout by (done || lia). done.
    + intros H0 j. destruct Hc1 as [[_ ?]|[-> _]]; [lia|].
      destruct (decide (0 <= j < 32 ^ Z.of_nat (S l))); [by rewrite Hin, new_layer_get|by apply Hout].
    + intros Hne. destruct (Htop Hne) as [<- ->]. rewrite take_free_0 in *. cbn [layers idp1]. lia.
    + intros n Hn1 Hln Hidn. cbn [layers idp1]. destruct Hmin as [->|Hmin].
      * destruct (top idp) eqn:E; [destruct Htop as [-> _]; done|]. rewrite Hnone by done. lia.
      * assert (l1 < n)%nat; [|lia]. destruct (le_lt_dec n l1) as [Hge|]; [|done].
        apply pow32_le in Hge. lia.
  - unfold sub_alloc. change MAX_LEVEL with 7. cbn [layers idp1].
    rewrite (proj2 (Z.leb_gt 7 (Z.of_nat (S l1)))) by lia.
    by replace (Z.of_nat (S l1) - 1) with (Z.of_nat l1) by lia.
Qed.

(** The ids from which the search finds the first free one. *)
Definition searchable (id i : Z) : Prop := id = 0 \/ id / 1024 = i / 1024.

Lemma searchable_spec l id i : searchable id i -> id mod 32 ^ Z.of_nat l = 0 \/ id / 1024 = i / 1024.
Proof. intros [->|H]; [left; apply Z.mod_0_l; pose proof (pow32_pos l); lia|by right]. Qed.

Lemma room_least idp idp1 id l p i :
  room idp idp1 id l p -> 0 <= id -> first_free idp id i -> i < 32 ^ Z.of_nat (S l) -> least l p id i.
Proof.
  intros (Ht & Hl & _ & Hp & _ & _ & Hid & Hst & _) H0 (Hle & Hfree & Hu) Hi.
  assert (forall j, 0 <= j < 32 ^ Z.of_nat (S l) -> stored idp j = get l p j) as Hin
    by (intros j Hj; rewrite <- Hst; by apply stored_in).
  split; [done|]. split; [by rewrite !Z.div_small by lia|].
  split; [by rewrite <- Hin by lia|]. intros j Hj. rewrite <- Hin by lia. by apply Hu.
Qed.

Lemma room_lands idp idp1 ptr id l p i :
  room idp idp1 id l p -> 0 <= id -> i < 2 ^ 30 -> first_free idp id i -> searchable id i ->
  i < 32 ^ Z.of_nat (S l) -> ptr <> 0 ->
  exists idp', sub_alloc_loop 100 idp1 ptr p (Z.of_nat l) id id [] = Some (i, id, idp') /\
    bound idp i ptr idp' /\ layers idp' = layers idp1.
Proof.
  intros Hr H0 Hi Hff Hs Hil Hptr. pose proof (room_least _ _ _ _ _ _ Hr H0 Hff Hil) as Hle.
  destruct Hr as (Ht & Hl & Hl5 & Hp & Hf & Hlen & Hid & Hst & _). pose proof Hff as (Hii & _).
  destruct (descend l 100 idp1 ptr p id id [] i) as (k & Hk & ->);
    [done..|by apply searchable_spec|lia|].
  destruct (put_spec l p i ptr) as (Hw & Hc & Hg); [done|apply Hle|done|].
  replace (mark_up (put l p i ptr) (i / 32 ^ Z.of_nat l) []) with (put l p i ptr)
    by (cbn [mark_up plug]; by destruct (_ =? _)).
  set (idp' := set_top _ _). exists idp'. split; [done|]. split; [|done].
  assert (layers idp' = Z.of_nat (S l)) as Hl' by done.
  split.
  - split; [by apply (take_free_good k idp1); [|lia]|]. cbn. exists l. done.
  - intros j. destruct (decide (0 <= j < 32 ^ Z.of_nat (S l))) as [Hj|Hj].
    + rewrite (stored_in idp' l (put l p i ptr)), Hg, <- Hst, (stored_in idp1 l p) by done.
      unfold same_low. by rewrite !Z.mod_small by lia.
    + rewrite (stored_out idp' l (put l p i ptr)), <- Hst, (stored_out idp1 l p) by done.
      by replace (j =? i) with false by lia.
Qed.

Lemma room_climbs idp idp1 ptr id l p i :
  room idp idp1 id l p -> 0 <= id -> i < 2 ^ 30 -> first_free idp id i -> searchable id i ->
  32 ^ Z.of_nat (S l) <= i ->
  i = 32 ^ Z.of_nat (S l) /\ wf_idr idp1 /\
  sub_alloc_loop 100 idp1 ptr p (Z.of_nat l) id id [] = Some (-2, i, idp1).
Proof.
  intros (Ht & Hl & Hl5 & Hp & Hf & Hlen & Hid & Hst & Hcnt & _) H0 Hi (Hle & Hfree & Hu) Hs Hil.
  assert (i = 32 ^ Z.of_nat (S l)) as Hi'.
  { destruct (Z.eq_dec i (32 ^ Z.of_nat (S l))) as [|Hne]; [done|exfalso].
    apply (Hu (32 ^ Z.of_nat (S l))); [lia|]. rewrite <- Hst. apply (stored_out _ l p); [done..|lia]. }
  split; [done|]. split.
  - split; [done|]. rewrite Ht. exists l. split; [done|]. split; [done|]. split; [done|].
    assert (0 <= count p) as H by (apply wf_eq in Hp as (_ & _ & -> & _); unfold used; lia).
    destruct (Z.eq_dec (count p) 0) as [Hz|]; [|lia]. exfalso. apply (Hu id); [lia|by apply Hcnt].
  - rewrite (loop_full _ _ _ _ l); [|done|lia|lia| |].
    + rewrite Z.div_small, Z.add_0_l, Z.mul_1_l, <- Hi' by lia. unfold set_top. rewrite <- Ht.
      by destruct idp1.
    + apply (searchable_spec l) in Hs as [|Hs]; [done|]. destruct l as [|l]; [apply Z.mod_1_r|].
      exfalso. pose proof (pow32_le 2 (S (S l)) ltac:(lia)) as Hp32.
      apply (same_block_up 2 (S (S l))) in Hs; [|lia].
      rewrite Z.div_small, Hi', Z.div_same in Hs by lia. lia.
    + intros j Hj Hb. rewrite (Z.div_small id) in Hb by lia.
      apply Z.div_small_iff in Hb; [|pose proof (pow32_pos (S l)); lia].
      rewrite <- (stored_in idp1 l p), Hst by (done || lia). apply Hu. lia.
Qed.

Lemma build_up_ok fuel idp ptr id i :
  wf_idr idp -> 12 <= layers idp + Z.of_nat (length (id_free idp)) -> 0 <= id -> i < 2 ^ 30 ->
  first_free idp id i -> searchable id i -> ptr <> 0 ->
  exists idp', build_up (S (S fuel)) idp ptr id = Some (i, idp') /\ bound idp i ptr idp' /\
    forall n, (1 <= n)%nat -> layers idp <= Z.of_nat n -> i < 32 ^ Z.of_nat n ->
      layers idp' <= Z.of_nat n.
Proof.
  intros Hw Hlen H0 Hi Hff Hs Hptr. pose proof Hff as (Hle & Hfree & Hu).
  destruct (round_room (S fuel) idp ptr id Hw Hlen ltac:(lia)) as (idp1 & l & p & Hr & ->).
  pose proof Hr as (Ht & Hl & Hl5 & _ & _ & _ & Hid & Hst & Hcnt & Hlay & Hmin).
  destruct (Z.lt_ge_cases i (32 ^ Z.of_nat (S l))) as [Hil|Hil].
  - destruct (room_lands _ _ ptr _ _ _ _ Hr H0 Hi Hff Hs Hil Hptr) as (idp' & -> & Hb & Hly).
    exists idp'. replace (i =? -2) with false by lia. split; [done|]. split; [done|].
    intros n Hn Hln Hin. rewrite Hly. apply Hmin; [done..|lia].
  - destruct (room_climbs _ _ ptr _ _ _ _ Hr H0 Hi Hff Hs Hil) as (Hi' & Hw1 & ->).
    change (-2 =? -2) with true. cbv iota.
    assert (top idp <> None) as Htop.
    { intros E. apply (Hu id); [lia|]. unfold stored. by rewrite E. }
    destruct (round_room fuel idp1 ptr i Hw1 ltac:(specialize (Hlay Htop); lia) ltac:(lia))
      as (idp2 & l2 & p2 & Hr2 & ->).
    pose proof Hr2 as (_ & _ & _ & _ & _ & _ & Hid2 & _ & _ & _ & Hmin2).
    destruct (room_lands _ _ ptr _ _ _ i Hr2) as (idp' & -> & [Hb1 Hb2] & Hly); try done; try lia.
    { split; [lia|]. rewrite Hst. split; [done|]. intros; lia. }
    { by right. }
    exists idp'. replace (i =? -2) with false by lia. split; [done|].
    split; [split; [done|intros j; by rewrite Hb2, Hst]|].
    intros n Hn Hln Hin. rewrite Hly. apply Hmin2; [done| |done]. apply Hmin; [done..|lia].
Qed.

(** The tree without its spare layers is the same tree. *)
Lemma pre_get_wf idp : wf_idr idp ->
  wf_idr (idr_pre_get idp) /\ (forall j, stored (idr_pre_get idp) j = stored idp j) /\
  layers (idr_pre_get idp) = layers idp /\ (14 <= length (id_free (idr_pre_get idp)))%nat.
Proof.
  intros [Hf Ht]. destruct (idr_pre_get_ok idp Hf) as (H1 & H2 & H3 & H4).
  split; [split; [done|by rewrite H3, H4]|]. split; [|done].
  intros j. unfold stored. by rewrite H3, H4.
Qed.

Lemma layers_nonneg idp : wf_idr idp -> 0 <= layers idp.
Proof. intros [_ Ht]. destruct (top idp); [destruct Ht as (l & -> & _)|]; lia. Qed.

Lemma get_new_above_int_ok idp ptr id i :
  wf_idr idp -> 0 <= id -> i < 2 ^ 30 -> first_free idp id i -> searchable id i -> ptr <> 0 ->
  exists idp', idr_get_new_above_int idp ptr id = Some (i, idp') /\ bound idp i ptr idp' /\
    forall n, (1 <= n)%nat -> layers idp <= Z.of_nat n -> i < 32 ^ Z.of_nat n ->
      layers idp' <= Z.of_nat n.
Proof.
  intros Hw H0 Hi (Hle & Hfree & Hu) Hs Hptr. destruct (pre_get_wf idp Hw) as (Hw' & Hst & Hly & Hlen).
  pose proof (layers_nonneg _ Hw').
  destruct (build_up_ok 7 (idr_pre_get idp) ptr id i) as (idp' & E & [Hb1 Hb2] & Hn); try done; try lia.
  { split; [done|]. rewrite Hst. split; [done|]. intros j Hj. rewrite Hst. by apply Hu. }
  exists idp'. split; [exact E|]. split; [|by rewrite <- Hly].
  split; [done|]. intros j. by rewrite Hb2, Hst.
Qed.

(** ** Removal *)

Lemma new_layer_free_ok : free_ok new_layer.
Proof. done. Qed.

(** A layer whose slot [m] changes and whose bit [m] is cleared. *)
Lemma wf_clear l p m s n :
  wf l p -> 0 <= m < 32 -> n = count p - Z.b2z (is_used (slot_at p m)) + Z.b2z (is_used s) ->
  slot_ok (l = O) (below l) false s ->
  wf l (mk_layer (clear_bit m (bitmap p)) (<[Z.to_nat m := s]> (ary p)) n).
Proof.
  intros Hp Hm Hn Hok. apply (wf_update l p); [done|done| | |done|].
  - apply word_clear_bit; [done|by eapply wf_word].
  - intros k Hk Hne. rewrite clear_bit_spec by lia.
    replace (k =? m) with false by lia. apply andb_true_r.
  - rewrite clear_bit_spec, Z.eqb_refl, andb_false_r by lia. done.
Qed.

Lemma count_nonneg l p : wf l p -> 0 <= count p.
Proof. intros (_ & _ & -> & _)%wf_eq. unfold used. lia. Qed.

(** The contents once a child was replaced by one without the id. *)
Lemma get_forget l p b a n s c id j :
  length (ary p) = IDR_SIZE -> a = <[Z.to_nat (digit (S l) id) := s]> (ary p) ->
  slot_at p (digit (S l) id) = Layer c ->
  match s with Layer c => get l c j | _ => 0 end = (if same_low l j id then 0 else get l c j) ->
  is_used s = false \/ (exists c', s = Layer c') ->
  get (S l) (mk_layer b a n) j = if same_low (S l) j id then 0 else get (S l) p j.
Proof.
  intros Hl -> Hs Hj Hshape. pose proof (digit_range (S l) j). pose proof (digit_range (S l) id).
  cbn [get]. rewrite (slot_at_update _ _ _ _ _ _ p), same_low_S by (done || lia).
  destruct (Z.eqb_spec (digit (S l) j) (digit (S l) id)) as [Hd|]; [|done].
  cbn [andb]. rewrite Hd, Hs. destruct s; [done| |done].
  destruct Hshape as [|[c' ?]]; done.
Qed.

Lemma remove_below_ok l fuel p id freed :
  wf l p -> get l p id <> 0 -> (l < fuel)%nat ->
  exists p' fr, remove_below fuel p (IDR_BITS * Z.of_nat l) id freed = (true, p', fr ++ freed) /\
    wf l p' /\ Forall free_ok fr /\
    forall j, get l p' j = if same_low l j id then 0 else get l p j.
Proof.
  revert fuel p freed. induction l as [|l IH]; intros [|fuel] p freed Hp Hg Hfu; [lia| |lia|].
  all: pose proof (proj1 (wf_eq _ p) Hp) as (Hl & Hw & Hc & _); cbn [remove_below].
  - change (0 <? IDR_BITS * Z.of_nat 0) with false. cbv iota zeta.
    pose proof (digit_range 0 id) as Hm. pose proof (wf_slot _ _ _ Hp Hm) as Hs.
    assert (Z.land id IDR_MASK = digit 0 id) as -> by (rewrite land_mask; unfold digit; by rewrite Z.div_1_r).
    cbn [get] in Hg. destruct (slot_at p (digit 0 id)) as [|v|c] eqn:E; [done| |by destruct Hs].
    destruct Hs as (_ & Hv & Hbit). rewrite test_bit_spec, Hbit by lia.
    eexists _, []. split; [reflexivity|]. split; [|split; [done|]].
    + apply (wf_clear 0 p); [done|done|rewrite E; cbn; lia|done].
    + intros j. pose proof (digit_range 0 j). unfold set_count, set_slot, set_bitmap.
      cbn [get bitmap ary count].
      rewrite (slot_at_update _ _ _ _ _ _ p), same_low_O by (done || lia). by destruct (_ =? _).
  - change (0 <? IDR_BITS * Z.of_nat (S l)) with true. cbv iota zeta.
    replace (IDR_BITS * Z.of_nat (S l) - IDR_BITS) with (IDR_BITS * Z.of_nat l) by (unfold IDR_BITS; lia).
    pose proof (digit_range (S l) id) as Hm. pose proof (wf_slot _ _ _ Hp Hm) as Hs.
    rewrite land_mask, shiftr_div32. fold (digit (S l) id).
    change (slot_at (set_bitmap p _) ?m) with (slot_at p m).
    cbn [get] in Hg. destruct (slot_at p (digit (S l) id)) as [|v|c] eqn:E; [done|by destruct Hs|].
    destruct Hs as (Hwc & _ & _).
    destruct (IH fuel c freed Hwc Hg ltac:(lia)) as (c' & fr & -> & Hwc' & Hfr & Hg').
    pose proof (count_nonneg _ _ Hwc').
    cbv iota beta. destruct (Z.eqb_spec (count c') 0) as [H0|Hn0].
    + apply (wf_empty l) in H0 as ->; [|done]. eexists _, (new_layer :: fr).
      split; [reflexivity|]. split; [|split; [by constructor|]].
      * apply (wf_clear (S l) p); [done|done|rewrite E; cbn; lia|done].
      * intros j. eapply get_forget; [done..| |by left]. by rewrite <- Hg', new_layer_get.
    + eexists _, fr. split; [reflexivity|]. split; [|split; [done|]].
      * apply (wf_clear (S l) p); [done|done|rewrite E; cbn; lia|].
        split; [done|]. split; [lia|]. symmetry. apply (free_not_full l c' id); [done|].
        rewrite Hg'. unfold same_low. by rewrite Z.eqb_refl.
      * intros j. eapply get_forget; [done..|apply Hg'|by right; eexists].
Qed.

Lemma trim_free_ok fuel idp : good_free idp ->
  good_free (trim_free fuel idp) /\ top (trim_free fuel idp) = top idp /\
  layers (trim_free fuel idp) = layers idp.
Proof.
  revert idp. induction fuel as [|fuel IH]; intros idp Hf; [done|]. cbn [trim_free].
  destruct (_ <=? _); [|done]. destruct (id_free idp) as [|q f] eqn:E.
  - unfold alloc_layer. by rewrite E.
  - rewrite alloc_layer_ok by (done || (rewrite E; simpl; lia)). cbv iota beta.
    destruct (IH (take_free 1 idp)) as (H1 & H2 & H3); [|by rewrite H2, H3].
    apply take_free_good; [done|rewrite E; simpl; lia].
Qed.

(** A top layer whose only child is the first one. *)
Lemma only_child l p q : wf (S l) p -> count p = 1 -> slot_at p 0 = Layer q ->
  free_ok (mk_layer 0 (ary p) 0) /\ wf l q /\ 0 < count q /\
  forall j, 0 <= j < 32 ^ Z.of_nat (S (S l)) ->
    get (S l) p j = if j <? 32 ^ Z.of_nat (S l) then get l q j else 0.
Proof.
  intros Hp Hc Hs. pose proof (proj1 (wf_eq _ p) Hp) as (Hl & Hw & Hcu & Hsl).
  pose proof (Hsl 0 ltac:(lia)) as H0. rewrite Hs in H0. destruct H0 as (Hq & Hcq & _).
  assert (used (<[Z.to_nat 0 := Null]> (ary p)) = 0) as Hu.
  { rewrite (used_insert _ _ _ (Layer q)); [cbn; lia|]. rewrite <- Hs. by apply slot_lookup. }
  assert (forall m, 0 < m < 32 -> slot_at p m = Null) as Hnull.
  { intros m Hm. apply (used_zero _ Hu (Z.to_nat m)). rewrite list_lookup_insert_ne by lia.
    apply slot_lookup; [done|lia]. }
  split; [|split; [done|split; [done|]]].
  - apply (wf_empty (S l)); [|done]. apply (wf_update (S l) p); try done; try lia.
    + intros k Hk Hne. specialize (Hsl k Hk). rewrite Hnull in Hsl by lia. cbn in Hsl.
      by rewrite Hsl, Z.bits_0.
    + rewrite Hs. cbn. lia.
  - intros j Hj. pose proof (block_div (S l) j) as E.
    rewrite (Z.div_small j (32 ^ Z.of_nat (S (S l)))) in E by done.
    pose proof (pow32_pos (S l)). pose proof (digit_range (S l) j). cbn [get].
    destruct (Z.ltb_spec j (32 ^ Z.of_nat (S l))).
    + by rewrite digit_small, Hs by lia.
    + rewrite Hnull; [done|]. destruct (Z.eq_dec (digit (S l) j) 0) as [E0|]; [|lia].
      rewrite E0, Z.mul_0_r in E. apply Z.div_small_iff in E; lia.
Qed.

Lemma stored_pos_range idp id : wf_idr idp -> stored idp id <> 0 ->
  exists l p, top idp = Some p /\ layers idp = Z.of_nat (S l) /\ (l <= 5)%nat /\ wf l p /\
    0 <= id < 32 ^ Z.of_nat (S l) /\ 32 ^ Z.of_nat (S l) <= 2 ^ 30 /\ get l p id <> 0.
Proof.
  intros [Hf Ht] Hs. destruct (top idp) as [p|] eqn:E; [|unfold stored in Hs; by rewrite E in Hs].
  destruct Ht as (l & Hl & Hl5 & Hp & Hc). exists l, p. do 4 (split; [done|]).
  destruct (decide (0 <= id < 32 ^ Z.of_nat (S l))) as [Hr|Hr]; [|by rewrite (stored_out _ l p) in Hs].
  split; [done|]. split; [|by rewrite (stored_in _ l p) in Hs].
  change (2 ^ 30) with (32 ^ Z.of_nat 6). apply pow32_le. lia.
Qed.

Lemma land_max id : Z.land id MAX_ID_MASK = id mod 2 ^ 31.
Proof. change MAX_ID_MASK with (Z.ones 31). by rewrite Z.land_ones by lia. Qed.

Lemma bound_by_get idp idp' l p p' i :
  top idp = Some p -> layers idp = Z.of_nat (S l) -> top idp' = Some p' ->
  layers idp' = Z.of_nat (S l) -> 0 <= i < 32 ^ Z.of_nat (S l) ->
  (forall j, get l p' j = if same_low l j i then 0 else get l p j) ->
  forall j, stored idp' j = if j =? i then 0 else stored idp j.
Proof.
  intros Ht Hl Ht' Hl' Hi Hg j. destruct (decide (0 <= j < 32 ^ Z.of_nat (S l))) as [Hj|Hj].
  - rewrite (stored_in idp' l p'), (stored_in idp l p), Hg by done.
    unfold same_low. by rewrite !Z.mod_small by lia.
  - rewrite (stored_out idp' l p'), (stored_out idp l p) by done. by destruct (j =? i).
Qed.

Lemma sub_remove_ok idp id : wf_idr idp -> stored idp id <> 0 ->
  exists idp', sub_remove idp ((layers idp - 1) * IDR_BITS) id = Some (0, idp') /\
    bound idp id 0 idp' /\ layers idp' <= layers idp.
Proof.
  intros Hw Hs. destruct (stored_pos_range idp id Hw Hs) as (l & p & Ht & Hl & Hl5 & Hp & Hid & _ & Hg).
  destruct Hw as [Hf _]. unfold sub_remove. change MAX_LEVEL with 7.
  rewrite Ht, Hl, (proj2 (Z.leb_gt 7 (Z.of_nat (S l)))) by lia.
  replace ((Z.of_nat (S l) - 1) * IDR_BITS) with (IDR_BITS * Z.of_nat l) by lia.
  destruct (remove_below_ok l 8 p id [] Hp Hg ltac:(lia)) as (p' & fr & -> & Hp' & Hfr & Hg').
  rewrite app_nil_r. cbv iota beta. set (idp1 := mk_idr (Some p') _ _ _).
  assert (good_free idp1) as Hf1.
  { destruct Hf as [H1 H2]. split; cbn; [by apply Forall_app|rewrite length_app; lia]. }
  pose proof (bound_by_get idp idp1 l p p' id Ht Hl eq_refl eq_refl Hid Hg') as Hst.
  pose proof (count_nonneg _ _ Hp'). destruct (Z.eqb_spec (count p') 0) as [H0|Hn0].
  - apply (wf_empty l) in H0 as ->; [|done]. eexists. split; [reflexivity|].
    split; [|cbn; lia]. split; [split; [by apply (free_layer_good idp1)|done]|].
    intros j. rewrite <- Hst. rewrite (stored_eq idp1 l new_layer), new_layer_get by done.
    by destruct (_ && _).
  - exists idp1. split; [done|]. split; [|cbn; lia]. split; [|done]. split; [done|].
    cbn. exists l. do 3 (split; [done|]). lia.
Qed.

Lemma stored_ext idp idp' : top idp' = top idp -> layers idp' = layers idp ->
  forall j, stored idp' j = stored idp j.
Proof. intros H1 H2 j. unfold stored. by rewrite H1, H2. Qed.

(** The top layer is dropped when only the first slot is used. *)
Definition drop_layer (idp : idr_context) : idr_context :=
  match top idp with
  | Some p =>
      match slot_at p 0 with
      | Layer q =>
          if (count p =? 1) && (1 <? layers idp)
          then let idp := free_layer idp (mk_layer 0 (ary p) 0) in
               mk_idr (Some q) (id_free idp) (layers idp - 1) (id_free_cnt idp)
          else idp
      | _ => idp
      end
  | None => idp
  end.

Lemma drop_layer_ok idp : wf_idr idp ->
  wf_idr (drop_layer idp) /\ (forall j, stored (drop_layer idp) j = stored idp j) /\
  layers (drop_layer idp) <= layers idp.
Proof.
  intros Hw. unfold drop_layer. destruct (top idp) as [p|] eqn:Ht; [|done].
  destruct (slot_at p 0) as [| |q] eqn:E; [done..|].
  destruct (Z.eqb_spec (count p) 1) as [H1|]; [|done].
  destruct (Z.ltb_spec 1 (layers idp)) as [Hl1|]; [|done]. cbn [andb].
  pose proof Hw as [Hf Hl]. rewrite Ht in Hl. destruct Hl as (l & Hl & Hl5 & Hp & _).
  destruct l as [|l]; [lia|]. destruct (only_child l p q Hp H1 E) as (Hfr & Hq & Hcq & Hg).
  set (idp' := mk_idr _ _ _ _). assert (layers idp' = Z.of_nat (S l)) as Hl' by (cbn; lia).
  split; [|split; [|cbn; lia]].
  - split; [by apply (free_layer_good idp)|]. cbn. exists l. do 3 (split; [done || lia|]). done.
  - pose proof (pow32_le (S l) (S (S l)) ltac:(lia)). intros j.
    destruct (decide (0 <= j < 32 ^ Z.of_nat (S (S l)))) as [Hj|Hj].
    + rewrite (stored_eq idp' l q), (stored_in idp (S l) p), Hg by done.
      rewrite (proj2 (Z.leb_le 0 j)) by lia. done.
    + by rewrite (stored_out idp' l q), (stored_out idp (S l) p) by (done || lia).
Qed.

Lemma idr_remove_ok idp id : wf_idr idp -> stored idp id <> 0 ->
  exists idp', idr_remove idp id = Some (0, idp') /\ bound idp id 0 idp' /\ layers idp' <= layers idp.
Proof.
  intros Hw Hs. destruct (stored_pos_range idp id Hw Hs) as (l & p & _ & _ & _ & _ & Hid & Hmax & _).
  unfold idr_remove, _idr_remove. rewrite land_max, Z.mod_small by lia. cbv zeta.
  destruct (sub_remove_ok idp id Hw Hs) as (idp1 & -> & [Hw1 Hst1] & Hl1).
  change (0 =? -1) with false. cbv iota. fold (drop_layer idp1).
  destruct (drop_layer_ok idp1 Hw1) as (Hw2 & Hst2 & Hl2).
  destruct (trim_free_ok (length (id_free (drop_layer idp1))) (drop_layer idp1)) as (H1 & H2 & H3);
    [apply Hw2|].
  eexists. split; [reflexivity|]. split; [|lia]. split; [split; [done|rewrite H2, H3; apply Hw2]|].
  intros j. by rewrite (stored_ext _ _ H2 H3), Hst2.
Qed.

(** ** Search *)

Lemma find_loop_ok l p id : wf l p -> 0 <= id ->
  find_loop (S l) (Layer p) id = Some (get l p id).
Proof.
  revert p. induction l as [|l IH]; intros p Hp Hid; cbn [find_loop get]; rewrite id_digit_spec.
  - pose proof (wf_slot _ _ _ Hp (digit_range 0 id)) as Hs.
    destruct (slot_at p (digit 0 id)); [done|done|by destruct Hs].
  - pose proof (wf_slot _ _ _ Hp (digit_range (S l) id)) as Hs.
    destruct (slot_at p (digit (S l) id)) as [|v|c] eqn:E; [done|by destruct Hs|].
    destruct Hs as (Hc & _). by apply IH.
Qed.

Lemma idr_find_ok idp id : wf_idr idp -> layers idp <= 5 ->
  idr_find idp id =
  Some (if id mod 2 ^ 31 <? 32 ^ (layers idp + 1)
        then stored idp ((id mod 2 ^ 31) mod 32 ^ layers idp) else 0).
Proof.
  intros [_ Ht] H5. unfold idr_find, _idr_find. rewrite land_max. set (u := id mod 2 ^ 31).
  assert (0 <= u) as Hu by (apply Z.mod_pos_bound; lia).
  assert (exists n, layers idp = Z.of_nat n) as [n Hn].
  { destruct (top idp); [destruct Ht as (l & -> & _); by eexists|exists O; lia]. }
  rewrite Hn in *. replace (Z.of_nat n + 1) with (Z.of_nat (S n)) by lia.
  replace (Z.of_nat n * IDR_BITS + IDR_BITS) with (IDR_BITS * Z.of_nat (S n)) by (unfold IDR_BITS; lia).
  rewrite (proj2 (Z.leb_gt 32 _)) by (unfold IDR_BITS; lia). rewrite shiftr_div32.
  pose proof (pow32_pos (S n)). destruct (Z.ltb_spec u (32 ^ Z.of_nat (S n))) as [Hlt|Hge].
  - rewrite Z.div_small by lia. cbn [Z.eqb negb]. cbv zeta. rewrite Nat2Z.id.
    destruct (top idp) as [p|] eqn:E.
    + destruct Ht as (l & Hl & _ & Hp & _). assert (n = S l) as -> by lia.
      rewrite find_loop_ok, (stored_in _ l p), get_mod by (done || apply Z.mod_pos_bound, pow32_pos).
      done.
    + unfold stored. rewrite E. by destruct n.
  - destruct (Z.eqb_spec (u / 32 ^ Z.of_nat (S n)) 0) as [E|]; [|done].
    apply Z.div_small_iff in E; lia.
Qed.

Lemma find_stored idp id : wf_idr idp -> layers idp <= 5 -> stored idp id <> 0 ->
  idr_find idp id = Some (stored idp id).
Proof.
  intros Hw H5 Hs.
  destruct (stored_pos_range idp id Hw Hs) as (l & p & _ & Hl & _ & _ & Hid & Hmax & _).
  rewrite idr_find_ok by done. rewrite (Z.mod_small id (2 ^ 31)), Hl, (Z.mod_small id) by lia.
  replace (Z.of_nat (S l) + 1) with (Z.of_nat (S (S l))) by lia.
  pose proof (pow32_le (S l) (S (S l)) ltac:(lia)). by rewrite (proj2 (Z.ltb_lt id _)) by lia.
Qed.

(** ** What the interface promises *)

(** The check against the limit takes the id back. *)
Definition limited (idp : idr_context) (ptr i limit : Z) (r : Z) (idp' : idr_context) : Prop :=
  wf_idr idp' /\
  if i <=? limit then r = i /\ forall j, stored idp' j = if j =? i then ptr else stored idp j
  else r = -1 /\ forall j, stored idp' j = stored idp j.

Lemma new_above_ok idp ptr start limit i :
  wf_idr idp -> ptr <> 0 -> 0 <= start -> i < 2 ^ 30 -> first_free idp start i ->
  searchable start i ->
  exists r idp', idr_get_new_above idp ptr start limit = Some (r, idp') /\
    limited idp ptr i limit r idp' /\
    forall n, (1 <= n)%nat -> layers idp <= Z.of_nat n -> i < 32 ^ Z.of_nat n ->
       layers idp' <= Z.of_nat n.
Proof.
  intros Hw Hptr H0 Hi Hff Hs. unfold idr_get_new_above, limited.
  destruct (get_new_above_int_ok idp ptr start i) as (idp1 & -> & [Hw1 Hst1] & Hn1); [done..|].
  destruct (Z.ltb_spec limit i) as [Hlt|Hge].
  - destruct (idr_remove_ok idp1 i) as (idp2 & -> & [Hw2 Hst2] & Hl2);
      [done|by rewrite Hst1, Z.eqb_refl|].
    exists (-1), idp2. rewrite (proj2 (Z.leb_gt i limit)) by done.
    split; [done|]. split; [|intros n Hn Hl Hin; specialize (Hn1 n Hn Hl Hin); lia].
    split; [done|]. split; [done|].
    intros j. rewrite Hst2, Hst1. destruct (Z.eqb_spec j i) as [->|]; [|done].
    symmetry. apply Hff.
  - exists i, idp1. rewrite (proj2 (Z.leb_le i limit)) by done. done.
Qed.

(** C17: [idr_get_new_above] gives the first id at or above the start that is not in
    use, or -1, without a trace, when that is beyond the limit: if the start is
    0, or the id lies in the block of 1024 ids of the start.  No other binding
    changes, and the new id is found. *)
Theorem idr_get_new_above_correct idp ptr start limit i :
  wf_idr idp -> layers idp <= 5 -> ptr <> 0 -> 0 <= start -> i < 2 ^ 25 ->
  first_free idp start i -> searchable start i ->
  exists r idp', idr_get_new_above idp ptr start limit = Some (r, idp') /\
    limited idp ptr i limit r idp' /\ layers idp' <= 5 /\
    (r <> -1 -> idr_find idp' r = Some ptr).
Proof.
  intros Hw H5 Hptr H0 Hi Hff Hs.
  destruct (new_above_ok idp ptr start limit i) as (r & idp' & E & Hlim & Hn); [done..|lia|done|done|].
  specialize (Hn 5%nat ltac:(lia) H5 ltac:(change (32 ^ Z.of_nat 5) with (2 ^ 25); lia)).
  exists r, idp'. split; [done|]. split; [done|]. split; [lia|]. intros Hr.
  destruct Hlim as [Hw' Hst]. destruct (i <=? limit); [|by destruct Hst].
  destruct Hst as [-> Hst]. pose proof (Hst i) as Hsti. rewrite Z.eqb_refl in Hsti.
  rewrite <- Hsti. apply find_stored; [done|lia|by rewrite Hsti].
Qed.

Lemma idr_init_wf : wf_idr idr_init.
Proof. split; [split; [constructor|]|]; done. Qed.

Lemma idr_get_new_above_correct_witness :
  exists r idp', idr_get_new_above idr_init 77 40 100 = Some (r, idp') /\
    limited idr_init 77 40 100 r idp' /\ layers idp' <= 5 /\
    (r <> -1 -> idr_find idp' r = Some 77).
Proof.
  apply (idr_get_new_above_correct idr_init 77 40 100 40).
  - exact idr_init_wf.
  - vm_compute. discriminate.
  - lia.
  - lia.
  - lia.
  - split; [lia|]. split; [reflexivity|]. intros; lia.
  - right. reflexivity.
Defined.

(** ** A finite map *)

Inductive idr_op : Type :=
  | New (ptr limit : Z)
  | Remove (id : Z)
  | Find (id : Z).

Definition run_op (idp : idr_context) (op : idr_op) : option (Z * idr_context) :=
  match op with
  | New ptr limit => idr_get_new idp ptr limit
  | Remove id => idr_remove idp id
  | Find id => v ← idr_find idp id; Some (v, idp)
  end.

(** What a caller may ask: the ids it removes and looks up are ids it holds. *)
Definition allowed (m : gmap Z Z) (op : idr_op) : Prop :=
  match op with
  | New ptr limit => ptr <> 0 /\ 0 <= limit < 2 ^ 25 - 1
  | Remove id | Find id => is_Some (m !! id)
  end.

Inductive map_op (m : gmap Z Z) : idr_op -> Z -> gmap Z Z -> Prop :=
  | map_new ptr limit i :
      0 <= i <= limit -> m !! i = None -> (forall j, 0 <= j < i -> is_Some (m !! j)) ->
      map_op m (New ptr limit) i (<[i := ptr]> m)
  | map_new_full ptr limit :
      (forall j, 0 <= j <= limit -> is_Some (m !! j)) -> map_op m (New ptr limit) (-1) m
  | map_remove id : is_Some (m !! id) -> map_op m (Remove id) 0 (delete id m)
  | map_find id v : m !! id = Some v -> map_op m (Find id) v m.

Definition refines (idp : idr_context) (m : gmap Z Z) : Prop :=
  wf_idr idp /\ layers idp <= 5 /\ (forall j, stored idp j = default 0 (m !! j)) /\
  forall j v, m !! j = Some v -> 0 <= j < 2 ^ 25 - 1 /\ v <> 0.

Lemma least_unused (m : gmap Z Z) n :
  (forall j, 0 <= j < Z.of_nat n -> is_Some (m !! j)) \/
  exists i, 0 <= i < Z.of_nat n /\ m !! i = None /\ forall j, 0 <= j < i -> is_Some (m !! j).
Proof.
  induction n as [|n [IH|(i & Hi & Hn & Hj)]].
  - left. lia.
  - destruct (m !! Z.of_nat n) as [v|] eqn:E.
    + left. intros j Hj. destruct (Z.eq_dec j (Z.of_nat n)) as [->|]; [by eexists|apply IH; lia].
    + right. exists (Z.of_nat n). split; [lia|]. done.
  - right. exists i. split; [lia|]. done.
Qed.

Lemma refines_stored idp m j : refines idp m -> stored idp j <> 0 <-> is_Some (m !! j).
Proof.
  intros (_ & _ & Hst & Hm). rewrite Hst. destruct (m !! j) as [v|] eqn:E; cbn.
  - split; [by eexists|]. intros _. by eapply Hm.
  - split; [done|by intros [? ?]].
Qed.

Lemma refines_least idp m : refines idp m ->
  exists i, 0 <= i < 2 ^ 25 /\ m !! i = None /\ (forall j, 0 <= j < i -> is_Some (m !! j)) /\
    first_free idp 0 i.
Proof.
  intros Hr. destruct (least_unused m (Z.to_nat (2 ^ 25))) as [Hall|(i & Hi & Hn & Hj)];
    rewrite Z2Nat.id in * by lia.
  - exfalso. destruct (Hall (2 ^ 25 - 1) ltac:(lia)) as [v Hv]. apply Hr in Hv as [? _]. lia.
  - exists i. do 3 (split; [done|]). split; [lia|]. split.
    + destruct Hr as (_ & _ & Hst & _). by rewrite Hst, Hn.
    + intros j Hjj. apply (refines_stored _ m); [done|]. by apply Hj.
Qed.

Lemma refines_bound idp idp' m m' i v :
  refines idp m -> wf_idr idp' -> layers idp' <= 5 ->
  (forall j, stored idp' j = if j =? i then v else stored idp j) ->
  (forall j, m' !! j = if j =? i then (if v =? 0 then None else Some v) else m !! j) ->
  0 <= i < 2 ^ 25 - 1 -> refines idp' m'.
Proof.
  intros (_ & _ & Hst & Hm) Hw H5 Hst' Hm' Hi. split; [done|]. split; [done|]. split.
  - intros j. rewrite Hst', Hm', Hst. destruct (j =? i); [|done]. by destruct (Z.eqb_spec v 0) as [->|].
  - intros j w. rewrite Hm'. destruct (Z.eqb_spec j i) as [->|]; [|apply Hm].
    destruct (Z.eqb_spec v 0); [done|]. by intros [= <-].
Qed.

(** C16: an id tree used within its contract is a finite map: [idr_get_new] takes
    the least unused id up to its limit and fails only when there is none,
    [idr_remove] and [idr_find] delete and look up.  The empty tree is the empty
    map. *)
Theorem idr_refines_map :
  refines idr_init ∅ /\
  forall idp m op, refines idp m -> allowed m op ->
    exists r idp' m', run_op idp op = Some (r, idp') /\ map_op m op r m' /\ refines idp' m'.
Proof.
  split; [split; [apply idr_init_wf|]; split; [cbn; lia|]; split; [|done]; done|].
  intros idp m op Hr Ha. pose proof Hr as (Hw & H5 & Hst & Hm). destruct op as [ptr limit|id|id]; cbn [run_op allowed] in *.
  - destruct Ha as [Hptr Hlim]. destruct (refines_least idp m Hr) as (i & Hi & Hn & Hj & Hff).
    destruct (new_above_ok idp ptr 0 limit i) as (r & idp' & E & [Hw' Hres] & Hn5);
      try done; try lia; [by left|].
    specialize (Hn5 5%nat ltac:(lia) H5 ltac:(change (32 ^ Z.of_nat 5) with (2 ^ 25); lia)).
    destruct (Z.leb_spec i limit) as [Hle|Hgt]; destruct Hres as [-> Hst'].
    + exists i, idp', (<[i := ptr]> m). split; [done|]. split; [apply map_new; [lia|done..]|].
      apply (refines_bound idp _ m _ i ptr); [done|done|lia|done| |lia].
      intros j. rewrite (proj2 (Z.eqb_neq ptr 0)) by done.
      destruct (Z.eqb_spec j i) as [->|]; [by rewrite lookup_insert_eq|by rewrite lookup_insert_ne].
    + exists (-1), idp', m. split; [done|]. split; [apply map_new_full; intros; apply Hj; lia|].
      split; [done|]. split; [lia|]. split; [|done]. intros j. by rewrite Hst'.
  - pose proof Ha as [v Hv]. apply Hm in Hv as [Hid _]. apply (refines_stored idp) in Ha as Hs; [|done].
    destruct (idr_remove_ok idp id Hw Hs) as (idp1 & -> & [Hw1 Hst1] & Hl1).
    exists 0, idp1, (delete id m). split; [done|]. split; [by apply map_remove|].
    apply (refines_bound idp _ m _ id 0); [done|done|lia|done| |done].
    intros j. destruct (Z.eqb_spec j id) as [->|]; [by rewrite lookup_delete_eq|by rewrite lookup_delete_ne].
  - pose proof Ha as [v Hv]. apply (refines_stored idp) in Ha as Hs; [|done].
    exists v, idp, m. split; [|split; [by apply map_find|done]].
    rewrite find_stored by done. cbn. by rewrite Hst, Hv.
Qed.

Lemma idr_refines_map_witness :
  exists r idp' m', run_op idr_init (New 77 100) = Some (r, idp') /\
    map_op ∅ (New 77 100) r m' /\ refines idp' m'.
Proof.
  apply (proj2 idr_refines_map).
  - exact (proj1 idr_refines_map).
  - split; lia.
Defined.

(** When the last leaf of a block of 1024 ids has no room from the start on,
    the loop goes on with the next block of ids but in the layer of the old one:
    the id it returns is not the one it marks, and is handed out again. *)
Theorem idr_same_id_twice :
  exists idp1 idp2 idp3,
    idr_get_new_above idr_init 1 1023 5000 = Some (1023, idp1) /\
    idr_get_new_above idp1 2 1023 5000 = Some (1024, idp2) /\
    stored idp2 1024 = 0 /\ stored idp2 0 = 2 /\ idr_find idp2 1024 = Some 2 /\
    idr_get_new_above idp2 3 1024 5000 = Some (1024, idp3) /\ idr_find idp3 1024 = Some 3.
Proof.
  do 3 eexists. do 6 (split; [vm_compute; reflexivity|]). vm_compute. reflexivity.
Qed.
