(* ===== verification/Talloc.v ===== *)
(** * Hierarchical memory ([source4/lib/talloc/talloc.c])

    Memory is a map from the addresses of chunks to their headers and to what
    follows the header; a pointer of the user and the address of its chunk are the
    same number, and 0 is [NULL].  Freed memory is not in the map, so reading it
    has no result.  A computation that has none, [None], reads or writes memory
    that is not allocated, or beyond a buffer, aborts on a bad magic value, or is out
    of fuel.

    [malloc], [realloc] and the destructors of the users are parameters; a
    destructor may do anything to the state.  [vsnprintf] is one too: functions
    with a format take the formatted text, [None] when it fails.  A [size_t] has 64
    bits. *)

From S2P Require Import Prelude.

(** ** Data *)

Definition MAX_TALLOC_SIZE : Z := 0x10000000.
Definition TALLOC_MAGIC : Z := 0xe814ec70.
Definition TALLOC_FLAG_FREE : Z := 1.
Definition TALLOC_FLAG_LOOP : Z := 2.
Definition TC_HDR_SIZE : Z := Z.ldiff (72 + 15) 15.

(** [TALLOC_MAGIC_REFERENCE] is a pointer that no string has. *)
Inductive name_ptr : Set :=
  | Name_null
  | TALLOC_MAGIC_REFERENCE
  | Name_const (s : list Z)
  | Name_at (ptr : Z).

#[export] Instance name_ptr_eq_dec : EqDecision name_ptr.
Proof. solve_decision. Defined.

(** [Destructor_running] is the value -1. *)
Inductive talloc_destructor_t : Set :=
  | Destructor_null
  | Destructor_running
  | Destructor_reference
  | Destructor_autofree
  | Destructor_user (d : Z).

Record talloc_reference_handle : Set := mk_handle { h_next : Z; h_prev : Z; h_ptr : Z }.

(** What follows a header; [None] is a byte nobody has written. *)
Inductive payload : Set :=
  | Bytes (b : list (option Z))
  | Handle (h : talloc_reference_handle).

Record talloc_chunk : Set := mk_chunk {
  next : Z; prev : Z;
  parent : Z; child : Z;
  refs : Z;
  destructor : talloc_destructor_t;
  name : name_ptr;
  tc_size : Z;
  flags : Z;
  data : payload
}.

Definition set_next v c := mk_chunk v (prev c) (parent c) (child c) (refs c) (destructor c) (name c) (tc_size c) (flags c) (data c).
Definition set_prev v c := mk_chunk (next c) v (parent c) (child c) (refs c) (destructor c) (name c) (tc_size c) (flags c) (data c).
Definition set_parent v c := mk_chunk (next c) (prev c) v (child c) (refs c) (destructor c) (name c) (tc_size c) (flags c) (data c).
Definition set_child v c := mk_chunk (next c) (prev c) (parent c) v (refs c) (destructor c) (name c) (tc_size c) (flags c) (data c).
Definition set_refs v c := mk_chunk (next c) (prev c) (parent c) (child c) v (destructor c) (name c) (tc_size c) (flags c) (data c).
Definition set_destructor v c := mk_chunk (next c) (prev c) (parent c) (child c) (refs c) v (name c) (tc_size c) (flags c) (data c).
Definition set_name v c := mk_chunk (next c) (prev c) (parent c) (child c) (refs c) (destructor c) v (tc_size c) (flags c) (data c).
Definition set_size v c := mk_chunk (next c) (prev c) (parent c) (child c) (refs c) (destructor c) (name c) v (flags c) (data c).
Definition set_flags v c := mk_chunk (next c) (prev c) (parent c) (child c) (refs c) (destructor c) (name c) (tc_size c) v (data c).
Definition set_data v c := mk_chunk (next c) (prev c) (parent c) (child c) (refs c) (destructor c) (name c) (tc_size c) (flags c) v.

Inductive exit_function : Set :=
  | Exit_report_null
  | Exit_report_null_full
  | Exit_autofree.

(** [exits] are the functions given to [atexit]. *)
Record state : Set := mk_state {
  heap : gmap Z talloc_chunk;
  null_context : Z;
  autofree_context : Z;
  exits : list exit_function
}.

Definition set_heap h s := mk_state h (null_context s) (autofree_context s) (exits s).
Definition set_null_context p s := mk_state (heap s) p (autofree_context s) (exits s).
Definition set_autofree_context p s := mk_state (heap s) (null_context s) p (exits s).
Definition add_exit f s := mk_state (heap s) (null_context s) (autofree_context s) (f :: exits s).

(** ** Computations *)

Definition T (A : Type) : Type := state -> option (A * state).

Definition t_ret {A} (a : A) : T A := fun s => Some (a, s).
Definition t_bind {A B} (m : T A) (k : A -> T B) : T B :=
  fun s => match m s with Some (a, s') => k a s' | None => None end.
Definition t_get : T state := fun s => Some (s, s).
Definition t_modify (f : state -> state) : T unit := fun s => Some (tt, f s).
Definition t_none {A} : T A := fun _ => None.

Declare Scope talloc_scope.
Delimit Scope talloc_scope with talloc.
Notation "'do' x <- m ; k" := (t_bind m (fun x => k))
  (at level 60, x pattern, m at next level, right associativity) : talloc_scope.
Notation "'do!' m ; k" := (t_bind m (fun _ => k))
  (at level 60, m at next level, right associativity) : talloc_scope.
#[global] Open Scope talloc_scope.

Definition t_when (b : bool) (m : T unit) : T unit := if b then m else t_ret tt.

(** [p != NULL] *)
Definition set (p : Z) : bool := negb (p =? 0).

(** [*p], and an assignment to a field of [*p]. *)
Definition chunk (p : Z) : T talloc_chunk :=
  fun s => match heap s !! p with Some c => Some (c, s) | None => None end.
Definition assign (p : Z) (f : talloc_chunk -> talloc_chunk) : T unit :=
  fun s => match heap s !! p with
           | Some c => Some (tt, set_heap (<[p := f c]> (heap s)) s)
           | None => None
           end.

Definition handle (p : Z) : T talloc_reference_handle :=
  do c <- chunk p; match data c with Handle h => t_ret h | Bytes _ => t_none end.
Definition assign_handle (p : Z) (f : talloc_reference_handle -> talloc_reference_handle) : T unit :=
  do h <- handle p; assign p (set_data (Handle (f h))).

Definition set_h_next v h := mk_handle v (h_prev h) (h_ptr h).
Definition set_h_prev v h := mk_handle (h_next h) v (h_ptr h).

(** Bytes at an offset of the memory of a pointer. *)
Definition write (p off : Z) (bs : list Z) : T unit :=
  do c <- chunk p;
  match data c with
  | Bytes b =>
    if (0 <=? off) && (off + Z.of_nat (length bs) <=? Z.of_nat (length b))
    then assign p (set_data (Bytes (take (Z.to_nat off) b ++ map Some bs ++ drop (Z.to_nat off + length bs) b)))
    else t_none
  | Handle _ => t_none
  end.

Fixpoint c_string (b : list (option Z)) : option (list Z) :=
  match b with
  | Some c :: b => if c =? 0 then Some [] else cons c <$> c_string b
  | _ => None
  end.

(** The string at a pointer. *)
Definition string_at (p : Z) : T (list Z) :=
  do c <- chunk p;
  match data c with
  | Bytes b => match c_string b with Some s => t_ret s | None => t_none end
  | Handle _ => t_none
  end.

(** The string of a name that is not [NULL]. *)
Definition name_string (n : name_ptr) : T (list Z) :=
  match n with
  | Name_const s => t_ret s
  | Name_at p => string_at p
  | Name_null | TALLOC_MAGIC_REFERENCE => t_none
  end.

(** More steps than any walk or any free needs. *)
Definition enough (s : state) : nat := 4 * size (heap s) + 4.
Definition t_fuel {A} (m : nat -> T A) : T A := do s <- t_get; m (enough s).

(** ** Lists *)

Section tlist.
Context (list : T Z) (set_list : Z -> T unit).
Context (p_next p_prev : Z -> T Z) (set_p_next set_p_prev : Z -> Z -> T unit).

Definition _TLIST_ADD (p : Z) : T unit :=
  do l <- list;
  if negb (set l) then
    do! set_list p;
    do! set_p_prev p 0;
    set_p_next p 0
  else
    do! set_p_prev l p;
    do! set_p_next p l;
    do! set_p_prev p 0;
    set_list p.

Definition _TLIST_REMOVE (p : Z) : T unit :=
  do l <- list;
  do! (if p =? l then
         do n <- p_next p;
         do! set_list n;
         do l <- list;
         t_when (set l) (set_p_prev l 0)
       else
         do pv <- p_prev p;
         do! t_when (set pv) (do n <- p_next p; set_p_next pv n);
         do n <- p_next p;
         t_when (set n) (do pv <- p_prev p; set_p_prev n pv));
  do l <- list;
  t_when (set p && negb (p =? l))
    (do! set_p_prev p 0;
     set_p_next p 0).
End tlist.

(** The lists [tc->child] and [tc->refs]. *)
Section lists.
Context (tc : Z).

Definition the_child : T Z := do c <- chunk tc; t_ret (child c).
Definition the_refs : T Z := do c <- chunk tc; t_ret (refs c).

Definition TLIST_ADD_child : Z -> T unit :=
  _TLIST_ADD the_child (fun v => assign tc (set_child v))
    (fun p v => assign p (set_next v)) (fun p v => assign p (set_prev v)).

Definition TLIST_REMOVE_child : Z -> T unit :=
  _TLIST_REMOVE the_child (fun v => assign tc (set_child v))
    (fun p => do c <- chunk p; t_ret (next c)) (fun p => do c <- chunk p; t_ret (prev c))
    (fun p v => assign p (set_next v)) (fun p v => assign p (set_prev v)).

Definition TLIST_ADD_refs : Z -> T unit :=
  _TLIST_ADD the_refs (fun v => assign tc (set_refs v))
    (fun p v => assign_handle p (set_h_next v)) (fun p v => assign_handle p (set_h_prev v)).

Definition TLIST_REMOVE_refs : Z -> T unit :=
  _TLIST_REMOVE the_refs (fun v => assign tc (set_refs v))
    (fun p => do h <- handle p; t_ret (h_next h)) (fun p => do h <- handle p; t_ret (h_prev h))
    (fun p v => assign_handle p (set_h_next v)) (fun p v => assign_handle p (set_h_prev v)).
End lists.

(** ** The tree *)

Definition talloc_chunk_from_ptr (ptr : Z) : T talloc_chunk :=
  do tc <- chunk ptr;
  if negb (Z.land (flags tc) (TALLOC_FLAG_FREE ||| Z.ldiff 0xffffffff 15) =? TALLOC_MAGIC)
  then t_none
  else t_ret tc.

(** [while (tc->prev) tc=tc->prev;], then [tc->parent]. *)
Fixpoint first_parent (fuel : nat) (tc : Z) : T Z :=
  match fuel with
  | O => t_none
  | S fuel =>
    do c <- chunk tc;
    if set (prev c) then first_parent fuel (prev c) else t_ret (parent c)
  end.

Definition talloc_parent_chunk (ptr : Z) : T Z :=
  if negb (set ptr) then t_ret 0 else
  do! talloc_chunk_from_ptr ptr;
  t_fuel (fun fuel => first_parent fuel ptr).

Definition talloc_parent (ptr : Z) : T Z := talloc_parent_chunk ptr.

Definition talloc_parent_name (ptr : Z) : T name_ptr :=
  do tc <- talloc_parent_chunk ptr;
  if set tc then (do c <- chunk tc; t_ret (name c)) else t_ret Name_null.

(** The walk upwards that [talloc_is_parent] and [talloc_find_parent_byname]
    share: the first chunk that passes the test, or 0. *)
Fixpoint find_up (test : Z -> T bool) (fuel : nat) (tc : Z) : T Z :=
  match fuel with
  | O => t_none
  | S fuel =>
    if negb (set tc) then t_ret 0 else
    do found <- test tc;
    if found : bool then t_ret tc else
    do p <- t_fuel (fun fuel => first_parent fuel tc);
    find_up test fuel p
  end.

Definition talloc_is_parent (context ptr : Z) : T Z :=
  if negb (set context) then t_ret 0 else
  do! talloc_chunk_from_ptr context;
  do r <- t_fuel (fun fuel => find_up (fun tc => t_ret (tc =? ptr)) fuel context);
  t_ret (if set r then 1 else 0).

Definition has_name (wanted : list Z) (tc : Z) : T bool :=
  do c <- chunk tc;
  match name c with
  | Name_null => t_ret false
  | n => do s <- name_string n; t_ret (bool_decide (s = wanted))
  end.

Definition talloc_find_parent_byname (context : Z) (wanted : list Z) : T Z :=
  if negb (set context) then t_ret 0 else
  do! talloc_chunk_from_ptr context;
  t_fuel (fun fuel => find_up (has_name wanted) fuel context).

(** ** Allocation *)

Class Malloc : Type := {
  malloc : gmap Z talloc_chunk -> Z -> option Z;
  realloc : gmap Z talloc_chunk -> Z -> Z -> option Z
}.

(** What the C standard says of them. *)
Class MallocSpec (M : Malloc) : Prop := {
  malloc_fresh h n p : malloc h n = Some p -> 0 < p /\ h !! p = None;
  realloc_fresh h p n q : realloc h p n = Some q -> 0 < q /\ (q = p \/ h !! q = None)
}.

Section talloc.
Context {M : Malloc} (user_destructor : Z -> Z -> T Z).

Definition context_of (context : Z) : T Z :=
  if set context then t_ret context else (do s <- t_get; t_ret (null_context s)).

Definition __talloc (context size : Z) : T Z :=
  do context <- context_of context;
  if MAX_TALLOC_SIZE <=? size then t_ret 0 else
  do s <- t_get;
  match malloc (heap s) (TC_HDR_SIZE + size) with
  | None => t_ret 0
  | Some tc =>
    do! t_modify (fun s => set_heap (<[tc := mk_chunk 0 0 0 0 0 Destructor_null Name_null size TALLOC_MAGIC
                                              (Bytes (replicate (Z.to_nat size) None))]> (heap s)) s);
    do! (if set context then
           do parent <- talloc_chunk_from_ptr context;
           do! (if set (child parent) then
                  do! assign (child parent) (set_parent 0);
                  do! assign tc (set_next (child parent));
                  assign (child parent) (set_prev tc)
                else assign tc (set_next 0));
           do! assign tc (set_parent context);
           do! assign tc (set_prev 0);
           assign context (set_child tc)
         else
           assign tc (fun c => set_next 0 (set_prev 0 (set_parent 0 c))));
    t_ret tc
  end.

Definition _talloc := __talloc.

Definition _talloc_set_destructor (ptr : Z) (d : talloc_destructor_t) : T unit :=
  do! talloc_chunk_from_ptr ptr;
  assign ptr (set_destructor d).

Definition _talloc_set_name_const (ptr : Z) (n : name_ptr) : T unit :=
  do! talloc_chunk_from_ptr ptr;
  assign ptr (set_name n).

Definition talloc_set_name_const := _talloc_set_name_const.

Definition _talloc_named_const (context size : Z) (n : name_ptr) : T Z :=
  do ptr <- __talloc context size;
  if negb (set ptr) then t_ret 0 else
  do! _talloc_set_name_const ptr n;
  t_ret ptr.

Definition talloc_named_const := _talloc_named_const.

Definition sizeof_handle : Z := 24.

Definition _talloc_reference (context ptr : Z) : T Z :=
  if negb (set ptr) then t_ret 0 else
  do! talloc_chunk_from_ptr ptr;
  do handle <- _talloc_named_const context sizeof_handle TALLOC_MAGIC_REFERENCE;
  if negb (set handle) then t_ret 0 else
  do! _talloc_set_destructor handle Destructor_reference;
  do! assign handle (set_data (Handle (mk_handle 0 0 ptr)));
  do! TLIST_ADD_refs ptr handle;
  t_ret ptr.

Definition talloc_increase_ref_count (ptr : Z) : T Z :=
  do s <- t_get;
  do r <- _talloc_reference (null_context s) ptr;
  t_ret (if set r then 0 else -1).

Definition talloc_reference_destructor (ptr : Z) : T Z :=
  do h <- handle ptr;
  do! talloc_chunk_from_ptr (h_ptr h);
  do! TLIST_REMOVE_refs (h_ptr h) ptr;
  t_ret 0.

Definition talloc_autofree_destructor (ptr : Z) : T Z :=
  do! t_modify (set_autofree_context 0);
  t_ret 0.

(** Taking a chunk out of the list of its siblings. *)
Definition unlink_chunk (tc : Z) : T unit :=
  do c <- chunk tc;
  if set (parent c) then
    do! TLIST_REMOVE_child (parent c) tc;
    do p <- chunk (parent c);
    t_when (set (child p)) (assign (child p) (set_parent (parent c)))
  else
    do! t_when (set (prev c)) (assign (prev c) (set_next (next c)));
    t_when (set (next c)) (assign (next c) (set_prev (prev c))).

Definition _talloc_steal (new_ctx ptr : Z) : T Z :=
  if negb (set ptr) then t_ret 0 else
  do new_ctx <- context_of new_ctx;
  do tc <- talloc_chunk_from_ptr ptr;
  if negb (set new_ctx) then
    do! unlink_chunk ptr;
    do! assign ptr (fun c => set_parent 0 (set_next 0 (set_prev 0 c)));
    t_ret ptr
  else
    do! talloc_chunk_from_ptr new_ctx;
    if (ptr =? new_ctx) || (parent tc =? new_ctx) then t_ret ptr else
    do! unlink_chunk ptr;
    do! assign ptr (set_parent new_ctx);
    do new_tc <- chunk new_ctx;
    do! t_when (set (child new_tc)) (assign (child new_tc) (set_parent 0));
    do! TLIST_ADD_child new_ctx ptr;
    t_ret ptr.

Definition _talloc_move (new_ctx pptr : Z) : T (Z * Z) :=
  do ret <- _talloc_steal new_ctx pptr;
  t_ret (ret, 0).

(** ** Freeing *)

(** [d(ptr)] *)
Definition call_destructor (d : talloc_destructor_t) (ptr : Z) : T Z :=
  match d with
  | Destructor_reference => talloc_reference_destructor ptr
  | Destructor_autofree => talloc_autofree_destructor ptr
  | Destructor_user d => user_destructor d ptr
  | Destructor_null | Destructor_running => t_none
  end.

(** The destructor of a chunk that is about to go: [false] when it stays. *)
Definition run_destructor (ptr : Z) : T bool :=
  do tc <- chunk ptr;
  match destructor tc with
  | Destructor_null => t_ret true
  | Destructor_running => t_ret false
  | d =>
    do! assign ptr (set_destructor Destructor_running);
    do r <- call_destructor d ptr;
    if r =? -1 then
      do! assign ptr (set_destructor d);
      t_ret false
    else
      do! assign ptr (set_destructor Destructor_null);
      t_ret true
  end.

(** Who owns the child of [ptr] if it cannot be freed: as the loops begin, and
    after it could not be freed. *)
Definition first_owner (child : Z) : T Z :=
  do c <- chunk child;
  do s <- t_get;
  if set (refs c) then
    do p <- talloc_parent_chunk (refs c);
    t_ret (if set p then p else null_context s)
  else t_ret (null_context s).

Definition last_owner (ptr new_parent : Z) : T Z :=
  do s <- t_get;
  if new_parent =? null_context s then
    do p <- talloc_parent_chunk ptr;
    t_ret (if set p then p else new_parent)
  else t_ret new_parent.

(** [_talloc_free], and its loop over the children, which is the one of
    [talloc_free_children]. *)
Fixpoint free_chunk (fuel : nat) (ptr : Z) : T Z :=
  match fuel with
  | O => t_none
  | S fuel =>
    if negb (set ptr) then t_ret (-1) else
    do tc <- talloc_chunk_from_ptr ptr;
    if set (refs tc) then
      do is_child <- talloc_is_parent (refs tc) ptr;
      do! free_chunk fuel (refs tc);
      if set is_child then free_chunk fuel ptr else t_ret (-1)
    else if flags tc &? TALLOC_FLAG_LOOP then t_ret 0 else
    do ok <- run_destructor ptr;
    if negb ok then t_ret (-1) else
    do! unlink_chunk ptr;
    do! assign ptr (fun c => set_flags (flags c ||| TALLOC_FLAG_LOOP) c);
    do! free_children fuel ptr;
    do! assign ptr (fun c => set_flags (flags c ||| TALLOC_FLAG_FREE) c);
    do! t_modify (fun s => set_heap (delete ptr (heap s)) s);
    t_ret 0
  end
with free_children (fuel : nat) (ptr : Z) : T unit :=
  match fuel with
  | O => t_none
  | S fuel =>
    do tc <- chunk ptr;
    if negb (set (child tc)) then t_ret tt else
    do new_parent <- first_owner (child tc);
    do r <- free_chunk fuel (child tc);
    do! (if r =? -1 then
           do new_parent <- last_owner ptr new_parent;
           do! _talloc_steal new_parent (child tc);
           t_ret tt
         else t_ret tt);
    free_children fuel ptr
  end.

Definition _talloc_free (ptr : Z) : T Z := t_fuel (fun fuel => free_chunk fuel ptr).

Definition talloc_free (ptr : Z) : T Z := _talloc_free ptr.

Definition talloc_free_children (ptr : Z) : T unit :=
  if negb (set ptr) then t_ret tt else
  do! talloc_chunk_from_ptr ptr;
  t_fuel (fun fuel => free_children fuel ptr).

(** ** References *)

(** The loop of [talloc_unreference]: the handle whose parent is the context. *)
Fixpoint find_handle (context : Z) (fuel : nat) (h : Z) : T Z :=
  match fuel with
  | O => t_none
  | S fuel =>
    if negb (set h) then t_ret 0 else
    do p <- talloc_parent_chunk h;
    if p =? context then t_ret h else
    do hd <- handle h;
    find_handle context fuel (h_next hd)
  end.

Definition talloc_unreference (context ptr : Z) : T Z :=
  do tc <- talloc_chunk_from_ptr ptr;
  do context <- context_of context;
  do h <- t_fuel (fun fuel => find_handle context fuel (refs tc));
  if negb (set h) then t_ret (-1) else
  _talloc_free h.

Definition talloc_unlink (context ptr : Z) : T Z :=
  if negb (set ptr) then t_ret (-1) else
  do context <- context_of context;
  do r <- talloc_unreference context ptr;
  if r =? 0 then t_ret 0 else
  do! (if set context then do! talloc_chunk_from_ptr context; t_ret tt else t_ret tt);
  do p <- talloc_parent_chunk ptr;
  if negb (p =? context) then t_ret (-1) else
  do tc_p <- talloc_chunk_from_ptr ptr;
  if negb (set (refs tc_p)) then _talloc_free ptr else
  do new_parent <- talloc_parent_chunk (refs tc_p);
  do r <- talloc_unreference new_parent ptr;
  if negb (r =? 0) then t_ret (-1) else
  do! _talloc_steal new_parent ptr;
  t_ret 0.

Fixpoint count_handles (fuel : nat) (h : Z) : T Z :=
  match fuel with
  | O => t_none
  | S fuel =>
    if negb (set h) then t_ret 0 else
    do hd <- handle h;
    do n <- count_handles fuel (h_next hd);
    t_ret (u64 (n + 1))
  end.

Definition talloc_reference_count (ptr : Z) : T Z :=
  do tc <- talloc_chunk_from_ptr ptr;
  t_fuel (fun fuel => count_handles fuel (refs tc)).

(** ** Names *)

Definition talloc_get_name (ptr : Z) : T name_ptr :=
  do tc <- talloc_chunk_from_ptr ptr;
  t_ret (match name tc with
         | TALLOC_MAGIC_REFERENCE => Name_const [46; 114; 101; 102; 101; 114; 101; 110; 99; 101]
         | Name_null => Name_const [85; 78; 78; 65; 77; 69; 68]
         | n => n
         end).

Definition talloc_check_name (ptr : Z) (n : name_ptr) : T Z :=
  if negb (set ptr) then t_ret 0 else
  do pname <- talloc_get_name ptr;
  if bool_decide (pname = n) then t_ret ptr else
  do a <- name_string pname;
  do b <- name_string n;
  t_ret (if bool_decide (a = b) then ptr else 0).

Definition talloc_vasprintf (t : Z) (fmt : option (list Z)) : T Z :=
  match fmt with
  | None => t_ret 0
  | Some text =>
    do ret <- __talloc t (Z.of_nat (length text) + 1);
    do! t_when (set ret)
      (do! write ret 0 (text ++ [0]);
       _talloc_set_name_const ret (Name_at ret));
    t_ret ret
  end.

Definition talloc_asprintf := talloc_vasprintf.

Definition dot_name : name_ptr := Name_const [46; 110; 97; 109; 101].

Definition talloc_set_name_v (ptr : Z) (fmt : option (list Z)) : T Z :=
  do! talloc_chunk_from_ptr ptr;
  do n <- talloc_vasprintf ptr fmt;
  do! assign ptr (set_name (if set n then Name_at n else Name_null));
  do! t_when (set n) (_talloc_set_name_const n dot_name);
  t_ret n.

Definition talloc_set_name := talloc_set_name_v.

(** The end of [talloc_named] and of [talloc_init]. *)
Definition name_or_free (ptr : Z) (fmt : option (list Z)) : T Z :=
  if negb (set ptr) then t_ret 0 else
  do n <- talloc_set_name_v ptr fmt;
  if negb (set n) then
    do! _talloc_free ptr;
    t_ret 0
  else t_ret ptr.

Definition talloc_named (context size : Z) (fmt : option (list Z)) : T Z :=
  do ptr <- __talloc context size;
  name_or_free ptr fmt.

Definition name_null_context : name_ptr :=
  Name_const [110; 117; 108; 108; 95; 99; 111; 110; 116; 101; 120; 116].

Definition talloc_enable_null_tracking : T unit :=
  do s <- t_get;
  if set (null_context s) then t_ret tt else
  do p <- _talloc_named_const 0 0 name_null_context;
  t_modify (set_null_context p).

Definition talloc_disable_null_tracking : T unit :=
  do s <- t_get;
  do! _talloc_free (null_context s);
  t_modify (set_null_context 0).

Definition talloc_enable_leak_report : T unit :=
  do! talloc_enable_null_tracking;
  t_modify (add_exit Exit_report_null).

Definition talloc_enable_leak_report_full : T unit :=
  do! talloc_enable_null_tracking;
  t_modify (add_exit Exit_report_null_full).

Definition talloc_init (fmt : option (list Z)) : T Z :=
  do! talloc_enable_null_tracking;
  do ptr <- __talloc 0 0;
  name_or_free ptr fmt.

Definition name_autofree_context : name_ptr :=
  Name_const [97; 117; 116; 111; 102; 114; 101; 101; 95; 99; 111; 110; 116; 101; 120; 116].

Definition talloc_autofree_context : T Z :=
  do s <- t_get;
  do! (if set (autofree_context s) then t_ret tt else
       do p <- _talloc_named_const 0 0 name_autofree_context;
       do! t_modify (set_autofree_context p);
       do! _talloc_set_destructor p Destructor_autofree;
       t_modify (add_exit Exit_autofree));
  do s <- t_get;
  t_ret (autofree_context s).

Definition talloc_autofree : T Z :=
  do s <- t_get;
  _talloc_free (autofree_context s).

(** ** Sizes *)

Definition talloc_get_size (context : Z) : T Z :=
  if negb (set context) then t_ret 0 else
  do tc <- talloc_chunk_from_ptr context;
  t_ret (tc_size tc).

Definition set_loop (ptr : Z) : T unit := assign ptr (fun c => set_flags (flags c ||| TALLOC_FLAG_LOOP) c).
Definition clear_loop (ptr : Z) : T unit := assign ptr (fun c => set_flags (flags c &~ TALLOC_FLAG_LOOP) c).

(** The recursion of [talloc_total_size] and [talloc_total_blocks], which differ
    in what a chunk counts, and their loop over the siblings from [c] on. *)
Fixpoint total (count : talloc_chunk -> Z) (fuel : nat) (ptr : Z) : T Z :=
  match fuel with
  | O => t_none
  | S fuel =>
    do tc <- talloc_chunk_from_ptr ptr;
    if flags tc &? TALLOC_FLAG_LOOP then t_ret 0 else
    do! set_loop ptr;
    do n <- total_from count fuel (child tc);
    do! clear_loop ptr;
    t_ret (u64 (count tc + n))
  end
with total_from (count : talloc_chunk -> Z) (fuel : nat) (c : Z) : T Z :=
  match fuel with
  | O => t_none
  | S fuel =>
    if negb (set c) then t_ret 0 else
    do n <- total count fuel c;
    do tc <- chunk c;
    do m <- total_from count fuel (next tc);
    t_ret (u64 (n + m))
  end.

Definition talloc_total_size (ptr : Z) : T Z :=
  do ptr <- context_of ptr;
  if negb (set ptr) then t_ret 0 else
  t_fuel (fun fuel => total tc_size fuel ptr).

Definition talloc_total_blocks (ptr : Z) : T Z :=
  t_fuel (fun fuel => total (fun _ => 1) fuel ptr).

(** A call of the callback of a report. *)
Record report : Set := mk_report { r_ptr : Z; r_depth : Z; r_max_depth : Z; r_is_ref : bool }.

Fixpoint report_depth (max_depth : Z) (fuel : nat) (ptr depth : Z) : T (list report) :=
  match fuel with
  | O => t_none
  | S fuel =>
    do tc <- talloc_chunk_from_ptr ptr;
    if flags tc &? TALLOC_FLAG_LOOP then t_ret [] else
    let r := mk_report ptr depth max_depth false in
    if (0 <=? max_depth) && (max_depth <=? depth) then t_ret [r] else
    do! set_loop ptr;
    do l <- report_from max_depth fuel (child tc) depth;
    do! clear_loop ptr;
    t_ret (r :: l)
  end
with report_from (max_depth : Z) (fuel : nat) (c depth : Z) : T (list report) :=
  match fuel with
  | O => t_none
  | S fuel =>
    if negb (set c) then t_ret [] else
    do tc <- chunk c;
    do l <- (if bool_decide (name tc = TALLOC_MAGIC_REFERENCE) then
               do h <- handle c;
               t_ret [mk_report (h_ptr h) (depth + 1) max_depth true]
             else report_depth max_depth fuel c (depth + 1));
    do tc <- chunk c;
    do m <- report_from max_depth fuel (next tc) depth;
    t_ret (l ++ m)
  end.

Definition talloc_report_depth_cb (ptr depth max_depth : Z) : T (list report) :=
  do ptr <- context_of ptr;
  if negb (set ptr) then t_ret [] else
  t_fuel (fun fuel => report_depth max_depth fuel ptr depth).

(** The functions that print a report make these calls; the printing is not modelled. *)
Definition talloc_report_full (ptr : Z) : T (list report) := talloc_report_depth_cb ptr 0 (-1).
Definition talloc_report (ptr : Z) : T (list report) := talloc_report_depth_cb ptr 0 1.

Definition talloc_report_null : T (list report) :=
  do s <- t_get;
  do n <- talloc_total_size (null_context s);
  if negb (n =? 0) then talloc_report (null_context s) else t_ret [].

Definition talloc_report_null_full : T (list report) :=
  do s <- t_get;
  do n <- talloc_total_size (null_context s);
  if negb (n =? 0) then talloc_report_full (null_context s) else t_ret [].

(** The names that [talloc_show_parents] prints. *)
Fixpoint parent_names (fuel : nat) (tc : Z) : T (list name_ptr) :=
  match fuel with
  | O => t_none
  | S fuel =>
    if negb (set tc) then t_ret [] else
    do n <- talloc_get_name tc;
    do p <- t_fuel (fun fuel => first_parent fuel tc);
    do l <- parent_names fuel p;
    t_ret (n :: l)
  end.

Definition talloc_show_parents (context : Z) : T (list name_ptr) :=
  if negb (set context) then t_ret [] else
  do! talloc_chunk_from_ptr context;
  do n <- talloc_get_name context;
  do l <- t_fuel (fun fuel => parent_names fuel context);
  t_ret (n :: l).

(** ** Changing the size *)

Definition resize (n : nat) (d : payload) : payload :=
  match d with
  | Bytes b => Bytes (take n b ++ replicate (n - length b) None)
  | Handle h => Handle h
  end.

Definition _talloc_realloc (context ptr size : Z) (n : name_ptr) : T Z :=
  if size =? 0 then (do! _talloc_free ptr; t_ret 0) else
  if MAX_TALLOC_SIZE <=? size then t_ret 0 else
  if negb (set ptr) then _talloc_named_const context size n else
  do tc <- talloc_chunk_from_ptr ptr;
  if set (refs tc) then t_ret 0 else
  do! assign ptr (fun c => set_flags (flags c ||| TALLOC_FLAG_FREE) c);
  do s <- t_get;
  match realloc (heap s) ptr (size + TC_HDR_SIZE) with
  | None =>
    do! assign ptr (fun c => set_flags (flags c &~ TALLOC_FLAG_FREE) c);
    t_ret 0
  | Some new_ptr =>
    do old <- chunk ptr;
    do! t_modify (fun s => set_heap (<[new_ptr := set_data (resize (Z.to_nat size) (data old)) old]> (delete ptr (heap s))) s);
    do! assign new_ptr (fun c => set_flags (flags c &~ TALLOC_FLAG_FREE) c);
    do tc <- chunk new_ptr;
    do! t_when (set (parent tc)) (assign (parent tc) (set_child new_ptr));
    do! t_when (set (child tc)) (assign (child tc) (set_parent new_ptr));
    do! t_when (set (prev tc)) (assign (prev tc) (set_next new_ptr));
    do! t_when (set (next tc)) (assign (next tc) (set_prev new_ptr));
    do! assign new_ptr (set_size size);
    do! _talloc_set_name_const new_ptr n;
    t_ret new_ptr
  end.

Definition talloc_realloc_fn (context ptr size : Z) : T Z := _talloc_realloc context ptr size Name_null.

(** ** Arrays and strings *)

Definition _talloc_zero (ctx size : Z) (n : name_ptr) : T Z :=
  do p <- _talloc_named_const ctx size n;
  do! t_when (set p) (write p 0 (replicate (Z.to_nat size) 0));
  t_ret p.

(** [p] is the memory that is copied. *)
Definition _talloc_memdup (t : Z) (p : list Z) (size : Z) (n : name_ptr) : T Z :=
  do newp <- _talloc_named_const t size n;
  do! t_when (set newp)
    (if Z.of_nat (length p) <? size then t_none else write newp 0 (take (Z.to_nat size) p));
  t_ret newp.

(** [count] has 32 bits; a division by zero has no result. *)
Definition too_many (el_size count : Z) : T bool :=
  if el_size =? 0 then t_none else t_ret (MAX_TALLOC_SIZE / el_size <=? count).

Definition _talloc_array (ctx el_size count : Z) (n : name_ptr) : T Z :=
  do bad <- too_many el_size count;
  if bad : bool then t_ret 0 else _talloc_named_const ctx (u64 (el_size * count)) n.

Definition _talloc_zero_array (ctx el_size count : Z) (n : name_ptr) : T Z :=
  do bad <- too_many el_size count;
  if bad : bool then t_ret 0 else _talloc_zero ctx (u64 (el_size * count)) n.

Definition _talloc_realloc_array (ctx ptr el_size count : Z) (n : name_ptr) : T Z :=
  do bad <- too_many el_size count;
  if bad : bool then t_ret 0 else _talloc_realloc ctx ptr (u64 (el_size * count)) n.

(** [location] is the [__location__] of the macro. *)
Definition talloc_strdup (location : list Z) (t : Z) (p : option (list Z)) : T Z :=
  match p with
  | None => t_ret 0
  | Some p =>
    do ret <- _talloc_memdup t (p ++ [0]) (Z.of_nat (length p) + 1) (Name_const location);
    do! t_when (set ret) (_talloc_set_name_const ret (Name_at ret));
    t_ret ret
  end.

Definition name_char : name_ptr := Name_const [99; 104; 97; 114].

Definition talloc_append_string (t orig : Z) (append : option (list Z)) : T Z :=
  do o <- string_at orig;
  let olen := Z.of_nat (length o) in
  match append with
  | None => t_ret orig
  | Some append =>
    let alenz := Z.of_nat (length append) + 1 in
    do ret <- _talloc_realloc_array t orig 1 (u32 (olen + alenz)) name_char;
    if negb (set ret) then t_ret 0 else
    do! write ret olen (append ++ [0]);
    do! _talloc_set_name_const ret (Name_at ret);
    t_ret ret
  end.

(** [p] is the memory from the pointer on. *)
Fixpoint strnlen (p : list Z) (n : nat) : option nat :=
  match n, p with
  | O, _ => Some O
  | S n, c :: p => if c =? 0 then Some O else S <$> strnlen p n
  | S _, [] => None
  end.

Definition talloc_strndup (t : Z) (p : list Z) (n : nat) : T Z :=
  match strnlen p n with
  | None => t_none
  | Some len =>
    do ret <- __talloc t (Z.of_nat len + 1);
    if negb (set ret) then t_ret 0 else
    do! write ret 0 (take len p);
    do! write ret (Z.of_nat len) [0];
    do! _talloc_set_name_const ret (Name_at ret);
    t_ret ret
  end.

Definition talloc_vasprintf_append (s : Z) (fmt : option (list Z)) : T Z :=
  if negb (set s) then talloc_vasprintf 0 fmt else
  do tc <- talloc_chunk_from_ptr s;
  let s_len := s32 (tc_size tc - 1) in
  match fmt with
  | None | Some [] => t_ret s
  | Some text =>
    let len := Z.of_nat (length text) in
    do s <- _talloc_realloc_array 0 s 1 (u32 (s_len + len + 1)) name_char;
    if negb (set s) then t_ret 0 else
    do! write s s_len (text ++ [0]);
    do! _talloc_set_name_const s (Name_at s);
    t_ret s
  end.

Definition talloc_asprintf_append := talloc_vasprintf_append.
End talloc.
