(* ===== verification/TallocRep.v ===== *)
(** * Talloc: the forest that the chunks stand for

    A node has the list of its children and the list of the handles that refer to
    it; [conc] gives the headers, with their links, for which the lists stand.
    The lemmas say what the operations on lists of siblings and of handles do. *)

From S2P Require Import Prelude Talloc.

(** ** Doubly linked lists *)

Fixpoint next_in (l : list Z) (x : Z) : Z :=
  match l with
  | [] => 0
  | a :: l => if a =? x then hd 0 l else next_in l x
  end.

Fixpoint prev_from (p : Z) (l : list Z) (x : Z) : Z :=
  match l with
  | [] => 0
  | a :: l => if a =? x then p else prev_from a l x
  end.

Definition prev_in : list Z -> Z -> Z := prev_from 0.

(** [l] without [x]. *)
Definition rm (x : Z) (l : list Z) : list Z := filter (fun y => y <> x) l.
#[global] Arguments rm : simpl never.

Lemma rm_cons x a l : rm x (a :: l) = if a =? x then rm x l else a :: rm x l.
Proof.
  unfold rm. rewrite filter_cons. destruct (Z.eqb_spec a x); case_decide; done.
Qed.

Lemma rm_id x l : x ∉ l -> rm x l = l.
Proof.
  induction l as [|a l IH]; [done|]. intros H. rewrite not_elem_of_cons in H. destruct H as [H1 H2].
  rewrite rm_cons, IH by done. destruct (Z.eqb_spec a x); congruence.
Qed.

Lemma elem_of_rm y x l : y ∈ rm x l <-> y ∈ l /\ y <> x.
Proof. unfold rm. rewrite list_elem_of_filter. tauto. Qed.

Lemma NoDup_rm x l : NoDup l -> NoDup (rm x l).
Proof. apply NoDup_filter. Qed.

(** A list of pointers to chunks. *)
Definition plist (l : list Z) : Prop := NoDup l /\ 0 ∉ l.

Lemma plist_cons a l : plist (a :: l) <-> (a <> 0 /\ a ∉ l /\ plist l).
Proof. unfold plist. rewrite NoDup_cons, not_elem_of_cons. split; [intros [[? ?] [? ?]]|intros (? & ? & ? & ?)]; auto. Qed.

Lemma plist_nil : plist [].
Proof. split; [apply NoDup_nil_2|apply not_elem_of_nil]. Qed.

Lemma plist_rm x l : plist l -> plist (rm x l).
Proof. intros [H1 H2]. split; [by apply NoDup_rm|]. by intros [H _]%elem_of_rm. Qed.

Lemma hd_in l : hd 0 l <> 0 -> hd 0 l ∈ l.
Proof. destruct l; [done|]. intros _. left. Qed.

Lemma next_notin l x : x ∉ l -> next_in l x = 0.
Proof.
  induction l as [|a l IH]; [done|]. intros [H1 H2]%not_elem_of_cons. simpl.
  destruct (Z.eqb_spec a x); [congruence|by apply IH].
Qed.

Lemma prev_from_notin p l x : x ∉ l -> prev_from p l x = 0.
Proof.
  revert p. induction l as [|a l IH]; intros p; [done|]. intros [H1 H2]%not_elem_of_cons. simpl.
  destruct (Z.eqb_spec a x); [congruence|by apply IH].
Qed.

Lemma prev_notin l x : x ∉ l -> prev_in l x = 0.
Proof. apply prev_from_notin. Qed.

Lemma next_in_elem l x : next_in l x <> 0 -> next_in l x ∈ l.
Proof.
  induction l as [|a l IH]; [done|]. simpl. destruct (a =? x).
  - intros H. right. by apply hd_in.
  - intros H. right. by apply IH.
Qed.

Lemma prev_from_elem p l x : prev_from p l x <> 0 -> prev_from p l x = p \/ prev_from p l x ∈ l.
Proof.
  revert p. induction l as [|a l IH]; intros p; [done|]. simpl. destruct (a =? x); [by left|].
  intros H. right. destruct (IH a H) as [->|H']; [left|by right].
Qed.

Lemma prev_in_elem l x : prev_in l x <> 0 -> prev_in l x ∈ l.
Proof. intros H. destruct (prev_from_elem _ _ _ H) as [H'|H']; [|done]. unfold prev_in in *. congruence. Qed.

(** The links are inverse. *)
Lemma prev_from_next p l x y : plist l -> x ∈ l -> y <> 0 -> x <> p ->
  (next_in l x = y <-> y ∈ l /\ prev_from p l y = x).
Proof.
  revert p. induction l as [|a l IH]; intros p Hl Hx Hy Hp; [by apply not_elem_of_nil in Hx|].
  apply plist_cons in Hl as (Ha & Hal & Hl). simpl. destruct (Z.eqb_spec a x) as [->|Hax].
  - split.
    + intros E. destruct l as [|b l]; simpl in E; [congruence|]. subst b.
      split; [right; left|]. destruct (Z.eqb_spec x y) as [->|_]; [by destruct Hal; left|]. simpl. by rewrite Z.eqb_refl.
    + intros [Hin E]. destruct (Z.eqb_spec x y) as [->|Hne]; [congruence|].
      apply elem_of_cons in Hin as [->|Hin]; [done|]. destruct l as [|b l]; [by apply not_elem_of_nil in Hin|]. simpl in *.
      destruct (Z.eqb_spec b y) as [->|Hb]; [done|]. exfalso. apply plist_cons in Hl as (_ & _ & Hl).
      destruct (prev_from_elem b l y) as [E'|E']; [congruence| |].
      * rewrite E in E'. subst b. apply Hal. left.
      * rewrite E in E'. apply Hal. by right.
  - apply elem_of_cons in Hx as [->|Hx]; [done|]. rewrite (IH a) by (done || congruence). rewrite elem_of_cons.
    destruct (Z.eqb_spec a y) as [->|Hne]; [|intuition congruence]. split; [intros [? _]; done|intros [_ E]; congruence].
Qed.

Lemma next_prev l x y : plist l -> x ∈ l -> y <> 0 -> (next_in l x = y <-> y ∈ l /\ prev_in l y = x).
Proof. intros Hl Hx Hy. apply prev_from_next; try done. intros ->. by apply Hl. Qed.

Lemma prev_hd l x : plist l -> x ∈ l -> (prev_in l x = 0 <-> hd 0 l = x).
Proof.
  intros Hl Hx. destruct l as [|a l]; [by apply not_elem_of_nil in Hx|]. apply plist_cons in Hl as (Ha & Hal & Hl). unfold prev_in. simpl.
  destruct (Z.eqb_spec a x) as [->|Hne]; [done|]. split; [|done].
  intros E. exfalso. apply elem_of_cons in Hx as [->|Hx]; [done|].
  assert (forall b l, b <> 0 -> plist l -> x ∈ l -> prev_from b l x <> 0) as Hgen.
  { clear. intros b l. revert b. induction l as [|c l IH]; intros b Hb Hl Hx; [by apply not_elem_of_nil in Hx|]. simpl.
    apply plist_cons in Hl as (Hc & _ & Hl). destruct (Z.eqb_spec c x); [done|]. apply elem_of_cons in Hx as [->|Hx]; [done|]. by apply IH. }
  by apply (Hgen a l Ha Hl Hx).
Qed.

Lemma next_irrefl l x : plist l -> x ∈ l -> next_in l x <> x.
Proof.
  induction l as [|a l IH]; [by intros _ H%not_elem_of_nil|]. rewrite plist_cons. intros (Ha & Hal & Hl) Hx. simpl.
  destruct (Z.eqb_spec a x) as [->|Hne].
  - destruct l as [|b l]; simpl; [congruence|]. intros ->. by destruct Hal; left.
  - apply elem_of_cons in Hx as [->|Hx]; [done|]. by apply IH.
Qed.

Lemma prev_irrefl l x : plist l -> x ∈ l -> prev_in l x <> x.
Proof.
  intros Hl Hx E. assert (x <> 0) as H0 by (intros ->; by apply Hl).
  apply (next_irrefl l x Hl Hx). apply next_prev; done.
Qed.

Lemma next_next l x y : plist l -> x <> 0 -> y <> 0 -> next_in l x = y -> next_in l y = x -> False.
Proof.
  induction l as [|a l IH]; [intros _ Hx Hy E1 E2; simpl in *; congruence|].
  rewrite plist_cons. intros (Ha & Hal & Hl) Hx Hy. simpl.
  destruct (Z.eqb_spec a x) as [Hax|Hax], (Z.eqb_spec a y) as [Hay|Hay]; subst; intros E1 E2.
  - destruct Hal. rewrite <- E1. apply hd_in. congruence.
  - destruct Hal. rewrite <- E2. apply next_in_elem. congruence.
  - destruct Hal. rewrite <- E1. apply next_in_elem. congruence.
  - by apply IH.
Qed.

(** What removing an element does to the links. *)
Lemma hd_rm x l : plist l -> hd 0 (rm x l) = if hd 0 l =? x then next_in l x else hd 0 l.
Proof.
  destruct l as [|a l]; [change (hd 0 []) with 0; by destruct (0 =? x)|]. rewrite plist_cons. intros (Ha & Hal & Hl). rewrite rm_cons. simpl.
  destruct (Z.eqb_spec a x) as [->|]; [|done]. by rewrite rm_id.
Qed.

Lemma next_rm x l z : plist l -> x <> 0 -> z <> x ->
  next_in (rm x l) z = if next_in l z =? x then next_in l x else next_in l z.
Proof.
  intros Hl Hx Hz. induction l as [|a l IH]; [change (rm x []) with (@nil Z); cbn [next_in]; by destruct (0 =? x)|].
  apply plist_cons in Hl as (Ha & Hal & Hl). rewrite rm_cons. simpl.
  destruct (Z.eqb_spec a x) as [->|Hax].
  - rewrite rm_id by done. destruct (Z.eqb_spec x z); [congruence|].
    destruct (Z.eqb_spec (next_in l z) x) as [E|]; [|done]. exfalso. apply Hal. rewrite <- E. apply next_in_elem. congruence.
  - simpl. destruct (Z.eqb_spec a z) as [->|Haz]; [|by apply IH]. rewrite hd_rm by done. done.
Qed.

Lemma prev_rm x l z : plist l -> x ∈ l -> z <> x ->
  prev_in (rm x l) z = if prev_in l z =? x then prev_in l x else prev_in l z.
Proof.
  unfold prev_in. intros Hl Hx Hz.
  assert (forall p, p <> x -> prev_from p (rm x l) z = if prev_from p l z =? x then prev_from p l x else prev_from p l z) as H.
  { clear Hx. induction l as [|a l IH]; intros p Hp; [change (rm x []) with (@nil Z); cbn [prev_from]; by destruct (0 =? x)|]. simpl.
    apply plist_cons in Hl as (Ha & Hal & Hl). rewrite rm_cons. destruct (Z.eqb_spec a x) as [->|Hax].
    - rewrite rm_id by done. destruct (Z.eqb_spec x z); [congruence|]. destruct (decide (z ∈ l)) as [Hin|Hin].
      + destruct l as [|b l]; [by apply not_elem_of_nil in Hin|]. simpl. destruct (Z.eqb_spec b z) as [->|Hb]; [by rewrite Z.eqb_refl|].
        destruct (Z.eqb_spec (prev_from b l z) x) as [E|]; [|done].
        destruct (prev_from_elem b l z) as [E'|E']; [congruence| |].
        * exfalso. apply Hal. rewrite <- E, E'. left.
        * exfalso. apply Hal. right. by rewrite <- E.
      + rewrite !prev_from_notin by done. destruct (Z.eqb_spec 0 x); [congruence|done].
    - simpl. destruct (Z.eqb_spec a z) as [->|Haz].
      + destruct (Z.eqb_spec p x); congruence.
      + by apply IH. }
  apply H. intros <-. by apply Hl.
Qed.

Lemma prev_cons x l z : plist (x :: l) -> z <> x ->
  prev_in (x :: l) z = if set z && (hd 0 l =? z) then x else prev_in l z.
Proof.
  rewrite plist_cons. intros (Hx & Hxl & Hl) Hz. unfold prev_in, set. cbn [prev_from].
  destruct (Z.eqb_spec x z); [congruence|].
  destruct l as [|a l]; cbn [prev_from hd].
  - destruct (Z.eqb_spec z 0), (Z.eqb_spec 0 z); simpl; congruence.
  - apply plist_cons in Hl as (Ha & _). destruct (Z.eqb_spec a z) as [->|]; [|by rewrite andb_false_r].
    destruct (Z.eqb_spec z 0); simpl; congruence.
Qed.

(** ** Forests *)

(** [Released]: a handle that refers to nothing any more. *)
Inductive body : Set :=
  | Body (b : list (option Z))
  | Reference (t : Z)
  | Released (t : Z).

#[export] Instance body_eq_dec : EqDecision body.
Proof. solve_decision. Defined.

(** [n_kids] and [n_refs] are in the order of the lists.  [n_stale] are the links
    that are left in a chunk that was taken out of its list. *)
Record node : Set := mk_node {
  n_parent : Z;
  n_kids : list Z;
  n_refs : list Z;
  n_dtor : talloc_destructor_t;
  n_name : name_ptr;
  n_size : Z;
  n_loop : bool;
  n_stale : option (Z * Z * Z);
  n_body : body
}.

Abbreviation forest := (gmap Z node).

Definition kids (F : forest) (p : Z) : list Z := from_option n_kids [] (F !! p).
Definition handles (F : forest) (t : Z) : list Z := from_option n_refs [] (F !! t).

(** The links of a chunk: next, previous, and parent for the first of a list. *)
Definition sib_links (l : list Z) (p x : Z) : Z * Z * Z :=
  (next_in l x, prev_in l x, if prev_in l x =? 0 then p else 0).

Definition links (F : forest) (x : Z) (n : node) : Z * Z * Z :=
  match n_stale n with
  | Some s => s
  | None => sib_links (kids F (n_parent n)) (n_parent n) x
  end.

Definition payload_of (F : forest) (x : Z) (b : body) : payload :=
  match b with
  | Body b => Bytes b
  | Reference t => Handle (mk_handle (next_in (handles F t) x) (prev_in (handles F t) x) t)
  | Released t => Handle (mk_handle 0 0 t)
  end.

Definition conc_chunk (F : forest) (x : Z) (n : node) : talloc_chunk :=
  mk_chunk (links F x n).1.1 (links F x n).1.2 (links F x n).2 (hd 0 (n_kids n)) (hd 0 (n_refs n)) (n_dtor n) (n_name n) (n_size n)
    (if n_loop n then TALLOC_MAGIC ||| TALLOC_FLAG_LOOP else TALLOC_MAGIC) (payload_of F x (n_body n)).

Definition conc (F : forest) : gmap Z talloc_chunk := map_imap (fun x n => Some (conc_chunk F x n)) F.

Lemma lookup_conc F x : conc F !! x = conc_chunk F x <$> F !! x.
Proof.
  unfold conc. rewrite map_lookup_imap.
  by destruct (F !! x).
Qed.

(** ** Well-formed forests *)

Inductive rooted (F : forest) : Z -> Prop :=
  | rooted_top x n : F !! x = Some n -> n_parent n = 0 -> rooted F x
  | rooted_below x n : F !! x = Some n -> rooted F (n_parent n) -> rooted F x.

Record wf (F : forest) : Prop := {
  wf_zero : F !! 0 = None;
  wf_kids p n y : F !! p = Some n -> y ∈ n_kids n -> exists m, F !! y = Some m /\ n_parent m = p /\ n_stale m = None;
  wf_parent x n : F !! x = Some n -> n_parent n <> 0 -> x ∈ kids F (n_parent n);
  wf_nodup p n : F !! p = Some n -> NoDup (n_kids n) /\ NoDup (n_refs n);
  wf_refs t n h : F !! t = Some n -> h ∈ n_refs n -> exists m, F !! h = Some m /\ n_body m = Reference t;
  wf_target h n t : F !! h = Some n -> n_body n = Reference t -> h ∈ handles F t;
  wf_handle h n t : F !! h = Some n -> n_body n = Reference t -> n_kids n = [] /\ n_refs n = [];
  wf_stale x n : F !! x = Some n -> n_stale n <> None -> n_parent n = 0;
  wf_rooted x : is_Some (F !! x) -> rooted F x
}.

(** [a] is [x] or above it. *)
Inductive below (F : forest) : Z -> Z -> Prop :=
  | below_refl x : is_Some (F !! x) -> below F x x
  | below_step x n a : F !! x = Some n -> below F (n_parent n) a -> below F x a.

(** Nothing is being freed. *)
Definition calm (F : forest) : Prop := forall x n, F !! x = Some n -> n_loop n = false /\ n_stale n = None.

Section wf.
Context {F : forest} (W : wf F).

Lemma wf_ne x n : F !! x = Some n -> x <> 0.
Proof using W. intros H ->. rewrite (wf_zero F W) in H. done. Qed.

Lemma kids_plist p : plist (kids F p).
Proof using W.
  unfold kids. destruct (F !! p) as [n|] eqn:E; simpl; [|apply plist_nil].
  split; [by apply (wf_nodup F W p)|]. intros H. destruct (wf_kids F W p n 0 E H) as (m & Hm & _).
  by apply (wf_ne 0 m) in Hm.
Qed.

Lemma handles_plist t : plist (handles F t).
Proof using W.
  unfold handles. destruct (F !! t) as [n|] eqn:E; simpl; [|apply plist_nil].
  split; [by apply (wf_nodup F W t)|]. intros H. destruct (wf_refs F W t n 0 E H) as (m & Hm & _).
  by apply (wf_ne 0 m) in Hm.
Qed.

Lemma in_kids p y : y ∈ kids F p -> exists m, F !! y = Some m /\ n_parent m = p /\ n_stale m = None.
Proof using W.
  unfold kids. destruct (F !! p) as [n|] eqn:E; simpl; [by apply (wf_kids F W)|by intros ?%not_elem_of_nil].
Qed.

Lemma in_handles t h : h ∈ handles F t -> exists m, F !! h = Some m /\ n_body m = Reference t.
Proof using W.
  unfold handles. destruct (F !! t) as [n|] eqn:E; simpl; [by apply (wf_refs F W)|by intros ?%not_elem_of_nil].
Qed.

Lemma rooted_in x : rooted F x -> is_Some (F !! x).
Proof using. by destruct 1; eexists. Qed.

Lemma parent_in x n : F !! x = Some n -> n_parent n <> 0 -> is_Some (F !! n_parent n).
Proof using W.
  intros H Hp. pose proof (wf_parent F W x n H Hp) as H'. unfold kids in H'.
  destruct (F !! n_parent n); [by eexists|by apply not_elem_of_nil in H'].
Qed.

Lemma not_own_parent x n : F !! x = Some n -> n_parent n <> x.
Proof using W.
  intros H E. assert (rooted F x) as Hr by (by apply (wf_rooted F W); eexists).
  revert n H E. induction Hr as [x n H Hp|x n H Hr IH]; intros n' H' E.
  - assert (n' = n) as -> by congruence. apply (wf_ne x n H). congruence.
  - assert (n' = n) as -> by congruence. rewrite E in IH. by apply (IH n).
Qed.
End wf.

Lemma kids_lookup F p n : F !! p = Some n -> kids F p = n_kids n.
Proof. unfold kids. by intros ->. Qed.

Lemma handles_lookup F p n : F !! p = Some n -> handles F p = n_refs n.
Proof. unfold handles. by intros ->. Qed.

(** Changes of every node. *)
Definition adjust (f : Z -> node -> node) (F : forest) : forest := map_imap (fun x n => Some (f x n)) F.

Lemma lookup_adjust f F x : adjust f F !! x = f x <$> F !! x.
Proof. unfold adjust. rewrite map_lookup_imap. by destruct (F !! x). Qed.

(** ** Steps *)

(** A state whose heap is the one of a forest. *)
Definition st (s : state) (F : forest) : state := set_heap (conc F) s.

Lemma set_heap_st s F H : set_heap H (st s F) = set_heap H s.
Proof. done. Qed.

Lemma chunk_heap s x c : heap s !! x = Some c -> chunk x s = Some (c, s).
Proof. unfold chunk. by intros ->. Qed.

Lemma assign_heap s x f c : heap s !! x = Some c -> assign x f s = Some (tt, set_heap (<[x := f c]> (heap s)) s).
Proof. unfold assign. by intros ->. Qed.

Lemma chunk_st s F x n : F !! x = Some n -> chunk x (st s F) = Some (conc_chunk F x n, st s F).
Proof. intros H. apply chunk_heap. simpl. by rewrite lookup_conc, H. Qed.

Lemma assign_st s F x f n : F !! x = Some n ->
  assign x f (st s F) = Some (tt, set_heap (<[x := f (conc_chunk F x n)]> (conc F)) s).
Proof. intros H. rewrite (assign_heap _ _ _ (conc_chunk F x n)); [done|]. simpl. by rewrite lookup_conc, H. Qed.

Lemma from_ptr_st s F x n : F !! x = Some n -> talloc_chunk_from_ptr x (st s F) = Some (conc_chunk F x n, st s F).
Proof.
  intros H. unfold talloc_chunk_from_ptr, t_bind. rewrite (chunk_st _ _ _ _ H). unfold conc_chunk. by destruct (n_loop n).
Qed.

(** ** Taking a chunk out of its list *)

Definition stale_of (l : Z * Z * Z) (p : Z) : Z * Z * Z :=
  let '(nx, pv, _) := l in if pv =? 0 then (0, 0, p) else (nx, pv, 0).

Definition unlink_node (x p : Z) (s : Z * Z * Z) (z : Z) (n : node) : node :=
  mk_node (if z =? x then 0 else n_parent n) (if z =? p then rm x (n_kids n) else n_kids n) (n_refs n) (n_dtor n)
    (n_name n) (n_size n) (n_loop n) (if z =? x then Some s else n_stale n) (n_body n).

Definition unlink (x : Z) (F : forest) : forest :=
  match F !! x with
  | Some n => adjust (unlink_node x (n_parent n) (stale_of (links F x n) (n_parent n))) F
  | None => F
  end.

Lemma lookup_set_heap H s : heap (set_heap H s) = H.
Proof. done. Qed.

(** The steps of a computation whose heap is known. *)
Lemma st_eq s {A} (a : A) H F : H = conc F -> Some (a, set_heap H s) = Some (a, st s F).
Proof. by intros ->. Qed.

Lemma bind_ret {A B} (a : A) (k : A -> T B) s : (do x <- t_ret a; k x) s = k a s.
Proof. done. Qed.

Lemma bind_bind {A B C} (m : T A) (k : A -> T B) (k2 : B -> T C) s :
  (do y <- (do x <- m; k x); k2 y) s = (do x <- m; do y <- k x; k2 y) s.
Proof. unfold t_bind. by destruct (m s) as [[??]|]. Qed.

Lemma bind_chunk {B} x c (k : talloc_chunk -> T B) s : heap s !! x = Some c -> (do c <- chunk x; k c) s = k c s.
Proof. intros H. unfold t_bind. by rewrite (chunk_heap _ _ _ H). Qed.

Lemma bind_assign {B} x c f (k : T B) s : heap s !! x = Some c ->
  (do! assign x f; k) s = k (set_heap (<[x := f c]> (heap s)) s).
Proof. intros H. unfold t_bind. by rewrite (assign_heap _ _ _ _ H). Qed.

Lemma bind_some {A B} (m : T A) (k : A -> T B) s a s' : m s = Some (a, s') -> (do x <- m; k x) s = k a s'.
Proof. intros H. unfold t_bind. by rewrite H. Qed.

Lemma bind_get {B} (k : state -> T B) s : (do s <- t_get; k s) s = k s s.
Proof. done. Qed.

Lemma set_heap_twice H H' s : set_heap H (set_heap H' s) = set_heap H s.
Proof. done. Qed.

(** Finds a chunk in a heap made by assignments to the one of a forest. *)
Ltac t_lookup := cbn [heap st set_heap]; first
  [ rewrite lookup_insert_eq; reflexivity
  | rewrite lookup_insert_ne by congruence; t_lookup
  | rewrite lookup_conc; (match goal with H : ?F !! ?x = Some _ |- context [?F !! ?x] => rewrite H end); reflexivity ].

Lemma conc_child F x n : child (conc_chunk F x n) = hd 0 (n_kids n).
Proof. done. Qed.
Lemma conc_refs F x n : refs (conc_chunk F x n) = hd 0 (n_refs n).
Proof. done. Qed.
Lemma conc_next F x n : next (conc_chunk F x n) = (links F x n).1.1.
Proof. done. Qed.
Lemma conc_prev F x n : prev (conc_chunk F x n) = (links F x n).1.2.
Proof. done. Qed.
Lemma conc_parent F x n : parent (conc_chunk F x n) = (links F x n).2.
Proof. done. Qed.

Ltac t_step := first
  [ rewrite bind_ret
  | rewrite bind_bind
  | rewrite bind_get
  | erewrite bind_chunk by t_lookup
  | erewrite bind_assign by t_lookup
  | erewrite chunk_heap by t_lookup
  | erewrite assign_heap by t_lookup ];
  rewrite ?set_heap_twice; cbn [heap st set_heap child parent next prev refs set_child set_parent set_next set_prev set_refs];
  rewrite ?conc_child, ?conc_refs, ?conc_next, ?conc_prev, ?conc_parent.

Lemma set_true p : p <> 0 -> set p = true.
Proof. intros H. unfold set. by rewrite (proj2 (Z.eqb_neq p 0)). Qed.

Lemma set_spec p : reflect (p <> 0) (set p).
Proof. unfold set. destruct (Z.eqb_spec p 0); simpl; constructor; tauto. Qed.

Lemma kids_unlink F x n q : wf F -> F !! x = Some n ->
  kids (unlink x F) q = if q =? n_parent n then rm x (kids F q) else kids F q.
Proof.
  intros W Hx. unfold kids, unlink. rewrite Hx, lookup_adjust. destruct (F !! q); simpl; [done|].
  by destruct (q =? n_parent n).
Qed.

Lemma handles_unlink F x t : handles (unlink x F) t = handles F t.
Proof. unfold handles, unlink. destruct (F !! x); [|done]. rewrite lookup_adjust. by destruct (F !! t). Qed.

Lemma payload_unlink F x z b : payload_of (unlink x F) z b = payload_of F z b.
Proof. unfold payload_of. destruct b; rewrite ?handles_unlink; done. Qed.

Lemma links_unlink F x n z m : wf F -> F !! x = Some n -> n_stale n = None -> F !! z = Some m ->
  links (unlink x F) z (unlink_node x (n_parent n) (stale_of (links F x n) (n_parent n)) z m) =
  if z =? x then stale_of (links F x n) (n_parent n)
  else if bool_decide (n_stale m = None /\ n_parent m = n_parent n /\ n_parent n <> 0) then
    let l := kids F (n_parent n) in
    let pv := if prev_in l z =? x then prev_in l x else prev_in l z in
    (if next_in l z =? x then next_in l x else next_in l z, pv, if pv =? 0 then n_parent n else 0)
  else links F z m.
Proof.
  intros W Hx Hs Hz. unfold links at 1. simpl. destruct (Z.eqb_spec z x) as [->|Hne]; [done|].
  unfold links. destruct (n_stale m) as [s|] eqn:Em; [rewrite bool_decide_eq_false_2; [done|by intros [? _]]|].
  rewrite kids_unlink with (n := n) by done. destruct (Z.eqb_spec (n_parent m) (n_parent n)) as [E|E].
  - rewrite E. destruct (decide (n_parent n = 0)) as [E0|E0].
    + rewrite bool_decide_eq_false_2 by tauto. rewrite E0. unfold kids. by rewrite (wf_zero F W).
    + rewrite bool_decide_eq_true_2 by done. unfold sib_links.
      rewrite next_rm, prev_rm; [done|apply kids_plist; done| |done|apply kids_plist; done|by apply (wf_ne W x n)|done].
      by apply (wf_parent F W).
  - rewrite bool_decide_eq_false_2; [done|tauto].
Qed.

Lemma conc_unlink F x n z : wf F -> F !! x = Some n -> n_stale n = None ->
  conc (unlink x F) !! z =
  (fun m => let n' := unlink_node x (n_parent n) (stale_of (links F x n) (n_parent n)) z m in
     let l := links (unlink x F) z n' in
     mk_chunk l.1.1 l.1.2 l.2 (hd 0 (n_kids n')) (hd 0 (n_refs m)) (n_dtor m) (n_name m) (n_size m)
       (if n_loop m then TALLOC_MAGIC ||| TALLOC_FLAG_LOOP else TALLOC_MAGIC) (payload_of F z (n_body m))) <$> F !! z.
Proof.
  intros W Hx Hs. rewrite lookup_conc. unfold unlink at 2. rewrite Hx, lookup_adjust.
  destruct (F !! z) as [m|]; [|done]. simpl. unfold conc_chunk. rewrite payload_unlink. done.
Qed.

(** A chunk of a list, its links, and its neighbours. *)
Record member (F : forest) (x p : Z) (n np : node) (nx pv : Z) : Prop := {
  m_x : F !! x = Some n;
  m_p : F !! p = Some np;
  m_parent : n_parent n = p;
  m_stale : n_stale n = None;
  m_in : x ∈ n_kids np;
  m_next : next_in (n_kids np) x = nx;
  m_prev : prev_in (n_kids np) x = pv;
  m_xp : x <> p;
  m_x0 : x <> 0;
  m_p0 : p <> 0
}.

Lemma member_intro F x n : wf F -> F !! x = Some n -> n_stale n = None -> n_parent n <> 0 ->
  exists np, member F x (n_parent n) n np (next_in (n_kids np) x) (prev_in (n_kids np) x).
Proof.
  intros W Hx Hs Hp. destruct (parent_in W x n Hx Hp) as [np Hnp]. exists np. split; try done.
  - rewrite <- (kids_lookup F _ np Hnp). by apply (wf_parent F W).
  - intros E. by apply (not_own_parent W x n Hx).
  - by apply (wf_ne W x n).
Qed.

Section member.
Context {F : forest} (W : wf F) {x p : Z} {n np : node} {nx pv : Z} (Hm : member F x p n np nx pv).

Lemma member_plist : plist (n_kids np).
Proof using W Hm. rewrite <- (kids_lookup F p np (m_p _ _ _ _ _ _ _ Hm)). by apply kids_plist. Qed.

Lemma member_sibling z : z ∈ n_kids np -> exists m, F !! z = Some m /\ n_parent m = p /\ n_stale m = None /\ z <> p.
Proof using W Hm.
  intros Hz. destruct (wf_kids F W p np z (m_p _ _ _ _ _ _ _ Hm) Hz) as (m & H1 & H2 & H3).
  exists m. split; [done|]. split; [done|]. split; [done|]. intros ->. by apply (not_own_parent W p m).
Qed.

Lemma member_next : nx <> 0 -> exists m, F !! nx = Some m /\ n_parent m = p /\ n_stale m = None /\ nx ∈ n_kids np
  /\ prev_in (n_kids np) nx = x /\ nx <> p /\ nx <> x /\ nx <> pv.
Proof using W Hm.
  intros H0. pose proof member_plist as Hl. pose proof (m_next _ _ _ _ _ _ _ Hm) as En. pose proof (m_in _ _ _ _ _ _ _ Hm) as Hin.
  destruct (proj1 (next_prev _ x nx Hl Hin H0) En) as [Hnx Epv].
  destruct (member_sibling nx Hnx) as (m & H1 & H2 & H3 & H4). exists m. do 6 (split; [done|]). split.
  - rewrite <- En. by apply next_irrefl.
  - intros E. pose proof (m_prev _ _ _ _ _ _ _ Hm) as Ep. pose proof (m_x0 _ _ _ _ _ _ _ Hm) as Hx0.
    apply (next_next (n_kids np) x nx); try done. apply next_prev; [done|done|done|]. split; [done|congruence].
Qed.

Lemma member_prev : pv <> 0 -> exists m, F !! pv = Some m /\ n_parent m = p /\ n_stale m = None /\ pv ∈ n_kids np
  /\ next_in (n_kids np) pv = x /\ pv <> p /\ pv <> x.
Proof using W Hm.
  intros H0. pose proof member_plist as Hl. pose proof (m_prev _ _ _ _ _ _ _ Hm) as Ep. pose proof (m_in _ _ _ _ _ _ _ Hm) as Hin.
  assert (pv ∈ n_kids np) as Hpv by (rewrite <- Ep in *; by apply prev_in_elem).
  destruct (member_sibling pv Hpv) as (m & H1 & H2 & H3 & H4). exists m. do 4 (split; [done|]). split; [|split; [done|]].
  - apply next_prev; [done|done|apply (m_x0 _ _ _ _ _ _ _ Hm)|done].
  - rewrite <- Ep. by apply prev_irrefl.
Qed.

(** The links that lead to [x]. *)
Lemma member_links z : z ∈ n_kids np -> z <> x ->
  (next_in (n_kids np) z =? x) = (pv =? z) /\ (prev_in (n_kids np) z =? x) = (nx =? z).
Proof using W Hm.
  intros Hz Hne. pose proof member_plist as Hl. destruct Hm as [? ? ? ? Hin En Ep ? Hx0 ?].
  assert (z <> 0) as Hz0 by (intros ->; by apply Hl). split; apply eq_true_iff_eq; rewrite !Z.eqb_eq.
  - rewrite next_prev by done. rewrite Ep. tauto.
  - rewrite <- En, next_prev by done. tauto.
Qed.
Lemma member_links_of z m : z ∈ n_kids np -> F !! z = Some m -> links F z m = sib_links (n_kids np) p z.
Proof using W Hm.
  intros Hz H. destruct (member_sibling z Hz) as (m' & H1 & H2 & H3 & _). assert (m' = m) as -> by congruence.
  unfold links. by rewrite H3, H2, (kids_lookup F p np) by apply Hm.
Qed.
End member.

Lemma conc_unlink_member F x p n np nx pv z : wf F -> member F x p n np nx pv ->
  conc (unlink x F) !! z =
  (fun m => let c := conc_chunk F z m in
     let pa := if pv =? 0 then p else 0 in
     if z =? x then set_next (if pv =? 0 then 0 else nx) (set_prev pv (set_parent pa c))
     else if z =? p then set_child (if pv =? 0 then nx else child c) c
     else set_next (if pv =? z then nx else next c) (set_prev (if nx =? z then pv else prev c)
       (set_parent (if nx =? z then pa else parent c) c))) <$> F !! z.
Proof.
  intros W Hm. pose proof Hm as [Hx Hp Epa Hs Hin En Ep Hxp Hx0 Hp0]. pose proof (member_plist W Hm) as Hpl.
  rewrite (conc_unlink F x n z W Hx Hs). destruct (F !! z) as [m|] eqn:Hz; [|done]. cbn [fmap option_fmap option_map].
  rewrite (links_unlink F x n z m W Hx Hs Hz). cbn zeta. rewrite Epa, (kids_lookup F p np Hp), En, Ep.
  assert (links F x n = (nx, pv, if pv =? 0 then p else 0)) as Hl.
  { unfold links. rewrite Hs, Epa, (kids_lookup F p np Hp). unfold sib_links. by rewrite En, Ep. }
  f_equal. unfold unlink_node. cbn [n_kids]. rewrite Hl.
  destruct (Z.eqb_spec z x) as [->|Hzx].
  { rewrite (proj2 (Z.eqb_neq x p)) by done. assert (m = n) as -> by congruence. unfold stale_of. by destruct (Z.eqb_spec pv 0) as [->|]. }
  destruct (Z.eqb_spec z p) as [->|Hzp].
  - assert (m = np) as -> by congruence. rewrite bool_decide_eq_false_2 by (intros (_ & E & _); by apply (not_own_parent W p np)).
    unfold conc_chunk, set_child. cbn. f_equal. rewrite hd_rm by done.
    rewrite En. destruct (Z.eqb_spec pv 0) as [E|E], (Z.eqb_spec (hd 0 (n_kids np)) x) as [E'|E']; try done.
    + destruct E'. apply prev_hd; congruence.
    + destruct E. rewrite <- Ep. by apply prev_hd.
  - case_bool_decide as Hc.
    + destruct Hc as (Hms & Hmp & _). assert (z ∈ n_kids np) as Hzin.
      { rewrite <- (kids_lookup F p np Hp), <- Hmp. apply (wf_parent F W z m Hz). congruence. }
      destruct (member_links W Hm z Hzin Hzx) as [-> ->]. unfold conc_chunk, set_next, set_prev, set_parent. cbn.
      assert (links F z m = sib_links (n_kids np) p z) as Hlz by (unfold links; rewrite Hms, Hmp, (kids_lookup F p np Hp); done).
      rewrite Hlz. unfold sib_links. cbn [fst snd]. f_equal. by destruct (nx =? z).
    + assert (z ∉ n_kids np) as Hzin.
      { intros Hzin. destruct (member_sibling W Hm z Hzin) as (m' & ? & ? & ? & _). apply Hc. repeat split; congruence. }
      rewrite (proj2 (Z.eqb_neq pv z)), (proj2 (Z.eqb_neq nx z)); [done| |].
      * intros <-. apply Hzin. rewrite <- En. apply next_in_elem. rewrite En. by apply (wf_ne W nx m).
      * intros <-. apply Hzin. rewrite <- Ep. apply prev_in_elem. rewrite Ep. by apply (wf_ne W pv m).
Qed.

(** Heaps are equal when they are equal at every address. *)
Ltac lookups := repeat first [rewrite lookup_insert_eq | rewrite lookup_insert_ne by congruence | rewrite lookup_delete_eq | rewrite lookup_delete_ne by congruence];
  rewrite ?lookup_conc.

Ltac decide_eqs z := repeat match goal with
  | |- context [?a =? ?b] => destruct (Z.eqb_spec a b); try subst z; try congruence
  end.

(** Chunks are equal when their fields are. *)
Ltac same_node := repeat match goal with
  | H : ?F !! ?z = Some ?a, H' : ?F !! ?z = Some ?b |- _ =>
    tryif constr_eq a b then fail else (assert (b = a) by congruence; subst b)
  end.

Ltac chunk_eq :=
  unfold conc_chunk, set_next, set_prev, set_parent, set_child, set_refs; cbn;
  repeat match goal with H : links _ _ _ = _ |- _ => rewrite H end; cbn; repeat f_equal; congruence.

Ltac heap_points W lem :=
  apply map_eq; let z := fresh "z" in intros z; rewrite (lem z) by eassumption;
  let Hz := fresh "Hz" in let m := fresh "m" in
  match goal with |- context [?F !! z] =>
    match type of F with gmap Z node => destruct (F !! z) as [m|] eqn:Hz end end;
  cbn [fmap option_fmap option_map];
  [pose proof (wf_ne W z m Hz); decide_eqs z; lookups; rewrite ?Hz; same_node; first [reflexivity|chunk_eq|idtac]
  |lookups; rewrite Hz; done].

Lemma unlink_st s F x n : wf F -> F !! x = Some n -> n_stale n = None ->
  unlink_chunk x (st s F) = Some (tt, st s (unlink x F)).
Proof.
  intros W Hx Hs. unfold unlink_chunk. t_step.
  assert (links F x n = sib_links (kids F (n_parent n)) (n_parent n) x) as Hl by (unfold links; by rewrite Hs).
  destruct (decide (n_parent n = 0)) as [E0|E0].
  { rewrite Hl. assert (kids F (n_parent n) = []) as -> by (unfold kids; rewrite E0, (wf_zero F W); done).
    simpl. rewrite E0. apply (st_eq s). apply map_eq. intros z. rewrite (conc_unlink F x n z W Hx Hs), lookup_conc.
    destruct (F !! z) as [m|] eqn:Hz; [|done]. simpl. rewrite (links_unlink F x n z m W Hx Hs Hz).
    rewrite (proj2 (Z.eqb_neq z (n_parent n))) by (rewrite E0; by apply (wf_ne W z m)).
    rewrite bool_decide_eq_false_2 by tauto. unfold conc_chunk.
    destruct (Z.eqb_spec z x) as [->|]; [|done]. assert (m = n) as -> by congruence.
    unfold links. rewrite Hs, E0. unfold kids. rewrite (wf_zero F W). done. }
  destruct (member_intro F x n W Hx Hs E0) as [np Hm].
  rewrite (kids_lookup F _ np) in Hl by apply Hm. unfold sib_links in Hl.
  set (nx := next_in (n_kids np) x) in *. set (pv := prev_in (n_kids np) x) in *. set (p := n_parent n) in *.
  pose proof Hm as [_ Hp _ _ Hin En Ep Hxp Hx0 _]. pose proof (member_plist W Hm) as Hpl.
  clearbody nx pv p. rewrite Hl. cbn [fst snd]. destruct (Z.eqb_spec pv 0) as [Epv|Epv].
  - assert (hd 0 (n_kids np) = x) as Hhd by (apply prev_hd; congruence).
    rewrite (set_true p) by done. unfold TLIST_REMOVE_child, _TLIST_REMOVE, the_child.
    repeat t_step. rewrite Hhd, Z.eqb_refl. repeat t_step. rewrite Hl. cbn [fst snd].
    destruct (set_spec nx) as [Hnx|Hnx].
    + destruct (member_next W Hm Hnx) as (mn & Hmn & ? & ? & ? & ? & ? & ?).
      cbn [t_when]. repeat t_step. rewrite (set_true x) by done. rewrite (proj2 (Z.eqb_neq x nx)) by congruence. cbn [negb andb t_when].
      repeat t_step. rewrite (set_true nx) by done. cbn [t_when]. repeat t_step.
      apply (st_eq s). heap_points W (conc_unlink_member F x p n np nx pv).
    + assert (nx = 0) as Hnx0 by lia. cbn [t_when]. repeat t_step. rewrite (set_true x) by done. rewrite (proj2 (Z.eqb_neq x nx)) by congruence. cbn [negb andb t_when].
      repeat t_step. destruct (set_spec nx); [done|]. cbn [t_when]. apply (st_eq s).
      heap_points W (conc_unlink_member F x p n np nx pv).
  - destruct (member_prev W Hm Epv) as (mp & Hmp & ? & ? & ? & ? & ? & ?).
    change (set 0) with false. cbn iota. rewrite (set_true pv) by done. cbn [t_when]. repeat t_step.
    destruct (set_spec nx) as [Hnx|Hnx].
    + destruct (member_next W Hm Hnx) as (mn & Hmn & ? & ? & ? & ? & ? & ? & ?). cbn [t_when]. repeat t_step.
      assert (links F nx mn = (next_in (n_kids np) nx, x, 0)) as Hln.
      { rewrite (member_links_of W Hm nx mn) by done. unfold sib_links. rewrite (proj2 (Z.eqb_neq (prev_in (n_kids np) nx) 0)); congruence. }
      apply (st_eq s). heap_points W (conc_unlink_member F x p n np nx pv).
    + assert (nx = 0) as Hnx0 by lia. cbn [t_when].
      apply (st_eq s). heap_points W (conc_unlink_member F x p n np nx pv).
Qed.

Lemma lookup_unlink F x n z : F !! x = Some n ->
  unlink x F !! z = unlink_node x (n_parent n) (stale_of (links F x n) (n_parent n)) z <$> F !! z.
Proof. intros Hx. unfold unlink. by rewrite Hx, lookup_adjust. Qed.

Lemma is_Some_unlink F x z : is_Some (unlink x F !! z) <-> is_Some (F !! z).
Proof. unfold unlink. destruct (F !! x); [|done]. by rewrite lookup_adjust, fmap_is_Some. Qed.

Lemma rooted_unlink F x y : rooted F y -> rooted (unlink x F) y.
Proof.
  destruct (F !! x) as [n|] eqn:Hx; [|by unfold unlink; rewrite Hx].
  induction 1 as [z m Hz Hp|z m Hz Hr IH].
  - apply (rooted_top _ z (unlink_node x (n_parent n) (stale_of (links F x n) (n_parent n)) z m)).
    + by rewrite (lookup_unlink F x n), Hz.
    + simpl. by destruct (z =? x).
  - destruct (Z.eqb_spec z x) as [E|E].
    + eapply rooted_top; [rewrite (lookup_unlink F x n), Hz by done; reflexivity|]. simpl. by rewrite (proj2 (Z.eqb_eq z x)).
    + eapply rooted_below; [rewrite (lookup_unlink F x n), Hz by done; reflexivity|]. simpl. by rewrite (proj2 (Z.eqb_neq z x)).
Qed.

Lemma unlink_wf F x n : wf F -> F !! x = Some n -> n_stale n = None -> wf (unlink x F).
Proof.
  intros W Hx Hs. pose proof (lookup_unlink F x n) as L. split.
  - rewrite L by done. by rewrite (wf_zero F W).
  - intros p m' y. rewrite L by done. intros (m & Hp & ->)%fmap_Some Hy. simpl in Hy.
    assert (y ∈ n_kids m /\ (p = n_parent n -> y <> x)) as [Hy1 Hy2].
    { destruct (Z.eqb_spec p (n_parent n)); [apply elem_of_rm in Hy; tauto|tauto]. }
    destruct (wf_kids F W p m y Hp Hy1) as (my & Hmy & Hpar & Hst). rewrite L, Hmy by done. eexists. split; [done|]. simpl.
    destruct (Z.eqb_spec y x) as [->|]; [|done]. exfalso. apply Hy2; [congruence|done].
  - intros y m'. rewrite L by done. intros (m & Hy & ->)%fmap_Some. simpl. intros Hp. destruct (Z.eqb_spec y x) as [->|Hyx]; [done|].
    rewrite (kids_unlink F x n) by done. pose proof (wf_parent F W y m Hy Hp).
    destruct (n_parent m =? n_parent n); [|done]. by apply elem_of_rm.
  - intros p m'. rewrite L by done. intros (m & Hp & ->)%fmap_Some. destruct (wf_nodup F W p m Hp). simpl.
    split; [|done]. destruct (p =? n_parent n); [by apply NoDup_rm|done].
  - intros t m' h. rewrite L by done. intros (m & Ht & ->)%fmap_Some Hh. destruct (wf_refs F W t m h Ht Hh) as (mh & Hmh & Hb).
    rewrite L, Hmh by done. by eexists.
  - intros h m' t. rewrite L by done. intros (m & Hh & ->)%fmap_Some Hb. rewrite handles_unlink. by apply (wf_target F W h m).
  - intros h m' t. rewrite L by done. intros (m & Hh & ->)%fmap_Some Hb. destruct (wf_handle F W h m t Hh Hb) as [Hk ?].
    simpl. rewrite Hk. split; [|done]. by destruct (h =? n_parent n).
  - intros y m'. rewrite L by done. intros (m & Hy & ->)%fmap_Some. simpl. destruct (y =? x); [done|]. by apply (wf_stale F W y m).
  - intros y Hy. apply rooted_unlink, (wf_rooted F W). by apply is_Some_unlink in Hy.
Qed.

(** ** Putting a chunk at the front of a list *)

Definition attach_node (p x z : Z) (n : node) : node :=
  mk_node (if z =? x then p else n_parent n) (if z =? p then x :: n_kids n else n_kids n) (n_refs n) (n_dtor n)
    (n_name n) (n_size n) (n_loop n) (if z =? x then None else n_stale n) (n_body n).

Definition attach (p x : Z) (F : forest) : forest := adjust (attach_node p x) F.

Lemma kids_attach F p x q : is_Some (F !! p) ->
  kids (attach p x F) q = if q =? p then x :: kids F q else kids F q.
Proof.
  intros Hp. unfold kids, attach. rewrite lookup_adjust. destruct (Z.eqb_spec q p) as [->|Hne].
  - destruct Hp as [n ->]. simpl. by rewrite Z.eqb_refl.
  - destruct (F !! q); [|done]. simpl. by rewrite (proj2 (Z.eqb_neq q p)).
Qed.

Lemma handles_attach F p x t : handles (attach p x F) t = handles F t.
Proof. unfold handles, attach. rewrite lookup_adjust. by destruct (F !! t). Qed.

Lemma payload_attach F p x z b : payload_of (attach p x F) z b = payload_of F z b.
Proof. unfold payload_of. destruct b; rewrite ?handles_attach; done. Qed.

(** A chunk that is in no list. *)
Record loose (F : forest) (x : Z) (n : node) : Prop := {
  l_x : F !! x = Some n;
  l_parent : n_parent n = 0
}.

Section attach.
Context {F : forest} (W : wf F) {p x : Z} {n np : node} (Hx : loose F x n) (Hp : F !! p = Some np) (Hxp : x <> p).

Lemma loose_notin q : q <> 0 -> x ∉ kids F q.
Proof using W Hx.
  intros Hq Hin. destruct (in_kids W q x Hin) as (m & Hm & Hpar & _). destruct Hx. assert (m = n) as -> by congruence. congruence.
Qed.

Lemma loose_plist : plist (x :: n_kids np).
Proof using W Hx Hp.
  pose proof (wf_ne W p np Hp) as Hp0. apply plist_cons. rewrite <- (kids_lookup F p np Hp). split; [by apply (wf_ne W x n); apply Hx|].
  split; [by apply loose_notin|by apply kids_plist].
Qed.

Lemma conc_attach z : conc (attach p x F) !! z =
  (fun m => let c := conc_chunk F z m in
     if z =? x then set_next (hd 0 (n_kids np)) (set_prev 0 (set_parent p c))
     else if z =? p then set_child x c
     else if hd 0 (n_kids np) =? z then set_prev x (set_parent 0 c) else c) <$> F !! z.
Proof using W Hx Hp Hxp.
  pose proof (wf_ne W p np Hp) as Hp0. pose proof loose_plist as Hl. pose proof (proj1 (plist_cons _ _) Hl) as (Hx0 & Hxl & Hl').
  rewrite lookup_conc. unfold attach at 2. rewrite lookup_adjust. destruct (F !! z) as [m|] eqn:Hz; [|done]. cbn [fmap option_fmap option_map].
  f_equal. unfold conc_chunk at 1. rewrite payload_attach. unfold links. cbn [attach_node n_stale n_parent n_kids n_refs n_dtor n_name n_size n_loop n_body].
  destruct (Z.eqb_spec z x) as [->|Hzx].
  { rewrite kids_attach, Z.eqb_refl, (kids_lookup F p np) by (done || by eexists). rewrite (proj2 (Z.eqb_neq x p)) by done.
    unfold sib_links, prev_in. simpl. by rewrite Z.eqb_refl. }
  destruct (Z.eqb_spec z p) as [->|Hzp].
  { rewrite kids_attach by (by eexists). rewrite (proj2 (Z.eqb_neq (n_parent m) p)) by (by apply (not_own_parent W p m)). done. }
  rewrite kids_attach by (by eexists). destruct (n_stale m) as [s|] eqn:Em.
  { destruct (Z.eqb_spec (hd 0 (n_kids np)) z) as [E|E]; [|unfold conc_chunk, links; by rewrite Em]. exfalso.
    assert (z ∈ n_kids np) as Hin by (rewrite <- E; apply hd_in; rewrite E; by apply (wf_ne W z m)).
    destruct (wf_kids F W p np z Hp Hin) as (m' & ? & _ & ?). congruence. }
  destruct (Z.eqb_spec (n_parent m) p) as [E|E].
  - rewrite E, (kids_lookup F p np Hp). unfold sib_links. cbn [fst snd next_in]. rewrite (proj2 (Z.eqb_neq x z)) by done.
    assert (z ∈ n_kids np) as Hin.
    { rewrite <- (kids_lookup F p np Hp), <- E. apply (wf_parent F W z m Hz). congruence. }
    rewrite prev_cons by done. rewrite (set_true z) by (by apply (wf_ne W z m)). cbn [andb].
    unfold conc_chunk, links. rewrite Em, E, (kids_lookup F p np Hp). unfold sib_links.
    destruct (Z.eqb_spec (hd 0 (n_kids np)) z) as [Eh|Eh]; [|done]. by rewrite (proj2 (Z.eqb_neq x 0)).
  - destruct (Z.eqb_spec (hd 0 (n_kids np)) z) as [Eh|Eh]; [|unfold conc_chunk, links; by rewrite Em]. exfalso.
    assert (z ∈ n_kids np) as Hin by (rewrite <- Eh; apply hd_in; rewrite Eh; by apply (wf_ne W z m)).
    destruct (wf_kids F W p np z Hp Hin) as (m' & ? & ? & _). congruence.
Qed.

Lemma lookup_attach z : attach p x F !! z = attach_node p x z <$> F !! z.
Proof using. apply lookup_adjust. Qed.

Lemma rooted_attach_away y : rooted F y -> ~ below F y x -> rooted (attach p x F) y.
Proof using.
  induction 1 as [z m Hz Hpar|z m Hz Hr IH]; intros Hb.
  - assert (z <> x) as Hne by (intros ->; apply Hb, below_refl; by eexists).
    eapply rooted_top; [rewrite lookup_attach, Hz; reflexivity|]. simpl. by rewrite (proj2 (Z.eqb_neq z x)).
  - assert (z <> x) as Hne by (intros ->; apply Hb, below_refl; by eexists).
    eapply rooted_below; [rewrite lookup_attach, Hz; reflexivity|]. simpl. rewrite (proj2 (Z.eqb_neq z x)) by done.
    apply IH. intros H. apply Hb. by apply (below_step F z m).
Qed.

Lemma rooted_attach y : ~ below F p x -> rooted F y -> rooted (attach p x F) y.
Proof using W Hx Hp.
  intros Hb. induction 1 as [z m Hz Hpar|z m Hz Hr IH]; (destruct (Z.eqb_spec z x) as [->|Hne];
    [eapply rooted_below; [rewrite lookup_attach, Hz; reflexivity|simpl; rewrite Z.eqb_refl; apply rooted_attach_away; [by apply (wf_rooted F W); eexists|done]]|]).
  - eapply rooted_top; [rewrite lookup_attach, Hz; reflexivity|]. simpl. by rewrite (proj2 (Z.eqb_neq z x)).
  - eapply rooted_below; [rewrite lookup_attach, Hz; reflexivity|]. simpl. by rewrite (proj2 (Z.eqb_neq z x)).
Qed.

Lemma wf_attach : ~ below F p x -> (forall t, n_body np <> Reference t) -> wf (attach p x F).
Proof using W Hx Hp Hxp.
  intros Hb Hnp. pose proof (wf_ne W p np Hp) as Hp0. pose proof (loose_notin p Hp0) as Hxl. rewrite (kids_lookup F p np Hp) in Hxl.
  destruct Hx as [Hlx Hpar]. split.
  - rewrite lookup_attach, (wf_zero F W). done.
  - intros q m' y. rewrite lookup_attach. intros (m & Hq & ->)%fmap_Some. simpl. intros Hy.
    assert ((q = p /\ y = x) \/ y ∈ n_kids m) as [[-> ->]|Hy'].
    { destruct (Z.eqb_spec q p) as [->|]; [|by right]. apply elem_of_cons in Hy as [->|]; [by left|by right]. }
    + rewrite lookup_attach, Hlx. eexists. split; [done|]. simpl. by rewrite Z.eqb_refl.
    + destruct (wf_kids F W q m y Hq Hy') as (my & Hmy & Hpy & Hsy). rewrite lookup_attach, Hmy. eexists. split; [done|]. simpl.
      destruct (Z.eqb_spec y x) as [->|]; [|done]. exfalso. apply (wf_ne W q m Hq). congruence.
  - intros y m'. rewrite lookup_attach. intros (m & Hy & ->)%fmap_Some. simpl. intros Hpy. rewrite kids_attach by (by eexists).
    destruct (Z.eqb_spec y x) as [->|Hyx].
    + rewrite Z.eqb_refl. left.
    + pose proof (wf_parent F W y m Hy Hpy). destruct (n_parent m =? p); [by right|done].
  - intros q m'. rewrite lookup_attach. intros (m & Hq & ->)%fmap_Some. destruct (wf_nodup F W q m Hq) as [H1 H2]. simpl.
    split; [|done]. destruct (Z.eqb_spec q p) as [->|]; [|done]. apply NoDup_cons. split; [|done]. congruence.
  - intros t m' h. rewrite lookup_attach. intros (m & Ht & ->)%fmap_Some Hh. destruct (wf_refs F W t m h Ht Hh) as (mh & Hmh & Hbd).
    rewrite lookup_attach, Hmh. by eexists.
  - intros h m' t. rewrite lookup_attach. intros (m & Hh & ->)%fmap_Some Hbd. rewrite handles_attach. by apply (wf_target F W h m).
  - intros h m' t. rewrite lookup_attach. intros (m & Hh & ->)%fmap_Some Hbd. destruct (wf_handle F W h m t Hh Hbd) as [Hk ?].
    simpl. split; [|done]. destruct (Z.eqb_spec h p) as [->|]; [|done]. exfalso. apply (Hnp t). simpl in Hbd. congruence.
  - intros y m'. rewrite lookup_attach. intros (m & Hy & ->)%fmap_Some. simpl. destruct (y =? x); [done|]. by apply (wf_stale F W y m).
  - intros y Hy. apply rooted_attach; [done|]. apply (wf_rooted F W). by rewrite lookup_attach, fmap_is_Some in Hy.
Qed.
End attach.
