(* ===== verification/TallocOps.v ===== *)
(** * Talloc: what the operations do to the forest

    The walks to a parent, moving a chunk, allocating one, and the handles of
    references. *)

From S2P Require Import Prelude Talloc TallocRep.

(** ** Removing and moving chunks *)

(** The chunks [D] go, the chunks [K] become the first children of [p]. *)
Definition prune_node (p : Z) (D K : list Z) (z : Z) (n : node) : node :=
  mk_node (if bool_decide (z ∈ K) then p else n_parent n)
    ((if z =? p then K else []) ++ filter (fun y => y ∉ D ++ K) (n_kids n))
    (filter (fun h => h ∉ D) (n_refs n)) (n_dtor n) (n_name n) (n_size n) (n_loop n) (n_stale n) (n_body n).

Definition prune (F : forest) (p : Z) (D K : list Z) : forest :=
  map_imap (fun z n => if bool_decide (z ∈ D) then None else Some (prune_node p D K z n)) F.

Lemma lookup_prune F p D K z :
  prune F p D K !! z = if bool_decide (z ∈ D) then None else prune_node p D K z <$> F !! z.
Proof. unfold prune. rewrite map_lookup_imap. destruct (F !! z); simpl; by destruct (bool_decide (z ∈ D)). Qed.

(** ** Sizes *)

Lemma size_conc F : size (conc F) = size F.
Proof.
  rewrite <- !size_dom. f_equal. apply set_eq. intros x. rewrite !elem_of_dom, lookup_conc. by rewrite fmap_is_Some.
Qed.

Lemma length_le_size (F : forest) l : NoDup l -> (forall x, x ∈ l -> is_Some (F !! x)) -> (length l <= size F)%nat.
Proof.
  intros Hl H. rewrite <- size_dom. rewrite <- (size_list_to_set (C := gset Z) l) by done. apply subseteq_size.
  intros x Hx. apply elem_of_dom, H. by apply elem_of_list_to_set in Hx.
Qed.

Lemma enough_st s F : enough (st s F) = (4 * size F + 4)%nat.
Proof. unfold enough. simpl heap. by rewrite size_conc. Qed.

(** ** Walking to the parent *)

Lemma prev_in_lookup l k y : plist l -> l !! S k = Some y -> l !! k = Some (prev_in l y).
Proof.
  unfold prev_in. generalize 0 as p. intros p. revert k p. induction l as [|a l IH]; intros k p Hl H; [done|].
  apply plist_cons in Hl as (Ha & Hal & Hl). simpl in H. cbn [prev_from].
  destruct (Z.eqb_spec a y) as [->|Hne]; [destruct Hal; by apply list_elem_of_lookup_2 in H|].
  destruct k as [|k]; [|by apply IH]. destruct l as [|b l]; [done|]. simpl in *. injection H as ->. by rewrite Z.eqb_refl.
Qed.

Lemma first_parent_list s F p l : wf F -> kids F p = l ->
  forall k y fuel, l !! k = Some y -> (k < fuel)%nat -> first_parent fuel y (st s F) = Some (p, st s F).
Proof.
  intros W Hl. assert (plist l) as Hpl by (rewrite <- Hl; by apply kids_plist).
  induction k as [|k IH]; intros y fuel Hk Hf; (destruct fuel as [|fuel]; [lia|]); simpl;
    (assert (y ∈ l) as Hy by (by apply list_elem_of_lookup_2 in Hk)); rewrite <- Hl in Hy;
    destruct (in_kids W p y Hy) as (m & Hm & Hpar & Hst); t_step;
    unfold links; rewrite Hst, Hpar, Hl; unfold sib_links; cbn [fst snd].
  - assert (hd 0 l = y) as Hh by (destruct l; [done|]; simpl in *; congruence).
    rewrite (proj2 (prev_hd l y Hpl (list_elem_of_lookup_2 _ _ _ Hk)) Hh). done.
  - pose proof (prev_in_lookup l k y Hpl Hk) as Hk'. rewrite set_true; [apply IH; [done|lia]|].
    intros E. rewrite E in Hk'. apply Hpl. by apply list_elem_of_lookup_2 in Hk'.
Qed.

Lemma first_parent_kid s F p y fuel : wf F -> y ∈ kids F p -> (size F < fuel)%nat ->
  first_parent fuel y (st s F) = Some (p, st s F).
Proof.
  intros W Hy Hf. apply list_elem_of_lookup in Hy as [k Hk]. apply (first_parent_list s F p _ W eq_refl k); [done|].
  pose proof (lookup_lt_Some _ _ _ Hk). enough (length (kids F p) <= size F)%nat by lia.
  apply length_le_size; [by apply kids_plist|]. intros z Hz. destruct (in_kids W p z Hz) as (m & ? & _). by eexists.
Qed.

(** Walking up from [x] leads to [p0]. *)
Definition climbs (F : forest) (x p0 : Z) : Prop :=
  exists n, F !! x = Some n /\ match n_stale n with
  | None => n_parent n = p0
  | Some (_, pv, pa) => pv = 0 /\ pa = p0 \/ pv ∈ kids F p0
  end.

Lemma first_parent_st s F x p0 fuel : wf F -> climbs F x p0 -> (S (size F) < fuel)%nat ->
  first_parent fuel x (st s F) = Some (p0, st s F).
Proof.
  intros W (n & Hx & Hc) Hf. destruct (n_stale n) as [[[nx pv] pa]|] eqn:Es.
  - destruct fuel as [|fuel]; [lia|]. simpl. t_step. unfold links. rewrite Es. cbn [fst snd].
    destruct Hc as [[-> ->]|Hpv]; [done|]. rewrite set_true; [|intros ->; by apply (kids_plist W p0)].
    apply first_parent_kid; [done|done|lia].
  - destruct (decide (n_parent n = 0)) as [E|E].
    + destruct fuel as [|fuel]; [lia|]. simpl. t_step. unfold links. rewrite Es, E. unfold kids. rewrite (wf_zero F W). simpl.
      by rewrite <- Hc, E.
    + rewrite <- Hc. apply first_parent_kid; [done|by apply (wf_parent F W)|lia].
Qed.

Lemma from_ptr_bind {A} s F x n (k : talloc_chunk -> T A) : F !! x = Some n ->
  (do c <- talloc_chunk_from_ptr x; k c) (st s F) = k (conc_chunk F x n) (st s F).
Proof. intros H. by rewrite (bind_some _ _ _ _ _ (from_ptr_st s F x n H)). Qed.

Lemma climbs_in F x p0 : climbs F x p0 -> is_Some (F !! x).
Proof. intros (n & H & _). by eexists. Qed.

Lemma parent_climbs s F x p0 : wf F -> climbs F x p0 -> talloc_parent_chunk x (st s F) = Some (p0, st s F).
Proof.
  intros W Hc. destruct (climbs_in _ _ _ Hc) as [n Hx]. unfold talloc_parent_chunk.
  rewrite set_true by (by apply (wf_ne W x n)). cbn [negb]. rewrite (from_ptr_bind s F x n) by done.
  unfold t_fuel. rewrite bind_get. apply first_parent_st; [done|done|]. rewrite enough_st. lia.
Qed.

Lemma parent_st s F x n : wf F -> F !! x = Some n -> n_stale n = None ->
  talloc_parent_chunk x (st s F) = Some (n_parent n, st s F).
Proof. intros W Hx Hs. apply parent_climbs; [done|]. exists n. split; [done|]. by rewrite Hs. Qed.

(** ** Moving a chunk *)

Lemma below_in F x a : below F x a -> is_Some (F !! x) /\ is_Some (F !! a).
Proof. induction 1 as [x H|x n a H _ [_ IH]]; [done|]. split; [by eexists|done]. Qed.

Lemma below_unlink F x y a : wf F -> below (unlink x F) y a -> below F y a.
Proof.
  intros W. destruct (F !! x) as [n|] eqn:Hx; [|by unfold unlink; rewrite Hx].
  induction 1 as [z Hz|z m' a Hz Hb IH].
  - apply below_refl. by apply is_Some_unlink in Hz.
  - rewrite (lookup_unlink F x n) in Hz by done. apply fmap_Some in Hz as (m & Hm & ->). simpl in *.
    destruct (z =? x); [|by apply (below_step F z m)].
    exfalso. destruct (below_in _ _ _ IH) as [[m0 H0] _]. by apply (wf_ne W 0 m0).
Qed.

Lemma filter_in_rm x l : filter (fun y => y ∉ [] ++ [x]) l = rm x l.
Proof. apply list_filter_iff. intros y. simpl. by rewrite list_elem_of_singleton. Qed.

Lemma filter_nil (l : list Z) : filter (fun h => h ∉ ([] : list Z)) l = l.
Proof. induction l as [|a l IH]; [done|]. rewrite filter_cons_True by apply not_elem_of_nil. by rewrite IH. Qed.

Lemma lookup_move F p x z : prune F p [] [x] !! z =
  (fun n => mk_node (if z =? x then p else n_parent n) ((if z =? p then [x] else []) ++ rm x (n_kids n)) (n_refs n) (n_dtor n)
     (n_name n) (n_size n) (n_loop n) (n_stale n) (n_body n)) <$> F !! z.
Proof.
  rewrite lookup_prune, bool_decide_eq_false_2 by apply not_elem_of_nil. destruct (F !! z); [|done]. simpl. unfold prune_node.
  rewrite filter_in_rm, filter_nil. do 2 f_equal. case_bool_decide as H; rewrite list_elem_of_singleton in H.
  - by rewrite (proj2 (Z.eqb_eq z x)).
  - by rewrite (proj2 (Z.eqb_neq z x)).
Qed.

Lemma kids_rm_other F x n q m : wf F -> F !! x = Some n -> F !! q = Some m -> q <> n_parent n -> rm x (n_kids m) = n_kids m.
Proof.
  intros W Hx Hq Hne. apply rm_id. intros Hin. destruct (wf_kids F W q m x Hq Hin) as (m' & ? & ? & _). congruence.
Qed.

Lemma move_attach F p x n : wf F -> F !! x = Some n -> n_stale n = None -> p <> 0 ->
  prune F p [] [x] = attach p x (unlink x F).
Proof.
  intros W Hx Hs Hp0. apply map_eq. intros z. rewrite lookup_move. unfold attach. rewrite lookup_adjust, (lookup_unlink F x n) by done.
  destruct (F !! z) as [m|] eqn:Hz; [|done]. simpl. unfold attach_node, unlink_node. cbn. f_equal.
  assert (rm x (n_kids m) = if z =? n_parent n then rm x (n_kids m) else n_kids m) as Hrm.
  { destruct (Z.eqb_spec z (n_parent n)); [done|]. by apply (kids_rm_other F x n z m). }
  rewrite <- Hrm. destruct (Z.eqb_spec z x) as [->|]; f_equal; try (by destruct (z =? p)); try (by destruct (x =? p)). congruence.
Qed.

Lemma move_first F p x n : wf F -> F !! x = Some n -> n_parent n = p -> p <> 0 -> prev_in (kids F p) x = 0 -> prune F p [] [x] = F.
Proof.
  intros W Hx Hp Hp0 Hpv. apply map_eq. intros z. rewrite lookup_move. destruct (F !! z) as [m|] eqn:Hz; [|done]. simpl. f_equal.
  destruct m as [pa ks rs d nm sz lp sl bd] eqn:Em. cbn. f_equal.
  - destruct (Z.eqb_spec z x) as [->|]; [|done]. rewrite Hx in Hz. injection Hz as ->. by simpl in Hp.
  - destruct (Z.eqb_spec z p) as [->|Hne].
    + rewrite (kids_lookup F p _ Hz) in Hpv. pose proof (wf_parent F W x n Hx) as Hin. rewrite Hp in Hin. specialize (Hin Hp0).
      pose proof (kids_plist W p) as Hpl. rewrite (kids_lookup F p _ Hz) in Hin, Hpl. simpl in *.
      apply (prev_hd ks x Hpl Hin) in Hpv. destruct ks as [|a ks]; [by apply not_elem_of_nil in Hin|]. simpl in Hpv. subst a.
      rewrite rm_cons, Z.eqb_refl, rm_id; [done|]. by apply plist_cons in Hpl as (_ & ? & _).
    + simpl. apply (kids_rm_other F x n z _ W Hx Hz). congruence.
Qed.

Lemma context_st s F p : p <> 0 -> context_of p (st s F) = Some (p, st s F).
Proof. intros H. unfold context_of. by rewrite set_true. Qed.

(** The end of [_talloc_steal]: a loose chunk goes to the front of the children of [p]. *)
Lemma attach_run s F p x n np : wf F -> loose F x n -> F !! p = Some np -> x <> p ->
  (do! assign x (set_parent p);
   do c <- chunk p;
   do! t_when (set (child c)) (assign (child c) (set_parent 0));
   TLIST_ADD_child p x) (st s F) = Some (tt, st s (attach p x F)).
Proof.
  intros W Hl Hp Hxp. pose proof Hl as [Hx Hpar]. pose proof (loose_plist W Hl Hp) as Hpl.
  repeat t_step. unfold TLIST_ADD_child, _TLIST_ADD, the_child.
  destruct (set_spec (hd 0 (n_kids np))) as [Hh|Hh]; cbn [t_when].
  - assert (hd 0 (n_kids np) ∈ n_kids np) as Hin by (by apply hd_in).
    destruct (wf_kids F W p np _ Hp Hin) as (mh & Hmh & Hph & Hsh).
    assert (hd 0 (n_kids np) <> x) as Hhx by (intros E; rewrite E in Hin; by apply plist_cons in Hpl as (_ & ? & _)).
    assert (hd 0 (n_kids np) <> p) as Hhp by (intros E; apply (not_own_parent W p np); congruence).
    assert (links F (hd 0 (n_kids np)) mh = (next_in (n_kids np) (hd 0 (n_kids np)), 0, p)) as Hlh.
    { unfold links. rewrite Hsh, Hph, (kids_lookup F p np Hp). unfold sib_links.
      by rewrite (proj2 (prev_hd (n_kids np) _ (proj2 (proj2 (proj1 (plist_cons _ _) Hpl))) Hin) eq_refl). }
    repeat t_step. rewrite set_true by done. cbn [negb]. repeat t_step.
    apply (st_eq s). heap_points W (conc_attach W Hl Hp Hxp).
  - assert (hd 0 (n_kids np) = 0) as Hh0 by lia. repeat t_step. rewrite Hh0. cbn [negb set Z.eqb]. repeat t_step.
    apply (st_eq s). heap_points W (conc_attach W Hl Hp Hxp).
Qed.

Lemma loose_unlink F x n : F !! x = Some n ->
  loose (unlink x F) x (unlink_node x (n_parent n) (stale_of (links F x n) (n_parent n)) x n).
Proof. intros Hx. split; [by rewrite (lookup_unlink F x n), Hx|]. simpl. by rewrite Z.eqb_refl. Qed.

Lemma prev_st F x n : n_stale n = None -> links F x n = sib_links (kids F (n_parent n)) (n_parent n) x.
Proof. intros Hs. unfold links. by rewrite Hs. Qed.

Lemma bind_unlink {A} s F x n (k : T A) : wf F -> F !! x = Some n -> n_stale n = None ->
  (do! unlink_chunk x; k) (st s F) = k (st s (unlink x F)).
Proof. intros W Hx Hs. by rewrite (bind_some _ _ _ _ _ (unlink_st s F x n W Hx Hs)). Qed.

Lemma steal_body s F p x n : wf F -> F !! x = Some n -> n_stale n = None -> is_Some (F !! p) -> x <> p -> p <> 0 ->
  (do! unlink_chunk x;
   do! assign x (set_parent p);
   do c <- chunk p;
   do! t_when (set (child c)) (assign (child c) (set_parent 0));
   TLIST_ADD_child p x) (st s F) = Some (tt, st s (prune F p [] [x])).
Proof.
  intros W Hx Hs Hp Hxp Hp0. rewrite (bind_unlink s F x n) by done.
  apply (is_Some_unlink F x p) in Hp as [np Hp].
  rewrite (attach_run s _ p x _ np (unlink_wf F x n W Hx Hs) (loose_unlink F x n Hx) Hp Hxp). by rewrite (move_attach F p x n).
Qed.

Lemma wf_move F p x n np : wf F -> F !! x = Some n -> n_stale n = None -> F !! p = Some np -> x <> p ->
  ~ below F p x -> (forall t, n_body np <> Reference t) -> wf (prune F p [] [x]).
Proof.
  intros W Hx Hs Hp Hxp Hb Hnp. rewrite (move_attach F p x n W Hx Hs) by (by apply (wf_ne W p np)).
  apply (wf_attach (unlink_wf F x n W Hx Hs) (np := unlink_node x (n_parent n) (stale_of (links F x n) (n_parent n)) p np)
    (loose_unlink F x n Hx)); [by rewrite (lookup_unlink F x n), Hp|done| |done].
  intros H. apply Hb. by apply (below_unlink F x).
Qed.

(** [talloc_steal] to a context that is not below the chunk. *)
Lemma steal_st s F p x n np : wf F -> F !! x = Some n -> n_stale n = None -> F !! p = Some np -> x <> p ->
  _talloc_steal p x (st s F) = Some (x, st s (prune F p [] [x])).
Proof.
  intros W Hx Hs Hp Hxp. pose proof (wf_ne W p np Hp) as Hp0. unfold _talloc_steal. rewrite set_true by (by apply (wf_ne W x n)). cbn [negb].
  rewrite (bind_some _ _ _ _ _ (context_st s F p Hp0)), (from_ptr_bind s F x n) by done.
  rewrite set_true by done. cbn [negb]. rewrite (from_ptr_bind s F p np) by done.
  rewrite (proj2 (Z.eqb_neq x p)), conc_parent, (prev_st F x n Hs) by done. unfold sib_links. cbn [orb snd].
  destruct (Z.eqb_spec (if prev_in (kids F (n_parent n)) x =? 0 then n_parent n else 0) p) as [E|E].
  - rewrite (move_first F p x n); [done|done|done| |done|]; destruct (Z.eqb_spec (prev_in (kids F (n_parent n)) x) 0); congruence.
  - pose proof (steal_body s F p x n W Hx Hs (ex_intro _ np Hp) Hxp Hp0) as Hrun. unfold t_bind in Hrun |- *.
    repeat match type of Hrun with context [match ?m with _ => _ end] => destruct m as [[??]|]; try done end.
    by rewrite Hrun.
Qed.

(** Forgetting the links that are left in a chunk. *)
Definition settle_node (x z : Z) (n : node) : node :=
  mk_node (n_parent n) (n_kids n) (n_refs n) (n_dtor n) (n_name n) (n_size n) (n_loop n) (if z =? x then None else n_stale n) (n_body n).

Definition settle (x : Z) (F : forest) : forest := adjust (settle_node x) F.

Lemma lookup_settle x F z : settle x F !! z = settle_node x z <$> F !! z.
Proof. apply lookup_adjust. Qed.

Lemma kids_settle x F q : kids (settle x F) q = kids F q.
Proof. unfold kids. rewrite lookup_settle. by destruct (F !! q). Qed.

Lemma handles_settle x F q : handles (settle x F) q = handles F q.
Proof. unfold handles. rewrite lookup_settle. by destruct (F !! q). Qed.

Lemma rooted_settle x F y : rooted F y -> rooted (settle x F) y.
Proof.
  induction 1 as [z m Hz Hp|z m Hz Hr IH].
  - eapply rooted_top; [rewrite lookup_settle, Hz; reflexivity|done].
  - eapply rooted_below; [rewrite lookup_settle, Hz; reflexivity|done].
Qed.

Lemma wf_settle F x : wf F -> wf (settle x F).
Proof.
  intros W. split.
  - rewrite lookup_settle, (wf_zero F W). done.
  - intros p m' y. rewrite lookup_settle. intros (m & Hp & ->)%fmap_Some Hy. destruct (wf_kids F W p m y Hp Hy) as (my & Hmy & ? & ?).
    rewrite lookup_settle, Hmy. eexists. split; [done|]. simpl. by destruct (y =? x).
  - intros y m'. rewrite lookup_settle. intros (m & Hy & ->)%fmap_Some Hp. rewrite kids_settle. by apply (wf_parent F W y m).
  - intros p m'. rewrite lookup_settle. intros (m & Hp & ->)%fmap_Some. by apply (wf_nodup F W p m).
  - intros t m' h. rewrite lookup_settle. intros (m & Ht & ->)%fmap_Some Hh. destruct (wf_refs F W t m h Ht Hh) as (mh & Hmh & ?).
    rewrite lookup_settle, Hmh. by eexists.
  - intros h m' t. rewrite lookup_settle. intros (m & Hh & ->)%fmap_Some Hb. rewrite handles_settle. by apply (wf_target F W h m).
  - intros h m' t. rewrite lookup_settle. intros (m & Hh & ->)%fmap_Some Hb. by apply (wf_handle F W h m t).
  - intros y m'. rewrite lookup_settle. intros (m & Hy & ->)%fmap_Some. simpl. destruct (y =? x); [done|]. by apply (wf_stale F W y m).
  - intros y. rewrite lookup_settle, fmap_is_Some. intros Hy. by apply rooted_settle, (wf_rooted F W).
Qed.

Lemma move_settle F x n : wf F -> F !! x = Some n -> n_stale n = None -> prune F 0 [] [x] = settle x (unlink x F).
Proof.
  intros W Hx Hs. apply map_eq. intros z. rewrite lookup_move, lookup_settle, (lookup_unlink F x n) by done.
  destruct (F !! z) as [m|] eqn:Hz; [|done]. simpl. unfold settle_node, unlink_node. cbn. f_equal.
  rewrite (proj2 (Z.eqb_neq z 0)) by (by apply (wf_ne W z m)). simpl.
  assert (rm x (n_kids m) = if z =? n_parent n then rm x (n_kids m) else n_kids m) as Hrm.
  { destruct (Z.eqb_spec z (n_parent n)); [done|]. by apply (kids_rm_other F x n z m). }
  rewrite <- Hrm. destruct (Z.eqb_spec z x) as [->|]; f_equal; congruence.
Qed.

Lemma wf_move_top F x n : wf F -> F !! x = Some n -> n_stale n = None -> wf (prune F 0 [] [x]).
Proof. intros W Hx Hs. rewrite (move_settle F x n) by done. by apply wf_settle, (unlink_wf F x n). Qed.

Lemma conc_settle F x z n : wf F -> F !! x = Some n -> n_parent n = 0 ->
  conc (settle x F) !! z =
  (fun m => let c := conc_chunk F z m in if z =? x then set_parent 0 (set_next 0 (set_prev 0 c)) else c) <$> F !! z.
Proof.
  intros W Hx Hp. rewrite lookup_conc, lookup_settle. destruct (F !! z) as [m|] eqn:Hz; [|done]. simpl. f_equal.
  unfold conc_chunk, links. simpl. assert (forall b, payload_of (settle x F) z b = payload_of F z b) as Hpl
    by (intros []; simpl; rewrite ?handles_settle; done). rewrite Hpl.
  destruct (Z.eqb_spec z x) as [->|]; rewrite ?kids_settle; [|done].
  assert (m = n) as -> by congruence. rewrite Hp. unfold kids. rewrite (wf_zero F W). done.
Qed.

Lemma steal_top_st s F x n : wf F -> F !! x = Some n -> n_stale n = None -> null_context s = 0 ->
  _talloc_steal 0 x (st s F) = Some (x, st s (prune F 0 [] [x])).
Proof.
  intros W Hx Hs Hn. unfold _talloc_steal. rewrite set_true by (by apply (wf_ne W x n)). cbn [negb].
  assert (context_of 0 (st s F) = Some (0, st s F)) as Hc by (unfold context_of; simpl; unfold t_bind, t_get; simpl; by rewrite Hn).
  rewrite (bind_some _ _ _ _ _ Hc), (from_ptr_bind s F x n) by done. cbn [negb set Z.eqb].
  rewrite (bind_unlink s F x n) by done.
  pose proof (loose_unlink F x n Hx) as [Hx' Hp']. pose proof (unlink_wf F x n W Hx Hs) as W'. rewrite (move_settle F x n) by done.
  set (F' := unlink x F) in *. t_step. apply (st_eq s).
  heap_points W' (fun z => conc_settle F' x z _ W' Hx' Hp').
Qed.

(** The context that [NULL] stands for. *)
Definition context (s : state) (p : Z) : Z := if p =? 0 then null_context s else p.

(** Moving [x] below [p], or to the top. *)
Record may_move (F : forest) (p x : Z) : Prop := {
  mv_in : p <> 0 -> exists np, F !! p = Some np /\ forall t, n_body np <> Reference t;
  mv_below : ~ below F p x
}.

Lemma steal_context s F p x n : wf F -> F !! x = Some n -> n_stale n = None -> may_move F (context s p) x ->
  _talloc_steal p x (st s F) = Some (x, st s (prune F (context s p) [] [x])) /\ wf (prune F (context s p) [] [x]).
Proof.
  intros W Hx Hs [Hin Hb]. assert (forall q, q <> 0 -> context s p = q -> _talloc_steal p x (st s F) = _talloc_steal q x (st s F)) as Hq.
  { intros q Hq0 E. unfold context in E. destruct (Z.eqb_spec p 0) as [->|]; [|congruence]. unfold _talloc_steal.
    destruct (negb (set x)); [done|]. rewrite (bind_some _ _ _ _ _ (context_st s F q Hq0)).
    assert (context_of 0 (st s F) = Some (q, st s F)) as Hc by (unfold context_of; simpl; unfold t_bind, t_get; simpl; by rewrite E).
    by rewrite (bind_some _ _ _ _ _ Hc). }
  destruct (decide (context s p = 0)) as [E|E].
  - rewrite E. unfold context in E. destruct (Z.eqb_spec p 0) as [->|]; [|done].
    split; [by apply (steal_top_st s F x n)|by apply (wf_move_top F x n)].
  - destruct (Hin E) as (np & Hnp & Hbd). rewrite (Hq _ E eq_refl).
    assert (x <> context s p) as Hne by (intros ->; apply Hb, below_refl; by eexists).
    split; [by apply (steal_st s F _ x n np)|by apply (wf_move F _ x n np)].
Qed.

(** ** Handles *)

Lemma data_conc F x n : data (conc_chunk F x n) = payload_of F x (n_body n).
Proof. done. Qed.

Lemma bind_handle {B} x c h (k : talloc_reference_handle -> T B) s :
  heap s !! x = Some c -> data c = Handle h -> (do h <- handle x; k h) s = k h s.
Proof. intros H E. unfold handle. rewrite bind_bind, (bind_chunk _ _ _ _ H), E. done. Qed.

Lemma bind_assign_handle {B} x c h f (k : T B) s : heap s !! x = Some c -> data c = Handle h ->
  (do! assign_handle x f; k) s = k (set_heap (<[x := set_data (Handle (f h)) c]> (heap s)) s).
Proof.
  intros H E. unfold assign_handle. rewrite bind_bind, (bind_handle _ _ _ _ _ H E). by rewrite (bind_assign _ _ _ _ _ H).
Qed.

Lemma assign_handle_heap x c h f s : heap s !! x = Some c -> data c = Handle h ->
  assign_handle x f s = Some (tt, set_heap (<[x := set_data (Handle (f h)) c]> (heap s)) s).
Proof. intros H E. unfold assign_handle. rewrite (bind_handle _ _ _ _ _ H E). by rewrite (assign_heap _ _ _ _ H). Qed.

Ltac t_data := cbn [data set_data set_refs]; rewrite ?data_conc; (match goal with H : n_body ?n = _ |- context [n_body ?n] => rewrite H end || idtac); reflexivity.

Ltac h_step := first
  [ erewrite bind_handle by (t_lookup || t_data)
  | erewrite bind_assign_handle by (t_lookup || t_data)
  | erewrite assign_handle_heap by (t_lookup || t_data)
  | t_step ];
  rewrite ?set_heap_twice; cbn [heap st set_heap h_next h_prev h_ptr set_h_next set_h_prev refs set_refs set_data].

Definition release_node (h t z : Z) (n : node) : node :=
  mk_node (n_parent n) (n_kids n) (if z =? t then rm h (n_refs n) else n_refs n) (n_dtor n)
    (n_name n) (n_size n) (n_loop n) (n_stale n) (if z =? h then Released t else n_body n).

(** The handle [h] does not refer to [t] any more. *)
Definition release (h t : Z) (F : forest) : forest := adjust (release_node h t) F.

Lemma lookup_release h t F z : release h t F !! z = release_node h t z <$> F !! z.
Proof. apply lookup_adjust. Qed.

Lemma kids_release h t F q : kids (release h t F) q = kids F q.
Proof. unfold kids. rewrite lookup_release. by destruct (F !! q). Qed.

Lemma handles_release h t F q : handles (release h t F) q = if q =? t then rm h (handles F q) else handles F q.
Proof. unfold handles. rewrite lookup_release. destruct (F !! q); simpl; by destruct (q =? t). Qed.

Section release.
Context {F : forest} (W : wf F) {h t : Z} {n : node} (Hh : F !! h = Some n) (Hb : n_body n = Reference t).

Lemma target_in : exists nt, F !! t = Some nt /\ h ∈ n_refs nt /\ h <> t.
Proof using W Hh Hb.
  pose proof (wf_target F W h n t Hh Hb) as Hin. unfold handles in Hin.
  destruct (F !! t) as [nt|] eqn:Ht; [|by apply not_elem_of_nil in Hin]. exists nt. split; [done|]. split; [done|].
  intros ->. destruct (wf_handle F W t n t Hh Hb) as [_ Hr]. assert (nt = n) as -> by congruence. simpl in Hin. rewrite Hr in Hin.
  by apply not_elem_of_nil in Hin.
Qed.

Context {nt : node} (Ht : F !! t = Some nt).
#[local] Abbreviation hs := (n_refs nt).
#[local] Abbreviation nx := (next_in hs h).
#[local] Abbreviation pv := (prev_in hs h).

Lemma release_plist : plist hs.
Proof using W Ht. rewrite <- (handles_lookup F t nt Ht). by apply handles_plist. Qed.

Lemma release_in : h ∈ hs /\ h <> t /\ h <> 0.
Proof using W Hh Hb Ht.
  destruct target_in as (nt' & ? & ? & ?). assert (nt' = nt) as -> by congruence. split; [done|]. split; [done|]. by apply (wf_ne W h n).
Qed.

Lemma release_sibling z : z ∈ hs -> exists m, F !! z = Some m /\ n_body m = Reference t /\ z <> t.
Proof using W Ht.
  intros Hz. destruct (wf_refs F W t nt z Ht Hz) as (m & Hm & Hbm). exists m. split; [done|]. split; [done|].
  intros ->. destruct (wf_handle F W t m t Hm Hbm) as [_ Hr]. assert (m = nt) as -> by congruence. rewrite Hr in Hz. by apply not_elem_of_nil in Hz.
Qed.

Lemma conc_release z : conc (release h t F) !! z =
  (fun m => let c := conc_chunk F z m in
     if z =? h then set_data (Handle (mk_handle 0 0 t)) c
     else if z =? t then set_refs (if pv =? 0 then nx else refs c) c
     else if bool_decide (n_body m = Reference t)
     then set_data (Handle (mk_handle (if pv =? z then nx else next_in hs z) (if nx =? z then pv else prev_in hs z) t)) c
     else c) <$> F !! z.
Proof using W Hh Hb Ht.
  pose proof release_plist as Hl. destruct release_in as (Hin & Hht & Hh0).
  rewrite lookup_conc, lookup_release. destruct (F !! z) as [m|] eqn:Hz; [|done]. cbn [fmap option_fmap option_map]. f_equal.
  assert (links (release h t F) z (release_node h t z m) = links F z m) as Hlk by (unfold links; simpl; by rewrite kids_release).
  unfold conc_chunk at 1. rewrite Hlk. cbn [release_node n_kids n_refs n_dtor n_name n_size n_loop n_body].
  destruct (Z.eqb_spec z h) as [->|Hzh].
  { rewrite (proj2 (Z.eqb_neq h t)) by done. done. }
  destruct (Z.eqb_spec z t) as [->|Hzt].
  - assert (m = nt) as -> by congruence. rewrite hd_rm by done. unfold set_refs, conc_chunk. cbn. f_equal.
    + destruct (Z.eqb_spec pv 0) as [E|E], (Z.eqb_spec (hd 0 hs) h) as [E'|E']; try done.
      * destruct E'. by apply prev_hd.
      * destruct E. by apply prev_hd.
    + unfold payload_of. destruct (n_body nt) as [|t'|] eqn:E; try done. rewrite handles_release.
      destruct (Z.eqb_spec t' t) as [->|]; [|done]. destruct (wf_handle F W t nt t Ht E) as [_ Hr]. rewrite Hr in Hin. by apply not_elem_of_nil in Hin.
  - case_bool_decide as E.
    + unfold payload_of at 1. rewrite E, handles_release, Z.eqb_refl, (handles_lookup F t nt Ht).
      assert (z ∈ hs) as Hzin by (rewrite <- (handles_lookup F t nt Ht); by apply (wf_target F W z m)).
      assert (z <> 0) as Hz0 by (by apply (wf_ne W z m)).
      rewrite next_rm, prev_rm by done.
      assert ((next_in hs z =? h) = (pv =? z)) as -> by (apply eq_true_iff_eq; rewrite !Z.eqb_eq, next_prev by done; tauto).
      assert ((prev_in hs z =? h) = (nx =? z)) as -> by (apply eq_true_iff_eq; rewrite !Z.eqb_eq, next_prev by done; tauto).
      done.
    + unfold payload_of at 1. unfold conc_chunk. f_equal. destruct (n_body m) as [|t'|] eqn:Em; try done. simpl. rewrite handles_release.
      destruct (Z.eqb_spec t' t) as [->|]; [done|done].
Qed.
Ltac release_points :=
  match goal with |- _ = Some (_, st ?s _) => apply (st_eq s) end; rewrite ?(handles_lookup F t nt Ht); heap_points W conc_release;
  try case_bool_decide; try congruence; try reflexivity;
  unfold conc_chunk, set_data, set_refs, set_h_prev, set_h_next; cbn; repeat match goal with H : n_body ?m = _ |- _ => rewrite H end; cbn;
  rewrite ?(handles_lookup F t nt Ht); repeat f_equal; congruence.

Lemma release_run s : TLIST_REMOVE_refs t h (st s F) = Some (tt, st s (release h t F)).
Proof using W Hh Hb Ht.
  pose proof release_plist as Hl. destruct release_in as (Hin & Hht & Hh0).
  unfold TLIST_REMOVE_refs, _TLIST_REMOVE, the_refs. repeat h_step.
  assert (nx <> 0 -> exists m, F !! nx = Some m /\ n_body m = Reference t /\ nx <> t /\ nx <> h /\ nx <> pv) as Hnx.
  { intros H0. destruct (proj1 (next_prev hs h nx Hl Hin H0) eq_refl) as [Hi Ei]. destruct (release_sibling nx Hi) as (m & ? & ? & ?).
    exists m. do 3 (split; [done|]). split; [by apply next_irrefl|]. intros E. apply (next_next hs h nx); try done.
    apply next_prev; [done|done|done|]. split; [done|congruence]. }
  assert (pv <> 0 -> exists m, F !! pv = Some m /\ n_body m = Reference t /\ pv <> t /\ pv <> h) as Hpv.
  { intros H0. destruct (release_sibling pv) as (m & ? & ? & ?); [by apply prev_in_elem|]. exists m. do 3 (split; [done|]). by apply prev_irrefl. }
  destruct (Z.eqb_spec h (hd 0 hs)) as [E|E].
  - assert (pv = 0) as Epv by (by apply prev_hd). repeat h_step. rewrite (handles_lookup F t nt Ht).
    destruct (set_spec nx) as [Hn|Hn].
    + destruct (Hnx Hn) as (mn & Hmn & Hbn & ? & ? & ?). cbn [t_when]. repeat h_step.
      rewrite (set_true h), (proj2 (Z.eqb_neq h nx)) by congruence. cbn [negb andb t_when]. repeat h_step. release_points.
    + assert (nx = 0) as Hnx0 by lia. cbn [t_when]. repeat h_step.
      rewrite (set_true h), (proj2 (Z.eqb_neq h nx)) by congruence. cbn [negb andb t_when]. repeat h_step. release_points.
  - assert (pv <> 0) as Epv by (intros E'; apply E; symmetry; by apply prev_hd).
    destruct (Hpv Epv) as (mp & Hmp & Hbp & ? & ?). repeat h_step. rewrite (handles_lookup F t nt Ht), (set_true pv) by done. cbn [t_when].
    repeat h_step. rewrite (handles_lookup F t nt Ht). destruct (set_spec nx) as [Hn|Hn].
    + destruct (Hnx Hn) as (mn & Hmn & Hbn & ? & ? & ?). cbn [t_when]. repeat h_step.
      rewrite (set_true h), (proj2 (Z.eqb_neq h (hd 0 hs))) by congruence. cbn [negb andb t_when]. repeat h_step. release_points.
    + assert (nx = 0) as Hnx0 by lia. cbn [t_when]. repeat h_step.
      rewrite (set_true h), (proj2 (Z.eqb_neq h (hd 0 hs))) by congruence. cbn [negb andb t_when]. repeat h_step. release_points.
Qed.
End release.

Lemma rooted_same F F' y : (forall z n, F !! z = Some n -> exists n', F' !! z = Some n' /\ n_parent n' = n_parent n) ->
  rooted F y -> rooted F' y.
Proof.
  intros H. induction 1 as [z m Hz Hp|z m Hz Hr IH]; destruct (H z m Hz) as (m' & Hm' & E).
  - apply (rooted_top F' z m'); congruence.
  - apply (rooted_below F' z m'); congruence.
Qed.

Lemma below_same F F' y a : (forall z n, F !! z = Some n -> exists n', F' !! z = Some n' /\ n_parent n' = n_parent n) ->
  below F y a -> below F' y a.
Proof.
  intros H. induction 1 as [z [m Hm]|z m a Hz Hb IH].
  - destruct (H z m Hm) as (m' & ? & _). apply below_refl. by eexists.
  - destruct (H z m Hz) as (m' & Hm' & E). apply (below_step F' z m'); [done|]. by rewrite E.
Qed.

Lemma wf_release F h t n : wf F -> F !! h = Some n -> n_body n = Reference t -> wf (release h t F).
Proof.
  intros W Hh Hb. split.
  - by rewrite lookup_release, (wf_zero F W).
  - intros p m' y. rewrite lookup_release. intros (m & Hp & ->)%fmap_Some Hy. destruct (wf_kids F W p m y Hp Hy) as (my & Hmy & ? & ?).
    rewrite lookup_release, Hmy. by eexists.
  - intros y m'. rewrite lookup_release. intros (m & Hy & ->)%fmap_Some Hp. rewrite kids_release. by apply (wf_parent F W y m).
  - intros p m'. rewrite lookup_release. intros (m & Hp & ->)%fmap_Some. destruct (wf_nodup F W p m Hp). simpl.
    split; [done|]. destruct (p =? t); [by apply NoDup_rm|done].
  - intros q m' z. rewrite lookup_release. intros (m & Hq & ->)%fmap_Some Hz. simpl in Hz.
    assert (z ∈ n_refs m /\ (q = t -> z <> h)) as [Hz1 Hz2].
    { destruct (Z.eqb_spec q t); [apply elem_of_rm in Hz; tauto|tauto]. }
    destruct (wf_refs F W q m z Hq Hz1) as (mz & Hmz & Hbz). rewrite lookup_release, Hmz. eexists. split; [done|]. simpl.
    destruct (Z.eqb_spec z h) as [->|]; [|done]. exfalso. apply Hz2; [congruence|done].
  - intros z m' q. rewrite lookup_release. intros (m & Hz & ->)%fmap_Some. simpl. intros Hbz. destruct (Z.eqb_spec z h) as [|Hne]; [done|].
    rewrite handles_release. pose proof (wf_target F W z m q Hz Hbz). destruct (q =? t); [by apply elem_of_rm|done].
  - intros z m' q. rewrite lookup_release. intros (m & Hz & ->)%fmap_Some. simpl. intros Hbz. destruct (Z.eqb_spec z h) as [|Hne]; [done|].
    destruct (wf_handle F W z m q Hz Hbz) as [? Hr]. split; [done|]. rewrite Hr. by destruct (z =? t).
  - intros y m'. rewrite lookup_release. intros (m & Hy & ->)%fmap_Some. by apply (wf_stale F W y m).
  - intros y. rewrite lookup_release, fmap_is_Some. intros Hy. apply (rooted_same F); [|by apply (wf_rooted F W)].
    intros z m Hz. rewrite lookup_release, Hz. by eexists.
Qed.

(** [talloc_reference_destructor] *)
Lemma reference_destructor_st s F h t n : wf F -> F !! h = Some n -> n_body n = Reference t ->
  talloc_reference_destructor h (st s F) = Some (0, st s (release h t F)).
Proof.
  intros W Hh Hb. destruct (target_in W Hh Hb) as (nt & Ht & _). unfold talloc_reference_destructor. h_step.
  rewrite (from_ptr_bind s F t nt) by done. by rewrite (bind_some _ _ _ _ _ (release_run W Hh Hb Ht s)).
Qed.

(** ** Changes of one chunk *)

(** Changes that the links do not depend on. *)
Record plain_change (f : node -> node) (n : node) : Prop := {
  pc_parent : n_parent (f n) = n_parent n;
  pc_kids : n_kids (f n) = n_kids n;
  pc_refs : n_refs (f n) = n_refs n;
  pc_stale : n_stale (f n) = n_stale n;
  pc_body t : n_body (f n) = Reference t <-> n_body n = Reference t
}.

Section change.
Context {F : forest} (W : wf F) {x : Z} {f : node -> node} {n : node} (Hx : F !! x = Some n) (Hf : plain_change f n).

Lemma lookup_change z : alter f x F !! z = (fun m => if z =? x then f m else m) <$> F !! z.
Proof using.
  destruct (Z.eqb_spec z x) as [->|Hne]; [apply lookup_alter_eq|]. rewrite lookup_alter_ne by done. by destruct (F !! z).
Qed.

Lemma kids_change q : kids (alter f x F) q = kids F q.
Proof using Hx Hf.
  unfold kids. rewrite lookup_change. destruct (F !! q) as [m|] eqn:Hq; [|done]. simpl. destruct (Z.eqb_spec q x) as [->|]; [|done].
  assert (m = n) as -> by congruence. apply (pc_kids _ _ Hf).
Qed.

Lemma handles_change q : handles (alter f x F) q = handles F q.
Proof using Hx Hf.
  unfold handles. rewrite lookup_change. destruct (F !! q) as [m|] eqn:Hq; [|done]. simpl. destruct (Z.eqb_spec q x) as [->|]; [|done].
  assert (m = n) as -> by congruence. apply (pc_refs _ _ Hf).
Qed.

Lemma conc_change : conc (alter f x F) = <[x := conc_chunk F x (f n)]> (conc F).
Proof using Hx Hf.
  assert (forall z m, conc_chunk (alter f x F) z m = conc_chunk F z m) as E.
  { intros z m. unfold conc_chunk, links. rewrite kids_change. f_equal. unfold payload_of. destruct (n_body m); rewrite ?handles_change; done. }
  apply map_eq. intros z. rewrite lookup_conc, lookup_change. destruct (Z.eqb_spec z x) as [->|Hne].
  - rewrite lookup_insert_eq, Hx. simpl. by rewrite E.
  - rewrite lookup_insert_ne, lookup_conc by done. destruct (F !! z); [|done]. simpl. by rewrite E.
Qed.

Lemma changed z m : F !! z = Some m -> exists m', alter f x F !! z = Some m' /\ n_parent m' = n_parent m /\ n_kids m' = n_kids m
  /\ n_refs m' = n_refs m /\ n_stale m' = n_stale m /\ (forall t, n_body m' = Reference t <-> n_body m = Reference t).
Proof using Hx Hf.
  intros Hz. rewrite lookup_change, Hz. eexists. split; [done|]. destruct (Z.eqb_spec z x) as [->|]; [|done].
  assert (m = n) as -> by congruence. by destruct Hf.
Qed.

Lemma change_inv z m' : alter f x F !! z = Some m' -> exists m, F !! z = Some m /\ n_parent m' = n_parent m /\ n_kids m' = n_kids m
  /\ n_refs m' = n_refs m /\ n_stale m' = n_stale m /\ (forall t, n_body m' = Reference t <-> n_body m = Reference t).
Proof using Hx Hf.
  rewrite lookup_change. intros (m & Hm & ->)%fmap_Some. exists m. split; [done|].
  destruct (Z.eqb_spec z x) as [->|]; [|done]. assert (m = n) as -> by congruence. by destruct Hf.
Qed.

Lemma wf_change : wf (alter f x F).
Proof using W Hx Hf.
  split.
  - rewrite lookup_change. by rewrite (wf_zero F W).
  - intros p m' y Hp Hy. destruct (change_inv p m' Hp) as (m & Hm & _ & Ek & _). rewrite Ek in Hy.
    destruct (wf_kids F W p m y Hm Hy) as (my & Hmy & ? & ?). destruct (changed y my Hmy) as (my' & ? & ? & ? & ? & ? & _).
    exists my'. split; [done|]. split; congruence.
  - intros y m' Hy Hp. destruct (change_inv y m' Hy) as (m & Hm & Ep & _). rewrite Ep in *. rewrite kids_change. by apply (wf_parent F W y m).
  - intros p m' Hp. destruct (change_inv p m' Hp) as (m & Hm & _ & -> & -> & _). by apply (wf_nodup F W p m).
  - intros t m' h Ht Hh. destruct (change_inv t m' Ht) as (m & Hm & _ & _ & Er & _). rewrite Er in Hh.
    destruct (wf_refs F W t m h Hm Hh) as (mh & Hmh & Hb). destruct (changed h mh Hmh) as (mh' & ? & _ & _ & _ & _ & Eb).
    exists mh'. split; [done|]. by apply Eb.
  - intros h m' t Hh Hb. destruct (change_inv h m' Hh) as (m & Hm & _ & _ & _ & _ & Eb). rewrite handles_change.
    apply (wf_target F W h m t Hm). by apply Eb.
  - intros h m' t Hh Hb. destruct (change_inv h m' Hh) as (m & Hm & _ & -> & -> & _ & Eb). apply (wf_handle F W h m t Hm). by apply Eb.
  - intros y m' Hy. destruct (change_inv y m' Hy) as (m & Hm & -> & _ & _ & -> & _). by apply (wf_stale F W y m).
  - intros y Hy. apply (rooted_same F).
    + intros z m Hz. destruct (changed z m Hz) as (m' & ? & ? & _). by exists m'.
    + apply (wf_rooted F W). destruct Hy as [m' Hy]. destruct (change_inv y m' Hy) as (m & ? & _). by eexists.
Qed.
End change.

(** An assignment that does what a change of the node does. *)
Lemma bind_change {A} s F x f g n (k : T A) : F !! x = Some n -> plain_change f n -> g (conc_chunk F x n) = conc_chunk F x (f n) ->
  (do! assign x g; k) (st s F) = k (st s (alter f x F)).
Proof.
  intros Hx Hf E. erewrite bind_assign by t_lookup. rewrite E. unfold st. by rewrite (conc_change Hx Hf).
Qed.

(** ** A chunk that goes *)

Section delete.
Context {F : forest} (W : wf F) {x : Z} {n : node} (Hx : F !! x = Some n) (Hp : n_parent n = 0) (Hk : n_kids n = [])
  (Hr : n_refs n = []) (Hb : forall t, n_body n <> Reference t).

Lemma kids_delete q : kids (delete x F) q = kids F q.
Proof using Hx Hk.
  unfold kids. destruct (decide (q = x)) as [->|Hne]; [by rewrite lookup_delete_eq, Hx, <- Hk|by rewrite lookup_delete_ne].
Qed.

Lemma handles_delete q : handles (delete x F) q = handles F q.
Proof using Hx Hr.
  unfold handles. destruct (decide (q = x)) as [->|Hne]; [by rewrite lookup_delete_eq, Hx, <- Hr|by rewrite lookup_delete_ne].
Qed.

Lemma conc_delete : conc (delete x F) = delete x (conc F).
Proof using Hx Hk Hr.
  apply map_eq. intros z. rewrite lookup_conc. destruct (decide (z = x)) as [->|Hne]; [by rewrite !lookup_delete_eq|].
  rewrite !lookup_delete_ne, lookup_conc by done. destruct (F !! z) as [m|]; [|done]. simpl. f_equal.
  unfold conc_chunk, links. rewrite kids_delete. f_equal. unfold payload_of. destruct (n_body m); rewrite ?handles_delete; done.
Qed.

Lemma delete_notin q m : F !! q = Some m -> (x ∉ n_kids m) /\ (x ∉ n_refs m).
Proof using W Hx Hp Hb.
  intros Hq. split; intros Hin.
  - destruct (wf_kids F W q m x Hq Hin) as (m' & ? & ? & _). apply (wf_ne W q m Hq). congruence.
  - destruct (wf_refs F W q m x Hq Hin) as (m' & ? & ?). apply (Hb q). congruence.
Qed.

Lemma wf_delete : wf (delete x F).
Proof using W Hx Hp Hk Hr Hb.
  assert (forall z m, delete x F !! z = Some m <-> z <> x /\ F !! z = Some m) as L by (intros; rewrite lookup_delete_Some; split; intros []; auto).
  split.
  - apply lookup_delete_None. right. apply (wf_zero F W).
  - intros p m y [_ Hpm]%L Hy. destruct (wf_kids F W p m y Hpm Hy) as (my & Hmy & ? & ?). exists my. rewrite L.
    split; [|done]. split; [|done]. intros ->. by apply (proj1 (delete_notin p m Hpm)).
  - intros y m [_ Hy]%L Hpar. rewrite kids_delete. by apply (wf_parent F W y m).
  - intros p m [_ Hpm]%L. by apply (wf_nodup F W p m).
  - intros t m h [_ Ht]%L Hh. destruct (wf_refs F W t m h Ht Hh) as (mh & Hmh & ?). exists mh. rewrite L.
    split; [|done]. split; [|done]. intros ->. by apply (proj2 (delete_notin t m Ht)).
  - intros h m t [_ Hh]%L Hbd. rewrite handles_delete. by apply (wf_target F W h m).
  - intros h m t [_ Hh]%L Hbd. by apply (wf_handle F W h m t).
  - intros y m [_ Hy]%L. by apply (wf_stale F W y m).
  - intros y [m [Hyx Hy]%L]. assert (rooted F y) as Hrt by (apply (wf_rooted F W); by eexists). clear m Hy. revert Hyx.
    induction Hrt as [z m Hz Hpar|z m Hz Hrt IH]; intros Hne.
    + apply (rooted_top _ z m); [by apply L|done].
    + apply (rooted_below _ z m); [by apply L|]. apply IH. intros E. destruct (decide (n_parent m = 0)) as [E0|E0].
      * apply (wf_ne W x n Hx). congruence.
      * pose proof (wf_parent F W z m Hz E0) as Hin. rewrite E, (kids_lookup F x n Hx), Hk in Hin. by apply not_elem_of_nil in Hin.
Qed.
End delete.

(** ** Destructors *)

Section destructors.
Context {M : Malloc} (user_destructor : Z -> Z -> T Z) (refuses : Z -> bool).

(** A chunk that can be freed when its destructor agrees: nobody refers to it,
    and its destructor does nothing to other chunks. *)
Record ready (x : Z) (n : node) : Prop := {
  rd_refs : n_refs n = [];
  rd_loop : n_loop n = false;
  rd_stale : n_stale n = None;
  rd_reference t : n_body n = Reference t -> n_dtor n = Destructor_reference;
  rd_dtor : match n_dtor n with
            | Destructor_null => refuses x = false
            | Destructor_reference => refuses x = false /\ exists t, n_body n = Reference t
            | Destructor_user d => forall s, exists r, user_destructor d x s = Some (r, s) /\ (r =? -1) = refuses x
            | Destructor_running | Destructor_autofree => False
            end
}.

Definition with_dtor (d : talloc_destructor_t) (n : node) : node :=
  mk_node (n_parent n) (n_kids n) (n_refs n) d (n_name n) (n_size n) (n_loop n) (n_stale n) (n_body n).

Lemma with_dtor_plain d n : plain_change (with_dtor d) n.
Proof. by split. Qed.

Lemma bind_dtor {A} s F x d n (k : T A) : F !! x = Some n ->
  (do! assign x (set_destructor d); k) (st s F) = k (st s (alter (with_dtor d) x F)).
Proof. intros Hx. by apply (bind_change s F x _ _ n k Hx (with_dtor_plain d n)). Qed.

(** The forest when the destructor of [x] has run. *)
Record destroyed (F F1 : forest) (x : Z) (n n1 : node) : Prop := {
  ds_wf : wf F1;
  ds_x : F1 !! x = Some n1;
  ds_parent : n_parent n1 = n_parent n;
  ds_kids : n_kids n1 = n_kids n;
  ds_refs : n_refs n1 = n_refs n;
  ds_loop : n_loop n1 = n_loop n;
  ds_stale : n_stale n1 = n_stale n;
  ds_body t : n_body n1 <> Reference t;
  ds_other z : z <> x -> F1 !! z = (fun m => mk_node (n_parent m) (n_kids m) (rm x (n_refs m)) (n_dtor m) (n_name m) (n_size m)
    (n_loop m) (n_stale m) (n_body m)) <$> F !! z
}.

Lemma not_handle_refs F x n z m : wf F -> F !! x = Some n -> (forall t, n_body n <> Reference t) -> F !! z = Some m ->
  rm x (n_refs m) = n_refs m.
Proof.
  intros W Hx Hb Hz. apply rm_id. intros Hin. destruct (wf_refs F W z m x Hz Hin) as (m' & ? & ?). apply (Hb z). congruence.
Qed.

Lemma destroyed_plain F x n d : wf F -> F !! x = Some n -> (forall t, n_body n <> Reference t) ->
  destroyed F (alter (with_dtor d) x F) x n (with_dtor d n).
Proof.
  intros W Hx Hb. split; try done.
  - by apply (wf_change W Hx (with_dtor_plain d n)).
  - rewrite lookup_change, Hx. simpl. by rewrite Z.eqb_refl.
  - intros z Hz. rewrite lookup_change. destruct (F !! z) as [m|] eqn:Hm; [|done]. simpl. rewrite (proj2 (Z.eqb_neq z x)) by done.
    rewrite (not_handle_refs F x n z m) by done. by destruct m.
Qed.

Lemma run_destructor_st s F x n : wf F -> F !! x = Some n -> ready x n ->
  if refuses x then run_destructor user_destructor x (st s F) = Some (false, st s F)
  else exists F1 n1, run_destructor user_destructor x (st s F) = Some (true, st s F1) /\ destroyed F F1 x n n1.
Proof.
  intros W Hx [_ _ _ Href Hd]. unfold run_destructor. t_step. cbn [conc_chunk destructor].
  destruct (n_dtor n) as [| | | |d] eqn:Ed; try done.
  - rewrite Hd. exists F, n. split; [done|]. pose proof (destroyed_plain F x n (n_dtor n) W Hx) as H.
    assert (with_dtor (n_dtor n) n = n) as E by (by destruct n). rewrite E in H.
    assert (alter (with_dtor (n_dtor n)) x F = F) as EF.
    { apply map_eq. intros z. rewrite lookup_change. destruct (F !! z) as [m|] eqn:Hm; [|done]. simpl.
      destruct (Z.eqb_spec z x) as [->|]; [|done]. assert (m = n) as -> by congruence. by rewrite E. }
    rewrite EF in H. apply H. intros t Ht. apply Href in Ht. congruence.
  - destruct Hd as [-> [t Hb]]. rewrite (bind_dtor s F x Destructor_running n) by done.
    set (F0 := alter (with_dtor Destructor_running) x F).
    assert (F0 !! x = Some (with_dtor Destructor_running n)) as Hx0 by (unfold F0; rewrite lookup_change, Hx; simpl; by rewrite Z.eqb_refl).
    assert (wf F0) as W0 by (apply (wf_change W Hx (with_dtor_plain _ n))).
    unfold call_destructor. rewrite (bind_some _ _ _ _ _ (reference_destructor_st s F0 x t _ W0 Hx0 Hb)).
    change (0 =? -1) with false. cbn iota. pose proof (wf_release F0 x t _ W0 Hx0 Hb) as W1.
    assert (release x t F0 !! x = Some (release_node x t x (with_dtor Destructor_running n))) as Hx1 by (by rewrite lookup_release, Hx0).
    rewrite (bind_dtor s _ x Destructor_null _ _ Hx1). eexists _, _. split; [reflexivity|].
    assert (n_refs n = []) as Hr by (by apply (wf_handle F W x n t)).
    split.
    + by apply (wf_change W1 Hx1 (with_dtor_plain _ _)).
    + rewrite lookup_change, Hx1. simpl. by rewrite Z.eqb_refl.
    + done.
    + done.
    + simpl. rewrite Hr. by destruct (x =? t).
    + done.
    + done.
    + intros t'. simpl. by rewrite Z.eqb_refl.
    + intros z Hz. rewrite lookup_change, lookup_release. unfold F0. rewrite lookup_change. destruct (F !! z) as [m|] eqn:Hm; [|done]. simpl.
      rewrite (proj2 (Z.eqb_neq z x)) by done. unfold release_node. rewrite (proj2 (Z.eqb_neq z x)) by done. do 2 f_equal.
      destruct (Z.eqb_spec z t) as [->|Hzt]; [done|]. symmetry. apply rm_id. intros Hin.
      destruct (wf_refs F W z m x Hm Hin) as (m' & ? & ?). congruence.
  - rewrite (bind_dtor s F x Destructor_running n) by done. cbn [call_destructor].
    destruct (Hd (st s (alter (with_dtor Destructor_running) x F))) as (r & Hr & Er). rewrite (bind_some _ _ _ _ _ Hr), Er.
    set (F0 := alter (with_dtor Destructor_running) x F).
    assert (F0 !! x = Some (with_dtor Destructor_running n)) as Hx0 by (unfold F0; rewrite lookup_change, Hx; simpl; by rewrite Z.eqb_refl).
    assert (forall d', alter (with_dtor d') x F0 = alter (with_dtor d') x F) as Etwice.
    { intros d'. apply map_eq. intros z. unfold F0. rewrite !lookup_change. destruct (F !! z); [|done]. simpl. by destruct (z =? x). }
    destruct (refuses x).
    + rewrite (bind_dtor s F0 x (Destructor_user d) _ _ Hx0), Etwice. assert (alter (with_dtor (Destructor_user d)) x F = F) as ->; [|done].
      apply map_eq. intros z. rewrite lookup_change. destruct (F !! z) as [m|] eqn:Hm; [|done]. simpl.
      destruct (Z.eqb_spec z x) as [->|]; [|done]. assert (m = n) as -> by congruence. f_equal. destruct n. simpl in *. by rewrite Ed.
    + rewrite (bind_dtor s F0 x Destructor_null _ _ Hx0), Etwice. exists (alter (with_dtor Destructor_null) x F), (with_dtor Destructor_null n).
      split; [done|]. apply destroyed_plain; [done|done|]. intros t Ht. apply Href in Ht. congruence.
Qed.
End destructors.
