(* ===== verification/TallocFree.v ===== *)
(** * Talloc: freeing a tree

    What [talloc_free] does to a tree of chunks that nobody refers to: the chunks
    are freed from the top down, and where a destructor refuses the chunk is moved
    to the next owner that stays. *)

From S2P Require Import Prelude Talloc TallocRep TallocOps.

(** ** Trees *)

Inductive tree : Set := Node (x : Z) (ts : list tree).

Definition root (t : tree) : Z := let 'Node x _ := t in x.

(** The chunks of a tree, with their children. *)
Fixpoint nodes (t : tree) : list (Z * list Z) :=
  match t with Node x ts => (x, map root ts) :: concat (map nodes ts) end.

Definition nodes_of (ts : list tree) : list (Z * list Z) := concat (map nodes ts).
Definition addrs (ts : list tree) : list Z := map fst (nodes_of ts).

Lemma tree_ind' (P : tree -> Prop) : (forall x ts, Forall P ts -> P (Node x ts)) -> forall t, P t.
Proof.
  intros H. fix IH 1. intros [x ts]. apply H. induction ts as [|t ts IHts]; constructor; [apply IH|apply IHts].
Qed.

Lemma elem_of_concat {A} (x : A) ls : x ∈ concat ls <-> exists l, l ∈ ls /\ x ∈ l.
Proof. rewrite list_elem_of_In, in_concat. setoid_rewrite list_elem_of_In. done. Qed.

Lemma nodes_of_cons t ts : nodes_of (t :: ts) = nodes t ++ nodes_of ts.
Proof. done. Qed.

Lemma nodes_of_app ts us : nodes_of (ts ++ us) = nodes_of ts ++ nodes_of us.
Proof. unfold nodes_of. by rewrite map_app, concat_app. Qed.

Lemma addrs_cons x ts us : addrs (Node x ts :: us) = x :: addrs ts ++ addrs us.
Proof. unfold addrs. rewrite nodes_of_cons. simpl. by rewrite map_app. Qed.

Lemma addrs_app ts us : addrs (ts ++ us) = addrs ts ++ addrs us.
Proof. unfold addrs. by rewrite nodes_of_app, map_app. Qed.

Lemma addrs_reverse ts : addrs (reverse ts) ≡ₚ addrs ts.
Proof.
  induction ts as [|t ts IH]; [done|]. rewrite reverse_cons, addrs_app, IH.
  change (addrs (t :: ts)) with (addrs ([t] ++ ts)). rewrite addrs_app. solve_Permutation.
Qed.

Lemma in_addrs ts y : y ∈ addrs ts <-> exists t, t ∈ ts /\ y ∈ addrs [t].
Proof.
  induction ts as [|u ts IH].
  - split; [by intros ?%not_elem_of_nil|by intros (t & ?%not_elem_of_nil & _)].
  - change (u :: ts) with ([u] ++ ts). rewrite addrs_app, elem_of_app, IH. setoid_rewrite elem_of_app. setoid_rewrite list_elem_of_singleton. split.
    + intros [H|(t & ? & ?)]; [exists u|exists t]; auto.
    + intros (t & [->|?] & ?); [by left|right; by exists t].
Qed.

Lemma root_in t ts : t ∈ ts -> root t ∈ addrs ts.
Proof.
  induction ts as [|u ts IH]; [by intros ?%not_elem_of_nil|]. intros [->|H]%elem_of_cons.
  - destruct u. rewrite addrs_cons. left.
  - change (u :: ts) with ([u] ++ ts). rewrite addrs_app. apply elem_of_app. right. by apply IH.
Qed.

(** Every chunk is a root or the child of one other. *)
Lemma addrs_kids ts : addrs ts ≡ₚ map root ts ++ concat (map snd (nodes_of ts)).
Proof.
  assert (forall t, addrs [t] ≡ₚ root t :: concat (map snd (nodes t))) as H.
  { apply (tree_ind' (fun t => addrs [t] ≡ₚ root t :: concat (map snd (nodes t)))). intros x us IH.
    rewrite addrs_cons. change (addrs []) with (@nil Z). rewrite app_nil_r. simpl. constructor.
    induction IH as [|u us Hu _ IHus]; [done|]. change (u :: us) with ([u] ++ us) at 1. rewrite addrs_app, Hu, IHus. simpl.
    rewrite map_app, concat_app. solve_Permutation. }
  induction ts as [|t ts IH]; [done|]. change (t :: ts) with ([t] ++ ts) at 1. rewrite addrs_app, H, IH, nodes_of_cons. simpl.
  rewrite map_app, concat_app. solve_Permutation.
Qed.

(** The forest has these trees. *)
Definition shape (F : forest) (ts : list tree) : Prop :=
  forall x ks, (x, ks) ∈ nodes_of ts -> exists n, F !! x = Some n /\ n_kids n = ks.

Lemma shape_app F ts us : shape F (ts ++ us) <-> shape F ts /\ shape F us.
Proof.
  unfold shape. rewrite nodes_of_app. setoid_rewrite elem_of_app. split; [intros H; split; intros ???; apply H; tauto|].
  intros [H1 H2] x ks [H|H]; [by apply H1|by apply H2].
Qed.

Lemma shape_cons F x ts us : shape F (Node x ts :: us) <->
  (exists n, F !! x = Some n /\ n_kids n = map root ts) /\ shape F ts /\ shape F us.
Proof.
  unfold shape. rewrite nodes_of_cons. simpl. fold (nodes_of ts). setoid_rewrite elem_of_cons. setoid_rewrite elem_of_app.
  split; [intros H; split; [by apply H; left|split; intros ???; apply H; tauto]|].
  intros (H0 & H1 & H2) y ks [[= -> ->]|[H|H]]; [done|by apply H1|by apply H2].
Qed.

Lemma shape_member F ts t : shape F ts -> t ∈ ts -> shape F [t].
Proof.
  intros Hs Ht y ks Hin. apply Hs. unfold nodes_of in *. simpl in Hin. rewrite app_nil_r in Hin. apply elem_of_concat.
  exists (nodes t). split; [|done]. apply list_elem_of_fmap. by exists t.
Qed.

Lemma shape_in F ts x : shape F ts -> x ∈ addrs ts -> is_Some (F !! x).
Proof.
  intros H (xks & -> & Hin)%list_elem_of_fmap. destruct xks as [y ks]. destruct (H y ks Hin) as (n & ? & _). by eexists.
Qed.

(** ** Pruning twice *)

Lemma filter_all_out (l : list Z) (P : Z -> Prop) `{forall x, Decision (P x)} : (forall x, x ∈ l -> ~ P x) -> filter P l = [].
Proof.
  induction l as [|a l IH]; intros Hl; [done|]. rewrite filter_cons_False by (apply Hl; left). apply IH. intros x Hx. apply Hl. by right.
Qed.

Lemma filter_all_in (l : list Z) (P : Z -> Prop) `{forall x, Decision (P x)} : (forall x, x ∈ l -> P x) -> filter P l = l.
Proof.
  induction l as [|a l IH]; intros Hl; [done|]. rewrite filter_cons_True by (apply Hl; left). f_equal. apply IH. intros x Hx. apply Hl. by right.
Qed.

(** What was moved to a chunk on the way is moved on. *)
Lemma prune_prune F x o D1 K1 D2 K2 : (forall k, k ∈ K1 -> k ∈ K2) -> 
  prune (prune F x D1 K1) o D2 K2 = prune F o (D1 ++ D2) K2.
Proof.
  intros HK. apply map_eq. intros z. rewrite !lookup_prune.
  destruct (bool_decide_reflect (z ∈ D2)) as [H2|H2]; [rewrite bool_decide_eq_true_2 by set_solver; done|].
  destruct (bool_decide_reflect (z ∈ D1)) as [H1|H1]; [rewrite bool_decide_eq_true_2 by set_solver; done|].
  rewrite bool_decide_eq_false_2 by set_solver. destruct (F !! z) as [n|]; [|done]. simpl. f_equal. unfold prune_node. cbn. f_equal.
  - case_bool_decide as E2; [done|]. by rewrite bool_decide_eq_false_2 by auto.
  - f_equal. rewrite filter_app, list_filter_filter.
    assert (filter (fun y => y ∉ D2 ++ K2) (if z =? x then K1 else []) = []) as ->.
    { apply filter_all_out. intros y Hy Hn. apply Hn, elem_of_app. right. apply HK. destruct (z =? x); [done|by apply not_elem_of_nil in Hy]. }
    simpl. apply list_filter_iff. intros y. set_solver.
  - rewrite list_filter_filter. apply list_filter_iff. intros y. set_solver.
Qed.

Lemma prune_move F o c D K : c ∉ D -> c ∉ K -> prune (prune F o [] [c]) o D K = prune F o D (K ++ [c]).
Proof.
  intros HD HK. apply map_eq. intros z. rewrite !lookup_prune. rewrite (bool_decide_eq_false_2 (z ∈ [])) by apply not_elem_of_nil.
  case_bool_decide; [done|]. destruct (F !! z) as [n|]; [|done]. simpl. f_equal. unfold prune_node. cbn. f_equal.
  - destruct (bool_decide_reflect (z ∈ K)), (bool_decide_reflect (z ∈ [c])), (bool_decide_reflect (z ∈ K ++ [c])); set_solver.
  - rewrite filter_app, list_filter_filter. rewrite (app_assoc _ _ (filter _ _)). f_equal; [|apply list_filter_iff; intros y; set_solver].
    destruct (z =? o); [|done]. rewrite filter_all_in; [done|]. set_solver.
  - rewrite list_filter_filter. apply list_filter_iff. intros y. set_solver.
Qed.

Lemma prune_nothing F o : prune F o [] [] = F.
Proof.
  apply map_eq. intros z. rewrite lookup_prune, bool_decide_eq_false_2 by apply not_elem_of_nil. destruct (F !! z) as [n|]; [|done].
  simpl. f_equal. unfold prune_node. rewrite bool_decide_eq_false_2, !filter_all_in by set_solver. destruct n; simpl. by destruct (z =? o).
Qed.

(** Nothing moves above what does not move. *)
Lemma below_prune F p D K x a : (forall k, k ∈ K -> ~ below F x k) -> below (prune F p D K) x a -> below F x a.
Proof.
  intros HK. induction 1 as [x Hx|x n' a Hx Hb IH].
  - apply below_refl. rewrite lookup_prune in Hx. destruct (bool_decide (x ∈ D)); [by destruct Hx|]. by rewrite fmap_is_Some in Hx.
  - rewrite lookup_prune in Hx. destruct (bool_decide (x ∈ D)); [done|]. apply fmap_Some in Hx as (n & Hn & ->). simpl in *.
    destruct (bool_decide_reflect (x ∈ K)) as [Hk|Hk]; [destruct (HK x Hk); apply below_refl; by eexists|].
    apply (below_step F x n); [done|]. apply IH. intros k Hin Hbk. apply (HK k Hin). by apply (below_step F x n).
Qed.

Section free.
Context {M : Malloc} (user_destructor : Z -> Z -> T Z) (refuses : Z -> bool).

(** What is freed, and what is left over, first the last that was moved. *)
Fixpoint gone (t : tree) : list Z :=
  match t with Node x ts => if refuses x then [] else x :: concat (map gone ts) end.

Fixpoint outs (t : tree) : list tree :=
  match t with Node x ts => if refuses x then [t] else reverse (concat (map outs ts)) end.

Definition gone_of (ts : list tree) : list Z := concat (map gone ts).
Definition outs_of (ts : list tree) : list tree := reverse (concat (map outs ts)).

Lemma gone_outs t : addrs [t] ≡ₚ gone t ++ addrs (outs t).
Proof.
  revert t. apply tree_ind'. intros x us IH. simpl. destruct (refuses x); [done|]. rewrite addrs_cons. change (addrs []) with (@nil Z).
  rewrite app_nil_r. simpl. constructor. induction IH as [|u us Hu _ IHus]; [done|].
  change (addrs (u :: us)) with (addrs ([u] ++ us)). rewrite (addrs_app [u] us), Hu, IHus. cbn [map concat].
  rewrite reverse_app, !addrs_app, (addrs_reverse (outs u)). solve_Permutation.
Qed.

Lemma outs_refuse t u : u ∈ outs t -> refuses (root u) = true.
Proof.
  revert t u. apply (tree_ind' (fun t => forall u, u ∈ outs t -> refuses (root u) = true)). intros x us IH u. simpl.
  destruct (refuses x) eqn:E; [by intros ->%list_elem_of_singleton|].
  rewrite elem_of_reverse, elem_of_concat. intros (l & Hl & Hu). apply list_elem_of_fmap in Hl as (v & -> & Hv).
  rewrite Forall_forall in IH. by apply (IH v).
Qed.

Lemma gone_refuse ts : (forall t, t ∈ ts -> refuses (root t) = true) -> gone_of ts = [] /\ outs_of ts = reverse ts.
Proof.
  unfold gone_of, outs_of. intros H. enough (concat (map gone ts) = [] /\ concat (map outs ts) = ts) as [-> ->] by done.
  induction ts as [|[x us] ts IH]; [done|]. destruct IH as [E1 E2]; [intros t Ht; apply H; by right|].
  pose proof (H (Node x us) ltac:(left)) as Hx. simpl in *. by rewrite Hx, E1, E2.
Qed.

Lemma gone_of_app ts us : gone_of (ts ++ us) = gone_of ts ++ gone_of us.
Proof. unfold gone_of. by rewrite map_app, concat_app. Qed.

Lemma outs_of_app ts us : outs_of (ts ++ us) = outs_of us ++ outs_of ts.
Proof. unfold outs_of. by rewrite map_app, concat_app, reverse_app. Qed.

(** ** The loop over the children *)

(** The trees below [x] can be freed; what is left over goes to [o]. *)
Record loop_pre (s : state) (F : forest) (x p0 o : Z) (ts : list tree) : Prop := {
  lp_wf : wf F;
  lp_x : exists n, F !! x = Some n /\ n_kids n = map root ts;
  lp_shape : shape F ts;
  lp_nodup : NoDup (addrs ts);
  lp_ready y m : y ∈ addrs ts -> F !! y = Some m -> ready user_destructor refuses y m;
  lp_climbs : climbs F x p0;
  lp_o : o = context s p0;
  lp_own : o <> 0 -> exists np, F !! o = Some np /\ forall t, n_body np <> Reference t;
  lp_ox : o <> x;
  lp_below_o y : y ∈ addrs ts -> ~ below F o y;
  lp_below_x y : y ∈ addrs ts -> ~ below F x y
}.

(** The parent of a chunk of the trees. *)
Lemma parent_of F x ts y m : wf F -> (exists n, F !! x = Some n /\ n_kids n = map root ts) -> shape F ts -> y ∈ addrs ts ->
  F !! y = Some m -> n_parent m = x \/ n_parent m ∈ addrs ts.
Proof using.
  intros W (n & Hx & Hk) Hs Hy Hm. rewrite addrs_kids in Hy. apply elem_of_app in Hy as [Hy|Hy].
  - left. rewrite <- Hk in Hy. destruct (wf_kids F W x n y Hx Hy) as (m' & ? & ? & _). congruence.
  - right. apply elem_of_concat in Hy as (ks & Hks & Hy). apply list_elem_of_fmap in Hks as ([q ks'] & -> & Hq). simpl in Hy.
    destruct (Hs q ks' Hq) as (nq & Hnq & <-). destruct (wf_kids F W q nq y Hnq Hy) as (m' & ? & <- & _).
    assert (m' = m) as -> by congruence. apply list_elem_of_fmap. by exists (n_parent m, n_kids nq).
Qed.

Lemma ready_prune p D K y m : ready user_destructor refuses y m -> ready user_destructor refuses y (prune_node p D K y m).
Proof using. intros [Hr ? ? ? ?]. split; try done. simpl. by rewrite Hr. Qed.

(** After some of the trees below [x] were pruned, with [us] left. *)
Lemma loop_pre_prune s F x p0 o ts p D K us : loop_pre s F x p0 o ts -> wf (prune F p D K) ->
  p = o \/ p = x -> (forall y, y ∈ D \/ y ∈ K -> y ∈ addrs ts) -> (forall y, y ∈ addrs us -> y ∈ addrs ts /\ y ∉ D) ->
  NoDup (addrs us) -> shape F us -> (forall y ks z, (y, ks) ∈ nodes_of us -> z ∈ ks -> z ∈ addrs us /\ z ∉ K) ->
  (if x =? p then K else []) ++ filter (fun y => y ∉ D ++ K) (map root ts) = map root us ->
  loop_pre s (prune F p D K) x p0 o us.
Proof using.
  intros [W Hx Hs Hnd Hrd Hcl Ho Hown Hox Hbo Hbx] W1 Hp HDK Hus Hnd' Hs' Hks Hkx.
  assert (x ∉ addrs ts) as Hxt.
  { intros Hin. apply (Hbx x Hin), below_refl. destruct Hx as (n & ? & _). by eexists. }
  assert (o <> 0 -> o ∉ addrs ts) as Hot.
  { intros H0 Hin. apply (Hbo o Hin), below_refl. destruct (Hown H0) as (n & ? & _). by eexists. }
  assert (forall y, y ∈ addrs ts -> y <> p) as Hpt.
  { intros y Hy ->. destruct Hp as [-> | ->]; [|done]. apply Hot; [|done]. destruct (shape_in F ts o Hs Hy) as [m Hm]. by apply (wf_ne W o m). }
  split; try done.
  - destruct Hx as (n & Hx & Hk). rewrite lookup_prune, bool_decide_eq_false_2, Hx by (intros H; apply Hxt, HDK; by left).
    eexists. split; [done|]. simpl. by rewrite Hk.
  - intros y ks Hin. assert (y ∈ addrs us) as Hy by (apply list_elem_of_fmap; by exists (y, ks)).
    destruct (Hus y Hy) as [Hyt HyD]. destruct (Hs' y ks Hin) as (m & Hm & Hmk).
    rewrite lookup_prune, bool_decide_eq_false_2, Hm by done. eexists. split; [done|]. simpl.
    rewrite (proj2 (Z.eqb_neq y p)) by auto. simpl. rewrite Hmk. apply filter_all_in. intros z Hz.
    destruct (Hks y ks z Hin Hz) as [Hz1 Hz2]. destruct (Hus z Hz1). set_solver.
  - intros y m Hy. destruct (Hus y Hy) as [Hyt HyD]. rewrite lookup_prune, bool_decide_eq_false_2 by done.
    intros (m0 & Hm0 & ->)%fmap_Some. apply ready_prune. by apply Hrd.
  - destruct Hcl as (n & Hn & Hc). exists (prune_node p D K x n).
    rewrite lookup_prune, bool_decide_eq_false_2, Hn by (intros H; apply Hxt, HDK; by left). split; [done|].
    simpl. rewrite bool_decide_eq_false_2 by (intros H; apply Hxt, HDK; by right).
    destruct (n_stale n) as [[[nx pv] pa]|]; [|done]. destruct Hc as [?|Hpv]; [by left|right].
    destruct (in_kids W p0 pv Hpv) as (m & Hm & Hpm & _).
    assert (p0 <> 0) as Hp00 by (intros ->; unfold kids in Hpv; rewrite (wf_zero F W) in Hpv; by apply not_elem_of_nil in Hpv).
    assert (o = p0) as Eo by (rewrite Ho; unfold context; by rewrite (proj2 (Z.eqb_neq p0 0))).
    assert (pv ∉ addrs ts) as Hpvt.
    { intros Hin. destruct (parent_of F x ts pv m W Hx Hs Hin Hm) as [E|E]; [congruence|]. rewrite Hpm, <- Eo in E. apply Hot; congruence. }
    unfold kids in Hpv |- *. rewrite lookup_prune, bool_decide_eq_false_2 by (intros H; apply Hot; [congruence|]; rewrite Eo; apply HDK; by left).
    destruct (F !! p0) as [np|]; [|done]. simpl in *. apply elem_of_app. right. apply list_elem_of_filter. split; [|done].
    intros [H|H]%elem_of_app; apply Hpvt, HDK; auto.
  - intros H0. destruct (Hown H0) as (np & Hnp & Hb). rewrite lookup_prune, bool_decide_eq_false_2, Hnp by (intros H; apply Hot, HDK; auto).
    by eexists.
  - intros y Hy Hb. destruct (Hus y Hy) as [Hyt _]. apply (Hbo y Hyt). apply (below_prune F p D K); [|done].
    intros k Hk. apply Hbo, HDK. by right.
  - intros y Hy Hb. destruct (Hus y Hy) as [Hyt _]. apply (Hbx y Hyt). apply (below_prune F p D K); [|done].
    intros k Hk. apply Hbx, HDK. by right.
Qed.

(** ** Freeing a tree *)

Record free_pre (s : state) (F : forest) (o : Z) (t : tree) : Prop := {
  fp_wf : wf F;
  fp_shape : shape F [t];
  fp_nodup : NoDup (addrs [t]);
  fp_ready y m : y ∈ addrs [t] -> F !! y = Some m -> ready user_destructor refuses y m;
  fp_o n : F !! root t = Some n -> o = context s (n_parent n);
  fp_own : o <> 0 -> exists np, F !! o = Some np /\ forall t, n_body np <> Reference t;
  fp_below y : y ∈ addrs [t] -> ~ below F o y
}.

(** [F3] is what the loop over the children of [x] starts with. *)
Lemma free_enter s F o x ts n : free_pre s F o (Node x ts) -> F !! x = Some n -> refuses x = false ->
  exists F1 F3, run_destructor user_destructor x (st s F) = Some (true, st s F1)
  /\ (forall A (k : T A), (do! unlink_chunk x; do! assign x (fun c => set_flags (flags c ||| TALLOC_FLAG_LOOP) c); k) (st s F1) = k (st s F3))
  /\ loop_pre s F3 x (n_parent n) o ts
  /\ (exists n3, F3 !! x = Some n3 /\ n_parent n3 = 0 /\ n_refs n3 = [] /\ forall t, n_body n3 <> Reference t)
  /\ forall z, z <> x -> F3 !! z = (fun m => mk_node (n_parent m) (rm x (n_kids m)) (rm x (n_refs m)) (n_dtor m) (n_name m) (n_size m)
    (n_loop m) (n_stale m) (n_body m)) <$> F !! z.
Proof using.
  intros [W Hs Hnd Hrd Ho Hown Hb] Hx Hrf. simpl in Ho. specialize (Ho n Hx).
  assert (x ∈ addrs [Node x ts]) as Hxa by (rewrite addrs_cons; left).
  rewrite addrs_cons in Hnd. change (addrs []) with (@nil Z) in Hnd. rewrite app_nil_r in Hnd. apply NoDup_cons in Hnd as [Hxt Hnd].
  assert (forall y, y ∈ addrs ts -> y ∈ addrs [Node x ts]) as Hsub.
  { intros y Hy. rewrite addrs_cons, elem_of_cons, elem_of_app. tauto. }
  pose proof (Hrd x n Hxa Hx) as Hrx. pose proof (run_destructor_st user_destructor refuses s F x n W Hx Hrx) as Hrun. rewrite Hrf in Hrun.
  destruct Hrun as (F1 & n1 & Hrun & [W1 Hx1 Ep Ek Er El Es Ebd Hoth]).
  assert (n_stale n1 = None) as Hst1 by (rewrite Es; apply Hrx).
  set (n2 := unlink_node x (n_parent n1) (stale_of (links F1 x n1) (n_parent n1)) x n1).
  assert (unlink x F1 !! x = Some n2) as Hx2 by (by rewrite (lookup_unlink F1 x n1), Hx1).
  pose proof (unlink_wf F1 x n1 W1 Hx1 Hst1) as W2.
  set (f := fun m : node => mk_node (n_parent m) (n_kids m) (n_refs m) (n_dtor m) (n_name m) (n_size m) true (n_stale m) (n_body m)).
  assert (plain_change f n2) as Hf by done.
  assert (forall z, z <> x -> alter f x (unlink x F1) !! z = (fun m => mk_node (n_parent m) (rm x (n_kids m)) (rm x (n_refs m)) (n_dtor m) (n_name m)
    (n_size m) (n_loop m) (n_stale m) (n_body m)) <$> F !! z) as Hz3.
  { intros z Hz. rewrite lookup_change, (lookup_unlink F1 x n1), Hoth by done. destruct (F !! z) as [m|] eqn:Hm; [|done]. simpl.
    rewrite (proj2 (Z.eqb_neq z x)) by done. unfold unlink_node. cbn. rewrite (proj2 (Z.eqb_neq z x)) by done. do 2 f_equal. rewrite Ep.
    destruct (Z.eqb_spec z (n_parent n)); [done|]. symmetry. by apply (kids_rm_other F x n z m). }
  exists F1, (alter f x (unlink x F1)). split; [done|]. split; [|split; [|split; [|done]]].
  - intros A k. rewrite (bind_unlink s F1 x n1) by done. rewrite (bind_change s _ x f _ n2 k Hx2 Hf); [done|].
    unfold conc_chunk, set_flags. cbn. rewrite El. by rewrite (rd_loop _ _ _ _ Hrx).
  - assert (o <> x) as Hox. { intros ->. apply (Hb x Hxa), below_refl. by eexists. }
    assert (alter f x (unlink x F1) !! x = Some (f n2)) as Hx3 by (by rewrite lookup_alter_eq, Hx2).
    assert (n_parent n <> 0 -> o = n_parent n) as Eo by (intros H0; rewrite Ho; unfold context; by rewrite (proj2 (Z.eqb_neq _ 0))).
    assert (forall z m, alter f x (unlink x F1) !! z = Some m -> exists m', unlink x F1 !! z = Some m' /\ n_parent m' = n_parent m) as Hinv.
    { intros z m Hm. destruct (change_inv Hx2 Hf z m Hm) as (m' & ? & ? & _). by exists m'. }
    assert (forall z m, F1 !! z = Some m -> exists m', F !! z = Some m' /\ n_parent m' = n_parent m) as Hinv1.
    { intros z m Hm. destruct (decide (z = x)) as [->|Hne]; [exists n; split; [done|]; congruence|].
      rewrite Hoth in Hm by done. apply fmap_Some in Hm as (m' & ? & ->). by exists m'. }
    destruct (proj1 (shape_cons F x ts []) Hs) as ((n' & Hn' & Hk) & Hsts & _). assert (n' = n) as -> by congruence.
    split; try done.
    + by apply (wf_change W2 Hx2 Hf).
    + eexists. split; [exact Hx3|]. simpl. rewrite Ek, Hk.
      destruct (Z.eqb_spec x (n_parent n1)) as [E|E]; [|done]. exfalso. apply (not_own_parent W1 x n1 Hx1). done.
    + intros y ks Hin. assert (y ∈ addrs ts) as Hy by (apply list_elem_of_fmap; by exists (y, ks)).
      assert (y <> x) as Hyx by congruence. destruct (Hsts y ks Hin) as (m & Hm & Hmk). rewrite Hz3, Hm by done. eexists. split; [done|]. simpl.
      rewrite <- Hmk. apply (kids_rm_other F x n y m W Hx Hm). intros E. apply (Hb y); [by apply Hsub|].
      rewrite Eo; [rewrite <- E|rewrite <- E; by apply (wf_ne W y m)]. apply below_refl. by eexists.
    + intros y m Hy. assert (y <> x) as Hyx by congruence. rewrite Hz3 by done. intros (m0 & Hm0 & ->)%fmap_Some.
      destruct (Hrd y m0 (Hsub y Hy) Hm0) as [Hr0 ? ? ? ?]. split; try done. simpl. by rewrite Hr0.
    + exists (f n2). split; [exact Hx3|]. simpl. rewrite Z.eqb_refl. unfold links. rewrite Hst1, Ep. unfold sib_links, stale_of.
      destruct (Z.eqb_spec (prev_in (kids F1 (n_parent n)) x) 0) as [E|E]; [by left|right].
      rewrite (kids_change Hx2 Hf), (kids_unlink F1 x n1), Ep, Z.eqb_refl by done. apply elem_of_rm. split; [by apply prev_in_elem|].
      apply prev_irrefl; [by apply kids_plist|]. rewrite <- Ep. apply (wf_parent F1 W1 x n1 Hx1).
      intros E0. apply E. rewrite <- Ep, E0. unfold kids. by rewrite (wf_zero F1 W1).
    + intros H0. destruct (Hown H0) as (np & Hnp & Hnb). rewrite Hz3, Hnp by done. by eexists.
    + intros y Hy Hby. apply (Hb y (Hsub y Hy)). apply (below_same F1 F); [done|]. apply (below_unlink F1 x); [done|].
      by apply (below_same _ _ _ _ Hinv).
    + intros y Hy Hby. inversion Hby as [? _ E|? m ? Hm Hb' E]; subst; [done|]. rewrite Hx3 in Hm. injection Hm as <-. simpl in Hb'.
      rewrite Z.eqb_refl in Hb'. destruct (below_in _ _ _ Hb') as [[m0 H0] _].
      pose proof (wf_change W2 Hx2 Hf) as W3. rewrite (wf_zero _ W3) in H0. done.
  - exists (f n2). split; [by rewrite lookup_alter_eq, Hx2|]. simpl. rewrite Z.eqb_refl, Er. split; [done|]. split; [apply Hrx|done].
Qed.

Lemma addrs_gone ts : addrs ts ≡ₚ gone_of ts ++ addrs (outs_of ts).
Proof using.
  unfold gone_of, outs_of. induction ts as [|t ts IH]; [done|]. change (addrs (t :: ts)) with (addrs ([t] ++ ts)).
  rewrite addrs_app, (gone_outs t), IH. cbn [map concat]. rewrite reverse_app, !addrs_app, (addrs_reverse (outs t)). solve_Permutation.
Qed.

Lemma gone_or_root ts y : NoDup (addrs ts) -> y ∈ gone_of ts \/ y ∈ map root (outs_of ts) -> y ∈ addrs ts.
Proof using.
  intros Hnd Hy. rewrite (addrs_gone ts), elem_of_app. destruct Hy as [?|Hy]; [by left|right].
  apply list_elem_of_fmap in Hy as (t & -> & Ht). by apply root_in.
Qed.

(** Every root is freed or left over. *)
Lemma root_handled ts t : t ∈ ts -> root t ∈ gone_of ts ++ map root (outs_of ts).
Proof using.
  intros Ht. rewrite elem_of_app. unfold gone_of, outs_of. destruct t as [x us]. simpl. destruct (refuses x) eqn:E.
  - right. apply list_elem_of_fmap. exists (Node x us). split; [done|]. rewrite elem_of_reverse, elem_of_concat.
    exists (outs (Node x us)). split; [apply list_elem_of_fmap; by exists (Node x us)|]. simpl. rewrite E. left.
  - left. apply elem_of_concat. exists (gone (Node x us)). split; [apply list_elem_of_fmap; by exists (Node x us)|].
    simpl. rewrite E. left.
Qed.

Lemma free_leave s F o x ts n F3 p0 : free_pre s F o (Node x ts) -> F !! x = Some n -> refuses x = false ->
  loop_pre s F3 x p0 o ts ->
  (exists n3, F3 !! x = Some n3 /\ n_parent n3 = 0 /\ n_refs n3 = [] /\ forall t, n_body n3 <> Reference t) ->
  (forall z, z <> x -> F3 !! z = (fun m => mk_node (n_parent m) (rm x (n_kids m)) (rm x (n_refs m)) (n_dtor m) (n_name m) (n_size m)
    (n_loop m) (n_stale m) (n_body m)) <$> F !! z) ->
  wf (prune F3 o (gone_of ts) (map root (outs_of ts))) ->
  let F' := prune F o (gone (Node x ts)) (map root (outs (Node x ts))) in
  (do! assign x (fun c => set_flags (flags c ||| TALLOC_FLAG_FREE) c);
   do! t_modify (fun s => set_heap (delete x (heap s)) s);
   t_ret 0) (st s (prune F3 o (gone_of ts) (map root (outs_of ts)))) = Some (0, st s F') /\ wf F'.
Proof using.
  intros [W Hs Hnd _ _ _ _] Hx Hrf [_ Hk3 _ Hnd3 _ _ _ _ Hox _ Hbx] (n3 & Hx3 & Hp3 & Hr3 & Hb3) Hz3 W4 F'.
  set (F4 := prune F3 o (gone_of ts) (map root (outs_of ts))) in *.
  assert (x ∉ addrs ts) as Hxt by (intros Hin; apply (Hbx x Hin), below_refl; by eexists).
  assert (F4 !! x = Some (prune_node o (gone_of ts) (map root (outs_of ts)) x n3)) as Hx4.
  { unfold F4. rewrite lookup_prune, bool_decide_eq_false_2, Hx3; [done|]. intros H. apply Hxt, gone_or_root; auto. }
  assert (n_parent (prune_node o (gone_of ts) (map root (outs_of ts)) x n3) = 0) as Hp4.
  { simpl. rewrite bool_decide_eq_false_2; [done|]. intros H. apply Hxt, gone_or_root; auto. }
  assert (n_kids (prune_node o (gone_of ts) (map root (outs_of ts)) x n3) = []) as Hk4.
  { simpl. rewrite (proj2 (Z.eqb_neq x o)) by done. simpl. destruct Hk3 as (n3' & ? & Hk3). assert (n3' = n3) as -> by congruence.
    rewrite Hk3. apply filter_all_out. intros y (t & -> & Ht)%list_elem_of_fmap Hn. by apply Hn, root_handled. }
  assert (n_refs (prune_node o (gone_of ts) (map root (outs_of ts)) x n3) = []) as Hr4 by (simpl; by rewrite Hr3).
  assert (delete x F4 = F') as E.
  { apply map_eq. intros z. unfold F', F4. simpl. rewrite Hrf. fold (gone_of ts) (outs_of ts). rewrite lookup_prune.
    destruct (decide (z = x)) as [->|Hne]; [rewrite lookup_delete_eq, bool_decide_eq_true_2; [done|left]|].
    rewrite lookup_delete_ne, lookup_prune, Hz3 by done.
    destruct (bool_decide_reflect (z ∈ gone_of ts)) as [Hg|Hg]; [rewrite bool_decide_eq_true_2; [done|by right]|].
    rewrite bool_decide_eq_false_2 by (rewrite elem_of_cons; tauto). destruct (F !! z) as [m|]; [|done]. simpl. f_equal.
    unfold prune_node. cbn. unfold rm. f_equal.
    - f_equal. rewrite list_filter_filter. apply list_filter_iff. intros y. set_solver.
    - rewrite list_filter_filter. apply list_filter_iff. intros y. set_solver. }
  split.
  - erewrite bind_assign by t_lookup. unfold t_bind at 1, t_modify. rewrite <- E. apply (st_eq s). cbn [heap set_heap].
    rewrite delete_insert_eq. symmetry. exact (conc_delete Hx4 Hk4 Hr4).
  - rewrite <- E. apply (wf_delete W4 Hx4 Hp4 Hk4 Hr4 Hb3).
Qed.

Lemma outs_nodes t q : q ∈ nodes_of (outs t) -> q ∈ nodes t.
Proof using.
  revert t q. apply (tree_ind' (fun t => forall q, q ∈ nodes_of (outs t) -> q ∈ nodes t)). intros x us IH q. simpl.
  destruct (refuses x); [unfold nodes_of; simpl; by rewrite app_nil_r|].
  unfold nodes_of. rewrite elem_of_concat. intros (l & Hl & Hq). apply list_elem_of_fmap in Hl as (u & -> & Hu).
  apply elem_of_reverse, elem_of_concat in Hu as (l & Hl & Hu). apply list_elem_of_fmap in Hl as (v & -> & Hv).
  right. rewrite Forall_forall in IH. apply elem_of_concat. exists (nodes v). split; [apply list_elem_of_fmap; by exists v|].
  apply (IH v Hv). unfold nodes_of. apply elem_of_concat. exists (nodes u). split; [apply list_elem_of_fmap; by exists u|done].
Qed.

Lemma shape_outs F t : shape F [t] -> shape F (outs t).
Proof using.
  intros H y ks Hin. apply H. unfold nodes_of. simpl. rewrite app_nil_r. by apply outs_nodes.
Qed.

(** The children of the nodes of some trees are no roots. *)
Lemma kids_no_roots us y ks z : NoDup (addrs us) -> (y, ks) ∈ nodes_of us -> z ∈ ks -> z ∈ addrs us /\ z ∉ map root us.
Proof using.
  intros Hnd Hin Hz. rewrite addrs_kids in Hnd. rewrite (addrs_kids us), elem_of_app.
  assert (z ∈ concat (map snd (nodes_of us))) as Hc.
  { apply elem_of_concat. exists ks. split; [|done]. apply list_elem_of_fmap. by exists (y, ks). }
  split; [by right|]. intros Hr. apply NoDup_app in Hnd as (_ & Hd & _). by apply (Hd z).
Qed.

Section steps.
Context (s : state) (F : forest) (x p0 o : Z) (t : tree) (ts : list tree) (L : loop_pre s F x p0 o (t :: ts)).

Lemma loop_nodup : NoDup (addrs [t]) /\ NoDup (addrs ts) /\ forall y, y ∈ addrs [t] -> y ∉ addrs ts.
Proof using L.
  pose proof (lp_nodup _ _ _ _ _ _ L) as H. change (t :: ts) with ([t] ++ ts) in H. rewrite addrs_app in H.
  apply NoDup_app in H as (? & ? & ?). done.
Qed.

Lemma loop_in y : y ∈ addrs (t :: ts) <-> y ∈ addrs [t] \/ y ∈ addrs ts.
Proof using. change (t :: ts) with ([t] ++ ts). by rewrite addrs_app, elem_of_app. Qed.

Lemma loop_shape : shape F [t] /\ shape F ts.
Proof using L. pose proof (lp_shape _ _ _ _ _ _ L) as H. by apply (shape_app F [t] ts) in H. Qed.

Lemma loop_head : exists c n, root t = c /\ F !! c = Some n /\ n_parent n = x /\ n_stale n = None /\ n_refs n = [] /\ c ∈ addrs [t].
Proof using L.
  destruct (lp_x _ _ _ _ _ _ L) as (n & Hn & Hk). assert (root t ∈ n_kids n) as Hin by (rewrite Hk; left).
  destruct (wf_kids F (lp_wf _ _ _ _ _ _ L) x n _ Hn Hin) as (m & Hm & Hp & Hs). exists (root t), m.
  assert (root t ∈ addrs [t]) as Hr by (apply root_in; left). do 4 (split; [done|]). split; [|done].
  apply (lp_ready _ _ _ _ _ _ L (root t) m); [|done]. apply loop_in. by left.
Qed.

Lemma loop_head_roots : filter (fun y => y <> root t) (map root ts) = map root ts.
Proof using L.
  destruct loop_nodup as (_ & _ & Hd). apply filter_all_in. intros y (u & -> & Hu)%list_elem_of_fmap E.
  apply (Hd (root t)); [apply root_in; left|]. rewrite <- E. by apply root_in.
Qed.

(** The child refused and was moved. *)
Lemma loop_pre_moved : wf (prune F o [] [root t]) -> loop_pre s (prune F o [] [root t]) x p0 o ts.
Proof using L.
  intros W. destruct loop_nodup as (Hnt & Hnd & Hd). apply (loop_pre_prune s F x p0 o (t :: ts)); try done.
  - by left.
  - intros y [Hy|Hy]; [by apply not_elem_of_nil in Hy|]. apply list_elem_of_singleton in Hy as ->. apply root_in. left.
  - intros y Hy. split; [apply loop_in; by right|apply not_elem_of_nil].
  - apply loop_shape.
  - intros y ks z Hin Hz. destruct (kids_no_roots ts y ks z Hnd Hin Hz) as [H _]. split; [done|].
    intros ->%list_elem_of_singleton. apply (Hd (root t)); [apply root_in; left|done].
  - rewrite (proj2 (Z.eqb_neq x o)) by (pose proof (lp_ox _ _ _ _ _ _ L); congruence). simpl.
    rewrite filter_cons_False by (intros H; apply H; left). rewrite <- loop_head_roots at 2. apply list_filter_iff.
    intros y. by rewrite list_elem_of_singleton.
Qed.

(** The child was freed, and what it left over came to [x]. *)
Lemma loop_pre_freed : refuses (root t) = false -> wf (prune F x (gone t) (map root (outs t))) ->
  loop_pre s (prune F x (gone t) (map root (outs t))) x p0 o (outs t ++ ts).
Proof using L.
  intros Hrf W. destruct loop_nodup as (Hnt & Hnd & Hd). pose proof Hnt as Hnt'. rewrite (gone_outs t) in Hnt'.
  apply NoDup_app in Hnt' as (_ & Hgd & Hno).
  assert (forall y, y ∈ addrs (outs t) -> y ∈ addrs [t]) as Ho by (intros y Hy; rewrite (gone_outs t), elem_of_app; by right).
  assert (forall y, y ∈ gone t -> y ∈ addrs [t]) as Hg by (intros y Hy; rewrite (gone_outs t), elem_of_app; by left).
  assert (forall y, y ∈ map root (outs t) -> y ∈ addrs (outs t)) as Hr by (intros y (u & -> & Hu)%list_elem_of_fmap; by apply root_in).
  assert (NoDup (addrs (outs t ++ ts))) as Hndu.
  { rewrite addrs_app. apply NoDup_app. split; [done|]. split; [|done]. intros y Hy. by apply Hd, Ho. }
  apply (loop_pre_prune s F x p0 o (t :: ts)); try done.
  - by right.
  - intros y [Hy|Hy]; apply loop_in; left; auto.
  - intros y. rewrite addrs_app, elem_of_app. intros [Hy|Hy]; split; try (apply loop_in; auto).
    + intros Hyg. by apply (Hgd y).
    + intros Hyg. apply (Hd y); auto.
  - apply shape_app. split; [apply shape_outs|]; apply loop_shape.
  - intros y ks z Hin Hz. destruct (kids_no_roots _ y ks z Hndu Hin Hz) as [H1 H2]. split; [done|].
    intros H. apply H2. rewrite map_app, elem_of_app. by left.
  - rewrite Z.eqb_refl, map_app. f_equal. simpl. rewrite filter_cons_False.
    + apply filter_all_in. intros y (u & -> & Hu)%list_elem_of_fmap Hin. apply (Hd (root u)); [|by apply root_in].
      apply elem_of_app in Hin as [Hin|Hin]; auto.
    + intros H. apply H, elem_of_app. left. destruct t as [c us]. simpl in *. rewrite Hrf. left.
Qed.

Lemma free_pre_child : free_pre s F x t.
Proof using L.
  destruct loop_nodup as (Hnt & _). destruct loop_head as (c & n & <- & Hc & Hp & _). pose proof (lp_wf _ _ _ _ _ _ L) as W.
  destruct (lp_x _ _ _ _ _ _ L) as (nx & Hx & Hk).
  split; try done.
  - apply loop_shape.
  - intros y m Hy. apply (lp_ready _ _ _ _ _ _ L). apply loop_in. by left.
  - intros n' Hn'. assert (n' = n) as -> by congruence. rewrite Hp. unfold context. by rewrite (proj2 (Z.eqb_neq x 0)) by (by apply (wf_ne W x nx)).
  - intros _. exists nx. split; [done|]. intros q Hq. destruct (wf_handle F W x nx q Hx Hq) as [E _]. rewrite Hk in E. done.
  - intros y Hy. apply (lp_below_x _ _ _ _ _ _ L), loop_in. by left.
Qed.

Lemma loop_may_move : may_move F o (root t).
Proof using L.
  split; [apply (lp_own _ _ _ _ _ _ L)|]. apply (lp_below_o _ _ _ _ _ _ L), loop_in. left. apply root_in. left.
Qed.
End steps.

(** Who owns a child that could not be freed. *)
Lemma owner_st s F x p0 o c n : wf F -> climbs F x p0 -> o = context s p0 -> F !! c = Some n -> n_refs n = [] ->
  first_owner c (st s F) = Some (null_context s, st s F)
  /\ exists q, last_owner x (null_context s) (st s F) = Some (q, st s F) /\ context s q = o.
Proof using.
  intros W Hcl Ho Hc Hr. split.
  - unfold first_owner. repeat t_step. rewrite Hr. done.
  - unfold last_owner. t_step. change (null_context (st s F)) with (null_context s). rewrite Z.eqb_refl.
    rewrite (bind_some _ _ _ _ _ (parent_climbs s F x p0 W Hcl)). eexists. split; [reflexivity|].
    unfold context, set in *. rewrite Ho. destruct (Z.eqb_spec p0 0) as [->|E]; simpl.
    + by destruct (Z.eqb_spec (null_context s) 0).
    + by rewrite (proj2 (Z.eqb_neq p0 0)).
Qed.

Definition freed (F : forest) (o : Z) (t : tree) : forest :=
  if refuses (root t) then F else prune F o (gone t) (map root (outs t)).

Definition free_ok (fuel : nat) : Prop := forall s F o t, free_pre s F o t -> (2 * length (nodes_of [t]) <= fuel)%nat ->
  free_chunk user_destructor fuel (root t) (st s F) = Some (if refuses (root t) then -1 else 0, st s (freed F o t)) /\ wf (freed F o t).

Definition loop_ok (fuel : nat) : Prop := forall s F x p0 o ts, loop_pre s F x p0 o ts -> (2 * length (nodes_of ts) < fuel)%nat ->
  free_children user_destructor fuel x (st s F) = Some (tt, st s (prune F o (gone_of ts) (map root (outs_of ts))))
  /\ wf (prune F o (gone_of ts) (map root (outs_of ts))).

Lemma free_step fuel : loop_ok fuel -> free_ok (S fuel).
Proof using.
  intros IH s F o t Hpre Hf. destruct t as [x ts]. pose proof Hpre as [W Hs Hnd Hrd Ho Hown Hb]. cbn [root].
  destruct (proj1 (shape_cons F x ts []) Hs) as ((n & Hx & Hk) & _ & _).
  assert (x ∈ addrs [Node x ts]) as Hxa by (rewrite addrs_cons; left). pose proof (Hrd x n Hxa Hx) as Hrx.
  cbn [free_chunk]. rewrite set_true by (by apply (wf_ne W x n)). cbn [negb]. rewrite (from_ptr_bind s F x n) by done.
  rewrite conc_refs, (rd_refs _ _ _ _ Hrx). cbn [hd set Z.eqb negb].
  assert (flags (conc_chunk F x n) &? TALLOC_FLAG_LOOP = false) as -> by (unfold conc_chunk; cbn [flags]; by rewrite (rd_loop _ _ _ _ Hrx)).
  unfold freed. cbn [root]. destruct (refuses x) eqn:Hrf.
  - pose proof (run_destructor_st user_destructor refuses s F x n W Hx Hrx) as Hrun. rewrite Hrf in Hrun.
    by rewrite (bind_some _ _ _ _ _ Hrun).
  - destruct (free_enter s F o x ts n Hpre Hx Hrf) as (F1 & F3 & Hrun & Hent & L & Hx3 & Hz3).
    rewrite (bind_some _ _ _ _ _ Hrun). cbn [negb]. rewrite Hent.
    assert (length (nodes_of [Node x ts]) = S (length (nodes_of ts))) as Hlen.
    { unfold nodes_of. simpl. by rewrite app_nil_r. }
    destruct (IH s F3 x (n_parent n) o ts L) as [Hloop W4]; [lia|]. rewrite (bind_some _ _ _ _ _ Hloop).
    apply (free_leave s F o x ts n F3 (n_parent n)); done.
Qed.

Lemma length_outs t : refuses (root t) = false -> (length (nodes_of (outs t)) < length (nodes_of [t]))%nat.
Proof using.
  intros Hrf. pose proof (Permutation_length (gone_outs t)) as H. rewrite length_app in H. unfold addrs in H. rewrite !length_map in H.
  destruct t as [c us]. simpl in Hrf. assert (gone (Node c us) <> []) as Hg by (simpl; by rewrite Hrf).
  destruct (gone (Node c us)); [done|]. cbn [length] in H. lia.
Qed.

Lemma children_step fuel : free_ok fuel -> loop_ok fuel -> loop_ok (S fuel).
Proof using.
  intros IHf IHl s F x p0 o ts L Hf. pose proof (lp_wf _ _ _ _ _ _ L) as W. pose proof (lp_climbs _ _ _ _ _ _ L) as Hcl.
  destruct (lp_x _ _ _ _ _ _ L) as (nx & Hx & Hk). cbn [free_children]. t_step. rewrite Hk. destruct ts as [|t ts].
  { change (gone_of []) with (@nil Z). change (map root (outs_of [])) with (@nil Z). by rewrite prune_nothing. }
  change (t :: ts) with ([t] ++ ts) in Hf. rewrite nodes_of_app, length_app in Hf. cbn [map hd].
  destruct (loop_head s F x p0 o t ts L) as (c & n & Ec & Hc & Hp & Hst & Hr & _). rewrite Ec.
  rewrite set_true by (by apply (wf_ne W c n)). cbn [negb].
  destruct (owner_st s F x p0 o c n W Hcl (lp_o _ _ _ _ _ _ L) Hc Hr) as [H1 (q & H2 & Eq)]. rewrite (bind_some _ _ _ _ _ H1).
  destruct (IHf s F x t (free_pre_child s F x p0 o t ts L)) as [Hfree W1]; [lia|]. rewrite Ec in Hfree.
  rewrite (bind_some _ _ _ _ _ Hfree). unfold freed in *. rewrite Ec in *.
  change (gone_of (t :: ts)) with (gone t ++ gone_of ts). change (t :: ts) with ([t] ++ ts). rewrite outs_of_app.
  assert (outs_of [t] = reverse (outs t)) as Eout by (unfold outs_of; simpl; by rewrite app_nil_r).
  assert (1 <= length (nodes_of [t]))%nat as Hlen by (destruct t; unfold nodes_of; simpl; lia).
  destruct (refuses c) eqn:Hrf.
  - change (-1 =? -1) with true. cbn iota. rewrite bind_bind, (bind_some _ _ _ _ _ H2).
    assert (may_move F (context s q) c) as Hmv by (rewrite Eq, <- Ec; apply (loop_may_move s F x p0 o t ts L)).
    destruct (steal_context s F q c n W Hc Hst Hmv) as [Hsteal W2]. rewrite Eq in Hsteal, W2.
    rewrite bind_bind, (bind_some _ _ _ _ _ Hsteal), bind_ret. rewrite <- Ec in W2.
    pose proof (loop_pre_moved s F x p0 o t ts L W2) as L2. rewrite Ec in *.
    destruct (IHl s _ x p0 o ts L2) as [Hloop W3]; [lia|]. rewrite Hloop.
    destruct (loop_nodup s F x p0 o t ts L) as (_ & Hnd & Hd).
    assert (c ∉ addrs ts) as Hct by (rewrite <- Ec; apply Hd, root_in; left).
    rewrite (prune_move F o c) in W3 |- * by (intros H; apply Hct, gone_or_root; auto).
    destruct t as [c' us]. simpl in Ec. subst c'. simpl gone. simpl outs in Eout. rewrite Hrf in *. rewrite Eout. simpl. 
    rewrite map_app. done.
  - change (0 =? -1) with false. cbn iota. rewrite bind_ret. rewrite <- Ec in Hrf.
    pose proof (loop_pre_freed s F x p0 o t ts L Hrf W1) as L2. pose proof (length_outs t Hrf).
    destruct (IHl s _ x p0 o (outs t ++ ts) L2) as [Hloop W3]; [rewrite nodes_of_app, length_app; lia|]. rewrite Hloop.
    destruct (gone_refuse (outs t)) as [Hg Hou]; [apply outs_refuse|].
    rewrite gone_of_app, outs_of_app, Hg, Hou, <- Eout in W3 |- *.
    rewrite prune_prune in W3 |- *; [done| |]; intros k Hk'; rewrite map_app, elem_of_app; right; rewrite Eout;
      apply list_elem_of_fmap in Hk' as (u & -> & Hu); apply list_elem_of_fmap; exists u; (split; [done|by apply elem_of_reverse]).
Qed.

Lemma free_all fuel : free_ok fuel /\ loop_ok fuel.
Proof using.
  induction fuel as [|fuel [IHf IHl]].
  - split; [intros s F o [x ts] _ Hf|intros s F x p0 o ts _ Hf; lia]. unfold nodes_of in Hf. simpl in Hf. lia.
  - split; [by apply free_step|by apply children_step].
Qed.
End free.
