(* ===== verification/TallocTree.v ===== *)
(** * Talloc: the chunks above and below a chunk

    Every chunk of a well-formed forest has a path to the top and a tree below it;
    walking up follows the path, and the recursions over the children visit the
    tree. *)

From S2P Require Import Prelude Talloc TallocRep TallocOps TallocFree.

(** ** Paths *)

Inductive path (F : forest) : Z -> list Z -> Prop :=
  | path_top x n : F !! x = Some n -> n_parent n = 0 -> path F x [x]
  | path_step x n l : F !! x = Some n -> n_parent n <> 0 -> path F (n_parent n) l -> path F x (x :: l).

Lemma path_in F x l : path F x l -> is_Some (F !! x).
Proof. by destruct 1; eexists. Qed.

Lemma way_head F x l : path F x l -> exists l', l = x :: l'.
Proof. destruct 1; by eexists. Qed.

Lemma way_det F x l l' : path F x l -> path F x l' -> l = l'.
Proof.
  intros H. revert l'. induction H as [x n Hx Hp|x n l Hx Hp _ IH]; intros l' H'; inversion H' as [? n' Hx' Hp'|? n' l2 Hx' Hp' H2]; subst;
    (assert (n' = n) as -> by congruence); try congruence. f_equal. by apply IH.
Qed.

Lemma path_suffix F x l a : path F x l -> a ∈ l -> exists l1 l2, l = l1 ++ l2 /\ path F a l2.
Proof.
  induction 1 as [x n Hx Hp|x n l Hx Hp H IH].
  - intros ->%list_elem_of_singleton. exists [], [x]. split; [done|]. by apply (path_top F x n).
  - intros [->|Ha]%elem_of_cons.
    + exists [], (x :: l). split; [done|]. by apply (path_step F x n).
    + destruct (IH Ha) as (l1 & l2 & -> & H2). by exists (x :: l1), l2.
Qed.

Lemma path_all_in F x l a : path F x l -> a ∈ l -> is_Some (F !! a).
Proof. intros H Ha. destruct (path_suffix F x l a H Ha) as (? & ? & _ & H'). by apply path_in in H'. Qed.

Lemma way_nodup F x l : path F x l -> NoDup l.
Proof.
  induction 1 as [x n Hx Hp|x n l Hx Hp H IH]; [apply NoDup_singleton|]. apply NoDup_cons. split; [|done]. intros Hin.
  destruct (path_suffix F _ l x H Hin) as (l1 & l2 & -> & H2).
  pose proof (way_det F x _ _ H2 (path_step F x n _ Hx Hp H)) as E. apply (f_equal length) in E. simpl in E. rewrite length_app in E. lia.
Qed.

Lemma path_length F x l : path F x l -> (length l <= size F)%nat.
Proof. intros H. apply length_le_size; [by apply (way_nodup F x)|]. intros y. by apply (path_all_in F x). Qed.

Lemma path_exists F x : wf F -> is_Some (F !! x) -> exists l, path F x l.
Proof.
  intros W Hx. apply (wf_rooted F W) in Hx. induction Hx as [x n Hx Hp|x n Hx Hr [l IH]].
  - exists [x]. by apply (path_top F x n).
  - exists (x :: l). apply (path_step F x n); [done| |done]. intros E. rewrite E in IH.
    destruct (path_in F 0 l IH) as [m Hm]. by apply (wf_ne W 0 m).
Qed.

Lemma below_path F x l a : wf F -> path F x l -> below F x a <-> a ∈ l.
Proof.
  intros W H. split.
  - intros Hb. revert l H. induction Hb as [x Hx|x n a Hx Hb IH]; intros l H; [destruct (way_head F x l H) as [? ->]; left|].
    inversion H as [? n' Hx' Hp'|? n' l2 Hx' Hp' H2]; subst; (assert (n' = n) as -> by congruence).
    + rewrite Hp' in Hb. destruct (below_in _ _ _ Hb) as [[m Hm] _]. by apply (wf_ne W 0 m) in Hm.
    + right. by apply IH.
  - induction H as [x n Hx Hp|x n l Hx Hp H IH].
    + intros ->%list_elem_of_singleton. apply below_refl. by eexists.
    + intros [->|Ha]%elem_of_cons; [apply below_refl; by eexists|]. apply (below_step F x n); [done|by apply IH].
Qed.

Lemma below_trans F x y z : below F x y -> below F y z -> below F x z.
Proof. induction 1 as [|x n a Hx Hb IH]; [done|]. intros H. apply (below_step F x n); [done|by apply IH]. Qed.

Lemma below_antisym F x y : wf F -> below F x y -> below F y x -> x = y.
Proof.
  intros W Hxy Hyx. destruct (path_exists F x W) as [l Hl]; [apply (below_in F x y Hxy)|].
  apply (below_path F x l y W Hl) in Hxy. destruct (path_suffix F x l y Hl Hxy) as (l1 & l2 & -> & H2).
  apply (below_path F y l2 x W H2) in Hyx. destruct l1 as [|a l1].
  - destruct (way_head F x _ Hl) as [l' E]. destruct (way_head F y _ H2) as [l2' E2]. simpl in E. congruence.
  - destruct (way_head F x _ Hl) as [l' E]. simpl in E, Hl; injection E as -> <-. pose proof (way_nodup F x _ Hl) as Hnd.
    apply NoDup_cons in Hnd as [Hni _]. destruct Hni. apply elem_of_app. by right.
Qed.

(** ** Trees *)

Lemma addrs_below F t y : wf F -> shape F [t] -> y ∈ addrs [t] -> below F y (root t).
Proof.
  intros W. revert t y. apply (tree_ind' (fun t => forall y, shape F [t] -> y ∈ addrs [t] -> below F y (root t))).
  intros x ts IH y Hs Hy. apply shape_cons in Hs as ((n & Hn & Hk) & Hs & _). rewrite addrs_cons in Hy. change (addrs []) with (@nil Z) in Hy.
  rewrite app_nil_r in Hy. apply elem_of_cons in Hy as [->|Hy]; [apply below_refl; by eexists|]. simpl.
  assert (exists t, t ∈ ts /\ y ∈ addrs [t] /\ shape F [t]) as (t & Ht & Hyt & Hst).
  { clear IH Hk. induction ts as [|t ts IHts]; [by apply not_elem_of_nil in Hy|]. change (t :: ts) with ([t] ++ ts) in Hy, Hs.
    rewrite addrs_app in Hy. apply shape_app in Hs as [Hs1 Hs2]. apply elem_of_app in Hy as [Hy|Hy].
    - exists t. split; [left|done].
    - destruct (IHts Hs2 Hy) as (u & ? & ?). exists u. split; [by right|done]. }
  rewrite Forall_forall in IH. apply (below_trans F y (root t)); [by apply IH|].
  assert (root t ∈ n_kids n) as Hin by (rewrite Hk; apply list_elem_of_fmap; by exists t).
  destruct (wf_kids F W x n _ Hn Hin) as (m & Hm & Hp & _). apply (below_step F _ m); [done|]. rewrite Hp. apply below_refl. by eexists.
Qed.

Lemma addrs_below_forest F ts y : wf F -> shape F ts -> y ∈ addrs ts -> exists t, t ∈ ts /\ below F y (root t).
Proof.
  intros W Hs (t & Ht & Hy)%in_addrs. exists t. split; [done|]. apply addrs_below; [done|by apply (shape_member F ts)|done].
Qed.

(** Two chunks with the same parent have nothing in common below them. *)
Lemma below_siblings F z y1 y2 n1 n2 : wf F -> below F z y1 -> below F z y2 -> F !! y1 = Some n1 -> F !! y2 = Some n2 ->
  n_parent n1 = n_parent n2 -> n_parent n1 <> 0 -> y1 = y2.
Proof.
  intros W H1 H2 Hy1 Hy2 Hp Hp0. destruct (path_exists F z W) as [l Hl]; [apply (below_in F z y1 H1)|].
  apply (below_path F z l _ W Hl) in H1, H2. destruct (path_suffix F z l y1 Hl H1) as (l1 & l1' & E1 & P1).
  destruct (path_suffix F z l y2 Hl H2) as (l2 & l2' & E2 & P2).
  inversion P1 as [? m ? ?|? m q Hm ? Q1]; subst; (assert (m = n1) as -> by congruence); [congruence|].
  inversion P2 as [? m ? ?|? m q2 Hm2 ? Q2]; subst; (assert (m = n2) as -> by congruence); [congruence|].
  rewrite Hp in Q1. rewrite (way_det F _ _ _ Q2 Q1) in E2. apply (f_equal reverse) in E2. rewrite !reverse_app, !reverse_cons, <- !app_assoc in E2.
  apply app_inv_head in E2. simpl in E2. congruence.
Qed.

Lemma addrs_nodup F ts p : wf F -> shape F ts -> NoDup (map root ts) -> p <> 0 ->
  (forall t, t ∈ ts -> exists n, F !! root t = Some n /\ n_parent n = p) -> (forall t, t ∈ ts -> NoDup (addrs [t])) -> NoDup (addrs ts).
Proof.
  intros W. induction ts as [|t ts IH]; intros Hs Hr Hp0 Hp Hnd; [apply NoDup_nil_2|].
  change (t :: ts) with ([t] ++ ts) in *. rewrite addrs_app. apply shape_app in Hs as [Hs1 Hs2]. simpl in Hr. apply NoDup_cons in Hr as [Hr1 Hr2].
  apply NoDup_app. split; [apply Hnd; left|]. split.
  - intros y Hy Hy2. apply (addrs_below F t y W Hs1) in Hy.
    assert (exists u, u ∈ ts /\ below F y (root u)) as (u & Hu & Hyu) by (by apply addrs_below_forest).
    destruct (Hp t) as (n1 & Hn1 & Hp1); [left|]. destruct (Hp u) as (n2 & Hn2 & Hp2); [by right|].
    apply Hr1. apply list_elem_of_fmap. exists u. split; [|done]. apply (below_siblings F y _ _ n1 n2); congruence.
  - apply IH; [done|done|done| |]; intros u Hu; [apply Hp|apply Hnd]; by right.
Qed.

Lemma choose_trees F ks : (forall y, y ∈ ks -> exists t, root t = y /\ shape F [t] /\ NoDup (addrs [t])) ->
  exists ts, map root ts = ks /\ shape F ts /\ forall t, t ∈ ts -> NoDup (addrs [t]).
Proof.
  induction ks as [|y ks IH]; intros H.
  - exists []. split; [done|]. split; [by intros ?? ?%not_elem_of_nil|by intros ? ?%not_elem_of_nil].
  - destruct (H y) as (t & <- & Hs & Hnd); [left|]. destruct IH as (ts & <- & Hss & Hnds); [intros z Hz; apply H; by right|].
    exists (t :: ts). split; [done|]. split; [by apply (shape_app F [t] ts)|]. intros u [->|Hu]%elem_of_cons; [done|by apply Hnds].
Qed.

Lemma tree_exists F x : wf F -> is_Some (F !! x) -> exists t, root t = x /\ shape F [t] /\ NoDup (addrs [t]).
Proof.
  intros W Hx. destruct (path_exists F x W Hx) as [l Hl]. remember (size F - length l)%nat as k eqn:Ek. revert x l Hl Ek Hx.
  induction k as [k IH] using lt_wf_ind. intros x l Hl Ek [n Hx].
  assert (forall y, y ∈ n_kids n -> exists t, root t = y /\ shape F [t] /\ NoDup (addrs [t])) as Hkids.
  { intros y Hy. destruct (wf_kids F W x n y Hx Hy) as (m & Hm & Hp & _).
    assert (path F y (y :: l)) as Hly by (apply (path_step F y m); [done| |]; rewrite Hp; [by apply (wf_ne W x n)|done]).
    pose proof (path_length F y _ Hly) as Hle. simpl in Hle.
    apply (IH (size F - length (y :: l))%nat) with (y :: l); [simpl; lia|done|done|by eexists]. }
  destruct (choose_trees F _ Hkids) as (ts & Hr & Hs & Hnd). exists (Node x ts). split; [done|]. split.
  - apply shape_cons. split; [by exists n|]. split; [done|by intros ?? ?%not_elem_of_nil].
  - rewrite addrs_cons. change (addrs []) with (@nil Z). rewrite app_nil_r. apply NoDup_cons.
    assert (forall t, t ∈ ts -> exists m, F !! root t = Some m /\ n_parent m = x) as Hpar.
    { intros t Ht. assert (root t ∈ n_kids n) as Hin by (rewrite <- Hr; apply list_elem_of_fmap; by exists t).
      destruct (wf_kids F W x n _ Hx Hin) as (m & ? & ? & _). by exists m. }
    split.
    + intros Hin. assert (exists t, t ∈ ts /\ below F x (root t)) as (t & Ht & Hb) by (by apply addrs_below_forest).
      destruct (Hpar t Ht) as (m & Hm & Hp). assert (below F (root t) x) as Hb' by (apply (below_step F _ m); [done|]; rewrite Hp; apply below_refl; by eexists).
      apply (not_own_parent W x n Hx). pose proof (below_antisym F _ _ W Hb Hb') as E. rewrite E in Hx. congruence.
    + apply (addrs_nodup F ts x); [done|done| |by apply (wf_ne W x n)|done|done]. rewrite Hr. by apply (wf_nodup F W x n).
Qed.

Lemma length_nodes F t : shape F [t] -> NoDup (addrs [t]) -> (length (nodes_of [t]) <= size F)%nat.
Proof.
  intros Hs Hnd. rewrite <- (length_map fst). apply length_le_size; [done|]. intros y. by apply shape_in.
Qed.

(** ** Walking up *)

Lemma find_up_st s F x l test (v : Z -> bool) fuel : wf F -> calm F -> path F x l ->
  (forall y, y ∈ l -> test y (st s F) = Some (v y, st s F)) -> (length l < fuel)%nat ->
  find_up test fuel x (st s F) = Some (default 0 (List.find v l), st s F).
Proof.
  intros W Hcalm Hp. revert fuel. induction Hp as [x n Hx Hn|x n l Hx Hn Hp IH]; intros fuel Ht Hf;
    (destruct fuel as [|fuel]; [simpl in Hf; lia|]); cbn [find_up]; rewrite set_true by (by apply (wf_ne W x n)); cbn [negb];
    (rewrite (bind_some _ _ _ _ _ (Ht x ltac:(left)))); cbn [List.find]; (destruct (v x); [done|]).
  - assert (first_parent (enough (st s F)) x (st s F) = Some (n_parent n, st s F)) as Hfp.
    { apply first_parent_st; [done| |rewrite enough_st; lia]. exists n. split; [done|]. by rewrite (proj2 (Hcalm x n Hx)). }
    unfold t_fuel at 1. rewrite bind_bind, bind_get, (bind_some _ _ _ _ _ Hfp), Hn. simpl in Hf. destruct fuel; [lia|]. done.
  - assert (first_parent (enough (st s F)) x (st s F) = Some (n_parent n, st s F)) as Hfp.
    { apply first_parent_st; [done| |rewrite enough_st; lia]. exists n. split; [done|]. by rewrite (proj2 (Hcalm x n Hx)). }
    unfold t_fuel at 1. rewrite bind_bind, bind_get, (bind_some _ _ _ _ _ Hfp). apply IH; [intros y Hy; apply Ht; by right|simpl in Hf; lia].
Qed.

Lemma is_parent_st s F x p n l : wf F -> calm F -> F !! x = Some n -> path F x l -> p <> 0 ->
  talloc_is_parent x p (st s F) = Some (if bool_decide (p ∈ l) then 1 else 0, st s F).
Proof.
  intros W Hcalm Hx Hp Hp0. unfold talloc_is_parent. rewrite set_true by (by apply (wf_ne W x n)). cbn [negb].
  rewrite (from_ptr_bind s F x n) by done.
  assert (t_fuel (fun fuel => find_up (fun tc => t_ret (tc =? p)) fuel x) (st s F) = Some (default 0 (List.find (fun tc => tc =? p) l), st s F)) as E.
  { unfold t_fuel. rewrite bind_get. apply find_up_st; [done|done|done|done|]. rewrite enough_st. pose proof (path_length F x l Hp). lia. }
  rewrite (bind_some _ _ _ _ _ E). unfold t_ret. do 3 f_equal. case_bool_decide as Hin.
  - destruct (List.find _ l) as [y|] eqn:Ef.
    + apply List.find_some in Ef as [_ Ef%Z.eqb_eq]. simpl. by rewrite Ef, set_true.
    + exfalso. apply list_elem_of_In in Hin. apply (List.find_none _ _ Ef) in Hin. apply Z.eqb_neq in Hin. done.
  - destruct (List.find _ l) as [y|] eqn:Ef; [|done]. exfalso. apply List.find_some in Ef as [Hin2 Ef%Z.eqb_eq]. subst y. by apply Hin, list_elem_of_In.
Qed.

(** ** The handles of a chunk *)

(** The handles from the one at [k] on. *)
Lemma handle_next_lookup l k h : plist l -> l !! k = Some h -> next_in l h = default 0 (l !! S k).
Proof.
  revert k. induction l as [|a l IH]; intros k Hl Hk; [done|]. apply plist_cons in Hl as (_ & Hal & Hl). simpl.
  destruct (Z.eqb_spec a h) as [->|Hne].
  - destruct k as [|k]; [by destruct l|]. simpl in Hk. by apply list_elem_of_lookup_2 in Hk.
  - destruct k as [|k]; [simpl in Hk; congruence|]. by apply IH.
Qed.

Lemma handle_st s F t h m : F !! h = Some m -> n_body m = Reference t ->
  handle h (st s F) = Some (mk_handle (next_in (handles F t) h) (prev_in (handles F t) h) t, st s F).
Proof. intros Hh Hb. unfold handle. t_step. rewrite data_conc, Hb. done. Qed.

Lemma count_handles_st s F t fuel k : wf F -> (length (handles F t) - k < fuel)%nat ->
  count_handles fuel (default 0 (handles F t !! k)) (st s F) = Some (u64 (Z.of_nat (length (handles F t) - k)), st s F).
Proof.
  intros W. revert k. induction fuel as [|fuel IH]; intros k Hf; [lia|]. cbn [count_handles].
  destruct (handles F t !! k) as [h|] eqn:Hk; simpl default.
  - pose proof (list_elem_of_lookup_2 _ _ _ Hk) as Hin. destruct (in_handles W t h Hin) as (m & Hm & Hb).
    rewrite set_true by (by apply (wf_ne W h m)). cbn [negb]. rewrite (bind_some _ _ _ _ _ (handle_st s F t h m Hm Hb)). cbn [h_next].
    rewrite (handle_next_lookup _ k h (handles_plist W t) Hk). pose proof (lookup_lt_Some _ _ _ Hk).
    rewrite (bind_some _ _ _ _ _ (IH (S k) ltac:(lia))). unfold t_ret, u64. rewrite Zplus_mod_idemp_l. do 4 f_equal. lia.
  - apply lookup_ge_None in Hk. replace (length (handles F t) - k)%nat with 0%nat by lia. done.
Qed.

Lemma reference_count_st s F t n : wf F -> F !! t = Some n ->
  talloc_reference_count t (st s F) = Some (u64 (Z.of_nat (length (n_refs n))), st s F).
Proof.
  intros W Ht. unfold talloc_reference_count. rewrite (from_ptr_bind s F t n) by done. unfold t_fuel. rewrite bind_get, conc_refs.
  assert (hd 0 (n_refs n) = default 0 (handles F t !! 0%nat)) as ->.
  { rewrite (handles_lookup F t n Ht). by destruct (n_refs n). }
  assert (length (handles F t) <= size F)%nat as Hle.
  { apply length_le_size; [by apply (handles_plist W)|]. intros h Hh. destruct (in_handles W t h Hh) as (m & ? & _). by eexists. }
  rewrite count_handles_st; [|done|rewrite enough_st; lia]. rewrite Nat.sub_0_r. by rewrite (handles_lookup F t n Ht).
Qed.

(** ** Totals *)

Section total.
Context (count : talloc_chunk -> Z) (weight : node -> Z).
Context (Hcount : forall F x n, count (conc_chunk F x n) = weight n).

Definition with_loop (b : bool) (n : node) : node :=
  mk_node (n_parent n) (n_kids n) (n_refs n) (n_dtor n) (n_name n) (n_size n) b (n_stale n) (n_body n).

Context (Hweight : forall b n, weight (with_loop b n) = weight n).

Definition weigh (F : forest) (l : list Z) : Z := foldr (fun y a => default 0 (weight <$> F !! y) + a) 0 l.

Lemma with_loop_plain b n : plain_change (with_loop b) n.
Proof using. done. Qed.

Lemma weigh_loop F x b l : weigh (alter (with_loop b) x F) l = weigh F l.
Proof using Hweight.
  unfold weigh. induction l as [|y l IH]; [done|]. simpl. rewrite IH, lookup_change. destruct (F !! y) as [n|]; [|done]. simpl.
  destruct (y =? x); [by rewrite Hweight|done].
Qed.

Lemma weigh_app F l1 l2 : weigh F (l1 ++ l2) = weigh F l1 + weigh F l2.
Proof using. unfold weigh. induction l1 as [|y l1 IH]; [done|]. simpl. rewrite IH. lia. Qed.

Lemma shape_change F f x n ts : F !! x = Some n -> plain_change f n -> shape F ts -> shape (alter f x F) ts.
Proof using.
  intros Hx Hf Hs y ks Hin. destruct (Hs y ks Hin) as (m & Hm & <-). destruct (changed Hx Hf y m Hm) as (m' & ? & _ & ? & _). by exists m'.
Qed.

Definition total_ok (fuel : nat) : Prop := forall s F t, wf F -> shape F [t] -> NoDup (addrs [t]) ->
  (forall y n, y ∈ addrs [t] -> F !! y = Some n -> n_loop n = false) -> (2 * length (nodes_of [t]) <= fuel)%nat ->
  total count fuel (root t) (st s F) = Some (u64 (weigh F (addrs [t])), st s F).

Definition from_ok (fuel : nat) : Prop := forall s F x pre ts n, wf F -> F !! x = Some n -> n_kids n = pre ++ map root ts ->
  shape F ts -> NoDup (addrs ts) ->
  (forall y n, y ∈ addrs ts -> F !! y = Some n -> n_loop n = false) -> (2 * length (nodes_of ts) < fuel)%nat ->
  total_from count fuel (hd 0 (map root ts)) (st s F) = Some (u64 (weigh F (addrs ts)), st s F).

Lemma total_step fuel : from_ok fuel -> total_ok (S fuel).
Proof using Hcount Hweight.
  intros IH s F t W Hs Hnd Hl Hf. destruct t as [x ts]. cbn [total root].
  destruct (proj1 (shape_cons F x ts []) Hs) as ((n & Hx & Hk) & Hts & _).
  rewrite addrs_cons in Hl, Hnd |- *. change (addrs []) with (@nil Z) in *. rewrite app_nil_r in *. apply NoDup_cons in Hnd as [Hxt Hnd].
  assert (n_loop n = false) as Hln by (apply (Hl x); [left|done]).
  rewrite (from_ptr_bind s F x n) by done.
  assert (flags (conc_chunk F x n) = TALLOC_MAGIC) as -> by (unfold conc_chunk; cbn [flags]; by rewrite Hln).
  change (TALLOC_MAGIC &? TALLOC_FLAG_LOOP) with false. cbn iota. unfold set_loop, clear_loop.
  rewrite (bind_change s F x (with_loop true) _ n _ Hx (with_loop_plain true n)) by (unfold conc_chunk, set_flags; cbn; by rewrite Hln).
  pose proof (wf_change W Hx (with_loop_plain true n)) as W1. set (F1 := alter (with_loop true) x F) in *.
  assert (F1 !! x = Some (with_loop true n)) as Hx1 by (unfold F1; rewrite lookup_change, Hx; simpl; by rewrite Z.eqb_refl).
  rewrite conc_child, Hk.
  assert (length (nodes_of [Node x ts]) = S (length (nodes_of ts))) as Hlen by (unfold nodes_of; simpl; by rewrite app_nil_r).
  assert (total_from count fuel (hd 0 (map root ts)) (st s F1) = Some (u64 (weigh F1 (addrs ts)), st s F1)) as Hfrom.
  { apply (IH s F1 x [] ts (with_loop true n)); [done|done|done| |done| |lia].
    - by apply (shape_change F _ x n).
    - intros y m Hy. unfold F1. rewrite lookup_change. rewrite (proj2 (Z.eqb_neq y x)) by congruence.
      intros (m0 & Hm0 & ->)%fmap_Some. apply (Hl y); [by right|done]. }
  rewrite (bind_some _ _ _ _ _ Hfrom).
  rewrite (bind_change s F1 x (with_loop false) _ _ _ Hx1 (with_loop_plain false _)) by done.
  assert (alter (with_loop false) x F1 = F) as ->.
  { apply map_eq. intros z. unfold F1. rewrite !lookup_change. destruct (F !! z) as [m|] eqn:Hm; [|done]. simpl.
    destruct (Z.eqb_spec z x) as [->|]; [|done]. assert (m = n) as -> by congruence. unfold with_loop. simpl. destruct n. simpl in *. by rewrite Hln. }
  unfold F1. rewrite weigh_loop, Hcount. unfold t_ret, u64. rewrite Zplus_mod_idemp_r. unfold weigh at 2. simpl. by rewrite Hx.
Qed.

Lemma from_step fuel : total_ok fuel -> from_ok fuel -> from_ok (S fuel).
Proof using.
  intros IHt IHf s F x pre ts n W Hx Hk Hs Hnd Hl Hf. cbn [total_from]. destruct ts as [|t ts]; [done|].
  cbn [map hd]. change (t :: ts) with ([t] ++ ts) in Hs, Hnd, Hl, Hf |- *.
  apply shape_app in Hs as [Hs1 Hs2]. rewrite addrs_app in Hnd, Hl |- *. apply NoDup_app in Hnd as (Hn1 & _ & Hn2). rewrite nodes_of_app, length_app in Hf.
  assert (root t ∈ n_kids n) as Hin by (rewrite Hk; apply elem_of_app; right; left).
  destruct (wf_kids F W x n _ Hx Hin) as (m & Hm & Hp & Hst). rewrite set_true by (by apply (wf_ne W (root t) m)). cbn [negb].
  assert (1 <= length (nodes_of [t]))%nat as Hlen by (destruct t; unfold nodes_of; simpl; lia).
  assert (total count fuel (root t) (st s F) = Some (u64 (weigh F (addrs [t])), st s F)) as Htot.
  { apply IHt; [done|done|done| |lia]. intros y ny Hy. apply Hl, elem_of_app. by left. }
  rewrite (bind_some _ _ _ _ _ Htot). t_step. unfold links. rewrite Hst, Hp, (kids_lookup F x n Hx). unfold sib_links. cbn [fst].
  assert (next_in (n_kids n) (root t) = hd 0 (map root ts)) as ->.
  { rewrite (handle_next_lookup (n_kids n) (length pre) (root t)).
    - rewrite Hk. simpl. rewrite lookup_app_r by lia. replace (S (length pre) - length pre)%nat with 1%nat by lia. simpl. by destruct ts.
    - rewrite <- (kids_lookup F x n Hx). by apply kids_plist.
    - rewrite Hk. simpl. rewrite lookup_app_r by lia. by rewrite Nat.sub_diag. }
  assert (total_from count fuel (hd 0 (map root ts)) (st s F) = Some (u64 (weigh F (addrs ts)), st s F)) as Hfrom.
  { apply (IHf s F x (pre ++ [root t]) ts n); [done|done|by rewrite <- app_assoc|done|done| |lia]. intros y ny Hy. apply Hl, elem_of_app. by right. }
  rewrite (bind_some _ _ _ _ _ Hfrom), weigh_app. unfold t_ret, u64. by rewrite <- Zplus_mod.
Qed.

Lemma total_all fuel : total_ok fuel /\ from_ok fuel.
Proof using Hcount Hweight.
  induction fuel as [|fuel [IHt IHf]].
  - split; [intros s F [x ts] _ _ _ _ Hf|intros s F x pre ts n _ _ _ _ _ _ Hf; lia]. unfold nodes_of in Hf. simpl in Hf. lia.
  - split; [by apply total_step|by apply from_step].
Qed.

Lemma total_st s F t : wf F -> calm F -> shape F [t] -> NoDup (addrs [t]) ->
  t_fuel (fun fuel => total count fuel (root t)) (st s F) = Some (u64 (weigh F (addrs [t])), st s F).
Proof using Hcount Hweight.
  intros W Hc Hs Hnd. unfold t_fuel. rewrite bind_get. apply total_all; try done.
  - intros y n _ Hy. by apply (Hc y n Hy).
  - rewrite enough_st. pose proof (length_nodes F t Hs Hnd). lia.
Qed.
End total.
