(* ===== verification/TallocApi.v ===== *)
(** * Talloc: the calls

    Allocation, references, and the questions about the tree, on a forest in which
    nothing is being freed. *)

From S2P Require Import Prelude Talloc TallocRep TallocOps TallocFree TallocTree.

(** ** Allocation *)

Definition fresh_node (size : Z) : node :=
  mk_node 0 [] [] Destructor_null Name_null size false None (Body (replicate (Z.to_nat size) None)).

Section insert.
Context {F : forest} (W : wf F) {x : Z} {n : node} (Hx : F !! x = None) (Hx0 : x <> 0) (Hp : n_parent n = 0)
  (Hk : n_kids n = []) (Hr : n_refs n = []) (Hb : forall t, n_body n <> Reference t).

Lemma kids_insert q : kids (<[x := n]> F) q = kids F q.
Proof using Hx Hk.
  unfold kids. destruct (decide (q = x)) as [->|Hne]; [by rewrite lookup_insert_eq, Hx|by rewrite lookup_insert_ne].
Qed.

Lemma handles_insert q : handles (<[x := n]> F) q = handles F q.
Proof using Hx Hr.
  unfold handles. destruct (decide (q = x)) as [->|Hne]; [by rewrite lookup_insert_eq, Hx|by rewrite lookup_insert_ne].
Qed.

Lemma conc_insert : conc (<[x := n]> F) = <[x := conc_chunk F x n]> (conc F).
Proof using Hx Hk Hr.
  assert (forall z m, conc_chunk (<[x := n]> F) z m = conc_chunk F z m) as E.
  { intros z m. unfold conc_chunk, links. rewrite kids_insert. f_equal. unfold payload_of. destruct (n_body m); rewrite ?handles_insert; done. }
  apply map_eq. intros z. rewrite lookup_conc. destruct (decide (z = x)) as [->|Hne].
  - rewrite !lookup_insert_eq. simpl. by rewrite E.
  - rewrite !lookup_insert_ne, lookup_conc by done. destruct (F !! z); [|done]. simpl. by rewrite E.
Qed.

Lemma wf_insert : wf (<[x := n]> F).
Proof using W Hx Hx0 Hp Hk Hr Hb.
  assert (forall z m, F !! z = Some m -> <[x := n]> F !! z = Some m) as L by (intros z m Hz; rewrite lookup_insert_ne; congruence).
  split.
  - rewrite lookup_insert_ne by done. apply (wf_zero F W).
  - intros p m y [[<- <-]|[_ Hpm]]%lookup_insert_Some Hy; [rewrite Hk in Hy; by apply not_elem_of_nil in Hy|].
    destruct (wf_kids F W p m y Hpm Hy) as (my & ? & ?). exists my. auto.
  - intros y m [[<- <-]|[_ Hy]]%lookup_insert_Some Hpar; [done|]. rewrite kids_insert. by apply (wf_parent F W y m).
  - intros p m [[<- <-]|[_ Hpm]]%lookup_insert_Some; [rewrite Hk, Hr; split; apply NoDup_nil_2|]. by apply (wf_nodup F W p m).
  - intros t m h [[<- <-]|[_ Ht]]%lookup_insert_Some Hh; [rewrite Hr in Hh; by apply not_elem_of_nil in Hh|].
    destruct (wf_refs F W t m h Ht Hh) as (mh & ? & ?). exists mh. auto.
  - intros h m t [[<- <-]|[_ Hh]]%lookup_insert_Some Hbd; [by apply Hb in Hbd|]. rewrite handles_insert. by apply (wf_target F W h m).
  - intros h m t [[<- <-]|[_ Hh]]%lookup_insert_Some Hbd; [done|]. by apply (wf_handle F W h m t).
  - intros y m [[<- <-]|[_ Hy]]%lookup_insert_Some; [done|]. by apply (wf_stale F W y m).
  - intros y [m [[<- <-]|[_ Hy]]%lookup_insert_Some].
    + apply (rooted_top _ x n); [apply lookup_insert_eq|done].
    + apply (rooted_same F); [intros z m' Hz; exists m'; split; [by apply L|done]|]. apply (wf_rooted F W). by eexists.
Qed.
End insert.

(** The forest with a new chunk below [o], or at the top. *)
Definition with_new (o x : Z) (n : node) (F : forest) : forest :=
  if o =? 0 then <[x := n]> F else attach o x (<[x := n]> F).

Definition good_context (F : forest) (o : Z) : Prop :=
  o <> 0 -> exists np, F !! o = Some np /\ forall t, n_body np <> Reference t.

Lemma below_leaf F y x : wf F -> below F y x -> kids F x = [] -> y = x.
Proof.
  intros W Hb Hk. induction Hb as [x _|y n a Hy Hb IH]; [done|]. exfalso. specialize (IH Hk). subst a.
  assert (n_parent n <> 0) as H0 by (intros E; rewrite E in Hb; destruct (below_in _ _ _ Hb) as [[m Hm] _]; by apply (wf_ne W 0 m) in Hm).
  pose proof (wf_parent F W y n Hy H0) as Hin. rewrite Hk in Hin. by apply not_elem_of_nil in Hin.
Qed.

(** ** References *)

Definition refer_node (h t z : Z) (n : node) : node :=
  mk_node (n_parent n) (n_kids n) (if z =? t then h :: n_refs n else n_refs n) (n_dtor n) (n_name n) (n_size n) (n_loop n) (n_stale n)
    (if z =? h then Reference t else n_body n).

(** The handle [h] refers to [t]. *)
Definition refer (h t : Z) (F : forest) : forest := adjust (refer_node h t) F.

Lemma lookup_refer h t F z : refer h t F !! z = refer_node h t z <$> F !! z.
Proof. apply lookup_adjust. Qed.

Lemma kids_refer h t F q : kids (refer h t F) q = kids F q.
Proof. unfold kids. rewrite lookup_refer. by destruct (F !! q). Qed.

Lemma handles_refer h t F q : is_Some (F !! t) -> handles (refer h t F) q = if q =? t then h :: handles F q else handles F q.
Proof.
  intros [nt Ht]. unfold handles. rewrite lookup_refer. destruct (Z.eqb_spec q t) as [->|Hne].
  - rewrite Ht. simpl. by rewrite Z.eqb_refl.
  - destruct (F !! q); [|done]. simpl. by rewrite (proj2 (Z.eqb_neq q t)).
Qed.

Section refer.
Context {F : forest} (W : wf F) {h t : Z} {n nt : node} (Hh : F !! h = Some n) (Ht : F !! t = Some nt) (Hht : h <> t)
  (Hb : n_body n = Released t) (Hk : n_kids n = []) (Hr : n_refs n = []) (Hnt : forall q, n_body nt <> Reference q).

Lemma refer_plist : plist (h :: n_refs nt).
Proof using W Hh Ht Hb.
  apply plist_cons. rewrite <- (handles_lookup F t nt Ht). split; [by apply (wf_ne W h n)|]. split; [|by apply handles_plist].
  intros Hin. destruct (in_handles W t h Hin) as (m & ? & ?). congruence.
Qed.

Lemma conc_refer z : conc (refer h t F) !! z =
  (fun m => let c := conc_chunk F z m in
     if z =? h then set_data (Handle (mk_handle (hd 0 (n_refs nt)) 0 t)) c
     else if z =? t then set_refs h c
     else if hd 0 (n_refs nt) =? z then set_data (Handle (mk_handle (next_in (n_refs nt) z) h t)) c
     else c) <$> F !! z.
Proof using W Hh Ht Hht Hb Hnt.
  pose proof refer_plist as Hl. rewrite lookup_conc, lookup_refer. destruct (F !! z) as [m|] eqn:Hz; [|done]. cbn [fmap option_fmap option_map]. f_equal.
  assert (links (refer h t F) z (refer_node h t z m) = links F z m) as Hlk by (unfold links; simpl; by rewrite kids_refer).
  unfold conc_chunk at 1. rewrite Hlk. cbn [refer_node n_kids n_refs n_dtor n_name n_size n_loop n_body].
  assert (is_Some (F !! t)) as Hts by (by eexists).
  destruct (Z.eqb_spec z h) as [->|Hzh].
  { rewrite (proj2 (Z.eqb_neq h t)) by done. unfold payload_of. rewrite handles_refer, Z.eqb_refl, (handles_lookup F t nt Ht) by done.
    unfold prev_in. simpl. by rewrite Z.eqb_refl. }
  destruct (Z.eqb_spec z t) as [->|Hzt].
  { assert (m = nt) as -> by congruence. unfold conc_chunk, set_refs. cbn. f_equal. unfold payload_of.
    destruct (n_body nt) as [|q|] eqn:E; try done. by destruct (Hnt q). }
  assert (z <> 0) as Hz0 by (by apply (wf_ne W z m)).
  destruct (Z.eqb_spec (hd 0 (n_refs nt)) z) as [E|E].
  - assert (z ∈ n_refs nt) as Hin by (rewrite <- E; apply hd_in; congruence).
    destruct (wf_refs F W t nt z Ht Hin) as (m' & ? & Hm'). assert (m' = m) as -> by congruence.
    unfold payload_of. rewrite Hm', handles_refer, Z.eqb_refl, (handles_lookup F t nt Ht) by done. cbn [next_in].
    rewrite (proj2 (Z.eqb_neq h z)), prev_cons, (set_true z), (proj2 (Z.eqb_eq _ z) E) by done. done.
  - unfold conc_chunk. f_equal. unfold payload_of. destruct (n_body m) as [|q|] eqn:Em; try done. rewrite handles_refer by done.
    destruct (Z.eqb_spec q t) as [->|]; [|done]. rewrite (handles_lookup F t nt Ht). cbn [next_in].
    rewrite (proj2 (Z.eqb_neq h z)), prev_cons, (proj2 (Z.eqb_neq _ z) E), andb_false_r by done. done.
Qed.

Lemma refer_run s : TLIST_ADD_refs t h (st s F) = Some (tt, st s (refer h t F)).
Proof using W Hh Ht Hht Hb Hnt.
  pose proof refer_plist as Hl. unfold TLIST_ADD_refs, _TLIST_ADD, the_refs. repeat h_step.
  destruct (set_spec (hd 0 (n_refs nt))) as [Hs|Hs]; cbn [negb].
  - assert (hd 0 (n_refs nt) ∈ n_refs nt) as Hin by (by apply hd_in).
    destruct (wf_refs F W t nt _ Ht Hin) as (mh & Hmh & Hbh).
    assert (hd 0 (n_refs nt) <> h) as Hhx by (intros E; rewrite E in Hin; by apply plist_cons in Hl as (_ & ? & _)).
    assert (hd 0 (n_refs nt) <> t) as Hho by (intros E; apply (Hnt t); congruence).
    repeat h_step. apply (st_eq s). rewrite ?(handles_lookup F t nt Ht). heap_points W conc_refer.
    all: unfold conc_chunk, set_data, set_h_next, set_h_prev; cbn; rewrite ?Hb; cbn; congruence.
  - assert (hd 0 (n_refs nt) = 0) as Hh0 by lia. repeat h_step. apply (st_eq s). heap_points W conc_refer.
    all: unfold conc_chunk, set_data, set_h_next, set_h_prev; cbn; rewrite ?Hb; cbn; congruence.
Qed.

Lemma wf_refer : wf (refer h t F).
Proof using W Hh Ht Hht Hb Hk Hr Hnt.
  assert (is_Some (F !! t)) as Hts by (by eexists).
  split.
  - by rewrite lookup_refer, (wf_zero F W).
  - intros p m' y. rewrite lookup_refer. intros (m & Hp & ->)%fmap_Some Hy. destruct (wf_kids F W p m y Hp Hy) as (my & Hmy & ? & ?).
    rewrite lookup_refer, Hmy. by eexists.
  - intros y m'. rewrite lookup_refer. intros (m & Hy & ->)%fmap_Some Hp. rewrite kids_refer. by apply (wf_parent F W y m).
  - intros p m'. rewrite lookup_refer. intros (m & Hp & ->)%fmap_Some. destruct (wf_nodup F W p m Hp). simpl.
    split; [done|]. destruct (Z.eqb_spec p t) as [->|]; [|done]. assert (m = nt) as -> by congruence. by apply refer_plist.
  - intros q m' z. rewrite lookup_refer. intros (m & Hq & ->)%fmap_Some Hz. simpl in Hz.
    assert ((q = t /\ z = h) \/ z ∈ n_refs m) as [[-> ->]|Hz'].
    { destruct (Z.eqb_spec q t) as [->|]; [|by right]. apply elem_of_cons in Hz as [->|]; [by left|by right]. }
    + rewrite lookup_refer, Hh. eexists. split; [done|]. simpl. by rewrite Z.eqb_refl.
    + destruct (wf_refs F W q m z Hq Hz') as (mz & Hmz & Hbz). rewrite lookup_refer, Hmz. eexists. split; [done|]. simpl.
      destruct (Z.eqb_spec z h) as [->|]; [congruence|done].
  - intros z m' q. rewrite lookup_refer. intros (m & Hz & ->)%fmap_Some. simpl. rewrite handles_refer by done.
    destruct (Z.eqb_spec z h) as [->|Hne]; intros Hbz.
    + injection Hbz as <-. rewrite Z.eqb_refl. left.
    + pose proof (wf_target F W z m q Hz Hbz). destruct (q =? t); [by right|done].
  - intros z m' q. rewrite lookup_refer. intros (m & Hz & ->)%fmap_Some. simpl. destruct (Z.eqb_spec z h) as [->|Hne]; intros Hbz.
    + rewrite (proj2 (Z.eqb_neq h t)) by done. assert (m = n) as -> by congruence. done.
    + destruct (wf_handle F W z m q Hz Hbz) as [? ?]. destruct (Z.eqb_spec z t) as [->|]; [|done]. by destruct (Hnt q); congruence.
  - intros y m'. rewrite lookup_refer. intros (m & Hy & ->)%fmap_Some. by apply (wf_stale F W y m).
  - intros y. rewrite lookup_refer, fmap_is_Some. intros Hy. apply (rooted_same F); [|by apply (wf_rooted F W)].
    intros z m Hz. rewrite lookup_refer, Hz. by eexists.
Qed.
End refer.

Section api.
Context {M : Malloc} {MS : MallocSpec M} (user_destructor : Z -> Z -> T Z).

Lemma context_of_st s F p : context_of p (st s F) = Some (context s p, st s F).
Proof using. unfold context_of, context, set. destruct (Z.eqb_spec p 0) as [->|]; done. Qed.

Lemma bind_ret_st {A B} (m : T A) (k : A -> T B) s F a F' : m (st s F) = Some (a, st s F') -> (do x <- m; k x) (st s F) = k a (st s F').
Proof using. apply bind_some. Qed.

Lemma conc_fresh F x size : wf F -> conc_chunk F x (fresh_node size) = mk_chunk 0 0 0 0 0 Destructor_null Name_null size TALLOC_MAGIC
  (Bytes (replicate (Z.to_nat size) None)).
Proof using. intros W. unfold conc_chunk, links, kids. simpl. by rewrite (wf_zero F W). Qed.

(** [__talloc]: nothing, or a new chunk below its context. *)
Lemma talloc_st s F ctx size : wf F -> good_context F (context s ctx) ->
  (__talloc ctx size (st s F) = Some (0, st s F) /\ (MAX_TALLOC_SIZE <= size \/ malloc (conc F) (TC_HDR_SIZE + size) = None))
  \/ (exists x, __talloc ctx size (st s F) = Some (x, st s (with_new (context s ctx) x (fresh_node size) F))
      /\ size < MAX_TALLOC_SIZE /\ malloc (conc F) (TC_HDR_SIZE + size) = Some x /\ 0 < x /\ F !! x = None
      /\ wf (with_new (context s ctx) x (fresh_node size) F)).
Proof using MS.
  intros W Hctx. unfold __talloc. rewrite (bind_ret_st _ _ _ _ _ _ (context_of_st s F ctx)).
  destruct (Z.leb_spec MAX_TALLOC_SIZE size) as [Hm|Hm]; [left; by auto|]. rewrite bind_get. change (heap (st s F)) with (conc F).
  destruct (malloc (conc F) (TC_HDR_SIZE + size)) as [x|] eqn:Ex; [right|left; by auto]. exists x.
  destruct (malloc_fresh _ _ _ Ex) as [Hx0 Hfr]. rewrite lookup_conc in Hfr.
  assert (F !! x = None) as Hx by (by destruct (F !! x)). set (o := context s ctx) in *.
  assert (wf (<[x := fresh_node size]> F)) as W1 by (apply (wf_insert W Hx); done || lia).
  assert (forall A (k : T A), (do! t_modify (fun s => set_heap (<[x:=mk_chunk 0 0 0 0 0 Destructor_null Name_null size TALLOC_MAGIC
      (Bytes (replicate (Z.to_nat size) None))]> (heap s)) s); k) (st s F) = k (st s (<[x := fresh_node size]> F))) as Hins.
  { intros A k. unfold t_bind, t_modify, st. rewrite (conc_insert Hx) by done. by rewrite conc_fresh. }
  rewrite Hins. unfold with_new. set (F1 := <[x := fresh_node size]> F) in *.
  assert (F1 !! x = Some (fresh_node size)) as Hx1 by apply lookup_insert_eq.
  pose proof (conc_fresh F1 x size W1) as Ec.
  unfold set at 1. destruct (Z.eqb_spec o 0) as [Eo|Eo]; cbn [negb].
  - erewrite bind_assign by t_lookup. split; [|auto]. apply (st_eq s). simpl. apply insert_id. rewrite lookup_conc, Hx1. simpl. by rewrite Ec.
  - destruct (Hctx Eo) as (np & Hnp & Hnb). assert (x <> o) as Hxo by congruence.
    assert (F1 !! o = Some np) as Hnp1 by (unfold F1; by rewrite lookup_insert_ne).
    assert (loose F1 x (fresh_node size)) as Hl by done.
    rewrite bind_bind, (from_ptr_bind s F1 o np) by done. rewrite conc_child.
    split; [|split; [done|split; [done|split; [done|split; [done|]]]]].
    + pose proof (loose_plist W1 Hl Hnp1) as Hpl. destruct (set_spec (hd 0 (n_kids np))) as [Hh|Hh].
      * assert (hd 0 (n_kids np) ∈ n_kids np) as Hin by (by apply hd_in).
        destruct (wf_kids F1 W1 o np _ Hnp1 Hin) as (mh & Hmh & Hph & Hsh).
        assert (hd 0 (n_kids np) <> x) as Hhx by (intros E; rewrite E in Hin; by apply plist_cons in Hpl as (_ & ? & _)).
        assert (hd 0 (n_kids np) <> o) as Hho by (intros E; apply (not_own_parent W1 o np); congruence).
        repeat t_step. apply (st_eq s). heap_points W1 (conc_attach W1 Hl Hnp1 Hxo).
      * assert (hd 0 (n_kids np) = 0) as Hh0 by lia. repeat t_step. apply (st_eq s). heap_points W1 (conc_attach W1 Hl Hnp1 Hxo).
    + apply (wf_attach W1 Hl Hnp1 Hxo); [|done]. intros Hb. apply Hxo. symmetry. apply (below_leaf F1 o x W1 Hb).
      unfold kids. by rewrite Hx1.
Qed.

(** Changing a new chunk is like allocating it changed. *)
Lemma alter_new f o x n F : F !! x = None -> x <> o -> f (attach_node o x x n) = attach_node o x x (f n) ->
  alter f x (with_new o x n F) = with_new o x (f n) F.
Proof using.
  intros Hx Hxo Hf. unfold with_new. destruct (o =? 0); [apply alter_insert_eq|]. apply map_eq. intros z.
  rewrite lookup_change. unfold attach. rewrite !lookup_adjust. destruct (Z.eqb_spec z x) as [->|Hne].
  - rewrite !lookup_insert_eq. simpl. by rewrite Hf.
  - rewrite !lookup_insert_ne by done. destruct (F !! z); [|done]. done.
Qed.

Lemma lookup_new o x n F : x <> o -> with_new o x n F !! x = Some (if o =? 0 then n else attach_node o x x n).
Proof using.
  intros Hxo. unfold with_new. destruct (o =? 0); [apply lookup_insert_eq|]. unfold attach. rewrite lookup_adjust, lookup_insert_eq. done.
Qed.

Lemma lookup_new_other o x n F z : z <> x ->
  with_new o x n F !! z = (fun m => mk_node (n_parent m) (if (z =? o) && set o then x :: n_kids m else n_kids m) (n_refs m) (n_dtor m) (n_name m)
    (n_size m) (n_loop m) (n_stale m) (n_body m)) <$> F !! z.
Proof using.
  intros Hz. unfold with_new, set. destruct (Z.eqb_spec o 0) as [E|E].
  - rewrite lookup_insert_ne by done. destruct (F !! z) as [m|]; [|done]. simpl. rewrite andb_false_r. by destruct m.
  - unfold attach. rewrite lookup_adjust, lookup_insert_ne by done. destruct (F !! z) as [m|]; [|done]. simpl. unfold attach_node.
    rewrite (proj2 (Z.eqb_neq z x)) by done. by rewrite andb_true_r.
Qed.

Definition with_name (nm : name_ptr) (n : node) : node :=
  mk_node (n_parent n) (n_kids n) (n_refs n) (n_dtor n) nm (n_size n) (n_loop n) (n_stale n) (n_body n).

Definition with_body (b : body) (n : node) : node :=
  mk_node (n_parent n) (n_kids n) (n_refs n) (n_dtor n) (n_name n) (n_size n) (n_loop n) (n_stale n) b.

(** What a call can find when it allocates a chunk. *)
Definition allocates (F : forest) (size x : Z) : Prop :=
  size < MAX_TALLOC_SIZE /\ malloc (conc F) (TC_HDR_SIZE + size) = Some x /\ 0 < x /\ F !! x = None.

Definition fails_to (F : forest) (size : Z) : Prop :=
  MAX_TALLOC_SIZE <= size \/ malloc (conc F) (TC_HDR_SIZE + size) = None.

Definition named_node (size : Z) (nm : name_ptr) : node := with_name nm (fresh_node size).

Lemma named_st s F ctx size nm : wf F -> good_context F (context s ctx) ->
  (_talloc_named_const ctx size nm (st s F) = Some (0, st s F) /\ fails_to F size)
  \/ (exists x, _talloc_named_const ctx size nm (st s F) = Some (x, st s (with_new (context s ctx) x (named_node size nm) F))
      /\ allocates F size x /\ wf (with_new (context s ctx) x (named_node size nm) F)).
Proof using MS.
  intros W Hctx. unfold _talloc_named_const.
  destruct (talloc_st s F ctx size W Hctx) as [[E Hf]|(x & E & Hsz & Hm & Hx0 & Hx & W1)]; rewrite (bind_some _ _ _ _ _ E).
  - left. split; [done|exact Hf].
  - right. exists x. rewrite set_true by lia. cbn [negb].
    assert (x <> context s ctx) as Hxo.
    { intros Ec. destruct (Hctx) as (np & Hnp & _); [rewrite <- Ec; lia|]. congruence. }
    pose proof (lookup_new (context s ctx) x (fresh_node size) F Hxo) as Hl.
    unfold _talloc_set_name_const. rewrite bind_bind, (from_ptr_bind s _ x _ _ Hl).
    rewrite (bind_change s _ x (with_name nm) _ _ _ Hl) by done.
    pose proof (wf_change W1 Hl (f := with_name nm) ltac:(done)) as W2.
    rewrite alter_new in W2 |- *; done.
Qed.

(** The node of a handle. *)
Definition handle_node (t : Z) : node :=
  mk_node 0 [] [] Destructor_reference TALLOC_MAGIC_REFERENCE sizeof_handle false None (Released t).

Lemma reference_st s F ctx t nt : wf F -> good_context F (context s ctx) -> F !! t = Some nt -> (forall q, n_body nt <> Reference q) ->
  (_talloc_reference ctx t (st s F) = Some (0, st s F) /\ fails_to F sizeof_handle)
  \/ (exists h, let F' := refer h t (with_new (context s ctx) h (handle_node t) F) in
      _talloc_reference ctx t (st s F) = Some (t, st s F') /\ allocates F sizeof_handle h /\ wf F').
Proof using MS.
  intros W Hctx Ht Hnt. pose proof (wf_ne W t nt Ht) as Ht0. unfold _talloc_reference. rewrite set_true by done. cbn [negb].
  rewrite (from_ptr_bind s F t nt) by done.
  destruct (named_st s F ctx sizeof_handle TALLOC_MAGIC_REFERENCE W Hctx) as [[E Hf]|(h & E & Hal & W1)]; rewrite (bind_some _ _ _ _ _ E).
  - left. split; [done|exact Hf].
  - right. exists h. pose proof Hal as (_ & _ & Hh0 & Hh). rewrite set_true by lia. cbn [negb]. set (o := context s ctx) in *.
    assert (h <> o) as Hho by (intros Ec; destruct Hctx as (np & Hnp & _); [rewrite <- Ec; lia|congruence]).
    assert (h <> t) as Hht by congruence.
    pose proof (lookup_new o h (named_node sizeof_handle TALLOC_MAGIC_REFERENCE) F Hho) as Hl.
    unfold _talloc_set_destructor. rewrite bind_bind, (from_ptr_bind s _ h _ _ Hl).
    rewrite (bind_dtor s _ h Destructor_reference _ _ Hl). pose proof (wf_change W1 Hl (with_dtor_plain Destructor_reference _)) as W2.
    rewrite alter_new in W2 |- * by done. clear Hl.
    pose proof (lookup_new o h (with_dtor Destructor_reference (named_node sizeof_handle TALLOC_MAGIC_REFERENCE)) F Hho) as Hl.
    assert (forall n, n_body (if o =? 0 then n else attach_node o h h n) = n_body n) as Hbd by (intros n; by destruct (o =? 0)).
    match type of Hl with _ = Some ?n => assert (plain_change (with_body (Released t)) n) as Hpc end.
    { split; try done. intros q. rewrite Hbd. done. }
    rewrite (bind_change s _ h (with_body (Released t)) _ _ _ Hl Hpc) by done.
    pose proof (wf_change W2 Hl Hpc) as W3. rewrite alter_new in W3 |- * by done. clear Hl Hpc.
    change (with_body (Released t) (with_dtor Destructor_reference (named_node sizeof_handle TALLOC_MAGIC_REFERENCE))) with (handle_node t) in *.
    pose proof (lookup_new o h (handle_node t) F Hho) as Hl.
    assert (exists nt', with_new o h (handle_node t) F !! t = Some nt' /\ forall q, n_body nt' <> Reference q) as (nt' & Ht' & Hnt').
    { rewrite lookup_new_other, Ht by done. eexists. split; [done|]. done. }
    assert (n_body (if o =? 0 then handle_node t else attach_node o h h (handle_node t)) = Released t) as Hbody by (by rewrite Hbd).
    assert (n_kids (if o =? 0 then handle_node t else attach_node o h h (handle_node t)) = []
      /\ n_refs (if o =? 0 then handle_node t else attach_node o h h (handle_node t)) = []) as [Hk Hr].
    { destruct (o =? 0); [done|]. simpl. by rewrite (proj2 (Z.eqb_neq h o)). }
    rewrite (bind_some _ _ _ _ _ (refer_run W3 Hl Ht' Hht Hbody Hnt' s)). split; [done|]. split; [done|].
    apply (wf_refer W3 Hl Ht' Hht Hbody Hk Hr Hnt').
Qed.
End api.
