(* ===== verification/TallocSpec.v ===== *)
(** * Talloc: what the calls promise

    A program that uses talloc within its contract ([allowed]) works on a forest:
    the relation [does] says what each call does to it and answers, and
    [talloc_refines_forest] that the code does that. *)

From S2P Require Import Prelude Talloc TallocRep TallocOps TallocFree TallocTree TallocApi.

Section spec.
Context {M : Malloc} {MS : MallocSpec M} (user_destructor : Z -> Z -> T Z).

(** The destructors of the users do not touch the memory; [verdict] says which of
    them refuse. *)
Context (verdict : Z -> Z -> bool).
Context (pure_destructors : forall d x s, exists r, user_destructor d x s = Some (r, s) /\ (r =? -1) = verdict d x).

(** ** The invariant between calls *)

Record inv (s : state) (F : forest) : Prop := {
  iv_wf : wf F;
  iv_calm : calm F;
  iv_handle h n t : F !! h = Some n -> n_body n = Reference t -> n_dtor n = Destructor_reference;
  iv_dtor x n : F !! x = Some n -> match n_dtor n with
                                   | Destructor_null | Destructor_user _ => True
                                   | Destructor_reference => exists t, n_body n = Reference t
                                   | Destructor_running | Destructor_autofree => False
                                   end;
  iv_null : null_context s <> 0 -> exists n, F !! null_context s = Some n /\ n_parent n = 0 /\ forall t, n_body n <> Reference t
}.

(** Whether the destructor of a chunk refuses. *)
Definition refuses (F : forest) (x : Z) : bool :=
  match F !! x with
  | Some n => match n_dtor n with Destructor_user d => verdict d x | _ => false end
  | None => false
  end.

(** A chunk of the user: it is no handle. *)
Definition is_chunk (F : forest) (x : Z) : Prop := exists n, F !! x = Some n /\ forall t, n_body n <> Reference t.

(** Nobody refers to the chunk, so it goes with its parent. *)
Definition unreferenced (F : forest) (x : Z) : Prop := handles F x = [].

Definition owner (s : state) (F : forest) (x : Z) : Z := context s (from_option n_parent 0 (F !! x)).

Lemma inv_ready s F x n : inv s F -> F !! x = Some n -> n_refs n = [] -> ready user_destructor (refuses F) x n.
Proof using pure_destructors.
  intros I Hx Hr. destruct (iv_calm _ _ I x n Hx). split; try done.
  - intros t. by apply (iv_handle _ _ I x).
  - pose proof (iv_dtor _ _ I x n Hx) as Hd. unfold refuses. rewrite Hx. by destruct (n_dtor n).
Qed.

Lemma calm_prune F p D K : calm F -> calm (prune F p D K).
Proof using.
  intros Hc z m. rewrite lookup_prune. destruct (bool_decide _); [done|]. intros (n & Hn & ->)%fmap_Some. by apply (Hc z n).
Qed.

Lemma inv_prune s F p D K : inv s F -> wf (prune F p D K) -> null_context s ∉ D -> null_context s ∉ K -> inv s (prune F p D K).
Proof using.
  intros I W HD HK. split; [done|apply calm_prune, I| | |].
  - intros h m t. rewrite lookup_prune. destruct (bool_decide _); [done|]. intros (n & Hn & ->)%fmap_Some. by apply (iv_handle _ _ I h n t).
  - intros x m. rewrite lookup_prune. destruct (bool_decide _); [done|]. intros (n & Hn & ->)%fmap_Some. by apply (iv_dtor _ _ I x n).
  - intros H0. destruct (iv_null _ _ I H0) as (n & Hn & Hp & Hb). rewrite lookup_prune, bool_decide_eq_false_2, Hn by done.
    eexists. split; [done|]. simpl. by rewrite bool_decide_eq_false_2.
Qed.

Lemma good_owner s F x n : inv s F -> F !! x = Some n -> good_context F (context s (n_parent n)).
Proof using.
  intros I Hx H0. unfold context in *. destruct (Z.eqb_spec (n_parent n) 0) as [E|E].
  - destruct (iv_null _ _ I H0) as (m & Hm & _ & Hb). by exists m.
  - pose proof (iv_wf _ _ I) as W. destruct (parent_in W x n Hx E) as [m Hm]. exists m. split; [done|]. intros t Hb.
    destruct (wf_handle F W _ m t Hm Hb) as [Hk _]. pose proof (wf_parent F W x n Hx E) as Hin. rewrite (kids_lookup F _ m Hm), Hk in Hin.
    by apply not_elem_of_nil in Hin.
Qed.

(** The owner of a chunk is not below it, when the chunk is not above the null context. *)
Lemma owner_above s F x n t y : inv s F -> F !! x = Some n -> root t = x -> shape F [t] -> null_context s ∉ addrs [t] -> y ∈ addrs [t] ->
  ~ below F (context s (n_parent n)) y.
Proof using.
  intros I Hx Hr Hs Hnull Hy Hb. pose proof (iv_wf _ _ I) as W. pose proof (addrs_below F t y W Hs Hy) as Hyx. rewrite Hr in Hyx.
  unfold context in Hb. destruct (Z.eqb_spec (n_parent n) 0) as [E|E].
  - assert (null_context s <> 0) as H0 by (intros H0; rewrite H0 in Hb; destruct (below_in _ _ _ Hb) as [[m Hm] _]; by apply (wf_ne W 0 m) in Hm).
    destruct (iv_null _ _ I H0) as (m & Hm & Hp & _). destruct (path_exists F (null_context s) W) as [l Hl]; [by eexists|].
    assert (l = [null_context s]) as -> by (inversion Hl; subst; congruence). apply (below_path F _ _ y W Hl) in Hb. apply list_elem_of_singleton in Hb.
    congruence.
  - assert (below F x y) as Hxy by (by apply (below_step F x n)). pose proof (below_antisym F _ _ W Hxy Hyx) as <-.
    apply (not_own_parent W x n Hx). apply (below_antisym F _ _ W); [done|]. apply (below_step F x n); [done|]. apply below_refl.
    by apply (parent_in W x n).
Qed.

(** ** Freeing *)

(** [t] is the tree of a chunk to which nobody refers, nor to the chunks below. *)
Record free_tree (s : state) (F : forest) (x : Z) (t : tree) : Prop := {
  ft_root : root t = x;
  ft_shape : shape F [t];
  ft_refs y : y ∈ addrs [t] -> unreferenced F y;
  ft_null : null_context s ∉ addrs [t]
}.

Lemma tree_nodup F t : wf F -> shape F [t] -> NoDup (addrs [t]).
Proof using.
  intros W Hs. assert (is_Some (F !! root t)) as Hx by (apply (shape_in F [t]); [done|apply root_in; left]).
  destruct (tree_exists F (root t) W Hx) as (u & Hu & Hsu & Hnd). enough (u = t) as <- by done. clear Hnd Hx. revert u Hu Hs Hsu.
  revert t. apply (tree_ind' (fun t => forall u, root u = root t -> shape F [t] -> shape F [u] -> u = t)).
  intros x ts IH [x' us] E Hs Hu. simpl in E. subst x'. f_equal. apply shape_cons in Hs as ((n & Hn & Hk) & Hs & _).
  apply shape_cons in Hu as ((n' & Hn' & Hk') & Hu & _). assert (n' = n) as -> by congruence. rewrite Hk in Hk'. clear Hn Hn' Hk n.
  revert us Hk' Hu. induction IH as [|t ts Ht _ IHts]; intros [|u us] Hk' Hu; try done. simpl in Hk'. injection Hk' as E Hk'.
  change (t :: ts) with ([t] ++ ts) in Hs. change (u :: us) with ([u] ++ us) in Hu. apply shape_app in Hs as [Hs1 Hs2]. apply shape_app in Hu as [Hu1 Hu2].
  f_equal; [by apply Ht|by apply IHts].
Qed.

Lemma free_tree_pre s F x t n : inv s F -> F !! x = Some n -> free_tree s F x t ->
  free_pre user_destructor (refuses F) s F (context s (n_parent n)) t.
Proof using pure_destructors.
  intros I Hx [Hr Hs Href Hnull]. pose proof (iv_wf _ _ I) as W. split; try done.
  - by apply (tree_nodup F).
  - intros y m Hy Hm. apply (inv_ready s); [done|done|]. rewrite <- (handles_lookup F y m Hm). by apply Href.
  - intros m Hm. congruence.
  - by apply (good_owner s F x n).
  - intros y Hy. by apply (owner_above s F x n t).
Qed.

Lemma size_prune F p D K : (size (prune F p D K) <= size F)%nat.
Proof using.
  rewrite <- !size_dom. apply subseteq_size. intros x. rewrite !elem_of_dom, lookup_prune. destruct (bool_decide _); [by intros []|].
  by rewrite fmap_is_Some.
Qed.

(** A handle goes. *)
Definition drop_handle (h : Z) (F : forest) : forest := prune F 0 [h] [].

Lemma prune_handle F o h : prune F o [h] [] = drop_handle h F.
Proof using.
  apply map_eq. intros z. unfold drop_handle. rewrite !lookup_prune. destruct (bool_decide _); [done|]. destruct (F !! z); [|done]. simpl. f_equal.
  unfold prune_node. f_equal. by destruct (z =? o), (z =? 0).
Qed.

Lemma handle_tree s F h n t : inv s F -> F !! h = Some n -> n_body n = Reference t -> free_tree s F h (Node h []).
Proof using.
  intros I Hh Hb. destruct (wf_handle F (iv_wf _ _ I) h n t Hh Hb) as [Hk Hr]. split; [done| | |].
  - apply shape_cons. split; [by exists n|]. split; by intros ?? ?%not_elem_of_nil.
  - intros y Hy. change (y ∈ [h]) in Hy. apply list_elem_of_singleton in Hy as ->. unfold unreferenced. by rewrite (handles_lookup F h n Hh).
  - intros Hin. change (null_context s ∈ [h]) in Hin. apply list_elem_of_singleton in Hin. destruct (iv_null _ _ I) as (m & Hm & _ & Hnb); [rewrite Hin; by apply (wf_ne (iv_wf _ _ I) h n)|].
    apply (Hnb t). congruence.
Qed.

Lemma free_handle_st s F h n t fuel : inv s F -> F !! h = Some n -> n_body n = Reference t -> (2 <= fuel)%nat ->
  free_chunk user_destructor fuel h (st s F) = Some (0, st s (drop_handle h F)) /\ inv s (drop_handle h F).
Proof using pure_destructors.
  intros I Hh Hb Hf. pose proof (handle_tree s F h n t I Hh Hb) as Ht.
  destruct (proj1 (free_all user_destructor (refuses F) fuel) s F _ (Node h []) (free_tree_pre s F h _ n I Hh Ht)) as [Hrun W]; [done|].
  assert (refuses F h = false) as Hrf by (unfold refuses; by rewrite Hh, (iv_handle _ _ I h n t)).
  unfold freed in *. simpl in *. rewrite Hrf in *. simpl in *. change (map root (reverse [])) with (@nil Z) in *. rewrite prune_handle in *.
  split; [done|]. apply inv_prune; [done|done| |apply not_elem_of_nil]. apply (ft_null _ _ _ _ Ht).
Qed.

(** What [talloc_free] answers and leaves.  While somebody refers to the chunk the
    newest handle goes, and the chunk stays unless the handle was below it. *)
Inductive frees (s : state) : forest -> Z -> Z -> forest -> Prop :=
  | frees_tree F x t : free_tree s F x t ->
      frees s F x (if refuses F x then -1 else 0) (freed (refuses F) F (owner s F x) t)
  | frees_handle F x h hs : handles F x = h :: hs -> ~ below F h x -> frees s F x (-1) (drop_handle h F)
  | frees_cycle F x h hs r F' : handles F x = h :: hs -> below F h x ->
      frees s (drop_handle h F) x r F' -> frees s F x r F'.

Lemma addrs_outs_in ref t y : y ∈ gone ref t \/ y ∈ map root (outs ref t) -> y ∈ addrs [t].
Proof using.
  intros Hy. rewrite (gone_outs ref t), elem_of_app. destruct Hy as [?|Hy]; [by left|right].
  apply list_elem_of_fmap in Hy as (u & -> & Hu). by apply root_in.
Qed.

Lemma drop_lookup F h x n : F !! x = Some n -> x <> h -> exists n', drop_handle h F !! x = Some n' /\ n_parent n' = n_parent n
  /\ n_refs n' = filter (fun y => y ∉ [h]) (n_refs n) /\ n_body n' = n_body n /\ n_stale n' = n_stale n.
Proof using.
  intros Hx Hne. unfold drop_handle. rewrite lookup_prune, bool_decide_eq_false_2, Hx by (by intros ?%list_elem_of_singleton).
  eexists. split; [done|]. done.
Qed.

Lemma head_handle s F x n h hs : inv s F -> F !! x = Some n -> handles F x = h :: hs ->
  exists m, F !! h = Some m /\ n_body m = Reference x /\ h <> x /\ n_refs n = h :: hs.
Proof using.
  intros I Hx Hh. assert (h ∈ handles F x) as Hin by (rewrite Hh; left). destruct (in_handles (iv_wf _ _ I) x h Hin) as (m & Hm & Hb).
  exists m. do 2 (split; [done|]). rewrite (handles_lookup F x n Hx) in Hh. split; [|done].
  intros ->. destruct (wf_handle F (iv_wf _ _ I) x m x Hm Hb) as [_ Hr]. congruence.
Qed.

Lemma free_refs_st s F x n h hs fuel : inv s F -> F !! x = Some n -> handles F x = h :: hs -> (2 <= fuel)%nat -> forall l, path F h l ->
  free_chunk user_destructor (S fuel) x (st s F) =
    (if bool_decide (x ∈ l) then free_chunk user_destructor fuel x (st s (drop_handle h F)) else Some (-1, st s (drop_handle h F)))
  /\ inv s (drop_handle h F).
Proof using pure_destructors.
  intros I Hx Hh Hf l Hl. destruct (head_handle s F x n h hs I Hx Hh) as (m & Hm & Hb & Hhx & Hr). pose proof (iv_wf _ _ I) as W.
  destruct (free_handle_st s F h m x fuel I Hm Hb Hf) as [Hfree I2]. split; [|done].
  cbn [free_chunk]. rewrite set_true by (by apply (wf_ne W x n)). cbn [negb]. rewrite (from_ptr_bind s F x n), conc_refs, Hr by done. cbn [hd].
  rewrite set_true by (by apply (wf_ne W h m)).
  rewrite (bind_some _ _ _ _ _ (is_parent_st s F h x m l W (iv_calm _ _ I) Hm Hl (wf_ne W x n Hx))), (bind_some _ _ _ _ _ Hfree).
  by case_bool_decide.
Qed.

Lemma frees_ok s F x r F' : frees s F x r F' -> inv s F -> is_Some (F !! x) -> forall fuel,
  (2 * size F + 3 + length (handles F x) <= fuel)%nat ->
  free_chunk user_destructor fuel x (st s F) = Some (r, st s F') /\ inv s F'.
Proof using pure_destructors.
  induction 1 as [F x t Ht|F x h hs Hh Hb|F x h hs r F' Hh Hb _ IH]; intros I [n Hx] fuel Hf.
  - pose proof (free_tree_pre s F x t n I Hx Ht) as Hpre. destruct (proj1 (free_all user_destructor (refuses F) fuel) s F _ t Hpre) as [Hrun W].
    { pose proof (length_nodes F t (ft_shape _ _ _ _ Ht) (fp_nodup _ _ _ _ _ _ Hpre)). lia. }
    unfold owner. rewrite Hx. simpl. pose proof (ft_root _ _ _ _ Ht) as Hr. rewrite Hr in Hrun. split; [done|].
    unfold freed in *. rewrite Hr in *. destruct (refuses F x); [done|]. pose proof (ft_null _ _ _ _ Ht) as Hn.
    apply inv_prune; [done|done| |]; intros Hin; apply Hn, (addrs_outs_in (refuses F)); auto.
  - pose proof (iv_wf _ _ I) as W. destruct (head_handle s F x n h hs I Hx Hh) as (m & Hm & _). destruct (path_exists F h W) as [l Hl]; [by eexists|].
    destruct fuel as [|fuel]; [lia|]. destruct (free_refs_st s F x n h hs fuel I Hx Hh ltac:(lia) l Hl) as [-> I2]. split; [|done].
    rewrite bool_decide_eq_false_2; [done|]. intros Hin. apply Hb. by apply (below_path F h l).
  - pose proof (iv_wf _ _ I) as W. destruct (head_handle s F x n h hs I Hx Hh) as (m & Hm & _ & Hhx & Hr). destruct (path_exists F h W) as [l Hl]; [by eexists|].
    destruct fuel as [|fuel]; [lia|]. destruct (free_refs_st s F x n h hs fuel I Hx Hh ltac:(lia) l Hl) as [-> I2].
    rewrite bool_decide_eq_true_2 by (by apply (below_path F h l)).
    destruct (drop_lookup F h x n Hx) as (n' & Hx' & _ & Hr' & _); [congruence|]. apply IH; [done|by eexists|].
    rewrite (handles_lookup _ x n' Hx'), Hr', Hr, filter_cons_False by (intros H; apply H; left).
    assert (length (filter (fun y => y ∉ [h]) hs) <= length hs)%nat by apply length_filter.
    pose proof (size_prune F 0 [h] []). unfold drop_handle. rewrite Hh in Hf. simpl in Hf. lia.
Qed.

Lemma handles_length F x : wf F -> (length (handles F x) <= size F)%nat.
Proof using.
  intros W. apply length_le_size; [by apply (handles_plist W)|]. intros h Hh. destruct (in_handles W x h Hh) as (m & ? & _). by eexists.
Qed.

Lemma talloc_free_st s F x r F' : frees s F x r F' -> inv s F -> is_Some (F !! x) ->
  _talloc_free user_destructor x (st s F) = Some (r, st s F') /\ inv s F'.
Proof using pure_destructors.
  intros H I Hx. unfold _talloc_free, t_fuel. rewrite bind_get, enough_st. apply (frees_ok s F x r F' H I Hx).
  pose proof (handles_length F x (iv_wf _ _ I)). assert (1 <= size F)%nat; [|lia].
  destruct Hx as [n Hx]. apply (length_le_size F [x]); [apply NoDup_singleton|]. intros y ->%list_elem_of_singleton. by eexists.
Qed.

(** The trees below a chunk that can be freed. *)
Record free_forest (s : state) (F : forest) (x : Z) (ts : list tree) : Prop := {
  ff_shape : shape F [Node x ts];
  ff_refs y : y ∈ addrs ts -> unreferenced F y;
  ff_null : null_context s ∉ addrs [Node x ts]
}.

Lemma talloc_free_children_st s F x ts : free_forest s F x ts -> inv s F -> is_Some (F !! x) ->
  let F' := prune F (owner s F x) (gone_of (refuses F) ts) (map root (outs_of (refuses F) ts)) in
  talloc_free_children user_destructor x (st s F) = Some (tt, st s F') /\ inv s F'.
Proof using pure_destructors.
  intros [Hs Href Hnull] I [n Hx] F'. pose proof (iv_wf _ _ I) as W. destruct (iv_calm _ _ I x n Hx) as [_ Hst].
  destruct (proj1 (shape_cons F x ts []) Hs) as ((n' & Hn' & Hk) & Hts & _). assert (n' = n) as -> by congruence.
  pose proof (tree_nodup F _ W Hs) as Hnd. pose proof Hnd as Hnd'. rewrite addrs_cons in Hnd'. change (addrs []) with (@nil Z) in Hnd'.
  rewrite app_nil_r in Hnd'. apply NoDup_cons in Hnd' as [Hxt Hnt].
  assert (forall y, y ∈ addrs ts -> y ∈ addrs [Node x ts]) as Hsub by (intros y Hy; rewrite addrs_cons, elem_of_cons, elem_of_app; tauto).
  assert (x ∈ addrs [Node x ts]) as Hxa by (rewrite addrs_cons; left).
  assert (loop_pre user_destructor (refuses F) s F x (n_parent n) (context s (n_parent n)) ts) as L.
  { split; try done.
    - by exists n.
    - intros y m Hy Hm. apply (inv_ready s); [done|done|]. rewrite <- (handles_lookup F y m Hm). by apply Href.
    - exists n. split; [done|]. by rewrite Hst.
    - by apply (good_owner s F x n).
    - intros E. apply (owner_above s F x n (Node x ts) x I Hx eq_refl Hs Hnull Hxa). rewrite E. apply below_refl. by eexists.
    - intros y Hy. apply (owner_above s F x n (Node x ts) y I Hx eq_refl Hs Hnull). by apply Hsub.
    - intros y Hy Hb. pose proof (addrs_below F (Node x ts) y W Hs (Hsub y Hy)) as Hyx. simpl in Hyx.
      pose proof (below_antisym F _ _ W Hb Hyx) as <-. done. }
  unfold talloc_free_children. rewrite set_true by (by apply (wf_ne W x n)). cbn [negb]. rewrite (from_ptr_bind s F x n) by done.
  unfold t_fuel. rewrite bind_get, enough_st. assert (owner s F x = context s (n_parent n)) as Eo by (unfold owner; by rewrite Hx).
  unfold F'. rewrite Eo.
  destruct (proj2 (free_all user_destructor (refuses F) (4 * size F + 4)) s F x _ _ ts L) as [Hrun W'].
  { assert (length (nodes_of ts) <= size F)%nat; [|lia]. rewrite <- (length_map fst). apply length_le_size; [done|]. intros y. by apply shape_in. }
  split; [done|]. apply inv_prune; [done|done| |]; intros Hin; apply Hnull, Hsub, (gone_or_root (refuses F)); auto.
Qed.

(** ** Removing one owner *)

(** The newest handle to [x] that [o] owns. *)
Definition handle_of (F : forest) (o x : Z) : option Z :=
  List.find (fun h => from_option n_parent 0 (F !! h) =? o) (handles F x).

Lemma find_handle_st s F x o fuel k : inv s F -> (length (handles F x) - k < fuel)%nat ->
  find_handle o fuel (default 0 (handles F x !! k)) (st s F) =
  Some (default 0 (List.find (fun h => from_option n_parent 0 (F !! h) =? o) (drop k (handles F x))), st s F).
Proof using.
  intros I. pose proof (iv_wf _ _ I) as W. revert k. induction fuel as [|fuel IH]; intros k Hf; [lia|]. cbn [find_handle].
  destruct (handles F x !! k) as [h|] eqn:Hk; simpl default.
  - pose proof (list_elem_of_lookup_2 _ _ _ Hk) as Hin. destruct (in_handles W x h Hin) as (m & Hm & Hb).
    rewrite set_true by (by apply (wf_ne W h m)). cbn [negb]. destruct (iv_calm _ _ I h m Hm) as [_ Hst].
    rewrite (bind_some _ _ _ _ _ (parent_st s F h m W Hm Hst)), (drop_S _ h k Hk). cbn [List.find]. rewrite Hm. cbn [from_option].
    destruct (n_parent m =? o); [done|]. rewrite (bind_some _ _ _ _ _ (handle_st s F x h m Hm Hb)). cbn [h_next].
    rewrite (handle_next_lookup _ k h (handles_plist W x) Hk). apply IH. pose proof (lookup_lt_Some _ _ _ Hk). lia.
  - apply lookup_ge_None in Hk. rewrite drop_ge by done. done.
Qed.

Lemma handle_of_in F o x h : handle_of F o x = Some h -> h ∈ handles F x /\ from_option n_parent 0 (F !! h) = o.
Proof using. intros H. apply List.find_some in H as [H1 H2%Z.eqb_eq]. split; [by apply list_elem_of_In|done]. Qed.

Lemma unreference_st s F ctx x : inv s F -> is_Some (F !! x) ->
  match handle_of F (context s ctx) x with
  | Some h => talloc_unreference user_destructor ctx x (st s F) = Some (0, st s (drop_handle h F)) /\ inv s (drop_handle h F)
  | None => talloc_unreference user_destructor ctx x (st s F) = Some (-1, st s F)
  end.
Proof using pure_destructors.
  intros I [n Hx]. pose proof (iv_wf _ _ I) as W. pose proof (handles_length F x W) as Hlen.
  assert (t_fuel (fun fuel => find_handle (context s ctx) fuel (hd 0 (n_refs n))) (st s F) = Some (default 0 (handle_of F (context s ctx) x), st s F)) as Hfind.
  { unfold t_fuel. rewrite bind_get, enough_st. assert (hd 0 (n_refs n) = default 0 (handles F x !! 0%nat)) as ->
      by (rewrite (handles_lookup F x n Hx); by destruct (n_refs n)). rewrite find_handle_st by (done || lia). done. }
  unfold talloc_unreference. destruct (handle_of F (context s ctx) x) as [h|] eqn:Eh;
    rewrite (from_ptr_bind s F x n), (bind_some _ _ _ _ _ (context_of_st s F ctx)), conc_refs, (bind_some _ _ _ _ _ Hfind) by done; [|done].
  destruct (handle_of_in _ _ _ _ Eh) as [Hin _]. destruct (in_handles W x h Hin) as (m & Hm & Hb). simpl default.
  rewrite set_true by (by apply (wf_ne W h m)). cbn [negb]. unfold _talloc_free, t_fuel. rewrite bind_get, enough_st.
  apply (free_handle_st s F h m x); [done|done|done|lia].
Qed.

(** What [talloc_unlink] answers and leaves. *)
Inductive unlinks (s : state) (F : forest) (o x : Z) : Z -> forest -> Prop :=
  | unlinks_handle h : handle_of F o x = Some h -> unlinks s F o x 0 (drop_handle h F)
  | unlinks_other n : handle_of F o x = None -> F !! x = Some n -> n_parent n <> o -> unlinks s F o x (-1) F
  | unlinks_last n r F' : handle_of F o x = None -> F !! x = Some n -> n_parent n = o -> handles F x = [] -> frees s F x r F' ->
      unlinks s F o x r F'
  | unlinks_moved n h hs np : handle_of F o x = None -> F !! x = Some n -> n_parent n = o -> handles F x = h :: hs ->
      F !! h = Some np -> n_parent np <> 0 \/ null_context s = 0 -> ~ below F (n_parent np) x -> null_context s <> x ->
      unlinks s F o x 0 (prune (drop_handle h F) (n_parent np) [] [x]).

Lemma inv_steal s F q x n : inv s F -> F !! x = Some n ->
  good_context F (context s q) -> ~ below F (context s q) x -> null_context s <> x ->
  _talloc_steal q x (st s F) = Some (x, st s (prune F (context s q) [] [x])) /\ inv s (prune F (context s q) [] [x]).
Proof using.
  intros I Hx Hg Hb Hnull. destruct (iv_calm _ _ I x n Hx) as [_ Hst].
  destruct (steal_context s F q x n (iv_wf _ _ I) Hx Hst) as [Hrun W]; [by split|]. split; [done|].
  apply inv_prune; [done|done|apply not_elem_of_nil|by intros ?%list_elem_of_singleton].
Qed.

Lemma below_drop s F h n t y a : inv s F -> F !! h = Some n -> n_body n = Reference t -> below (drop_handle h F) y a -> below F y a.
Proof using. intros I Hh Hb. apply below_prune. by intros k ?%not_elem_of_nil. Qed.

Lemma unlink_call s F ctx x r F' : unlinks s F (context s ctx) x r F' -> inv s F -> is_chunk F x ->
  (context s ctx <> 0 -> is_Some (F !! context s ctx)) ->
  talloc_unlink user_destructor ctx x (st s F) = Some (r, st s F') /\ inv s F'.
Proof using pure_destructors.
  intros Hu I (n & Hx & Hnb) Hctx. pose proof (iv_wf _ _ I) as W. unfold talloc_unlink. rewrite set_true by (by apply (wf_ne W x n)). cbn [negb].
  rewrite (bind_some _ _ _ _ _ (context_of_st s F ctx)). set (o := context s ctx) in *.
  assert (context s o = o) as Eo by (unfold o, context; destruct (Z.eqb_spec ctx 0) as [->|E]; [by destruct (Z.eqb_spec (null_context s) 0)|by rewrite (proj2 (Z.eqb_neq ctx 0))]).
  pose proof (unreference_st s F o x I ltac:(by eexists)) as Hun. rewrite Eo in Hun.
  assert (handle_of F o x = None -> forall A (k : Z -> T A),
    (do! (if set o then do! talloc_chunk_from_ptr o; t_ret tt else t_ret tt); do p <- talloc_parent_chunk x; k p) (st s F) = k (n_parent n) (st s F)) as Hpar.
  { intros _ A k. destruct (iv_calm _ _ I x n Hx) as [_ Hst]. destruct (set_spec o) as [Ho|Ho].
    - destruct (Hctx Ho) as [no Hno]. rewrite bind_bind, (from_ptr_bind s F o no), bind_ret by done. by rewrite (bind_some _ _ _ _ _ (parent_st s F x n W Hx Hst)).
    - rewrite bind_ret. by rewrite (bind_some _ _ _ _ _ (parent_st s F x n W Hx Hst)). }
  destruct Hu as [h Eh|n' Eh Hx' Hne|n' r F' Eh Hx' He Hr Hfr|n' h hs np Eh Hx' He Hr Hh Hnp Hb Hnull];
    rewrite Eh in Hun; try (assert (n' = n) as -> by congruence).
  - destruct Hun as [Hun I2]. by rewrite (bind_some _ _ _ _ _ Hun).
  - rewrite (bind_some _ _ _ _ _ Hun). change (-1 =? 0) with false. cbn iota. rewrite (Hpar Eh), (proj2 (Z.eqb_neq _ _) Hne). done.
  - rewrite (bind_some _ _ _ _ _ Hun). change (-1 =? 0) with false. cbn iota. rewrite (Hpar Eh), (proj2 (Z.eqb_eq _ _) He). cbn [negb].
    rewrite (from_ptr_bind s F x n), conc_refs by done. rewrite (handles_lookup F x n Hx) in Hr. rewrite Hr. cbn [hd set Z.eqb negb].
    apply talloc_free_st; [done|done|by eexists].
  - rewrite (bind_some _ _ _ _ _ Hun). change (-1 =? 0) with false. cbn iota. rewrite (Hpar Eh), (proj2 (Z.eqb_eq _ _) He). cbn [negb].
    destruct (head_handle s F x n h hs I Hx Hr) as (m & Hm & Hbm & Hhx & Hrn). assert (m = np) as -> by congruence.
    rewrite (from_ptr_bind s F x n), conc_refs, Hrn by done. cbn [hd]. rewrite set_true by (by apply (wf_ne W h np)). cbn [negb].
    destruct (iv_calm _ _ I h np Hh) as [_ Hst]. rewrite (bind_some _ _ _ _ _ (parent_st s F h np W Hh Hst)).
    assert (context s (n_parent np) = n_parent np) as Ec by (unfold context; destruct (Z.eqb_spec (n_parent np) 0) as [E|]; [|done]; destruct Hnp; congruence).
    pose proof (unreference_st s F (n_parent np) x I ltac:(by eexists)) as Hun2. rewrite Ec in Hun2.
    assert (handle_of F (n_parent np) x = Some h) as Eh2 by (unfold handle_of; rewrite Hr; cbn [List.find]; rewrite Hh; simpl; by rewrite Z.eqb_refl).
    rewrite Eh2 in Hun2. destruct Hun2 as [Hun2 I2]. rewrite (bind_some _ _ _ _ _ Hun2). change (0 =? 0) with true. cbn [negb].
    destruct (drop_lookup F h x n Hx) as (n2 & Hx2 & _); [congruence|].
    destruct (inv_steal s (drop_handle h F) (n_parent np) x n2 I2 Hx2) as [Hsteal I3]; [| |done|].
    + rewrite Ec. intros H0. pose proof (good_owner s F h np I Hh) as Hg. rewrite Ec in Hg. destruct (Hg H0) as (mp & Hmp & Hmb).
      assert (n_parent np <> h) as Hph by (by apply (not_own_parent W h np)).
      destruct (drop_lookup F h _ mp Hmp Hph) as (mp' & ? & _ & _ & E & _). exists mp'. split; [done|]. by rewrite E.
    + rewrite Ec. intros Hb'. apply Hb. by apply (below_drop s F h np x).
    + rewrite (bind_some _ _ _ _ _ Hsteal). rewrite Ec in I3 |- *. done.
Qed.

(** ** Programs *)

Inductive op : Set :=
  | Op_alloc (ctx size : Z) (nm : name_ptr)
  | Op_reference (ctx x : Z)
  | Op_steal (ctx x : Z)
  | Op_set_destructor (x : Z) (d : option Z)
  | Op_free (x : Z)
  | Op_free_children (x : Z)
  | Op_unlink (ctx x : Z)
  | Op_parent (x : Z)
  | Op_is_parent (x p : Z)
  | Op_reference_count (x : Z)
  | Op_total_blocks (x : Z)
  | Op_total_size (x : Z)
  | Op_get_size (x : Z)
  | Op_null_tracking.

Definition destructor_of (d : option Z) : talloc_destructor_t :=
  match d with Some d => Destructor_user d | None => Destructor_null end.

Definition run_op (o : op) : T Z :=
  match o with
  | Op_alloc ctx size nm => talloc_named_const ctx size nm
  | Op_reference ctx x => _talloc_reference ctx x
  | Op_steal ctx x => _talloc_steal ctx x
  | Op_set_destructor x d => do! _talloc_set_destructor x (destructor_of d); t_ret 0
  | Op_free x => talloc_free user_destructor x
  | Op_free_children x => do! talloc_free_children user_destructor x; t_ret 0
  | Op_unlink ctx x => talloc_unlink user_destructor ctx x
  | Op_parent x => talloc_parent x
  | Op_is_parent x p => talloc_is_parent x p
  | Op_reference_count x => talloc_reference_count x
  | Op_total_blocks x => talloc_total_blocks x
  | Op_total_size x => talloc_total_size x
  | Op_get_size x => talloc_get_size x
  | Op_null_tracking => do! talloc_enable_null_tracking; t_ret 0
  end.

(** The contract: what a caller has to see to. *)
Definition allowed (s : state) (F : forest) (o : op) : Prop :=
  match o with
  | Op_alloc ctx size nm => good_context F (context s ctx)
  | Op_reference ctx x => good_context F (context s ctx) /\ is_chunk F x
  | Op_steal ctx x => good_context F (context s ctx) /\ is_chunk F x /\ ~ below F (context s ctx) x /\ null_context s <> x
  | Op_set_destructor x d => is_chunk F x
  | Op_free x => is_chunk F x /\ exists r F', frees s F x r F'
  | Op_free_children x => is_chunk F x /\ exists ts, free_forest s F x ts
  | Op_unlink ctx x => is_chunk F x /\ (context s ctx <> 0 -> is_Some (F !! context s ctx)) /\ exists r F', unlinks s F (context s ctx) x r F'
  | Op_is_parent x p => is_chunk F x /\ p <> 0
  | Op_parent x | Op_reference_count x | Op_total_blocks x | Op_total_size x | Op_get_size x => is_chunk F x
  | Op_null_tracking => True
  end.

Definition set_dtor (d : talloc_destructor_t) (x : Z) (F : forest) : forest := alter (with_dtor d) x F.

(** What a call answers, the new null context, and the new forest. *)
Inductive does (s : state) (F : forest) : op -> Z -> Z -> forest -> Prop :=
  | do_alloc ctx size nm x : allocates F size x ->
      does s F (Op_alloc ctx size nm) x (null_context s) (with_new (context s ctx) x (named_node size nm) F)
  | do_alloc_fail ctx size nm : fails_to F size -> does s F (Op_alloc ctx size nm) 0 (null_context s) F
  | do_reference ctx x h : allocates F sizeof_handle h ->
      does s F (Op_reference ctx x) x (null_context s) (refer h x (with_new (context s ctx) h (handle_node x) F))
  | do_reference_fail ctx x : fails_to F sizeof_handle -> does s F (Op_reference ctx x) 0 (null_context s) F
  | do_steal ctx x : does s F (Op_steal ctx x) x (null_context s) (prune F (context s ctx) [] [x])
  | do_set_destructor x d : does s F (Op_set_destructor x d) 0 (null_context s) (set_dtor (destructor_of d) x F)
  | do_free x r F' : frees s F x r F' -> does s F (Op_free x) r (null_context s) F'
  | do_free_children x ts : free_forest s F x ts ->
      does s F (Op_free_children x) 0 (null_context s) (prune F (owner s F x) (gone_of (refuses F) ts) (map root (outs_of (refuses F) ts)))
  | do_unlink ctx x r F' : unlinks s F (context s ctx) x r F' -> does s F (Op_unlink ctx x) r (null_context s) F'
  | do_parent x n : F !! x = Some n -> does s F (Op_parent x) (n_parent n) (null_context s) F
  | do_is_parent x p : below F x p -> does s F (Op_is_parent x p) 1 (null_context s) F
  | do_is_no_parent x p : ~ below F x p -> does s F (Op_is_parent x p) 0 (null_context s) F
  | do_reference_count x n : F !! x = Some n -> does s F (Op_reference_count x) (u64 (Z.of_nat (length (n_refs n)))) (null_context s) F
  | do_total_blocks x t : root t = x -> shape F [t] -> does s F (Op_total_blocks x) (u64 (weigh (fun _ => 1) F (addrs [t]))) (null_context s) F
  | do_total_size x t : root t = x -> shape F [t] -> does s F (Op_total_size x) (u64 (weigh n_size F (addrs [t]))) (null_context s) F
  | do_get_size x n : F !! x = Some n -> does s F (Op_get_size x) (n_size n) (null_context s) F
  | do_tracking_on : null_context s <> 0 -> does s F Op_null_tracking 0 (null_context s) F
  | do_tracking x : null_context s = 0 -> allocates F 0 x ->
      does s F Op_null_tracking 0 x (with_new 0 x (named_node 0 name_null_context) F)
  | do_tracking_fail : null_context s = 0 -> fails_to F 0 -> does s F Op_null_tracking 0 0 F.

(** A program goes on with the answers of its calls. *)
Inductive prog : Type :=
  | Done
  | Call (o : op) (k : Z -> prog).

Fixpoint run (p : prog) : T (list Z) :=
  match p with
  | Done => t_ret []
  | Call o k => do r <- run_op o; do l <- run (k r); t_ret (r :: l)
  end.

(** It keeps to the contract, whatever the calls answer. *)
Inductive safe (s : state) : forest -> Z -> prog -> Prop :=
  | safe_done F N : safe s F N Done
  | safe_call F N o k : allowed (set_null_context N s) F o ->
      (forall r N' F', does (set_null_context N s) F o r N' F' -> safe s F' N' (k r)) -> safe s F N (Call o k).

Inductive behaves (s : state) : forest -> Z -> prog -> list Z -> Z -> forest -> Prop :=
  | behaves_done F N : behaves s F N Done [] N F
  | behaves_call F N o k r N1 F1 l N2 F2 : does (set_null_context N s) F o r N1 F1 -> behaves s F1 N1 (k r) l N2 F2 ->
      behaves s F N (Call o k) (r :: l) N2 F2.

Lemma st_null s N F : set_null_context N (st s F) = st (set_null_context N s) F.
Proof using. done. Qed.

Lemma new_node_inv s F o x n : inv s F -> F !! x = None -> 0 < x -> x <> o -> o = 0 \/ is_Some (F !! o) -> n_loop n = false -> n_stale n = None ->
  n_parent n = 0 -> n_dtor n = Destructor_null -> (forall t, n_body n <> Reference t) -> wf (with_new o x n F) -> inv s (with_new o x n F).
Proof using.
  intros I Hx Hx0 Hxo Ho Hl Hs Hp Hd Hb W.
  assert (forall z m, with_new o x n F !! z = Some m -> exists m0, (if z =? x then Some n else F !! z) = Some m0 /\ n_loop m = n_loop m0
    /\ n_stale m = n_stale m0 /\ n_dtor m = n_dtor m0 /\ n_body m = n_body m0) as L.
  { intros z m Hz. destruct (Z.eqb_spec z x) as [->|Hne].
    - rewrite lookup_new in Hz by done. injection Hz as <-. exists n. split; [done|]. destruct (o =? 0); [done|]. simpl. by rewrite Z.eqb_refl, Hs.
    - rewrite lookup_new_other in Hz by done. apply fmap_Some in Hz as (m0 & Hm0 & ->). by exists m0. }
  split; [done| | | |].
  - intros z m Hz. destruct (L z m Hz) as (m0 & Hm0 & -> & -> & _). destruct (z =? x); [by injection Hm0 as <-|]. by apply (iv_calm _ _ I z).
  - intros z m t Hz. destruct (L z m Hz) as (m0 & Hm0 & _ & _ & -> & ->). destruct (z =? x); [injection Hm0 as <-; by intros ?%Hb|]. by apply (iv_handle _ _ I z m0).
  - intros z m Hz. destruct (L z m Hz) as (m0 & Hm0 & _ & _ & -> & ->). destruct (z =? x); [injection Hm0 as <-; by rewrite Hd|]. by apply (iv_dtor _ _ I z m0).
  - intros H0. destruct (iv_null _ _ I H0) as (m & Hm & Hpm & Hbm). rewrite lookup_new_other, Hm by congruence. eexists. split; [done|]. done.
Qed.

Lemma null_same s : set_null_context (null_context s) s = s.
Proof using. by destruct s. Qed.

(** What has to be shown of a call. *)
Definition call_ok (s : state) (F : forest) (o : op) : Prop := exists r N F',
  run_op o (st s F) = Some (r, st (set_null_context N s) F') /\ does s F o r N F' /\ inv (set_null_context N s) F'.

Lemma call_same s F o r F' : run_op o (st s F) = Some (r, st s F') -> does s F o r (null_context s) F' -> inv s F' -> call_ok s F o.
Proof using. intros H1 H2 H3. exists r, (null_context s), F'. by rewrite null_same. Qed.

Lemma context_ne s F o x : good_context F (context s o) -> F !! x = None -> 0 < x -> x <> context s o /\ (context s o = 0 \/ is_Some (F !! context s o)).
Proof using.
  intros Hg Hx Hx0. destruct (decide (context s o = 0)) as [E|E]; [split; [lia|by left]|].
  destruct (Hg E) as (m & Hm & _). split; [congruence|]. right. by eexists.
Qed.

Lemma alloc_ok s F ctx size nm : inv s F -> good_context F (context s ctx) -> call_ok s F (Op_alloc ctx size nm).
Proof using MS.
  intros I Hg. destruct (named_st s F ctx size nm (iv_wf _ _ I) Hg) as [[E Hf]|(x & E & Hal & W)].
  - apply (call_same s F _ 0 F); [done|by apply do_alloc_fail|done].
  - apply (call_same s F (Op_alloc ctx size nm) x _ E); [by apply do_alloc|]. destruct Hal as (_ & _ & Hx0 & Hx).
    destruct (context_ne s F ctx x Hg Hx Hx0). by apply new_node_inv.
Qed.

Lemma reference_ok s F ctx x : inv s F -> good_context F (context s ctx) -> is_chunk F x -> call_ok s F (Op_reference ctx x).
Proof using MS.
  intros I Hg (n & Hx & Hb). destruct (reference_st s F ctx x n (iv_wf _ _ I) Hg Hx Hb) as [[E Hf]|(h & E & Hal & W)].
  - apply (call_same s F _ 0 F); [done|by apply do_reference_fail|done].
  - apply (call_same s F (Op_reference ctx x) x _ E); [by apply do_reference|]. destruct Hal as (_ & _ & Hh0 & Hh).
    destruct (context_ne s F ctx h Hg Hh Hh0) as [Hhc Hc]. set (F1 := with_new (context s ctx) h (handle_node x) F) in *.
    assert (forall z m, refer h x F1 !! z = Some m -> exists m0, (if z =? h then Some (handle_node x) else F !! z) = Some m0 /\ n_loop m = n_loop m0
      /\ n_stale m = n_stale m0 /\ n_dtor m = n_dtor m0 /\ n_body m = (if z =? h then Reference x else n_body m0)) as L.
    { intros z m. rewrite lookup_refer. intros (m1 & Hm1 & ->)%fmap_Some. destruct (Z.eqb_spec z h) as [->|Hne].
      - unfold F1 in Hm1. rewrite lookup_new in Hm1 by done. injection Hm1 as <-. exists (handle_node x). split; [done|]. simpl.
        rewrite Z.eqb_refl. destruct (context s ctx =? 0); [done|]. simpl. by rewrite Z.eqb_refl.
      - unfold F1 in Hm1. rewrite lookup_new_other in Hm1 by done. apply fmap_Some in Hm1 as (m0 & Hm0 & ->). exists m0. simpl.
        by rewrite (proj2 (Z.eqb_neq z h)). }
    split; [done| | | |].
    + intros z m Hz. destruct (L z m Hz) as (m0 & Hm0 & -> & -> & _). destruct (z =? h); [by injection Hm0 as <-|]. by apply (iv_calm _ _ I z).
    + intros z m t Hz. destruct (L z m Hz) as (m0 & Hm0 & _ & _ & -> & ->). destruct (z =? h); [by injection Hm0 as <-|]. by apply (iv_handle _ _ I z m0).
    + intros z m Hz. destruct (L z m Hz) as (m0 & Hm0 & _ & _ & -> & ->). destruct (z =? h); [injection Hm0 as <-; by eexists|]. by apply (iv_dtor _ _ I z m0).
    + intros H0. destruct (iv_null _ _ I H0) as (m & Hm & Hpm & Hbm). assert (null_context s <> h) as Hnh by congruence.
      rewrite lookup_refer. unfold F1. rewrite lookup_new_other, Hm by done. eexists. split; [done|]. simpl.
      by rewrite (proj2 (Z.eqb_neq _ h)).
Qed.

Lemma change_inv_dtor s F x n d : inv s F -> F !! x = Some n -> (forall t, n_body n <> Reference t) -> inv s (set_dtor (destructor_of d) x F).
Proof using.
  intros I Hx Hb. assert (forall z m, set_dtor (destructor_of d) x F !! z = Some m -> exists m0, F !! z = Some m0 /\ n_loop m = n_loop m0
    /\ n_stale m = n_stale m0 /\ n_parent m = n_parent m0 /\ n_body m = n_body m0 /\ n_dtor m = if z =? x then destructor_of d else n_dtor m0) as L.
  { intros z m. unfold set_dtor. rewrite lookup_change. intros (m0 & Hm0 & ->)%fmap_Some. exists m0. by destruct (z =? x). }
  split.
  - by apply (wf_change (iv_wf _ _ I) Hx (with_dtor_plain _ n)).
  - intros z m Hz. destruct (L z m Hz) as (m0 & Hm0 & -> & -> & _). by apply (iv_calm _ _ I z).
  - intros z m t Hz. destruct (L z m Hz) as (m0 & Hm0 & _ & _ & _ & -> & ->). destruct (Z.eqb_spec z x) as [->|]; [|by apply (iv_handle _ _ I z m0)].
    intros H. destruct (Hb t). congruence.
  - intros z m Hz. destruct (L z m Hz) as (m0 & Hm0 & _ & _ & _ & -> & ->). destruct (z =? x); [by destruct d|]. by apply (iv_dtor _ _ I z m0).
  - intros H0. destruct (iv_null _ _ I H0) as (m & Hm & Hpm & Hbm). unfold set_dtor. rewrite lookup_change, Hm. eexists. split; [done|].
    by destruct (null_context s =? x).
Qed.

Lemma tracking_ok s F : inv s F -> call_ok s F Op_null_tracking.
Proof using MS.
  intros I. unfold call_ok. cbn [run_op]. unfold talloc_enable_null_tracking. rewrite bind_bind, bind_get. change (null_context (st s F)) with (null_context s).
  destruct (set_spec (null_context s)) as [E|E].
  - exists 0, (null_context s), F. rewrite null_same. split; [done|]. split; [by apply do_tracking_on|done].
  - assert (null_context s = 0) as E0 by lia. assert (context s 0 = 0) as Ec by done.
    destruct (named_st s F 0 0 name_null_context (iv_wf _ _ I)) as [[Ea Hf]|(x & Ea & Hal & W)]; [rewrite Ec; by intros H| |]; rewrite bind_bind, (bind_some _ _ _ _ _ Ea).
    + exists 0, 0, F. split; [done|]. split; [by apply do_tracking_fail|]. rewrite <- E0, null_same. done.
    + rewrite Ec in *. exists 0, x, (with_new 0 x (named_node 0 name_null_context) F). split; [done|]. split; [by apply do_tracking|].
      destruct Hal as (_ & _ & Hx0 & Hx). assert (inv s (with_new 0 x (named_node 0 name_null_context) F)) as I1 by (apply new_node_inv; done || lia || by left).
      destruct I1 as [? ? ? ? _]. split; try done. simpl. intros _. exists (named_node 0 name_null_context).
      split; [|done]. unfold with_new. simpl. apply lookup_insert_eq.
Qed.

(** Calls that answer a question. *)
Lemma query_ok s F x o : inv s F -> is_chunk F x -> allowed s F o ->
  o = Op_parent x \/ (exists p, o = Op_is_parent x p) \/ o = Op_reference_count x \/ o = Op_total_blocks x \/ o = Op_total_size x \/ o = Op_get_size x ->
  call_ok s F o.
Proof using.
  intros I (n & Hx & Hb) Ha Ho. pose proof (iv_wf _ _ I) as W. pose proof (iv_calm _ _ I) as Hc. destruct (Hc x n Hx) as [_ Hst].
  destruct (tree_exists F x W) as (t & Hr & Hs & Hnd); [by eexists|].
  destruct Ho as [->|[[p ->]|[->|[->|[->| ->]]]]].
  - apply (call_same s F _ (n_parent n) F); [by apply parent_st|by apply do_parent|done].
  - destruct Ha as [_ Hp0]. destruct (path_exists F x W) as [l Hl]; [by eexists|].
    apply (call_same s F _ (if bool_decide (p ∈ l) then 1 else 0) F); [by apply (is_parent_st s F x p n l)| |done].
    case_bool_decide as Hin; rewrite <- (below_path F x l p W Hl) in Hin; [by apply do_is_parent|by apply do_is_no_parent].
  - eapply (call_same s F _ _ F); [by apply (reference_count_st s F x n)|by apply do_reference_count|done].
  - eapply (call_same s F _ _ F); [|by apply (do_total_blocks s F x t)|done]. simpl. unfold talloc_total_blocks. rewrite <- Hr.
    by apply (total_st (fun _ => 1) (fun _ => 1)).
  - eapply (call_same s F _ _ F); [|by apply (do_total_size s F x t)|done]. simpl. unfold talloc_total_size.
    rewrite (bind_some _ _ _ _ _ (context_st s F x (wf_ne W x n Hx))), set_true by (by apply (wf_ne W x n)). cbn [negb]. rewrite <- Hr.
    by apply (total_st tc_size n_size).
  - eapply (call_same s F _ _ F); [|by apply (do_get_size s F x n)|done]. simpl. unfold talloc_get_size. rewrite set_true by (by apply (wf_ne W x n)).
    cbn [negb]. by rewrite (from_ptr_bind s F x n).
Qed.

Lemma op_ok s F o : inv s F -> allowed s F o -> call_ok s F o.
Proof using MS pure_destructors.
  intros I Ha. destruct o as [ctx size nm|ctx x|ctx x|x d|x|x|ctx x|x|x p|x|x|x|x|].
  - by apply alloc_ok.
  - destruct Ha. by apply reference_ok.
  - destruct Ha as (Hg & (n & Hx & Hb) & Hnb & Hnull). destruct (inv_steal s F ctx x n I Hx Hg Hnb Hnull) as [Hrun I2].
    apply (call_same s F (Op_steal ctx x) _ _ Hrun); [by apply do_steal|done].
  - destruct Ha as (n & Hx & Hb). apply (call_same s F _ 0 (set_dtor (destructor_of d) x F)); [|by apply do_set_destructor|by apply (change_inv_dtor s F x n d)].
    simpl. unfold _talloc_set_destructor. rewrite bind_bind, (from_ptr_bind s F x n) by done. by rewrite (bind_dtor s F x _ n).
  - destruct Ha as ((n & Hx & _) & r & F' & Hf). destruct (talloc_free_st s F x r F' Hf I) as [Hrun I2]; [by eexists|].
    apply (call_same s F (Op_free x) r F' Hrun); [by apply do_free|done].
  - destruct Ha as ((n & Hx & _) & ts & Hf). destruct (talloc_free_children_st s F x ts Hf I) as [Hrun I2]; [by eexists|].
    eapply (call_same s F _ 0); [|by apply (do_free_children s F x ts)|exact I2]. simpl. by rewrite (bind_some _ _ _ _ _ Hrun).
  - destruct Ha as (Hc & Hctx & r & F' & Hu). destruct (unlink_call s F ctx x r F' Hu I Hc Hctx) as [Hrun I2].
    apply (call_same s F (Op_unlink ctx x) r F' Hrun); [by apply do_unlink|done].
  - apply (query_ok s F x); auto.
  - pose proof Ha as [Hc _]. apply (query_ok s F x); eauto.
  - apply (query_ok s F x); auto.
  - apply (query_ok s F x); auto.
  - apply (query_ok s F x); auto 6.
  - apply (query_ok s F x); auto 6.
  - by apply tracking_ok.
Qed.

End spec.
