(* ===== verification/TallocExact.v ===== *)
(** * Talloc: which chunks are freed

    [talloc_free] chunk by chunk, without the trees; an allocator and destructors
    for which the theorems apply, and programs outside the contract. *)

From S2P Require Import Prelude Talloc TallocRep TallocOps TallocFree TallocTree TallocApi TallocSpec.

Lemma below_inv F x z n : F !! x = Some n -> below F x z -> z = x \/ below F (n_parent n) z.
Proof. intros Hx Hb. inversion Hb as [|? n' ? Hx' Hb']; subst; [by left|right]. by assert (n' = n) as <- by congruence. Qed.

(** Between a chunk and the parent of a chunk above it. *)
Lemma below_between F y c x n z : wf F -> below F y c -> F !! c = Some n -> n_parent n = x -> below F y z -> below F z x ->
  z = x \/ below F z c.
Proof.
  intros W Hyc. induction Hyc as [c Hc|y m c Hy Hyc IH]; intros Hn Hp Hyz Hzx.
  - destruct (below_inv F c z n Hn Hyz) as [->|Hxz]; [right; by apply below_refl|left].
    rewrite Hp in Hxz. by apply (below_antisym F z x W).
  - destruct (below_inv F y z m Hy Hyz) as [->|Hz]; [right; by apply (below_step F y m)|]. by apply IH.
Qed.

(** Nothing from [y] up to [x] refuses; nothing but [y] itself. *)
Definition agreed (F : forest) (ref : Z -> bool) (y x : Z) : Prop := forall z, below F y z -> below F z x -> ref z = false.
Definition first_refusal (F : forest) (ref : Z -> bool) (y x : Z) : Prop :=
  ref y = true /\ forall z, z <> y -> below F y z -> below F z x -> ref z = false.

Section branch.
Context (F : forest) (W : wf F) (ref : Z -> bool) (x : Z) (ts : list tree) (Hs : shape F [Node x ts]).

Lemma branch_kids : exists n, F !! x = Some n /\ n_kids n = map root ts.
Proof using Hs. by apply shape_cons in Hs as (? & _). Qed.

Lemma branch_shape t : t ∈ ts -> shape F [t].
Proof using Hs. apply shape_cons in Hs as (_ & ? & _). by apply shape_member. Qed.

Lemma branch_in y : y ∈ addrs [Node x ts] <-> y = x \/ exists t, t ∈ ts /\ y ∈ addrs [t].
Proof using. rewrite addrs_cons. change (addrs []) with (@nil Z). by rewrite app_nil_r, elem_of_cons, in_addrs. Qed.

Lemma branch_root t : t ∈ ts -> exists m, F !! root t = Some m /\ n_parent m = x.
Proof using W Hs.
  intros Ht. destruct branch_kids as (n & Hx & Hk). destruct (wf_kids F W x n (root t) Hx) as (m & ? & ? & _); [|by exists m].
  rewrite Hk. apply list_elem_of_fmap. by exists t.
Qed.

Lemma branch_here : below F x x.
Proof using Hs. destruct branch_kids as (n & ? & _). apply below_refl. by eexists. Qed.

(** What is between a chunk of a subtree and [x]. *)
Lemma branch_between t y z : t ∈ ts -> y ∈ addrs [t] -> below F y z ->
  below F z x <-> z = x \/ below F z (root t).
Proof using W Hs.
  intros Ht Hy Hyz. destruct (branch_root t Ht) as (m & Hm & Hp).
  pose proof (addrs_below F t y W (branch_shape t Ht) Hy) as Hyt. split; [by apply (below_between F y _ _ m)|].
  intros [->|Hz]; [by apply branch_here|]. apply (below_trans F z (root t)); [done|].
  apply (below_step F _ m); [done|]. rewrite Hp. apply branch_here.
Qed.

Lemma branch_not_root t y : t ∈ ts -> y ∈ addrs [t] -> y <> x.
Proof using W Hs.
  intros Ht Hy ->. destruct (branch_root t Ht) as (m & Hm & Hp). pose proof (addrs_below F t x W (branch_shape t Ht) Hy) as Hxt.
  assert (below F (root t) x) as Htx by (apply (below_step F _ m); [done|]; rewrite Hp; apply branch_here).
  pose proof (below_antisym F _ _ W Hxt Htx) as E. rewrite <- E in Hm. by apply (not_own_parent W x m Hm).
Qed.

Lemma agreed_branch t y : t ∈ ts -> y ∈ addrs [t] -> ref x = false -> agreed F ref y x <-> agreed F ref y (root t).
Proof using W Hs.
  intros Ht Hy Hx. split; intros H z H1 H2.
  - apply H; [done|]. apply (branch_between t y z Ht Hy H1). by right.
  - apply (branch_between t y z Ht Hy H1) in H2 as [->|H2]; [done|by apply H].
Qed.

Lemma first_branch t y : t ∈ ts -> y ∈ addrs [t] -> ref x = false -> first_refusal F ref y x <-> first_refusal F ref y (root t).
Proof using W Hs.
  intros Ht Hy Hx. split; intros [H0 H]; (split; [done|]); intros z Hne H1 H2.
  - apply H; [done|done|]. apply (branch_between t y z Ht Hy H1). by right.
  - apply (branch_between t y z Ht Hy H1) in H2 as [->|H2]; [done|by apply H].
Qed.
End branch.

Lemma gone_spec F ref t y : wf F -> shape F [t] -> y ∈ gone ref t <-> y ∈ addrs [t] /\ agreed F ref y (root t).
Proof.
  intros W. revert t y. apply (tree_ind' (fun t => forall y, shape F [t] -> y ∈ gone ref t <-> y ∈ addrs [t] /\ agreed F ref y (root t))).
  intros x ts IH y Hs. rewrite Forall_forall in IH. simpl. destruct (ref x) eqn:Ex.
  - split; [by intros ?%not_elem_of_nil|]. intros [Hy Ha]. pose proof (addrs_below F (Node x ts) y W Hs Hy) as Hb.
    rewrite (Ha x Hb (branch_here F x ts Hs)) in Ex. done.
  - rewrite elem_of_cons, elem_of_concat, branch_in. split.
    + intros [->|(l & (t & -> & Ht)%list_elem_of_fmap & Hy)].
      * split; [by left|]. intros z H1 H2. by rewrite (below_antisym F z x W H2 H1).
      * apply (IH t Ht) in Hy as [Hy Ha]; [|by apply (branch_shape F x ts)]. split; [right; by exists t|].
        by apply (agreed_branch F W ref x ts Hs t).
    + intros [[->|(t & Ht & Hy)] Ha]; [by left|right]. exists (gone ref t). split; [apply list_elem_of_fmap; by exists t|].
      apply (IH t Ht); [by apply (branch_shape F x ts)|]. split; [done|]. by apply (agreed_branch F W ref x ts Hs t).
Qed.

Lemma outs_spec F ref t y : wf F -> shape F [t] ->
  y ∈ map root (outs ref t) <-> y ∈ addrs [t] /\ first_refusal F ref y (root t).
Proof.
  intros W. revert t y.
  apply (tree_ind' (fun t => forall y, shape F [t] -> y ∈ map root (outs ref t) <-> y ∈ addrs [t] /\ first_refusal F ref y (root t))).
  intros x ts IH y Hs. rewrite Forall_forall in IH. simpl. destruct (ref x) eqn:Ex.
  - simpl. rewrite list_elem_of_singleton. split.
    + intros ->. split; [apply branch_in; by left|]. split; [done|]. intros z Hne H1 H2. destruct Hne. by apply (below_antisym F z x W).
    + intros [Hy [Hr Hf]]. destruct (decide (y = x)) as [|Hne]; [done|]. pose proof (addrs_below F (Node x ts) y W Hs Hy) as Hb.
      rewrite (Hf x) in Ex; [done|congruence|done|by apply (branch_here F x ts)].
  - rewrite list_elem_of_fmap. setoid_rewrite elem_of_reverse. setoid_rewrite elem_of_concat. rewrite branch_in. split.
    + intros (u & -> & l & (t & -> & Ht)%list_elem_of_fmap & Hu). destruct (proj1 (IH t Ht (root u) (branch_shape F x ts Hs t Ht))) as [Hy Ha].
      { apply list_elem_of_fmap. by exists u. }
      split; [right; by exists t|]. by apply (first_branch F W ref x ts Hs t).
    + intros [[->|(t & Ht & Hy)] Hf]; [destruct Hf; congruence|].
      assert (y ∈ map root (outs ref t)) as (u & -> & Hu)%list_elem_of_fmap.
      { apply (IH t Ht); [by apply (branch_shape F x ts)|]. split; [done|]. by apply (first_branch F W ref x ts Hs t). }
      exists u. split; [done|]. exists (outs ref t). split; [apply list_elem_of_fmap; by exists t|done].
Qed.

(** Every chunk below a chunk is in its tree. *)
Lemma below_addrs F t y : wf F -> shape F [t] -> below F y (root t) -> y ∈ addrs [t].
Proof.
  intros W Hs. remember (root t) as x eqn:Er. induction 1 as [x Hx|y n x Hy Hb IH]; [subst; apply root_in; left|].
  specialize (IH Er). destruct (below_in _ _ _ Hb) as [[m Hm] _]. apply list_elem_of_fmap in IH as ([q ks] & E & Hq). simpl in E. subst q.
  destruct (Hs _ ks Hq) as (m' & Hm' & Hk). pose proof (wf_parent F W y n Hy (wf_ne W _ m Hm)) as Hin.
  rewrite (kids_lookup F _ m' Hm'), Hk in Hin. rewrite addrs_kids. apply elem_of_app. right. apply elem_of_concat. exists ks. split; [|done].
  apply list_elem_of_fmap. by eexists (_, ks).
Qed.

Section exact.
Context (user_destructor : Z -> Z -> T Z) (verdict : Z -> Z -> bool).
Context (pure_destructors : forall d x s, exists r, user_destructor d x s = Some (r, s) /\ (r =? -1) = verdict d x).

(** The chunk is still there, below [q]. *)
Definition stays (F' : forest) (y : Z) (m : node) (q : Z) : Prop := exists m', F' !! y = Some m' /\ n_parent m' = q
  /\ n_dtor m' = n_dtor m /\ n_name m' = n_name m /\ n_size m' = n_size m /\ n_body m' = n_body m.

Lemma prune_stays F p D K y m : F !! y = Some m -> y ∉ D -> stays (prune F p D K) y m (if bool_decide (y ∈ K) then p else n_parent m).
Proof using. intros Hy HD. unfold stays. rewrite lookup_prune, bool_decide_eq_false_2, Hy by done. eexists. split; [done|]. done. Qed.

(** Exactly what [talloc_free] frees.  When nobody refers to a chunk or to
    those below it and its destructor does not refuse, the answer is 0 and: what is
    not below stays where it was; a chunk below is freed when no destructor from
    it up to the freed chunk refuses; the first that refuses on the way down
    becomes a child of the owner, the parent or else the null context; and what
    is below such a chunk stays where it was.  No chunk is added. *)
Theorem talloc_free_exact s F x n : inv s F -> F !! x = Some n -> (forall y, below F y x -> unreferenced F y) ->
  ~ below F (null_context s) x -> refuses verdict F x = false ->
  exists F', talloc_free user_destructor x (st s F) = Some (0, st s F') /\ inv s F'
  /\ (forall y, F !! y = None -> F' !! y = None)
  /\ forall y m, F !! y = Some m ->
     (~ below F y x -> stays F' y m (n_parent m))
     /\ (below F y x -> agreed F (refuses verdict F) y x -> F' !! y = None)
     /\ (below F y x -> first_refusal F (refuses verdict F) y x -> stays F' y m (owner s F x))
     /\ (below F y x -> ~ agreed F (refuses verdict F) y x -> ~ first_refusal F (refuses verdict F) y x -> stays F' y m (n_parent m)).
Proof using pure_destructors.
  intros I Hx Href Hnull Hrf. pose proof (iv_wf _ _ I) as W. destruct (tree_exists F x W) as (t & Hr & Hs & Hnd); [by eexists|].
  assert (forall y, y ∈ addrs [t] <-> below F y x) as Hin.
  { intros y. rewrite <- Hr. split; [by apply addrs_below|by apply below_addrs]. }
  assert (free_tree s F x t) as Ht by (split; [done|done| |]; setoid_rewrite Hin; done).
  destruct (talloc_free_st user_destructor verdict pure_destructors s F x _ _ (frees_tree verdict s F x t Ht) I) as [Hrun I2]; [by eexists|].
  unfold freed in *. rewrite Hr, Hrf in *. eexists. split; [exact Hrun|]. split; [done|].
  assert (forall y, y ∈ gone (refuses verdict F) t <-> below F y x /\ agreed F (refuses verdict F) y x) as Hg.
  { intros y. rewrite <- Hin, <- Hr. by apply gone_spec. }
  assert (forall y, y ∈ map root (outs (refuses verdict F) t) <-> below F y x /\ first_refusal F (refuses verdict F) y x) as Ho.
  { intros y. rewrite <- Hin, <- Hr. by apply outs_spec. }
  split; [intros y Hy; rewrite lookup_prune, Hy; by destruct (bool_decide _)|]. intros y m Hy.
  pose proof (prune_stays F (owner s F x) (gone (refuses verdict F) t) (map root (outs (refuses verdict F) t)) y m Hy) as Hst.
  repeat split; intros Hb.
  - rewrite bool_decide_eq_false_2 in Hst by (rewrite Ho; tauto). apply Hst. rewrite Hg. tauto.
  - intros Ha. rewrite lookup_prune, bool_decide_eq_true_2 by (rewrite Hg; done). done.
  - intros Hf. rewrite bool_decide_eq_true_2 in Hst by (by rewrite Ho). apply Hst. rewrite Hg. intros [_ Ha].
    destruct Hf as [Hf _]. rewrite (Ha y) in Hf; [done| |done]. apply below_refl. by eexists.
  - intros Ha Hf. rewrite bool_decide_eq_false_2 in Hst by (rewrite Ho; tauto). apply Hst. rewrite Hg. tauto.
Qed.
End exact.

(** ** An allocator that always succeeds, and destructors that only answer *)

Definition top_address (h : gmap Z talloc_chunk) : Z := map_fold (fun k _ m => Z.max k m) 0 h.

Lemma top_address_spec h : 0 <= top_address h /\ forall k, is_Some (h !! k) -> k <= top_address h.
Proof.
  apply (map_fold_weak_ind (fun r m => 0 <= r /\ forall k, is_Some (m !! k) -> k <= r)).
  - split; [done|]. intros k [c Hk]. by rewrite lookup_empty in Hk.
  - intros i c m r _ [H0 H]. split; [lia|]. intros k. rewrite lookup_insert_is_Some'. intros [->|Hk]; [lia|]. specialize (H k Hk). lia.
Qed.

#[local] Instance bump : Malloc :=
  {| malloc h _ := Some (top_address h + 1); realloc h _ _ := Some (top_address h + 1) |}.

Lemma top_fresh (h : gmap Z talloc_chunk) : 0 < top_address h + 1 /\ h !! (top_address h + 1) = None.
Proof.
  destruct (top_address_spec h) as [H0 H]. split; [lia|]. destruct (h !! (top_address h + 1)) as [c|] eqn:E; [|done].
  assert (top_address h + 1 <= top_address h) by (apply H; by eexists). lia.
Qed.

#[local] Instance bump_spec : MallocSpec bump.
Proof.
  split.
  - intros h n p [= <-]. apply top_fresh.
  - intros h p n q [= <-]. destruct (top_fresh h). auto.
Qed.

Definition answers (d p : Z) : T Z := t_ret d.
Definition minus_one (d p : Z) : bool := d =? -1.

Lemma pure_answers d x (s : state) : exists r, answers d x s = Some (r, s) /\ (r =? -1) = minus_one d x.
Proof. by exists d. Qed.

Definition no_memory : state := mk_state ∅ 0 0 [].

Lemma inv_empty : inv no_memory ∅.
Proof.
  split; try by intros.
  split; try by intros. intros x [n Hx]. done.
Qed.

Lemma alloc_inv s F ctx size nm x : inv s F -> good_context F (context s ctx) -> allocates F size x ->
  inv s (with_new (context s ctx) x (named_node size nm) F).
Proof.
  intros I Hg Ha. destruct (named_st s F ctx size nm (iv_wf _ _ I) Hg) as [[_ Hf]|(y & _ & Hal & W)].
  - destruct Ha as (Hs & Hm & _). destruct Hf as [?|Hf]; [lia|congruence].
  - pose proof Ha as (_ & Hm & Hx0 & Hx). pose proof Hal as (_ & Hm' & _). assert (y = x) as -> by congruence.
    destruct (context_ne s F ctx x Hg Hx Hx0). by apply new_node_inv.
Qed.

(** Chunk 1 with the children 3 and 2; 2 refuses, and has a child 4. *)
Definition forest1 : forest := with_new 0 1 (named_node 16 Name_null) ∅.
Definition forest2 : forest := with_new 1 2 (named_node 8 Name_null) forest1.
Definition forest3 : forest := with_new 1 3 (named_node 8 Name_null) forest2.
Definition forest4 : forest := set_dtor (Destructor_user (-1)) 2 (with_new 2 4 (named_node 8 Name_null) forest3).

(** Whether a chunk can be a context. *)
Definition may_own (F : forest) (o : Z) : bool :=
  match F !! o with Some n => match n_body n with Reference _ => false | _ => true end | None => o =? 0 end.

Lemma may_own_spec F o : may_own F o = true -> good_context F o.
Proof.
  unfold may_own. intros H H0. destruct (F !! o) as [n|]; [|by apply Z.eqb_eq in H]. exists n. split; [done|]. by destruct (n_body n).
Qed.

Lemma alloc_bump s F ctx size nm x : inv s F -> may_own F (context s ctx) = true -> size < MAX_TALLOC_SIZE -> top_address (conc F) + 1 = x ->
  inv s (with_new (context s ctx) x (named_node size nm) F).
Proof.
  intros I Hm Hs <-. destruct (top_fresh (conc F)) as [H0 Hx]. apply alloc_inv; [done|by apply may_own_spec|].
  split; [done|]. split; [done|]. split; [done|]. rewrite lookup_conc in Hx. by destruct (F !! _).
Qed.

Lemma inv1 : inv no_memory forest1.
Proof. apply (alloc_bump no_memory ∅ 0 16); [apply inv_empty|by vm_compute..]. Qed.
Lemma inv2 : inv no_memory forest2.
Proof. apply (alloc_bump no_memory forest1 1 8); [apply inv1|by vm_compute..]. Qed.
Lemma inv3 : inv no_memory forest3.
Proof. apply (alloc_bump no_memory forest2 1 8); [apply inv2|by vm_compute..]. Qed.
Lemma inv4 : inv no_memory forest4.
Proof.
  assert (inv no_memory (with_new 2 4 (named_node 8 Name_null) forest3)) as I.
  { apply (alloc_bump no_memory forest3 2 8); [apply inv3|by vm_compute..]. }
  destruct (with_new 2 4 (named_node 8 Name_null) forest3 !! 2) as [n|] eqn:E; [|by vm_compute in E].
  apply (change_inv_dtor no_memory _ 2 n (Some (-1)) I E). vm_compute in E. by injection E as <-.
Qed.

Lemma no_references F x : bool_decide (map_Forall (fun _ n => n_refs n = []) F) = true -> unreferenced F x.
Proof.
  intros H%bool_decide_eq_true. unfold unreferenced, handles. destruct (F !! x) as [n|] eqn:E; [|done]. by apply (H x n).
Qed.

Lemma not_below_null F x : wf F -> ~ below F 0 x.
Proof. intros W Hb. destruct (below_in _ _ _ Hb) as [[m Hm] _]. by apply (wf_ne W 0 m). Qed.

Ltac in_path := solve [left | right; left | right; right; left].

Lemma talloc_free_exact_witness : exists F',
  talloc_free answers 1 (st no_memory forest4) = Some (0, st no_memory F') /\ F' !! 1 = None /\ F' !! 3 = None
  /\ (exists m, F' !! 2 = Some m /\ n_parent m = 0) /\ exists m, F' !! 4 = Some m /\ n_parent m = 2.
Proof.
  destruct (forest4 !! 1) as [n1|] eqn:E1; [|by vm_compute in E1]. destruct (forest4 !! 2) as [n2|] eqn:E2; [|by vm_compute in E2].
  destruct (forest4 !! 3) as [n3|] eqn:E3; [|by vm_compute in E3]. destruct (forest4 !! 4) as [n4|] eqn:E4; [|by vm_compute in E4].
  destruct (talloc_free_exact answers minus_one pure_answers no_memory forest4 1 n1) as (F' & Hrun & _ & _ & H).
  { apply inv4. }
  { done. }
  { intros y _. apply no_references. by vm_compute. }
  { apply not_below_null, inv4. }
  { by vm_compute. }
  pose proof E1 as P1; pose proof E2 as P2; pose proof E3 as P3; pose proof E4 as P4.
  vm_compute in P1, P2, P3, P4. injection P1 as P1. injection P2 as P2. injection P3 as P3. injection P4 as P4.
  assert (path forest4 1 [1]) as L1 by (by apply (path_top _ 1 n1); [|rewrite <- P1]).
  assert (path forest4 2 [2; 1]) as L2 by (by apply (path_step _ 2 n2); [|rewrite <- P2|rewrite <- P2]).
  assert (path forest4 3 [3; 1]) as L3 by (by apply (path_step _ 3 n3); [|rewrite <- P3|rewrite <- P3]).
  assert (path forest4 4 [4; 2; 1]) as L4 by (by apply (path_step _ 4 n4); [|rewrite <- P4|rewrite <- P4]).
  pose proof (iv_wf _ _ inv4) as W.
  assert (forall y z l, path forest4 y l -> below forest4 y z <-> z ∈ l) as Hb by (intros y z l; by apply below_path).
  exists F'. split; [exact Hrun|]. repeat split.
  - apply (H 1 n1 E1); [apply (Hb 1 1 _ L1); in_path|]. intros z Hz _. apply (Hb 1 z _ L1), list_elem_of_singleton in Hz as ->. by vm_compute.
  - apply (H 3 n3 E3); [apply (Hb 3 1 _ L3); in_path|]. intros z Hz _. apply (Hb 3 z _ L3) in Hz.
    repeat (apply elem_of_cons in Hz as [->|Hz]; [by vm_compute|]). by apply not_elem_of_nil in Hz.
  - destruct (H 2 n2 E2) as (_ & _ & Hf & _). destruct Hf as (m & ? & Hm & _); [apply (Hb 2 1 _ L2); in_path| |exists m; split; [done|by rewrite Hm; vm_compute]].
    split; [by vm_compute|]. intros z Hne Hz _. apply (Hb 2 z _ L2) in Hz. apply elem_of_cons in Hz as [->|Hz]; [done|].
    apply list_elem_of_singleton in Hz as ->. by vm_compute.
  - destruct (H 4 n4 E4) as (_ & _ & _ & Hs). destruct Hs as (m & ? & Hm & _); [apply (Hb 4 1 _ L4); in_path| | |exists m; split; [done|by rewrite Hm, <- P4]].
    + intros Ha. specialize (Ha 2 ltac:(apply (Hb 4 2 _ L4); in_path) ltac:(apply (Hb 2 1 _ L2); in_path)). by vm_compute in Ha.
    + intros [Hr _]. by vm_compute in Hr.
Defined.

(** A chunk and one below it, a question, and both freed. *)
Definition program : prog :=
  Call (Op_alloc 0 16 Name_null) (fun p => Call (Op_alloc p 8 Name_null) (fun c =>
  Call (Op_is_parent c p) (fun _ => Call (Op_free p) (fun _ => Done)))).

Lemma does_alloc_bump s F ctx size nm r N F' : size < MAX_TALLOC_SIZE -> does minus_one s F (Op_alloc ctx size nm) r N F' ->
  r = top_address (conc F) + 1 /\ N = null_context s /\ F' = with_new (context s ctx) (top_address (conc F) + 1) (named_node size nm) F.
Proof.
  intros Hs H. inversion H as [? ? ? ? Ha|? ? ? Hf| | | | | | | | | | | | | | | | |]; subst.
  - destruct Ha as (_ & [= <-] & _). done.
  - destruct Hf; [lia|done].
Qed.

Lemma program_safe : safe minus_one no_memory ∅ 0 program.
Proof.
  apply safe_call; [by intros ?|]. intros p N F (-> & -> & ->)%does_alloc_bump; [|done].
  change (safe minus_one no_memory forest1 0 (Call (Op_alloc 1 8 Name_null) (fun c => Call (Op_is_parent c 1) (fun _ => Call (Op_free 1) (fun _ => Done))))).
  apply safe_call; [by apply may_own_spec|]. intros c N F (-> & -> & ->)%does_alloc_bump; [|done].
  change (safe minus_one no_memory forest2 0 (Call (Op_is_parent 2 1) (fun _ => Call (Op_free 1) (fun _ => Done)))).
  destruct (forest2 !! 1) as [n1|] eqn:E1; [|by vm_compute in E1]. destruct (forest2 !! 2) as [n2|] eqn:E2; [|by vm_compute in E2].
  pose proof E1 as P1; pose proof E2 as P2; vm_compute in P1, P2. injection P1 as P1. injection P2 as P2.
  apply safe_call; [split; [exists n2; split; [done|by rewrite <- P2]|done]|]. intros r N F H.
  assert (N = 0 /\ F = forest2) as [-> ->] by (by inversion H). clear H r.
  apply safe_call; [|intros; apply safe_done]. split; [exists n1; split; [done|by rewrite <- P1]|].
  eexists _, _. apply (frees_tree _ _ _ _ (Node 1 [Node 2 []])). split; [done| | |].
  - apply shape_cons. split; [exists n1; split; [done|by rewrite <- P1]|]. split; [|by intros ?? ?%not_elem_of_nil].
    apply shape_cons. split; [exists n2; split; [done|by rewrite <- P2]|]. split; by intros ?? ?%not_elem_of_nil.
  - intros y _. apply no_references. by vm_compute.
  - change (0 ∉ [1; 2]). set_solver.
Qed.


(** ** Outside the contract *)

Definition answer {A} (m : T A) : option A := fst <$> m no_memory.

(** With null tracking, a handle of a chunk is in the list of the top-level chunks;
    [talloc_free] frees it while it goes through what is left of the list. *)
Definition tracked_reference : T Z :=
  do! talloc_enable_null_tracking; do p <- _talloc 0 10; do c <- _talloc p 20;
  do! talloc_increase_ref_count c; talloc_free answers p.

Example tracked_reference_reads_freed : answer tracked_reference = None.
Proof. by vm_compute. Qed.

(** The same without null tracking, when a sibling refuses and the handle is a child of the parent. *)
Definition parent_reference : T Z :=
  do p <- _talloc 0 10; do b <- _talloc p 1; do c1 <- _talloc b 1; do c2 <- _talloc b 1;
  do! _talloc_set_destructor c1 (Destructor_user (-1)); do! _talloc_reference p c2; talloc_free answers b.

Example parent_reference_reads_freed : answer parent_reference = None.
Proof. by vm_compute. Qed.

(** A child with a reference from outside and one from below itself gets a chunk
    below itself as its parent. *)
Definition own_reference : T (Z * Z * Z * Z) :=
  do root <- _talloc 0 1; do x <- _talloc root 10; do c <- _talloc x 20; do g <- _talloc c 1; do e <- _talloc 0 1;
  do! _talloc_reference e c; do! _talloc_reference g c; do! talloc_free answers x;
  do q <- talloc_parent c; do q2 <- talloc_parent g; t_ret (c, g, q, q2).

Example own_reference_is_a_cycle : answer own_reference = Some (3, 4, 4, 3).
Proof. by vm_compute. Qed.

(** A top-level chunk that refuses, and null tracking is turned off: the loop over
    the children of the null context moves the chunk to the same place forever. *)
Definition refusing_top : T unit :=
  do! talloc_enable_null_tracking; do p <- _talloc 0 10; do! _talloc_set_destructor p (Destructor_user (-1));
  talloc_disable_null_tracking answers.

Example refusing_top_has_no_end : answer refusing_top = None.
Proof. by vm_compute. Qed.
