(* ===== verification/Iconv.v ===== *)
(** * Character conversion ([source4/lib/charset/iconv.c])

    The built-in converters between UTF-16LE and the other character sets.  A
    converter is called with the bytes to convert and the room in the output;
    it returns the bytes it left, those it wrote and the room left, so that the
    caller can go on later.  Strings are lists of bytes.

    A converter is a loop whose round converts one character: [round] is the
    body of the loop, [conv_loop] the loop.  [UCS2-HEX], which uses [sscanf], the
    character sets of the host ([sys_iconv]) and the registration of further
    ones are not modelled. *)

From S2P Require Import Prelude.

(** ** Converters *)

Inductive iconv_errno : Type := E2BIG | EINVAL | EILSEQ.

(** The value returned, or -1 with [errno] set. *)
Inductive conv_ret : Type :=
  | Done (n : Z)
  | Failed (e : iconv_errno).

Record conv : Type := mk_conv {
  ret : conv_ret;
  in_rest : list Z;
  written : list Z;
  out_left : Z
}.

Definition converter : Type := list Z -> Z -> conv.

Definition in_left (c : list Z) : Z := Z.of_nat (length c).

(** What a round does: the rest of the input and the bytes written, or the
    error it leaves the loop with. *)
Definition step : Type := (list Z * list Z) + iconv_errno.

Section conv_loop.
Context (min_in min_out : Z) (round : list Z -> Z -> step) (finish : list Z -> conv_ret).

(** Every round consumes a byte, so the fuel is the length of the input. *)
Fixpoint conv_loop (fuel : nat) (c : list Z) (out : Z) : conv :=
  if (min_in <=? in_left c) && (min_out <=? out) then
    match fuel with
    | O => mk_conv (finish c) c [] out
    | S fuel =>
        match round c out with
        | inl (c, w) =>
            let r := conv_loop fuel c (out - in_left w) in
            mk_conv (ret r) (in_rest r) (w ++ written r) (out_left r)
        | inr e => mk_conv (Failed e) c [] out
        end
    end
  else mk_conv (finish c) c [] out.
End conv_loop.

(** The ends of the loops that read bytes and units of 16 bits. *)
Definition finish_bytes (c : list Z) : conv_ret :=
  if 0 <? in_left c then Failed E2BIG else Done 0.
Definition finish_units (c : list Z) : conv_ret :=
  if in_left c =? 1 then Failed EINVAL
  else if 1 <? in_left c then Failed E2BIG else Done 0.

(** ** ASCII *)

Definition ascii_pull_round (c : list Z) (out : Z) : step :=
  match c with
  | c0 :: c => inl (c, [c0; 0])
  | [] => inr EINVAL
  end.
Definition ascii_pull : converter :=
  fun c out => conv_loop 1 2 ascii_pull_round finish_bytes (length c) c out.

Definition ascii_push_round (uc : list Z) (out : Z) : step :=
  match uc with
  | uc0 :: uc1 :: uc => inl (uc, [Z.land uc0 0x7F])
  | _ => inr EINVAL
  end.

(** The units with a high byte in what was converted. *)
Fixpoint ir_count (uc : list Z) (n : nat) : Z :=
  match n, uc with
  | S n, _ :: uc1 :: uc => (if uc1 =? 0 then 0 else 1) + ir_count uc n
  | _, _ => 0
  end.

Definition ascii_push : converter :=
  fun uc out =>
    let r := conv_loop 2 1 ascii_push_round finish_units (length uc) uc out in
    match ret r with
    | Done _ => mk_conv (Done (ir_count uc (length (written r)))) (in_rest r) (written r) (out_left r)
    | Failed _ => r
    end.

(** ** UTF-16 *)

Definition iconv_copy : converter :=
  fun c out =>
    let n := Z.min (in_left c) out in
    mk_conv (if 0 <? in_left c - n then Failed E2BIG else Done 0)
      (drop (Z.to_nat n) c) (take (Z.to_nat n) c) (out - n).

Fixpoint swab (c : list Z) : list Z :=
  match c with
  | a :: b :: c => b :: a :: swab c
  | _ => []
  end.

(** An odd byte at the end is written as 0. *)
Definition iconv_swab : converter :=
  fun c out =>
    let n := Z.min (in_left c) out in
    mk_conv (if 0 <? in_left c - n then Failed E2BIG else Done 0)
      (drop (Z.to_nat n) c)
      (swab (take (Z.to_nat n) c) ++ (if Z.odd n then [0] else [])) (out - n).

(** ** UTF-8 *)

(** [(c & 0xc0) != 0x80]: not a byte that continues a character. *)
Definition not_cont (c : Z) : bool := negb (Z.land c 0xc0 =? 0x80).

Definition utf8_pull_round (c : list Z) (out : Z) : step :=
  match c with
  | [] => inr EINVAL
  | c0 :: c' =>
      if Z.land c0 0x80 =? 0 then inl (c', [c0; 0])
      else if Z.land c0 0xe0 =? 0xc0 then
        match c' with
        | c1 :: c'' =>
            if not_cont c1 then inr EILSEQ
            else inl (c'', [u8 (Z.shiftl c0 6 ||| Z.land c1 0x3f); Z.land (Z.shiftr c0 2) 0x7])
        | [] => inr EILSEQ
        end
      else if Z.land c0 0xf0 =? 0xe0 then
        match c' with
        | c1 :: c2 :: c'' =>
            if not_cont c1 || not_cont c2 then inr EILSEQ
            else inl (c'', [u8 (Z.shiftl c1 6 ||| Z.land c2 0x3f);
                            Z.shiftl (Z.land c0 0xF) 4 ||| Z.land (Z.shiftr c1 2) 0xF])
        | _ => inr EILSEQ
        end
      else if Z.land c0 0xf8 =? 0xf0 then
        match c' with
        | c1 :: c2 :: c3 :: c'' =>
            if not_cont c1 || not_cont c2 || not_cont c3 then inr EILSEQ
            else
              let codepoint := Z.land c3 0x3f ||| Z.shiftl (Z.land c2 0x3f) 6
                               ||| Z.shiftl (Z.land c1 0x3f) 12 ||| Z.shiftl (Z.land c0 0x7) 18 in
              if codepoint <? 0x10000 then
                inl (c'', [Z.land codepoint 0xFF; u8 (Z.shiftr codepoint 8)])
              else
                let codepoint := codepoint - 0x10000 in
                if out <? 4 then inr E2BIG
                else inl (c'', [Z.land (Z.shiftr codepoint 10) 0xFF; Z.shiftr codepoint 18 ||| 0xd8;
                                Z.land codepoint 0xFF; Z.land (Z.shiftr codepoint 8) 0x3 ||| 0xdc])
        | _ => inr EILSEQ
        end
      else inr EINVAL
  end.

Definition utf8_pull : converter :=
  fun c out => conv_loop 1 2 utf8_pull_round finish_bytes (length c) c out.

Definition utf8_push_round (uc : list Z) (out : Z) : step :=
  match uc with
  | uc0 :: uc1 :: uc' =>
      if (uc1 =? 0) && (Z.land uc0 0x80 =? 0) then inl (uc', [uc0])
      else if Z.land uc1 0xf8 =? 0 then
        if out <? 2 then inr E2BIG
        else inl (uc', [0xc0 ||| Z.shiftr uc0 6 ||| Z.shiftl uc1 2; 0x80 ||| Z.land uc0 0x3f])
      else if Z.land uc1 0xfc =? 0xdc then
        inr (if in_left uc <? 4 then EINVAL else EILSEQ)
      else if negb (Z.land uc1 0xfc =? 0xd8) then
        let codepoint := uc0 ||| Z.shiftl uc1 8 in
        if out <? 3 then inr E2BIG
        else inl (uc', [0xe0 ||| Z.shiftr codepoint 12; 0x80 ||| Z.land (Z.shiftr codepoint 6) 0x3f;
                        0x80 ||| Z.land codepoint 0x3f])
      else
        match uc' with
        | uc2 :: uc3 :: uc'' =>
            if negb (Z.land uc3 0xfc =? 0xdc) then inr EILSEQ
            else
              let codepoint := 0x10000 + (uc2 ||| Z.shiftl (Z.land uc3 0x3) 8
                                          ||| Z.shiftl uc0 10 ||| Z.shiftl (Z.land uc1 0x3) 18) in
              if out <? 4 then inr E2BIG
              else inl (uc'', [0xf0 ||| Z.shiftr codepoint 18; 0x80 ||| Z.land (Z.shiftr codepoint 12) 0x3f;
                               0x80 ||| Z.land (Z.shiftr codepoint 6) 0x3f; 0x80 ||| Z.land codepoint 0x3f])
        | _ => inr EINVAL
        end
  | _ => inr EINVAL
  end.

Definition utf8_push : converter :=
  fun uc out => conv_loop 2 1 utf8_push_round finish_units (length uc) uc out.

(** ** Conversion between two character sets *)

Definition is_err (r : conv) : bool := match ret r with Failed _ => true | Done _ => false end.

(** Through a buffer of 2048 bytes; the loop goes on while there is input. *)
Fixpoint convert_chunks (fuel : nat) (pull push : converter) (c : list Z) (out : Z) : conv :=
  if in_left c =? 0 then mk_conv (Done 0) c [] out
  else
    match fuel with
    | O => mk_conv (Failed E2BIG) c [] out
    | S fuel =>
        let r := pull c 2048 in
        match ret r with
        | Failed EINVAL | Failed EILSEQ => mk_conv (ret r) (in_rest r) [] out
        | _ =>
            let w := push (written r) out in
            if is_err w then mk_conv (ret w) (in_rest r) (written w) (out_left w)
            else
              let rest := convert_chunks fuel pull push (in_rest r) (out_left w) in
              mk_conv (ret rest) (in_rest rest) (written w ++ written rest) (out_left rest)
        end
    end.

Inductive charset : Type := UTF_16LE | UTF_16BE | UTF8 | ASCII.

Definition charset_eqb (a b : charset) : bool :=
  match a, b with
  | UTF_16LE, UTF_16LE | UTF_16BE, UTF_16BE | UTF8, UTF8 | ASCII, ASCII => true
  | _, _ => false
  end.

(** [builtin_functions]: the converters to and from UTF-16LE. *)
Definition charset_pull (cs : charset) : converter :=
  match cs with
  | UTF_16LE => iconv_copy
  | UTF_16BE => iconv_swab
  | UTF8 => utf8_pull
  | ASCII => ascii_pull
  end.
Definition charset_push (cs : charset) : converter :=
  match cs with
  | UTF_16LE => iconv_copy
  | UTF_16BE => iconv_swab
  | UTF8 => utf8_push
  | ASCII => ascii_push
  end.

Inductive smb_iconv_t : Type :=
  | Direct (f : converter)
  | Chunks (pull push : converter).

Definition smb_iconv_open (tocode fromcode : charset) : smb_iconv_t :=
  if charset_eqb fromcode tocode then Direct iconv_copy
  else if charset_eqb fromcode UTF_16LE then Direct (charset_push tocode)
  else if charset_eqb tocode UTF_16LE then Direct (charset_pull fromcode)
  else Chunks (charset_pull fromcode) (charset_push tocode).

Definition smb_iconv (cd : smb_iconv_t) : converter :=
  fun c out =>
    match cd with
    | Direct f => f c out
    | Chunks pull push => convert_chunks (S (length c)) pull push c out
    end.

(** ** Unicode

    The encodings of a scalar value, from the Unicode standard. *)

Definition scalar (cp : Z) : Prop := 0 <= cp < 0xD800 \/ 0xE000 <= cp < 0x110000.

Definition utf8 (cp : Z) : list Z :=
  if cp <? 0x80 then [cp]
  else if cp <? 0x800 then [0xC0 + cp / 64; 0x80 + cp mod 64]
  else if cp <? 0x10000 then [0xE0 + cp / 4096; 0x80 + cp / 64 mod 64; 0x80 + cp mod 64]
  else [0xF0 + cp / 262144; 0x80 + cp / 4096 mod 64; 0x80 + cp / 64 mod 64; 0x80 + cp mod 64].

Definition utf16_unit (u : Z) : list Z := [u mod 256; u / 256].

Definition utf16 (cp : Z) : list Z :=
  if cp <? 0x10000 then utf16_unit cp
  else utf16_unit (0xD800 + (cp - 0x10000) / 1024) ++ utf16_unit (0xDC00 + (cp - 0x10000) mod 1024).

(** ** Bit operations on bytes, as arithmetic *)

Lemma land_low n x : 0 <= n -> Z.land x (Z.ones n) = x mod 2 ^ n.
Proof. apply Z.land_ones. Qed.

(** The high bits of a byte. *)
Lemma land_high n b : 0 <= n <= 8 -> 0 <= b < 256 -> Z.land b (256 - 2 ^ n) = b / 2 ^ n * 2 ^ n.
Proof.
  intros Hn Hb. replace (256 - 2 ^ n) with (Z.ldiff 255 (Z.ones n)).
  - rewrite Z.ldiff_land, Z.land_assoc, land_255, Z.mod_small, <- Z.ldiff_land by done.
    rewrite Z.ldiff_ones_r, Z.shiftr_div_pow2, Z.shiftl_mul_pow2 by lia. done.
  - assert (n = 0 \/ n = 1 \/ n = 2 \/ n = 3 \/ n = 4 \/ n = 5 \/ n = 6 \/ n = 7 \/ n = 8) as Hc by lia.
    destruct Hc as [->|[->|[->|[->|[->|[->|[->|[->| ->]]]]]]]]; reflexivity.
Qed.

Lemma land_0x3f x : Z.land x 0x3f = x mod 64.
Proof. apply (land_low 6). lia. Qed.
Lemma land_0xf x : Z.land x 0xf = x mod 16.
Proof. apply (land_low 4). lia. Qed.
Lemma land_0x7 x : Z.land x 0x7 = x mod 8.
Proof. apply (land_low 3). lia. Qed.
Lemma land_0x3 x : Z.land x 0x3 = x mod 4.
Proof. apply (land_low 2). lia. Qed.
Lemma land_0x80 b : 0 <= b < 256 -> Z.land b 0x80 = b / 128 * 128.
Proof. apply (land_high 7). lia. Qed.
Lemma land_0xc0 b : 0 <= b < 256 -> Z.land b 0xc0 = b / 64 * 64.
Proof. apply (land_high 6). lia. Qed.
Lemma land_0xe0 b : 0 <= b < 256 -> Z.land b 0xe0 = b / 32 * 32.
Proof. apply (land_high 5). lia. Qed.
Lemma land_0xf0 b : 0 <= b < 256 -> Z.land b 0xf0 = b / 16 * 16.
Proof. apply (land_high 4). lia. Qed.
Lemma land_0xf8 b : 0 <= b < 256 -> Z.land b 0xf8 = b / 8 * 8.
Proof. apply (land_high 3). lia. Qed.
Lemma land_0xfc b : 0 <= b < 256 -> Z.land b 0xfc = b / 4 * 4.
Proof. apply (land_high 2). lia. Qed.

(** [a | b] is a sum when [b] is below the last bit of [a]. *)
Lemma lor_add k a b : 0 <= k -> a mod 2 ^ k = 0 -> 0 <= b < 2 ^ k -> a ||| b = a + b.
Proof.
  intros Hk Ha Hb. rewrite Z.lor_comm.
  assert (a = Z.shiftl (a / 2 ^ k) k) as E.
  { rewrite Z.shiftl_mul_pow2 by done. pose proof (Z.div_mod a (2 ^ k)). lia. }
  rewrite E at 1. rewrite lor_shiftl_add by done. pose proof (Z.div_mod a (2 ^ k)). lia.
Qed.

Lemma lor_add_low k a b : 0 <= k -> a mod 2 ^ k = 0 -> 0 <= b < 2 ^ k -> b ||| a = b + a.
Proof. intros. rewrite Z.lor_comm, (lor_add k) by done. lia. Qed.

#[local] Ltac euclid := Z.to_euclidean_division_equations; lia.

Lemma not_cont_byte b : 0 <= b < 256 -> not_cont b = negb (b / 64 =? 2).
Proof.
  intros Hb. unfold not_cont. rewrite land_0xc0 by done. f_equal. apply eq_true_iff_eq.
  rewrite !Z.eqb_eq. lia.
Qed.

Lemma cont_byte x : not_cont (0x80 + x mod 64) = false.
Proof. rewrite not_cont_byte by euclid. replace ((0x80 + x mod 64) / 64) with 2 by euclid. done. Qed.

(** ** One character of valid UTF-8 *)

Definition room_for (w : list Z) (out : Z) (c : list Z) : step :=
  if out <? in_left w then inr E2BIG else inl (c, w).

Lemma utf8_pull_round_valid cp c out : scalar cp -> 2 <= out ->
  utf8_pull_round (utf8 cp ++ c) out = room_for (utf16 cp) out c.
Proof.
  intros Hs Ho. unfold utf8, utf16, room_for, scalar in *.
  destruct (Z.ltb_spec cp 0x80); [|destruct (Z.ltb_spec cp 0x800); [|destruct (Z.ltb_spec cp 0x10000)]].
  - replace (cp <? 0x10000) with true by lia. cbn [app utf8_pull_round].
    rewrite land_0x80 by lia. replace (cp / 128 * 128 =? 0) with true by euclid.
    change (in_left (utf16_unit cp)) with 2. replace (out <? 2) with false by lia. unfold utf16_unit.
    by rewrite Z.mod_small, Z.div_small by lia.
  - replace (cp <? 0x10000) with true by lia. cbn [app utf8_pull_round].
    rewrite land_0x80, land_0xe0 by euclid.
    replace ((0xC0 + cp / 64) / 128 * 128 =? 0) with false by euclid.
    replace ((0xC0 + cp / 64) / 32 * 32 =? 0xc0) with true by euclid.
    rewrite cont_byte. change (in_left (utf16_unit cp)) with 2. replace (out <? 2) with false by lia. unfold utf16_unit.
    rewrite land_0x3f, land_0x7, Z.shiftr_div_pow2, Z.lor_comm, lor_shiftl_add by euclid.
    unfold u8. do 3 f_equal; [euclid|]. f_equal. euclid.
  - cbn [app utf8_pull_round].
    rewrite land_0x80, land_0xe0, land_0xf0 by euclid.
    replace ((0xE0 + cp / 4096) / 128 * 128 =? 0) with false by euclid.
    replace ((0xE0 + cp / 4096) / 32 * 32 =? 0xc0) with false by euclid.
    replace ((0xE0 + cp / 4096) / 16 * 16 =? 0xe0) with true by euclid.
    rewrite !cont_byte. cbn [orb]. change (in_left (utf16_unit cp)) with 2. replace (out <? 2) with false by lia. unfold utf16_unit.
    rewrite !land_0x3f, !land_0xf, Z.shiftr_div_pow2, Z.lor_comm, lor_shiftl_add by euclid.
    rewrite (Z.lor_comm (Z.shiftl _ 4)), lor_shiftl_add by euclid.
    unfold u8. do 3 f_equal; [euclid|]. f_equal. euclid.
  - cbn [app utf8_pull_round].
    rewrite land_0x80, land_0xe0, land_0xf0, land_0xf8 by euclid.
    replace ((0xF0 + cp / 262144) / 128 * 128 =? 0) with false by euclid.
    replace ((0xF0 + cp / 262144) / 32 * 32 =? 0xc0) with false by euclid.
    replace ((0xF0 + cp / 262144) / 16 * 16 =? 0xe0) with false by euclid.
    replace ((0xF0 + cp / 262144) / 8 * 8 =? 0xf0) with true by euclid.
    rewrite !cont_byte. cbn [orb]. rewrite !land_0x3f, land_0x7.
    assert (((0x80 + cp mod 64) mod 64 ||| Z.shiftl ((0x80 + cp / 64 mod 64) mod 64) 6
             ||| Z.shiftl ((0x80 + cp / 4096 mod 64) mod 64) 12
             ||| Z.shiftl ((0xF0 + cp / 262144) mod 8) 18) = cp) as ->.
    { rewrite (lor_shiftl_add _ _ 6), (lor_shiftl_add _ _ 12), (lor_shiftl_add _ _ 18) by euclid.
      euclid. }
    replace (cp <? 0x10000) with false by lia. cbv zeta. unfold utf16_unit. cbn [app].
    change (in_left [_; _; _; _]) with 4. destruct (out <? 4); [done|].
    rewrite !land_255, land_0x3, !Z.shiftr_div_pow2 by lia.
    rewrite (lor_add_low 3) by euclid. rewrite (lor_add_low 2) by euclid.
    do 3 f_equal; [euclid|]. f_equal; [euclid|]. f_equal; [euclid|]. f_equal. euclid.
Qed.

Lemma utf8_push_round_valid cp c out : scalar cp -> 1 <= out ->
  utf8_push_round (utf16 cp ++ c) out = room_for (utf8 cp) out c.
Proof.
  intros Hs Ho. unfold utf8, utf16, room_for, scalar in *.
  destruct (Z.ltb_spec cp 0x80); [|destruct (Z.ltb_spec cp 0x800); [|destruct (Z.ltb_spec cp 0x10000)]].
  - replace (cp <? 0x10000) with true by lia. unfold utf16_unit. cbn [app utf8_push_round].
    rewrite land_0x80 by euclid.
    replace ((cp / 256 =? 0) && (cp mod 256 / 128 * 128 =? 0)) with true by euclid.
    change (in_left [cp]) with 1. replace (out <? 1) with false by lia.
    by rewrite Z.mod_small by lia.
  - replace (cp <? 0x10000) with true by lia. unfold utf16_unit. cbn [app utf8_push_round].
    rewrite land_0x80, land_0xf8 by euclid.
    replace ((cp / 256 =? 0) && (cp mod 256 / 128 * 128 =? 0)) with false by euclid.
    replace (cp / 256 / 8 * 8 =? 0) with true by euclid.
    change (in_left [_; _]) with 2. destruct (out <? 2); [done|].
    rewrite land_0x3f, Z.shiftr_div_pow2, Z.shiftl_mul_pow2 by lia.
    rewrite <- Z.lor_assoc, (lor_add_low 2 (cp / 256 * 2 ^ 2)) by euclid. rewrite (lor_add 5), (lor_add 7) by euclid.
    do 3 f_equal; [euclid|]. f_equal. euclid.
  - unfold utf16_unit. cbn [app utf8_push_round].
    rewrite land_0x80, land_0xf8, !land_0xfc by euclid.
    replace ((cp / 256 =? 0) && (cp mod 256 / 128 * 128 =? 0)) with false by euclid.
    replace (cp / 256 / 8 * 8 =? 0) with false by euclid.
    replace (cp / 256 / 4 * 4 =? 0xdc) with false by euclid.
    replace (cp / 256 / 4 * 4 =? 0xd8) with false by euclid. cbn [negb].
    rewrite lor_shiftl_add by euclid. replace (cp mod 256 + cp / 256 * 2 ^ 8) with cp by euclid.
    change (in_left [_; _; _]) with 3. cbv zeta. destruct (out <? 3); [done|].
    rewrite !land_0x3f, !Z.shiftr_div_pow2 by lia.
    by rewrite (lor_add 5), !(lor_add 7) by euclid.
  - set (c' := cp - 0x10000). assert (0 <= c' < 0x100000) by lia. unfold utf16_unit. cbn [app utf8_push_round].
    rewrite land_0x80, land_0xf8, !land_0xfc by euclid.
    replace (((0xD800 + c' / 1024) / 256 =? 0) && _) with false by (symmetry; apply andb_false_intro1; euclid).
    replace ((0xD800 + c' / 1024) / 256 / 8 * 8 =? 0) with false by euclid.
    replace ((0xD800 + c' / 1024) / 256 / 4 * 4 =? 0xdc) with false by euclid.
    replace ((0xD800 + c' / 1024) / 256 / 4 * 4 =? 0xd8) with true by euclid.
    replace ((0xDC00 + c' mod 1024) / 256 / 4 * 4 =? 0xdc) with true by euclid. cbn [negb].
    assert (0x10000 + ((0xDC00 + c' mod 1024) mod 256 ||| Z.shiftl (Z.land ((0xDC00 + c' mod 1024) / 256) 0x3) 8
              ||| Z.shiftl ((0xD800 + c' / 1024) mod 256) 10
              ||| Z.shiftl (Z.land ((0xD800 + c' / 1024) / 256) 0x3) 18) = cp) as ->.
    { rewrite !land_0x3.
      rewrite (lor_shiftl_add _ _ 8), (lor_shiftl_add _ _ 10), (lor_shiftl_add _ _ 18) by euclid.
      unfold c'. euclid. }
    change (in_left [_; _; _; _]) with 4. cbv zeta. destruct (out <? 4); [done|].
    rewrite !land_0x3f, !Z.shiftr_div_pow2 by lia.
    by rewrite (lor_add 4), !(lor_add 7) by euclid.
Qed.

(** ** The loops *)

(** What a loop needs of its round: it consumes at least a byte, keeps within
    the room, and does the same with more room. *)
Class RoundOk (min_in min_out : Z) (round : list Z -> Z -> step) : Prop := {
  round_min_in : 1 <= min_in;
  round_ok c out c' w :
    min_in <= in_left c -> min_out <= out -> round c out = inl (c', w) ->
    (exists k, k <> [] /\ c = k ++ c') /\ in_left w <= out /\
    forall out', out <= out' -> round c out' = inl (c', w)
}.

Lemma in_left_app a b : in_left (a ++ b) = in_left a + in_left b.
Proof. unfold in_left. rewrite length_app. lia. Qed.

Lemma in_left_nonneg c : 0 <= in_left c.
Proof. unfold in_left. lia. Qed.

Lemma in_left_nil c : in_left c = 0 <-> c = [].
Proof. unfold in_left. destruct c; simpl; split; (done || lia). Qed.

(** The same outcome, but for the value returned on success. *)
Definition same_outcome (r r' : conv_ret) : Prop :=
  match r, r' with
  | Done _, Done _ => True
  | Failed e, Failed e' => e = e'
  | _, _ => False
  end.

Lemma same_outcome_refl r : same_outcome r r.
Proof. by destruct r. Qed.

(** A converter keeps to its input and output, succeeds exactly when it
    converted all, and can be called again where it stopped. *)
Record conv_ok (f : converter) : Prop := {
  conv_in c out : exists k, c = k ++ in_rest (f c out);
  conv_out c out : 0 <= out ->
    in_left (written (f c out)) <= out /\ out_left (f c out) = out - in_left (written (f c out));
  conv_done c out : 0 <= out -> is_err (f c out) = false <-> in_rest (f c out) = [];
  conv_resume c out out' : 0 <= out <= out' ->
    let r := f c out in
    let r' := f (in_rest r) (out' - in_left (written r)) in
    written (f c out') = written r ++ written r' /\ in_rest (f c out') = in_rest r' /\
    out_left (f c out') = out_left r' /\ same_outcome (ret (f c out')) (ret r')
}.

Section loops.
Context (min_in min_out : Z) (round : list Z -> Z -> step) (finish : list Z -> conv_ret)
        `{Hr : !RoundOk min_in min_out round}
        (Hfin : forall c, (exists n, finish c = Done n) <-> c = []).

#[local] Abbreviation loop := (conv_loop min_in min_out round finish).

Lemma round_shorter c out c' w :
  min_in <= in_left c -> min_out <= out -> round c out = inl (c', w) -> (length c' < length c)%nat.
Proof.
  intros H1 H2 E. destruct (round_ok _ _ _ _ H1 H2 E) as [(k & Hk & ->) _].
  rewrite length_app. destruct k; simpl; [done|lia].
Qed.

Lemma conv_loop_fuel c fuel out : (length c <= fuel)%nat -> loop fuel c out = loop (length c) c out.
Proof.
  revert c out. induction fuel as [fuel IH] using lt_wf_ind. intros c out Hf.
  pose proof round_min_in as Hm.
  destruct fuel as [|fuel]; [by replace (length c) with O by lia|].
  destruct (length c) as [|n] eqn:El; cbn [conv_loop].
  - assert (in_left c = 0) as H0 by (unfold in_left; lia).
    by replace (min_in <=? in_left c) with false by lia.
  - destruct ((min_in <=? in_left c) && (min_out <=? out)) eqn:Eb; [|done]. bool_hyps.
    destruct (round c out) as [[c' w]|e] eqn:E; [|done].
    pose proof (round_shorter _ _ _ _ ltac:(done) ltac:(done) E).
    by rewrite (IH fuel), (IH n) by lia.
Qed.

(** One round, or the end of the loop. *)
Lemma conv_loop_eq c out :
  loop (length c) c out =
  if (min_in <=? in_left c) && (min_out <=? out) then
    match round c out with
    | inl (c', w) =>
        let r := loop (length c') c' (out - in_left w) in
        mk_conv (ret r) (in_rest r) (w ++ written r) (out_left r)
    | inr e => mk_conv (Failed e) c [] out
    end
  else mk_conv (finish c) c [] out.
Proof.
  destruct (length c) as [|n] eqn:El; cbn [conv_loop].
  - assert (in_left c = 0) as H0 by (unfold in_left; lia).
    pose proof round_min_in. by replace (min_in <=? in_left c) with false by lia.
  - destruct ((min_in <=? in_left c) && (min_out <=? out)) eqn:Eb; [|done]. bool_hyps.
    destruct (round c out) as [[c' w]|e] eqn:E; [|done].
    pose proof (round_shorter _ _ _ _ ltac:(done) ltac:(done) E).
    by rewrite (conv_loop_fuel c' n) by lia.
Qed.

(** Induction over the rounds of a run. *)
Lemma conv_loop_ind (P : list Z -> Z -> conv -> Prop) :
  (forall c out, (min_in <=? in_left c) && (min_out <=? out) = false ->
     P c out (mk_conv (finish c) c [] out)) ->
  (forall c out e, min_in <= in_left c -> min_out <= out -> round c out = inr e ->
     P c out (mk_conv (Failed e) c [] out)) ->
  (forall c out c' w r, min_in <= in_left c -> min_out <= out -> round c out = inl (c', w) ->
     r = loop (length c') c' (out - in_left w) -> P c' (out - in_left w) r ->
     P c out (mk_conv (ret r) (in_rest r) (w ++ written r) (out_left r))) ->
  forall c out, P c out (loop (length c) c out).
Proof.
  intros H1 H2 H3 c. remember (length c) as n eqn:Hn. revert c Hn.
  induction n as [n IH] using lt_wf_ind. intros c -> out. rewrite conv_loop_eq.
  destruct ((min_in <=? in_left c) && (min_out <=? out)) eqn:Eb; [|by apply H1]. bool_hyps.
  destruct (round c out) as [[c' w]|e] eqn:E; [|by apply H2].
  apply (H3 c out c' w); [done..|]. eapply IH; [by eapply round_shorter|done].
Qed.

Lemma conv_loop_ok : conv_ok (fun c out => loop (length c) c out).
Proof.
  split.
  - apply (conv_loop_ind (fun c _ r => exists k, c = k ++ in_rest r)).
    1, 2: intros; by exists [].
    intros c out c' w r H1 H2 E _ [k Hk]. destruct (round_ok _ _ _ _ H1 H2 E) as [(k' & _ & ->) _].
    exists (k' ++ k). by rewrite Hk at 1; rewrite app_assoc.
  - apply (conv_loop_ind (fun _ out r => 0 <= out ->
      in_left (written r) <= out /\ out_left r = out - in_left (written r))).
    1, 2: intros; cbn [written out_left]; change (in_left []) with 0; lia.
    intros c out c' w r H1 H2 E _ IH H0. destruct (round_ok _ _ _ _ H1 H2 E) as (_ & Hw & _).
    cbn [written out_left]. rewrite in_left_app. destruct IH as [IH1 IH2]; lia.
  - intros c out _. revert c out. apply (conv_loop_ind (fun _ _ r => is_err r = false <-> in_rest r = [])).
    + intros c out _. cbn [in_rest]. rewrite <- Hfin. unfold is_err. cbn [ret].
      destruct (finish c); split; try done; [by eexists|by intros [? ?]].
    + intros c out e H1 _ _. cbn. split; [done|]. intros ->. pose proof round_min_in. change (in_left []) with 0 in H1. lia.
    + intros c out c' w r _ _ _ _ IH. exact IH.
  - intros c out. revert c out.
    apply (conv_loop_ind (fun c out r => forall out', 0 <= out <= out' ->
      let r' := loop (length (in_rest r)) (in_rest r) (out' - in_left (written r)) in
      let r2 := loop (length c) c out' in
      written r2 = written r ++ written r' /\ in_rest r2 = in_rest r' /\
      out_left r2 = out_left r' /\ same_outcome (ret r2) (ret r'))).
    1: intros c out _ out' _. 2: intros c out e _ _ _ out' _.
    1, 2: cbn [in_rest written]; change (in_left []) with 0; rewrite Z.sub_0_r;
      do 3 (split; [done|]); apply same_outcome_refl.
    intros c out c' w r H1 H2 E _ IH out' Hout. cbn [in_rest written]. cbv zeta.
    destruct (round_ok _ _ _ _ H1 H2 E) as (_ & Hw & Hmono).
    rewrite (conv_loop_eq c out'), Hmono by lia.
    replace ((min_in <=? in_left c) && (min_out <=? out')) with true by lia.
    cbn [ret in_rest written out_left]. rewrite in_left_app, Z.sub_add_distr, <- app_assoc.
    destruct (IH (out' - in_left w) ltac:(lia)) as (IH1 & IH2 & IH3 & IH4).
    rewrite IH1. done.
Qed.
End loops.

(** A round that wrote [w] after reading the bytes [k]. *)
Lemma round_of (round : list Z -> Z -> step) k c c' w w' out :
  inl (c, w) = (inl (c', w') : step) -> k <> [] -> in_left w <= out ->
  (forall out', out <= out' -> round (k ++ c) out' = inl (c, w)) ->
  (exists k', k' <> [] /\ k ++ c = k' ++ c') /\ in_left w' <= out /\
  forall out', out <= out' -> round (k ++ c) out' = inl (c', w').
Proof. intros [= <- <-] Hk Hw Hm. split; [by exists k|]. done. Qed.

#[local] Ltac round_cases E :=
  repeat match type of E with
  | context [match ?x with _ => _ end] => destruct x eqn:?; try discriminate E
  end.

#[export] Instance ascii_pull_round_ok : RoundOk 1 2 ascii_pull_round.
Proof.
  split; [lia|]. intros [|c0 c] out c' w Hi Ho E; [done|].
  apply (round_of _ [c0] c c' _ w out E); [done|change (in_left _) with 2; lia|done].
Qed.

#[export] Instance ascii_push_round_ok : RoundOk 2 1 ascii_push_round.
Proof.
  split; [lia|]. intros [|c0 [|c1 c]] out c' w Hi Ho E; [done..|].
  apply (round_of _ [c0; c1] c c' _ w out E); [done|change (in_left _) with 1; lia|done].
Qed.

#[local] Ltac more_room :=
  let out' := fresh in let H := fresh in
  intros out' H; cbn [app utf8_pull_round utf8_push_round];
  repeat match goal with
  | E : ?b = _ |- context [if ?b then _ else _] => rewrite E
  | E : (_ <? ?n) = false |- context [out' <? ?n] => replace (out' <? n) with false by lia
  end; done.

#[export] Instance utf8_pull_round_ok : RoundOk 1 2 utf8_pull_round.
Proof.
  split; [lia|]. intros c out c' w Hi Ho E. destruct c as [|c0 c]; [done|].
  cbn [utf8_pull_round] in E.
  destruct (Z.land c0 0x80 =? 0) eqn:E0.
  { apply (round_of _ [c0] c c' _ w out E); [done|change (in_left _) with 2; lia|more_room]. }
  destruct (Z.land c0 0xe0 =? 0xc0) eqn:E1.
  { destruct c as [|c1 c]; [done|]. destruct (not_cont c1) eqn:E2; [done|].
    apply (round_of _ [c0; c1] c c' _ w out E); [done|change (in_left _) with 2; lia|more_room]. }
  destruct (Z.land c0 0xf0 =? 0xe0) eqn:E3.
  { destruct c as [|c1 [|c2 c]]; [done..|]. destruct (not_cont c1 || not_cont c2) eqn:E4; [done|].
    apply (round_of _ [c0; c1; c2] c c' _ w out E); [done|change (in_left _) with 2; lia|more_room]. }
  destruct (Z.land c0 0xf8 =? 0xf0) eqn:E5; [|done].
  destruct c as [|c1 [|c2 [|c3 c]]]; [done..|].
  destruct (not_cont c1 || not_cont c2 || not_cont c3) eqn:E6; [done|]. cbv zeta in E.
  set (cp := Z.land c3 _ ||| _ ||| _ ||| _) in *. destruct (cp <? 0x10000) eqn:E7.
  { apply (round_of _ [c0; c1; c2; c3] c c' _ w out E); [done|change (in_left _) with 2; lia|].
    intros out' H. cbn [app utf8_pull_round]. rewrite E0, E1, E3, E5, E6. fold cp. by rewrite E7. }
  destruct (out <? 4) eqn:E8; [done|].
  apply (round_of _ [c0; c1; c2; c3] c c' _ w out E); [done|change (in_left _) with 4; lia|].
  intros out' H. cbn [app utf8_pull_round]. rewrite E0, E1, E3, E5, E6. fold cp. rewrite E7. cbv zeta.
  by replace (out' <? 4) with false by lia.
Qed.

#[export] Instance utf8_push_round_ok : RoundOk 2 1 utf8_push_round.
Proof.
  split; [lia|]. intros c out c' w Hi Ho E. destruct c as [|u0 [|u1 c]]; [done..|].
  cbn [utf8_push_round] in E.
  destruct ((u1 =? 0) && (Z.land u0 0x80 =? 0)) eqn:E0.
  { apply (round_of _ [u0; u1] c c' _ w out E); [done|change (in_left _) with 1; lia|more_room]. }
  destruct (Z.land u1 0xf8 =? 0) eqn:E1.
  { destruct (out <? 2) eqn:Eo; [done|].
    apply (round_of _ [u0; u1] c c' _ w out E); [done|change (in_left _) with 2; lia|more_room]. }
  destruct (Z.land u1 0xfc =? 0xdc) eqn:E2; [done|].
  destruct (negb (Z.land u1 0xfc =? 0xd8)) eqn:E3; cbv zeta in E.
  { destruct (out <? 3) eqn:Eo; [done|].
    apply (round_of _ [u0; u1] c c' _ w out E); [done|change (in_left _) with 3; lia|more_room]. }
  destruct c as [|u2 [|u3 c]]; [done..|].
  destruct (negb (Z.land u3 0xfc =? 0xdc)) eqn:E4; [done|]. destruct (out <? 4) eqn:Eo; [done|].
  apply (round_of _ [u0; u1; u2; u3] c c' _ w out E); [done|change (in_left _) with 4; lia|more_room].
Qed.

Lemma finish_bytes_done c : (exists n, finish_bytes c = Done n) <-> c = [].
Proof.
  unfold finish_bytes. rewrite <- in_left_nil. pose proof (in_left_nonneg c).
  destruct (Z.ltb_spec 0 (in_left c)); split; try lia; [by intros [? ?]|by eexists].
Qed.

Lemma finish_units_done c : (exists n, finish_units c = Done n) <-> c = [].
Proof.
  unfold finish_units. rewrite <- in_left_nil. pose proof (in_left_nonneg c).
  destruct (Z.eqb_spec (in_left c) 1); [|destruct (Z.ltb_spec 1 (in_left c))];
    split; try lia; try (by intros [? ?]); by eexists.
Qed.

Lemma utf8_pull_ok : conv_ok utf8_pull.
Proof. exact (conv_loop_ok _ _ _ _ finish_bytes_done). Qed.
Lemma utf8_push_ok : conv_ok utf8_push.
Proof. exact (conv_loop_ok _ _ _ _ finish_units_done). Qed.
Lemma ascii_pull_ok : conv_ok ascii_pull.
Proof. exact (conv_loop_ok _ _ _ _ finish_bytes_done). Qed.

(** Only the value returned on success differs. *)
Lemma conv_ok_ext (f g : converter) :
  (forall c out, in_rest (f c out) = in_rest (g c out) /\ written (f c out) = written (g c out) /\
     out_left (f c out) = out_left (g c out) /\ same_outcome (ret (f c out)) (ret (g c out))) ->
  conv_ok g -> conv_ok f.
Proof.
  intros Heq [H1 H2 H3 H4]. split; intros c out.
  - destruct (Heq c out) as (-> & _). apply H1.
  - destruct (Heq c out) as (_ & -> & -> & _). apply H2.
  - intros Ho. destruct (Heq c out) as (-> & _ & _ & E). rewrite <- (H3 c out Ho). unfold is_err.
    by destruct (ret (f c out)), (ret (g c out)).
  - intros out' Ho. cbv zeta. destruct (Heq c out) as (-> & -> & _).
    destruct (Heq c out') as (-> & -> & -> & E').
    destruct (H4 c out out' Ho) as (-> & -> & -> & E2). cbv zeta in E2.
    set (c2 := in_rest (g c out)) in *. set (o2 := out' - _) in *.
    destruct (Heq c2 o2) as (-> & -> & -> & E3). do 3 (split; [done|]).
    destruct (ret (f c out')), (ret (g c out')), (ret (f c2 o2)), (ret (g c2 o2)); cbn in *; try done; congruence.
Qed.

Lemma ascii_push_ok : conv_ok ascii_push.
Proof.
  apply (conv_ok_ext _ (fun c out => conv_loop 2 1 ascii_push_round finish_units (length c) c out)).
  - intros c out. unfold ascii_push. destruct (ret _) eqn:E; cbn [ret in_rest written out_left];
      rewrite ?E; done.
  - exact (conv_loop_ok _ _ _ _ finish_units_done).
Qed.

Lemma iconv_copy_ok : conv_ok iconv_copy.
Proof.
  unfold iconv_copy. split; cbn [ret in_rest written out_left]; intros c out.
  - exists (take (Z.to_nat (Z.min (in_left c) out)) c). by rewrite take_drop.
  - unfold in_left. rewrite length_take. lia.
  - intros Ho. rewrite <- in_left_nil. unfold is_err, in_left. cbn [ret]. rewrite length_drop.
    destruct (Z.ltb_spec 0 (Z.of_nat (length c) - Z.min (Z.of_nat (length c)) out));
      split; intros; try done; lia.
  - intros out' Ho. unfold in_left. rewrite length_take, length_drop.
    set (n := Z.to_nat (Z.min (Z.of_nat (length c)) out)).
    set (m := Z.to_nat (Z.min (Z.of_nat (length c - n)) (out' - Z.of_nat (n `min` length c)))).
    assert (Z.to_nat (Z.min (Z.of_nat (length c)) out') = (n + m)%nat) as -> by lia.
    rewrite take_take_drop, drop_drop. do 2 (split; [done|]). split; [lia|].
    destruct (Z.ltb_spec 0 (Z.of_nat (length c) - Z.min (Z.of_nat (length c)) out')),
      (Z.ltb_spec 0 (Z.of_nat (length c - n) - Z.min (Z.of_nat (length c - n)) (out' - Z.of_nat (n `min` length c))));
      cbn; try done; lia.
Qed.

(** ** The converters between UTF-16LE and the other character sets *)

(** Every converter but that of UTF-16BE, which splits a unit when it is called
    with an odd number of bytes, keeps to its input and its output, succeeds
    exactly when it converted everything, and can be called again where it
    stopped. *)
Theorem converters_ok cs : cs <> UTF_16BE -> conv_ok (charset_pull cs) /\ conv_ok (charset_push cs).
Proof.
  destruct cs; intros Hcs; cbn [charset_pull charset_push].
  - split; apply iconv_copy_ok.
  - done.
  - split; [apply utf8_pull_ok|apply utf8_push_ok].
  - split; [apply ascii_pull_ok|apply ascii_push_ok].
Qed.

Lemma converters_ok_witness : conv_ok (charset_pull UTF8) /\ conv_ok (charset_push UTF8).
Proof. apply (converters_ok UTF8). discriminate. Defined.

(** The characters for which there is room, and the others. *)
Fixpoint fit (enc : Z -> list Z) (cps : list Z) (out : Z) : list Z * list Z :=
  match cps with
  | [] => ([], [])
  | cp :: cps' =>
      if in_left (enc cp) <=? out
      then let '(a, b) := fit enc cps' (out - in_left (enc cp)) in (cp :: a, b)
      else ([], cps)
  end.

Definition bytes_of (enc : Z -> list Z) (cps : list Z) : list Z := concat (map enc cps).

(** What a converter from one encoding to the other makes of valid text. *)
Definition converts (enc enc' : Z -> list Z) (cps : list Z) (out : Z) : conv :=
  let '(a, b) := fit enc' cps out in
  mk_conv (match b with [] => Done 0 | _ => Failed E2BIG end) (bytes_of enc b) (bytes_of enc' a)
    (out - in_left (bytes_of enc' a)).

Section valid.
Context (min_in min_out : Z) (round : list Z -> Z -> step) (finish : list Z -> conv_ret)
        `{Hr : !RoundOk min_in min_out round} (enc enc' : Z -> list Z)
        (Hround : forall cp c out, scalar cp -> min_out <= out ->
           round (enc cp ++ c) out = room_for (enc' cp) out c)
        (Hfin0 : finish [] = Done 0)
        (Hin : forall cp, scalar cp -> min_in <= in_left (enc cp))
        (Hfin1 : forall cp c, scalar cp -> finish (enc cp ++ c) = Failed E2BIG)
        (Hout : forall cp, scalar cp -> min_out <= in_left (enc' cp)).

Lemma conv_loop_valid cps out : Forall scalar cps ->
  conv_loop min_in min_out round finish (length (bytes_of enc cps)) (bytes_of enc cps) out =
  converts enc enc' cps out.
Proof.
  intros Hs. revert out. induction Hs as [|cp cps Hcp Hs IH]; intros out;
    rewrite (conv_loop_eq min_in min_out round finish); unfold converts; cbn [fit bytes_of map concat].
  - change (in_left []) with 0. pose proof round_min_in.
    replace (min_in <=? 0) with false by lia. cbn [andb]. by rewrite Hfin0, Z.sub_0_r.
  - fold (bytes_of enc cps). pose proof (Hin cp Hcp). pose proof (Hout cp Hcp).
    pose proof (in_left_nonneg (bytes_of enc cps)).
    rewrite in_left_app. replace (min_in <=? in_left (enc cp) + in_left (bytes_of enc cps)) with true by lia.
    cbn [andb]. destruct (Z.leb_spec min_out out) as [Ho|Ho].
    + rewrite Hround by done. unfold room_for.
      destruct (Z.ltb_spec out (in_left (enc' cp))) as [Hlt|Hge].
      * replace (in_left (enc' cp) <=? out) with false by lia. cbn [bytes_of map concat].
        by rewrite Z.sub_0_r.
      * replace (in_left (enc' cp) <=? out) with true by lia. cbv zeta. rewrite IH. unfold converts.
        destruct (fit enc' cps (out - in_left (enc' cp))) as [a b].
        cbn [ret in_rest written out_left bytes_of map concat]. fold (bytes_of enc' a).
        rewrite in_left_app. f_equal. lia.
    + replace (in_left (enc' cp) <=? out) with false by lia. cbn [bytes_of map concat].
      by rewrite Hfin1, Z.sub_0_r.
Qed.
End valid.

Lemma utf8_nonempty cp : 1 <= in_left (utf8 cp).
Proof.
  unfold utf8. repeat match goal with |- context [if ?b then _ else _] => destruct b end;
    unfold in_left; simpl length; lia.
Qed.

Lemma utf16_units cp : 2 <= in_left (utf16 cp).
Proof. unfold utf16. destruct (cp <? 0x10000); unfold in_left; simpl length; lia. Qed.

Lemma utf8_pull_valid cps out : Forall scalar cps ->
  utf8_pull (bytes_of utf8 cps) out = converts utf8 utf16 cps out.
Proof.
  intros Hs. apply (conv_loop_valid 1 2 utf8_pull_round finish_bytes); try done.
  - apply utf8_pull_round_valid.
  - intros cp _. apply utf8_nonempty.
  - intros cp c _. unfold finish_bytes. rewrite in_left_app. pose proof (utf8_nonempty cp).
    pose proof (in_left_nonneg c). by replace (0 <? _) with true by lia.
  - intros cp _. apply utf16_units.
Qed.

Lemma utf8_push_valid cps out : Forall scalar cps ->
  utf8_push (bytes_of utf16 cps) out = converts utf16 utf8 cps out.
Proof.
  intros Hs. apply (conv_loop_valid 2 1 utf8_push_round finish_units); try done.
  - apply utf8_push_round_valid.
  - intros cp _. apply utf16_units.
  - intros cp c _. unfold finish_units. rewrite in_left_app. pose proof (utf16_units cp).
    pose proof (in_left_nonneg c).
    replace (in_left (utf16 cp) + in_left c =? 1) with false by lia.
    by replace (1 <? _) with true by lia.
  - intros cp _. apply utf8_nonempty.
Qed.

(** With room for the whole text, all of it is converted. *)
Lemma fit_all enc cps out : in_left (bytes_of enc cps) <= out -> fit enc cps out = (cps, []).
Proof.
  revert out. induction cps as [|cp cps IH]; intros out H; [done|]. cbn [fit bytes_of map concat] in *.
  rewrite in_left_app in H. fold (bytes_of enc cps) in H. pose proof (in_left_nonneg (bytes_of enc cps)).
  replace (in_left (enc cp) <=? out) with true by lia. by rewrite IH by lia.
Qed.

(** C19: valid text is converted from one encoding into the other, character by
    character, as far as there is room: the call fails exactly when some
    characters are left, and leaves those.  With room for all of it, the text
    comes back from UTF-16 as it was. *)
Theorem utf8_conversion cps :
  Forall scalar cps ->
  (forall out, utf8_pull (bytes_of utf8 cps) out = converts utf8 utf16 cps out) /\
  (forall out, utf8_push (bytes_of utf16 cps) out = converts utf16 utf8 cps out) /\
  (forall out out', in_left (bytes_of utf16 cps) <= out -> in_left (bytes_of utf8 cps) <= out' ->
     let uc := written (utf8_pull (bytes_of utf8 cps) out) in
     ret (utf8_pull (bytes_of utf8 cps) out) = Done 0 /\
     ret (utf8_push uc out') = Done 0 /\ written (utf8_push uc out') = bytes_of utf8 cps).
Proof.
  intros Hs. split; [intros; by apply utf8_pull_valid|]. split; [intros; by apply utf8_push_valid|].
  intros out out' H H'. rewrite utf8_pull_valid by done. unfold converts at 1 2.
  rewrite fit_all by done. cbn [written ret]. rewrite utf8_push_valid by done. unfold converts.
  by rewrite fit_all.
Qed.

Lemma utf8_conversion_witness :
  let cps := [0x41; 0x20AC; 0x1F600] in
  (forall out, utf8_pull (bytes_of utf8 cps) out = converts utf8 utf16 cps out) /\
  (forall out, utf8_push (bytes_of utf16 cps) out = converts utf16 utf8 cps out) /\
  (forall out out', in_left (bytes_of utf16 cps) <= out -> in_left (bytes_of utf8 cps) <= out' ->
     let uc := written (utf8_pull (bytes_of utf8 cps) out) in
     ret (utf8_pull (bytes_of utf8 cps) out) = Done 0 /\
     ret (utf8_push uc out') = Done 0 /\ written (utf8_push uc out') = bytes_of utf8 cps).
Proof.
  apply (utf8_conversion [0x41; 0x20AC; 0x1F600]).
  repeat (apply List.Forall_cons; [unfold scalar; lia|]). apply List.Forall_nil.
Defined.

(** ** What the converters let through *)

(** A sequence of four bytes above U+10FFFF becomes a pair that begins with a
    low surrogate: the converter back refuses it. *)
Lemma utf8_pull_above :
  written (utf8_pull [0xF5; 0x80; 0x80; 0x80] 4) = [0xC0; 0xDC; 0x00; 0xDC] /\
  ret (utf8_push [0xC0; 0xDC; 0x00; 0xDC] 4) = Failed EILSEQ.
Proof. split; reflexivity. Qed.

(** A pair that lies across the buffer of [smb_iconv] is split, and the
    conversion of valid UTF-16BE fails. *)
Lemma swab_splits_pair :
  ret (smb_iconv (smb_iconv_open UTF8 UTF_16BE)
         (concat (replicate 1023 [0; 0x41]) ++ [0xD8; 0x3D; 0xDE; 0]) 5000) = Failed EINVAL.
Proof. vm_compute. reflexivity. Qed.
