(* ===== verification/Unistr.v ===== *)
(** * Strings of characters ([source4/lib/charset/charcnv.c, util_unistr.c])

    The functions on strings in the character set of the host, which go through
    a string character by character.  A string is the list of its bytes before
    the NUL.  The character set and the two case tables, which are loaded from
    files, are parameters.  [next_token], [alpha_strcpy] and the conversions of
    whole strings in packets are not modelled. *)

From S2P Require Import Prelude Iconv.

(** ** Characters *)

Definition INVALID_CODEPOINT : Z := 2 ^ 32 - 1.

Definition byte_at (s : list Z) (i : nat) : Z := nth i s 0.
Definition SVAL (s : list Z) : Z := byte_at s 0 + 256 * byte_at s 1.

Section unistr.
(** [lp_unix_charset()]; the tables, [None] when they cannot be loaded. *)
Context (unix : charset) (upcase_table lowcase_table : option (Z -> Z)).

(** The character at the start of a string, and its size. *)
Definition next_codepoint (str : list Z) : Z * Z :=
  if Z.land (byte_at str 0) 0x80 =? 0 then (byte_at str 0, 1)
  else
    let ilen_orig := in_left (take 5 str) in
    let descriptor := smb_iconv_open UTF_16LE unix in
    let r := smb_iconv descriptor (take 5 str) 2 in
    let result (buf rest : list Z) (olen : Z) : Z * Z :=
      let size := ilen_orig - in_left rest in
      if olen =? 2 then (SVAL buf, size)
      else if olen =? 4 then
        (0x10000 + (byte_at buf 2 ||| Z.shiftl (Z.land (byte_at buf 3) 0x3) 8
                    ||| Z.shiftl (byte_at buf 0) 10 ||| Z.shiftl (Z.land (byte_at buf 1) 0x3) 18), size)
      else (INVALID_CODEPOINT, size) in
    if out_left r =? 2 then
      let r := smb_iconv descriptor (in_rest r) 4 in
      if out_left r =? 4 then (INVALID_CODEPOINT, 1)
      else result (written r) (in_rest r) (4 - out_left r)
    else result (written r) (in_rest r) (2 - out_left r).

(** The bytes of a character, [None] on failure. *)
Definition push_codepoint (c : Z) : option (list Z) :=
  if c <? 128 then Some [c]
  else
    let descriptor := smb_iconv_open unix UTF_16LE in
    let buf :=
      if c <? 0x10000 then [Z.land c 0xFF; Z.shiftr c 8]
      else
        let c := c - 0x10000 in
        [Z.land (Z.shiftr c 10) 0xFF; u8 (Z.shiftr c 18 ||| 0xd8); Z.land c 0xFF;
         Z.land (Z.shiftr c 8) 0x3 ||| 0xdc] in
    let r := smb_iconv descriptor buf 5 in
    if negb (in_left (in_rest r) =? 0) then None else Some (written r).

(** [toupper] and [tolower] of the C locale. *)
Definition toupper (c : Z) : Z := if (97 <=? c) && (c <=? 122) then c - 32 else c.
Definition tolower (c : Z) : Z := if (65 <=? c) && (c <=? 90) then c + 32 else c.

Definition toupper_w (val : Z) : Z :=
  if val <? 128 then toupper val
  else
    match upcase_table with
    | None => val
    | Some table => if val &? 0xFFFF0000 then val else table val
    end.
Definition tolower_w (val : Z) : Z :=
  if val <? 128 then tolower val
  else
    match lowcase_table with
    | None => val
    | Some table => if val &? 0xFFFF0000 then val else table val
    end.

Definition codepoint_cmpi (c1 c2 : Z) : Z :=
  if (c1 =? c2) || (toupper_w c1 =? toupper_w c2) then 0 else s32 (c1 - c2).

(** ** Comparison *)

(** [strcasecmp] of the C library, on bytes. *)
Fixpoint strcasecmp (s1 s2 : list Z) : Z :=
  match s1, s2 with
  | c1 :: s1', c2 :: s2' =>
      if tolower c1 =? tolower c2 then strcasecmp s1' s2' else tolower c1 - tolower c2
  | _, _ => tolower (byte_at s1 0) - tolower (byte_at s2 0)
  end.

(** A character is at least a byte, so the fuel is the length of a string;
    [char] is signed. *)
Fixpoint strcasecmp_loop (fuel : nat) (s1 s2 : list Z) : Z :=
  match fuel, s1, s2 with
  | S fuel, _ :: _, _ :: _ =>
      let '(c1, size1) := next_codepoint s1 in
      let '(c2, size2) := next_codepoint s2 in
      let s1 := drop (Z.to_nat size1) s1 in
      let s2 := drop (Z.to_nat size2) s2 in
      if c1 =? c2 then strcasecmp_loop fuel s1 s2
      else if (c1 =? INVALID_CODEPOINT) || (c2 =? INVALID_CODEPOINT) then strcasecmp s1 s2
      else if negb (toupper_w c1 =? toupper_w c2) then s32 (c1 - c2)
      else strcasecmp_loop fuel s1 s2
  | _, _, _ => s8 (byte_at s1 0) - s8 (byte_at s2 0)
  end.

Definition strcasecmp_m (s1 s2 : list Z) : Z := strcasecmp_loop (length s1) s1 s2.

Definition strequal_w (s1 s2 : list Z) : bool := strcasecmp_m s1 s2 =? 0.

(** ** Iteration

    The loop [while ( *s) { c = next_codepoint(s, &size); ... s += size; }]:
    the characters it sees, each with the position it has and its size. *)

Fixpoint characters_from (fuel : nat) (s : list Z) (pos : Z) : list (Z * Z * Z) :=
  match fuel, s with
  | S fuel, _ :: _ =>
      let '(c, size) := next_codepoint s in
      (c, pos, size) :: characters_from fuel (drop (Z.to_nat size) s) (pos + size)
  | _, _ => []
  end.

Definition characters (s : list Z) : list (Z * Z * Z) := characters_from (length s) s 0.

Definition codepoint (x : Z * Z * Z) : Z := x.1.1.
Definition position (x : Z * Z * Z) : Z := x.1.2.

Definition count_chars_w (s : list Z) (c : Z) : Z :=
  in_left (map codepoint (List.filter (fun x => codepoint x =? c) (characters s))).

(** The ASCII characters at the start are counted by a loop of their own. *)
Fixpoint strlen_m (s : list Z) : Z :=
  match s with
  | [] => 0
  | b :: s' =>
      if Z.land b 0x80 =? 0 then 1 + strlen_m s'
      else fold_right (fun x n => (if codepoint x <? 0x10000 then 1 else 2) + n) 0 (characters s)
  end.

(** The bytes [strchr] looks at; a position, or [None]. *)
Definition strchr (s : list Z) (c : Z) : option Z :=
  Z.of_nat <$> find_idx (fun b => b =? c) s.
Definition strrchr (s : list Z) (c : Z) : option Z :=
  (fun i => in_left s - 1 - Z.of_nat i) <$> find_idx (fun b => b =? c) (reverse s).

(** [c] is of 7 bits and not NUL. *)
Definition strchr_m (s : list Z) (c : Z) : option Z :=
  if Z.land c 0xC0 =? 0 then strchr s c
  else position <$> List.find (fun x => codepoint x =? c) (characters s).

Definition strrchr_m (s : list Z) (c : Z) : option Z :=
  if Z.land c 0xC0 =? 0 then strrchr s c
  else position <$> last (List.filter (fun x => codepoint x =? c) (characters s)).

Definition strhaslower (s : list Z) : bool :=
  existsb (fun x => negb (codepoint x =? toupper_w (codepoint x))) (characters s).
Definition strhasupper (s : list Z) : bool :=
  existsb (fun x => negb (codepoint x =? tolower_w (codepoint x))) (characters s).

(** The result has room for twice the bytes of the source; [None] when a
    character cannot be converted back. *)
Fixpoint recode (f : Z -> Z) (cs : list (Z * Z * Z)) : option (list Z) :=
  match cs with
  | [] => Some []
  | x :: cs => w ← push_codepoint (f (codepoint x)); dest ← recode f cs; Some (w ++ dest)
  end.
Definition strlower_talloc (src : list Z) : option (list Z) := recode tolower_w (characters src).
Definition strupper_talloc (src : list Z) : option (list Z) := recode toupper_w (characters src).

(** In place: a character that grows, or cannot be converted back, is a panic
    ([None]).  What is written ends at or before the next character to be
    read. *)
Fixpoint recode_m (f : Z -> Z) (cs : list (Z * Z * Z)) : option (list Z) :=
  match cs with
  | [] => Some []
  | (c, _, c_size) :: cs =>
      w ← push_codepoint (f c);
      if c_size <? in_left w then None else dest ← recode_m f cs; Some (w ++ dest)
  end.

Fixpoint strcase_m (g f : Z -> Z) (s : list Z) : option (list Z) :=
  match s with
  | [] => Some []
  | b :: s' => if Z.land b 0x80 =? 0 then d ← strcase_m g f s'; Some (g b :: d)
               else recode_m f (characters s)
  end.
Definition strlower_m : list Z -> option (list Z) := strcase_m tolower tolower_w.
Definition strupper_m : list Z -> option (list Z) := strcase_m toupper toupper_w.

(** The byte of a character that is [oldc] is replaced; both are of 7 bits. *)
Fixpoint replace_from (fuel : nat) (oldc newc : Z) (s : list Z) : list Z :=
  match fuel, s with
  | S fuel, _ :: s' =>
      let '(c, size) := next_codepoint s in
      let n := Z.to_nat size in
      (if c =? oldc then newc :: take (n - 1) s' else take n s)
        ++ replace_from fuel oldc newc (drop n s)
  | _, _ => s
  end.
Definition string_replace_w (s : list Z) (oldc newc : Z) : list Z :=
  replace_from (length s) oldc newc s.
End unistr.

(** ** One character of UTF-8 *)

Section utf8_strings.
Context (upcase_table lowcase_table : option (Z -> Z)).

#[local] Abbreviation next := (next_codepoint UTF8).
#[local] Abbreviation push := (push_codepoint UTF8).
#[local] Abbreviation chars := (characters UTF8).

Lemma utf8_length cp : (length (utf8 cp) <= 4)%nat.
Proof. unfold utf8. repeat match goal with |- context [if ?b then _ else _] => destruct b end; simpl; lia. Qed.

Lemma take_utf8 cp s : take 5 (utf8 cp ++ s) = utf8 cp ++ take (5 - length (utf8 cp)) s.
Proof. rewrite take_app. f_equal. apply take_ge. pose proof (utf8_length cp). lia. Qed.

(** One call of the converter on a character of which there is room. *)
Lemma pull_first cp c out : scalar cp -> out = in_left (utf16 cp) ->
  written (utf8_pull (utf8 cp ++ c) out) = utf16 cp /\
  in_rest (utf8_pull (utf8 cp ++ c) out) = c /\ out_left (utf8_pull (utf8 cp ++ c) out) = 0.
Proof.
  intros Hs ->. unfold utf8_pull. rewrite (conv_loop_eq 1 2 utf8_pull_round finish_bytes).
  pose proof (utf8_nonempty cp). pose proof (utf16_units cp). pose proof (in_left_nonneg c).
  rewrite in_left_app. replace (1 <=? in_left (utf8 cp) + in_left c) with true by lia.
  replace (2 <=? in_left (utf16 cp)) with true by lia. cbn [andb].
  rewrite utf8_pull_round_valid by done. unfold room_for. rewrite Z.ltb_irrefl. cbv zeta.
  rewrite Z.sub_diag, (conv_loop_eq 1 2 utf8_pull_round finish_bytes).
  replace ((1 <=? in_left c) && (2 <=? 0)) with false by (by rewrite andb_false_r).
  cbn [written in_rest out_left]. by rewrite app_nil_r.
Qed.

Lemma pull_no_room cp c : scalar cp -> 0x10000 <= cp ->
  utf8_pull (utf8 cp ++ c) 2 = mk_conv (Failed E2BIG) (utf8 cp ++ c) [] 2.
Proof.
  intros Hs Hc. unfold utf8_pull. rewrite (conv_loop_eq 1 2 utf8_pull_round finish_bytes).
  pose proof (utf8_nonempty cp). pose proof (in_left_nonneg c).
  rewrite in_left_app. replace (1 <=? in_left (utf8 cp) + in_left c) with true by lia.
  cbn [andb Z.leb Z.compare Pos.compare Pos.compare_cont]. rewrite utf8_pull_round_valid by lia || done.
  unfold room_for, utf16. by replace (cp <? 0x10000) with false by lia.
Qed.

Lemma utf8_first_byte cp s : scalar cp ->
  byte_at (utf8 cp ++ s) 0 = byte_at (utf8 cp) 0 /\ 0 <= byte_at (utf8 cp) 0 < 256 /\
  (byte_at (utf8 cp) 0 < 128 <-> cp < 128) /\ (cp < 128 -> utf8 cp = [cp]).
Proof.
  intros Hs. unfold scalar, utf8 in *. unfold byte_at.
  destruct (Z.ltb_spec cp 0x80); [|destruct (Z.ltb_spec cp 0x800); [|destruct (Z.ltb_spec cp 0x10000)]];
    cbn [app nth]; split; try done; (split; [Z.to_euclidean_division_equations; lia|]);
    (split; [Z.to_euclidean_division_equations; lia|]); (done || lia).
Qed.

Lemma land_0x80_zero b : 0 <= b < 256 -> (Z.land b 0x80 =? 0) = (b <? 128).
Proof.
  intros Hb. rewrite land_0x80 by done. apply eq_true_iff_eq. rewrite Z.eqb_eq, Z.ltb_lt.
  Z.to_euclidean_division_equations; lia.
Qed.

Lemma next_codepoint_utf8 cp s : scalar cp -> next (utf8 cp ++ s) = (cp, in_left (utf8 cp)).
Proof.
  intros Hs. destruct (utf8_first_byte cp s Hs) as (Hb & Hr & Hlt & Hone). unfold next_codepoint.
  rewrite Hb, land_0x80_zero by done. destruct (Z.ltb_spec (byte_at (utf8 cp) 0) 128) as [H|H].
  { apply Hlt in H. by rewrite (Hone H). }
  assert (128 <= cp) as Hc by lia. cbv zeta. rewrite take_utf8.
  cbn [smb_iconv smb_iconv_open charset_eqb charset_pull].
  set (c := take _ s). assert (in_left (utf8 cp ++ c) - in_left c = in_left (utf8 cp)) as Hsize
    by (rewrite in_left_app; lia).
  destruct (Z.ltb_spec cp 0x10000) as [Hbmp|Hast].
  - assert (utf16 cp = utf16_unit cp) as Hu by (unfold utf16; by replace (cp <? 0x10000) with true by lia).
    destruct (pull_first cp c 2) as (-> & -> & ->); [done|by rewrite Hu|].
    cbn [Z.eqb Z.sub Z.add Z.opp Pos.eqb]. rewrite Hsize, Hu. f_equal.
    unfold SVAL, utf16_unit, byte_at. cbn [nth]. pose proof (Z.div_mod cp 256). lia.
  - assert (in_left (utf16 cp) = 4) as Hu by (unfold utf16; by replace (cp <? 0x10000) with false by lia).
    rewrite pull_no_room by done. cbn [out_left in_rest]. change (2 =? 2) with true. cbv iota.
    destruct (pull_first cp c 4) as (-> & -> & ->); [done|done|].
    change (0 =? 4) with false. change (4 - 0 =? 2) with false. change (4 - 0 =? 4) with true. cbv iota.
    rewrite Hsize. f_equal. unfold utf16, utf16_unit. replace (cp <? 0x10000) with false by lia.
    unfold byte_at. cbn [app nth]. unfold scalar in Hs.
    rewrite !land_0x3, (lor_shiftl_add _ _ 8), (lor_shiftl_add _ _ 10), (lor_shiftl_add _ _ 18)
      by (Z.to_euclidean_division_equations; lia).
    Z.to_euclidean_division_equations; lia.
Qed.

Lemma push_codepoint_utf8 cp : scalar cp -> push cp = Some (utf8 cp).
Proof.
  intros Hs. unfold push_codepoint. destruct (Z.ltb_spec cp 128) as [H|H].
  { unfold utf8. by replace (cp <? 0x80) with true by lia. }
  cbv zeta. match goal with |- context [smb_iconv _ ?b 5] => set (buf := b) end.
  assert (buf = bytes_of utf16 [cp]) as ->.
  { unfold buf, bytes_of, utf16, utf16_unit, scalar in *. cbn [map concat].
    destruct (cp <? 0x10000) eqn:E; cbn [app]; rewrite ?land_255, ?land_0x3, ?Z.shiftr_div_pow2 by lia; [done|].
    unfold u8. rewrite (lor_add_low 3), (lor_add_low 2) by (Z.to_euclidean_division_equations; lia).
    f_equal; [Z.to_euclidean_division_equations; lia|]. f_equal; [Z.to_euclidean_division_equations; lia|].
    f_equal; [Z.to_euclidean_division_equations; lia|]. f_equal. Z.to_euclidean_division_equations; lia. }
  cbn [smb_iconv smb_iconv_open charset_eqb charset_push].
  rewrite utf8_push_valid by (apply List.Forall_cons; [done|apply List.Forall_nil]).
  unfold converts, fit. pose proof (utf8_length cp).
  replace (in_left (utf8 cp) <=? 5) with true by (unfold in_left; lia).
  cbn [in_rest written bytes_of map concat]. by rewrite app_nil_r.
Qed.

(** ** Progress *)

Lemma utf8_pull_consumes c out :
  in_left (in_rest (utf8_pull c out)) < in_left c \/ out_left (utf8_pull c out) = out.
Proof.
  unfold utf8_pull. rewrite (conv_loop_eq 1 2 utf8_pull_round finish_bytes).
  destruct ((1 <=? in_left c) && (2 <=? out)) eqn:Eb; [|by right]. bool_hyps.
  destruct (utf8_pull_round c out) as [[c' w]|e] eqn:E; [|by right]. left. cbn [in_rest].
  destruct (round_ok _ _ _ _ ltac:(done) ltac:(done) E) as [(k & Hk & ->) _].
  destruct (conv_in _ utf8_pull_ok c' (out - in_left w)) as [k' Hk']. unfold utf8_pull in Hk'.
  apply (f_equal in_left) in Hk'. rewrite !in_left_app in *. pose proof (in_left_nonneg k').
  assert (in_left k <> 0) by (by rewrite in_left_nil). pose proof (in_left_nonneg k). lia.
Qed.

Lemma next_codepoint_size s : s <> [] -> 1 <= (next s).2 <= in_left s.
Proof.
  intros Hs. assert (1 <= in_left (take 5 s) <= in_left s) as Ht.
  { destruct s as [|b s]; [done|]. unfold in_left. rewrite length_take. simpl length. lia. }
  unfold next_codepoint. destruct (_ =? 0); [cbn; lia|]. cbv zeta.
  cbn [smb_iconv smb_iconv_open charset_eqb charset_pull].
  set (r := utf8_pull (take 5 s) 2). set (r2 := utf8_pull (in_rest r) 4).
  assert (exists k, take 5 s = k ++ in_rest r) as [k Hk] by apply utf8_pull_ok.
  assert (exists k, in_rest r = k ++ in_rest r2) as [k2 Hk2] by apply utf8_pull_ok.
  apply (f_equal in_left) in Hk, Hk2. rewrite in_left_app in Hk, Hk2.
  pose proof (in_left_nonneg k). pose proof (in_left_nonneg k2).
  pose proof (in_left_nonneg (in_rest r)). pose proof (in_left_nonneg (in_rest r2)).
  pose proof (utf8_pull_consumes (take 5 s) 2) as Hc. pose proof (utf8_pull_consumes (in_rest r) 4) as Hc2.
  fold r in Hc. fold r2 in Hc2.
  destruct (Z.eqb_spec (out_left r) 2); [destruct (Z.eqb_spec (out_left r2) 4)|];
    repeat match goal with |- context [if ?b then _ else _] => destruct b end; cbn [snd]; lia.
Qed.

Lemma drop_bytes s n : 0 <= n <= in_left s -> in_left (drop (Z.to_nat n) s) = in_left s - n.
Proof. unfold in_left. rewrite length_drop. lia. Qed.

Lemma characters_from_sizes fuel s pos : (length s <= fuel)%nat ->
  fold_right (fun x n => x.2 + n) 0 (characters_from UTF8 fuel s pos) = in_left s.
Proof.
  revert s pos. induction fuel as [|fuel IH]; intros s pos Hf.
  { assert (s = []) as -> by (destruct s; [done|simpl in Hf; lia]). done. }
  cbn [characters_from]. destruct s as [|b s]; [done|].
  pose proof (next_codepoint_size (b :: s) ltac:(done)) as Hn.
  destruct (next (b :: s)) as [c size]. cbn [fold_right snd] in *.
  pose proof (drop_bytes (b :: s) size ltac:(lia)) as Hd.
  rewrite IH; [lia|]. unfold in_left in *. lia.
Qed.

(** ** Text *)

(** The characters of a C string. *)
Definition text (cps : list Z) : Prop := Forall (fun cp => scalar cp /\ cp <> 0) cps.

Lemma bytes_cons enc cp cps : bytes_of enc (cp :: cps) = enc cp ++ bytes_of enc cps.
Proof. done. Qed.

Lemma bytes_length cps : (length cps <= length (bytes_of utf8 cps))%nat.
Proof.
  induction cps as [|cp cps IH]; [done|]. rewrite bytes_cons, length_app. simpl length.
  pose proof (utf8_nonempty cp). unfold in_left in *. lia.
Qed.

Lemma drop_utf8 cp s : drop (Z.to_nat (in_left (utf8 cp))) (utf8 cp ++ s) = s.
Proof. unfold in_left. rewrite Nat2Z.id. apply drop_app_length. Qed.

Lemma utf8_cons cp s : exists b s', utf8 cp ++ s = b :: s'.
Proof. pose proof (utf8_nonempty cp). destruct (utf8 cp); [done|]. simpl. eauto. Qed.

Lemma characters_from_text cps fuel pos : text cps -> (length cps <= fuel)%nat ->
  map codepoint (characters_from UTF8 fuel (bytes_of utf8 cps) pos) = cps /\
  map snd (characters_from UTF8 fuel (bytes_of utf8 cps) pos) = map (fun cp => in_left (utf8 cp)) cps.
Proof.
  intros Ht. revert fuel pos. induction Ht as [|cp cps [Hcp _] Ht IH]; intros [|fuel] pos Hf;
    [done|done|simpl in Hf; lia|].
  rewrite bytes_cons. destruct (utf8_cons cp (bytes_of utf8 cps)) as (b & s' & E).
  cbn [characters_from]. rewrite E, <- E, next_codepoint_utf8, drop_utf8 by done.
  simpl in Hf. destruct (IH fuel (pos + in_left (utf8 cp)) ltac:(lia)) as [IH1 IH2].
  cbn [map codepoint fst snd]. by rewrite IH1, IH2.
Qed.

Lemma characters_text cps : text cps ->
  map codepoint (chars (bytes_of utf8 cps)) = cps /\
  map snd (chars (bytes_of utf8 cps)) = map (fun cp => in_left (utf8 cp)) cps.
Proof. intros Ht. apply characters_from_text; [done|apply bytes_length]. Qed.

(** The loop over a string ends at its end, whatever the bytes are; on UTF-8 it
    sees the characters of the text, which [push_codepoint] writes back. *)
Theorem characters_correct :
  (forall s, fold_right (fun x n => x.2 + n) 0 (chars s) = in_left s) /\
  (forall cps, text cps -> map codepoint (chars (bytes_of utf8 cps)) = cps) /\
  (forall cp, scalar cp -> push cp = Some (utf8 cp)).
Proof.
  split; [intros s; by apply characters_from_sizes|].
  split; [intros cps Ht; by apply characters_text|apply push_codepoint_utf8].
Qed.

(** ** Comparison *)

#[local] Abbreviation upper := (toupper_w upcase_table).
#[local] Abbreviation lower := (tolower_w lowcase_table).
#[local] Abbreviation strcasecmp_m := (strcasecmp_m UTF8 upcase_table).

Lemma s8_first_byte cp s : scalar cp -> cp <> 0 -> s8 (byte_at (utf8 cp ++ s) 0) <> 0.
Proof.
  intros Hs H0. destruct (utf8_first_byte cp s Hs) as (-> & Hr & Hlt & Hone).
  assert (byte_at (utf8 cp) 0 <> 0).
  { intros E. assert (cp < 128) as Hc by (apply Hlt; lia). rewrite (Hone Hc) in E. done. }
  unfold s8. Z.to_euclidean_division_equations; lia.
Qed.

Lemma strcasecmp_loop_text cps1 cps2 fuel : text cps1 -> text cps2 -> (length cps1 <= fuel)%nat ->
  strcasecmp_loop UTF8 upcase_table fuel (bytes_of utf8 cps1) (bytes_of utf8 cps2) = 0 <->
  map upper cps1 = map upper cps2.
Proof.
  intros Ht1. revert cps2 fuel. induction Ht1 as [|c1 cps1 [Hs1 Hn1] Ht1 IH]; intros cps2 fuel Ht2 Hf.
  - destruct Ht2 as [|c2 cps2 [Hs2 Hn2] Ht2].
    { by destruct fuel. }
    pose proof (s8_first_byte c2 (bytes_of utf8 cps2) Hs2 Hn2).
    change (bytes_of utf8 []) with (@nil Z). rewrite bytes_cons. change (s8 (byte_at [] 0)) with 0 in *.
    destruct fuel; cbn [strcasecmp_loop map]; change (s8 (byte_at [] 0)) with 0; (split; [lia|done]).
  - destruct fuel as [|fuel]; [simpl in Hf; lia|]. rewrite bytes_cons.
    destruct (utf8_cons c1 (bytes_of utf8 cps1)) as (b1 & s1 & E1). cbn [strcasecmp_loop].
    destruct Ht2 as [|c2 cps2 [Hs2 Hn2] Ht2].
    { pose proof (s8_first_byte c1 (bytes_of utf8 cps1) Hs1 Hn1). rewrite E1, <- E1.
      change (bytes_of utf8 []) with (@nil Z). change (s8 (byte_at [] 0)) with 0. cbn [map].
      split; [lia|done]. }
    rewrite bytes_cons. destruct (utf8_cons c2 (bytes_of utf8 cps2)) as (b2 & s2 & E2).
    rewrite E1, E2, <- E1, <- E2, !next_codepoint_utf8, !drop_utf8 by done. cbn [map].
    simpl in Hf. specialize (IH cps2 fuel Ht2 ltac:(lia)).
    destruct (Z.eqb_spec c1 c2) as [->|Hne]; [rewrite IH; split; congruence|].
    unfold scalar in *.
    replace ((c1 =? INVALID_CODEPOINT) || (c2 =? INVALID_CODEPOINT)) with false
      by (unfold INVALID_CODEPOINT; lia).
    destruct (Z.eqb_spec (upper c1) (upper c2)) as [->|Hu]; cbn [negb]; [rewrite IH; split; congruence|].
    split; [|congruence]. rewrite s32_small by lia. lia.
Qed.

(** [strcasecmp_m] is 0 on texts that differ only in case, and on no others.
    It orders nothing: the characters that differ are compared as they are, so
    that a < b, b = B and B < a; and where one of two characters is not valid
    only what follows is compared, so a bad byte equals any letter. *)
Theorem strcasecmp_m_correct :
  (forall cps1 cps2, text cps1 -> text cps2 ->
     strcasecmp_m (bytes_of utf8 cps1) (bytes_of utf8 cps2) = 0 <-> map upper cps1 = map upper cps2) /\
  (strcasecmp_m [0x61] [0x62] < 0 /\ strcasecmp_m [0x62] [0x42] = 0 /\ strcasecmp_m [0x42] [0x61] < 0) /\
  strcasecmp_m [0xFF] [0x61] = 0.
Proof.
  split.
  - intros cps1 cps2 H1 H2. apply strcasecmp_loop_text; [done..|apply bytes_length].
  - repeat split.
Qed.

(** ** Case conversion *)

Lemma recode_text f cs cps : map codepoint cs = cps -> Forall scalar (map f cps) ->
  recode UTF8 f cs = Some (bytes_of utf8 (map f cps)).
Proof.
  intros <-. induction cs as [|x cs IH]; intros Hf; [done|]. cbn [map] in *.
  apply Forall_cons in Hf as [Hx Hf]. cbn [recode]. rewrite push_codepoint_utf8 by done.
  cbn [mbind option_bind]. by rewrite IH.
Qed.

Lemma recode_m_text f cs cps : map codepoint cs = cps ->
  map snd cs = map (fun cp => in_left (utf8 cp)) cps -> Forall scalar (map f cps) ->
  recode_m UTF8 f cs =
  if forallb (fun cp => in_left (utf8 (f cp)) <=? in_left (utf8 cp)) cps
  then Some (bytes_of utf8 (map f cps)) else None.
Proof.
  revert cps. induction cs as [|[[c pos] size] cs IH]; intros cps; cbn [map codepoint fst snd];
    [by intros <-|].
  destruct cps as [|cp cps]; [done|]. intros [= -> Hc]. cbn [map]. intros [= -> Hs] Hf.
  apply Forall_cons in Hf as [Hx Hf]. cbn [recode_m forallb].
  rewrite push_codepoint_utf8 by done. cbn [mbind option_bind].
  rewrite (Z.leb_antisym (in_left (utf8 cp))). destruct (in_left (utf8 cp) <? in_left (utf8 (f cp))); [done|].
  cbn [negb andb]. rewrite (IH cps) by done. by destruct (forallb _ cps).
Qed.

(** The ASCII prefix is converted byte by byte. *)
Lemma strcase_m_text g f cps : text cps -> Forall scalar (map f cps) ->
  (forall c, 0 <= c < 128 -> f c = g c /\ 0 <= g c < 128) ->
  strcase_m UTF8 g f (bytes_of utf8 cps) =
  if forallb (fun cp => in_left (utf8 (f cp)) <=? in_left (utf8 cp)) cps
  then Some (bytes_of utf8 (map f cps)) else None.
Proof.
  intros Ht Hf Hg. induction Ht as [|cp cps [Hs Hn] Ht IH]; [done|].
  destruct (utf8_first_byte cp (bytes_of utf8 cps) Hs) as (Hb & Hr & Hlt & Hone).
  destruct (Z.ltb_spec cp 128) as [Hc|Hc].
  - cbn [map] in Hf. apply Forall_cons in Hf as [Hx Hf]. rewrite bytes_cons, (Hone Hc).
    assert (0 <= cp) by (unfold scalar in Hs; lia). destruct (Hg cp ltac:(lia)) as [Hfg Hgr].
    cbn [app strcase_m]. rewrite land_0x80_zero by lia. replace (cp <? 128) with true by lia.
    rewrite IH by done. cbn [forallb map]. rewrite bytes_cons, (Hone Hc), Hfg.
    assert (utf8 (g cp) = [g cp]) as Hu by (unfold utf8; by replace (g cp <? 0x80) with true by lia).
    rewrite Hu. change (in_left [g cp] <=? in_left [cp]) with true. cbn [andb].
    by destruct (forallb _ cps).
  - destruct (characters_text (cp :: cps)) as [Hch Hsz]; [by constructor|].
    rewrite <- (recode_m_text f (chars (bytes_of utf8 (cp :: cps)))) by done.
    rewrite bytes_cons in *. destruct (utf8_cons cp (bytes_of utf8 cps)) as (b & s' & E).
    rewrite E. cbn [strcase_m]. unfold byte_at at 1 in Hb. rewrite E in Hb. cbn [nth] in Hb.
    rewrite Hb, land_0x80_zero by done. by replace (byte_at (utf8 cp) 0 <? 128) with false by lia.
Qed.

(** When the table of lower case maps characters to characters, a text is
    converted character by character; in place, exactly when no character
    grows, and otherwise [strlower_m] panics.  It also panics on a byte that is
    not valid. *)
Theorem strlower_correct cps :
  text cps -> Forall scalar (map lower cps) ->
  strlower_talloc UTF8 lowcase_table (bytes_of utf8 cps) = Some (bytes_of utf8 (map lower cps)) /\
  strlower_m UTF8 lowcase_table (bytes_of utf8 cps) =
    (if forallb (fun cp => in_left (utf8 (lower cp)) <=? in_left (utf8 cp)) cps
     then Some (bytes_of utf8 (map lower cps)) else None) /\
  strlower_m UTF8 lowcase_table [0xFF] = None.
Proof.
  intros Ht Hl. split; [|split].
  - apply recode_text; [by apply characters_text|done].
  - apply strcase_m_text; [done..|]. intros c Hc. unfold tolower_w.
    replace (c <? 128) with true by lia. split; [done|]. unfold tolower.
    destruct (Z.leb_spec 65 c), (Z.leb_spec c 90); cbn [andb]; lia.
  - unfold strlower_m, tolower_w. by destruct lowcase_table.
Qed.
End utf8_strings.

Lemma strlower_correct_witness :
  strlower_talloc UTF8 None (bytes_of utf8 [0x41; 0xC4]) = Some (bytes_of utf8 (map (tolower_w None) [0x41; 0xC4])) /\
  strlower_m UTF8 None (bytes_of utf8 [0x41; 0xC4]) =
    (if forallb (fun cp => in_left (utf8 (tolower_w None cp)) <=? in_left (utf8 cp)) [0x41; 0xC4]
     then Some (bytes_of utf8 (map (tolower_w None) [0x41; 0xC4])) else None) /\
  strlower_m UTF8 None [0xFF] = None.
Proof.
  apply (strlower_correct None [0x41; 0xC4]);
    repeat (apply List.Forall_cons; [vm_compute; intuition (discriminate || lia)|]); apply List.Forall_nil.
Defined.
