(* ===== verification/Fnmatch.v ===== *)
(** * File name patterns ([source4/lib/util/ms_fnmatch.c])

    The matcher of file names against patterns with the wildcards of DOS and
    Windows.  A pointer into the name is the suffix it points to; the array
    [max_n], which is shared by all the calls of [ms_fnmatch_core], is passed
    from call to call, from the entry of the current star on.  [None] is an
    access outside the array or past the end of the name.  The theorems are
    about text in UTF-8. *)

From S2P Require Import Prelude Iconv Unistr.

(** ** The matcher *)

Definition PROTOCOL_LANMAN2 : Z := 4.
Definition PROTOCOL_NT1 : Z := 5.

Abbreviation chSTAR := 42 (only parsing).     (* * *)
Abbreviation chLT := 60 (only parsing).       (* < *)
Abbreviation chGT := 62 (only parsing).       (* > *)
Abbreviation chDQ := 34 (only parsing).       (* double quote *)
Abbreviation chQ := 63 (only parsing).        (* ? *)
Abbreviation chDOT := 46 (only parsing).      (* . *)

Definition null_match (p : list Z) : Z :=
  if forallb (fun c => (c =? chSTAR) || (c =? chLT) || (c =? chDQ) || (c =? chGT)) p then 0 else -1.

Record max_n : Type := mk_max_n {
  predot : option (list Z);
  postdot : option (list Z)
}.

(** [a && a <= n], [n <= a] and [n == a] for pointers into one string; [NULL]
    is before every pointer. *)
Definition set_before (a : option (list Z)) (n : list Z) : bool :=
  match a with Some a => in_left n <=? in_left a | None => false end.
Definition not_after (n : list Z) (a : option (list Z)) : bool :=
  match a with Some a => in_left a <=? in_left n | None => false end.
Definition points_to (a : option (list Z)) (n : list Z) : bool :=
  match a with Some a => in_left a =? in_left n | None => false end.

(** [if (!a || a > n) a = n;] *)
Definition lower_to (a : option (list Z)) (n : list Z) : option (list Z) :=
  match a with
  | Some a => if in_left a <? in_left n then Some n else Some a
  | None => Some n
  end.

Section fnmatch.
Context (unix : charset) (upcase_table : option (Z -> Z)).

#[local] Abbreviation next := (next_codepoint unix).

(** The bytes after the first character. *)
Definition skip (n : list Z) : list Z := drop (Z.to_nat (next n).2) n.

Inductive scan_result : Type :=
  | Found
  | Stopped (rest : list max_n)
  | Ran_out (rest : list max_n).

(** The loop of a star, which tries what is left of the pattern at every
    character; that of [<] stops after the last dot, [stop]. *)
Fixpoint scan (core : list Z -> list max_n -> option (Z * list max_n)) (stop : option (list Z))
    (fuel : nat) (n : list Z) (rest : list max_n) : option scan_result :=
  match n, fuel with
  | [], _ => Some (Ran_out rest)
  | _ :: _, O => None
  | _ :: _, S fuel =>
      match core n rest with
      | None => None
      | Some (r, rest) =>
          if r =? 0 then Some Found
          else if points_to stop n then
            match core (skip n) rest with
            | None => None
            | Some (r, rest) => if r =? 0 then Some Found else Some (Stopped rest)
            end
          else scan core stop fuel (skip n) rest
      end
  end.

(** Every round of the loop over the pattern consumes a character of it. *)
Fixpoint ms_fnmatch_core (fuel : nat) (p n : list Z) (mx : list max_n) (ldot : option (list Z))
    : option (Z * list max_n) :=
  match fuel with
  | O => None
  | S fuel =>
      let '(c, size) := next p in
      let p := drop (Z.to_nat size) p in
      if c =? 0 then Some (match n with [] => 0 | _ => -1 end, mx)
      else if c =? chSTAR then
        match mx with
        | [] => None
        | m :: rest =>
            if set_before (predot m) n then Some (null_match p, mx)
            else
              match scan (fun n rest => ms_fnmatch_core fuel p n rest ldot) None (length n) n rest with
              | None => None
              | Some Found => Some (0, mx)
              | Some (Stopped rest) | Some (Ran_out rest) =>
                  Some (null_match p, mk_max_n (lower_to (predot m) n) (postdot m) :: rest)
              end
        end
      else if c =? chLT then
        match mx with
        | [] => None
        | m :: rest =>
            if set_before (predot m) n then Some (null_match p, mx)
            else if set_before (postdot m) n && not_after n ldot then Some (-1, mx)
            else
              match scan (fun n rest => ms_fnmatch_core fuel p n rest ldot) ldot (length n) n rest with
              | None => None
              | Some Found => Some (0, mx)
              | Some (Stopped rest) =>
                  Some (-1, mk_max_n (predot m) (lower_to (postdot m) n) :: rest)
              | Some (Ran_out rest) =>
                  Some (null_match p, mk_max_n (lower_to (predot m) n) (postdot m) :: rest)
              end
        end
      else if c =? chQ then
        match n with
        | [] => Some (-1, mx)
        | _ => ms_fnmatch_core fuel p (skip n) mx ldot
        end
      else if c =? chGT then
        match n with
        | [] => Some (null_match p, mx)
        | b :: n' =>
            if b =? chDOT then
              if (match n' with [] => true | _ => false end) && (null_match p =? 0)
              then Some (0, mx) else ms_fnmatch_core fuel p n mx ldot
            else ms_fnmatch_core fuel p (skip n) mx ldot
        end
      else if c =? chDQ then
        match n with
        | [] => Some (if null_match p =? 0 then 0 else -1, mx)
        | b :: _ => if b =? chDOT then ms_fnmatch_core fuel p (skip n) mx ldot else Some (-1, mx)
        end
      else
        let c2 := (next n).1 in
        if negb (c =? c2) && negb (codepoint_cmpi upcase_table c c2 =? 0) then Some (-1, mx)
        else match n with [] => None | _ => ms_fnmatch_core fuel p (skip n) mx ldot end
  end.

(** [strrchr(string, '.')] *)
Fixpoint last_dot (s : list Z) : option (list Z) :=
  match s with
  | [] => None
  | b :: s' => match last_dot s' with
               | Some d => Some d
               | None => if b =? chDOT then Some s else None
               end
  end.

(** [strpbrk(pattern, ...) != NULL] *)
Definition has_wildcard (p : list Z) : bool :=
  existsb (fun c => (c =? chLT) || (c =? chGT) || (c =? chSTAR) || (c =? chQ) || (c =? chDQ)) p.

(** The pattern of an old protocol as one of the new. *)
Fixpoint translate (p : list Z) : list Z :=
  match p with
  | [] => []
  | c :: p' =>
      let next := byte_at p' 0 in
      (if c =? chQ then chGT
       else if (c =? chDOT) && ((next =? chQ) || (next =? chSTAR) || (next =? 0)) then chDQ
       else if (c =? chSTAR) && (next =? chDOT) then chLT
       else c) :: translate p'
  end.

Definition count_stars (p : list Z) : nat :=
  length (List.filter (fun c => (c =? chSTAR) || (c =? chLT)) p).

(** The part for the newer protocols. *)
Definition ms_fnmatch_new (pattern string : list Z) : option Z :=
  if negb (has_wildcard pattern) then Some (strcasecmp_m unix upcase_table pattern string)
  else
    match ms_fnmatch_core (S (length pattern)) pattern string
            (replicate (count_stars pattern) (mk_max_n None None)) (last_dot string) with
    | Some (ret, _) => Some ret
    | None => None
    end.

(** The call for an old protocol begins again with the pattern translated. *)
Definition ms_fnmatch (pattern string : list Z) (protocol : Z) : option Z :=
  let string := if bool_decide (string = [chDOT; chDOT]) then [chDOT] else string in
  if negb (has_wildcard pattern) then Some (strcasecmp_m unix upcase_table pattern string)
  else if protocol <=? PROTOCOL_LANMAN2 then ms_fnmatch_new (translate pattern) string
  else ms_fnmatch_new pattern string.

Definition gen_fnmatch (pattern string : list Z) : option Z := ms_fnmatch pattern string PROTOCOL_NT1.
End fnmatch.

(** ** What a pattern matches

    The wildcards, on the characters of the pattern and of the name.  [<] stops
    after the last dot; [>] and the double quote also match the end of the name
    when the rest of the pattern can be empty. *)

Section matches.
Context (upcase_table : option (Z -> Z)).

Definition same_letter (c c' : Z) : Prop := toupper_w upcase_table c = toupper_w upcase_table c'.

Definition special (c : Z) : bool :=
  (c =? chLT) || (c =? chGT) || (c =? chSTAR) || (c =? chQ) || (c =? chDQ).

(** What may be left of the name after a [<]. *)
Definition after_lt (n s : list Z) : Prop :=
  s `suffix_of` n /\ (chDOT ∈ n -> chDOT ∈ s \/ (chDOT :: s) `suffix_of` n).

Inductive matches : list Z -> list Z -> Prop :=
  | m_nil : matches [] []
  | m_star p n s : s `suffix_of` n -> matches p s -> matches (chSTAR :: p) n
  | m_lt p n s : after_lt n s -> matches p s -> matches (chLT :: p) n
  | m_any p c n : matches p n -> matches (chQ :: p) (c :: n)
  | m_gt_end p : matches p [] -> matches (chGT :: p) []
  | m_gt_last_dot p : matches p [] -> matches (chGT :: p) [chDOT]
  | m_gt_dot p n : matches p (chDOT :: n) -> matches (chGT :: p) (chDOT :: n)
  | m_gt_char p c n : c <> chDOT -> matches p n -> matches (chGT :: p) (c :: n)
  | m_dq_end p : matches p [] -> matches (chDQ :: p) []
  | m_dq_dot p n : matches p n -> matches (chDQ :: p) (chDOT :: n)
  | m_char p c c' n : special c = false -> same_letter c c' -> matches p n -> matches (c :: p) (c' :: n).

Lemma matches_nil_l n : matches [] n <-> n = [].
Proof. split; [by inversion 1|intros ->; constructor]. Qed.

Lemma matches_star p n : matches (chSTAR :: p) n <-> exists s, s `suffix_of` n /\ matches p s.
Proof.
  split; [|intros (s & ? & ?); by eapply m_star].
  inversion 1; subst; [eauto|done].
Qed.

Lemma matches_lt p n : matches (chLT :: p) n <-> exists s, after_lt n s /\ matches p s.
Proof.
  split; [|intros (s & ? & ?); by eapply m_lt].
  inversion 1; subst; [eauto|done].
Qed.

Lemma matches_any p n : matches (chQ :: p) n <-> exists c n', n = c :: n' /\ matches p n'.
Proof.
  split; [|intros (c & n' & -> & ?); by constructor].
  inversion 1; subst; [eauto|done].
Qed.

Lemma matches_gt p n :
  matches (chGT :: p) n <->
  match n with
  | [] => matches p []
  | c :: n' => if c =? chDOT then (n' = [] /\ matches p []) \/ matches p n else matches p n'
  end.
Proof.
  split.
  - inversion 1; subst; try (by match goal with H : special _ = false |- _ => vm_compute in H end);
      try done; try (by left); try (by right). by destruct (Z.eqb_spec c chDOT).
  - destruct n as [|c n']; [by constructor|]. destruct (Z.eqb_spec c chDOT) as [->|].
    + intros [[-> ?]|?]; by constructor.
    + by constructor.
Qed.

Lemma matches_dq p n :
  matches (chDQ :: p) n <->
  match n with [] => matches p [] | c :: n' => c = chDOT /\ matches p n' end.
Proof.
  split.
  - by inversion 1; subst.
  - destruct n as [|c n']; [by constructor|]. intros [-> ?]. by constructor.
Qed.

Lemma matches_char p c n : special c = false ->
  matches (c :: p) n <-> exists c' n', n = c' :: n' /\ same_letter c c' /\ matches p n'.
Proof.
  intros Hc. split; [|intros (c' & n' & -> & ? & ?); by constructor].
  inversion 1; subst; try (by vm_compute in Hc). eauto.
Qed.

(** The patterns that match the empty name. *)
Definition empties (p : list Z) : bool :=
  forallb (fun c => (c =? chSTAR) || (c =? chLT) || (c =? chDQ) || (c =? chGT)) p.

Lemma suffix_nil (s : list Z) : s `suffix_of` [] -> s = [].
Proof. intros [k Hk]. symmetry in Hk. by apply app_eq_nil in Hk as [_ ?]. Qed.

Lemma after_lt_nil s : after_lt [] s <-> s = [].
Proof.
  split; [by intros [?%suffix_nil _]|]. intros ->. split; [done|]. by intros ?%elem_of_nil.
Qed.

Lemma matches_empty p : matches p [] <-> empties p = true.
Proof.
  induction p as [|c p IH]; [split; [done|constructor]|]. cbn [empties forallb]. fold (empties p).
  destruct (Z.eqb_spec c chSTAR) as [->|]; [|destruct (Z.eqb_spec c chLT) as [->|];
    [|destruct (Z.eqb_spec c chDQ) as [->|]; [|destruct (Z.eqb_spec c chGT) as [->|]]]]; cbn [orb andb].
  - rewrite matches_star, <- IH. split; [by intros (s & ->%suffix_nil & ?)|]. intros; by exists [].
  - rewrite matches_lt, <- IH. split; [by intros (s & ->%after_lt_nil & ?)|].
    intros; exists []. by rewrite after_lt_nil.
  - by rewrite matches_dq, IH.
  - by rewrite matches_gt, IH.
  - split; [|done]. destruct (Z.eqb_spec c chQ) as [->|].
    + by intros (? & ? & ? & _)%matches_any.
    + rewrite matches_char; [by intros (? & ? & ? & _)|]. unfold special. lia.
Qed.
End matches.

(** ** Names in UTF-8 *)

#[local] Abbreviation B := (bytes_of utf8).

Lemma B_app a b : B (a ++ b) = B a ++ B b.
Proof. unfold bytes_of. by rewrite map_app, concat_app. Qed.

Lemma B_nil n : B n = [] <-> n = [].
Proof.
  split; [|by intros ->]. destruct n as [|c n]; [done|]. rewrite bytes_cons.
  by destruct (utf8_cons c (B n)) as (b & s & ->).
Qed.

Lemma skip_text c n : scalar c -> skip UTF8 (B (c :: n)) = B n.
Proof. intros Hc. unfold skip. rewrite bytes_cons, next_codepoint_utf8 by done. apply drop_utf8. Qed.

(** The bytes of a character above ASCII are no ASCII bytes. *)
Lemma utf8_high c b : scalar c -> 128 <= c -> b ∈ utf8 c -> 128 <= b.
Proof.
  intros Hs Hc. unfold utf8, scalar in *. replace (c <? 0x80) with false by lia.
  repeat match goal with |- context [if ?x then _ else _] => destruct x end;
    rewrite ?elem_of_cons, ?elem_of_nil; intros Hb; Z.to_euclidean_division_equations; lia.
Qed.

Lemma utf8_low c : 0 <= c < 128 -> utf8 c = [c].
Proof. intros. unfold utf8. by replace (c <? 0x80) with true by lia. Qed.

Lemma forallb_text f p : text p -> (forall b, 128 <= b -> f b = false) ->
  forallb f (B p) = forallb f p.
Proof.
  intros Hp Hf. induction Hp as [|c p [Hs _] Hp IH]; [done|]. rewrite bytes_cons, forallb_app, IH.
  cbn [forallb]. f_equal. destruct (Z.lt_ge_cases c 128).
  - rewrite utf8_low by (unfold scalar in Hs; lia). cbn. apply andb_true_r.
  - rewrite (Hf c) by done. destruct (utf8 c) as [|b u] eqn:E; [by pose proof (utf8_nonempty c); rewrite E in *|].
    cbn. rewrite Hf; [done|]. apply (utf8_high c); [done..|rewrite E; left].
Qed.

Lemma existsb_text f p : text p -> (forall b, 128 <= b -> f b = false) ->
  existsb f (B p) = existsb f p.
Proof.
  intros Hp Hf. assert (forall l, existsb f l = negb (forallb (fun b => negb (f b)) l)) as Hneg.
  { induction l as [|b l IH]; [done|]. cbn. rewrite IH. by destruct (f b). }
  induction Hp as [|c p [Hs _] Hp IH]; [done|]. rewrite bytes_cons, existsb_app, IH. cbn [existsb]. f_equal.
  destruct (Z.lt_ge_cases c 128).
  - rewrite utf8_low by (unfold scalar in Hs; lia). cbn. apply orb_false_r.
  - rewrite (Hf c) by done. apply existsb_false_elem_of. intros b Hb. apply Hf. by apply (utf8_high c).
Qed.

Lemma null_match_text p : text p -> null_match (B p) = if empties p then 0 else -1.
Proof. intros Hp. unfold null_match, empties. rewrite forallb_text; [done..|]. intros; lia. Qed.

Lemma last_dot_app a b : last_dot (a ++ b) =
  match last_dot b with Some d => Some d | None => (fun d => d ++ b) <$> last_dot a end.
Proof.
  induction a as [|x a IH]; cbn [app last_dot]; [by destruct (last_dot b)|].
  rewrite IH. destruct (last_dot b); [done|]. destruct (last_dot a); [done|]. cbn.
  by destruct (x =? 46).
Qed.

Lemma last_dot_text n : text n -> last_dot (B n) = B <$> last_dot n.
Proof.
  intros Hn. induction Hn as [|c n [Hs _] Hn IH]; [done|].
  rewrite bytes_cons, last_dot_app, IH. cbn [last_dot]. destruct (last_dot n); [done|]. cbn [fmap option_fmap option_map].
  destruct (Z.lt_ge_cases c 128).
  - rewrite utf8_low by (unfold scalar in Hs; lia). cbn [last_dot]. destruct (Z.eqb_spec c 46) as [->|]; [|done].
    cbn [fmap option_fmap option_map app]. by rewrite bytes_cons, utf8_low by lia.
  - replace (c =? 46) with false by lia. cbn.
    assert (forall u, (forall b, b ∈ u -> 128 <= b) -> last_dot u = None) as Hnone.
    { induction u as [|b u IHu]; intros Hu; [done|]. cbn. rewrite IHu by (intros; apply Hu; by right).
      pose proof (Hu b ltac:(left)). by replace (b =? 46) with false by lia. }
    rewrite Hnone; [done|]. intros b Hb. by apply (utf8_high c).
Qed.

Lemma last_dot_spec n :
  match last_dot n with
  | None => chDOT ∉ n
  | Some d => exists d', d = chDOT :: d' /\ chDOT ∉ d' /\ d `suffix_of` n
  end.
Proof.
  induction n as [|c n IH]; cbn [last_dot]; [by intros ?%elem_of_nil|].
  destruct (last_dot n) as [d|].
  - destruct IH as (d' & -> & Hd & Hs). exists d'. split; [done|]. split; [done|].
    by apply suffix_cons_r.
  - destruct (Z.eqb_spec c 46) as [->|]; [by exists n|].
    rewrite not_elem_of_cons. done.
Qed.

(** ** Suffixes *)

Lemma suffix_cons_cases (s : list Z) c n : s `suffix_of` (c :: n) -> s = c :: n \/ s `suffix_of` n.
Proof. intros [[|x k] Hk]; [by left|]. right. injection Hk as -> ->. by exists k. Qed.

Lemma suffix_elem (s n : list Z) x : s `suffix_of` n -> x ∈ s -> x ∈ n.
Proof. intros [k ->] Hx. apply elem_of_app. by right. Qed.

(** Two suffixes of one name are ordered by their lengths, in bytes too. *)
Lemma suffix_le name a b : a `suffix_of` name -> b `suffix_of` name ->
  (in_left (B a) <=? in_left (B b)) = true <-> a `suffix_of` b.
Proof.
  intros [ka Ha] [kb Hb]. rewrite Z.leb_le. split.
  - intros Hle. rewrite Ha in Hb. clear Ha name. revert kb Hb.
    induction ka as [|x ka IH]; intros [|y kb] Hb; cbn [app] in Hb.
    + by subst.
    + exfalso. subst a. rewrite bytes_cons, in_left_app, B_app, in_left_app in Hle.
      pose proof (utf8_nonempty y). pose proof (in_left_nonneg (B kb)). lia.
    + subst b. by exists (x :: ka).
    + injection Hb as -> Hb. by apply (IH kb).
  - intros [k ->]. rewrite B_app, in_left_app. pose proof (in_left_nonneg (B k)). lia.
Qed.

Lemma suffix_same name a b : a `suffix_of` name -> b `suffix_of` name ->
  in_left (B a) = in_left (B b) -> a = b.
Proof.
  intros Ha Hb He. assert (a `suffix_of` b) as [k1 ->] by (apply (suffix_le name); [done..|lia]).
  assert (k1 ++ a `suffix_of` a) as Hs by (apply (suffix_le name); [done..|lia]).
  apply suffix_length in Hs. rewrite length_app in Hs. by destruct k1; [|simpl in Hs; lia].
Qed.

(** ** The matcher against the patterns

    What an entry of [max_n] says: from a character on, what follows the star
    matches nowhere ([predot]), or nowhere up to the last dot ([postdot]). *)

Section matcher.
Context (upcase_table : option (Z -> Z)) (name : list Z) (Hname : text name).

#[local] Abbreviation matches := (matches upcase_table).
#[local] Abbreviation core fuel p n mx :=
  (ms_fnmatch_core UTF8 upcase_table fuel p n mx (last_dot (B name))).

Definition failed_from (c : Z) (p q : list Z) : Prop :=
  (c = chLT -> chDOT ∉ q) /\ forall s, s `suffix_of` q -> s <> [] -> ~ matches p s.
Definition failed_dot (p q : list Z) : Prop :=
  chDOT ∈ q /\ forall s, after_lt q s -> ~ matches p s.

Definition entry_ok (star : Z * list Z) (m : max_n) : Prop :=
  (forall a, predot m = Some a ->
     exists q, a = B q /\ q `suffix_of` name /\ failed_from star.1 star.2 q) /\
  (forall a, postdot m = Some a ->
     exists q, a = B q /\ q `suffix_of` name /\ failed_dot star.2 q).

(** The stars of a pattern, each with what follows. *)
Fixpoint stars (p : list Z) : list (Z * list Z) :=
  match p with
  | [] => []
  | c :: p => if (c =? chSTAR) || (c =? chLT) then (c, p) :: stars p else stars p
  end.

Definition entries_ok (p : list Z) (mx : list max_n) : Prop := Forall2 entry_ok (stars p) mx.

(** What a call for [p] promises: an answer, and entries that say the truth. *)
Definition answers (p n : list Z) (r : option (Z * list max_n)) : Prop :=
  exists v mx, r = Some (v, mx) /\
    (v = 0 /\ matches p n \/ v = -1 /\ ~ matches p n /\ entries_ok p mx).

Lemma name_text n : n `suffix_of` name -> text n.
Proof. intros [k E]. unfold text in Hname. rewrite E in Hname. by apply Forall_app in Hname as [_ ?]. Qed.

Lemma dot_in_name n : n `suffix_of` name -> chDOT ∈ n <-> exists d, last_dot name = Some d /\ d `suffix_of` n.
Proof.
  intros Hn. pose proof (last_dot_spec name) as Hd. pose proof (last_dot_spec n) as Hdn.
  destruct Hn as [k ->]. rewrite last_dot_app in *. destruct (last_dot n) as [d|].
  - destruct Hdn as (d' & -> & Hd' & Hs). split; [by eauto|]. intros _. eapply suffix_elem; [done|left].
  - split; [done|]. intros (d & Ed & Hs). destruct (last_dot k) as [dk|] eqn:Ek; [|done].
    cbn in Ed. injection Ed as <-. exfalso. apply Hdn. pose proof (last_dot_spec k) as Hk. rewrite Ek in Hk.
    destruct Hk as (d' & -> & _). destruct Hs as [j Hj]. apply (f_equal length) in Hj.
    rewrite !length_app in Hj. simpl in Hj. lia.
Qed.

Lemma not_after_dot n : n `suffix_of` name ->
  not_after (B n) (last_dot (B name)) = true <-> chDOT ∈ n.
Proof.
  intros Hn. rewrite dot_in_name, last_dot_text by done. pose proof (last_dot_spec name) as Hd.
  destruct (last_dot name) as [d|]; cbn.
  - destruct Hd as (d' & -> & _ & Hs). rewrite (suffix_le name) by done.
    split; [by eauto|by intros (? & [= <-] & ?)].
  - split; [done|by intros (? & ? & _)].
Qed.

Lemma points_to_dot n : n `suffix_of` name ->
  points_to (last_dot (B name)) (B n) = true <-> exists n', n = chDOT :: n' /\ chDOT ∉ n'.
Proof.
  intros Hn. rewrite last_dot_text by done. pose proof (last_dot_spec name) as Hd.
  destruct (last_dot name) as [d|] eqn:E; cbn.
  - destruct Hd as (d' & -> & Hd' & Hs). rewrite Z.eqb_eq. split.
    + intros He. exists d'. split; [|done]. symmetry. by apply (suffix_same name).
    + intros (n' & -> & Hn'). assert (chDOT ∈ chDOT :: n') as Hin by left.
      apply dot_in_name in Hin as (d & Ed & Hds); [|done]. rewrite E in Ed. injection Ed as <-.
      apply suffix_cons_cases in Hds as [->|Hds]; [done|]. destruct Hn'. eapply suffix_elem; [done|left].
  - split; [done|]. intros (n' & -> & _). destruct Hd. eapply suffix_elem; [done|left].
Qed.

Lemma set_before_suffix (P : list Z -> Prop) a n : n `suffix_of` name ->
  (forall x, a = Some x -> exists q, x = B q /\ q `suffix_of` name /\ P q) ->
  set_before a (B n) = true -> exists q, n `suffix_of` q /\ P q.
Proof.
  intros Hn Ha. destruct a as [x|]; [|done]. destruct (Ha x eq_refl) as (q & -> & Hq & Pq). cbn.
  intros Hle. exists q. split; [|done]. by apply (suffix_le name).
Qed.

Lemma lower_to_cases a n : lower_to a n = Some n \/ lower_to a n = a.
Proof. destruct a as [x|]; cbn; [|by left]. destruct (_ <? _); [by left|by right]. Qed.

(** ** The loop of a star *)

Lemma after_lt_refl n : after_lt n n.
Proof. split; [done|]. by left. Qed.

Lemma after_lt_cons c n s : (chDOT ∈ n \/ c <> chDOT) -> after_lt n s -> after_lt (c :: n) s.
Proof.
  intros Hc [Hs Hd]. split; [by apply suffix_cons_r|]. intros [E|Hin]%elem_of_cons.
  - destruct Hc as [Hin|?]; [|done]. destruct (Hd Hin) as [?|?]; [by left|right]. by apply suffix_cons_r.
  - destruct (Hd Hin) as [?|?]; [by left|right]. by apply suffix_cons_r.
Qed.

Lemma after_lt_uncons c n s : chDOT ∈ n -> after_lt (c :: n) s -> s = c :: n \/ after_lt n s.
Proof.
  intros Hin [Hs Hd]. apply suffix_cons_cases in Hs as [->|Hs]; [by left|right]. split; [done|].
  intros _. destruct (Hd ltac:(by right)) as [?|Hs']; [by left|].
  apply suffix_cons_cases in Hs' as [E|?]; [|by right]. injection E as _ ->. by left.
Qed.

Lemma after_last_dot n s : chDOT ∉ n -> after_lt (chDOT :: n) s -> s = chDOT :: n \/ s = n.
Proof.
  intros Hin [Hs Hd]. apply suffix_cons_cases in Hs as [->|Hs]; [by left|right].
  destruct (Hd ltac:(left)) as [Hs'|Hs']; [by destruct Hin; eapply suffix_elem|].
  apply suffix_cons_cases in Hs' as [E|Hs']; [by injection E|]. destruct Hin.
  eapply suffix_elem; [done|left].
Qed.

(** What the loop of [<] ([b]) and of the star find. *)
Definition scans (b : bool) (p n : list Z) (res : option scan_result) : Prop :=
  match res with
  | Some Found => exists s, s `suffix_of` n /\ (b = true -> after_lt n s) /\ matches p s
  | Some (Ran_out rest) =>
      entries_ok p rest /\ (forall s, s `suffix_of` n -> s <> [] -> ~ matches p s) /\
      (b = true -> chDOT ∉ n)
  | Some (Stopped rest) =>
      b = true /\ entries_ok p rest /\ chDOT ∈ n /\ forall s, after_lt n s -> ~ matches p s
  | None => False
  end.

Lemma scan_ok (b : bool) f p n fuel rest :
  (forall n rest, n `suffix_of` name -> entries_ok p rest -> answers p n (f (B n) rest)) ->
  n `suffix_of` name -> entries_ok p rest -> (length n <= fuel)%nat ->
  scans b p n (scan UTF8 f (if b then last_dot (B name) else None) fuel (B n) rest).
Proof.
  intros Hf. revert fuel rest. induction n as [|c n IH]; intros fuel rest Hn He Hfu.
  { destruct fuel; (split; [done|]; split; [by intros s ->%suffix_nil|]; by intros _ ?%elem_of_nil). }
  destruct fuel as [|fuel]; [simpl in Hfu; lia|]. simpl in Hfu.
  pose proof (name_text _ Hn) as Ht. apply Forall_cons in Ht as [[Hc _] _].
  assert (n `suffix_of` name) as Hn' by (etrans; [|done]; by exists [c]).
  destruct (Hf (c :: n) rest Hn He) as (v & mx & Ev & Hv).
  destruct (utf8_cons c (B n)) as (x & y & Exy). pose proof (bytes_cons utf8 c n) as Ecn. rewrite Exy in Ecn.
  rewrite Ecn. cbn [scan]. rewrite <- Ecn, Ev, skip_text by done.
  destruct Hv as [[-> Hm]|(-> & Hm & He')]; [exists (c :: n); split; [done|]; by split; [intros; apply after_lt_refl|]|].
  change (-1 =? 0) with false. cbv iota.
  destruct (points_to (if b then last_dot (B name) else None) (B (c :: n))) eqn:Ep.
  - destruct b; [|done]. apply points_to_dot in Ep as (n' & [= -> <-] & Hdot); [|done].
    destruct (Hf n mx Hn' He') as (v & mx' & -> & [[-> Hm']|(-> & Hm' & He'')]).
    + exists n. split; [by exists [chDOT]|]. split; [|done]. intros _. split; [by exists [chDOT]|].
      intros _. by right.
    + change (-1 =? 0) with false. cbv iota. split; [done|]. split; [done|]. split; [left|].
      intros s [-> | ->]%after_last_dot; done.
  - assert (b = true -> chDOT ∈ n \/ c <> chDOT) as Hcd.
    { intros ->. destruct (decide (chDOT ∈ n)) as [|Hd]; [by left|right]. intros ->.
      enough (points_to (last_dot (B name)) (B (chDOT :: n)) = true) by congruence.
      apply points_to_dot; [done|]. by exists n. }
    specialize (IH fuel mx Hn' He' ltac:(lia)). destruct (scan _ _ _ _ _ _) as [[|rest'|rest']|]; [| | |done].
    + destruct IH as (s & Hs & Ha & Hms). exists s. split; [by apply suffix_cons_r|]. split; [|done].
      intros ->. apply after_lt_cons; by auto.
    + destruct IH as (-> & ? & Hin & Hall). split; [done|]. split; [done|]. split; [by right|].
      intros s [->|?]%after_lt_uncons; [done|by apply Hall|done].
    + destruct IH as (? & Hall & Hd). split; [done|]. split.
      * intros s [->|?]%suffix_cons_cases ?; [done|by apply Hall].
      * intros Hb. rewrite not_elem_of_cons. split; [|by apply Hd].
        destruct (Hcd Hb); [by destruct (Hd Hb)|done].
Qed.

(** ** The loop over the pattern *)

Hypothesis Hup : forall c, scalar c -> c <> 0 -> toupper_w upcase_table c <> 0.

(** The end of the name, or a star that has failed before: the rest of the
    pattern has to be empty. *)
Lemma answers_null c p n mx :
  text p -> entries_ok (c :: p) mx -> (matches (c :: p) n <-> matches p []) ->
  answers (c :: p) n (Some (null_match (B p), mx)).
Proof.
  intros Hp He Hm. exists (null_match (B p)), mx. split; [done|]. rewrite null_match_text by done.
  rewrite matches_empty in Hm. destruct (empties p); [left; split; [done|by apply Hm]|right].
  split; [done|]. split; [|done]. intros ?%Hm. done.
Qed.

Lemma answers_fail p n mx : ~ matches p n -> entries_ok p mx -> answers p n (Some (-1, mx)).
Proof. intros. exists (-1), mx. auto. Qed.

Lemma answers_found p n mx : matches p n -> answers p n (Some (0, mx)).
Proof. intros. exists 0, mx. auto. Qed.

Lemma answers_next c p n n' r :
  stars (c :: p) = stars p -> (matches (c :: p) n <-> matches p n') -> answers p n' r ->
  answers (c :: p) n r.
Proof.
  intros Hs Hm (v & mx & -> & [[-> H]|(-> & H & He)]).
  - exists 0, mx. split; [done|]. left. split; [done|]. by apply Hm.
  - exists (-1), mx. split; [done|]. right. split; [done|]. split; [by rewrite Hm|].
    unfold entries_ok in *. by rewrite Hs.
Qed.

Lemma not_star_stars c p : (c =? chSTAR) = false -> (c =? chLT) = false -> stars (c :: p) = stars p.
Proof. intros H1 H2. cbn [stars]. by rewrite H1, H2. Qed.

Lemma new_predot c p n m : n `suffix_of` name -> failed_from c p n -> entry_ok (c, p) m ->
  entry_ok (c, p) (mk_max_n (lower_to (predot m) (B n)) (postdot m)).
Proof.
  intros Hn Hf [H1 H2]. split; [|exact H2]. cbn. intros a Ha.
  destruct (lower_to_cases (predot m) (B n)) as [E|E]; rewrite E in Ha; [|by apply H1].
  injection Ha as <-. by exists n.
Qed.

Lemma new_postdot c p n m : n `suffix_of` name -> failed_dot p n -> entry_ok (c, p) m ->
  entry_ok (c, p) (mk_max_n (predot m) (lower_to (postdot m) (B n))).
Proof.
  intros Hn Hf [H1 H2]. split; [exact H1|]. cbn. intros a Ha.
  destruct (lower_to_cases (postdot m) (B n)) as [E|E]; rewrite E in Ha; [|by apply H2].
  injection Ha as <-. by exists n.
Qed.

(** Where what follows the star fails from the first character on, only the
    empty rest is left. *)
Lemma failed_star c p q n : c = chSTAR \/ c = chLT -> failed_from c p q -> n `suffix_of` q ->
  matches (c :: p) n <-> matches p [].
Proof.
  intros Hc [Hd Hf] Hn. assert (forall s, s `suffix_of` n -> matches p s -> s = []) as Hnil.
  { intros s Hs Hm. destruct s as [|x s]; [done|]. destruct (Hf (x :: s)); [by etrans|done..]. }
  destruct Hc as [->| ->]; [rewrite matches_star|rewrite matches_lt]; split.
  - intros (s & Hs & Hm). by rewrite (Hnil s) in Hm.
  - intros Hm. exists []. split; [by exists n; rewrite app_nil_r|done].
  - intros (s & [Hs _] & Hm). by rewrite (Hnil s) in Hm.
  - intros Hm. exists []. split; [|done]. split; [by exists n; rewrite app_nil_r|].
    intros Hin. destruct (Hd eq_refl). by eapply suffix_elem.
Qed.

Section step.
Context (p : list Z) (fuel : nat) (Hp : text p) (Hlen : (length p < fuel)%nat)
  (IH : forall n mx, n `suffix_of` name -> entries_ok p mx -> answers p n (core fuel (B p) (B n) mx)).

#[local] Abbreviation f := (fun n rest => core fuel (B p) n rest).

Lemma length_B n : (length n <= length (B n))%nat.
Proof. apply bytes_length. Qed.

(** The case of a star. *)
Lemma star_step n m rest : n `suffix_of` name -> entry_ok (chSTAR, p) m -> entries_ok p rest ->
  answers (chSTAR :: p) n
    (if set_before (predot m) (B n) then Some (null_match (B p), m :: rest)
     else match scan UTF8 f None (length (B n)) (B n) rest with
          | None => None
          | Some Found => Some (0, m :: rest)
          | Some (Stopped rest) | Some (Ran_out rest) =>
              Some (null_match (B p), mk_max_n (lower_to (predot m) (B n)) (postdot m) :: rest)
          end).
Proof.
  intros Hn Hm Hr. destruct (set_before _ _) eqn:Eb.
  { apply (set_before_suffix _ _ _ Hn (proj1 Hm)) in Eb as (q & Hq & Hff).
    apply answers_null; [done|by constructor|]. apply (failed_star chSTAR p q); [by left|done..]. }
  pose proof (scan_ok false f p n (length (B n)) rest IH Hn Hr (length_B n)) as Hs.
  cbv iota in Hs. destruct (scan _ _ _ _ _ _) as [[|rest'|rest']|]; [| |..|done].
  - destruct Hs as (s & Hs & _ & Hms). apply answers_found, matches_star. by exists s.
  - by destruct Hs.
  - destruct Hs as (Hr' & Hall & _). assert (failed_from chSTAR p n) as Hff by done.
    apply answers_null; [done|constructor; [by apply new_predot|done]|].
    apply (failed_star chSTAR p n); [by left|done..].
Qed.

(** The case of a [<]. *)
Lemma lt_step n m rest : n `suffix_of` name -> entry_ok (chLT, p) m -> entries_ok p rest ->
  answers (chLT :: p) n
    (if set_before (predot m) (B n) then Some (null_match (B p), m :: rest)
     else if set_before (postdot m) (B n) && not_after (B n) (last_dot (B name))
     then Some (-1, m :: rest)
     else match scan UTF8 f (last_dot (B name)) (length (B n)) (B n) rest with
          | None => None
          | Some Found => Some (0, m :: rest)
          | Some (Stopped rest) => Some (-1, mk_max_n (predot m) (lower_to (postdot m) (B n)) :: rest)
          | Some (Ran_out rest) =>
              Some (null_match (B p), mk_max_n (lower_to (predot m) (B n)) (postdot m) :: rest)
          end).
Proof.
  intros Hn Hm Hr. destruct (set_before (predot m) _) eqn:Eb.
  { apply (set_before_suffix _ _ _ Hn (proj1 Hm)) in Eb as (q & Hq & Hff).
    apply answers_null; [done|by constructor|]. apply (failed_star chLT p q); [by right|done..]. }
  destruct (set_before (postdot m) (B n) && _) eqn:Ed.
  { apply andb_prop in Ed as [Ed Hdot]. apply not_after_dot in Hdot; [|done].
    apply (set_before_suffix _ _ _ Hn (proj2 Hm)) in Ed as (q & Hq & Hin & Hall).
    apply answers_fail; [|by constructor]. rewrite matches_lt. intros (s & [Hs Hd] & Hms).
    apply (Hall s); [|done]. split; [by etrans|]. intros _.
    destruct (Hd Hdot) as [?|?]; [by left|right; by etrans]. }
  pose proof (scan_ok true f p n (length (B n)) rest IH Hn Hr (length_B n)) as Hs.
  cbv iota in Hs. destruct (scan _ _ _ _ _ _) as [[|rest'|rest']|]; [| |..|done].
  - destruct Hs as (s & Hs & Ha & Hms). apply answers_found, matches_lt. exists s. auto.
  - destruct Hs as (_ & Hr' & Hin & Hall).
    apply answers_fail; [|constructor; [by apply new_postdot|done]].
    rewrite matches_lt. intros (s & Ha & Hms). by apply (Hall s).
  - destruct Hs as (Hr' & Hall & Hd). assert (failed_from chLT p n) as Hff by (split; [by auto|done]).
    apply answers_null; [done|constructor; [by apply new_predot|done]|].
    apply (failed_star chLT p n); [by right|done..].
Qed.
End step.

(** Going on with the next character of the pattern. *)
Lemma byte_of_text c n : scalar c -> c <> 0 ->
  exists b t, B (c :: n) = b :: t /\ ((b =? chDOT) = (c =? chDOT)) /\ (c = chDOT -> t = B n).
Proof.
  intros Hc H0. destruct (utf8_cons c (B n)) as (b & t & E). exists b, t. rewrite bytes_cons.
  split; [done|]. destruct (Z.lt_ge_cases c 128).
  - rewrite utf8_low in E by (unfold scalar in Hc; lia). injection E as -> ->. done.
  - assert (b ∈ utf8 c) as Hb.
    { destruct (utf8 c) as [|x u] eqn:Eu; [by pose proof (utf8_nonempty c); rewrite Eu in *|].
      injection E as -> _. left. }
    apply utf8_high in Hb; [|done..]. split; [|lia]. apply eq_true_iff_eq. lia.
Qed.

Lemma cmpi_letter c c' : scalar c -> scalar c' ->
  negb (c =? c') && negb (codepoint_cmpi upcase_table c c' =? 0) = false <-> same_letter upcase_table c c'.
Proof.
  intros Hc Hc'. unfold codepoint_cmpi, same_letter, scalar in *.
  destruct (Z.eqb_spec c c') as [->|Hn]; [by split|]. cbn [negb andb orb].
  destruct (Z.eqb_spec (toupper_w upcase_table c) (toupper_w upcase_table c')) as [E|E]; [by split|].
  rewrite s32_small by lia. replace (c - c' =? 0) with false by lia. by split.
Qed.

Section char.
Context (c : Z) (p : list Z) (fuel : nat) (mx : list max_n) (Hc : scalar c) (Hc0 : c <> 0) (Hp : text p)
  (IH : forall n, n `suffix_of` name -> answers p n (core fuel (B p) (B n) mx))
  (He : entries_ok (c :: p) mx) (Hst : stars (c :: p) = stars p).

Lemma name_cons x n : (x :: n) `suffix_of` name -> scalar x /\ x <> 0 /\ n `suffix_of` name.
Proof.
  intros Hn. pose proof (name_text _ Hn) as Ht. apply Forall_cons in Ht as [[? ?] _].
  split; [done|]. split; [done|]. etrans; [|exact Hn]. by exists [x].
Qed.

Lemma any_step n : c = chQ -> n `suffix_of` name ->
  answers (c :: p) n
    (match B n with [] => Some (-1, mx) | _ => core fuel (B p) (skip UTF8 (B n)) mx end).
Proof.
  intros -> Hn. destruct n as [|x n']; [apply answers_fail; [|done]; by intros (? & ? & ? & _)%matches_any|].
  destruct (name_cons _ _ Hn) as (Hx & Hx0 & Hn'). destruct (byte_of_text x n' Hx Hx0) as (b & t & E & _).
  rewrite E, <- E, skip_text by done.
  apply (answers_next _ _ _ n'); [done| |by apply IH]. rewrite matches_any. naive_solver.
Qed.

Lemma gt_step n : c = chGT -> n `suffix_of` name ->
  answers (c :: p) n
    (match B n with
     | [] => Some (null_match (B p), mx)
     | b :: n' =>
         if b =? chDOT then
           if (match n' with [] => true | _ => false end) && (null_match (B p) =? 0)
           then Some (0, mx) else core fuel (B p) (B n) mx
         else core fuel (B p) (skip UTF8 (B n)) mx
     end).
Proof.
  intros -> Hn. destruct n as [|x n']; [apply answers_null; [done..|]; by rewrite matches_gt|].
  destruct (name_cons _ _ Hn) as (Hx & Hx0 & Hn').
  destruct (byte_of_text x n' Hx Hx0) as (b & t & E & Eb & Et).
  rewrite E, Eb, <- E, skip_text by done. destruct (Z.eqb_spec x chDOT) as [->|Hd].
  - rewrite (Et eq_refl), null_match_text by done.
    destruct (match B n' with [] => true | _ => false end && _) eqn:Ez.
    + apply andb_prop in Ez as [E1 E2]. destruct (B n') eqn:En; [|done]. apply B_nil in En as ->.
      apply answers_found, matches_gt. left. split; [done|]. rewrite matches_empty.
      by destruct (empties p).
    + apply (answers_next _ _ _ (chDOT :: n')); [done| |by apply IH].
      rewrite matches_gt. change (chDOT =? chDOT) with true. cbv iota. split; [|by right].
      intros [[-> Hm]|?]; [|done]. rewrite matches_empty in Hm. by rewrite Hm in Ez.
  - apply (answers_next _ _ _ n'); [done| |by apply IH]. rewrite matches_gt.
    by replace (x =? chDOT) with false by lia.
Qed.

Lemma dq_step n : c = chDQ -> n `suffix_of` name ->
  answers (c :: p) n
    (match B n with
     | [] => Some (if null_match (B p) =? 0 then 0 else -1, mx)
     | b :: _ => if b =? chDOT then core fuel (B p) (skip UTF8 (B n)) mx else Some (-1, mx)
     end).
Proof.
  intros -> Hn. destruct n as [|x n'].
  - pose proof (answers_null chDQ p [] mx Hp He ltac:(by rewrite matches_dq)) as Ha.
    cbn [bytes_of map concat]. rewrite null_match_text in * by done. by destruct (empties p).
  - destruct (name_cons _ _ Hn) as (Hx & Hx0 & Hn').
    destruct (byte_of_text x n' Hx Hx0) as (b & t & E & Eb & _). rewrite E, Eb, <- E, skip_text by done.
    destruct (Z.eqb_spec x chDOT) as [->|Hd].
    + apply (answers_next _ _ _ n'); [done| |by apply IH]. rewrite matches_dq. naive_solver.
    + apply answers_fail; [|done]. rewrite matches_dq. by intros [? _].
Qed.

Lemma char_step n : special c = false -> n `suffix_of` name ->
  answers (c :: p) n
    (let c2 := (next_codepoint UTF8 (B n)).1 in
     if negb (c =? c2) && negb (codepoint_cmpi upcase_table c c2 =? 0) then Some (-1, mx)
     else match B n with [] => None | _ => core fuel (B p) (skip UTF8 (B n)) mx end).
Proof.
  intros Hsp Hn. cbv zeta. destruct n as [|x n'].
  - cbn [bytes_of map concat]. change (next_codepoint UTF8 []).1 with 0. unfold codepoint_cmpi.
    replace (c =? 0) with false by lia. change (toupper_w upcase_table 0) with 0.
    pose proof (Hup c Hc Hc0). replace (toupper_w upcase_table c =? 0) with false by lia. cbn [negb orb andb].
    unfold scalar in Hc. rewrite s32_small by lia. replace (c - 0 =? 0) with false by lia. cbn [negb].
    apply answers_fail; [|done]. rewrite matches_char by done. by intros (? & ? & ? & _).
  - destruct (name_cons _ _ Hn) as (Hx & Hx0 & Hn'). destruct (byte_of_text x n' Hx Hx0) as (b & t & E & _).
    rewrite bytes_cons, next_codepoint_utf8 by done. cbn [fst]. pose proof (cmpi_letter c x Hc Hx) as Hcm.
    destruct (negb (c =? x) && _).
    + apply answers_fail; [|done]. rewrite matches_char by done. intros (x' & n'' & [= -> ->] & Hl & _).
      by apply Hcm in Hl.
    + rewrite <- bytes_cons, E, <- E, skip_text by done. apply (answers_next _ _ _ n'); [done| |by apply IH].
      rewrite matches_char by done. split; [naive_solver|]. intros ?. exists x, n'.
      split; [done|]. split; [by apply Hcm|done].
Qed.
End char.

Lemma core_ok p n mx fuel :
  text p -> n `suffix_of` name -> entries_ok p mx -> (length p < fuel)%nat ->
  answers p n (core fuel (B p) (B n) mx).
Proof.
  intros Hp. revert n mx fuel. induction Hp as [|c p [Hc Hc0] Hp IH]; intros n mx [|fuel] Hn He Hf; try (simpl in Hf; lia).
  { cbn [ms_fnmatch_core bytes_of map concat]. change (next_codepoint UTF8 []) with (0, 1). cbv iota beta.
    change (0 =? 0) with true. cbv iota.
    destruct (B n) as [|b t] eqn:En.
    - apply B_nil in En as ->. apply answers_found. constructor.
    - apply answers_fail; [|done]. rewrite matches_nil_l. by intros ->. }
  simpl in Hf. assert (forall n mx, n `suffix_of` name -> entries_ok p mx -> answers p n (core fuel (B p) (B n) mx)) as IH'
    by (intros; apply IH; [done..|lia]).
  cbn [ms_fnmatch_core]. rewrite bytes_cons, next_codepoint_utf8, drop_utf8 by done. cbv iota beta.
  replace (c =? 0) with false by lia.
  destruct (Z.eqb_spec c chSTAR) as [->|N1].
  { inversion He; subst. by apply star_step. }
  destruct (Z.eqb_spec c chLT) as [->|N2].
  { inversion He; subst. by apply lt_step. }
  assert (stars (c :: p) = stars p) as Hst by (apply not_star_stars; lia).
  assert (entries_ok p mx) as He' by (unfold entries_ok in *; by rewrite Hst in He).
  destruct (Z.eqb_spec c chQ) as [->|N3]; [by apply any_step; auto|].
  destruct (Z.eqb_spec c chGT) as [->|N4]; [by apply gt_step; auto|].
  destruct (Z.eqb_spec c chDQ) as [->|N5]; [by apply dq_step; auto|].
  apply char_step; auto. unfold special. lia.
Qed.
End matcher.

(** ** Whole patterns *)

Lemma B_inj a b : text a -> text b -> B a = B b -> a = b.
Proof.
  intros Ha Hb E. destruct (characters_text a Ha) as [Ea _]. destruct (characters_text b Hb) as [Eb _].
  rewrite E in Ea. congruence.
Qed.

Lemma first_byte_text p x : text p -> 0 <= x < 128 -> (byte_at (B p) 0 =? x) = (byte_at p 0 =? x).
Proof.
  intros Hp Hx. destruct Hp as [|c p [Hs _] Hp]; [done|].
  destruct (utf8_first_byte c (B p) Hs) as (Hb & Hr & Hlt & Hone). rewrite bytes_cons, Hb.
  unfold byte_at at 2. cbn [nth]. destruct (Z.lt_ge_cases c 128) as [H|H]; [by rewrite (Hone H)|].
  apply eq_true_iff_eq. rewrite !Z.eqb_eq. lia.
Qed.

Lemma translate_high u r : (forall b, b ∈ u -> 128 <= b) -> translate (u ++ r) = u ++ translate r.
Proof.
  induction u as [|b u IH]; intros Hu; [done|]. cbn [app translate]. pose proof (Hu b ltac:(left)).
  rewrite IH by (intros; apply Hu; by right).
  replace (b =? chQ) with false by lia. replace (b =? chDOT) with false by lia.
  replace (b =? chSTAR) with false by lia. done.
Qed.

Lemma translate_cons c p : exists c', translate (c :: p) = c' :: translate p /\
  (c' = c \/ 0 < c < 128 /\ 0 < c' < 128).
Proof.
  eexists. split; [reflexivity|]. cbv zeta.
  destruct (Z.eqb_spec c chQ); [lia|]. destruct (Z.eqb_spec c chDOT); cbn [andb];
    [|destruct (Z.eqb_spec c chSTAR); cbn [andb]];
    repeat match goal with |- context [if ?b then _ else _] => destruct b end; lia.
Qed.

Lemma translate_length p : length (translate p) = length p.
Proof. induction p as [|c p IH]; [done|]. destruct (translate_cons c p) as (c' & -> & _). simpl. by rewrite IH. Qed.

Lemma translate_is_text p : text p -> text (translate p).
Proof.
  intros Hp. induction Hp as [|c p [Hs H0] Hp IH]; [constructor|].
  destruct (translate_cons c p) as (c' & -> & Hc'). constructor; [|done].
  unfold scalar in *. destruct Hc' as [->|[? ?]]; [done|]. split; lia.
Qed.

Lemma translate_text p : text p -> translate (B p) = B (translate p).
Proof.
  intros Hp. induction Hp as [|c p [Hs H0] Hp IH]; [done|]. rewrite bytes_cons.
  destruct (Z.lt_ge_cases c 128) as [H|H].
  - rewrite utf8_low by (unfold scalar in Hs; lia). cbn [app translate].
    rewrite !first_byte_text, IH by (done || lia). cbv zeta.
    set (c' := if c =? chQ then _ else _). rewrite bytes_cons, utf8_low; [done|]. unfold scalar in Hs.
    unfold c'. repeat match goal with |- context [if ?b then _ else _] => destruct b end; lia.
  - rewrite translate_high by (intros b Hb; by apply (utf8_high c)). rewrite IH. cbn [translate].
    replace (c =? chQ) with false by lia. replace (c =? chDOT) with false by lia.
    replace (c =? chSTAR) with false by lia. done.
Qed.

Lemma has_wildcard_text p : text p -> has_wildcard (B p) = has_wildcard p.
Proof. intros Hp. apply existsb_text; [done|]. intros; lia. Qed.

Lemma count_stars_app a b : count_stars (a ++ b) = (count_stars a + count_stars b)%nat.
Proof. unfold count_stars. by rewrite List.filter_app, length_app. Qed.

Lemma count_stars_text p : text p -> count_stars (B p) = length (stars p).
Proof.
  intros Hp. induction Hp as [|c p [Hs H0] Hp IH]; [done|]. rewrite bytes_cons, count_stars_app, IH. cbn [stars].
  destruct (Z.lt_ge_cases c 128) as [H|H].
  - rewrite utf8_low by (unfold scalar in Hs; lia). unfold count_stars. cbn [List.filter].
    by destruct ((c =? chSTAR) || (c =? chLT)).
  - replace ((c =? chSTAR) || (c =? chLT)) with false by lia.
    assert (count_stars (utf8 c) = 0%nat) as ->; [|done]. unfold count_stars.
    assert (existsb (fun c => (c =? chSTAR) || (c =? chLT)) (utf8 c) = false) as E.
    { apply existsb_false_elem_of. intros b Hb. apply utf8_high in Hb; [lia|done..]. }
    by apply existsb_false_filter in E as [-> _].
Qed.

(** Without wildcards a pattern matches what it is equal to, but for case. *)
Lemma matches_literal up p n : has_wildcard p = false ->
  matches up p n <-> map (toupper_w up) p = map (toupper_w up) n.
Proof.
  revert n. induction p as [|c p IH]; intros n Hw.
  - rewrite matches_nil_l. by destruct n.
  - cbn [has_wildcard existsb] in Hw. apply orb_false_elim in Hw as [Hc Hw].
    rewrite matches_char by exact Hc. split.
    + intros (c' & n' & -> & Hl & Hm). cbn [map]. f_equal; [exact Hl|]. by apply IH.
    + destruct n as [|c' n']; [done|]. cbn [map]. intros [= Hl Hm]. exists c', n'.
      split; [done|]. split; [exact Hl|]. by apply IH.
Qed.

Section whole.
Context (upcase_table : option (Z -> Z)) (Hup : forall c, scalar c -> c <> 0 -> toupper_w upcase_table c <> 0).

Lemma ms_fnmatch_new_ok p n : text p -> text n ->
  exists r, ms_fnmatch_new UTF8 upcase_table (B p) (B n) = Some r /\ (r = 0 <-> matches upcase_table p n).
Proof.
  intros Hp Hn. unfold ms_fnmatch_new. rewrite has_wildcard_text by done.
  destruct (has_wildcard p) eqn:Ew; cbn [negb].
  - rewrite count_stars_text by done.
    destruct (core_ok upcase_table n Hn Hup p n (replicate (length (stars p)) (mk_max_n None None)) (S (length (B p))))
      as (v & mx & -> & Hv); [done|done| |by pose proof (bytes_length p); lia|].
    + unfold entries_ok. induction (stars p) as [|s l IHl]; [constructor|]. constructor; [by split|done].
    + exists v. split; [done|]. naive_solver.
  - eexists. split; [reflexivity|]. rewrite matches_literal by done.
    apply strcasecmp_loop_text; [done..|apply bytes_length].
Qed.
End whole.

(** The pattern that is matched, and the name it is matched against. *)
Definition meant (p : list Z) (protocol : Z) : list Z :=
  if has_wildcard p && (protocol <=? PROTOCOL_LANMAN2) then translate p else p.
Definition dot_name (n : list Z) : list Z := if decide (n = [chDOT; chDOT]) then [chDOT] else n.

(** C18: the matcher answers, within its array and its strings, and answers 0
    exactly when the pattern matches the name: what [max_n] remembers never
    changes the answer.  The table of upper case must map no character to NUL. *)
Theorem ms_fnmatch_correct up p n protocol :
  (forall c, scalar c -> c <> 0 -> toupper_w up c <> 0) -> text p -> text n ->
  exists r, ms_fnmatch UTF8 up (B p) (B n) protocol = Some r /\
    (r = 0 <-> matches up (meant p protocol) (dot_name n)).
Proof.
  intros Hup Hp Hn. unfold ms_fnmatch, meant.
  assert ((if bool_decide (B n = [chDOT; chDOT]) then [chDOT] else B n) = B (dot_name n)) as ->.
  { unfold dot_name. destruct (decide (n = [chDOT; chDOT])) as [->|Hne]; [done|].
    rewrite bool_decide_false; [done|]. intros E. apply Hne, B_inj; [done| |done].
    repeat (apply List.Forall_cons; [unfold scalar; lia|]); apply List.Forall_nil. }
  assert (text (dot_name n)) as Hn'.
  { unfold dot_name. destruct (decide _); [|done].
    repeat (apply List.Forall_cons; [unfold scalar; lia|]); apply List.Forall_nil. }
  rewrite has_wildcard_text by done. destruct (has_wildcard p) eqn:Ew; cbn [negb andb].
  - destruct (protocol <=? PROTOCOL_LANMAN2).
    + rewrite translate_text by done. apply ms_fnmatch_new_ok; [done|by apply translate_is_text|done].
    + by apply ms_fnmatch_new_ok.
  - eexists. split; [reflexivity|]. rewrite matches_literal by done.
    apply strcasecmp_loop_text; [done..|apply bytes_length].
Qed.

(** foo*.t? of an old protocol against Foo.c.tx *)
Lemma ms_fnmatch_correct_witness :
  let p := [0x66; 0x6F; 0x6F; 42; 46; 0x74; 63] in
  let n := [0x46; 0x6F; 0x6F; 46; 0x63; 46; 0x74; 0x78] in
  exists r, ms_fnmatch UTF8 None (B p) (B n) 3 = Some r /\
    (r = 0 <-> matches None (meant p 3) (dot_name n)).
Proof.
  apply (ms_fnmatch_correct None [0x66; 0x6F; 0x6F; 42; 46; 0x74; 63]
           [0x46; 0x6F; 0x6F; 46; 0x63; 46; 0x74; 0x78] 3).
  - intros c Hc H0. unfold toupper_w, toupper, scalar in *.
    destruct (c <? 128); [|done]. destruct (Z.leb_spec 97 c), (Z.leb_spec c 122); cbn [andb]; lia.
  - repeat (apply List.Forall_cons; [unfold scalar; lia|]); apply List.Forall_nil.
  - repeat (apply List.Forall_cons; [unfold scalar; lia|]); apply List.Forall_nil.
Defined.

(** Overlong UTF-8 stars are not counted: the array of [max_n] is too short. *)
Lemma overlong_star_overruns : ms_fnmatch UTF8 None [0xC0; 0xAA; 63] [0x61] PROTOCOL_NT1 = None.
Proof. reflexivity. Qed.
