(* ===== verification/WinsName.v ===== *)
(** * NetBIOS names as distinguished names
      ([source4/nbt_server/wins/winsdb.c], [lib/ldb/ldb_tdb/ldb_tdb.c])

    A record of the WINS database has the DN [scope=...,name=...,type=0x..], whose
    text [winsdb_dn] puts together from the name as it is: no byte is escaped.
    The DN is an object of [LdbDn]; what identifies the record in the database is
    the key that [ltdb_key] makes of its case-folded text.  A DN that cannot be
    exploded has no key.  [winsdb_nbt_name] explodes the DN of a message into the
    name again.

    [clean_name] are the names that come back: those without a byte of the DN
    syntax, and without a blank at either end. *)

From S2P Require Import Prelude NtStatus CLib LdbFilter LdbAttr LdbDn LdbDnSpec.
From Stdlib Require Import Ascii.

Record nbt_name : Set := mk_nbt_name {
  nn_name : string;
  nn_scope : option string;
  nn_type : Z
}.

#[export] Instance nbt_name_eq_dec : EqDecision nbt_name.
Proof. solve_decision. Defined.

(** [x && *x] *)
Definition nonempty (s : string) : bool := match s with EmptyString => false | _ => true end.

(** ** The DN of a name *)

Definition hex_digit (d : Z) : Z := if d <? 10 then 48 + d else 55 + d.

(** The digits of [%X], in front of [acc]; an [int] has eight at most. *)
Fixpoint hex_digits (fuel : nat) (n : Z) (acc : list Z) : list Z :=
  match fuel with
  | O => acc
  | S fuel =>
    let acc := hex_digit (n mod 16) :: acc in
    if n <? 16 then acc else hex_digits fuel (n / 16) acc
  end.

(** [%02X] *)
Definition print_02X (n : Z) : list Z :=
  let s := hex_digits 8 (u32 n) [] in
  if (length s <? 2)%nat then 48 :: s else s.

(** The table of attributes of a new [ldb_context]; those of the names are not in
    it and have the default syntax.  An allocation has no say in what is read. *)
Definition wins_attributes : list ldb_schema_attribute :=
  default [] (ldb_setup_wellknown_attributes ldb_casefold_default [] 1 [] ldb_attribute_default [] []).

(** [ldb_dn_add_child_fmt] with the format [attr=%s]; the result is not looked at. *)
Definition add_child (attr s : string) (dn : ldb_dn) : ldb_dn :=
  match ldb_dn_add_child_fmt wins_attributes ldb_attribute_default [] dn
          (bytes_of attr ++ EQUALS :: cstr (bytes_of s)) with
  | Some (_, dn) => dn
  | None => dn (* not reached: [add_child_total] *)
  end.

Definition winsdb_dn (n : nbt_name) : ldb_dn :=
  let dn := ldb_dn_new true (Some (bytes_of "type=0x" ++ print_02X (nn_type n))) in
  let dn := if ldb_dn_is_valid dn && nonempty (nn_name n) then add_child "name" (nn_name n) dn
            else dn in
  match nn_scope n with
  | Some s => if ldb_dn_is_valid dn && nonempty s then add_child "scope" s dn else dn
  | None => dn
  end.

(** The key of a record; [None] when the DN is not valid.  So it is here for a
    value with an escaped zero, where the folding reads beyond the value. *)
Definition ltdb_key (dn : ldb_dn) : option (list Z) :=
  match ldb_dn_get_casefold wins_attributes ldb_attribute_default [] dn with
  | Some (Some s, _) => Some (bytes_of "DN=" ++ s)
  | _ => None
  end.

(** What identifies the record of a name. *)
Abbreviation wins_dn := (option (list Z)).
Definition wins_key (n : nbt_name) : wins_dn := ltdb_key (winsdb_dn n).

(** [ldb_dn_get_linearized(msg->dn)] *)
Definition dn_string (dn : ldb_dn) : list Z := default [] (linearized dn).

(** ** The name of a DN *)

(** The value of the next component when it has the name, and what is left. *)
Definition next_value (s : string) (cs : list ldb_dn_component)
    : option (list Z) * list ldb_dn_component :=
  match cs with
  | c :: cs' =>
    if bool_decide (map tolower (bytes_of s) = map tolower (LdbDn.name c))
    then (Some (default [] (value c)), cs') else (None, cs)
  | [] => (None, [])
  end.

Definition winsdb_nbt_name (dn : ldb_dn) : NTSTATUS + nbt_name :=
  match ldb_dn_get_comp_num [] dn with
  | Some (comp_num, dn) =>
    if 3 <? u32 comp_num then inl NT_STATUS_INTERNAL_DB_CORRUPTION
    else
      let '(scope, cs) := next_value "scope" (comps dn) in
      let '(nm, cs) := next_value "name" cs in
      match (next_value "type" cs).1 with
      | Some ty => inr (mk_nbt_name (string_of (default [] nm)) (string_of <$> scope) (u32 (strtoull ty)))
      | None => inl NT_STATUS_INTERNAL_DB_CORRUPTION
      end
  | None => inl NT_STATUS_INTERNAL_DB_CORRUPTION
  end.

(** ** The text *)

Lemma add_child_total dn s :
  components dn = None -> invalid dn = false ->
  exists r dn', ldb_dn_add_child_fmt wins_attributes ldb_attribute_default [] dn s = Some (r, dn').
Proof.
  intros Hc Hi. unfold ldb_dn_add_child_fmt, ldb_dn_add_child, add_components, add_text. rewrite Hi, Hc.
  simpl. destruct (linearized dn); by eexists _, _.
Qed.

Lemma add_child_text attr s sp t :
  add_child attr s (mk_dn true sp false false (Some t) None None)
  = mk_dn true sp false false (Some (join (bytes_of attr ++ EQUALS :: cstr (bytes_of s)) t)) None None.
Proof. done. Qed.

(** The text of the DN of a name. *)
Definition name_text (n : nbt_name) : list Z :=
  let t := bytes_of "type=0x" ++ print_02X (nn_type n) in
  let t := if nonempty (nn_name n) then join (bytes_of "name=" ++ cstr (bytes_of (nn_name n))) t else t in
  match nn_scope n with
  | Some s => if nonempty s then join (bytes_of "scope=" ++ cstr (bytes_of s)) t else t
  | None => t
  end.

Lemma winsdb_dn_text n : winsdb_dn n = mk_dn true false false false (Some (name_text n)) None None.
Proof.
  destruct n as [nm [sc|] ty]; unfold winsdb_dn, name_text, ldb_dn_is_valid; cbn -[print_02X bytes_of].
  all: destruct (nonempty nm); try destruct (nonempty sc); done.
Qed.

Lemma dn_string_text n : dn_string (winsdb_dn n) = name_text n.
Proof. by rewrite winsdb_dn_text. Qed.

(** ** Clean names *)

(** No zero, no byte of the DN syntax, no blank at an end. *)
Definition clean_text (s : string) : bool :=
  forallb (fun c => negb (c =? 0) && negb (must_quote c)) (bytes_of s)
  && bool_decide (head (bytes_of s) <> Some BLANK) && bool_decide (last (bytes_of s) <> Some BLANK).

Record clean_name (n : nbt_name) : Prop := {
  cn_name : clean_text (nn_name n) = true;
  cn_scope : match nn_scope n with Some s => s <> EmptyString /\ clean_text s = true | None => True end;
  cn_type : 0 <= nn_type n < 256
}.

(** The text of the component [type]. *)
Definition type_text (ty : Z) : list Z := bytes_of "0x" ++ print_02X ty.

(** The components of the DN of a name. *)
Definition name_rdns (n : nbt_name) : list (list Z * list Z) :=
  match nn_scope n with Some s => [(bytes_of "scope", bytes_of s)] | None => [] end ++
  (if nonempty (nn_name n) then [(bytes_of "name", bytes_of (nn_name n))] else []) ++
  [(bytes_of "type", type_text (nn_type n))].

Lemma name_rdns_length n : (0 < length (name_rdns n))%nat.
Proof. unfold name_rdns. rewrite !length_app. simpl. lia. Qed.

Lemma string_of_bytes s : string_of (bytes_of s) = s.
Proof.
  unfold string_of, bytes_of. rewrite map_map.
  rewrite (map_ext _ (fun c => c)), map_id, String.string_of_list_ascii_of_string; [done|].
  intros c. unfold byte_of. by rewrite N2Z.id, ascii_N_embedding.
Qed.

Lemma bytes_of_nil s : bytes_of s = [] <-> s = EmptyString.
Proof. by destruct s. Qed.

Lemma pending_last v b : Forall (fun c => must_quote c = false) v ->
  pending v b = match last v with Some c => c =? BLANK | None => b end.
Proof.
  intros H. revert b. induction H as [|c v Hc Hv IH]; intros b; [done|]. cbn [pending]. rewrite IH.
  replace (c =? COMMA) with false
    by (unfold must_quote in Hc; simpl in Hc; apply orb_false_iff in Hc as [Hc _]; done).
  rewrite Hc. cbn [negb andb]. destruct v as [|c' v]; [done|]. by rewrite last_cons_cons; destruct (last (c' :: v)) eqn:E; [|apply last_None in E].
Qed.

Lemma clean_bytes s : clean_text s = true ->
  no_nul (bytes_of s) /\ Forall (fun c => must_quote c = false) (bytes_of s)
  /\ head (bytes_of s) <> Some BLANK /\ last (bytes_of s) <> Some BLANK.
Proof.
  unfold clean_text. intros [[H Hh%bool_decide_eq_true]%andb_true_iff Hl%bool_decide_eq_true]%andb_true_iff.
  rewrite forallb_forall in H.
  split; [|split; [|done]]; apply Forall_forall; intros c Hc%list_elem_of_In; specialize (H c Hc);
    apply andb_true_iff in H as [H1 H2].
  - apply negb_true_iff, Z.eqb_neq in H1. done.
  - by apply negb_true_iff in H2.
Qed.

(** The value stands in the text as it is. *)
Lemma clean_rdn a s : rdn_name_ok a = true -> clean_text s = true -> rdn_ok (a, bytes_of s).
Proof.
  intros Ha Hs. destruct (clean_bytes s Hs) as (Hn & Hq & Hh & Hl). split; [done..|]. simpl.
  rewrite pending_last by done. destruct (last (bytes_of s)) as [c|]; [|done].
  apply Z.eqb_neq. by intros ->.
Qed.

Lemma clean_escape s : clean_text s = true -> ldb_dn_escape_internal (bytes_of s) = bytes_of s.
Proof.
  intros Hs. destruct (clean_bytes s Hs) as (Hn & Hq & _). unfold ldb_dn_escape_internal.
  induction (bytes_of s) as [|c v IH]; [done|].
  apply Forall_cons in Hn as [Hc Hn]. apply Forall_cons in Hq as [Hcq Hq]. simpl. rewrite IH by done.
  unfold escape_char. rewrite Hcq. by apply Z.eqb_neq in Hc as ->.
Qed.

Lemma clean_rdn_text a s : clean_text s = true -> rdn_text (a, bytes_of s) = a ++ EQUALS :: cstr (bytes_of s).
Proof.
  intros Hs. unfold rdn_text. simpl. rewrite clean_escape by done. by rewrite cstr_no_nul by apply clean_bytes, Hs.
Qed.

(** What is needed of the 256 types. *)
Definition type_ok (ty : Z) : bool :=
  clean_text (string_of (type_text ty)) && bool_decide (bytes_of (string_of (type_text ty)) = type_text ty)
  && (u32 (strtoull (type_text ty)) =? ty).

Lemma type_checked ty : 0 <= ty < 256 -> type_ok ty = true.
Proof.
  intros H. assert (forallb type_ok (map Z.of_nat (seq 0 256)) = true) as Ha by (vm_compute; reflexivity).
  rewrite forallb_forall in Ha. apply Ha, in_map_iff. exists (Z.to_nat ty). split; [lia|]. apply in_seq. lia.
Qed.

Lemma type_read ty : 0 <= ty < 256 ->
  rdn_ok (bytes_of "type", type_text ty) /\ u32 (strtoull (type_text ty)) = ty
  /\ rdn_text (bytes_of "type", type_text ty) = bytes_of "type=0x" ++ print_02X ty.
Proof.
  intros H. pose proof (type_checked ty H) as Ht. unfold type_ok in Ht.
  apply andb_true_iff in Ht as [[Ht Eb%bool_decide_eq_true]%andb_true_iff Ez%Z.eqb_eq].
  pose proof (clean_rdn (bytes_of "type") (string_of (type_text ty)) eq_refl) as Hc.
  pose proof (clean_escape (string_of (type_text ty))) as Hx.
  rewrite Eb in *.
  split; [by apply Hc|]. split; [done|]. unfold rdn_text. cbn [fst snd]. by rewrite Hx.
Qed.

Lemma name_rdns_ok n : clean_name n -> Forall rdn_ok (name_rdns n).
Proof.
  intros [Hn Hs Ht]. unfold name_rdns. repeat apply Forall_app_2.
  - destruct (nn_scope n) as [s|]; [|constructor]. constructor; [|constructor]. by apply clean_rdn, Hs.
  - destruct (nonempty _); [|constructor]. constructor; [|constructor]. by apply clean_rdn.
  - constructor; [|constructor]. by apply type_read.
Qed.

Lemma name_rdns_text n : clean_name n -> dn_text (name_rdns n) = name_text n.
Proof.
  intros [Hn Hs Ht]. destruct (type_read _ Ht) as (_ & _ & Et). unfold name_rdns, name_text.
  destruct n as [nm [sc|] ty]; cbn [nn_name nn_scope nn_type] in *.
  - destruct Hs as [Hne Hs]. replace (nonempty sc) with true by (by destruct sc).
    destruct (nonempty nm); cbn [app dn_text]; rewrite Et, !clean_rdn_text by done; done.
  - destruct (nonempty nm); cbn [app dn_text]; rewrite Et, ?clean_rdn_text by done; done.
Qed.

Lemma name_reads n : clean_name n -> reads (name_text n) (name_rdns n).
Proof.
  intros H. rewrite <- name_rdns_text by done. apply reads_text; [by apply name_rdns_ok|].
  intros E. pose proof (name_rdns_length n) as Hl. rewrite E in Hl. simpl in Hl. lia.
Qed.

(** The DN object of a text that is read. *)
Lemma explode_dn s nvs own : reads s nvs ->
  ldb_dn_explode [] (ldb_dn_new own (Some s))
  = Some (true, set_components (Some (map mkc nvs)) (ldb_dn_new own (Some s))).
Proof.
  intros H. pose proof (reads_special own _ _ H) as Hsp. pose proof (reads_ne _ _ H) as Hne.
  unfold ldb_dn_explode. change (invalid (ldb_dn_new own (Some s))) with false.
  change (components (ldb_dn_new own (Some s))) with (@None (list ldb_dn_component)).
  change (linearized (ldb_dn_new own (Some s))) with (Some s).
  cbv iota. rewrite bool_decide_eq_false_2, Hsp by done. simpl orb. cbv iota.
  by rewrite (explode_reads [] _ _ H).
Qed.

Lemma next_value_some s nvs v : next_value s (map mkc ((bytes_of s, v) :: nvs)) = (Some v, map mkc nvs).
Proof. simpl. by rewrite bool_decide_eq_true_2. Qed.

Lemma next_value_none s a nvs : map tolower (bytes_of s) <> map tolower a.1 ->
  next_value s (map mkc (a :: nvs)) = (None, map mkc (a :: nvs)).
Proof. intros H. simpl. by rewrite bool_decide_eq_false_2. Qed.

(** A clean name is read back from its DN. *)
Theorem nbt_name_roundtrip n :
  clean_name n -> winsdb_nbt_name (ldb_dn_new true (Some (dn_string (winsdb_dn n)))) = inr n.
Proof.
  intros H. rewrite dn_string_text. unfold winsdb_nbt_name, ldb_dn_get_comp_num, ldb_dn_validate.
  rewrite (explode_dn _ _ _ (name_reads n H)). cbn [mbind option_bind fmap].
  destruct (type_read _ (cn_type n H)) as (_ & Ety & _). pose proof (cn_scope n H) as Hs.
  unfold comp_num, comps. cbn [set_components components default from_option Datatypes.id].
  destruct n as [nm [sc|] ty]; unfold name_rdns; cbn [nn_name nn_scope nn_type] in *;
    (destruct nm as [|a nm]; cbn [nonempty app];
     rewrite ?next_value_some, ?next_value_none by done;
     rewrite ?next_value_some, ?next_value_none by done;
     rewrite ?next_value_some, ?next_value_none by done; cbn [fst default from_option Datatypes.id fmap option_fmap option_map];
     rewrite Ety, ?string_of_bytes; done).
Qed.

(** ** Keys *)

(** The component as the key has it. *)
Definition folded (nv : list Z * list Z) : list Z * list Z := (ldb_attr_casefold nv.1, nv.2).

Lemma default_attr a : a = "scope"%string \/ a = "name"%string \/ a = "type"%string ->
  ldb_schema_attribute_by_name wins_attributes ldb_attribute_default (ldb_attr_casefold (bytes_of a))
  = Some ldb_attribute_default.
Proof. intros [->|[->| ->]]; exact eq_refl. Qed.

Definition wins_attr (nv : list Z * list Z) : Prop :=
  exists a, nv.1 = bytes_of a /\ (a = "scope"%string \/ a = "name"%string \/ a = "type"%string).

Lemma casefold_rdns nvs : Forall wins_attr nvs ->
  casefold_components wins_attributes ldb_attribute_default (map mkc nvs)
  = Some (Some (map (fun nv => set_cf (Some (folded nv).1) (Some (folded nv).2) (mkc nv)) nvs)).
Proof.
  induction 1 as [|nv nvs (a & Ea & Ha) _ IH]; [done|]. simpl. rewrite Ea, default_attr by done.
  cbn [mbind option_bind]. simpl. rewrite IH. done.
Qed.

Lemma name_rdns_attr n : Forall wins_attr (name_rdns n).
Proof.
  unfold name_rdns. repeat apply Forall_app_2.
  - destruct (nn_scope n); repeat constructor. eexists; split; [done|tauto].
  - destruct (nonempty _); repeat constructor. eexists; split; [done|tauto].
  - repeat constructor. eexists; split; [done|tauto].
Qed.

Lemma folded_ok nv : wins_attr nv -> rdn_ok nv -> rdn_ok (folded nv).
Proof.
  intros (a & Ea & Ha) []. split; simpl; [|done..]. rewrite Ea. by destruct Ha as [->|[->| ->]].
Qed.

(** The key of a clean name is the text of its folded components. *)
Lemma clean_key n : clean_name n -> wins_key n = Some (bytes_of "DN=" ++ dn_text (map folded (name_rdns n))).
Proof.
  intros H. pose proof (name_reads n H) as Hr. pose proof (reads_ne _ _ Hr) as Hne.
  unfold wins_key, ltdb_key, ldb_dn_get_casefold. rewrite winsdb_dn_text.
  set (dn := mk_dn _ _ _ _ _ _ _).
  assert (dn = ldb_dn_new true (Some (name_text n))) as ->.
  { unfold dn. pose proof (reads_special true _ _ Hr) as Hsp. unfold ldb_dn_new in *. simpl in Hsp. by rewrite Hsp. }
  change (casefold (ldb_dn_new true (Some (name_text n)))) with (@None (list Z)). cbv iota.
  rewrite (reads_special true _ _ Hr). unfold ldb_dn_casefold_internal.
  change (invalid (ldb_dn_new true (Some (name_text n)))) with false.
  change (valid_case (ldb_dn_new true (Some (name_text n)))) with false.
  change (components (ldb_dn_new true (Some (name_text n)))) with (@None (list ldb_dn_component)).
  cbv iota. rewrite (explode_dn _ _ _ Hr). cbn [mbind option_bind negb set_components components].
  change (negb (ldb _) && _) with false. cbv iota. rewrite casefold_rdns by apply name_rdns_attr.
  cbn [mbind option_bind]. set (dn := set_valid_case _ _).
  assert (comps dn = map (fun nv => set_cf (Some (folded nv).1) (Some (folded nv).2) (mkc nv)) (name_rdns n)) as Hc by done.
  pose proof (name_rdns_length n) as Hl.
  assert ((comp_num dn =? 0) = false) as -> by (unfold comp_num; rewrite Hc, length_map; lia).
  cbn [negb]. rewrite Hc.
  replace (mapM _ _) with (Some (map folded (name_rdns n))).
  2:{ symmetry. apply mapM_Some. clear. induction (name_rdns n) as [|[a v] l IH]; [constructor|]. by constructor. }
  cbn [mbind option_bind]. rewrite print_components_text; [done| |].
  - pose proof (name_rdns_ok n H) as Hok. pose proof (name_rdns_attr n) as Ha. apply Forall_map, Forall_forall.
    rewrite !Forall_forall in *. intros nv Hnv. by apply folded_ok; [apply Ha|apply Hok].
  - intros E. apply (f_equal (@length _)) in E. rewrite length_map in E. simpl in E. lia.
Qed.

Lemma bytes_of_inj s s' : bytes_of s = bytes_of s' -> s = s'.
Proof. intros E. by rewrite <- (string_of_bytes s), E, string_of_bytes. Qed.

Lemma type_text_inj a b : 0 <= a < 256 -> 0 <= b < 256 -> type_text a = type_text b -> a = b.
Proof.
  intros Ha Hb E. destruct (type_read a Ha) as (_ & Ea & _). destruct (type_read b Hb) as (_ & Eb & _). congruence.
Qed.

(** Clean names do not share a record. *)
Theorem wins_key_inj n n' : clean_name n -> clean_name n' -> wins_key n = wins_key n' -> n = n'.
Proof.
  intros H H' E. rewrite !clean_key in E by done.
  assert (dn_text (map folded (name_rdns n)) = dn_text (map folded (name_rdns n'))) as Et
    by (eapply (app_inv_head (bytes_of "DN=")); congruence).
  assert (forall n, clean_name n -> reads (dn_text (map folded (name_rdns n))) (map folded (name_rdns n))) as Hr.
  { clear. intros n H. pose proof (name_rdns_ok n H) as Hok. pose proof (name_rdns_attr n) as Ha. apply reads_text.
    - apply Forall_map, Forall_forall. rewrite !Forall_forall in *. intros nv Hnv. by apply folded_ok; [apply Ha|apply Hok].
    - intros E. pose proof (name_rdns_length n) as Hl. apply (f_equal (@length _)) in E. rewrite length_map in E. simpl in E. lia. }
  pose proof (explode_reads [] _ _ (Hr n H)) as E1. rewrite Et, (explode_reads [] _ _ (Hr n' H')) in E1.
  injection E1 as E1. apply (f_equal (map (fun c => (LdbDn.name c, default [] (value c))))) in E1.
  rewrite !(map_map mkc), !map_map in E1. clear E Et Hr.
  pose proof (cn_type n H) as Ht. pose proof (cn_type n' H') as Ht'.
  pose proof (type_text_inj _ _ Ht Ht') as Hty.
  destruct n as [nm [sc|] ty], n' as [nm' [sc'|] ty']; unfold name_rdns in E1; cbn [nn_name nn_scope nn_type] in *;
    destruct nm, nm'; cbn -[bytes_of type_text] in E1; try discriminate E1.
  all: rewrite Hty by congruence; try (assert (sc = sc') as -> by (apply bytes_of_inj; congruence)).
  all: try match goal with
           | |- mk_nbt_name ?a _ _ = mk_nbt_name ?b _ _ => assert (a = b) as -> by (apply bytes_of_inj; congruence)
           end.
  all: done.
Qed.

(** Names that a client may send and the database cannot hold: their DN is not
    valid.  A name with a blank at the end, or a backslash, comes back as
    another one, and shares its record. *)
Example refused_names :
  wins_key (mk_nbt_name "SRV#1" None 32) = None /\ wins_key (mk_nbt_name "A=B" None 32) = None
  /\ wins_key (mk_nbt_name "A,B" None 32) = None.
Proof. vm_compute. done. Qed.

Example aliased_names :
  wins_key (mk_nbt_name "SERVER " None 32) = wins_key (mk_nbt_name "SERVER" None 32)
  /\ wins_key (mk_nbt_name "SER\56ER" None 32) = wins_key (mk_nbt_name "SERVER" None 32)
  /\ wins_key (mk_nbt_name "SERVER" None 32) <> None.
Proof. vm_compute. done. Qed.
