(* ===== verification/WinsDb.v ===== *)
(** * The WINS database
      ([source4/nbt_server/wins/winsdb.c], [winsdb.h], [lib/ldb/ldb_tdb/ldb_tdb.c],
       [lib/tdb/common/transaction.c])

    A record of the database is an LDB message.  [wins_message] has the text of
    its DN and the attributes with the numbers kept as numbers and the two
    encoded attributes, [expireTime] and [address], kept as the strings that
    [winsdb_message] writes and [winsdb_record] parses.  A message is found under
    the key of its DN ([WinsName]); without a key, that is for a DN that is not
    valid, nothing is stored and nothing found.

    The state is the messages by key, the [maxVersion] of [CN=VERSION], the
    transaction that is open, and a script of faults.  The first two are what
    this process sees: the file with the changes of the open transaction.  The
    transaction keeps what the file has, to go back to, and the depth and the
    error flag of [tdb_transaction].  A fallible call takes the head of the
    script and fails when it is [true]: a search; a write, before it has done
    anything and once more after it; the start and the commit of an outermost
    transaction, the commit before its changes are in the file, which cancels
    it, and once more when they are there and cannot be synced, which leaves the
    transaction open.

    [rec] is passed in and returned: [winsdb_message] corrects its state and
    type in place, [winsdb_add] and [winsdb_modify] set its version and owner.
    The hook script and the debug output are left out; memory allocation
    succeeds, and the recovery from a failed write of a commit too.  A failed
    read, which marks the transaction as failed without a cancel, stands as the
    failed commit that follows from it.  The text of a time is that of the class
    [TimeCodec]. *)

From S2P Require Import Prelude NtStatus CLib LdbQsort LdbTime WinsName.
From Stdlib Require Import Ascii.

Local Open Scope Z_scope.

(** ** Data *)

Inductive wrepl_name_type : Set :=
  | WREPL_TYPE_UNIQUE | WREPL_TYPE_GROUP | WREPL_TYPE_SGROUP | WREPL_TYPE_MHOMED.
Inductive wrepl_name_state : Set :=
  | WREPL_STATE_ACTIVE | WREPL_STATE_RELEASED | WREPL_STATE_TOMBSTONE | WREPL_STATE_RESERVED.
Inductive wrepl_name_node : Set := WREPL_NODE_B | WREPL_NODE_P | WREPL_NODE_M | WREPL_NODE_H.

#[export] Instance wrepl_name_type_eq_dec : EqDecision wrepl_name_type.
Proof. solve_decision. Defined.
#[export] Instance wrepl_name_state_eq_dec : EqDecision wrepl_name_state.
Proof. solve_decision. Defined.
#[export] Instance wrepl_name_node_eq_dec : EqDecision wrepl_name_node.
Proof. solve_decision. Defined.

(** Tests [rec->type == t], [rec->state == s]. *)
Definition type_is (a b : wrepl_name_type) : bool := bool_decide (a = b).
Definition state_is (a b : wrepl_name_state) : bool := bool_decide (a = b).

Record winsdb_addr : Set := mk_addr {
  address : string;
  a_wins_owner : string;
  a_expire_time : Z
}.

#[export] Instance winsdb_addr_eq_dec : EqDecision winsdb_addr.
Proof. solve_decision. Defined.

Record winsdb_record : Set := mk_wrec {
  name : nbt_name;
  type : wrepl_name_type;
  state : wrepl_name_state;
  node : wrepl_name_node;
  is_static : bool;
  expire_time : Z;
  version : Z;
  wins_owner : string;
  addresses : list winsdb_addr;
  registered_by : option string
}.

#[export] Instance winsdb_record_eq_dec : EqDecision winsdb_record.
Proof. solve_decision. Defined.

Record winsdb_handle : Set := mk_wh { local_owner : string }.

Record wins_message : Set := mk_wmsg {
  m_dn : list Z;
  recordType : option wrepl_name_type;
  recordState : option wrepl_name_state;
  nodeType : option wrepl_name_node;
  isStatic : option bool;
  expireTime : option string;
  versionID : option Z;
  winsOwner : option string;
  m_address : list string;
  registeredBy : option string
}.

Definition get_time_t_max : Z := 2 ^ 31 - 1.

Definition WINSDB_FLAG_ALLOC_VERSION : Z := 1.
Definition WINSDB_FLAG_TAKE_OWNERSHIP : Z := 2.

Definition NBT_RCODE_OK : Z := 0.
Definition NBT_RCODE_SVR : Z := 2.

(** ** The LDB calls *)

(** [struct tdb_transaction], with what the file has. *)
Record wtrans : Set := mk_wtrans {
  t_recs : gmap wins_dn wins_message;
  t_maxver : option Z;
  nesting : nat;
  transaction_error : bool
}.

Record wdb : Set := mk_wdb {
  wdb_recs : gmap wins_dn wins_message;
  wdb_maxver : option Z;
  wdb_trans : option wtrans;
  wdb_faults : list bool
}.

Definition ldb_fault : ST wdb bool := fun w =>
  match wdb_faults w with
  | [] => (false, w)
  | f :: fs => (f, mk_wdb (wdb_recs w) (wdb_maxver w) (wdb_trans w) fs)
  end.

Definition set_wrecs (m : gmap wins_dn wins_message) (w : wdb) : wdb :=
  mk_wdb m (wdb_maxver w) (wdb_trans w) (wdb_faults w).
Definition set_maxver (v : option Z) (w : wdb) : wdb :=
  mk_wdb (wdb_recs w) v (wdb_trans w) (wdb_faults w).
Definition set_trans (t : option wtrans) (w : wdb) : wdb :=
  mk_wdb (wdb_recs w) (wdb_maxver w) t (wdb_faults w).

(** A write that is refused unless [can] holds, and else does [change]. *)
Definition ldb_write (can : wdb -> bool) (change : wdb -> wdb) : ST wdb bool :=
  do f <- ldb_fault;
  do w <- st_get;
  if (f : bool) || negb (can w) then st_ret false
  else do! st_modify change; do f <- ldb_fault; st_ret (negb f).

(** No value is empty; of the attributes of a record only an address may be. *)
Definition ldb_msg_sanity_check (msg : wins_message) : bool := forallb nonempty (m_address msg).

(** An existing DN is an error, and a DN without a key. *)
Definition can_add (dn : wins_dn) (msg : wins_message) (recs : gmap wins_dn wins_message) : bool :=
  bool_decide (dn <> None) && ldb_msg_sanity_check msg && bool_decide (recs !! dn = None).

Definition ldb_add (dn : wins_dn) (msg : wins_message) : ST wdb bool :=
  ldb_write (fun w => can_add dn msg (wdb_recs w)) (fun w => set_wrecs (<[dn := msg]> (wdb_recs w)) w).

(** The replacement of the elements of a message: the elements that the new
    message does not have stay, of which only [winsOwner] can be one, and the DN. *)
Definition ldb_replace (old new : wins_message) : wins_message :=
  mk_wmsg (m_dn old) (recordType new) (recordState new) (nodeType new) (isStatic new) (expireTime new)
    (versionID new) (match winsOwner new with Some o => Some o | None => winsOwner old end)
    (m_address new) (registeredBy new).

(** A missing record is an error, and a value that is there twice. *)
Definition can_modify (dn : wins_dn) (msg : wins_message) (recs : gmap wins_dn wins_message) : bool :=
  bool_decide (dn <> None) && ldb_msg_sanity_check msg && bool_decide (NoDup (m_address msg))
  && bool_decide (is_Some (recs !! dn)).

Definition ldb_modify (dn : wins_dn) (msg : wins_message) : ST wdb bool :=
  ldb_write (fun w => can_modify dn msg (wdb_recs w))
    (fun w => set_wrecs (alter (fun old => ldb_replace old msg) dn (wdb_recs w)) w).

Definition can_delete (dn : wins_dn) (recs : gmap wins_dn wins_message) : bool :=
  bool_decide (dn <> None) && bool_decide (is_Some (recs !! dn)).

Definition ldb_delete (dn : wins_dn) : ST wdb bool :=
  ldb_write (fun w => can_delete dn (wdb_recs w)) (fun w => set_wrecs (delete dn (wdb_recs w)) w).

(** [ldb_search] of one DN: an error, or the messages found, one at most. *)
Definition ldb_search_dn (dn : wins_dn) : ST wdb (option (option wins_message)) :=
  do f <- ldb_fault;
  do w <- st_get;
  st_ret (if f : bool then None
          else Some (match dn with Some _ => wdb_recs w !! dn | None => None end)).

(** The search, the modify and the add on [CN=VERSION]. *)
Definition ldb_search_version : ST wdb (option (option Z)) :=
  do f <- ldb_fault;
  do w <- st_get;
  st_ret (if f : bool then None else Some (wdb_maxver w)).

Definition ldb_write_version (create : bool) (v : Z) : ST wdb bool :=
  ldb_write (fun w => Bool.eqb create (bool_decide (wdb_maxver w = None))) (set_maxver (Some v)).

(** ** Transactions *)

(** [tdb_transaction_start]: in a transaction it only counts. *)
Definition ldb_transaction_start : ST wdb bool :=
  do w <- st_get;
  match wdb_trans w with
  | Some t =>
      do! st_modify (set_trans (Some (mk_wtrans (t_recs t) (t_maxver t) (S (nesting t)) (transaction_error t))));
      st_ret true
  | None =>
      do f <- ldb_fault;
      if f : bool then st_ret false
      else do! st_modify (set_trans (Some (mk_wtrans (wdb_recs w) (wdb_maxver w) 0 false))); st_ret true
  end.

(** [tdb_transaction_cancel]: an inner one marks the outer one as failed, the
    outermost one drops the changes. *)
Definition ldb_transaction_cancel : ST wdb bool :=
  do w <- st_get;
  match wdb_trans w with
  | None => st_ret false
  | Some t =>
      match nesting t with
      | S n => do! st_modify (set_trans (Some (mk_wtrans (t_recs t) (t_maxver t) n true))); st_ret true
      | O => do! st_modify (fun w => mk_wdb (t_recs t) (t_maxver t) None (wdb_faults w)); st_ret true
      end
  end.

(** [tdb_transaction_commit] *)
Definition ldb_transaction_commit : ST wdb bool :=
  do w <- st_get;
  match wdb_trans w with
  | None => st_ret false
  | Some t =>
      if transaction_error t then do! ldb_transaction_cancel; st_ret false
      else
        match nesting t with
        | S n => do! st_modify (set_trans (Some (mk_wtrans (t_recs t) (t_maxver t) n false))); st_ret true
        | O =>
            do f <- ldb_fault;
            if f : bool then do! ldb_transaction_cancel; st_ret false
            else
              do f <- ldb_fault;
              if f : bool then
                do! st_modify (set_trans (Some (mk_wtrans (wdb_recs w) (wdb_maxver w) 0 false)));
                st_ret false
              else do! st_modify (set_trans None); st_ret true
        end
  end.

(** ** Versions *)

Definition winsdb_get_maxVersion : ST wdb Z :=
  do res <- ldb_search_version;
  st_ret (match res with Some (Some v) => v | _ => 0 end).

(** After a failed commit [trans] is not [LDB_SUCCESS], and nothing cancelled. *)
Definition winsdb_set_maxVersion (newMaxVersion : Z) : ST wdb Z :=
  do trans <- ldb_transaction_start;
  if negb trans then st_ret 0
  else
    do res <- ldb_search_version;
    match res with
    | None => do! ldb_transaction_cancel; st_ret 0
    | Some old =>
        let oldMaxVersion := default 0 old in
        let v := if newMaxVersion =? 0 then u64 (oldMaxVersion + 1)
                 else Z.max oldMaxVersion newMaxVersion in
        do modified <- ldb_write_version false v;
        do written <- (if modified : bool then st_ret true else ldb_write_version true v);
        if negb written then do! ldb_transaction_cancel; st_ret 0
        else
          do trans <- ldb_transaction_commit;
          st_ret (if trans : bool then v else 0)
    end.

(** ** The address attribute *)

(** [strncmp(p, s, strlen(p)) == 0], and the rest of [s]. *)
Fixpoint strip_prefix (p s : string) : option string :=
  match p, s with
  | EmptyString, _ => Some s
  | String a p', String b s' => if bool_decide (a = b) then strip_prefix p' s' else None
  | _, _ => None
  end.

Section winsdb.
Context `{TimeCodec} `{LdbQsort}.

Definition winsdb_addr_decode (h : winsdb_handle) (rec_owner : string) (rec_expire : Z)
    (val : string) : NTSTATUS + winsdb_addr :=
  match split_semi val with
  | None => inr (mk_addr val rec_owner rec_expire)
  | Some (addr, p) =>
      match strip_prefix "winsOwner:" p with
      | None => inl NT_STATUS_INTERNAL_DB_CORRUPTION
      | Some rest =>
          match split_semi rest with
          | None => inl NT_STATUS_INTERNAL_DB_CORRUPTION
          | Some (owner, p) =>
              let owner := if bool_decide (owner = "0.0.0.0"%string) then local_owner h
                           else owner in
              match strip_prefix "expireTime:" p with
              | None => inl NT_STATUS_INTERNAL_DB_CORRUPTION
              | Some rest =>
                  match split_semi rest with
                  | None => inl NT_STATUS_INTERNAL_DB_CORRUPTION
                  | Some (t, _) => inr (mk_addr addr owner (string_time t))
                  end
              end
          end
      end
  end.

(** The value [ldb_msg_add_winsdb_addr] adds. *)
Definition ldb_msg_add_winsdb_addr (static : bool) (a : winsdb_addr) : string :=
  if static then address a
  else (address a +:+ ";winsOwner:" +:+ a_wins_owner a +:+ ";expireTime:" +:+
        time_string (a_expire_time a) +:+ ";")%string.

(** ** Address lists *)

Definition winsdb_addr_list_make : list winsdb_addr := [].

(** [time_t] is wider than [int]: the difference is converted. *)
Definition winsdb_addr_sort_list (h : winsdb_handle) (a1 a2 : winsdb_addr) : Z :=
  if negb (a_expire_time a2 =? a_expire_time a1)
  then s32 (a_expire_time a2 - a_expire_time a1)
  else
    let a2_owned := if bool_decide (a_wins_owner a2 = local_owner h) then 1 else 0 in
    let a1_owned := if bool_decide (a_wins_owner a1 = local_owner h) then 1 else 0 in
    a2_owned - a1_owned.

Definition addr_is (a : string) (x : winsdb_addr) : bool := bool_decide (address x = a).

Definition winsdb_addr_list_remove (l : list winsdb_addr) (a : string) : list winsdb_addr :=
  match find_idx (addr_is a) l with
  | Some i => delete i l
  | None => l
  end.

Definition winsdb_addr_list_check (l : list winsdb_addr) (a : string) : option winsdb_addr :=
  List.find (addr_is a) l.

Definition winsdb_addr_list_length (l : list winsdb_addr) : Z := Z.of_nat (length l).

Definition winsdb_addr_string_list (l : list winsdb_addr) : list string := List.map address l.

(** The loop that looks for the address to give up: the oldest replica, or
    the oldest owned address when there is no replica. *)
Fixpoint oldest_addr (h : winsdb_handle) (l : list winsdb_addr) (found_old_replica : bool)
    (old_addr : option winsdb_addr) : option winsdb_addr :=
  match l with
  | [] => old_addr
  | a :: l' =>
      let cur_is_replica := negb (bool_decide (a_wins_owner a = local_owner h)) in
      if found_old_replica && negb cur_is_replica then
        oldest_addr h l' found_old_replica old_addr
      else if negb found_old_replica && cur_is_replica then oldest_addr h l' true (Some a)
      else
        match old_addr with
        | None => oldest_addr h l' found_old_replica (Some a)
        | Some o =>
            if a_expire_time a <? a_expire_time o
            then oldest_addr h l' found_old_replica (Some a)
            else oldest_addr h l' found_old_replica old_addr
        end
  end.

(** From the label [add_new_addr] on. *)
Definition addr_list_append (h : winsdb_handle) (l : list winsdb_addr) (a owner : string)
    (t : Z) : list winsdb_addr :=
  ldb_qsort (winsdb_addr_sort_list h) (l ++ [mk_addr a owner t]).

Definition winsdb_addr_list_add (h : winsdb_handle) (l : list winsdb_addr) (a owner : string)
    (t : Z) (is_name_registration : bool) : list winsdb_addr :=
  match winsdb_addr_list_check l a with
  | Some old => addr_list_append h (winsdb_addr_list_remove l (address old)) a owner t
  | None =>
      if (length l <? 25)%nat then addr_list_append h l a owner t
      else if negb is_name_registration then l
      else
        match oldest_addr h l false None with
        | Some old => addr_list_append h (winsdb_addr_list_remove l (address old)) a owner t
        | None => l (* not reached: the list is not empty *)
        end
  end.

(** ** Records and messages *)

(** The loop over the values of the address attribute. *)
Fixpoint decode_addresses (h : winsdb_handle) (owner : string) (expire now : Z)
    (drop_expired : bool) (vals : list string) : NTSTATUS + list winsdb_addr :=
  match vals with
  | [] => inr []
  | v :: vals' =>
      match winsdb_addr_decode h owner expire v with
      | inl s => inl s
      | inr a =>
          match decode_addresses h owner expire now drop_expired vals' with
          | inl s => inl s
          | inr l => inr (if drop_expired && (a_expire_time a <=? now) then l else a :: l)
          end
      end
  end.

(** [winsdb_record] from the ownership test on: expire the record, decode the
    addresses, expire them. *)
Definition expire_and_decode (h : winsdb_handle) (n : nbt_name) (ty : wrepl_name_type)
    (st : wrepl_name_state) (nd : wrepl_name_node) (static : bool) (expire ver : Z)
    (owner : string) (regby : option string) (vals : list string) (now : Z)
    : NTSTATUS + winsdb_record :=
  let we_are_owner := bool_decide (owner = local_owner h) in
  let st := if negb static && (expire <=? now) && state_is st WREPL_STATE_ACTIVE &&
               we_are_owner then WREPL_STATE_RELEASED else st in
  match decode_addresses h owner expire now
          (negb static && state_is st WREPL_STATE_ACTIVE && we_are_owner) vals with
  | inl s => inl s
  | inr l =>
      let forever := static && state_is st WREPL_STATE_ACTIVE in
      let expire := if forever then get_time_t_max else expire in
      let l := if forever
               then List.map (fun a => mk_addr (address a) (a_wins_owner a) expire) l
               else l in
      let st := if state_is st WREPL_STATE_ACTIVE && (length l <? 1)%nat
                then WREPL_STATE_RELEASED else st in
      inr (mk_wrec n ty st nd static expire ver owner l regby)
  end.

Definition winsdb_record_of (h : winsdb_handle) (msg : wins_message) (now : Z)
    : NTSTATUS + winsdb_record :=
  match winsdb_nbt_name (LdbDn.ldb_dn_new true (Some (m_dn msg))) with
  | inl status => inl status
  | inr n =>
    if (15 <? String.length (nn_name n))%nat then inl NT_STATUS_INTERNAL_DB_CORRUPTION
    else if match nn_scope n with Some s => (238 <? String.length s)%nat | None => false end
    then inl NT_STATUS_INTERNAL_DB_CORRUPTION
    else
      let ty := default WREPL_TYPE_UNIQUE (recordType msg) in
      let st := default WREPL_STATE_RELEASED (recordState msg) in
      let nd := default WREPL_NODE_B (nodeType msg) in
      let static := default false (isStatic msg) in
      let expire := match expireTime msg with Some s => string_time s | None => 0 end in
      let owner := match winsOwner msg with
                   | Some o => if bool_decide (o = "0.0.0.0"%string) then local_owner h else o
                   | None => local_owner h
                   end in
      let num_values := length (m_address msg) in
      if (type_is ty WREPL_TYPE_UNIQUE || type_is ty WREPL_TYPE_GROUP) &&
         negb (num_values =? 1)%nat then inl NT_STATUS_INTERNAL_DB_CORRUPTION
      else if state_is st WREPL_STATE_ACTIVE && (num_values <? 1)%nat then
        inl NT_STATUS_INTERNAL_DB_CORRUPTION
      else if (25 <? num_values)%nat then inl NT_STATUS_INTERNAL_DB_CORRUPTION
      else
        expire_and_decode h n ty st nd static expire (default 0 (versionID msg)) owner
          (registeredBy msg) (m_address msg) now
  end.

(** The corrections at the head of [winsdb_message]. *)
Definition winsdb_fixup (rec : winsdb_record) : winsdb_record :=
  let count := length (addresses rec) in
  let st := if state_is (state rec) WREPL_STATE_ACTIVE && (count =? 0)%nat
            then WREPL_STATE_RELEASED else state rec in
  let ty := if type_is (type rec) WREPL_TYPE_UNIQUE && (1 <? count)%nat
            then WREPL_TYPE_MHOMED else type rec in
  mk_wrec (name rec) ty st (node rec) (is_static rec) (expire_time rec) (version rec)
    (wins_owner rec) (addresses rec) (registered_by rec).

(** [ldb_msg_add_string]: an empty string adds no value. *)
Definition string_value (s : string) : option string := if nonempty s then Some s else None.

(** The message, and the record as the call leaves it. *)
Definition winsdb_message (rec : winsdb_record) : wins_message * winsdb_record :=
  let rec := winsdb_fixup rec in
  (mk_wmsg (dn_string (winsdb_dn (name rec)))
     (Some (type rec)) (Some (state rec)) (Some (node rec)) (Some (is_static rec))
     (if negb (is_static rec && state_is (state rec) WREPL_STATE_ACTIVE)
      then Some (time_string (expire_time rec)) else None)
     (Some (version rec)) (string_value (wins_owner rec))
     (List.map (ldb_msg_add_winsdb_addr (is_static rec)) (addresses rec))
     (match registered_by rec with Some s => string_value s | None => None end),
   rec).

Definition winsdb_lookup (h : winsdb_handle) (n : nbt_name) (now : Z)
    : ST wdb (NTSTATUS + winsdb_record) :=
  do res <- ldb_search_dn (wins_key n);
  st_ret
    (match res with
     | None => inl NT_STATUS_INTERNAL_DB_CORRUPTION
     | Some None => inl NT_STATUS_OBJECT_NAME_NOT_FOUND
     | Some (Some msg) => winsdb_record_of h msg now
     end).

(** ** Storing *)

Definition set_version (rec : winsdb_record) (v : Z) : winsdb_record :=
  mk_wrec (name rec) (type rec) (state rec) (node rec) (is_static rec) (expire_time rec) v
    (wins_owner rec) (addresses rec) (registered_by rec).
Definition set_owner (rec : winsdb_record) (o : string) : winsdb_record :=
  mk_wrec (name rec) (type rec) (state rec) (node rec) (is_static rec) (expire_time rec)
    (version rec) o (addresses rec) (registered_by rec).

(** The common body of [winsdb_add] and [winsdb_modify]: the record is
    mutated also on the [failed] path, so it is returned with the rcode. *)
Definition winsdb_store (h : winsdb_handle) (rec : winsdb_record) (flags : Z)
    (write : wins_dn -> wins_message -> ST wdb bool) : ST wdb (Z * winsdb_record) :=
  do trans <- ldb_transaction_start;
  if negb trans then st_ret (NBT_RCODE_SVR, rec)
  else
    do rec <- (if flags &? WINSDB_FLAG_ALLOC_VERSION
               then do v <- winsdb_set_maxVersion 0; st_ret (set_version rec v)
               else st_ret rec);
    if (flags &? WINSDB_FLAG_ALLOC_VERSION) && (version rec =? 0) then
      do! ldb_transaction_cancel; st_ret (NBT_RCODE_SVR, rec)
    else
      let rec := if flags &? WINSDB_FLAG_TAKE_OWNERSHIP
                 then set_owner rec (local_owner h) else rec in
      let '(msg, rec) := winsdb_message rec in
      do written <- write (wins_key (name rec)) msg;
      if negb written then do! ldb_transaction_cancel; st_ret (NBT_RCODE_SVR, rec)
      else
        do trans <- ldb_transaction_commit;
        st_ret (if trans : bool then NBT_RCODE_OK else NBT_RCODE_SVR, rec).

Definition winsdb_add (h : winsdb_handle) (rec : winsdb_record) (flags : Z)
    : ST wdb (Z * winsdb_record) := winsdb_store h rec flags ldb_add.

Definition winsdb_modify (h : winsdb_handle) (rec : winsdb_record) (flags : Z)
    : ST wdb (Z * winsdb_record) := winsdb_store h rec flags ldb_modify.

Definition winsdb_delete (rec : winsdb_record) : ST wdb Z :=
  do trans <- ldb_transaction_start;
  if negb trans then st_ret NBT_RCODE_SVR
  else
    do deleted <- ldb_delete (wins_key (name rec));
    if negb deleted then do! ldb_transaction_cancel; st_ret NBT_RCODE_SVR
    else
      do trans <- ldb_transaction_commit;
      st_ret (if trans : bool then NBT_RCODE_OK else NBT_RCODE_SVR).
End winsdb.

(** ** The address attribute round trip *)

Lemma split_semi_app a b :
  split_semi a = None -> split_semi (a +:+ String ";" b) = Some (a, b).
Proof.
  induction a as [|c a IH]; simpl; [done|]. case_bool_decide; [done|].
  intros Ha. destruct (split_semi a) as [[]|]; [done|]. by rewrite IH.
Qed.

Lemma strip_prefix_app p s : strip_prefix p (p +:+ s) = Some s.
Proof.
  induction p as [|c p IH]; simpl; [by destruct s|]. by rewrite bool_decide_eq_true_2.
Qed.

(** An address that can be stored in a record that is not static. *)
Record addr_storable (a : winsdb_addr) : Prop := {
  as_address : split_semi (address a) = None;
  as_owner : split_semi (a_wins_owner a) = None;
  as_owner_set : a_wins_owner a <> "0.0.0.0"%string;
  as_expire : 0 <= a_expire_time a < 2 ^ 31
}.

Section roundtrip.
Context `{TimeCodec} `{LdbQsort}.

Lemma addr_decode_encode h owner expire a :
  addr_storable a ->
  winsdb_addr_decode h owner expire (ldb_msg_add_winsdb_addr false a) = inr a.
Proof.
  intros [Ha Ho Hn Ht]. unfold winsdb_addr_decode, ldb_msg_add_winsdb_addr.
  change (";winsOwner:" +:+ a_wins_owner a +:+ ";expireTime:" +:+
          time_string (a_expire_time a) +:+ ";")%string
    with (String ";" ("winsOwner:" +:+ (a_wins_owner a +:+ (String ";" ("expireTime:" +:+
          (time_string (a_expire_time a) +:+ ";"))))))%string.
  rewrite split_semi_app, strip_prefix_app by done.
  rewrite split_semi_app by done. rewrite bool_decide_eq_false_2 by done.
  rewrite strip_prefix_app, split_semi_app by (by apply time_no_semi).
  rewrite time_roundtrip by done. by destruct a.
Qed.

Lemma addr_decode_static h owner expire a :
  split_semi (address a) = None ->
  winsdb_addr_decode h owner expire (ldb_msg_add_winsdb_addr true a) =
  inr (mk_addr (address a) owner expire).
Proof. intros Ha. unfold winsdb_addr_decode. simpl. by rewrite Ha. Qed.

Lemma decode_addresses_keep h owner expire now drop l :
  Forall addr_storable l -> (drop = true -> Forall (fun a => now < a_expire_time a) l) ->
  decode_addresses h owner expire now drop (List.map (ldb_msg_add_winsdb_addr false) l) = inr l.
Proof.
  induction l as [|a l IH]; intros Hs Hd; cbn [decode_addresses List.map]; [done|].
  apply Forall_cons in Hs as [Ha Hs]. rewrite addr_decode_encode by done.
  rewrite IH; [|done|intros Hdr; specialize (Hd Hdr); by apply Forall_cons in Hd as [_ Hd]].
  destruct drop; [|done]. specialize (Hd eq_refl). apply Forall_cons in Hd as [Hd _].
  by rewrite (proj2 (Z.leb_gt _ _) Hd).
Qed.

Lemma decode_addresses_static h owner expire now l :
  Forall (fun a => split_semi (address a) = None) l ->
  decode_addresses h owner expire now false (List.map (ldb_msg_add_winsdb_addr true) l) =
  inr (List.map (fun a => mk_addr (address a) owner expire) l).
Proof.
  induction l as [|a l IH]; intros Hs; cbn [decode_addresses List.map]; [done|].
  apply Forall_cons in Hs as [Ha Hs].
  rewrite addr_decode_static, IH by done. done.
Qed.
End roundtrip.

(** A record that [winsdb_message] can write so that [winsdb_record] reads it
    back at time [now]. *)
Record storable (h : winsdb_handle) (now : Z) (rec : winsdb_record) : Prop := {
  s_name : (String.length (nn_name (name rec)) <= 15)%nat;
  s_scope : match nn_scope (name rec) with
            | Some s => (String.length s <= 238)%nat
            | None => True
            end;
  s_clean : clean_name (name rec);
  s_owner : wins_owner rec <> "0.0.0.0"%string;
  s_owner_set : wins_owner rec = EmptyString -> local_owner h = EmptyString;
  s_registered : registered_by rec <> Some EmptyString;
  s_distinct : NoDup (List.map address (addresses rec));
  s_expire : 0 <= expire_time rec < 2 ^ 31;
  s_count : (length (addresses rec) <= 25)%nat;
  s_active : state rec = WREPL_STATE_ACTIVE -> addresses rec <> [];
  s_single : match type rec with
             | WREPL_TYPE_UNIQUE | WREPL_TYPE_GROUP => length (addresses rec) = 1%nat
             | _ => True
             end;
  s_dynamic : is_static rec = false ->
    Forall addr_storable (addresses rec) /\
    (state rec = WREPL_STATE_ACTIVE -> wins_owner rec = local_owner h ->
       now < expire_time rec /\ Forall (fun a => now < a_expire_time a) (addresses rec));
  s_static : is_static rec = true ->
    Forall (fun a => split_semi (address a) = None /\ a_wins_owner a = wins_owner rec /\
                     a_expire_time a = expire_time rec /\ address a <> EmptyString) (addresses rec) /\
    (state rec = WREPL_STATE_ACTIVE -> expire_time rec = get_time_t_max)
}.

Section roundtrip_record.
Context `{TimeCodec} `{LdbQsort}.

Lemma fixup_storable h now rec : storable h now rec -> winsdb_fixup rec = rec.
Proof.
  intros []. unfold winsdb_fixup, state_is, type_is. destruct rec as [n ty st nd stat ex v ow ad rb].
  simpl in *. f_equal.
  - case_bool_decide as E; [|done]. subst ty. by rewrite s_single0.
  - case_bool_decide as E; [|done]. simpl. destruct ad; [by specialize (s_active0 E)|done].
Qed.

Lemma state_is_refl st : state_is st st = true.
Proof. by apply bool_decide_eq_true. Qed.

Lemma expire_and_decode_dynamic h now rec :
  storable h now rec -> is_static rec = false ->
  expire_and_decode h (name rec) (type rec) (state rec) (node rec) false (expire_time rec)
    (version rec) (wins_owner rec) (registered_by rec)
    (List.map (ldb_msg_add_winsdb_addr false) (addresses rec)) now = inr rec.
Proof.
  intros [] Hst. destruct (s_dynamic0 Hst) as [Ha He].
  unfold expire_and_decode. cbv zeta. cbn [negb andb].
  destruct (state_is (state rec) WREPL_STATE_ACTIVE) eqn:Es.
  - apply bool_decide_eq_true in Es. specialize (He Es). specialize (s_active0 Es).
    rewrite andb_true_r.
    destruct (bool_decide (wins_owner rec = local_owner h)) eqn:Eo.
    + apply bool_decide_eq_true in Eo. destruct (He Eo) as [Hex Hal].
      rewrite (proj2 (Z.leb_gt _ _) Hex). cbn [andb]. rewrite Es, state_is_refl. cbn [andb].
      rewrite decode_addresses_keep by done.
      destruct rec as [n ty st nd sta ex v ow [|] rb]; simpl in *; by subst.
    + rewrite !andb_false_r. rewrite decode_addresses_keep by done. rewrite Es, state_is_refl.
      destruct rec as [n ty st nd sta ex v ow [|] rb]; simpl in *; by subst.
  - rewrite andb_false_r. cbn [andb]. rewrite Es. cbn [andb].
    rewrite decode_addresses_keep by done. destruct rec; simpl in *; by subst.
Qed.

(** The addresses of a static record are read back with its owner and time. *)
Lemma static_addresses owner ex l :
  Forall (fun a => split_semi (address a) = None /\ a_wins_owner a = owner /\
                   a_expire_time a = ex /\ address a <> EmptyString) l ->
  List.map (fun a => mk_addr (address a) owner ex) l = l.
Proof.
  intros Ha. rewrite <- (List.map_id l) at 2. apply List.map_ext_in. intros a Hin.
  rewrite Forall_forall in Ha. destruct (Ha a) as (_ & Ho & He & _); [by apply list_elem_of_In|].
  destruct a; simpl in *; by subst.
Qed.

Lemma expire_and_decode_static h now rec expire :
  storable h now rec -> is_static rec = true ->
  (state rec <> WREPL_STATE_ACTIVE -> expire = expire_time rec) ->
  expire_and_decode h (name rec) (type rec) (state rec) (node rec) true expire
    (version rec) (wins_owner rec) (registered_by rec)
    (List.map (ldb_msg_add_winsdb_addr true) (addresses rec)) now = inr rec.
Proof.
  intros [] Hst Hex. destruct (s_static0 Hst) as [Ha He].
  unfold expire_and_decode. cbv zeta. cbn [negb andb].
  rewrite decode_addresses_static by (eapply Forall_impl; [exact Ha|naive_solver]).
  destruct (state_is (state rec) WREPL_STATE_ACTIVE) eqn:Es.
  - apply bool_decide_eq_true in Es. specialize (s_active0 Es). rewrite <- (He Es).
    rewrite List.map_map. cbn [address a_wins_owner]. rewrite static_addresses by done.
    destruct rec as [n ty st nd sta ex v ow [|] rb]; simpl in *; by subst.
  - apply bool_decide_eq_false in Es. cbn [andb]. rewrite (Hex Es), static_addresses by done.
    destruct rec; simpl in *; by subst.
Qed.

(** The owner and the registrar are read back. *)
Lemma owner_read h now rec : storable h now rec ->
  match string_value (wins_owner rec) with
  | Some o => if bool_decide (o = "0.0.0.0"%string) then local_owner h else o
  | None => local_owner h
  end = wins_owner rec.
Proof.
  intros []. unfold string_value. destruct (wins_owner rec) eqn:E; cbn [nonempty]; [by apply s_owner_set0|].
  by rewrite bool_decide_eq_false_2.
Qed.

Lemma registered_read h now rec : storable h now rec ->
  match registered_by rec with Some s => string_value s | None => None end = registered_by rec.
Proof. intros []. destruct (registered_by rec) as [[|c s]|]; done. Qed.

Lemma record_message h now rec :
  storable h now rec -> winsdb_record_of h (winsdb_message rec).1 now = inr rec.
Proof.
  intros Hs. pose proof (fixup_storable _ _ _ Hs) as Hfix. pose proof Hs as [].
  unfold winsdb_message. cbv zeta. rewrite Hfix. unfold winsdb_record_of.
  cbn [fst m_dn]. rewrite nbt_name_roundtrip by done. rewrite (proj2 (Nat.ltb_ge 15 _) s_name0).
  replace (match nn_scope (name rec) with Some s => (238 <? String.length s)%nat | None => false end)
    with false by (symmetry; destruct (nn_scope (name rec)); [by apply Nat.ltb_ge|done]).
  cbn [recordType recordState nodeType isStatic expireTime winsOwner m_address versionID
       registeredBy fst default from_option Datatypes.id].
  rewrite (owner_read h now) by done. rewrite (registered_read h now) by done.
  rewrite length_map, (proj2 (Nat.ltb_ge 25 _) s_count0).
  replace ((type_is (type rec) WREPL_TYPE_UNIQUE || type_is (type rec) WREPL_TYPE_GROUP) &&
           negb (length (addresses rec) =? 1)%nat) with false
    by (destruct (type rec); try rewrite s_single0; done).
  replace (state_is (state rec) WREPL_STATE_ACTIVE && (length (addresses rec) <? 1)%nat)
    with false.
  2: { unfold state_is. case_bool_decide as E; [|done]. specialize (s_active0 E).
       by destruct (addresses rec). }
  destruct (is_static rec) eqn:Est.
  - apply expire_and_decode_static; [done..|]. intros Hna. unfold state_is.
    rewrite (bool_decide_eq_false_2 _ Hna). by apply time_roundtrip.
  - cbn [andb negb]. rewrite time_roundtrip by done. by apply expire_and_decode_dynamic.
Qed.

(** ** What the database accepts *)

(** The address of a value. *)
Lemma addr_value static a : split_semi (address a) = None ->
  (match split_semi (ldb_msg_add_winsdb_addr static a) with
   | Some (x, _) => x
   | None => ldb_msg_add_winsdb_addr static a
   end) = address a.
Proof.
  intros Ha. unfold ldb_msg_add_winsdb_addr. destruct static; [by rewrite Ha|].
  change (";winsOwner:" +:+ a_wins_owner a +:+ ";expireTime:" +:+
          time_string (a_expire_time a) +:+ ";")%string
    with (String ";" ("winsOwner:" +:+ (a_wins_owner a +:+ (String ";" ("expireTime:" +:+
          (time_string (a_expire_time a) +:+ ";"))))))%string.
  by rewrite split_semi_app.
Qed.

Lemma addr_values_distinct static l :
  Forall (fun a => split_semi (address a) = None) l -> NoDup (List.map address l) ->
  NoDup (List.map (ldb_msg_add_winsdb_addr static) l).
Proof.
  induction 1 as [|a l Ha Hl IH]; intros Hd; [constructor|]. cbn [List.map] in *.
  apply NoDup_cons in Hd as [Hn Hd]. apply NoDup_cons. split; [|by apply IH]. intros Hin. apply Hn.
  apply list_elem_of_In, in_map_iff in Hin as (b & Eb & Hb). apply list_elem_of_In, in_map_iff.
  exists b. split; [|done]. rewrite Forall_forall in Hl. specialize (Hl b). rewrite list_elem_of_In in Hl.
  by rewrite <- (addr_value static b), Eb, addr_value by auto.
Qed.

Lemma storable_addrs h now rec : storable h now rec ->
  Forall (fun a => split_semi (address a) = None) (addresses rec).
Proof.
  intros []. destruct (is_static rec).
  - eapply Forall_impl; [exact (proj1 (s_static0 eq_refl))|naive_solver].
  - eapply Forall_impl; [exact (proj1 (s_dynamic0 eq_refl))|]. by intros a [].
Qed.

(** The name of a message. *)
Lemma message_name rec : clean_name (name rec) ->
  winsdb_nbt_name (LdbDn.ldb_dn_new true (Some (m_dn (winsdb_message rec).1))) = inr (name rec).
Proof. exact (nbt_name_roundtrip (name rec)). Qed.

(** A record takes the place of another one of the name and owner. *)
Lemma replace_message rec rec' : name rec' = name rec -> wins_owner rec' = wins_owner rec ->
  ldb_replace (winsdb_message rec).1 (winsdb_message rec').1 = (winsdb_message rec').1.
Proof.
  intros En Eo. unfold ldb_replace, winsdb_message. cbn. rewrite En, Eo. by destruct (string_value (wins_owner rec)).
Qed.

Lemma message_accepted h now rec : storable h now rec ->
  wins_key (name rec) <> None /\ ldb_msg_sanity_check (winsdb_message rec).1 = true
  /\ NoDup (m_address (winsdb_message rec).1).
Proof.
  intros Hs. pose proof (storable_addrs _ _ _ Hs) as Ha. pose proof (fixup_storable _ _ _ Hs) as Hfix.
  unfold winsdb_message. cbv zeta. rewrite Hfix. cbn [fst m_address]. split; [|split].
  - rewrite clean_key; [done|apply Hs].
  - unfold ldb_msg_sanity_check. cbn [m_address]. apply forallb_forall. intros v [a [<- Hin]]%in_map_iff.
    unfold ldb_msg_add_winsdb_addr. destruct (is_static rec) eqn:Est; [|by destruct (address a)].
    destruct (s_static _ _ _ Hs Est) as [Hst _]. rewrite Forall_forall in Hst.
    destruct (Hst a) as (_ & _ & _ & Hne); [by apply list_elem_of_In|]. by destruct (address a).
  - apply addr_values_distinct; [done|]. by apply Hs.
Qed.
End roundtrip_record.

(** ** Transactions *)

(** What this process sees of the database. *)
Definition same_view (w w' : wdb) : Prop :=
  wdb_recs w' = wdb_recs w /\ wdb_maxver w' = wdb_maxver w.

Lemma ldb_fault_keeps w :
  same_view w (ldb_fault w).2 /\ wdb_trans (ldb_fault w).2 = wdb_trans w.
Proof. unfold ldb_fault, same_view. by destruct (wdb_faults w). Qed.

(** Take the next fault of the goal's first LDB call. *)
Ltac next_ldb_fault :=
  match goal with
  | |- context [ldb_fault ?w] =>
      let f := fresh "f" in let w' := fresh "w" in let H := fresh "Hk" in
      pose proof (ldb_fault_keeps w) as H; destruct (ldb_fault w) as [f w'];
      simpl in H; destruct H as [[? ?] ?]; destruct f
  end.

(** A write does nothing, or, if it may, its change. *)
Lemma ldb_write_spec can change w :
  (forall w0, same_view w w0 -> can w0 = can w) ->
  (forall w0, same_view w w0 -> same_view (change w) (change w0)) ->
  (forall w0, wdb_trans (change w0) = wdb_trans w0) ->
  let '(ok, w') := ldb_write can change w in
  wdb_trans w' = wdb_trans w /\
  (ok = false /\ same_view w w' \/ can w = true /\ same_view (change w) w').
Proof.
  intros Hcan Hview Htr. unfold ldb_write, st_bind, st_get, st_ret, st_modify.
  pose proof (ldb_fault_keeps w) as [Hv Ht]. destruct (ldb_fault w) as [f w0]. cbn [snd] in *.
  rewrite Hcan by done. destruct f; cbn [orb]; [by auto|]. destruct (can w); cbn [negb]; [|by auto].
  destruct (Hview w0 Hv) as [E1 E2]. pose proof (Htr w0) as E3.
  next_ldb_fault; cbn [negb]; (split; [congruence|]); right; (split; [done|]); split; congruence.
Qed.

Ltac use_write_spec :=
  match goal with
  | |- context [ldb_write ?c ?f ?w] =>
      let H := fresh in
      assert (H := ldb_write_spec c f w); cbv beta in H; apply H;
      [by intros w0 [-> _]|intros w0 [E1 E2]; split; simpl; congruence|done]
  end.

Lemma ldb_add_spec dn msg w :
  let '(ok, w') := ldb_add dn msg w in
  wdb_trans w' = wdb_trans w /\
  (ok = false /\ same_view w w' \/
   can_add dn msg (wdb_recs w) = true /\ same_view (set_wrecs (<[dn := msg]> (wdb_recs w)) w) w').
Proof.
  unfold ldb_add. use_write_spec.
Qed.

Lemma ldb_modify_spec dn msg w :
  let '(ok, w') := ldb_modify dn msg w in
  wdb_trans w' = wdb_trans w /\
  (ok = false /\ same_view w w' \/
   can_modify dn msg (wdb_recs w) = true /\
   same_view (set_wrecs (alter (fun old => ldb_replace old msg) dn (wdb_recs w)) w) w').
Proof.
  unfold ldb_modify. use_write_spec.
Qed.

Lemma ldb_delete_spec dn w :
  let '(ok, w') := ldb_delete dn w in
  wdb_trans w' = wdb_trans w /\
  (ok = false /\ same_view w w' \/
   can_delete dn (wdb_recs w) = true /\ same_view (set_wrecs (delete dn (wdb_recs w)) w) w').
Proof.
  unfold ldb_delete. use_write_spec.
Qed.

Lemma ldb_write_version_spec create v w :
  let '(ok, w') := ldb_write_version create v w in
  wdb_trans w' = wdb_trans w /\
  (ok = false /\ same_view w w' \/ same_view (set_maxver (Some v) w) w').
Proof.
  pose proof (ldb_write_spec (fun w => Bool.eqb create (bool_decide (wdb_maxver w = None)))
    (set_maxver (Some v)) w) as H. unfold ldb_write_version.
  destruct (ldb_write _ _ w) as [ok w'].
  destruct H as [Ht [?|[_ ?]]]; [by intros w0 [_ ->]|intros w0 [E _]; by split|done|by auto..].
Qed.

(** The transaction that is open after a start at [w]; it may be marked as failed. *)
Definition opened (w : wdb) (err : bool) : wtrans :=
  match wdb_trans w with
  | None => mk_wtrans (wdb_recs w) (wdb_maxver w) 0 err
  | Some t => mk_wtrans (t_recs t) (t_maxver t) (S (nesting t)) err
  end.

(** An open transaction is marked as failed. *)
Definition pending_error (w : wdb) : bool :=
  match wdb_trans w with Some t => transaction_error t | None => false end.

(** [w1] is inside the transaction that was started at [w]. *)
Definition inside (w w1 : wdb) : Prop :=
  exists err, wdb_trans w1 = Some (opened w err) /\ (pending_error w = true -> err = true).

Lemma start_spec w :
  let '(ok, w') := ldb_transaction_start w in
  same_view w w' /\ if ok then inside w w' else wdb_trans w = None /\ wdb_trans w' = None.
Proof.
  unfold ldb_transaction_start, st_bind, st_get, st_ret, st_modify, inside, opened, pending_error.
  destruct (wdb_trans w) as [t|] eqn:Et.
  - split; [done|]. exists (transaction_error t). done.
  - next_ldb_fault; (split; [done|]); [by split; congruence|].
    exists false. done.
Qed.

(** What the end of the transaction that was started at [w] leaves, from [w1]:
    an inner one keeps what was done in it, and the outer one is marked unless it
    succeeded.  An outermost one that failed is rolled back, or has reached the
    file and is left open. *)
Definition finished (w w1 : wdb) (ok : bool) (w2 : wdb) : Prop :=
  match wdb_trans w with
  | Some t =>
      same_view w1 w2 /\ (ok = true -> pending_error w = false) /\
      wdb_trans w2 = Some (mk_wtrans (t_recs t) (t_maxver t) (nesting t) (negb ok))
  | None =>
      (ok = true /\ same_view w1 w2 /\ wdb_trans w2 = None) \/
      (ok = false /\ same_view w w2 /\ wdb_trans w2 = None) \/
      (ok = false /\ same_view w1 w2 /\
       wdb_trans w2 = Some (mk_wtrans (wdb_recs w2) (wdb_maxver w2) 0 false))
  end.

Lemma cancel_spec w w1 : inside w w1 ->
  let '(_, w2) := ldb_transaction_cancel w1 in finished w w1 false w2 /\
  (wdb_trans w = None -> same_view w w2 /\ wdb_trans w2 = None).
Proof.
  intros (err & Et & He). unfold ldb_transaction_cancel, st_bind, st_get, st_ret, st_modify, finished.
  rewrite Et. unfold opened. destruct (wdb_trans w) as [t|] eqn:Ew; cbn.
  - done.
  - split; [right; left|]; done.
Qed.

Lemma commit_spec w w1 : inside w w1 ->
  let '(ok, w2) := ldb_transaction_commit w1 in finished w w1 ok w2.
Proof.
  intros Hin. pose proof Hin as (err & Et & He). pose proof (cancel_spec w w1 Hin) as Hc.
  unfold ldb_transaction_commit, st_bind, st_get, st_ret, st_modify.
  rewrite Et. assert (transaction_error (opened w err) = err) as -> by (unfold opened; by destruct (wdb_trans w)).
  destruct err; [destruct (ldb_transaction_cancel w1) as [c w2]; by destruct Hc|].
  unfold finished, opened. destruct (wdb_trans w) as [t|] eqn:Ew; cbn -[ldb_transaction_cancel].
  - split; [done|]. split; [|done]. intros _. by destruct (pending_error w); [specialize (He eq_refl)|].
  - pose proof (ldb_fault_keeps w1) as [[F1 F2] F3]. destruct (ldb_fault w1) as [f w3]. cbn [snd] in *.
    assert (inside w w3) as Hin3 by (exists false; by rewrite F3).
    pose proof (cancel_spec w w3 Hin3) as Hc3. unfold finished in Hc3. rewrite Ew in Hc3.
    destruct f.
    + destruct (ldb_transaction_cancel w3) as [c w2]. destruct Hc3 as [_ Hc3].
      right. left. split; [done|]. by apply Hc3.
    + next_ldb_fault; [right; right|left]; (split; [done|]); (split; [split; simpl; congruence|]); [|done].
      simpl. congruence.
Qed.

Lemma finished_view w w1 ok w2 : finished w w1 ok w2 -> same_view w1 w2 \/ ok = false /\ same_view w w2.
Proof. unfold finished. destruct (wdb_trans w); intuition. Qed.

(** A transaction inside another leaves that open. *)
Lemma finished_inside w0 w w1 ok w2 : inside w0 w -> finished w w1 ok w2 -> same_view w1 w2 /\ inside w0 w2.
Proof.
  intros (err & Et & He) Hf. unfold finished, pending_error in Hf. rewrite Et in Hf.
  destruct Hf as (Hv & Hok & Et2). split; [done|]. exists (negb ok). split.
  - rewrite Et2. unfold opened. by destruct (wdb_trans w0).
  - intros Hp. specialize (He Hp) as ->. destruct ok; [|done]. specialize (Hok eq_refl).
    unfold opened in Hok. by destruct (wdb_trans w0).
Qed.

(** The version that the counter gives next. *)
Definition next_version (w : wdb) : Z := u64 (default 0 (wdb_maxver w) + 1).

Definition new_version (n : Z) (w : wdb) : Z :=
  if n =? 0 then next_version w else Z.max (default 0 (wdb_maxver w)) n.

(** The counter is not changed and gives no version, or is set. *)
Lemma set_maxVersion_gen n w :
  let next := new_version n w in
  let '(v, w') := winsdb_set_maxVersion n w in
  (v = 0 /\ same_view w w' /\ wdb_trans w = None /\ wdb_trans w' = None) \/
  exists w1 ok, wdb_recs w1 = wdb_recs w /\
    (wdb_maxver w1 = wdb_maxver w \/ wdb_maxver w1 = Some (next)) /\
    finished w w1 ok w' /\
    (if ok then v = next /\ wdb_maxver w1 = Some (next) else v = 0).
Proof.
  intros next. unfold winsdb_set_maxVersion, st_bind, st_ret.
  pose proof (start_spec w) as Hs. destruct (ldb_transaction_start w) as [ok w0].
  destruct Hs as [[E1 E2] Hs]. destruct ok; cbn [negb]; [|left; split; [done|]; by destruct Hs].
  set (inv := fun w1 => inside w w1 /\ wdb_recs w1 = wdb_recs w /\
    (wdb_maxver w1 = wdb_maxver w \/ wdb_maxver w1 = Some (next))).
  set (outcome := fun (r : Z * wdb) => let '(v, w') := r in exists w1 ok, wdb_recs w1 = wdb_recs w /\
    (wdb_maxver w1 = wdb_maxver w \/ wdb_maxver w1 = Some (next)) /\
    finished w w1 ok w' /\
    (if ok then v = next /\ wdb_maxver w1 = Some (next) else v = 0)).
  assert (forall w1, inv w1 -> outcome (let '(_, w2) := ldb_transaction_cancel w1 in (0, w2))) as Hcancel.
  { intros w1 (Hin & Hr & Hm). pose proof (cancel_spec w w1 Hin) as Hc.
    destruct (ldb_transaction_cancel w1) as [c w2]. exists w1, false. by destruct Hc. }
  assert (forall c w1, inv w1 -> let '(ok, w2) := ldb_write_version c (next) w1 in
    inv w2 /\ (ok = true -> wdb_maxver w2 = Some (next))) as Hwrite.
  { intros c w1 ((err & Ht & He) & Hr & Hm). pose proof (ldb_write_version_spec c (next) w1) as Hv.
    destruct (ldb_write_version _ _ w1) as [ok w2]. destruct Hv as (Ht2 & [(-> & V1 & V2)|[V1 V2]]); simpl in *.
    - split; [|done]. split; [exists err; by rewrite Ht2|]. by rewrite V1, V2.
    - split; [|done]. split; [exists err; by rewrite Ht2|]. split; [congruence|by right]. }
  match goal with |- let '(_, _) := ?m in _ => enough (outcome m) as Ho by (destruct m; right; exact Ho) end.
  unfold ldb_search_version, st_bind, st_get, st_ret. pose proof (ldb_fault_keeps w0) as [[F1 F2] F3].
  destruct (ldb_fault w0) as [f w1]. cbn [snd] in *.
  assert (inv w1) as Hi1.
  { split; [|split; [congruence|left; congruence]]. destruct Hs as (err & Ht & He). exists err. by rewrite F3. }
  destruct f; [by apply Hcancel|]. rewrite F2, E2. fold (next_version w). change (if n =? 0 then _ else _) with next.
  pose proof (Hwrite false w1 Hi1) as W. destruct (ldb_write_version _ _ w1) as [ok1 w2]. destruct W as [Hi2 Hok1].
  set (second := fun (ok1 : bool) => if ok1 then fun s => (true, s) else ldb_write_version true (next)).
  assert (let '(ok, w3) := second ok1 w2 in inv w3 /\ (ok = true -> wdb_maxver w3 = Some (next))) as W.
  { destruct ok1; [|by apply Hwrite]. split; [done|]. intros _. by apply Hok1. }
  match goal with |- outcome (let '(_, _) := ?m in _) => change m with (second ok1 w2) end.
  destruct (second ok1 w2) as [ok2 w3]. destruct W as [Hi3 Hok2].
  destruct ok2; cbn [negb]; [|by apply Hcancel]. destruct Hi3 as (Hin3 & Hr3 & Hm3).
  pose proof (commit_spec w w3 Hin3) as Hc. destruct (ldb_transaction_commit w3) as [ok w4].
  exists w3, ok. split; [done|]. split; [done|]. split; [done|]. destruct ok; [|done]. split; [done|]. by apply Hok2.
Qed.

Lemma set_maxVersion_spec w :
  let '(v, w') := winsdb_set_maxVersion 0 w in
  (v = 0 /\ same_view w w' /\ wdb_trans w = None /\ wdb_trans w' = None) \/
  exists w1 ok, wdb_recs w1 = wdb_recs w /\
    (wdb_maxver w1 = wdb_maxver w \/ wdb_maxver w1 = Some (next_version w)) /\
    finished w w1 ok w' /\
    (if ok then v = next_version w /\ wdb_maxver w1 = Some (next_version w) else v = 0).
Proof. exact (set_maxVersion_gen 0 w). Qed.

Lemma set_maxVersion_recs n w : wdb_recs (winsdb_set_maxVersion n w).2 = wdb_recs w.
Proof.
  pose proof (set_maxVersion_gen n w) as Hs. cbv zeta in Hs. destruct (winsdb_set_maxVersion n w) as [v w'].
  destruct Hs as [(_ & [Hr _] & _)|(w1 & ok & Hr & _ & Hf & _)]; [done|]. simpl.
  destruct (finished_view _ _ _ _ Hf) as [[E _]|[_ [E _]]]; congruence.
Qed.

(** The record [winsdb_add] writes, up to its version. *)
Definition owned_as `{TimeCodec} (h : winsdb_handle) (flags : Z) (rec : winsdb_record) :=
  if flags &? WINSDB_FLAG_TAKE_OWNERSHIP then set_owner rec (local_owner h) else rec.

Lemma owned_as_version `{TimeCodec} h flags rec v :
  owned_as h flags (set_version rec v) = set_version (owned_as h flags rec) v.
Proof. unfold owned_as. by destruct (flags &? _). Qed.

Lemma owned_as_name `{TimeCodec} h flags rec : name (owned_as h flags rec) = name rec.
Proof. unfold owned_as. by destruct (flags &? _). Qed.

Section store.
Context `{TimeCodec} `{LdbQsort}.

Lemma winsdb_message_again rec :
  winsdb_message (winsdb_message rec).2 = winsdb_message rec.
Proof.
  destruct rec as [n ty st nd sta ex v ow ad rb]. unfold winsdb_message, winsdb_fixup. simpl.
  assert (Ht : forall t, (if type_is (if type_is t WREPL_TYPE_UNIQUE && (1 <? length ad)%nat
      then WREPL_TYPE_MHOMED else t) WREPL_TYPE_UNIQUE && (1 <? length ad)%nat
      then WREPL_TYPE_MHOMED
      else if type_is t WREPL_TYPE_UNIQUE && (1 <? length ad)%nat then WREPL_TYPE_MHOMED else t) =
    if type_is t WREPL_TYPE_UNIQUE && (1 <? length ad)%nat then WREPL_TYPE_MHOMED else t).
  { intros t. destruct (type_is t WREPL_TYPE_UNIQUE && _) eqn:E; [done|]. by rewrite E. }
  assert (Hs : forall t, (if state_is (if state_is t WREPL_STATE_ACTIVE && (length ad =? 0)%nat
      then WREPL_STATE_RELEASED else t) WREPL_STATE_ACTIVE && (length ad =? 0)%nat
      then WREPL_STATE_RELEASED
      else if state_is t WREPL_STATE_ACTIVE && (length ad =? 0)%nat
           then WREPL_STATE_RELEASED else t) =
    if state_is t WREPL_STATE_ACTIVE && (length ad =? 0)%nat then WREPL_STATE_RELEASED else t).
  { intros t. destruct (state_is t WREPL_STATE_ACTIVE && _) eqn:E; [done|]. by rewrite E. }
  by rewrite Ht, Hs.
Qed.

(** What a store leaves, from any state and whichever LDB calls fail: the
    message is written as [put] says, where [can] admits it, or an error is
    reported; the counter may then have been counted up.  With no transaction
    open before, an error leaves everything as it was, unless the commit failed
    when its changes were in the file. *)
Definition done_at (h : winsdb_handle) (rec : winsdb_record) (flags : Z)
    (can : wins_message -> gmap wins_dn wins_message -> bool)
    (put : wins_message -> gmap wins_dn wins_message -> gmap wins_dn wins_message)
    (w : wdb) (rec' : winsdb_record) (w' : wdb) : Prop :=
  let msg := (winsdb_message rec').1 in
  can msg (wdb_recs w) = true /\
  rec' = winsdb_fixup (set_version (owned_as h flags rec) (version rec')) /\
  wdb_recs w' = put msg (wdb_recs w) /\
  if flags &? WINSDB_FLAG_ALLOC_VERSION
  then version rec' = next_version w /\ next_version w <> 0 /\ wdb_maxver w' = Some (next_version w)
  else version rec' = version rec /\ wdb_maxver w' = wdb_maxver w.

Definition stored (h : winsdb_handle) (rec : winsdb_record) (flags : Z)
    (can : wins_message -> gmap wins_dn wins_message -> bool)
    (put : wins_message -> gmap wins_dn wins_message -> gmap wins_dn wins_message)
    (w : wdb) (r : Z * winsdb_record * wdb) : Prop :=
  let '(rc, rec', w') := r in
  (rc = NBT_RCODE_OK \/ rc = NBT_RCODE_SVR) /\
  (done_at h rec flags can put w rec' w' \/
   rc = NBT_RCODE_SVR /\ wdb_recs w' = wdb_recs w /\
   (wdb_maxver w' = wdb_maxver w \/
    flags &? WINSDB_FLAG_ALLOC_VERSION = true /\ wdb_maxver w' = Some (next_version w))) /\
  (wdb_trans w = None ->
   (rc = NBT_RCODE_OK /\ wdb_trans w' = None) \/
   (rc = NBT_RCODE_SVR /\ same_view w w' /\ wdb_trans w' = None) \/
   (rc = NBT_RCODE_SVR /\ done_at h rec flags can put w rec' w' /\
    wdb_trans w' = Some (mk_wtrans (wdb_recs w') (wdb_maxver w') 0 false))).

Lemma done_view h rec flags can put w rec' w1 w2 :
  same_view w1 w2 -> done_at h rec flags can put w rec' w1 -> done_at h rec flags can put w rec' w2.
Proof. intros [E1 E2] Hd. unfold done_at in *. by rewrite E1, E2. Qed.

(** The end of a store that has not written its message. *)
Lemma stored_failed h rec flags can put w rec' w1 w2 :
  finished w w1 false w2 -> (wdb_trans w = None -> same_view w w2 /\ wdb_trans w2 = None) ->
  (wdb_recs w1 = wdb_recs w /\
   (wdb_maxver w1 = wdb_maxver w \/
    flags &? WINSDB_FLAG_ALLOC_VERSION = true /\ wdb_maxver w1 = Some (next_version w)))
  \/ done_at h rec flags can put w rec' w1 ->
  stored h rec flags can put w ((NBT_RCODE_SVR, rec'), w2).
Proof.
  intros Hf Hi Hp. split; [by right|]. split; [|intros Ht; right; left; split; [done|by apply Hi]].
  destruct (finished_view _ _ _ _ Hf) as [Hv|[_ [E1 E2]]]; [|right; split; [done|]; split; [done|by left]].
  destruct Hp as [[Hr Hm]|Hd]; [right|left; by eapply done_view].
  destruct Hv as [E1 E2]. rewrite E1, E2. done.
Qed.

(** The end of a store that has written it. *)
Lemma stored_committed h rec flags can put w rec' w1 ok w2 :
  finished w w1 ok w2 -> done_at h rec flags can put w rec' w1 ->
  stored h rec flags can put w ((if ok then NBT_RCODE_OK else NBT_RCODE_SVR, rec'), w2).
Proof.
  intros Hf Hd. split; [destruct ok; auto|]. split.
  - destruct (finished_view _ _ _ _ Hf) as [Hv|[-> [E1 E2]]]; [left; by eapply done_view|].
    right. split; [done|]. split; [done|by left].
  - intros Ht. unfold finished in Hf. rewrite Ht in Hf.
    destruct Hf as [(-> & Hv & E)|[(-> & Hv & E)|(-> & Hv & E)]]; [by left|by right; left|].
    right. right. split; [done|]. split; [by eapply done_view|done].
Qed.

Lemma winsdb_store_stored h rec flags write can put w :
  (forall msg w0, let '(ok, w1) := write (wins_key (name rec)) msg w0 in
     wdb_trans w1 = wdb_trans w0 /\
     (ok = false /\ same_view w0 w1 \/
      can msg (wdb_recs w0) = true /\ same_view (set_wrecs (put msg (wdb_recs w0)) w0) w1)) ->
  stored h rec flags can put w (winsdb_store h rec flags write w).
Proof.
  intros Hw. unfold winsdb_store, st_bind, st_ret.
  pose proof (start_spec w) as Hs. destruct (ldb_transaction_start w) as [ok w0].
  destruct Hs as [[E1 E2] Hs]. destruct ok; cbn [negb].
  2:{ split; [by right|]. split; [right; auto|]. intros _. right. left. split; [done|]. split; [by split|apply Hs]. }
  set (alloc := flags &? WINSDB_FLAG_ALLOC_VERSION) in *.
  set (counted := fun w1 => wdb_recs w1 = wdb_recs w /\
    (wdb_maxver w1 = wdb_maxver w \/ alloc = true /\ wdb_maxver w1 = Some (next_version w))).
  assert (forall r w1, inside w w1 ->
      counted w1 \/ done_at h rec flags can put w r w1 ->
      stored h rec flags can put w (let '(_, w2) := ldb_transaction_cancel w1 in (NBT_RCODE_SVR, r, w2))) as Hcancel.
  { intros r w1 Hin Hp. pose proof (cancel_spec w w1 Hin) as Hc.
    destruct (ldb_transaction_cancel w1) as [c w2]. destruct Hc as [Hf Hi]. by eapply stored_failed. }
  set (alloc_version := if alloc then fun s => let '(v, s) := winsdb_set_maxVersion 0 s in (set_version rec v, s)
                        else fun s => (rec, s)).
  match goal with |- stored _ _ _ _ _ _ (let '(_, _) := ?m in _) => change m with (alloc_version w0) end.
  assert (let '(rec1, w1) := alloc_version w0 in
      inside w w1 /\ counted w1 /\ rec1 = set_version rec (version rec1) /\
      if alloc then version rec1 <> 0 -> version rec1 = next_version w /\ wdb_maxver w1 = Some (next_version w)
      else version rec1 = version rec /\ wdb_maxver w1 = wdb_maxver w) as Hb;
    [unfold alloc_version|destruct (alloc_version w0) as [rec1 w1]; clear alloc_version].
  { destruct alloc; [|split; [done|]; split; [split; [done|by left]|]; split; [by destruct rec|done]].
    pose proof (set_maxVersion_spec w0) as Hm. destruct (winsdb_set_maxVersion 0 w0) as [v w1].
    assert (next_version w0 = next_version w) as En by (unfold next_version; by rewrite E2).
    destruct Hm as [(-> & [V1 V2] & Ht & _)|(w2 & ok & Hr & Hm & Hf & Hv)].
    { destruct Hs as (err & Ht' & _). by rewrite Ht in Ht'. }
    destruct (finished_inside w w0 w2 ok w1 Hs Hf) as [[V1 V2] Hin]. rewrite En, E1, E2 in *.
    split; [done|]. split; [split; [congruence|]; rewrite V2; naive_solver|]. split; [done|].
    simpl. destruct ok; [|done]. destruct Hv as [-> Hv]. intros _. split; [done|congruence]. }
  destruct Hb as (Hin1 & Hc1 & Hrec1 & Hv1).
  destruct (alloc && (version rec1 =? 0)) eqn:Ez; [by apply Hcancel; [|left]|].
  change (if flags &? WINSDB_FLAG_TAKE_OWNERSHIP then set_owner rec1 (local_owner h) else rec1)
    with (owned_as h flags rec1).
  rewrite Hrec1, owned_as_version. set (rec2 := set_version (owned_as h flags rec) (version rec1)).
  pose proof (winsdb_message_again rec2) as Hag.
  change (winsdb_message rec2) with ((winsdb_message rec2).1, winsdb_fixup rec2) in Hag |- *.
  cbv beta iota.
  assert (name (winsdb_fixup rec2) = name rec) as -> by (unfold rec2; simpl; apply owned_as_name).
  set (msg := (winsdb_message rec2).1) in *. set (rec3 := winsdb_fixup rec2) in *.
  assert (forall w2, can msg (wdb_recs w1) = true -> same_view (set_wrecs (put msg (wdb_recs w1)) w1) w2 ->
    done_at h rec flags can put w rec3 w2) as Hdone.
  { intros w2 Hcan [V1 V2]. destruct Hc1 as [Hr1 _]. unfold done_at.
    replace (winsdb_message rec3).1 with msg by (by apply (f_equal fst) in Hag). rewrite <- Hr1.
    split; [done|]. split; [done|]. split; [done|]. simpl in V2. change (version rec3) with (version rec1).
    fold alloc. destruct alloc; [|rewrite V2; exact Hv1]. simpl in Ez. apply Z.eqb_neq in Ez.
    destruct (Hv1 Ez) as [Hn Hm]. rewrite V2, Hm, Hn. rewrite Hn in Ez. done. }
  specialize (Hw msg w1). destruct (write (wins_key (name rec)) msg w1) as [ok w2].
  destruct Hw as [Ht2 Hw]. assert (inside w w2) as Hin2.
  { destruct Hin1 as (err & Ht & He). exists err. by rewrite Ht2. }
  destruct ok; cbn [negb].
  2:{ apply Hcancel; [done|]. destruct Hw as [[_ [V1 V2]]|[Hcan V]]; [left|right; by apply Hdone].
      unfold counted. by rewrite V1, V2. }
  destruct Hw as [[? _]|[Hcan V]]; [done|]. specialize (Hdone w2 Hcan V).
  pose proof (commit_spec w w2 Hin2) as Hf. destruct (ldb_transaction_commit w2) as [ok w3].
  by apply (stored_committed h rec flags can put w rec3 w2).
Qed.

End store.

(** What an add and a modify write, and where they may. *)
Definition put_new (dn : wins_dn) (msg : wins_message) (m : gmap wins_dn wins_message) := <[dn := msg]> m.
Definition put_changed (dn : wins_dn) (msg : wins_message) (m : gmap wins_dn wins_message) :=
  alter (fun old => ldb_replace old msg) dn m.

Lemma winsdb_add_stored `{TimeCodec} h rec flags w :
  let dn := wins_key (name rec) in
  stored h rec flags (can_add dn) (put_new dn) w (winsdb_add h rec flags w).
Proof. apply winsdb_store_stored. intros msg w0. apply ldb_add_spec. Qed.

Lemma winsdb_modify_stored `{TimeCodec} h rec flags w :
  let dn := wins_key (name rec) in
  stored h rec flags (can_modify dn) (put_changed dn) w (winsdb_modify h rec flags w).
Proof. apply winsdb_store_stored. intros msg w0. apply ldb_modify_spec. Qed.

Lemma winsdb_delete_spec rec w :
  let dn := wins_key (name rec) in
  let '(rc, w') := winsdb_delete rec w in
  wdb_maxver w' = wdb_maxver w /\
  (rc = NBT_RCODE_OK \/ rc = NBT_RCODE_SVR) /\
  (rc = NBT_RCODE_SVR /\ wdb_recs w' = wdb_recs w \/
   can_delete dn (wdb_recs w) = true /\ wdb_recs w' = delete dn (wdb_recs w)) /\
  (wdb_trans w = None ->
   (rc = NBT_RCODE_OK /\ wdb_trans w' = None) \/
   (rc = NBT_RCODE_SVR /\ wdb_recs w' = wdb_recs w /\ wdb_trans w' = None) \/
   (rc = NBT_RCODE_SVR /\ can_delete dn (wdb_recs w) = true /\ wdb_recs w' = delete dn (wdb_recs w) /\
    wdb_trans w' = Some (mk_wtrans (wdb_recs w') (wdb_maxver w') 0 false))).
Proof.
  unfold winsdb_delete, st_bind, st_ret. cbv zeta.
  pose proof (start_spec w) as Hs. destruct (ldb_transaction_start w) as [ok w0].
  destruct Hs as [[E1 E2] Hs]. destruct ok; cbn [negb].
  2:{ split; [done|]. split; [by right|]. split; [by left|]. intros _. right. left. by destruct Hs. }
  pose proof (ldb_delete_spec (wins_key (name rec)) w0) as Hd.
  destruct (ldb_delete _ w0) as [ok w1]. rewrite E1 in Hd. destruct Hd as [Ht Hd].
  assert (inside w w1) as Hin by (destruct Hs as (err & ? & ?); exists err; by rewrite Ht).
  assert (wdb_maxver w1 = wdb_maxver w) as Hm by (destruct Hd as [[_ [_ V]]|[_ [_ V]]]; simpl in V; congruence).
  assert (ok = false /\ wdb_recs w1 = wdb_recs w \/
    can_delete (wins_key (name rec)) (wdb_recs w) = true /\ wdb_recs w1 = delete (wins_key (name rec)) (wdb_recs w)) as Hr
    by (destruct Hd as [[-> [V _]]|[? [V _]]]; [left; split; [done|congruence]|by right]).
  destruct ok; cbn [negb].
  - destruct Hr as [[? _]|[Hcan Hr]]; [done|].
    pose proof (commit_spec w w1 Hin) as Hf. destruct (ldb_transaction_commit w1) as [ok w2].
    unfold finished in Hf. split.
    { destruct (wdb_trans w); [by destruct Hf as [[_ ->] _]|]. by destruct Hf as [(_ & [_ ->] & _)|[(_ & [_ ->] & _)|(_ & [_ ->] & _)]]. }
    split; [destruct ok; auto|]. split.
    { destruct (wdb_trans w); [destruct Hf as [[-> _] _]; by right|].
      destruct Hf as [(_ & [-> _] & _)|[(-> & [-> _] & _)|(_ & [-> _] & _)]]; [by right|by left|by right]. }
    intros E. rewrite E in Hf. destruct Hf as [(-> & _ & ?)|[(-> & [-> _] & ?)|(-> & [V _] & ?)]]; [by left|by right; left|].
    right. right. split; [done|]. split; [done|]. split; [congruence|done].
  - pose proof (cancel_spec w w1 Hin) as Hc. destruct (ldb_transaction_cancel w1) as [c w2]. destruct Hc as [Hf Hi].
    split.
    { destruct (finished_view _ _ _ _ Hf) as [[_ ->]|[_ [_ ->]]]; done. }
    split; [by right|]. split.
    { destruct (finished_view _ _ _ _ Hf) as [[-> _]|[_ [-> _]]]; [|by left].
      destruct Hr as [[_ ->]|Hr]; [by left|by right]. }
    intros E. right. left. split; [done|]. by destruct (Hi E) as [[-> _] ->].
Qed.

(** Other records are never touched. *)
Lemma stored_frame `{TimeCodec} h rec flags can put w r dn :
  stored h rec flags can put w r -> (forall msg m, put msg m !! dn = m !! dn) ->
  wdb_recs r.2 !! dn = wdb_recs w !! dn.
Proof.
  destruct r as [[rc rec'] w']. intros (_ & [(_ & _ & Hr & _)|(_ & Hr & _)] & _) Hp; cbn [snd]; rewrite Hr; [|done].
  apply Hp.
Qed.

Lemma add_frame `{TimeCodec} h rec flags w dn : dn <> wins_key (name rec) ->
  wdb_recs (winsdb_add h rec flags w).2 !! dn = wdb_recs w !! dn.
Proof.
  intros Hd. apply (stored_frame _ _ _ _ _ _ _ dn (winsdb_add_stored h rec flags w)).
  intros msg m. unfold put_new. by rewrite lookup_insert_ne.
Qed.

Lemma modify_frame `{TimeCodec} h rec flags w dn : dn <> wins_key (name rec) ->
  wdb_recs (winsdb_modify h rec flags w).2 !! dn = wdb_recs w !! dn.
Proof.
  intros Hd. apply (stored_frame _ _ _ _ _ _ _ dn (winsdb_modify_stored h rec flags w)).
  intros msg m. unfold put_changed. by rewrite lookup_alter_ne.
Qed.

Lemma delete_frame rec w dn : dn <> wins_key (name rec) ->
  wdb_recs (winsdb_delete rec w).2 !! dn = wdb_recs w !! dn.
Proof.
  intros Hd. pose proof (winsdb_delete_spec rec w) as Hs. cbv zeta in Hs.
  destruct (winsdb_delete rec w) as [rc w']. destruct Hs as (_ & _ & [[_ Hr]|[_ Hr]] & _); cbn [snd]; rewrite Hr; [done|].
  by rewrite lookup_delete_ne.
Qed.

(** An add where there is a record leaves it, a modify leaves it or replaces it. *)
Lemma add_existing `{TimeCodec} h rec flags w : is_Some (wdb_recs w !! wins_key (name rec)) ->
  wdb_recs (winsdb_add h rec flags w).2 = wdb_recs w.
Proof.
  intros [m Hm]. pose proof (winsdb_add_stored h rec flags w) as Hs. cbv zeta in Hs.
  destruct (winsdb_add h rec flags w) as [[rc rec'] w']. destruct Hs as (_ & [(Hcan & _)|(_ & Hr & _)] & _); [|done].
  unfold can_add in Hcan. rewrite Hm in Hcan. by rewrite (bool_decide_eq_false_2 (Some m = None)), andb_false_r in Hcan.
Qed.

Lemma modify_existing `{TimeCodec} h rec flags w old : wdb_recs w !! wins_key (name rec) = Some old ->
  let '(_, rec', w') := winsdb_modify h rec flags w in
  wdb_recs w' !! wins_key (name rec) = Some old \/
  rec' = winsdb_fixup (set_version (owned_as h flags rec) (version rec')) /\
  wdb_recs w' !! wins_key (name rec) = Some (ldb_replace old (winsdb_message rec').1).
Proof.
  intros Hm. pose proof (winsdb_modify_stored h rec flags w) as Hs. cbv zeta in Hs.
  destruct (winsdb_modify h rec flags w) as [[rc rec'] w']. destruct Hs as (_ & [(_ & Hrec & Hr & _)|(_ & Hr & _)] & _).
  - right. split; [done|]. rewrite Hr. unfold put_changed. by rewrite lookup_alter_eq, Hm.
  - left. by rewrite Hr.
Qed.

(** Every message is where the name in its DN says. *)
Definition named (w : wdb) : Prop := forall dn msg n,
  wdb_recs w !! dn = Some msg ->
  winsdb_nbt_name (LdbDn.ldb_dn_new true (Some (m_dn msg))) = inr n -> wins_key n = dn.

Lemma named_view w w' : wdb_recs w' = wdb_recs w -> named w -> named w'.
Proof. unfold named. by intros ->. Qed.

Lemma add_named `{TimeCodec} h rec flags w : clean_name (name rec) -> named w -> named (winsdb_add h rec flags w).2.
Proof.
  intros Hc Hn. pose proof (winsdb_add_stored h rec flags w) as Hs. cbv zeta in Hs.
  destruct (winsdb_add h rec flags w) as [[rc rec'] w'].
  destruct Hs as (_ & [(_ & Hrec & Hr & _)|(_ & Hr & _)] & _); [|by apply (named_view w)]. cbn [snd].
  intros dn msg n. rewrite Hr. unfold put_new. intros [[<- <-]|[_ Hm]]%lookup_insert_Some; [|by apply Hn].
  assert (name rec' = name rec) as En by (rewrite Hrec; simpl; apply owned_as_name).
  rewrite message_name; rewrite En; [by intros [= <-]|done].
Qed.

Lemma modify_named `{TimeCodec} h rec flags w : named w -> named (winsdb_modify h rec flags w).2.
Proof.
  intros Hn. pose proof (winsdb_modify_stored h rec flags w) as Hs. cbv zeta in Hs.
  destruct (winsdb_modify h rec flags w) as [[rc rec'] w'].
  destruct Hs as (_ & [(_ & _ & Hr & _)|(_ & Hr & _)] & _); [|by apply (named_view w)]. cbn [snd].
  intros dn msg n. rewrite Hr. unfold put_changed.
  intros [(<- & old & Hm & ->)|[_ Hm]]%lookup_alter_Some; [exact (Hn _ old n Hm)|by apply Hn].
Qed.

(** Storing is atomic, whichever LDB calls fail and wherever.  With no
    transaction open, [winsdb_add], [winsdb_modify] and [winsdb_delete] report
    [NBT_RCODE_SVR] and leave every record and the version counter as they were,
    or report [NBT_RCODE_OK], and then have changed the one record they are for,
    which did not exist before an add and did before a modify or delete, and with
    the flag to allocate a version given it the next value of the counter, which
    is saved.  The exception is a commit that cannot sync the changes it has
    written: they stay, [NBT_RCODE_SVR] is reported all the same, and the
    transaction is left open. *)
Theorem winsdb_store_atomic `{TimeCodec} h rec flags w :
  wdb_trans w = None ->
  let dn := wins_key (name rec) in
  let stored_or_not can put (r : Z * winsdb_record * wdb) :=
    let '(rc, rec', w') := r in
    rc = NBT_RCODE_SVR /\ same_view w w' /\ wdb_trans w' = None \/
    done_at h rec flags can put w rec' w' /\
    (rc = NBT_RCODE_OK /\ wdb_trans w' = None \/
     rc = NBT_RCODE_SVR /\ wdb_trans w' = Some (mk_wtrans (wdb_recs w') (wdb_maxver w') 0 false)) in
  stored_or_not (can_add dn) (put_new dn) (winsdb_add h rec flags w) /\
  stored_or_not (can_modify dn) (put_changed dn) (winsdb_modify h rec flags w) /\
  let '(rc, w') := winsdb_delete rec w in
  rc = NBT_RCODE_SVR /\ same_view w w' /\ wdb_trans w' = None \/
  can_delete dn (wdb_recs w) = true /\ wdb_recs w' = delete dn (wdb_recs w) /\ wdb_maxver w' = wdb_maxver w /\
  (rc = NBT_RCODE_OK /\ wdb_trans w' = None \/
   rc = NBT_RCODE_SVR /\ wdb_trans w' = Some (mk_wtrans (wdb_recs w') (wdb_maxver w') 0 false)).
Proof.
  intros Ht dn stored_or_not.
  assert (forall can put r, stored h rec flags can put w r -> stored_or_not can put r) as Hs.
  { intros can put [[rc rec'] w'] (_ & Hp & Hi). unfold stored_or_not.
    destruct (Hi Ht) as [(-> & E)|[?|(-> & Hd & E)]]; [|by left|by right; auto].
    right. destruct Hp as [Hd|[? _]]; [by auto|done]. }
  split; [apply Hs, winsdb_add_stored|]. split; [apply Hs, winsdb_modify_stored|].
  pose proof (winsdb_delete_spec rec w) as Hd. fold dn in Hd. cbv zeta in Hd. destruct (winsdb_delete rec w) as [rc w'].
  destruct Hd as (Hm & _ & Hp & Hi).
  destruct (Hi Ht) as [(-> & E)|[(-> & Hr & E)|(-> & Hcan & Hr & E)]]; [|by left|by right; auto 10].
  right. destruct Hp as [[? _]|[Hcan Hr]]; [done|]. by auto 10.
Qed.

(** *** Without failures *)

(** No call fails, and a transaction that is open has not. *)
Definition quiet (w : wdb) : Prop := wdb_faults w = [] /\ pending_error w = false.

Lemma ldb_fault_none w : wdb_faults w = [] -> ldb_fault w = (false, w).
Proof. unfold ldb_fault. by intros ->. Qed.

Lemma ldb_write_quiet can change w :
  wdb_faults w = [] -> can w = true -> wdb_faults (change w) = [] -> ldb_write can change w = (true, change w).
Proof.
  intros Hf Hc Hf'. unfold ldb_write, st_bind, st_get, st_ret, st_modify.
  rewrite ldb_fault_none, Hc by done. cbn [orb negb]. by rewrite ldb_fault_none.
Qed.

Lemma start_quiet w : quiet w -> ldb_transaction_start w = (true, set_trans (Some (opened w false)) w).
Proof.
  intros [Hf Hp]. unfold ldb_transaction_start, st_bind, st_get, st_ret, st_modify, opened, pending_error in *.
  destruct (wdb_trans w) as [t|]; [by rewrite Hp|]. by rewrite ldb_fault_none.
Qed.

Lemma commit_quiet w w1 : quiet w -> wdb_faults w1 = [] -> wdb_trans w1 = Some (opened w false) ->
  ldb_transaction_commit w1 = (true, set_trans (wdb_trans w) w1).
Proof.
  intros [Hf Hp] Hf1 Ht. unfold ldb_transaction_commit, st_bind, st_get, st_ret, st_modify, opened, pending_error in *.
  rewrite Ht. destruct (wdb_trans w) as [[tr tv n e]|]; simpl in *; [by rewrite Hp|].
  by rewrite !ldb_fault_none.
Qed.

Lemma opened_quiet w : quiet w -> quiet (set_trans (Some (opened w false)) w).
Proof. intros [Hf Hp]. split; [done|]. unfold pending_error, opened. simpl. by destruct (wdb_trans w). Qed.

Lemma set_maxVersion_quiet w : quiet w -> 0 <= default 0 (wdb_maxver w) < 2 ^ 64 - 1 ->
  winsdb_set_maxVersion 0 w =
    (default 0 (wdb_maxver w) + 1, set_maxver (Some (default 0 (wdb_maxver w) + 1)) w).
Proof.
  intros Hq Hv. unfold winsdb_set_maxVersion, st_bind, st_ret. rewrite start_quiet by done. cbn [negb].
  set (w0 := set_trans _ w). assert (wdb_faults w0 = []) as Hf by apply Hq.
  unfold ldb_search_version, st_bind, st_get, st_ret. rewrite ldb_fault_none by done.
  cbn [Z.eqb]. rewrite u64_small by (simpl; lia). change (wdb_maxver w0) with (wdb_maxver w).
  set (v := default 0 (wdb_maxver w) + 1). unfold ldb_write_version.
  destruct (wdb_maxver w) as [v0|] eqn:E.
  - rewrite ldb_write_quiet; [|done|simpl; rewrite E; done|done]. cbn [negb].
    rewrite (commit_quiet w) by done. by destruct w.
  - replace (ldb_write (fun w => Bool.eqb false (bool_decide (wdb_maxver w = None))) (set_maxver (Some v)) w0) with (false, w0).
    2:{ unfold ldb_write, st_bind, st_get, st_ret. rewrite ldb_fault_none by done. simpl. by rewrite E. }
    rewrite ldb_write_quiet; [|done|simpl; rewrite E; done|done]. cbn [negb].
    rewrite (commit_quiet w) by done. by destruct w.
Qed.

(** The version a store gives to the record. *)
Definition version_given (flags : Z) (rec : winsdb_record) (w : wdb) : Z :=
  if flags &? WINSDB_FLAG_ALLOC_VERSION then default 0 (wdb_maxver w) + 1 else version rec.

Definition counter_ok (flags : Z) (w : wdb) : Prop :=
  flags &? WINSDB_FLAG_ALLOC_VERSION = true -> 0 <= default 0 (wdb_maxver w) < 2 ^ 64 - 1.

(** A store that may write succeeds. *)
Lemma winsdb_store_quiet `{TimeCodec} h rec flags write put w :
  quiet w -> counter_ok flags w ->
  let rec2 := set_version (owned_as h flags rec) (version_given flags rec w) in
  let msg := (winsdb_message rec2).1 in
  (forall w0, wdb_faults w0 = [] -> wdb_recs w0 = wdb_recs w ->
     write (wins_key (name rec)) msg w0 = (true, set_wrecs (put msg (wdb_recs w0)) w0)) ->
  winsdb_store h rec flags write w =
  ((NBT_RCODE_OK, winsdb_fixup rec2),
   mk_wdb (put msg (wdb_recs w))
     (if flags &? WINSDB_FLAG_ALLOC_VERSION then Some (version_given flags rec w) else wdb_maxver w)
     (wdb_trans w) []).
Proof.
  intros Hq Hv rec2 msg Hw. pose proof Hq as [Hf Hp]. unfold winsdb_store, st_bind, st_ret.
  rewrite start_quiet by done. cbn [negb]. set (w0 := set_trans (Some (opened w false)) w).
  assert (quiet w0) as Hq0 by (by apply opened_quiet). unfold counter_ok, version_given in *.
  set (w1 := if flags &? WINSDB_FLAG_ALLOC_VERSION then set_maxver (Some (default 0 (wdb_maxver w) + 1)) w0 else w0).
  match goal with |- (let '(_, _) := ?m in _) = _ =>
    replace m with (set_version rec (version rec2), w1) end.
  2:{ unfold rec2, w1. destruct (flags &? WINSDB_FLAG_ALLOC_VERSION).
      - by rewrite set_maxVersion_quiet by (done || by apply Hv).
      - by destruct rec. }
  replace ((flags &? WINSDB_FLAG_ALLOC_VERSION) && (version (set_version rec (version rec2)) =? 0)) with false.
  2:{ unfold rec2. simpl. destruct (flags &? WINSDB_FLAG_ALLOC_VERSION); [|done]. specialize (Hv eq_refl). simpl. lia. }
  change (if flags &? WINSDB_FLAG_TAKE_OWNERSHIP then set_owner (set_version rec (version rec2)) (local_owner h)
          else set_version rec (version rec2)) with (owned_as h flags (set_version rec (version rec2))).
  rewrite owned_as_version. change (set_version (owned_as h flags rec) (version rec2)) with rec2.
  change (winsdb_message rec2) with (msg, winsdb_fixup rec2). cbv beta iota.
  assert (name (winsdb_fixup rec2) = name rec) as -> by (unfold rec2; simpl; apply owned_as_name).
  assert (wdb_faults w1 = [] /\ wdb_recs w1 = wdb_recs w /\ wdb_trans w1 = Some (opened w false)
    /\ wdb_maxver w1 = (if flags &? WINSDB_FLAG_ALLOC_VERSION then Some (version_given flags rec w) else wdb_maxver w))
    as (Hf1 & Hr1 & Ht1 & Hm1).
  { unfold w1, version_given. by destruct (flags &? WINSDB_FLAG_ALLOC_VERSION). }
  rewrite Hw by done. cbn [negb]. rewrite (commit_quiet w); [|done..]. cbv beta iota.
  unfold set_wrecs, set_trans. simpl. by rewrite Hr1, Hm1, Hf1.
Qed.

(** What an add needs to succeed, and what it then leaves. *)
Lemma winsdb_add_quiet `{TimeCodec} h rec flags w :
  let rec2 := set_version (owned_as h flags rec) (version_given flags rec w) in
  let dn := wins_key (name rec) in
  quiet w -> counter_ok flags w -> can_add dn (winsdb_message rec2).1 (wdb_recs w) = true ->
  exists mv, winsdb_add h rec flags w =
    ((NBT_RCODE_OK, winsdb_fixup rec2),
     mk_wdb (<[dn := (winsdb_message rec2).1]> (wdb_recs w)) mv (wdb_trans w) []).
Proof.
  intros rec2 dn Hq Hv Hcan. eexists. apply (winsdb_store_quiet h rec flags ldb_add (put_new dn) w Hq Hv).
  intros w0 Hf Hr. unfold ldb_add. rewrite ldb_write_quiet; [done..|by rewrite Hr|done].
Qed.

Lemma winsdb_modify_quiet `{TimeCodec} h rec flags w :
  let rec2 := set_version (owned_as h flags rec) (version_given flags rec w) in
  let dn := wins_key (name rec) in
  quiet w -> counter_ok flags w -> can_modify dn (winsdb_message rec2).1 (wdb_recs w) = true ->
  winsdb_modify h rec flags w =
    ((NBT_RCODE_OK, winsdb_fixup rec2),
     mk_wdb (put_changed dn (winsdb_message rec2).1 (wdb_recs w))
       (if flags &? WINSDB_FLAG_ALLOC_VERSION then Some (version_given flags rec w) else wdb_maxver w)
       (wdb_trans w) []).
Proof.
  intros rec2 dn Hq Hv Hcan. apply (winsdb_store_quiet h rec flags ldb_modify (put_changed dn) w Hq Hv).
  intros w0 Hf Hr. unfold ldb_modify. rewrite ldb_write_quiet; [done..|by rewrite Hr|done].
Qed.

Lemma winsdb_delete_quiet rec w :
  quiet w -> can_delete (wins_key (name rec)) (wdb_recs w) = true ->
  winsdb_delete rec w =
    (NBT_RCODE_OK, mk_wdb (delete (wins_key (name rec)) (wdb_recs w)) (wdb_maxver w) (wdb_trans w) []).
Proof.
  intros Hq Hcan. pose proof Hq as [Hf _]. unfold winsdb_delete, st_bind, st_ret.
  rewrite start_quiet by done. cbn [negb]. unfold ldb_delete. rewrite ldb_write_quiet by done. cbn [negb].
  rewrite (commit_quiet w) by done. unfold set_trans, set_wrecs. simpl. by rewrite Hf.
Qed.

Lemma quiet_again recs mv w : quiet w -> quiet (mk_wdb recs mv (wdb_trans w) []).
Proof. by intros [_ Hp]. Qed.

(** A storable record of a new name can be added, one of a name that is there can
    be modified. *)
Lemma storable_add h now rec m : storable h now rec -> m !! wins_key (name rec) = None ->
  forall `{TimeCodec}, can_add (wins_key (name rec)) (winsdb_message rec).1 m = true.
Proof.
  intros Hs Hn ?. destruct (message_accepted h now rec Hs) as (Hk & Hc & _).
  unfold can_add. by rewrite Hc, !bool_decide_eq_true_2.
Qed.

(** The lookup of a record that is stored. *)
Lemma lookup_found `{TimeCodec} h now rec n w :
  wdb_faults w = [] -> n = name rec -> storable h now rec ->
  wdb_recs w !! wins_key n = Some (winsdb_message rec).1 ->
  winsdb_lookup h n now w = (inr rec, w).
Proof.
  intros Hf -> Hs Hl. unfold winsdb_lookup, ldb_search_dn, st_bind, st_get, st_ret.
  rewrite ldb_fault_none by done. destruct (message_accepted h now rec Hs) as (Hk & _).
  destruct (wins_key (name rec)) as [k|]; [|done]. rewrite Hl. by rewrite record_message.
Qed.

(** C33: what is added is found.  Without LDB failures, a well-formed record of
    a new name is added, and the lookup of the name then gives back the record
    as the add returned it: type, state, times, owner and every address,
    through the text of the DN and the string encoding of the address and time
    attributes.  A well-formed record has a name without bytes of the DN syntax
    and end blanks, no address twice, and no empty string for what the database
    then does not store. *)
Theorem winsdb_add_lookup `{TimeCodec} h rec flags now w :
  quiet w -> wdb_recs w !! wins_key (name rec) = None -> counter_ok flags w ->
  (forall v, storable h now (set_version (owned_as h flags rec) v)) ->
  let r := winsdb_add h rec flags w in
  r.1.1 = NBT_RCODE_OK /\ (winsdb_lookup h (name rec) now r.2).1 = inr r.1.2.
Proof.
  intros Hq Hn Hv Hs. set (rec2 := set_version (owned_as h flags rec) (version_given flags rec w)).
  assert (name rec2 = name rec) as En by (unfold rec2; simpl; apply owned_as_name).
  destruct (winsdb_add_quiet h rec flags w Hq Hv) as (mv & E).
  { fold rec2. rewrite <- En. apply (storable_add h now); [apply Hs|by rewrite En]. }
  cbv zeta. rewrite E. fold rec2. cbn [fst snd]. split; [done|].
  rewrite (lookup_found h now rec2); [|done|by rewrite En|apply Hs|apply lookup_insert_eq].
  cbn [fst]. by rewrite (fixup_storable h now) by apply Hs.
Qed.

Definition ex_wh : winsdb_handle := mk_wh "10.0.0.1".
Definition ex_name : nbt_name := mk_nbt_name "SERVER" None 32.
Definition ex_wrec : winsdb_record :=
  mk_wrec ex_name WREPL_TYPE_UNIQUE WREPL_STATE_ACTIVE WREPL_NODE_P false 5000 0 "10.0.0.2"
    [mk_addr "10.1.1.1" "10.0.0.1" 5000] (Some "10.1.1.1"%string).
Definition ex_wdb : wdb := mk_wdb ∅ None None [].

Lemma ex_name_clean : clean_name ex_name.
Proof. split; [vm_compute; reflexivity|done|simpl; lia]. Defined.

Lemma ex_wrec_storable v : storable ex_wh 1000 (set_version (owned_as (H:=ldb_time) ex_wh 3 ex_wrec) v).
Proof.
  constructor; simpl; try lia; try done.
  - apply NoDup_singleton.
  - intros _. split.
    + repeat constructor; simpl; try done; lia.
    + intros _ _. repeat constructor; simpl; lia.
Defined.

Example winsdb_add_lookup_witness :
  let r := winsdb_add (H:=ldb_time) ex_wh ex_wrec 3 ex_wdb in
  r.1.1 = NBT_RCODE_OK /\ (winsdb_lookup (H:=ldb_time) ex_wh ex_name 1000 r.2).1 = inr r.1.2.
Proof.
  apply (winsdb_add_lookup (H:=ldb_time) ex_wh ex_wrec 3 1000 ex_wdb);
    [split; reflexivity|reflexivity|intros _; simpl; lia|apply ex_wrec_storable].
Defined.

Example winsdb_store_atomic_witness :
  wdb_recs (winsdb_add (H:=ldb_time) ex_wh ex_wrec 3 (mk_wdb ∅ None None [false; false; false; true])).2 = ∅.
Proof.
  destruct (winsdb_store_atomic (H:=ldb_time) ex_wh ex_wrec 3 (mk_wdb ∅ None None [false; false; false; true]) eq_refl)
    as [Ha _]. cbv zeta in Ha.
  destruct (winsdb_add (H:=ldb_time) _ _ _ _) as [[rc rec'] w'] eqn:E. vm_compute in E. injection E as <- <- <-.
  destruct Ha as [(_ & [Hr _] & _)|(_ & [[Hrc _]|[_ Ht]])]; [exact Hr|discriminate Hrc|discriminate Ht].
Defined.

(** A commit that has written its changes and cannot sync them: the add reports an
    error, the record is there, and the transaction is never ended.  The next
    modify reports success, in a transaction inside it. *)
Example commit_left_open :
  let r := winsdb_add (H:=ldb_time) ex_wh ex_wrec 3 (mk_wdb ∅ None None (replicate 8 false ++ [true])) in
  let r2 := winsdb_modify (H:=ldb_time) ex_wh r.1.2 3 r.2 in
  r.1.1 = NBT_RCODE_SVR /\ is_Some (wdb_recs r.2 !! wins_key ex_name) /\
  r2.1.1 = NBT_RCODE_OK /\ wdb_maxver r2.2 = Some 2 /\ t_maxver <$> wdb_trans r2.2 = Some (Some 1).
Proof. vm_compute. split_and!; try done. by eexists. Qed.

(** A name with a number sign is not stored. *)
Example name_refused :
  (winsdb_add (H:=ldb_time) ex_wh
     (mk_wrec (mk_nbt_name "SRV#1" None 32) WREPL_TYPE_UNIQUE WREPL_STATE_ACTIVE WREPL_NODE_P false 5000 0
        "10.0.0.2" [mk_addr "10.1.1.1" "10.0.0.1" 5000] None) 3 ex_wdb).1.1 = NBT_RCODE_SVR.
Proof. vm_compute. done. Qed.

(** ** Address lists *)

Definition times_ok (l : list winsdb_addr) : Prop := forall a, a ∈ l -> 0 <= a_expire_time a < 2 ^ 31.

Lemma sort_list_sign h a b :
  0 <= a_expire_time a < 2 ^ 31 -> 0 <= a_expire_time b < 2 ^ 31 ->
  let o x := if bool_decide (a_wins_owner x = local_owner h) then 1 else 0 in
  winsdb_addr_sort_list h a b =
  if negb (a_expire_time b =? a_expire_time a) then a_expire_time b - a_expire_time a
  else o b - o a.
Proof.
  intros Ha Hb. cbv zeta. unfold winsdb_addr_sort_list. rewrite s32_small; [done|lia].
Qed.

(** With times an [int] can hold, the comparison is a total preorder. *)
Lemma sort_list_consistent h l :
  times_ok l -> Z.of_nat (length l) < 2 ^ 64 -> cmp_consistent (winsdb_addr_sort_list h) l.
Proof.
  intros Ht Hl. constructor; [..|done].
  - intros a b Ha Hb. rewrite !sort_list_sign by auto.
    destruct (Z.eqb_spec (a_expire_time b) (a_expire_time a));
      destruct (Z.eqb_spec (a_expire_time a) (a_expire_time b)); simpl; lia.
  - intros a b c Ha Hb Hc. rewrite !sort_list_sign by auto.
    destruct (Z.eqb_spec (a_expire_time b) (a_expire_time a));
      destruct (Z.eqb_spec (a_expire_time c) (a_expire_time b));
      destruct (Z.eqb_spec (a_expire_time c) (a_expire_time a)); simpl; try lia;
      repeat case_bool_decide; lia.
Qed.

Definition replica (h : winsdb_handle) (a : winsdb_addr) : Prop := a_wins_owner a <> local_owner h.

(** The victim of a full list: a replica if there is one, and the first to
    expire among the candidates. *)
Definition victim (h : winsdb_handle) (l : list winsdb_addr) (v : winsdb_addr) : Prop :=
  v ∈ l /\
  ((exists a, a ∈ l /\ replica h a) ->
     replica h v /\ forall a, a ∈ l -> replica h a -> a_expire_time v <= a_expire_time a) /\
  ((forall a, a ∈ l -> ~ replica h a) -> forall a, a ∈ l -> a_expire_time v <= a_expire_time a).

(** The state of the search loop after the prefix [pre]. *)
Definition search_inv (h : winsdb_handle) (pre : list winsdb_addr) (found : bool)
    (old : option winsdb_addr) : Prop :=
  (found = false -> forall a, a ∈ pre -> ~ replica h a) /\
  match old with
  | None => pre = []
  | Some o => o ∈ pre /\
      (if found then replica h o /\ forall a, a ∈ pre -> replica h a -> a_expire_time o <= a_expire_time a
       else forall a, a ∈ pre -> a_expire_time o <= a_expire_time a)
  end /\ (found = true -> old <> None).

Lemma oldest_addr_inv h l : forall pre found old,
  search_inv h pre found old ->
  exists found', search_inv h (pre ++ l) found' (oldest_addr h l found old).
Proof.
  induction l as [|a l IH]; intros pre found old Hi; simpl.
  { exists found. by rewrite app_nil_r. }
  assert (Hstep : forall found' old', search_inv h (pre ++ [a]) found' old' ->
    exists f, search_inv h (pre ++ a :: l) f (oldest_addr h l found' old')).
  { intros f' o' H'. rewrite (cons_middle a pre l), app_assoc. by apply IH. }
  destruct Hi as (Hf & Ho & Hn). destruct (bool_decide (a_wins_owner a = local_owner h)) eqn:Ea;
    [apply bool_decide_eq_true in Ea|apply bool_decide_eq_false in Ea]; simpl;
    rewrite ?andb_true_r, ?andb_false_r.
  - destruct found; cbn [andb negb].
    + apply Hstep. split; [done|]. split; [|done]. destruct old as [o|]; [|by destruct Hn].
      destruct Ho as [Hin [Hr Hmin]]. split; [set_solver|]. split; [done|].
      intros x [Hx|Hx%list_elem_of_singleton]%elem_of_app Hrx; [by apply Hmin|].
      subst x. by destruct Hrx.
    + assert (Hnr : forall x, x ∈ pre ++ [a] -> ~ replica h x).
      { intros x [Hx|Hx%list_elem_of_singleton]%elem_of_app; [by apply Hf|]. subst. by intros []. }
      destruct old as [o|].
      * destruct Ho as [Hin Hmin]. destruct (Z.ltb_spec (a_expire_time a) (a_expire_time o)).
        -- apply Hstep. split; [done|]. split; [|done]. split; [set_solver|].
           intros x [Hx|Hx%list_elem_of_singleton]%elem_of_app; [specialize (Hmin x Hx); lia|by subst].
        -- apply Hstep. split; [done|]. split; [|done]. split; [set_solver|].
           intros x [Hx|Hx%list_elem_of_singleton]%elem_of_app; [by apply Hmin|by subst].
      * subst pre. apply Hstep. split; [done|]. split; [|done]. split; [set_solver|].
        intros x ->%list_elem_of_singleton. lia.
  - destruct found; cbn [andb negb].
    + destruct old as [o|]; [|by destruct Hn]. destruct Ho as [Hin [Hr Hmin]].
      destruct (Z.ltb_spec (a_expire_time a) (a_expire_time o)).
      * apply Hstep. split; [done|]. split; [|done]. split; [set_solver|]. split; [done|].
        intros x [Hx|Hx%list_elem_of_singleton]%elem_of_app Hrx;
          [specialize (Hmin x Hx Hrx); lia|by subst].
      * apply Hstep. split; [done|]. split; [|done]. split; [set_solver|]. split; [done|].
        intros x [Hx|Hx%list_elem_of_singleton]%elem_of_app Hrx; [by apply Hmin|by subst].
    + apply Hstep. split; [done|]. split; [|done]. split; [set_solver|]. split; [done|].
      intros x [Hx|Hx%list_elem_of_singleton]%elem_of_app Hrx; [by destruct (Hf eq_refl x Hx)|by subst].
Qed.

Lemma oldest_addr_victim h l :
  l <> [] -> exists v, oldest_addr h l false None = Some v /\ victim h l v.
Proof.
  intros Hne. destruct (oldest_addr_inv h l [] false None) as (f & Hf & Ho & Hn).
  { split; [intros _ a Ha; inversion Ha|]. split; done. }
  simpl in *. destruct (oldest_addr h l false None) as [v|]; [|done].
  exists v. split; [done|]. destruct Ho as [Hin Ho]. split; [done|]. destruct f.
  - split; [done|]. destruct Ho as [Hr _]. intros Hno. by destruct (Hno v Hin).
  - split; [|done]. intros (a & Ha & Hr). by destruct (Hf eq_refl a Ha).
Qed.

(** The addresses of a list are distinct. *)
Definition distinct (l : list winsdb_addr) : Prop := NoDup (List.map address l).

Lemma list_check_Some l a x :
  winsdb_addr_list_check l a = Some x -> x ∈ l /\ address x = a.
Proof.
  intros Hf. apply List.find_some in Hf as [Hin Ha]. apply bool_decide_eq_true in Ha.
  split; [by apply list_elem_of_In|done].
Qed.

Lemma list_check_None l a :
  winsdb_addr_list_check l a = None -> a ∉ List.map address l.
Proof.
  intros Hn Hin. apply list_elem_of_In, in_map_iff in Hin as (x & Hx & Hin).
  pose proof (List.find_none _ _ Hn x Hin) as Hf. by apply bool_decide_eq_false in Hf.
Qed.

Lemma list_remove_perm l v :
  distinct l -> v ∈ l -> Permutation l (v :: winsdb_addr_list_remove l (address v)).
Proof.
  intros Hd Hv. unfold winsdb_addr_list_remove.
  destruct (find_idx (addr_is (address v)) l) as [i|] eqn:Ei.
  - apply find_idx_Some in Ei as (x & Hx & Ha & _). apply bool_decide_eq_true in Ha.
    assert (x = v) as ->.
    { apply list_elem_of_lookup in Hv as [j Hj].
      assert (i = j) as ->; [|congruence].
      eapply (NoDup_lookup (List.map address l)); [done|..].
      - change (List.map address l) with (address <$> l). by rewrite list_lookup_fmap, Hx.
      - change (List.map address l) with (address <$> l). rewrite list_lookup_fmap, Hj. simpl.
        by rewrite Ha. }
    by apply delete_Permutation.
  - pose proof (proj1 (find_idx_None _ _) Ei v Hv) as Hf. by apply bool_decide_eq_false in Hf.
Qed.

Section addr_list.
Context `{LdbQsort} (h : winsdb_handle).

Lemma addr_list_append_spec l a owner t :
  times_ok l -> (length l <= 25)%nat -> 0 <= t < 2 ^ 31 ->
  Permutation (addr_list_append h l a owner t) (mk_addr a owner t :: l) /\
  ordered (fun x y => winsdb_addr_sort_list h x y <= 0) (addr_list_append h l a owner t).
Proof.
  intros Ht Hlen Hr.
  assert (Hc : cmp_consistent (winsdb_addr_sort_list h) (l ++ [mk_addr a owner t])).
  { apply sort_list_consistent; [|rewrite length_app; simpl; lia]. intros x [Hx|Hx%list_elem_of_singleton]%elem_of_app; [by apply Ht|].
    by subst. }
  unfold addr_list_append. split; [|by apply ldb_qsort_sorted].
  rewrite (ldb_qsort_perm _ _ Hc). by rewrite (Permutation_app_comm l).
Qed.

Lemma times_ok_remove l v :
  distinct l -> v ∈ l -> times_ok l -> (length l <= 25)%nat ->
  times_ok (winsdb_addr_list_remove l (address v)) /\
  (length (winsdb_addr_list_remove l (address v)) <= 25)%nat.
Proof.
  intros Hd Hv Ht Hl. pose proof (list_remove_perm l v Hd Hv) as Hp. split.
  - intros x Hx. apply Ht. rewrite Hp. by right.
  - apply Permutation_length in Hp. simpl in Hp. lia.
Qed.
End addr_list.

(** What [winsdb_addr_list_add] makes of a list of at most 25 distinct
    addresses: [kept] are the old entries that stay. *)
Definition added (h : winsdb_handle) (l : list winsdb_addr) (a : string) (reg : bool)
    (kept : list winsdb_addr) : Prop :=
  (exists old, old ∈ l /\ address old = a /\ Permutation l (old :: kept)) \/
  ((a ∉ List.map address l) /\ (length l < 25)%nat /\ kept = l) \/
  ((a ∉ List.map address l) /\ (25 <= length l)%nat /\ reg = true /\
   exists v, victim h l v /\ Permutation l (v :: kept)).

Lemma winsdb_addr_list_add_cases `{LdbQsort} h l a owner t reg :
  distinct l -> times_ok l -> (length l <= 25)%nat -> 0 <= t < 2 ^ 31 ->
  ((a ∉ List.map address l) /\ (25 <= length l)%nat /\ reg = false /\
   winsdb_addr_list_add h l a owner t reg = l) \/
  (exists kept, added h l a reg kept /\
     Permutation (winsdb_addr_list_add h l a owner t reg) (mk_addr a owner t :: kept) /\
     ordered (fun x y => winsdb_addr_sort_list h x y <= 0)
       (winsdb_addr_list_add h l a owner t reg)).
Proof.
  intros Hd Ht Hlen Hr. unfold winsdb_addr_list_add.
  destruct (winsdb_addr_list_check l a) as [old|] eqn:Ec.
  - apply list_check_Some in Ec as [Hin Ha]. right. eexists.
    split; [left; exists old; by split_and!; [..|apply list_remove_perm]|].
    apply addr_list_append_spec; [by apply times_ok_remove..|done].
  - apply list_check_None in Ec. destruct (Nat.ltb_spec (length l) 25) as [Hl|Hl].
    + right. exists l. split; [right; by left|]. by apply addr_list_append_spec.
    + destruct reg; cbn [negb]; [|by left].
      destruct (oldest_addr_victim h l) as (v & -> & Hv); [by destruct l; [simpl in Hl; lia|]|].
      pose proof Hv as [Hin _]. right. eexists.
      split; [right; right; split_and!; [done..|exists v; split; [done|by apply list_remove_perm]]|].
      apply addr_list_append_spec; [by apply times_ok_remove..|done].
Qed.

(** The entries kept are distinct entries of the list, other than the new
    address, and there is room for it. *)
Lemma added_kept h l a reg kept :
  distinct l -> (length l <= 25)%nat -> added h l a reg kept ->
  (forall x, x ∈ kept -> x ∈ l) /\ distinct kept /\ (a ∉ List.map address kept) /\
  (length kept < 25)%nat.
Proof.
  intros Hd Hl [(old & Hin & Ha & Hp)|[(Ha & Hlt & ->)|(Ha & Hge & _ & v & _ & Hp)]].
  - assert (Hd' : distinct (old :: kept)) by (unfold distinct in *; by rewrite <- Hp).
    apply NoDup_cons in Hd' as [Hn Hd']. rewrite Hp in Hl. simpl in Hl. subst a.
    split_and!; [|done|done|lia]. intros x Hx. rewrite Hp. by right.
  - split_and!; done.
  - assert (Hd' : distinct (v :: kept)) by (unfold distinct in *; by rewrite <- Hp).
    apply NoDup_cons in Hd' as [Hn Hd']. pose proof (Permutation_length Hp) as Hlen. simpl in Hlen.
    split_and!; [|done| |lia].
    + intros x Hx. rewrite Hp. by right.
    + intros Hin. apply Ha. rewrite Hp. by right.
Qed.

(** [winsdb_addr_list_add] on a list of at most 25 distinct addresses.  The
    result again has at most 25 distinct addresses.  An address already listed
    is replaced; else it is added; when the list is full, a replicated address
    is ignored, and a registered one takes the place of the replica that
    expires first, or of the owned address that expires first when there is no
    replica.  Whenever the list changes it is left with the newest first. *)
Theorem winsdb_addr_list_add_correct `{LdbQsort} h l a owner t reg :
  distinct l -> times_ok l -> 0 <= t < 2 ^ 31 -> (length l <= 25)%nat ->
  let l' := winsdb_addr_list_add h l a owner t reg in
  (length l' <= 25)%nat /\ distinct l' /\ times_ok l' /\
  (((a ∉ List.map address l) /\ length l = 25%nat /\ reg = false /\ l' = l) \/
   (exists kept, added h l a reg kept /\ Permutation l' (mk_addr a owner t :: kept) /\
      ordered (fun x y => a_expire_time y <= a_expire_time x) l')).
Proof.
  intros Hd Ht Hr Hl l'.
  destruct (winsdb_addr_list_add_cases h l a owner t reg Hd Ht ltac:(lia) Hr)
    as [(Ha & Hf & Hreg & He)|(kept & Hk & Hp & Ho)].
  { unfold l'. rewrite He. split_and!; [done..|left; split_and!; [done|lia|done|done]]. }
  fold l' in Hp, Ho. destruct (added_kept h l a reg kept Hd Hl Hk) as (Hsub & Hdk & Hak & Hlk).
  assert (Ht' : times_ok l').
  { intros x. rewrite Hp, elem_of_cons. intros [->|Hx]; [done|]. by apply Ht, Hsub. }
  split; [rewrite Hp; simpl; lia|]. split; [unfold distinct; rewrite Hp; by constructor|].
  split; [done|]. right. exists kept. split; [done|]. split; [done|].
  intros i j x y Hij Hi Hj. specialize (Ho i j x y Hij Hi Hj). simpl in Ho.
  rewrite sort_list_sign in Ho by (apply Ht'; by eapply list_elem_of_lookup_2).
  destruct (Z.eqb_spec (a_expire_time y) (a_expire_time x)); simpl in Ho; lia.
Qed.

Example winsdb_addr_list_add_correct_witness :
  let l := [mk_addr "10.1.1.1" "10.0.0.1" 5000; mk_addr "10.1.1.2" "10.0.0.2" 4000] in
  let l' := winsdb_addr_list_add (H0:=ldb_qsort_impl) ex_wh l "10.1.1.2" "10.0.0.1" 6000 true in
  (length l' <= 25)%nat.
Proof.
  apply (winsdb_addr_list_add_correct (H:=ldb_qsort_impl)); [|intros a Ha|lia|simpl; lia].
  - unfold distinct. simpl. apply NoDup_cons. split; [by intros Hx%list_elem_of_singleton|].
    apply NoDup_singleton.
  - rewrite !elem_of_cons, elem_of_nil in Ha. destruct Ha as [-> |[-> |[]]]; simpl; lia.
Defined.

(** ** Lookups *)

Lemma decode_addresses_error `{TimeCodec} h o e now drop vals :
  decode_addresses h o e now drop vals <> inl NT_STATUS_OK.
Proof.
  assert (Ha : forall v, winsdb_addr_decode h o e v <> inl NT_STATUS_OK).
  { intros v. unfold winsdb_addr_decode.
    repeat match goal with |- context [match ?x with _ => _ end] => destruct x end; done. }
  induction vals as [|v vals IH]; simpl; [done|]. specialize (Ha v).
  destruct (winsdb_addr_decode h o e v); [congruence|].
  by destruct (decode_addresses h o e now drop vals).
Qed.

Lemma nbt_name_error dn : winsdb_nbt_name dn <> inl NT_STATUS_OK.
Proof.
  unfold winsdb_nbt_name. destruct (LdbDn.ldb_dn_get_comp_num [] dn) as [[n dn']|]; [|done].
  destruct (3 <? u32 n); [done|]. destruct (next_value _ _) as [sc cs]. destruct (next_value _ _) as [nm cs'].
  by destruct (next_value _ _) as [[ty|] ?].
Qed.

(** A record that is read has the name of its DN; an error is not a success. *)
Lemma record_of_cases `{TimeCodec} h msg now :
  match winsdb_record_of h msg now with
  | inl s => s <> NT_STATUS_OK
  | inr rec => winsdb_nbt_name (LdbDn.ldb_dn_new true (Some (m_dn msg))) = inr (name rec)
  end.
Proof.
  unfold winsdb_record_of. cbv zeta. pose proof (nbt_name_error (LdbDn.ldb_dn_new true (Some (m_dn msg)))) as Hn.
  destruct (winsdb_nbt_name _) as [st|n]; [congruence|]. do 5 case_goal.
  unfold expire_and_decode. cbv zeta.
  match goal with |- context [decode_addresses ?h ?o ?e ?n ?d ?v] =>
    pose proof (decode_addresses_error h o e n d v) as Hd; destruct (decode_addresses h o e n d v)
  end; [congruence|done].
Qed.

(** A lookup changes nothing, and reads the record of its name. *)
Lemma winsdb_lookup_spec `{TimeCodec} h n now w :
  let '(r, w') := winsdb_lookup h n now w in
  same_view w w' /\ wdb_trans w' = wdb_trans w /\
  match r with
  | inl s => s <> NT_STATUS_OK
  | inr rec => exists msg, wdb_recs w !! wins_key n = Some msg /\ winsdb_record_of h msg now = inr rec
  end.
Proof.
  unfold winsdb_lookup, ldb_search_dn, st_bind, st_get, st_ret. next_ldb_fault; [done|].
  split; [done|]. split; [done|]. destruct (wins_key n) as [k|]; [|done]. rewrite H0.
  destruct (wdb_recs w !! Some k) as [msg|] eqn:E; [|done].
  pose proof (record_of_cases h msg now) as Hc.
  destruct (winsdb_record_of h msg now) as [s|rec] eqn:Er; [done|]. by exists msg.
Qed.

(** ** Adding where there is room *)

Lemma distinct_perm l k : Permutation l k -> distinct l -> distinct k.
Proof. intros Hp. unfold distinct. by rewrite Hp. Qed.

Lemma distinct_unique l x y : distinct l -> x ∈ l -> y ∈ l -> address x = address y -> x = y.
Proof.
  intros Hd [i Hi]%list_elem_of_lookup [j Hj]%list_elem_of_lookup Ha.
  assert (i = j) as ->; [|congruence].
  eapply (NoDup_lookup (address <$> l)); [done|..]; rewrite list_lookup_fmap.
  - by rewrite Hi.
  - rewrite Hj. simpl. by rewrite Ha.
Qed.

(** The address list of a record under construction. *)
Definition list_ok (l : list winsdb_addr) : Prop := distinct l /\ times_ok l.

Lemma list_add_elem `{LdbQsort} h l a owner t reg :
  list_ok l -> 0 <= t < 2 ^ 31 -> (length l < 25)%nat ->
  let l' := winsdb_addr_list_add h l a owner t reg in
  list_ok l' /\ (length l' <= S (length l))%nat /\
  (forall x, x ∈ l' <-> x = mk_addr a owner t \/ (x ∈ l /\ address x <> a)).
Proof.
  intros [Hd Ht] Hr Hl l'.
  destruct (winsdb_addr_list_add_cases h l a owner t reg Hd Ht ltac:(lia) Hr)
    as [(_ & Hf & _)|(kept & Hk & Hp & _)]; [lia|]. fold l' in Hp.
  destruct (added_kept h l a reg kept Hd ltac:(lia) Hk) as (Hsub & Hdk & Hak & _).
  assert (Hkept : forall x, x ∈ kept <-> x ∈ l /\ address x <> a).
  { intros x. split.
    - intros Hx. split; [by apply Hsub|]. intros <-. apply Hak.
      apply list_elem_of_In, in_map, list_elem_of_In, Hx.
    - intros [Hx Ha]. destruct Hk as [(old & _ & Ho & Hpk)|[(_ & _ & ->)|(_ & Hge & _)]]; [|done|lia].
      rewrite Hpk, elem_of_cons in Hx. destruct Hx as [->|Hx]; done. }
  assert (Hlen : (length kept <= length l)%nat).
  { destruct Hk as [(old & _ & _ & Hpk)|[(_ & _ & ->)|(_ & Hge & _)]]; [|done|lia].
    rewrite Hpk. simpl. lia. }
  split; [split|split].
  - unfold distinct. rewrite Hp. by constructor.
  - intros x. rewrite Hp, elem_of_cons. intros [->|Hx]; [done|]. by apply Ht, Hsub.
  - rewrite Hp. simpl. lia.
  - intros x. rewrite Hp, elem_of_cons, Hkept. done.
Qed.

(** A new address, where there is room. *)
Lemma list_add_fresh `{LdbQsort} h l x reg :
  times_ok (x :: l) -> distinct (x :: l) -> (length l < 25)%nat ->
  Permutation (winsdb_addr_list_add h l (address x) (a_wins_owner x) (a_expire_time x) reg) (x :: l).
Proof.
  intros Ht Hd Hl. apply NoDup_cons in Hd as [Hx Hd].
  assert (Ht' : times_ok l) by (intros y Hy; apply Ht; by right).
  assert (Hr : 0 <= a_expire_time x < 2 ^ 31) by (apply Ht; left).
  destruct (winsdb_addr_list_add_cases h l (address x) (a_wins_owner x) (a_expire_time x) reg Hd Ht' ltac:(lia) Hr)
    as [(_ & Hf & _)|(kept & Hk & Hp & _)]; [lia|].
  destruct Hk as [(old & Hin & Ha & _)|[(_ & _ & ->)|(_ & Hge & _)]]; [|by destruct x|lia].
  destruct Hx. rewrite <- Ha. by apply list_elem_of_In, in_map, list_elem_of_In.
Qed.

Lemma times_ok_app l k : times_ok (l ++ k) <-> times_ok l /\ times_ok k.
Proof. unfold times_ok. set_solver. Qed.

Lemma times_ok_perm l k : Permutation l k -> times_ok l -> times_ok k.
Proof. intros Hp Ht x. rewrite <- Hp. apply Ht. Qed.
