(* ===== verification/WinsRepl.v ===== *)
(** * Applying replicated records
    ([source4/wrepl_server/wrepl_apply_records.c],
     the owner table of [source4/wrepl_server/wrepl_server.c])

    A WINS server pulls the records of an owner from a partner and applies them
    to its database one at a time.  The state is the database, the owner table,
    and the messages sent to the local NBT server: a challenge of the holder of
    a name, or a demand to release it.  The answer to a challenge comes later
    and is handled by [r_do_challenge_handler] with the record and the replica
    the challenge was sent for.  [now] is what [time(NULL)] returns. *)

From S2P Require Import Prelude NtStatus LdbQsort LdbTime WinsName WinsDb.

(** ** Data *)

Record wrepl_address : Set := mk_raddr { ra_owner : string; ra_address : string }.

(** [struct wrepl_name], a record as it comes from the partner. *)
Record wrepl_name : Set := mk_replica {
  r_name : nbt_name;
  r_type : wrepl_name_type;
  r_state : wrepl_name_state;
  r_node : wrepl_name_node;
  r_is_static : bool;
  r_version_id : Z;
  r_owner : string;
  r_addresses : list wrepl_address
}.

Record wrepl_wins_owner : Set := mk_wowner { o_address : string; o_max_version : Z }.

Inductive _R_ACTION : Set :=
  | R_INVALID | R_DO_REPLACE | R_NOT_REPLACE | R_DO_PROPAGATE | R_DO_CHALLENGE
  | R_DO_RELEASE_DEMAND | R_DO_SGROUP_MERGE.

#[export] Instance R_ACTION_eq_dec : EqDecision _R_ACTION.
Proof. solve_decision. Defined.

(** What [r_do_challenge] keeps for the handler. *)
Record r_do_challenge_state : Set := mk_chal {
  c_rec : winsdb_record;
  c_owner : wrepl_wins_owner;
  c_replica : wrepl_name
}.

(** The requests sent to the NBT server. *)
Inductive irpc_msg : Set :=
  | NBTD_PROXY_WINS_CHALLENGE (n : nbt_name) (addrs : list string) (st : r_do_challenge_state)
  | NBTD_PROXY_WINS_RELEASE_DEMAND (n : nbt_name) (addrs : list string).

(** The service: the database handle, the configured interval, and whether
    [irpc_servers_byname] finds an NBT server. *)
Record wreplsrv_service : Set := mk_service {
  wins_db : winsdb_handle;
  verify_interval : Z;
  nbt_server : bool
}.

(** [ws_owner_set]: [service->owner] points to the table entry of the local
    server, as it does once the table is loaded. *)
Record wsrv : Set := mk_wsrv {
  ws_db : wdb;
  ws_msgs : list irpc_msg;
  ws_table : list wrepl_wins_owner;
  ws_owner_set : bool
}.

Definition on_db {A} (m : ST wdb A) : ST wsrv A := fun s =>
  let '(a, w) := m (ws_db s) in (a, mk_wsrv w (ws_msgs s) (ws_table s) (ws_owner_set s)).

Definition irpc_send (x : irpc_msg) : ST wsrv unit :=
  st_modify (fun s => mk_wsrv (ws_db s) (ws_msgs s ++ [x]) (ws_table s) (ws_owner_set s)).

(** ** Macros and address list tests *)

Definition R_IS_ACTIVE (st : wrepl_name_state) : bool := state_is st WREPL_STATE_ACTIVE.
Definition R_IS_TOMBSTONE (st : wrepl_name_state) : bool := state_is st WREPL_STATE_TOMBSTONE.
Definition R_IS_UNIQUE (ty : wrepl_name_type) : bool := type_is ty WREPL_TYPE_UNIQUE.
Definition R_IS_GROUP (ty : wrepl_name_type) : bool := type_is ty WREPL_TYPE_GROUP.
Definition R_IS_SGROUP (ty : wrepl_name_type) : bool := type_is ty WREPL_TYPE_SGROUP.

(** The first entry with this address decides, also about the owner. *)
Definition replica_has (l : list wrepl_address) (check_owners : bool) (a : winsdb_addr) : bool :=
  match List.find (fun x => bool_decide (address a = ra_address x)) l with
  | Some x => negb (check_owners && negb (bool_decide (a_wins_owner a = ra_owner x)))
  | None => false
  end.

Definition record_has (l : list winsdb_addr) (check_owners : bool) (x : wrepl_address) : bool :=
  match List.find (fun a => bool_decide (ra_address x = address a)) l with
  | Some a => negb (check_owners && negb (bool_decide (ra_owner x = a_wins_owner a)))
  | None => false
  end.

Definition r_1_is_subset_of_2_address_list (r1 : winsdb_record) (r2 : wrepl_name)
    (check_owners : bool) : bool :=
  forallb (replica_has (r_addresses r2) check_owners) (addresses r1).

Definition r_1_is_superset_of_2_address_list (r1 : winsdb_record) (r2 : wrepl_name)
    (check_owners : bool) : bool :=
  forallb (record_has (addresses r1) check_owners) (r_addresses r2).

Definition r_1_is_same_as_2_address_list (r1 : winsdb_record) (r2 : wrepl_name)
    (check_owners : bool) : bool :=
  if negb (length (addresses r1) =? length (r_addresses r2))%nat then false
  else r_1_is_superset_of_2_address_list r1 r2 check_owners.

Definition r_contains_addrs_from_owner (r1 : winsdb_record) (owner : string) : bool :=
  existsb (fun a => bool_decide (a_wins_owner a = owner)) (addresses r1).

(** ** The decision functions *)

Definition replace_same_owner (r1 : winsdb_record) (r2 : wrepl_name) : _R_ACTION := R_DO_REPLACE.

Definition replace_unique_replica_vs_X_replica (r1 : winsdb_record) (r2 : wrepl_name) : _R_ACTION :=
  if negb (R_IS_ACTIVE (state r1)) then R_DO_REPLACE
  else if negb (R_IS_SGROUP (r_type r2)) && R_IS_ACTIVE (r_state r2) then R_DO_REPLACE
  else R_NOT_REPLACE.

Definition replace_group_replica_vs_X_replica (r1 : winsdb_record) (r2 : wrepl_name) : _R_ACTION :=
  if negb (R_IS_ACTIVE (state r1)) && R_IS_GROUP (r_type r2) then R_DO_REPLACE
  else if R_IS_TOMBSTONE (state r1) && negb (R_IS_UNIQUE (r_type r2)) then R_DO_REPLACE
  else R_NOT_REPLACE.

Definition replace_sgroup_replica_vs_X_replica (r1 : winsdb_record) (r2 : wrepl_name) : _R_ACTION :=
  if negb (R_IS_ACTIVE (state r1)) then R_DO_REPLACE
  else if negb (R_IS_SGROUP (r_type r2)) then R_NOT_REPLACE
  else if negb (R_IS_ACTIVE (r_state r2)) then R_DO_REPLACE
  else if (length (r_addresses r2) =? 0)%nat then
    if r_contains_addrs_from_owner r1 (r_owner r2) then R_DO_SGROUP_MERGE else R_NOT_REPLACE
  else if r_1_is_superset_of_2_address_list r1 r2 true then R_NOT_REPLACE
  else if r_1_is_same_as_2_address_list r1 r2 false then R_DO_REPLACE
  else R_DO_SGROUP_MERGE.

Definition replace_mhomed_replica_vs_X_replica (r1 : winsdb_record) (r2 : wrepl_name) : _R_ACTION :=
  if negb (R_IS_ACTIVE (state r1)) then R_DO_REPLACE
  else if negb (R_IS_SGROUP (r_type r2)) && R_IS_ACTIVE (r_state r2) then R_DO_REPLACE
  else R_NOT_REPLACE.

Definition replace_unique_owned_vs_X_replica (r1 : winsdb_record) (r2 : wrepl_name) : _R_ACTION :=
  if negb (R_IS_ACTIVE (state r1)) then R_DO_REPLACE
  else if negb (R_IS_ACTIVE (r_state r2)) then R_DO_PROPAGATE
  else if R_IS_GROUP (r_type r2) || R_IS_SGROUP (r_type r2) then R_DO_RELEASE_DEMAND
  else if r_1_is_subset_of_2_address_list r1 r2 false then R_DO_REPLACE
  else R_DO_CHALLENGE.

Definition replace_group_owned_vs_X_replica (r1 : winsdb_record) (r2 : wrepl_name) : _R_ACTION :=
  if R_IS_GROUP (type r1) && R_IS_GROUP (r_type r2) &&
     (negb (R_IS_ACTIVE (state r1)) || R_IS_ACTIVE (r_state r2)) then R_DO_REPLACE
  else R_DO_PROPAGATE.

Definition replace_sgroup_owned_vs_X_replica (r1 : winsdb_record) (r2 : wrepl_name) : _R_ACTION :=
  if negb (R_IS_ACTIVE (state r1)) then R_DO_REPLACE
  else if negb (R_IS_SGROUP (r_type r2)) || negb (R_IS_ACTIVE (r_state r2)) then R_DO_PROPAGATE
  else if r_1_is_same_as_2_address_list r1 r2 true then R_NOT_REPLACE
  else R_DO_SGROUP_MERGE.

Definition replace_mhomed_owned_vs_X_replica (r1 : winsdb_record) (r2 : wrepl_name) : _R_ACTION :=
  if negb (R_IS_ACTIVE (state r1)) then R_DO_REPLACE
  else if negb (R_IS_ACTIVE (r_state r2)) then R_DO_PROPAGATE
  else if R_IS_GROUP (r_type r2) || R_IS_SGROUP (r_type r2) then R_DO_RELEASE_DEMAND
  else if r_1_is_subset_of_2_address_list r1 r2 false then R_DO_REPLACE
  else R_DO_CHALLENGE.

Definition replace_replica_vs_replica (r1 : winsdb_record) (r2 : wrepl_name) : _R_ACTION :=
  match type r1 with
  | WREPL_TYPE_UNIQUE => replace_unique_replica_vs_X_replica r1 r2
  | WREPL_TYPE_GROUP => replace_group_replica_vs_X_replica r1 r2
  | WREPL_TYPE_SGROUP => replace_sgroup_replica_vs_X_replica r1 r2
  | WREPL_TYPE_MHOMED => replace_mhomed_replica_vs_X_replica r1 r2
  end.

Definition replace_local_vs_replica (r1 : winsdb_record) (r2 : wrepl_name) : _R_ACTION :=
  match type r1 with
  | WREPL_TYPE_UNIQUE => replace_unique_owned_vs_X_replica r1 r2
  | WREPL_TYPE_GROUP => replace_group_owned_vs_X_replica r1 r2
  | WREPL_TYPE_SGROUP => replace_sgroup_owned_vs_X_replica r1 r2
  | WREPL_TYPE_MHOMED => replace_mhomed_owned_vs_X_replica r1 r2
  end.

(** The decision of [wreplsrv_apply_one_record]. *)
Definition apply_action (h : winsdb_handle) (owner : wrepl_wins_owner) (rec : winsdb_record)
    (replica : wrepl_name) : _R_ACTION :=
  let local_vs_replica := bool_decide (wins_owner rec = local_owner h) in
  let same_owner := negb local_vs_replica && bool_decide (wins_owner rec = o_address owner) in
  let replica_vs_replica := negb local_vs_replica && negb same_owner in
  if is_static rec && negb same_owner then
    if local_vs_replica && negb (r_is_static replica) then R_DO_PROPAGATE else R_NOT_REPLACE
  else if r_is_static replica && negb (is_static rec) && negb same_owner then R_DO_REPLACE
  else if same_owner then replace_same_owner rec replica
  else if replica_vs_replica then replace_replica_vs_replica rec replica
  else if local_vs_replica then replace_local_vs_replica rec replica
  else R_INVALID.

(** ** The actions *)

Section actions.
Context `{TimeCodec} `{LdbQsort} (svc : wreplsrv_service) (now : Z).

Definition new_expire : Z := now + verify_interval svc.

(** The loop over [replica->addresses]. *)
Definition add_replica_addrs (l : list winsdb_addr) (expire : Z) (rs : list wrepl_address)
    : list winsdb_addr :=
  fold_left (fun acc r => winsdb_addr_list_add (wins_db svc) acc (ra_address r) (ra_owner r)
                            expire false) rs l.

(** The record the actions fill in from the replica. *)
Definition record_of_replica (replica : wrepl_name) (ty : wrepl_name_type)
    (l : list winsdb_addr) : winsdb_record :=
  mk_wrec (r_name replica) ty (r_state replica) (r_node replica) (r_is_static replica)
    new_expire (r_version_id replica) (r_owner replica) l None.

Definition r_do_add (owner : wrepl_wins_owner) (replica : wrepl_name) : ST wsrv NTSTATUS :=
  let rec := record_of_replica replica (r_type replica)
               (add_replica_addrs winsdb_addr_list_make new_expire (r_addresses replica)) in
  do ret <- on_db (winsdb_add (wins_db svc) rec 0);
  st_ret (if negb (ret.1 =? NBT_RCODE_OK) then NT_STATUS_FOOBAR else NT_STATUS_OK).

(** Also returns the record, which is changed in place. *)
Definition r_do_replace (rec : winsdb_record) (owner : wrepl_wins_owner) (replica : wrepl_name)
    : ST wsrv (NTSTATUS * winsdb_record) :=
  let rec := record_of_replica replica (r_type replica)
               (add_replica_addrs winsdb_addr_list_make new_expire (r_addresses replica)) in
  do ret <- on_db (winsdb_modify (wins_db svc) rec 0);
  st_ret (if negb (ret.1 =? NBT_RCODE_OK) then NT_STATUS_FOOBAR else NT_STATUS_OK, ret.2).

Definition r_not_replace : ST wsrv NTSTATUS := st_ret NT_STATUS_OK.

Definition TAKE : Z := WINSDB_FLAG_ALLOC_VERSION ||| WINSDB_FLAG_TAKE_OWNERSHIP.

Definition r_do_propagate (rec : winsdb_record) : ST wsrv NTSTATUS :=
  do ret <- on_db (winsdb_modify (wins_db svc) rec TAKE);
  st_ret (if negb (ret.1 =? NBT_RCODE_OK) then NT_STATUS_FOOBAR else NT_STATUS_OK).

(** The loop that adds the old addresses the replica does not have. *)
Definition add_old_addrs (l : list winsdb_addr) (olds : list winsdb_addr)
    (rs : list wrepl_address) : list winsdb_addr :=
  fold_left (fun acc a =>
    if existsb (fun r => bool_decide (ra_address r = address a)) rs then acc
    else winsdb_addr_list_add (wins_db svc) acc (address a) (a_wins_owner a)
           (a_expire_time a) false) olds l.

Definition r_do_mhomed_merge (rec : winsdb_record) (owner : wrepl_wins_owner)
    (replica : wrepl_name) : ST wsrv NTSTATUS :=
  let l := add_replica_addrs winsdb_addr_list_make new_expire (r_addresses replica) in
  let l := add_old_addrs l (addresses rec) (r_addresses replica) in
  do ret <- on_db (winsdb_modify (wins_db svc) (record_of_replica replica WREPL_TYPE_MHOMED l) 0);
  st_ret (if negb (ret.1 =? NBT_RCODE_OK) then NT_STATUS_FOOBAR else NT_STATUS_OK).

Definition r_do_late_release_demand (st : r_do_challenge_state) (out_addrs : list string)
    : ST wsrv NTSTATUS :=
  if negb (nbt_server svc) then st_ret NT_STATUS_INTERNAL_ERROR
  else do! irpc_send (NBTD_PROXY_WINS_RELEASE_DEMAND (r_name (c_replica st)) out_addrs);
       st_ret NT_STATUS_OK.

(** The subset loops of the handler: [False] for no address at all. *)
Definition all_in (l out_addrs : list string) : bool :=
  negb (length l =? 0)%nat &&
  forallb (fun a => existsb (fun b => bool_decide (a = b)) out_addrs) l.

(** [status] and [out_addrs] are what [irpc_call_recv] delivers. *)
Definition r_do_challenge_handler (st : r_do_challenge_state) (status : NTSTATUS)
    (out_addrs : list string) : ST wsrv unit :=
  if NT_STATUS_EQUAL NT_STATUS_IO_TIMEOUT status ||
     NT_STATUS_EQUAL NT_STATUS_OBJECT_NAME_NOT_FOUND status then
    do! r_do_replace (c_rec st) (c_owner st) (c_replica st); st_ret tt
  else if negb (all_in (List.map ra_address (r_addresses (c_replica st))) out_addrs) then
    do! r_not_replace; st_ret tt
  else if negb (all_in (List.map address (addresses (c_rec st))) out_addrs) then
    do! r_do_late_release_demand st out_addrs; st_ret tt
  else do! r_do_mhomed_merge (c_rec st) (c_owner st) (c_replica st); st_ret tt.

Definition r_do_challenge (rec : winsdb_record) (owner : wrepl_wins_owner)
    (replica : wrepl_name) : ST wsrv NTSTATUS :=
  let replica' := mk_replica (name rec) (r_type replica) (r_state replica) (r_node replica)
                    (r_is_static replica) (r_version_id replica) (r_owner replica)
                    (r_addresses replica) in
  if negb (nbt_server svc) then st_ret NT_STATUS_INTERNAL_ERROR
  else
    do! irpc_send (NBTD_PROXY_WINS_CHALLENGE (name rec) (winsdb_addr_string_list (addresses rec))
                     (mk_chal rec owner replica'));
    st_ret NT_STATUS_OK.

Definition r_do_release_demand (rec : winsdb_record) (owner : wrepl_wins_owner)
    (replica : wrepl_name) : ST wsrv NTSTATUS :=
  let old := addresses rec in
  do r <- r_do_replace rec owner replica;
  if negb (NT_STATUS_IS_OK r.1) then st_ret r.1
  else if negb (nbt_server svc) then st_ret NT_STATUS_INTERNAL_ERROR
  else
    do! irpc_send (NBTD_PROXY_WINS_RELEASE_DEMAND (name r.2) (winsdb_addr_string_list old));
    st_ret NT_STATUS_OK.

(** The first loop of [r_do_sgroup_merge]: the old addresses that stay, and
    [changed_old_addrs]. *)
Fixpoint sgroup_old_addrs (owner_address : string) (rs : list wrepl_address)
    (olds : list winsdb_addr) (acc : list winsdb_addr) (changed : bool)
    : list winsdb_addr * bool :=
  match olds with
  | [] => (acc, changed)
  | a :: olds' =>
      let found := List.find (fun r => bool_decide (address a = ra_address r)) rs in
      let changed := match found with
                     | Some r => if negb (bool_decide (a_wins_owner a = ra_owner r)) then true
                                 else changed
                     | None => changed
                     end in
      if match found with Some _ => false | None => true end &&
         bool_decide (a_wins_owner a = owner_address)
      then sgroup_old_addrs owner_address rs olds' acc true
      else sgroup_old_addrs owner_address rs olds'
             (winsdb_addr_list_add (wins_db svc) acc (address a) (a_wins_owner a)
                (a_expire_time a) false) changed
  end.

(** The addresses of the merged record, and whether we become its owner. *)
Definition sgroup_merge_result (rec : winsdb_record) (owner : wrepl_wins_owner)
    (replica : wrepl_name) : list winsdb_addr * bool :=
  let '(l, changed_old_addrs) :=
    sgroup_old_addrs (o_address owner) (r_addresses replica) (addresses rec)
      winsdb_addr_list_make false in
  let l := add_replica_addrs l new_expire (r_addresses replica) in
  let become_owner := if changed_old_addrs then false else true in
  let become_owner := if bool_decide (wins_owner rec = local_owner (wins_db svc)) then true
                      else become_owner in
  let become_owner := if (length l =? 0)%nat then true else become_owner in
  (l, become_owner).

Definition r_do_sgroup_merge (rec : winsdb_record) (owner : wrepl_wins_owner)
    (replica : wrepl_name) : ST wsrv NTSTATUS :=
  let '(l, become_owner) := sgroup_merge_result rec owner replica in
  let modify_flags := if become_owner then TAKE else 0 in
  do ret <- on_db (winsdb_modify (wins_db svc)
                     (record_of_replica replica (r_type replica) l) modify_flags);
  st_ret (if negb (ret.1 =? NBT_RCODE_OK) then NT_STATUS_FOOBAR else NT_STATUS_OK).

Definition wreplsrv_apply_one_record (owner : wrepl_wins_owner) (replica : wrepl_name)
    : ST wsrv NTSTATUS :=
  do found <- on_db (winsdb_lookup (wins_db svc) (r_name replica) now);
  match found with
  | inl status =>
      if NT_STATUS_EQUAL NT_STATUS_OBJECT_NAME_NOT_FOUND status then r_do_add owner replica
      else st_ret status
  | inr rec =>
      match apply_action (wins_db svc) owner rec replica with
      | R_INVALID => st_ret NT_STATUS_INTERNAL_ERROR
      | R_DO_REPLACE => do r <- r_do_replace rec owner replica; st_ret r.1
      | R_NOT_REPLACE => r_not_replace
      | R_DO_PROPAGATE => r_do_propagate rec
      | R_DO_CHALLENGE => r_do_challenge rec owner replica
      | R_DO_RELEASE_DEMAND => r_do_release_demand rec owner replica
      | R_DO_SGROUP_MERGE => r_do_sgroup_merge rec owner replica
      end
  end.

(** ** The owner table *)

Definition set_table (t : list wrepl_wins_owner) : ST wsrv unit :=
  st_modify (fun s => mk_wsrv (ws_db s) (ws_msgs s) t (ws_owner_set s)).

Definition entry_is (a : string) (e : wrepl_wins_owner) : bool := bool_decide (o_address e = a).

(** The index of the entry; the local one is refreshed from the database. *)
Definition wreplsrv_find_owner (a : string) : ST wsrv (option nat) :=
  do s <- st_get;
  match find_idx (entry_is a) (ws_table s) with
  | None => st_ret None
  | Some i =>
      if ws_owner_set s && bool_decide (a = local_owner (wins_db svc)) then
        do v <- on_db winsdb_get_maxVersion;
        do! set_table (<[i := mk_wowner a v]> (ws_table s));
        st_ret (Some i)
      else st_ret (Some i)
  end.

Definition wreplsrv_add_table (owner : option string) (v : Z) : ST wsrv NTSTATUS :=
  let a := match owner with
           | None => local_owner (wins_db svc)
           | Some o => if bool_decide (o = "0.0.0.0"%string) then local_owner (wins_db svc) else o
           end in
  do cur <- wreplsrv_find_owner a;
  do s <- st_get;
  let t := match cur with Some _ => ws_table s | None => ws_table s ++ [mk_wowner a 0] end in
  let i := match cur with Some i => i | None => length (ws_table s) end in
  do! set_table t;
  if default 0 (o_max_version <$> t !! i) <? v then
    do! set_table (<[i := mk_wowner a v]> t);
    (* a new entry is not [service->owner] *)
    if ws_owner_set s && match cur with Some _ => true | None => false end &&
       bool_decide (a = local_owner (wins_db svc)) then
      do ret <- on_db (winsdb_set_maxVersion v);
      st_ret (if negb (ret =? v) then NT_STATUS_INTERNAL_DB_CORRUPTION else NT_STATUS_OK)
    else st_ret NT_STATUS_OK
  else st_ret NT_STATUS_OK.

(** The loop of [wreplsrv_apply_records]. *)
Fixpoint apply_each (owner : wrepl_wins_owner) (names : list wrepl_name) : ST wsrv NTSTATUS :=
  match names with
  | [] => st_ret NT_STATUS_OK
  | n :: names' =>
      do status <- wreplsrv_apply_one_record owner n;
      if negb (NT_STATUS_IS_OK status) then st_ret status else apply_each owner names'
  end.

Definition wreplsrv_apply_records (owner : wrepl_wins_owner) (names : list wrepl_name)
    : ST wsrv NTSTATUS :=
  do status <- apply_each owner names;
  if negb (NT_STATUS_IS_OK status) then st_ret status
  else wreplsrv_add_table (Some (o_address owner)) (o_max_version owner).
End actions.

(** ** The documented decision tables

    The comments above the decision functions list, for each combination of
    types and states, whether the incoming replica replaces the record.  The
    tables below are those lists: [replica_table] for records of another owner,
    [owned_table] for our own records.  Combinations whose outcome depends on
    the addresses are not in them. *)

Inductive verdict : Set := Replace | NotReplace | Challenged | Merge.

Definition verdict_of (a : _R_ACTION) : option verdict :=
  match a with
  | R_DO_REPLACE | R_DO_RELEASE_DEMAND => Some Replace
  | R_NOT_REPLACE | R_DO_PROPAGATE => Some NotReplace
  | R_DO_CHALLENGE => Some Challenged
  | R_DO_SGROUP_MERGE => Some Merge
  | R_INVALID => None
  end.

Record row : Set := Row {
  row_type1 : wrepl_name_type; row_state1 : wrepl_name_state;
  row_type2 : wrepl_name_type; row_state2 : wrepl_name_state;
  row_verdict : verdict
}.

Module Tables.
Abbreviation U := WREPL_TYPE_UNIQUE.
Abbreviation G := WREPL_TYPE_GROUP.
Abbreviation S := WREPL_TYPE_SGROUP.
Abbreviation M := WREPL_TYPE_MHOMED.
Abbreviation A := WREPL_STATE_ACTIVE.
Abbreviation R := WREPL_STATE_RELEASED.
Abbreviation T := WREPL_STATE_TOMBSTONE.
Abbreviation yes := Replace.
Abbreviation no := NotReplace.

(** UNIQUE and MHOMED replicas (lines 153-176 and 329-352). *)
Definition unique_like (t : wrepl_name_type) : list row :=
  [Row t A U A yes; Row t A U T no; Row t R U A yes; Row t R U T yes; Row t T U A yes; Row t T U T yes;
   Row t A G A yes; Row t A G T no; Row t R G A yes; Row t R G T yes; Row t T G A yes; Row t T G T yes;
   Row t A S A no; Row t A S T no; Row t R S A yes; Row t R S T yes; Row t T S A yes; Row t T S T yes;
   Row t A M A yes; Row t A M T no; Row t R M A yes; Row t R M T yes; Row t T M A yes; Row t T M T yes].

(** GROUP replicas (lines 195-218), less line 209 ([group_line_209]). *)
Definition group : list row :=
  [Row G A U A no; Row G A U T no; Row G R U A no; Row G R U T no; Row G T U A no; Row G T U T no;
   Row G A G A no; Row G A G T no; Row G R G A yes; Row G R G T yes; Row G T G A yes; Row G T G T yes;
   Row G A S A no; Row G A S T no; Row G R S T no; Row G T S A yes; Row G T S T yes;
   Row G A M A no; Row G A M T no; Row G R M A no; Row G R M T no; Row G T M A yes; Row G T M T yes].

Definition group_line_209 : row := Row G R S A yes.

(** SGROUP replicas (lines 237-258 and 277-280). *)
Definition sgroup : list row :=
  [Row S A U A no; Row S A U T no; Row S R U A yes; Row S R U T yes; Row S T U A yes; Row S T U T yes;
   Row S A G A no; Row S A G T no; Row S R G A yes; Row S R G T yes; Row S T G A yes; Row S T G T yes;
   Row S R S A yes; Row S R S T yes; Row S T S A yes; Row S T S T yes;
   Row S A M A no; Row S A M T no; Row S R M A yes; Row S R M T yes; Row S T M A yes; Row S T M T yes;
   Row S A S T yes].

Definition replica_table : list row := unique_like U ++ group ++ sgroup ++ unique_like M.

(** Owned UNIQUE and MHOMED records (lines 371-413 and 576-625). *)
Definition owned_unique_like (t : wrepl_name_type) : list row :=
  [Row t A U T no; Row t A G A yes; Row t A G T no; Row t A S A yes; Row t A S T no; Row t A M T no;
   Row t R U A yes; Row t R U T yes; Row t R G A yes; Row t R G T yes;
   Row t R S A yes; Row t R S T yes; Row t R M A yes; Row t R M T yes].

(** Owned GROUP records (lines 457-491). *)
Definition owned_group : list row :=
  [Row G A U A no; Row G A U T no; Row G A G A yes; Row G A G T no;
   Row G A S A no; Row G A S T no; Row G A M A no; Row G A M T no;
   Row G R U A no; Row G R U T no; Row G R G A yes; Row G R G T yes;
   Row G R S A no; Row G R S T no; Row G R M A no; Row G R M T no].

(** Owned SGROUP records (lines 507-549). *)
Definition owned_sgroup : list row :=
  [Row S A U A no; Row S A U T no; Row S A G A no; Row S A G T no; Row S A M A no; Row S A M T no;
   Row S A S T no;
   Row S R U A yes; Row S R U T yes; Row S R G A yes; Row S R G T yes;
   Row S R S A yes; Row S R S T yes; Row S R M A yes; Row S R M T yes].

Definition owned_table : list row :=
  owned_unique_like U ++ owned_group ++ owned_sgroup ++ owned_unique_like M.
End Tables.

(** [r1] and [r2] are a pair the row is about. *)
Definition row_matches (x : row) (r1 : winsdb_record) (r2 : wrepl_name) : Prop :=
  type r1 = row_type1 x /\ state r1 = row_state1 x /\
  r_type r2 = row_type2 x /\ r_state r2 = row_state2 x.

Definition row_agrees (decide : winsdb_record -> wrepl_name -> _R_ACTION) (x : row) : Prop :=
  forall r1 r2, row_matches x r1 r2 -> verdict_of (decide r1 r2) = Some (row_verdict x).

(** Check every row by evaluation. *)
Ltac check_rows :=
  repeat first [apply List.Forall_nil | apply List.Forall_cons];
  intros [] []; intros (E1 & E2 & E3 & E4); simpl in E1, E2, E3, E4; subst; reflexivity.

Lemma replica_table_agrees : Forall (row_agrees replace_replica_vs_replica) Tables.replica_table.
Proof.
  cbv [Tables.replica_table Tables.unique_like Tables.group Tables.sgroup app]. check_rows.
Qed.

Lemma owned_table_agrees : Forall (row_agrees replace_local_vs_replica) Tables.owned_table.
Proof.
  cbv [Tables.owned_table Tables.owned_unique_like Tables.owned_group Tables.owned_sgroup app].
  check_rows.
Qed.

(** The decision functions follow the tables in their comments, but for one
    line.  For every listed pair of types and states, and whatever the
    addresses, names and versions are, the code's action has the documented
    verdict; the pairs left to the addresses are decided by the subset and
    identity tests; and for line 209, a released GROUP replica against an
    active SGROUP one, the code says NOT REPLACE where the comment says
    REPLACE. *)
Theorem decision_tables_agree :
  (forall x, x ∈ Tables.replica_table -> row_agrees replace_replica_vs_replica x) /\
  (forall x, x ∈ Tables.owned_table -> row_agrees replace_local_vs_replica x) /\
  (forall r1 r2, type r1 = WREPL_TYPE_UNIQUE \/ type r1 = WREPL_TYPE_MHOMED ->
     r_type r2 = WREPL_TYPE_UNIQUE \/ r_type r2 = WREPL_TYPE_MHOMED ->
     state r1 = WREPL_STATE_ACTIVE -> r_state r2 = WREPL_STATE_ACTIVE ->
     verdict_of (replace_local_vs_replica r1 r2) =
     Some (if r_1_is_subset_of_2_address_list r1 r2 false then Replace else Challenged)) /\
  (forall r1 r2, type r1 = WREPL_TYPE_SGROUP -> r_type r2 = WREPL_TYPE_SGROUP ->
     state r1 = WREPL_STATE_ACTIVE -> r_state r2 = WREPL_STATE_ACTIVE ->
     verdict_of (replace_local_vs_replica r1 r2) =
     Some (if r_1_is_same_as_2_address_list r1 r2 true then NotReplace else Merge)) /\
  (forall r1 r2, row_matches Tables.group_line_209 r1 r2 ->
     verdict_of (replace_replica_vs_replica r1 r2) = Some NotReplace).
Proof.
  split; [|split; [|split; [|split]]].
  - apply Forall_forall, replica_table_agrees.
  - apply Forall_forall, owned_table_agrees.
  - intros r1 r2 [E1|E1] [E3|E3] E2 E4; unfold replace_local_vs_replica,
      replace_unique_owned_vs_X_replica, replace_mhomed_owned_vs_X_replica;
      rewrite E1, E2, E3, E4; simpl; by destruct (r_1_is_subset_of_2_address_list r1 r2 false).
  - intros r1 r2 E1 E3 E2 E4. unfold replace_local_vs_replica, replace_sgroup_owned_vs_X_replica.
    rewrite E1, E2, E3, E4; simpl. by destruct (r_1_is_same_as_2_address_list r1 r2 true).
  - intros r1 r2 (E1 & E2 & E3 & E4). simpl in *.
    unfold replace_replica_vs_replica, replace_group_replica_vs_X_replica.
    rewrite E1, E2, E3. reflexivity.
Qed.

(** ** What applying a record changes *)

Section frame.
Context `{TimeCodec} `{LdbQsort} (svc : wreplsrv_service) (now : Z).

(** However the LDB calls fail, [m] changes no record but that of [dn], and every
    message stays where its name says. *)
Definition only_changes {A} (dn : wins_dn) (m : ST wsrv A) : Prop :=
  forall s, named (ws_db s) -> named (ws_db (m s).2) /\
    forall dn', dn' <> dn -> wdb_recs (ws_db (m s).2) !! dn' = wdb_recs (ws_db s) !! dn'.

Lemma only_changes_ret {A} dn (a : A) : only_changes dn (st_ret a).
Proof. by intros s Hs. Qed.

Lemma only_changes_bind {A B} dn (m : ST wsrv A) (k : A -> ST wsrv B) :
  only_changes dn m -> (forall a, only_changes dn (k a)) -> only_changes dn (st_bind m k).
Proof.
  intros Hm Hk s Hs. unfold st_bind. destruct (Hm s Hs) as [Hs' Hf]. destruct (m s) as [a s'].
  destruct (Hk a s' Hs') as [Hs2 Hf2]. split; [done|]. intros dn' Hd. by rewrite Hf2, Hf.
Qed.

Lemma only_changes_send dn x : only_changes dn (irpc_send x).
Proof. by intros s Hs. Qed.

Lemma only_changes_add h rec flags : clean_name (name rec) ->
  only_changes (wins_key (name rec)) (on_db (winsdb_add h rec flags)).
Proof.
  intros Hc s Hs. unfold on_db. pose proof (add_named h rec flags (ws_db s) Hc Hs) as Hn.
  pose proof (add_frame h rec flags (ws_db s)) as Hf.
  by destruct (winsdb_add h rec flags (ws_db s)) as [a w].
Qed.

Lemma only_changes_modify h rec flags :
  only_changes (wins_key (name rec)) (on_db (winsdb_modify h rec flags)).
Proof.
  intros s Hs. unfold on_db. pose proof (modify_named h rec flags (ws_db s) Hs) as Hn.
  pose proof (modify_frame h rec flags (ws_db s)) as Hf.
  by destruct (winsdb_modify h rec flags (ws_db s)) as [a w].
Qed.

(** What does not touch the records. *)
Lemma only_changes_keeps {A} dn (m : ST wsrv A) : keeps (fun s => wdb_recs (ws_db s)) m -> only_changes dn m.
Proof. intros Hk s Hs. split; [by apply (named_view (ws_db s))|]. intros dn' _. by rewrite Hk. Qed.
End frame.

#[export] Hint Resolve only_changes_ret only_changes_bind only_changes_send only_changes_add
  only_changes_modify : samba.

(** Walk through the binds and conditionals of an action. *)
Ltac frame_walk :=
  repeat match goal with
  | |- forall _, _ => intro
  | |- only_changes _ (if _ then _ else _) => case_match
  | |- only_changes _ (match _ with _ => _ end) => case_match
  | |- only_changes _ (st_bind _ _) => apply only_changes_bind
  end; auto with samba.

Section frame_actions.
Context `{TimeCodec} `{LdbQsort} (svc : wreplsrv_service) (now : Z) (owner : wrepl_wins_owner).

Lemma frame_add replica : clean_name (r_name replica) ->
  only_changes (wins_key (r_name replica)) (r_do_add svc now owner replica).
Proof. intros Hc. unfold r_do_add. frame_walk.
  by apply (only_changes_add (wins_db svc) (record_of_replica svc now replica _ _) _).
Qed.

Lemma frame_replace rec replica :
  only_changes (wins_key (r_name replica)) (r_do_replace svc now rec owner replica).
Proof. unfold r_do_replace. frame_walk.
  all: exact (only_changes_modify (wins_db svc) (record_of_replica svc now replica _ _) _).
Qed.

Lemma frame_propagate rec :
  only_changes (wins_key (name rec)) (r_do_propagate svc rec).
Proof. unfold r_do_propagate. frame_walk. Qed.

Lemma frame_challenge dn rec replica : only_changes dn (r_do_challenge svc rec owner replica).
Proof. unfold r_do_challenge. frame_walk. Qed.

Lemma frame_release_demand rec replica :
  only_changes (wins_key (r_name replica)) (r_do_release_demand svc now rec owner replica).
Proof. unfold r_do_release_demand. frame_walk. apply frame_replace. Qed.

Lemma frame_sgroup_merge rec replica :
  only_changes (wins_key (r_name replica)) (r_do_sgroup_merge svc now rec owner replica).
Proof. unfold r_do_sgroup_merge. frame_walk.
  all: exact (only_changes_modify (wins_db svc) (record_of_replica svc now replica _ _) _).
Qed.

Lemma frame_action rec replica :
  wins_key (name rec) = wins_key (r_name replica) ->
  only_changes (wins_key (r_name replica))
    match apply_action (wins_db svc) owner rec replica with
    | R_INVALID => st_ret NT_STATUS_INTERNAL_ERROR
    | R_DO_REPLACE => do r <- r_do_replace svc now rec owner replica; st_ret r.1
    | R_NOT_REPLACE => r_not_replace
    | R_DO_PROPAGATE => r_do_propagate svc rec
    | R_DO_CHALLENGE => r_do_challenge svc rec owner replica
    | R_DO_RELEASE_DEMAND => r_do_release_demand svc now rec owner replica
    | R_DO_SGROUP_MERGE => r_do_sgroup_merge svc now rec owner replica
    end.
Proof.
  intros Hn. case_match; frame_walk.
  - apply frame_replace.
  - apply only_changes_ret.
  - rewrite <- Hn. apply frame_propagate.
  - apply frame_challenge.
  - apply frame_release_demand.
  - apply frame_sgroup_merge.
Qed.

Lemma frame_apply_one replica : clean_name (r_name replica) ->
  only_changes (wins_key (r_name replica)) (wreplsrv_apply_one_record svc now owner replica).
Proof.
  intros Hc s Hs. remember (wreplsrv_apply_one_record svc now owner replica s) as out eqn:Eo.
  unfold wreplsrv_apply_one_record, st_bind at 1, on_db at 1 in Eo.
  pose proof (winsdb_lookup_spec (wins_db svc) (r_name replica) now (ws_db s)) as Hl.
  destruct (winsdb_lookup _ _ _ _) as [[st|rec] w]; destruct Hl as ([Hr _] & _ & Hl); set (s1 := mk_wsrv w _ _ _) in Eo.
  all: assert (named (ws_db s1)) as Hs1 by (by apply (named_view (ws_db s))).
  - assert (only_changes (wins_key (r_name replica))
      (if NT_STATUS_EQUAL NT_STATUS_OBJECT_NAME_NOT_FOUND st then r_do_add svc now owner replica else st_ret st)) as Ho
      by (case_match; [by apply frame_add|apply only_changes_ret]).
    destruct (Ho s1 Hs1) as [Hn Hf]. rewrite <- Eo in *. split; [done|].
    intros dn' Hd. rewrite Hf by done. simpl. by rewrite Hr.
  - destruct Hl as (msg & Hm & Hrec). pose proof (record_of_cases (wins_db svc) msg now) as Hn. rewrite Hrec in Hn.
    destruct (frame_action rec replica (Hs _ _ _ Hm Hn) s1 Hs1) as [Hn1 Hf]. rewrite <- Eo in *. split; [done|].
    intros dn' Hd. rewrite Hf by done. simpl. by rewrite Hr.
Qed.

Lemma keeps_add_table a v : keeps (fun s => wdb_recs (ws_db s)) (wreplsrv_add_table svc a v).
Proof.
  assert (Hg : keeps (fun s => wdb_recs (ws_db s)) (on_db winsdb_get_maxVersion)).
  { intros s. unfold on_db, winsdb_get_maxVersion, ldb_search_version, st_bind, st_get, st_ret.
    next_ldb_fault; simpl; congruence. }
  assert (Hm : forall v, keeps (fun s => wdb_recs (ws_db s)) (on_db (winsdb_set_maxVersion v))).
  { intros v' s. unfold on_db. pose proof (set_maxVersion_recs v' (ws_db s)) as Hr.
    by destruct (winsdb_set_maxVersion v' (ws_db s)). }
  assert (Ht : forall t, keeps (fun s => wdb_recs (ws_db s)) (set_table t)) by (by intros t s).
  unfold wreplsrv_add_table, wreplsrv_find_owner.
  assert (Hs : keeps (fun s => wdb_recs (ws_db s)) (@st_get wsrv)) by (by intros s).
  keeps_walk.
Qed.
End frame_actions.

(** Applying the records of a partner touches no other name.  In a database
    where every message is where its name says, for replicas whose names the
    database can hold, whichever LDB calls fail and however far the loop gets, a
    record whose name is not among the replicas is what it was. *)
Theorem apply_records_frame `{TimeCodec} `{LdbQsort} svc now owner names s dn :
  named (ws_db s) -> Forall (fun n => clean_name (r_name n)) names ->
  (forall n, n ∈ names -> wins_key (r_name n) <> dn) ->
  wdb_recs (ws_db (wreplsrv_apply_records svc now owner names s).2) !! dn =
  wdb_recs (ws_db s) !! dn.
Proof.
  intros Hs Hc Hn.
  assert (He : wdb_recs (ws_db (apply_each svc now owner names s).2) !! dn = wdb_recs (ws_db s) !! dn).
  { revert s Hs Hn. induction Hc as [|n names Hc Hcs IH]; intros s Hs Hn; simpl; [done|].
    unfold st_bind. destruct (frame_apply_one svc now owner n Hc s Hs) as [Hs1 Hf].
    destruct (wreplsrv_apply_one_record svc now owner n s) as [st s1]. simpl in Hs1, Hf.
    rewrite <- Hf by (symmetry; apply Hn; left). case_match; [done|].
    apply IH; [done|]. intros m Hm. apply Hn. by right. }
  unfold wreplsrv_apply_records, st_bind.
  destruct (apply_each svc now owner names s) as [st s1]. simpl in He. rewrite <- He.
  case_match; [done|]. by rewrite keeps_add_table.
Qed.

(** ** Static records *)

Lemma static_action h owner rec replica :
  is_static rec = true -> wins_owner rec = local_owner h \/ wins_owner rec <> o_address owner ->
  apply_action h owner rec replica =
  if bool_decide (wins_owner rec = local_owner h) && negb (r_is_static replica)
  then R_DO_PROPAGATE else R_NOT_REPLACE.
Proof.
  intros Hs Ho. unfold apply_action. cbv zeta. rewrite Hs.
  replace (negb (bool_decide (wins_owner rec = local_owner h)) &&
           bool_decide (wins_owner rec = o_address owner)) with false.
  - cbn [negb andb]. by destruct (bool_decide _ && _).
  - destruct Ho as [Ho|Ho]; [by rewrite (bool_decide_eq_true_2 _ Ho)|].
    by rewrite (bool_decide_eq_false_2 _ Ho), andb_false_r.
Qed.

(** C32: a static record is safe from other owners' replicas.  When the record of
    the name is static and not of the owner the replica comes from, applying
    the replica, whichever LDB calls fail, either leaves the stored record as
    it is, or, for a record of our own, stores the very same record under a new
    version so that it is replicated back. *)
Theorem static_record_protected `{TimeCodec} `{LdbQsort} svc now owner replica s msg rec :
  let dn := wins_key (r_name replica) in
  wdb_recs (ws_db s) !! dn = Some msg ->
  winsdb_record_of (wins_db svc) msg now = inr rec ->
  is_static rec = true ->
  wins_owner rec = local_owner (wins_db svc) \/ wins_owner rec <> o_address owner ->
  let s' := (wreplsrv_apply_one_record svc now owner replica s).2 in
  wdb_recs (ws_db s') !! dn = Some msg \/
  (wins_owner rec = local_owner (wins_db svc) /\ r_is_static replica = false /\
   exists v, wdb_recs (ws_db s') !! dn =
             Some (ldb_replace msg (winsdb_message (winsdb_fixup (set_version rec v))).1)).
Proof.
  intros dn Hm Hrec Hst Ho s'.
  assert (Hs' : s' = (wreplsrv_apply_one_record svc now owner replica s).2) by done. clearbody s'.
  unfold wreplsrv_apply_one_record, st_bind at 1, on_db at 1 in Hs'.
  pose proof (winsdb_lookup_spec (wins_db svc) (r_name replica) now (ws_db s)) as Hl.
  destruct (winsdb_lookup _ _ _ _) as [[st|rec'] w]; destruct Hl as ([Hr _] & _ & Hl).
  - left. rewrite <- Hm, <- Hr. unfold NT_STATUS_EQUAL in Hs'.
    case_bool_decide; [|by subst s'].
    (* a failed search; an add of an existing name is refused *)
    unfold r_do_add, st_bind, on_db, st_ret in Hs'. cbn [ws_db] in Hs'.
    match type of Hs' with context [winsdb_add ?h ?r ?f ?w'] =>
      pose proof (add_existing h r f w') as Hs; destruct (winsdb_add h r f w') as [[rc r'] w1] end.
    subst s'. cbn [snd ws_db] in *. rewrite Hs; [done|]. change (is_Some (wdb_recs w !! dn)). rewrite Hr, Hm. by eexists.
  - destruct Hl as (msg' & Hm' & Hrec'). fold dn in Hm'.
    assert (rec' = rec) as -> by congruence.
    rewrite (static_action _ _ _ _ Hst Ho) in Hs'.
    destruct (bool_decide (wins_owner rec = local_owner (wins_db svc))) eqn:Eo;
      [|left; subst s'; simpl; by rewrite Hr].
    destruct (r_is_static replica) eqn:Er; [left; subst s'; simpl; by rewrite Hr|].
    apply bool_decide_eq_true in Eo. cbn [andb negb] in Hs'.
    unfold r_do_propagate, st_bind, on_db, st_ret in Hs'. cbn [ws_db] in Hs'.
    rewrite <- Hr in Hm. destruct (decide (dn = wins_key (name rec))) as [En|En].
    + pose proof (modify_existing (wins_db svc) rec TAKE w msg) as Hs. rewrite <- En in Hs. specialize (Hs Hm).
      destruct (winsdb_modify (wins_db svc) rec TAKE w) as [[rc r'] w1]. subst s'. cbn [snd ws_db].
      destruct Hs as [Hs|[Hr' Hs]]; [by left|]. right. split; [done|]. split; [done|].
      exists (version r'). rewrite Hs. rewrite Hr' at 1. do 4 f_equal.
      unfold owned_as. change (TAKE &? WINSDB_FLAG_TAKE_OWNERSHIP) with true.
      rewrite <- Eo. by destruct rec.
    + left. pose proof (modify_frame (wins_db svc) rec TAKE w dn En) as Hs.
      destruct (winsdb_modify (wins_db svc) rec TAKE w) as [[rc r'] w1]. subst s'. cbn [snd ws_db] in *. congruence.
Qed.

(** ** Merging special groups *)

Section merge.
Context `{TimeCodec} `{LdbQsort} (svc : wreplsrv_service) (now : Z).

Lemma add_replica_addrs_elem expire rs : forall l,
  0 <= expire < 2 ^ 31 -> list_ok l -> NoDup (List.map ra_address rs) ->
  (length l + length rs <= 25)%nat ->
  let l' := add_replica_addrs svc l expire rs in
  list_ok l' /\ (length l' <= length l + length rs)%nat /\
  (forall x, x ∈ l' <->
     (exists r, r ∈ rs /\ x = mk_addr (ra_address r) (ra_owner r) expire) \/
     (x ∈ l /\ (address x ∉ List.map ra_address rs))).
Proof.
  induction rs as [|r rs IH]; intros l He Hl Hn Hlen; simpl in *.
  { split; [done|]. split; [lia|]. intros x. split; [intros Hx; right; split; [done|set_solver]|].
    intros [(r & Hr & _)|[Hx _]]; [inversion Hr|done]. }
  apply NoDup_cons in Hn as [Hr Hn].
  destruct (list_add_elem (wins_db svc) l (ra_address r) (ra_owner r) expire false Hl He ltac:(lia))
    as (Hl1 & Hlen1 & Hel1). fold (add_replica_addrs svc
      (winsdb_addr_list_add (wins_db svc) l (ra_address r) (ra_owner r) expire false) expire rs).
  destruct (IH _ He Hl1 Hn ltac:(lia)) as (Hl2 & Hlen2 & Hel2).
  split; [done|]. split; [lia|]. intros x. rewrite Hel2, Hel1. split.
  - intros [(r' & Hr' & ->)|[[->|[Hx Ha]] Hx']].
    + left. exists r'. split; [by right|done].
    + left. exists r. split; [left|done].
    + right. split; [done|]. rewrite not_elem_of_cons. done.
  - intros [(r' & Hr' & ->)|[Hx Hx']].
    + apply elem_of_cons in Hr' as [->|Hr']; [right; simpl; by auto|left; by exists r'].
    + rewrite not_elem_of_cons in Hx'. right. naive_solver.
Qed.

(** An old address the merge drops, and one it changes. *)
Definition dropped (owner_address : string) (rs : list wrepl_address) (a : winsdb_addr) : Prop :=
  (address a ∉ List.map ra_address rs) /\ a_wins_owner a = owner_address.

Definition reowned (rs : list wrepl_address) (a : winsdb_addr) : Prop :=
  exists r, r ∈ rs /\ ra_address r = address a /\ ra_owner r <> a_wins_owner a.

Lemma find_replica rs a :
  NoDup (List.map ra_address rs) ->
  match List.find (fun r => bool_decide (address a = ra_address r)) rs with
  | None => address a ∉ List.map ra_address rs
  | Some r => (address a ∈ List.map ra_address rs) /\
              (reowned rs a <-> ra_owner r <> a_wins_owner a)
  end.
Proof.
  intros Hn. destruct (List.find _ rs) as [r|] eqn:Ef.
  - apply List.find_some in Ef as [Hin Ha]. apply bool_decide_eq_true in Ha. split.
    + rewrite Ha. by apply list_elem_of_In, in_map.
    + split; [|intros Ho; exists r; split; [by apply list_elem_of_In|done]].
      intros (r' & Hr' & Ha' & Ho). assert (r' = r) as ->; [|done].
      apply list_elem_of_lookup in Hr' as [i Hi]. apply list_elem_of_In, list_elem_of_lookup in Hin as [j Hj].
      assert (i = j) as ->; [|congruence].
      eapply (NoDup_lookup (ra_address <$> rs)); [done|..]; rewrite list_lookup_fmap.
      * by rewrite Hi.
      * rewrite Hj. simpl. congruence.
  - intros Hin. apply list_elem_of_In, in_map_iff in Hin as (r & Hr & Hin).
    pose proof (List.find_none _ _ Ef r Hin) as Hf. simpl in Hf.
    by apply bool_decide_eq_false in Hf.
Qed.

Lemma sgroup_old_addrs_elem oa rs : NoDup (List.map ra_address rs) -> forall olds acc changed,
  distinct (acc ++ olds) -> times_ok (acc ++ olds) -> (length (acc ++ olds) <= 25)%nat ->
  let '(l', changed') := sgroup_old_addrs svc oa rs olds acc changed in
  list_ok l' /\ (length l' <= length (acc ++ olds))%nat /\
  (forall x, x ∈ l' <-> x ∈ acc \/ (x ∈ olds /\ ~ dropped oa rs x)) /\
  (changed' = true <-> changed = true \/ exists a, a ∈ olds /\ (dropped oa rs a \/ reowned rs a)).
Proof.
  intros Hn olds. induction olds as [|a olds IH]; intros acc changed Hd Ht Hlen; simpl.
  { rewrite app_nil_r in *. split; [by split|]. split; [lia|]. split; set_solver. }
  pose proof (find_replica rs a Hn) as Hf.
  assert (Hmid : Permutation (acc ++ a :: olds) ((a :: acc) ++ olds))
    by (symmetry; apply Permutation_middle).
  assert (Hstep : forall c, ~ dropped oa rs a ->
    (c = true <-> changed = true \/ reowned rs a) ->
    let '(l', changed') := sgroup_old_addrs svc oa rs olds (winsdb_addr_list_add (wins_db svc) acc
           (address a) (a_wins_owner a) (a_expire_time a) false) c in
    list_ok l' /\ (length l' <= length (acc ++ a :: olds))%nat /\
    (forall x, x ∈ l' <-> x ∈ acc \/ (x ∈ a :: olds /\ ~ dropped oa rs x)) /\
    (changed' = true <->
       changed = true \/ exists y, y ∈ a :: olds /\ (dropped oa rs y \/ reowned rs y))).
  { intros c Hnd Hc.
    pose proof (times_ok_perm _ _ Hmid Ht) as Ht1. apply times_ok_app in Ht1 as [Ht1 _].
    pose proof (distinct_perm _ _ Hmid Hd) as Hd1.
    assert (Hd2 : distinct (a :: acc)).
    { unfold distinct in *. rewrite List.map_app in Hd1. by apply NoDup_app in Hd1 as (Hd1 & _ & _). }
    assert (Hl1 : (length acc < 25)%nat) by (rewrite length_app in Hlen; simpl in Hlen; lia).
    pose proof (list_add_fresh (wins_db svc) acc a false Ht1 Hd2 Hl1) as Hp.
    set (acc' := winsdb_addr_list_add _ _ _ _ _ _) in *.
    assert (Hp' : Permutation (acc' ++ olds) (acc ++ a :: olds)) by (rewrite Hmid; by rewrite Hp).
    specialize (IH acc' c (distinct_perm _ _ (Permutation_sym Hp') Hd) (times_ok_perm _ _ (Permutation_sym Hp') Ht)).
    rewrite (Permutation_length Hp') in IH. specialize (IH Hlen).
    destruct (sgroup_old_addrs svc oa rs olds acc' c) as [l' c'].
    destruct IH as (Hl & Hlen' & Hel & Hc'). split; [done|]. split; [done|]. split.
    - intros x. rewrite Hel, Hp, !elem_of_cons. naive_solver.
    - rewrite Hc', Hc. split.
      + intros [[?|?]|(y & Hy & Hy')]; [by left|right; exists a; split; [left|by right]|].
        right. exists y. split; [by right|done].
      + intros [?|(y & [->|Hy]%elem_of_cons & Hy')]; [by left; left|left; right; tauto|].
        right. by exists y. }
  destruct (List.find _ rs) as [r|]; cbn [andb].
  - destruct Hf as [Hin Hre]. apply Hstep; [intros [Hx _]; done|]. rewrite Hre.
    destruct (bool_decide (a_wins_owner a = ra_owner r)) eqn:Eo; cbn [negb].
    + apply bool_decide_eq_true in Eo. rewrite Eo. naive_solver.
    + apply bool_decide_eq_false in Eo. split; [intros _; right; congruence|done].
  - assert (Hnre : ~ reowned rs a).
    { intros (r & Hr & Ha & _). apply Hf. rewrite <- Ha. by apply list_elem_of_In, in_map, list_elem_of_In. }
    destruct (bool_decide (a_wins_owner a = oa)) eqn:Eo.
    + apply bool_decide_eq_true in Eo. assert (Hdr : dropped oa rs a) by done.
      assert (Hsub : sublist (acc ++ olds) (acc ++ a :: olds)).
      { apply sublist_app; [done|]. by constructor. }
      pose proof (sublist_length _ _ Hsub) as Hls.
      assert (Hd' : distinct (acc ++ olds)).
      { apply (sublist_NoDup _ (List.map address (acc ++ a :: olds))); [done|].
        by apply (fmap_sublist address). }
      assert (Ht' : times_ok (acc ++ olds)).
      { intros x Hx. apply Ht. by eapply elem_of_sublist. }
      specialize (IH acc true Hd' Ht' ltac:(lia)).
      destruct (sgroup_old_addrs svc oa rs olds acc true) as [l' c'].
      destruct IH as (Hl & Hlen' & Hel & Hc). split; [done|]. split; [lia|]. split.
      * intros x. rewrite Hel, elem_of_cons. naive_solver.
      * rewrite Hc. split; [intros _; right; exists a; split; [left|by left]|by left].
    + apply bool_decide_eq_false in Eo. apply Hstep; [by intros [_ ?]|]. naive_solver.
Qed.
End merge.

(** C35: merging a replicated special group.  The merged group holds the
    replica's addresses, due at the next verification, and those old addresses the
    replica does not name, less the ones the replicating owner had registered,
    which it has since dropped.  We take ownership of the result exactly when
    the record was ours, when nothing is left, or when no old address was
    dropped or moved to another owner.  The bounds say that the two lists fit
    together in the 25 entries an address list may have, and that the times are
    within the 32 bits the comparison of addresses truncates to. *)
Theorem sgroup_merge_correct `{LdbQsort} svc now rec owner replica l become :
  NoDup (List.map ra_address (r_addresses replica)) ->
  list_ok (addresses rec) ->
  0 <= new_expire svc now < 2 ^ 31 ->
  (length (addresses rec) + length (r_addresses replica) <= 25)%nat ->
  sgroup_merge_result svc now rec owner replica = (l, become) ->
  (forall x, x ∈ l <->
     (exists r, r ∈ r_addresses replica /\ x = mk_addr (ra_address r) (ra_owner r) (new_expire svc now)) \/
     (x ∈ addresses rec /\ (address x ∉ List.map ra_address (r_addresses replica)) /\
      a_wins_owner x <> o_address owner)) /\
  (become = true <->
     wins_owner rec = local_owner (wins_db svc) \/ l = [] \/
     forall a, a ∈ addresses rec ->
       ~ dropped (o_address owner) (r_addresses replica) a /\ ~ reowned (r_addresses replica) a).
Proof.
  intros Hn [Hd Ht] He Hlen. unfold sgroup_merge_result.
  pose proof (sgroup_old_addrs_elem svc (o_address owner) (r_addresses replica) Hn
                (addresses rec) [] false Hd Ht ltac:(simpl; lia)) as Hold.
  unfold winsdb_addr_list_make. destruct (sgroup_old_addrs _ _ _ _ _ _) as [l0 changed].
  destruct Hold as (Hl0 & Hlen0 & Hel0 & Hch). simpl in Hlen0.
  destruct (add_replica_addrs_elem svc (new_expire svc now) (r_addresses replica) l0
              He Hl0 Hn ltac:(lia)) as (_ & _ & Hel).
  intros [= <- <-]. set (l' := add_replica_addrs _ _ _ _) in *. split.
  - intros x. rewrite Hel, Hel0. unfold dropped. set_solver.
  - assert (Hnil : (length l' =? 0)%nat = true <-> l' = [])
      by (rewrite Nat.eqb_eq; apply length_zero_iff_nil).
    destruct (length l' =? 0)%nat; [naive_solver|]. case_bool_decide as Eo; [naive_solver|].
    destruct changed.
    + split; [done|]. destruct Hch as [Hch _]. naive_solver.
    + split; [intros _|done]. right. right. intros a Ha.
      split; intros Hx; destruct Hch as [_ Hch]; discriminate Hch; right; exists a; auto.
Qed.

(** ** Witnesses *)

Definition ex_svc : wreplsrv_service := mk_service ex_wh 600 true.
Definition ex_partner : wrepl_wins_owner := mk_wowner "10.0.0.2" 7.
Definition ex_group : nbt_name := mk_nbt_name "DOMAIN" None 28.

(** A replica of [ex_group] with two members. *)
Definition ex_replica : wrepl_name :=
  mk_replica ex_group WREPL_TYPE_SGROUP WREPL_STATE_ACTIVE WREPL_NODE_P false 7 "10.0.0.2"
    [mk_raddr "10.0.0.2" "10.2.2.2"; mk_raddr "10.0.0.3" "10.3.3.3"].

(** Our record of [ex_group], with one member it shares with the replica, one
    of ours, and one the replica's owner has dropped. *)
Definition ex_grec : winsdb_record :=
  mk_wrec ex_group WREPL_TYPE_SGROUP WREPL_STATE_ACTIVE WREPL_NODE_P false 5000 3 "10.0.0.1"
    [mk_addr "10.1.1.1" "10.0.0.1" 5000; mk_addr "10.3.3.3" "10.0.0.3" 5000;
     mk_addr "10.4.4.4" "10.0.0.2" 5000] None.

(** A static record of another server, as stored. *)
Definition ex_static : winsdb_record :=
  mk_wrec ex_group WREPL_TYPE_SGROUP WREPL_STATE_ACTIVE WREPL_NODE_P true get_time_t_max 3
    "10.0.0.9" [mk_addr "10.1.1.1" "10.0.0.9" get_time_t_max] None.

Lemma ex_group_clean : clean_name ex_group.
Proof. split; [vm_compute; reflexivity|done|simpl; lia]. Defined.

Lemma ex_keys_differ : wins_key (r_name ex_replica) <> wins_key ex_name.
Proof.
  intros E.
  change (wins_key ex_group = wins_key ex_name) in E.
  apply (wins_key_inj _ _ ex_group_clean ex_name_clean) in E. discriminate E.
Defined.

Definition ex_srv : wsrv :=
  mk_wsrv (mk_wdb {[wins_key ex_group := (winsdb_message (H:=ldb_time) ex_static).1]} None None []) [] [] true.

Example apply_records_frame_witness :
  let dn := wins_key ex_name in
  wdb_recs (ws_db (wreplsrv_apply_records (H:=ldb_time) (H0:=ldb_qsort_impl) ex_svc 1000 ex_partner
                     [ex_replica] ex_srv).2) !! dn = wdb_recs (ws_db ex_srv) !! dn.
Proof.
  apply (apply_records_frame (H:=ldb_time) (H0:=ldb_qsort_impl) ex_svc 1000 ex_partner [ex_replica] ex_srv).
  - intros dn msg n Hm E.
    change (({[wins_key ex_group := (winsdb_message (H:=ldb_time) ex_static).1]} : gmap wins_dn wins_message) !! dn
            = Some msg) in Hm.
    apply lookup_singleton_Some in Hm as [<- <-].
    assert (n = ex_group) as ->; [|exact eq_refl].
    assert (inr n = @inr NTSTATUS _ ex_group) as [= ->]; [|exact eq_refl].
    rewrite <- E. exact (message_name (H:=ldb_time) ex_static ex_group_clean).
  - constructor; [exact ex_group_clean|constructor].
  - intros n ->%list_elem_of_singleton. exact ex_keys_differ.
Defined.

Example static_record_protected_witness :
  let msg := (winsdb_message (H:=ldb_time) ex_static).1 in
  let s' := (wreplsrv_apply_one_record (H:=ldb_time) (H0:=ldb_qsort_impl) ex_svc 1000 ex_partner ex_replica
               ex_srv).2 in
  wdb_recs (ws_db s') !! wins_key ex_group = Some msg \/
  (wins_owner ex_static = local_owner (wins_db ex_svc) /\ r_is_static ex_replica = false /\
   exists v, wdb_recs (ws_db s') !! wins_key ex_group =
             Some (ldb_replace msg (winsdb_message (H:=ldb_time) (winsdb_fixup (set_version ex_static v))).1)).
Proof.
  apply (static_record_protected (H:=ldb_time) (H0:=ldb_qsort_impl) ex_svc 1000 ex_partner ex_replica ex_srv
           (winsdb_message (H:=ldb_time) ex_static).1 ex_static).
  - apply lookup_singleton_eq.
  - vm_compute. reflexivity.
  - reflexivity.
  - right. discriminate.
Defined.

Example sgroup_merge_correct_witness :
  let r := sgroup_merge_result (H0:=ldb_qsort_impl) ex_svc 1000 ex_grec ex_partner ex_replica in
  (forall x, x ∈ r.1 <->
     (exists a, a ∈ r_addresses ex_replica /\ x = mk_addr (ra_address a) (ra_owner a) 1600) \/
     (x ∈ addresses ex_grec /\ (address x ∉ List.map ra_address (r_addresses ex_replica)) /\
      a_wins_owner x <> "10.0.0.2"%string)) /\
  (r.2 = true <->
     wins_owner ex_grec = local_owner ex_wh \/ r.1 = [] \/
     forall a, a ∈ addresses ex_grec ->
       ~ dropped "10.0.0.2" (r_addresses ex_replica) a /\ ~ reowned (r_addresses ex_replica) a).
Proof.
  apply (sgroup_merge_correct (H:=ldb_qsort_impl) ex_svc 1000 ex_grec ex_partner ex_replica).
  - apply (bool_decide_unpack _). reflexivity.
  - split; [apply (bool_decide_unpack _); reflexivity|].
    intros a Ha. repeat (apply elem_of_cons in Ha as [->|Ha]; [simpl; lia|]). inversion Ha.
  - unfold new_expire. simpl. lia.
  - simpl. lia.
  - apply surjective_pairing.
Defined.
