(* ===== verification/WinsScav.v ===== *)
(** * Scavenging the WINS database
    ([source4/wrepl_server/wrepl_scavenging.c], [wrepl_periodic.c])

    A periodic run takes the records that have expired through their states:
    owned ones from active to released to tombstone and out of the database,
    replicas the same way once they are not active, and for active replicas it
    asks the owning server whether the name still exists; the answer comes later
    and is handled by [verify_handler] with the record as it was.

    A search gives the matching messages of the database at that moment, in an
    order that LDB does not promise ([LdbOrder]).  The clock is read once in each
    pass.  Sending a request succeeds; the timed event of the periodic handler is
    its time, [sv_next_event]. *)

From S2P Require Import Prelude NtStatus LdbTime UtilTime WinsName WinsDb.

Local Open Scope Z_scope.

(** What [ldb_search] promises about the order of its result. *)
Class LdbOrder : Type := {
  ldb_order : gmap wins_dn wins_message -> list (wins_dn * wins_message);
  ldb_order_perm : forall m, Permutation (ldb_order m) (map_to_list m)
}.

(** ** Data *)

(** The configuration of the service, and whether an NBT server runs. *)
Record wreplsrv_service : Set := mk_service {
  wins_db : winsdb_handle;
  startup_time : timeval;
  tombstone_interval : Z;
  tombstone_timeout : Z;
  tombstone_extra_timeout : Z;
  verify_interval : Z;
  scavenging_interval : Z;
  nbt_server : bool
}.

(** A verification on its way: the record, and the server that is asked. *)
Record verify_state : Set := mk_verify { v_rec : winsdb_record; v_addr : string }.

Record scav : Set := mk_scav {
  sv_db : wdb;
  sv_sent : list verify_state;
  sv_next_run : timeval;
  sv_processing : bool;
  sv_next_event : option timeval
}.

Definition on_db {A} (m : ST wdb A) : ST scav A := fun s =>
  let '(a, w) := m (sv_db s) in
  (a, mk_scav w (sv_sent s) (sv_next_run s) (sv_processing s) (sv_next_event s)).

Definition irpc_send (v : verify_state) : ST scav unit :=
  st_modify (fun s => mk_scav (sv_db s) (sv_sent s ++ [v]) (sv_next_run s) (sv_processing s)
                        (sv_next_event s)).

Definition set_processing (b : bool) : ST scav unit :=
  st_modify (fun s => mk_scav (sv_db s) (sv_sent s) (sv_next_run s) b (sv_next_event s)).

Definition set_next_run (tv : timeval) : ST scav unit :=
  st_modify (fun s => mk_scav (sv_db s) (sv_sent s) tv (sv_processing s) (sv_next_event s)).

(** The record with another state and expiry. *)
Definition set_state (rec : winsdb_record) (st : wrepl_name_state) (expire : Z) : winsdb_record :=
  mk_wrec (name rec) (type rec) st (node rec) (is_static rec) expire (version rec)
    (wins_owner rec) (addresses rec) (registered_by rec).

Definition set_addr_expire (rec : winsdb_record) (expire : Z) : winsdb_record :=
  mk_wrec (name rec) (type rec) (state rec) (node rec) (is_static rec) (expire_time rec)
    (version rec) (wins_owner rec)
    (List.map (fun a => mk_addr (address a) (a_wins_owner a) expire) (addresses rec))
    (registered_by rec).

Definition TAKE : Z := WINSDB_FLAG_ALLOC_VERSION ||| WINSDB_FLAG_TAKE_OWNERSHIP.

(** What is to be done with a record: [modify_record], [delete_record] or
    neither. *)
Inductive action : Set :=
  | Modify (rec : winsdb_record) (modify_flags : Z)
  | Delete (rec : winsdb_record)
  | Skip.

(** ** The filters *)

Definition owner_is (o : string) (msg : wins_message) : bool :=
  bool_decide (winsOwner msg = Some o).

Definition wreplsrv_owner_filter (svc : wreplsrv_service) (wins_owner : string)
    (msg : wins_message) : bool :=
  if bool_decide (wins_owner = local_owner (wins_db svc))
  then owner_is wins_owner msg || owner_is "0.0.0.0" msg
  else owner_is wins_owner msg && negb (owner_is "0.0.0.0" msg).

(** [(recordState=0)] *)
Definition state_active (msg : wins_message) : bool :=
  bool_decide (recordState msg = Some WREPL_STATE_ACTIVE).

Section scavenging.
Context `{TimeCodec} `{LdbOrder} (svc : wreplsrv_service).

(** [(expireTime<=now)] *)
Definition expired_by (now : Z) (msg : wins_message) : bool :=
  match expireTime msg with
  | Some t => ldb_comparison_binary t (time_string now) <=? 0
  | None => false
  end.

Definition local_filter (msg : wins_message) : bool :=
  wreplsrv_owner_filter svc (local_owner (wins_db svc)) msg.

Definition owned_filter (now : Z) (msg : wins_message) : bool :=
  local_filter msg && expired_by now msg.
Definition replica_non_active_filter (now : Z) (msg : wins_message) : bool :=
  negb (local_filter msg) && negb (state_active msg) && expired_by now msg.
Definition replica_active_filter (now : Z) (msg : wins_message) : bool :=
  negb (local_filter msg) && state_active msg && expired_by now msg.

(** [ldb_search]: [None] when it fails. *)
Definition search (filter : wins_message -> bool)
    : ST wdb (option (list (wins_dn * wins_message))) :=
  do f <- ldb_fault;
  do w <- st_get;
  st_ret (if f : bool then None
          else Some (List.filter (fun m => filter m.2) (ldb_order (wdb_recs w)))).

(** ** The passes over owned records and over replicas that are not active *)

Definition delete_tombstones (cur : timeval) : bool :=
  timeval_expired cur (timeval_add (startup_time svc) (tombstone_extra_timeout svc) 0).

(** The [switch] on the state; [None] is a corrupted record. *)
Definition owned_action (cur : timeval) (rec : winsdb_record) : option action :=
  let now := tv_sec cur in
  match state rec with
  | WREPL_STATE_ACTIVE =>
      Some (Modify (if negb (is_static rec)
                    then set_state rec WREPL_STATE_RELEASED (tombstone_interval svc + now)
                    else rec) 0)
  | WREPL_STATE_RELEASED =>
      Some (Modify (set_state rec WREPL_STATE_TOMBSTONE (tombstone_timeout svc + now)) TAKE)
  | WREPL_STATE_TOMBSTONE => Some (if delete_tombstones cur then Delete rec else Skip)
  | WREPL_STATE_RESERVED => None
  end.

Definition replica_action (cur : timeval) (rec : winsdb_record) : option action :=
  let now := tv_sec cur in
  match state rec with
  | WREPL_STATE_ACTIVE => None
  | WREPL_STATE_RELEASED =>
      Some (Modify (set_state rec WREPL_STATE_TOMBSTONE (tombstone_timeout svc + now)) 0)
  | WREPL_STATE_TOMBSTONE => Some (if delete_tombstones cur then Delete rec else Skip)
  | WREPL_STATE_RESERVED => None
  end.

(** A failure is only logged. *)
Definition perform (a : action) : ST wdb unit :=
  match a with
  | Modify rec flags => do! winsdb_modify (wins_db svc) rec flags; st_ret tt
  | Delete rec => do! winsdb_delete rec; st_ret tt
  | Skip => st_ret tt
  end.

(** The loop over the search result. *)
Fixpoint scavenge_each (decide : winsdb_record -> option action)
    (msgs : list (wins_dn * wins_message)) : ST wdb NTSTATUS :=
  match msgs with
  | [] => st_ret NT_STATUS_OK
  | (dn, msg) :: msgs =>
      match winsdb_record_of (wins_db svc) msg 0 with
      | inl status => st_ret status
      | inr rec =>
          match decide rec with
          | None => st_ret NT_STATUS_INTERNAL_DB_CORRUPTION
          | Some a => do! perform a; scavenge_each decide msgs
          end
      end
  end.

Definition wreplsrv_scavenging_owned_records (cur : timeval) : ST wdb NTSTATUS :=
  do res <- search (owned_filter (tv_sec cur));
  match res with
  | None => st_ret NT_STATUS_INTERNAL_DB_CORRUPTION
  | Some msgs => scavenge_each (owned_action cur) msgs
  end.

Definition wreplsrv_scavenging_replica_non_active_records (cur : timeval) : ST wdb NTSTATUS :=
  do res <- search (replica_non_active_filter (tv_sec cur));
  match res with
  | None => st_ret NT_STATUS_INTERNAL_DB_CORRUPTION
  | Some msgs => scavenge_each (replica_action cur) msgs
  end.

(** ** Verifying active replicas *)

(** Some address of the answer is not one of the record, or for a group the
    answer is not the broadcast address. *)
Definition verify_different (rec : winsdb_record) (out_addrs : list string) : bool :=
  if negb (type_is (type rec) WREPL_TYPE_GROUP) then
    existsb (fun a => negb (existsb (fun b => bool_decide (a = address b)) (addresses rec))) out_addrs
  else
    negb (length out_addrs =? 1)%nat ||
    negb (bool_decide (out_addrs !! 0%nat = Some "255.255.255.255"%string)).

(** [status] and [out_addrs] are what [irpc_call_recv] delivers, [now] is the
    time of the answer. *)
Definition verify_handler (s : verify_state) (status : NTSTATUS) (out_addrs : list string)
    (now : Z) : ST wdb unit :=
  let rec := v_rec s in
  if NT_STATUS_EQUAL NT_STATUS_OBJECT_NAME_NOT_FOUND status then perform (Delete rec)
  else if NT_STATUS_IS_OK status then
    if verify_different rec out_addrs then
      let expire := now + tombstone_timeout svc in
      perform (Modify (set_addr_expire (set_state rec WREPL_STATE_TOMBSTONE expire) expire) TAKE)
    else
      let expire := now + verify_interval svc in
      perform (Modify (set_addr_expire (set_state rec (state rec) expire) expire) 0)
  else perform Skip.

(** The loop over the active replicas. *)
Fixpoint verify_each (msgs : list (wins_dn * wins_message)) : ST scav NTSTATUS :=
  match msgs with
  | [] => st_ret NT_STATUS_OK
  | (dn, msg) :: msgs =>
      match winsdb_record_of (wins_db svc) msg 0 with
      | inl status => st_ret status
      | inr rec =>
          if negb (state_is (state rec) WREPL_STATE_ACTIVE)
          then st_ret NT_STATUS_INTERNAL_DB_CORRUPTION
          else do! irpc_send (mk_verify rec (wins_owner rec)); verify_each msgs
      end
  end.

Definition wreplsrv_scavenging_replica_active_records (cur : timeval) : ST scav NTSTATUS :=
  if negb (nbt_server svc) then st_ret NT_STATUS_INTERNAL_ERROR
  else
    do res <- on_db (search (replica_active_filter (tv_sec cur)));
    match res with
    | None => st_ret NT_STATUS_INTERNAL_DB_CORRUPTION
    | Some msgs => verify_each msgs
    end.

(** ** The periodic run *)

Definition wreplsrv_periodic_schedule (cur : timeval) (next_interval : Z) : ST scav NTSTATUS :=
  let next_interval := if next_interval =? 0 then 1 else next_interval in
  let next_time := timeval_current_ofs cur next_interval 5000 in
  do s <- st_get;
  if match sv_next_event s with
     | Some ev => 0 <? timeval_compare next_time ev
     | None => false
     end
  then st_ret NT_STATUS_OK
  else
    do! st_modify (fun s => mk_scav (sv_db s) (sv_sent s) (sv_next_run s) (sv_processing s)
                              (Some next_time));
    st_ret NT_STATUS_OK.

(** A pass between the assignments to [processing]; [k] is what follows it. *)
Definition processing (m : ST scav NTSTATUS) (k : ST scav NTSTATUS) : ST scav NTSTATUS :=
  do! set_processing true;
  do status <- m;
  do! set_processing false;
  if negb (NT_STATUS_IS_OK status) then st_ret status else k.

(** The time of the call and of the three passes. *)
Definition wreplsrv_scavenging_run (cur cur1 cur2 cur3 : timeval) : ST scav NTSTATUS :=
  do s <- st_get;
  if negb (timeval_expired cur (sv_next_run s)) then st_ret NT_STATUS_OK
  else
    let skip_first_run := timeval_is_zero (sv_next_run s) in
    do! set_next_run (timeval_current_ofs cur (scavenging_interval svc) 0);
    do status <- wreplsrv_periodic_schedule cur (scavenging_interval svc);
    if negb (NT_STATUS_IS_OK status) then st_ret status
    else if skip_first_run then st_ret NT_STATUS_OK
    else
      do s <- st_get;
      if sv_processing s then st_ret NT_STATUS_OK
      else
        processing (on_db (wreplsrv_scavenging_owned_records cur1))
          (processing (on_db (wreplsrv_scavenging_replica_non_active_records cur2))
             (processing (wreplsrv_scavenging_replica_active_records cur3)
                (st_ret NT_STATUS_OK))).
End scavenging.

(** ** What an action does to the database *)

Section effects.
Context `{TimeCodec} `{LdbOrder} (svc : wreplsrv_service).

Definition max_version (w : wdb) : Z := default 0 (wdb_maxver w).

Definition action_name (a : action) : option nbt_name :=
  match a with Modify rec _ | Delete rec => Some (name rec) | Skip => None end.

(** The message that takes the place of [old]; [v0] and [v1] bound the versions
    given out. *)
Definition applied (a : action) (v0 v1 : Z) (old : wins_message) (new : option wins_message) : Prop :=
  match a with
  | Modify rec flags => exists v,
      new = Some (ldb_replace old (winsdb_message (set_version (owned_as (wins_db svc) flags rec) v)).1) /\
      if flags &? WINSDB_FLAG_ALLOC_VERSION then v0 < v <= v1 else v = version rec
  | Delete _ => new = None
  | Skip => new = Some old
  end.

(** The database takes the message of the record. *)
Definition accepts (rec : winsdb_record) : bool :=
  bool_decide (wins_key (name rec) <> None) && ldb_msg_sanity_check (winsdb_message rec).1
  && bool_decide (NoDup (m_address (winsdb_message rec).1)).

Definition acceptable (a : action) : Prop :=
  match a with
  | Modify rec _ => accepts rec = true
  | Delete rec => wins_key (name rec) <> None
  | Skip => True
  end.

Lemma accepts_owned rec flags v : accepts (set_version (owned_as (wins_db svc) flags rec) v) = accepts rec.
Proof. unfold owned_as. by destruct (flags &? _). Qed.

Lemma accepts_same rec rec' :
  name rec' = name rec -> is_static rec' = is_static rec -> addresses rec' = addresses rec ->
  accepts rec' = accepts rec.
Proof. intros En Es Ea. unfold accepts, ldb_msg_sanity_check, winsdb_message. cbn. by rewrite En, Es, Ea. Qed.

Lemma accepts_can_modify (rec : winsdb_record) (m : gmap wins_dn wins_message) old :
  m !! wins_key (name rec) = Some old ->
  can_modify (wins_key (name rec)) (winsdb_message rec).1 m = accepts rec.
Proof. intros E. unfold can_modify, accepts. by rewrite E, (bool_decide_eq_true_2 (is_Some _)), andb_true_r by eauto. Qed.

Lemma applied_weaken a v0 v1 v0' v1' old new :
  v0' <= v0 -> v1 <= v1' -> applied a v0 v1 old new -> applied a v0' v1' old new.
Proof.
  intros Hl0 Hl1 Ha. destruct a as [rec flags| |]; simpl in *; [|done..].
  destruct Ha as (v & -> & Hv). exists v. split; [done|]. destruct (flags &? _); [lia|done].
Qed.

(** One step of a pass at [dn]. *)
Definition step_at (a : action) (dn : wins_dn) (old : wins_message) (w w' : wdb) : Prop :=
  (forall dn', dn' <> dn -> wdb_recs w' !! dn' = wdb_recs w !! dn') /\
  max_version w <= max_version w' <= max_version w + 1 /\
  (wdb_recs w' !! dn = Some old \/
   acceptable a /\ applied a (max_version w) (max_version w') old (wdb_recs w' !! dn)) /\
  (quiet w -> acceptable a -> quiet w' /\
     applied a (max_version w) (max_version w') old (wdb_recs w' !! dn)).

Lemma message_fixup rec : (winsdb_message (winsdb_fixup rec)).1 = (winsdb_message rec).1.
Proof. exact (f_equal fst (winsdb_message_again rec)). Qed.

Lemma next_version_small w : 0 <= max_version w < 2 ^ 64 - 1 -> next_version w = max_version w + 1.
Proof. intros Hv. unfold next_version. fold (max_version w). apply u64_small. lia. Qed.

(** Whatever fails, a modify leaves the record or applies the action. *)
Lemma modify_step rec flags old w :
  let dn := wins_key (name rec) in
  wdb_recs w !! dn = Some old -> 0 <= max_version w < 2 ^ 64 - 1 ->
  let w' := (winsdb_modify (wins_db svc) rec flags w).2 in
  max_version w <= max_version w' <= max_version w + 1 /\
  (wdb_recs w' !! dn = Some old \/
   accepts rec = true /\ applied (Modify rec flags) (max_version w) (max_version w') old (wdb_recs w' !! dn)).
Proof.
  intros dn Hold Hv. pose proof (winsdb_modify_stored (wins_db svc) rec flags w) as Hs. cbv zeta in Hs. fold dn in Hs.
  pose proof (next_version_small w Hv) as Hn.
  destruct (winsdb_modify (wins_db svc) rec flags w) as [[rc rec'] w']. cbn [snd].
  destruct Hs as (_ & [(Hcan & Hrec & Hr & Hm)|(_ & Hr & Hm)] & _).
  - rewrite Hrec, message_fixup in Hcan, Hr. assert (name (set_version (owned_as (wins_db svc) flags rec) (version rec')) = name rec) as En
      by (simpl; apply owned_as_name).
    unfold dn in Hcan. rewrite <- En in Hcan. erewrite accepts_can_modify in Hcan by (rewrite En; exact Hold).
    rewrite accepts_owned in Hcan. split.
    + destruct (flags &? _); unfold max_version in *; [destruct Hm as (_ & _ & ->)|destruct Hm as [_ ->]]; simpl; lia.
    + right. split; [done|]. exists (version rec'). rewrite Hr. unfold put_changed. rewrite lookup_alter_eq, Hold.
      split; [done|]. destruct (flags &? _); [|by destruct Hm]. destruct Hm as (-> & _ & E). unfold max_version in *. rewrite E. simpl. lia.
  - split; [|left; by rewrite Hr]. unfold max_version in *. destruct Hm as [->|[_ ->]]; simpl; lia.
Qed.

Lemma modify_step_quiet rec flags old w :
  let dn := wins_key (name rec) in
  wdb_recs w !! dn = Some old -> 0 <= max_version w < 2 ^ 64 - 1 -> quiet w -> accepts rec = true ->
  let w' := (winsdb_modify (wins_db svc) rec flags w).2 in
  quiet w' /\ applied (Modify rec flags) (max_version w) (max_version w') old (wdb_recs w' !! dn).
Proof.
  intros dn Hold Hv Hq Ha. set (rec2 := set_version (owned_as (wins_db svc) flags rec) (version_given flags rec w)).
  assert (name rec2 = name rec) as En by (unfold rec2; simpl; apply owned_as_name).
  rewrite (winsdb_modify_quiet (wins_db svc) rec flags w); [|done|by intros _| ].
  2:{ fold rec2. rewrite <- En. erewrite accepts_can_modify by (rewrite En; exact Hold).
      unfold rec2. by rewrite accepts_owned. }
  fold rec2. cbn [snd wdb_recs]. split; [by apply quiet_again|].
  exists (version_given flags rec w). unfold put_changed. fold dn. rewrite lookup_alter_eq, Hold.
  split; [done|]. unfold version_given, max_version in *. destruct (flags &? _); simpl; [lia|done].
Qed.

Lemma perform_spec a dn old w :
  wdb_recs w !! dn = Some old -> 0 <= max_version w < 2 ^ 64 - 1 ->
  (forall n, action_name a = Some n -> wins_key n = dn) ->
  step_at a dn old w (perform svc a w).2.
Proof.
  intros Hold Hv Hn. destruct a as [rec flags|rec|]; cbn [perform].
  - specialize (Hn _ eq_refl). subst dn. unfold st_bind, st_ret.
    pose proof (modify_step rec flags old w Hold Hv) as [Hm Hs].
    pose proof (modify_step_quiet rec flags old w Hold Hv) as Hq.
    pose proof (fun dn => modify_frame (wins_db svc) rec flags w dn) as Hf.
    destruct (winsdb_modify (wins_db svc) rec flags w) as [[rc rec'] w']. done.
  - specialize (Hn _ eq_refl). subst dn. unfold st_bind, st_ret.
    pose proof (winsdb_delete_spec rec w) as Hs. pose proof (winsdb_delete_quiet rec w) as Hq.
    pose proof (fun dn => delete_frame rec w dn) as Hf. cbv zeta in Hs.
    destruct (winsdb_delete rec w) as [rc w']. cbn [snd fst] in *. destruct Hs as (Hm & _ & Hs & _).
    unfold step_at, max_version. rewrite Hm. split; [done|]. split; [lia|]. split.
    + destruct Hs as [[_ ->]|[Hcan ->]]; [by left|right]. rewrite lookup_delete_eq. split; [|done].
      unfold can_delete in Hcan. by apply andb_true_iff in Hcan as [Hcan%bool_decide_eq_true _].
    + intros Hqw Ha. simpl in Ha. specialize (Hq Hqw). unfold can_delete in Hq. rewrite Hold in Hq.
      rewrite !bool_decide_eq_true_2 in Hq by eauto. injection (Hq eq_refl) as _ ->.
      split; [by apply quiet_again|]. simpl. by rewrite lookup_delete_eq.
  - split; [done|]. split; [simpl; lia|]. split; [by left|]. by intros Hq _.
Qed.

(** What the loop needs of a message, and what it makes of it. *)
Definition decided (decide : winsdb_record -> option action) (dn : wins_dn) (msg : wins_message)
    (a : action) : Prop :=
  exists rec, winsdb_record_of (wins_db svc) msg 0 = inr rec /\ decide rec = Some a /\
    acceptable a /\ forall n, action_name a = Some n -> wins_key n = dn.

Lemma scavenge_each_spec decide msgs : forall w,
  NoDup msgs.*1 ->
  (forall dn msg, (dn, msg) ∈ msgs -> wdb_recs w !! dn = Some msg /\ exists a, decided decide dn msg a) ->
  0 <= max_version w -> max_version w + Z.of_nat (length msgs) < 2 ^ 64 ->
  let '(status, w') := scavenge_each svc decide msgs w in
  status = NT_STATUS_OK /\
  max_version w <= max_version w' <= max_version w + Z.of_nat (length msgs) /\
  (forall dn, dn ∉ msgs.*1 -> wdb_recs w' !! dn = wdb_recs w !! dn) /\
  (forall dn msg, (dn, msg) ∈ msgs -> wdb_recs w' !! dn = Some msg \/
     exists a, decided decide dn msg a /\
       applied a (max_version w) (max_version w') msg (wdb_recs w' !! dn)) /\
  (quiet w -> quiet w' /\
     forall dn msg, (dn, msg) ∈ msgs -> exists a, decided decide dn msg a /\
       applied a (max_version w) (max_version w') msg (wdb_recs w' !! dn)).
Proof.
  induction msgs as [|[dn msg] msgs IH]; intros w Hnd Hin Hv Hl; cbn [scavenge_each fmap list_fmap fst] in *.
  { unfold st_ret. split; [done|]. split; [simpl; lia|]. split; [done|].
    split; [intros ? ? Hx; inversion Hx|]. intros Hf. split; [done|]. intros ? ? Hx; inversion Hx. }
  apply NoDup_cons in Hnd as [Hdn Hnd].
  destruct (Hin dn msg ltac:(left)) as (Hw & a & Ha). pose proof Ha as (rec & Hrec & Hdec & Hacc & Hname).
  rewrite Hrec, Hdec. unfold st_bind. cbn [length] in Hl.
  pose proof (perform_spec a dn msg w Hw ltac:(lia) Hname) as Hstep.
  destruct (perform svc a w) as [u w1]. cbn [snd] in Hstep.
  destruct Hstep as (Hoth & Hmax & Hat & Hq).
  specialize (IH w1 Hnd).
  destruct (scavenge_each svc decide msgs w1) as [status w'].
  destruct IH as (Hst & Hmax' & Hout & Hall & Hquiet); [|lia..|].
  { intros dn' msg' Hm. destruct (Hin dn' msg' ltac:(by right)) as [Hw' Hd]. split; [|done].
    rewrite Hoth; [done|]. intros ->. apply Hdn, list_elem_of_fmap. by exists (dn, msg'). }
  assert (wdb_recs w' !! dn = wdb_recs w1 !! dn) as Hkeep by (by apply Hout).
  split_and!; [done|cbn [length]; lia..| | |].
  - intros dn' Hd. rewrite Hout, Hoth; [done|set_solver..].
  - intros dn' msg' Hm. apply elem_of_cons in Hm as [[= -> ->]|Hm].
    + rewrite Hkeep. destruct Hat as [Hat|[_ Hat]]; [by left|]. right. exists a. split; [done|].
      eapply applied_weaken; [| |exact Hat]; lia.
    + destruct (Hall dn' msg' Hm) as [Hsame|(a' & Hd' & Ha')]; [by left|]. right. exists a'.
      split; [done|]. eapply applied_weaken; [| |exact Ha']; lia.
  - intros Hf. destruct (Hq Hf Hacc) as [Hf1 Hap]. destruct (Hquiet Hf1) as [Hf' Hall']. split; [done|].
    intros dn' msg' Hm. apply elem_of_cons in Hm as [[= -> ->]|Hm].
    + rewrite Hkeep. exists a. split; [done|]. eapply applied_weaken; [| |exact Hap]; lia.
    + destruct (Hall' dn' msg' Hm) as (a' & Hd' & Ha'). exists a'. split; [done|].
      eapply applied_weaken; [| |exact Ha']; lia.
Qed.
End effects.

(** ** A whole pass *)

Section pass.
Context `{TimeCodec} `{LdbOrder} (svc : wreplsrv_service).

(** The records a search finds, each once. *)
Lemma found_spec (f : wins_message -> bool) m dn msg :
  (dn, msg) ∈ List.filter (fun x => f x.2) (ldb_order m) <-> m !! dn = Some msg /\ f msg = true.
Proof.
  rewrite list_elem_of_In, List.filter_In, <- list_elem_of_In.
  by rewrite (ldb_order_perm m), elem_of_map_to_list.
Qed.

Lemma found_distinct (f : wins_message -> bool) m :
  NoDup (List.filter (fun x => f x.2) (ldb_order m)).*1.
Proof.
  assert (NoDup (ldb_order m).*1) as Hnd.
  { rewrite (ldb_order_perm m). apply NoDup_fst_map_to_list. }
  induction (ldb_order m) as [|[dn msg] l IH]; [constructor|]. cbn [List.filter snd].
  apply NoDup_cons in Hnd as [Hdn Hnd]. destruct (f msg); [|by apply IH].
  apply NoDup_cons. split; [|by apply IH]. intros Hin. apply Hdn.
  apply list_elem_of_fmap in Hin as ([dn' msg'] & -> & Hin).
  apply list_elem_of_In, List.filter_In in Hin as [Hin _].
  apply list_elem_of_fmap. exists (dn', msg'). split; [done|]. by apply list_elem_of_In.
Qed.

Lemma found_length (f : wins_message -> bool) m :
  (length (List.filter (fun x => f x.2) (ldb_order m)) <= size m)%nat.
Proof.
  rewrite <- length_map_to_list, <- (ldb_order_perm m).
  induction (ldb_order m) as [|x l IH]; simpl; [lia|]. destruct (f x.2); simpl; lia.
Qed.

Definition pass (f : wins_message -> bool) (decide : winsdb_record -> option action)
    : ST wdb NTSTATUS :=
  do res <- search f;
  match res with
  | None => st_ret NT_STATUS_INTERNAL_DB_CORRUPTION
  | Some msgs => scavenge_each svc decide msgs
  end.

(** The version counter has room for a version per record. *)
Definition versions_left (w : wdb) : Prop :=
  0 <= max_version w /\ max_version w + Z.of_nat (size (wdb_recs w)) < 2 ^ 64.

Lemma pass_spec f decide w :
  versions_left w ->
  (forall dn msg, wdb_recs w !! dn = Some msg -> f msg = true ->
     exists a, decided svc decide dn msg a) ->
  let '(status, w') := pass f decide w in
  (status = NT_STATUS_OK \/ status = NT_STATUS_INTERNAL_DB_CORRUPTION) /\
  (forall dn, match wdb_recs w !! dn with
   | None => wdb_recs w' !! dn = None
   | Some msg => wdb_recs w' !! dn = Some msg \/
       f msg = true /\ exists a, decided svc decide dn msg a /\
         applied svc a (max_version w) (max_version w') msg (wdb_recs w' !! dn)
   end) /\
  (quiet w -> status = NT_STATUS_OK /\ quiet w' /\
     forall dn msg, wdb_recs w !! dn = Some msg -> f msg = true ->
       exists a, decided svc decide dn msg a /\
         applied svc a (max_version w) (max_version w') msg (wdb_recs w' !! dn)).
Proof.
  intros [Hv0 Hv] Hgood. unfold pass, search, st_bind, st_get.
  unfold st_ret at 1. pose proof (ldb_fault_keeps w) as [[Hr Hm] Ht].
  assert (wdb_faults w = [] -> ldb_fault w = (false, w)) as Hq by apply ldb_fault_none.
  destruct (ldb_fault w) as [fl w0]. cbn [snd] in Hr, Hm, Ht. destruct fl.
  { unfold st_ret. split; [by right|]. split; [|intros [Hf _]; by specialize (Hq Hf)].
    intros dn. rewrite Hr. destruct (wdb_recs w !! dn); [by left|done]. }
  assert (max_version w0 = max_version w) as Hmv by (unfold max_version; by rewrite Hm).
  set (msgs := List.filter _ _).
  assert (forall dn msg, (dn, msg) ∈ msgs <-> wdb_recs w !! dn = Some msg /\ f msg = true) as Hin.
  { intros dn msg. subst msgs. rewrite Hr. apply found_spec. }
  pose proof (scavenge_each_spec svc decide msgs w0 ltac:(apply found_distinct)) as Hs.
  assert (length msgs <= size (wdb_recs w))%nat as Hlen.
  { subst msgs. rewrite Hr. apply found_length. }
  destruct (scavenge_each svc decide msgs w0) as [status w'].
  destruct Hs as (-> & Hmax & Hout & Hall & Hquiet); [|lia..|].
  { intros dn msg Hd. apply Hin in Hd as [Hd Hf]. rewrite Hr. split; [done|]. by apply Hgood. }
  rewrite <- Hmv. split; [by left|]. split.
  - intros dn. rewrite <- Hr. destruct (wdb_recs w0 !! dn) as [msg|] eqn:E.
    + destruct (f msg) eqn:Ef.
      * destruct (Hall dn msg) as [?|?]; [apply Hin; by rewrite <- Hr|by left|by right].
      * left. rewrite Hout; [done|]. intros Hd. apply list_elem_of_fmap in Hd as ([dn' msg'] & -> & Hd).
        apply Hin in Hd as [Hd Hf']. rewrite <- Hr in Hd. simpl in *. congruence.
    + rewrite Hout; [done|]. intros Hd. apply list_elem_of_fmap in Hd as ([dn' msg'] & -> & Hd).
      apply Hin in Hd as [Hd _]. rewrite <- Hr in Hd. simpl in *. congruence.
  - intros Hf. pose proof (Hq (proj1 Hf)) as E. injection E as ->. destruct (Hquiet Hf) as [Hf' Hall'].
    split; [done|]. split; [done|]. intros dn msg Hd Hfm. apply Hall', Hin. done.
Qed.

(** ** Databases as the server writes them *)

Definition stored_as (dn : wins_dn) (rec : winsdb_record) (msg : wins_message) : Prop :=
  dn = wins_key (name rec) /\ msg = (winsdb_message rec).1 /\
  storable (wins_db svc) 0 rec /\ state rec <> WREPL_STATE_RESERVED.

(** Every message is that of a record that can be read back. *)
Definition db_ok (w : wdb) : Prop :=
  forall dn msg, wdb_recs w !! dn = Some msg -> exists rec, stored_as dn rec msg.

Lemma stored_as_read dn rec msg :
  stored_as dn rec msg -> winsdb_record_of (wins_db svc) msg 0 = inr rec.
Proof. intros (-> & -> & Hs & _). by apply record_message. Qed.

(** The owner is in the message. *)
Lemma owner_value h now rec : local_owner h <> EmptyString -> storable h now rec ->
  string_value (wins_owner rec) = Some (wins_owner rec).
Proof.
  intros Hlo Hs. pose proof (s_owner_set _ _ _ Hs) as Ho. unfold string_value.
  destruct (wins_owner rec); [|done]. by destruct Hlo; apply Ho.
Qed.

(** The new message takes the place of that of a stored record. *)
Lemma replace_stored dn rec msg rec' : local_owner (wins_db svc) <> EmptyString ->
  stored_as dn rec msg -> name rec' = name rec -> wins_owner rec' <> EmptyString ->
  ldb_replace msg (winsdb_message rec').1 = (winsdb_message rec').1.
Proof.
  intros Hlo (_ & -> & Hs & _) En Ho. unfold ldb_replace, winsdb_message. cbn. rewrite En.
  unfold string_value. by destruct (wins_owner rec').
Qed.

Lemma stored_owner dn rec msg : local_owner (wins_db svc) <> EmptyString ->
  stored_as dn rec msg -> wins_owner rec <> EmptyString.
Proof. intros Hlo (_ & _ & Hs & _) E. by apply Hlo, (s_owner_set _ _ _ Hs). Qed.

(** A stored record with new states, times and version can be written. *)
Lemma stored_accepts dn rec msg rec' :
  stored_as dn rec msg -> name rec' = name rec -> is_static rec' = is_static rec ->
  addresses rec' = addresses rec -> accepts rec' = true.
Proof.
  intros (_ & _ & Hs & _) En Es Ea. rewrite (accepts_same rec rec') by done.
  destruct (message_accepted _ _ _ Hs) as (Hk & Hc & Hd). unfold accepts. by rewrite Hc, !bool_decide_eq_true_2.
Qed.

(** What the filters select. *)
Definition is_local (rec : winsdb_record) : bool :=
  bool_decide (wins_owner rec = local_owner (wins_db svc)).
Definition is_due (now : Z) (rec : winsdb_record) : bool :=
  negb (is_static rec && state_is (state rec) WREPL_STATE_ACTIVE) && (expire_time rec <=? now).

Lemma local_filter_stored dn rec msg :
  local_owner (wins_db svc) <> EmptyString -> stored_as dn rec msg -> local_filter svc msg = is_local rec.
Proof.
  intros Hlo (_ & -> & Hs & _). unfold local_filter, wreplsrv_owner_filter.
  rewrite bool_decide_eq_true_2 by done.
  unfold winsdb_message, owner_is. cbv zeta. rewrite (fixup_storable _ _ _ Hs).
  cbn [fst winsOwner]. rewrite (owner_value (wins_db svc) 0 rec) by done.
  unfold is_local. pose proof (s_owner _ _ _ Hs) as Ho.
  rewrite (bool_decide_eq_false_2 (Some _ = Some "0.0.0.0"%string)) by congruence.
  rewrite orb_false_r. apply bool_decide_ext. split; congruence.
Qed.

Lemma state_active_stored dn rec msg :
  stored_as dn rec msg -> state_active msg = state_is (state rec) WREPL_STATE_ACTIVE.
Proof.
  intros (_ & -> & Hs & _). unfold state_active, winsdb_message. cbv zeta.
  rewrite (fixup_storable _ _ _ Hs). cbn [fst recordState]. unfold state_is.
  apply bool_decide_ext. split; congruence.
Qed.

Lemma expired_by_stored `{!TimeOrder} now dn rec msg :
  stored_as dn rec msg -> 0 <= now < 2 ^ 31 -> expired_by now msg = is_due now rec.
Proof.
  intros (_ & -> & Hs & _) Hn. unfold expired_by, winsdb_message, is_due. cbv zeta.
  rewrite (fixup_storable _ _ _ Hs). cbn [fst expireTime].
  destruct (is_static rec && _); [done|]. cbn [negb andb].
  pose proof (time_order (expire_time rec) now (s_expire _ _ _ Hs) Hn) as Ho.
  destruct (Z.leb_spec (ldb_comparison_binary (time_string (expire_time rec)) (time_string now)) 0);
    destruct (Z.leb_spec (expire_time rec) now); try done; lia.
Qed.
End pass.

(** ** The passes on such a database *)

Section passes.
Context `{TimeCodec} `{LdbOrder} `{!TimeOrder} (svc : wreplsrv_service).

(** The record as it is read back: the addresses of a static record have its
    owner and time. *)
Definition settle (rec : winsdb_record) : winsdb_record :=
  if is_static rec then
    mk_wrec (name rec) (type rec) (state rec) (node rec) (is_static rec) (expire_time rec)
      (version rec) (wins_owner rec)
      (List.map (fun a => mk_addr (address a) (wins_owner rec) (expire_time rec)) (addresses rec))
      (registered_by rec)
  else rec.

Lemma message_settle rec : (winsdb_message (settle rec)).1 = (winsdb_message rec).1.
Proof.
  unfold settle. destruct (is_static rec) eqn:E; [|done].
  unfold winsdb_message, winsdb_fixup. cbn. rewrite length_map, List.map_map, E. done.
Qed.

(** A record with a new state, expiry, version and perhaps owner is still one
    that can be read back. *)
Lemma storable_settle rec st expire flags v :
  storable (wins_db svc) 0 rec -> local_owner (wins_db svc) <> "0.0.0.0"%string -> 0 <= expire < 2 ^ 31 ->
  st <> WREPL_STATE_ACTIVE ->
  storable (wins_db svc) 0 (settle (set_version (owned_as (wins_db svc) flags (set_state rec st expire)) v)).
Proof.
  intros Hs Hlo He Hst. set (rec2 := set_version _ v).
  assert (name rec2 = name rec /\ type rec2 = type rec /\ state rec2 = st /\
    is_static rec2 = is_static rec /\ expire_time rec2 = expire /\ addresses rec2 = addresses rec /\
    registered_by rec2 = registered_by rec /\ wins_owner rec2 <> "0.0.0.0"%string /\
    (wins_owner rec2 = EmptyString -> local_owner (wins_db svc) = EmptyString))
    as (Hn & Ht & Hst2 & Hsta & Hex & Had & Hrb & Hown & Hset).
  { subst rec2. pose proof (s_owner _ _ _ Hs). pose proof (s_owner_set _ _ _ Hs).
    unfold owned_as. by destruct (flags &? _). }
  clearbody rec2. unfold settle. rewrite Hsta.
  destruct Hs as [? ? ? ? ? ? ? ? ? ? ? Hdyn Hstat].
  destruct (is_static rec) eqn:E; constructor; simpl;
    rewrite ?Hn, ?Ht, ?Hst2, ?Hsta, ?Hex, ?Had, ?Hrb, ?length_map, ?List.map_map; try done.
  - intros _. split; [|done]. apply List.Forall_map.
    destruct (Hstat eq_refl) as [Hf _]. eapply List.Forall_impl; [|exact Hf]. simpl. tauto.
  - intros _. split; [|done]. by apply Hdyn.
Qed.

(** The two kinds of change as the passes make them. *)
Lemma stored_as_changed dn rec msg st expire flags v :
  stored_as svc dn rec msg -> local_owner (wins_db svc) <> "0.0.0.0"%string -> 0 <= expire < 2 ^ 31 ->
  st <> WREPL_STATE_ACTIVE -> st <> WREPL_STATE_RESERVED ->
  stored_as svc dn (settle (set_version (owned_as (wins_db svc) flags (set_state rec st expire)) v))
    (winsdb_message (set_version (owned_as (wins_db svc) flags (set_state rec st expire)) v)).1.
Proof.
  intros (-> & _ & Hs & _) Hlo He Ha Hr. split_and!.
  - unfold settle, owned_as. by destruct (flags &? _); simpl; destruct (is_static rec).
  - by rewrite message_settle.
  - by apply storable_settle.
  - unfold settle, owned_as. by destruct (flags &? _); simpl; destruct (is_static rec).
Qed.

(** What a pass owes a record it selects. *)
Definition owned_done (cur : timeval) (dn : wins_dn) (rec : winsdb_record) (w w' : wdb) : Prop :=
  let now := tv_sec cur in
  match state rec with
  | WREPL_STATE_ACTIVE =>
      wdb_recs w' !! dn = Some (winsdb_message
        (set_state rec WREPL_STATE_RELEASED (tombstone_interval svc + now))).1
  | WREPL_STATE_RELEASED =>
      exists v, max_version w < v <= max_version w' /\
        wdb_recs w' !! dn = Some (winsdb_message (set_version (set_owner
          (set_state rec WREPL_STATE_TOMBSTONE (tombstone_timeout svc + now)) (local_owner (wins_db svc))) v)).1
  | _ => wdb_recs w' !! dn = if delete_tombstones svc cur then None
                             else Some (winsdb_message rec).1
  end.

Definition replica_done (cur : timeval) (dn : wins_dn) (rec : winsdb_record) (w w' : wdb) : Prop :=
  match state rec with
  | WREPL_STATE_RELEASED =>
      wdb_recs w' !! dn = Some (winsdb_message
        (set_state rec WREPL_STATE_TOMBSTONE (tombstone_timeout svc + tv_sec cur))).1
  | _ => wdb_recs w' !! dn = if delete_tombstones svc cur then None
                             else Some (winsdb_message rec).1
  end.

Definition owned_due (now : Z) (rec : winsdb_record) : bool :=
  is_local svc rec && is_due now rec.
Definition replica_due (now : Z) (rec : winsdb_record) : bool :=
  negb (is_local svc rec) && negb (state_is (state rec) WREPL_STATE_ACTIVE) && is_due now rec.

(** A pass does to each record nothing, or when it is due what it should; and
    without LDB failures it does it. *)
Definition pass_outcome (due : winsdb_record -> bool)
    (finished : wins_dn -> winsdb_record -> wdb -> wdb -> Prop) (m : ST wdb NTSTATUS) (w : wdb) : Prop :=
  let '(status, w') := m w in
  (status = NT_STATUS_OK \/ status = NT_STATUS_INTERNAL_DB_CORRUPTION) /\
  (quiet w -> status = NT_STATUS_OK /\ quiet w') /\
  forall dn, match wdb_recs w !! dn with
  | None => wdb_recs w' !! dn = None
  | Some msg => forall rec, stored_as svc dn rec msg ->
      if due rec
      then (wdb_recs w' !! dn = Some msg \/ finished dn rec w w') /\
           (quiet w -> finished dn rec w w')
      else wdb_recs w' !! dn = Some msg
  end.

Lemma pass_to_outcome f decide due (finished : wins_dn -> winsdb_record -> wdb -> wdb -> Prop) w :
  versions_left w -> db_ok svc w ->
  (forall dn rec msg, stored_as svc dn rec msg -> f msg = due rec) ->
  (forall dn rec msg, stored_as svc dn rec msg -> due rec = true ->
     exists a, decide rec = Some a /\ acceptable a /\ (forall n, action_name a = Some n -> n = name rec) /\
       forall w w', applied svc a (max_version w) (max_version w') msg (wdb_recs w' !! dn) ->
         finished dn rec w w') ->
  pass_outcome due finished (pass svc f decide) w.
Proof.
  intros Hv Hok Hf Hd. unfold pass_outcome.
  pose proof (pass_spec svc f decide w Hv) as Hp.
  assert (forall dn msg rec a w', stored_as svc dn rec msg -> due rec = true ->
    decided svc decide dn msg a ->
    applied svc a (max_version w) (max_version w') msg (wdb_recs w' !! dn) ->
    finished dn rec w w') as Hfin.
  { intros dn msg rec a w' Hst Hdue (rec' & Hr & Hdec & _ & _) Ha.
    rewrite (stored_as_read svc _ _ _ Hst) in Hr. injection Hr as <-.
    destruct (Hd dn rec msg Hst Hdue) as (a' & Hdec' & _ & _ & Hfin). rewrite Hdec in Hdec'.
    injection Hdec' as <-. by apply Hfin. }
  destruct (pass svc f decide w) as [status w'].
  destruct Hp as (Hst & Hall & Hq).
  { intros dn msg Hdn Hfm. destruct (Hok dn msg Hdn) as [rec Hrec]. rewrite (Hf _ _ _ Hrec) in Hfm.
    destruct (Hd dn rec msg Hrec Hfm) as (a & Hdec & Hacc & Hname & _). exists a, rec.
    split; [by apply (stored_as_read svc dn)|]. split; [done|]. split; [done|]. intros n Hn.
    rewrite (Hname n Hn). by destruct Hrec as [-> _]. }
  split; [done|]. split; [intros Hfl; by destruct (Hq Hfl) as (? & ? & _)|].
  intros dn. specialize (Hall dn). destruct (wdb_recs w !! dn) as [msg|] eqn:E; [|done].
  intros rec Hrec. pose proof (Hf _ _ _ Hrec) as Hfr. destruct (due rec) eqn:Edue.
  - split.
    + destruct Hall as [Hall|(_ & a & Hdec & Ha)]; [by left|right]. by eapply Hfin.
    + intros Hfl. destruct (Hq Hfl) as (_ & _ & Hq'). destruct (Hq' dn msg E Hfr) as (a & Hdec & Ha).
      by eapply Hfin.
  - destruct Hall as [Hall|(Hft & _)]; [done|congruence].
Qed.

Lemma stored_message dn rec msg : stored_as svc dn rec msg -> msg = (winsdb_message rec).1.
Proof. by intros (_ & -> & _). Qed.

Lemma set_version_self rec : set_version rec (version rec) = rec.
Proof. by destruct rec. Qed.

(** A modify of a stored record. *)
Lemma modify_done dn rec msg rec' flags v0 v1 new :
  local_owner (wins_db svc) <> EmptyString -> stored_as svc dn rec msg -> name rec' = name rec ->
  wins_owner rec' = wins_owner rec -> applied svc (Modify rec' flags) v0 v1 msg new ->
  exists v, new = Some (winsdb_message (set_version (owned_as (wins_db svc) flags rec') v)).1 /\
    if flags &? WINSDB_FLAG_ALLOC_VERSION then v0 < v <= v1 else v = version rec'.
Proof.
  intros Hlo Hst En Eo (v & -> & Hv). exists v. split; [|done].
  rewrite (replace_stored svc dn rec); [done..|by rewrite <- En; apply (owned_as_name _ flags rec')|].
  pose proof (stored_owner svc _ _ _ Hlo Hst) as Ho. rewrite <- Eo in Ho.
  unfold owned_as. destruct (flags &? WINSDB_FLAG_TAKE_OWNERSHIP); [exact Hlo|exact Ho].
Qed.

Lemma modify_done_as_is dn rec msg rec' v0 v1 new :
  local_owner (wins_db svc) <> EmptyString -> stored_as svc dn rec msg -> name rec' = name rec ->
  wins_owner rec' = wins_owner rec -> applied svc (Modify rec' 0) v0 v1 msg new ->
  new = Some (winsdb_message rec').1.
Proof.
  intros Hlo Hst En Eo Ha. destruct (modify_done _ _ _ _ _ _ _ _ Hlo Hst En Eo Ha) as (v & -> & Hv).
  change (0 &? WINSDB_FLAG_ALLOC_VERSION) with false in Hv. cbv iota in Hv. subst v.
  unfold owned_as. change (0 &? WINSDB_FLAG_TAKE_OWNERSHIP) with false. by rewrite set_version_self.
Qed.

(** A tombstone is deleted or left. *)
Lemma tombstone_done cur dn rec msg : stored_as svc dn rec msg ->
  let a := if delete_tombstones svc cur then Delete rec else Skip in
  acceptable a /\ (forall n, action_name a = Some n -> n = name rec) /\
  forall v0 v1 new, applied svc a v0 v1 msg new ->
    new = if delete_tombstones svc cur then None else Some (winsdb_message rec).1.
Proof.
  intros Hst. pose proof (stored_message _ _ _ Hst) as ->. destruct Hst as (_ & _ & Hs & _).
  destruct (message_accepted _ _ _ Hs) as (Hk & _). destruct (delete_tombstones svc cur); split_and!; try done.
  by intros n [= <-].
Qed.

Lemma owned_pass cur w :
  local_owner (wins_db svc) <> EmptyString ->
  versions_left w -> db_ok svc w -> 0 <= tv_sec cur < 2 ^ 31 ->
  pass_outcome (owned_due (tv_sec cur)) (owned_done cur)
    (wreplsrv_scavenging_owned_records svc cur) w.
Proof.
  intros Hlo Hv Hok Hc. change (wreplsrv_scavenging_owned_records svc cur)
    with (pass svc (owned_filter svc (tv_sec cur)) (owned_action svc cur)).
  apply pass_to_outcome; [done..| |].
  - intros dn rec msg Hst. unfold owned_filter, owned_due.
    by rewrite (local_filter_stored _ _ _ _ Hlo Hst), (expired_by_stored svc _ _ _ _ Hst Hc).
  - intros dn rec msg Hst Hdue. unfold owned_due in Hdue. apply andb_true_iff in Hdue as [_ Hdue].
    pose proof Hst as (_ & _ & _ & Hres).
    unfold owned_action, owned_done. cbv zeta. destruct (state rec) eqn:Es; [| | |done].
    + unfold is_due in Hdue. rewrite Es in Hdue. destruct (is_static rec) eqn:Est; [done|]. cbn [negb].
      eexists. split; [done|]. split; [by eapply stored_accepts|]. split; [by intros n [= <-]|].
      intros w0 w'. by apply (modify_done_as_is dn rec).
    + eexists. split; [done|]. split; [by eapply stored_accepts|]. split; [by intros n [= <-]|].
      intros w0 w' Ha. apply (modify_done dn rec) in Ha as (v & E & Hv'); [|done..]. by exists v.
    + eexists. split; [done|]. destruct (tombstone_done cur dn rec msg Hst) as (Ha & Hn & Hd).
      split; [done|]. split; [done|]. intros w0 w'. apply Hd.
Qed.

Lemma replica_pass cur w :
  local_owner (wins_db svc) <> EmptyString ->
  versions_left w -> db_ok svc w -> 0 <= tv_sec cur < 2 ^ 31 ->
  pass_outcome (replica_due (tv_sec cur)) (replica_done cur)
    (wreplsrv_scavenging_replica_non_active_records svc cur) w.
Proof.
  intros Hlo Hv Hok Hc. change (wreplsrv_scavenging_replica_non_active_records svc cur)
    with (pass svc (replica_non_active_filter svc (tv_sec cur)) (replica_action svc cur)).
  apply pass_to_outcome; [done..| |].
  - intros dn rec msg Hst. unfold replica_non_active_filter, replica_due.
    by rewrite (local_filter_stored _ _ _ _ Hlo Hst), (expired_by_stored svc _ _ _ _ Hst Hc),
      (state_active_stored svc _ _ _ Hst).
  - intros dn rec msg Hst Hdue. unfold replica_due in Hdue.
    apply andb_true_iff in Hdue as [[_ Hact]%andb_true_iff _].
    pose proof Hst as (_ & _ & _ & Hres).
    unfold replica_action, replica_done. cbv zeta. destruct (state rec) eqn:Es; [done| | |done].
    + eexists. split; [done|]. split; [by eapply stored_accepts|]. split; [by intros n [= <-]|].
      intros w0 w'. by apply (modify_done_as_is dn rec).
    + eexists. split; [done|]. destruct (tombstone_done cur dn rec msg Hst) as (Ha & Hn & Hd).
      split; [done|]. split; [done|]. intros w0 w'. apply Hd.
Qed.
End passes.

(** ** The invariant *)

Section invariant.
Context `{TimeCodec} `{LdbOrder} `{!TimeOrder} (svc : wreplsrv_service).

(** A configuration whose times stay below 2038 at [now]. *)
Record config_ok (now : Z) : Prop := {
  co_owner : local_owner (wins_db svc) <> "0.0.0.0"%string;
  co_owner_set : local_owner (wins_db svc) <> EmptyString;
  co_now : 0 < now;
  co_interval : 0 <= tombstone_interval svc;
  co_interval_end : tombstone_interval svc + now < 2 ^ 31;
  co_timeout : 0 <= tombstone_timeout svc;
  co_timeout_end : tombstone_timeout svc + now < 2 ^ 31;
  co_verify : 0 <= verify_interval svc;
  co_verify_end : now + verify_interval svc < 2 ^ 31
}.

Lemma settle_dynamic rec : is_static rec = false -> settle rec = rec.
Proof. unfold settle. by intros ->. Qed.

Lemma stored_as_released dn rec msg expire :
  stored_as svc dn rec msg -> local_owner (wins_db svc) <> "0.0.0.0"%string ->
  0 <= expire < 2 ^ 31 -> forall st, st <> WREPL_STATE_ACTIVE -> st <> WREPL_STATE_RESERVED ->
  stored_as svc dn (settle (set_state rec st expire)) (winsdb_message (set_state rec st expire)).1.
Proof.
  intros Hst Hlo He st Ha Hr.
  pose proof (stored_as_changed svc dn rec msg st expire 0 (version (set_state rec st expire))
    Hst Hlo He Ha Hr) as Hc.
  unfold owned_as in Hc. change (0 &? WINSDB_FLAG_TAKE_OWNERSHIP) with false in Hc.
  by rewrite set_version_self in Hc.
Qed.

Lemma owned_done_ok cur dn rec msg w w' new :
  config_ok (tv_sec cur) -> stored_as svc dn rec msg -> owned_done svc cur dn rec w w' ->
  wdb_recs w' !! dn = Some new -> exists rec', stored_as svc dn rec' new.
Proof.
  intros [] Hst Hd Hn. unfold owned_done in Hd. pose proof (stored_message _ _ _ _ Hst) as Hm.
  destruct (state rec) eqn:Es.
  - rewrite Hn in Hd. apply (inj Some) in Hd as ->. eexists. eapply stored_as_released; try done; lia.
  - destruct Hd as (v & _ & Hd). rewrite Hn in Hd. apply (inj Some) in Hd as ->.
    eexists. eapply (stored_as_changed svc dn rec msg _ _ TAKE); try done; lia.
  - destruct (delete_tombstones svc cur); rewrite Hn in Hd; [done|]. apply (inj Some) in Hd as ->.
    exists rec. by rewrite <- Hm.
  - by destruct Hst as (_ & _ & _ & ?).
Qed.

Lemma replica_done_ok cur dn rec msg w w' new :
  config_ok (tv_sec cur) -> stored_as svc dn rec msg -> replica_done svc cur dn rec w w' ->
  wdb_recs w' !! dn = Some new -> exists rec', stored_as svc dn rec' new.
Proof.
  intros [] Hst Hd Hn. unfold replica_done in Hd. pose proof (stored_message _ _ _ _ Hst) as Hm.
  assert (wdb_recs w' !! dn = (if delete_tombstones svc cur then None
                               else Some (winsdb_message rec).1) ->
          exists rec', stored_as svc dn rec' new) as Hk.
  { intros E. destruct (delete_tombstones svc cur); rewrite Hn in E; [done|]. apply (inj Some) in E as ->.
    exists rec. by rewrite <- Hm. }
  destruct (state rec) eqn:Es; try (by apply Hk).
  rewrite Hn in Hd. apply (inj Some) in Hd as ->. eexists. eapply stored_as_released; try done; lia.
Qed.

Lemma outcome_ok due finished m w :
  (forall dn rec msg w' new, stored_as svc dn rec msg -> finished dn rec w w' ->
     wdb_recs w' !! dn = Some new -> exists rec', stored_as svc dn rec' new) ->
  db_ok svc w -> pass_outcome svc due finished m w -> db_ok svc (m w).2.
Proof.
  intros Hfin Hok Hp. unfold pass_outcome in Hp. destruct (m w) as [status w'].
  destruct Hp as (_ & _ & Hall). intros dn new Hn. cbn [snd] in Hn. specialize (Hall dn).
  destruct (wdb_recs w !! dn) as [msg|] eqn:E; [|congruence].
  destruct (Hok dn msg E) as [rec Hrec]. specialize (Hall rec Hrec). destruct (due rec).
  - destruct Hall as [[Hsame|Hd] _]; [|by eapply Hfin].
    rewrite Hn in Hsame. apply (inj Some) in Hsame as ->. by exists rec.
  - rewrite Hn in Hall. apply (inj Some) in Hall as ->. by exists rec.
Qed.

Lemma owned_pass_ok cur w :
  config_ok (tv_sec cur) -> versions_left w -> db_ok svc w ->
  db_ok svc (wreplsrv_scavenging_owned_records svc cur w).2.
Proof.
  intros Hc Hv Hok. pose proof Hc as []. eapply outcome_ok; [|done|by apply owned_pass; [..|lia]].
  intros dn rec msg w' new Hst Hd. by eapply owned_done_ok.
Qed.

Lemma replica_pass_ok cur w :
  config_ok (tv_sec cur) -> versions_left w -> db_ok svc w ->
  db_ok svc (wreplsrv_scavenging_replica_non_active_records svc cur w).2.
Proof.
  intros Hc Hv Hok. pose proof Hc as []. eapply outcome_ok; [|done|by apply replica_pass; [..|lia]].
  intros dn rec msg w' new Hst Hd. by eapply replica_done_ok.
Qed.

(** ** Verification *)

(** The verified record with a new state, and every time set to [expire]. *)
Definition refreshed (rec : winsdb_record) (st : wrepl_name_state) (expire : Z) : winsdb_record :=
  set_addr_expire (set_state rec st expire) expire.

(** What the handler makes of the message [old] of the name.  A name without a
    key, and a record that the database does not take, change nothing. *)
Definition verify_result (s : verify_state) (status : NTSTATUS) (out : list string) (now : Z)
    (old : wins_message) (w w' : wdb) : Prop :=
  let rec := v_rec s in
  let after := wdb_recs w' !! wins_key (name rec) in
  if NT_STATUS_EQUAL NT_STATUS_OBJECT_NAME_NOT_FOUND status then
    after = if bool_decide (wins_key (name rec) = None) then Some old else None
  else if NT_STATUS_IS_OK status then
    if verify_different rec out then
      let rec2 := refreshed rec WREPL_STATE_TOMBSTONE (now + tombstone_timeout svc) in
      if accepts rec2 then
        exists v, max_version w < v <= max_version w' /\
          after = Some (ldb_replace old (winsdb_message (set_version (set_owner rec2
            (local_owner (wins_db svc))) v)).1)
      else after = Some old
    else
      let rec2 := refreshed rec (state rec) (now + verify_interval svc) in
      after = Some (if accepts rec2 then ldb_replace old (winsdb_message rec2).1 else old)
  else after = Some old.

(** An action of the handler, with its outcome when the database takes it. *)
Lemma perform_at s a (P : wdb -> Prop) old w :
  let dn := wins_key (name (v_rec s)) in
  wdb_recs w !! dn = Some old -> 0 <= max_version w < 2 ^ 64 - 1 ->
  (forall n, action_name a = Some n -> n = name (v_rec s)) ->
  (acceptable a \/ ~ acceptable a) ->
  (forall w', acceptable a -> applied svc a (max_version w) (max_version w') old (wdb_recs w' !! dn) -> P w') ->
  (forall w', ~ acceptable a -> wdb_recs w' !! dn = Some old -> P w') ->
  let w' := (perform svc a w).2 in
  (forall dn', dn' <> dn -> wdb_recs w' !! dn' = wdb_recs w !! dn') /\
  (wdb_recs w' !! dn = Some old \/ P w') /\ (quiet w -> P w').
Proof.
  intros dn Hold Hv Hn Hac HP HN w'.
  destruct (perform_spec svc a dn old w Hold Hv) as (Hoth & _ & Hat & Hq); [intros n E; by rewrite (Hn n E)|].
  split; [done|]. split; [destruct Hat as [?|[? ?]]; [by left|right; by apply HP]|].
  intros Hqw. destruct Hac as [Ha|Ha]; [by apply HP, Hq|]. apply HN; [done|]. by destruct Hat as [?|[? _]].
Qed.

Lemma accepts_dec rec : accepts rec = true \/ accepts rec <> true.
Proof. destruct (accepts rec); auto. Qed.

Lemma verify_step s status out now old w :
  wdb_recs w !! wins_key (name (v_rec s)) = Some old -> 0 <= max_version w < 2 ^ 64 - 1 ->
  let w' := (verify_handler svc s status out now w).2 in
  (forall dn, dn <> wins_key (name (v_rec s)) -> wdb_recs w' !! dn = wdb_recs w !! dn) /\
  (wdb_recs w' !! wins_key (name (v_rec s)) = Some old \/
   verify_result s status out now old w w') /\
  (quiet w -> verify_result s status out now old w w').
Proof.
  intros Hold Hv w'. subst w'. unfold verify_result, verify_handler. cbv zeta.
  set (after := fun w' => wdb_recs w' !! wins_key (name (v_rec s))).
  destruct (NT_STATUS_EQUAL _ status).
  { apply (perform_at s (Delete _) (fun w' => after w' = if bool_decide (wins_key (name (v_rec s)) = None)
                                                         then Some old else None)); [done..|by intros n [= <-]|simpl; by destruct (wins_key _); auto| |];
      intros w' Ha E; simpl in Ha.
    - by rewrite bool_decide_eq_false_2.
    - rewrite bool_decide_eq_true_2; [done|]. by destruct (wins_key _); [destruct Ha|]. }
  destruct (NT_STATUS_IS_OK status); 
    [|by apply (perform_at s Skip (fun w' => after w' = Some old)); [..|left|intros w' _|intros w' []]].
  destruct (verify_different (v_rec s) out); fold (refreshed (v_rec s)).
  - set (rec2 := set_addr_expire _ _). change (refreshed _ _ _) with rec2.
    apply (perform_at s (Modify rec2 TAKE) (fun w' => if accepts rec2 then
      exists v, max_version w < v <= max_version w' /\ after w' = Some (ldb_replace old
        (winsdb_message (set_version (set_owner rec2 (local_owner (wins_db svc))) v)).1)
      else after w' = Some old)); [done..|by intros n [= <-]|apply accepts_dec| |];
      intros w' Ha E; simpl in Ha.
    + rewrite Ha. destruct E as (v & E & Hvv). by exists v.
    + by apply not_true_iff_false in Ha as ->.
  - set (rec2 := set_addr_expire _ _). change (refreshed _ _ _) with rec2.
    apply (perform_at s (Modify rec2 0) (fun w' => after w' = Some (if accepts rec2
      then ldb_replace old (winsdb_message rec2).1 else old))); [done..|by intros n [= <-]|apply accepts_dec| |];
      intros w' Ha E; simpl in Ha.
    + rewrite Ha. destruct E as (v & E & Hvv). change (0 &? WINSDB_FLAG_ALLOC_VERSION) with false in Hvv.
      cbv iota in Hvv. subst v. unfold owned_as in E.
      change (0 &? WINSDB_FLAG_TAKE_OWNERSHIP) with false in E. cbv iota in E.
      by rewrite set_version_self in E.
    + by apply not_true_iff_false in Ha as ->.
Qed.

Lemma verify_different_spec rec out :
  verify_different rec out = false <->
  if type_is (type rec) WREPL_TYPE_GROUP then out = ["255.255.255.255"%string]
  else forall a, a ∈ out -> a ∈ List.map address (addresses rec).
Proof.
  unfold verify_different. destruct (type_is _ _); cbn [negb].
  - rewrite orb_false_iff, !negb_false_iff, Nat.eqb_eq, bool_decide_eq_true.
    destruct out as [|a [|b out]]; split; try done; try (by intros [? ?]).
    + intros [_ [= ->]]. done.
    + by intros [= ->].
  - rewrite existsb_false_elem_of. split; intros Ha a Hin; specialize (Ha a Hin).
    + apply negb_false_iff, existsb_elem_of in Ha as (x & Hx & E). apply bool_decide_eq_true in E.
      subst a. apply list_elem_of_In, List.in_map, list_elem_of_In, Hx.
    + apply negb_false_iff, existsb_elem_of. apply list_elem_of_In, List.in_map_iff in Ha as (x & <- & Hx).
      exists x. split; [by apply list_elem_of_In|by apply bool_decide_eq_true].
Qed.
End invariant.

(** ** Properties *)

(** C36: a scavenging pass takes each record one step, or leaves it.  On a
    database as the server writes it, whichever LDB calls fail, the pass over
    owned records leaves every record that is not ours or has not expired (a
    static active one never does) exactly as it was; of the others an active one
    becomes released, a released one a tombstone under our name with a new
    version, and a tombstone goes once the service has been up long enough.  The
    pass over replicas that are not active does the same without taking
    ownership.  Without failures the steps are all taken, and either way the
    database stays one that can be read back. *)
Theorem scavenging_passes_correct `{TimeCodec} `{LdbOrder} `{!TimeOrder} svc cur w :
  config_ok svc (tv_sec cur) -> versions_left w -> db_ok svc w ->
  (pass_outcome svc (owned_due svc (tv_sec cur)) (owned_done svc cur)
     (wreplsrv_scavenging_owned_records svc cur) w /\
   db_ok svc (wreplsrv_scavenging_owned_records svc cur w).2) /\
  (pass_outcome svc (replica_due svc (tv_sec cur)) (replica_done svc cur)
     (wreplsrv_scavenging_replica_non_active_records svc cur) w /\
   db_ok svc (wreplsrv_scavenging_replica_non_active_records svc cur w).2).
Proof.
  intros Hc Hv Hok. pose proof Hc as []. split; split.
  - by apply owned_pass; [..|lia].
  - by apply owned_pass_ok.
  - by apply replica_pass; [..|lia].
  - by apply replica_pass_ok.
Qed.

(** The outcome of a pass without failures at one record. *)
Lemma pass_done_at `{TimeCodec} svc due finished (m : ST wdb NTSTATUS) w dn rec msg :
  pass_outcome svc due finished m w -> quiet w ->
  wdb_recs w !! dn = Some msg -> stored_as svc dn rec msg -> due rec = true ->
  finished dn rec w (m w).2 /\ quiet (m w).2.
Proof.
  unfold pass_outcome. intros Hp Hf Hm Hs Hd. destruct (m w) as [status w'].
  destruct Hp as (_ & Hq & Hall). specialize (Hall dn). rewrite Hm in Hall.
  specialize (Hall rec Hs). rewrite Hd in Hall. cbn [snd].
  split; [by apply Hall|by apply Hq].
Qed.

(** C37: a name nobody refreshes goes away.  An active record of ours that is
    not static and has expired is released by a pass, made a tombstone under a
    newer version by a pass at least the extinction interval later, and deleted
    by a pass at least the extinction timeout after that, when the service has
    been up for the extra timeout. *)
Theorem name_expires `{TimeCodec} `{LdbOrder} `{!TimeOrder} svc t1 t2 t3 w dn rec :
  db_ok svc w -> quiet w ->
  wdb_recs w !! dn = Some (winsdb_message rec).1 ->
  stored_as svc dn rec (winsdb_message rec).1 ->
  state rec = WREPL_STATE_ACTIVE -> is_static rec = false ->
  wins_owner rec = local_owner (wins_db svc) ->
  let w1 := (wreplsrv_scavenging_owned_records svc t1 w).2 in
  let w2 := (wreplsrv_scavenging_owned_records svc t2 w1).2 in
  let w3 := (wreplsrv_scavenging_owned_records svc t3 w2).2 in
  versions_left w -> versions_left w1 -> versions_left w2 ->
  config_ok svc (tv_sec t1) -> config_ok svc (tv_sec t2) -> config_ok svc (tv_sec t3) ->
  expire_time rec <= tv_sec t1 -> tombstone_interval svc + tv_sec t1 <= tv_sec t2 ->
  tombstone_timeout svc + tv_sec t2 <= tv_sec t3 -> delete_tombstones svc t3 = true ->
  let rel := set_state rec WREPL_STATE_RELEASED (tombstone_interval svc + tv_sec t1) in
  let tomb v := set_version (set_state rec WREPL_STATE_TOMBSTONE
                               (tombstone_timeout svc + tv_sec t2)) v in
  wdb_recs w1 !! dn = Some (winsdb_message rel).1 /\
  (exists v, max_version w1 < v /\ wdb_recs w2 !! dn = Some (winsdb_message (tomb v)).1) /\
  wdb_recs w3 !! dn = None.
Proof.
  intros Hok Hf Hm Hs Hst Hsta Hown w1 w2 w3 Hv0 Hv1 Hv2 Hc1 Hc2 Hc3 Ht1 Ht2 Ht3 Hdel rel tomb.
  pose proof Hc1 as []. pose proof Hc2 as []. pose proof Hc3 as [].
  assert (is_local svc rec = true) as Hl by (by apply bool_decide_eq_true).
  assert (Hdue : forall st expire now, expire <= now ->
    owned_due svc now (set_state rec st expire) = true).
  { intros st expire now He. unfold owned_due, is_due, is_local in *. simpl. rewrite Hl, Hsta. lia. }
  destruct (pass_done_at svc _ _ _ w dn rec _
    (owned_pass svc t1 w ltac:(done) Hv0 Hok ltac:(lia)) Hf Hm Hs) as [E1 Hf1].
  { unfold owned_due, is_due. rewrite Hl, Hsta. simpl. lia. }
  unfold owned_done in E1. rewrite Hst in E1. fold w1 in E1, Hf1. fold rel in E1.
  assert (stored_as svc dn rel (winsdb_message rel).1) as Hs1.
  { pose proof (stored_as_released svc dn rec _ (tombstone_interval svc + tv_sec t1) Hs
      ltac:(done) ltac:(lia) WREPL_STATE_RELEASED ltac:(done) ltac:(done)) as Hr.
    by rewrite settle_dynamic in Hr. }
  destruct (pass_done_at svc _ _ _ w1 dn rel _
    (owned_pass svc t2 w1 ltac:(done) Hv1 (owned_pass_ok svc t1 w Hc1 Hv0 Hok) ltac:(lia)) Hf1 E1 Hs1) as [E2 Hf2].
  { apply Hdue. lia. }
  destruct E2 as (v & Hv & E2). fold w2 in E2, Hf2, Hv.
  assert (set_version (set_owner (set_state rel WREPL_STATE_TOMBSTONE
    (tombstone_timeout svc + tv_sec t2)) (local_owner (wins_db svc))) v = tomb v) as Htomb.
  { unfold tomb, rel, set_version, set_owner, set_state. simpl. by rewrite Hown. }
  rewrite Htomb in E2.
  assert (stored_as svc dn (tomb v) (winsdb_message (tomb v)).1) as Hs2.
  { pose proof (stored_as_changed svc dn rel _ WREPL_STATE_TOMBSTONE
      (tombstone_timeout svc + tv_sec t2) TAKE v Hs1 ltac:(done) ltac:(lia) ltac:(done) ltac:(done)) as Hr.
    unfold owned_as in Hr. change (TAKE &? WINSDB_FLAG_TAKE_OWNERSHIP) with true in Hr.
    cbv iota in Hr. rewrite Htomb in Hr. by rewrite settle_dynamic in Hr. }
  destruct (pass_done_at svc _ _ _ w2 dn (tomb v) _
    (owned_pass svc t3 w2 ltac:(done) Hv2
       (owned_pass_ok svc t2 w1 Hc2 Hv1 (owned_pass_ok svc t1 w Hc1 Hv0 Hok)) ltac:(lia))
    Hf2 E2 Hs2) as [E3 _].
  { exact (Hdue WREPL_STATE_TOMBSTONE (tombstone_timeout svc + tv_sec t2) (tv_sec t3) Ht3). }
  unfold owned_done in E3. cbn [state tomb set_version set_state] in E3. rewrite Hdel in E3.
  split; [exact E1|]. split; [|exact E3]. exists v. split; [lia|exact E2].
Qed.

(** C38: what the answer to a verification does, whatever the record of the name
    has become in the meantime: the handler writes the record it was sent with.
    A name the owner does not know is deleted; an answer with an address the
    record lacks (for a group, any but the broadcast address) makes it a
    tombstone under our name with a new version; any other answer refreshes its
    times; an error changes nothing.  No other name is touched.  A failure of
    LDB leaves the name as it was or does all of this, and so does a record that
    the database does not take, which has no key or the same value twice. *)
Theorem verify_handler_correct `{TimeCodec} svc s status out now old w :
  wdb_recs w !! wins_key (name (v_rec s)) = Some old -> 0 <= max_version w < 2 ^ 64 - 1 ->
  let w' := (verify_handler svc s status out now w).2 in
  (forall dn, dn <> wins_key (name (v_rec s)) -> wdb_recs w' !! dn = wdb_recs w !! dn) /\
  (wdb_recs w' !! wins_key (name (v_rec s)) = Some old \/
   verify_result svc s status out now old w w') /\
  (quiet w -> verify_result svc s status out now old w w') /\
  (verify_different (v_rec s) out = false <->
     if type_is (type (v_rec s)) WREPL_TYPE_GROUP then out = ["255.255.255.255"%string]
     else forall a, a ∈ out -> a ∈ List.map address (addresses (v_rec s))).
Proof.
  intros Hold Hv w'. destruct (verify_step svc s status out now old w Hold Hv) as (E1 & E2 & E3).
  split; [exact E1|]. split; [exact E2|]. split; [exact E3|]. apply verify_different_spec.
Qed.

(** ** The guard of a run *)

Section guard.
Context `{TimeCodec} `{LdbOrder} (svc : wreplsrv_service).

(** [m] leaves the bookkeeping of the run alone. *)
Definition keeps (m : ST scav NTSTATUS) : Prop := forall s,
  sv_next_run (m s).2 = sv_next_run s /\ sv_processing (m s).2 = sv_processing s.

Lemma guard_on_db m : keeps (on_db m).
Proof. intros s. unfold on_db. by destruct (m (sv_db s)). Qed.

Lemma keeps_verify_each msgs : keeps (verify_each svc msgs).
Proof.
  induction msgs as [|[dn msg] msgs IH]; intros s; cbn [verify_each]; [done|].
  destruct (winsdb_record_of _ _ _); [done|]. destruct (negb _); [done|].
  unfold st_bind. destruct (irpc_send _ s) as [u s1] eqn:E. injection E as <- <-. exact (IH _).
Qed.

Lemma keeps_replica_active cur : keeps (wreplsrv_scavenging_replica_active_records svc cur).
Proof.
  intros s. unfold wreplsrv_scavenging_replica_active_records. destruct (negb _); [done|].
  unfold st_bind, on_db. destruct (search _ _) as [[msgs|] w]; [|done].
  exact (keeps_verify_each msgs (mk_scav w _ _ _ _)).
Qed.

(** Between the assignments to [processing] the mark is set, after them not. *)
Lemma processing_resets m k s :
  keeps m ->
  (forall s0, sv_processing s0 = false ->
     sv_next_run (k s0).2 = sv_next_run s0 /\ sv_processing (k s0).2 = false) ->
  sv_next_run (processing m k s).2 = sv_next_run s /\ sv_processing (processing m k s).2 = false.
Proof.
  intros Hm Hk. unfold processing, st_bind, set_processing, st_modify.
  match goal with |- context [m ?x] => pose proof (Hm x) as [E1 _]; destruct (m x) as [st s1] end.
  cbn [snd sv_next_run] in E1. destruct (negb _); [by simpl|].
  match goal with |- context [k ?x] => destruct (Hk x eq_refl) as [E2 E3] end.
  cbn [sv_next_run] in E2. split; [congruence|done].
Qed.

Lemma schedule_keeps cur n s :
  let '(st, s') := wreplsrv_periodic_schedule cur n s in
  st = NT_STATUS_OK /\ sv_next_run s' = sv_next_run s /\ sv_processing s' = sv_processing s /\
  sv_db s' = sv_db s /\ sv_sent s' = sv_sent s.
Proof.
  unfold wreplsrv_periodic_schedule, st_bind, st_get, st_modify, st_ret.
  cbv zeta. destruct (sv_next_event s) as [ev|]; [destruct (0 <? _)|]; done.
Qed.
End guard.

(** When a run scavenges.  A call before its time changes nothing.  A call
    that is due sets the time of the next run one interval ahead; the first one
    after the start, and one inside another run, touch neither the database nor
    the network.  Whatever fails, the mark of a running pass is as before. *)
Theorem scavenging_run_guard `{TimeCodec} `{LdbOrder} svc cur cur1 cur2 cur3 s :
  let s' := (wreplsrv_scavenging_run svc cur cur1 cur2 cur3 s).2 in
  (timeval_expired cur (sv_next_run s) = false -> s' = s) /\
  (timeval_expired cur (sv_next_run s) = true ->
     sv_next_run s' = timeval_add cur (scavenging_interval svc) 0 /\
     (timeval_is_zero (sv_next_run s) = true \/ sv_processing s = true ->
        sv_db s' = sv_db s /\ sv_sent s' = sv_sent s)) /\
  sv_processing s' = sv_processing s.
Proof.
  cbv zeta. set (r := wreplsrv_scavenging_run _ _ _ _ _ s). pattern r.
  match goal with |- ?P r => set (Q := P) end. subst r.
  unfold wreplsrv_scavenging_run, st_bind at 1, st_get at 1.
  destruct (timeval_expired cur (sv_next_run s)) eqn:Eexp; cbn [negb]; [|by subst Q].
  unfold st_bind at 1 2, set_next_run, st_modify at 1.
  set (s1 := mk_scav _ _ _ _ _). pose proof (schedule_keeps cur (scavenging_interval svc) s1) as Hs.
  destruct (wreplsrv_periodic_schedule _ _ s1) as [st s2].
  destruct Hs as (-> & Hn2 & Hp2 & Hd2 & Hs2). subst s1. cbn in Hn2, Hp2, Hd2, Hs2.
  change (NT_STATUS_IS_OK NT_STATUS_OK) with true. cbn [negb].
  destruct (timeval_is_zero (sv_next_run s)) eqn:Ez; [by subst Q|].
  unfold st_bind, st_get. rewrite Hp2. destruct (sv_processing s) eqn:Ep; [by subst Q|].
  match goal with |- Q (processing ?m ?k s2) =>
    destruct (processing_resets m k s2) as [E1 E2] end.
  - apply guard_on_db.
  - intros s0 _. apply processing_resets; [apply guard_on_db|]. intros s3 _.
    apply processing_resets; [apply keeps_replica_active|]. by intros.
  - subst Q. cbv beta. split; [done|]. rewrite E1, E2. split; [|done]. intros _.
    split; [done|]. by intros [|].
Qed.

(** ** Witnesses *)

Definition map_order : LdbOrder := {| ldb_order := map_to_list; ldb_order_perm m := reflexivity _ |}.

Definition ex_svc : wreplsrv_service := mk_service ex_wh (mk_tv 100 0) 600 1200 300 900 60 true.
Definition ex_rec : winsdb_record :=
  mk_wrec ex_name WREPL_TYPE_UNIQUE WREPL_STATE_ACTIVE WREPL_NODE_P false 5000 3 "10.0.0.1"
    [mk_addr "10.1.1.1" "10.0.0.1" 5000] (Some "10.1.1.1"%string).
Definition ex_msg : wins_message := (winsdb_message (H:=ldb_time) ex_rec).1.
Definition ex_db : wdb := mk_wdb {[ wins_key ex_name := ex_msg ]} (Some 3) None [].

Lemma ex_stored : stored_as (H:=ldb_time) ex_svc (wins_key ex_name) ex_rec ex_msg.
Proof.
  split; [exact eq_refl|]. split; [exact eq_refl|]. split; [|discriminate].
  constructor; simpl; try lia; try discriminate; try exact I; [exact ex_name_clean|apply NoDup_singleton|].
  intros _. split; [|intros _ _; split; [lia|]]; apply List.Forall_cons; try apply List.Forall_nil;
    simpl; [constructor; simpl; try done; lia|lia].
Defined.

Lemma ex_db_ok : db_ok (H:=ldb_time) ex_svc ex_db.
Proof.
  intros dn msg E. unfold ex_db in E. cbn [wdb_recs] in E.
  apply lookup_singleton_Some in E as [<- <-]. exists ex_rec. apply ex_stored.
Defined.

Lemma ex_config now : 0 < now < 2 ^ 30 -> config_ok ex_svc now.
Proof. intros Hn. constructor; simpl; try lia; done. Defined.

Example scavenging_passes_correct_witness :
  wdb_recs (wreplsrv_scavenging_owned_records (H:=ldb_time) (H0:=map_order) ex_svc (mk_tv 5000 0) ex_db).2
    !! wins_key ex_name =
  Some (winsdb_message (H:=ldb_time) (set_state ex_rec WREPL_STATE_RELEASED 5600)).1.
Proof.
  assert (versions_left ex_db) as Hv by (split; vm_compute; congruence).
  pose proof (scavenging_passes_correct (H:=ldb_time) (H0:=map_order) ex_svc
    (mk_tv 5000 0) ex_db (ex_config 5000 ltac:(lia)) Hv ex_db_ok) as [[Hp _] _].
  exact (proj1 (pass_done_at (H:=ldb_time) ex_svc _ _ _ ex_db (wins_key ex_name) ex_rec ex_msg Hp
    (conj eq_refl eq_refl) ltac:(vm_compute; reflexivity) ex_stored ltac:(vm_compute; reflexivity))).
Defined.

Example name_expires_witness :
  wdb_recs (wreplsrv_scavenging_owned_records (H:=ldb_time) (H0:=map_order) ex_svc (mk_tv 6800 0)
    (wreplsrv_scavenging_owned_records (H:=ldb_time) (H0:=map_order) ex_svc (mk_tv 5600 0)
      (wreplsrv_scavenging_owned_records (H:=ldb_time) (H0:=map_order) ex_svc (mk_tv 5000 0)
        ex_db).2).2).2 !! wins_key ex_name = None.
Proof.
  destruct (name_expires (H:=ldb_time) (H0:=map_order) ex_svc (mk_tv 5000 0)
    (mk_tv 5600 0) (mk_tv 6800 0) ex_db (wins_key ex_name) ex_rec ex_db_ok) as (_ & _ & E);
    [split; reflexivity|vm_compute; reflexivity|exact ex_stored|reflexivity|reflexivity|reflexivity
    |split; vm_compute; congruence|split; vm_compute; congruence|split; vm_compute; congruence
    |apply ex_config; simpl; lia|apply ex_config; simpl; lia|apply ex_config; simpl; lia
    |simpl; lia|simpl; lia|simpl; lia|vm_compute; reflexivity|exact E].
Defined.

(** The record was renewed by its holder after the question was sent: the answer
    that the owner no longer has the name deletes it all the same. *)
Definition ex_renewed : winsdb_record := set_version (set_state ex_rec WREPL_STATE_ACTIVE 9000) 4.
Definition ex_db_renewed : wdb :=
  mk_wdb {[ wins_key ex_name := (winsdb_message (H:=ldb_time) ex_renewed).1 ]} (Some 4) None [].

Example verify_handler_correct_witness :
  wdb_recs (verify_handler (H:=ldb_time) ex_svc (mk_verify ex_rec "10.0.0.2")
    NT_STATUS_OBJECT_NAME_NOT_FOUND [] 8000 ex_db_renewed).2 !! wins_key ex_name = None.
Proof.
  destruct (verify_handler_correct (H:=ldb_time) ex_svc
    (mk_verify ex_rec "10.0.0.2") NT_STATUS_OBJECT_NAME_NOT_FOUND [] 8000
    (winsdb_message (H:=ldb_time) ex_renewed).1 ex_db_renewed) as (_ & _ & E & _);
    [vm_compute; reflexivity|split; [vm_compute; congruence|vm_compute; reflexivity]|].
  exact (E (conj eq_refl eq_refl)).
Defined.
