(* ===== verification/WinsServer.v ===== *)
(** * The WINS server ([source4/nbt_server/wins/winsserver.c], [winswack.c])

    Clients register, refresh, query and release NetBIOS names.  The state is
    the WINS database, the packets sent, and the challenges under way.  When a
    client asks for a unique name that somebody else holds, the server tells it
    to wait (a WACK), asks the holder at its addresses one after the other
    ([wins_challenge_send], [wins_challenge_handler]) and decides when the
    answer is in ([wack_wins_challenge_handler]).  The handlers run to
    completion one at a time, so the answer to a challenge is a later step with
    the [wack_state] it was sent with.

    [now] is what [time(NULL)] returns during a step, [inet_addr] and
    [gethostbyname] are the functions of the C library, with the 32 bits of an
    address as a number.  Memory allocation succeeds. *)

From S2P Require Import Prelude NtStatus CLib LdbQsort LdbTime WinsName WinsDb.
From Stdlib Require Import Ascii.

Local Open Scope Z_scope.

(** ** Data *)

(** The values of [librpc/idl/nbt.idl]. *)
Definition NBT_FLAG_BROADCAST : Z := 0x10.
Definition NBT_OPCODE : Z := 0x7800.
Definition NBT_OPCODE_QUERY : Z := Z.shiftl 0x0 11.
Definition NBT_OPCODE_REGISTER : Z := Z.shiftl 0x5 11.
Definition NBT_OPCODE_RELEASE : Z := Z.shiftl 0x6 11.
Definition NBT_OPCODE_REFRESH : Z := Z.shiftl 0x8 11.
Definition NBT_OPCODE_REFRESH2 : Z := Z.shiftl 0x9 11.
Definition NBT_OPCODE_MULTI_HOME_REG : Z := Z.shiftl 0xf 11.
Definition NBT_RCODE_RFS : Z := 5.
Definition NBT_RCODE_ACT : Z := 6.
Definition NBT_NAME_CLIENT : Z := 0x00.
Definition NBT_NAME_SERVER : Z := 0x20.
Definition NBT_NAME_PDC : Z := 0x1B.
Definition NBT_NAME_LOGON : Z := 0x1C.
Definition NBT_NAME_MASTER : Z := 0x1D.
Definition NBT_NAME_BROWSER : Z := 0x1E.
Definition NBT_NM_OWNER_TYPE : Z := 0x6000.
Definition NBT_NM_GROUP : Z := 0x8000.

(** [struct wins_server] with its configuration, the parameters the handlers
    look up, and whether the server has a network interface at all. *)
Record wins_server : Set := mk_winssrv {
  wins_db : winsdb_handle;
  min_renew_interval : Z;
  max_renew_interval : Z;
  tombstone_interval : Z;
  tombstone_timeout : Z;
  lp_wins_dns_proxy : bool;
  wins_prepend1Bto1Cqueries : bool;
  wins_randomize1Clist : bool;
  wins_randomize1Clist_mask : option string;
  has_interface : bool
}.

(** What the handlers read of a request: the operation word, the question, and
    the first address of the additional record. *)
Record nbt_name_packet : Set := mk_packet {
  p_operation : Z;
  p_name : nbt_name;
  p_ttl : Z;
  p_nb_flags : Z;
  p_ipaddr : string
}.

Record wack_state : Set := mk_wack {
  request_packet : nbt_name_packet;
  w_rec : winsdb_record;
  w_src : string;
  reg_address : string;
  new_type : wrepl_name_type
}.

(** A challenge under way: the addresses to ask and the index of the one that
    has been asked. *)
Record wins_challenge : Set := mk_challenge {
  ch_wack : wack_state;
  ch_addresses : list string;
  current_address : nat
}.

(** The packets sent; the challenge query carries the challenge it belongs to. *)
Inductive nbt_out : Set :=
  | name_registration_reply (to : string) (p : nbt_name_packet) (rcode : Z)
  | wack_reply (to : string) (p : nbt_name_packet) (ttl : Z)
  | name_query_reply (to : string) (p : nbt_name_packet) (nb_flags : Z) (addrs : list string)
  | negative_name_query_reply (to : string) (p : nbt_name_packet)
  | wins_dns_proxy_query (to : string) (p : nbt_name_packet)
  | name_release_reply (to : string) (p : nbt_name_packet) (rcode : Z)
  | challenge_query (to : option string) (c : wins_challenge).

Record nbtd : Set := mk_nbtd { nb_db : wdb; nb_out : list nbt_out }.

Definition on_db {A} (m : ST wdb A) : ST nbtd A := fun s =>
  let '(a, w) := m (nb_db s) in (a, mk_nbtd w (nb_out s)).

Definition send (x : nbt_out) : ST nbtd unit :=
  st_modify (fun s => mk_nbtd (nb_db s) (nb_out s ++ [x])).

(** ** Registration *)

Definition wins_server_ttl (srv : wins_server) (ttl : Z) : Z :=
  let ttl := Z.min ttl (max_renew_interval srv) in
  Z.max ttl (min_renew_interval srv).

Definition wrepl_type (nb_flags : Z) (n : nbt_name) (mhomed : bool) : wrepl_name_type :=
  if nn_type n =? NBT_NAME_LOGON then WREPL_TYPE_SGROUP
  else if nb_flags &? NBT_NM_GROUP then WREPL_TYPE_GROUP
  else if mhomed then WREPL_TYPE_MHOMED
  else WREPL_TYPE_UNIQUE.

(** The enum of a value in 0..3, and back. *)
Definition node_of (v : Z) : wrepl_name_node :=
  if v =? 0 then WREPL_NODE_B else if v =? 1 then WREPL_NODE_P
  else if v =? 2 then WREPL_NODE_M else WREPL_NODE_H.
Definition node_value (n : wrepl_name_node) : Z :=
  match n with
  | WREPL_NODE_B => 0 | WREPL_NODE_P => 1 | WREPL_NODE_M => 2 | WREPL_NODE_H => 3
  end.

Definition WREPL_NODE_NBT_FLAGS (nb_flags : Z) : wrepl_name_node :=
  node_of (Z.shiftr (Z.land nb_flags NBT_NM_OWNER_TYPE) 13).

Definition set_addresses (rec : winsdb_record) (l : list winsdb_addr) : winsdb_record :=
  mk_wrec (name rec) (type rec) (state rec) (node rec) (is_static rec) (expire_time rec)
    (version rec) (wins_owner rec) l (registered_by rec).
Definition set_registered (rec : winsdb_record) (expire : Z) (src : string) : winsdb_record :=
  mk_wrec (name rec) (type rec) (state rec) (node rec) (is_static rec) expire
    (version rec) (wins_owner rec) (addresses rec) (Some src).
Definition set_type (rec : winsdb_record) (t : wrepl_name_type) : winsdb_record :=
  mk_wrec (name rec) t (state rec) (node rec) (is_static rec) (expire_time rec)
    (version rec) (wins_owner rec) (addresses rec) (registered_by rec).
Definition set_state (rec : winsdb_record) (st : wrepl_name_state) (expire : Z) : winsdb_record :=
  mk_wrec (name rec) (type rec) st (node rec) (is_static rec) expire
    (version rec) (wins_owner rec) (addresses rec) (registered_by rec).

Definition TAKE : Z := WINSDB_FLAG_ALLOC_VERSION ||| WINSDB_FLAG_TAKE_OWNERSHIP.

Section server.
Context `{TimeCodec} `{LdbQsort} (srv : wins_server) (now : Z).
Context (inet_addr : string -> Z) (gethostbyname : string -> option Z).

(** [winsdb_addr_list_add] as the server calls it. *)
Definition add_own (l : list winsdb_addr) (a : string) (expire : Z) : list winsdb_addr :=
  winsdb_addr_list_add (wins_db srv) l a (local_owner (wins_db srv)) expire true.

(** The record of [wins_register_new]; [wins_owner] is set by the store. *)
Definition new_record (packet : nbt_name_packet) (src : string) (ty : wrepl_name_type)
    : winsdb_record :=
  let expire := now + wins_server_ttl srv (p_ttl packet) in
  mk_wrec (p_name packet) ty WREPL_STATE_ACTIVE (WREPL_NODE_NBT_FLAGS (p_nb_flags packet)) false
    expire 0 "" (add_own winsdb_addr_list_make (p_ipaddr packet) expire) (Some src).

Definition wins_register_new (packet : nbt_name_packet) (src : string) (ty : wrepl_name_type)
    : ST nbtd Z :=
  do r <- on_db (winsdb_add (wins_db srv) (new_record packet src ty) TAKE);
  st_ret r.1.

Definition wins_update_ttl (packet : nbt_name_packet) (rec : winsdb_record)
    (addr : option winsdb_addr) (src : string) : ST nbtd Z :=
  let rec := set_registered rec (now + wins_server_ttl srv (p_ttl packet)) src in
  let rec := match addr with
             | Some a => set_addresses rec (add_own (addresses rec) (address a) (expire_time rec))
             | None => rec
             end in
  let modify_flags := if negb (bool_decide (local_owner (wins_db srv) = wins_owner rec))
                      then TAKE else 0 in
  do r <- on_db (winsdb_modify (wins_db srv) rec modify_flags);
  st_ret r.1.

Definition wins_sgroup_merge (packet : nbt_name_packet) (rec : winsdb_record) (a : string)
    (src : string) : ST nbtd Z :=
  let rec := set_registered rec (now + wins_server_ttl srv (p_ttl packet)) src in
  let rec := set_addresses rec (add_own (addresses rec) a (expire_time rec)) in
  do r <- on_db (winsdb_modify (wins_db srv) rec TAKE);
  st_ret r.1.

Definition registration_reply (packet : nbt_name_packet) (src : string) (rcode : Z)
    : ST nbtd unit := send (name_registration_reply src packet rcode).

(** ** Challenges *)

(** [nbtd_find_request_iface] with [allow_bcast_iface]: it falls back to the
    broadcast interface and to the first one, so it finds one when there is one. *)
Definition nbtd_find_request_iface (a : option string) : bool := has_interface srv.

(** [false]: no request could be sent. *)
Definition wins_challenge_send (st : wack_state) (addrs : list string) : ST nbtd bool :=
  let dest_addr := addrs !! 0%nat in
  if negb (nbtd_find_request_iface dest_addr) then st_ret false
  else do! send (challenge_query dest_addr (mk_challenge st addrs 0)); st_ret true.

Definition wins_wack_deny (s : wack_state) : ST nbtd unit :=
  registration_reply (request_packet s) (w_src s) NBT_RCODE_ACT.

(** The loop over the addresses of the record.  The index goes up also when
    the entry it points to is removed. *)
Fixpoint wack_addresses (fuel : nat) (l : list winsdb_addr) (i : nat) (out : list string)
    (reg : string) (expire : Z) : option (list winsdb_addr) :=
  match l !! i with
  | None => Some l
  | Some a =>
      match fuel with
      | O => None
      | S fuel =>
          if existsb (fun o => bool_decide (address a = o)) out
          then wack_addresses fuel (add_own l reg expire) (S i) out reg expire
          else wack_addresses fuel (winsdb_addr_list_remove l (address a)) (S i) out reg expire
      end
  end.

(** The record a successful challenge stores ([None]: the loop ran out of
    fuel). *)
Definition wack_record (s : wack_state) (out : list string) : option winsdb_record :=
  let ttl := wins_server_ttl srv (p_ttl (request_packet s)) in
  let rec := set_registered (w_rec s) (now + ttl) (w_src s) in
  match wack_addresses (S (Nat.max (length (addresses rec)) 25)) (addresses rec) 0 out
          (reg_address s) (expire_time rec) with
  | None => None
  | Some l =>
      let rec := set_addresses rec (add_own l (reg_address s) (expire_time rec)) in
      Some (if 1 <? winsdb_addr_list_length (addresses rec)
            then set_type rec WREPL_TYPE_MHOMED else rec)
  end.

Definition wins_wack_allow (s : wack_state) (status : NTSTATUS) (out : list string)
    : ST nbtd unit :=
  do found <- on_db (winsdb_lookup (wins_db srv) (name (w_rec s)) now);
  match found with
  | inl _ => wins_wack_deny s
  | inr rec2 =>
      if negb (version rec2 =? version (w_rec s)) ||
         negb (bool_decide (wins_owner rec2 = wins_owner (w_rec s)))
      then wins_wack_deny s
      else if negb (NT_STATUS_IS_OK status) then
        do! on_db (winsdb_delete (w_rec s));
        do rcode <- wins_register_new (request_packet s) (w_src s) (new_type s);
        if negb (rcode =? NBT_RCODE_OK) then wins_wack_deny s
        else registration_reply (request_packet s) (w_src s) NBT_RCODE_OK
      else
        match wack_record s out with
        | None => st_ret tt
        | Some rec =>
            do! on_db (winsdb_modify (wins_db srv) rec TAKE);
            registration_reply (request_packet s) (w_src s) NBT_RCODE_OK
        end
  end.

(** [out]: the addresses of the answer; none when [status] is an error. *)
Definition wack_wins_challenge_handler (s : wack_state) (status : NTSTATUS) (out : list string)
    : ST nbtd unit :=
  if negb (NT_STATUS_IS_OK status) then wins_wack_allow s status out
  else if type_is (new_type s) WREPL_TYPE_GROUP || type_is (new_type s) WREPL_TYPE_SGROUP
  then wins_wack_deny s
  else if negb (existsb (fun o => bool_decide (reg_address s = o)) out) then wins_wack_deny s
  else wins_wack_allow s status out.

(** The answer to a challenge query, or its time-out. *)
Definition wins_challenge_handler (c : wins_challenge) (status : NTSTATUS) (out : list string)
    : ST nbtd unit :=
  let finish (status : NTSTATUS) :=
    wack_wins_challenge_handler (ch_wack c) status
      (if NT_STATUS_IS_OK status then out else []) in
  if NT_STATUS_EQUAL status NT_STATUS_IO_TIMEOUT then
    let i := S (current_address c) in
    match ch_addresses c !! i with
    | Some a =>
        if negb (nbtd_find_request_iface (Some a)) then finish NT_STATUS_INTERNAL_ERROR
        else send (challenge_query (Some a) (mk_challenge (ch_wack c) (ch_addresses c) i))
    | None => finish status
    end
  else finish status.

Definition wins_register_wack (packet : nbt_name_packet) (rec : winsdb_record) (src : string)
    (ty : wrepl_name_type) : ST nbtd unit :=
  let s := mk_wack packet rec src (p_ipaddr packet) ty in
  let ttl := 5 + 4 * winsdb_addr_list_length (addresses rec) in
  do! send (wack_reply src packet ttl);
  do sent <- wins_challenge_send s (winsdb_addr_string_list (addresses rec));
  if negb (sent : bool) then registration_reply packet src NBT_RCODE_SVR else st_ret tt.

(** ** The register handler *)

Definition nbtd_winsserver_register (packet : nbt_name_packet) (src : string) : ST nbtd unit :=
  let n := p_name packet in
  let nb_flags := p_nb_flags packet in
  let a := p_ipaddr packet in
  let mhomed := Z.land (p_operation packet) NBT_OPCODE =? NBT_OPCODE_MULTI_HOME_REG in
  let ty := wrepl_type nb_flags n mhomed in
  let done := registration_reply packet src in
  if (nn_type n =? NBT_NAME_MASTER) && negb (nb_flags &? NBT_NM_GROUP) then done NBT_RCODE_OK
  else if (nn_type n =? NBT_NAME_PDC) && (nb_flags &? NBT_NM_GROUP) then done NBT_RCODE_RFS
  else if (nn_type n =? NBT_NAME_LOGON) && negb (nb_flags &? NBT_NM_GROUP) then done NBT_RCODE_RFS
  else if (nn_type n =? NBT_NAME_BROWSER) && negb (nb_flags &? NBT_NM_GROUP) then done NBT_RCODE_RFS
  else
    do found <- on_db (winsdb_lookup (wins_db srv) n now);
    match found with
    | inl status =>
        if NT_STATUS_EQUAL NT_STATUS_OBJECT_NAME_NOT_FOUND status
        then do rcode <- wins_register_new packet src ty; done rcode
        else done NBT_RCODE_SVR
    | inr rec =>
        if is_static rec then
          if type_is (type rec) WREPL_TYPE_GROUP || type_is (type rec) WREPL_TYPE_SGROUP
          then done NBT_RCODE_OK else done NBT_RCODE_ACT
        else if type_is (type rec) WREPL_TYPE_GROUP then
          if negb (type_is ty WREPL_TYPE_GROUP) then done NBT_RCODE_ACT
          else if state_is (state rec) WREPL_STATE_ACTIVE
          then do rcode <- wins_update_ttl packet rec None src; done rcode
          else do! on_db (winsdb_delete rec);
               do rcode <- wins_register_new packet src ty; done rcode
        else if negb (state_is (state rec) WREPL_STATE_ACTIVE) then
          do! on_db (winsdb_delete rec);
          do rcode <- wins_register_new packet src ty; done rcode
        else
          match type rec with
          | WREPL_TYPE_UNIQUE | WREPL_TYPE_MHOMED =>
              if type_is ty WREPL_TYPE_GROUP || type_is ty WREPL_TYPE_GROUP
              then wins_register_wack packet rec src ty
              else
                match winsdb_addr_list_check (addresses rec) a with
                | Some addr => do rcode <- wins_update_ttl packet rec (Some addr) src; done rcode
                | None => wins_register_wack packet rec src ty
                end
          | WREPL_TYPE_GROUP => done NBT_RCODE_ACT
          | WREPL_TYPE_SGROUP =>
              if negb (type_is ty WREPL_TYPE_SGROUP) then done NBT_RCODE_ACT
              else
                match winsdb_addr_list_check (addresses rec) a with
                | Some addr => do rcode <- wins_update_ttl packet rec (Some addr) src; done rcode
                | None => do rcode <- wins_sgroup_merge packet rec a src; done rcode
                end
          end
    end.

(** ** Queries *)

(** The tests of [is_ipaddress]. *)
Fixpoint has_dot (s : string) : bool :=
  match s with String c s' => bool_decide (c = "."%char) || has_dot s' | EmptyString => false end.
Fixpoint digits_and_dots (s : string) : bool :=
  match s with
  | String c s' => (is_digit c || bool_decide (c = "."%char)) && digits_and_dots s'
  | EmptyString => true
  end.
Definition is_ipaddress (s : string) : bool := digits_and_dots s && has_dot s.

Definition interpret_addr (s : string) : Z :=
  if bool_decide (s = ""%string) || bool_decide (s = "0.0.0.0"%string) then 0
  else if bool_decide (s = "255.255.255.255"%string) then 0xFFFFFFFF
  else
    let s := if strcaseeq s "localhost" then "127.0.0.1"%string else s in
    match (if is_ipaddress s then Some (inet_addr s) else gethostbyname s) with
    | None => 0
    | Some res => if res =? 0xFFFFFFFF then 0 else res
    end.

Definition same_net (ip1 ip2 mask : Z) : bool := Z.land ip1 mask =? Z.land ip2 mask.

Definition iface_same_net (ip1 ip2 netmask : string) : bool :=
  same_net (interpret_addr ip1) (interpret_addr ip2) (interpret_addr netmask).

(** Byte [i] of an address in network order. *)
Definition ip_byte (ip : Z) (i : nat) : Z := Z.land (Z.shiftr ip (24 - 8 * Z.of_nat i)) 0xff.

(** The loop over the bits of a byte, [k] of them left. *)
Fixpoint match_bits (k : nat) (x y : Z) (match_ : Z) : Z :=
  match k with
  | O => match_
  | S k => if negb (Z.land x (Z.shiftl 1 (Z.of_nat k)) =? Z.land y (Z.shiftl 1 (Z.of_nat k)))
           then match_ else match_bits k x y (match_ + 1)
  end.

(** The loop over the bytes, [k] of them left. *)
Fixpoint match_bytes (k : nat) (ip1 ip2 : Z) (match_ : Z) : Z :=
  match k with
  | O => match_
  | S k => let i := (3 - k)%nat in
           if negb (ip_byte ip1 i =? ip_byte ip2 i) then match_bits 8 (ip_byte ip1 i) (ip_byte ip2 i) match_
           else match_bytes k ip1 ip2 (match_ + 8)
  end.

Definition ipv4_match_bits (ip1 ip2 : Z) : Z := match_bytes 4 ip1 ip2 0.

Definition nbtd_wins_randomize1Clist_sort (src a1 a2 : string) : Z :=
  let match_bits1 := ipv4_match_bits (interpret_addr a1) (interpret_addr src) in
  let match_bits2 := ipv4_match_bits (interpret_addr a2) (interpret_addr src) in
  s32 (u32 (match_bits2 - match_bits1)).

(** The loop that chooses the first address; [r] is what [random()] gave. *)
Fixpoint choose_first (fuel : nat) (addrs : list string) (src mask : string) (r idx sidx : Z)
    : option Z :=
  match fuel with
  | O => None
  | S fuel =>
      if iface_same_net (default ""%string (addrs !! Z.to_nat idx)) src mask then Some idx
      else if idx =? 0 then Some sidx
      else choose_first fuel addrs src mask r (u32 r mod idx) sidx
  end.

Definition nbtd_wins_randomize1Clist (addrs : list string) (src : string) (r : Z)
    : option (list string) :=
  let num_addrs := Z.of_nat (length addrs) in
  if num_addrs <=? 1 then Some addrs
  else
    let addrs := ldb_qsort (nbtd_wins_randomize1Clist_sort src) addrs in
    let mask := default "255.255.255.0"%string (wins_randomize1Clist_mask srv) in
    let idx := u32 r mod num_addrs in
    match choose_first (S (length addrs)) addrs src mask r idx idx with
    | None => None
    | Some sidx =>
        let tmp := default ""%string (addrs !! 0%nat) in
        let addrs := <[0%nat := default ""%string (addrs !! Z.to_nat sidx)]> addrs in
        Some (<[Z.to_nat sidx := tmp]> addrs)
    end.

(** The loop that puts the 0x1B address first. *)
Fixpoint prepend_1b (first : string) (num_addrs : nat) (l : list string) : list string :=
  match l with
  | [] => []
  | a :: l' =>
      if bool_decide (first = a) then prepend_1b first num_addrs l'
      else if (25 <=? num_addrs)%nat then []
      else a :: prepend_1b first (S num_addrs) l'
  end.

Definition name_1b (n : nbt_name) : nbt_name := mk_nbt_name (nn_name n) (nn_scope n) NBT_NAME_PDC.

Definition nbtd_winsserver_query (packet : nbt_name_packet) (src : string) (r : Z) : ST nbtd unit :=
  let n := p_name packet in
  let notfound := send (negative_name_query_reply src packet) in
  let reply nb_flags addrs := send (name_query_reply src packet nb_flags addrs) in
  if nn_type n =? NBT_NAME_MASTER then notfound
  else
    do addresses_1b <-
      (if (nn_type n =? NBT_NAME_LOGON) && wins_prepend1Bto1Cqueries srv then
         do found <- on_db (winsdb_lookup (wins_db srv) (name_1b n) now);
         st_ret (match found with
                 | inr rec_1b => Some (winsdb_addr_string_list (addresses rec_1b))
                 | inl _ => None
                 end)
       else st_ret None);
    do found <- on_db (winsdb_lookup (wins_db srv) n now);
    match found with
    | inl _ =>
        if negb (lp_wins_dns_proxy srv) then notfound
        else if negb (nn_type n =? NBT_NAME_CLIENT) && negb (nn_type n =? NBT_NAME_SERVER)
        then notfound
        else send (wins_dns_proxy_query src packet)
    | inr rec =>
        if type_is (type rec) WREPL_TYPE_GROUP then reply NBT_NM_GROUP ["255.255.255.255"%string]
        else if negb (state_is (state rec) WREPL_STATE_ACTIVE) then notfound
        else
          let addrs := winsdb_addr_string_list (addresses rec) in
          let addrs := match addresses_1b with
                       | Some (first :: _) => first :: prepend_1b first 1 addrs
                       | _ => addrs
                       end in
          let nb_flags := if type_is (type rec) WREPL_TYPE_SGROUP then NBT_NM_GROUP
                          else Z.shiftl (node_value (node rec)) 13 in
          if (nn_type n =? NBT_NAME_LOGON) && wins_randomize1Clist srv then
            match nbtd_wins_randomize1Clist addrs src r with
            | Some addrs => reply nb_flags addrs
            | None => st_ret tt
            end
          else reply nb_flags addrs
    end.

(** ** Releases *)

(** The record after a release from [src]. *)
Definition released_record (rec : winsdb_record) (src : string) : winsdb_record :=
  match type rec with
  | WREPL_TYPE_UNIQUE | WREPL_TYPE_GROUP =>
      set_state rec WREPL_STATE_RELEASED (expire_time rec)
  | WREPL_TYPE_SGROUP | WREPL_TYPE_MHOMED =>
      let rec := set_addresses rec (winsdb_addr_list_remove (addresses rec) src) in
      if winsdb_addr_list_length (addresses rec) =? 0
      then set_state rec WREPL_STATE_RELEASED (expire_time rec) else rec
  end.

Definition nbtd_winsserver_release (packet : nbt_name_packet) (src : string) : ST nbtd unit :=
  let n := p_name packet in
  let done := send (name_release_reply src packet NBT_RCODE_OK) in
  if nn_type n =? NBT_NAME_MASTER then done
  else
    do found <- on_db (winsdb_lookup (wins_db srv) n now);
    match found with
    | inl _ => done
    | inr rec =>
        if is_static rec then
          if type_is (type rec) WREPL_TYPE_UNIQUE || type_is (type rec) WREPL_TYPE_MHOMED
          then done else send (name_release_reply src packet NBT_RCODE_ACT)
        else if negb (state_is (state rec) WREPL_STATE_ACTIVE) then done
        else
          match winsdb_addr_list_check (addresses rec) src with
          | None => done
          | Some _ =>
              let rec := released_record rec src in
              let '(rec, modify_flags) :=
                if state_is (state rec) WREPL_STATE_RELEASED then
                  if bool_decide (wins_owner rec = local_owner (wins_db srv))
                  then (set_state rec WREPL_STATE_RELEASED (now + tombstone_interval srv), 0)
                  else (set_state rec WREPL_STATE_TOMBSTONE
                          (now + tombstone_interval srv + tombstone_timeout srv), TAKE)
                else (rec, 0) in
              do! on_db (winsdb_modify (wins_db srv) rec modify_flags);
              done
          end
    end.

Definition nbtd_winsserver_request (packet : nbt_name_packet) (src : string) (r : Z) : ST nbtd unit :=
  if p_operation packet &? NBT_FLAG_BROADCAST then st_ret tt
  else
    let op := Z.land (p_operation packet) NBT_OPCODE in
    if op =? NBT_OPCODE_QUERY then nbtd_winsserver_query packet src r
    else if (op =? NBT_OPCODE_REGISTER) || (op =? NBT_OPCODE_REFRESH) ||
            (op =? NBT_OPCODE_REFRESH2) || (op =? NBT_OPCODE_MULTI_HOME_REG)
    then nbtd_winsserver_register packet src
    else if op =? NBT_OPCODE_RELEASE then nbtd_winsserver_release packet src
    else st_ret tt.
End server.

(** ** Frames *)

Lemma keeps_on_db {A B} (f : wdb -> B) (m : ST wdb A) : keeps f m -> keeps (fun s => f (nb_db s)) (on_db m).
Proof. intros Hm s. unfold on_db. specialize (Hm (nb_db s)). by destruct (m (nb_db s)). Qed.

Lemma keeps_on_db_out {A} (m : ST wdb A) : keeps nb_out (on_db m).
Proof. intros s. unfold on_db. by destruct (m (nb_db s)). Qed.

Lemma keeps_send {B} (f : wdb -> B) x : keeps (fun s => f (nb_db s)) (send x).
Proof. by intros s. Qed.

Lemma keeps_lookup `{TimeCodec} h n now : keeps wdb_recs (winsdb_lookup h n now).
Proof.
  intros w. pose proof (winsdb_lookup_spec h n now w) as Hl.
  by destruct (winsdb_lookup h n now w) as [r w']; destruct Hl as ([Hr _] & _).
Qed.

(** The lookup of a handler: an LDB failure, or what the database holds. *)
Definition lookup_result `{TimeCodec} (h : winsdb_handle) (n : nbt_name) (now : Z) (w : wdb)
    : NTSTATUS + winsdb_record :=
  match (match wins_key n with Some _ => wdb_recs w !! wins_key n | None => None end) with
  | None => inl NT_STATUS_OBJECT_NAME_NOT_FOUND
  | Some msg => winsdb_record_of h msg now
  end.

Lemma on_db_lookup `{TimeCodec} h n now s :
  exists w' r, on_db (winsdb_lookup h n now) s = (r, mk_nbtd w' (nb_out s)) /\
  wdb_recs w' = wdb_recs (nb_db s) /\
  (r = inl NT_STATUS_INTERNAL_DB_CORRUPTION \/ r = lookup_result h n now (nb_db s)).
Proof.
  unfold on_db, winsdb_lookup, lookup_result, ldb_search_dn, st_bind, st_get, st_ret.
  next_ldb_fault; eexists _, _; (split; [done|]); (split; [done|]); [by left|right].
  destruct (wins_key n) as [k|]; [|done]. by rewrite H0.
Qed.

(** A record that is found is one of the database. *)
Lemma lookup_result_found `{TimeCodec} h n now w rec : lookup_result h n now w = inr rec ->
  exists msg, wdb_recs w !! wins_key n = Some msg /\ winsdb_record_of h msg now = inr rec.
Proof.
  unfold lookup_result. destruct (wins_key n) as [k|]; [|done].
  destruct (wdb_recs w !! Some k) as [msg|]; [|done]. by exists msg.
Qed.

(** ** Registration *)

Section register.
Context `{TimeCodec} `{LdbQsort} (srv : wins_server) (now : Z).

(** What the server sends when it has to ask the holder of a name. *)
Definition challenged (packet : nbt_name_packet) (src : string) (rec : winsdb_record)
    (ty : wrepl_name_type) : list nbt_out :=
  let addrs := winsdb_addr_string_list (addresses rec) in
  wack_reply src packet (5 + 4 * winsdb_addr_list_length (addresses rec)) ::
  (if has_interface srv
   then [challenge_query (addrs !! 0%nat)
           (mk_challenge (mk_wack packet rec src (p_ipaddr packet) ty) addrs 0)]
   else [name_registration_reply src packet NBT_RCODE_SVR]).

Lemma register_wack_eq packet rec src ty s :
  wins_register_wack srv packet rec src ty s =
  (tt, mk_nbtd (nb_db s) (nb_out s ++ challenged packet src rec ty)).
Proof.
  unfold wins_register_wack, challenged, wins_challenge_send, nbtd_find_request_iface, send,
    registration_reply, send, st_bind, st_ret, st_modify.
  by destruct (has_interface srv); simpl; rewrite <- app_assoc.
Qed.
End register.

(** The database is untouched, and what was sent refuses the request (a positive
    reply is for the master browser name only) or asks the holder. *)
Definition refused_or_challenged (srv : wins_server) (packet : nbt_name_packet) (src : string)
    (rec : winsdb_record) (s s' : nbtd) : Prop :=
  wdb_recs (nb_db s') = wdb_recs (nb_db s) /\
  exists sent, nb_out s' = nb_out s ++ sent /\
    ((exists rcode, sent = [name_registration_reply src packet rcode] /\
        (rcode = NBT_RCODE_OK -> nn_type (p_name packet) = NBT_NAME_MASTER)) \/
     (exists ty, sent = challenged srv packet src rec ty)).

(** A held name is not given away unasked.  When an active record of a
    unique or multi-homed name, that is not static, does not list the address a
    client wants to register, the register handler leaves the database as it
    is, whichever LDB calls fail.  It refuses, or tells the client to wait and
    asks the holder; it answers that the registration succeeded only for the
    master browser name, which is never stored. *)
Theorem held_name_challenged `{TimeCodec} `{LdbQsort} srv now packet src s rec :
  lookup_result (wins_db srv) (p_name packet) now (nb_db s) = inr rec ->
  is_static rec = false -> state rec = WREPL_STATE_ACTIVE ->
  type rec = WREPL_TYPE_UNIQUE \/ type rec = WREPL_TYPE_MHOMED ->
  winsdb_addr_list_check (addresses rec) (p_ipaddr packet) = None ->
  refused_or_challenged srv packet src rec s (nbtd_winsserver_register srv now packet src s).2.
Proof.
  intros Hrec Hst Hact Hty Ha.
  assert (Hreply : forall rcode s0, (rcode = NBT_RCODE_OK -> nn_type (p_name packet) = NBT_NAME_MASTER) ->
    wdb_recs (nb_db s0) = wdb_recs (nb_db s) -> nb_out s0 = nb_out s ->
    refused_or_challenged srv packet src rec s (registration_reply packet src rcode s0).2).
  { intros rcode s0 Hrc Hw Ho. split; [done|]. exists [name_registration_reply src packet rcode].
    simpl. rewrite Ho. split; [done|]. left. by exists rcode. }
  unfold nbtd_winsserver_register. cbv zeta.
  destruct ((nn_type (p_name packet) =? NBT_NAME_MASTER) && _) eqn:E1; [apply Hreply; [lia|done..]|].
  destruct ((nn_type (p_name packet) =? NBT_NAME_PDC) && _); [by apply Hreply|].
  destruct ((nn_type (p_name packet) =? NBT_NAME_LOGON) && _); [by apply Hreply|].
  destruct ((nn_type (p_name packet) =? NBT_NAME_BROWSER) && _); [by apply Hreply|].
  unfold st_bind at 1.
  destruct (on_db_lookup (wins_db srv) (p_name packet) now s) as (w' & r & -> & Hr & [-> | ->]).
  { by apply Hreply. }
  assert (Hwack : forall ty, refused_or_challenged srv packet src rec s
    (wins_register_wack srv packet rec src ty (mk_nbtd w' (nb_out s))).2).
  { intros ty. rewrite register_wack_eq. split; [done|]. eexists. split; [done|]. right. by exists ty. }
  rewrite Hrec, Hst.
  replace (type_is (type rec) WREPL_TYPE_GROUP) with false
    by (symmetry; apply bool_decide_eq_false; destruct Hty; congruence).
  unfold state_is. rewrite Hact, bool_decide_eq_true_2 by done. cbn [negb]. rewrite Ha.
  by destruct Hty as [-> | ->]; case_match.
Qed.

(** ** The answer to a challenge *)

(** The holder has given the name up, or names the new address as its own. *)
Definition holder_agrees (st : wack_state) (status : NTSTATUS) (out : list string) : Prop :=
  status <> NT_STATUS_OK \/
  (new_type st <> WREPL_TYPE_GROUP /\ new_type st <> WREPL_TYPE_SGROUP /\ reg_address st ∈ out).

(** The record is still the one the challenge was sent for. *)
Definition unchanged_since `{TimeCodec} (srv : wins_server) (now : Z) (st : wack_state) (s : nbtd) : Prop :=
  exists rec2, lookup_result (wins_db srv) (name (w_rec st)) now (nb_db s) = inr rec2 /\
    version rec2 = version (w_rec st) /\ wins_owner rec2 = wins_owner (w_rec st).

Section frames.
Context `{TimeCodec} `{LdbQsort} (srv : wins_server) (now : Z).

Abbreviation at_dn dn := (fun w => wdb_recs w !! dn).

Lemma keeps_modify h rec flags dn :
  dn <> wins_key (name rec) -> keeps (at_dn dn) (winsdb_modify h rec flags).
Proof. intros Hd w. by apply modify_frame. Qed.

Lemma keeps_add h rec flags dn :
  dn <> wins_key (name rec) -> keeps (at_dn dn) (winsdb_add h rec flags).
Proof. intros Hd w. by apply add_frame. Qed.

Lemma keeps_delete rec dn : dn <> wins_key (name rec) -> keeps (at_dn dn) (winsdb_delete rec).
Proof. intros Hd w. by apply delete_frame. Qed.

Lemma keeps_register_new packet src ty dn : dn <> wins_key (p_name packet) ->
  keeps (fun s => wdb_recs (nb_db s) !! dn) (wins_register_new srv now packet src ty).
Proof.
  intros Hd. unfold wins_register_new. apply keeps_bind; [|by intros ? ?].
  apply (keeps_on_db (at_dn dn)). by apply keeps_add.
Qed.

Lemma keeps_wack_allow st status out dn :
  dn <> wins_key (p_name (request_packet st)) -> dn <> wins_key (name (w_rec st)) ->
  keeps (fun s => wdb_recs (nb_db s) !! dn) (wins_wack_allow srv now st status out).
Proof.
  intros Hp Hn. unfold wins_wack_allow.
  assert (Hl : keeps (fun s => wdb_recs (nb_db s) !! dn) (on_db (winsdb_lookup (wins_db srv) (name (w_rec st)) now))).
  { apply (keeps_on_db (at_dn dn)). intros w. by rewrite keeps_lookup. }
  assert (Hr : forall x, keeps (fun s => wdb_recs (nb_db s) !! dn) (send x)) by (intros x s; done).
  assert (Hdel : keeps (fun s => wdb_recs (nb_db s) !! dn) (on_db (winsdb_delete (w_rec st))))
    by (by apply (keeps_on_db (at_dn dn)), keeps_delete).
  pose proof (fun ty => keeps_register_new (request_packet st) (w_src st) ty dn Hp) as Hreg.
  apply keeps_bind; [done|]. intros [x|rec2]; [apply Hr|].
  destruct (negb _ || _); [apply Hr|]. destruct (negb _).
  - apply keeps_bind; [done|]. intros _. apply keeps_bind; [done|]. intros rc.
    destruct (negb _); apply Hr.
  - destruct (wack_record srv now st out) as [rec|] eqn:Erec; [|by intros ?].
    apply keeps_bind; [|intros _; apply Hr]. apply (keeps_on_db (at_dn dn)). apply keeps_modify.
    enough (name rec = name (w_rec st)) as -> by done.
    unfold wack_record in Erec. destruct (wack_addresses _ _ _ _ _ _ _); [|done].
    injection Erec as <-. by case_match.
Qed.
End frames.

(** [m] sends nothing or one reply to the request. *)
Definition replies {A} (st : wack_state) (m : ST nbtd A) : Prop := forall s,
  exists sent, nb_out (m s).2 = nb_out s ++ sent /\
  (sent = [] \/ exists rcode, sent = [name_registration_reply (w_src st) (request_packet st) rcode]).

Lemma replies_ret {A} st (a : A) : replies st (st_ret a).
Proof. intros s. exists []. split; [by rewrite app_nil_r|by left]. Qed.

Lemma replies_reply st rcode : replies st (registration_reply (request_packet st) (w_src st) rcode).
Proof. intros s. eexists. split; [done|]. right. by eexists. Qed.

Lemma replies_quiet_bind {A B} st (m : ST nbtd A) (k : A -> ST nbtd B) :
  keeps nb_out m -> (forall a, replies st (k a)) -> replies st (st_bind m k).
Proof.
  intros Hm Hk s. unfold st_bind. specialize (Hm s). destruct (m s) as [a s1]. simpl in Hm.
  rewrite <- Hm. apply Hk.
Qed.

Section outcome.
Context `{TimeCodec} `{LdbQsort} (srv : wins_server) (now : Z).

Lemma replies_wack_allow st status out : replies st (wins_wack_allow srv now st status out).
Proof.
  unfold wins_wack_allow. apply replies_quiet_bind; [apply keeps_on_db_out|].
  intros [x|rec2]; [apply replies_reply|]. destruct (negb _ || _); [apply replies_reply|].
  destruct (negb _).
  - apply replies_quiet_bind; [apply keeps_on_db_out|]. intros _.
    apply replies_quiet_bind; [|intros rc; destruct (negb _); apply replies_reply].
    apply keeps_bind; [apply keeps_on_db_out|by intros ? ?].
  - destruct (wack_record _ _ _ _); [|apply replies_ret].
    apply replies_quiet_bind; [apply keeps_on_db_out|]. intros _. apply replies_reply.
Qed.

Lemma unchanged_since_dec st s : unchanged_since srv now st s \/ ~ unchanged_since srv now st s.
Proof.
  unfold unchanged_since. destruct (lookup_result _ _ _ _) as [x|rec2]; [right; by intros (? & ? & _)|].
  destruct (decide (version rec2 = version (w_rec st) /\ wins_owner rec2 = wins_owner (w_rec st))) as [[]|Hn].
  - left. by exists rec2.
  - right. intros (r & [= <-] & ?). by apply Hn.
Qed.

(** Without the conditions of the comparison the request is denied. *)
Lemma wack_allow_denies st status out s : ~ unchanged_since srv now st s ->
  exists s0, wdb_recs (nb_db s0) = wdb_recs (nb_db s) /\ nb_out s0 = nb_out s /\
    wins_wack_allow srv now st status out s = wins_wack_deny st s0.
Proof.
  intros Hn. unfold wins_wack_allow, st_bind at 1.
  destruct (on_db_lookup (wins_db srv) (name (w_rec st)) now s) as (w' & r & -> & Hr & Hf).
  exists (mk_nbtd w' (nb_out s)). split; [done|]. split; [done|].
  destruct r as [x|rec2]; [done|]. destruct Hf as [?|Hf]; [done|].
  destruct (Z.eqb_spec (version rec2) (version (w_rec st))) as [Ev|]; [|done].
  case_bool_decide as Eo; [|done]. destruct Hn. by exists rec2.
Qed.
End outcome.

(** C31: what a challenge may change.  Whatever answer the challenge brings and
    whichever LDB calls fail, the handler sends at most one reply, changes no
    record of another name, and changes the database or tells the client that
    it owns the name only if the holder did not answer with the name or
    answered with the new address too (and the request is not for a group), and
    the stored record is still the version and owner that was challenged. *)
Theorem challenge_outcome `{TimeCodec} `{LdbQsort} srv now st status out s :
  let s' := (wack_wins_challenge_handler srv now st status out s).2 in
  exists sent, nb_out s' = nb_out s ++ sent /\
  (sent = [] \/ exists rcode, sent = [name_registration_reply (w_src st) (request_packet st) rcode]) /\
  (forall dn, dn <> wins_key (p_name (request_packet st)) -> dn <> wins_key (name (w_rec st)) ->
     wdb_recs (nb_db s') !! dn = wdb_recs (nb_db s) !! dn) /\
  (wdb_recs (nb_db s') <> wdb_recs (nb_db s) \/
   sent = [name_registration_reply (w_src st) (request_packet st) NBT_RCODE_OK] ->
   holder_agrees st status out /\ unchanged_since srv now st s).
Proof.
  intros s'.
  assert (Hdeny : forall s0, wdb_recs (nb_db s0) = wdb_recs (nb_db s) -> nb_out s0 = nb_out s ->
    s' = (wins_wack_deny st s0).2 -> exists sent, nb_out s' = nb_out s ++ sent /\
      wdb_recs (nb_db s') = wdb_recs (nb_db s) /\
      sent = [name_registration_reply (w_src st) (request_packet st) NBT_RCODE_ACT]).
  { intros s0 Hw Ho ->. eexists. simpl. rewrite Hw, Ho. done. }
  assert (Hcases : (exists sent, nb_out s' = nb_out s ++ sent /\ wdb_recs (nb_db s') = wdb_recs (nb_db s) /\
      sent = [name_registration_reply (w_src st) (request_packet st) NBT_RCODE_ACT]) \/
    (holder_agrees st status out /\ unchanged_since srv now st s /\
     s' = (wins_wack_allow srv now st status out s).2)).
  { assert (Hallow : holder_agrees st status out -> s' = (wins_wack_allow srv now st status out s).2 ->
      (exists sent, nb_out s' = nb_out s ++ sent /\ wdb_recs (nb_db s') = wdb_recs (nb_db s) /\
        sent = [name_registration_reply (w_src st) (request_packet st) NBT_RCODE_ACT]) \/
      (holder_agrees st status out /\ unchanged_since srv now st s /\
       s' = (wins_wack_allow srv now st status out s).2)).
    { intros Ha Hs'. destruct (unchanged_since_dec srv now st s) as [Hu|Hu]; [by right|left].
      destruct (wack_allow_denies srv now st status out s Hu) as (s0 & Hw & Ho & E).
      apply (Hdeny s0); [done..|congruence]. }
    unfold s', wack_wins_challenge_handler in *. destruct (NT_STATUS_IS_OK status) eqn:Est; cbn [negb] in *.
    - destruct (type_is (new_type st) WREPL_TYPE_GROUP || _) eqn:Et; [left; by apply (Hdeny s)|].
      apply orb_false_iff in Et as [Hg%bool_decide_eq_false Hsg%bool_decide_eq_false].
      destruct (existsb _ out) eqn:Ein; [|left; by apply (Hdeny s)]. apply Hallow; [|done]. right.
      split; [done|]. split; [done|]. apply existsb_exists in Ein as (o & Ho & He).
      apply bool_decide_eq_true in He as ->. by apply list_elem_of_In.
    - apply Hallow; [|done]. left. by intros ->. }
  destruct Hcases as [(sent & Ho & Hw & ->)|(Ha & Hu & Hs')].
  - eexists. split; [done|]. split; [right; by eexists|]. rewrite Hw. split; [done|]. by intros [?|[=]].
  - destruct (replies_wack_allow srv now st status out s) as (sent & Ho & Hs). rewrite <- Hs' in Ho.
    exists sent. split; [done|]. split; [done|]. split; [|done]. intros dn H1 H2. rewrite Hs'.
    exact (keeps_wack_allow srv now st status out dn H1 H2 s).
Qed.

Section wack_list.
Context `{LdbQsort} (srv : wins_server).

(** The server's own entry for an address. *)
Definition own_addr (a : string) (expire : Z) : winsdb_addr :=
  mk_addr a (local_owner (wins_db srv)) expire.

Definition addrs_ok (l : list winsdb_addr) : Prop := list_ok l /\ (length l <= 25)%nat.

Lemma add_own_ok l a t : addrs_ok l -> 0 <= t < 2 ^ 31 ->
  addrs_ok (add_own srv l a t) /\ own_addr a t ∈ add_own srv l a t /\
  (forall x, x ∈ add_own srv l a t -> x = own_addr a t \/ x ∈ l) /\
  (forall x, x ∈ l -> (length l < 25)%nat -> address x <> a -> x ∈ add_own srv l a t).
Proof.
  intros [[Hd Ht] Hl] Hr. unfold add_own. set (l' := winsdb_addr_list_add _ _ _ _ _ _).
  destruct (winsdb_addr_list_add_cases (wins_db srv) l a (local_owner (wins_db srv)) t true Hd Ht Hl Hr)
    as [(_ & _ & ? & _)|(kept & Hk & Hp & _)]; [done|]. fold l' in Hp.
  destruct (added_kept (wins_db srv) l a true kept Hd Hl Hk) as (Hsub & Hdk & Hak & Hlk).
  split_and!.
  - split; [split|].
    + unfold distinct. rewrite Hp. by constructor.
    + intros x. rewrite Hp, elem_of_cons. intros [-> |Hx]; [done|]. by apply Ht, Hsub.
    + rewrite Hp. simpl. lia.
  - rewrite Hp. left.
  - intros x. rewrite Hp, elem_of_cons. intros [-> |Hx]; [by left|right; by apply Hsub].
  - intros x Hx Hlt Ha. rewrite Hp. right.
    destruct Hk as [(old & _ & Ho & Hpk)|[(_ & _ & ->)|(_ & Hge & _)]]; [|done|lia].
    rewrite Hpk, elem_of_cons in Hx. by destruct Hx as [-> |Hx].
Qed.

Lemma remove_ok l a : addrs_ok l ->
  addrs_ok (winsdb_addr_list_remove l a) /\ forall x, x ∈ winsdb_addr_list_remove l a -> x ∈ l.
Proof.
  intros [[Hd Ht] Hl]. unfold winsdb_addr_list_remove. destruct (find_idx _ l) as [i|]; [|done].
  assert (Hs : sublist (delete i l) l) by apply sublist_delete.
  assert (Hsub : forall x, x ∈ delete i l -> x ∈ l) by (intros x Hx; by eapply elem_of_sublist).
  split; [|done]. split; [split|].
  - apply (sublist_NoDup _ (List.map address l)); [done|]. by apply (fmap_sublist address).
  - intros x Hx. by apply Ht, Hsub.
  - apply sublist_length in Hs. lia.
Qed.

(** The loop ends: the index passes the 25 entries a list can have. *)
Lemma wack_addresses_ok out reg t : 0 <= t < 2 ^ 31 -> forall fuel l i,
  addrs_ok l -> (25 <= i + fuel)%nat ->
  exists l', wack_addresses srv fuel l i out reg t = Some l' /\ addrs_ok l' /\
    forall x, x ∈ l' -> x = own_addr reg t \/ x ∈ l.
Proof.
  intros Ht. induction fuel as [|fuel IH]; intros l i Hl Hi; simpl.
  - destruct (l !! i) eqn:E; [|by exists l; auto].
    apply lookup_lt_Some in E. destruct Hl as [_ Hl]. lia.
  - destruct (l !! i) as [a|] eqn:E; [|by exists l; auto].
    destruct (existsb _ out).
    + destruct (add_own_ok l reg t Hl Ht) as (Hl' & _ & Hin & _).
      destruct (IH _ (S i) Hl' ltac:(lia)) as (l2 & E2 & Hl2 & Hin2).
      exists l2. split; [done|]. split; [done|]. intros x Hx. destruct (Hin2 x Hx); [by left|by apply Hin].
    + destruct (remove_ok l (address a) Hl) as (Hl' & Hin).
      destruct (IH _ (S i) Hl' ltac:(lia)) as (l2 & E2 & Hl2 & Hin2).
      exists l2. split; [done|]. split; [done|]. intros x Hx. destruct (Hin2 x Hx); [by left|right; by apply Hin].
Qed.
Lemma wack_two fuel a b out reg t : (address a ∉ out) ->
  wack_addresses srv (S fuel) [a; b] 0 out reg t = Some [b].
Proof.
  intros Ha. simpl. replace (existsb (fun o => bool_decide (address a = o)) out) with false.
  - unfold winsdb_addr_list_remove, addr_is. simpl. rewrite bool_decide_eq_true_2 by done. by destruct fuel.
  - symmetry. apply not_true_iff_false. intros (o & Ho & He)%existsb_exists.
    apply bool_decide_eq_true in He as <-. by apply Ha, list_elem_of_In.
Qed.
End wack_list.

(** The record a successful challenge stores.  For a record with at most
    25 distinct addresses, and times that fit 32 bits, the loop over the
    addresses ends; the new list has distinct addresses, at most 25, with the
    registered address owned by the server and expiring last to be renewed, and
    otherwise only old entries; the type becomes multi-homed when there are two
    or more.  The loop skips the entry after one it removes: of a record of two
    addresses of which the holder confirms neither, the second stays. *)
Theorem wack_record_correct `{LdbQsort} srv now st out :
  let expire := now + wins_server_ttl srv (p_ttl (request_packet st)) in
  addrs_ok (addresses (w_rec st)) -> 0 <= expire < 2 ^ 31 ->
  exists rec, wack_record srv now st out = Some rec /\
    addrs_ok (addresses rec) /\ own_addr srv (reg_address st) expire ∈ addresses rec /\
    (forall x, x ∈ addresses rec -> x = own_addr srv (reg_address st) expire \/ x ∈ addresses (w_rec st)) /\
    type rec = (if (1 <? length (addresses rec))%nat then WREPL_TYPE_MHOMED else type (w_rec st)) /\
    name rec = name (w_rec st) /\ expire_time rec = expire /\ registered_by rec = Some (w_src st) /\
    (forall a b, addresses (w_rec st) = [a; b] -> (address a ∉ out) -> (address b ∉ out) ->
       address b <> reg_address st -> b ∈ addresses rec).
Proof.
  intros expire Hl He. unfold wack_record. fold expire.
  change (addresses (set_registered (w_rec st) expire (w_src st))) with (addresses (w_rec st)).
  change (expire_time (set_registered (w_rec st) expire (w_src st))) with expire.
  set (l0 := addresses (w_rec st)) in *. set (fuel := S (Nat.max (length l0) 25)).
  destruct (wack_addresses_ok srv out (reg_address st) expire He fuel l0 0 Hl ltac:(lia))
    as (l' & E & Hl' & Hin). rewrite E.
  destruct (add_own_ok srv l' (reg_address st) expire Hl' He) as (Hl2 & Hown & Hin2 & Hkeep).
  set (l2 := add_own srv l' (reg_address st) expire) in *.
  assert (Hlen : (1 <? winsdb_addr_list_length l2) = (1 <? length l2)%nat).
  { unfold winsdb_addr_list_length. destruct (Nat.ltb_spec 1 (length l2)); lia. }
  assert (Htwo : forall a b, l0 = [a; b] -> (address a ∉ out) ->
    address b <> reg_address st -> b ∈ l2).
  { intros a b Eab Ha Hb. unfold fuel in E. rewrite Eab, wack_two in E by done. injection E as <-.
    apply Hkeep; [by left|simpl; lia|done]. }
  eexists. split; [done|]. cbn [addresses set_addresses].
  destruct (1 <? winsdb_addr_list_length l2) eqn:El; cbn [addresses set_addresses set_type].
  all: split; [done|]; split; [done|]; split;
    [intros x Hx; destruct (Hin2 x Hx) as [-> |Hx2]; [by left|by apply Hin]|].
  all: rewrite <- Hlen; split_and!; [done..|]; intros a b Eab Ha _; by apply (Htwo a).
Qed.

(** ** The life of a name *)

Lemma node_flags f : Z.shiftl (node_value (WREPL_NODE_NBT_FLAGS f)) 13 = Z.land f NBT_NM_OWNER_TYPE.
Proof.
  unfold WREPL_NODE_NBT_FLAGS. set (v := Z.shiftr (Z.land f NBT_NM_OWNER_TYPE) 13).
  assert (Hv : v = Z.shiftr f 13 mod 4).
  { unfold v. rewrite Z.shiftr_land. change (Z.shiftr NBT_NM_OWNER_TYPE 13) with (Z.ones 2).
    by rewrite Z.land_ones by lia. }
  assert (Hn : node_value (node_of v) = v).
  { pose proof (Z.mod_pos_bound (Z.shiftr f 13) 4 ltac:(lia)). unfold node_of.
    destruct (Z.eqb_spec v 0), (Z.eqb_spec v 1), (Z.eqb_spec v 2); simpl; lia. }
  rewrite Hn. unfold v. apply Z.bits_inj'. intros i Hi. rewrite Z.shiftl_spec by done.
  destruct (decide (i < 13)) as [Hlt|Hge].
  - rewrite Z.testbit_neg_r by lia. rewrite Z.land_spec.
    change NBT_NM_OWNER_TYPE with (Z.shiftl 3 13). rewrite Z.shiftl_spec_low by lia. by rewrite andb_false_r.
  - rewrite Z.shiftr_spec by lia. f_equal. lia.
Qed.

Section life.
Context `{TimeCodec} `{LdbQsort} (srv : wins_server) (now : Z).
Abbreviation h := (wins_db srv).

Lemma add_own_nil a t : 0 <= t < 2 ^ 31 -> add_own srv winsdb_addr_list_make a t = [own_addr srv a t].
Proof.
  intros Ht. unfold add_own, winsdb_addr_list_add. simpl.
  destruct (addr_list_append_spec h [] a (local_owner h) t) as [Hp _]; [|simpl; lia|done|].
  - intros x Hx. inversion Hx.
  - apply Permutation_sym, Permutation_singleton_l in Hp. done.
Qed.

(** A request for a new unique or multi-homed name that the database can hold,
    on a database where no call fails. *)
Record registrable (s : nbtd) (packet : nbt_name_packet) (src : string) : Prop := {
  rg_quiet : quiet (nb_db s);
  rg_version : 0 <= default 0 (wdb_maxver (nb_db s)) < 2 ^ 64 - 1;
  rg_new : wdb_recs (nb_db s) !! wins_key (p_name packet) = None;
  rg_master : nn_type (p_name packet) <> NBT_NAME_MASTER;
  rg_logon : nn_type (p_name packet) <> NBT_NAME_LOGON;
  rg_browser : nn_type (p_name packet) <> NBT_NAME_BROWSER;
  rg_group : p_nb_flags packet &? NBT_NM_GROUP = false;
  rg_name : (String.length (nn_name (p_name packet)) <= 15)%nat;
  rg_scope : match nn_scope (p_name packet) with
             | Some sc => (String.length sc <= 238)%nat
             | None => True
             end;
  rg_clean : clean_name (p_name packet);
  rg_source : src <> EmptyString;
  rg_address : split_semi (p_ipaddr packet) = None;
  rg_owner : split_semi (local_owner h) = None /\ local_owner h <> "0.0.0.0"%string;
  rg_expire : 0 <= now /\ now < now + wins_server_ttl srv (p_ttl packet) < 2 ^ 31;
  rg_tombstone : 0 <= now + tombstone_interval srv < 2 ^ 31
}.

(** The record a request makes, once it has an owner and a version. *)
Definition registered (packet : nbt_name_packet) (src : string) (ty : wrepl_name_type) (v : Z)
    : winsdb_record := set_version (owned_as h TAKE (new_record srv now packet src ty)) v.

Definition single (ty : wrepl_name_type) : Prop := ty = WREPL_TYPE_UNIQUE \/ ty = WREPL_TYPE_MHOMED.

Lemma registered_addresses s packet src ty v : registrable s packet src ->
  addresses (registered packet src ty v) =
  [own_addr srv (p_ipaddr packet) (now + wins_server_ttl srv (p_ttl packet))].
Proof. intros []. simpl. apply add_own_nil. lia. Qed.

(** A record with the addresses of a new registration, active or released. *)
Lemma registered_storable s packet src ty v : registrable s packet src -> single ty ->
  storable h now (registered packet src ty v).
Proof.
  intros Hg Hty. pose proof (registered_addresses s packet src ty v Hg) as Ha. destruct Hg.
  constructor; rewrite ?Ha; try done; simpl; try (by destruct rg_owner0); try lia.
  - congruence.
  - apply NoDup_singleton.
  - by destruct Hty as [-> | ->].
  - intros _. split.
    + apply List.Forall_cons; [|by apply List.Forall_nil]. destruct rg_owner0. constructor; simpl; [done..|lia].
    + intros _ _. split; [lia|]. apply List.Forall_cons; [simpl; lia|by apply List.Forall_nil].
Qed.

Lemma register_new_state s packet src ty : registrable s packet src -> single ty ->
  exists v w, wins_register_new srv now packet src ty s = (NBT_RCODE_OK, mk_nbtd w (nb_out s)) /\
    quiet w /\
    wdb_recs w !! wins_key (p_name packet) = Some (winsdb_message (registered packet src ty v)).1.
Proof.
  intros Hg Hty. pose proof Hg as []. set (v := version_given TAKE (new_record srv now packet src ty) (nb_db s)).
  destruct (winsdb_add_quiet h (new_record srv now packet src ty) TAKE (nb_db s)) as (mv & E); [done|by intros _| |].
  { by apply (storable_add h now (registered packet src ty v)); [apply (registered_storable s)|]. }
  eexists v, _. split; [unfold wins_register_new, st_bind, on_db; by rewrite E|].
  split; [by apply quiet_again|]. apply lookup_insert_eq.
Qed.

Lemma register_state s packet src : registrable s packet src ->
  exists ty v w, single ty /\
    nbtd_winsserver_register srv now packet src s =
      (tt, mk_nbtd w (nb_out s ++ [name_registration_reply src packet NBT_RCODE_OK])) /\
    quiet w /\
    wdb_recs w !! wins_key (p_name packet) = Some (winsdb_message (registered packet src ty v)).1.
Proof.
  intros Hg. pose proof Hg as []. unfold nbtd_winsserver_register. cbv zeta. rewrite rg_group0.
  rewrite (proj2 (Z.eqb_neq _ _) rg_master0), (proj2 (Z.eqb_neq _ _) rg_logon0),
    (proj2 (Z.eqb_neq _ _) rg_browser0), andb_false_r. cbn [andb negb].
  set (ty := wrepl_type _ _ _).
  assert (Hty : single ty).
  { unfold ty, wrepl_type. rewrite rg_group0, (proj2 (Z.eqb_neq _ _) rg_logon0).
    destruct (_ =? _); [by right|by left]. }
  destruct (register_new_state s packet src ty Hg Hty) as (v & w & E & Hf & Hl).
  exists ty, v, w. split; [done|]. split; [|done].
  unfold st_bind at 1, on_db, winsdb_lookup, ldb_search_dn, st_bind at 1 2 3, st_get, st_ret.
  rewrite ldb_fault_none by apply Hg.
  replace (match wins_key (p_name packet) with Some _ => _ | None => None end) with (@None wins_message)
    by (rewrite rg_new0; by destruct (wins_key _)).
  unfold NT_STATUS_EQUAL. rewrite bool_decide_eq_true_2 by done. unfold st_bind.
  replace (mk_nbtd (nb_db s) (nb_out s)) with s by (by destruct s). by rewrite E.
Qed.

Context (inet_addr : string -> Z) (gethostbyname : string -> option Z).
Abbreviation query := (nbtd_winsserver_query srv now inet_addr gethostbyname).

(** A query for an ordinary name that is in the database. *)
Lemma query_found q src r w out rec :
  quiet w -> wdb_recs w !! wins_key (p_name q) = Some (winsdb_message rec).1 ->
  storable h now rec -> name rec = p_name q -> single (type rec) ->
  nn_type (p_name q) <> NBT_NAME_MASTER -> nn_type (p_name q) <> NBT_NAME_LOGON ->
  query q src r (mk_nbtd w out) =
  (tt, mk_nbtd w (out ++
     [if state_is (state rec) WREPL_STATE_ACTIVE
      then name_query_reply src q (Z.shiftl (node_value (node rec)) 13) (List.map address (addresses rec))
      else negative_name_query_reply src q])).
Proof.
  intros Hf Hl Hs Hn Hty Hm Hlog. unfold nbtd_winsserver_query.
  rewrite (proj2 (Z.eqb_neq _ _) Hm), (proj2 (Z.eqb_neq _ _) Hlog). cbn [andb].
  unfold st_bind at 1, st_ret at 1, st_bind at 1, on_db. cbn [nb_db nb_out].
  rewrite (lookup_found h now rec (p_name q)) by (done || apply Hf).
  replace (type_is (type rec) WREPL_TYPE_GROUP) with false
    by (symmetry; apply bool_decide_eq_false; destruct Hty; congruence).
  replace (type_is (type rec) WREPL_TYPE_SGROUP) with false
    by (symmetry; apply bool_decide_eq_false; destruct Hty; congruence).
  by destruct (state_is (state rec) WREPL_STATE_ACTIVE).
Qed.

(** What the release of the only address leaves. *)
Definition released (packet : nbt_name_packet) (src : string) (ty : wrepl_name_type) (v : Z) : winsdb_record :=
  set_state (released_record (registered packet src ty v) (p_ipaddr packet)) WREPL_STATE_RELEASED
    (now + tombstone_interval srv).

Lemma released_state s packet src ty v : registrable s packet src -> single ty ->
  released_record (registered packet src ty v) (p_ipaddr packet) =
  set_state (set_addresses (registered packet src ty v)
               (match ty with WREPL_TYPE_MHOMED => [] | _ => addresses (registered packet src ty v) end))
    WREPL_STATE_RELEASED (expire_time (registered packet src ty v)).
Proof.
  intros Hg Hty. pose proof (registered_addresses s packet src ty v Hg) as Ha.
  assert (Ht : type (registered packet src ty v) = ty) by done. unfold released_record. rewrite Ht.
  destruct Hty as [-> | ->]; [done|]. rewrite Ha.
  unfold winsdb_addr_list_remove, addr_is. simpl. by rewrite bool_decide_eq_true_2.
Qed.

Lemma released_storable s packet src ty v : registrable s packet src -> single ty ->
  storable h now (released packet src ty v).
Proof.
  intros Hg Hty. unfold released. rewrite (released_state s) by done.
  pose proof (registered_storable s packet src ty v Hg Hty) as Hs. destruct Hs.
  pose proof (registered_addresses s packet src ty v Hg) as Ha.
  constructor; try done; simpl in *.
  - destruct Hty as [-> | ->]; [done|constructor].
  - apply Hg.
  - destruct Hty as [-> | ->]; simpl; [done|lia].
  - destruct Hty as [-> | ->]; done.
  - intros _. split; [|done]. destruct Hty as [-> | ->]; [by apply s_dynamic|by apply List.Forall_nil].
Qed.

Lemma release_modify s packet src ty v w : registrable s packet src -> single ty ->
  quiet w ->
  wdb_recs w !! wins_key (p_name packet) = Some (winsdb_message (registered packet src ty v)).1 ->
  exists r w', winsdb_modify h (released packet src ty v) 0 w = (r, w') /\ quiet w' /\
    wdb_recs w' !! wins_key (p_name packet) = Some (winsdb_message (released packet src ty v)).1.
Proof.
  intros Hg Hty Hq Hl. pose proof (released_storable s packet src ty v Hg Hty) as Hs.
  assert (name (released packet src ty v) = p_name packet /\ wins_owner (released packet src ty v) = local_owner h)
    as [Hnm Ho] by (unfold released; by rewrite (released_state s)).
  set (rec := released packet src ty v) in *. clearbody rec.
  assert (set_version (owned_as h 0 rec) (version_given 0 rec w) = rec) as Hself by (by destruct rec).
  rewrite winsdb_modify_quiet; [|done|done|].
  - rewrite Hself. eexists _, _. split; [done|]. split; [by apply quiet_again|]. cbn [wdb_recs].
    unfold put_changed. rewrite Hnm, lookup_alter_eq, Hl. cbn [fmap option_fmap option_map]. f_equal.
    by apply replace_message.
  - rewrite Hself, Hnm. destruct (message_accepted _ _ _ Hs) as (Hk & Hc & Hd). rewrite Hnm in Hk.
    unfold can_modify. by rewrite Hc, Hl, !bool_decide_eq_true_2 by eauto.
Qed.

Lemma release_done s packet src ty v rel w out : registrable s packet src -> single ty ->
  quiet w ->
  wdb_recs w !! wins_key (p_name packet) = Some (winsdb_message (registered packet src ty v)).1 ->
  p_name rel = p_name packet ->
  exists w', nbtd_winsserver_release srv now rel (p_ipaddr packet) (mk_nbtd w out) =
      (tt, mk_nbtd w' (out ++ [name_release_reply (p_ipaddr packet) rel NBT_RCODE_OK])) /\
    quiet w' /\
    wdb_recs w' !! wins_key (p_name packet) = Some (winsdb_message (released packet src ty v)).1.
Proof.
  intros Hg Hty Hq Hl Hn. pose proof (registered_storable s packet src ty v Hg Hty) as Hs.
  pose proof (registered_addresses s packet src ty v Hg) as Ha.
  unfold nbtd_winsserver_release. rewrite Hn, (proj2 (Z.eqb_neq _ _) (rg_master _ _ _ Hg)).
  unfold st_bind at 1, on_db at 1. cbn [nb_db nb_out].
  rewrite (lookup_found h now (registered packet src ty v) (p_name packet)) by (done || apply Hq).
  change (is_static (registered packet src ty v)) with false.
  change (state (registered packet src ty v)) with WREPL_STATE_ACTIVE.
  unfold state_is at 1. rewrite bool_decide_eq_true_2 by done. cbn [negb].
  unfold winsdb_addr_list_check. rewrite Ha. cbn [List.find addr_is address own_addr].
  unfold addr_is. cbn [address own_addr]. rewrite bool_decide_eq_true_2 by done.
  pose proof (released_state s packet src ty v Hg Hty) as Hr.
  assert (Hst : state_is (state (released_record (registered packet src ty v) (p_ipaddr packet)))
                  WREPL_STATE_RELEASED = true) by (rewrite Hr; by apply bool_decide_eq_true).
  assert (Ho : wins_owner (released_record (registered packet src ty v) (p_ipaddr packet)) = local_owner h)
    by (by rewrite Hr).
  cbv zeta. rewrite Hst, bool_decide_eq_true_2 by done. fold (released packet src ty v).
  destruct (release_modify s packet src ty v w Hg Hty Hq Hl) as (r & w' & E & Hq' & Hl').
  unfold st_bind, on_db. cbn [nb_db nb_out]. rewrite E. eexists. split; [done|]. by split.
Qed.

Lemma request_dispatch p src r : p_operation p &? NBT_FLAG_BROADCAST = false ->
  (Z.land (p_operation p) NBT_OPCODE = NBT_OPCODE_QUERY ->
   nbtd_winsserver_request srv now inet_addr gethostbyname p src r = query p src r) /\
  (Z.land (p_operation p) NBT_OPCODE = NBT_OPCODE_REGISTER ->
   nbtd_winsserver_request srv now inet_addr gethostbyname p src r =
   nbtd_winsserver_register srv now p src) /\
  (Z.land (p_operation p) NBT_OPCODE = NBT_OPCODE_RELEASE ->
   nbtd_winsserver_request srv now inet_addr gethostbyname p src r =
   nbtd_winsserver_release srv now p src).
Proof. intros Hb. unfold nbtd_winsserver_request. rewrite Hb. by split_and!; intros ->. Qed.
End life.

(** C30: the life of a name.  On a database where no call fails, a client's
    request for a new unique name that the database can hold is answered with
    success; every query for it is then answered with the client's address and
    node type; the release by that address is answered with success; and every
    query after it is answered negatively.  A name the database can hold has no
    byte of the DN syntax and no blank at an end (a registration of another one
    may be refused, see [WinsDb.name_refused], or reach another name's record);
    the client and the local owner have addresses that the attributes can
    hold. *)
Theorem name_life `{TimeCodec} `{LdbQsort} srv now inet_addr gethostbyname s reg src query1 src1 r1
    rel query2 src2 r2 :
  let request := nbtd_winsserver_request srv now inet_addr gethostbyname in
  let op p code := p_operation p &? NBT_FLAG_BROADCAST = false /\
                   Z.land (p_operation p) NBT_OPCODE = code /\ p_name p = p_name reg in
  registrable srv now s reg src ->
  op reg NBT_OPCODE_REGISTER -> op query1 NBT_OPCODE_QUERY ->
  op rel NBT_OPCODE_RELEASE -> op query2 NBT_OPCODE_QUERY ->
  let s1 := (request reg src 0 s).2 in
  let s2 := (request query1 src1 r1 s1).2 in
  let s3 := (request rel (p_ipaddr reg) 0 s2).2 in
  let s4 := (request query2 src2 r2 s3).2 in
  nb_out s4 = nb_out s ++
    [name_registration_reply src reg NBT_RCODE_OK;
     name_query_reply src1 query1 (Z.land (p_nb_flags reg) NBT_NM_OWNER_TYPE) [p_ipaddr reg];
     name_release_reply (p_ipaddr reg) rel NBT_RCODE_OK;
     negative_name_query_reply src2 query2].
Proof.
  intros request op Hg (B1 & O1 & _) (B2 & O2 & N2) (B3 & O3 & N3) (B4 & O4 & N4). unfold request.
  destruct (register_state srv now s reg src Hg) as (ty & v & w1 & Hty & E1 & Hf1 & Hl1).
  pose proof (registered_storable srv now s reg src ty v Hg Hty) as Hs1.
  pose proof (registered_addresses srv now s reg src ty v Hg) as Ha.
  pose proof (fun out => release_done srv now s reg src ty v rel w1 out Hg Hty Hf1 Hl1 N3) as R.
  pose proof (released_storable srv now s reg src ty v Hg Hty) as Hs3.
  pose proof (released_state srv now s reg src ty v Hg Hty) as Hr.
  pose proof (rg_master _ _ _ _ _ Hg) as Hm. pose proof (rg_logon _ _ _ _ _ Hg) as Hlog.
  rewrite (proj1 (proj2 (request_dispatch srv now inet_addr gethostbyname reg src 0 B1)) O1), E1.
  rewrite (proj1 (request_dispatch srv now inet_addr gethostbyname query1 src1 r1 B2) O2). cbn [snd].
  rewrite (query_found srv now inet_addr gethostbyname query1 src1 r1 w1 _ (registered srv now reg src ty v))
    by (done || by rewrite N2).
  rewrite (proj2 (proj2 (request_dispatch srv now inet_addr gethostbyname rel (p_ipaddr reg) 0 B3)) O3).
  cbn [snd]. destruct (R (nb_out s ++ [name_registration_reply src reg NBT_RCODE_OK] ++
    [if state_is (state (registered srv now reg src ty v)) WREPL_STATE_ACTIVE
     then name_query_reply src1 query1 (Z.shiftl (node_value (node (registered srv now reg src ty v))) 13)
            (List.map address (addresses (registered srv now reg src ty v)))
     else negative_name_query_reply src1 query1])) as (w3 & E3 & Hf3 & Hl3).
  rewrite <- app_assoc, E3.
  rewrite (proj1 (request_dispatch srv now inet_addr gethostbyname query2 src2 r2 B4) O4). cbn [snd].
  rewrite (query_found srv now inet_addr gethostbyname query2 src2 r2 w3 _ (released srv now reg src ty v)).
  - cbn [snd nb_out]. rewrite Ha. change (node (registered srv now reg src ty v))
      with (WREPL_NODE_NBT_FLAGS (p_nb_flags reg)). rewrite node_flags.
    unfold released. rewrite Hr. by rewrite <- !app_assoc.
  - done.
  - by rewrite N4.
  - done.
  - unfold released. by rewrite Hr, N4.
  - unfold released. rewrite Hr. done.
  - by rewrite N4.
  - by rewrite N4.
Qed.

(** ** Releases *)

Lemma stored_state `{TimeCodec} h flags rec v : state rec <> WREPL_STATE_ACTIVE ->
  state (winsdb_fixup (set_version (owned_as h flags rec) v)) = state rec.
Proof.
  intros Hs. assert (Ho : state (set_version (owned_as h flags rec) v) = state rec)
    by (unfold owned_as; by destruct (flags &? _)).
  unfold winsdb_fixup, state_is. cbv zeta. rewrite Ho. by rewrite bool_decide_eq_false_2.
Qed.

(** Only a holder releases a name.  Whichever LDB calls fail, a release is
    answered with exactly one reply, positive unless the record is a static
    group.  If it changes the database, the record was active, not static, and
    lists the address the release came from; the record its name leads to is
    replaced by the released one: with our record released until the tombstone interval has
    passed, another server's a tombstone that we own, and a group or
    multi-homed record with other addresses left still active without the
    address of the client. *)
Theorem release_by_holder `{TimeCodec} `{LdbQsort} srv now packet src s :
  let s' := (nbtd_winsserver_release srv now packet src s).2 in
  (exists rcode, nb_out s' = nb_out s ++ [name_release_reply src packet rcode] /\
     (rcode = NBT_RCODE_OK \/
      rcode = NBT_RCODE_ACT /\ exists rec, is_static rec = true /\
        lookup_result (wins_db srv) (p_name packet) now (nb_db s) = inr rec)) /\
  (wdb_recs (nb_db s') = wdb_recs (nb_db s) \/
   exists rec rec', lookup_result (wins_db srv) (p_name packet) now (nb_db s) = inr rec /\
     is_static rec = false /\ state rec = WREPL_STATE_ACTIVE /\ src ∈ List.map address (addresses rec) /\
     wdb_recs (nb_db s') = alter (fun old => ldb_replace old (winsdb_message rec').1) (wins_key (name rec))
                             (wdb_recs (nb_db s)) /\
     addresses rec' = addresses (released_record rec src) /\
     (state (released_record rec src) = WREPL_STATE_RELEASED -> wins_owner rec = local_owner (wins_db srv) ->
        state rec' = WREPL_STATE_RELEASED /\ expire_time rec' = now + tombstone_interval srv) /\
     (state (released_record rec src) = WREPL_STATE_RELEASED -> wins_owner rec <> local_owner (wins_db srv) ->
        state rec' = WREPL_STATE_TOMBSTONE /\ wins_owner rec' = local_owner (wins_db srv) /\
        expire_time rec' = now + tombstone_interval srv + tombstone_timeout srv)).
Proof.
  intros s'. assert (Hs' : s' = (nbtd_winsserver_release srv now packet src s).2) by done. clearbody s'.
  unfold nbtd_winsserver_release in Hs'. destruct (nn_type (p_name packet) =? NBT_NAME_MASTER).
  { rewrite Hs'. split; [eexists; split; [done|by left]|by left]. }
  unfold st_bind at 1 in Hs'.
  destruct (on_db_lookup (wins_db srv) (p_name packet) now s) as (w & r & E & Hr & Hf). rewrite E in Hs'.
  destruct r as [x|rec]; [rewrite Hs'; split; [eexists; split; [done|by left]|by left]|].
  destruct Hf as [?|Hf]; [done|]. destruct (is_static rec) eqn:Est.
  { rewrite Hs'. split; [|left; by case_match].
    case_match; eexists; (split; [done|]); [by left|right; split; [done|by exists rec]]. }
  destruct (state_is (state rec) WREPL_STATE_ACTIVE) eqn:Eact; cbn [negb] in Hs';
    [|rewrite Hs'; split; [eexists; split; [done|by left]|by left]].
  apply bool_decide_eq_true in Eact.
  destruct (winsdb_addr_list_check (addresses rec) src) as [a|] eqn:Ea;
    [|rewrite Hs'; split; [eexists; split; [done|by left]|by left]].
  apply list_check_Some in Ea as [Hin Haddr].
  assert (Hn : name (released_record rec src) = name rec)
    by (destruct rec as [? [] ? ? ? ? ? ? ? ?]; cbn; repeat case_match; done).
  set (rr := released_record rec src) in *.
  assert (Hown : wins_owner rr = wins_owner rec)
    by (unfold rr; destruct rec as [? [] ? ? ? ? ? ? ? ?]; cbn; repeat case_match; done).
  set (p := if state_is (state rr) WREPL_STATE_RELEASED then _ else _) in Hs'.
  destruct p as [rec2 flags] eqn:Ep. unfold st_bind, on_db in Hs'. cbn [nb_db nb_out] in Hs'.
  pose proof (winsdb_modify_stored (wins_db srv) rec2 flags w) as Hst. cbv zeta in Hst.
  destruct (winsdb_modify (wins_db srv) rec2 flags w) as [[rc rec'] w']. cbn [fst snd] in Hs'.
  rewrite Hs'. split; [eexists; split; [done|by left]|]. cbn [nb_db snd send st_modify].
  destruct Hst as (_ & [(_ & Hrec' & Hw & _)|(_ & Hw & _)] & _); [right|left; congruence].
  assert (Hp : name rec2 = name rr /\ addresses rec2 = addresses rr /\
    (state rr = WREPL_STATE_RELEASED -> wins_owner rec = local_owner (wins_db srv) ->
       state rec2 = WREPL_STATE_RELEASED /\ expire_time rec2 = now + tombstone_interval srv) /\
    (state rr = WREPL_STATE_RELEASED -> wins_owner rec <> local_owner (wins_db srv) ->
       state rec2 = WREPL_STATE_TOMBSTONE /\ flags = TAKE /\
       expire_time rec2 = now + tombstone_interval srv + tombstone_timeout srv)).
  { unfold p, state_is in Ep. rewrite Hown in Ep.
    repeat case_bool_decide; injection Ep as <- <-; split_and!; done. }
  destruct Hp as (Hpn & Hpa & Hp1 & Hp2). exists rec, rec'. fold rr. split_and!; [done..| | | | |].
  - rewrite <- Haddr. by apply list_elem_of_In, in_map, list_elem_of_In.
  - rewrite Hw, Hr, Hpn. by rewrite Hn.
  - rewrite Hrec', <- Hpa. unfold owned_as. by destruct (flags &? _).
  - intros H1 H2. destruct (Hp1 H1 H2) as [H3 H4]. rewrite Hrec', stored_state by (by rewrite H3).
    split; [done|]. rewrite <- H4. by unfold owned_as; destruct (flags &? _).
  - intros H1 H2. destruct (Hp2 H1 H2) as (H3 & -> & H4). rewrite Hrec', stored_state by (by rewrite H3).
    by rewrite <- H4.
Qed.

(** ** The order of the answers *)

Section randomize.
Context `{LdbQsort} (srv : wins_server).
Context (inet_addr : string -> Z) (gethostbyname : string -> option Z).

Lemma match_bits_range k x y m : m <= match_bits k x y m <= m + Z.of_nat k.
Proof.
  revert m. induction k as [|k IH]; intros m; cbn [match_bits]; [lia|].
  destruct (negb _); [lia|]. specialize (IH (m + 1)). lia.
Qed.

Lemma match_bytes_range k ip1 ip2 m : m <= match_bytes k ip1 ip2 m <= m + 8 * Z.of_nat k.
Proof.
  revert m. induction k as [|k IH]; intros m; cbn [match_bytes]; [lia|]. cbv zeta.
  pose proof (match_bits_range 8 (ip_byte ip1 (3 - k)) (ip_byte ip2 (3 - k)) m).
  destruct (negb _); [lia|]. specialize (IH (m + 8)). lia.
Qed.

Lemma ipv4_match_bits_range ip1 ip2 : 0 <= ipv4_match_bits ip1 ip2 <= 32.
Proof. pose proof (match_bytes_range 4 ip1 ip2 0). unfold ipv4_match_bits. lia. Qed.

Lemma randomize_sort_consistent src l : Z.of_nat (length l) < 2 ^ 64 ->
  cmp_consistent (nbtd_wins_randomize1Clist_sort inet_addr gethostbyname src) l.
Proof.
  intros Hl. assert (Hs : forall a b, nbtd_wins_randomize1Clist_sort inet_addr gethostbyname src a b =
    ipv4_match_bits (interpret_addr inet_addr gethostbyname b) (interpret_addr inet_addr gethostbyname src) -
    ipv4_match_bits (interpret_addr inet_addr gethostbyname a) (interpret_addr inet_addr gethostbyname src)).
  { intros a b. unfold nbtd_wins_randomize1Clist_sort. apply s32_u32.
    pose proof (ipv4_match_bits_range (interpret_addr inet_addr gethostbyname a)
                  (interpret_addr inet_addr gethostbyname src)).
    pose proof (ipv4_match_bits_range (interpret_addr inet_addr gethostbyname b)
                  (interpret_addr inet_addr gethostbyname src)). lia. }
  constructor; [intros; rewrite !Hs; lia|intros *; rewrite !Hs; lia|done].
Qed.

(** The index goes down, so the loop ends, at an index of the list. *)
Lemma choose_first_ends addrs src mask r : forall fuel idx sidx,
  0 <= idx < Z.of_nat (length addrs) -> 0 <= sidx < Z.of_nat (length addrs) -> idx < Z.of_nat fuel ->
  exists i, choose_first inet_addr gethostbyname fuel addrs src mask r idx sidx = Some i /\
    0 <= i < Z.of_nat (length addrs).
Proof.
  induction fuel as [|fuel IH]; intros idx sidx Hi Hs Hf; [lia|]. simpl.
  destruct (iface_same_net _ _ _ _ _); [by exists idx|].
  destruct (Z.eqb_spec idx 0); [by exists sidx|].
  pose proof (Z.mod_pos_bound (u32 r) idx ltac:(lia)). apply IH; lia.
Qed.

(** Whatever [random()] gives, the answer lists the same addresses. *)
Theorem randomize_permutation addrs src r : Z.of_nat (length addrs) < 2 ^ 64 ->
  exists addrs', nbtd_wins_randomize1Clist srv inet_addr gethostbyname addrs src r = Some addrs' /\
    Permutation addrs' addrs.
Proof.
  intros Hl. unfold nbtd_wins_randomize1Clist. cbv zeta.
  destruct (Z.leb_spec (Z.of_nat (length addrs)) 1); [by exists addrs|].
  pose proof (ldb_qsort_perm _ _ (randomize_sort_consistent src addrs Hl)) as Hp.
  set (l := ldb_qsort _ addrs) in *. pose proof (Permutation_length Hp) as Hlen.
  pose proof (Z.mod_pos_bound (u32 r) (Z.of_nat (length addrs)) ltac:(lia)).
  destruct (choose_first_ends l src (default "255.255.255.0"%string (wins_randomize1Clist_mask srv)) r
    (S (length l)) (u32 r mod Z.of_nat (length addrs)) (u32 r mod Z.of_nat (length addrs)))
    as (i & -> & Hi); [lia..|].
  eexists. split; [done|]. rewrite <- Hp.
  destruct (lookup_lt_is_Some_2 l 0) as [x Hx]; [lia|].
  destruct (lookup_lt_is_Some_2 l (Z.to_nat i)) as [y Hy]; [lia|].
  rewrite Hx, Hy. simpl. by apply Permutation_insert_swap.
Qed.
End randomize.

(** ** Witnesses *)

Definition ex_winssrv : wins_server :=
  mk_winssrv ex_wh 100 10000 500 800 false true false None true.
Definition ex_reg : nbt_name_packet := mk_packet NBT_OPCODE_REGISTER ex_name 300 0x6000 "10.1.1.1".
Definition ex_other : nbt_name_packet := mk_packet NBT_OPCODE_REGISTER ex_name 300 0x6000 "10.9.9.9".
Definition ex_query : nbt_name_packet := mk_packet NBT_OPCODE_QUERY ex_name 0 0 "".
Definition ex_rel : nbt_name_packet := mk_packet NBT_OPCODE_RELEASE ex_name 0 0 "10.1.1.1".
Definition ex_nbtd : nbtd := mk_nbtd ex_wdb [].

(** The record of [ex_name] once it is registered, and the server holding it. *)
Definition ex_held : winsdb_record :=
  mk_wrec ex_name WREPL_TYPE_UNIQUE WREPL_STATE_ACTIVE WREPL_NODE_H false 1300 1 "10.0.0.1"
    [mk_addr "10.1.1.1" "10.0.0.1" 1300] (Some "10.1.1.1"%string).
Definition ex_nbtd_held : nbtd :=
  mk_nbtd (mk_wdb {[wins_key ex_name := (winsdb_message (H:=ldb_time) ex_held).1]} (Some 1) None []) [].

(** A second address, and the challenge of it. *)
Definition ex_wack : wack_state :=
  mk_wack ex_other
    (set_addresses ex_held [mk_addr "10.1.1.1" "10.0.0.1" 1300; mk_addr "10.1.1.2" "10.0.0.1" 1300])
    "10.9.9.9" "10.9.9.9" WREPL_TYPE_UNIQUE.

Lemma ex_registrable : registrable ex_winssrv 1000 ex_nbtd ex_reg "10.1.1.1".
Proof. constructor; try exact ex_name_clean; try done; cbn; lia. Defined.

Example held_name_challenged_witness :
  refused_or_challenged ex_winssrv ex_other "10.9.9.9" ex_held ex_nbtd_held
    (nbtd_winsserver_register (H:=ldb_time) (H0:=ldb_qsort_impl) ex_winssrv 1000 ex_other "10.9.9.9" ex_nbtd_held).2.
Proof.
  apply (held_name_challenged (H:=ldb_time) (H0:=ldb_qsort_impl) ex_winssrv 1000 ex_other "10.9.9.9" ex_nbtd_held
           ex_held);
    [vm_compute; reflexivity|reflexivity|reflexivity|by left|reflexivity].
Defined.

Example wack_record_correct_witness : exists rec,
  wack_record (H0:=ldb_qsort_impl) ex_winssrv 1000 ex_wack ["10.9.9.9"%string] = Some rec /\
  mk_addr "10.1.1.2" "10.0.0.1" 1300 ∈ addresses rec.
Proof.
  destruct (wack_record_correct (H:=ldb_qsort_impl) ex_winssrv 1000 ex_wack ["10.9.9.9"%string])
    as (rec & E & _ & _ & _ & _ & _ & _ & _ & Htwo).
  - split; [split; [apply (bool_decide_unpack _); reflexivity|]|simpl; lia].
    intros a Ha. repeat (apply elem_of_cons in Ha as [-> |Ha]; [simpl; lia|]). inversion Ha.
  - split; [vm_compute; discriminate|vm_compute; reflexivity].
  - exists rec. split; [exact E|].
    apply (Htwo (mk_addr "10.1.1.1" "10.0.0.1" 1300));
      [reflexivity|apply (bool_decide_unpack _); reflexivity..|discriminate].
Defined.

Example name_life_witness :
  let request := nbtd_winsserver_request (H:=ldb_time) (H0:=ldb_qsort_impl) ex_winssrv 1000
                   (fun _ => 0) (fun _ => None) in
  let s1 := (request ex_reg "10.1.1.1" 0 ex_nbtd).2 in
  let s2 := (request ex_query "10.5.5.5" 0 s1).2 in
  let s3 := (request ex_rel "10.1.1.1" 0 s2).2 in
  let s4 := (request ex_query "10.5.5.5" 0 s3).2 in
  nb_out s4 =
    [name_registration_reply "10.1.1.1" ex_reg NBT_RCODE_OK;
     name_query_reply "10.5.5.5" ex_query 0x6000 ["10.1.1.1"%string];
     name_release_reply "10.1.1.1" ex_rel NBT_RCODE_OK;
     negative_name_query_reply "10.5.5.5" ex_query].
Proof.
  apply (name_life (H:=ldb_time) (H0:=ldb_qsort_impl) ex_winssrv 1000 (fun _ => 0) (fun _ => None) ex_nbtd
           ex_reg "10.1.1.1" ex_query "10.5.5.5" 0 ex_rel ex_query "10.5.5.5" 0 ex_registrable);
    split_and!; reflexivity.
Defined.
